(* ===== verification/_CoqProject ===== *)
-Q . S2P
Prelude.v
ReplBits.v
Inode.v
ReplWalk.v
BmapMds.v
ReplMds.v
ReplReq.v
Replay.v
Timeo.v
Lease.v
LeaseInv.v
LeaseOps.v
LeaseProps.v
IosSelect.v
BmapAssign.v
CrcWrite.v
Batch.v
Bandwidth.v
UpSched.v
UpSchedProps.v
Slvr.v
SlvrIO.v
SlvrInv.v
SlvrReq.v
SlvrThreads.v
SlvrProps.v
SlvrFaults.v
ReplIod.v
ReplIodInv.v
ReplIodStep.v
ReplIodAdd.v
ReplIodProps.v
CrcFlow.v
Reclaim.v
ReclaimInv.v
ReclaimStep.v
ReclaimInit.v
ReclaimSys.v
ReclaimRound.v
ReclaimProps.v
Pgcache.v
PgcacheInv.v
Coalesce.v
CoalesceProps.v
Cio.v
CioInv.v
CioFrame.v
CioTop.v
CioStart.v
CioValid.v
CioRead.v
CioLoad.v
CioEnd.v
CioReply.v
CioWrite.v
CioQueue.v
CioFlush.v
CioSend.v
CioRun.v
CioDrain.v
CioProps.v
CioEx.v
CliLease.v
CliBmap.v
DirCache.v
DirCacheInv.v
DirCacheStep.v
DirCacheProps.v
