(* ===== verification/Prelude.v ===== *)
(** * A verification library for the SLASH2 file system

    SLASH2 is a distributed file system. A metadata server ([slashd]) keeps
    the namespace and, for every file, an inode with the list of the I/O
    systems that hold copies ("replicas") and one record per 128 MB chunk
    (a "bmap") with the CRCs of its slivers and the state of each replica.
    I/O servers ([sliod]) store the data and report CRCs. Clients
    ([mount_slash]) obtain leases on bmaps from the metadata server before they
    read or write. This library models the part of the metadata server that
    decides which copies of the data are good and who may use them, the data
    path of the I/O servers with the CRCs they report, and the page cache, the
    write-back, the leases and the directory cache of a client, and proves these
    parts correct.

    ** How the parts interact

    A request to replicate or to drop copies ([mds_repl_addrq],
    [mds_repl_delrq]) looks the I/O systems up in the inode's replica table,
    gets the bmaps through the bmap cache, changes replica states by walks of
    the bitmap, writes the bmap and logs the change; a worker then brings the
    table of pending work ("upsch") up to date. A write by a client needs a
    lease, which binds the bmap to one I/O system through an entry of the
    assignment table; the CRC updates of that system invalidate the other
    copies. After a crash the journal is replayed on what the metafiles hold.
    The update scheduler scans bmaps with pending work, reserves bandwidth
    between a source and a destination, marks the replica and puts an entry in
    a batch for the destination; the answer to the batch runs a callback that
    brings the replica to its final state and returns the bandwidth.

    An I/O server keeps the 1 MB slivers of a bmap in a cache of slabs. A
    request of a client takes its slivers, moves data between slabs and
    network, writes the file and releases the slivers; a sliver that was
    written waits for its CRC, which a thread computes and adds to a report for
    the metadata server; another thread sends the reports. The reports are what
    [mds_bmap_crc_write] handles. A batch of replication work makes a server
    the destination of copies: a thread asks the source for the slivers of each
    bmap, the replies are written to the file, and when all entries of the
    batch are done the metadata server gets their results.

    When a file is removed or truncated to zero the metadata server writes a
    record to its reclaim log; a thread sends the log, batch by batch, to the
    I/O servers, which remove the backing files, and keeps in a progress file
    how far each of them is.

    A client keeps the 32 KB pages of a bmap in memory. A read or a write of a
    file becomes a request for each bmap, which takes references to its pages; a
    read loads the pages that are not valid from an I/O server, after the writes
    that are pending were sent, and a write copies its data in, is answered at
    once and is put into a tree of pending writes. A thread joins pending writes
    that touch each other into RPCs, pins their pages while an RPC is under way,
    and puts writes back when it fails. Pages without users are kept on lists
    until a reaper takes them. Before it takes on new work a client extends its
    lease; another thread gives back the leases of bmaps nobody uses.

    A client also keeps pages of directory entries. A READDIR makes a page, its
    reply registers the entries, which are found by name in a hash table until
    they are removed or the page expires; names that come from other operations
    are entries without a page. [readdir] answers from a page, or issues a READDIR
    and waits.

    ** Files

    - [Prelude.v]: outcomes and the state monad, the rules of its weakest
      preconditions ([wp]), error codes, flag words, generic list lemmas.
    - [ReplBits.v]: the packed table of 3-bit states ([include/bmap.h]).
    - [Inode.v]: inode handles and the replica table ([slashd/inode.c],
      [_mds_repl_ios_lookup] of [slashd/repl_mds.c]).
    - [ReplWalk.v]: walks of the replica bitmap ([_mds_repl_bmap_walk],
      [_mds_repl_bmap_apply]).
    - [BmapMds.v]: load and store of bmaps ([slashd/bmap_mds.c]), the journal
      entries about them ([slashd/mdslog.c]), the traffic estimate.
    - [ReplMds.v]: several lookups at once, invalidation after a write and the
      upsch table ([_mds_repl_iosv_lookup], [_mds_repl_inv_except],
      [slm_repl_upd_write]).
    - [ReplReq.v]: the bmap cache ([share/bmap.c]) and the requests of users.
    - [Replay.v]: CRC updates ([mds_bmap_crc_update]) and the replay of the
      journal ([slashd/jreplay.c]).
    - [Timeo.v]: lease sequence numbers ([slashd/mds_bmap_timeo.c]) and their
      low mark at the I/O servers ([sliod/bmap_iod.c]).
    - [Lease.v]: bmap leases ([slashd/mds.c], [slashd/coh.c]); [LeaseInv.v]: the
      abstract view of the lists and rings of leases, and their walks;
      [LeaseOps.v]: the invariant and each operation against it;
      [LeaseProps.v]: the theorems on leases.
    - [IosSelect.v]: the choice of an I/O system for a writer
      ([slm_resm_select] of [slashd/mds.c]).
    - [BmapAssign.v]: the registration of the chosen system in the replica
      table ([mds_bmap_add_repl]), the replay of assignments
      ([mds_replay_bmap_assign]), and the file as an instance of what leases
      expect of it.
    - [CrcWrite.v]: CRC reports of I/O servers ([mds_bmap_crc_write],
      [slm_rmi_handle_bmap_crcwrt] of [slashd/rmi.c]), on top of leases,
      replica states and [mds_bmap_crc_update].
    - [Batch.v]: batched requests ([slashd/rpc_mds.c]) with the runs of the
      threads that add, send, complete and answer them.
    - [Bandwidth.v]: bandwidth between I/O systems ([resmpair_bw_adj]).
    - [UpSched.v]: the update scheduler ([slashd/up_sched_res.c]);
      [UpSchedProps.v]: its theorems.
    - [Slvr.v]: slivers of an I/O server ([sliod/slvr.c]); [SlvrIO.v]: requests
      of clients ([sliod/ric.c]), readahead, CRC threads and reports
      ([sliod/slvr_worker.c], [sliod/bmap_iod.c]); [SlvrInv.v]: the invariant
      of the cache and the operations on slivers against it; [SlvrReq.v]:
      requests; [SlvrThreads.v]: the threads, and the invariant of the reports;
      [SlvrProps.v]: runs, their specification as a plain file, the theorems;
      [SlvrFaults.v]: theorems on errors.
    - [ReplIod.v]: replication on the I/O servers ([sliod/repl_iod.c],
      [sliod/rii.c], [sli_rim_handle_batch] of [sliod/rim.c],
      [sli_rmi_issue_repl_schedwk] of [sliod/rmi.c]), on top of the sliver
      cache; [ReplIodInv.v]: its invariant; [ReplIodStep.v]: the rounds of the
      thread and the replies to reads; [ReplIodAdd.v]: batches that come in;
      [ReplIodProps.v]: runs and the theorems.
    - [CrcFlow.v]: the reports of an I/O server handled by the metadata server.
    - [Reclaim.v]: the reclaim log ([slashd/mdslog.c], with the start-up in
      [mds_journal_init]) and the removal of backing files
      ([sli_rim_handle_reclaim] of [sliod/rim.c]); [ReclaimInv.v]: its
      invariant, logging and the loop that sends; [ReclaimStep.v]: progress,
      batches on their way, replies; [ReclaimInit.v]: start and restart;
      [ReclaimSys.v]: the metadata server with its I/O servers, and their runs;
      [ReclaimRound.v]: a round of the thread; [ReclaimProps.v]: the theorems.
    - [Pgcache.v]: the page cache of a client ([mount_slash/pgcache.c]);
      [PgcacheInv.v]: its invariant.
    - [Coalesce.v]: requests and their coalescing into RPCs
      ([mount_slash/bflush.c]); [CoalesceProps.v]: its correctness.
    - [Cio.v]: cached reads and writes of a bmap and the flush thread
      ([mount_slash/io.c], [mount_slash/bflush.c]), as steps of threads;
      [CioInv.v]: the invariant; [CioFrame.v], [CioTop.v]: what keeps it;
      [CioStart.v], [CioValid.v], [CioRead.v], [CioLoad.v], [CioReply.v]: the
      steps of a read; [CioEnd.v]: the end of requests; [CioWrite.v],
      [CioQueue.v], [CioFlush.v], [CioSend.v]: the steps of a write and of the
      flush thread; [CioRun.v]: runs; [CioDrain.v]: how pending writes get to
      the server; [CioProps.v]: the theorems; [CioEx.v]: computed runs, with
      those that lose data or end the client.
    - [CliLease.v]: extension of a lease ([msl_bmap_lease_tryext] of
      [mount_slash/bmap_cli.c]); [CliBmap.v]: the rest of that file, with the
      choice of a replica ([msl_bmap_to_csvc]).
    - [DirCache.v]: the directory cache of a client ([mount_slash/dircache.c] and
      the [readdir] operations of [mount_slash/main.c]); [DirCacheInv.v]: its
      invariant; [DirCacheStep.v]: replies, [readdir] and the end of a directory
      handle against it; [DirCacheProps.v]: the theorems.

    ** State and operations

    Each component keeps its state in a record and each C function is one
    definition with the same name, in the state monad [M]. A failing
    [psc_assert] or a [psc_fatalx], the dereference of a null pointer, a store
    of a CRC beyond the table, a wait whose condition does not hold and a walk
    that does not end are outcomes
    ([Stuck]) of a step, so a [wp] statement says also that none of them
    happens. Functions of the source that end in a long loop or that have
    independent parts are split; the parts carry names of their own. Steps of
    one thread run to their end: locks are taken for granted and the waits
    for other threads are visible as [WouldBlock]. For cached I/O and for the
    extension of leases a function is cut where its thread waits or gives up the
    lock, each part is a step, and a run is any sequence of the steps.

    - [inost]: an inode handle and the metafile; [mstate]: one bmap, its
      metafile, the journal, the work queue, the upsch table;
      [fstate]: a file with its cached bmaps; [bmap_timeo_table]: sequence
      numbers; [lstate]: the leases of a bmap by address, the list of the first
      lease of each client, the counts, and the assignment table;
      [fenv]: a file with the journal entries of its assignments; [cwstate]:
      leases and file together, for CRC reports; [bmgr]: the batches, the lists
      they are on, RPCs in flight and queued work; [bwmap]: the bandwidth
      record of each system and direction; [sched]: a bmap with the bandwidth,
      the batches and the queued work of the scheduler; [ion]: one bmap on an
      I/O server, with its slivers, the lists they are on, the reports and the
      file behind it; [rst]: the destination of replications, with its work
      items, its bmaps (each an [ion]), the reads in flight and the batches;
      [gcst]: the reclaim log, with its files, the progress file and the
      progress of each system; [iost]: the backing files of an I/O server;
      [gsys]: both together; [pcache]: the pages of a bmap on a client; [cl]:
      a bmap on a client, with its pages, its requests, the RPCs under way,
      where each thread is, and the data of the I/O server; [lease]: a lease
      with the threads that extend it; [cbmap]: the mode and the lease of a
      bmap; [rthr]: the queue of the release thread; [dirc]: a directory with its
      pages, its names and the READDIRs under way.
    - Machine integers are [Z]; the wrap-around is written out ([u8], [u32],
      [u64]) where the code can reach it: bytes of the table, the bmap
      generation, the replica count, sequence numbers.
    - Code that is not in the repository is a class with its laws: the backend
      file system ([Mdsio], [MdsioLaws] and [BmapIO], [BmapIOLaws]: what was
      written with success is read back, and a CRC that is recomputed on the
      same data is the same), error numbers of libpfl ([PflErr]), its memory
      test ([PflMem]), its random numbers and array loop ([PflArray],
      [PflArrayLaws]), the slot table on disk ([OdTable], [OdTableLaws]),
      its sorted lists ([PflList], [PflListLaws]) and random iteration
      ([PflSched], [PflSchedLaws]), its CRC over a slab ([PflCrc],
      [PflCrcLaws]), the transfer size of the network ([PflNet],
      [PflNetLaws]), its plain lists ([PflQueue], [PflQueueLaws]), more of
      its error numbers ([PflTimeo]), its transfer size again for reclaim
      requests ([PflMtu], [PflMtuLaws]) and its arrays ([PflDyn],
      [PflDynLaws]).
      Each class has an executable instance ([MemFile], [MemBmaps], [LeaseEx],
      [SelEx], [BatchEx], [SchedEx], [SlvrEx], [ReplEx],
      [GcEx], [CliEx], [DirEx]) on which the witnesses of the theorems run.
    - Results of the RPC layer (setting a request up, queueing it, a bulk
      transfer) and of system calls are arguments of the steps that see them.
    - The lease code calls the rest of the server (choice of an I/O system,
      its entry in the replica table, the look for replication work) through
      the interface [LeaseEnv]; its theorems are proved from the promises
      [LeaseEnvLaws], which [BmapAssign.v] discharges for a file with its
      replica table and cached bmaps ([fenv_laws]).

    ** What the theorems show

    - Representations: the packed table is an array of states and the
      accessors stay inside it; the replica table split over two blocks is a
      list; the rings of chained leases are a map from clients to leases.
    - Operations: what a walk, an invalidation, a request and a CRC update do
      to every replica, on every branch; a removal never takes the last valid
      copy; every pending replica has its row in the upsch table; references
      to cached bmaps balance.
    - Persistence: what was written is read back; what was logged is replayed;
      the marks of sequence numbers recovered from the journal lag by less
      than 100.
    - Leases: an invariant (lists and counts, binding of writers to an I/O
      system, direct I/O when a writer is not alone) that granting and
      releasing keep; the I/O system of a writer has the only valid copy; the
      choice of that system prefers one with a copy, and only takes one that
      is enabled, connected and alive; a logged assignment is replayed.
    - CRC reports: a report from the bound system is stored, written and
      leaves its copy the only valid one; any other is refused and changes
      nothing.
    - Scheduling: any interleaving of the batch operations keeps lists,
      references and entries right, and every batch can be brought to its
      callback; bandwidth balances; an attempt at a replication, its
      completion and the worker bring a replica from queued to valid or back
      to queued, with its row; a scan touches one replica and never a valid
      one.
    - I/O servers: any run of requests and threads on a bmap behaves like a
      plain file without a cache; a valid request on free slivers is served;
      slivers stay well-formed; the CRC threads can always catch up, and then
      the last CRC reported for each sliver is that of the file; handled by
      the metadata server, the reports leave its CRC table with the CRCs of
      the file. A run leaves out what the theorems of [SlvrFaults.v] are
      about: transfers that fail on a sliver that waits for its CRC, writes of
      the file that fail, readahead beyond the bmap, and reports sent out of
      turn.
    - Replication between I/O servers: in any order of batches, rounds and
      replies, a batch is answered once, when its last entry is done, and an
      entry answered with 0 has the bytes of the source in the file; nothing
      faults; with a source that can be reached all work comes to its end.
      The source serves the bytes of its file. A run has whole batches, replies
      that are errors or the source's bytes, writes that are whole or fail
      ([good_reply]; [short_write_answered] is a run with a short write), and
      replies to batches that can be sent; new work is for bmaps of which the
      file has nothing behind the length asked for.
    - Reclamation: in any run of the metadata server and its I/O servers, with
      requests lost, late, repeated or failing and with restarts, the record of
      a dead file stays in the log as long as a server has its backing file,
      and only backing files of logged records are removed; no assertion of
      the log fails and its files are well-formed; a restart brings back the
      progress; and a round of the thread with all servers up removes all
      garbage. A run logs records with increasing numbers, never makes a
      backing file of a file that is dead, restarts only where each server
      has a non-zero record and the highest batch has its file, and removes old
      log files at the start of the thread only while no server that is switched
      off is behind them; what happens otherwise is stated in
      [reclaim_restart_fatal], [reclaim_restart_forgets] and
      [cleanup_forgets].
    - Clients: coalescing makes groups without holes that fit a transfer and
      sends exactly their bytes; in any run of threads, RPCs, flush thread,
      reaper and lease, no step faults, references and queues are right, what
      was written and is not under way is on the I/O server, a read sees the
      writes before it, pending writes can always be flushed while the lease is
      good, and the end of a bmap leaves no page. The steps of a run are calm
      ([calm]): a page is not marked for loading while a write is past its wait
      for it, an error of a page is not cleared while others wait for it, and
      pages of a read that cannot be launched have their error code; the
      theorem on reads asks in addition that no write leaves a gap in a page
      ([neat]). [CioEx.v] has a run for each of these in which the client goes
      wrong without it. A call that may wait for a lease gets a lease that
      lasts; the release thread gives back each bmap once; a reader gets a
      valid replica if there is one.
    - Directories: in any run of calm steps ([dcalm]) the cache of names is a map
      that has for a name what it was last told, no step faults, and [readdir]
      answers the dirents behind an offset that fit. Calm are replies with distinct
      names, removals of entries whose page is registered, and buffers that stay
      in place when they are cut to their size; [DirEx] has runs that fault
      otherwise.
    - Behaviour that is not as documented or intended is stated as it is:
      the theorems on the delete path with an unreadable block, on short
      reads, on requests that name several systems, on writes to queued
      replicas, on reassigned leases, on a full assignment table, on slots
      beyond the CRC table, on batches that cannot be sent or shared, on
      garbage that is paged in, on a source that is off line or cannot read
      its file, those of [SlvrFaults.v] and [CioEx.v], on refused leases,
      mode changes, reassignment and holes in [CliBmap.v], and on a READDIR that
      cannot be sent.

    ** Fuel

    The walks of lease rings use fuel: the number of allocated leases
    plus one, which is enough because a ring visits each lease at most once
    ([LeaseInv.v] proves that the walks end). So do the search for the last
    reclaim log file (two more than the current batch) and a round of the
    reclaim thread (more than the current batch, as each call moves on by a
    batch); the theorems say that this is enough. A pass of the flush thread
    has as much fuel as there are pending writes, since each group takes one at
    least. The tries of a mode change and of a request for a lease are a list
    of what each try meets; 31 are enough for the former. All other loops are
    structural, on the list or the bounded index they run over.

    ** Not modelled

    The namespace log and its updates to peer servers, the SELECT and the wait
    loop of the scheduler's thread, the setting up of a partial truncation,
    most RPC handlers around these operations, asynchronous I/O of the I/O
    servers. Of the client: direct and asynchronous I/O, requests that span two
    bmaps (each part is a request of its own), the prediction of readahead, the
    operations on the namespace with the attribute cache, RPC connections. The
    cache of file handles ([share/fidc_common.c]) is not modelled: its handles are
    the states of the components. Parameters that the control sockets can change
    ([slm_bwqueuesz]) have their default. Failures in [mdscoh_req] are dropped,
    as its caller drops them. The configuration, the control sockets and the
    command-line tools are parsing, printing and system calls. *)

From stdpp Require Export base list gmap numbers option sorting.
From Stdlib Require Export ZArith Lia.

#[global] Open Scope Z_scope.

(** ** Outcomes

    A step of the program either finishes with a value, or it cannot:
    [Assertion] stands for a failing [psc_assert] or a call of
    [psc_fatalx], [NullDeref] for the dereference of a null pointer,
    [WouldBlock] for a wait whose condition is not met, [OutOfBounds] for an
    access beyond the end of an array, and [OutOfFuel] for a pointer chase that
    did not come to an end. *)
Inductive stuck := Assertion | NullDeref | WouldBlock | OutOfBounds | OutOfFuel.

Inductive outcome (A : Type) :=
| Done (a : A)
| Stuck (w : stuck).
Arguments Done {A} _.
Arguments Stuck {A} _.

#[global] Instance stuck_eq_dec : EqDecision stuck.
Proof. solve_decision. Defined.

(** ** The state monad with outcomes *)
Definition M (S A : Type) : Type := S → outcome (A * S).

#[global] Instance M_ret S : MRet (M S) := λ A a s, Done (a, s).
#[global] Instance M_bind S : MBind (M S) := λ A B k m s,
  match m s with
  | Done (a, s') => k a s'
  | Stuck w => Stuck w
  end.

Definition getM {S} : M S S := λ s, Done (s, s).
Definition putM {S} (s' : S) : M S unit := λ _, Done (tt, s').
Definition modifyM {S} (f : S → S) : M S unit := λ s, Done (tt, f s).
Definition getsM {S A} (f : S → A) : M S A := λ s, Done (f s, s).
Definition stuckM {S A} (w : stuck) : M S A := λ _, Stuck w.
(** [psc_assert(c)] *)
Definition psc_assert {S} (c : bool) : M S unit :=
  if c then mret tt else stuckM Assertion.
(** [bmap_wait_locked(b, cond)], in a step that runs to its end: the wait
    is over at once when [cond] does not hold. *)
Definition wait_until {S} (c : bool) : M S unit :=
  if c then mret tt else stuckM WouldBlock.
Definition whenM {S} (c : bool) (m : M S unit) : M S unit :=
  if c then m else mret tt.

(** [wp m Q s]: run from [s], [m] finishes (no assertion fails, nothing
    blocks) and its value and final state satisfy [Q]. *)
Definition wp {S A} (m : M S A) (Q : A → S → Prop) (s : S) : Prop :=
  match m s with
  | Done (a, s') => Q a s'
  | Stuck _ => False
  end.

Section wp_rules.
Context {S : Type}.

Lemma wp_ret {A} (a : A) (Q : A → S → Prop) s : Q a s → wp (mret a) Q s.
Proof. done. Qed.

Lemma wp_bind {A B} (m : M S A) (k : A → M S B) Q s :
  wp m (λ a s', wp (k a) Q s') s → wp (m ≫= k) Q s.
Proof. unfold wp, mbind, M_bind. by destruct (m s) as [[a s']|]. Qed.

Lemma wp_bind_inv {A B} (m : M S A) (k : A → M S B) Q s :
  wp (m ≫= k) Q s → wp m (λ a s', wp (k a) Q s') s.
Proof. unfold wp, mbind, M_bind. by destruct (m s) as [[a s']|]. Qed.

Lemma wp_assoc {A B C} (m : M S A) (k : A → M S B) (k' : B → M S C) Q s :
  wp ((m ≫= k) ≫= k') Q s → wp (m ≫= λ x, k x ≫= k') Q s.
Proof. unfold wp, mbind, M_bind. by destruct (m s) as [[a s']|]. Qed.

Lemma wp_mono {A} (m : M S A) (P Q : A → S → Prop) s :
  wp m P s → (∀ a s', P a s' → Q a s') → wp m Q s.
Proof. unfold wp. destruct (m s) as [[a s']|]; eauto. Qed.

Lemma wp_get (Q : S → S → Prop) s : Q s s → wp getM Q s.
Proof. done. Qed.
Lemma wp_put s' (Q : unit → S → Prop) s : Q tt s' → wp (putM s') Q s.
Proof. done. Qed.
Lemma wp_modify f (Q : unit → S → Prop) s : Q tt (f s) → wp (modifyM f) Q s.
Proof. done. Qed.
Lemma wp_gets {A} (f : S → A) (Q : A → S → Prop) s :
  Q (f s) s → wp (getsM f) Q s.
Proof. done. Qed.
Lemma wp_assert c (Q : unit → S → Prop) s :
  c = true → Q tt s → wp (psc_assert c) Q s.
Proof. by intros ->. Qed.
Lemma wp_wait c (Q : unit → S → Prop) s :
  c = true → Q tt s → wp (wait_until c) Q s.
Proof. by intros ->. Qed.
Lemma wp_when c m (Q : unit → S → Prop) s :
  (c = true → wp m Q s) → (c = false → Q tt s) → wp (whenM c m) Q s.
Proof. destruct c; simpl; intros H1 H2; [by apply H1|by apply H2]. Qed.
Lemma wp_done {A} (m : M S A) Q s a s' :
  m s = Done (a, s') → wp m Q s → Q a s'.
Proof. unfold wp. by intros ->. Qed.
Lemma wp_intro {A} (m : M S A) (Q : A → S → Prop) s a s' : m s = Done (a, s') → Q a s' → wp m Q s.
Proof. unfold wp. by intros ->. Qed.
Lemma wp_run {A} (m : M S A) Q s :
  wp m Q s → ∃ a s', m s = Done (a, s') ∧ Q a s'.
Proof. unfold wp. destruct (m s) as [[a s']|]; naive_solver. Qed.
Lemma wp_eq {A} (m : M S A) a s' s :
  wp m (λ a0 s0, a0 = a ∧ s0 = s') s → m s = Done (a, s').
Proof. intros (? & ? & Hrun & -> & ->)%wp_run. done. Qed.
End wp_rules.

(** After a part that succeeds, any statement on the outcome of the rest, for
    runs that end in a fault. *)
Lemma wp_then {S A B} (m : M S A) (k : A → M S B) (R : outcome (B * S) → Prop) s :
  wp m (λ a s', R (k a s')) s → R ((m ≫= k) s).
Proof. unfold wp, mbind, M_bind. by destruct (m s) as [[a s']|]. Qed.
(** A run that ends in the fault [w]. *)
Definition faults {S A} (w : stuck) (m : M S A) (s : S) : Prop := m s = Stuck w.
Lemma faults_bind {S A B} w (m : M S A) (k : A → M S B) s : wp m (λ a s', faults w (k a) s') s → faults w (m ≫= k) s.
Proof. apply (wp_then m k (λ o, o = Stuck w)). Qed.
Lemma faults_left {S A B} w (m : M S A) (k : A → M S B) s : faults w m s → faults w (m ≫= k) s.
Proof. unfold faults, mbind, M_bind. by intros ->. Qed.
Lemma bind_done {S A B} (m : M S A) (k : A → M S B) s a s' : m s = Done (a, s') → (m ≫= k) s = k a s'.
Proof. unfold mbind, M_bind. by intros ->. Qed.

(** One step of symbolic execution under [wp]. *)
Ltac wp_step :=
  lazymatch goal with
  | |- wp (mbind _ _) _ _ => apply wp_bind
  | |- wp (mret _) _ _ => apply wp_ret
  | |- wp getM _ _ => apply wp_get
  | |- wp (putM _) _ _ => apply wp_put
  | |- wp (modifyM _) _ _ => apply wp_modify
  | |- wp (getsM _) _ _ => apply wp_gets
  | |- wp (psc_assert _) _ _ => apply wp_assert
  | |- wp (wait_until _) _ _ => apply wp_wait
  | |- wp (whenM _ _) _ _ => apply wp_when; intros ?
  | |- wp (if ?c then _ else _) _ _ => destruct c eqn:?; try discriminate
  | |- wp (let _ := _ in _) _ _ => cbv zeta
  end.

(** ** Steps that may have to wait

    [wpb m Q s]: run from [s], [m] either has to wait, or finishes in [Q]; in
    no case does an assertion fail or a null pointer get used. *)
Definition wpb {S A} (m : M S A) (Q : A → S → Prop) (s : S) : Prop :=
  match m s with
  | Done (a, s') => Q a s'
  | Stuck WouldBlock => True
  | Stuck _ => False
  end.

Section wpb_rules.
Context {S : Type}.

Lemma wpb_of {A} (m : M S A) Q s : wp m Q s → wpb m Q s.
Proof. unfold wp, wpb. by destruct (m s) as [[a s']|]. Qed.
Lemma wpb_ret {A} (a : A) (Q : A → S → Prop) s : Q a s → wpb (mret a) Q s.
Proof. done. Qed.
Lemma wpb_bind {A B} (m : M S A) (k : A → M S B) Q s :
  wpb m (λ a s', wpb (k a) Q s') s → wpb (m ≫= k) Q s.
Proof. unfold wpb, mbind, M_bind. by destruct (m s) as [[a s']|[]]. Qed.
Lemma wpb_bind_inv {A B} (m : M S A) (k : A → M S B) Q s :
  wpb (m ≫= k) Q s → wpb m (λ a s', wpb (k a) Q s') s.
Proof. unfold wpb, mbind, M_bind. by destruct (m s) as [[a s']|[]]. Qed.
Lemma wpb_mono {A} (m : M S A) (P Q : A → S → Prop) s :
  wpb m P s → (∀ a s', P a s' → Q a s') → wpb m Q s.
Proof. unfold wpb. destruct (m s) as [[a s']|[]]; eauto. Qed.
Lemma wpb_wait c (Q : unit → S → Prop) s : (c = true → Q tt s) → wpb (wait_until c) Q s.
Proof. destruct c; [by intros HQ; apply HQ|done]. Qed.
Lemma wpb_block {A} (Q : A → S → Prop) s : wpb (stuckM WouldBlock) Q s.
Proof. done. Qed.
Lemma wpb_when c m (Q : unit → S → Prop) s :
  (c = true → wpb m Q s) → (c = false → Q tt s) → wpb (whenM c m) Q s.
Proof. destruct c; simpl; intros H1 H2; [by apply H1|by apply H2]. Qed.
Lemma wpb_done {A} (m : M S A) Q s a s' : m s = Done (a, s') → wpb m Q s → Q a s'.
Proof. unfold wpb. by intros ->. Qed.
Lemma wpb_safe {A} (m : M S A) Q s w : wpb m Q s → m s = Stuck w → w = WouldBlock.
Proof. unfold wpb. destruct (m s) as [[a s']|[]]; naive_solver. Qed.
End wpb_rules.

(** One step of symbolic execution under [wpb]. *)
Ltac wb_step :=
  lazymatch goal with
  | |- wpb (mbind _ _) _ _ => apply wpb_bind
  | |- wpb (mret _) _ _ => apply wpb_ret
  | |- wpb (wait_until _) _ _ => apply wpb_wait; intros ?
  | |- wpb (stuckM WouldBlock) _ _ => apply wpb_block
  | |- wpb (whenM _ _) _ _ => apply wpb_when; intros ?
  | |- wpb (if ?c then _ else _) _ _ => destruct c eqn:?; try discriminate
  | |- wpb (let _ := _ in _) _ _ => cbv zeta
  | |- wpb _ _ _ => apply wpb_of; wp_step
  end.

(** ** Error codes

    The [errno] values of the platform, the application codes of
    [include/slerr.h], and the codes of the PFL library, which are a
    parameter: the library is a submodule of the repository. *)
Definition ENOENT : Z := 2.
Definition EIO : Z := 5.
Definition EBADF : Z := 9.
Definition EAGAIN : Z := 11.
Definition ENOMEM : Z := 12.
Definition EACCES : Z := 13.
Definition EINVAL : Z := 22.
Definition ENOSPC : Z := 28.
Definition EOPNOTSUPP : Z := 95.
Definition ETIMEDOUT : Z := 110.

Definition SLERR_START : Z := 1000.
Definition SLERR_REPL_ALREADY_ACT : Z := SLERR_START + 0.
Definition SLERR_REPL_NOT_ACT : Z := SLERR_START + 1.
Definition SLERR_BMAP_INVALID : Z := SLERR_START + 4.
Definition SLERR_BMAP_DIOWAIT : Z := SLERR_START + 5.
Definition SLERR_BMAP_ZERO : Z := SLERR_START + 6.
Definition SLERR_ION_OFFLINE : Z := SLERR_START + 10.
Definition SLERR_LASTREPL : Z := SLERR_START + 11.
Definition SLERR_SHORTIO : Z := SLERR_START + 13.
Definition SLERR_GEN_OLD : Z := SLERR_START + 20.
Definition SLERR_GEN_INVALID : Z := SLERR_START + 21.
Definition SLERR_RES_BADTYPE : Z := SLERR_START + 30.

Class PflErr := {
  PFLERR_ALREADY : Z;
  PFLERR_BADCRC : Z;
  PFLERR_ALREADY_pos : 0 < PFLERR_ALREADY;
  PFLERR_BADCRC_pos : 0 < PFLERR_BADCRC;
}.

(** ** Machine integers *)
Definition u8 (z : Z) : Z := z mod 2 ^ 8.
Definition u32 (z : Z) : Z := z mod 2 ^ 32.
Definition u64 (z : Z) : Z := z mod 2 ^ 64.

Lemma u8_range z : 0 ≤ u8 z < 256.
Proof. unfold u8. apply Z.mod_pos_bound. lia. Qed.
Lemma u32_range z : 0 ≤ u32 z < 2 ^ 32.
Proof. unfold u32. apply Z.mod_pos_bound. lia. Qed.
Lemma u64_range z : 0 ≤ u64 z < 2 ^ 64.
Proof. unfold u64. apply Z.mod_pos_bound. lia. Qed.
Lemma u8_small z : 0 ≤ z < 256 → u8 z = z.
Proof. intros. unfold u8. by apply Z.mod_small. Qed.
Lemma u32_small z : 0 ≤ z < 2 ^ 32 → u32 z = z.
Proof. intros. unfold u32. by apply Z.mod_small. Qed.
Lemma u64_small z : 0 ≤ z < 2 ^ 64 → u64 z = z.
Proof. intros. unfold u64. by apply Z.mod_small. Qed.

(** ** Flag words

    [hasf w f] is the C condition [w & f]; [setf] and [clrf] are
    [w |= f] and [w &= ~f]. *)
Definition hasf (w f : Z) : bool := negb (Z.land w f =? 0).
Definition setf (w f : Z) : Z := Z.lor w f.
Definition clrf (w f : Z) : Z := Z.land w (Z.lnot f).

Lemma hasf_setf w f g : hasf (setf w f) g = hasf w g || hasf f g.
Proof.
  unfold hasf, setf. rewrite Z.land_lor_distr_l.
  destruct (Z.eqb_spec (Z.lor (Z.land w g) (Z.land f g)) 0) as [E|E];
    rewrite Z.lor_eq_0_iff in E;
    destruct (Z.eqb_spec (Z.land w g) 0), (Z.eqb_spec (Z.land f g) 0);
    simpl; tauto.
Qed.
Lemma hasf_lor w f g : hasf (Z.lor w f) g = hasf w g || hasf f g.
Proof. apply hasf_setf. Qed.
Lemma hasf_clrf w f g : hasf (clrf w f) g = hasf w (Z.ldiff g f).
Proof.
  unfold hasf, clrf. rewrite <-Z.land_assoc. rewrite (Z.land_comm (Z.lnot f)).
  by rewrite Z.ldiff_land.
Qed.
Lemma clrf_clrf w f : clrf (clrf w f) f = clrf w f.
Proof. unfold clrf. by rewrite <-Z.land_assoc, Z.land_diag. Qed.
Lemma clrf_none w f : hasf w f = false → clrf w f = w.
Proof.
  unfold hasf, clrf. intros Hz%negb_false_iff%Z.eqb_eq. rewrite <-Z.ldiff_land, <-(Z.lor_0_l (Z.ldiff w f)), <-Hz, Z.lor_comm. apply Z.lor_ldiff_and.
Qed.
Lemma hasf_lor_false w f g : hasf w (Z.lor f g) = false → hasf w f = false ∧ hasf w g = false.
Proof.
  unfold hasf. rewrite Z.land_lor_distr_r, !negb_false_iff, !Z.eqb_eq, Z.lor_eq_0_iff. done.
Qed.
Lemma hasf_0_r w : hasf w 0 = false.
Proof. unfold hasf. by rewrite Z.land_0_r. Qed.
Lemma hasf_0_l f : hasf 0 f = false.
Proof. done. Qed.

Lemma hasf_lor_r w f g : hasf w (Z.lor f g) = hasf w f || hasf w g.
Proof.
  unfold hasf. rewrite Z.land_lor_distr_r. rewrite <-negb_andb. f_equal.
  destruct (Z.eqb_spec (Z.land w f) 0) as [Ha|Ha], (Z.eqb_spec (Z.land w g) 0) as [Hb|Hb]; simpl; try rewrite Ha, ?Hb; try done;
    apply Z.eqb_neq; rewrite Z.lor_eq_0_iff; tauto.
Qed.
(** Evaluate what is known of the bits of a flag word. *)
Ltac flags_in H :=
  repeat (rewrite ?hasf_setf, ?hasf_clrf, ?hasf_lor_r in H;
    match type of H with
    | context [Z.ldiff ?a ?b] =>
        let v := eval vm_compute in (Z.ldiff a b) in let w := eval vm_compute in a in
        first [constr_eq v w; change (Z.ldiff a b) with a in H | change (Z.ldiff a b) with v in H]
    | context [hasf ?w 0] => rewrite (hasf_0_r w) in H
    | context [hasf ?a ?b] => is_const a; is_const b; let v := eval vm_compute in (hasf a b) in change (hasf a b) with v in H
    end); rewrite ?orb_false_r, ?orb_true_r, ?orb_false_l, ?orb_true_l in H.
Ltac flags_goal :=
  repeat (rewrite ?hasf_setf, ?hasf_clrf, ?hasf_lor_r;
    match goal with
    | |- context [Z.ldiff ?a ?b] =>
        let v := eval vm_compute in (Z.ldiff a b) in let w := eval vm_compute in a in
        first [constr_eq v w; change (Z.ldiff a b) with a | change (Z.ldiff a b) with v]
    | |- context [hasf ?w 0] => rewrite (hasf_0_r w)
    | |- context [hasf ?a ?b] => is_const a; is_const b; let v := eval vm_compute in (hasf a b) in change (hasf a b) with v
    end); rewrite ?orb_false_r, ?orb_true_r, ?orb_false_l, ?orb_true_l.

Create Rewrite HintDb flags.
#[export] Hint Rewrite hasf_setf hasf_lor hasf_clrf hasf_0_r hasf_0_l
  orb_false_r orb_true_r orb_false_l orb_true_l andb_true_r andb_false_r : flags.

(** ** Lists *)
Lemma forallb_elem_of {A} (f : A → bool) (l : list A) :
  forallb f l = true ↔ ∀ x, x ∈ l → f x = true.
Proof. rewrite forallb_forall. by setoid_rewrite list_elem_of_In. Qed.

Lemma filter_all {A} (P : A → Prop) `{∀ x, Decision (P x)} (l : list A) : (∀ x, x ∈ l → P x) → filter P l = l.
Proof.
  intros HP. induction l as [|x l IH]; [done|]. rewrite filter_cons, decide_True by (apply HP; by left).
  f_equal. apply IH. intros y Hy. apply HP. by right.
Qed.

Lemma filter_none {A} (P : A → Prop) `{∀ x, Decision (P x)} (l : list A) : (∀ x, x ∈ l → ¬ P x) → filter P l = [].
Proof.
  intros HP. induction l as [|x l IH]; [done|]. rewrite filter_cons, decide_False by (apply HP; by left).
  apply IH. intros y Hy. apply HP. by right.
Qed.

Lemma elem_of_take_in {A} (x : A) n (l : list A) : x ∈ take n l → x ∈ l.
Proof. intros Hx. rewrite <-(take_drop n l). apply elem_of_app. by left. Qed.
Lemma elem_of_drop_in {A} (x : A) n (l : list A) : x ∈ drop n l → x ∈ l.
Proof. intros Hx. rewrite <-(take_drop n l). apply elem_of_app. by right. Qed.

(** Split membership in a list of known elements. *)
Ltac list_cases H :=
  repeat (apply elem_of_cons in H as [H|H]); try (by apply elem_of_nil in H).

(** [memmove(&l[dst], &l[src], n * sizeof(l[0]))] within one array. *)
Definition memmove {A} (l : list A) (dst src n : nat) : list A :=
  take dst l ++ take n (drop src l) ++ drop (dst + n) l.

(** Moving the tail of an array down by one over position [k]: every later
    element but the last has moved, the last one keeps a stale copy. *)
Lemma lookup_memmove_down {A} (l : list A) (k m : nat) :
  (k < length l)%nat →
  memmove l k (S k) (length l - k - 1) !! m =
  if decide (k ≤ m ∧ S m < length l)%nat then l !! S m else l !! m.
Proof.
  intros Hk. unfold memmove.
  assert (Hlen : length (take k l) = k) by (rewrite length_take; lia).
  destruct (decide (m < k)%nat).
  { rewrite lookup_app_l, lookup_take_lt by lia. by rewrite decide_False by lia. }
  rewrite lookup_app_r by lia. rewrite Hlen.
  assert (Hlen2 : length (take (length l - k - 1) (drop (S k) l)) = (length l - k - 1)%nat)
    by (rewrite length_take, length_drop; lia).
  destruct (decide (S m < length l)%nat).
  - rewrite decide_True by lia. rewrite lookup_app_l by lia.
    rewrite lookup_take_lt, lookup_drop by lia. f_equal. lia.
  - rewrite decide_False by lia. rewrite lookup_app_r by lia. rewrite Hlen2, lookup_drop.
    f_equal. lia.
Qed.

Lemma length_memmove_down {A} (l : list A) (k : nat) :
  (k < length l)%nat → length (memmove l k (S k) (length l - k - 1)) = length l.
Proof. intros. unfold memmove. rewrite !length_app, !length_take, !length_drop. lia. Qed.

(** A list in which everything after [j] has moved down by one. *)
Lemma take_delete_shift {A} (l l' : list A) (j n : nat) :
  (j < n)%nat → (n ≤ length l)%nat → (n ≤ S (length l'))%nat →
  (∀ m, (m < n - 1)%nat → l' !! m = l !! (if decide (m < j)%nat then m else S m)) →
  take (n - 1) l' = delete j (take n l).
Proof.
  intros Hj Hn Hn' Hl. apply list_eq; intros m.
  destruct (decide (m < n - 1)%nat).
  - rewrite lookup_take_lt, Hl by lia. case_decide.
    + rewrite list_lookup_delete_lt, lookup_take_lt by lia. done.
    + rewrite list_lookup_delete_ge, lookup_take_lt by lia. done.
  - rewrite lookup_take_ge by lia. rewrite list_lookup_delete_ge by lia.
    by rewrite lookup_take_ge by lia.
Qed.

(** The number of elements that satisfy a test. *)
Fixpoint cnt {A} (f : A → bool) (l : list A) : Z :=
  match l with [] => 0 | x :: l => (if f x then 1 else 0) + cnt f l end.
Lemma cnt_app {A} (f : A → bool) l k : cnt f (l ++ k) = cnt f l + cnt f k.
Proof. induction l; simpl; lia. Qed.
Lemma cnt_nonneg {A} (f : A → bool) l : 0 ≤ cnt f l.
Proof. induction l as [|x l IH]; simpl; [lia|]. destruct (f x); lia. Qed.
Lemma cnt_pos {A} (f : A → bool) l x : x ∈ l → f x = true → 0 < cnt f l.
Proof.
  intros Hx Hf. induction Hx as [y l|y z l ? IH]; simpl; [rewrite Hf; pose proof (cnt_nonneg f l); lia|].
  specialize (IH Hf). destruct (f z); lia.
Qed.
Lemma cnt_zero {A} (f : A → bool) l : (∀ x, x ∈ l → f x = false) → cnt f l = 0.
Proof.
  induction l as [|x l IH]; simpl; intros Hl; [done|]. rewrite (Hl x) by left. rewrite IH; [done|].
  intros y Hy. apply Hl. by right.
Qed.
#[global] Instance cnt_perm {A} (f : A → bool) : Proper ((≡ₚ) ==> (=)) (cnt f).
Proof. induction 1; simpl; lia. Qed.
Lemma cnt_ext {A} (f g : A → bool) l : (∀ x, x ∈ l → f x = g x) → cnt f l = cnt g l.
Proof. induction l as [|x l IH]; simpl; intros Hf; [done|]. rewrite (Hf x) by left. rewrite IH; [done|]. intros y Hy. apply Hf. by right. Qed.
(** The change of the test on one element. *)
Lemma cnt_flip {A} (f g : A → bool) l x :
  NoDup l → x ∈ l → f x = false → g x = true → (∀ y, y ≠ x → g y = f y) → cnt g l = cnt f l + 1.
Proof.
  intros Hnd Hx Hf Hg Ho. induction Hnd as [|y l Hy ? IH]; [by apply elem_of_nil in Hx|]. simpl. apply elem_of_cons in Hx as [->|Hx].
  - rewrite Hf, Hg. rewrite (cnt_ext g f l); [lia|]. intros z Hz. apply Ho. by intros ->.
  - rewrite (IH Hx), Ho; [lia|]. by intros ->.
Qed.
