(* ===== verification/ReplBits.v ===== *)
(** * The bit-packed replica table of a bmap

    [include/bmap.h] keeps the state of every replica of a bmap in an array
    of [SL_REPLICA_NBYTES] bytes, [SL_BITS_PER_REPLICA] bits per replica, so
    the field of a replica can straddle two bytes.  This file translates the
    accessors [SL_REPL_GET_BMAP_IOS_STAT] and [SL_REPL_SET_BMAP_IOS_STAT] and
    shows that the packed table implements an array of 64 states. *)
From S2P Require Import Prelude.

(** ** Constants ([include/cache_params.h], [include/sltypes.h]) *)
Definition NBBY : Z := 8.
Definition SL_MAX_REPLICAS : Z := 64.
Definition SL_BITS_PER_REPLICA : Z := 3.
Definition SL_REPLICA_MASK : Z := u8 (Z.shiftl 1 SL_BITS_PER_REPLICA - 1).
Definition SL_REPLICA_NBYTES : Z := (SL_MAX_REPLICAS * SL_BITS_PER_REPLICA) / NBBY.

(** ** Replica states *)
Definition BREPLST_INVALID : Z := 0.
Definition BREPLST_REPL_SCHED : Z := 1.
Definition BREPLST_REPL_QUEUED : Z := 2.
Definition BREPLST_VALID : Z := 3.
Definition BREPLST_TRUNCPNDG : Z := 4.
Definition BREPLST_TRUNCPNDG_SCHED : Z := 5.
Definition BREPLST_GARBAGE : Z := 6.
Definition BREPLST_GARBAGE_SCHED : Z := 7.
Definition NBREPLST : Z := 8.

(** An array read [(data)[i]]; [repl_get_in_bounds] shows that the
    accessors never index past the table. *)
Definition byte_at (data : list Z) (i : Z) : Z := default 0 (data !! Z.to_nat i).

Definition SL_REPL_GET_BMAP_IOS_STAT (data : list Z) (off : Z) : Z :=
  Z.land SL_REPLICA_MASK
    (Z.lor (Z.shiftr (byte_at data (off / NBBY)) (off mod NBBY))
       (if off mod NBBY + SL_BITS_PER_REPLICA >? NBBY then
          Z.shiftl (byte_at data (off / NBBY + 1))
            (SL_BITS_PER_REPLICA - (off mod NBBY + SL_BITS_PER_REPLICA - NBBY))
        else 0)).

Definition SL_REPL_SET_BMAP_IOS_STAT (data : list Z) (off val : Z) : list Z :=
  let data :=
    <[Z.to_nat (off / NBBY) :=
       u8 (Z.lor (Z.land (byte_at data (off / NBBY))
                    (Z.lnot (Z.shiftl SL_REPLICA_MASK (off mod NBBY))))
             (Z.shiftl val (off mod NBBY)))]> data in
  let j := off mod NBBY + SL_BITS_PER_REPLICA - NBBY in
  if j >? 0 then
    let j := SL_BITS_PER_REPLICA - j in
    <[Z.to_nat (off / NBBY + 1) :=
       u8 (Z.lor (Z.land (byte_at data (off / NBBY + 1))
                    (Z.lnot (Z.shiftr SL_REPLICA_MASK j)))
             (Z.shiftr val j))]> data
  else data.

(** [brepls_init] and [brepls_init_idx] fill the translation arrays. *)
Definition brepls_init (val : Z) : list Z := replicate (Z.to_nat NBREPLST) val.
Definition brepls_init_idx : list Z := seqZ 0 NBREPLST.
Definition arr_set (ar : list Z) (i v : Z) : list Z := <[Z.to_nat i := v]> ar.
Definition arr_get (ar : list Z) (i : Z) : Z := default 0 (ar !! Z.to_nat i).

(** A well-formed table: the right number of bytes. *)
Definition repls_wf (data : list Z) : Prop :=
  length data = Z.to_nat SL_REPLICA_NBYTES ∧ Forall (λ b, 0 ≤ b < 256) data.

(** The table seen as the array of states it stands for. *)
Definition repl_states (data : list Z) : list Z :=
  (λ i : nat, SL_REPL_GET_BMAP_IOS_STAT data (Z.of_nat i * SL_BITS_PER_REPLICA))
    <$> seq 0 (Z.to_nat SL_MAX_REPLICAS).

(** The [n]th bit of the table. *)
Definition table_bit (data : list Z) (n : Z) : bool :=
  Z.testbit (byte_at data (n / NBBY)) (n mod NBBY).

(** ** Bits of the accessors *)
Lemma mask_bits b : 0 ≤ b → Z.testbit SL_REPLICA_MASK b = (b <? 3).
Proof.
  intros. change SL_REPLICA_MASK with (Z.ones 3). rewrite Z.testbit_ones_nonneg by lia. done.
Qed.

Lemma byte_testbit_high data i b :
  Forall (λ b, 0 ≤ b < 256) data → 8 ≤ b → Z.testbit (byte_at data i) b = false.
Proof.
  intros Hall Hb. unfold byte_at.
  destruct (data !! Z.to_nat i) as [x|] eqn:E; simpl; [|apply Z.bits_0].
  rewrite Forall_lookup in Hall. apply Hall in E.
  rewrite <-(Z.mod_small x (2 ^ 8)) by lia. by apply Z.mod_pow2_bits_high.
Qed.

Lemma u8_testbit z b : 0 ≤ b → Z.testbit (u8 z) b = (b <? 8) && Z.testbit z b.
Proof.
  intros. unfold u8. destruct (Z.ltb_spec b 8).
  - by rewrite Z.mod_pow2_bits_low by lia.
  - by rewrite Z.mod_pow2_bits_high by lia.
Qed.

(** Reading at bit offset [off] yields exactly the three bits there. *)
Lemma repl_get_testbit data off b :
  Forall (λ b, 0 ≤ b < 256) data → 0 ≤ off → 0 ≤ b →
  Z.testbit (SL_REPL_GET_BMAP_IOS_STAT data off) b = (b <? 3) && table_bit data (off + b).
Proof.
  intros Hall Hoff Hb. unfold SL_REPL_GET_BMAP_IOS_STAT, table_bit, NBBY, SL_BITS_PER_REPLICA.
  rewrite Z.land_spec, mask_bits, Z.lor_spec, Z.shiftr_spec by done.
  destruct (Z.ltb_spec b 3); simpl; [|done].
  pose proof (Z.mod_pos_bound off 8). pose proof (Z.div_mod off 8).
  set (r := off mod 8) in *. set (q := off / 8) in *.
  destruct (Z.ltb_spec (b + r) 8).
  - replace ((off + b) / 8) with q by (apply Z.div_unique with (b + r); lia).
    replace ((off + b) mod 8) with (b + r) by (apply Z.mod_unique with q; lia).
    destruct (r + 3 >? 8) eqn:E; rewrite ?Z.bits_0, ?orb_false_r; [|done].
    rewrite Z.shiftl_spec by done. rewrite (Z.testbit_neg_r _ (b - _)) by lia.
    by rewrite orb_false_r.
  - replace ((off + b) / 8) with (q + 1) by (apply Z.div_unique with (b + r - 8); lia).
    replace ((off + b) mod 8) with (b + r - 8) by (apply Z.mod_unique with (q + 1); lia).
    rewrite byte_testbit_high by (done || lia). simpl.
    destruct (Z.gtb_spec (r + 3) 8); [|lia].
    rewrite Z.shiftl_spec by done. f_equal. lia.
Qed.

Lemma byte_at_insert data i j v :
  0 ≤ i < Z.of_nat (length data) → 0 ≤ j →
  byte_at (<[Z.to_nat i := v]> data) j = if decide (i = j) then v else byte_at data j.
Proof.
  intros Hi Hj. unfold byte_at. case_decide as E.
  - subst. by rewrite list_lookup_insert_eq by lia.
  - by rewrite list_lookup_insert_ne by lia.
Qed.

Lemma set_low_byte_bits d v r b :
  0 ≤ r → 0 ≤ v < 8 → 0 ≤ b < 8 →
  Z.testbit (u8 (Z.lor (Z.land d (Z.lnot (Z.shiftl SL_REPLICA_MASK r))) (Z.shiftl v r))) b =
  if (r <=? b) && (b <? r + 3) then Z.testbit v (b - r) else Z.testbit d b.
Proof.
  intros Hr Hv Hb. rewrite u8_testbit, Z.lor_spec, Z.land_spec, Z.lnot_spec, !Z.shiftl_spec by lia.
  destruct (Z.ltb_spec b 8); [|lia]. simpl.
  destruct (Z.leb_spec r b); simpl.
  - rewrite mask_bits by lia. destruct (Z.ltb_spec b (r + 3)), (Z.ltb_spec (b - r) 3); try lia; simpl.
    + by rewrite andb_false_r.
    + rewrite andb_true_r. rewrite <-(Z.mod_small v (2 ^ 3)) by lia.
      rewrite Z.mod_pow2_bits_high by lia. by rewrite orb_false_r.
  - rewrite !(Z.testbit_neg_r _ (b - r)) by lia. simpl. by rewrite andb_true_r, orb_false_r.
Qed.

Lemma set_high_byte_bits d v j b :
  0 ≤ j ≤ 3 → 0 ≤ v < 8 → 0 ≤ b < 8 →
  Z.testbit (u8 (Z.lor (Z.land d (Z.lnot (Z.shiftr SL_REPLICA_MASK j))) (Z.shiftr v j))) b =
  if b <? 3 - j then Z.testbit v (b + j) else Z.testbit d b.
Proof.
  intros Hj Hv Hb. rewrite u8_testbit, Z.lor_spec, Z.land_spec, Z.lnot_spec, !Z.shiftr_spec by lia.
  rewrite mask_bits by lia.
  destruct (Z.ltb_spec b 8), (Z.ltb_spec b (3 - j)), (Z.ltb_spec (b + j) 3); try lia; simpl.
  - by rewrite andb_false_r.
  - rewrite andb_true_r. rewrite <-(Z.mod_small v (2 ^ 3)) by lia.
    rewrite (Z.mod_pow2_bits_high v) by lia. by rewrite orb_false_r.
Qed.

(** Writing at [off] changes the three bits there and no other. *)
Lemma repl_set_bits data off v n :
  0 ≤ off → off + 3 ≤ 8 * Z.of_nat (length data) → 0 ≤ v < 8 → 0 ≤ n →
  table_bit (SL_REPL_SET_BMAP_IOS_STAT data off v) n =
  if (off <=? n) && (n <? off + 3) then Z.testbit v (n - off) else table_bit data n.
Proof.
  intros Hoff Hlen Hv Hn.
  unfold SL_REPL_SET_BMAP_IOS_STAT, table_bit, NBBY, SL_BITS_PER_REPLICA.
  pose proof (Z.mod_pos_bound off 8). pose proof (Z.div_mod off 8).
  pose proof (Z.mod_pos_bound n 8). pose proof (Z.div_mod n 8).
  set (r := off mod 8) in *. set (q := off / 8) in *.
  set (m := n mod 8) in *. set (p := n / 8) in *.
  assert (Z.of_nat (length data) > q) by lia.
  destruct (Z.gtb_spec (r + 3 - 8) 0).
  - rewrite byte_at_insert by (rewrite ?length_insert; lia).
    case_decide as E1.
    + rewrite set_high_byte_bits by lia.
      rewrite byte_at_insert by lia. rewrite decide_False by lia. rewrite E1.
      destruct (Z.ltb_spec m (3 - (3 - (r + 3 - 8)))), (Z.leb_spec off n), (Z.ltb_spec n (off + 3));
        simpl; try lia; try done. f_equal. lia.
    + rewrite byte_at_insert by lia. case_decide as E2.
      * rewrite set_low_byte_bits by lia. rewrite E2.
        destruct (Z.leb_spec r m), (Z.ltb_spec m (r + 3)), (Z.leb_spec off n), (Z.ltb_spec n (off + 3));
          simpl; try lia; try done. f_equal. lia.
      * destruct (Z.leb_spec off n), (Z.ltb_spec n (off + 3)); simpl; try lia; done.
  - rewrite byte_at_insert by lia. case_decide as E2.
    + rewrite set_low_byte_bits by lia. rewrite E2.
      destruct (Z.leb_spec r m), (Z.ltb_spec m (r + 3)), (Z.leb_spec off n), (Z.ltb_spec n (off + 3));
        simpl; try lia; try done. f_equal. lia.
    + destruct (Z.leb_spec off n), (Z.ltb_spec n (off + 3)); simpl; try lia; done.
Qed.

Lemma repl_set_length data off v :
  length (SL_REPL_SET_BMAP_IOS_STAT data off v) = length data.
Proof.
  unfold SL_REPL_SET_BMAP_IOS_STAT. cbv zeta.
  destruct (_ >? 0); by rewrite ?length_insert.
Qed.

Lemma repl_set_wf data off v : repls_wf data → repls_wf (SL_REPL_SET_BMAP_IOS_STAT data off v).
Proof.
  intros [Hlen Hall]. split; [by rewrite repl_set_length|].
  unfold SL_REPL_SET_BMAP_IOS_STAT. cbv zeta.
  destruct (_ >? 0); repeat apply Forall_insert; auto using u8_range.
Qed.

Lemma repl_get_range data off :
  Forall (λ b, 0 ≤ b < 256) data → 0 ≤ SL_REPL_GET_BMAP_IOS_STAT data off < NBREPLST.
Proof.
  intros. unfold SL_REPL_GET_BMAP_IOS_STAT. change SL_REPLICA_MASK with (Z.ones 3).
  rewrite Z.land_comm, Z.land_ones by lia. change NBREPLST with (2 ^ 3).
  apply Z.mod_pos_bound. lia.
Qed.

(** Reading back: the written state at the written offset, the old state at
    an offset whose field does not overlap. *)
Lemma repl_get_set_same data off v :
  repls_wf data → 0 ≤ off → off + 3 ≤ 192 → 0 ≤ v < 8 →
  SL_REPL_GET_BMAP_IOS_STAT (SL_REPL_SET_BMAP_IOS_STAT data off v) off = v.
Proof.
  intros Hwf Ho Ho2 Hv. pose proof (repl_set_wf _ off v Hwf) as [_ Hall].
  destruct Hwf as [Hlen _]. change (Z.to_nat SL_REPLICA_NBYTES) with 24%nat in Hlen.
  apply Z.bits_inj'; intros b Hb.
  rewrite repl_get_testbit, repl_set_bits by (done || lia).
  destruct (Z.ltb_spec b 3); simpl.
  - destruct (Z.leb_spec off (off + b)), (Z.ltb_spec (off + b) (off + 3)); try lia. simpl. f_equal. lia.
  - rewrite <-(Z.mod_small v (2 ^ 3)) by lia. by rewrite Z.mod_pow2_bits_high by lia.
Qed.

Lemma repl_get_set_other data off off' v :
  repls_wf data → 0 ≤ off → off + 3 ≤ 192 → 0 ≤ off' → 0 ≤ v < 8 →
  off' + 3 ≤ off ∨ off + 3 ≤ off' →
  SL_REPL_GET_BMAP_IOS_STAT (SL_REPL_SET_BMAP_IOS_STAT data off v) off'
  = SL_REPL_GET_BMAP_IOS_STAT data off'.
Proof.
  intros Hwf Ho Ho2 Ho' Hv Hdis. pose proof (repl_set_wf _ off v Hwf) as [_ Hall].
  destruct Hwf as [Hlen Hall']. change (Z.to_nat SL_REPLICA_NBYTES) with 24%nat in Hlen.
  apply Z.bits_inj'; intros b Hb.
  rewrite !repl_get_testbit, repl_set_bits by (done || lia).
  destruct (Z.ltb_spec b 3); simpl; [|done].
  destruct (Z.leb_spec off (off' + b)), (Z.ltb_spec (off' + b) (off + 3)); try lia; done.
Qed.

(** ** The state of replica [i] *)
Definition repl_stat (data : list Z) (i : Z) : Z :=
  SL_REPL_GET_BMAP_IOS_STAT data (i * SL_BITS_PER_REPLICA).
Definition repl_upd (data : list Z) (i v : Z) : list Z :=
  SL_REPL_SET_BMAP_IOS_STAT data (i * SL_BITS_PER_REPLICA) v.

Section stat_upd.
Context (data : list Z) (Hwf : repls_wf data).

Lemma repl_stat_range i : 0 ≤ repl_stat data i < NBREPLST.
Proof. apply repl_get_range, Hwf. Qed.

Lemma repl_stat_upd i j v :
  0 ≤ i < 64 → 0 ≤ j < 64 → 0 ≤ v < 8 →
  repl_stat (repl_upd data i v) j = if decide (i = j) then v else repl_stat data j.
Proof.
  intros Hi Hj Hv. unfold repl_stat, repl_upd, SL_BITS_PER_REPLICA. case_decide as E.
  - subst. apply repl_get_set_same; (done || lia).
  - apply repl_get_set_other; (done || lia).
Qed.

Lemma repl_upd_wf i v : repls_wf (repl_upd data i v).
Proof. by apply repl_set_wf. Qed.
End stat_upd.

Lemma repl_states_lookup data i :
  (i < 64)%nat → repl_states data !! i = Some (repl_stat data (Z.of_nat i)).
Proof.
  intros. unfold repl_states. rewrite list_lookup_fmap, lookup_seq_lt by done. done.
Qed.

(** C1: the packed table implements an array of 64 states.  Setting the
    state of replica [i] through the bit accessor is the update of entry
    [i] of the array, including for the replicas whose three bits straddle
    a byte boundary, and it leaves every other replica alone. *)
Theorem repl_table_refines_array data i v :
  repls_wf data → (i < 64)%nat → 0 ≤ v < NBREPLST →
  repl_states (SL_REPL_SET_BMAP_IOS_STAT data (Z.of_nat i * SL_BITS_PER_REPLICA) v)
  = <[i := v]> (repl_states data).
Proof.
  intros Hwf Hi Hv. apply list_eq; intros j. change NBREPLST with 8 in Hv.
  destruct (decide (j < 64)%nat) as [Hj|Hj].
  - rewrite repl_states_lookup by done.
    change (SL_REPL_SET_BMAP_IOS_STAT _ _ _) with (repl_upd data (Z.of_nat i) v).
    rewrite repl_stat_upd by (done || lia).
    destruct (decide (i = j)) as [->|]; case_decide; try lia.
    + by rewrite list_lookup_insert_eq by (unfold repl_states; rewrite length_fmap, length_seq; done).
    + by rewrite list_lookup_insert_ne, repl_states_lookup.
  - rewrite !lookup_ge_None_2; [done|..]; rewrite ?length_insert;
      unfold repl_states; rewrite length_fmap, length_seq; change (Z.to_nat SL_MAX_REPLICAS) with 64%nat; lia.
Qed.

Definition zero_table : list Z := replicate (Z.to_nat SL_REPLICA_NBYTES) 0.
Lemma zero_table_wf : repls_wf zero_table.
Proof. split; [done|]. by apply Forall_replicate. Qed.

Lemma repl_table_refines_array_witness :
  repl_states (SL_REPL_SET_BMAP_IOS_STAT zero_table (Z.of_nat 2 * SL_BITS_PER_REPLICA) BREPLST_VALID)
  = <[2%nat := BREPLST_VALID]> (repl_states zero_table).
Proof.
  apply (repl_table_refines_array zero_table 2 BREPLST_VALID).
  - exact zero_table_wf.
  - lia.
  - unfold BREPLST_VALID, NBREPLST. lia.
Defined.

Lemma byte_at_app data rest i :
  0 ≤ i < Z.of_nat (length data) → byte_at (data ++ rest) i = byte_at data i.
Proof. intros. unfold byte_at. by rewrite lookup_app_l by lia. Qed.

(** The accessors stay inside the [SL_REPLICA_NBYTES] bytes of the
    table.  Whatever memory follows the table, reading the state of any of
    the 64 replicas does not depend on it, and writing one leaves it as it
    was. *)
Theorem repl_access_in_bounds data rest i v :
  repls_wf data → 0 ≤ i < SL_MAX_REPLICAS →
  SL_REPL_GET_BMAP_IOS_STAT (data ++ rest) (i * SL_BITS_PER_REPLICA)
    = SL_REPL_GET_BMAP_IOS_STAT data (i * SL_BITS_PER_REPLICA) ∧
  SL_REPL_SET_BMAP_IOS_STAT (data ++ rest) (i * SL_BITS_PER_REPLICA) v
    = SL_REPL_SET_BMAP_IOS_STAT data (i * SL_BITS_PER_REPLICA) v ++ rest.
Proof.
  intros [Hlen _] Hi. change (Z.to_nat SL_REPLICA_NBYTES) with 24%nat in Hlen.
  unfold SL_REPL_GET_BMAP_IOS_STAT, SL_REPL_SET_BMAP_IOS_STAT, SL_MAX_REPLICAS,
    SL_BITS_PER_REPLICA, NBBY in *. cbv zeta.
  pose proof (Z.div_mod (i * 3) 8). pose proof (Z.mod_pos_bound (i * 3) 8).
  rewrite (byte_at_app data rest (i * 3 / 8)) by lia.
  rewrite (insert_app_l data) by lia.
  destruct (Z.gtb_spec (i * 3 mod 8 + 3) 8), (Z.gtb_spec (i * 3 mod 8 + 3 - 8) 0); try lia; [|done].
  rewrite !byte_at_app by (rewrite ?length_insert; lia).
  by rewrite insert_app_l by (rewrite length_insert; lia).
Qed.

Lemma repl_access_in_bounds_witness :
  SL_REPL_GET_BMAP_IOS_STAT (zero_table ++ [255]) (63 * SL_BITS_PER_REPLICA)
    = SL_REPL_GET_BMAP_IOS_STAT zero_table (63 * SL_BITS_PER_REPLICA) ∧
  SL_REPL_SET_BMAP_IOS_STAT (zero_table ++ [255]) (63 * SL_BITS_PER_REPLICA) 7
    = SL_REPL_SET_BMAP_IOS_STAT zero_table (63 * SL_BITS_PER_REPLICA) 7 ++ [255].
Proof.
  apply (repl_access_in_bounds zero_table [255] 63 7).
  - exact zero_table_wf.
  - unfold SL_MAX_REPLICAS. lia.
Defined.
