(* ===== verification/Inode.v ===== *)
(** * Inode handles and the replica table of a file ([slashd/inode.c],
      [slashd/inode.h], the lookup routines of [slashd/repl_mds.c])

    A SLASH2 inode stores the I/O systems that hold replicas of the file.
    The first [SL_DEF_REPLICAS] live in the inode itself, the others in the
    "extras" block ([slm_inox_od]), loaded from the metafile on demand. *)
From S2P Require Import Prelude ReplBits.

Definition SL_DEF_REPLICAS : Z := 4.
Definition SL_INOX_NREPLICAS : Z := SL_MAX_REPLICAS - SL_DEF_REPLICAS.

(** ** Data *)
Record slm_ino_od := {
  ino_version : Z;
  ino_flags : Z;
  ino_bsz : Z;
  ino_nrepls : Z;
  ino_replpol : Z;
  ino_repls : list Z;
  ino_repl_nblks : list Z;
}.

Record slm_inox_od := {
  inox_snaps : list (Z * Z * Z);
  inox_repls : list Z;
  inox_repl_nblks : list Z;
}.

Record slm_inoh := {
  inoh_ino : slm_ino_od;
  inoh_extras : option slm_inox_od;
  inoh_flags : Z;
}.

Definition INOH_INO_NEW : Z := Z.shiftl 1 0.
Definition INOH_INO_NOTLOADED : Z := Z.shiftl 1 1.

(** [sizeof(struct slm_ino_od)], [INOX_SZ] and [sizeof(uint64_t)]. *)
Definition INO_SZ : Z := 2 + 2 + 4 + 4 + 4 + 4 * SL_DEF_REPLICAS + 8 * SL_DEF_REPLICAS.
Definition INOX_SZ : Z := 24 + 4 * SL_INOX_NREPLICAS + 8 * SL_INOX_NREPLICAS.
Definition CRC_SZ : Z := 8.

Definition ino_with_repls (i : slm_ino_od) (nr : Z) (l : list Z) : slm_ino_od :=
  {| ino_version := ino_version i; ino_flags := ino_flags i; ino_bsz := ino_bsz i;
     ino_nrepls := nr; ino_replpol := ino_replpol i; ino_repls := l;
     ino_repl_nblks := ino_repl_nblks i |}.
Definition inox_with_repls (x : slm_inox_od) (l : list Z) : slm_inox_od :=
  {| inox_snaps := inox_snaps x; inox_repls := l; inox_repl_nblks := inox_repl_nblks x |}.
Definition inoh_with_ino (ih : slm_inoh) (i : slm_ino_od) : slm_inoh :=
  {| inoh_ino := i; inoh_extras := inoh_extras ih; inoh_flags := inoh_flags ih |}.
Definition inoh_with_extras (ih : slm_inoh) (x : option slm_inox_od) : slm_inoh :=
  {| inoh_ino := inoh_ino ih; inoh_extras := x; inoh_flags := inoh_flags ih |}.
Definition inoh_with_flags (ih : slm_inoh) (fl : Z) : slm_inoh :=
  {| inoh_ino := inoh_ino ih; inoh_extras := inoh_extras ih; inoh_flags := fl |}.

(** ** The metafile

    [mdsio_preadv] and [mdsio_pwritev] are the backend file system; the two
    records of the metafile that this component touches are the inode at
    offset 0 and the extras block at [SL_EXTRAS_START_OFF], each followed by
    its CRC.  An operation returns an error code and the number of bytes it
    moved.  [psc_crc64_calc] and [pfl_memchk] are PFL's. *)
Class Mdsio (D : Type) := {
  preadv_inox : D → Z * Z * slm_inox_od * Z;
  pwritev_ino : D → slm_ino_od → Z → Z * Z * D;
  pwritev_inox : D → slm_inox_od → Z → Z * Z * D;
}.
Class PflMem := {
  crc64_ino : slm_ino_od → Z;
  crc64_inox : slm_inox_od → Z;
  memchk_inox : slm_inox_od → bool;
}.

(** What the code relies on: bytes written in full are the bytes read, and
    writing the inode record (72 bytes at offset 0) does not touch the extras
    block (at offset 512). *)
Class MdsioLaws (D : Type) `{Mdsio D} := {
  preadv_pwritev_inox d x crc d' :
    pwritev_inox d x crc = (0, INOX_SZ + CRC_SZ, d') →
    preadv_inox d' = (0, INOX_SZ + CRC_SZ, x, crc);
  preadv_pwritev_ino d i crc rc nb d' :
    pwritev_ino d i crc = (rc, nb, d') → preadv_inox d' = preadv_inox d;
}.

(** Resource types ([include/slconfig.h]); [libsl_id2res] searches the
    resource table of the deployment configuration. *)
Inductive sl_res_type :=
| SLREST_NONE | SLREST_ARCHIVAL_FS | SLREST_CLUSTER_NOSHARE_LFS | SLREST_MDS
| SLREST_PARALLEL_COMPNT | SLREST_PARALLEL_LFS | SLREST_STANDALONE_FS.
#[global] Instance sl_res_type_eq_dec : EqDecision sl_res_type.
Proof. solve_decision. Defined.

Definition RES_ISFS (t : sl_res_type) : bool :=
  bool_decide (t = SLREST_ARCHIVAL_FS) || bool_decide (t = SLREST_PARALLEL_COMPNT)
  || bool_decide (t = SLREST_STANDALONE_FS).

Definition libsl_id2res (cfg : gmap Z sl_res_type) (id : Z) : option sl_res_type :=
  cfg !! u64 id.

(** Lookup flags ([slashd/repl_mds.h]). *)
Definition IOSV_LOOKUPF_ADD : Z := 1.
Definition IOSV_LOOKUPF_DEL : Z := 2.

(** ** Operations *)
Section ops.
Context {D : Type} `{Mdsio D} `{PflErr} `{PflMem}.

(** The handle together with the metafile behind it. *)
Record inost := { st_ih : slm_inoh; st_disk : D }.
Definition set_ih (s : inost) (ih : slm_inoh) : inost := {| st_ih := ih; st_disk := st_disk s |}.

Abbreviation IM := (M inost).

Definition mds_inode_write : IM Z :=
  s ← getM;
  let ih := st_ih s in
  let '(rc, nb, d') := pwritev_ino (st_disk s) (inoh_ino ih) (crc64_ino (inoh_ino ih)) in
  let rc := if (rc =? 0) && negb (nb =? INO_SZ + CRC_SZ) then SLERR_SHORTIO else rc in
  let ih' :=
    if negb (rc =? 0) then ih
    else if hasf (inoh_flags ih) INOH_INO_NEW
         then inoh_with_flags ih (clrf (inoh_flags ih) INOH_INO_NEW) else ih in
  _ ← putM {| st_ih := ih'; st_disk := d' |};
  mret rc.

Definition mds_inox_write : IM Z :=
  s ← getM;
  match inoh_extras (st_ih s) with
  | None => stuckM Assertion
  | Some x =>
      let '(rc, nb, d') := pwritev_inox (st_disk s) x (crc64_inox x) in
      _ ← putM {| st_ih := st_ih s; st_disk := d' |};
      mret (if (rc =? 0) && negb (nb =? INOX_SZ + CRC_SZ) then SLERR_SHORTIO else rc)
  end.

Definition mds_inox_load_locked : IM Z :=
  s ← getM;
  _ ← psc_assert (bool_decide (inoh_extras (st_ih s) = None));
  let '(rc, nb, x, od_crc) := preadv_inox (st_disk s) in
  let rc :=
    if (rc =? 0) && (od_crc =? 0) && memchk_inox x then 0
    else if negb (rc =? 0) then - Z.abs rc
    else if negb (nb =? INOX_SZ + CRC_SZ) then - SLERR_SHORTIO
    else if negb (crc64_inox x =? od_crc) then - PFLERR_BADCRC
    else 0 in
  _ ← putM (set_ih s (inoh_with_extras (st_ih s) (if negb (rc =? 0) then None else Some x)));
  mret rc.

Definition mds_inox_ensure_loaded : IM Z :=
  s ← getM;
  match inoh_extras (st_ih s) with
  | None => mds_inox_load_locked
  | Some _ => mret 0
  end.

Definition mds_inodes_odsync : IM Z :=
  s ← getM;
  rc ← (if ino_nrepls (inoh_ino (st_ih s)) >? SL_DEF_REPLICAS
        then mds_inox_ensure_loaded else mret 0);
  if negb (rc =? 0) then mret rc else
  rc ← mds_inode_write;
  s ← getM;
  if (rc =? 0) && (ino_nrepls (inoh_ino (st_ih s)) >? SL_DEF_REPLICAS)
  then mds_inox_write else mret rc.

(** [repl[k].bs_id] for the replica at index [j] of the file's table. *)
Definition repl_at (j : Z) : IM Z :=
  s ← getM;
  if j <? SL_DEF_REPLICAS then mret (arr_get (ino_repls (inoh_ino (st_ih s))) j)
  else match inoh_extras (st_ih s) with
       | None => stuckM NullDeref
       | Some x => mret (arr_get (inox_repls x) (j - SL_DEF_REPLICAS))
       end.

Inductive scan_res := ScanFound (j : Z) | ScanErr (rc : Z) | ScanEnd (j : Z).

(** The search loop of [_mds_repl_ios_lookup]; [n] is [*nr - j]. *)
Fixpoint ios_scan (n : nat) (j ios : Z) : IM scan_res :=
  match n with
  | O => mret (ScanEnd j)
  | S n =>
      inox_rc ← (if j =? SL_DEF_REPLICAS then mds_inox_ensure_loaded else mret 0);
      if negb (inox_rc =? 0) then mret (ScanErr inox_rc) else
      id ← repl_at j;
      if id =? ios then mret (ScanFound j) else ios_scan n (j + 1) ios
  end.

(** The [IOSV_LOOKUPF_DEL] branch, for the replica found at index [j]. *)
Definition ios_delete (j : Z) : IM unit :=
  s ← getM;
  let nr := ino_nrepls (inoh_ino (st_ih s)) in
  _ ← whenM (nr >? SL_DEF_REPLICAS) (_ ← mds_inox_ensure_loaded; mret tt);
  s ← getM;
  let ih := st_ih s in
  let repl := ino_repls (inoh_ino ih) in
  let repl :=
    if j <? SL_DEF_REPLICAS - 1
    then memmove repl (Z.to_nat j) (Z.to_nat (j + 1)) (Z.to_nat (SL_DEF_REPLICAS - j - 1))
    else repl in
  repl ← (if (j <? SL_DEF_REPLICAS) && (nr >? SL_DEF_REPLICAS) then
            match inoh_extras ih with
            | None => stuckM NullDeref
            | Some ix => mret (arr_set repl (SL_DEF_REPLICAS - 1) (arr_get (inox_repls ix) 0))
            end
          else mret repl);
  let k := if j <? SL_DEF_REPLICAS then 0 else j - SL_DEF_REPLICAS in
  extras ← (if (nr >? SL_DEF_REPLICAS) && (j <? SL_MAX_REPLICAS - 1) then
              match inoh_extras ih with
              | None => stuckM NullDeref
              | Some ix =>
                  mret (Some (inox_with_repls ix
                    (memmove (inox_repls ix) (Z.to_nat k) (Z.to_nat (k + 1))
                       (Z.to_nat (SL_INOX_NREPLICAS - k - 1)))))
              end
            else mret (inoh_extras ih));
  _ ← putM (set_ih s {| inoh_ino := ino_with_repls (inoh_ino ih) (u32 (nr - 1)) repl;
                        inoh_extras := extras; inoh_flags := inoh_flags ih |});
  _ ← mds_inodes_odsync;
  mret tt.

(** The [IOSV_LOOKUPF_ADD] branch, once there is room; [j] is [*nr]. *)
Definition ios_append (j ios : Z) : IM unit :=
  s ← getM;
  let ih := st_ih s in
  let ino := inoh_ino ih in
  ih' ← (if ino_nrepls ino >=? SL_DEF_REPLICAS then
           match inoh_extras ih with
           | None => stuckM NullDeref
           | Some ix =>
               mret {| inoh_ino := ino_with_repls ino (u32 (ino_nrepls ino + 1)) (ino_repls ino);
                       inoh_extras := Some (inox_with_repls ix
                         (arr_set (inox_repls ix) (j - SL_DEF_REPLICAS) ios));
                       inoh_flags := inoh_flags ih |}
           end
         else mret (inoh_with_ino ih
                (ino_with_repls ino (u32 (ino_nrepls ino + 1)) (arr_set (ino_repls ino) j ios))));
  _ ← putM (set_ih s ih');
  _ ← mds_inodes_odsync;
  mret tt.

Definition mds_repl_ios_lookup_fl (cfg : gmap Z sl_res_type) (ios flags : Z) : IM Z :=
  s ← getM;
  r ← ios_scan (Z.to_nat (ino_nrepls (inoh_ino (st_ih s)))) 0 ios;
  match r with
  | ScanErr inox_rc => mret inox_rc
  | ScanFound j => _ ← whenM (flags =? IOSV_LOOKUPF_DEL) (ios_delete j); mret j
  | ScanEnd j =>
      if match libsl_id2res cfg ios with None => true | Some t => negb (RES_ISFS t) end
      then mret (- SLERR_RES_BADTYPE)
      else if flags =? IOSV_LOOKUPF_ADD then
        s ← getM;
        let nr := ino_nrepls (inoh_ino (st_ih s)) in
        _ ← psc_assert (nr <=? SL_MAX_REPLICAS);
        if nr =? SL_MAX_REPLICAS then mret (- ENOSPC)
        else
          inox_rc ← (if nr >=? SL_DEF_REPLICAS then mds_inox_ensure_loaded else mret 0);
          if negb (inox_rc =? 0) then mret inox_rc else
          _ ← ios_append j ios;
          mret j
      else mret (- SLERR_REPL_NOT_ACT)
  end.

(** ** The table as a list *)

(** The extras block as the handle sees it, loading it if need be. *)
Definition inox_view (s : inost) (x : slm_inox_od) : Prop :=
  mds_inox_ensure_loaded s = Done (0, set_ih s (inoh_with_extras (st_ih s) (Some x))).

Definition tbl_wf (i : slm_ino_od) (x : slm_inox_od) : Prop :=
  length (ino_repls i) = Z.to_nat SL_DEF_REPLICAS ∧
  length (inox_repls x) = Z.to_nat SL_INOX_NREPLICAS ∧
  0 ≤ ino_nrepls i ≤ SL_MAX_REPLICAS.

Definition repl_list (i : slm_ino_od) (x : slm_inox_od) : list Z :=
  take (Z.to_nat (ino_nrepls i)) (ino_repls i ++ inox_repls x).

(** The handle's replica table is the list [L]. *)
Definition table_is (s : inost) (L : list Z) : Prop :=
  ∃ x, tbl_wf (inoh_ino (st_ih s)) x ∧ inox_view s x ∧ L = repl_list (inoh_ino (st_ih s)) x.

(** What a lookup does to a plain list of I/O system IDs. *)
Definition spec_lookup (cfg : gmap Z sl_res_type) (ios flags : Z) (L : list Z) : Z * list Z :=
  match list_find (ios =.) L with
  | Some (k, _) => (Z.of_nat k, if flags =? IOSV_LOOKUPF_DEL then delete k L else L)
  | None =>
      if match libsl_id2res cfg ios with None => true | Some t => negb (RES_ISFS t) end
      then (- SLERR_RES_BADTYPE, L)
      else if flags =? IOSV_LOOKUPF_ADD then
        if Z.of_nat (length L) =? SL_MAX_REPLICAS then (- ENOSPC, L)
        else (Z.of_nat (length L), L ++ [ios])
      else (- SLERR_REPL_NOT_ACT, L)
  end.

(** ** Lemmas *)
Lemma inox_view_loaded s x : inoh_extras (st_ih s) = Some x → inox_view s x.
Proof. destruct s as [[i e f] d]; simpl; intros ->. done. Qed.

Lemma inox_view_some s x y : inoh_extras (st_ih s) = Some y → inox_view s x → x = y.
Proof.
  destruct s as [[i e f] d]; simpl; intros ->. unfold inox_view. intros Hv.
  injection Hv. congruence.
Qed.

Lemma wp_ensure_loaded s x (Q : Z → inost → Prop) :
  inox_view s x → Q 0 (set_ih s (inoh_with_extras (st_ih s) (Some x))) →
  wp mds_inox_ensure_loaded Q s.
Proof. unfold wp. by intros ->. Qed.

(** The view only depends on the extras block, in memory or on disk. *)
Lemma inox_view_ext s s' x :
  inoh_extras (st_ih s') = inoh_extras (st_ih s) →
  preadv_inox (st_disk s') = preadv_inox (st_disk s) →
  inox_view s x → inox_view s' x.
Proof.
  destruct s as [[i e f] d], s' as [[i' e' f'] d']; simpl. intros -> Hd.
  unfold inox_view, mds_inox_ensure_loaded, mbind, M_bind, getM; simpl.
  destruct e as [y|]; [intros Hv; injection Hv; intros; by subst|].
  unfold mds_inox_load_locked, mbind, M_bind, getM, psc_assert, putM; simpl. rewrite Hd.
  destruct (preadv_inox d) as [[[rc nb] y] crc]. simpl.
  intros Hv. injection Hv as Hrc Hx. rewrite Hrc in Hx |- *. simpl in *. by rewrite Hx.
Qed.

Context `{!MdsioLaws D}.

(** The extras block is in memory when the table reaches into it. *)
Definition extras_loaded (s : inost) : Prop :=
  ino_nrepls (inoh_ino (st_ih s)) > SL_DEF_REPLICAS → is_Some (inoh_extras (st_ih s)).

(** Syncing writes the metafile and keeps the table the handle holds. *)
Lemma wp_odsync s x (Q : Z → inost → Prop) :
  inox_view s x →
  (∀ rc s', inoh_ino (st_ih s') = inoh_ino (st_ih s) → inox_view s' x → extras_loaded s' → Q rc s') →
  wp mds_inodes_odsync Q s.
Proof.
  intros Hx HQ. unfold mds_inodes_odsync. wp_step; wp_step. wp_step.
  (* the state after the extras block was loaded, when it is needed *)
  apply wp_mono with (λ rc s1, rc = 0 ∧ inoh_ino (st_ih s1) = inoh_ino (st_ih s) ∧ inox_view s1 x ∧
    (ino_nrepls (inoh_ino (st_ih s)) > SL_DEF_REPLICAS → inoh_extras (st_ih s1) = Some x)).
  { destruct (Z.gtb_spec (ino_nrepls (inoh_ino (st_ih s))) SL_DEF_REPLICAS).
    - eapply wp_ensure_loaded; [done|]. repeat split; auto using inox_view_loaded.
    - wp_step. repeat split; auto. lia. }
  intros rc s1 (-> & Hino & Hv & Hsome). simpl. wp_step. unfold mds_inode_write. repeat wp_step.
  destruct (pwritev_ino _ _ _) as [[rc nb] d'] eqn:Ew. cbv zeta. do 2 wp_step.
  match goal with |- wp _ _ {| st_ih := ?ih; st_disk := _ |} => set (ih' := ih) end.
  assert (inoh_ino ih' = inoh_ino (st_ih s1) ∧ inoh_extras ih' = inoh_extras (st_ih s1)) as [Ei Ee]
    by (unfold ih'; repeat case_match; done).
  apply preadv_pwritev_ino in Ew.
  wp_step. wp_step. wp_step. wp_step.
  - simpl in *. rewrite andb_true_iff, Z.gtb_lt, Ei, Hino in *.
    unfold mds_inox_write. repeat wp_step. simpl. rewrite Ee, Hsome by lia.
    destruct (pwritev_inox _ _ _) as [[rc' nb'] d'']. repeat wp_step. apply HQ; simpl; [congruence| |].
    + apply inox_view_loaded. simpl. rewrite Ee. apply Hsome. lia.
    + intros _. cbn. rewrite Ee, Hsome by lia. by eexists.
  - wp_step. apply HQ; simpl; [congruence|by eapply inox_view_ext|].
    intros Hgt. cbn in *. rewrite Ei, Hino in Hgt. rewrite Ee, Hsome by done. by eexists.
Qed.

Lemma full_table_get i x j :
  tbl_wf i x → 0 ≤ j →
  arr_get (ino_repls i ++ inox_repls x) j =
  if j <? SL_DEF_REPLICAS then arr_get (ino_repls i) j
  else arr_get (inox_repls x) (j - SL_DEF_REPLICAS).
Proof.
  intros (Hl & _ & _) Hj. unfold arr_get. change (Z.to_nat SL_DEF_REPLICAS) with 4%nat in Hl.
  change SL_DEF_REPLICAS with 4. destruct (Z.ltb_spec j 4).
  - by rewrite lookup_app_l by lia.
  - rewrite lookup_app_r by lia. do 2 f_equal. lia.
Qed.

(** [s'] is [s], up to the extras block having been loaded. *)
Definition same_or_loaded (s s' : inost) (x : slm_inox_od) : Prop :=
  inoh_ino (st_ih s') = inoh_ino (st_ih s) ∧ inox_view s' x.

Lemma scan_spec ios x n j s :
  tbl_wf (inoh_ino (st_ih s)) x → inox_view s x →
  Z.of_nat n + j = ino_nrepls (inoh_ino (st_ih s)) → 0 ≤ j →
  (SL_DEF_REPLICAS < j → inoh_extras (st_ih s) = Some x) →
  wp (ios_scan n j ios) (λ r s', same_or_loaded s s' x ∧
    let LL := ino_repls (inoh_ino (st_ih s)) ++ inox_repls x in
    match r with
    | ScanFound k => j ≤ k < ino_nrepls (inoh_ino (st_ih s)) ∧ arr_get LL k = ios ∧
                     ∀ m, j ≤ m < k → arr_get LL m ≠ ios
    | ScanEnd k => k = ino_nrepls (inoh_ino (st_ih s)) ∧
                   ∀ m, j ≤ m < k → arr_get LL m ≠ ios
    | ScanErr _ => False
    end) s.
Proof.
  revert j s. induction n as [|n IH]; intros j s Hwf Hv Hn Hj Hsome; simpl.
  { wp_step. repeat split; [done|lia|intros; lia]. }
  wp_step.
  apply wp_mono with (λ rc s1, rc = 0 ∧ same_or_loaded s s1 x ∧
    (SL_DEF_REPLICAS ≤ j → inoh_extras (st_ih s1) = Some x)).
  { destruct (Z.eqb_spec j SL_DEF_REPLICAS) as [E|E].
    - eapply wp_ensure_loaded; [done|]. repeat split; auto using inox_view_loaded.
    - wp_step. repeat split; auto. intros. apply Hsome. lia. }
  intros rc s1 (-> & [Hino Hv1] & Hsome1). simpl. wp_step.
  apply wp_mono with (λ id s2, s2 = s1 ∧
    id = arr_get (ino_repls (inoh_ino (st_ih s)) ++ inox_repls x) j).
  { rewrite full_table_get by done. unfold repl_at. repeat wp_step.
    - by rewrite Hino.
    - rewrite Hsome1 by lia. by wp_step. }
  intros id s2 [-> ->]. wp_step.
  - wp_step. apply Z.eqb_eq in Heqb. repeat split; auto; try lia.
  - apply Z.eqb_neq in Heqb. rewrite <-Hino in *.
    eapply wp_mono; [apply IH; [done|done|lia|lia|intros; apply Hsome1; lia]|].
    intros r s' [[Hino' Hv'] Hr]. split; [split; congruence|].
    assert (Hext : ∀ k, (∀ m, j + 1 ≤ m < k → arr_get (ino_repls (inoh_ino (st_ih s1)) ++ inox_repls x) m ≠ ios) →
      ∀ m, j ≤ m < k → arr_get (ino_repls (inoh_ino (st_ih s1)) ++ inox_repls x) m ≠ ios).
    { intros k Hr' m Hm. destruct (decide (m = j)) as [->|]; [done|]. apply Hr'. lia. }
    cbv zeta in Hr |- *. destruct r as [k|e|k]; [|done|].
    + destruct Hr as (? & ? & Hr). split_and!; [lia|lia|done|by apply Hext].
    + destruct Hr as (? & Hr). split; [done|by apply Hext].
Qed.
Lemma table_find i x ios k :
  tbl_wf i x →
  0 ≤ k < ino_nrepls i → arr_get (ino_repls i ++ inox_repls x) k = ios →
  (∀ m, 0 ≤ m < k → arr_get (ino_repls i ++ inox_repls x) m ≠ ios) →
  list_find (ios =.) (repl_list i x) = Some (Z.to_nat k, ios).
Proof.
  intros (Hl1 & Hl2 & Hnr) Hk Hget Hne. apply list_find_Some.
  change (Z.to_nat SL_DEF_REPLICAS) with 4%nat in Hl1.
  change (Z.to_nat SL_INOX_NREPLICAS) with 60%nat in Hl2.
  unfold SL_MAX_REPLICAS, repl_list, arr_get in *.
  destruct (lookup_lt_is_Some_2 (ino_repls i ++ inox_repls x) (Z.to_nat k)) as [v Hv].
  { rewrite length_app. lia. }
  rewrite Hv in Hget. simpl in Hget. subst v.
  rewrite lookup_take_lt by lia. split_and!; [done..|].
  intros j y Hy Hj ->. rewrite lookup_take_lt in Hy by lia.
  apply (Hne (Z.of_nat j)); [lia|]. by rewrite Nat2Z.id, Hy.
Qed.

Lemma table_not_found i x ios :
  tbl_wf i x →
  (∀ m, 0 ≤ m < ino_nrepls i → arr_get (ino_repls i ++ inox_repls x) m ≠ ios) →
  list_find (ios =.) (repl_list i x) = None.
Proof.
  intros (Hl1 & Hl2 & Hnr) Hne. apply list_find_None, Forall_lookup. intros j y Hy ->.
  unfold repl_list in Hy. apply lookup_take_Some in Hy as [Hy Hj].
  apply (Hne (Z.of_nat j)); [lia|]. unfold arr_get. by rewrite Nat2Z.id, Hy.
Qed.

Lemma repl_list_length i x :
  tbl_wf i x → length (repl_list i x) = Z.to_nat (ino_nrepls i).
Proof.
  intros (Hl1 & Hl2 & Hnr). unfold repl_list. rewrite length_take, length_app, Hl1, Hl2.
  unfold SL_MAX_REPLICAS, SL_INOX_NREPLICAS, SL_MAX_REPLICAS, SL_DEF_REPLICAS in *. lia.
Qed.

(** Appending writes slot [nr] of the table. *)
Lemma wp_ios_append ios s x (Q : unit → inost → Prop) :
  tbl_wf (inoh_ino (st_ih s)) x → inox_view s x →
  (SL_DEF_REPLICAS ≤ ino_nrepls (inoh_ino (st_ih s)) → inoh_extras (st_ih s) = Some x) →
  ino_nrepls (inoh_ino (st_ih s)) < SL_MAX_REPLICAS →
  (∀ s', table_is s' (repl_list (inoh_ino (st_ih s)) x ++ [ios]) → extras_loaded s' → Q tt s') →
  wp (ios_append (ino_nrepls (inoh_ino (st_ih s))) ios) Q s.
Proof.
  intros Hwf Hv Hsome Hlt HQ. unfold ios_append. wp_step. wp_step. cbv zeta. wp_step.
  set (i := inoh_ino (st_ih s)) in *.
  destruct Hwf as (Hl1 & Hl2 & Hnr). unfold SL_MAX_REPLICAS in *.
  assert (Hu : u32 (ino_nrepls i + 1) = ino_nrepls i + 1) by (apply u32_small; lia).
  pose proof Hl1 as Hl1'. change (Z.to_nat SL_DEF_REPLICAS) with 4%nat in Hl1'.
  pose proof Hl2 as Hl2'. change (Z.to_nat SL_INOX_NREPLICAS) with 60%nat in Hl2'.
  change SL_DEF_REPLICAS with 4 in *.
  assert (Hgrow : ∀ l, length l = 64%nat → l !! Z.to_nat (ino_nrepls i) = Some ios →
    take (Z.to_nat (ino_nrepls i)) l = repl_list i x →
    take (Z.to_nat (ino_nrepls i + 1)) l = repl_list i x ++ [ios]).
  { intros l Hll Hn Ht. rewrite Z2Nat.inj_add by lia. rewrite Nat.add_1_r.
    erewrite take_S_r by done. by rewrite Ht. }
  wp_step.
  - rewrite Hsome by lia. wp_step. wp_step. wp_step. wp_step.
    eapply wp_odsync; [by apply inox_view_loaded|]. intros rc s' Hi' Hv' Hxl. wp_step.
    apply HQ; [|done]. eexists. split_and!; [|done|]; rewrite Hi'; simpl.
    + unfold tbl_wf; simpl. rewrite Hu. unfold arr_set. rewrite length_insert.
      unfold SL_MAX_REPLICAS. split_and!; (done || lia).
    + unfold repl_list; simpl. rewrite Hu. symmetry. apply Hgrow.
      * rewrite length_app. unfold arr_set. rewrite length_insert. lia.
      * unfold arr_set. rewrite lookup_app_r by lia.
        replace (Z.to_nat (ino_nrepls i) - length (ino_repls i))%nat
          with (Z.to_nat (ino_nrepls i - 4)) by lia.
        apply list_lookup_insert_eq. lia.
      * unfold repl_list, arr_set. rewrite !take_app. f_equal. rewrite take_insert_ge by lia. done.
  - wp_step. wp_step. wp_step. wp_step.
    eapply wp_odsync with (x := x); [by eapply inox_view_ext; [| |exact Hv]|].
    intros rc s' Hi' Hv' Hxl. wp_step.
    apply HQ; [|done]. eexists. split_and!; [|done|]; rewrite Hi'; simpl.
    + unfold tbl_wf; simpl. rewrite Hu. unfold arr_set. rewrite length_insert.
      unfold SL_MAX_REPLICAS. split_and!; (done || lia).
    + unfold repl_list; simpl. rewrite Hu. symmetry. apply Hgrow.
      * rewrite length_app. unfold arr_set. rewrite length_insert. lia.
      * unfold arr_set. rewrite lookup_app_l by (rewrite length_insert; lia).
        apply list_lookup_insert_eq. lia.
      * unfold repl_list, arr_set. rewrite !take_app, length_insert.
        f_equal. rewrite take_insert_ge by lia. done.
Qed.

Lemma lookup_full_table i x m :
  tbl_wf i x →
  (ino_repls i ++ inox_repls x) !! m =
  if decide (m < 4)%nat then ino_repls i !! m else inox_repls x !! (m - 4)%nat.
Proof.
  intros (Hl & _ & _). change (Z.to_nat SL_DEF_REPLICAS) with 4%nat in Hl.
  case_decide; [by rewrite lookup_app_l by lia|by rewrite lookup_app_r, Hl by lia].
Qed.

(** The list surgery of the delete branch, on a table with extras. *)
Lemma delete_shift_big i x j :
  tbl_wf i x → 4 < ino_nrepls i → 0 ≤ j < ino_nrepls i →
  let repl := if j <? 3 then memmove (ino_repls i) (Z.to_nat j) (Z.to_nat (j + 1)) (Z.to_nat (4 - j - 1))
              else ino_repls i in
  let repl := if j <? 4 then arr_set repl 3 (arr_get (inox_repls x) 0) else repl in
  let k := if j <? 4 then 0 else j - 4 in
  let xrepl := if j <? 63 then memmove (inox_repls x) (Z.to_nat k) (Z.to_nat (k + 1)) (Z.to_nat (60 - k - 1))
               else inox_repls x in
  length repl = 4%nat ∧ length xrepl = 60%nat ∧
  take (Z.to_nat (ino_nrepls i - 1)) (repl ++ xrepl) = delete (Z.to_nat j) (repl_list i x).
Proof.
  intros Hwf Hnr Hj. cbv zeta. pose proof Hwf as (Hl1 & Hl2 & Hnr2).
  change (Z.to_nat SL_DEF_REPLICAS) with 4%nat in Hl1.
  change (Z.to_nat SL_INOX_NREPLICAS) with 60%nat in Hl2. unfold SL_MAX_REPLICAS in Hnr2.
  match goal with |- length ?r = _ ∧ length ?xr = _ ∧ _ => set (repl := r); set (xrepl := xr) end.
  set (k := if j <? 4 then 0 else j - 4) in *.
  assert (Hk : 0 ≤ k < 60) by (unfold k; destruct (Z.ltb_spec j 4); lia).
  assert (Hmv : memmove (inox_repls x) (Z.to_nat k) (Z.to_nat (k + 1)) (Z.to_nat (60 - k - 1))
    = memmove (inox_repls x) (Z.to_nat k) (S (Z.to_nat k)) (length (inox_repls x) - Z.to_nat k - 1))
    by (f_equal; lia).
  assert (Hmi : j < 4 → memmove (ino_repls i) (Z.to_nat j) (Z.to_nat (j + 1)) (Z.to_nat (4 - j - 1))
    = memmove (ino_repls i) (Z.to_nat j) (S (Z.to_nat j)) (length (ino_repls i) - Z.to_nat j - 1))
    by (intros; f_equal; lia).
  assert (Hr4 : length repl = 4%nat).
  { unfold repl, arr_set. destruct (Z.ltb_spec j 4), (Z.ltb_spec j 3);
      rewrite ?length_insert; try done; rewrite Hmi, length_memmove_down by lia; done. }
  assert (Hx60 : length xrepl = 60%nat).
  { unfold xrepl. destruct (Z.ltb_spec j 63); [|done].
    rewrite Hmv, length_memmove_down by lia. done. }
  split_and!; [done..|].
  replace (Z.to_nat (ino_nrepls i - 1)) with (Z.to_nat (ino_nrepls i) - 1)%nat by lia.
  apply take_delete_shift; [lia|rewrite length_app; lia..|]. intros m Hm.
  rewrite lookup_full_table by done.
  destruct (decide (m < 4)%nat).
  - rewrite lookup_app_l by lia. unfold repl.
    destruct (Z.ltb_spec j 4).
    + destruct (decide (m = 3)%nat) as [->|].
      * unfold arr_set. rewrite list_lookup_insert_eq
          by (destruct (Z.ltb_spec j 3); rewrite ?Hmi, ?length_memmove_down by lia; lia).
        repeat case_decide; try lia. unfold arr_get. change (Z.to_nat 0) with 0%nat. simpl.
        destruct (inox_repls x); [simpl in *; lia|done].
      * unfold arr_set. rewrite list_lookup_insert_ne by lia.
        destruct (Z.ltb_spec j 3).
        -- rewrite Hmi, lookup_memmove_down by lia.
           repeat case_decide; try lia; done.
        -- repeat case_decide; try lia; done.
    + destruct (Z.ltb_spec j 3); [lia|]. repeat case_decide; try lia; done.
  - rewrite lookup_app_r, Hr4 by lia. unfold xrepl.
    destruct (Z.ltb_spec j 63).
    + rewrite Hmv, lookup_memmove_down by lia. unfold k.
      destruct (Z.ltb_spec j 4); repeat case_decide; try lia; try done; f_equal; lia.
    + repeat case_decide; try lia; done.
Qed.

Lemma delete_shift_small i x j :
  tbl_wf i x → ino_nrepls i ≤ 4 → 0 ≤ j < ino_nrepls i →
  let repl := if j <? 3 then memmove (ino_repls i) (Z.to_nat j) (Z.to_nat (j + 1)) (Z.to_nat (4 - j - 1))
              else ino_repls i in
  length repl = 4%nat ∧
  take (Z.to_nat (ino_nrepls i - 1)) (repl ++ inox_repls x) = delete (Z.to_nat j) (repl_list i x).
Proof.
  intros Hwf Hnr Hj. cbv zeta. pose proof Hwf as (Hl1 & Hl2 & Hnr2).
  change (Z.to_nat SL_DEF_REPLICAS) with 4%nat in Hl1.
  change (Z.to_nat SL_INOX_NREPLICAS) with 60%nat in Hl2.
  match goal with |- length ?r = _ ∧ _ => set (repl := r) end.
  assert (Hmi : memmove (ino_repls i) (Z.to_nat j) (Z.to_nat (j + 1)) (Z.to_nat (4 - j - 1))
    = memmove (ino_repls i) (Z.to_nat j) (S (Z.to_nat j)) (length (ino_repls i) - Z.to_nat j - 1))
    by (f_equal; lia).
  assert (Hr4 : length repl = 4%nat).
  { unfold repl. destruct (Z.ltb_spec j 3); [|done]. rewrite Hmi, length_memmove_down by lia. done. }
  split; [done|].
  replace (Z.to_nat (ino_nrepls i - 1)) with (Z.to_nat (ino_nrepls i) - 1)%nat by lia.
  apply take_delete_shift; [lia|rewrite length_app; lia..|]. intros m Hm.
  rewrite lookup_full_table by done. rewrite lookup_app_l by lia. unfold repl.
  destruct (Z.ltb_spec j 3).
  - rewrite Hmi, lookup_memmove_down by lia. repeat case_decide; try lia; done.
  - repeat case_decide; try lia; done.
Qed.

Lemma wp_ios_delete j s x (Q : unit → inost → Prop) :
  tbl_wf (inoh_ino (st_ih s)) x → inox_view s x →
  0 ≤ j < ino_nrepls (inoh_ino (st_ih s)) →
  (∀ s', table_is s' (delete (Z.to_nat j) (repl_list (inoh_ino (st_ih s)) x)) → Q tt s') →
  wp (ios_delete j) Q s.
Proof.
  intros Hwf Hv Hj HQ. unfold ios_delete. wp_step. wp_step. cbv zeta. wp_step.
  set (i := inoh_ino (st_ih s)) in *.
  apply wp_mono with (λ _ s1, inoh_ino (st_ih s1) = i ∧ inox_view s1 x ∧
    (4 < ino_nrepls i → inoh_extras (st_ih s1) = Some x)).
  { wp_step.
    - wp_step. eapply wp_ensure_loaded; [done|]. wp_step. repeat split; auto using inox_view_loaded.
    - rewrite Z.gtb_ltb, Z.ltb_ge in *. unfold SL_DEF_REPLICAS in *. repeat split; auto. lia. }
  intros _ s1 (Hi1 & Hv1 & Hsome). wp_step. wp_step. rewrite Hi1. wp_step.
  assert (Hu : u32 (ino_nrepls i - 1) = ino_nrepls i - 1).
  { apply u32_small. destruct Hwf as (_ & _ & ?). unfold SL_MAX_REPLICAS in *. lia. }
  assert (Hnr : 0 ≤ ino_nrepls i - 1 ≤ SL_MAX_REPLICAS) by (destruct Hwf as (_ & _ & ?); lia).
  (* what the final synchronisation leaves behind *)
  assert (Hfin : ∀ repl ex y, length repl = 4%nat → length (inox_repls y) = 60%nat →
    take (Z.to_nat (ino_nrepls i - 1)) (repl ++ inox_repls y) = delete (Z.to_nat j) (repl_list i x) →
    (ex = Some y ∨ ex = inoh_extras (st_ih s1) ∧ y = x) →
    wp (_ ← mds_inodes_odsync; mret tt) Q
      (set_ih s1 {| inoh_ino := ino_with_repls i (u32 (ino_nrepls i - 1)) repl;
                    inoh_extras := ex; inoh_flags := inoh_flags (st_ih s1) |})).
  { intros repl ex y Hr Hy Htake Hex. wp_step. eapply wp_odsync with (x := y).
    - destruct Hex as [->|[-> ->]]; [by apply inox_view_loaded|by eapply inox_view_ext; [| |exact Hv1]].
    - intros rc s' Hi' Hv' _. wp_step. apply HQ. exists y. rewrite Hi', Hu. simpl.
      split_and!; [|done|by rewrite <-Htake].
      split; [exact Hr|split; [exact Hy|exact Hnr]]. }
  change (SL_DEF_REPLICAS - 1) with 3. change (SL_MAX_REPLICAS - 1) with 63.
  change SL_DEF_REPLICAS with 4. change SL_INOX_NREPLICAS with 60.
  destruct (Z.gtb_spec (ino_nrepls i) 4) as [Hbig|Hsmall].
  - rewrite Hsome by lia. rewrite andb_true_r, andb_true_l.
    pose proof (delete_shift_big i x j Hwf Hbig Hj) as (Hd1 & Hd2 & Hd3).
    destruct (Z.ltb_spec j 4); wp_step; wp_step; cbv zeta; wp_step;
      (destruct (Z.ltb_spec j 63); try lia);
      do 3 wp_step; (eapply Hfin; [exact Hd1|..|left; reflexivity]; [exact Hd2|exact Hd3]).
  - rewrite andb_false_r. simpl.
    pose proof (delete_shift_small i x j Hwf Hsmall Hj) as (Hd1 & Hd3).
    do 5 wp_step. eapply Hfin; [exact Hd1| |exact Hd3|by right]. apply Hwf.
Qed.

Lemma wp_ios_lookup cfg ios flags s L :
  table_is s L →
  wp (mds_repl_ios_lookup_fl cfg ios flags)
     (λ rc s', ∃ L', spec_lookup cfg ios flags L = (rc, L') ∧ table_is s' L' ∧
        (flags = IOSV_LOOKUPF_ADD → L' ≠ L → extras_loaded s')) s.
Proof.
  intros (x & Hwf & Hv & ->). unfold mds_repl_ios_lookup_fl. wp_step. wp_step. wp_step.
  pose proof Hwf as (_ & _ & Hnr).
  eapply wp_mono; [apply (scan_spec ios x); [done|done|lia|lia|unfold SL_DEF_REPLICAS; lia]|].
  intros r s1 [[Hi Hv1] Hr]. cbv zeta in Hr. destruct r as [j|e|j]; [|done|].
  - destruct Hr as (Hj & Hget & Hne). unfold spec_lookup.
    erewrite table_find by done. rewrite Z2Nat.id by lia. wp_step. wp_step.
    + eapply wp_ios_delete; [by rewrite Hi|done|by rewrite Hi|].
      intros s' Ht. wp_step. eexists. split; [done|]. rewrite Hi in Ht. split; [by case_match|]. intros ->. done.
    + wp_step. eexists. split; [done|]. case_match; [done|]. split; [by exists x; rewrite Hi|done].
  - destruct Hr as (-> & Hne). unfold spec_lookup. rewrite table_not_found by done.
    destruct (match libsl_id2res cfg ios with None => true | Some t => negb (RES_ISFS t) end).
    { wp_step. eexists. split; [done|]. split; [by exists x; rewrite Hi|done]. }
    destruct (flags =? IOSV_LOOKUPF_ADD).
    2: { wp_step. eexists. split; [done|]. split; [by exists x; rewrite Hi|done]. }
    rewrite repl_list_length, Z2Nat.id by (done || lia). rewrite <-Hi in *.
    wp_step. wp_step. cbv zeta. wp_step. wp_step; [apply Z.leb_le; lia|].
    destruct (Z.eqb_spec (ino_nrepls (inoh_ino (st_ih s1))) SL_MAX_REPLICAS) as [E|E].
    { wp_step. eexists. split; [done|]. split; [by exists x|done]. }
    wp_step.
    apply wp_mono with (λ rc s2, rc = 0 ∧ inoh_ino (st_ih s2) = inoh_ino (st_ih s1) ∧ inox_view s2 x ∧
      (SL_DEF_REPLICAS ≤ ino_nrepls (inoh_ino (st_ih s1)) → inoh_extras (st_ih s2) = Some x)).
    { destruct (Z.geb_spec (ino_nrepls (inoh_ino (st_ih s1))) SL_DEF_REPLICAS).
      - eapply wp_ensure_loaded; [done|]. repeat split; auto using inox_view_loaded.
      - wp_step. repeat split; auto. lia. }
    intros rc s2 (-> & Hi2 & Hv2 & Hsome). simpl. wp_step. rewrite <-Hi2 in *.
    apply wp_ios_append with (x := x); [done|done|done|lia|].
    intros s' Ht Hxl. wp_step. eexists. split; done.
Qed.

End ops.

(** ** A concrete metafile, for witnesses *)
Module MemFile.
(** The two records, as last written. *)
Record mem := { m_ino : slm_ino_od * Z; m_inox : slm_inox_od * Z }.

Definition inox_eqb (x y : slm_inox_od) : bool :=
  bool_decide (inox_snaps x = inox_snaps y) && bool_decide (inox_repls x = inox_repls y)
  && bool_decide (inox_repl_nblks x = inox_repl_nblks y).
Definition inox_zero : slm_inox_od :=
  {| inox_snaps := [(0, 0, 0)]; inox_repls := replicate 60 0; inox_repl_nblks := replicate 60 0 |}.

#[global] Instance mem_mdsio : Mdsio mem := {|
  preadv_inox d := (0, INOX_SZ + CRC_SZ, (m_inox d).1, (m_inox d).2);
  pwritev_ino d i crc := (0, INO_SZ + CRC_SZ, {| m_ino := (i, crc); m_inox := m_inox d |});
  pwritev_inox d x crc := (0, INOX_SZ + CRC_SZ, {| m_ino := m_ino d; m_inox := (x, crc) |});
|}.
#[global] Instance pflmem : PflMem := {|
  crc64_ino i := ino_nrepls i + foldr Z.add 0 (ino_repls i);
  crc64_inox x := foldr Z.add 0 (inox_repls x);
  memchk_inox := inox_eqb inox_zero;
|}.

#[global] Instance mem_mdsio_laws : MdsioLaws mem.
Proof. split; intros; simpl in *; simplify_eq; done. Qed.

#[global] Instance pflerr : PflErr :=
  {| PFLERR_ALREADY := 903; PFLERR_BADCRC := 910;
     PFLERR_ALREADY_pos := eq_refl; PFLERR_BADCRC_pos := eq_refl |}.

(** A file with five replicas: four in the inode, one in the extras. *)
Definition ino5 : slm_ino_od :=
  {| ino_version := 2; ino_flags := 0; ino_bsz := 134217728; ino_nrepls := 5; ino_replpol := 0;
     ino_repls := [10; 11; 12; 13]; ino_repl_nblks := replicate 4 0 |}.
Definition inox5 : slm_inox_od :=
  {| inox_snaps := [(0, 0, 0)]; inox_repls := 14 :: replicate 59 0; inox_repl_nblks := replicate 60 0 |}.
Definition st5 : inost (D := mem) :=
  {| st_ih := {| inoh_ino := ino5; inoh_extras := None; inoh_flags := 0 |};
     st_disk := {| m_ino := (ino5, crc64_ino ino5); m_inox := (inox5, crc64_inox inox5) |} |}.
Definition cfg1 : gmap Z sl_res_type := {[ 15 := SLREST_STANDALONE_FS ]}.

Lemma st5_table : table_is st5 [10; 11; 12; 13; 14].
Proof. exists inox5. split_and!; [split_and!; vm_compute; done|vm_compute; done|done]. Qed.
End MemFile.


(** A failed load of the extras block is not checked on the delete path.
    When a file has more than four replicas, the extras block cannot be read
    and the replica to remove is one of the first four, the code goes on to
    read the first slot of the block through a null pointer. *)
Theorem ios_delete_unloadable_extras {D} `{Mdsio D} `{PflErr} `{PflMem} cfg ios (s s' : inost (D := D)) rc :
  mds_inox_ensure_loaded s = Done (rc, s') → inoh_extras (st_ih s') = None →
  inoh_ino (st_ih s') = inoh_ino (st_ih s) →
  SL_DEF_REPLICAS < ino_nrepls (inoh_ino (st_ih s)) →
  head (ino_repls (inoh_ino (st_ih s))) = Some ios →
  mds_repl_ios_lookup_fl cfg ios IOSV_LOOKUPF_DEL s = Stuck NullDeref.
Proof.
  intros Hload Hnone Hi Hnr Hhead. unfold SL_DEF_REPLICAS in *.
  unfold mds_repl_ios_lookup_fl, mbind, M_bind, getM.
  destruct (Z.to_nat (ino_nrepls (inoh_ino (st_ih s)))) as [|n] eqn:En; [lia|].
  simpl. unfold repl_at, mbind, M_bind, getM, mret, M_ret; simpl.
  assert (Hg : arr_get (ino_repls (inoh_ino (st_ih s))) 0 = ios).
  { unfold arr_get. destruct (ino_repls _); simpl in *; congruence. }
  rewrite Hg, Z.eqb_refl. simpl. unfold ios_delete, whenM, mbind, M_bind, getM; simpl.
  destruct (Z.gtb_spec (ino_nrepls (inoh_ino (st_ih s))) SL_DEF_REPLICAS); [|unfold SL_DEF_REPLICAS in *; lia].
  simpl. rewrite Hload. simpl. by rewrite Hnone.
Qed.

(** A metafile whose extras block cannot be read. *)
Module BadFile.
#[global] Instance bad_mdsio : Mdsio unit := {|
  preadv_inox _ := (EIO, 0, MemFile.inox_zero, 0);
  pwritev_ino _ _ _ := (0, INO_SZ + CRC_SZ, tt);
  pwritev_inox _ _ _ := (EIO, 0, tt);
|}.
Definition st : inost (D := unit) :=
  {| st_ih := {| inoh_ino := MemFile.ino5; inoh_extras := None; inoh_flags := 0 |}; st_disk := tt |}.
End BadFile.

Lemma ios_delete_unloadable_extras_witness :
  mds_repl_ios_lookup_fl MemFile.cfg1 10 IOSV_LOOKUPF_DEL BadFile.st = Stuck NullDeref.
Proof.
  apply (ios_delete_unloadable_extras MemFile.cfg1 10 BadFile.st BadFile.st (- EIO)).
  - vm_compute. reflexivity.
  - reflexivity.
  - reflexivity.
  - vm_compute. reflexivity.
  - reflexivity.
Defined.

(** A table that was synchronised with success is the table a later load
    finds.  After [mds_inodes_odsync] returned 0 for a file with more than
    four replicas, any handle of that metafile whose extras block is not in
    memory loads exactly the extras block that was synchronised. *)
Theorem odsync_then_load {D} `{Mdsio D} `{PflErr} `{PflMem} `{!MdsioLaws D} (s s' : inost (D := D)) x ih :
  inox_view s x → SL_DEF_REPLICAS < ino_nrepls (inoh_ino (st_ih s)) →
  mds_inodes_odsync s = Done (0, s') → inoh_extras ih = None →
  mds_inox_ensure_loaded {| st_ih := ih; st_disk := st_disk s' |}
  = Done (0, {| st_ih := inoh_with_extras ih (Some x); st_disk := st_disk s' |}).
Proof.
  intros Hv Hnr Hsync Hnone. unfold mds_inodes_odsync, mbind, M_bind, getM in Hsync.
  destruct (Z.gtb_spec (ino_nrepls (inoh_ino (st_ih s))) SL_DEF_REPLICAS); [|lia].
  rewrite Hv in Hsync. simpl in Hsync.
  unfold mds_inode_write, mbind, M_bind, getM, putM, mret, M_ret in Hsync; simpl in Hsync.
  destruct (pwritev_ino _ _ _) as [[rc nb] d1] eqn:E1.
  set (rc1 := if (rc =? 0) && negb (nb =? INO_SZ + CRC_SZ) then SLERR_SHORTIO else rc) in Hsync.
  destruct (Z.eqb_spec rc1 0) as [Erc|Erc]; [|simpl in Hsync; simplify_eq].
  rewrite Erc in Hsync. simpl in Hsync.
  assert (E2 : mds_inox_write {| st_ih := if hasf (inoh_flags (st_ih s)) INOH_INO_NEW
      then inoh_with_flags (inoh_with_extras (st_ih s) (Some x)) (clrf (inoh_flags (st_ih s)) INOH_INO_NEW)
      else inoh_with_extras (st_ih s) (Some x); st_disk := d1 |} = Done (0, s')).
  { destruct (hasf _ _); simpl in Hsync; destruct (Z.gtb_spec (ino_nrepls (inoh_ino (st_ih s))) SL_DEF_REPLICAS);
      (exact Hsync || lia). }
  unfold mds_inox_write, mbind, M_bind, getM, putM, mret, M_ret in E2; simpl in E2.
  assert (Ex : ∀ fl : bool, inoh_extras (if fl
      then inoh_with_flags (inoh_with_extras (st_ih s) (Some x)) (clrf (inoh_flags (st_ih s)) INOH_INO_NEW)
      else inoh_with_extras (st_ih s) (Some x)) = Some x) by (by intros []).
  rewrite Ex in E2. destruct (pwritev_inox d1 x _) as [[rc2 nb2] d2] eqn:E3.
  destruct (Z.eqb_spec rc2 0) as [->|]; simpl in E2; [|simplify_eq].
  destruct (Z.eqb_spec nb2 (INOX_SZ + CRC_SZ)) as [->|]; simpl in E2; [|simplify_eq].
  injection E2 as <-. apply preadv_pwritev_inox in E3. simpl.
  destruct ih as [i e f]; simpl in Hnone; subst e.
  unfold mds_inox_ensure_loaded, mds_inox_load_locked, mbind, M_bind, getM, psc_assert, putM; simpl.
  rewrite E3. simpl.
  destruct (_ && memchk_inox x); simpl; [done|]. by rewrite Z.eqb_refl.
Qed.

Lemma odsync_then_load_witness :
  mds_inox_ensure_loaded {| st_ih := st_ih MemFile.st5;
    st_disk := {| MemFile.m_ino := (MemFile.ino5, crc64_ino MemFile.ino5);
                  MemFile.m_inox := (MemFile.inox5, crc64_inox MemFile.inox5) |} |}
  = Done (0, {| st_ih := inoh_with_extras (st_ih MemFile.st5) (Some MemFile.inox5);
                st_disk := {| MemFile.m_ino := (MemFile.ino5, crc64_ino MemFile.ino5);
                              MemFile.m_inox := (MemFile.inox5, crc64_inox MemFile.inox5) |} |}).
Proof.
  apply (odsync_then_load MemFile.st5
    {| st_ih := inoh_with_extras (st_ih MemFile.st5) (Some MemFile.inox5);
       st_disk := {| MemFile.m_ino := (MemFile.ino5, crc64_ino MemFile.ino5);
                     MemFile.m_inox := (MemFile.inox5, crc64_inox MemFile.inox5) |} |}
    MemFile.inox5 (st_ih MemFile.st5)).
  - vm_compute. reflexivity.
  - vm_compute. reflexivity.
  - vm_compute. reflexivity.
  - reflexivity.
Defined.
