(* ===== verification/ReplWalk.v ===== *)
(** * Walking the replica states of a bmap ([slashd/repl_mds.c])

    [_mds_repl_bmap_apply] queries and translates the state of one replica;
    [_mds_repl_bmap_walk] applies it to all replicas of the file, to a given
    set of them, or to all the others. *)
From S2P Require Import Prelude ReplBits.

(** ** Data ([include/bmap.h], [slashd/bmap_mds.h]) *)
Definition SLASH_SLVRS_PER_BMAP : Z := 128.
Definition SLASH_CRCS_PER_BMAP : Z := SLASH_SLVRS_PER_BMAP.

Record bmap_ondisk := {
  bod_crcstates : list Z;
  bod_repls : list Z;
  bod_crcs : list Z;
  bod_gen : Z;
  bod_replpol : Z;
}.

(** The part of [struct bmap] and [struct bmap_mds_info] that replication
    works on.  [bmi_wrlocked] says that the calling thread holds
    [bmi_rwlock] for writing ([BMAPOD_HASWRLOCK]). *)
Record bmap := {
  bcm_bmapno : Z;
  bcm_flags : Z;
  bmi_od : bmap_ondisk;
  bmi_orepls : list Z;
  bmi_sys_prio : Z;
  bmi_usr_prio : Z;
  bmi_wrlocked : bool;
}.

Definition BMAPF_SHIFT : Z := Z.shiftl 1 9.
Definition BMAPF_CRC_UP : Z := Z.shiftl BMAPF_SHIFT 0.
Definition BMAPF_NOION : Z := Z.shiftl BMAPF_SHIFT 1.
Definition BMAPF_REPLMODWR : Z := Z.shiftl BMAPF_SHIFT 2.
Definition BMAPF_IOSASSIGNED : Z := Z.shiftl BMAPF_SHIFT 3.

Definition bmi_repls (b : bmap) : list Z := bod_repls (bmi_od b).
Definition od_with_repls (o : bmap_ondisk) (r : list Z) : bmap_ondisk :=
  {| bod_crcstates := bod_crcstates o; bod_repls := r; bod_crcs := bod_crcs o;
     bod_gen := bod_gen o; bod_replpol := bod_replpol o |}.
Definition b_with_od (b : bmap) (o : bmap_ondisk) : bmap :=
  {| bcm_bmapno := bcm_bmapno b; bcm_flags := bcm_flags b; bmi_od := o;
     bmi_orepls := bmi_orepls b; bmi_sys_prio := bmi_sys_prio b;
     bmi_usr_prio := bmi_usr_prio b; bmi_wrlocked := bmi_wrlocked b |}.
Definition b_with_repls (b : bmap) (r : list Z) : bmap := b_with_od b (od_with_repls (bmi_od b) r).
(** [BMAPOD_MODIFY_START] followed by the copy of the old states. *)
Definition b_modify_start (b : bmap) : bmap :=
  if bmi_wrlocked b then b
  else {| bcm_bmapno := bcm_bmapno b; bcm_flags := bcm_flags b; bmi_od := bmi_od b;
          bmi_orepls := bmi_repls b; bmi_sys_prio := bmi_sys_prio b;
          bmi_usr_prio := bmi_usr_prio b; bmi_wrlocked := true |}.
Definition b_with_prio (b : bmap) (sp up : Z) : bmap :=
  {| bcm_bmapno := bcm_bmapno b; bcm_flags := bcm_flags b; bmi_od := bmi_od b;
     bmi_orepls := bmi_orepls b; bmi_sys_prio := sp; bmi_usr_prio := up;
     bmi_wrlocked := bmi_wrlocked b |}.
Definition b_with_wrlocked (b : bmap) (w : bool) : bmap :=
  {| bcm_bmapno := bcm_bmapno b; bcm_flags := bcm_flags b; bmi_od := bmi_od b;
     bmi_orepls := bmi_orepls b; bmi_sys_prio := bmi_sys_prio b;
     bmi_usr_prio := bmi_usr_prio b; bmi_wrlocked := w |}.
Definition b_with_flags (b : bmap) (fl : Z) : bmap :=
  {| bcm_bmapno := bcm_bmapno b; bcm_flags := fl; bmi_od := bmi_od b;
     bmi_orepls := bmi_orepls b; bmi_sys_prio := bmi_sys_prio b;
     bmi_usr_prio := bmi_usr_prio b; bmi_wrlocked := bmi_wrlocked b |}.

Definition REPL_WALKF_SCIRCUIT : Z := Z.shiftl 1 0.
Definition REPL_WALKF_MODOTH : Z := Z.shiftl 1 1.

(** ** [iosidx_in]: [bsearch] over the sorted index array *)
Definition iosidx_cmp (x y : Z) : comparison := x ?= y.

Fixpoint bsearch (fuel : nat) (key : Z) (base : list Z) (lo hi : nat) : bool :=
  match fuel with
  | O => false
  | S fuel =>
      if (lo <? hi)%nat then
        let idx := ((lo + hi) / 2)%nat in
        match iosidx_cmp key (default 0 (base !! idx)) with
        | Lt => bsearch fuel key base lo idx
        | Gt => bsearch fuel key base (S idx) hi
        | Eq => true
        end
      else false
  end.

Definition iosidx_in (idx : Z) (iosidx : list Z) : bool :=
  bsearch (S (length iosidx)) idx iosidx 0 (length iosidx).

(** ** Applying a translation to one replica

    [A] is what the callback threads through [cbarg].  The value is the
    return code and [*scircuit]; [sc] says whether [scircuit] is given. *)
Section walk.
Context {A : Type}.
Abbreviation WM := (M (bmap * A)).
Abbreviation cb_t := (option (Z → Z → A → A)).

Definition mds_repl_bmap_apply (tract retifset : option (list Z)) (flags off : Z)
    (sc : bool) (cbf : cb_t) : WM (Z * bool) :=
  s ← getM;
  _ ← match tract with
      | Some _ =>
          _ ← psc_assert (negb (hasf (bcm_flags s.1) BMAPF_REPLMODWR));
          putM (b_modify_start s.1, s.2)
      | None => mret tt
      end;
  _ ← whenM (negb sc) (psc_assert (negb (hasf flags REPL_WALKF_SCIRCUIT)));
  s ← getM;
  let val := SL_REPL_GET_BMAP_IOS_STAT (bmi_repls s.1) off in
  _ ← psc_assert (negb (val >=? NBREPLST));
  _ ← modifyM (λ s, (s.1, match cbf with Some f => f (off / SL_BITS_PER_REPLICA) val s.2
                          | None => s.2 end));
  let rc := match retifset with Some r => arr_get r val | None => 0 end in
  if negb (rc =? 0) && hasf flags REPL_WALKF_SCIRCUIT then mret (rc, true)
  else
    _ ← match tract with
        | Some t =>
            whenM (negb (arr_get t val =? -1))
              (modifyM (λ s, (b_with_repls s.1
                 (SL_REPL_SET_BMAP_IOS_STAT (bmi_repls s.1) off (arr_get t val)), s.2)))
        | None => mret tt
        end;
    mret (rc, false).

(** The loop the three cases of [_mds_repl_bmap_walk] share. *)
Fixpoint walk_loop (tract retifset : option (list Z)) (flags : Z) (cbf : cb_t)
    (idxs : list Z) (rc : Z) : WM Z :=
  match idxs with
  | [] => mret rc
  | k :: idxs =>
      r ← mds_repl_bmap_apply tract retifset flags (k * SL_BITS_PER_REPLICA) true cbf;
      let rc := if negb (r.1 =? 0) then r.1 else rc in
      if r.2 : bool then mret rc else walk_loop tract retifset flags cbf idxs rc
  end.

(** Which replicas a walk visits, in order; [nr] is [fcmh_2_nrepls(f)]. *)
Definition walk_idxs (nr flags : Z) (iosidx : list Z) : list Z :=
  match iosidx with
  | [] => seqZ 0 nr
  | _ => if hasf flags REPL_WALKF_MODOTH
         then filter (λ k, iosidx_in k iosidx = false) (seqZ 0 nr)
         else iosidx
  end.

Definition mds_repl_bmap_walk_cb (nr : Z) (tract retifset : option (list Z)) (flags : Z)
    (iosidx : list Z) (cbf : cb_t) : WM Z :=
  walk_loop tract retifset flags cbf (walk_idxs nr flags iosidx) 0.
End walk.

(** The macros without a callback. *)
Definition mds_repl_bmap_walk (nr : Z) (tract retifset : option (list Z)) (flags : Z)
    (iosidx : list Z) : M bmap Z := λ b,
  match mds_repl_bmap_walk_cb nr tract retifset flags iosidx None (b, tt) with
  | Done (rc, (b', _)) => Done (rc, b')
  | Stuck w => Stuck w
  end.
Definition mds_repl_bmap_walk_all (nr : Z) (tract retifset : option (list Z)) (flags : Z) : M bmap Z :=
  mds_repl_bmap_walk nr tract retifset flags [].

(** The macro [mds_repl_bmap_apply]: one replica, without a callback. *)
Definition bmap_apply (tract retifset : option (list Z)) (off : Z) : M bmap Z := λ b,
  match mds_repl_bmap_apply tract retifset 0 off false None (b, tt) with
  | Done (r, (b', _)) => Done (r.1, b')
  | Stuck w => Stuck w
  end.

(** [mds_brepls_check]: the check that some replica holds data. *)
Definition brepls_ok (val : Z) : bool :=
  (val =? BREPLST_VALID) || (val =? BREPLST_GARBAGE) || (val =? BREPLST_GARBAGE_SCHED)
  || (val =? BREPLST_TRUNCPNDG) || (val =? BREPLST_TRUNCPNDG_SCHED).
Fixpoint brepls_check_loop (repls : list Z) (n : nat) (off : Z) : outcome unit :=
  match n with
  | O => Stuck Assertion
  | S n => if brepls_ok (SL_REPL_GET_BMAP_IOS_STAT repls off) then Done tt
           else brepls_check_loop repls n (off + SL_BITS_PER_REPLICA)
  end.
Definition mds_brepls_check (repls : list Z) (nr : Z) : outcome unit :=
  if (nr >? 0) && (nr <=? SL_MAX_REPLICAS) then brepls_check_loop repls (Z.to_nat nr) 0
  else Stuck Assertion.

(** ** [iosidx_in] is membership on sorted arrays *)
Lemma sorted_lookup (l : list Z) i j x y :
  StronglySorted (≤) l → (i < j)%nat → l !! i = Some x → l !! j = Some y → x ≤ y.
Proof.
  intros Hs. revert i j. induction Hs as [|z l Hs IH Hall]; intros [|i] [|j]; simpl;
    try (done || lia).
  - intros _ [= ->] Hy. rewrite Forall_lookup in Hall. by eapply Hall.
  - intros ? Hx Hy. apply (IH i j); (done || lia).
Qed.

Lemma bsearch_spec fuel key base lo hi :
  StronglySorted (≤) base → (hi ≤ length base)%nat → (hi - lo < fuel)%nat →
  bsearch fuel key base lo hi = true ↔ ∃ i, (lo ≤ i < hi)%nat ∧ base !! i = Some key.
Proof.
  intros Hs. revert lo hi. induction fuel as [|fuel IH]; intros lo hi Hhi Hf; [lia|]. cbn [bsearch].
  destruct (Nat.ltb_spec lo hi); [|split; [done|intros (i & ? & _); lia]].
  set (idx := ((lo + hi) / 2)%nat).
  assert (lo ≤ idx < hi)%nat.
  { unfold idx. split; [apply Nat.div_le_lower_bound|apply Nat.Div0.div_lt_upper_bound]; lia. }
  destruct (lookup_lt_is_Some_2 base idx) as [v Hv]; [lia|]. cbv zeta. rewrite Hv. change (default 0 (Some v)) with v.
  assert (Hmono := λ i j x y, sorted_lookup base i j x y Hs).
  unfold iosidx_cmp. destruct (Z.compare_spec key v) as [->|Hc|Hc].
  - split; [intros _; exists idx; split; [lia|done]|by intros _].
  - rewrite IH by lia. split; intros (i & Hi & Hl); exists i; (split; [|done]); [lia|].
    destruct (decide (i < idx)%nat); [lia|]. exfalso.
    destruct (decide (i = idx)) as [->|]; [rewrite Hv in Hl; injection Hl; lia|].
    assert (v ≤ key) by (apply (Hmono idx i); (done || lia)). lia.
  - rewrite IH by lia. split; intros (i & Hi & Hl); exists i; (split; [|done]); [lia|].
    destruct (decide (idx < i)%nat); [lia|]. exfalso.
    destruct (decide (i = idx)) as [->|]; [rewrite Hv in Hl; injection Hl; lia|].
    assert (key ≤ v) by (apply (Hmono i idx); (done || lia)). lia.
Qed.

Lemma iosidx_in_spec idx iosidx :
  StronglySorted (≤) iosidx → iosidx_in idx iosidx = true ↔ idx ∈ iosidx.
Proof.
  intros Hs. unfold iosidx_in. rewrite bsearch_spec by (done || lia).
  rewrite list_elem_of_lookup. split; [intros (i & _ & Hi); by exists i|].
  intros [i Hi]. exists i. split; [|done]. apply lookup_lt_Some in Hi. lia.
Qed.

(** ** What a walk does *)

(** The new state of a replica in state [val]. *)
Definition tr (t : list Z) (val : Z) : Z :=
  if arr_get t val =? -1 then val else arr_get t val.
Definition tract_ok (t : list Z) : Prop := ∀ v, 0 ≤ v < NBREPLST → 0 ≤ tr t v < NBREPLST.

(** "the last replica always gets priority": the last non-zero value. *)
Definition last_nonzero (rc : Z) (l : list Z) : Z :=
  foldl (λ rc v, if v =? 0 then rc else v) rc l.

Definition stat (b : bmap) (i : Z) : Z := repl_stat (bmi_repls b) i.

(** The parts of a bmap that a walk leaves alone. *)
Definition same_but_repls (b b' : bmap) : Prop :=
  bcm_bmapno b' = bcm_bmapno b ∧ bcm_flags b' = bcm_flags b ∧
  bmi_od b' = od_with_repls (bmi_od b) (bmi_repls b') ∧
  bmi_sys_prio b' = bmi_sys_prio b ∧ bmi_usr_prio b' = bmi_usr_prio b.

Lemma same_but_repls_refl b : same_but_repls b b.
Proof. destruct b as [? ? [] ? ? ? ?]; done. Qed.
Lemma same_but_repls_trans b1 b2 b3 :
  same_but_repls b1 b2 → same_but_repls b2 b3 → same_but_repls b1 b3.
Proof.
  intros (? & ? & E & ? & ?) (? & ? & E' & ? & ?). repeat split; try congruence.
  rewrite E', E. done.
Qed.
Lemma modify_start_same b : same_but_repls b (b_modify_start b).
Proof.
  unfold b_modify_start. destruct (bmi_wrlocked b) eqn:E; [apply same_but_repls_refl|].
  destruct b as [? ? [] ? ? ? ?]; done.
Qed.
Lemma with_repls_same b r : same_but_repls b (b_with_repls b r).
Proof. destruct b as [? ? [] ? ? ? ?]; done. Qed.
Lemma modify_start_repls b : bmi_repls (b_modify_start b) = bmi_repls b.
Proof. unfold b_modify_start. by destruct (bmi_wrlocked b). Qed.
Lemma modify_start_orepls b :
  bmi_orepls (b_modify_start b) = if bmi_wrlocked b then bmi_orepls b else bmi_repls b.
Proof. unfold b_modify_start. by destruct (bmi_wrlocked b). Qed.
Lemma modify_start_wrlocked b : bmi_wrlocked (b_modify_start b) = true.
Proof. unfold b_modify_start. by destruct (bmi_wrlocked b) eqn:?. Qed.

Section walk_spec.
Context {A : Type} (cbf : option (Z → Z → A → A)).

Definition run_cb (i v : Z) (a : A) : A := match cbf with Some f => f i v a | None => a end.

Definition ret_of (retifset : option (list Z)) (v : Z) : Z :=
  match retifset with Some r => arr_get r v | None => 0 end.

(** One application, without the short circuit. *)
Lemma wp_apply_tract t retifset flags k sc b a (Q : Z * bool → bmap * A → Prop) :
  repls_wf (bmi_repls b) → 0 ≤ k < 64 → hasf (bcm_flags b) BMAPF_REPLMODWR = false →
  hasf flags REPL_WALKF_SCIRCUIT = false → tract_ok t →
  (∀ b', same_but_repls b b' → repls_wf (bmi_repls b') →
     (∀ j, 0 ≤ j < 64 → stat b' j = if decide (j = k) then tr t (stat b k) else stat b j) →
     bmi_wrlocked b' = true →
     bmi_orepls b' = (if bmi_wrlocked b then bmi_orepls b else bmi_repls b) →
     Q (ret_of retifset (stat b k), false)
       (b', run_cb k (stat b k) a)) →
  wp (mds_repl_bmap_apply (Some t) retifset flags (k * SL_BITS_PER_REPLICA) sc cbf) Q (b, a).
Proof.
  intros Hwf Hk Hmod Hsc Ht HQ. unfold mds_repl_bmap_apply. do 3 wp_step. cbn [fst snd].
  do 2 wp_step; [by rewrite Hmod|]. wp_step. wp_step.
  eapply (wp_mono _ (λ _ ba, ba = (b_modify_start b, a))).
  { apply wp_when; intros _; [|done]. wp_step; [by rewrite Hsc|done]. }
  intros _ ? ->. wp_step. wp_step.
  cbn [fst snd]. cbv zeta.
  rewrite modify_start_repls.
  change (SL_REPL_GET_BMAP_IOS_STAT (bmi_repls b) (k * SL_BITS_PER_REPLICA)) with (stat b k).
  pose proof (repl_stat_range _ Hwf k) as Hr. fold (stat b k) in Hr.
  wp_step. wp_step. { apply negb_true_iff. rewrite Z.geb_leb, Z.leb_gt. lia. }
  wp_step. wp_step. cbn [fst snd]. rewrite Hsc, andb_false_r.
  replace (k * SL_BITS_PER_REPLICA / SL_BITS_PER_REPLICA) with k
    by (unfold SL_BITS_PER_REPLICA; by rewrite Z.div_mul).
  fold (run_cb k (stat b k) a). wp_step.
  apply wp_when; intros Hneg.
  - wp_step. wp_step. cbn [fst snd]. apply negb_true_iff in Hneg. rewrite modify_start_repls.
    assert (Hv : 0 ≤ arr_get t (stat b k) < 8).
    { specialize (Ht (stat b k) Hr). unfold tr, NBREPLST in Ht. by rewrite Hneg in Ht. }
    fold (repl_upd (bmi_repls b) k (arr_get t (stat b k))).
    apply HQ.
    + eapply same_but_repls_trans; [apply modify_start_same|apply with_repls_same].
    + by apply repl_upd_wf.
    + intros j Hj. unfold stat at 1, bmi_repls at 1; simpl. rewrite repl_stat_upd by (done || lia).
      unfold tr. rewrite Hneg. destruct (decide (j = k)) as [->|]; repeat case_decide; done || lia.
    + simpl. apply modify_start_wrlocked.
    + simpl. apply modify_start_orepls.
  - wp_step. apply negb_false_iff in Hneg.
    apply HQ.
    + apply modify_start_same.
    + by rewrite modify_start_repls.
    + intros j Hj. unfold stat at 1. rewrite modify_start_repls. unfold tr. rewrite Hneg. by case_decide; subst.
    + apply modify_start_wrlocked.
    + apply modify_start_orepls.
Qed.

(** A walk that translates visits every selected replica once: its state
    is translated, the others keep theirs, and the callback has seen each
    selected replica with its old state. *)
Lemma wp_walk_tract t retifset flags idxs rc b a (Q : Z → bmap * A → Prop) :
  repls_wf (bmi_repls b) → NoDup idxs → Forall (λ k, 0 ≤ k < 64) idxs →
  hasf (bcm_flags b) BMAPF_REPLMODWR = false →
  hasf flags REPL_WALKF_SCIRCUIT = false → tract_ok t →
  (∀ b', same_but_repls b b' → repls_wf (bmi_repls b') →
     (∀ j, 0 ≤ j < 64 → stat b' j = if decide (j ∈ idxs) then tr t (stat b j) else stat b j) →
     match idxs with
     | [] => b' = b
     | _ => bmi_wrlocked b' = true ∧
            bmi_orepls b' = if bmi_wrlocked b then bmi_orepls b else bmi_repls b
     end →
     Q (last_nonzero rc ((λ k, ret_of retifset (stat b k)) <$> idxs))
       (b', foldl (λ a k, run_cb k (stat b k) a) a idxs)) →
  wp (walk_loop (Some t) retifset flags cbf idxs rc) Q (b, a).
Proof.
  revert rc b a. induction idxs as [|k idxs IH]; intros rc b a Hwf Hnd Hall Hmod Hsc Ht HQ; simpl.
  { wp_step. apply (HQ b); auto using same_but_repls_refl. }
  apply NoDup_cons in Hnd as [Hnotin Hnd]. apply Forall_cons in Hall as [Hk Hall].
  wp_step. apply wp_apply_tract; [done..|]. intros b' Hsame Hwf' Hstat Hlk Hor. cbn [fst snd].
  assert (Hold : ∀ j, j ∈ idxs → stat b' j = stat b j).
  { intros j Hj. rewrite Forall_forall in Hall. rewrite Hstat by auto.
    case_decide; [by subst|done]. }
  apply IH; [done..|by rewrite (proj1 (proj2 Hsame))|done|done|].
  intros b'' Hsame' Hwf'' Hstat' Hlk'.
  assert (E1 : (λ k, ret_of retifset (stat b' k)) <$> idxs = (λ k, ret_of retifset (stat b k)) <$> idxs).
  { apply list_fmap_ext. intros i j Hj. by rewrite Hold by (apply list_elem_of_lookup; eauto). }
  assert (E2 : ∀ a0, foldl (λ a k, run_cb k (stat b' k) a) a0 idxs = foldl (λ a k, run_cb k (stat b k) a) a0 idxs).
  { clear -Hold. induction idxs as [|j idxs IHi]; intros a0; simpl; [done|].
    rewrite Hold by set_solver. apply IHi. intros; apply Hold; set_solver. }
  rewrite E1, E2. specialize (HQ b''). simpl in HQ.
  replace (if negb (ret_of retifset (stat b k) =? 0) then ret_of retifset (stat b k) else rc)
    with (if ret_of retifset (stat b k) =? 0 then rc else ret_of retifset (stat b k)) by (by destruct (_ =? _)).
  apply HQ; [by eapply same_but_repls_trans|done| |].
  - intros j Hj. rewrite Hstat' by done. destruct (decide (j = k)) as [->|].
    + rewrite decide_False by done. rewrite Hstat, decide_True, decide_True by (done || by left). done.
    + rewrite Hstat by done. rewrite (decide_False (P := j = k)) by done.
      rewrite (decide_ext (j ∈ k :: idxs) (j ∈ idxs)) by (rewrite elem_of_cons; tauto). done.
  - destruct idxs; [by subst|]. destruct Hlk' as [-> ->]. by rewrite Hlk.
Qed.
End walk_spec.

(** The first non-zero value, when the walk stops at it. *)
Definition first_nonzero (rc : Z) (l : list Z) : Z :=
  match list_find (λ v, v ≠ 0) l with Some (_, v) => v | None => rc end.

Lemma first_nonzero_cons rc v l :
  first_nonzero rc (v :: l) = if v =? 0 then first_nonzero rc l else v.
Proof.
  unfold first_nonzero. simpl. destruct (Z.eqb_spec v 0).
  - rewrite decide_False by (by intros []). by destruct (list_find _ l) as [[]|].
  - by rewrite decide_True.
Qed.

Lemma first_nonzero_zero l : first_nonzero 0 l = 0 ↔ Forall (λ v, v = 0) l.
Proof.
  induction l as [|v l IH]; [done|]. rewrite first_nonzero_cons, Forall_cons.
  destruct (Z.eqb_spec v 0); rewrite ?IH; tauto.
Qed.

(** A walk that only queries leaves the bmap as it is. *)
Lemma wp_walk_query {A} retifset flags idxs rc b (a : A) (Q : Z → bmap * A → Prop) :
  repls_wf (bmi_repls b) → Forall (λ k, 0 ≤ k < 64) idxs →
  Q ((if hasf flags REPL_WALKF_SCIRCUIT then first_nonzero else last_nonzero) rc
       ((λ k, ret_of retifset (stat b k)) <$> idxs)) (b, a) →
  wp (walk_loop None retifset flags None idxs rc) Q (b, a).
Proof.
  intros Hwf. revert rc. induction idxs as [|k idxs IH]; intros rc Hall HQ; simpl.
  { wp_step. by destruct (hasf _ _). }
  apply Forall_cons in Hall as [Hk Hall]. wp_step. unfold mds_repl_bmap_apply. do 3 wp_step.
  wp_step. wp_step. wp_step; [done|]. wp_step. wp_step. cbn [fst snd]. cbv zeta.
  change (SL_REPL_GET_BMAP_IOS_STAT (bmi_repls b) (k * SL_BITS_PER_REPLICA)) with (stat b k).
  pose proof (repl_stat_range _ Hwf k) as Hr. fold (stat b k) in Hr.
  wp_step. wp_step. { apply negb_true_iff. rewrite Z.geb_leb, Z.leb_gt. lia. }
  wp_step. wp_step. cbn [fst snd].
  fold (ret_of retifset (stat b k)). simpl in HQ.
  destruct (hasf flags REPL_WALKF_SCIRCUIT) eqn:Esc; simpl in HQ.
  - rewrite andb_true_r. rewrite first_nonzero_cons in HQ. wp_step.
    + wp_step. cbn [fst snd]. rewrite Heqb0. wp_step. apply negb_true_iff in Heqb0. by rewrite Heqb0 in HQ.
    + wp_step. wp_step. wp_step. cbn [fst snd]. rewrite Heqb0. apply negb_false_iff in Heqb0. rewrite Heqb0 in HQ.
      by apply IH.
  - rewrite andb_false_r. wp_step. wp_step. wp_step. cbn [fst snd]. apply IH; [done|].
    by destruct (ret_of retifset (stat b k) =? 0).
Qed.

(** Which replicas the arguments of a walk select. *)
Definition selected (nr flags : Z) (iosidx : list Z) (j : Z) : Prop :=
  match iosidx with
  | [] => 0 ≤ j < nr
  | _ => if hasf flags REPL_WALKF_MODOTH then 0 ≤ j < nr ∧ j ∉ iosidx else j ∈ iosidx
  end.
#[global] Instance selected_dec nr flags iosidx j : Decision (selected nr flags iosidx j).
Proof. unfold selected. destruct iosidx; [|destruct (hasf _ _)]; apply _. Defined.

(** An index array as [_mds_repl_iosv_lookup] makes it. *)
Definition iosidx_ok (nr : Z) (iosidx : list Z) : Prop :=
  StronglySorted (≤) iosidx ∧ NoDup iosidx ∧ Forall (λ k, 0 ≤ k < nr) iosidx.

Lemma iosidx_ok_nil nr : iosidx_ok nr [].
Proof. split_and!; [apply SSorted_nil|apply NoDup_nil_2|done]. Qed.
Lemma iosidx_ok_one nr k : 0 ≤ k < nr → iosidx_ok nr [k].
Proof.
  intros. split_and!; [apply SSorted_cons; [apply SSorted_nil|done]|apply NoDup_singleton|].
  by apply Forall_singleton.
Qed.

Lemma walk_idxs_spec nr flags iosidx :
  nr ≤ SL_MAX_REPLICAS → iosidx_ok nr iosidx →
  NoDup (walk_idxs nr flags iosidx) ∧ Forall (λ k, 0 ≤ k < 64) (walk_idxs nr flags iosidx) ∧
  ∀ j, j ∈ walk_idxs nr flags iosidx ↔ selected nr flags iosidx j.
Proof.
  intros Hnr (Hs & Hnd & Hr). unfold SL_MAX_REPLICAS in Hnr.
  assert (Hseq : Forall (λ k, 0 ≤ k < 64) (seqZ 0 nr)).
  { apply Forall_forall. intros j Hj%elem_of_seqZ. lia. }
  unfold walk_idxs, selected. destruct iosidx as [|i l]; [|destruct (hasf _ _)].
  - split_and!; [apply NoDup_seqZ|done|]. intros j. rewrite elem_of_seqZ. lia.
  - split_and!; [apply NoDup_filter, NoDup_seqZ| |].
    { apply Forall_forall. intros j [_ Hj%elem_of_seqZ]%list_elem_of_filter. lia. }
    intros j. rewrite list_elem_of_filter, elem_of_seqZ.
    rewrite <-(not_true_iff_false (iosidx_in _ _)), iosidx_in_spec by done.
    split; [intros [? ?]|intros [? ?]]; split; auto with lia.
  - split_and!; [done| |done]. eapply Forall_impl; [done|]. simpl. lia.
Qed.

(** A walk without callback that translates. *)
Lemma wp_bmap_walk_tract nr t retifset flags iosidx b (Q : Z → bmap → Prop) :
  repls_wf (bmi_repls b) → nr ≤ SL_MAX_REPLICAS → iosidx_ok nr iosidx →
  hasf (bcm_flags b) BMAPF_REPLMODWR = false →
  hasf flags REPL_WALKF_SCIRCUIT = false → tract_ok t →
  (∀ b', same_but_repls b b' → repls_wf (bmi_repls b') →
     (∀ j, 0 ≤ j < 64 → stat b' j = if decide (selected nr flags iosidx j) then tr t (stat b j) else stat b j) →
     match walk_idxs nr flags iosidx with
     | [] => b' = b
     | _ => bmi_wrlocked b' = true ∧
            bmi_orepls b' = if bmi_wrlocked b then bmi_orepls b else bmi_repls b
     end →
     Q (last_nonzero 0 ((λ k, ret_of retifset (stat b k)) <$> walk_idxs nr flags iosidx)) b') →
  wp (mds_repl_bmap_walk nr (Some t) retifset flags iosidx) Q b.
Proof.
  intros Hwf Hnr Hok Hmod Hsc Ht HQ.
  destruct (walk_idxs_spec nr flags iosidx Hnr Hok) as (Hnd & Hall & Hsel).
  assert (Hwp : wp (mds_repl_bmap_walk_cb nr (Some t) retifset flags iosidx None)
                   (λ rc ba, Q rc ba.1) (b, tt)).
  { apply wp_walk_tract; [done..|]. intros b' H1 H2 H3 H4. apply HQ; [done..| |done].
    intros j Hj. rewrite H3 by done. by erewrite decide_ext by apply Hsel. }
  unfold wp, mds_repl_bmap_walk in *.
  by destruct (mds_repl_bmap_walk_cb _ _ _ _ _ _ _) as [[rc [b' []]]|].
Qed.

(** The macro on one replica. *)
Lemma wp_bmap_apply t retifset k b (Q : Z → bmap → Prop) :
  repls_wf (bmi_repls b) → 0 ≤ k < 64 → hasf (bcm_flags b) BMAPF_REPLMODWR = false → tract_ok t →
  (∀ b', same_but_repls b b' → repls_wf (bmi_repls b') →
     (∀ j, 0 ≤ j < 64 → stat b' j = if decide (j = k) then tr t (stat b k) else stat b j) →
     bmi_wrlocked b' = true → bmi_orepls b' = (if bmi_wrlocked b then bmi_orepls b else bmi_repls b) →
     Q (ret_of retifset (stat b k)) b') →
  wp (bmap_apply (Some t) retifset (k * SL_BITS_PER_REPLICA)) Q b.
Proof.
  intros Hwf Hk Hmod Ht HQ.
  assert (Hwp : wp (mds_repl_bmap_apply (Some t) retifset 0 (k * SL_BITS_PER_REPLICA) false None) (λ rc ba, Q rc.1 ba.1) (b, tt))
    by (apply wp_apply_tract; [done..|]; intros; by apply HQ).
  unfold wp, bmap_apply in *. by destruct (mds_repl_bmap_apply _ _ _ _ _ _ _) as [[rc [b' []]]|].
Qed.

Lemma wp_bmap_walk_query nr retifset flags iosidx b (Q : Z → bmap → Prop) :
  repls_wf (bmi_repls b) → nr ≤ SL_MAX_REPLICAS → iosidx_ok nr iosidx →
  Q ((if hasf flags REPL_WALKF_SCIRCUIT then first_nonzero else last_nonzero) 0
       ((λ k, ret_of retifset (stat b k)) <$> walk_idxs nr flags iosidx)) b →
  wp (mds_repl_bmap_walk nr None retifset flags iosidx) Q b.
Proof.
  intros Hwf Hnr Hok HQ.
  destruct (walk_idxs_spec nr flags iosidx Hnr Hok) as (Hnd & Hall & Hsel).
  assert (Hwp : wp (mds_repl_bmap_walk_cb nr None retifset flags iosidx None)
                   (λ rc ba, Q rc ba.1) (b, tt)) by (by apply wp_walk_query).
  unfold wp, mds_repl_bmap_walk in *.
  by destruct (mds_repl_bmap_walk_cb _ _ _ _ _ _ _) as [[rc [b' []]]|].
Qed.

(** C39: a walk of the replica bitmap translates exactly the selected replicas
    (all of them, the listed ones, or all but the listed ones), each by the
    translation array applied to the state it had, leaves the others as they
    were, returns the [retifset] entry of the last replica that has one, and
    never fails an assertion on a well-formed table. *)
Theorem bmap_walk_translates nr t r flags iosidx b :
  repls_wf (bmi_repls b) → nr ≤ SL_MAX_REPLICAS → iosidx_ok nr iosidx →
  hasf (bcm_flags b) BMAPF_REPLMODWR = false → hasf flags REPL_WALKF_SCIRCUIT = false → tract_ok t →
  ∃ b', mds_repl_bmap_walk nr (Some t) (Some r) flags iosidx b
        = Done (last_nonzero 0 ((λ k, arr_get r (stat b k)) <$> walk_idxs nr flags iosidx), b') ∧
    same_but_repls b b' ∧
    ∀ j, 0 ≤ j < SL_MAX_REPLICAS →
      stat b' j = if decide (selected nr flags iosidx j) then tr t (stat b j) else stat b j.
Proof.
  intros Hwf Hnr Hok Hmod Hsc Ht.
  destruct (wp_run (mds_repl_bmap_walk nr (Some t) (Some r) flags iosidx) (λ rc b',
    rc = last_nonzero 0 ((λ k, arr_get r (stat b k)) <$> walk_idxs nr flags iosidx) ∧ same_but_repls b b' ∧
    ∀ j, 0 ≤ j < 64 → stat b' j = if decide (selected nr flags iosidx j) then tr t (stat b j) else stat b j) b)
    as (rc & b' & Hrun & -> & Hsame & Hstat).
  { apply wp_bmap_walk_tract; [done..|]. intros b' ? _ ? _. done. }
  by exists b'.
Qed.

(** A bmap with replica 0 valid and replica 2 queued. *)
Definition ex_bmap : bmap :=
  {| bcm_bmapno := 0; bcm_flags := 0;
     bmi_od := {| bod_crcstates := replicate 128 0;
                  bod_repls := repl_upd (repl_upd zero_table 0 BREPLST_VALID) 2 BREPLST_REPL_QUEUED;
                  bod_crcs := replicate 128 0; bod_gen := 7; bod_replpol := 0 |};
     bmi_orepls := zero_table; bmi_sys_prio := -1; bmi_usr_prio := -1; bmi_wrlocked := false |}.
Lemma ex_bmap_wf : repls_wf (bmi_repls ex_bmap).
Proof. apply repl_upd_wf, repl_upd_wf, zero_table_wf. Qed.

Definition ex_tract : list Z := arr_set (brepls_init (-1)) BREPLST_VALID BREPLST_GARBAGE.
Lemma tract_okb t :
  forallb (λ v, (0 <=? tr t v) && (tr t v <? NBREPLST)) (seqZ 0 NBREPLST) = true → tract_ok t.
Proof.
  rewrite forallb_elem_of. intros Hb v Hv. specialize (Hb v).
  rewrite elem_of_seqZ in Hb. specialize (Hb ltac:(lia)). apply andb_true_iff in Hb as [? ?]. lia.
Qed.

Lemma bmap_walk_translates_witness :
  ∃ b', mds_repl_bmap_walk 4 (Some ex_tract) (Some brepls_init_idx) REPL_WALKF_MODOTH [1] ex_bmap
        = Done (last_nonzero 0 ((λ k, arr_get brepls_init_idx (stat ex_bmap k))
                                  <$> walk_idxs 4 REPL_WALKF_MODOTH [1]), b') ∧
    same_but_repls ex_bmap b' ∧
    ∀ j, 0 ≤ j < SL_MAX_REPLICAS →
      stat b' j = if decide (selected 4 REPL_WALKF_MODOTH [1] j) then tr ex_tract (stat ex_bmap j)
                  else stat ex_bmap j.
Proof.
  apply (bmap_walk_translates 4 ex_tract brepls_init_idx REPL_WALKF_MODOTH [1] ex_bmap).
  - exact ex_bmap_wf.
  - unfold SL_MAX_REPLICAS. lia.
  - apply iosidx_ok_one. lia.
  - reflexivity.
  - reflexivity.
  - apply tract_okb. vm_compute. reflexivity.
Defined.
