(* ===== verification/BmapMds.v ===== *)
(** * Bmaps on the metadata server ([slashd/bmap_mds.c], the bmap journal
      records of [slashd/mdslog.c])

    Loading a bmap from the metafile, checking it, writing it back with its
    CRC, and the journal record that goes with a change of replica states. *)
From S2P Require Import Prelude ReplBits Inode ReplWalk.

(** ** Constants *)
Definition BMAP_NULL_CRC : Z := 0x436f5d7c450ed606.
Definition BMAP_OD_CRCSZ : Z := SLASH_CRCS_PER_BMAP + SL_REPLICA_NBYTES + 8 * SLASH_CRCS_PER_BMAP + 4 + 4.
Definition BMAP_OD_SZ : Z := BMAP_OD_CRCSZ + 8.
Definition BMAP_SLVR_DATA : Z := Z.shiftl 1 0.
Definition BMAP_SLVR_CRC : Z := Z.shiftl 1 1.
Definition SLASH_SLVR_SIZE : Z := 1024 * 1024.
Definition SLASH_BMAP_SIZE : Z := SLASH_SLVRS_PER_BMAP * SLASH_SLVR_SIZE.
Definition BRPOL_ONETIME : Z := 0.
Definition BRPOL_PERSIST : Z := 1.
Definition BMAPGETF_NOAUTOINST : Z := Z.shiftl 1 4.
Definition BMAPGETF_NODISKREAD : Z := Z.shiftl 1 5.

(** What the bmap routines read of the file: its ID, replica table and
    policy from the inode, its size and blocks, and whether a partial
    truncation is under way ([FCMH_MDS_IN_PTRUNC]). *)
Record finfo := {
  fi_fid : Z;
  fi_repls : list Z;
  fi_replpol : Z;
  fi_fsz : Z;
  fi_nblks : Z;
  fi_in_ptrunc : bool;
}.
Definition fi_nrepls (f : finfo) : Z := Z.of_nat (length (fi_repls f)).
Definition finfo_ok (f : finfo) : Prop := fi_nrepls f ≤ SL_MAX_REPLICAS ∧ 0 ≤ fi_fsz f.

Definition howmany (x y : Z) : Z := (x + (y - 1)) / y.
Definition fcmh_nvalidbmaps (f : finfo) : Z := howmany (fi_fsz f) SLASH_BMAP_SIZE.

(** Journal records ([slashd/journal_mds.h]). *)
Record slmds_jent_bmap_repls := {
  sjbr_fid : Z;
  sjbr_bmapno : Z;
  sjbr_bgen : Z;
  sjbr_replpol : Z;
  sjbr_nrepls : Z;
  sjbr_repls : list Z;
}.
(** A batch of CRC updates ([include/slashrpc.h]); [nups] is the length of
    [crcs]. *)
Definition MAX_BMAP_INODE_PAIRS : Z := 24.
Definition SLJ_MDS_NCRCS : Z := MAX_BMAP_INODE_PAIRS.
Record srt_bmap_crcwire := { crc : Z; slot : Z }.
Record srm_bmap_crcup := {
  fsize : Z;
  nblks : Z;
  utimgen : Z;
  extend : Z;
  crcs : list srt_bmap_crcwire;
}.
Record slmds_jent_bmap_crc := {
  sjbc_fid : Z;
  sjbc_bmapno : Z;
  sjbc_iosid : Z;
  sjbc_utimgen : Z;
  sjbc_fsize : Z;
  sjbc_aggr_nblks : Z;
  sjbc_repl_nblks : Z;
  sjbc_extend : Z;
  sjbc_crc : list srt_bmap_crcwire;
}.
Inductive jent :=
| MDS_LOG_BMAP_REPLS (r : slmds_jent_bmap_repls)
| MDS_LOG_BMAP_CRC (r : slmds_jent_bmap_crc).

(** The bmap region of the metafile.  A read returns its error code, the
    number of bytes, and what landed in the two buffers; a write also says
    whether the backend ran the transaction's log callback. *)
Class BmapIO (D : Type) := {
  preadv_bmap : D → Z → Z * Z * bmap_ondisk * Z;
  pwritev_bmap : D → Z → bmap_ondisk → Z → Z * Z * bool * D;
  crc64_bmap : bmap_ondisk → Z;
  memchk_bmap : bmap_ondisk → bool;
}.
(** What the code relies on: a record written in full is the record read,
    and [pfl_memchk] with value 0 only holds of all-zero memory. *)
Class BmapIOLaws (D : Type) `{BmapIO D} := {
  memchk_bmap_zero o : memchk_bmap o = true → Forall (λ b, b = 0) (bod_repls o);
  preadv_pwritev_bmap d n o crc lg d' :
    pwritev_bmap d n o crc = (0, BMAP_OD_SZ, lg, d') →
    preadv_bmap d' n = (0, BMAP_OD_SZ, o, crc);
}.

(** Rows of the upsch table ([slashd/main_mds.c] creates it with
    [UNIQUE(resid, fid, bno)]). *)
Inductive upst := StQ | StS.
#[global] Instance upst_eq_dec : EqDecision upst.
Proof. solve_decision. Defined.
Record uprow := { ur_status : upst; ur_sys_prio : Z; ur_usr_prio : Z; ur_nonce : Z }.
Abbreviation upsch_t := (gmap (Z * Z * Z) uprow).

(** Entries of the scheduler's queue [slm_upschq] ([slashd/up_sched_res.h]):
    a bmap with work to do, or an I/O system whose work is to be paged in. *)
Inductive updent := UpdBmap (fid bno : Z) | UpdPagein (resid : Z).
#[global] Instance updent_eq_dec : EqDecision updent.
Proof. solve_decision. Defined.

Definition mds_bmap_exists (f : finfo) (n : Z) : bool :=
  if n =? 0 then true else n <? fcmh_nvalidbmaps f.

(** The amount of data a replication of the bmap moves. *)
Fixpoint repltraffic_loop (crcstates : list Z) (i : Z) (last : bool) (lastslvr lastsize amt : Z) : Z :=
  match crcstates with
  | [] => amt
  | st :: crcstates =>
      if hasf st BMAP_SLVR_DATA then
        if last && (i =? lastslvr) then amt + lastsize
        else repltraffic_loop crcstates (i + 1) last lastslvr lastsize (amt + SLASH_SLVR_SIZE)
      else repltraffic_loop crcstates (i + 1) last lastslvr lastsize amt
  end.
Definition slm_bmap_calc_repltraffic (f : finfo) (b : bmap) : Z :=
  let lastbno := fcmh_nvalidbmaps f in
  let lastbno := if negb (lastbno =? 0) then lastbno - 1 else lastbno in
  let '(lastslvr, lastsize) :=
    if negb (fi_fsz f =? 0) then
      let bmapsize := fi_fsz f mod SLASH_BMAP_SIZE in
      let bmapsize := if bmapsize =? 0 then SLASH_BMAP_SIZE else bmapsize in
      let lastsize := fi_fsz f mod SLASH_SLVR_SIZE in
      ((bmapsize - 1) / SLASH_SLVR_SIZE, if lastsize =? 0 then SLASH_SLVR_SIZE else lastsize)
    else (0, 0) in
  repltraffic_loop (take (Z.to_nat SLASH_SLVRS_PER_BMAP) (bod_crcstates (bmi_od b))) 0
    (bcm_bmapno b =? lastbno) lastslvr lastsize 0.

Section ops.
Context {D : Type} `{BmapIO D} `{PflErr}.
Context (f : finfo).

(** The bmap at hand, the metafile, the journal (latest entry first) and
    the worker queue of bmaps whose states must reach the upsch table; the
    upsch table, the scheduler's queue and the I/O systems that have
    [SIF_UPSCH_PAGING] set. *)
Record mstate := {
  ms_b : bmap;
  ms_disk : D;
  ms_journal : list jent;
  ms_workq : list Z;
  ms_upsch : upsch_t;
  ms_upschq : list updent;
  ms_paging : gset Z;
}.
Definition ms_with_b (s : mstate) (b : bmap) : mstate :=
  {| ms_b := b; ms_disk := ms_disk s; ms_journal := ms_journal s; ms_workq := ms_workq s;
     ms_upsch := ms_upsch s; ms_upschq := ms_upschq s; ms_paging := ms_paging s |}.
Definition ms_with_upsch (s : mstate) (u : upsch_t) : mstate :=
  {| ms_b := ms_b s; ms_disk := ms_disk s; ms_journal := ms_journal s; ms_workq := ms_workq s;
     ms_upsch := u; ms_upschq := ms_upschq s; ms_paging := ms_paging s |}.

Abbreviation BM := (M mstate).

(** Run an operation on the bmap alone. *)
Definition onB {A} (m : M bmap A) : BM A := λ s,
  match m (ms_b s) with
  | Done (a, b) => Done (a, ms_with_b s b)
  | Stuck w => Stuck w
  end.
Definition modB (g : bmap → bmap) : BM unit := modifyM (λ s, ms_with_b s (g (ms_b s))).

(** [mds_bmap_initnew]: a bmap that is not on disk yet. *)
Definition mds_bmap_initnew : BM unit :=
  modB (λ b, b_with_prio (b_with_od b
    {| bod_crcstates := bod_crcstates (bmi_od b); bod_repls := bod_repls (bmi_od b);
       bod_crcs := replicate (Z.to_nat SLASH_CRCS_PER_BMAP) BMAP_NULL_CRC;
       bod_gen := bod_gen (bmi_od b); bod_replpol := fi_replpol f |}) (-1) (-1)).

Definition valid_retifset : list Z :=
  let r := brepls_init 0 in
  let r := arr_set r BREPLST_VALID 1 in
  let r := arr_set r BREPLST_GARBAGE 1 in
  let r := arr_set r BREPLST_GARBAGE_SCHED 1 in
  let r := arr_set r BREPLST_TRUNCPNDG 1 in
  arr_set r BREPLST_TRUNCPNDG_SCHED 1.

(** [mds_bmap_ensure_valid]; logging at level [PLL_FATAL] ends the
    process. *)
Definition mds_bmap_ensure_valid : BM unit :=
  rc ← onB (mds_repl_bmap_walk_all (fi_nrepls f) None (Some valid_retifset) REPL_WALKF_SCIRCUIT);
  psc_assert (negb (rc =? 0)).

Definition sched_retifset : list Z :=
  arr_set (arr_set (brepls_init 0) BREPLST_REPL_SCHED 1) BREPLST_GARBAGE_SCHED 1.

Inductive logf := LogNone | LogBmapRepls | LogBmapCrc (iosid : Z) (crcup : srm_bmap_crcup).

Definition mdslogfill_bmap_repls (b : bmap) : slmds_jent_bmap_repls :=
  {| sjbr_fid := fi_fid f; sjbr_bmapno := bcm_bmapno b; sjbr_bgen := bod_gen (bmi_od b);
     sjbr_nrepls := fi_nrepls f; sjbr_replpol := fi_replpol f;
     sjbr_repls := take (Z.to_nat SL_REPLICA_NBYTES) (bmi_repls b) |}.

(** [mdslog_bmap_repls]: log the states and queue the worker. *)
Definition mdslog_bmap_repls : BM unit :=
  modifyM (λ s,
    {| ms_b := b_with_flags (ms_b s) (setf (bcm_flags (ms_b s)) BMAPF_REPLMODWR);
       ms_disk := ms_disk s;
       ms_journal := MDS_LOG_BMAP_REPLS (mdslogfill_bmap_repls (ms_b s)) :: ms_journal s;
       ms_workq := bcm_bmapno (ms_b s) :: ms_workq s;
       ms_upsch := ms_upsch s; ms_upschq := ms_upschq s; ms_paging := ms_paging s |}).

(** The loop of [mdslog_bmap_crc]: entries of at most [SLJ_MDS_NCRCS]
    CRCs; only the first one carries the file extension.  [n] bounds the
    number of rounds. *)
Fixpoint crc_entries (n : nat) (b : bmap) (iosid : Z) (u : srm_bmap_crcup)
    (l : list srt_bmap_crcwire) (distill : Z) : list slmds_jent_bmap_crc :=
  match n, l with
  | S n, _ :: _ =>
      let c := Nat.min (Z.to_nat SLJ_MDS_NCRCS) (length l) in
      {| sjbc_fid := fi_fid f; sjbc_bmapno := bcm_bmapno b; sjbc_iosid := iosid;
         sjbc_utimgen := utimgen u; sjbc_fsize := fsize u; sjbc_aggr_nblks := fi_nblks f;
         sjbc_repl_nblks := nblks u; sjbc_extend := distill; sjbc_crc := take c l |}
      :: crc_entries n b iosid u (drop c l) 0
  | _, _ => []
  end.
Definition mdslog_bmap_crc (iosid : Z) (u : srm_bmap_crcup) : BM unit :=
  s ← getM;
  _ ← psc_assert (hasf (bcm_flags (ms_b s)) BMAPF_CRC_UP);
  putM {| ms_b := b_with_flags (b_with_wrlocked (ms_b s) false) (clrf (bcm_flags (ms_b s)) BMAPF_CRC_UP);
          ms_disk := ms_disk s;
          ms_journal := reverse (MDS_LOG_BMAP_CRC <$>
            crc_entries (length (crcs u)) (ms_b s) iosid u (crcs u) (extend u)) ++ ms_journal s;
          ms_workq := ms_workq s;
          ms_upsch := ms_upsch s; ms_upschq := ms_upschq s; ms_paging := ms_paging s |}.

Definition mds_bmap_write (lf : logf) : BM Z :=
  _ ← mds_bmap_ensure_valid;
  s ← getM;
  let o := bmi_od (ms_b s) in
  let '(rc, nb, logged, d') := pwritev_bmap (ms_disk s) (bcm_bmapno (ms_b s)) o (crc64_bmap o) in
  _ ← putM {| ms_b := ms_b s; ms_disk := d'; ms_journal := ms_journal s; ms_workq := ms_workq s;
            ms_upsch := ms_upsch s; ms_upschq := ms_upschq s; ms_paging := ms_paging s |};
  _ ← match lf with
      | LogNone => mret tt
      | LogBmapRepls => whenM logged mdslog_bmap_repls
      | LogBmapCrc iosid u => whenM logged (mdslog_bmap_crc iosid u)
      end;
  mret (if (rc =? 0) && negb (nb =? BMAP_OD_SZ) then SLERR_SHORTIO else rc).

(** The array of the two walks that turn in-flight work back to pending. *)
Definition unsched_tract : list Z :=
  arr_set (arr_set (brepls_init (-1)) BREPLST_REPL_SCHED BREPLST_REPL_QUEUED)
    BREPLST_GARBAGE_SCHED BREPLST_GARBAGE.

(** [slm_bmap_resetnonce] with its row callback: work issued by an earlier
    incarnation of the server ([nonce]) is reverted to pending. *)
Fixpoint resetnonce_rows (cfg : gmap Z sl_res_type) (nonce : Z) (rows : list (Z * uprow))
    (update : bool) : BM bool :=
  match rows with
  | [] => mret update
  | (resid, row) :: rows =>
      if ur_nonce row =? nonce then resetnonce_rows cfg nonce rows update
      else
        let idx := (spec_lookup cfg resid 0 (fi_repls f)).1 in
        _ ← psc_assert (idx >=? 0);
        _ ← onB (mds_repl_bmap_walk (fi_nrepls f) (Some unsched_tract) None 0 [idx]);
        resetnonce_rows cfg nonce rows true
  end.
(** [SELECT nonce, resid FROM upsch WHERE fid = ? AND bno = ?] *)
Definition upsch_rows (u : upsch_t) (fid bno : Z) : list (Z * uprow) :=
  (λ kv, (kv.1.1.1, kv.2)) <$> filter (λ kv, kv.1.1.2 = fid ∧ kv.1.2 = bno) (map_to_list u).
Definition slm_bmap_resetnonce (cfg : gmap Z sl_res_type) (nonce : Z) : BM unit :=
  s ← getM;
  let bno := bcm_bmapno (ms_b s) in
  update ← resetnonce_rows cfg nonce (upsch_rows (ms_upsch s) (fi_fid f) bno) false;
  if update : bool then
    _ ← modifyM (λ s, ms_with_upsch s (map_imap (λ k row,
          Some (if bool_decide (k.1.2 = fi_fid f ∧ k.2 = bno)
                then {| ur_status := ur_status row; ur_sys_prio := ur_sys_prio row;
                        ur_usr_prio := ur_usr_prio row; ur_nonce := nonce |}
                else row)) (ms_upsch s)));
    _ ← mds_bmap_write LogBmapRepls;
    mret tt
  else mret tt.

(** [mds_bmap_read]; [replay] is [slm_opstate == SLM_OPSTATE_REPLAY]. *)
Definition mds_bmap_read_tail (replay : bool) (cfg : gmap Z sl_res_type) (nonce : Z) : BM Z :=
  if replay then mret 0 else
  rc ← onB (mds_repl_bmap_walk_all (fi_nrepls f) None (Some sched_retifset) REPL_WALKF_SCIRCUIT);
  _ ← whenM (negb (rc =? 0)) (slm_bmap_resetnonce cfg nonce);
  mret 0.

Definition mds_bmap_read (replay : bool) (cfg : gmap Z sl_res_type) (nonce flags : Z) : BM Z :=
  if hasf flags BMAPGETF_NODISKREAD then
    _ ← mds_bmap_initnew; mds_bmap_read_tail replay cfg nonce
  else
    s ← getM;
    let '(rc, nb, o, od_crc) := preadv_bmap (ms_disk s) (bcm_bmapno (ms_b s)) in
    _ ← putM (ms_with_b s (b_with_od (ms_b s) o));
    if negb (rc =? 0) then mret rc
    else if (nb =? 0) && hasf flags BMAPGETF_NOAUTOINST then mret SLERR_BMAP_INVALID
    else if (nb =? 0) || ((nb =? BMAP_OD_SZ) && (od_crc =? 0) && memchk_bmap o) then
      _ ← mds_bmap_initnew; mret 0
    else
      let rc := if (nb =? BMAP_OD_SZ) && negb (od_crc =? crc64_bmap o) then PFLERR_BADCRC else rc in
      if negb (rc =? 0) then mret rc
      else
        _ ← mds_bmap_ensure_valid;
        mds_bmap_read_tail replay cfg nonce.
End ops.

Arguments mstate D : clear implicits.

(** ** Lemmas *)
Section spec.
Context {D : Type} `{BmapIO D} `{PflErr} (f : finfo).
Abbreviation BM := (M (mstate D)).

Lemma wp_onB {A} (m : M bmap A) (Q : A → mstate D → Prop) s :
  wp m (λ a b, Q a (ms_with_b s b)) (ms_b s) → wp (onB m) Q s.
Proof. unfold wp, onB. by destruct (m (ms_b s)) as [[a b]|]. Qed.

(** Some replica of the file holds data. *)
Definition has_valid (b : bmap) : Prop :=
  ∃ j, 0 ≤ j < fi_nrepls f ∧ brepls_ok (stat b j) = true.

Lemma valid_retifset_spec v :
  0 ≤ v < NBREPLST → arr_get valid_retifset v = if brepls_ok v then 1 else 0.
Proof.
  intros Hv. unfold NBREPLST in Hv.
  assert (v = 0 ∨ v = 1 ∨ v = 2 ∨ v = 3 ∨ v = 4 ∨ v = 5 ∨ v = 6 ∨ v = 7) as Hc by lia.
  by repeat destruct Hc as [->|Hc]; [..|subst].
Qed.

Lemma ms_with_b_id (s : mstate D) : ms_with_b s (ms_b s) = s.
Proof. by destruct s. Qed.

Lemma wp_ensure_valid (Q : unit → mstate D → Prop) s :
  repls_wf (bmi_repls (ms_b s)) → finfo_ok f → has_valid (ms_b s) → Q tt s →
  wp (mds_bmap_ensure_valid f) Q s.
Proof.
  intros Hwf [Hnr _] (j & Hj & Hok) HQ. unfold mds_bmap_ensure_valid. wp_step. apply wp_onB.
  apply wp_bmap_walk_query; [done..|apply iosidx_ok_nil|].
  rewrite ms_with_b_id. wp_step; [|done]. apply negb_true_iff, Z.eqb_neq.
  change (hasf REPL_WALKF_SCIRCUIT REPL_WALKF_SCIRCUIT) with true. cbv iota.
  intros Hz%first_nonzero_zero. rewrite Forall_fmap, Forall_forall in Hz.
  specialize (Hz j). simpl in Hz. rewrite valid_retifset_spec, Hok in Hz by (by apply repl_stat_range).
  discriminate Hz. apply elem_of_seqZ. lia.
Qed.

Definition log_ok (lf : logf) (b : bmap) : Prop :=
  match lf with LogBmapCrc _ _ => hasf (bcm_flags b) BMAPF_CRC_UP = true | _ => True end.
(** The state after the backend took the record, before logging. *)
Definition on_disk (s : mstate D) (d' : D) : mstate D :=
  {| ms_b := ms_b s; ms_disk := d'; ms_journal := ms_journal s; ms_workq := ms_workq s;
     ms_upsch := ms_upsch s; ms_upschq := ms_upschq s; ms_paging := ms_paging s |}.
Definition log_repls (s : mstate D) : mstate D :=
  {| ms_b := b_with_flags (ms_b s) (setf (bcm_flags (ms_b s)) BMAPF_REPLMODWR);
     ms_disk := ms_disk s;
     ms_journal := MDS_LOG_BMAP_REPLS (mdslogfill_bmap_repls f (ms_b s)) :: ms_journal s;
     ms_workq := bcm_bmapno (ms_b s) :: ms_workq s; ms_upsch := ms_upsch s; ms_upschq := ms_upschq s; ms_paging := ms_paging s |}.
Definition log_crc (iosid : Z) (u : srm_bmap_crcup) (s : mstate D) : mstate D :=
  {| ms_b := b_with_flags (b_with_wrlocked (ms_b s) false) (clrf (bcm_flags (ms_b s)) BMAPF_CRC_UP);
     ms_disk := ms_disk s;
     ms_journal := reverse (MDS_LOG_BMAP_CRC <$>
       crc_entries f (length (crcs u)) (ms_b s) iosid u (crcs u) (extend u)) ++ ms_journal s;
     ms_workq := ms_workq s; ms_upsch := ms_upsch s; ms_upschq := ms_upschq s; ms_paging := ms_paging s |}.
Definition after_log (lf : logf) (lg : bool) (s : mstate D) : mstate D :=
  match lf with
  | LogNone => s
  | LogBmapRepls => if lg then log_repls s else s
  | LogBmapCrc iosid u => if lg then log_crc iosid u s else s
  end.

(** What a write does when some replica is valid. *)
Lemma wp_bmap_write lf (Q : Z → mstate D → Prop) s :
  repls_wf (bmi_repls (ms_b s)) → finfo_ok f → has_valid (ms_b s) → log_ok lf (ms_b s) →
  (∀ rc nb lg d',
     pwritev_bmap (ms_disk s) (bcm_bmapno (ms_b s)) (bmi_od (ms_b s)) (crc64_bmap (bmi_od (ms_b s)))
       = (rc, nb, lg, d') →
     Q (if (rc =? 0) && negb (nb =? BMAP_OD_SZ) then SLERR_SHORTIO else rc)
       (after_log lf lg (on_disk s d'))) →
  wp (mds_bmap_write f lf) Q s.
Proof.
  intros Hwf Hf Hok Hlog HQ. unfold mds_bmap_write. wp_step. apply wp_ensure_valid; [done..|].
  wp_step. wp_step. cbv zeta. destruct (pwritev_bmap _ _ _ _) as [[[rc nb] lg] d'] eqn:Ew.
  specialize (HQ _ _ _ _ eq_refl).
  wp_step. wp_step. wp_step. destruct lf; cbn beta iota.
  - wp_step. by wp_step.
  - apply wp_when; intros ->; [unfold mdslog_bmap_repls; wp_step|]; by wp_step.
  - apply wp_when; intros ->; [unfold mdslog_bmap_crc; do 4 wp_step; [done|]; wp_step|]; by wp_step.
Qed.

Lemma valid_not_zero b :
  repls_wf (bmi_repls b) → has_valid b → ¬ Forall (λ x, x = 0) (bmi_repls b).
Proof.
  intros Hwf (j & Hj & Hok) Hz.
  assert (Hb : ∀ i, byte_at (bmi_repls b) i = 0).
  { intros i. unfold byte_at. destruct (bmi_repls b !! Z.to_nat i) as [x|] eqn:E; [|done].
    rewrite Forall_lookup in Hz. simpl. eauto. }
  unfold stat, repl_stat, SL_REPL_GET_BMAP_IOS_STAT in Hok. rewrite !Hb in Hok.
  rewrite Z.shiftr_0_l, Z.shiftl_0_l in Hok. destruct (_ >? _); discriminate.
Qed.

Context `{!BmapIOLaws D}.

Lemma read_back (replay : bool) cfg nonce s d' lg :
  repls_wf (bmi_repls (ms_b s)) → finfo_ok f → has_valid (ms_b s) →
  (replay = true ∨ ∀ j, 0 ≤ j < fi_nrepls f → arr_get sched_retifset (stat (ms_b s) j) = 0) →
  pwritev_bmap (ms_disk s) (bcm_bmapno (ms_b s)) (bmi_od (ms_b s)) (crc64_bmap (bmi_od (ms_b s)))
    = (0, BMAP_OD_SZ, lg, d') →
  ∀ s1, ms_disk s1 = d' → bcm_bmapno (ms_b s1) = bcm_bmapno (ms_b s) →
    mds_bmap_read f replay cfg nonce 0 s1 = Done (0, ms_with_b s1 (b_with_od (ms_b s1) (bmi_od (ms_b s)))).
Proof.
  intros Hwf Hf Hok Hsched Hw s1 Hd Hn. apply preadv_pwritev_bmap in Hw.
  enough (Hwp : wp (mds_bmap_read f replay cfg nonce 0)
      (λ rc s', rc = 0 ∧ s' = ms_with_b s1 (b_with_od (ms_b s1) (bmi_od (ms_b s)))) s1).
  { apply wp_run in Hwp as (? & ? & Hrun & -> & ->). done. }
  unfold mds_bmap_read. change (hasf 0 BMAPGETF_NODISKREAD) with false. cbv iota.
  wp_step. wp_step. rewrite Hd, Hn, Hw. wp_step. wp_step.
  change (negb (0 =? 0)) with false. change (BMAP_OD_SZ =? 0) with false.
  rewrite Z.eqb_refl. cbv iota. simpl andb. simpl orb.
  destruct (memchk_bmap (bmi_od (ms_b s))) eqn:Em.
  { apply memchk_bmap_zero in Em. by destruct (valid_not_zero _ Hwf Hok). }
  rewrite andb_false_r, Z.eqb_refl. cbv zeta iota. simpl.
  assert (Hstat : ∀ j, stat (b_with_od (ms_b s1) (bmi_od (ms_b s))) j = stat (ms_b s) j) by done.
  wp_step. apply wp_ensure_valid; [done|done| |].
  { destruct Hok as (j & Hj & Hok). exists j. by rewrite Hstat. }
  unfold mds_bmap_read_tail. destruct replay; [by wp_step|].
  destruct Hsched as [?|Hsched]; [done|]. wp_step. apply wp_onB.
  apply wp_bmap_walk_query; [done|apply Hf|apply iosidx_ok_nil|].
  rewrite ms_with_b_id. change (hasf REPL_WALKF_SCIRCUIT REPL_WALKF_SCIRCUIT) with true. cbv iota.
  rewrite (proj2 (first_nonzero_zero _)).
  { wp_step. wp_step; [done|]. by wp_step. }
  rewrite Forall_fmap, Forall_forall. intros j Hj%elem_of_seqZ. simpl. rewrite Hstat. apply Hsched. lia.
Qed.
End spec.

(** C34: what a bmap write puts on disk is what a later load finds. After
    [mds_bmap_write] returned 0 for a bmap with a replica that has data, any
    handle of the same bmap that reads the metafile without flags gets the
    states, CRCs, generation and policy that were written; the CRC check
    accepts them and they are not mistaken for a hole. The load is in replay
    mode, or no replica is being replicated or reclaimed: outside of replay a
    load resets those states. *)
Theorem bmap_write_read_roundtrip {D} `{BmapIO D} `{PflErr} `{!BmapIOLaws D} f (replay : bool) cfg nonce lf
    (s s' s1 : mstate D) :
  repls_wf (bmi_repls (ms_b s)) → finfo_ok f → has_valid f (ms_b s) → log_ok lf (ms_b s) →
  (replay = true ∨ ∀ j, 0 ≤ j < fi_nrepls f → arr_get sched_retifset (stat (ms_b s) j) = 0) →
  mds_bmap_write f lf s = Done (0, s') →
  ms_disk s1 = ms_disk s' → bcm_bmapno (ms_b s1) = bcm_bmapno (ms_b s) →
  mds_bmap_read f replay cfg nonce 0 s1 = Done (0, ms_with_b s1 (b_with_od (ms_b s1) (bmi_od (ms_b s)))).
Proof.
  intros Hwf Hf Hok Hlog Hsched Hw Hd Hn.
  destruct (wp_done (mds_bmap_write f lf) (λ rc s', rc = 0 → ∃ lg,
    pwritev_bmap (ms_disk s) (bcm_bmapno (ms_b s)) (bmi_od (ms_b s)) (crc64_bmap (bmi_od (ms_b s)))
      = (0, BMAP_OD_SZ, lg, ms_disk s')) s 0 s' Hw) as [lg Hp]; [|done|].
  { apply wp_bmap_write; [done..|]. intros rc nb lg d' Hp. cbv zeta. intros Hrc. exists lg.
    destruct (Z.eqb_spec rc 0) as [->|]; [|simpl in Hrc; congruence]. rewrite Hp.
    destruct (Z.eqb_spec nb BMAP_OD_SZ) as [->|]; [|discriminate].
    by destruct lf, lg. }
  by eapply read_back.
Qed.

(** A short read is accepted without a CRC check.  When the backend
    returns a record with fewer bytes than a bmap and more than none, the load
    succeeds with whatever the buffer holds, whatever the stored CRC, provided
    some replica state in it counts as valid.  (The comment before the final
    test calls a short read an error.) *)
Theorem bmap_read_short_unchecked {D} `{BmapIO D} `{PflErr} f cfg nonce (s : mstate D) nb o crc :
  finfo_ok f → repls_wf (bod_repls o) → has_valid f (b_with_od (ms_b s) o) →
  preadv_bmap (ms_disk s) (bcm_bmapno (ms_b s)) = (0, nb, o, crc) → 0 < nb < BMAP_OD_SZ →
  mds_bmap_read f true cfg nonce 0 s = Done (0, ms_with_b s (b_with_od (ms_b s) o)).
Proof.
  intros Hf Hwf Hok Hr Hnb.
  enough (Hwp : wp (mds_bmap_read f true cfg nonce 0)
      (λ rc s', rc = 0 ∧ s' = ms_with_b s (b_with_od (ms_b s) o)) s).
  { apply wp_run in Hwp as (? & ? & Hrun & -> & ->). done. }
  unfold mds_bmap_read. change (hasf 0 BMAPGETF_NODISKREAD) with false. cbv iota.
  wp_step. wp_step. rewrite Hr. wp_step. wp_step. change (negb (0 =? 0)) with false. cbv iota.
  destruct (Z.eqb_spec nb 0); [lia|]. destruct (Z.eqb_spec nb BMAP_OD_SZ); [lia|]. simpl.
  wp_step. apply wp_ensure_valid; [done..|]. unfold mds_bmap_read_tail. by wp_step.
Qed.

(** ** A concrete metafile of bmaps, for witnesses *)
Module MemBmaps.
Record mem := { mb_rec : gmap Z (bmap_ondisk * Z); mb_short : bool }.
Definition od_zero : bmap_ondisk :=
  {| bod_crcstates := replicate 128 0; bod_repls := zero_table; bod_crcs := replicate 128 0;
     bod_gen := 0; bod_replpol := 0 |}.
Definition sum (o : bmap_ondisk) : Z := 1 + foldr Z.add 0 (bod_repls o) + bod_gen o.

#[global] Instance io : BmapIO mem := {|
  preadv_bmap d n := match mb_rec d !! n with
                     | Some (o, crc) => (0, if mb_short d then 100 else BMAP_OD_SZ, o, crc)
                     | None => (0, 0, od_zero, 0)
                     end;
  pwritev_bmap d n o crc :=
    (0, BMAP_OD_SZ, true, {| mb_rec := <[n := (o, crc)]> (mb_rec d); mb_short := false |});
  crc64_bmap := sum;
  memchk_bmap o := forallb (λ b, b =? 0) (bod_repls o);
|}.
#[global] Instance io_laws : BmapIOLaws mem.
Proof.
  split; simpl.
  - intros o Hb. apply Forall_forall. intros x Hx.
    rewrite forallb_elem_of in Hb. apply Hb in Hx. lia.
  - intros. simplify_eq. simpl. by rewrite lookup_insert_eq.
Qed.

Definition fi : finfo := {| fi_fid := 77; fi_repls := [10; 11; 12; 13]; fi_replpol := 1; fi_fsz := 1000; fi_nblks := 2;
  fi_in_ptrunc := false |}.
Definition st : mstate mem :=
  {| ms_b := ex_bmap; ms_disk := {| mb_rec := ∅; mb_short := false |}; ms_journal := []; ms_workq := [];
     ms_upsch := ∅; ms_upschq := []; ms_paging := ∅ |}.
Definition blank : bmap := b_with_od ex_bmap od_zero.

Lemma fi_ok : finfo_ok fi.
Proof. split; vm_compute; discriminate. Qed.
Lemma ex_valid : has_valid fi ex_bmap.
Proof. exists 0. split; vm_compute; [split; done|done]. Qed.
End MemBmaps.

Lemma bmap_write_read_roundtrip_witness :
  let s' := {| ms_b := b_with_flags ex_bmap (setf 0 BMAPF_REPLMODWR);
               ms_disk := {| MemBmaps.mb_rec := {[ 0 := (bmi_od ex_bmap, crc64_bmap (bmi_od ex_bmap)) ]};
                             MemBmaps.mb_short := false |};
               ms_journal := [MDS_LOG_BMAP_REPLS (mdslogfill_bmap_repls MemBmaps.fi ex_bmap)]; ms_workq := [0]; ms_upsch := ∅; ms_upschq := []; ms_paging := ∅ |} in
  mds_bmap_read MemBmaps.fi false ∅ 1 0 (ms_with_b s' MemBmaps.blank)
  = Done (0, ms_with_b (ms_with_b s' MemBmaps.blank) (b_with_od MemBmaps.blank (bmi_od ex_bmap))).
Proof.
  intros s'.
  apply (bmap_write_read_roundtrip MemBmaps.fi false ∅ 1 LogBmapRepls MemBmaps.st s' (ms_with_b s' MemBmaps.blank)).
  - exact ex_bmap_wf.
  - exact MemBmaps.fi_ok.
  - exact MemBmaps.ex_valid.
  - exact I.
  - right. intros j Hj.
    assert (j = 0 ∨ j = 1 ∨ j = 2 ∨ j = 3) as Hc by (unfold fi_nrepls in Hj; simpl in Hj; lia).
    destruct Hc as [-> | [-> | [-> | ->]]]; vm_compute; reflexivity.
  - vm_compute. reflexivity.
  - reflexivity.
  - reflexivity.
Defined.

Lemma bmap_read_short_unchecked_witness :
  let s := {| ms_b := MemBmaps.blank;
              ms_disk := {| MemBmaps.mb_rec := {[ 0 := (bmi_od ex_bmap, 12345) ]}; MemBmaps.mb_short := true |};
              ms_journal := []; ms_workq := []; ms_upsch := ∅; ms_upschq := []; ms_paging := ∅ |} in
  mds_bmap_read MemBmaps.fi true ∅ 1 0 s = Done (0, ms_with_b s (b_with_od MemBmaps.blank (bmi_od ex_bmap))).
Proof.
  intros s. apply (bmap_read_short_unchecked MemBmaps.fi ∅ 1 s 100 (bmi_od ex_bmap) 12345).
  - exact MemBmaps.fi_ok.
  - exact ex_bmap_wf.
  - exact MemBmaps.ex_valid.
  - reflexivity.
  - split; reflexivity.
Defined.

(** ** Log entries of a CRC update *)
Lemma crc_entries_spec f n b iosid u l distill :
  (length l ≤ n)%nat →
  concat (sjbc_crc <$> crc_entries f n b iosid u l distill) = l ∧
  Forall (λ e, 0 < Z.of_nat (length (sjbc_crc e)) ≤ SLJ_MDS_NCRCS) (crc_entries f n b iosid u l distill) ∧
  Forall (λ e, sjbc_fid e = fi_fid f ∧ sjbc_bmapno e = bcm_bmapno b ∧ sjbc_iosid e = iosid)
    (crc_entries f n b iosid u l distill) ∧
  sjbc_extend <$> crc_entries f n b iosid u l distill =
    match crc_entries f n b iosid u l distill with
    | [] => []
    | _ :: es => distill :: replicate (length es) 0
    end.
Proof.
  revert l distill. induction n as [|n IH]; intros l distill Hn.
  { destruct l; simpl in *; [done|lia]. }
  destruct l as [|x l]; [by simpl|]. unfold SLJ_MDS_NCRCS, MAX_BMAP_INODE_PAIRS in *.
  cbn [crc_entries]. set (c := Nat.min (Z.to_nat SLJ_MDS_NCRCS) (length (x :: l))).
  assert (Hc : (1 ≤ c ≤ 24 ∧ c ≤ length (x :: l))%nat)
    by (unfold c, SLJ_MDS_NCRCS, MAX_BMAP_INODE_PAIRS; simpl length; lia).
  destruct (IH (drop c (x :: l)) 0) as (E1 & E2 & E3 & E4).
  { rewrite length_drop. simpl in *. lia. }
  split_and!.
  - rewrite fmap_cons. cbn [concat sjbc_crc]. rewrite E1. apply take_drop.
  - constructor; [|done]. cbn [sjbc_crc]. rewrite length_take. lia.
  - by constructor.
  - rewrite fmap_cons. cbn [sjbc_extend]. f_equal. rewrite E4.
    by destruct (crc_entries _ _ _ _ _ _ _).
Qed.

(** The journal entries [mdslog_bmap_crc] writes for a batch of CRC
    updates carry, in order, exactly the CRCs of the batch, each at most 24
    and at least one, all for the right file, bmap and I/O system; the file
    extension goes with the first entry only.  The entries are added to the
    journal and the update in progress is over. *)
Theorem crc_log_complete {D} (f : finfo) (s : mstate D) iosid u :
  hasf (bcm_flags (ms_b s)) BMAPF_CRC_UP = true →
  ∃ es s', mdslog_bmap_crc f iosid u s = Done (tt, s') ∧
    ms_journal s' = reverse (MDS_LOG_BMAP_CRC <$> es) ++ ms_journal s ∧
    hasf (bcm_flags (ms_b s')) BMAPF_CRC_UP = false ∧
    concat (sjbc_crc <$> es) = crcs u ∧
    Forall (λ e, 0 < Z.of_nat (length (sjbc_crc e)) ≤ SLJ_MDS_NCRCS) es ∧
    Forall (λ e, sjbc_fid e = fi_fid f ∧ sjbc_bmapno e = bcm_bmapno (ms_b s) ∧ sjbc_iosid e = iosid) es ∧
    sjbc_extend <$> es = match es with [] => [] | _ :: es => extend u :: replicate (length es) 0 end.
Proof.
  intros Hup. pose proof (crc_entries_spec f _ (ms_b s) iosid u (crcs u) (extend u) (le_n _)) as Hs.
  eexists _, _. split.
  { unfold mdslog_bmap_crc, mbind, M_bind, getM, psc_assert. by rewrite Hup. }
  split; [done|]. split; [|exact Hs]. simpl. rewrite hasf_clrf, Z.ldiff_diag. apply hasf_0_r.
Qed.

Lemma crc_log_complete_witness :
  let u := {| fsize := 9; nblks := 1; utimgen := 0; extend := 1;
              crcs := (λ i, {| crc := i * i; slot := i |}) <$> seqZ 0 30 |} in
  let s := {| ms_b := b_with_flags ex_bmap BMAPF_CRC_UP; ms_disk := tt; ms_journal := []; ms_workq := [];
              ms_upsch := ∅; ms_upschq := []; ms_paging := ∅ |} in
  ∃ es s', mdslog_bmap_crc MemBmaps.fi 10 u s = Done (tt, s') ∧
    ms_journal s' = reverse (MDS_LOG_BMAP_CRC <$> es) ++ ms_journal s ∧
    hasf (bcm_flags (ms_b s')) BMAPF_CRC_UP = false ∧
    concat (sjbc_crc <$> es) = crcs u ∧
    Forall (λ e, 0 < Z.of_nat (length (sjbc_crc e)) ≤ SLJ_MDS_NCRCS) es ∧
    Forall (λ e, sjbc_fid e = 77 ∧ sjbc_bmapno e = 0 ∧ sjbc_iosid e = 10) es ∧
    sjbc_extend <$> es = match es with [] => [] | _ :: es => extend u :: replicate (length es) 0 end.
Proof. intros u s. apply (crc_log_complete MemBmaps.fi s 10 u). reflexivity. Defined.

(** ** The amount of data to replicate *)
Lemma repltraffic_all l i lastslvr lastsize amt :
  Forall (λ st, hasf st BMAP_SLVR_DATA = true) l →
  repltraffic_loop l i false lastslvr lastsize amt = amt + Z.of_nat (length l) * SLASH_SLVR_SIZE.
Proof.
  intros Hall. revert i amt. induction Hall as [|st l Hst _ IH]; intros i amt; [simpl; lia|].
  cbn [repltraffic_loop]. rewrite Hst. cbn [andb]. rewrite IH. cbn [length]. lia.
Qed.
Lemma repltraffic_last l i lastslvr lastsize amt :
  Forall (λ st, hasf st BMAP_SLVR_DATA = true) l →
  i ≤ lastslvr < i + Z.of_nat (length l) →
  repltraffic_loop l i true lastslvr lastsize amt = amt + (lastslvr - i) * SLASH_SLVR_SIZE + lastsize.
Proof.
  intros Hall. revert i amt. induction Hall as [|st l Hst _ IH]; intros i amt Hi; [simpl in Hi; lia|].
  cbn [repltraffic_loop]. rewrite Hst. cbn [andb]. cbn [length] in Hi.
  destruct (Z.eqb_spec i lastslvr); [subst; lia|]. rewrite IH by lia. lia.
Qed.

(** When every sliver of a bmap of the file holds data, the amount of
    data [slm_bmap_calc_repltraffic] announces for its replication is exactly
    the part of the file the bmap covers: a whole bmap, or for the last one
    what remains of the file size. *)
Theorem repltraffic_exact f b :
  0 ≤ fi_fsz f → length (bod_crcstates (bmi_od b)) = Z.to_nat SLASH_SLVRS_PER_BMAP →
  Forall (λ st, hasf st BMAP_SLVR_DATA = true) (bod_crcstates (bmi_od b)) →
  0 ≤ bcm_bmapno b < fcmh_nvalidbmaps f →
  slm_bmap_calc_repltraffic f b = Z.min SLASH_BMAP_SIZE (fi_fsz f - bcm_bmapno b * SLASH_BMAP_SIZE).
Proof.
  intros Hsz Hlen Hall Hb. unfold slm_bmap_calc_repltraffic. cbv zeta.
  set (S := fi_fsz f) in *. set (n := bcm_bmapno b) in *.
  assert (HB : SLASH_BMAP_SIZE = 128 * SLASH_SLVR_SIZE) by done.
  assert (Hs : SLASH_SLVR_SIZE = 1048576) by done.
  assert (Hn : fcmh_nvalidbmaps f = (S + (SLASH_BMAP_SIZE - 1)) / SLASH_BMAP_SIZE) by done.
  rewrite take_ge by lia. rewrite Hn in *. clear Hn.
  set (N := (S + (SLASH_BMAP_SIZE - 1)) / SLASH_BMAP_SIZE) in *.
  assert (HN : (N - 1) * SLASH_BMAP_SIZE < S ≤ N * SLASH_BMAP_SIZE).
  { pose proof (Z.div_mod (S + (SLASH_BMAP_SIZE - 1)) SLASH_BMAP_SIZE ltac:(lia)).
    pose proof (Z.mod_pos_bound (S + (SLASH_BMAP_SIZE - 1)) SLASH_BMAP_SIZE ltac:(lia)). lia. }
  destruct (Z.eqb_spec N 0); [lia|]. destruct (Z.eqb_spec S 0); [lia|]. cbn [negb].
  destruct (Z.eqb_spec n (N - 1)) as [->|].
  2:{ rewrite repltraffic_all, Hlen by done.
      change (Z.of_nat (Z.to_nat SLASH_SLVRS_PER_BMAP)) with 128. nia. }
  set (bs := if S mod SLASH_BMAP_SIZE =? 0 then SLASH_BMAP_SIZE else S mod SLASH_BMAP_SIZE).
  set (ls := if S mod SLASH_SLVR_SIZE =? 0 then SLASH_SLVR_SIZE else S mod SLASH_SLVR_SIZE).
  assert (Hbs : bs = S - (N - 1) * SLASH_BMAP_SIZE).
  { unfold bs. pose proof (Z.div_mod S SLASH_BMAP_SIZE ltac:(lia)).
    pose proof (Z.mod_pos_bound S SLASH_BMAP_SIZE ltac:(lia)). destruct (Z.eqb_spec (S mod SLASH_BMAP_SIZE) 0); nia. }
  assert (Hls : (bs - 1) / SLASH_SLVR_SIZE * SLASH_SLVR_SIZE + ls = bs).
  { unfold ls. replace (S mod SLASH_SLVR_SIZE) with (bs mod SLASH_SLVR_SIZE).
    2:{ rewrite Hbs, HB. replace (S - _) with (S + (- ((N - 1) * 128)) * SLASH_SLVR_SIZE) by ring.
        apply Z.mod_add. lia. }
    pose proof (Z.div_mod (bs - 1) SLASH_SLVR_SIZE ltac:(lia)).
    pose proof (Z.mod_pos_bound (bs - 1) SLASH_SLVR_SIZE ltac:(lia)).
    pose proof (Z.div_mod bs SLASH_SLVR_SIZE ltac:(lia)).
    pose proof (Z.mod_pos_bound bs SLASH_SLVR_SIZE ltac:(lia)).
    destruct (Z.eqb_spec (bs mod SLASH_SLVR_SIZE) 0); nia. }
  assert (0 ≤ (bs - 1) / SLASH_SLVR_SIZE < 128)
    by (split; [apply Z.div_pos|apply Z.div_lt_upper_bound]; lia).
  rewrite repltraffic_last; [lia|done|].
  rewrite Hlen. change (Z.of_nat (Z.to_nat SLASH_SLVRS_PER_BMAP)) with 128. lia.
Qed.

Lemma repltraffic_exact_witness :
  let f := {| fi_fid := 1; fi_repls := [10]; fi_replpol := 0; fi_fsz := SLASH_BMAP_SIZE + 5000000; fi_nblks := 0;
             fi_in_ptrunc := false |} in
  let b := {| bcm_bmapno := 1; bcm_flags := 0;
              bmi_od := {| bod_crcstates := replicate 128 3; bod_repls := zero_table;
                           bod_crcs := replicate 128 0; bod_gen := 0; bod_replpol := 0 |};
              bmi_orepls := zero_table; bmi_sys_prio := -1; bmi_usr_prio := -1; bmi_wrlocked := false |} in
  slm_bmap_calc_repltraffic f b = 5000000.
Proof.
  intros f b. apply (repltraffic_exact f b).
  - discriminate.
  - reflexivity.
  - apply Forall_replicate. reflexivity.
  - vm_compute. split; [discriminate|reflexivity].
Defined.
