(* ===== verification/ReplMds.v ===== *)
(** * Replication requests on the metadata server ([slashd/repl_mds.c])

    Invalidating the other replicas after a write, adding and removing
    replicas of a file, and keeping the upsch table of pending work in step
    with the replica states. *)
From S2P Require Import Prelude ReplBits Inode ReplWalk BmapMds.

(** ** Looking up several I/O systems ([_mds_repl_iosv_lookup]) *)
Section iosv.
Context {D : Type} `{Mdsio D} `{PflErr} `{PflMem}.
Abbreviation IM := (M (inost (D := D))).

(** The first loop: the indices, or the negative code that ends it. *)
Fixpoint iosv_loop (cfg : gmap Z sl_res_type) (flags : Z) (iosv : list Z) (iosidx : list Z) :
    IM (Z + list Z) :=
  match iosv with
  | [] => mret (inr iosidx)
  | ios :: iosv =>
      j ← mds_repl_ios_lookup_fl cfg ios flags;
      if j <? 0 then mret (inl j) else iosv_loop cfg flags iosv (iosidx ++ [j])
  end.

(** The check for duplicates.  [last] is read from the array after [k] has
    been incremented. *)
Fixpoint dup_check (n : nat) (iosidx : list Z) (k : nat) (last : Z) : bool :=
  match n with
  | O => false
  | S n => if default 0 (iosidx !! k) =? last then true
           else dup_check n iosidx (S k) (default 0 (iosidx !! S k))
  end.

Definition mds_repl_iosv_lookup_fl (cfg : gmap Z sl_res_type) (iosv : list Z) (flags : Z) :
    IM (Z * list Z) :=
  r ← iosv_loop cfg flags iosv [];
  match r with
  | inl j => mret (- j, [])
  | inr iosidx =>
      let iosidx := merge_sort (≤) iosidx in
      mret (if dup_check (length iosidx) iosidx 0 (-1) then EINVAL else 0, iosidx)
  end.

(** The same on a list of IDs. *)
Fixpoint spec_iosv (cfg : gmap Z sl_res_type) (flags : Z) (iosv L : list Z) : option (list Z * list Z) :=
  match iosv with
  | [] => Some ([], L)
  | ios :: iosv =>
      let '(j, L) := spec_lookup cfg ios flags L in
      if j <? 0 then None else
      '(js, L) ← spec_iosv cfg flags iosv L; Some (j :: js, L)
  end.

Context `{!MdsioLaws D}.

Lemma wp_iosv_loop cfg flags iosv acc s L js L' :
  table_is s L → spec_iosv cfg flags iosv L = Some (js, L') →
  wp (iosv_loop cfg flags iosv acc) (λ r s', r = inr (acc ++ js) ∧ table_is s' L') s.
Proof.
  revert acc s L js. induction iosv as [|ios iosv IH]; intros acc s L js Ht Hspec; cbn [iosv_loop].
  { simpl in Hspec. simplify_eq. wp_step. by rewrite app_nil_r. }
  wp_step. eapply wp_mono; [by apply wp_ios_lookup|]. intros j s1 (L1 & E & Ht1 & _).
  simpl in Hspec. rewrite E in Hspec. destruct (j <? 0); [done|].
  destruct (spec_iosv cfg flags iosv L1) as [[js1 L2]|] eqn:E1; simpl in Hspec; simplify_eq.
  eapply wp_mono; [by eapply IH|]. intros r s2 [-> Ht2]. by rewrite <-app_assoc.
Qed.

Lemma spec_iosv_nonneg cfg flags iosv L js L' :
  spec_iosv cfg flags iosv L = Some (js, L') → Forall (λ j, 0 ≤ j) js ∧ length js = length iosv.
Proof.
  revert L js. induction iosv as [|ios iosv IH]; intros L js; simpl; [by intros; simplify_eq|].
  destruct (spec_lookup cfg ios flags L) as [j L1]. destruct (Z.ltb_spec j 0); [done|].
  destruct (spec_iosv cfg flags iosv L1) as [[js1 L2]|] eqn:E; simpl; intros; simplify_eq.
  apply IH in E as [? ?]. simpl. split; [by constructor|lia].
Qed.

Lemma dup_check_spec l :
  Forall (λ j, 0 ≤ j) l → dup_check (length l) l 0 (-1) = (2 <=? length l)%nat.
Proof.
  intros Hall. destruct l as [|x l]; [done|]. apply Forall_cons in Hall as [Hx _].
  cbn. destruct (Z.eqb_spec x (-1)); [lia|]. destruct l as [|y l]; [done|]. cbn. by rewrite Z.eqb_refl.
Qed.
End iosv.

Lemma wp_iosv_lookup {D} `{Mdsio D} `{PflErr} `{PflMem} `{!MdsioLaws D}
    cfg iosv flags (s : inost (D := D)) L js L' :
  table_is s L → spec_iosv cfg flags iosv L = Some (js, L') →
  wp (mds_repl_iosv_lookup_fl cfg iosv flags)
     (λ r s', r = (if (2 <=? length iosv)%nat then EINVAL else 0, merge_sort (≤) js) ∧ table_is s' L') s.
Proof.
  intros Ht Hspec. unfold mds_repl_iosv_lookup_fl. wp_step.
  eapply wp_mono; [by eapply wp_iosv_loop|]. intros r s' [-> Ht']. cbn beta iota. cbv zeta. rewrite app_nil_l.
  wp_step. split; [|done]. apply spec_iosv_nonneg in Hspec as [Hall Hlen]. f_equal.
  rewrite dup_check_spec, (Permutation_length (merge_sort_Permutation _ _)), Hlen; [done|].
  by rewrite (merge_sort_Permutation _ _).
Qed.

(** What [_mds_repl_iosv_lookup] returns when every ID is found (or
    added).  With a single ID the result is its index and code 0.  With two or
    more the check for duplicates compares each entry with itself from the
    second one on, so the code is [EINVAL] even when all indices differ; the
    changes to the replica table have been made all the same. *)
Theorem iosv_lookup_result {D} `{Mdsio D} `{PflErr} `{PflMem} `{!MdsioLaws D}
    cfg iosv flags (s : inost (D := D)) L js L' :
  table_is s L → spec_iosv cfg flags iosv L = Some (js, L') →
  wp (mds_repl_iosv_lookup_fl cfg iosv flags)
     (λ r s', r = (if (2 <=? length iosv)%nat then EINVAL else 0, merge_sort (≤) js) ∧ table_is s' L') s.
Proof. apply wp_iosv_lookup. Qed.

Lemma iosv_lookup_result_witness :
  wp (mds_repl_iosv_lookup_fl ∅ [14; 11] 0) (λ r s', r = (EINVAL, [1; 4]) ∧ table_is s' [10; 11; 12; 13; 14])
     MemFile.st5.
Proof.
  apply (iosv_lookup_result ∅ [14; 11] 0 MemFile.st5 [10; 11; 12; 13; 14] [4; 1] [10; 11; 12; 13; 14]).
  - exact MemFile.st5_table.
  - reflexivity.
Defined.

(** ** Changes to the states of one bmap *)
Section bmap_ops.
Context {D : Type} `{BmapIO D} `{PflErr}.
Context (f : finfo) (cfg : gmap Z sl_res_type) (nonce : Z).
(** Whether an I/O system has [SIF_PRECLAIM_NOTSUP] set; IDs without a
    resource use [slm_null_iosinfo], which has it. *)
Context (preclaim_notsup : Z → bool).
Abbreviation BM := (M (mstate D)).

(** A walk whose callback collects into [a]. *)
Definition onBcb {A B} (m : M (bmap * A) B) (a : A) : BM (B * A) := λ s,
  match m (ms_b s, a) with
  | Done (r, (b, a')) => Done ((r, a'), ms_with_b s b)
  | Stuck w => Stuck w
  end.

Definition b_with_gen (b : bmap) (g : Z) : bmap :=
  b_with_od b {| bod_crcstates := bod_crcstates (bmi_od b); bod_repls := bod_repls (bmi_od b);
                 bod_crcs := bod_crcs (bmi_od b); bod_gen := g; bod_replpol := bod_replpol (bmi_od b) |}.
Definition BHGEN_INCREMENT : BM unit := modB (λ b, b_with_gen b (u32 (bod_gen (bmi_od b) + 1))).

(** [upsch_enqueue] of the bmap's update structure. *)
Definition upsch_enqueue_bmap : BM unit := modifyM (λ s,
  let e := UpdBmap (fi_fid f) (bcm_bmapno (ms_b s)) in
  {| ms_b := ms_b s; ms_disk := ms_disk s; ms_journal := ms_journal s; ms_workq := ms_workq s;
     ms_upsch := ms_upsch s;
     ms_upschq := if bool_decide (e ∈ ms_upschq s) then ms_upschq s
                  else if fi_in_ptrunc f then e :: ms_upschq s else ms_upschq s ++ [e];
     ms_paging := ms_paging s |}).

(** [upschq_resm(m, UPDT_PAGEIN)]: at most one page-in per I/O system. *)
Definition upschq_resm (resid : Z) : BM unit := modifyM (λ s,
  if bool_decide (resid ∈ ms_paging s) then s
  else {| ms_b := ms_b s; ms_disk := ms_disk s; ms_journal := ms_journal s; ms_workq := ms_workq s;
          ms_upsch := ms_upsch s; ms_upschq := UpdPagein resid :: ms_upschq s;
          ms_paging := {[ resid ]} ∪ ms_paging s |}).

Definition inv_active_tract : list Z :=
  arr_set (arr_set (brepls_init (-1)) BREPLST_INVALID BREPLST_VALID) BREPLST_GARBAGE BREPLST_VALID.
Definition inv_active_retifset : list Z :=
  arr_set (arr_set brepls_init_idx BREPLST_INVALID 0) BREPLST_VALID 0.
Definition inv_others_tract (policy : Z) : list Z :=
  arr_set (arr_set (brepls_init (-1)) BREPLST_VALID
    (if policy =? BRPOL_PERSIST then BREPLST_REPL_QUEUED else BREPLST_GARBAGE))
    BREPLST_REPL_SCHED BREPLST_REPL_QUEUED.
Definition inv_others_retifset : list Z := arr_set (brepls_init 0) BREPLST_VALID 1.

Definition mds_repl_inv_requeue (idx val : Z) (qv : list Z) : list Z :=
  if val =? BREPLST_VALID then qv ++ [default 0 (fi_repls f !! Z.to_nat idx)] else qv.

(** The part of [_mds_repl_inv_except] before the test of [defer]: the two
    walks and the generation.  The value is [rc] and [policy]. *)
Definition inv_except_walks (iosidx : Z) : BM (Z * Z) :=
  rc ← onB (mds_repl_bmap_walk (fi_nrepls f) (Some inv_active_tract) (Some inv_active_retifset) 0 [iosidx]);
  s ← getM;
  let policy := bod_replpol (bmi_od (ms_b s)) in
  r ← onBcb (mds_repl_bmap_walk_cb (fi_nrepls f) (Some (inv_others_tract policy))
               (Some inv_others_retifset) REPL_WALKF_MODOTH [iosidx] (Some mds_repl_inv_requeue)) [];
  _ ← whenM (negb (r.1 =? 0)) BHGEN_INCREMENT;
  mret (rc, policy).

Definition mds_repl_inv_except_fl (iosidx : Z) (defer : bool) : BM Z :=
  '(rc, policy) ← inv_except_walks iosidx;
  if defer then mret rc else
  rc ← mds_bmap_write f LogNone;
  _ ← whenM (policy =? BRPOL_PERSIST) upsch_enqueue_bmap;
  mret rc.

(** *** The upsch table *)
Definition up_key (s : mstate D) (resid : Z) : Z * Z * Z := (resid, fi_fid f, bcm_bmapno (ms_b s)).

(** [slm_upsch_insert]; an [INSERT] that violates [UNIQUE(resid, fid, bno)]
    is logged and has no effect. *)
Definition slm_upsch_insert (resid sys_prio usr_prio : Z) : BM unit :=
  match libsl_id2res cfg resid with
  | None => mret tt
  | Some _ =>
      _ ← modifyM (λ s, ms_with_upsch s
            (match ms_upsch s !! up_key s resid with
             | Some _ => ms_upsch s
             | None => <[up_key s resid := {| ur_status := StQ; ur_sys_prio := sys_prio;
                                              ur_usr_prio := usr_prio; ur_nonce := nonce |}]> (ms_upsch s)
             end));
      upschq_resm resid
  end.

Inductive upact := ActNone | ActAdd | ActDel | ActChg (st : option upst).

(** The chain of conditions in [slm_repl_upd_write]. *)
Definition upd_action (resid vold vnew sprio uprio : Z) : upact :=
  if vold =? vnew then ActNone
  else if (negb (vold =? BREPLST_REPL_SCHED) && (vnew =? BREPLST_REPL_QUEUED))
          || ((vnew =? BREPLST_GARBAGE)
              && negb (match libsl_id2res cfg resid with
                       | Some _ => preclaim_notsup resid | None => true end)) then ActAdd
  else if ((vold =? BREPLST_REPL_QUEUED) || (vold =? BREPLST_REPL_SCHED)
           || (vold =? BREPLST_TRUNCPNDG_SCHED) || (vold =? BREPLST_TRUNCPNDG)
           || (vold =? BREPLST_GARBAGE_SCHED) || (vold =? BREPLST_VALID))
          && ((vnew =? BREPLST_GARBAGE) || (vnew =? BREPLST_VALID) || (vnew =? BREPLST_INVALID)) then ActDel
  else if (vold =? BREPLST_REPL_SCHED) || (vold =? BREPLST_TRUNCPNDG_SCHED) then ActChg (Some StQ)
  else if (negb (vold =? BREPLST_REPL_QUEUED) && (vnew =? BREPLST_REPL_QUEUED))
          || (negb (vold =? BREPLST_TRUNCPNDG) && (vnew =? BREPLST_TRUNCPNDG)) then ActChg (Some StS)
  else if negb (sprio =? -1) || negb (uprio =? -1) then ActChg None
  else ActNone.

(** [UPDATE upsch SET status = IFNULL(?, status), ...] *)
Definition upsch_update (sprio uprio : Z) (e : Z * option upst) : BM unit :=
  modifyM (λ s, ms_with_upsch s (alter (λ row,
    {| ur_status := default (ur_status row) e.2;
       ur_sys_prio := if sprio =? -1 then ur_sys_prio row else sprio;
       ur_usr_prio := if uprio =? -1 then ur_usr_prio row else uprio;
       ur_nonce := ur_nonce row |}) (up_key s e.1) (ms_upsch s))).
Definition upsch_delete (resid : Z) : BM unit :=
  modifyM (λ s, ms_with_upsch s (delete (up_key s resid) (ms_upsch s))).

Fixpoint forM {A} (l : list A) (k : A → BM unit) : BM unit :=
  match l with
  | [] => mret tt
  | x :: l => _ ← k x; forM l k
  end.

(** The actions of the replicas [n], [n + 1], ... with IDs [repls]. *)
Fixpoint upd_actions (b : bmap) (sprio uprio : Z) (n : Z) (repls : list Z) : list (Z * upact) :=
  match repls with
  | [] => []
  | resid :: repls =>
      (resid, upd_action resid (SL_REPL_GET_BMAP_IOS_STAT (bmi_orepls b) (n * SL_BITS_PER_REPLICA))
                (SL_REPL_GET_BMAP_IOS_STAT (bmi_repls b) (n * SL_BITS_PER_REPLICA)) sprio uprio)
      :: upd_actions b sprio uprio (n + 1) repls
  end.
Definition act_add (l : list (Z * upact)) : list Z :=
  omap (λ e, match e.2 with ActAdd => Some e.1 | _ => None end) l.
Definition act_del (l : list (Z * upact)) : list Z :=
  omap (λ e, match e.2 with ActDel => Some e.1 | _ => None end) l.
Definition act_chg (l : list (Z * upact)) : list (Z * option upst) :=
  omap (λ e, match e.2 with ActChg st => Some (e.1, st) | _ => None end) l.

(** [slm_repl_upd_write].  With [rel] the write lock on the states, the
    BUSY flags and [BMAPF_REPLMODWR] are released at the end. *)
Definition slm_repl_upd_write (rel : bool) : BM unit :=
  s ← getM;
  let b := ms_b s in
  let sprio := bmi_sys_prio b in
  let uprio := bmi_usr_prio b in
  let acts := upd_actions b sprio uprio 0 (fi_repls f) in
  _ ← forM (act_add acts) (λ resid, slm_upsch_insert resid sprio uprio);
  _ ← forM (act_del acts) upsch_delete;
  _ ← forM (act_chg acts) (upsch_update sprio uprio);
  _ ← modB (λ b, b_with_prio b (-1) (-1));
  if rel then modB (λ b, b_with_flags (b_with_wrlocked b false) (clrf (bcm_flags b) BMAPF_REPLMODWR))
  else mret tt.

(** [slm_wkcb_wr_brepl]: the worker takes the bmap from its queue. *)
Definition slm_wkcb_wr_brepl : BM unit :=
  _ ← modifyM (λ s,
    {| ms_b := ms_b s; ms_disk := ms_disk s; ms_journal := ms_journal s;
       ms_workq := match list_find (λ n, n = bcm_bmapno (ms_b s)) (ms_workq s) with
                   | Some (i, _) => delete i (ms_workq s) | None => ms_workq s end;
       ms_upsch := ms_upsch s; ms_upschq := ms_upschq s; ms_paging := ms_paging s |});
  slm_repl_upd_write true.

(** [_slm_repl_bmap_rel_type]: undo the write lock when nothing was
    written. *)
Definition slm_repl_bmap_rel : BM unit :=
  modB (λ b, if bmi_wrlocked b && negb (hasf (bcm_flags b) BMAPF_REPLMODWR)
             then b_with_wrlocked b false else b).
End bmap_ops.

(** ** Invalidating the other replicas *)
Lemma seq8 v : 0 ≤ v < NBREPLST →
  v = 0 ∨ v = 1 ∨ v = 2 ∨ v = 3 ∨ v = 4 ∨ v = 5 ∨ v = 6 ∨ v = 7.
Proof. unfold NBREPLST. lia. Qed.
(** Split on the eight states of a replica. *)
Ltac by_state v H :=
  let Hc := fresh in
  pose proof (seq8 v H) as Hc;
  repeat destruct Hc as [Hc|Hc]; rewrite Hc in *; clear Hc.

Lemma last_nonzero_zero rc l : last_nonzero rc l = 0 ↔ Forall (λ v, v = 0) l ∧ rc = 0.
Proof.
  revert rc. induction l as [|v l IH]; intros rc; simpl; [by split; [split|intros [_ ?]]|].
  rewrite IH, Forall_cons. destruct (Z.eqb_spec v 0); tauto.
Qed.
Lemma stat_range b j : repls_wf (bmi_repls b) → 0 ≤ stat b j < NBREPLST.
Proof. intros. by apply repl_stat_range. Qed.

Section bmap_spec.
Context {D : Type} `{BmapIO D} `{PflErr}.
Context (f : finfo).
Abbreviation BM := (M (mstate D)).

Lemma wp_onBcb {A B} (m : M (bmap * A) B) a (Q : B * A → mstate D → Prop) s :
  wp m (λ r ba, Q (r, ba.2) (ms_with_b s ba.1)) (ms_b s, a) → wp (onBcb m a) Q s.
Proof. unfold wp, onBcb. by destruct (m (ms_b s, a)) as [[r [b a']]|]. Qed.

(** The state of replica [j] once [idx] alone holds the data. *)
Definition inv_stat (policy : Z) (idx j v : Z) : Z :=
  if decide (j = idx) then tr inv_active_tract v else tr (inv_others_tract policy) v.
(** Some other replica of the file is valid. *)
Definition other_valid (b : bmap) (idx : Z) : bool :=
  existsb (λ j, negb (j =? idx) && (stat b j =? BREPLST_VALID)) (seqZ 0 (fi_nrepls f)).

(** What [_mds_repl_inv_except] makes of the bmap [b]. *)
Definition inv_post (idx : Z) (b b' : bmap) : Prop :=
  repls_wf (bmi_repls b') ∧ bcm_flags b' = bcm_flags b ∧ bcm_bmapno b' = bcm_bmapno b ∧
  bmi_wrlocked b' = true ∧ bod_replpol (bmi_od b') = bod_replpol (bmi_od b) ∧
  (∀ j, 0 ≤ j < 64 →
     stat b' j = if decide (0 ≤ j < fi_nrepls f)
                 then inv_stat (bod_replpol (bmi_od b)) idx j (stat b j) else stat b j) ∧
  bod_gen (bmi_od b') = (if other_valid b idx then u32 (bod_gen (bmi_od b) + 1) else bod_gen (bmi_od b)) ∧
  bod_crcs (bmi_od b') = bod_crcs (bmi_od b) ∧ bod_crcstates (bmi_od b') = bod_crcstates (bmi_od b).

Lemma inv_tracts_ok policy : tract_ok inv_active_tract ∧ tract_ok (inv_others_tract policy).
Proof.
  split; apply tract_okb; [done|]. unfold inv_others_tract. by destruct (policy =? BRPOL_PERSIST).
Qed.

Lemma selected_oth nr idx j :
  selected nr REPL_WALKF_MODOTH [idx] j ↔ 0 ≤ j < nr ∧ j ≠ idx.
Proof. unfold selected. simpl. by rewrite list_elem_of_singleton. Qed.

Lemma existsb_elem {A} (p : A → bool) l : existsb p l = true ↔ ∃ x, x ∈ l ∧ p x = true.
Proof. rewrite existsb_exists. by setoid_rewrite list_elem_of_In. Qed.

(** The second walk returns a non-zero code exactly when another replica
    was valid. *)
Lemma inv_others_ret b b1 idx :
  repls_wf (bmi_repls b) → fi_nrepls f ≤ SL_MAX_REPLICAS → 0 ≤ idx < fi_nrepls f →
  (∀ j, 0 ≤ j < fi_nrepls f → j ≠ idx → stat b1 j = stat b j) →
  negb (last_nonzero 0 ((λ k, ret_of (Some inv_others_retifset) (stat b1 k))
    <$> walk_idxs (fi_nrepls f) REPL_WALKF_MODOTH [idx]) =? 0) = other_valid b idx.
Proof.
  intros Hwf Hnr Hidx Hst.
  destruct (walk_idxs_spec (fi_nrepls f) REPL_WALKF_MODOTH [idx]) as (_ & _ & Hsel);
    [done|by apply iosidx_ok_one|].
  assert (Hret : ∀ k, k ∈ walk_idxs (fi_nrepls f) REPL_WALKF_MODOTH [idx] →
      ret_of (Some inv_others_retifset) (stat b1 k) = if stat b k =? BREPLST_VALID then 1 else 0).
  { intros k Hk. rewrite Hsel, selected_oth in Hk. rewrite Hst by tauto.
    pose proof (stat_range _ k Hwf) as Hr. by_state (stat b k) Hr; done. }
  apply eq_bool_prop_intro. rewrite !Is_true_true, negb_true_iff, Z.eqb_neq, last_nonzero_zero.
  unfold other_valid. rewrite existsb_elem, Forall_fmap, Forall_forall. split.
  - intros Hz. rewrite <-existsb_elem. apply not_false_iff_true. intros Hno. apply Hz.
    split; [|done]. intros k Hk. simpl.
    pose proof (Hret k Hk) as E. simpl in E. rewrite E. destruct (Z.eqb_spec (stat b k) BREPLST_VALID); [|done].
    rewrite Hsel, selected_oth in Hk. rewrite (proj2 (existsb_elem _ _)) in Hno; [done|]. exists k.
    rewrite elem_of_seqZ. split; [lia|]. apply andb_true_iff. lia.
  - intros (j & Hj & Hv) [Hz _]. rewrite elem_of_seqZ in Hj. apply andb_true_iff in Hv as [Hne Hv].
    assert (Hin : j ∈ walk_idxs (fi_nrepls f) REPL_WALKF_MODOTH [idx]) by (rewrite Hsel, selected_oth; lia).
    specialize (Hz j Hin). simpl in Hz. pose proof (Hret j Hin) as E. simpl in E. rewrite E, Hv in Hz. done.
Qed.

(** The states after both walks. *)
Lemma inv_walk_stats policy b b1 b2 idx :
  fi_nrepls f ≤ SL_MAX_REPLICAS → 0 ≤ idx < fi_nrepls f →
  (∀ j, 0 ≤ j < 64 → stat b1 j = if decide (selected (fi_nrepls f) 0 [idx] j)
     then tr inv_active_tract (stat b j) else stat b j) →
  (∀ j, 0 ≤ j < 64 → stat b2 j = if decide (j ∈ walk_idxs (fi_nrepls f) REPL_WALKF_MODOTH [idx])
     then tr (inv_others_tract policy) (stat b1 j) else stat b1 j) →
  ∀ j, 0 ≤ j < 64 → stat b2 j = if decide (0 ≤ j < fi_nrepls f)
     then inv_stat policy idx j (stat b j) else stat b j.
Proof.
  intros Hnr Hidx Hst1 Hst2 j Hj. unfold inv_stat. rewrite Hst2, Hst1 by done.
  destruct (walk_idxs_spec (fi_nrepls f) REPL_WALKF_MODOTH [idx]) as (_ & _ & Hsel);
    [done|by apply iosidx_ok_one|].
  assert (Hs1 : selected (fi_nrepls f) 0 [idx] j ↔ j = idx) by apply list_elem_of_singleton.
  destruct (decide (j ∈ walk_idxs (fi_nrepls f) REPL_WALKF_MODOTH [idx])) as [Hin|Hin];
    rewrite Hsel, selected_oth in Hin;
    destruct (decide (selected (fi_nrepls f) 0 [idx] j)) as [Hs|Hs]; rewrite Hs1 in Hs;
    repeat case_decide; done || lia.
Qed.

Lemma wp_inv_walks idx (Q : Z * Z → mstate D → Prop) s :
  repls_wf (bmi_repls (ms_b s)) → finfo_ok f → 0 ≤ idx < fi_nrepls f →
  hasf (bcm_flags (ms_b s)) BMAPF_REPLMODWR = false →
  (∀ b', inv_post idx (ms_b s) b' →
     Q (arr_get inv_active_retifset (stat (ms_b s) idx), bod_replpol (bmi_od (ms_b s))) (ms_with_b s b')) →
  wp (inv_except_walks f idx) Q s.
Proof.
  intros Hwf [Hnr Hsz] Hidx Hmod HQ. destruct (inv_tracts_ok (bod_replpol (bmi_od (ms_b s)))) as [Ht1 Ht2].
  unfold inv_except_walks. wp_step. apply wp_onB.
  apply wp_bmap_walk_tract; [done|done|by apply iosidx_ok_one|done|done|done|].
  intros b1 (Hn1 & Hf1 & Hod1 & _) Hwf1 Hst1 Hlk1. simpl in Hlk1. destruct Hlk1 as [Hlk1 _].
  wp_step. wp_step. cbv zeta. simpl ms_b.
  replace (bod_replpol (bmi_od b1)) with (bod_replpol (bmi_od (ms_b s))) by (by rewrite Hod1).
  wp_step. apply wp_onBcb. unfold mds_repl_bmap_walk_cb.
  destruct (walk_idxs_spec (fi_nrepls f) REPL_WALKF_MODOTH [idx]) as (Hnd & Hall & _);
    [done|by apply iosidx_ok_one|].
  apply wp_walk_tract; [done|done|done|simpl; congruence|done|done|].
  intros b2 (Hn2 & Hf2 & Hod2 & _) Hwf2 Hst2 Hlk2. cbn [fst snd]. simpl ms_b in *.
  assert (Hlk : bmi_wrlocked b2 = true).
  { destruct (walk_idxs (fi_nrepls f) REPL_WALKF_MODOTH [idx]); [by subst|by destruct Hlk2]. }
  pose proof (inv_walk_stats _ _ _ _ _ Hnr Hidx Hst1 Hst2) as Hst.
  rewrite (inv_others_ret (ms_b s) b1) by (try done; intros j ? ?; unfold SL_MAX_REPLICAS in Hnr; rewrite Hst1 by lia;
    rewrite decide_False by (unfold selected; simpl; by rewrite list_elem_of_singleton); done).
  replace (last_nonzero 0 ((λ k, ret_of (Some inv_active_retifset) (stat (ms_b s) k)) <$> walk_idxs (fi_nrepls f) 0 [idx]))
    with (arr_get inv_active_retifset (stat (ms_b s) idx))
    by (simpl; destruct (Z.eqb_spec (arr_get inv_active_retifset (stat (ms_b s) idx)) 0); congruence).
  assert (Hpost : inv_post idx (ms_b s)
      (if other_valid (ms_b s) idx then b_with_gen b2 (u32 (bod_gen (bmi_od b2) + 1)) else b2)).
  { assert (bod_gen (bmi_od b2) = bod_gen (bmi_od (ms_b s))) as Hg by (by rewrite Hod2, Hod1).
    assert (bod_replpol (bmi_od b2) = bod_replpol (bmi_od (ms_b s))) by (by rewrite Hod2, Hod1).
    assert (bod_crcs (bmi_od b2) = bod_crcs (bmi_od (ms_b s))) by (by rewrite Hod2, Hod1).
    assert (bod_crcstates (bmi_od b2) = bod_crcstates (bmi_od (ms_b s))) by (by rewrite Hod2, Hod1).
    unfold inv_post. rewrite Hg. destruct (other_valid (ms_b s) idx); simpl; split_and!; try done; congruence. }
  wp_step. apply wp_when; intros Eg; rewrite Eg in Hpost; [unfold BHGEN_INCREMENT, modB; wp_step|];
    wp_step; by apply HQ in Hpost.
Qed.

(** The whole of [_mds_repl_inv_except], when the replica [idx] may take the
    write. *)
Lemma wp_inv_except idx (Q : Z → mstate D → Prop) s :
  repls_wf (bmi_repls (ms_b s)) → finfo_ok f → 0 ≤ idx < fi_nrepls f →
  hasf (bcm_flags (ms_b s)) BMAPF_REPLMODWR = false →
  stat (ms_b s) idx ∈ [BREPLST_INVALID; BREPLST_VALID; BREPLST_GARBAGE] →
  (∀ rc nb lg s', inv_post idx (ms_b s) (ms_b s') → stat (ms_b s') idx = BREPLST_VALID →
     pwritev_bmap (ms_disk s) (bcm_bmapno (ms_b s)) (bmi_od (ms_b s')) (crc64_bmap (bmi_od (ms_b s')))
       = (rc, nb, lg, ms_disk s') →
     ((bod_replpol (bmi_od (ms_b s)) =? BRPOL_PERSIST) = true → UpdBmap (fi_fid f) (bcm_bmapno (ms_b s)) ∈ ms_upschq s') →
     Q (if (rc =? 0) && negb (nb =? BMAP_OD_SZ) then SLERR_SHORTIO else rc) s') →
  wp (mds_repl_inv_except_fl f idx false) Q s.
Proof.
  intros Hwf Hf Hidx Hmod Hact HQ. assert (Hnr := Hf). destruct Hnr as [Hnr _]. unfold SL_MAX_REPLICAS in Hnr.
  unfold mds_repl_inv_except_fl. wp_step. apply wp_inv_walks; [done..|]. intros b' Hpost. cbv iota.
  pose proof Hpost as (Hwf' & Hfl & Hno & Hlk & Hpol & Hst & _).
  assert (Hidx' : stat b' idx = BREPLST_VALID).
  { rewrite Hst, decide_True by lia. unfold inv_stat. rewrite decide_True by done. by list_cases Hact; rewrite Hact. }
  wp_step. apply wp_bmap_write; [done|done| |done|].
  { exists idx. split; [done|]. simpl. by rewrite Hidx'. }
  intros rc nb lg d' Hw. simpl after_log. simpl in Hw. rewrite Hno in Hw.
  wp_step. apply wp_when; intros Hp; [unfold upsch_enqueue_bmap; wp_step|]; wp_step; eapply HQ; try done; cbn; [|congruence].
  intros _. rewrite Hno. case_bool_decide; [done|].
  destruct (fi_in_ptrunc f); rewrite ?elem_of_app, ?elem_of_cons; auto.
Qed.
End bmap_spec.

(** C29: after new data reached replica [idx], the other copies no longer
    count.  When the replica that took the write is in one of the states a
    write may find (invalid, valid or garbage), [mds_repl_inv_except] ends
    with it valid, no other replica valid or being replicated, every other
    valid copy queued again under the persistent policy and garbage under the
    one-time policy, the bmap's generation stepped (modulo 2^32) exactly when
    some copy was invalidated, the bmap written to its metafile, and under the
    persistent policy the bmap handed to the scheduler. *)
Theorem inv_except_sole_valid {D} `{BmapIO D} `{PflErr} f idx (s : mstate D) :
  repls_wf (bmi_repls (ms_b s)) → finfo_ok f → 0 ≤ idx < fi_nrepls f →
  hasf (bcm_flags (ms_b s)) BMAPF_REPLMODWR = false →
  stat (ms_b s) idx ∈ [BREPLST_INVALID; BREPLST_VALID; BREPLST_GARBAGE] →
  let persist := bod_replpol (bmi_od (ms_b s)) =? BRPOL_PERSIST in
  wp (mds_repl_inv_except_fl f idx false) (λ rc s',
    stat (ms_b s') idx = BREPLST_VALID ∧
    (∀ j, 0 ≤ j < fi_nrepls f → j ≠ idx →
       stat (ms_b s') j =
         if stat (ms_b s) j =? BREPLST_VALID then
           if persist then BREPLST_REPL_QUEUED else BREPLST_GARBAGE
         else if stat (ms_b s) j =? BREPLST_REPL_SCHED then BREPLST_REPL_QUEUED
         else stat (ms_b s) j) ∧
    bod_gen (bmi_od (ms_b s')) =
      (if other_valid f (ms_b s) idx then u32 (bod_gen (bmi_od (ms_b s)) + 1) else bod_gen (bmi_od (ms_b s))) ∧
    (∃ rc0 nb lg, pwritev_bmap (ms_disk s) (bcm_bmapno (ms_b s)) (bmi_od (ms_b s')) (crc64_bmap (bmi_od (ms_b s')))
       = (rc0, nb, lg, ms_disk s') ∧
       rc = if (rc0 =? 0) && negb (nb =? BMAP_OD_SZ) then SLERR_SHORTIO else rc0) ∧
    (persist = true → UpdBmap (fi_fid f) (bcm_bmapno (ms_b s)) ∈ ms_upschq s')) s.
Proof.
  intros Hwf Hf Hidx Hmod Hact persist. apply wp_inv_except; [done..|].
  intros rc nb lg s' (_ & _ & _ & _ & _ & Hst & Hgen & _) Hv Hw Hq.
  split_and!; [done| |done|by exists rc, nb, lg|done]. destruct Hf as [Hnr _]. unfold SL_MAX_REPLICAS in Hnr.
  intros j Hj Hne. rewrite Hst, decide_True by lia. unfold inv_stat. rewrite decide_False by done.
  pose proof (stat_range _ j Hwf) as Hr. unfold persist, inv_others_tract.
  by destruct (_ =? BRPOL_PERSIST); by_state (stat (ms_b s) j) Hr.
Qed.

Lemma inv_except_sole_valid_witness :
  wp (mds_repl_inv_except_fl MemBmaps.fi 1 false) (λ rc s',
    stat (ms_b s') 1 = BREPLST_VALID ∧
    (∀ j, 0 ≤ j < 4 → j ≠ 1 →
       stat (ms_b s') j =
         if stat ex_bmap j =? BREPLST_VALID then
           if false then BREPLST_REPL_QUEUED else BREPLST_GARBAGE
         else if stat ex_bmap j =? BREPLST_REPL_SCHED then BREPLST_REPL_QUEUED
         else stat ex_bmap j) ∧
    bod_gen (bmi_od (ms_b s')) = 8 ∧
    (∃ rc0 nb lg, pwritev_bmap (ms_disk MemBmaps.st) 0 (bmi_od (ms_b s')) (crc64_bmap (bmi_od (ms_b s')))
       = (rc0, nb, lg, ms_disk s') ∧
       rc = if (rc0 =? 0) && negb (nb =? BMAP_OD_SZ) then SLERR_SHORTIO else rc0) ∧
    (false = true → UpdBmap 77 0 ∈ ms_upschq s')) MemBmaps.st.
Proof.
  apply (inv_except_sole_valid MemBmaps.fi 1 MemBmaps.st).
  - exact ex_bmap_wf.
  - exact MemBmaps.fi_ok.
  - split; [discriminate|reflexivity].
  - reflexivity.
  - apply elem_of_cons. left. reflexivity.
Defined.

(** A query walk on a bmap without any of the states that count as data. *)
Lemma write_no_valid {D} `{BmapIO D} `{PflErr} f lf (s : mstate D) :
  repls_wf (bmi_repls (ms_b s)) → finfo_ok f →
  (∀ j, 0 ≤ j < fi_nrepls f → brepls_ok (stat (ms_b s) j) = false) →
  mds_bmap_write f lf s = Stuck Assertion.
Proof.
  intros Hwf [Hnr _] Hno.
  assert (Hrun : onB (mds_repl_bmap_walk_all (fi_nrepls f) None (Some valid_retifset) REPL_WALKF_SCIRCUIT) s
                 = Done (0, s)).
  { apply (wp_eq _ 0 s). apply wp_onB. apply wp_bmap_walk_query; [done|done|apply iosidx_ok_nil|].
    change (hasf REPL_WALKF_SCIRCUIT REPL_WALKF_SCIRCUIT) with true. cbv iota.
    split; [|apply ms_with_b_id]. apply first_nonzero_zero. rewrite Forall_fmap, Forall_forall.
    intros j Hj%elem_of_seqZ. simpl. rewrite valid_retifset_spec by (by apply stat_range).
    by rewrite Hno by lia. }
  unfold mds_bmap_write, mds_bmap_ensure_valid, mbind, M_bind. by rewrite Hrun.
Qed.

(** The case the previous statement leaves out ends the server.  If the
    replica that takes the write is queued or scheduled for replication, the
    policy is persistent and no replica is garbage or being truncated,
    [mds_repl_inv_except] leaves no copy valid, and the check that precedes
    the write of the bmap is fatal. *)
Theorem inv_except_queued_fatal {D} `{BmapIO D} `{PflErr} f idx (s : mstate D) :
  repls_wf (bmi_repls (ms_b s)) → finfo_ok f → 0 ≤ idx < fi_nrepls f →
  hasf (bcm_flags (ms_b s)) BMAPF_REPLMODWR = false →
  bod_replpol (bmi_od (ms_b s)) = BRPOL_PERSIST →
  (stat (ms_b s) idx = BREPLST_REPL_QUEUED ∨ stat (ms_b s) idx = BREPLST_REPL_SCHED) →
  (∀ j, 0 ≤ j < fi_nrepls f → j ≠ idx → stat (ms_b s) j < BREPLST_TRUNCPNDG) →
  mds_repl_inv_except_fl f idx false s = Stuck Assertion.
Proof.
  intros Hwf Hf Hidx Hmod Hpol Hact Hoth. assert (Hnr := Hf). destruct Hnr as [Hnr _].
  destruct (wp_run (inv_except_walks f idx) (λ r s', r.2 = bod_replpol (bmi_od (ms_b s)) ∧
      ∃ b', s' = ms_with_b s b' ∧ inv_post f idx (ms_b s) b') s)
    as ([rc pol] & s' & Hrun & _ & b' & -> & Hwf' & _ & _ & _ & _ & Hst & _).
  { apply wp_inv_walks; [done..|]. intros b' Hp. split; [done|]. by exists b'. }
  unfold mds_repl_inv_except_fl, mbind, M_bind. rewrite Hrun. cbn beta iota.
  rewrite write_no_valid; [done|done|done|].
  intros j Hj. simpl. unfold SL_MAX_REPLICAS in Hnr. rewrite Hst, decide_True by lia. unfold inv_stat.
  rewrite Hpol. case_decide as Ej; [subst; by destruct Hact as [-> | ->]|].
  specialize (Hoth j Hj Ej). pose proof (stat_range _ j Hwf) as Hr. unfold BREPLST_TRUNCPNDG in Hoth.
  by_state (stat (ms_b s) j) Hr; done || lia.
Qed.

Lemma inv_except_queued_fatal_witness :
  let b := b_with_od ex_bmap {| bod_crcstates := []; bod_repls := bmi_repls ex_bmap; bod_crcs := [];
                                bod_gen := 0; bod_replpol := BRPOL_PERSIST |} in
  mds_repl_inv_except_fl MemBmaps.fi 2 false (ms_with_b MemBmaps.st b) = Stuck Assertion.
Proof.
  intros b. apply (inv_except_queued_fatal MemBmaps.fi 2 (ms_with_b MemBmaps.st b)).
  - exact ex_bmap_wf.
  - exact MemBmaps.fi_ok.
  - split; [discriminate|reflexivity].
  - reflexivity.
  - reflexivity.
  - left. reflexivity.
  - intros j Hj _. assert (j = 0 ∨ j = 1 ∨ j = 2 ∨ j = 3) as Hc by (unfold fi_nrepls in Hj; simpl in Hj; lia).
    destruct Hc as [-> | [-> | [-> | ->]]]; reflexivity.
Defined.

(** ** The upsch table follows the replica states *)
Section upd_spec.
Context {D : Type}.
Context (f : finfo) (cfg : gmap Z sl_res_type) (nonce : Z) (preclaim_notsup : Z → bool).

Abbreviation key b resid := (resid, fi_fid f, bcm_bmapno b).

(** A loop whose rounds change the table by [g] and leave the bmap. *)
Lemma wp_forM_rows {A} (l : list A) (k : A → M (mstate D) unit) (g : A → upsch_t → upsch_t) b
    (Q : unit → mstate D → Prop) s :
  ms_b s = b →
  (∀ x s0 R, ms_b s0 = b →
     (∀ s1, ms_b s1 = b → ms_disk s1 = ms_disk s0 → ms_upsch s1 = g x (ms_upsch s0) → R tt s1) →
     wp (k x) R s0) →
  (∀ s', ms_b s' = b → ms_disk s' = ms_disk s → ms_upsch s' = foldl (λ u x, g x u) (ms_upsch s) l → Q tt s') →
  wp (forM l k) Q s.
Proof.
  intros Hb Hk. revert s Hb. induction l as [|x l IH]; intros s Hb HQ; simpl; [wp_step; by apply HQ|].
  wp_step. apply Hk; [done|]. intros s1 Hb1 Hd1 Hu1. apply IH; [done|]. intros s2 Hb2 Hd2 Hu2.
  apply HQ; [done|congruence|]. by rewrite Hu2, Hu1.
Qed.

Definition row_ins (b : bmap) (sprio uprio resid : Z) (u : upsch_t) : upsch_t :=
  match libsl_id2res cfg resid with
  | None => u
  | Some _ => match u !! key b resid with
              | Some _ => u
              | None => <[key b resid := {| ur_status := StQ; ur_sys_prio := sprio; ur_usr_prio := uprio;
                                            ur_nonce := nonce |}]> u
              end
  end.
Definition row_chg (sprio uprio : Z) (st : option upst) (row : uprow) : uprow :=
  {| ur_status := default (ur_status row) st;
     ur_sys_prio := if sprio =? -1 then ur_sys_prio row else sprio;
     ur_usr_prio := if uprio =? -1 then ur_usr_prio row else uprio;
     ur_nonce := ur_nonce row |}.

(** The table after [slm_repl_upd_write]. *)
Definition rows_after (b : bmap) (u : upsch_t) : upsch_t :=
  let sprio := bmi_sys_prio b in
  let uprio := bmi_usr_prio b in
  let acts := upd_actions cfg preclaim_notsup b sprio uprio 0 (fi_repls f) in
  let u := foldl (λ u resid, row_ins b sprio uprio resid u) u (act_add acts) in
  let u := foldl (λ u resid, delete (key b resid) u) u (act_del acts) in
  foldl (λ u e, alter (row_chg sprio uprio e.2) (key b e.1) u) u (act_chg acts).

Lemma wp_upd_write (rel : bool) (Q : unit → mstate D → Prop) s :
  (∀ s', ms_upsch s' = rows_after (ms_b s) (ms_upsch s) → ms_disk s' = ms_disk s →
     ms_b s' = (let b := b_with_prio (ms_b s) (-1) (-1) in
                if rel then b_with_flags (b_with_wrlocked b false) (clrf (bcm_flags b) BMAPF_REPLMODWR)
                else b) → Q tt s') →
  wp (slm_repl_upd_write f cfg nonce preclaim_notsup rel) Q s.
Proof.
  intros HQ. unfold slm_repl_upd_write. wp_step. wp_step. cbv zeta. wp_step.
  apply wp_forM_rows with (b := ms_b s)
    (g := λ resid, row_ins (ms_b s) (bmi_sys_prio (ms_b s)) (bmi_usr_prio (ms_b s)) resid); [done|..].
  { intros resid s0 R Hb HR. unfold slm_upsch_insert, up_key, row_ins in *. rewrite <-Hb in *.
    destruct (libsl_id2res cfg resid); [|wp_step; by apply HR].
    wp_step. wp_step. unfold upschq_resm. wp_step. simpl. case_bool_decide; by apply HR. }
  intros s1 Hb1 Hd1 Hu1. wp_step.
  apply wp_forM_rows with (b := ms_b s) (g := λ (resid : Z) (u : upsch_t), delete (key (ms_b s) resid) u); [done|..].
  { intros resid s0 R Hb HR. unfold upsch_delete, up_key. wp_step. apply HR; [done|done|]. by rewrite <-Hb. }
  intros s2 Hb2 Hd2 Hu2. wp_step.
  apply wp_forM_rows with (b := ms_b s) (g := λ (e : Z * option upst) (u : upsch_t),
    alter (row_chg (bmi_sys_prio (ms_b s)) (bmi_usr_prio (ms_b s)) e.2) (key (ms_b s) e.1) u); [done|..].
  { intros e s0 R Hb HR. unfold upsch_update, up_key. wp_step. apply HR; [done|done|]. by rewrite <-Hb. }
  intros s3 Hb3 Hd3 Hu3. unfold modB. wp_step. wp_step.
  assert (Hu : ms_upsch s3 = rows_after (ms_b s) (ms_upsch s)) by (by rewrite Hu3, Hu2, Hu1).
  destruct rel; wp_step; apply HQ; simpl; rewrite ?Hb3; done || congruence.
Qed.

(** *** Reading the table *)
Lemma foldl_keep {A K B} `{Countable K} (g : A → gmap K B → gmap K B) (l : list A) (u : gmap K B) k :
  (∀ x u, x ∈ l → g x u !! k = u !! k) → foldl (λ u x, g x u) u l !! k = u !! k.
Proof.
  revert u. induction l as [|x l IH]; intros u Hk; simpl; [done|].
  rewrite IH by (intros; apply Hk; by right). apply Hk. by left.
Qed.

Lemma row_ins_keep b sp up resid u k : k ≠ key b resid → row_ins b sp up resid u !! k = u !! k.
Proof.
  intros Hk. unfold row_ins. destruct (libsl_id2res cfg resid); [|done].
  destruct (u !! key b resid); [done|]. by rewrite lookup_insert_ne.
Qed.
Lemma row_ins_has b sp up resid u : is_Some (libsl_id2res cfg resid) → is_Some (row_ins b sp up resid u !! key b resid).
Proof.
  intros [t Ht]. unfold row_ins. rewrite Ht. destruct (u !! key b resid) eqn:E; [by rewrite E|].
  by rewrite lookup_insert_eq.
Qed.
Lemma row_ins_mono b sp up resid u k : is_Some (u !! k) → is_Some (row_ins b sp up resid u !! k).
Proof.
  intros Hk. unfold row_ins. destruct (libsl_id2res cfg resid); [|done].
  destruct (u !! key b resid); [done|]. rewrite lookup_insert_is_Some. destruct (decide (key b resid = k)); auto.
Qed.
Lemma foldl_ins_mono b sp up l u k :
  is_Some (u !! k) → is_Some (foldl (λ u resid, row_ins b sp up resid u) u l !! k).
Proof. revert u. induction l as [|x l IH]; intros u Hk; simpl; [done|]. by apply IH, row_ins_mono. Qed.
Lemma foldl_ins_has b sp up l u resid :
  resid ∈ l → is_Some (libsl_id2res cfg resid) →
  is_Some (foldl (λ u resid, row_ins b sp up resid u) u l !! key b resid).
Proof.
  intros Hin Hres. revert u. induction l as [|x l IH]; intros u; simpl; [by apply elem_of_nil in Hin|].
  apply elem_of_cons in Hin as [->|Hin]; [|by apply IH]. by apply foldl_ins_mono, row_ins_has.
Qed.
Lemma foldl_del_none (b : bmap) (l : list Z) (u : upsch_t) (resid : Z) :
  resid ∈ l → foldl (λ (u : upsch_t) resid, delete (key b resid) u) u l !! key b resid = None.
Proof.
  revert u. induction l as [|x l IH]; intros u Hin; simpl; [by apply elem_of_nil in Hin|].
  destruct (decide (resid ∈ l)) as [|Hn]; [by apply IH|].
  apply elem_of_cons in Hin as [->|]; [|done].
  rewrite (foldl_keep (λ (resid : Z) (u : upsch_t), delete (key b resid) u)); [by rewrite lookup_delete_eq|].
  intros y u' Hy. rewrite lookup_delete_ne; [done|]. intros [= ->]. done.
Qed.

(** *** The action of each replica *)
Lemma upd_actions_lookup b sp up n repls m :
  upd_actions cfg preclaim_notsup b sp up n repls !! m =
  (λ resid, (resid, upd_action cfg preclaim_notsup resid (repl_stat (bmi_orepls b) (n + Z.of_nat m))
                      (repl_stat (bmi_repls b) (n + Z.of_nat m)) sp up)) <$> repls !! m.
Proof.
  revert n m. induction repls as [|r repls IH]; intros n m; simpl; [by destruct m|].
  destruct m as [|m]; simpl; [by rewrite Z.add_0_r|]. rewrite IH.
  replace (n + 1 + Z.of_nat m) with (n + Z.of_nat (S m)) by lia. done.
Qed.
Definition act_of (b : bmap) (m : nat) (resid : Z) : upact :=
  upd_action cfg preclaim_notsup resid (repl_stat (bmi_orepls b) (Z.of_nat m)) (repl_stat (bmi_repls b) (Z.of_nat m))
    (bmi_sys_prio b) (bmi_usr_prio b).
Abbreviation acts b := (upd_actions cfg preclaim_notsup b (bmi_sys_prio b) (bmi_usr_prio b) 0 (fi_repls f)).

Lemma acts_elem b e : e ∈ acts b ↔ ∃ m resid, fi_repls f !! m = Some resid ∧ e = (resid, act_of b m resid).
Proof.
  rewrite list_elem_of_lookup. setoid_rewrite upd_actions_lookup. setoid_rewrite fmap_Some.
  split; intros (m & resid & Hr & ->); exists m, resid; by rewrite ?Z.add_0_l.
Qed.
Lemma acts_inj b m resid a :
  NoDup (fi_repls f) → fi_repls f !! m = Some resid → (resid, a) ∈ acts b ↔ a = act_of b m resid.
Proof.
  intros Hnd Hm. rewrite acts_elem. split; [|intros ->; by exists m, resid].
  intros (m' & resid' & Hm' & [= -> ->]). by rewrite (NoDup_lookup _ _ _ _ Hnd Hm Hm').
Qed.
Lemma act_add_elem b m resid :
  NoDup (fi_repls f) → fi_repls f !! m = Some resid → resid ∈ act_add (acts b) ↔ act_of b m resid = ActAdd.
Proof.
  intros Hnd Hm. unfold act_add. rewrite list_elem_of_omap. split.
  - intros ([r a] & Hin & Ha). simpl in Ha. destruct a; simplify_eq. by apply acts_inj with (m := m) in Hin.
  - intros Ha. exists (resid, ActAdd). split; [|done]. by apply acts_inj with (m := m).
Qed.
Lemma act_del_elem b m resid :
  NoDup (fi_repls f) → fi_repls f !! m = Some resid → resid ∈ act_del (acts b) ↔ act_of b m resid = ActDel.
Proof.
  intros Hnd Hm. unfold act_del. rewrite list_elem_of_omap. split.
  - intros ([r a] & Hin & Ha). simpl in Ha. destruct a; simplify_eq. by apply acts_inj with (m := m) in Hin.
  - intros Ha. exists (resid, ActDel). split; [|done]. by apply acts_inj with (m := m).
Qed.
Lemma act_chg_elem b m resid st :
  NoDup (fi_repls f) → fi_repls f !! m = Some resid → (resid, st) ∈ act_chg (acts b) ↔ act_of b m resid = ActChg st.
Proof.
  intros Hnd Hm. unfold act_chg. rewrite list_elem_of_omap. split.
  - intros ([r a] & Hin & Ha). simpl in Ha. destruct a; simplify_eq. by apply acts_inj with (m := m) in Hin.
  - intros Ha. exists (resid, ActChg st). split; [|done]. by apply acts_inj with (m := m).
Qed.

Lemma foldl_inv {A K B} `{Countable K} (P : option B → Prop) (g : A → gmap K B → gmap K B) l u k :
  P (u !! k) → (∀ x u, x ∈ l → P (u !! k) → P (g x u !! k)) → P (foldl (λ u x, g x u) u l !! k).
Proof.
  revert u. induction l as [|x l IH]; intros u Hu Hg; simpl; [done|].
  apply IH; [apply Hg; [by left|done]|]. intros y u' Hy. apply Hg. by right.
Qed.

Lemma foldl_chg_q (b : bmap) (sp up : Z) (l : list (Z * option upst)) (u : upsch_t) (resid : Z) :
  (resid, Some StQ) ∈ l → (∀ st, (resid, st) ∈ l → st = Some StQ) → is_Some (u !! key b resid) →
  ∃ row, foldl (λ (u : upsch_t) (e : Z * option upst), alter (row_chg sp up e.2) (key b e.1) u) u l !! key b resid = Some row
         ∧ ur_status row = StQ.
Proof.
  intros Hin Hall. revert u. induction l as [|[r st] l IH]; intros u [row Hrow]; [by apply elem_of_nil in Hin|].
  simpl. destruct (decide (r = resid)) as [->|Hne].
  - pose (P := λ o : option uprow, ∃ row, o = Some row ∧ ur_status row = StQ).
    apply (foldl_inv P (λ (e : Z * option upst) (u : upsch_t), alter (row_chg sp up e.2) (key b e.1) u)).
    + rewrite (Hall st) by (by left). exists (row_chg sp up (Some StQ) row).
      by rewrite lookup_alter_eq, Hrow.
    + intros [r st'] u' Hr (row' & Hrow' & Hst). simpl. destruct (decide (r = resid)) as [->|Hne].
      * rewrite (Hall st') by (by right). eexists. by rewrite lookup_alter_eq, Hrow'.
      * exists row'. by rewrite lookup_alter_ne by congruence.
  - apply IH.
    + apply elem_of_cons in Hin as [[= -> _]|]; done.
    + intros st' Hst. apply Hall. by right.
    + exists row. by rewrite lookup_alter_ne by congruence.
Qed.

Lemma foldl_chg_is_some (b : bmap) (sp up : Z) (l : list (Z * option upst)) (u : upsch_t) k :
  is_Some (foldl (λ (u : upsch_t) (e : Z * option upst), alter (row_chg sp up e.2) (key b e.1) u) u l !! k) ↔ is_Some (u !! k).
Proof.
  revert u. induction l as [|e l IH]; intros u; simpl; [done|].
  rewrite IH. by rewrite lookup_alter_is_Some.
Qed.

Lemma foldl_del_keep (b : bmap) (l : list Z) (u : upsch_t) (resid : Z) :
  resid ∉ l → foldl (λ (u : upsch_t) resid, delete (key b resid) u) u l !! key b resid = u !! key b resid.
Proof.
  intros Hn. apply (foldl_keep (λ (resid : Z) (u : upsch_t), delete (key b resid) u)). intros y u' Hy. rewrite lookup_delete_ne; [done|].
  intros [= ->]. done.
Qed.

(** *** The row of each replica *)
Context (Hnd : NoDup (fi_repls f)) (Hres : ∀ resid, resid ∈ fi_repls f → is_Some (libsl_id2res cfg resid)).

Lemma rows_after_is_some b u m resid :
  fi_repls f !! m = Some resid →
  is_Some (rows_after b u !! key b resid) ↔
  match act_of b m resid with
  | ActAdd => True
  | ActDel => False
  | _ => is_Some (u !! key b resid)
  end.
Proof.
  intros Hm. unfold rows_after. cbv zeta. rewrite foldl_chg_is_some.
  pose proof (act_add_elem b m resid Hnd Hm) as Ha. pose proof (act_del_elem b m resid Hnd Hm) as Hd.
  assert (Hkeep : act_of b m resid ≠ ActAdd → foldl (λ u resid, row_ins b (bmi_sys_prio b) (bmi_usr_prio b) resid u) u
      (act_add (acts b)) !! key b resid = u !! key b resid).
  { intros Hne. apply (foldl_keep (λ resid, row_ins b (bmi_sys_prio b) (bmi_usr_prio b) resid)).
    intros r u' Hr. apply row_ins_keep. intros [= ->]. tauto. }
  destruct (act_of b m resid) eqn:E.
  - rewrite foldl_del_keep by (rewrite Hd; done). by rewrite Hkeep.
  - rewrite foldl_del_keep by (rewrite Hd; done). split; [done|intros _].
    apply foldl_ins_has; [by apply Ha|]. apply Hres. apply list_elem_of_lookup. eauto.
  - rewrite foldl_del_none by (by apply Hd). by split; [intros []|].
  - rewrite foldl_del_keep by (rewrite Hd; done). by rewrite Hkeep.
Qed.

Lemma rows_after_requeued b u m resid :
  fi_repls f !! m = Some resid → act_of b m resid = ActChg (Some StQ) → is_Some (u !! key b resid) →
  ∃ row, rows_after b u !! key b resid = Some row ∧ ur_status row = StQ.
Proof.
  intros Hm Ha Hrow. unfold rows_after. cbv zeta. apply foldl_chg_q.
  - by apply (act_chg_elem b m).
  - intros st Hst. apply (act_chg_elem b m) in Hst; [congruence|done..].
  - rewrite foldl_del_keep; [by apply foldl_ins_mono|].
    rewrite (act_del_elem b m resid Hnd Hm), Ha. discriminate.
Qed.

Lemma rows_after_other b u k :
  (∀ resid, resid ∈ fi_repls f → k ≠ key b resid) → rows_after b u !! k = u !! k.
Proof.
  intros Hk. unfold rows_after. cbv zeta.
  assert (Hact : ∀ e, e ∈ acts b → e.1 ∈ fi_repls f).
  { intros e (m & resid & Hm & ->)%acts_elem. apply list_elem_of_lookup. eauto. }
  rewrite (foldl_keep (λ (e : Z * option upst) (u : upsch_t), alter (row_chg (bmi_sys_prio b) (bmi_usr_prio b) e.2) (key b e.1) u)).
  2:{ intros [r st] u' ([r' a] & Hin & Ha)%list_elem_of_omap. destruct a; simplify_eq/=.
      apply Hact in Hin. rewrite lookup_alter_ne; [done|]. apply not_eq_sym. by apply Hk. }
  rewrite (foldl_keep (λ (resid : Z) (u : upsch_t), delete (key b resid) u)).
  2:{ intros r u' ([r' a] & Hin & Ha)%list_elem_of_omap. destruct a; simplify_eq/=.
      apply Hact in Hin. rewrite lookup_delete_ne; [done|]. apply not_eq_sym. by apply Hk. }
  apply (foldl_keep (λ resid, row_ins b (bmi_sys_prio b) (bmi_usr_prio b) resid)).
  intros r u' ([r' a] & Hin & Ha)%list_elem_of_omap. destruct a; simplify_eq/=.
  apply row_ins_keep. apply Hk. by apply Hact in Hin.
Qed.
End upd_spec.

(** A replica in state [v] has work the scheduler must find in the table. *)
Definition has_work (preclaim_notsup : Z → bool) (resid v : Z) : Prop :=
  v = BREPLST_REPL_QUEUED ∨ (v = BREPLST_GARBAGE ∧ preclaim_notsup resid = false).

(** C38: the upsch table keeps up with the replica states. Suppose every
    replica that was queued, being replicated or (on a system that can reclaim
    space) garbage had a row, the tables are well-formed, and the replicas are
    distinct and on configured systems. Then after [slm_repl_upd_write] every replica
    that is now queued or reclaimable garbage has one, a replication that was
    put back in the queue has its row in status Q again, the row of a replica
    whose replication ended (valid or invalid now) is gone, and the rows of
    other files, bmaps and I/O systems are untouched. *)
Theorem upd_write_rows {D} f cfg nonce preclaim_notsup (rel : bool) (s : mstate D) :
  repls_wf (bmi_repls (ms_b s)) → repls_wf (bmi_orepls (ms_b s)) →
  NoDup (fi_repls f) → (∀ resid, resid ∈ fi_repls f → is_Some (libsl_id2res cfg resid)) →
  let key resid := (resid, fi_fid f, bcm_bmapno (ms_b s)) in
  let vold n := repl_stat (bmi_orepls (ms_b s)) (Z.of_nat n) in
  let vnew n := repl_stat (bmi_repls (ms_b s)) (Z.of_nat n) in
  (∀ n resid, fi_repls f !! n = Some resid →
     has_work preclaim_notsup resid (vold n) ∨ vold n = BREPLST_REPL_SCHED → is_Some (ms_upsch s !! key resid)) →
  wp (slm_repl_upd_write f cfg nonce preclaim_notsup rel) (λ _ s',
    (∀ n resid, fi_repls f !! n = Some resid →
       (has_work preclaim_notsup resid (vnew n) → is_Some (ms_upsch s' !! key resid)) ∧
       (vold n = BREPLST_REPL_SCHED → vnew n = BREPLST_REPL_QUEUED →
          ∃ row, ms_upsch s' !! key resid = Some row ∧ ur_status row = StQ) ∧
       (vold n ∈ [BREPLST_REPL_QUEUED; BREPLST_REPL_SCHED; BREPLST_GARBAGE_SCHED] →
        vnew n ∈ [BREPLST_VALID; BREPLST_INVALID] → ms_upsch s' !! key resid = None)) ∧
    (∀ k, (∀ resid, resid ∈ fi_repls f → k ≠ key resid) → ms_upsch s' !! k = ms_upsch s !! k)) s.
Proof.
  intros Hwf Hwfo Hnd Hres key vold vnew Hrow. apply wp_upd_write. intros s' Hu _ _. rewrite Hu.
  split; [|by apply rows_after_other]. intros n resid Hn.
  pose proof (rows_after_is_some f cfg nonce preclaim_notsup Hnd Hres (ms_b s) (ms_upsch s) n resid Hn) as Hsome.
  pose proof (rows_after_requeued f cfg nonce preclaim_notsup Hnd (ms_b s) (ms_upsch s) n resid Hn) as Hq.
  fold (key resid) in Hsome, Hq. specialize (Hrow n resid Hn). unfold act_of in *. fold (vold n) (vnew n) in *.
  destruct (Hres resid) as [t Ht]; [apply list_elem_of_lookup; eauto|].
  unfold upd_action in *. rewrite Ht in *. unfold has_work in *.
  pose proof (repl_stat_range _ Hwfo (Z.of_nat n)) as Hro. fold (vold n) in Hro.
  pose proof (repl_stat_range _ Hwf (Z.of_nat n)) as Hrn. fold (vnew n) in Hrn.
  split_and!.
  - intros Hw. apply Hsome. destruct Hw as [-> | [-> Hp]]; rewrite ?Hp in *; by_state (vold n) Hro; simpl; tauto.
  - intros Ho Hw. apply Hq; [by rewrite Ho, Hw|]. tauto.
  - intros Ho Hw. apply eq_None_not_Some. rewrite Hsome.
    list_cases Ho; list_cases Hw; rewrite Ho, Hw; simpl; tauto.
Qed.

Lemma upd_write_rows_witness :
  let b := b_with_repls (b_modify_start ex_bmap) (repl_upd (bmi_repls ex_bmap) 1 BREPLST_REPL_QUEUED) in
  let s := {| ms_b := b; ms_disk := tt; ms_journal := []; ms_workq := [];
              ms_upsch := {[ (12, 77, 0) := {| ur_status := StQ; ur_sys_prio := 0; ur_usr_prio := 0; ur_nonce := 1 |} ]};
              ms_upschq := []; ms_paging := ∅ |} in
  let cfg : gmap Z sl_res_type := list_to_map ((λ i, (i, SLREST_STANDALONE_FS)) <$> [10; 11; 12; 13]) in
  wp (slm_repl_upd_write MemBmaps.fi cfg 5 (λ _, false) true) (λ _ s',
    (∀ n resid, [10; 11; 12; 13] !! n = Some resid →
       (has_work (λ _, false) resid (repl_stat (bmi_repls b) (Z.of_nat n)) → is_Some (ms_upsch s' !! (resid, 77, 0))) ∧
       (repl_stat (bmi_orepls b) (Z.of_nat n) = BREPLST_REPL_SCHED →
        repl_stat (bmi_repls b) (Z.of_nat n) = BREPLST_REPL_QUEUED →
          ∃ row, ms_upsch s' !! (resid, 77, 0) = Some row ∧ ur_status row = StQ) ∧
       (repl_stat (bmi_orepls b) (Z.of_nat n) ∈ [BREPLST_REPL_QUEUED; BREPLST_REPL_SCHED; BREPLST_GARBAGE_SCHED] →
        repl_stat (bmi_repls b) (Z.of_nat n) ∈ [BREPLST_VALID; BREPLST_INVALID] →
          ms_upsch s' !! (resid, 77, 0) = None)) ∧
    (∀ k, (∀ resid, resid ∈ [10; 11; 12; 13] → k ≠ (resid, 77, 0)) → ms_upsch s' !! k = ms_upsch s !! k)) s.
Proof.
  intros b s cfg. apply (upd_write_rows MemBmaps.fi cfg 5 (λ _, false) true s).
  - apply repl_upd_wf. exact ex_bmap_wf.
  - exact ex_bmap_wf.
  - apply (bool_decide_unpack _). vm_compute. exact I.
  - intros resid Hin. list_cases Hin; rewrite Hin; eexists; reflexivity.
  - intros n resid Hn Hw. destruct n as [|[|[|[|n]]]]; try discriminate Hn; injection Hn as <-;
      try (exfalso; vm_compute in Hw; destruct Hw as [[Hw|[Hw _]]|Hw]; discriminate Hw).
    eexists; reflexivity.
Defined.
