(* ===== verification/ReplReq.v ===== *)
(** * Requests for replication of a file ([mds_repl_addrq],
      [mds_repl_delrq]) and the bmap cache they go through ([share/bmap.c])

    A file is its inode handle, the tree of cached bmaps with their reference
    counts, and the parts of the server the bmap routines share. *)
From S2P Require Import Prelude ReplBits Inode ReplWalk BmapMds ReplMds.

(** ** Data *)
Definition BMAPF_RD : Z := Z.shiftl 1 0.
Definition BMAPF_WR : Z := Z.shiftl 1 1.
Definition BMAPF_INIT : Z := Z.shiftl 1 2.
Definition BMAPF_MODECHNG : Z := Z.shiftl 1 6.
Definition BMAPGETF_ASYNC : Z := Z.shiftl 1 1.
Definition BMAPGETF_CREATE : Z := Z.shiftl 1 2.
Definition BMAPGETF_NORETRIEVE : Z := Z.shiftl 1 3.
Definition BMAPNO_ALL : Z := 2 ^ 32 - 1.

Inductive rw := SL_READ | SL_WRITE.
Inductive ftype := FtDir | FtReg | FtOther.

Definition F_LOG : Z := Z.shiftl 1 0.
Definition F_REPORT : Z := Z.shiftl 1 1.
Definition F_ALREADY : Z := Z.shiftl 1 2.

Record fstate (DI D : Type) := {
  fs_fid : Z;
  fs_type : ftype;
  fs_size : Z;
  fs_nblks : Z;
  fs_in_ptrunc : bool;
  fs_ino : inost (D := DI);
  fs_bmaps : gmap Z bmap;
  fs_refs : gmap Z Z;
  fs_disk : D;
  fs_journal : list jent;
  fs_workq : list Z;
  fs_upsch : upsch_t;
  fs_upschq : list updent;
  fs_paging : gset Z;
}.
Arguments fs_fid {_ _}. Arguments fs_type {_ _}. Arguments fs_size {_ _}. Arguments fs_nblks {_ _}.
Arguments fs_in_ptrunc {_ _}. Arguments fs_ino {_ _}. Arguments fs_bmaps {_ _}. Arguments fs_refs {_ _}.
Arguments fs_disk {_ _}. Arguments fs_journal {_ _}. Arguments fs_workq {_ _}. Arguments fs_upsch {_ _}.
Arguments fs_upschq {_ _}. Arguments fs_paging {_ _}.

Section file.
Context {DI D : Type} `{Mdsio DI} `{BmapIO D} `{PflErr} `{PflMem}.
Context (cfg : gmap Z sl_res_type) (nonce : Z) (preclaim_notsup : Z → bool).
Abbreviation FS := (fstate DI D).
Abbreviation FM := (M FS).

(** The replica table as [fcmh_2_repl] reads it, loading the extras block when
    it is not in memory; what is in the slots of a block that cannot be
    loaded is never used. *)
Definition fcmh_repls (i : inost (D := DI)) : list Z :=
  let extras := match mds_inox_ensure_loaded i with
                | Done (_, i') => from_option inox_repls [] (inoh_extras (st_ih i'))
                | Stuck _ => []
                end in
  take (Z.to_nat (ino_nrepls (inoh_ino (st_ih i))))
    (ino_repls (inoh_ino (st_ih i)) ++ extras ++ replicate (Z.to_nat SL_INOX_NREPLICAS - length extras) 0).

Definition finfo_of (s : FS) : finfo :=
  {| fi_fid := fs_fid s; fi_repls := fcmh_repls (fs_ino s);
     fi_replpol := ino_replpol (inoh_ino (st_ih (fs_ino s))); fi_fsz := fs_size s;
     fi_nblks := fs_nblks s; fi_in_ptrunc := fs_in_ptrunc s |}.

Definition to_ms (s : FS) (b : bmap) : mstate D :=
  {| ms_b := b; ms_disk := fs_disk s; ms_journal := fs_journal s; ms_workq := fs_workq s;
     ms_upsch := fs_upsch s; ms_upschq := fs_upschq s; ms_paging := fs_paging s |}.
Definition of_ms (s : FS) (n : Z) (m : mstate D) : FS :=
  {| fs_fid := fs_fid s; fs_type := fs_type s; fs_size := fs_size s; fs_nblks := fs_nblks s;
     fs_in_ptrunc := fs_in_ptrunc s; fs_ino := fs_ino s; fs_bmaps := <[n := ms_b m]> (fs_bmaps s);
     fs_refs := fs_refs s; fs_disk := ms_disk m; fs_journal := ms_journal m; fs_workq := ms_workq m;
     fs_upsch := ms_upsch m; fs_upschq := ms_upschq m; fs_paging := ms_paging m |}.
Definition fs_with_cache (s : FS) (bm : gmap Z bmap) (r : gmap Z Z) : FS :=
  {| fs_fid := fs_fid s; fs_type := fs_type s; fs_size := fs_size s; fs_nblks := fs_nblks s;
     fs_in_ptrunc := fs_in_ptrunc s; fs_ino := fs_ino s; fs_bmaps := bm;
     fs_refs := r; fs_disk := fs_disk s; fs_journal := fs_journal s; fs_workq := fs_workq s;
     fs_upsch := fs_upsch s; fs_upschq := fs_upschq s; fs_paging := fs_paging s |}.
Definition fs_with_ino (s : FS) (i : inost (D := DI)) : FS :=
  {| fs_fid := fs_fid s; fs_type := fs_type s; fs_size := fs_size s; fs_nblks := fs_nblks s;
     fs_in_ptrunc := fs_in_ptrunc s; fs_ino := i; fs_bmaps := fs_bmaps s;
     fs_refs := fs_refs s; fs_disk := fs_disk s; fs_journal := fs_journal s; fs_workq := fs_workq s;
     fs_upsch := fs_upsch s; fs_upschq := fs_upschq s; fs_paging := fs_paging s |}.

(** Run an operation on the cached bmap [n]; a bmap the caller holds is in
    the cache. *)
Definition onBmap {A} (n : Z) (m : finfo → M (mstate D) A) : FM A := λ s,
  match fs_bmaps s !! n with
  | None => Stuck NullDeref
  | Some b => match m (finfo_of s) (to_ms s b) with
              | Done (a, ms) => Done (a, of_ms s n ms)
              | Stuck w => Stuck w
              end
  end.
Definition onIno {A} (m : M (inost (D := DI)) A) : FM A := λ s,
  match m (fs_ino s) with
  | Done (a, i) => Done (a, fs_with_ino s i)
  | Stuck w => Stuck w
  end.

(** *** The cache *)

(** [bcm_opcnt]: the references of lookups, plus those of the work queue
    and of the scheduler's queue. *)
Definition bcm_opcnt (s : FS) (n : Z) : Z :=
  default 0 (fs_refs s !! n)
  + Z.of_nat (length (filter (λ m, m = n) (fs_workq s)))
  + Z.of_nat (length (filter (λ e, e = UpdBmap (fs_fid s) n) (fs_upschq s))).

Definition bmap_op_start (n : Z) : FM unit :=
  modifyM (λ s, fs_with_cache s (fs_bmaps s) (<[n := default 0 (fs_refs s !! n) + 1]> (fs_refs s))).
(** [_bmap_op_done]: the last reference frees the bmap. *)
Definition bmap_op_done (n : Z) : FM unit :=
  _ ← modifyM (λ s, fs_with_cache s (fs_bmaps s) (<[n := default 0 (fs_refs s !! n) - 1]> (fs_refs s)));
  s ← getM;
  whenM (bcm_opcnt s n =? 0) (putM (fs_with_cache s (delete n (fs_bmaps s)) (delete n (fs_refs s)))).

Definition bmap_new (n : Z) : bmap :=
  {| bcm_bmapno := n; bcm_flags := BMAPF_INIT;
     bmi_od := {| bod_crcstates := replicate (Z.to_nat SLASH_CRCS_PER_BMAP) 0; bod_repls := zero_table;
                  bod_crcs := replicate (Z.to_nat SLASH_CRCS_PER_BMAP) 0; bod_gen := 0; bod_replpol := 0 |};
     bmi_orepls := zero_table; bmi_sys_prio := 0; bmi_usr_prio := 0; bmi_wrlocked := false |}.

(** [bmap_lookup_cache]; the value is [*new_bmap], or [None] when the bmap
    is not there and may not be created. *)
Definition bmap_lookup_cache (n : Z) (doalloc : bool) : FM (option bool) :=
  s ← getM;
  match fs_bmaps s !! n with
  | Some _ => _ ← bmap_op_start n; mret (Some false)
  | None =>
      if doalloc then
        _ ← putM (fs_with_cache s (<[n := bmap_new n]> (fs_bmaps s)) (fs_refs s));
        _ ← bmap_op_start n;
        mret (Some true)
      else mret None
  end.

Definition or_flags (n fl : Z) : FM unit :=
  onBmap n (λ _, modB (λ b, b_with_flags b (setf (bcm_flags b) fl))).
Definition clr_flags (n fl : Z) : FM unit :=
  onBmap n (λ _, modB (λ b, b_with_flags b (clrf (bcm_flags b) fl))).

(** [_bmap_get] with the operations of the metadata server: the retrieve
    function is [mds_bmap_read], there is no mode change function. *)
Definition bmap_getf (replay : bool) (n : Z) (w : option rw) (flags : Z) : FM Z :=
  let bmaprw := match w with
                | Some SL_WRITE => BMAPF_WR | Some SL_READ => BMAPF_RD | None => 0 end in
  r ← bmap_lookup_cache n (hasf flags BMAPGETF_CREATE);
  match r with
  | None => mret ENOENT
  | Some new_bmap =>
      rc ← (if (new_bmap : bool) then
              _ ← or_flags n bmaprw;
              rc ← (if hasf flags BMAPGETF_NORETRIEVE then mret 0
                    else onBmap n (λ f, mds_bmap_read f replay cfg nonce flags));
              _ ← whenM (negb (hasf flags BMAPGETF_ASYNC)) (clr_flags n BMAPF_INIT);
              mret rc
            else
              s ← getM;
              _ ← whenM (negb (hasf flags BMAPGETF_ASYNC))
                    (wait_until (match fs_bmaps s !! n with
                                 | Some b => negb (hasf (bcm_flags b) (Z.lor BMAPF_INIT BMAPF_MODECHNG))
                                 | None => true end));
              mret 0);
      _ ← whenM (negb (rc =? 0)) (bmap_op_done n);
      mret rc
  end.
Definition bmap_get (n : Z) (w : rw) : FM Z := bmap_getf false n (Some w) BMAPGETF_CREATE.
End file.
Arguments fstate : clear implicits.

(** [bmapdesc_access_check]: a write needs the I/O system of the lease. *)
Definition bmapdesc_access_check (sbd_ios : Z) (w : rw) (ios_id : Z) : Z :=
  match w with
  | SL_READ => 0
  | SL_WRITE => if negb (sbd_ios =? ios_id) then EBADF else 0
  end.

(** ** Adding replicas *)
Definition addrq_tract : list Z :=
  let t := brepls_init (-1) in
  let t := arr_set t BREPLST_INVALID BREPLST_REPL_QUEUED in
  let t := arr_set t BREPLST_REPL_SCHED BREPLST_REPL_QUEUED in
  let t := arr_set t BREPLST_GARBAGE BREPLST_REPL_QUEUED in
  arr_set t BREPLST_GARBAGE_SCHED BREPLST_REPL_QUEUED.
Definition addrq_retifzero : list Z := arr_set (brepls_init 0) BREPLST_VALID 1.
Definition addrq_retifset_all : list Z :=
  let r := brepls_init 0 in
  let r := arr_set r BREPLST_INVALID (Z.lor F_LOG F_REPORT) in
  let r := arr_set r BREPLST_REPL_SCHED F_LOG in
  let r := arr_set r BREPLST_VALID F_REPORT in
  let r := arr_set r BREPLST_GARBAGE (Z.lor F_LOG F_REPORT) in
  arr_set r BREPLST_GARBAGE_SCHED (Z.lor F_LOG F_REPORT).
Definition addrq_ret_if_inact : list Z := arr_set (brepls_init 1) BREPLST_VALID 0.
Definition addrq_retifset_one : list Z :=
  let r := brepls_init 0 in
  let r := arr_set r BREPLST_INVALID F_LOG in
  let r := arr_set r BREPLST_REPL_SCHED F_LOG in
  let r := arr_set r BREPLST_REPL_QUEUED F_ALREADY in
  let r := arr_set r BREPLST_VALID F_ALREADY in
  let r := arr_set r BREPLST_GARBAGE F_LOG in
  arr_set r BREPLST_GARBAGE_SCHED F_LOG.

(** ** Removing replicas *)
Definition delrq_empty_tract : list Z := brepls_init (-1).
Definition delrq_tract : list Z :=
  let t := brepls_init (-1) in
  let t := arr_set t BREPLST_REPL_QUEUED BREPLST_GARBAGE in
  let t := arr_set t BREPLST_REPL_SCHED BREPLST_GARBAGE in
  arr_set t BREPLST_VALID BREPLST_GARBAGE.
Definition delrq_retifset_all : list Z :=
  let r := brepls_init 0 in
  let r := arr_set r BREPLST_VALID 1 in
  let r := arr_set r BREPLST_REPL_QUEUED 1 in
  arr_set r BREPLST_REPL_SCHED 1.
Definition delrq_retifset_one : list Z :=
  let r := brepls_init 0 in
  let r := arr_set r BREPLST_GARBAGE F_REPORT in
  let r := arr_set r BREPLST_GARBAGE_SCHED F_REPORT in
  let r := arr_set r BREPLST_REPL_QUEUED F_LOG in
  let r := arr_set r BREPLST_REPL_SCHED F_LOG in
  arr_set r BREPLST_VALID F_LOG.

(** [slm_repl_countvalid_cb]: count the valid replicas that would remain. *)
Definition slm_repl_countvalid_cb (idx : list Z) (iosidx val : Z) (n : Z) : Z :=
  if negb (val =? BREPLST_VALID) then n
  else if existsb (λ j, iosidx =? j) idx then n else n + 1.

Section req.
Context {D : Type} `{BmapIO D} `{PflErr}.
Context (cfg : gmap Z sl_res_type) (nonce : Z) (preclaim_notsup : Z → bool) (f : finfo).
Abbreviation BM := (M (mstate D)).

Definition set_prio (sys_prio usr_prio : Z) : BM unit := modB (λ b, b_with_prio b sys_prio usr_prio).

(** The body of the loop over all bmaps in [mds_repl_addrq]; the value is
    [repl_some_act] and [repl_all_act]. *)
Definition addrq_bmap_all (iosidx : list Z) (sys_prio usr_prio : Z) (some_act all_act : bool) :
    BM (bool * bool) :=
  z ← onB (mds_repl_bmap_walk_all (fi_nrepls f) None (Some addrq_retifzero) REPL_WALKF_SCIRCUIT);
  if z =? 0 then mret (some_act, all_act) else
  i ← onB (mds_repl_bmap_walk (fi_nrepls f) (Some addrq_tract) (Some addrq_retifset_all) 0 iosidx);
  let some_act := some_act || hasf i F_REPORT in
  r ← (if all_act then
         onB (mds_repl_bmap_walk (fi_nrepls f) None (Some addrq_ret_if_inact) REPL_WALKF_SCIRCUIT iosidx)
       else mret 0);
  let all_act := all_act && (r =? 0) in
  _ ← set_prio sys_prio usr_prio;
  _ ← (if hasf i F_LOG then _ ← mds_bmap_write f LogBmapRepls; mret tt
       else whenM (negb (sys_prio =? -1) || negb (usr_prio =? -1))
              (slm_repl_upd_write f cfg nonce preclaim_notsup false));
  _ ← slm_repl_bmap_rel;
  mret (some_act, all_act).

(** The branch for one bmap, once it is loaded. *)
Definition addrq_bmap_one (iosidx : list Z) (sys_prio usr_prio : Z) : BM Z :=
  z ← onB (mds_repl_bmap_walk_all (fi_nrepls f) None (Some addrq_retifzero) REPL_WALKF_SCIRCUIT);
  if z =? 0 then mret (- SLERR_BMAP_ZERO) else
  rc ← onB (mds_repl_bmap_walk (fi_nrepls f) (Some addrq_tract) (Some addrq_retifset_one) 0 iosidx);
  _ ← set_prio sys_prio usr_prio;
  rc ← (if hasf rc F_LOG then _ ← mds_bmap_write f LogBmapRepls; mret 0
        else
          _ ← whenM (negb (sys_prio =? -1) || negb (usr_prio =? -1))
                (slm_repl_upd_write f cfg nonce preclaim_notsup false);
          mret (if hasf rc F_ALREADY then - PFLERR_ALREADY else - SLERR_REPL_NOT_ACT));
  _ ← slm_repl_bmap_rel;
  mret rc.

Definition delrq_count (iosidx : list Z) : BM Z :=
  r ← onBcb (mds_repl_bmap_walk_cb (fi_nrepls f) (Some delrq_empty_tract) None 0 []
               (Some (slm_repl_countvalid_cb iosidx))) 0;
  mret r.2.

(** The loop body and the one-bmap branch of [mds_repl_delrq]; the first
    returns [rc] and whether [all_invalid] is incremented. *)
Definition delrq_bmap_all (iosidx : list Z) (rc : Z) : BM (Z * bool) :=
  n ← delrq_count iosidx;
  r ← (if n >? 0 then
         i ← onB (mds_repl_bmap_walk (fi_nrepls f) (Some delrq_tract) (Some delrq_retifset_all) 0 iosidx);
         if negb (i =? 0) then _ ← mds_bmap_write f LogBmapRepls; mret (0, false) else mret (rc, false)
       else mret (rc, true));
  _ ← slm_repl_bmap_rel;
  mret r.

Definition delrq_bmap_one (iosidx : list Z) : BM Z :=
  n ← delrq_count iosidx;
  rc ← (if n >? 0 then
          rc ← onB (mds_repl_bmap_walk (fi_nrepls f) (Some delrq_tract) (Some delrq_retifset_one) 0 iosidx);
          if hasf rc F_LOG then _ ← mds_bmap_write f LogBmapRepls; mret 0
          else mret (if hasf rc F_REPORT then - EINVAL else - SLERR_REPL_NOT_ACT)
        else mret (- SLERR_LASTREPL));
  _ ← slm_repl_bmap_rel;
  mret rc.
End req.

Section requests.
Context {DI D : Type} `{Mdsio DI} `{BmapIO D} `{PflErr} `{PflMem}.
Context (cfg : gmap Z sl_res_type) (nonce : Z) (preclaim_notsup : Z → bool).
Abbreviation FM := (M (fstate DI D)).

Fixpoint addrq_loop (n : nat) (bmapno : Z) (iosidx : list Z) (sys_prio usr_prio : Z)
    (some_act all_act : bool) : FM (bool * bool) :=
  match n with
  | O => mret (some_act, all_act)
  | S n =>
      rc ← bmap_get cfg nonce bmapno SL_WRITE;
      if negb (rc =? 0) then addrq_loop n (bmapno + 1) iosidx sys_prio usr_prio some_act all_act
      else
        r ← onBmap bmapno (λ f, addrq_bmap_all cfg nonce preclaim_notsup f iosidx sys_prio usr_prio
                                  some_act all_act);
        _ ← bmap_op_done bmapno;
        addrq_loop n (bmapno + 1) iosidx sys_prio usr_prio r.1 r.2
  end.

(** [mds_repl_addrq], once [slm_fcmh_get] has found the file; [bmapno] is a
    bmap number or [BMAPNO_ALL]. *)
Definition mds_repl_addrq (bmapno : Z) (iosv : list Z) (sys_prio usr_prio : Z) : FM Z :=
  let nios := Z.of_nat (length iosv) in
  if (nios <? 1) || (nios >? SL_MAX_REPLICAS) then mret (- EINVAL) else
  s ← getM;
  match fs_type s with
  | FtOther => mret (- EOPNOTSUPP)
  | ty =>
      r ← onIno (mds_repl_iosv_lookup_fl cfg iosv IOSV_LOOKUPF_ADD);
      let iosidx := r.2 in
      if negb (r.1 =? 0) then mret (- r.1) else
      match ty with
      | FtDir => mret 0
      | _ =>
          if bmapno =? BMAPNO_ALL then
            let nb := fcmh_nvalidbmaps (finfo_of s) in
            a ← addrq_loop (Z.to_nat nb) 0 iosidx sys_prio usr_prio false true;
            mret (if negb (nb =? 0) && negb a.1 then - PFLERR_ALREADY
                  else if negb (nb =? 0) && a.2 then - SLERR_REPL_ALREADY_ACT else 0)
          else if mds_bmap_exists (finfo_of s) bmapno then
            rc ← bmap_get cfg nonce bmapno SL_WRITE;
            if negb (rc =? 0) then mret (if rc =? SLERR_BMAP_ZERO then 0 else - rc)
            else
              rc ← onBmap bmapno (λ f, addrq_bmap_one cfg nonce preclaim_notsup f iosidx sys_prio usr_prio);
              _ ← bmap_op_done bmapno;
              mret (if rc =? - SLERR_BMAP_ZERO then 0 else rc)
          else mret (- SLERR_BMAP_INVALID)
      end
  end.

Fixpoint delrq_loop (n : nat) (bmapno : Z) (iosidx : list Z) (rc all_invalid : Z) : FM (Z * Z) :=
  match n with
  | O => mret (rc, all_invalid)
  | S n =>
      e ← bmap_get cfg nonce bmapno SL_WRITE;
      if negb (e =? 0) then delrq_loop n (bmapno + 1) iosidx rc all_invalid
      else
        r ← onBmap bmapno (λ f, delrq_bmap_all f iosidx rc);
        _ ← bmap_op_done bmapno;
        delrq_loop n (bmapno + 1) iosidx r.1 (if r.2 : bool then u32 (all_invalid + 1) else all_invalid)
  end.

Definition mds_repl_delrq (bmapno : Z) (iosv : list Z) : FM Z :=
  let nios := Z.of_nat (length iosv) in
  if (nios <? 1) || (nios >? SL_MAX_REPLICAS) then mret (- EINVAL) else
  s ← getM;
  let isdir := match fs_type s with FtDir => true | _ => false end in
  r ← onIno (mds_repl_iosv_lookup_fl cfg iosv (if isdir then IOSV_LOOKUPF_DEL else 0));
  let iosidx := r.2 in
  if negb (r.1 =? 0) then mret (- r.1) else
  if isdir : bool then mret 0 else
  if bmapno =? BMAPNO_ALL then
    let nb := fcmh_nvalidbmaps (finfo_of s) in
    a ← delrq_loop (Z.to_nat nb) 0 iosidx (- SLERR_REPL_NOT_ACT) 0;
    mret (if a.2 =? u32 nb then - SLERR_LASTREPL else a.1)
  else if mds_bmap_exists (finfo_of s) bmapno then
    rc ← bmap_get cfg nonce bmapno SL_WRITE;
    if negb (rc =? 0) then mret (- rc)
    else
      rc ← onBmap bmapno (λ f, delrq_bmap_one f iosidx);
      _ ← bmap_op_done bmapno;
      mret rc
  else mret (- SLERR_BMAP_INVALID).
End requests.

(** ** What the requests do to a bmap *)
Section req_spec.
Context {D : Type} `{BmapIO D} `{PflErr}.
Context (cfg : gmap Z sl_res_type) (nonce : Z) (preclaim_notsup : Z → bool) (f : finfo).
Abbreviation BM := (M (mstate D)).

Definition any_valid (b : bmap) : bool :=
  existsb (λ j, stat b j =? BREPLST_VALID) (seqZ 0 (fi_nrepls f)).

Lemma any_valid_has b : any_valid b = true → has_valid f b.
Proof.
  unfold any_valid. rewrite existsb_elem. intros (j & Hj%elem_of_seqZ & Hv).
  exists j. split; [lia|]. apply Z.eqb_eq in Hv. by rewrite Hv.
Qed.

(** The query for a valid replica. *)
Lemma wp_walk_anyvalid (Q : Z → mstate D → Prop) s :
  repls_wf (bmi_repls (ms_b s)) → finfo_ok f →
  (∀ z, (z =? 0) = negb (any_valid (ms_b s)) → Q z s) →
  wp (onB (mds_repl_bmap_walk_all (fi_nrepls f) None (Some addrq_retifzero) REPL_WALKF_SCIRCUIT)) Q s.
Proof.
  intros Hwf [Hnr _] HQ. apply wp_onB. apply wp_bmap_walk_query; [done|done|apply iosidx_ok_nil|].
  rewrite ms_with_b_id. change (hasf REPL_WALKF_SCIRCUIT REPL_WALKF_SCIRCUIT) with true. cbv iota.
  apply HQ. apply eq_bool_prop_intro. rewrite !Is_true_true, Z.eqb_eq, first_nonzero_zero, negb_true_iff.
  unfold any_valid. rewrite <-not_true_iff_false, existsb_elem, Forall_fmap, Forall_forall.
  assert (Hret : ∀ k, arr_get addrq_retifzero (stat (ms_b s) k) = 0 ↔ stat (ms_b s) k ≠ BREPLST_VALID).
  { intros k. pose proof (stat_range _ k Hwf) as Hr. by_state (stat (ms_b s) k) Hr; done. }
  split.
  - intros Hall (j & Hj & Hv%Z.eqb_eq). specialize (Hall j Hj). simpl in Hall. by apply Hret in Hall.
  - intros Hno j Hj. simpl. apply Hret. intros Hv. apply Hno. exists j. by rewrite Hv.
Qed.

(** A translating walk over one replica. *)
Definition one_changed (t : list Z) (idx : Z) (b b' : bmap) : Prop :=
  same_but_repls b b' ∧ repls_wf (bmi_repls b') ∧ bmi_wrlocked b' = true ∧
  bmi_orepls b' = (if bmi_wrlocked b then bmi_orepls b else bmi_repls b) ∧
  ∀ j, 0 ≤ j < 64 → stat b' j = if decide (j = idx) then tr t (stat b j) else stat b j.

Lemma wp_walk_one t r idx (Q : Z → mstate D → Prop) s :
  repls_wf (bmi_repls (ms_b s)) → finfo_ok f → 0 ≤ idx < fi_nrepls f →
  hasf (bcm_flags (ms_b s)) BMAPF_REPLMODWR = false → tract_ok t →
  (∀ b', one_changed t idx (ms_b s) b' → Q (arr_get r (stat (ms_b s) idx)) (ms_with_b s b')) →
  wp (onB (mds_repl_bmap_walk (fi_nrepls f) (Some t) (Some r) 0 [idx])) Q s.
Proof.
  intros Hwf [Hnr _] Hidx Hmod Ht HQ. apply wp_onB.
  apply wp_bmap_walk_tract; [done|done|by apply iosidx_ok_one|done|done|done|].
  intros b' Hsame Hwf' Hst Hlk. simpl in Hlk.
  replace (last_nonzero 0 ((λ k, ret_of (Some r) (stat (ms_b s) k)) <$> walk_idxs (fi_nrepls f) 0 [idx]))
    with (arr_get r (stat (ms_b s) idx))
    by (simpl; destruct (Z.eqb_spec (arr_get r (stat (ms_b s) idx)) 0); congruence).
  apply HQ. split_and!; [done|done|apply Hlk|apply Hlk|].
  intros j Hj. rewrite Hst by done.
  assert (Hs1 : selected (fi_nrepls f) 0 [idx] j ↔ j = idx) by apply list_elem_of_singleton.
  by rewrite (decide_ext _ _ _ _ Hs1).
Qed.

Lemma wp_bmap_rel (Q : unit → mstate D → Prop) s :
  Q tt (ms_with_b s (if bmi_wrlocked (ms_b s) && negb (hasf (bcm_flags (ms_b s)) BMAPF_REPLMODWR)
                     then b_with_wrlocked (ms_b s) false else ms_b s)) →
  wp slm_repl_bmap_rel Q s.
Proof. done. Qed.

Lemma addrq_tract_ok : tract_ok addrq_tract.
Proof. by apply tract_okb. Qed.
Lemma delrq_tract_ok : tract_ok delrq_tract.
Proof. by apply tract_okb. Qed.
Lemma empty_tract_ok : tract_ok delrq_empty_tract.
Proof. by apply tract_okb. Qed.

(** Whether the request for a replica in state [v] makes work. *)
Definition addrq_makes_work (v : Z) : bool := hasf (arr_get addrq_retifset_one v) F_LOG.

(** The bmap once the changed states are on disk and, when [lg], logged. *)
Lemma one_changed_valid t idx b b' :
  (∀ j, 0 ≤ j < fi_nrepls f → stat b j = BREPLST_VALID → tr t (stat b j) = BREPLST_VALID ∨ j ≠ idx) →
  fi_nrepls f ≤ SL_MAX_REPLICAS → any_valid b = true → one_changed t idx b b' → any_valid b' = true.
Proof.
  intros Ht Hnr Hv (_ & _ & _ & _ & Hst). unfold any_valid in *. rewrite existsb_elem in *.
  destruct Hv as (j & Hj & Hv%Z.eqb_eq). exists j. split; [done|]. rewrite elem_of_seqZ in Hj.
  unfold SL_MAX_REPLICAS in Hnr. rewrite Hst by lia. apply Z.eqb_eq.
  destruct (Ht j) as [E|E]; [lia|done|..]; case_decide; congruence.
Qed.
End req_spec.

Section req_thms.
Context {D : Type} `{BmapIO D} `{PflErr}.
Context (cfg : gmap Z sl_res_type) (nonce : Z) (preclaim_notsup : Z → bool) (f : finfo).
Abbreviation BM := (M (mstate D)).

(** Changed states of [b], in [b'], went to disk and to the journal. *)
Definition states_written (b b' : bmap) (s s' : mstate D) : Prop :=
  ∃ rc0 nb lg,
    pwritev_bmap (ms_disk s) (bcm_bmapno b) (bmi_od b') (crc64_bmap (bmi_od b')) = (rc0, nb, lg, ms_disk s') ∧
    ms_b s' = (if (lg : bool) then b_with_flags b' (setf (bcm_flags b) BMAPF_REPLMODWR)
               else b_with_wrlocked b' false) ∧
    ms_upsch s' = ms_upsch s ∧
    ms_journal s' = (if lg then MDS_LOG_BMAP_REPLS (mdslogfill_bmap_repls f b') :: ms_journal s else ms_journal s) ∧
    ms_workq s' = (if lg then bcm_bmapno b :: ms_workq s else ms_workq s).

(** Writing the states and releasing the bmap. *)
Lemma wp_write_rel {A} b b' (a : A) (Q : A → mstate D → Prop) s :
  repls_wf (bmi_repls b') → finfo_ok f → has_valid f b' →
  hasf (bcm_flags b) BMAPF_REPLMODWR = false → bcm_flags b' = bcm_flags b →
  bcm_bmapno b' = bcm_bmapno b → bmi_wrlocked b' = true →
  (∀ s', states_written b b' s s' → Q a s') →
  wp (a ← (_ ← mds_bmap_write f LogBmapRepls; mret a); _ ← slm_repl_bmap_rel; mret a) Q (ms_with_b s b').
Proof.
  intros Hwf Hf Hv Hmod Hfl Hno Hlk HQ. wp_step. wp_step. apply wp_bmap_write; [done..|].
  intros rc nb lg d' Hw. wp_step. wp_step. apply wp_bmap_rel. wp_step. apply HQ. simpl in Hw.
  exists rc, nb, lg. rewrite <-Hno. destruct lg; simpl; rewrite Hlk, Hfl.
  - rewrite hasf_setf. change (hasf BMAPF_REPLMODWR BMAPF_REPLMODWR) with true. rewrite orb_true_r. simpl.
    by rewrite Hno in *.
  - rewrite Hmod. simpl. done.
Qed.

Lemma wp_addrq_one idx sys_prio usr_prio (Q : Z → mstate D → Prop) s :
  repls_wf (bmi_repls (ms_b s)) → finfo_ok f → 0 ≤ idx < fi_nrepls f →
  hasf (bcm_flags (ms_b s)) BMAPF_REPLMODWR = false → bmi_wrlocked (ms_b s) = false →
  (any_valid f (ms_b s) = false → Q (- SLERR_BMAP_ZERO) s) →
  (any_valid f (ms_b s) = true → addrq_makes_work (stat (ms_b s) idx) = true →
     ∀ b' s', one_changed addrq_tract idx (ms_b s) b' →
       states_written (ms_b s) (b_with_prio b' sys_prio usr_prio) s s' → Q 0 s') →
  (any_valid f (ms_b s) = true → addrq_makes_work (stat (ms_b s) idx) = false →
     ∀ s', (∀ j, 0 ≤ j < 64 → stat (ms_b s') j = stat (ms_b s) j) →
       Q (if hasf (arr_get addrq_retifset_one (stat (ms_b s) idx)) F_ALREADY
          then - PFLERR_ALREADY else - SLERR_REPL_NOT_ACT) s') →
  wp (addrq_bmap_one cfg nonce preclaim_notsup f [idx] sys_prio usr_prio) Q s.
Proof.
  intros Hwf Hf Hidx Hmod Hunl HQ0 HQ1 HQ2. unfold addrq_bmap_one. wp_step.
  apply wp_walk_anyvalid; [done..|]. intros z ->.
  destruct (any_valid f (ms_b s)) eqn:Hav; simpl; [|wp_step; by apply HQ0].
  wp_step. apply wp_walk_one; [done|done|done|done|apply addrq_tract_ok|].
  intros b' Hch. pose proof Hch as ((Hno & Hfl & Hod & _) & Hwf' & Hlk & Hor & Hst).
  wp_step. unfold set_prio, modB. wp_step. simpl.
  fold (addrq_makes_work (stat (ms_b s) idx)). destruct (addrq_makes_work (stat (ms_b s) idx)) eqn:Hmw.
  - apply wp_write_rel with (b := ms_b s); [done|done| |done|done|done|done|intros s' Hs'; by eapply HQ1].
    apply any_valid_has. change (any_valid f b' = true). apply one_changed_valid with (t := addrq_tract) (idx := idx) (b := ms_b s);
      [by intros j _ ->; left|apply Hf|done|done].
  - assert (Hsame : ∀ j, 0 ≤ j < 64 → stat b' j = stat (ms_b s) j).
    { intros j Hj. rewrite Hst by done. case_decide; [subst|done].
      pose proof (stat_range _ idx Hwf) as Hr. by by_state (stat (ms_b s) idx) Hr. }
    do 2 wp_step. apply wp_when; intros Hp.
    + apply wp_upd_write. intros s2 _ _ Hb2. do 2 wp_step. apply wp_bmap_rel. wp_step. apply HQ2; [done|done|].
      intros j Hj. rewrite <-Hsame by done. simpl. rewrite Hb2. by destruct (_ && _).
    + do 2 wp_step. apply wp_bmap_rel. wp_step. apply HQ2; [done|done|].
      intros j Hj. rewrite <-Hsame by done. simpl. by destruct (_ && _).
Qed.
End req_thms.

(** A request to replicate one bmap to the replica [idx].  A bmap
    without a valid copy is skipped ([SLERR_BMAP_ZERO]).  Otherwise a replica
    that is invalid, garbage or already being replicated is queued, everything
    else keeps its state, the new states are written and, when the backend
    logs the write, journaled and handed to the worker; one that is queued or
    valid gives [PFLERR_ALREADY] and one under truncation
    [SLERR_REPL_NOT_ACT], with no state changed. *)
Theorem addrq_one_outcome {D} `{BmapIO D} `{PflErr} cfg nonce ns f idx sys_prio usr_prio (s : mstate D) :
  repls_wf (bmi_repls (ms_b s)) → finfo_ok f → 0 ≤ idx < fi_nrepls f →
  hasf (bcm_flags (ms_b s)) BMAPF_REPLMODWR = false → bmi_wrlocked (ms_b s) = false →
  let v := stat (ms_b s) idx in
  let queue := any_valid f (ms_b s) &&
    bool_decide (v ∈ [BREPLST_INVALID; BREPLST_REPL_SCHED; BREPLST_GARBAGE; BREPLST_GARBAGE_SCHED]) in
  wp (addrq_bmap_one cfg nonce ns f [idx] sys_prio usr_prio) (λ rc s',
    rc = (if negb (any_valid f (ms_b s)) then - SLERR_BMAP_ZERO
          else if queue then 0
          else if bool_decide (v ∈ [BREPLST_REPL_QUEUED; BREPLST_VALID]) then - PFLERR_ALREADY
          else - SLERR_REPL_NOT_ACT) ∧
    (∀ j, 0 ≤ j < 64 →
       stat (ms_b s') j = if decide (j = idx ∧ queue = true) then BREPLST_REPL_QUEUED else stat (ms_b s) j) ∧
    (queue = true → ∃ b', stat b' idx = BREPLST_REPL_QUEUED ∧ states_written f (ms_b s) b' s s')) s.
Proof.
  intros Hwf Hf Hidx Hmod Hunl v queue. pose proof (stat_range _ idx Hwf) as Hr. fold v in Hr.
  apply wp_addrq_one; [done..| | |].
  - intros Hav. unfold queue. rewrite Hav. split_and!; [done| |done].
    intros j _. by rewrite decide_False by (by intros [_ ?]).
  - intros Hav Hmw b' s' Hch Hw. fold v in Hmw. destruct Hch as (_ & _ & _ & _ & Hst).
    assert (Hq : queue = true) by (unfold queue; rewrite Hav; revert Hmw; clear -Hr; clearbody v; by_state v Hr; done).
    assert (Hidx' : tr addrq_tract v = BREPLST_REPL_QUEUED) by (revert Hmw; clear -Hr; clearbody v; by_state v Hr; done).
    split_and!.
    + by rewrite Hav, Hq.
    + intros j Hj. replace (stat (ms_b s') j) with (stat b' j).
      2:{ destruct Hw as (rc0 & nb & lg & _ & Hb & _). rewrite Hb. by destruct lg. }
      rewrite Hst, Hq by done. destruct (decide (j = idx)) as [->|].
      * rewrite decide_True by done. exact Hidx'.
      * by rewrite decide_False by tauto.
    + intros _. exists (b_with_prio b' sys_prio usr_prio). split; [|done].
      destruct Hf as [Hnr _]. unfold SL_MAX_REPLICAS in Hnr.
      change (stat b' idx = BREPLST_REPL_QUEUED). rewrite Hst, decide_True by lia. exact Hidx'.
  - intros Hav Hmw s' Hsame. fold v in Hmw |- *.
    assert (Hq : queue = false) by (unfold queue; rewrite Hav; revert Hmw; clear -Hr; clearbody v; by_state v Hr; done).
    rewrite Hav, Hq. simpl. split_and!.
    + revert Hmw. clear -Hr. clearbody v. by_state v Hr; done.
    + intros j Hj. rewrite Hsame by done. by rewrite decide_False by (by intros [_ ?]).
    + done.
Qed.

Lemma addrq_one_outcome_witness :
  wp (addrq_bmap_one ∅ 1 (λ _, true) MemBmaps.fi [1] 4 5) (λ rc s',
    rc = 0 ∧
    (∀ j, 0 ≤ j < 64 →
       stat (ms_b s') j = if decide (j = 1 ∧ true = true) then BREPLST_REPL_QUEUED else stat ex_bmap j) ∧
    (true = true → ∃ b', stat b' 1 = BREPLST_REPL_QUEUED ∧ states_written MemBmaps.fi ex_bmap b' MemBmaps.st s'))
    MemBmaps.st.
Proof.
  apply (addrq_one_outcome ∅ 1 (λ _, true) MemBmaps.fi 1 4 5 MemBmaps.st).
  - exact ex_bmap_wf.
  - exact MemBmaps.fi_ok.
  - split; [discriminate|reflexivity].
  - reflexivity.
  - reflexivity.
Defined.

(** A request and the worker after it leave the scheduler something to
    find.  Start from a bmap with a valid copy whose pending replicas all have
    rows in the upsch table, and a replica that is not there yet.  When the
    request's write is logged, running the worker that was queued for the bmap
    gives the replica a row, and the bmap is ready for the next change. *)
Theorem addrq_worker_row {D} `{BmapIO D} `{PflErr} cfg nonce ns f n resid sys_prio usr_prio (s : mstate D) :
  repls_wf (bmi_repls (ms_b s)) → finfo_ok f → fi_repls f !! n = Some resid →
  NoDup (fi_repls f) → (∀ resid, resid ∈ fi_repls f → is_Some (libsl_id2res cfg resid)) →
  hasf (bcm_flags (ms_b s)) BMAPF_REPLMODWR = false → bmi_wrlocked (ms_b s) = false →
  any_valid f (ms_b s) = true → addrq_makes_work (stat (ms_b s) (Z.of_nat n)) = true →
  (stat (ms_b s) (Z.of_nat n) = BREPLST_REPL_SCHED →
     is_Some (ms_upsch s !! (resid, fi_fid f, bcm_bmapno (ms_b s)))) →
  (∀ d o c, ∃ rc nb d', pwritev_bmap d (bcm_bmapno (ms_b s)) o c = (rc, nb, true, d')) →
  wp (rc ← addrq_bmap_one cfg nonce ns f [Z.of_nat n] sys_prio usr_prio;
      _ ← slm_wkcb_wr_brepl f cfg nonce ns; mret rc) (λ rc s',
    rc = 0 ∧ is_Some (ms_upsch s' !! (resid, fi_fid f, bcm_bmapno (ms_b s))) ∧
    stat (ms_b s') (Z.of_nat n) = BREPLST_REPL_QUEUED ∧
    hasf (bcm_flags (ms_b s')) BMAPF_REPLMODWR = false ∧ bmi_wrlocked (ms_b s') = false) s.
Proof.
  intros Hwf Hf Hn Hnd Hres Hmod Hunl Hav Hmw Hrow Hlog. assert (Hnr := Hf). destruct Hnr as [Hnr _].
  assert (Hidx : 0 ≤ Z.of_nat n < fi_nrepls f) by (apply lookup_lt_Some in Hn; unfold fi_nrepls; lia).
  wp_step. apply wp_addrq_one; [done..|congruence| |congruence].
  intros _ _ b' s1 Hch (rc0 & nb & lg & Hw & Hb1 & Hu1 & _).
  destruct (Hlog (ms_disk s) (bmi_od (b_with_prio b' sys_prio usr_prio))
    (crc64_bmap (bmi_od (b_with_prio b' sys_prio usr_prio)))) as (rc1 & nb1 & d1 & Hw1).
  rewrite Hw1 in Hw. injection Hw as <- <- <- _.
  destruct Hch as ((Hno & Hfl & Hod & _) & Hwf' & Hlk & Hor & Hst). rewrite Hunl in Hor.
  wp_step. unfold slm_wkcb_wr_brepl. wp_step. wp_step. apply wp_upd_write. simpl. intros s2 Hu2 _ Hb2. wp_step.
  unfold SL_MAX_REPLICAS in Hnr. specialize (Hst (Z.of_nat n) ltac:(lia)). rewrite decide_True in Hst by done.
  assert (Hq : stat b' (Z.of_nat n) = BREPLST_REPL_QUEUED).
  { rewrite Hst. pose proof (stat_range _ (Z.of_nat n) Hwf) as Hr. revert Hmw. clear -Hr.
    by_state (stat (ms_b s) (Z.of_nat n)) Hr; done. }
  rewrite Hb1 in *. simpl in Hu2. split_and!; [done| | | |].
  - rewrite Hu2, Hu1, <-Hno.
    eapply (rows_after_is_some f cfg nonce ns Hnd Hres (b_with_flags (b_with_prio b' sys_prio usr_prio) _)); [done|].
    unfold act_of, upd_action. simpl.
    change (repl_stat (bmi_repls _) (Z.of_nat n)) with (stat b' (Z.of_nat n)). rewrite Hor, Hq.
    change (repl_stat (bmi_repls (ms_b s)) (Z.of_nat n)) with (stat (ms_b s) (Z.of_nat n)). rewrite Hno.
    pose proof (stat_range _ (Z.of_nat n) Hwf) as Hr. by_state (stat (ms_b s) (Z.of_nat n)) Hr; simpl; done || auto.
  - rewrite Hb2. exact Hq.
  - rewrite Hb2. simpl. rewrite hasf_clrf, Z.ldiff_diag. apply hasf_0_r.
  - by rewrite Hb2.
Qed.

Lemma addrq_worker_row_witness :
  let cfg : gmap Z sl_res_type := list_to_map ((λ i, (i, SLREST_STANDALONE_FS)) <$> [10; 11; 12; 13]) in
  wp (rc ← addrq_bmap_one cfg 1 (λ _, true) MemBmaps.fi [Z.of_nat 3] 4 5;
      _ ← slm_wkcb_wr_brepl MemBmaps.fi cfg 1 (λ _, true); mret rc) (λ rc s',
    rc = 0 ∧ is_Some (ms_upsch s' !! (13, 77, 0)) ∧
    stat (ms_b s') (Z.of_nat 3) = BREPLST_REPL_QUEUED ∧
    hasf (bcm_flags (ms_b s')) BMAPF_REPLMODWR = false ∧ bmi_wrlocked (ms_b s') = false) MemBmaps.st.
Proof.
  intros cfg. apply (addrq_worker_row cfg 1 (λ _, true) MemBmaps.fi 3 13 4 5 MemBmaps.st).
  - exact ex_bmap_wf.
  - exact MemBmaps.fi_ok.
  - reflexivity.
  - apply (bool_decide_unpack _). vm_compute. exact I.
  - intros resid Hin. list_cases Hin; rewrite Hin; eexists; reflexivity.
  - reflexivity.
  - reflexivity.
  - reflexivity.
  - reflexivity.
  - intros Hs. vm_compute in Hs. discriminate Hs.
  - intros d o c. eexists _, _, _. reflexivity.
Defined.

(** ** Removal keeps a copy *)
Section del_spec.
Context {D : Type} `{BmapIO D} `{PflErr} (f : finfo).

(** Some valid replica is not among those to be removed. *)
Definition remains_valid (b : bmap) (iosidx : list Z) : bool :=
  existsb (λ j, (stat b j =? BREPLST_VALID) && negb (existsb (λ k, j =? k) iosidx)) (seqZ 0 (fi_nrepls f)).

Lemma countvalid_pos b iosidx l n :
  foldl (λ a k, slm_repl_countvalid_cb iosidx k (stat b k) a) n l
  = n + Z.of_nat (length (filter (λ j, (stat b j =? BREPLST_VALID) && negb (existsb (λ k, j =? k) iosidx) = true) l)).
Proof.
  revert n. induction l as [|j l IH]; intros n; simpl; [lia|]. rewrite IH, filter_cons.
  unfold slm_repl_countvalid_cb. destruct (stat b j =? BREPLST_VALID); cbn [andb negb]; [|by rewrite decide_False by done].
  destruct (existsb _ _); cbn [andb negb]; [by rewrite decide_False by done|].
  rewrite decide_True by done. cbn [length]. lia.
Qed.

(** The counting walk changes nothing but takes the write lock. *)
Lemma wp_delrq_count iosidx (Q : Z → mstate D → Prop) s :
  repls_wf (bmi_repls (ms_b s)) → finfo_ok f → 0 < fi_nrepls f →
  hasf (bcm_flags (ms_b s)) BMAPF_REPLMODWR = false →
  (∀ n b', (n >? 0) = remains_valid (ms_b s) iosidx → same_but_repls (ms_b s) b' →
     repls_wf (bmi_repls b') → bmi_wrlocked b' = true →
     (∀ j, 0 ≤ j < 64 → stat b' j = stat (ms_b s) j) → Q n (ms_with_b s b')) →
  wp (delrq_count f iosidx) Q s.
Proof.
  intros Hwf [Hnr _] Hpos Hmod HQ. unfold delrq_count. wp_step. apply wp_onBcb. unfold mds_repl_bmap_walk_cb.
  unfold SL_MAX_REPLICAS in Hnr. simpl walk_idxs.
  apply wp_walk_tract; [done|apply NoDup_seqZ|apply Forall_forall; intros j Hj%elem_of_seqZ; lia|done|done|
    apply empty_tract_ok|].
  intros b' Hsame Hwf' Hst Hlk. cbn [fst snd]. wp_step. cbn [fst snd]. apply HQ; [|done|done| |].
  - unfold run_cb. rewrite countvalid_pos, Z.add_0_l. unfold remains_valid.
    apply eq_bool_prop_intro. rewrite !Is_true_true, existsb_elem, Z.gtb_lt. split.
    + intros Hl. destruct (filter _ _) as [|j l] eqn:E; [simpl in Hl; lia|]. exists j.
      assert (Hj : j ∈ j :: l) by (by left). rewrite <-E, list_elem_of_filter in Hj. tauto.
    + intros (j & Hj & Hv). destruct (filter _ _) as [|j' l] eqn:E; [|simpl; lia].
      assert (Hin : j ∈ filter (λ j, (stat (ms_b s) j =? BREPLST_VALID) && negb (existsb (λ k, j =? k) iosidx) = true)
                        (seqZ 0 (fi_nrepls f))) by (by apply list_elem_of_filter).
      rewrite E in Hin. by apply elem_of_nil in Hin.
  - destruct (seqZ 0 (fi_nrepls f)) eqn:E; [|apply Hlk]. apply (f_equal length) in E.
    rewrite length_seqZ in E. simpl in E. lia.
  - intros j Hj. rewrite Hst by done. case_decide; [|done].
    pose proof (stat_range _ j Hwf) as Hr. by by_state (stat (ms_b s) j) Hr.
Qed.

(** The states once the replicas [iosidx] are removed. *)
Definition removed (iosidx : list Z) (b b' : bmap) : Prop :=
  ∀ j, 0 ≤ j < 64 → stat b' j = if decide (j ∈ iosidx) then tr delrq_tract (stat b j) else stat b j.

Lemma removed_any_valid iosidx b b' :
  fi_nrepls f ≤ SL_MAX_REPLICAS → remains_valid b iosidx = true → removed iosidx b b' → any_valid f b' = true.
Proof.
  unfold remains_valid, any_valid, SL_MAX_REPLICAS. rewrite !existsb_elem.
  intros Hnr (j & Hj & [Hv Hn]%andb_true_iff) Hrm. exists j. split; [done|]. rewrite elem_of_seqZ in Hj.
  rewrite Hrm by lia. rewrite decide_False; [done|]. intros Hin. apply negb_true_iff in Hn.
  rewrite (proj2 (existsb_elem _ _)) in Hn; [done|]. exists j. split; [done|]. apply Z.eqb_refl.
Qed.

Lemma wp_walk_del r iosidx (Q : Z → mstate D → Prop) s :
  repls_wf (bmi_repls (ms_b s)) → finfo_ok f → iosidx_ok (fi_nrepls f) iosidx → iosidx ≠ [] →
  hasf (bcm_flags (ms_b s)) BMAPF_REPLMODWR = false → bmi_wrlocked (ms_b s) = true →
  (∀ b', same_but_repls (ms_b s) b' → repls_wf (bmi_repls b') → bmi_wrlocked b' = true →
     removed iosidx (ms_b s) b' →
     Q (last_nonzero 0 ((λ k, arr_get r (stat (ms_b s) k)) <$> iosidx)) (ms_with_b s b')) →
  wp (onB (mds_repl_bmap_walk (fi_nrepls f) (Some delrq_tract) (Some r) 0 iosidx)) Q s.
Proof.
  intros Hwf [Hnr _] Hok Hne Hmod Hlk HQ. apply wp_onB.
  apply wp_bmap_walk_tract; [done|done|done|done|done|apply delrq_tract_ok|].
  intros b' Hsame Hwf' Hst Hlk'.
  assert (Hidxs : walk_idxs (fi_nrepls f) 0 iosidx = iosidx) by (by destruct iosidx).
  rewrite Hidxs in *. apply HQ; [done|done| |].
  - destruct iosidx; [done|]. apply Hlk'.
  - intros j Hj. rewrite Hst by done.
    assert (Hs : selected (fi_nrepls f) 0 iosidx j ↔ j ∈ iosidx) by (by destruct iosidx).
    by rewrite (decide_ext _ _ _ _ Hs).
Qed.

Lemma wp_rel_same {A} (a : A) b (Q : A → mstate D → Prop) s :
  (∀ s', (∀ j, stat (ms_b s') j = stat b j) → Q a s') →
  wp (_ ← slm_repl_bmap_rel; mret a) Q (ms_with_b s b).
Proof.
  intros HQ. wp_step. apply wp_bmap_rel. wp_step. apply HQ. intros j. simpl. by destruct (_ && _).
Qed.
End del_spec.

(** C36: a removal request never takes the last valid copy.  For any set of
    replicas to remove from a bmap: when no valid replica would remain, the
    request fails with [SLERR_LASTREPL] and no state changes; otherwise
    exactly the named replicas that were valid, queued or being replicated
    become garbage, or, when none of them was, nothing changes.  Either way a
    bmap that had a valid copy still has one. *)
Theorem delrq_keeps_valid {D} `{BmapIO D} `{PflErr} f iosidx (s : mstate D) :
  repls_wf (bmi_repls (ms_b s)) → finfo_ok f → iosidx_ok (fi_nrepls f) iosidx → iosidx ≠ [] →
  hasf (bcm_flags (ms_b s)) BMAPF_REPLMODWR = false →
  wp (delrq_bmap_one f iosidx) (λ rc s',
    (if remains_valid f (ms_b s) iosidx then removed iosidx (ms_b s) (ms_b s')
     else rc = - SLERR_LASTREPL ∧ ∀ j, 0 ≤ j < 64 → stat (ms_b s') j = stat (ms_b s) j) ∧
    (any_valid f (ms_b s) = true → any_valid f (ms_b s') = true)) s.
Proof.
  intros Hwf Hf Hok Hne Hmod. assert (Hnr := Hf). destruct Hnr as [Hnr _].
  assert (Hpos : 0 < fi_nrepls f).
  { destruct iosidx as [|k l]; [done|]. destruct Hok as (_ & _ & Hall). apply Forall_cons in Hall as [? _]. lia. }
  unfold delrq_bmap_one. wp_step. apply wp_delrq_count; [done..|].
  intros n b1 Hn (Hno1 & Hfl1 & _) Hwf1 Hlk1 Hst1. rewrite Hn. wp_step. 
  destruct (remains_valid f (ms_b s) iosidx) eqn:Hrem.
  - wp_step. apply wp_walk_del; [done|done|done|done|simpl; congruence|done|].
    intros b2 (Hno2 & Hfl2 & _) Hwf2 Hlk2 Hst2. simpl in Hst2.
    assert (Hrm : removed iosidx (ms_b s) b2) by (intros j Hj; rewrite Hst2, Hst1 by done; done).
    pose proof (removed_any_valid f _ _ _ Hnr Hrem Hrm) as Hav.
    assert (Hfin : ∀ s' : mstate D, (∀ j, stat (ms_b s') j = stat b2 j) →
      removed iosidx (ms_b s) (ms_b s') ∧ (any_valid f (ms_b s) = true → any_valid f (ms_b s') = true)).
    { intros s' Hs'. split; [intros j Hj; rewrite Hs'; by apply Hrm|]. intros _.
      unfold any_valid in *. rewrite existsb_elem in *. destruct Hav as (j & Hj & Hv). exists j. by rewrite Hs'. }
    destruct (hasf _ F_LOG).
    + wp_step. apply wp_bmap_write; [done|done|by apply any_valid_has|done|]. intros rc nb lg d' _. wp_step.
      wp_step. apply wp_bmap_rel. wp_step. apply Hfin. intros j. destruct lg; simpl; by destruct (_ && _).
    + wp_step. by apply wp_rel_same.
  - wp_step. apply wp_rel_same. intros s' Hs'. split; [split; [done|]; intros j Hj; rewrite Hs'; by apply Hst1|].
    unfold any_valid. rewrite !existsb_elem. intros (j & Hj & Hv). exists j. split; [done|]. rewrite Hs'.
    rewrite elem_of_seqZ in Hj. unfold SL_MAX_REPLICAS in Hnr. by rewrite Hst1 by lia.
Qed.

Lemma delrq_keeps_valid_witness :
  wp (delrq_bmap_one MemBmaps.fi [0]) (λ rc s',
    (if false then removed [0] ex_bmap (ms_b s')
     else rc = - SLERR_LASTREPL ∧ ∀ j, 0 ≤ j < 64 → stat (ms_b s') j = stat ex_bmap j) ∧
    (true = true → any_valid MemBmaps.fi (ms_b s') = true)) MemBmaps.st.
Proof.
  apply (delrq_keeps_valid MemBmaps.fi [0] MemBmaps.st).
  - exact ex_bmap_wf.
  - exact MemBmaps.fi_ok.
  - apply iosidx_ok_one. split; [discriminate|reflexivity].
  - discriminate.
  - reflexivity.
Defined.

(** ** Whole requests *)

(** A replication request that names two or more I/O systems is always
    refused.  Although every system is known and is added to the file's
    replica table, the request returns [-EINVAL] (by the check for duplicates
    in the lookup) and no bmap of the file is touched. *)
Theorem addrq_several_refused {DI D} `{Mdsio DI} `{BmapIO D} `{PflErr} `{PflMem} `{!MdsioLaws DI}
    cfg nonce ns bmapno iosv sys_prio usr_prio (s : fstate DI D) L js L' :
  fs_type s ≠ FtOther → (2 ≤ length iosv)%nat → Z.of_nat (length iosv) ≤ SL_MAX_REPLICAS →
  table_is (fs_ino s) L → spec_iosv cfg IOSV_LOOKUPF_ADD iosv L = Some (js, L') →
  wp (mds_repl_addrq cfg nonce ns bmapno iosv sys_prio usr_prio)
     (λ rc s', rc = - EINVAL ∧ table_is (fs_ino s') L' ∧ s' = fs_with_ino s (fs_ino s')) s.
Proof.
  intros Hty Hlen Hmax Ht Hspec. unfold mds_repl_addrq. cbv zeta.
  destruct (Z.ltb_spec (Z.of_nat (length iosv)) 1); [lia|].
  destruct (Z.gtb_spec (Z.of_nat (length iosv)) SL_MAX_REPLICAS); [lia|]. cbn [orb]. wp_step. wp_step.
  assert (Hin : ∀ Q, (∀ i, table_is i L' → Q (EINVAL, merge_sort (≤) js) (fs_with_ino s i)) →
    wp (onIno (mds_repl_iosv_lookup_fl cfg iosv IOSV_LOOKUPF_ADD)) Q s).
  { intros Q HQ. pose proof (wp_iosv_lookup cfg iosv IOSV_LOOKUPF_ADD _ L js L' Ht Hspec) as Hwp.
    unfold wp, onIno in *. destruct (mds_repl_iosv_lookup_fl _ _ _ _) as [[r i]|]; [|done].
    destruct Hwp as [-> Hi]. apply Nat.leb_le in Hlen. rewrite Hlen. by apply HQ. }
  destruct (fs_type s); [..|done]; wp_step; apply Hin; intros i Hi; cbn [fst snd]; by wp_step.
Qed.

Module ReqEx.
Definition fs : fstate MemFile.mem MemBmaps.mem :=
  {| fs_fid := 77; fs_type := FtReg; fs_size := 1000; fs_nblks := 2; fs_in_ptrunc := false;
     fs_ino := MemFile.st5; fs_bmaps := {[ 0 := ex_bmap ]}; fs_refs := {[ 0 := 1 ]};
     fs_disk := {| MemBmaps.mb_rec := ∅; MemBmaps.mb_short := false |}; fs_journal := []; fs_workq := [];
     fs_upsch := ∅; fs_upschq := []; fs_paging := ∅ |}.
End ReqEx.

Lemma addrq_several_refused_witness :
  wp (mds_repl_addrq MemFile.cfg1 1 (λ _, true) 0 [12; 15] 0 0)
     (λ rc s', rc = - EINVAL ∧ table_is (fs_ino s') [10; 11; 12; 13; 14; 15] ∧ s' = fs_with_ino ReqEx.fs (fs_ino s'))
     ReqEx.fs.
Proof.
  apply (addrq_several_refused MemFile.cfg1 1 (λ _, true) 0 [12; 15] 0 0 ReqEx.fs
           [10; 11; 12; 13; 14] [2; 5] [10; 11; 12; 13; 14; 15]).
  - discriminate.
  - apply le_n.
  - discriminate.
  - exact MemFile.st5_table.
  - vm_compute. reflexivity.
Defined.

Section cache_spec.
Context {DI D : Type} `{Mdsio DI} `{BmapIO D} `{PflErr} `{PflMem}.
Context (cfg : gmap Z sl_res_type) (nonce : Z).
Abbreviation FS := (fstate DI D).

Definition ref_add (s : FS) (n k : Z) : FS :=
  fs_with_cache s (fs_bmaps s) (<[n := default 0 (fs_refs s !! n) + k]> (fs_refs s)).

Lemma opcnt_ref_add s n k : bcm_opcnt (ref_add s n k) n = bcm_opcnt s n + k.
Proof. unfold bcm_opcnt. simpl. rewrite lookup_insert_eq. simpl. lia. Qed.

Lemma op_done_run s n :
  bmap_op_done n s = Done (tt,
    if bcm_opcnt s n =? 1 then fs_with_cache s (delete n (fs_bmaps s)) (delete n (fs_refs s))
    else ref_add s n (-1)).
Proof.
  unfold bmap_op_done, mbind, M_bind, modifyM, getM, whenM, putM. cbv beta iota.
  change (fs_with_cache s (fs_bmaps s) (<[n := default 0 (fs_refs s !! n) - 1]> (fs_refs s))) with (ref_add s n (-1)).
  rewrite opcnt_ref_add. replace (bcm_opcnt s n + -1 =? 0) with (bcm_opcnt s n =? 1)
    by (destruct (Z.eqb_spec (bcm_opcnt s n) 1), (Z.eqb_spec (bcm_opcnt s n + -1) 0); done || lia).
  destruct (bcm_opcnt s n =? 1); [|done]. simpl. by rewrite delete_insert_eq.
Qed.

Lemma getf_hit replay n w fl s b :
  fs_bmaps s !! n = Some b → hasf (bcm_flags b) (Z.lor BMAPF_INIT BMAPF_MODECHNG) = false →
  hasf fl BMAPGETF_ASYNC = false → bmap_getf cfg nonce replay n w fl s = Done (0, ref_add s n 1).
Proof.
  intros Eb Hfl Has. unfold bmap_getf, bmap_lookup_cache, mbind, M_bind, getM. rewrite Eb, Has. simpl.
  rewrite Eb. unfold wait_until. rewrite Hfl. done.
Qed.
Lemma getf_cached replay n w s b :
  fs_bmaps s !! n = Some b → hasf (bcm_flags b) (Z.lor BMAPF_INIT BMAPF_MODECHNG) = false →
  bmap_getf cfg nonce replay n (Some w) BMAPGETF_CREATE s = Done (0, ref_add s n 1).
Proof. intros. by eapply getf_hit. Qed.

(** Dropping the reference of a lookup when others remain. *)
Lemma op_done_ref s n ref :
  fs_refs s !! n = Some ref → 1 < ref → bmap_op_done n s = Done (tt, ref_add s n (-1)).
Proof.
  intros Hr Hlt. rewrite op_done_run. destruct (Z.eqb_spec (bcm_opcnt s n) 1) as [Hc|]; [|done].
  unfold bcm_opcnt in Hc. rewrite Hr in Hc. cbn in Hc. lia.
Qed.
Lemma ref_add_back (s : FS) n ref : fs_refs s !! n = Some ref → ref_add (ref_add s n 1) n (-1) = s.
Proof.
  intros Hr. destruct s. unfold ref_add, fs_with_cache. cbn in *. f_equal. rewrite Hr, lookup_insert_eq, insert_insert_eq. cbn.
  replace (ref + 1 + -1) with ref by lia. by apply insert_id.
Qed.

Lemma onBmap_modB n g (s : FS) b :
  fs_bmaps s !! n = Some b →
  onBmap n (λ _, modB g) s = Done (tt, fs_with_cache s (<[n := g b]> (fs_bmaps s)) (fs_refs s)).
Proof. intros Eb. unfold onBmap. by rewrite Eb. Qed.

(** The state of a file whose bmap [n] has just been loaded as [m]. *)
Definition loaded (s : FS) (n : Z) (m : mstate D) : FS :=
  let s1 := ref_add s n 1 in
  fs_with_cache (of_ms s1 n m)
    (<[n := b_with_flags (ms_b m) (clrf (bcm_flags (ms_b m)) BMAPF_INIT)]> (fs_bmaps s)) (fs_refs s1).

Lemma getf_new replay n w s rc m :
  fs_bmaps s !! n = None →
  mds_bmap_read (finfo_of s) replay cfg nonce BMAPGETF_CREATE
    (to_ms s (b_with_flags (bmap_new n)
       (setf BMAPF_INIT (match w with SL_WRITE => BMAPF_WR | SL_READ => BMAPF_RD end)))) = Done (rc, m) →
  bmap_getf cfg nonce replay n (Some w) BMAPGETF_CREATE s =
  (_ ← whenM (negb (rc =? 0)) (bmap_op_done n); mret rc) (loaded s n m).
Proof.
  intros Eb Hread. unfold bmap_getf, bmap_lookup_cache, mbind, M_bind, getM. rewrite Eb. simpl.
  unfold or_flags. rewrite (onBmap_modB n _ _ (bmap_new n)) by (simpl; by rewrite lookup_insert_eq).
  cbn beta iota. unfold onBmap at 1. simpl. rewrite lookup_insert_eq.
  change (finfo_of _) with (finfo_of s) at 1.
  match goal with |- context [mds_bmap_read ?f ?r ?c ?no ?fl ?st] =>
    change (mds_bmap_read f r c no fl st) with (mds_bmap_read (finfo_of s) r c no fl
      (to_ms s (b_with_flags (bmap_new n)
       (setf BMAPF_INIT (match w with SL_WRITE => BMAPF_WR | SL_READ => BMAPF_RD end))))) end.
  rewrite Hread. unfold clr_flags. erewrite onBmap_modB by (simpl; by rewrite lookup_insert_eq).
  cbn beta iota. unfold mret, M_ret. cbn beta iota.
  match goal with |- context [whenM _ _ ?x] => replace x with (loaded s n m); [done|] end.
  unfold loaded, ref_add, fs_with_cache, of_ms. simpl. by rewrite !insert_insert_eq.
Qed.
End cache_spec.

(** References to cached bmaps balance.  Looking a bmap up (loading it
    if need be) and dropping the reference leaves the cache of the file as it
    was: a bmap that others hold stays with its count, one that was loaded for
    this lookup is freed, whether the load succeeded or failed. *)
Theorem bmap_get_done_balanced {DI D} `{Mdsio DI} `{BmapIO D} `{PflErr} `{PflMem}
    cfg nonce (replay : bool) n w (s : fstate DI D) :
  match fs_bmaps s !! n with
  | Some b => hasf (bcm_flags b) (Z.lor BMAPF_INIT BMAPF_MODECHNG) = false ∧
              ∃ r, fs_refs s !! n = Some r ∧ 0 < r
  | None => fs_refs s !! n = None ∧ bcm_opcnt s n = 0 ∧
            ∃ rc m, mds_bmap_read (finfo_of s) replay cfg nonce BMAPGETF_CREATE
                      (to_ms s (b_with_flags (bmap_new n)
                         (setf BMAPF_INIT (match w with SL_WRITE => BMAPF_WR | SL_READ => BMAPF_RD end))))
                    = Done (rc, m) ∧ ms_workq m = fs_workq s ∧ ms_upschq m = fs_upschq s
  end →
  wp (rc ← bmap_getf cfg nonce replay n (Some w) BMAPGETF_CREATE;
      _ ← whenM (rc =? 0) (bmap_op_done n); mret rc)
     (λ _ s', fs_bmaps s' = fs_bmaps s ∧ fs_refs s' = fs_refs s) s.
Proof.
  intros Hc. destruct (fs_bmaps s !! n) as [b|] eqn:Eb.
  - destruct Hc as (Hfl & r & Hr & Hpos). unfold wp, mbind, M_bind. rewrite (getf_cached _ _ _ _ _ _ _ Eb Hfl).
    simpl. rewrite op_done_run, opcnt_ref_add.
    destruct (Z.eqb_spec (bcm_opcnt s n + 1) 1) as [E|_]; [unfold bcm_opcnt in E; rewrite Hr in E; simpl in E; lia|].
    simpl. rewrite Hr, lookup_insert_eq. simpl. rewrite insert_insert_eq.
    replace (r + 1 + -1) with r by lia. by rewrite insert_id.
  - destruct Hc as (Hr & Hcnt & rc & m & Hread & Hwq & Huq).
    unfold wp, mbind at 1, M_bind at 1. rewrite (getf_new _ _ _ _ _ _ _ _ Eb Hread).
    assert (Hdone : bmap_op_done n (loaded s n m) = Done (tt, fs_with_cache (loaded s n m) (fs_bmaps s) (fs_refs s))).
    { rewrite op_done_run. replace (bcm_opcnt (loaded s n m) n) with (bcm_opcnt s n + 1).
      2:{ unfold bcm_opcnt. simpl. rewrite Hwq, Huq, lookup_insert_eq, Hr. simpl. lia. }
      rewrite Hcnt. simpl. rewrite !delete_insert_eq, !delete_id by done. done. }
    unfold mbind, M_bind. destruct (rc =? 0) eqn:Erc; simpl.
    + rewrite Erc. simpl. by rewrite Hdone.
    + rewrite Hdone. simpl. by rewrite Erc.
Qed.

Lemma bmap_get_done_balanced_witness :
  wp (rc ← bmap_getf ∅ 1 true 5 (Some SL_WRITE) BMAPGETF_CREATE;
      _ ← whenM (rc =? 0) (bmap_op_done 5); mret rc)
     (λ _ s', fs_bmaps s' = fs_bmaps ReqEx.fs ∧ fs_refs s' = fs_refs ReqEx.fs) ReqEx.fs.
Proof.
  apply (bmap_get_done_balanced ∅ 1 true 5 SL_WRITE ReqEx.fs).
  vm_compute. split; [reflexivity|]. split; [reflexivity|]. eexists _, _. repeat split.
Defined.
