(* ===== verification/Replay.v ===== *)
(** * The journal: updates that are logged and their replay
      ([slashd/jreplay.c], [mds_bmap_crc_update] of [slashd/bmap_mds.c],
      [mdslogfill_ino_repls] of [slashd/mdslog.c]) *)
From S2P Require Import Prelude ReplBits Inode ReplWalk BmapMds ReplMds ReplReq.

(** ** Inode records *)
Record slmds_jent_ino_repls := {
  sjir_fid : Z;
  sjir_replpol : Z;
  sjir_nrepls : Z;
  sjir_repls : list Z;
}.
Definition FID_ANY : Z := 2 ^ 64 - 1.

Definition ino_with_table (i : slm_ino_od) (pol nr : Z) (l : list Z) : slm_ino_od :=
  {| ino_version := ino_version i; ino_flags := ino_flags i; ino_bsz := ino_bsz i; ino_nrepls := nr;
     ino_replpol := pol; ino_repls := l; ino_repl_nblks := ino_repl_nblks i |}.

Section ino.
Context {D : Type} `{Mdsio D} `{PflErr} `{PflMem}.
Abbreviation IM := (M (inost (D := D))).

(** [mdslogfill_ino_repls]; [buf] is what the journal buffer held in the
    slots that are not filled. *)
Definition mdslogfill_ino_repls (fid : Z) (isdir : bool) (buf : list Z) : IM slmds_jent_ino_repls :=
  s ← getM;
  let ino := inoh_ino (st_ih s) in
  _ ← whenM (negb isdir) (psc_assert (negb (ino_nrepls ino =? 0)));
  rest ← (if ino_nrepls ino >? SL_DEF_REPLICAS then
            match inoh_extras (st_ih s) with
            | None => stuckM NullDeref
            | Some ix => mret (inox_repls ix)
            end
          else mret buf);
  mret {| sjir_fid := fid; sjir_replpol := ino_replpol ino; sjir_nrepls := ino_nrepls ino;
          sjir_repls := ino_repls ino ++ rest |}.

(** [mds_replay_ino] with [I_REPLAY_OP_REPLS], once the file is found. *)
Definition mds_replay_ino (isdir : bool) (r : slmds_jent_ino_repls) : IM Z :=
  if sjir_fid r =? FID_ANY then mret EINVAL else
  _ ← whenM (negb isdir)
        (psc_assert (existsb (λ j, negb (arr_get (sjir_repls r) j =? 0)) (seqZ 0 SL_MAX_REPLICAS)));
  _ ← psc_assert (sjir_nrepls r <=? SL_MAX_REPLICAS);
  rc ← (if sjir_nrepls r >? SL_DEF_REPLICAS then
          _ ← mds_inox_ensure_loaded;
          s ← getM;
          match inoh_extras (st_ih s) with
          | None => stuckM NullDeref
          | Some ix =>
              _ ← putM (set_ih s (inoh_with_extras (st_ih s)
                    (Some (inox_with_repls ix
                      (take (Z.to_nat SL_INOX_NREPLICAS) (drop (Z.to_nat SL_DEF_REPLICAS) (sjir_repls r)))))));
              mds_inox_write
          end
        else mret 0);
  if negb (rc =? 0) then mret rc else
  s ← getM;
  _ ← putM (set_ih s (inoh_with_ino (st_ih s)
        (ino_with_table (inoh_ino (st_ih s)) (sjir_replpol r) (sjir_nrepls r)
           (take (Z.to_nat SL_DEF_REPLICAS) (sjir_repls r)))));
  mds_inode_write.

(** [fcmh_2_repl_nblks], [fcmh_set_repl_nblks] *)
Definition fcmh_2_repl_nblks (idx : Z) : IM Z :=
  s ← getM;
  if idx <? SL_DEF_REPLICAS then mret (arr_get (ino_repl_nblks (inoh_ino (st_ih s))) idx) else
  _ ← mds_inox_ensure_loaded;
  s ← getM;
  match inoh_extras (st_ih s) with
  | None => stuckM NullDeref
  | Some ix => mret (arr_get (inox_repl_nblks ix) (idx - SL_DEF_REPLICAS))
  end.
Definition fcmh_set_repl_nblks (idx n : Z) : IM unit :=
  s ← getM;
  if idx <? SL_DEF_REPLICAS then
    let i := inoh_ino (st_ih s) in
    putM (set_ih s (inoh_with_ino (st_ih s)
      {| ino_version := ino_version i; ino_flags := ino_flags i; ino_bsz := ino_bsz i;
         ino_nrepls := ino_nrepls i; ino_replpol := ino_replpol i; ino_repls := ino_repls i;
         ino_repl_nblks := arr_set (ino_repl_nblks i) idx n |}))
  else
    _ ← mds_inox_ensure_loaded;
    s ← getM;
    match inoh_extras (st_ih s) with
    | None => stuckM NullDeref
    | Some ix =>
        putM (set_ih s (inoh_with_extras (st_ih s)
          (Some {| inox_snaps := inox_snaps ix; inox_repls := inox_repls ix;
                   inox_repl_nblks := arr_set (inox_repl_nblks ix) (idx - SL_DEF_REPLICAS) n |})))
    end.
End ino.

(** ** CRC updates *)

(** The loop that stores the CRCs; [st] computes the new sliver state. *)
Definition store_crcs (st : Z → Z) (l : list srt_bmap_crcwire) (o : bmap_ondisk) : bmap_ondisk :=
  foldl (λ o c, {| bod_crcstates := arr_set (bod_crcstates o) (slot c) (st (arr_get (bod_crcstates o) (slot c)));
                   bod_repls := bod_repls o;
                   bod_crcs := arr_set (bod_crcs o) (slot c) (crc c);
                   bod_gen := bod_gen o; bod_replpol := bod_replpol o |}) o l.
(** The slots index the arrays of [SLASH_CRCS_PER_BMAP] entries. *)
Definition slots_ok (l : list srt_bmap_crcwire) : bool :=
  forallb (λ c, (0 <=? slot c) && (slot c <? SLASH_CRCS_PER_BMAP)) l.
Definition SLVR_DATA_CRC : Z := Z.lor BMAP_SLVR_DATA BMAP_SLVR_CRC.

Section upd.
Context {DI D : Type} `{Mdsio DI} `{BmapIO D} `{PflErr} `{PflMem}.
Context (cfg : gmap Z sl_res_type) (nonce : Z) (preclaim_notsup : Z → bool).
Abbreviation FM := (M (fstate DI D)).

Definition set_size_nblks (sz : option Z) (nb : Z) : FM unit := modifyM (λ s,
  {| fs_fid := fs_fid s; fs_type := fs_type s; fs_size := default (fs_size s) sz; fs_nblks := nb;
     fs_in_ptrunc := fs_in_ptrunc s; fs_ino := fs_ino s; fs_bmaps := fs_bmaps s;
     fs_refs := fs_refs s; fs_disk := fs_disk s; fs_journal := fs_journal s; fs_workq := fs_workq s;
     fs_upsch := fs_upsch s; fs_upschq := fs_upschq s; fs_paging := fs_paging s |}).

(** The part of [mds_bmap_crc_update] after the block counts: the other
    replicas are invalidated, the CRCs stored, everything written. *)
Definition crc_update_bmap (idx iosid : Z) (u : srm_bmap_crcup) (f : finfo) : M (mstate D) Z :=
  r ← mds_repl_inv_except_fl f idx true;
  _ ← (if negb (r =? 0) then _ ← mds_bmap_write f LogBmapRepls; mret tt
       else modB (λ b, b_with_wrlocked b false));
  _ ← (if slots_ok (crcs u) then mret tt else stuckM OutOfBounds);
  _ ← modB (λ b, b_with_wrlocked (b_with_od b (store_crcs (λ _, SLVR_DATA_CRC) (crcs u) (bmi_od b))) true);
  mds_bmap_write f (LogBmapCrc iosid u).

(** [mds_bmap_crc_update] of the cached bmap [n]; [vfs_rc] is the result of
    [slfid_to_vfsid], [same_vfs] says whether the file is in the current
    file system and [setattr_rc] is the result of [mds_fcmh_setattr_nolog]. *)
Definition mds_bmap_crc_update (vfs_rc : Z) (same_vfs : bool) (setattr_rc n iosid : Z) (u : srm_bmap_crcup) : FM Z :=
  _ ← onBmap n (λ _, s ← getM; psc_assert (hasf (bcm_flags (ms_b s)) BMAPF_CRC_UP));
  if negb (vfs_rc =? 0) then mret (- vfs_rc) else
  if negb same_vfs then mret EINVAL else
  idx ← onIno (mds_repl_ios_lookup_fl cfg iosid 0);
  _ ← psc_assert (negb (idx <? 0));
  old ← onIno (fcmh_2_repl_nblks idx);
  _ ← whenM (negb (nblks u =? old))
        (s ← getM;
         _ ← onIno (fcmh_set_repl_nblks idx (nblks u));
         _ ← whenM (setattr_rc =? 0) (set_size_nblks None (u64 (fs_nblks s + nblks u - old)));
         _ ← onIno (if idx >=? SL_DEF_REPLICAS then mds_inox_write else mds_inode_write);
         mret tt);
  onBmap n (crc_update_bmap idx iosid u).

(** ** Replay *)

(** [B_REPLAY_OP_REPLS], on a bmap that is loaded. *)
Definition insert_pending (f : finfo) : M (mstate D) unit :=
  s ← getM;
  forM (filter (λ p : Z * Z, let v := stat (ms_b s) p.1 in
                  v = BREPLST_REPL_QUEUED ∨ v = BREPLST_GARBAGE)
          (zip (seqZ 0 (fi_nrepls f)) (fi_repls f)))
    (λ p, slm_upsch_insert f cfg nonce p.2 0 0).

Definition replay_repls (r : slmds_jent_bmap_repls) (f : finfo) : M (mstate D) unit :=
  _ ← (match mds_brepls_check (sjbr_repls r) (sjbr_nrepls r) with
       | Done _ => mret tt
       | Stuck w => stuckM w
       end);
  _ ← onB (mds_repl_bmap_walk_all (fi_nrepls f) (Some (brepls_init (-1))) None 0);
  _ ← modB (λ b, {| bcm_bmapno := bcm_bmapno b; bcm_flags := bcm_flags b;
                    bmi_od := {| bod_crcstates := bod_crcstates (bmi_od b); bod_repls := sjbr_repls r;
                                 bod_crcs := bod_crcs (bmi_od b); bod_gen := bod_gen (bmi_od b);
                                 bod_replpol := sjbr_replpol r |};
                    bmi_orepls := bmi_repls b; bmi_sys_prio := bmi_sys_prio b;
                    bmi_usr_prio := bmi_usr_prio b; bmi_wrlocked := bmi_wrlocked b |});
  _ ← onB (mds_repl_bmap_walk_all (fi_nrepls f) (Some unsched_tract) None 0);
  _ ← modB (λ b, b_with_flags b (setf (bcm_flags b) BMAPF_REPLMODWR));
  _ ← slm_repl_upd_write f cfg nonce preclaim_notsup true;
  insert_pending f.

(** [mds_replay_bmap] with [B_REPLAY_OP_REPLS]. *)
Definition mds_replay_bmap_repls (r : slmds_jent_bmap_repls) : FM Z :=
  rc ← bmap_getf cfg nonce true (sjbr_bmapno r) (Some SL_WRITE) BMAPGETF_CREATE;
  if negb (rc =? 0) then mret rc else
  rc ← onBmap (sjbr_bmapno r) (λ f, _ ← replay_repls r f; mds_bmap_write f LogNone);
  _ ← bmap_op_done (sjbr_bmapno r);
  mret rc.

(** [mds_replay_bmap] with [B_REPLAY_OP_CRC]; [setattr_rc] is the result of
    [mds_fcmh_setattr_nolog]. *)
Definition mds_replay_bmap_crc (setattr_rc : Z) (r : slmds_jent_bmap_crc) : FM Z :=
  rc ← bmap_getf cfg nonce true (sjbc_bmapno r) (Some SL_WRITE) BMAPGETF_CREATE;
  if negb (rc =? 0) then mret rc else
  idx ← onIno (mds_repl_ios_lookup_fl cfg (sjbc_iosid r) 0);
  rc ← (if idx <? 0 then mret 0 else
        _ ← onIno (fcmh_set_repl_nblks idx (sjbc_repl_nblks r));
        rc ← onIno (if idx >=? SL_DEF_REPLICAS then mds_inox_write else mds_inode_write);
        if negb (rc =? 0) then mret rc else
        _ ← whenM (setattr_rc =? 0)
              (set_size_nblks (if negb (sjbc_extend r =? 0) then Some (sjbc_fsize r) else None)
                 (sjbc_aggr_nblks r));
        if negb (setattr_rc =? 0) then mret setattr_rc else
        onBmap (sjbc_bmapno r) (λ f,
          _ ← (if slots_ok (sjbc_crc r) then mret tt else stuckM OutOfBounds);
          _ ← modB (λ b, b_with_od b (store_crcs (λ st, setf st SLVR_DATA_CRC) (sjbc_crc r) (bmi_od b)));
          mds_bmap_write f LogNone));
  _ ← bmap_op_done (sjbc_bmapno r);
  mret rc.
End upd.

(** [mds_replay_bmap_seq]: the sequence number marks of the cursor only go
    up. *)
Record cursor := { pjc_seqno_hwm : Z; pjc_seqno_lwm : Z }.
Record slmds_jent_bmapseq := { sjbsq_high_wm : Z; sjbsq_low_wm : Z }.
Definition mds_replay_bmap_seq (c : cursor) (r : slmds_jent_bmapseq) : cursor :=
  {| pjc_seqno_hwm := if pjc_seqno_hwm c <? sjbsq_high_wm r then sjbsq_high_wm r else pjc_seqno_hwm c;
     pjc_seqno_lwm := if pjc_seqno_lwm c <? sjbsq_low_wm r then sjbsq_low_wm r else pjc_seqno_lwm c |}.

(** ** Storing CRCs *)

(** The last CRC a batch has for sliver [i]. *)
Definition last_crc (l : list srt_bmap_crcwire) (i : Z) : option Z :=
  foldl (λ o c, if slot c =? i then Some (crc c) else o) None l.

Lemma last_crc_app l c i : last_crc (l ++ [c]) i = if slot c =? i then Some (crc c) else last_crc l i.
Proof. unfold last_crc. by rewrite foldl_app. Qed.

Lemma store_crcs_app st l c o :
  store_crcs st (l ++ [c]) o =
  (let o := store_crcs st l o in
   {| bod_crcstates := arr_set (bod_crcstates o) (slot c) (st (arr_get (bod_crcstates o) (slot c)));
      bod_repls := bod_repls o; bod_crcs := arr_set (bod_crcs o) (slot c) (crc c);
      bod_gen := bod_gen o; bod_replpol := bod_replpol o |}).
Proof. unfold store_crcs. by rewrite foldl_app. Qed.

Lemma store_crcs_frame st l o :
  bod_repls (store_crcs st l o) = bod_repls o ∧ bod_gen (store_crcs st l o) = bod_gen o ∧
  bod_replpol (store_crcs st l o) = bod_replpol o ∧
  length (bod_crcs (store_crcs st l o)) = length (bod_crcs o) ∧
  length (bod_crcstates (store_crcs st l o)) = length (bod_crcstates o).
Proof.
  induction l as [|c l IH] using rev_ind; [done|]. rewrite store_crcs_app. simpl.
  unfold arr_set. rewrite !length_insert. done.
Qed.

Lemma store_crcs_lookup st l o i :
  Forall (λ c, 0 ≤ slot c < Z.of_nat (length (bod_crcs o))) l → (i < length (bod_crcs o))%nat →
  bod_crcs (store_crcs st l o) !! i =
  match last_crc l (Z.of_nat i) with Some c => Some c | None => bod_crcs o !! i end.
Proof.
  intros Hall Hi. induction l as [|c l IH] using rev_ind; [done|].
  apply Forall_app in Hall as [Hall Hc]. rewrite Forall_singleton in Hc.
  rewrite store_crcs_app, last_crc_app. simpl. unfold arr_set.
  destruct (Z.eqb_spec (slot c) (Z.of_nat i)) as [E|E].
  - rewrite E, Nat2Z.id. apply list_lookup_insert_eq. by rewrite (proj1 (proj2 (proj2 (proj2 (store_crcs_frame st l o))))).
  - rewrite list_lookup_insert_ne by lia. by apply IH.
Qed.

Definition is_crc_entry (e : jent) : bool := match e with MDS_LOG_BMAP_CRC _ => true | _ => false end.

Lemma slots_ok_spec l : slots_ok l = true ↔ Forall (λ c, 0 ≤ slot c < SLASH_CRCS_PER_BMAP) l.
Proof.
  unfold slots_ok. rewrite forallb_forall, Forall_forall. setoid_rewrite list_elem_of_In. setoid_rewrite andb_true_iff.
  setoid_rewrite Z.leb_le. by setoid_rewrite Z.ltb_lt.
Qed.

(** The bmap and the server after a CRC update from the valid replica [idx];
    [lg] says whether the backend called the log function. *)
Definition crc_post {D} `{BmapIO D} `{PflErr} (f : finfo) (idx : Z) (u : srm_bmap_crcup) (s s' : mstate D) (rc : Z) (lg : bool) : Prop :=
  let b := ms_b s in let b' := ms_b s' in
  repls_wf (bmi_repls b') ∧ bcm_bmapno b' = bcm_bmapno b ∧ bod_replpol (bmi_od b') = bod_replpol (bmi_od b) ∧
  bcm_flags b' = (if lg then clrf (bcm_flags b) BMAPF_CRC_UP else bcm_flags b) ∧
  (∀ j, 0 ≤ j < 64 → stat b' j = if decide (0 ≤ j < fi_nrepls f) then inv_stat (bod_replpol (bmi_od b)) idx j (stat b j) else stat b j) ∧
  length (bod_crcs (bmi_od b')) = length (bod_crcs (bmi_od b)) ∧
  (∀ i, (i < length (bod_crcs (bmi_od b)))%nat → bod_crcs (bmi_od b') !! i =
     match last_crc (crcs u) (Z.of_nat i) with Some c => Some c | None => bod_crcs (bmi_od b) !! i end) ∧
  (∃ rc0 nb, pwritev_bmap (ms_disk s) (bcm_bmapno b) (bmi_od b') (crc64_bmap (bmi_od b')) = (rc0, nb, lg, ms_disk s') ∧
     rc = if (rc0 =? 0) && negb (nb =? BMAP_OD_SZ) then SLERR_SHORTIO else rc0) ∧
  (∃ es, ms_journal s' = es ++ ms_journal s ∧ Forall (λ e, is_crc_entry e = true) es) ∧
  ms_workq s' = ms_workq s ∧ ms_upsch s' = ms_upsch s ∧ ms_upschq s' = ms_upschq s ∧ ms_paging s' = ms_paging s.

Lemma wp_crc_update_bmap {D} `{BmapIO D} `{PflErr} f idx iosid u (Q : Z → mstate D → Prop) s :
  repls_wf (bmi_repls (ms_b s)) → finfo_ok f → 0 ≤ idx < fi_nrepls f →
  hasf (bcm_flags (ms_b s)) BMAPF_REPLMODWR = false → hasf (bcm_flags (ms_b s)) BMAPF_CRC_UP = true →
  stat (ms_b s) idx = BREPLST_VALID → Z.of_nat (length (bod_crcs (bmi_od (ms_b s)))) = SLASH_CRCS_PER_BMAP →
  Forall (λ c, 0 ≤ slot c < SLASH_CRCS_PER_BMAP) (crcs u) →
  (∀ rc lg s', crc_post f idx u s s' rc lg → Q rc s') →
  wp (crc_update_bmap idx iosid u f) Q s.
Proof.
  intros Hwf Hf Hidx Hmod Hup Hact Hlen Hslots HQ. assert (Hnr := Hf). destruct Hnr as [Hnr _]. unfold SL_MAX_REPLICAS in Hnr.
  unfold crc_update_bmap, mds_repl_inv_except_fl. wp_step. wp_step. apply wp_inv_walks; [done..|].
  intros b1 (Hwf1 & Hfl1 & Hno1 & Hlk1 & Hpol1 & Hst1 & Hgen1 & Hcrcs1 & _). cbn beta iota. wp_step. rewrite Hact.
  change (negb (arr_get inv_active_retifset BREPLST_VALID =? 0)) with false. cbv iota.
  wp_step. unfold modB at 1. wp_step. wp_step. rewrite (proj2 (slots_ok_spec _) Hslots). wp_step. wp_step. unfold modB. wp_step.
  set (b2 := b_with_wrlocked (b_with_od (b_with_wrlocked b1 false)
    (store_crcs (λ _, SLVR_DATA_CRC) (crcs u) (bmi_od b1))) true).
  destruct (store_crcs_frame (λ _, SLVR_DATA_CRC) (crcs u) (bmi_od b1)) as (Er & _ & Ep & El & _).
  assert (Hst2 : ∀ j, stat b2 j = stat b1 j) by (intros j; unfold stat, bmi_repls; simpl; by rewrite Er).
  assert (Hv : stat b1 idx = BREPLST_VALID).
  { rewrite Hst1, decide_True by lia. unfold inv_stat. rewrite decide_True by done. by rewrite Hact. }
  change (ms_with_b _ _) with (ms_with_b s b2). apply wp_bmap_write.
  - unfold bmi_repls. simpl. by rewrite Er.
  - done.
  - exists idx. split; [done|]. simpl. by rewrite Hst2, Hv.
  - simpl. by rewrite Hfl1.
  - intros rc nb lg d' Hw. simpl in Hw. rewrite Hno1 in Hw. apply (HQ _ lg).
    set (s' := after_log f (LogBmapCrc iosid u) lg (on_disk (ms_with_b s b2) d')).
    assert (Hod : bmi_od (ms_b s') = bmi_od b2) by (by destruct lg).
    assert (Hst' : ∀ j, stat (ms_b s') j = stat b1 j) by (intros j; rewrite <-Hst2; unfold stat, bmi_repls; by rewrite Hod).
    unfold crc_post. split_and!; try (by destruct lg).
    + unfold bmi_repls. rewrite Hod. simpl. by rewrite Er.
    + rewrite Hod. simpl. by rewrite Ep.
    + destruct lg; simpl; by rewrite Hfl1.
    + intros j Hj. by rewrite Hst', Hst1.
    + rewrite Hod. simpl. by rewrite El, Hcrcs1.
    + intros i Hi. rewrite Hod. simpl. rewrite <-Hcrcs1 in *. apply store_crcs_lookup; [|done]. by rewrite Hlen.
    + exists rc, nb. rewrite Hod. by destruct lg.
    + destruct lg; simpl; [|by exists []]. eexists. split; [done|]. apply Forall_reverse, Forall_fmap, Forall_forall. done.
Qed.

(** What a CRC update from an I/O system does to the bmap, in the normal
    case that the replica it comes from is valid.  Every CRC of the batch is
    stored in its sliver (the last one wins) and nothing else of the CRC table
    changes; the other replicas are invalidated as in
    [inv_except_sole_valid]; the bmap is written; the only journal entries are
    those of the CRCs: although the states of other replicas may have changed,
    no entry for the states is logged and no worker is queued that would bring
    the change to the upsch table.  (The comment before [_mds_repl_inv_except]
    requires its callers to log the states.) *)
Theorem crc_update_effect {D} `{BmapIO D} `{PflErr} f idx iosid u (s : mstate D) :
  repls_wf (bmi_repls (ms_b s)) → finfo_ok f → 0 ≤ idx < fi_nrepls f →
  hasf (bcm_flags (ms_b s)) BMAPF_REPLMODWR = false → hasf (bcm_flags (ms_b s)) BMAPF_CRC_UP = true →
  stat (ms_b s) idx = BREPLST_VALID → Z.of_nat (length (bod_crcs (bmi_od (ms_b s)))) = SLASH_CRCS_PER_BMAP →
  Forall (λ c, 0 ≤ slot c < SLASH_CRCS_PER_BMAP) (crcs u) →
  wp (crc_update_bmap idx iosid u f) (λ rc s',
    (∀ i, (i < length (bod_crcs (bmi_od (ms_b s))))%nat → bod_crcs (bmi_od (ms_b s')) !! i =
       match last_crc (crcs u) (Z.of_nat i) with Some c => Some c | None => bod_crcs (bmi_od (ms_b s)) !! i end) ∧
    (∀ j, 0 ≤ j < fi_nrepls f →
       stat (ms_b s') j = inv_stat (bod_replpol (bmi_od (ms_b s))) idx j (stat (ms_b s) j)) ∧
    (∃ rc0 nb lg, pwritev_bmap (ms_disk s) (bcm_bmapno (ms_b s)) (bmi_od (ms_b s'))
       (crc64_bmap (bmi_od (ms_b s'))) = (rc0, nb, lg, ms_disk s')) ∧
    (∃ es, ms_journal s' = es ++ ms_journal s ∧ Forall (λ e, is_crc_entry e = true) es) ∧
    ms_workq s' = ms_workq s ∧ ms_upsch s' = ms_upsch s) s.
Proof.
  intros Hwf Hf Hidx Hmod Hup Hact Hlen Hslots. apply wp_crc_update_bmap; [done..|].
  intros rc lg s' (_ & _ & _ & _ & Hst & _ & Hcrc & (rc0 & nb & Hw & _) & Hj & Hq & Hu & _).
  split_and!; [done| |by exists rc0, nb, lg|done..].
  intros j Hjr. destruct Hf as [Hf _]. unfold SL_MAX_REPLICAS in Hf. by rewrite Hst, decide_True by lia.
Qed.

Lemma crc_update_effect_witness :
  let u := {| fsize := 9; nblks := 1; utimgen := 0; extend := 0;
              crcs := [{| crc := 5; slot := 2 |}; {| crc := 6; slot := 2 |}] |} in
  let s := ms_with_b MemBmaps.st (b_with_flags ex_bmap BMAPF_CRC_UP) in
  wp (crc_update_bmap 0 10 u MemBmaps.fi) (λ rc s',
    (∀ i, (i < 128)%nat → bod_crcs (bmi_od (ms_b s')) !! i =
       match last_crc (crcs u) (Z.of_nat i) with Some c => Some c | None => replicate 128 0 !! i end) ∧
    (∀ j, 0 ≤ j < 4 → stat (ms_b s') j = inv_stat 0 0 j (stat (ms_b s) j)) ∧
    (∃ rc0 nb lg, pwritev_bmap (ms_disk s) 0 (bmi_od (ms_b s')) (crc64_bmap (bmi_od (ms_b s')))
       = (rc0, nb, lg, ms_disk s')) ∧
    (∃ es, ms_journal s' = es ++ ms_journal s ∧ Forall (λ e, is_crc_entry e = true) es) ∧
    ms_workq s' = [] ∧ ms_upsch s' = ∅) s.
Proof.
  intros u s. apply (crc_update_effect MemBmaps.fi 0 10 u s).
  - exact ex_bmap_wf.
  - exact MemBmaps.fi_ok.
  - split; [discriminate|reflexivity].
  - reflexivity.
  - reflexivity.
  - reflexivity.
  - reflexivity.
  - apply List.Forall_cons; [split; [discriminate|reflexivity]|].
    apply List.Forall_cons; [split; [discriminate|reflexivity]|apply List.Forall_nil].
Defined.

(** ** Replaying replica states *)
Lemma brepls_check_loop_ok repls n k j :
  (k ≤ j < k + n)%nat → brepls_ok (repl_stat repls (Z.of_nat j)) = true →
  brepls_check_loop repls n (Z.of_nat k * SL_BITS_PER_REPLICA) = Done tt.
Proof.
  revert k. induction n as [|n IH]; intros k Hj Hok; [lia|]. cbn [brepls_check_loop].
  change (SL_REPL_GET_BMAP_IOS_STAT repls (Z.of_nat k * SL_BITS_PER_REPLICA)) with (repl_stat repls (Z.of_nat k)).
  destruct (decide (j = k)) as [->|]; [by rewrite Hok|]. destruct (brepls_ok (repl_stat repls (Z.of_nat k))); [done|].
  replace (Z.of_nat k * SL_BITS_PER_REPLICA + SL_BITS_PER_REPLICA) with (Z.of_nat (S k) * SL_BITS_PER_REPLICA) by lia.
  apply IH; [lia|done].
Qed.
Lemma brepls_check_ok repls nr j :
  0 ≤ j < nr → nr ≤ SL_MAX_REPLICAS → brepls_ok (repl_stat repls j) = true →
  mds_brepls_check repls nr = Done tt.
Proof.
  intros Hj Hnr Hok. unfold mds_brepls_check. destruct (Z.gtb_spec nr 0); [|lia].
  destruct (Z.leb_spec nr SL_MAX_REPLICAS); [|lia]. cbn [andb].
  apply (brepls_check_loop_ok repls (Z.to_nat nr) 0 (Z.to_nat j)); [lia|]. by rewrite Z2Nat.id by lia.
Qed.

Lemma unsched_tract_ok : tract_ok unsched_tract.
Proof. by apply tract_okb. Qed.
Lemma init_tract_ok : tract_ok (brepls_init (-1)).
Proof. by apply tract_okb. Qed.

Section replay_spec.
Context {DI D : Type} `{BmapIO D} `{PflErr}.
Context (cfg : gmap Z sl_res_type) (nonce : Z) (preclaim_notsup : Z → bool).

(** A walk over all replicas that translates. *)
Lemma wp_walk_all_tract f t (Q : Z → mstate D → Prop) s :
  repls_wf (bmi_repls (ms_b s)) → finfo_ok f → 0 < fi_nrepls f →
  hasf (bcm_flags (ms_b s)) BMAPF_REPLMODWR = false → tract_ok t →
  (∀ b' r, same_but_repls (ms_b s) b' → repls_wf (bmi_repls b') → bmi_wrlocked b' = true →
     (∀ j, 0 ≤ j < 64 → stat b' j = if decide (j < fi_nrepls f) then tr t (stat (ms_b s) j) else stat (ms_b s) j) →
     Q r (ms_with_b s b')) →
  wp (onB (mds_repl_bmap_walk_all (fi_nrepls f) (Some t) None 0)) Q s.
Proof.
  intros Hwf [Hnr _] Hpos Hmod Ht HQ. apply wp_onB.
  apply wp_bmap_walk_tract; [done|done|apply iosidx_ok_nil|done|done|done|].
  intros b' Hsame Hwf' Hst Hlk. apply HQ; [done|done| |].
  - simpl in Hlk. destruct (seqZ 0 (fi_nrepls f)) eqn:E; [|apply Hlk].
    apply (f_equal length) in E. rewrite length_seqZ in E. simpl in E. lia.
  - intros j Hj. rewrite Hst by done. unfold selected. repeat case_decide; done || lia.
Qed.

Lemma wp_insert_pending f (Q : unit → mstate D → Prop) s :
  (∀ s', ms_b s' = ms_b s → ms_disk s' = ms_disk s →
     (∀ k, is_Some (ms_upsch s !! k) → is_Some (ms_upsch s' !! k)) →
     (∀ n resid, fi_repls f !! n = Some resid → is_Some (libsl_id2res cfg resid) →
        stat (ms_b s) (Z.of_nat n) = BREPLST_REPL_QUEUED ∨ stat (ms_b s) (Z.of_nat n) = BREPLST_GARBAGE →
        is_Some (ms_upsch s' !! (resid, fi_fid f, bcm_bmapno (ms_b s)))) → Q tt s') →
  wp (insert_pending cfg nonce f) Q s.
Proof.
  intros HQ. unfold insert_pending. wp_step. wp_step.
  apply wp_forM_rows with (b := ms_b s) (g := λ p, row_ins f cfg nonce (ms_b s) 0 0 p.2); [done|..].
  { intros p s0 R Hb HR. unfold slm_upsch_insert, up_key, row_ins in *. rewrite <-Hb in *.
    destruct (libsl_id2res cfg p.2); [|wp_step; by apply HR].
    wp_step. wp_step. unfold upschq_resm. wp_step. simpl. case_bool_decide; by apply HR. }
  set (l := filter _ _). intros s' Hb Hd Hu.
  assert (Hu' : ms_upsch s' = foldl (λ u resid, row_ins f cfg nonce (ms_b s) 0 0 resid u) (ms_upsch s) l.*2).
  { rewrite Hu. clear. generalize (ms_upsch s). induction l as [|p l IH]; intros u; simpl; [done|]. apply IH. }
  apply HQ; [done|done|..].
  - intros k Hk. rewrite Hu'. by apply foldl_ins_mono.
  - intros n resid Hn Hres Hst. rewrite Hu'. apply foldl_ins_has; [|done].
    apply list_elem_of_fmap. exists (Z.of_nat n, resid). split; [done|]. apply list_elem_of_filter. split; [done|].
    apply list_elem_of_lookup. exists n. apply lookup_zip_Some. split; [|done].
    apply lookup_seqZ. apply lookup_lt_Some in Hn. unfold fi_nrepls. lia.
Qed.

Definition replayed_stat (r : slmds_jent_bmap_repls) (f : finfo) (j : Z) : Z :=
  if decide (j < fi_nrepls f) then tr unsched_tract (repl_stat (sjbr_repls r) j) else repl_stat (sjbr_repls r) j.

(** What [replay_repls] leaves: the logged states with the work in flight
    put back, the logged policy, the loaded generation and CRCs. *)
Definition replay_post (r : slmds_jent_bmap_repls) (f : finfo) (s s' : mstate D) : Prop :=
  ms_disk s' = ms_disk s ∧ bcm_bmapno (ms_b s') = bcm_bmapno (ms_b s) ∧ repls_wf (bmi_repls (ms_b s')) ∧
  bcm_flags (ms_b s') = clrf (setf (bcm_flags (ms_b s)) BMAPF_REPLMODWR) BMAPF_REPLMODWR ∧
  bmi_wrlocked (ms_b s') = false ∧
  bmi_od (ms_b s') = {| bod_crcstates := bod_crcstates (bmi_od (ms_b s)); bod_repls := bmi_repls (ms_b s');
                        bod_crcs := bod_crcs (bmi_od (ms_b s)); bod_gen := bod_gen (bmi_od (ms_b s));
                        bod_replpol := sjbr_replpol r |} ∧
  (∀ j, 0 ≤ j < 64 → stat (ms_b s') j = replayed_stat r f j) ∧
  (∀ n resid, fi_repls f !! n = Some resid → is_Some (libsl_id2res cfg resid) →
     replayed_stat r f (Z.of_nat n) = BREPLST_REPL_QUEUED ∨ replayed_stat r f (Z.of_nat n) = BREPLST_GARBAGE →
     is_Some (ms_upsch s' !! (resid, fi_fid f, bcm_bmapno (ms_b s)))).

Lemma wp_replay_repls r f (Q : unit → mstate D → Prop) s :
  repls_wf (bmi_repls (ms_b s)) → finfo_ok f → hasf (bcm_flags (ms_b s)) BMAPF_REPLMODWR = false →
  repls_wf (sjbr_repls r) → sjbr_nrepls r = fi_nrepls f →
  (∃ j, 0 ≤ j < fi_nrepls f ∧ brepls_ok (repl_stat (sjbr_repls r) j) = true) →
  (∀ s', replay_post r f s s' → Q tt s') →
  wp (replay_repls cfg nonce preclaim_notsup r f) Q s.
Proof.
  intros Hwf Hf Hmod Hwfr Hnr (j0 & Hj0 & Hok) HQ. assert (Hmax := Hf). destruct Hmax as [Hmax _].
  unfold replay_repls. wp_step. rewrite Hnr, (brepls_check_ok _ _ j0) by done. wp_step.
  wp_step. apply wp_walk_all_tract; [done|done|lia|done|apply init_tract_ok|].
  intros b1 _ (Hno1 & Hfl1 & Hod1 & _) Hwf1 Hlk1 _.
  wp_step. unfold modB at 1. wp_step. wp_step.
  apply wp_walk_all_tract; [done|done|lia|simpl; congruence|apply unsched_tract_ok|].
  intros b2 _ (Hno2 & Hfl2 & Hod2 & _) Hwf2 Hlk2 Hst2. simpl in Hno2, Hfl2, Hod2.
  wp_step. unfold modB at 1. wp_step. wp_step. apply wp_upd_write. simpl. intros s3 _ Hd3 Hb3.
  assert (Hst : ∀ j, 0 ≤ j < 64 → stat (ms_b s3) j = replayed_stat r f j).
  { intros j Hj. rewrite Hb3. change (stat b2 j = replayed_stat r f j). rewrite Hst2 by done. done. }
  apply wp_insert_pending. intros s4 Hb4 Hd4 _ Hrows. apply HQ.
  assert (Hno : bcm_bmapno (ms_b s3) = bcm_bmapno (ms_b s)) by (rewrite Hb3; simpl; congruence).
  unfold replay_post. rewrite Hb4. split_and!; [congruence|done|by rewrite Hb3| | | |done|].
  - rewrite Hb3. simpl. congruence.
  - by rewrite Hb3.
  - rewrite Hb3. simpl. rewrite Hod2, Hod1. done.
  - intros n resid Hn Hres Hw. rewrite Hno in Hrows. apply (Hrows n); [done|done|].
    assert (Hlt : (n < length (fi_repls f))%nat) by (by eapply lookup_lt_Some).
    unfold SL_MAX_REPLICAS, fi_nrepls in Hmax. by rewrite Hst by lia.
Qed.
End replay_spec.

Lemma fill_repl_stat f b j :
  repls_wf (bmi_repls b) → repl_stat (sjbr_repls (mdslogfill_bmap_repls f b)) j = stat b j.
Proof. intros [Hlen _]. simpl. rewrite take_ge by lia. done. Qed.

(** C37: replaying a logged change of replica states restores it.  Let the
    entry be the one [mdslog_bmap_repls] wrote for the bmap [b0].  Replayed on
    the bmap as found on disk after a crash, it leaves every replica of the
    file in its logged state, work that was in flight put back in the queue
    (replication) or to garbage (reclamation), the bmap written out, and in
    the upsch table a row for each replica that waits for work; replaying the
    same entry once more changes no state. *)
Theorem replay_restores_states {D} `{BmapIO D} `{PflErr} cfg nonce ns f b0 (s : mstate D) :
  repls_wf (bmi_repls b0) → finfo_ok f → has_valid f b0 →
  repls_wf (bmi_repls (ms_b s)) → hasf (bcm_flags (ms_b s)) BMAPF_REPLMODWR = false →
  let r := mdslogfill_bmap_repls f b0 in
  let restored j := if decide (j < fi_nrepls f) then tr unsched_tract (stat b0 j) else stat b0 j in
  wp (_ ← replay_repls cfg nonce ns r f; mds_bmap_write f LogNone) (λ rc s',
    (∀ j, 0 ≤ j < 64 → stat (ms_b s') j = restored j) ∧
    (∃ rc0 nb lg, pwritev_bmap (ms_disk s) (bcm_bmapno (ms_b s)) (bmi_od (ms_b s'))
       (crc64_bmap (bmi_od (ms_b s'))) = (rc0, nb, lg, ms_disk s')) ∧
    (∀ n resid, fi_repls f !! n = Some resid → is_Some (libsl_id2res cfg resid) →
       restored (Z.of_nat n) = BREPLST_REPL_QUEUED ∨ restored (Z.of_nat n) = BREPLST_GARBAGE →
       is_Some (ms_upsch s' !! (resid, fi_fid f, bcm_bmapno (ms_b s)))) ∧
    wp (replay_repls cfg nonce ns r f) (λ _ s'', ∀ j, 0 ≤ j < 64 → stat (ms_b s'') j = stat (ms_b s') j) s') s.
Proof.
  intros Hwf0 Hf (j0 & Hj0 & Hok0) Hwf Hmod r restored. assert (Hmax := Hf). destruct Hmax as [Hmax _].
  assert (Hrep : ∀ j, replayed_stat r f j = restored j)
    by (intros j; unfold replayed_stat, restored, r; by rewrite fill_repl_stat by done).
  assert (Hwfr : repls_wf (sjbr_repls r)).
  { unfold r, mdslogfill_bmap_repls; simpl. destruct Hwf0 as [Hl Hall]. rewrite take_ge by lia. done. }
  assert (Hchk : ∃ j, 0 ≤ j < fi_nrepls f ∧ brepls_ok (repl_stat (sjbr_repls r) j) = true)
    by (exists j0; split; [done|]; unfold r; by rewrite fill_repl_stat by done).
  assert (Hpure : ∀ s', replay_post cfg r f s s' → has_valid f (ms_b s')).
  { intros s' (_ & _ & _ & _ & _ & _ & Hst & _). exists j0. split; [done|]. unfold SL_MAX_REPLICAS in Hmax.
    rewrite Hst, Hrep by lia. unfold restored. rewrite decide_True by lia.
    pose proof (stat_range _ j0 Hwf0) as Hr. by_state (stat b0 j0) Hr; done. }
  wp_step. apply wp_replay_repls; [done..|]. intros s' Hpost. pose proof (Hpure _ Hpost) as Hv.
  destruct Hpost as (Hd & Hno & Hwf' & Hfl & Hlk & Hod & Hst & Hrows).
  apply wp_bmap_write; [done..|]. intros rc nb lg d' Hw. simpl. split_and!.
  - intros j Hj. by rewrite Hst, Hrep.
  - exists rc, nb, lg. by rewrite <-Hno, <-Hd.
  - intros n resid Hn Hres. rewrite <-Hrep. by apply Hrows.
  - apply wp_replay_repls; [done|done| |done|done|done|].
    + simpl. rewrite Hfl, hasf_clrf, Z.ldiff_diag. apply hasf_0_r.
    + intros s'' (_ & _ & _ & _ & _ & _ & Hst' & _) j Hj. simpl. by rewrite Hst', Hst.
Qed.

Lemma replay_restores_states_witness :
  let b0 := b_with_repls ex_bmap (repl_upd (bmi_repls ex_bmap) 1 BREPLST_REPL_SCHED) in
  let cfg : gmap Z sl_res_type := list_to_map ((λ i, (i, SLREST_STANDALONE_FS)) <$> [10; 11; 12; 13]) in
  let r := mdslogfill_bmap_repls MemBmaps.fi b0 in
  let restored j := if decide (j < 4) then tr unsched_tract (stat b0 j) else stat b0 j in
  wp (_ ← replay_repls cfg 1 (λ _, true) r MemBmaps.fi; mds_bmap_write MemBmaps.fi LogNone) (λ rc s',
    (∀ j, 0 ≤ j < 64 → stat (ms_b s') j = restored j) ∧
    (∃ rc0 nb lg, pwritev_bmap (ms_disk MemBmaps.st) 0 (bmi_od (ms_b s')) (crc64_bmap (bmi_od (ms_b s')))
       = (rc0, nb, lg, ms_disk s')) ∧
    (∀ n resid, [10; 11; 12; 13] !! n = Some resid → is_Some (libsl_id2res cfg resid) →
       restored (Z.of_nat n) = BREPLST_REPL_QUEUED ∨ restored (Z.of_nat n) = BREPLST_GARBAGE →
       is_Some (ms_upsch s' !! (resid, 77, 0))) ∧
    wp (replay_repls cfg 1 (λ _, true) r MemBmaps.fi)
       (λ _ s'', ∀ j, 0 ≤ j < 64 → stat (ms_b s'') j = stat (ms_b s') j) s') MemBmaps.st.
Proof.
  intros b0 cfg r restored. apply (replay_restores_states cfg 1 (λ _, true) MemBmaps.fi b0 MemBmaps.st).
  - apply repl_upd_wf. exact ex_bmap_wf.
  - exact MemBmaps.fi_ok.
  - exists 0. split; [split; [discriminate|reflexivity]|reflexivity].
  - exact ex_bmap_wf.
  - reflexivity.
Defined.

(** What the replay of replica states does not restore.  The entry
    carries the replication policy of the inode (its documentation says the
    bmap's) and the replay stores it in the bmap, so a policy set for the bmap
    alone is lost; the logged generation is not used: the bmap keeps the
    generation it was loaded with. *)
Theorem replay_policy_generation {D} `{BmapIO D} `{PflErr} cfg nonce ns f b0 (s : mstate D) :
  repls_wf (bmi_repls b0) → finfo_ok f → has_valid f b0 →
  repls_wf (bmi_repls (ms_b s)) → hasf (bcm_flags (ms_b s)) BMAPF_REPLMODWR = false →
  wp (replay_repls cfg nonce ns (mdslogfill_bmap_repls f b0) f) (λ _ s',
    bod_replpol (bmi_od (ms_b s')) = fi_replpol f ∧
    bod_gen (bmi_od (ms_b s')) = bod_gen (bmi_od (ms_b s))) s.
Proof.
  intros Hwf0 Hf (j0 & Hj0 & Hok0) Hwf Hmod.
  apply wp_replay_repls; [done|done|done| |done| |].
  - destruct Hwf0 as [Hl Hall]. simpl. rewrite take_ge by lia. done.
  - exists j0. split; [done|]. by rewrite fill_repl_stat by done.
  - intros s' (_ & _ & _ & _ & _ & Hod & _). by rewrite Hod.
Qed.

Lemma replay_policy_generation_witness :
  wp (replay_repls ∅ 1 (λ _, true) (mdslogfill_bmap_repls MemBmaps.fi (b_with_gen ex_bmap 9)) MemBmaps.fi) (λ _ s',
    bod_replpol (bmi_od (ms_b s')) = 1 ∧ bod_gen (bmi_od (ms_b s')) = 7) MemBmaps.st.
Proof.
  apply (replay_policy_generation ∅ 1 (λ _, true) MemBmaps.fi (b_with_gen ex_bmap 9) MemBmaps.st).
  - exact ex_bmap_wf.
  - exact MemBmaps.fi_ok.
  - exact MemBmaps.ex_valid.
  - exact ex_bmap_wf.
  - reflexivity.
Defined.

(** ** Replaying the replica table of a file *)

Section ino_replay.
Context {D : Type} `{Mdsio D} `{PflErr} `{PflMem} `{!MdsioLaws D}.

Lemma wp_inode_write s (Q : Z → inost (D := D) → Prop) :
  (∀ rc s', inoh_ino (st_ih s') = inoh_ino (st_ih s) → inoh_extras (st_ih s') = inoh_extras (st_ih s) →
     preadv_inox (st_disk s') = preadv_inox (st_disk s) → Q rc s') →
  wp mds_inode_write Q s.
Proof.
  intros HQ. unfold mds_inode_write. wp_step. wp_step. cbv zeta.
  destruct (pwritev_ino _ _ _) as [[rc nb] d'] eqn:Ew. apply preadv_pwritev_ino in Ew.
  wp_step. wp_step. wp_step. apply HQ; simpl; [repeat case_match; done..|done].
Qed.

(** What the entry holds. *)
Lemma fill_ino_spec fid isdir buf (s0 s0' : inost (D := D)) r L :
  table_is s0 L → length buf = Z.to_nat SL_INOX_NREPLICAS →
  mdslogfill_ino_repls fid isdir buf s0 = Done (r, s0') →
  sjir_fid r = fid ∧ sjir_replpol r = ino_replpol (inoh_ino (st_ih s0)) ∧
  sjir_nrepls r = Z.of_nat (length L) ∧ length (sjir_repls r) = Z.to_nat SL_MAX_REPLICAS ∧
  take (length L) (sjir_repls r) = L ∧ (length L ≤ Z.to_nat SL_MAX_REPLICAS)%nat.
Proof.
  intros (x0 & (Hl0 & Hx0 & Hn0) & Hv0 & HL) Hbuf Hfill.
  assert (Hlen : length L = Z.to_nat (ino_nrepls (inoh_ino (st_ih s0)))) by (rewrite HL; by apply repl_list_length).
  unfold SL_DEF_REPLICAS, SL_INOX_NREPLICAS, SL_MAX_REPLICAS, SL_DEF_REPLICAS in *.
  assert (Hr : ∃ rest, r = {| sjir_fid := fid; sjir_replpol := ino_replpol (inoh_ino (st_ih s0));
      sjir_nrepls := ino_nrepls (inoh_ino (st_ih s0)); sjir_repls := ino_repls (inoh_ino (st_ih s0)) ++ rest |} ∧
      length rest = 60%nat ∧ (4 < ino_nrepls (inoh_ino (st_ih s0)) → rest = inox_repls x0)).
  { unfold mdslogfill_ino_repls, mbind, M_bind, getM, mret, M_ret in Hfill.
    destruct (whenM _ _ s0) as [[[] s1]|]; [|done].
    destruct (Z.gtb_spec (ino_nrepls (inoh_ino (st_ih s0))) SL_DEF_REPLICAS) as [Hgt|Hle];
      unfold SL_DEF_REPLICAS in *; [|injection Hfill as <- _; exists buf; repeat split; [done|lia]]; cbn in Hfill.
    destruct (inoh_extras (st_ih s0)) as [ix|] eqn:Ex; [|done]. injection Hfill as <- _.
    apply (inox_view_some _ _ _ Ex) in Hv0 as ->. by exists (inox_repls ix). }
  destruct Hr as (rest & -> & Hrest & Hbig). simpl. split_and!; [done|done|lia| | |lia].
  - rewrite length_app, Hl0, Hrest. done.
  - rewrite HL at 2. unfold repl_list. rewrite Hlen.
    destruct (decide (4 < ino_nrepls (inoh_ino (st_ih s0)))); [by rewrite Hbig|].
    rewrite !take_app_le by lia. done.
Qed.

Lemma wp_replay_ino isdir r (s : inost (D := D)) x L (Q : Z → inost (D := D) → Prop) :
  sjir_fid r ≠ FID_ANY → sjir_nrepls r = Z.of_nat (length L) → length (sjir_repls r) = Z.to_nat SL_MAX_REPLICAS →
  take (length L) (sjir_repls r) = L → (length L ≤ Z.to_nat SL_MAX_REPLICAS)%nat →
  (isdir = true ∨ ∃ id, id ∈ L ∧ id ≠ 0) →
  tbl_wf (inoh_ino (st_ih s)) x → inox_view s x →
  (∀ d y c, ∃ d', pwritev_inox d y c = (0, INOX_SZ + CRC_SZ, d')) →
  (∀ rc s', table_is s' L → ino_replpol (inoh_ino (st_ih s')) = sjir_replpol r → Q rc s') →
  wp (mds_replay_ino isdir r) Q s.
Proof.
  intros Hfid Hnr Hlen Htake Hmax Hnz (Hl & Hx & Hn) Hv Hpw HQ.
  unfold SL_DEF_REPLICAS, SL_INOX_NREPLICAS, SL_MAX_REPLICAS, SL_DEF_REPLICAS in *.
  unfold mds_replay_ino. destruct (Z.eqb_spec (sjir_fid r) FID_ANY); [done|].
  wp_step. apply wp_mono with (λ _ s1, s1 = s).
  { apply wp_when; intros Hd; [|done]. wp_step; [|done]. destruct Hnz as [->|(id & Hid & Hne)]; [done|].
    rewrite <-Htake in Hid. apply list_elem_of_lookup in Hid as [k Hk]. apply lookup_take_Some in Hk as [Hk Hk'].
    apply existsb_elem. exists (Z.of_nat k). rewrite elem_of_seqZ. unfold SL_MAX_REPLICAS. split; [lia|].
    unfold arr_get. rewrite Nat2Z.id, Hk. simpl. by apply negb_true_iff, Z.eqb_neq. }
  intros _ s1 ->. wp_step. wp_step; [unfold SL_MAX_REPLICAS; apply Z.leb_le; lia|].
  assert (Hfin : ∀ s2 y, length (inox_repls y) = 60%nat → inox_view s2 y →
    (4 < sjir_nrepls r → inox_repls y = take 60 (drop 4 (sjir_repls r))) →
    wp (s ← getM; _ ← putM (set_ih s (inoh_with_ino (st_ih s)
        (ino_with_table (inoh_ino (st_ih s)) (sjir_replpol r) (sjir_nrepls r) (take 4 (sjir_repls r)))));
        mds_inode_write) Q s2).
  { intros s2 y Hy Hvy Hbig. do 4 wp_step. apply wp_inode_write. simpl. intros rc s3 Hi He Hd.
    apply HQ; [|by rewrite Hi]. exists y. rewrite Hi. split_and!.
    - unfold tbl_wf. cbn [ino_repls ino_nrepls ino_with_table]. rewrite length_take, Hlen, Hy.
      unfold SL_MAX_REPLICAS. split_and!; [done|done|lia|lia].
    - eapply inox_view_ext; [..|exact Hvy]; done.
    - unfold repl_list. simpl. rewrite Hnr, Nat2Z.id. rewrite <-Htake at 1.
      destruct (decide (4 < sjir_nrepls r)) as [H4|H4].
      + rewrite (Hbig H4), (take_ge (drop 4 _)) by (rewrite length_drop; lia). by rewrite take_drop.
      + rewrite take_app_le by (rewrite length_take; lia). rewrite take_take. f_equal. lia. }
  wp_step. destruct (Z.gtb_spec (sjir_nrepls r) SL_DEF_REPLICAS) as [Hbig|Hsmall]; unfold SL_DEF_REPLICAS in *.
  - wp_step. eapply wp_ensure_loaded; [done|]. do 2 wp_step. cbn [inoh_extras inoh_with_extras st_ih set_ih].
    do 2 wp_step. unfold mds_inox_write. do 2 wp_step. simpl.
    match goal with |- context [pwritev_inox ?d ?y ?c] => destruct (Hpw d y c) as [d' Hd'] end.
    rewrite Hd'. do 3 wp_step. simpl.
    apply (Hfin _ (inox_with_repls x (take 60 (drop 4 (sjir_repls r))))); [..|done].
    + simpl. rewrite length_take, length_drop. lia.
    + by apply inox_view_loaded.
  - wp_step. simpl. apply (Hfin s x); [done|done|lia].
Qed.
End ino_replay.

(** Replaying a logged replica table restores it.  The entry that
    [mdslogfill_ino_repls] fills for a handle with table [L], whatever the
    journal buffer held before, makes [mds_replay_ino] give any handle of the
    file the table [L] and the logged policy, when the write of the extras
    block goes through. *)
Theorem replay_ino_roundtrip {D} `{Mdsio D} `{PflErr} `{PflMem} `{!MdsioLaws D}
    fid isdir buf (s0 s0' s : inost (D := D)) r L x :
  table_is s0 L → mdslogfill_ino_repls fid isdir buf s0 = Done (r, s0') →
  length buf = Z.to_nat SL_INOX_NREPLICAS → fid ≠ FID_ANY →
  (isdir = true ∨ ∃ id, id ∈ L ∧ id ≠ 0) →
  tbl_wf (inoh_ino (st_ih s)) x → inox_view s x →
  (∀ d y c, ∃ d', pwritev_inox d y c = (0, INOX_SZ + CRC_SZ, d')) →
  wp (mds_replay_ino isdir r)
     (λ _ s', table_is s' L ∧ ino_replpol (inoh_ino (st_ih s')) = ino_replpol (inoh_ino (st_ih s0))) s.
Proof.
  intros Ht Hfill Hbuf Hfid Hnz Hwf Hv Hpw.
  destruct (fill_ino_spec _ _ _ _ _ _ _ Ht Hbuf Hfill) as (Ef & Ep & En & El & Etk & Hmax).
  eapply wp_replay_ino; [congruence|done|done|done|done|done|done|done|done|].
  intros rc s' Ht' Hp. split; [done|congruence].
Qed.

Lemma replay_ino_roundtrip_witness :
  let s0 := set_ih MemFile.st5 (inoh_with_extras (st_ih MemFile.st5) (Some MemFile.inox5)) in
  let r := {| sjir_fid := 77; sjir_replpol := 0; sjir_nrepls := 5;
              sjir_repls := [10; 11; 12; 13; 14] ++ replicate 59 0 |} in
  let s := {| st_ih := {| inoh_ino := ino_with_table MemFile.ino5 1 1 [10; 0; 0; 0]; inoh_extras := None; inoh_flags := 0 |};
              st_disk := st_disk MemFile.st5 |} in
  wp (mds_replay_ino false r)
     (λ _ s', table_is s' [10; 11; 12; 13; 14] ∧ ino_replpol (inoh_ino (st_ih s')) = 0) s.
Proof.
  intros s0 r s. apply (replay_ino_roundtrip 77 false (replicate 60 9) s0 s0 s r [10; 11; 12; 13; 14] MemFile.inox5).
  - exists MemFile.inox5. split; [split; [reflexivity|split; [reflexivity|split; discriminate]]|].
    split; [apply inox_view_loaded; reflexivity|reflexivity].
  - reflexivity.
  - reflexivity.
  - discriminate.
  - right. exists 10. split; [apply elem_of_cons; left; reflexivity|discriminate].
  - split; [reflexivity|split; [reflexivity|split; discriminate]].
  - vm_compute. reflexivity.
  - intros d y c. eexists. reflexivity.
Defined.

(** The marks of the lease sequence numbers that a replay leaves in the
    cursor are the largest ones of the cursor and of all replayed entries, so
    they do not depend on the order of the entries. *)
Theorem replay_seq_max c rs :
  pjc_seqno_hwm (foldl mds_replay_bmap_seq c rs) = foldr Z.max (pjc_seqno_hwm c) (sjbsq_high_wm <$> rs) ∧
  pjc_seqno_lwm (foldl mds_replay_bmap_seq c rs) = foldr Z.max (pjc_seqno_lwm c) (sjbsq_low_wm <$> rs).
Proof.
  assert (Hmax : ∀ z m l, foldr Z.max (Z.max z m) l = Z.max m (foldr Z.max z l))
    by (intros z m l; induction l as [|y l IH]; simpl; [lia|rewrite IH; lia]).
  revert c. induction rs as [|r rs IH]; intros c; simpl; [done|].
  destruct (IH (mds_replay_bmap_seq c r)) as [E1 E2]. rewrite E1, E2, <-!Hmax. unfold mds_replay_bmap_seq; simpl.
  split; f_equal; case_match; lia.
Qed.
