(* ===== verification/Timeo.v ===== *)
(** * Lease sequence numbers ([slashd/mds_bmap_timeo.c], the sequence window
      of the I/O server in [sliod/bmap_iod.c])

    The metadata server numbers leases, keeps them in issue order, tells the
    I/O servers the smallest number still in use, and journals both marks
    every [BMAP_SEQLOG_FACTOR] changes. *)
From S2P Require Import Prelude Replay.

Definition BMAPSEQ_ANY : Z := 2 ^ 64 - 1.
Definition BMAP_SEQLOG_FACTOR : Z := 100.
Definition BMAP_TIMEO_MAX : Z := 240.

(** [struct bmap_timeo_table]: the leases are named by integers, oldest
    first; [btt_log] is the counter of [mds_bmap_timeotbl_journal_seqno];
    [btt_journal] holds the journaled marks, latest first. *)
Record bmap_timeo_table := {
  btt_maxseq : Z;
  btt_minseq : Z;
  btt_leases : list Z;
  btt_log : Z;
  btt_journal : list slmds_jent_bmapseq;
}.

Definition mds_bmap_setcurseq (t : bmap_timeo_table) (maxseq minseq : Z) : bmap_timeo_table :=
  {| btt_maxseq := maxseq; btt_minseq := minseq; btt_leases := btt_leases t; btt_log := btt_log t;
     btt_journal := btt_journal t |}.
Definition mds_bmap_getcurseq (t : bmap_timeo_table) : Z * Z := (btt_maxseq t, btt_minseq t).

Definition mds_bmap_journal_bmapseq (t : bmap_timeo_table) (e : slmds_jent_bmapseq) : bmap_timeo_table :=
  {| btt_maxseq := btt_maxseq t; btt_minseq := btt_minseq t; btt_leases := btt_leases t;
     btt_log := btt_log t; btt_journal := e :: btt_journal t |}.

Definition mds_bmap_timeotbl_journal_seqno (t : bmap_timeo_table) : bmap_timeo_table :=
  let e := {| sjbsq_high_wm := btt_maxseq t; sjbsq_low_wm := btt_minseq t |} in
  let t := {| btt_maxseq := btt_maxseq t; btt_minseq := btt_minseq t; btt_leases := btt_leases t;
              btt_log := btt_log t + 1; btt_journal := btt_journal t |} in
  if btt_log t mod BMAP_SEQLOG_FACTOR =? 0 then mds_bmap_journal_bmapseq t e else t.

Definition mds_bmap_timeotbl_getnextseq (t : bmap_timeo_table) : Z * bmap_timeo_table :=
  let m := u64 (btt_maxseq t + 1) in
  let m := if m =? BMAPSEQ_ANY then 1 else m in
  (m, mds_bmap_timeotbl_journal_seqno (mds_bmap_setcurseq t m (btt_minseq t))).

Definition btt_with_leases (t : bmap_timeo_table) (l : list Z) : bmap_timeo_table :=
  {| btt_maxseq := btt_maxseq t; btt_minseq := btt_minseq t; btt_leases := l; btt_log := btt_log t;
     btt_journal := btt_journal t |}.

(** [mds_bmap_timeotbl_remove]; [seq] gives the [bml_seq] of a lease. *)
Definition mds_bmap_timeotbl_remove (seq : Z → Z) (bml : Z) (t : bmap_timeo_table) : bmap_timeo_table :=
  let update := bool_decide (head (btt_leases t) = Some bml) in
  let t := btt_with_leases t (filter (λ x, x ≠ bml) (btt_leases t)) in
  if update then
    let m := match btt_leases t with tmp :: _ => seq tmp | [] => btt_maxseq t end in
    mds_bmap_timeotbl_journal_seqno (mds_bmap_setcurseq t (btt_maxseq t) m)
  else t.

Inductive bte := BTE_ADD | BTE_DEL | BTE_REATTACH.

(** [mds_bmap_timeotbl_mdsi]; [timeoq] is the lease's [BML_TIMEOQ] flag.  The
    value is the sequence number returned and the new flag. *)
Definition mds_bmap_timeotbl_mdsi (seq : Z → Z) (bml : Z) (timeoq : bool) (op : bte) (t : bmap_timeo_table) :
    Z * bool * bmap_timeo_table :=
  match op with
  | BTE_DEL => (BMAPSEQ_ANY, false, mds_bmap_timeotbl_remove seq bml t)
  | _ =>
      let '(s, t) :=
        match op with
        | BTE_REATTACH =>
            if btt_maxseq t <? seq bml then (seq bml, mds_bmap_setcurseq t (seq bml) (btt_minseq t))
            else if btt_minseq t >? seq bml then (BMAPSEQ_ANY, t)
            else (seq bml, t)
        | _ => mds_bmap_timeotbl_getnextseq t
        end in
      let t := if timeoq then mds_bmap_timeotbl_remove seq bml t else t in
      (s, true, btt_with_leases t (btt_leases t ++ [bml]))
  end.

(** One round of [slmbmaptimeothr_begin]: what it does about the oldest
    lease.  [locked] says that the lease's lock could not be taken. *)
Inductive timeothr_act := ThrSleep (nsecs : Z) | ThrRelease (bml : Z).
Definition slmbmaptimeothr_round (t : bmap_timeo_table) (locked : bool) (refcnt : Z → Z) (freeing : Z → bool)
    (expire : Z → Z) (now : Z) : timeothr_act :=
  match btt_leases t with
  | [] => ThrSleep BMAP_TIMEO_MAX
  | bml :: _ =>
      if locked then ThrSleep 1
      else if negb (refcnt bml =? 0) then ThrSleep 1
      else if negb (freeing bml) && (expire bml - now >? 0) then ThrSleep (expire bml - now)
      else ThrRelease bml
  end.

(** ** The window of the I/O server ([sliod/bmap_iod.c]) *)

(** [bim_updateseq]: the new [bim_minseq] and whether the number is refused. *)
Definition bim_updateseq (bim_minseq seq : Z) : Z * bool :=
  if seq =? BMAPSEQ_ANY then (bim_minseq, true)
  else if seq =? bim_minseq then (bim_minseq, false)
  else if (seq >? bim_minseq) || (bim_minseq =? BMAPSEQ_ANY) then (seq, false)
  else if seq >=? u64 (bim_minseq - BMAP_SEQLOG_FACTOR) then (seq, false)
  else (bim_minseq, true).

(** The test of [sli_ric_handle_io] on the sequence number of a descriptor. *)
Definition ric_seq_expired (sbd_seq seqno : Z) : bool := sbd_seq <? seqno.

(** ** Properties *)
Definition seq_ok (s : Z) : Prop := 0 < s < BMAPSEQ_ANY.

(** A new sequence number is never zero and never the "any" value, is
    one more than the last one, except that after the largest one the numbers
    start again at 1; it becomes the new high mark. *)
Theorem nextseq_fresh t :
  0 ≤ btt_maxseq t < BMAPSEQ_ANY →
  let '(s, t') := mds_bmap_timeotbl_getnextseq t in
  seq_ok s ∧ btt_maxseq t' = s ∧ btt_minseq t' = btt_minseq t ∧ btt_leases t' = btt_leases t ∧
  s = if btt_maxseq t + 1 =? BMAPSEQ_ANY then 1 else btt_maxseq t + 1.
Proof.
  intros Hm. unfold mds_bmap_timeotbl_getnextseq, seq_ok. unfold BMAPSEQ_ANY in *. rewrite u64_small by lia.
  destruct (Z.eqb_spec (btt_maxseq t + 1) (2 ^ 64 - 1)) as [E|E]; cbv zeta;
    unfold mds_bmap_timeotbl_journal_seqno; cbn; destruct (_ =? 0); cbn; split_and!; done || lia.
Qed.

Lemma nextseq_fresh_witness :
  let t := {| btt_maxseq := 2 ^ 64 - 2; btt_minseq := 7; btt_leases := []; btt_log := 3; btt_journal := [] |} in
  let '(s, t') := mds_bmap_timeotbl_getnextseq t in
  seq_ok s ∧ btt_maxseq t' = s ∧ btt_minseq t' = 7 ∧ btt_leases t' = [] ∧ s = 1.
Proof. intros t. apply (nextseq_fresh t). split; [discriminate|reflexivity]. Defined.

(** The steps of the table, as the server runs them. *)
Inductive timeo_step : bmap_timeo_table → bmap_timeo_table → Prop :=
| step_next t : timeo_step t (mds_bmap_timeotbl_getnextseq t).2
| step_remove seq bml t : timeo_step t (mds_bmap_timeotbl_remove seq bml t)
| step_add seq bml timeoq t : timeo_step t (mds_bmap_timeotbl_mdsi seq bml timeoq BTE_ADD t).2
| step_del seq bml timeoq t : timeo_step t (mds_bmap_timeotbl_mdsi seq bml timeoq BTE_DEL t).2.

(** The high mark a replay of the journal finds. *)
Definition recovered_hwm (start : Z) (t : bmap_timeo_table) : Z :=
  pjc_seqno_hwm (foldl mds_replay_bmap_seq {| pjc_seqno_hwm := start; pjc_seqno_lwm := 0 |} (reverse (btt_journal t))).

(** How far the journal lags: the marks journaled are old ones, and at most
    [btt_log mod 100] numbers were issued since. *)
Definition lag_ok (start : Z) (t : bmap_timeo_table) : Prop :=
  0 ≤ recovered_hwm start t ≤ btt_maxseq t ∧
  btt_maxseq t - recovered_hwm start t ≤ btt_log t mod BMAP_SEQLOG_FACTOR.

Lemma recovered_cons start t e :
  recovered_hwm start (mds_bmap_journal_bmapseq t e) = Z.max (recovered_hwm start t) (sjbsq_high_wm e).
Proof.
  unfold recovered_hwm. simpl. rewrite reverse_cons, foldl_app. simpl.
  destruct (Z.ltb_spec (pjc_seqno_hwm (foldl mds_replay_bmap_seq
    {| pjc_seqno_hwm := start; pjc_seqno_lwm := 0 |} (reverse (btt_journal t)))) (sjbsq_high_wm e)); lia.
Qed.

(** Journaling keeps the lag when at most one number was issued since. *)
Lemma lag_journal start t k :
  0 ≤ recovered_hwm start t ≤ btt_maxseq t → 0 ≤ k ≤ 1 →
  btt_maxseq t - recovered_hwm start t ≤ btt_log t mod BMAP_SEQLOG_FACTOR + k →
  lag_ok start (mds_bmap_timeotbl_journal_seqno t).
Proof.
  intros Hr Hk Hlag. unfold mds_bmap_timeotbl_journal_seqno. cbv zeta. cbn [btt_log].
  destruct (Z.eqb_spec ((btt_log t + 1) mod BMAP_SEQLOG_FACTOR) 0) as [E|E]; unfold lag_ok.
  - rewrite recovered_cons. cbn. change (recovered_hwm start _) with (recovered_hwm start t).
    rewrite E. lia.
  - change (recovered_hwm start _) with (recovered_hwm start t). cbn. split; [done|].
    unfold BMAP_SEQLOG_FACTOR in *.
    pose proof (Z.div_mod (btt_log t) 100 ltac:(lia)). pose proof (Z.mod_pos_bound (btt_log t) 100 ltac:(lia)).
    pose proof (Z.div_mod (btt_log t + 1) 100 ltac:(lia)). pose proof (Z.mod_pos_bound (btt_log t + 1) 100 ltac:(lia)).
    lia.
Qed.

Lemma lag_next start t :
  lag_ok start t → btt_maxseq t + 1 < BMAPSEQ_ANY → lag_ok start (mds_bmap_timeotbl_getnextseq t).2.
Proof.
  intros [Hr Hlag] Hw. unfold mds_bmap_timeotbl_getnextseq, BMAPSEQ_ANY in *. rewrite u64_small by lia.
  destruct (Z.eqb_spec (btt_maxseq t + 1) (2 ^ 64 - 1)); [lia|]. cbv zeta. cbn [snd].
  apply lag_journal with (k := 1); [|lia|]; change (recovered_hwm start _) with (recovered_hwm start t); cbn; lia.
Qed.
Lemma lag_remove start seq bml t : lag_ok start t → lag_ok start (mds_bmap_timeotbl_remove seq bml t).
Proof.
  intros [Hr Hlag]. unfold mds_bmap_timeotbl_remove. cbv zeta. destruct (bool_decide _).
  - apply lag_journal with (k := 0); [|lia|]; change (recovered_hwm start _) with (recovered_hwm start t); cbn; lia.
  - done.
Qed.
Lemma lag_leases start t l : lag_ok start t → lag_ok start (btt_with_leases t l).
Proof. done. Qed.
Create HintDb timeo.
#[export] Hint Resolve lag_next lag_remove lag_leases : timeo.

Lemma maxseq_next t : btt_maxseq (mds_bmap_timeotbl_getnextseq t).2 = (mds_bmap_timeotbl_getnextseq t).1.
Proof. unfold mds_bmap_timeotbl_getnextseq, mds_bmap_timeotbl_journal_seqno. cbn. by destruct (_ =? 0). Qed.

(** After a crash the journal gives back a high mark at most 99 below
    the last number issued.  From any state whose journal is up to date, along
    any sequence of steps (with fewer than 2^64 - 1 numbers issued in all),
    the high mark recovered by a replay is not above the current one and lags
    by at most the number of changes since the last entry, which is less than
    [BMAP_SEQLOG_FACTOR]. *)
Theorem hwm_journal_lag start t t' :
  lag_ok start t → rtc (λ a b, timeo_step a b ∧ btt_maxseq a + 1 < BMAPSEQ_ANY) t t' →
  0 ≤ btt_maxseq t' - recovered_hwm start t' < BMAP_SEQLOG_FACTOR.
Proof.
  intros Hlag Hrtc. assert (Hl : lag_ok start t').
  { revert Hlag. induction Hrtc as [|a b c [Hstep Hw] _ IH]; [done|]. intros Hlag. apply IH.
    destruct Hstep as [a|seq bml a|seq bml timeoq a|seq bml timeoq a]; [auto with timeo..| |exact (lag_remove _ _ _ _ Hlag)].
    unfold mds_bmap_timeotbl_mdsi. destruct (mds_bmap_timeotbl_getnextseq a) as [s t1] eqn:E.
    apply lag_next in Hlag; [|done]. rewrite E in Hlag. destruct timeoq; cbn [snd] in *; auto with timeo. }
  destruct Hl as [Hr Hl]. pose proof (Z.mod_pos_bound (btt_log t') BMAP_SEQLOG_FACTOR ltac:(done)).
  lia.
Qed.

Definition timeo_start (m : Z) : bmap_timeo_table :=
  {| btt_maxseq := m; btt_minseq := m; btt_leases := []; btt_log := 0; btt_journal := [] |}.

Lemma hwm_journal_lag_witness :
  let t' := (mds_bmap_timeotbl_getnextseq (mds_bmap_timeotbl_getnextseq (timeo_start 5)).2).2 in
  0 ≤ btt_maxseq t' - recovered_hwm 5 t' < BMAP_SEQLOG_FACTOR.
Proof.
  intros t'. apply (hwm_journal_lag 5 (timeo_start 5) t').
  - split; vm_compute; [split; discriminate|discriminate].
  - eapply rtc_l; [split; [apply step_next|reflexivity]|].
    eapply rtc_l; [split; [apply step_next|reflexivity]|]. apply rtc_refl.
Defined.

(** Which low marks an I/O server takes from the metadata server.  A
    mark is taken when it is not below the current one, or when it is below by
    at most 100 (the server may have restarted), provided the current mark is
    at least 100.  While the current mark is between 1 and 99 the subtraction
    wraps around, and every lower mark is refused. *)
Theorem bim_updateseq_accepts bim_minseq seq :
  0 ≤ bim_minseq < BMAPSEQ_ANY → 0 ≤ seq < BMAPSEQ_ANY →
  bim_updateseq bim_minseq seq =
    if (bim_minseq <=? seq) || ((BMAP_SEQLOG_FACTOR <=? bim_minseq) && (bim_minseq - BMAP_SEQLOG_FACTOR <=? seq))
    then (seq, false) else (bim_minseq, true).
Proof.
  unfold bim_updateseq, BMAPSEQ_ANY, BMAP_SEQLOG_FACTOR, u64. intros Hb Hs.
  destruct (Z.eqb_spec seq (2 ^ 64 - 1)); [lia|]. destruct (Z.eqb_spec bim_minseq (2 ^ 64 - 1)); [lia|].
  destruct (Z.eqb_spec seq bim_minseq) as [->|]; [by rewrite Z.leb_refl|].
  destruct (Z.gtb_spec seq bim_minseq), (Z.leb_spec bim_minseq seq); try lia; [done|]. cbn [orb].
  destruct (Z.leb_spec 100 bim_minseq); cbn [andb].
  - rewrite Z.mod_small by lia. rewrite Z.geb_leb. done.
  - replace ((bim_minseq - 100) mod 2 ^ 64) with (bim_minseq - 100 + 2 ^ 64)
      by (symmetry; rewrite <-(Z.mod_add _ 1) by lia; rewrite Z.mod_small; lia).
    destruct (Z.geb_spec seq (bim_minseq - 100 + 2 ^ 64)); [lia|done].
Qed.

Lemma bim_updateseq_accepts_witness : bim_updateseq 50 40 = (50, true).
Proof. apply (bim_updateseq_accepts 50 40); split; (discriminate || reflexivity). Defined.

(** ** A low mark that falls behind *)
Definition add_lease (n : Z) (t : bmap_timeo_table) : bmap_timeo_table :=
  (mds_bmap_timeotbl_mdsi (λ b, b) n false BTE_ADD t).2.
Definition del_lease (n : Z) (t : bmap_timeo_table) : bmap_timeo_table :=
  (mds_bmap_timeotbl_mdsi (λ b, b) n true BTE_DEL t).2.
(** 200 leases (numbered by their sequence numbers), all but the last released,
    the oldest one last. *)
Definition lwm_run : bmap_timeo_table :=
  del_lease 1 (foldr del_lease (foldl (λ t n, add_lease n t) (timeo_start 0) (seqZ 1 200)) (seqZ 2 198)).
Definition recovered_lwm (t : bmap_timeo_table) : Z :=
  pjc_seqno_lwm (foldl mds_replay_bmap_seq {| pjc_seqno_hwm := 0; pjc_seqno_lwm := 0 |} (reverse (btt_journal t))).

(** The low mark, unlike the high one, can lag by more than the
    tolerance of the I/O servers.  In a run where 200 leases are issued and
    released with the oldest one last, the low mark jumps to 200 with the
    journaled one still at 0; an I/O server that has learned 200 refuses the
    mark of the restarted metadata server, the case its comment says should
    never happen. *)
Theorem lwm_gap_refused :
  rtc timeo_step (timeo_start 0) lwm_run ∧ btt_minseq lwm_run = 200 ∧ recovered_lwm lwm_run = 0 ∧
  bim_updateseq (btt_minseq lwm_run) (recovered_lwm lwm_run) = (200, true).
Proof.
  split; [|vm_compute; done]. unfold lwm_run.
  assert (Hadd : ∀ l t, rtc timeo_step t (foldl (λ t n, add_lease n t) t l)).
  { induction l as [|n l IH]; intros t; simpl; [apply rtc_refl|]. eapply rtc_l; [apply step_add|apply IH]. }
  assert (Hdel : ∀ l t, rtc timeo_step t (foldr del_lease t l)).
  { induction l as [|n l IH]; intros t; simpl; [apply rtc_refl|]. eapply rtc_r; [apply IH|apply step_del]. }
  eapply rtc_r; [etransitivity; [apply Hadd|apply Hdel]|apply step_del].
Qed.
