(* ===== verification/Lease.v ===== *)
(** * Bmap leases on the metadata server ([slashd/mds.c], [slashd/coh.c])

    A client holds leases on a bmap.  The first lease of each client is on the
    list of the bmap; further ones hang off it in a ring of [bml_chain]
    pointers.  The bmap counts the clients that read and the clients that
    write, switches to direct I/O when they conflict, and binds writers to one
    I/O system recorded in an on-disk table. *)
From S2P Require Import Prelude ReplBits Inode ReplWalk BmapMds ReplMds ReplReq Replay Timeo.

(** ** Data *)
Definition BML_READ : Z := Z.shiftl 1 0.
Definition BML_WRITE : Z := Z.shiftl 1 1.
Definition BML_DIO : Z := Z.shiftl 1 2.
Definition BML_DIOCB : Z := Z.shiftl 1 3.
Definition BML_TIMEOQ : Z := Z.shiftl 1 4.
Definition BML_BMI : Z := Z.shiftl 1 5.
Definition BML_RECOVER : Z := Z.shiftl 1 6.
Definition BML_CHAIN : Z := Z.shiftl 1 7.
Definition BML_FREEING : Z := Z.shiftl 1 8.
Definition BML_ASSFAIL : Z := Z.shiftl 1 9.
Definition BML_RECOVERFAIL : Z := Z.shiftl 1 10.
Definition BMAPF_DIO : Z := Z.shiftl 1 3.
Definition BMAPF_DIOCB : Z := Z.shiftl 1 4.
Definition BIAF_DIO : Z := Z.shiftl 1 0.
Definition IOS_ID_ANY : Z := 2 ^ 32 - 1.
Definition LNET_NID_ANY : Z := 2 ^ 64 - 1.
Definition LNET_PID_ANY : Z := 2 ^ 32 - 1.

(** [lnet_process_id_t] *)
Definition client : Type := Z * Z.

(** [struct bmap_mds_lease]; pointers to leases are integers. *)
Record bmap_mds_lease := {
  bml_seq : Z;
  bml_refcnt : Z;
  bml_ios : Z;
  bml_cli_nidpid : client;
  bml_flags : Z;
  bml_start : Z;
  bml_expire : Z;
  bml_exp : bool;
  bml_chain : Z;
}.

(** [struct bmap_ios_assign] *)
Record bmap_ios_assign := {
  bia_ios : Z;
  bia_lastcli : client;
  bia_fid : Z;
  bia_seq : Z;
  bia_bmapno : Z;
  bia_start : Z;
  bia_flags : Z;
}.

(** The on-disk table of assignments is PFL's ([pfl_odt_*]); slots are
    integers. *)
Class OdTable (O : Type) := {
  odt_allocslot : O → option Z * O;
  odt_putitem : O → Z → bmap_ios_assign → O;
  odt_getitem : O → Z → bmap_ios_assign;
  odt_replaceitem : O → Z → bmap_ios_assign → O;
  odt_freeitem : O → Z → O;
  odt_putitemf : O → Z → bmap_ios_assign → bool → O;
}.
(** What the code relies on: an item that is stored is the item found. *)
Class OdTableLaws (O : Type) `{OdTable O} := {
  odt_get_put o n a : odt_getitem (odt_putitem o n a) n = a;
  odt_get_replace o n a : odt_getitem (odt_replaceitem o n a) n = a;
  odt_get_putf o n a : odt_getitem (odt_putitemf o n a true) n = a;
}.

(** What leases need from the rest of the server: the choice of an I/O system
    ([slm_resm_select]), the registration of the replica
    ([mds_bmap_add_repl], with the slot of [bmi_assign]), and the check for
    replication work when the last writer leaves. *)
Class LeaseEnv (E : Type) := {
  env_resm_select : Z → list Z → M E (option Z);
  env_add_repl : bmap_ios_assign → option Z → M E Z;
  env_queue_work : M E unit;
}.
(** What these promise.  [env_ok] is an invariant of theirs, [ios_ok] says
    which I/O systems a writer may be bound to, and [env_wr e i] that the
    system [i] has the only valid copy of the bmap.  From a state in which
    the invariant holds each operation comes to an end and keeps it; the
    choice gives a system a writer may be bound to, and once a system is
    registered it has the only valid copy until another one is. *)
Class LeaseEnvLaws (E : Type) `{LeaseEnv E} := {
  env_ok : E → Prop;
  ios_ok : Z → Prop;
  env_wr : E → Z → Prop;
  select_ok pios e : env_ok e → ∃ r e', env_resm_select pios [] e = Done (r, e') ∧ env_ok e' ∧
    (∀ i, env_wr e i → env_wr e' i) ∧ (∀ i, r = Some i → ios_ok i);
  add_repl_ok a n e : env_ok e → ios_ok (bia_ios a) → ∃ rc e', env_add_repl a (Some n) e = Done (rc, e') ∧ env_ok e' ∧
    (rc = 0 → env_wr e' (bia_ios a));
  queue_work_ok e : env_ok e → ∃ e', env_queue_work e = Done (tt, e') ∧ env_ok e' ∧ (∀ i, env_wr e i → env_wr e' i);
}.

(** A bmap as its leases see it, with the timeout table, the assignment table
    and the environment.  [ls_opcnt] counts the references of leases
    ([BMAP_OPCNT_LEASE]); [ls_coh] are the leases that were asked to switch to
    direct I/O; [ls_freed] are the assignment slots journaled as free. *)
Record lstate (T E : Type) := {
  ls_bmls : gmap Z bmap_mds_lease;
  ls_leases : list Z;
  ls_writers : Z;
  ls_readers : Z;
  ls_flags : Z;
  ls_wr_ion : option Z;
  ls_assign : option Z;
  ls_seq : Z;
  ls_fid : Z;
  ls_bmapno : Z;
  ls_opcnt : Z;
  ls_tt : bmap_timeo_table;
  ls_coh : list Z;
  ls_freed : list Z;
  ls_now : Z;
  ls_odt : T;
  ls_env : E;
}.
Arguments ls_bmls {_ _}. Arguments ls_leases {_ _}. Arguments ls_writers {_ _}. Arguments ls_readers {_ _}.
Arguments ls_flags {_ _}. Arguments ls_wr_ion {_ _}. Arguments ls_assign {_ _}. Arguments ls_seq {_ _}.
Arguments ls_fid {_ _}. Arguments ls_bmapno {_ _}. Arguments ls_opcnt {_ _}. Arguments ls_tt {_ _}.
Arguments ls_coh {_ _}. Arguments ls_freed {_ _}. Arguments ls_now {_ _}. Arguments ls_odt {_ _}.
Arguments ls_env {_ _}.

Definition l_with_flags (b : bmap_mds_lease) (fl : Z) : bmap_mds_lease :=
  {| bml_seq := bml_seq b; bml_refcnt := bml_refcnt b; bml_ios := bml_ios b;
     bml_cli_nidpid := bml_cli_nidpid b; bml_flags := fl; bml_start := bml_start b;
     bml_expire := bml_expire b; bml_exp := bml_exp b; bml_chain := bml_chain b |}.
Definition l_with_chain (b : bmap_mds_lease) (c : Z) : bmap_mds_lease :=
  {| bml_seq := bml_seq b; bml_refcnt := bml_refcnt b; bml_ios := bml_ios b;
     bml_cli_nidpid := bml_cli_nidpid b; bml_flags := bml_flags b; bml_start := bml_start b;
     bml_expire := bml_expire b; bml_exp := bml_exp b; bml_chain := c |}.
Definition l_with_refcnt (b : bmap_mds_lease) (r : Z) : bmap_mds_lease :=
  {| bml_seq := bml_seq b; bml_refcnt := r; bml_ios := bml_ios b;
     bml_cli_nidpid := bml_cli_nidpid b; bml_flags := bml_flags b; bml_start := bml_start b;
     bml_expire := bml_expire b; bml_exp := bml_exp b; bml_chain := bml_chain b |}.
Definition l_with_ios_seq (b : bmap_mds_lease) (ios seq : Z) : bmap_mds_lease :=
  {| bml_seq := seq; bml_refcnt := bml_refcnt b; bml_ios := ios;
     bml_cli_nidpid := bml_cli_nidpid b; bml_flags := bml_flags b; bml_start := bml_start b;
     bml_expire := bml_expire b; bml_exp := bml_exp b; bml_chain := bml_chain b |}.

Section lease.
Context {T E : Type} `{OdTable T} `{LeaseEnv E} `{PflErr}.
Abbreviation LS := (lstate T E).
Abbreviation LM := (M LS).

(** *** Access to the state *)
Definition ls_with_leases (s : LS) (m : gmap Z bmap_mds_lease) (l : list Z) (w r : Z) : LS :=
  {| ls_bmls := m; ls_leases := l; ls_writers := w; ls_readers := r; ls_flags := ls_flags s;
     ls_wr_ion := ls_wr_ion s; ls_assign := ls_assign s; ls_seq := ls_seq s; ls_fid := ls_fid s;
     ls_bmapno := ls_bmapno s; ls_opcnt := ls_opcnt s; ls_tt := ls_tt s; ls_coh := ls_coh s;
     ls_freed := ls_freed s; ls_now := ls_now s; ls_odt := ls_odt s; ls_env := ls_env s |}.
Definition ls_with_bmls (s : LS) (m : gmap Z bmap_mds_lease) : LS :=
  ls_with_leases s m (ls_leases s) (ls_writers s) (ls_readers s).
Definition ls_with_flags (s : LS) (fl : Z) : LS :=
  {| ls_bmls := ls_bmls s; ls_leases := ls_leases s; ls_writers := ls_writers s; ls_readers := ls_readers s;
     ls_flags := fl; ls_wr_ion := ls_wr_ion s; ls_assign := ls_assign s; ls_seq := ls_seq s;
     ls_fid := ls_fid s; ls_bmapno := ls_bmapno s; ls_opcnt := ls_opcnt s; ls_tt := ls_tt s;
     ls_coh := ls_coh s; ls_freed := ls_freed s; ls_now := ls_now s; ls_odt := ls_odt s; ls_env := ls_env s |}.
Definition ls_with_ios (s : LS) (ion : option Z) (asg : option Z) (sq : Z) (o : T) (fr : list Z) : LS :=
  {| ls_bmls := ls_bmls s; ls_leases := ls_leases s; ls_writers := ls_writers s; ls_readers := ls_readers s;
     ls_flags := ls_flags s; ls_wr_ion := ion; ls_assign := asg; ls_seq := sq;
     ls_fid := ls_fid s; ls_bmapno := ls_bmapno s; ls_opcnt := ls_opcnt s; ls_tt := ls_tt s;
     ls_coh := ls_coh s; ls_freed := fr; ls_now := ls_now s; ls_odt := o; ls_env := ls_env s |}.
Definition ls_with_misc (s : LS) (op : Z) (tt : bmap_timeo_table) (coh : list Z) (e : E) : LS :=
  {| ls_bmls := ls_bmls s; ls_leases := ls_leases s; ls_writers := ls_writers s; ls_readers := ls_readers s;
     ls_flags := ls_flags s; ls_wr_ion := ls_wr_ion s; ls_assign := ls_assign s; ls_seq := ls_seq s;
     ls_fid := ls_fid s; ls_bmapno := ls_bmapno s; ls_opcnt := op; ls_tt := tt;
     ls_coh := coh; ls_freed := ls_freed s; ls_now := ls_now s; ls_odt := ls_odt s; ls_env := e |}.

Definition getL (p : Z) : LM bmap_mds_lease := λ s,
  match ls_bmls s !! p with Some b => Done (b, s) | None => Stuck NullDeref end.
Definition modL (p : Z) (g : bmap_mds_lease → bmap_mds_lease) : LM unit := λ s,
  match ls_bmls s !! p with
  | Some b => Done (tt, ls_with_bmls s (<[p := g b]> (ls_bmls s)))
  | None => Stuck NullDeref
  end.
Definition setLf (p fl : Z) : LM unit := modL p (λ b, l_with_flags b (setf (bml_flags b) fl)).
Definition clrLf (p fl : Z) : LM unit := modL p (λ b, l_with_flags b (clrf (bml_flags b) fl)).
Definition setB (fl : Z) : LM unit := modifyM (λ s, ls_with_flags s (setf (ls_flags s) fl)).
Definition clrB (fl : Z) : LM unit := modifyM (λ s, ls_with_flags s (clrf (ls_flags s) fl)).
Definition onEnv {A} (m : M E A) : LM A := λ s,
  match m (ls_env s) with
  | Done (a, e) => Done (a, ls_with_misc s (ls_opcnt s) (ls_tt s) (ls_coh s) e)
  | Stuck w => Stuck w
  end.
Definition seq_of (s : LS) (p : Z) : Z := from_option bml_seq 0 (ls_bmls s !! p).

(** [mds_bmap_timeotbl_mdsi] and [mds_bmap_timeotbl_getnextseq] on the
    table of the server. *)
Definition timeotbl_mdsi (p : Z) (op : bte) : LM Z :=
  b ← getL p;
  s ← getM;
  let '(sq, tq, t) := mds_bmap_timeotbl_mdsi (seq_of s) p (hasf (bml_flags b) BML_TIMEOQ) op (ls_tt s) in
  _ ← putM (ls_with_misc s (ls_opcnt s) t (ls_coh s) (ls_env s));
  _ ← (if (tq : bool) then setLf p BML_TIMEOQ else clrLf p BML_TIMEOQ);
  mret sq.
Definition timeotbl_getnextseq : LM Z :=
  s ← getM;
  let '(sq, t) := mds_bmap_timeotbl_getnextseq (ls_tt s) in
  _ ← putM (ls_with_misc s (ls_opcnt s) t (ls_coh s) (ls_env s));
  mret sq.

(** *** Rings of leases

    [do { ...; p = p->bml_chain; } while (p != h);] visits the leases that
    [ring_ids] lists, starting at [p]; the bodies of these loops do not
    change the chain.  No ring is longer than the number of leases. *)
Fixpoint ring_ids (fuel : nat) (h p : Z) : LM (list Z) :=
  match fuel with
  | O => stuckM OutOfFuel
  | S fuel =>
      b ← getL p;
      if bml_chain b =? h then mret [p]
      else l ← ring_ids fuel h (bml_chain b); mret (p :: l)
  end.
Definition ring_of (h : Z) : LM (list Z) :=
  s ← getM; ring_ids (S (size (ls_bmls s))) h h.

(** [while (tail->bml_chain != bml) tail = tail->bml_chain;] *)
Fixpoint ring_pred (fuel : nat) (tail bml : Z) : LM Z :=
  match fuel with
  | O => stuckM OutOfFuel
  | S fuel =>
      b ← getL tail;
      if bml_chain b =? bml then mret tail else ring_pred fuel (bml_chain b) bml
  end.

(** *** Direct I/O *)

(** [mdscoh_req]: ask the holder to switch to direct I/O.  A recovered lease
    has no connection to its client. *)
Definition mdscoh_req (p : Z) : LM unit :=
  b ← getL p;
  if hasf (bml_flags b) BML_RECOVER then psc_assert (negb (bml_exp b))
  else
    _ ← psc_assert (bml_exp b);
    modifyM (λ s, ls_with_misc s (ls_opcnt s) (ls_tt s) (ls_coh s ++ [p]) (ls_env s)).

(** The body of the inner loop of [mds_bmap_directio]; the value is [rc] and
    [force_dio]. *)
Definition directio_lease (np : client) (p rc : Z) (force_dio : bool) : LM (Z * bool) :=
  b ← getL p;
  if bool_decide (bml_cli_nidpid b = np) then mret (rc, force_dio)
  else if hasf (bml_flags b) BML_DIO then mret (rc, true)
  else
    _ ← whenM (negb (hasf (bml_flags b) BML_DIOCB))
          (_ ← setLf p BML_DIOCB; _ ← setB BMAPF_DIOCB; mdscoh_req p);
    mret (- SLERR_BMAP_DIOWAIT, true).
Fixpoint directio_ring (np : client) (l : list Z) (rc : Z) (force_dio : bool) : LM (Z * bool) :=
  match l with
  | [] => mret (rc, force_dio)
  | p :: l => r ← directio_lease np p rc force_dio; directio_ring np l r.1 r.2
  end.
Fixpoint directio_leases (np : client) (hs : list Z) (rc : Z) (force_dio : bool) : LM (Z * bool) :=
  match hs with
  | [] => mret (rc, force_dio)
  | h :: hs =>
      l ← ring_of h;
      r ← directio_ring np l rc force_dio;
      directio_leases np hs r.1 r.2
  end.

Definition mds_bmap_directio (w : rw) (want_dio : bool) (np : client) : LM Z :=
  s ← getM;
  if hasf (ls_flags s) BMAPF_DIO then mret 0 else
  let want_dio := want_dio || hasf (ls_flags s) BMAPF_DIOCB in
  let check_leases := want_dio || negb (ls_writers s =? 0)
    || (match w with SL_WRITE => negb (ls_readers s =? 0) | SL_READ => false end) in
  r ← (if check_leases then directio_leases np (ls_leases s) 0 false else mret (0, false));
  _ ← whenM ((r.1 =? 0) && (want_dio || r.2)) (_ ← setB BMAPF_DIO; clrB BMAPF_DIOCB);
  mret r.1.

(** *** Finding leases *)

(** [mds_bmap_dupls_find]: the first lease of the client, and how many write
    and read leases it holds. *)
Fixpoint dupls_scan (cnp : client) (hs : list Z) (bml : option Z) : LM (option Z) :=
  match hs with
  | [] => mret bml
  | h :: hs =>
      b ← getL h;
      if bool_decide (bml_cli_nidpid b = cnp) then
        _ ← psc_assert (bool_decide (bml = None)); dupls_scan cnp hs (Some h)
      else dupls_scan cnp hs bml
  end.
Fixpoint dupls_count (l : list Z) (wlease rlease : Z) : LM (Z * Z) :=
  match l with
  | [] => mret (wlease, rlease)
  | p :: l =>
      b ← getL p;
      if hasf (bml_flags b) BML_READ then dupls_count l wlease (rlease + 1)
      else dupls_count l (wlease + 1) rlease
  end.
Definition mds_bmap_dupls_find (cnp : client) : LM (option Z * Z * Z) :=
  s ← getM;
  r ← dupls_scan cnp (ls_leases s) None;
  match r with
  | None => mret (None, 0, 0)
  | Some h =>
      l ← ring_of h;
      '(wl, rl) ← dupls_count l 0 0;
      mret (Some h, wl, rl)
  end.

(** [mds_bmap_getbml]: take a reference on the lease with this number. *)
Fixpoint getbml_ring (seq : Z) (l : list Z) : LM (option (option Z)) :=
  match l with
  | [] => mret None
  | p :: l =>
      b ← getL p;
      if bml_seq b =? seq then
        if hasf (bml_flags b) BML_FREEING then mret (Some None)
        else _ ← modL p (λ b, l_with_refcnt b (bml_refcnt b + 1)); mret (Some (Some p))
      else getbml_ring seq l
  end.
Fixpoint getbml_leases (seq : Z) (cnp : client) (hs : list Z) : LM (option Z) :=
  match hs with
  | [] => mret None
  | h :: hs =>
      b ← getL h;
      if bool_decide (bml_cli_nidpid b = cnp) then
        l ← ring_of h;
        r ← getbml_ring seq l;
        match r with
        | Some o => mret o
        | None => getbml_leases seq cnp hs
        end
      else getbml_leases seq cnp hs
  end.
Definition mds_bmap_getbml (seq : Z) (cnp : client) : LM (option Z) :=
  s ← getM; getbml_leases seq cnp (ls_leases s).

(** *** Assignment of an I/O system *)
Definition mk_bia (s : LS) (ios : Z) (cli : client) (sq : Z) : bmap_ios_assign :=
  {| bia_ios := ios; bia_lastcli := cli; bia_fid := ls_fid s; bia_seq := sq; bia_bmapno := ls_bmapno s;
     bia_start := ls_now s; bia_flags := if hasf (ls_flags s) BMAPF_DIO then BIAF_DIO else 0 |}.

(** The call of [mds_bmap_add_repl]; its first assertion is about the bmap's
    flags. *)
Definition add_repl (bia : bmap_ios_assign) : LM Z :=
  s ← getM;
  _ ← psc_assert (hasf (ls_flags s) BMAPF_IOSASSIGNED);
  onEnv (env_add_repl bia (ls_assign s)).

Definition mds_bmap_ios_assign (p iosid : Z) : LM Z :=
  s ← getM;
  _ ← psc_assert (bool_decide (ls_wr_ion s = None));
  _ ← psc_assert (bool_decide (ls_assign s = None));
  _ ← psc_assert (ls_opcnt s >? 0);
  resm ← onEnv (env_resm_select iosid []);
  _ ← psc_assert (hasf (ls_flags s) BMAPF_IOSASSIGNED);
  match resm with
  | None => _ ← setB BMAPF_NOION; _ ← setLf p BML_ASSFAIL; mret (- SLERR_ION_OFFLINE)
  | Some ion =>
      _ ← modifyM (λ s, ls_with_ios s (Some ion) (ls_assign s) (ls_seq s) (ls_odt s) (ls_freed s));
      s ← getM;
      let '(elem, o) := odt_allocslot (ls_odt s) in
      _ ← putM (ls_with_ios s (ls_wr_ion s) (ls_assign s) (ls_seq s) o (ls_freed s));
      match elem with
      | None => _ ← setB BMAPF_NOION; _ ← setLf p BML_ASSFAIL; mret (- ENOMEM)
      | Some elem =>
          _ ← clrB BMAPF_NOION;
          _ ← modL p (λ b, l_with_ios_seq b ion (bml_seq b));
          sq ← timeotbl_mdsi p BTE_ADD;
          b ← getL p;
          s ← getM;
          let bia := mk_bia s ion (bml_cli_nidpid b) sq in
          _ ← putM (ls_with_ios s (ls_wr_ion s) (Some elem) sq (odt_putitem (ls_odt s) elem bia) (ls_freed s));
          rc ← add_repl bia;
          if negb (rc =? 0) then mret (-1)
          else _ ← modL p (λ b, l_with_ios_seq b (bml_ios b) sq); mret 0
      end
  end.

Definition mds_bmap_ios_update (p : Z) : LM Z :=
  s ← getM;
  _ ← psc_assert (hasf (ls_flags s) BMAPF_IOSASSIGNED);
  match ls_assign s with
  | None => stuckM NullDeref
  | Some elem =>
      let bia := odt_getitem (ls_odt s) elem in
      if negb (bia_fid bia =? ls_fid s) then mret (-1) else
      _ ← psc_assert (bia_seq bia =? ls_seq s);
      sq ← timeotbl_mdsi p BTE_ADD;
      b ← getL p;
      s ← getM;
      let bia := {| bia_ios := bia_ios bia; bia_lastcli := bml_cli_nidpid b; bia_fid := bia_fid bia;
                    bia_seq := sq; bia_bmapno := bia_bmapno bia; bia_start := ls_now s;
                    bia_flags := if hasf (ls_flags s) BMAPF_DIO then BIAF_DIO else 0 |} in
      _ ← putM (ls_with_ios s (ls_wr_ion s) (ls_assign s) sq (odt_replaceitem (ls_odt s) elem bia) (ls_freed s));
      _ ← modL p (λ b, l_with_ios_seq b (bia_ios bia) sq);
      add_repl bia
  end.

Definition mds_bmap_ios_restart (p : Z) : LM Z :=
  b ← getL p;
  s ← getM;
  _ ← psc_assert (negb (bool_decide (ls_assign s = None)));
  _ ← putM (ls_with_ios s (Some (bml_ios b)) (ls_assign s) (ls_seq s) (ls_odt s) (ls_freed s));
  sq ← timeotbl_mdsi p BTE_REATTACH;
  s ← getM;
  _ ← putM (ls_with_ios s (ls_wr_ion s) (ls_assign s) (bml_seq b) (ls_odt s) (ls_freed s));
  mret (if sq =? BMAPSEQ_ANY then 1 else 0).

(** *** Adding a lease *)

(** The part of [mds_bmap_bml_add] that links the lease [p] in; [obml] is
    the first lease of the client. *)
Definition bml_link (p : Z) (obml : option Z) : LM unit :=
  _ ← match obml with
      | Some h =>
          _ ← setLf p BML_CHAIN;
          l ← ring_of h;
          _ ← modL (default h (last l)) (λ b, l_with_chain b p);
          modL p (λ b, l_with_chain b h)
      | None =>
          _ ← modL p (λ b, l_with_chain b p);
          modifyM (λ s, ls_with_leases s (ls_bmls s) (ls_leases s ++ [p]) (ls_writers s) (ls_readers s))
      end;
  setLf p BML_BMI.

Definition add_counts (dw dr : Z) : LM unit :=
  modifyM (λ s, ls_with_leases s (ls_bmls s) (ls_leases s) (ls_writers s + dw) (ls_readers s + dr)).

(** The two ends of [mds_bmap_bml_add]; [recover] is the [BML_RECOVER] flag
    of the lease, [ios] its [bml_ios]. *)
Definition bml_add_write (p : Z) (recover : bool) (ios prefios wlease rlease : Z) : LM Z :=
  _ ← setB BMAPF_IOSASSIGNED;
  _ ← whenM (wlease =? 0) (add_counts 1 (if negb (rlease =? 0) then -1 else 0));
  s ← getM;
  rc ← (if recover then
          _ ← psc_assert (ls_writers s =? 1);
          _ ← psc_assert (ls_readers s =? 0);
          _ ← psc_assert (bool_decide (ls_wr_ion s = None));
          _ ← psc_assert (negb (ios =? 0) && negb (ios =? IOS_ID_ANY));
          mds_bmap_ios_restart p
        else if (wlease =? 0) && (ls_writers s =? 1) then
          _ ← psc_assert (bool_decide (ls_wr_ion s = None));
          mds_bmap_ios_assign p prefios
        else
          _ ← psc_assert (negb (bool_decide (ls_wr_ion s = None)));
          mds_bmap_ios_update p);
  _ ← clrB BMAPF_IOSASSIGNED;
  mret rc.
Definition bml_add_read (p wlease rlease rc : Z) : LM Z :=
  sq ← timeotbl_getnextseq;
  _ ← modL p (λ b, l_with_ios_seq b (bml_ios b) sq);
  _ ← whenM ((wlease =? 0) && (rlease =? 0)) (add_counts 0 1);
  _ ← timeotbl_mdsi p BTE_ADD;
  mret rc.

Definition mds_bmap_bml_add (p : Z) (w : rw) (prefios : Z) : LM Z :=
  b ← getL p;
  let cnp := bml_cli_nidpid b in
  _ ← psc_assert (negb (cnp.1 =? 0) && negb (cnp.2 =? 0) && negb (cnp.1 =? LNET_NID_ANY)
                  && negb (cnp.2 =? LNET_PID_ANY));
  s ← getM;
  _ ← wait_until (negb (hasf (ls_flags s) BMAPF_IOSASSIGNED));
  _ ← modifyM (λ s, ls_with_misc s (ls_opcnt s + 1) (ls_tt s) (ls_coh s) (ls_env s));
  rc ← mds_bmap_directio w (hasf (bml_flags b) BML_DIO) cnp;
  if negb (rc =? 0) && negb (hasf (bml_flags b) BML_RECOVER) then mret rc else
  '(obml, wlease, rlease) ← mds_bmap_dupls_find cnp;
  _ ← bml_link p obml;
  match w with
  | SL_WRITE => bml_add_write p (hasf (bml_flags b) BML_RECOVER) (bml_ios b) prefios wlease rlease
  | SL_READ => bml_add_read p wlease rlease rc
  end.

(** *** Upgrading a lease *)
Definition mds_bmap_bml_chwrmode (p prefios : Z) : LM Z :=
  s ← getM;
  _ ← wait_until (negb (hasf (ls_flags s) BMAPF_IOSASSIGNED));
  _ ← setB BMAPF_IOSASSIGNED;
  b ← getL p;
  rc ← (if hasf (bml_flags b) BML_WRITE then mret (- PFLERR_ALREADY) else
        rc ← mds_bmap_directio SL_WRITE false (bml_cli_nidpid b);
        if negb (rc =? 0) then mret rc else
        s ← getM;
        rc ← (if negb (bool_decide (ls_wr_ion s = None)) then mds_bmap_ios_update p
              else mds_bmap_ios_assign p prefios);
        if negb (rc =? 0) then _ ← setLf p BML_ASSFAIL; mret rc else
        s ← getM;
        _ ← psc_assert (negb (bool_decide (ls_wr_ion s = None)));
        '(_, wlease, rlease) ← mds_bmap_dupls_find (bml_cli_nidpid b);
        _ ← psc_assert (negb (rlease =? 0));
        _ ← whenM (wlease =? 0) (add_counts 1 (-1));
        _ ← clrLf p BML_READ;
        _ ← setLf p BML_WRITE;
        mret 0);
  _ ← clrB BMAPF_IOSASSIGNED;
  mret rc.

(** *** Removing a lease *)
Definition on_list (p : Z) : LM bool := getsM (λ s, bool_decide (p ∈ ls_leases s)).

(** The changes to the list and the ring; [tail] precedes [p] in its ring,
    [n] is the number of leases of the client. *)
Definition bml_unlink (p obml tail n : Z) : LM unit :=
  b ← getL p;
  if hasf (bml_flags b) BML_CHAIN then
    l ← on_list p;
    _ ← psc_assert (negb l);
    _ ← psc_assert (n >? 1);
    modL tail (λ t, l_with_chain t (bml_chain b))
  else
    _ ← psc_assert (obml =? p);
    _ ← modifyM (λ s, ls_with_leases s (ls_bmls s) (filter (λ x, x ≠ p) (ls_leases s))
                        (ls_writers s) (ls_readers s));
    if n >? 1 then
      c ← getL (bml_chain b);
      _ ← psc_assert (hasf (bml_flags c) BML_CHAIN);
      l ← on_list (bml_chain b);
      _ ← psc_assert (negb l);
      _ ← clrLf (bml_chain b) BML_CHAIN;
      _ ← modifyM (λ s, ls_with_leases s (ls_bmls s) (ls_leases s ++ [bml_chain b])
                          (ls_writers s) (ls_readers s));
      modL tail (λ t, l_with_chain t (bml_chain b))
    else psc_assert (bml_chain b =? p).

Definition mds_bmap_bml_del_locked (p : Z) : LM unit :=
  b ← getL p;
  '(obml, wlease, rlease) ← mds_bmap_dupls_find (bml_cli_nidpid b);
  match obml with
  | None => stuckM Assertion
  | Some h =>
      _ ← psc_assert (wlease + rlease >? 0);
      o ← getL h;
      _ ← psc_assert (negb (hasf (bml_flags o) BML_CHAIN));
      l ← on_list h;
      _ ← psc_assert l;
      s ← getM;
      tail ← ring_pred (S (size (ls_bmls s))) h p;
      _ ← bml_unlink p h tail (wlease + rlease);
      s ← getM;
      if hasf (bml_flags b) BML_WRITE then
        whenM (wlease =? 1)
          (_ ← psc_assert (ls_writers s >? 0); add_counts (-1) (if negb (rlease =? 0) then 1 else 0))
      else
        _ ← psc_assert (hasf (bml_flags b) BML_READ);
        whenM ((wlease =? 0) && (rlease =? 1))
          (_ ← psc_assert (ls_readers s >? 0); add_counts 0 (-1))
  end.

(** [mds_bmap_bml_release], before the lease is returned to its pool: the
    value is the receipt [odtr] to be freed, or [None]; [Some None] means
    the reference was not the last one. *)
Definition release_writer (p : Z) : LM (option Z) :=
  s ← getM;
  b ← getL p;
  if hasf (bml_flags b) BML_WRITE && (ls_writers s =? 0) then
    if hasf (ls_flags s) BMAPF_NOION then
      _ ← psc_assert (bool_decide (ls_assign s = None));
      _ ← psc_assert (bool_decide (ls_wr_ion s = None));
      mret None
    else if hasf (bml_flags b) BML_ASSFAIL then mret None
    else
      odtr ← (if negb (hasf (bml_flags b) BML_RECOVERFAIL) then
                match ls_assign s with
                | None => stuckM NullDeref
                | Some elem =>
                    let bia := odt_getitem (ls_odt s) elem in
                    _ ← psc_assert (bia_seq bia =? ls_seq s);
                    _ ← psc_assert (bia_bmapno bia =? ls_bmapno s);
                    mret (Some elem)
                end
              else _ ← psc_assert (bool_decide (ls_assign s = None)); mret None);
      _ ← match ls_wr_ion s with None => stuckM NullDeref | Some _ => mret tt end;
      _ ← putM (ls_with_ios s None None (ls_seq s) (ls_odt s) (ls_freed s));
      _ ← onEnv env_queue_work;
      mret odtr
  else mret None.

(** "Remove the directio flag if possible." *)
Definition release_dio : LM unit :=
  s ← getM;
  whenM (hasf (ls_flags s) (Z.lor BMAPF_DIO BMAPF_DIOCB)
         && ((ls_writers s =? 0) || ((ls_writers s =? 1) && (ls_readers s =? 0))))
    (clrB (Z.lor BMAPF_DIO BMAPF_DIOCB)).

(** From the label [out:] on: the reference of the lease and the lease itself
    go, and a freed assignment is journaled. *)
Definition release_done (p : Z) (odtr : option Z) : LM Z :=
  _ ← clrB BMAPF_IOSASSIGNED;
  _ ← modifyM (λ s, ls_with_bmls (ls_with_misc s (ls_opcnt s - 1) (ls_tt s) (ls_coh s) (ls_env s))
                      (delete p (ls_bmls s)));
  _ ← match odtr with
      | None => mret tt
      | Some elem =>
          modifyM (λ s, ls_with_ios s (ls_wr_ion s) (ls_assign s) (ls_seq s)
                          (odt_freeitem (ls_odt s) elem) (ls_freed s ++ [elem]))
      end;
  mret 0.

Definition mds_bmap_bml_release (p : Z) : LM Z :=
  s ← getM;
  _ ← psc_assert (ls_opcnt s >? 0);
  _ ← wait_until (negb (hasf (ls_flags s) BMAPF_IOSASSIGNED));
  _ ← setB BMAPF_IOSASSIGNED;
  b ← getL p;
  if (bml_refcnt b >? 1) || negb (hasf (bml_flags b) BML_FREEING) then
    _ ← psc_assert (bml_refcnt b >? 0);
    _ ← modL p (λ b, l_with_refcnt b (bml_refcnt b - 1));
    _ ← clrB BMAPF_IOSASSIGNED;
    mret 0
  else
    _ ← whenM (hasf (bml_flags b) BML_TIMEOQ) (_ ← timeotbl_mdsi p BTE_DEL; mret tt);
    odtr ← (if hasf (bml_flags b) BML_BMI then
              _ ← mds_bmap_bml_del_locked p;
              _ ← clrLf p BML_BMI;
              _ ← release_dio;
              release_writer p
            else mret None);
    release_done p odtr.

(** *** Creation and the requests of clients *)
Definition mds_bml_new (p : Z) (ex : bool) (flags : Z) (cnp : client) : LM unit :=
  modifyM (λ s, ls_with_bmls s (<[p := {| bml_seq := 0; bml_refcnt := 1; bml_ios := 0; bml_cli_nidpid := cnp;
    bml_flags := flags; bml_start := ls_now s; bml_expire := ls_now s + BMAP_TIMEO_MAX; bml_exp := ex;
    bml_chain := 0 |}]> (ls_bmls s))).

(** The marking of a lease whose addition failed, as in
    [mds_bmap_load_cli] and [mds_lease_renew]. *)
Definition bml_fail (p rc : Z) : LM unit :=
  _ ← setLf p BML_FREEING;
  whenM (rc =? - SLERR_ION_OFFLINE) (setLf p BML_ASSFAIL).

(** The lease part of [mds_bmap_load_cli], on a bmap that is loaded; [p] is
    the new lease.  The value is the code, and the number and I/O system
    granted. *)
Definition load_cli_lease (p : Z) (w : rw) (dio : bool) (prefios : Z) (cnp : client) : LM (Z * option (Z * Z)) :=
  _ ← mds_bml_new p true (Z.lor (match w with SL_WRITE => BML_WRITE | SL_READ => BML_READ end)
                            (if dio then BML_DIO else 0)) cnp;
  rc ← mds_bmap_bml_add p w prefios;
  g ← (if negb (rc =? 0) then _ ← bml_fail p rc; mret None
       else
         b ← getL p;
         s ← getM;
         match w with
         | SL_WRITE =>
             _ ← (match ls_assign s with None => stuckM NullDeref | Some _ => mret tt end);
             match ls_wr_ion s with
             | None => stuckM Assertion
             | Some ion => mret (Some (bml_seq b, ion))
             end
         | SL_READ => mret (Some (bml_seq b, IOS_ID_ANY))
         end);
  _ ← mds_bmap_bml_release p;
  mret (rc, g).

(** One entry of [mds_handle_rls_bmap]. *)
Definition handle_rls_bmap_one (seq : Z) (cnp : client) : LM unit :=
  r ← mds_bmap_getbml seq cnp;
  match r with
  | None => mret tt
  | Some p => _ ← setLf p BML_FREEING; _ ← mds_bmap_bml_release p; mret tt
  end.

(** [mds_lease_renew], on a bmap that is loaded. *)
Definition lease_renew (p seq : Z) (cnp cli : client) (sbd_ios : Z) : LM (Z * option (Z * Z)) :=
  obml ← mds_bmap_getbml seq cnp;
  let w := if sbd_ios =? IOS_ID_ANY then SL_READ else SL_WRITE in
  _ ← mds_bml_new p true (match w with SL_WRITE => BML_WRITE | SL_READ => BML_READ end) cli;
  rc ← mds_bmap_bml_add p w sbd_ios;
  g ← (if negb (rc =? 0) then _ ← bml_fail p rc; mret None
       else
         b ← getL p;
         s ← getM;
         g ← (match w with
              | SL_WRITE =>
                  match ls_wr_ion s, ls_assign s with
                  | None, _ => stuckM Assertion
                  | _, None => stuckM NullDeref
                  | Some ion, Some _ => mret (Some (bml_seq b, ion))
                  end
              | SL_READ => mret (Some (bml_seq b, IOS_ID_ANY))
              end);
         _ ← match obml with Some o => setLf o BML_FREEING | None => mret tt end;
         mret g);
  _ ← mds_bmap_bml_release p;
  _ ← match obml with Some o => _ ← mds_bmap_bml_release o; mret tt | None => mret tt end;
  mret (rc, g).

(** [mds_lease_reassign], on a bmap that is loaded. *)
Definition lease_reassign (seq : Z) (cnp : client) (pios : Z) (prev_ios : list Z) : LM (Z * option (Z * Z)) :=
  r ← mds_bmap_getbml seq cnp;
  match r with
  | None => mret (- ENOENT, None)
  | Some p =>
      b ← getL p;
      res ← (if negb (hasf (bml_flags b) BML_WRITE) then mret (- EINVAL, None) else
             s ← getM;
             _ ← wait_until (negb (hasf (ls_flags s) BMAPF_IOSASSIGNED));
             _ ← setB BMAPF_IOSASSIGNED;
             res ← (if (ls_writers s >? 1) || negb (ls_readers s =? 0) then mret (- EAGAIN, None) else
                    _ ← psc_assert (negb (bool_decide (ls_wr_ion s = None)));
                    _ ← psc_assert (negb (hasf (ls_flags s) BMAPF_DIO));
                    match ls_assign s with
                    | None => stuckM NullDeref
                    | Some elem =>
                        let bia := odt_getitem (ls_odt s) elem in
                        _ ← psc_assert (bia_seq bia =? ls_seq s);
                        resm ← onEnv (env_resm_select pios prev_ios);
                        match resm with
                        | None => mret (- SLERR_ION_OFFLINE, None)
                        | Some ion =>
                            sq ← timeotbl_mdsi p BTE_ADD;
                            s ← getM;
                            let bia := {| bia_ios := ion; bia_lastcli := bml_cli_nidpid b; bia_fid := bia_fid bia;
                                          bia_seq := sq; bia_bmapno := bia_bmapno bia; bia_start := ls_now s;
                                          bia_flags := bia_flags bia |} in
                            rc ← add_repl bia;
                            if negb (rc =? 0) then mret (rc, None) else
                            s ← getM;
                            _ ← putM (ls_with_ios s (ls_wr_ion s) (ls_assign s) sq
                                        (odt_replaceitem (ls_odt s) elem bia) (ls_freed s));
                            _ ← modL p (λ b, l_with_ios_seq b ion sq);
                            mret (0, Some (sq, ion))
                        end
                    end);
             s ← getM;
             _ ← psc_assert (hasf (ls_flags s) BMAPF_IOSASSIGNED);
             _ ← clrB BMAPF_IOSASSIGNED;
             mret res);
      _ ← mds_bmap_bml_release p;
      mret res
  end.

(** [slmcoh_releasebml]: the client has switched to direct I/O. *)
Definition slmcoh_releasebml (seq : Z) (peer : client) : LM Z :=
  r ← mds_bmap_getbml seq peer;
  match r with
  | None => mret 0
  | Some p =>
      _ ← setLf p BML_DIO;
      _ ← clrLf p BML_DIOCB;
      _ ← mds_bmap_bml_release p;
      mret 0
  end.

(** The lease part of [mds_bia_odtable_startup_cb]: a write lease found in
    the assignment table is recovered. *)
Definition recover_lease (p elem : Z) (bia : bmap_ios_assign) : LM Z :=
  _ ← mds_bml_new p false (Z.lor BML_WRITE BML_RECOVER) (bia_lastcli bia);
  _ ← modL p (λ b, l_with_ios_seq b (bia_ios bia) (bia_seq bia));
  _ ← whenM (hasf (bia_flags bia) BIAF_DIO) (setB BMAPF_DIO);
  _ ← modifyM (λ s, ls_with_ios s (ls_wr_ion s) (Some elem) (ls_seq s) (ls_odt s) (ls_freed s));
  rc ← mds_bmap_bml_add p SL_WRITE IOS_ID_ANY;
  _ ← whenM (negb (rc =? 0))
        (_ ← modifyM (λ s, ls_with_ios s (ls_wr_ion s) None (ls_seq s) (ls_odt s) (ls_freed s));
         setLf p (Z.lor BML_FREEING BML_RECOVERFAIL));
  _ ← mds_bmap_bml_release p;
  _ ← whenM (negb (rc =? 0))
        (modifyM (λ s, ls_with_ios s (ls_wr_ion s) (ls_assign s) (ls_seq s)
                         (odt_freeitem (ls_odt s) elem) (ls_freed s)));
  mret rc.

(** The test with which [mds_bmap_crc_write] admits an update from the I/O
    system [iosid]. *)
Definition crc_write_admits (s : LS) (iosid : Z) : bool := bool_decide (ls_wr_ion s = Some iosid).
End lease.
