(* ===== verification/LeaseInv.v ===== *)
(** * Correctness of the lease lists

    The abstract state of the leases of a bmap is a map from clients to the
    leases each of them holds, in the order they were granted, with a mark for
    write leases.  The list of the bmap, the rings of [bml_chain] pointers, the
    [BML_CHAIN] flags and the counts of readers and writers represent it. *)
From S2P Require Import Prelude ReplBits Inode ReplWalk BmapMds ReplMds ReplReq Replay Timeo Lease.

(** ** Abstract leases *)
Abbreviation held := (gmap client (list (Z * bool))).
Definition leases_of (A : held) (cl : client) : list (Z * bool) := default [] (A !! cl).
Definition writes (l : list (Z * bool)) : Prop := Exists (λ x, x.2 = true) l.
#[global] Instance writes_dec l : Decision (writes l).
Proof. unfold writes. apply _. Defined.
Definition reads_only (l : list (Z * bool)) : Prop := ¬ writes l.
#[global] Instance reads_only_dec l : Decision (reads_only l).
Proof. unfold reads_only. apply _. Defined.
Definition nwriters (A : held) : Z := Z.of_nat (size (filter (λ kv : client * list (Z * bool), writes kv.2) A)).
Definition nreaders (A : held) : Z := Z.of_nat (size (filter (λ kv : client * list (Z * bool), reads_only kv.2) A)).
Definition grant (A : held) (cl : client) (p : Z) (w : bool) : held :=
  <[cl := leases_of A cl ++ [(p, w)]]> A.
Definition drop_lease (p : Z) (l : list (Z * bool)) : list (Z * bool) := filter (λ x : Z * bool, x.1 ≠ p) l.
Definition revoke (A : held) (cl : client) (p : Z) : held :=
  match drop_lease p (leases_of A cl) with
  | [] => delete cl A
  | l => <[cl := l]> A
  end.

(** ** Representation *)

(** The lease [p] of the client [cl]: where its [bml_chain] points, whether it
    is a write lease, whether it is marked as chained. *)
Definition cell (m : gmap Z bmap_mds_lease) (cl : client) (p nxt : Z) (w ch : bool) : Prop :=
  ∃ b, m !! p = Some b ∧ bml_cli_nidpid b = cl ∧ bml_chain b = nxt ∧
       hasf (bml_flags b) BML_READ = negb w ∧ hasf (bml_flags b) BML_WRITE = w ∧
       hasf (bml_flags b) BML_CHAIN = ch ∧ bml_exp b = negb (hasf (bml_flags b) BML_RECOVER).
Definition first_of (l : list (Z * bool)) (h : Z) : Z := match l with [] => h | x :: _ => x.1 end.
Fixpoint seg (m : gmap Z bmap_mds_lease) (cl : client) (ch : bool) (l : list (Z * bool)) (h : Z) : Prop :=
  match l with
  | [] => True
  | x :: l => cell m cl x.1 (first_of l h) x.2 ch ∧ seg m cl true l h
  end.
Definition ring (m : gmap Z bmap_mds_lease) (cl : client) (l : list (Z * bool)) : Prop :=
  l ≠ [] ∧ NoDup l.*1 ∧ seg m cl false l (first_of l 0).

(** The list and the rings represent [A]; [ks] are the clients in the order
    of the list. *)
Definition linked (m : gmap Z bmap_mds_lease) (hs : list Z) (ks : list client) (A : held) : Prop :=
  NoDup ks ∧ (∀ cl, cl ∈ ks ↔ is_Some (A !! cl)) ∧
  hs = (λ cl, first_of (leases_of A cl) 0) <$> ks ∧
  map_Forall (ring m) A.

(** Numbers of write and read leases. *)
Definition count_w (l : list (Z * bool)) : Z := Z.of_nat (length (filter (λ x : Z * bool, x.2 = true) l)).
Definition count_r (l : list (Z * bool)) : Z := Z.of_nat (length (filter (λ x : Z * bool, x.2 = false) l)).

Section counts.
Implicit Types (A : held) (P : list (Z * bool) → Prop).

Lemma size_filter_delete P `{∀ l, Decision (P l)} A cl :
  size (filter (λ kv : client * list (Z * bool), P kv.2) A) =
  (size (filter (λ kv : client * list (Z * bool), P kv.2) (delete cl A)) +
   match A !! cl with Some l => if decide (P l) then 1 else 0 | None => 0 end)%nat.
Proof.
  destruct (A !! cl) as [l|] eqn:E.
  - rewrite <-(insert_delete_id A cl l E) at 1. case_decide as HP.
    + rewrite map_filter_insert_True by done. rewrite map_size_insert_None; [lia|].
      apply map_lookup_filter_None. left. apply lookup_delete_eq.
    + rewrite map_filter_insert_False by done. rewrite delete_delete_eq. lia.
  - rewrite delete_id by done. lia.
Qed.
Lemma size_filter_insert P `{∀ l, Decision (P l)} A cl l :
  size (filter (λ kv : client * list (Z * bool), P kv.2) (<[cl := l]> A)) =
  (size (filter (λ kv : client * list (Z * bool), P kv.2) (delete cl A)) +
   if decide (P l) then 1 else 0)%nat.
Proof.
  rewrite (size_filter_delete P (<[cl := l]> A) cl), lookup_insert_eq. by rewrite delete_insert_eq.
Qed.

Lemma writes_count l : writes l ↔ count_w l ≠ 0.
Proof.
  unfold writes, count_w. induction l as [|[p w] l IH].
  - rewrite Exists_nil. cbn. lia.
  - rewrite Exists_cons, filter_cons, IH. cbn [snd]. destruct w; case_decide; cbn [length]; try done.
    + split; [lia|by left].
    + split; [intros [?|?]|right]; done.
Qed.
Lemma count_app l1 l2 : count_w (l1 ++ l2) = count_w l1 + count_w l2 ∧ count_r (l1 ++ l2) = count_r l1 + count_r l2.
Proof. unfold count_w, count_r. rewrite !filter_app, !length_app. lia. Qed.
Lemma count_cons p w l :
  count_w ((p, w) :: l) = (if w then 1 else 0) + count_w l ∧ count_r ((p, w) :: l) = (if w then 0 else 1) + count_r l.
Proof. unfold count_w, count_r. rewrite !filter_cons. destruct w; cbn [snd]; repeat case_decide; try done; cbn [length]; lia. Qed.
Lemma count_length l : 0 ≤ count_w l ∧ 0 ≤ count_r l ∧ count_w l + count_r l = Z.of_nat (length l).
Proof.
  induction l as [|[p w] l IH]; [done|]. destruct (count_cons p w l) as [-> ->]. destruct w; cbn [length]; lia.
Qed.

(** What one client adds to the counts of the bmap. *)
Definition wr1 (l : list (Z * bool)) : Z := if count_w l =? 0 then 0 else 1.
Definition rd1 (l : list (Z * bool)) : Z := if (count_w l =? 0) && negb (count_r l =? 0) then 1 else 0.

Lemma wr1_spec l : (count_w l = 0 ∧ wr1 l = 0) ∨ (0 < count_w l ∧ wr1 l = 1).
Proof. pose proof (count_length l). unfold wr1. destruct (Z.eqb_spec (count_w l) 0); lia. Qed.
Lemma rd1_spec l :
  (count_w l = 0 ∧ 0 < count_r l ∧ rd1 l = 1) ∨ ((0 < count_w l ∨ count_r l = 0) ∧ rd1 l = 0).
Proof.
  pose proof (count_length l). unfold rd1.
  destruct (Z.eqb_spec (count_w l) 0), (Z.eqb_spec (count_r l) 0); cbn [negb andb]; lia.
Qed.

Lemma nwriters_at A cl :
  nwriters A = nwriters (delete cl A) + match A !! cl with Some l => if decide (writes l) then 1 else 0 | None => 0 end.
Proof.
  unfold nwriters. rewrite (size_filter_delete writes A cl), Nat2Z.inj_add. f_equal.
  destruct (A !! cl); [by case_decide|done].
Qed.
Lemma nreaders_at A cl :
  nreaders A = nreaders (delete cl A) + match A !! cl with Some l => if decide (reads_only l) then 1 else 0 | None => 0 end.
Proof.
  unfold nreaders. rewrite (size_filter_delete reads_only A cl), Nat2Z.inj_add. f_equal. destruct (A !! cl); [by case_decide|done].
Qed.

Lemma counts_at A cl :
  A !! cl ≠ Some [] →
  nwriters A = nwriters (delete cl A) + wr1 (leases_of A cl) ∧
  nreaders A = nreaders (delete cl A) + rd1 (leases_of A cl).
Proof.
  intros Hne. rewrite (nwriters_at A cl), (nreaders_at A cl). unfold leases_of.
  destruct (A !! cl) as [l|]; [|cbn [default from_option id]; change (wr1 []) with 0; change (rd1 []) with 0; lia]. cbn [default from_option id]. unfold wr1, rd1.
  pose proof (count_length l) as (H1 & H2 & H3). destruct l as [|x l]; [done|]. cbn [length] in H3.
  destruct (decide (writes (x :: l))) as [Hw|Hw]; rewrite writes_count in Hw.
  - rewrite decide_False by (unfold reads_only; rewrite writes_count; tauto). destruct (Z.eqb_spec (count_w (x :: l)) 0); cbn; lia.
  - rewrite decide_True by (unfold reads_only; rewrite writes_count; tauto).
    destruct (Z.eqb_spec (count_w (x :: l)) 0), (Z.eqb_spec (count_r (x :: l)) 0); cbn; lia.
Qed.

Lemma leases_of_grant A cl p w : leases_of (grant A cl p w) cl = leases_of A cl ++ [(p, w)].
Proof. unfold grant, leases_of at 1. by rewrite lookup_insert_eq. Qed.
Lemma leases_of_revoke A cl p : leases_of (revoke A cl p) cl = drop_lease p (leases_of A cl).
Proof.
  unfold revoke. destruct (drop_lease p (leases_of A cl)); unfold leases_of at 1.
  - by rewrite lookup_delete_eq.
  - by rewrite lookup_insert_eq.
Qed.
Lemma counts_grant A cl p w :
  nwriters (grant A cl p w) = nwriters (delete cl A) + wr1 (leases_of A cl ++ [(p, w)]) ∧
  nreaders (grant A cl p w) = nreaders (delete cl A) + rd1 (leases_of A cl ++ [(p, w)]).
Proof.
  destruct (counts_at (grant A cl p w) cl) as [H1 H2].
  { unfold grant. rewrite lookup_insert_eq. by destruct (leases_of A cl). }
  rewrite leases_of_grant in H1, H2. unfold grant in H1, H2 at 2. rewrite delete_insert_eq in H1, H2. by split.
Qed.
Lemma counts_revoke A cl p :
  nwriters (revoke A cl p) = nwriters (delete cl A) + wr1 (drop_lease p (leases_of A cl)) ∧
  nreaders (revoke A cl p) = nreaders (delete cl A) + rd1 (drop_lease p (leases_of A cl)).
Proof.
  destruct (counts_at (revoke A cl p) cl) as [H1 H2].
  { unfold revoke. destruct (drop_lease p (leases_of A cl)); [by rewrite lookup_delete_eq|by rewrite lookup_insert_eq]. }
  rewrite leases_of_revoke in H1, H2.
  assert (Hd : delete cl (revoke A cl p) = delete cl A).
  { unfold revoke. destruct (drop_lease p (leases_of A cl)); [by rewrite delete_delete_eq|by rewrite delete_insert_eq]. }
  rewrite Hd in H1, H2. by split.
Qed.
End counts.

(** ** Rings *)
Definition view (b : bmap_mds_lease) : client * Z * bool * bool * bool * bool * bool :=
  (bml_cli_nidpid b, bml_chain b, hasf (bml_flags b) BML_READ, hasf (bml_flags b) BML_WRITE,
   hasf (bml_flags b) BML_CHAIN, bml_exp b, hasf (bml_flags b) BML_RECOVER).
(** The two maps have the same leases, up to what the lists do not depend
    on. *)
Definition same_view (m m' : gmap Z bmap_mds_lease) : Prop := ∀ p, view <$> m !! p = view <$> m' !! p.

Section rings.
Implicit Types (m : gmap Z bmap_mds_lease) (l : list (Z * bool)) (cl : client).

Lemma cell_view m m' cl p nxt w ch :
  view <$> m !! p = view <$> m' !! p → cell m cl p nxt w ch → cell m' cl p nxt w ch.
Proof.
  intros Hv (b & Hb & H1 & H2 & H3 & H4 & H5 & H6). rewrite Hb in Hv.
  destruct (m' !! p) as [b'|] eqn:Hb'; simpl in Hv; [|done].
  unfold view in Hv. simplify_eq. exists b'. repeat split; congruence.
Qed.
Lemma cell_client m cl cl' p nxt nxt' w w' ch ch' :
  cell m cl p nxt w ch → cell m cl' p nxt' w' ch' → cl = cl'.
Proof. intros (b & Hb & <- & _) (b' & Hb' & <- & _). congruence. Qed.

Lemma seg_view m m' cl ch l h :
  (∀ p, p ∈ l.*1 → view <$> m !! p = view <$> m' !! p) → seg m cl ch l h → seg m' cl ch l h.
Proof.
  revert ch. induction l as [|[p w] l IH]; intros ch Hv; [done|]. simpl. intros [Hc Hs]. split.
  - eapply cell_view; [|exact Hc]. apply Hv. apply elem_of_cons. by left.
  - apply IH; [|done]. intros q Hq. apply Hv. apply elem_of_cons. by right.
Qed.
Lemma seg_app m cl ch l1 l2 h :
  seg m cl ch (l1 ++ l2) h ↔
  seg m cl ch l1 (first_of l2 h) ∧ seg m cl (match l1 with [] => ch | _ => true end) l2 h.
Proof.
  revert ch. induction l1 as [|x l1 IH]; intros ch; simpl; [tauto|].
  rewrite IH. replace (first_of (l1 ++ l2) h) with (first_of l1 (first_of l2 h)) by by destruct l1.
  destruct l1; simpl; tauto.
Qed.
Lemma seg_elem m cl ch l h p :
  seg m cl ch l h → p ∈ l.*1 → ∃ nxt w ch', (p, w) ∈ l ∧ cell m cl p nxt w ch'.
Proof.
  revert ch. induction l as [|[q w] l IH]; intros ch; simpl; [by intros _ ?%elem_of_nil|].
  intros [Hc Hs] [->|Hp]%elem_of_cons.
  - eexists _, _, _. split; [by left|exact Hc].
  - destruct (IH _ Hs Hp) as (nxt & w' & ch' & Hin & Hc'). exists nxt, w', ch'. split; [by right|done].
Qed.
Lemma seg_cell m cl ch l h p w : seg m cl ch l h → (p, w) ∈ l → ∃ nxt ch', cell m cl p nxt w ch'.
Proof.
  revert ch. induction l as [|x l IH]; intros ch; simpl; [by intros _ ?%elem_of_nil|].
  intros [Hc Hs] [<-|Hp]%elem_of_cons; [by eauto|]. by eapply IH.
Qed.
Lemma ring_elem m cl l p : ring m cl l → p ∈ l.*1 → ∃ nxt w ch, (p, w) ∈ l ∧ cell m cl p nxt w ch.
Proof. intros (_ & _ & Hs) Hp. by eapply seg_elem. Qed.
Lemma ring_view m m' cl l :
  (∀ p, p ∈ l.*1 → view <$> m !! p = view <$> m' !! p) → ring m cl l → ring m' cl l.
Proof. intros Hv (Hne & Hnd & Hs). split_and!; [done..|]. by eapply seg_view. Qed.

Lemma ring_length m cl l : ring m cl l → (length l ≤ size m)%nat.
Proof.
  intros Hr. rewrite <-(length_fmap fst l).
  rewrite <-(size_list_to_set (C := gset Z)) by apply Hr. rewrite <-size_dom.
  apply subseteq_size. intros p Hp%elem_of_list_to_set. apply elem_of_dom.
  destruct (ring_elem _ _ _ _ Hr Hp) as (nxt & w & ch & _ & b & Hb & _). by exists b.
Qed.

(** Two rings have no lease in common. *)
Lemma ring_disjoint m cl cl' l l' p :
  ring m cl l → ring m cl' l' → p ∈ l.*1 → p ∈ l'.*1 → cl = cl'.
Proof.
  intros Hr Hr' Hp Hp'.
  destruct (ring_elem _ _ _ _ Hr Hp) as (? & ? & ? & _ & Hc).
  destruct (ring_elem _ _ _ _ Hr' Hp') as (? & ? & ? & _ & Hc').
  by eapply cell_client.
Qed.

Lemma linked_view m m' hs ks A : same_view m m' → linked m hs ks A → linked m' hs ks A.
Proof.
  intros Hv (H1 & H2 & H3 & H4). split_and!; [done..|].
  intros cl l Hl. eapply ring_view; [|by apply H4]. intros p _. apply Hv.
Qed.
End rings.

(** ** The loops over the list and the rings *)
Section loops.
Context {T E : Type}.
Abbreviation LS := (lstate T E).
Implicit Types (s : LS).

Lemma getL_eq s p b : ls_bmls s !! p = Some b → getL p s = Done (b, s).
Proof. unfold getL. by intros ->. Qed.
Lemma modL_eq s p g b : ls_bmls s !! p = Some b → modL p g s = Done (tt, ls_with_bmls s (<[p := g b]> (ls_bmls s))).
Proof. unfold modL. by intros ->. Qed.

Lemma wp_getL s p b Q : ls_bmls s !! p = Some b → Q b s → wp (getL p) Q s.
Proof. intros Hb. unfold wp. by rewrite (getL_eq _ _ _ Hb). Qed.
Lemma wp_modL s p g b Q :
  ls_bmls s !! p = Some b → Q tt (ls_with_bmls s (<[p := g b]> (ls_bmls s))) → wp (modL p g) Q s.
Proof. intros Hb. unfold wp. by rewrite (modL_eq _ _ _ _ Hb). Qed.

Lemma ring_ids_eq s cl ch l h p w fuel :
  seg (ls_bmls s) cl ch ((p, w) :: l) h → h ∉ l.*1 → (length l < fuel)%nat →
  ring_ids fuel h p s = Done (p :: l.*1, s).
Proof.
  revert ch p w fuel. induction l as [|[q w'] l IH]; intros ch p w [|fuel] [Hc Hs] Hh Hf; try (simpl in Hf; lia).
  - destruct Hc as (b & Hb & _ & Hn & _). simpl in *. rewrite (bind_done _ _ _ _ _ (getL_eq _ _ _ Hb)).
    by rewrite Hn, Z.eqb_refl.
  - destruct Hc as (b & Hb & _ & Hn & _). cbn [ring_ids]. simpl in Hn, Hf, Hh.
    rewrite (bind_done _ _ _ _ _ (getL_eq _ _ _ Hb)), Hn.
    rewrite not_elem_of_cons in Hh. destruct (Z.eqb_spec q h) as [->|_]; [tauto|].
    rewrite (bind_done _ _ _ _ _ (IH true q w' fuel Hs (proj2 Hh) ltac:(lia))). done.
Qed.

Lemma ring_of_eq s cl l :
  ring (ls_bmls s) cl l → ring_of (first_of l 0) s = Done (l.*1, s).
Proof.
  intros Hr. pose proof (ring_length _ _ _ Hr) as Hlen. destruct Hr as (Hne & Hnd & Hs).
  destruct l as [|[p w] l]; [done|]. simpl in *. apply NoDup_cons in Hnd as [Hp Hnd].
  unfold ring_of. apply (ring_ids_eq s cl false l p p w); [done|done|lia].
Qed.

(** The last lease before the pointer [t]. *)
Lemma ring_pred_eq s cl ch l p w t fuel :
  seg (ls_bmls s) cl ch ((p, w) :: l) t → t ∉ l.*1 → (length l < fuel)%nat →
  ring_pred fuel p t s = Done (from_option fst p (last l), s).
Proof.
  revert ch p w fuel. induction l as [|[q w'] l IH]; intros ch p w [|fuel] [Hc Hs] Ht Hf; try (simpl in Hf; lia).
  - destruct Hc as (b & Hb & _ & Hn & _). simpl in *. rewrite (bind_done _ _ _ _ _ (getL_eq _ _ _ Hb)).
    by rewrite Hn, Z.eqb_refl.
  - destruct Hc as (b & Hb & _ & Hn & _). cbn [ring_pred]. simpl in Hn, Hf, Ht.
    rewrite (bind_done _ _ _ _ _ (getL_eq _ _ _ Hb)), Hn.
    rewrite not_elem_of_cons in Ht. destruct (Z.eqb_spec q t) as [->|_]; [tauto|].
    rewrite (IH true q w' fuel Hs (proj2 Ht) ltac:(lia)). rewrite last_cons. by destruct (last l).
Qed.

Lemma dupls_count_eq s cl ch l h wl rl :
  seg (ls_bmls s) cl ch l h → dupls_count l.*1 wl rl s = Done ((wl + count_w l, rl + count_r l), s).
Proof.
  revert ch wl rl. induction l as [|[p w] l IH]; intros ch wl rl; simpl.
  { intros _. unfold count_w, count_r. simpl. by rewrite !Z.add_0_r. }
  intros [(b & Hb & _ & _ & Hr & _) Hs]. rewrite (bind_done _ _ _ _ _ (getL_eq _ _ _ Hb)), Hr.
  unfold count_w, count_r. rewrite !filter_cons. destruct w; simpl; rewrite (IH _ _ _ Hs);
    unfold count_w, count_r;
    match goal with |- Done ((?a, ?b), _) = Done ((?c, ?d), _) => replace a with c by lia; replace b with d by lia end;
    reflexivity.
Qed.

Lemma dupls_scan_eq s A ks cnp o :
  map_Forall (ring (ls_bmls s)) A → NoDup ks → (∀ cl, cl ∈ ks → is_Some (A !! cl)) → (o = None ∨ cnp ∉ ks) →
  dupls_scan cnp ((λ cl, first_of (leases_of A cl) 0) <$> ks) o s =
  Done ((if decide (cnp ∈ ks) then Some (first_of (leases_of A cnp) 0) else o), s).
Proof.
  intros Hr. revert o. induction ks as [|cl ks IH]; intros o Hnd Hks Ho.
  { cbn [fmap list_fmap dupls_scan]. rewrite decide_False by apply not_elem_of_nil. done. }
  apply NoDup_cons in Hnd as [Hcl Hnd]. cbn [fmap list_fmap dupls_scan].
  destruct (Hks cl ltac:(by left)) as [l Hl]. pose proof (Hr _ _ Hl) as Hring.
  assert (Hlo : leases_of A cl = l) by (unfold leases_of; by rewrite Hl). rewrite Hlo.
  destruct Hring as (Hne & _ & Hs). destruct l as [|[p w] l]; [done|]. simpl in Hs.
  destruct Hs as [(b & Hb & Hcli & _) _]. cbn [first_of fst] in *.
  rewrite (bind_done _ _ _ _ _ (getL_eq _ _ _ Hb)), Hcli. destruct (decide (cl = cnp)) as [->|Hne'].
  - rewrite bool_decide_true by done. destruct Ho as [->|Ho]; [|by destruct Ho; left].
    rewrite bool_decide_true by done.
    erewrite (bind_done (psc_assert true)) by done.
    rewrite IH; [|done|intros; apply Hks; by right|by right].
    rewrite decide_False by done. rewrite decide_True by by left. by rewrite Hlo.
  - rewrite bool_decide_false by done. rewrite IH; [|done|intros; apply Hks; by right|].
    + f_equal. f_equal. apply decide_ext. rewrite elem_of_cons. split; [tauto|]. intros [->|?]; done.
    + destruct Ho as [?|Ho]; [tauto|right]. intros ?. apply Ho. by right.
Qed.

(** [mds_bmap_dupls_find] on a list that represents [A]. *)
Lemma dupls_find_eq s ks A cl :
  linked (ls_bmls s) (ls_leases s) ks A →
  mds_bmap_dupls_find cl s =
  Done ((fst <$> head (leases_of A cl), count_w (leases_of A cl), count_r (leases_of A cl)), s).
Proof.
  intros (Hnd & Hks & Hhs & Hr). unfold mds_bmap_dupls_find.
  erewrite (bind_done getM) by done. rewrite Hhs.
  erewrite bind_done; [|apply dupls_scan_eq; [done|done|by intros; apply Hks|by left]].
  case_decide as Hin.
  - apply Hks in Hin as [l Hl]. assert (Hlo : leases_of A cl = l) by (unfold leases_of; by rewrite Hl).
    rewrite Hlo. pose proof (Hr _ _ Hl) as Hring.
    erewrite (bind_done (ring_of _)) by by eapply ring_of_eq.
    erewrite (bind_done (dupls_count _ _ _)) by (eapply dupls_count_eq; apply Hring).
    destruct Hring as (Hne & _). by destruct l.
  - unfold leases_of. assert (A !! cl = None) as ->; [|done]. apply eq_None_not_Some. by rewrite <-Hks.
Qed.
End loops.

(** ** Changes to one client's ring *)

(** Only leases of [cl] differ. *)
Definition differs_at (cl : client) (m m' : gmap Z bmap_mds_lease) : Prop :=
  ∀ q, (∃ b, m !! q = Some b ∧ bml_cli_nidpid b = cl) ∨ m !! q = m' !! q.
(** A lease without its place in the lists. *)
Definition rest (b : bmap_mds_lease) : bmap_mds_lease :=
  l_with_chain (l_with_flags b (clrf (bml_flags b) (Z.lor BML_CHAIN BML_BMI))) 0.
Definition same_rest (m m' : gmap Z bmap_mds_lease) : Prop := ∀ q, rest <$> m !! q = rest <$> m' !! q.

Section changes.
Implicit Types (m : gmap Z bmap_mds_lease) (l : list (Z * bool)) (cl : client) (A : held).

Lemma differs_refl cl m : differs_at cl m m.
Proof. by right. Qed.
Lemma differs_insert cl m m' p b b' :
  differs_at cl m m' → m !! p = Some b → bml_cli_nidpid b = cl → differs_at cl m (<[p := b']> m').
Proof.
  intros Hd Hb Hcl q. destruct (decide (q = p)) as [->|Hne]; [left; eauto|].
  rewrite lookup_insert_ne by done. apply Hd.
Qed.
Lemma same_rest_refl m : same_rest m m.
Proof. done. Qed.
Lemma same_rest_insert m m' p b b' :
  same_rest m m' → m' !! p = Some b → rest b' = rest b → same_rest m (<[p := b']> m').
Proof.
  intros Hs Hb Hr q. destruct (decide (q = p)) as [->|Hne].
  - rewrite lookup_insert_eq, Hs, Hb. simpl. by rewrite Hr.
  - by rewrite lookup_insert_ne.
Qed.
Lemma rest_setf b f : Z.ldiff f (Z.lor BML_CHAIN BML_BMI) = 0 → rest (l_with_flags b (setf (bml_flags b) f)) = rest b.
Proof.
  intros Hf. unfold rest, clrf, setf. destruct b; cbn -[Z.lor Z.lnot Z.land].
  by rewrite Z.land_lor_distr_l, <-(Z.ldiff_land f), Hf, Z.lor_0_r.
Qed.
Lemma rest_clrf b f : Z.ldiff f (Z.lor BML_CHAIN BML_BMI) = 0 → rest (l_with_flags b (clrf (bml_flags b) f)) = rest b.
Proof.
  intros Hf. unfold rest, clrf. destruct b as [? ? ? ? fl ? ? ? ?]; cbn -[Z.lor Z.lnot Z.land].
  do 2 f_equal. rewrite <-Z.land_assoc, <-Z.lnot_lor. do 2 f_equal.
  apply Z.bits_inj'. intros n Hn. rewrite Z.lor_spec.
  assert (Hb : Z.testbit (Z.ldiff f (Z.lor BML_CHAIN BML_BMI)) n = false) by by rewrite Hf, Z.bits_0.
  rewrite Z.ldiff_spec in Hb. by destruct (Z.testbit f n), (Z.testbit _ n).
Qed.

Lemma rings_frame m m' A cl :
  map_Forall (ring m) A → differs_at cl m m' → map_Forall (ring m') (delete cl A).
Proof.
  intros Hr Hd cl' l' [Hne Hl']%lookup_delete_Some. eapply ring_view; [|by apply Hr].
  intros q Hq. destruct (Hd q) as [(b & Hb & Hc)|Heq]; [|by rewrite Heq].
  destruct (ring_elem _ _ _ _ (Hr _ _ Hl') Hq) as (? & ? & ? & _ & b' & Hb' & Hc' & _). congruence.
Qed.

Lemma linked_same m m' hs ks A cl l l' :
  linked m hs ks A → A !! cl = Some l → first_of l' 0 = first_of l 0 → differs_at cl m m' → ring m' cl l' →
  linked m' hs ks (<[cl := l']> A).
Proof.
  intros (Hnd & Hks & Hhs & Hr) Hl Hf Hd Hr'. split_and!; [done| | |].
  - intros cl'. rewrite Hks, lookup_insert_is_Some. destruct (decide (cl = cl')) as [->|]; [|tauto].
    rewrite Hl. split; [by left|]. by eexists.
  - rewrite Hhs. apply list_fmap_ext. intros i cl' _. unfold leases_of.
    destruct (decide (cl' = cl)) as [->|]; [by rewrite lookup_insert_eq, Hl|by rewrite lookup_insert_ne].
  - rewrite <-insert_delete_eq. apply map_Forall_insert_2; [done|]. by eapply rings_frame.
Qed.

Lemma linked_new m m' hs ks A cl l' :
  linked m hs ks A → A !! cl = None → differs_at cl m m' → ring m' cl l' →
  linked m' (hs ++ [first_of l' 0]) (ks ++ [cl]) (<[cl := l']> A).
Proof.
  intros (Hnd & Hks & Hhs & Hr) Hl Hd Hr'.
  assert (Hcl : cl ∉ ks) by (rewrite Hks, Hl; by intros [? ?]). split_and!.
  - apply NoDup_app. split_and!; [done| |apply NoDup_singleton].
    by intros x Hx ->%list_elem_of_singleton.
  - intros cl'. rewrite elem_of_app, list_elem_of_singleton, Hks, lookup_insert_is_Some'. split; intros [?|?]; auto.
  - rewrite fmap_app. cbn [fmap list_fmap]. f_equal.
    + rewrite Hhs. apply list_fmap_ext. intros i cl' Hi. unfold leases_of.
      rewrite lookup_insert_ne; [done|]. intros ->. apply Hcl. by eapply list_elem_of_lookup_2.
    + unfold leases_of. by rewrite lookup_insert_eq.
  - rewrite <-insert_delete_eq. apply map_Forall_insert_2; [done|]. by eapply rings_frame.
Qed.

Lemma linked_delete m m' hs ks A cl l :
  linked m hs ks A → A !! cl = Some l → differs_at cl m m' →
  linked m' (filter (λ x, x ≠ first_of l 0) hs) (filter (λ x, x ≠ cl) ks) (delete cl A).
Proof.
  intros (Hnd & Hks & Hhs & Hr) Hl Hd. split_and!.
  - by apply NoDup_filter.
  - intros cl'. rewrite list_elem_of_filter, Hks, lookup_delete_is_Some. split; intros [? ?]; split; auto.
  - rewrite Hhs. clear Hhs Hnd. assert (Hsub : ∀ x, x ∈ ks → is_Some (A !! x)) by (intros; by apply Hks). clear Hks.
    induction ks as [|cl' ks IH]; [done|]. cbn [fmap list_fmap].
    destruct (Hsub cl' ltac:(by left)) as [l' Hl']. rewrite !filter_cons.
    assert (Hlo : leases_of A cl' = l') by (unfold leases_of; by rewrite Hl').
    destruct (decide (cl' ≠ cl)) as [Hne|Heq].
    + rewrite decide_True. 2:{ rewrite Hlo. intros Heq. apply Hne.
        assert (Hin : ∀ x c, ring m c x → first_of x 0 ∈ x.*1) by (intros [|? ?] ? []; [done|by left]).
        eapply (ring_disjoint m cl' cl l' l (first_of l' 0)); [by apply Hr|by apply Hr| |].
        - eapply Hin. by apply Hr.
        - rewrite Heq. eapply Hin. by apply Hr. }
      cbn [fmap list_fmap]. f_equal.
      * unfold leases_of. by rewrite lookup_delete_ne.
      * apply IH. intros x Hx. apply Hsub. by right.
    + apply dec_stable in Heq as ->. rewrite decide_False.
      2:{ intros Hc. apply Hc. rewrite Hlo. congruence. }
      apply IH. intros x Hx. apply Hsub. by right.
  - by eapply rings_frame.
Qed.
End changes.

(** ** Linking and unlinking a lease *)
Section link.
Context {T E : Type}.
Implicit Types (s : lstate T E) (m : gmap Z bmap_mds_lease) (l : list (Z * bool)) (cl : client) (A : held).

(** A lease that is not in the lists yet. *)
Definition new_lease (A : held) (cl : client) (w : bool) (p : Z) (b : bmap_mds_lease) : Prop :=
  bml_cli_nidpid b = cl ∧ (p ∉ (leases_of A cl).*1) ∧
  hasf (bml_flags b) BML_READ = negb w ∧ hasf (bml_flags b) BML_WRITE = w ∧
  hasf (bml_flags b) BML_CHAIN = false ∧ bml_exp b = negb (hasf (bml_flags b) BML_RECOVER).

(** A ring with one more lease at its end. *)
Lemma ring_extend m m' cl l p w :
  ring m cl l → p ∉ l.*1 →
  (∀ q, q ∈ l.*1 → q ≠ from_option fst 0 (last l) → view <$> m !! q = view <$> m' !! q) →
  (∀ q w' ch, last l = Some (q, w') → cell m cl q (first_of l 0) w' ch → cell m' cl q p w' ch) →
  cell m' cl p (first_of l 0) w true →
  ring m' cl (l ++ [(p, w)]).
Proof.
  intros (Hne & Hnd & Hs) Hp Hv Hq Hc. destruct (exists_last Hne) as (l1 & [q w'] & ->).
  rewrite last_snoc in Hv, Hq. cbn in Hv.
  assert (Hfo : ∀ x y, first_of ((l1 ++ [(q, w')]) ++ x) y = first_of (l1 ++ [(q, w')]) 0) by (intros; by destruct l1).
  split_and!; [by destruct l1| |].
  - rewrite fmap_app. apply NoDup_app. split_and!; [done| |apply NoDup_singleton].
    intros x Hx ->%list_elem_of_singleton. done.
  - rewrite Hfo. apply seg_app. apply seg_app in Hs as [Hs1 [Hcq _]]. split.
    + apply seg_app. split.
      * eapply seg_view; [|exact Hs1]. intros x Hx. apply Hv.
        { rewrite fmap_app, elem_of_app. by left. }
        rewrite fmap_app in Hnd. apply NoDup_app in Hnd as (_ & Hnd & _). intros ->. apply (Hnd q Hx). by left.
      * split; [|done]. by apply Hq.
    + destruct l1; by split.
Qed.

Definition link_post (s : lstate T E) (A : held) (cl : client) (p : Z) (w : bool) : Prop :=
  ∃ m' hs' ks',
    bml_link p (fst <$> head (leases_of A cl)) s = Done (tt, ls_with_leases s m' hs' (ls_writers s) (ls_readers s)) ∧
    linked m' hs' ks' (grant A cl p w) ∧ same_rest (ls_bmls s) m' ∧
    (∃ b', m' !! p = Some b' ∧ hasf (bml_flags b') BML_BMI = true).

(** The client has no lease yet: the new one goes on the list. *)
Lemma bml_link_first s ks A cl w p b :
  linked (ls_bmls s) (ls_leases s) ks A → ls_bmls s !! p = Some b → new_lease A cl w p b → A !! cl = None →
  link_post s A cl p w.
Proof.
  intros Hlk Hb (Hcl & Hp & HR & HW & HC & He) Hl.
  assert (Hlo : leases_of A cl = []) by (unfold leases_of; by rewrite Hl).
  set (b1 := l_with_chain b p). set (b2 := l_with_flags b1 (setf (bml_flags b1) BML_BMI)).
  set (m2 := <[p := b2]> (<[p := b1]> (ls_bmls s))).
  exists m2, (ls_leases s ++ [p]), (ks ++ [cl]). unfold bml_link, setLf. rewrite Hlo. cbn [head fmap option_fmap option_map].
  split_and!.
  - erewrite bind_done. 2:{ erewrite bind_done by by eapply modL_eq. done. }
    erewrite modL_eq by apply lookup_insert_eq. done.
  - unfold grant. rewrite Hlo. cbn [app]. change p with (first_of [(p, w)] 0) at 1.
    eapply linked_new; [done|done| |].
    + repeat (eapply differs_insert; [|done|done]). apply differs_refl.
    + split_and!; [done|apply NoDup_singleton|]. split; [|done]. exists b2.
      split; [apply lookup_insert_eq|]. unfold b2, b1. cbn. autorewrite with flags.
      rewrite HR, HW, HC, He. by split_and!.
  - eapply same_rest_insert; [|apply lookup_insert_eq|by apply rest_setf].
    eapply same_rest_insert; [apply same_rest_refl|done|done].
  - exists b2. split; [apply lookup_insert_eq|]. unfold b2. cbn. by autorewrite with flags.
Qed.

(** The client has leases: the new one goes to the end of its ring, behind
    [q]. *)
Lemma bml_link_chain s ks A cl w p b l1 q wq :
  linked (ls_bmls s) (ls_leases s) ks A → ls_bmls s !! p = Some b → new_lease A cl w p b →
  A !! cl = Some (l1 ++ [(q, wq)]) →
  link_post s A cl p w.
Proof.
  intros Hlk Hb (Hcl & Hp & HR & HW & HC & He) Hl. set (l := l1 ++ [(q, wq)]) in *.
  assert (Hlo : leases_of A cl = l) by (unfold leases_of; by rewrite Hl). rewrite Hlo in Hp.
  assert (Hring : ring (ls_bmls s) cl l) by by apply Hlk.
  assert (Hlast : last l = Some (q, wq)) by apply last_snoc.
  assert (Hhd : fst <$> head l = Some (first_of l 0)) by by destruct l1. set (h := first_of l 0) in *.
  set (b1 := l_with_flags b (setf (bml_flags b) BML_CHAIN)). set (m1 := <[p := b1]> (ls_bmls s)).
  assert (Hring1 : ring m1 cl l).
  { eapply ring_view; [|exact Hring]. intros x Hx. unfold m1. rewrite lookup_insert_ne; [done|]. by intros ->. }
  assert (Hql : q ∈ l.*1) by (unfold l; rewrite fmap_app, elem_of_app; right; by left).
  destruct (ring_elem _ _ _ _ Hring1 Hql) as (nq & wq' & chq & _ & bq & Hbq & Hclq & _).
  assert (Hpq : p ≠ q) by by intros ->.
  set (m2 := <[q := l_with_chain bq p]> m1). set (m3 := <[p := l_with_chain b1 h]> m2).
  set (b4 := l_with_flags (l_with_chain b1 h) (setf (bml_flags (l_with_chain b1 h)) BML_BMI)).
  exists (<[p := b4]> m3), (ls_leases s), ks. unfold bml_link, setLf. rewrite Hlo, Hhd. split_and!.
  - rewrite (bind_done _ _ _ tt (ls_with_leases s m3 (ls_leases s) (ls_writers s) (ls_readers s))).
    { erewrite modL_eq by apply lookup_insert_eq. done. }
    erewrite (bind_done (modL p _)) by by eapply modL_eq.
    erewrite (bind_done (ring_of h)) by by apply (ring_of_eq (ls_with_bmls s m1) cl).
    rewrite fmap_last, Hlast. erewrite (bind_done (modL q _)) by by eapply modL_eq.
    erewrite modL_eq by (cbn; unfold m2; rewrite lookup_insert_ne by done; apply lookup_insert_eq). done.
  - unfold grant. rewrite Hlo. eapply linked_same; [done|done|by destruct l1| |].
    + repeat (eapply differs_insert; [|done|done]).
      apply differs_insert with (b := bq); [|rewrite <-Hbq; unfold m1; by rewrite lookup_insert_ne|done].
      repeat (eapply differs_insert; [|done|done]). apply differs_refl.
    + eapply ring_extend; [exact Hring1|done| | |].
      * rewrite Hlast. cbn. intros x Hx Hne. unfold m3, m2.
        assert (p ≠ x) by by intros ->. by rewrite !lookup_insert_ne.
      * rewrite Hlast. intros ? ? ch [= <- <-] (b' & Hb' & H1 & H2 & H3).
        exists (l_with_chain bq p). unfold m3, m2. rewrite !lookup_insert_ne, lookup_insert_eq by done.
        simplify_eq. by split_and!; try apply H3.
      * exists b4. split; [apply lookup_insert_eq|]. unfold b4, b1. cbn.
        autorewrite with flags. rewrite HR, HW, He. by split_and!.
  - eapply same_rest_insert; [|apply lookup_insert_eq|by apply rest_setf].
    eapply same_rest_insert; [|unfold m2; rewrite lookup_insert_ne by done; apply lookup_insert_eq|done].
    eapply same_rest_insert; [|exact Hbq|done].
    eapply same_rest_insert; [apply same_rest_refl|done|by apply rest_setf].
  - exists b4. split; [apply lookup_insert_eq|]. unfold b4. cbn. by autorewrite with flags.
Qed.

Lemma bml_link_eq s ks A cl w p b :
  linked (ls_bmls s) (ls_leases s) ks A → ls_bmls s !! p = Some b → new_lease A cl w p b → link_post s A cl p w.
Proof.
  intros Hlk Hb Hn. destruct (A !! cl) as [l|] eqn:Hl; [|by eapply bml_link_first].
  assert (Hne : l ≠ []) by (apply (proj2 (proj2 (proj2 Hlk)) _ _ Hl)).
  destruct (exists_last Hne) as (l1 & [q wq] & ->). by eapply bml_link_chain.
Qed.
End link.

Section unlink.
Context {T E : Type}.
Implicit Types (s : lstate T E) (m : gmap Z bmap_mds_lease) (l : list (Z * bool)) (cl : client) (A : held).

(** The last pointer of a segment is redirected. *)
Lemma seg_retarget m cl ch l t wt h h' bt :
  seg m cl ch (l ++ [(t, wt)]) h → t ∉ l.*1 → m !! t = Some bt →
  seg (<[t := l_with_chain bt h']> m) cl ch (l ++ [(t, wt)]) h'.
Proof.
  intros [Hs [(b & Hb & H1 & H2 & H3) _]]%seg_app Ht Hbt. apply seg_app. split.
  - eapply seg_view; [|exact Hs]. intros x Hx. rewrite lookup_insert_ne; [done|]. by intros ->.
  - split; [|done]. cbn in Hb. simplify_eq. eexists. split; [apply lookup_insert_eq|].
    by split_and!; try apply H3.
Qed.
(** The first lease of a segment is no longer chained. *)
Lemma seg_unchain m cl ch q wq l h bq :
  seg m cl ch ((q, wq) :: l) h → q ∉ l.*1 → m !! q = Some bq →
  seg (<[q := l_with_flags bq (clrf (bml_flags bq) BML_CHAIN)]> m) cl false ((q, wq) :: l) h.
Proof.
  intros [(b & Hb & H1 & H2 & H3 & H4 & H5 & H6) Hs] Hq Hbq. cbn in Hb. simplify_eq. split.
  - eexists. split; [apply lookup_insert_eq|]. cbn. autorewrite with flags. by split_and!.
  - eapply seg_view; [|exact Hs]. intros x Hx. rewrite lookup_insert_ne; [done|]. by intros ->.
Qed.

(** What [bml_unlink] does to the state. *)
Definition unlink_post (s s' : lstate T E) (A' : held) : Prop :=
  ∃ m' hs' ks', s' = ls_with_leases s m' hs' (ls_writers s) (ls_readers s) ∧
                linked m' hs' ks' A' ∧ same_rest (ls_bmls s) m'.

Lemma head_on_list m hs ks A cl l p :
  linked m hs ks A → A !! cl = Some l → p ∈ l.*1 → p ∈ hs ↔ p = first_of l 0.
Proof.
  intros (_ & Hks & -> & Hr) Hl Hp. rewrite list_elem_of_fmap. split.
  - intros (cl' & -> & [l' Hl']%Hks). unfold leases_of in *. rewrite Hl' in *. cbn in *.
    enough (cl' = cl) as -> by congruence. eapply (ring_disjoint m cl' cl l' l (first_of l' 0)); [by apply Hr..| |done].
    destruct (Hr _ _ Hl') as [Hne _]. destruct l'; [done|by left].
  - intros ->. exists cl. split; [unfold leases_of; by rewrite Hl|]. apply Hks. by exists l.
Qed.

(** A lease in the middle of a ring, behind [t]. *)
Lemma bml_unlink_chain s ks A cl l1 t wt p w l2 n :
  linked (ls_bmls s) (ls_leases s) ks A → A !! cl = Some ((l1 ++ [(t, wt)]) ++ (p, w) :: l2) → n > 1 →
  wp (bml_unlink p (first_of (l1 ++ [(t, wt)]) 0) t n)
     (λ _ s', unlink_post s s' (<[cl := (l1 ++ [(t, wt)]) ++ l2]> A)) s.
Proof.
  intros Hlk Hl Hn. set (l := (l1 ++ [(t, wt)]) ++ (p, w) :: l2) in *.
  assert (Hring : ring (ls_bmls s) cl l) by by apply Hlk.
  assert (Hh : first_of l 0 = first_of (l1 ++ [(t, wt)]) 0) by by destruct l1.
  destruct Hring as (_ & Hnd & Hs). rewrite Hh in Hs. apply seg_app in Hs as [Hs1 [(b & Hb & Hcl & Hn' & HR & HW & HC & He) Hs2]].
  cbn [fst snd] in *. assert (HC' : hasf (bml_flags b) BML_CHAIN = true) by (rewrite HC; by destruct l1).
  unfold l in Hnd. rewrite !fmap_app, fmap_cons, <-app_assoc in Hnd. cbn [fmap list_fmap fst] in Hnd.
  apply NoDup_app in Hnd as (Hnd1 & Hd1 & (Ht & [Hp Hnd2]%NoDup_cons)%NoDup_cons).
  assert (Htl : t ∈ l.*1) by (unfold l; rewrite !fmap_app, !elem_of_app; left; right; by left).
  assert (Hpl : p ∈ l.*1) by (unfold l; rewrite fmap_app, elem_of_app; right; by left).
  destruct (ring_elem _ _ _ _ (proj2 (proj2 (proj2 Hlk)) _ _ Hl) Htl) as (nt & wt' & cht & _ & bt & Hbt & Hclt & _).
  assert (Ht1 : t ∉ l1.*1) by (intros Hx; apply (Hd1 t Hx); by left).
  unfold bml_unlink, on_list. wp_step. eapply wp_getL; [done|]. rewrite HC'.
  repeat wp_step.
  { rewrite bool_decide_false; [done|]. rewrite (head_on_list _ _ _ _ _ _ _ Hlk Hl Hpl), Hh.
    intros ->. destruct l1 as [|[x wx] l1]; cbn in *; [apply Ht; by left|].
    apply (Hd1 x); [by left|]. right. by left. }
  { lia. }
  eapply wp_modL; [done|]. rewrite Hn'.
  eexists _, _, ks. split_and!; [reflexivity| |].
  - eapply linked_same; [done|done|by rewrite Hh; destruct l1|eapply differs_insert; [apply differs_refl|done|done]|].
    split_and!; [by destruct l1| |].
    + rewrite !fmap_app. cbn [fmap list_fmap fst]. rewrite <-app_assoc. apply NoDup_app. split_and!; [done| |].
      * intros x Hx [->|Hx']%elem_of_cons; [done|]. apply (Hd1 x Hx). right. by right.
      * apply NoDup_cons. split; [|done]. intros Hx. apply Ht. by right.
    + replace (first_of ((l1 ++ [(t, wt)]) ++ l2) 0) with (first_of (l1 ++ [(t, wt)]) 0) by by destruct l1.
      apply seg_app. split; [by eapply seg_retarget|].
      eapply seg_view; [|destruct l1; exact Hs2]. intros x Hx. rewrite lookup_insert_ne; [done|].
      intros ->. apply Ht. by right.
  - eapply same_rest_insert; [apply same_rest_refl|done|done].
Qed.

(** The first lease of a ring, which has further ones; [t] is the last. *)
Lemma bml_unlink_head s ks A cl p w q wq l2 n :
  linked (ls_bmls s) (ls_leases s) ks A → A !! cl = Some ((p, w) :: (q, wq) :: l2) → n > 1 →
  wp (bml_unlink p p (from_option fst q (last l2)) n) (λ _ s', unlink_post s s' (<[cl := (q, wq) :: l2]> A)) s.
Proof.
  intros Hlk Hl Hn. set (t := from_option fst q (last l2)).
  assert (Hring : ring (ls_bmls s) cl ((p, w) :: (q, wq) :: l2)) by by apply Hlk.
  destruct Hring as (_ & Hnd & [(b & Hb & Hcl & Hn' & HR & HW & HC & He) Hs]).
  pose proof Hs as [(bq & Hbq & Hclq & _ & _ & _ & HCq & _) _]. cbn [fst snd first_of fmap list_fmap] in *.
  apply NoDup_cons in Hnd as [Hp [Hq Hnd]%NoDup_cons].
  assert (Hlq : p ≠ q) by (intros ->; apply Hp; by left).
  assert (Ht : ∃ l3 wt, (q, wq) :: l2 = l3 ++ [(t, wt)]).
  { destruct (exists_last (l := (q, wq) :: l2)) as (l3 & [t' wt] & Heq); [done|]. exists l3, wt.
    rewrite Heq. do 3 f_equal. unfold t. apply (f_equal last) in Heq. rewrite last_snoc, last_cons in Heq.
    destruct (last l2); by simplify_eq. }
  destruct Ht as (l3 & wt & Ht).
  set (m1 := <[q := l_with_flags bq (clrf (bml_flags bq) BML_CHAIN)]> (ls_bmls s)).
  assert (Hs1 : seg m1 cl false ((q, wq) :: l2) p) by by eapply seg_unchain.
  assert (Hnt : NoDup ((q, wq) :: l2).*1) by by apply NoDup_cons.
  assert (∃ bt, m1 !! t = Some bt ∧ bml_cli_nidpid bt = cl) as (bt & Hbt & Hclt).
  { destruct (seg_elem _ _ _ _ _ t Hs1) as (? & ? & ? & _ & bt & Hbt & Hclt & _); [|by exists bt].
    rewrite Ht, fmap_app, elem_of_app. right. by left. }
  unfold bml_unlink, on_list, clrLf. wp_step. eapply wp_getL; [done|]. rewrite HC, Hn'.
  replace (n >? 1) with true by lia.
  repeat wp_step; [by apply Z.eqb_eq|]. eapply wp_getL; [done|]. repeat wp_step; [done| |].
  { rewrite bool_decide_false; [done|]. intros [_ Hin]%list_elem_of_filter.
    apply (head_on_list _ _ _ _ _ _ _ Hlk Hl) in Hin; [done|]. right. by left. }
  eapply wp_modL; [done|]. repeat wp_step. eapply wp_modL; [exact Hbt|].
  eexists _, _, _. split_and!; [reflexivity| |].
  - rewrite <-(insert_delete_eq A cl). apply (linked_new (ls_bmls s) _ _ (filter (λ x, x ≠ cl) ks) (delete cl A) cl ((q, wq) :: l2)).
    + by apply (linked_delete _ _ _ _ _ _ _ Hlk Hl), differs_refl.
    + apply lookup_delete_eq.
    + assert (∃ bt', ls_bmls s !! t = Some bt' ∧ bml_cli_nidpid bt' = cl) as (bt' & Hbt' & Hclt').
      { destruct (decide (t = q)) as [->|Hne]; [eauto|]. unfold m1 in Hbt. rewrite lookup_insert_ne in Hbt by done. eauto. }
      eapply differs_insert; [|done|done]. eapply differs_insert; [apply differs_refl|done|done].
    + split_and!; [done|done|]. rewrite Ht in Hs1 |- *. replace (first_of (l3 ++ [(t, wt)]) 0) with q by by rewrite <-Ht.
      eapply seg_retarget; [done| |done]. rewrite Ht, fmap_app in Hnt. apply NoDup_app in Hnt as (_ & Hd & _).
      intros Hx. apply (Hd t Hx). by left.
  - eapply same_rest_insert; [|exact Hbt|done].
    eapply same_rest_insert; [apply same_rest_refl|done|by apply rest_clrf].
Qed.

(** The only lease of a client. *)
Lemma bml_unlink_last s ks A cl p w tail :
  linked (ls_bmls s) (ls_leases s) ks A → A !! cl = Some [(p, w)] →
  wp (bml_unlink p p tail 1) (λ _ s', unlink_post s s' (delete cl A)) s.
Proof.
  intros Hlk Hl. assert (Hring : ring (ls_bmls s) cl [(p, w)]) by by apply Hlk.
  destruct Hring as (_ & _ & [(b & Hb & Hcl & Hn' & HR & HW & HC & He) _]). cbn [fst snd first_of] in *.
  unfold bml_unlink. wp_step. eapply wp_getL; [done|]. rewrite HC, Hn'. change (1 >? 1) with false.
  repeat wp_step; [by apply Z.eqb_eq|by apply Z.eqb_eq|].
  eexists _, _, _. split_and!; [reflexivity| |apply same_rest_refl].
  by apply (linked_delete _ _ _ _ _ _ _ Hlk Hl), differs_refl.
Qed.

Lemma drop_lease_app l1 p w l2 :
  NoDup (l1 ++ (p, w) :: l2).*1 → drop_lease p (l1 ++ (p, w) :: l2) = l1 ++ l2.
Proof.
  rewrite fmap_app. cbn [fmap list_fmap fst]. intros (_ & Hd & [Hp _]%NoDup_cons)%NoDup_app.
  unfold drop_lease. rewrite filter_app, filter_cons, decide_False by (cbn; tauto). f_equal; apply filter_all.
  - intros x Hx Heq. apply (Hd p); [|by left]. rewrite <-Heq. by apply list_elem_of_fmap_2.
  - intros x Hx Heq. apply Hp. rewrite <-Heq. by apply list_elem_of_fmap_2.
Qed.

(** The lease before the one that is removed, and the removal. *)
Lemma bml_unlink_any s ks A cl l p w :
  linked (ls_bmls s) (ls_leases s) ks A → A !! cl = Some l → (p, w) ∈ l →
  wp (tail ← ring_pred (S (size (ls_bmls s))) (first_of l 0) p;
      bml_unlink p (first_of l 0) tail (Z.of_nat (length l)))
     (λ _ s', unlink_post s s' (revoke A cl p)) s.
Proof.
  intros Hlk Hl Hp. assert (Hring : ring (ls_bmls s) cl l) by by apply Hlk.
  pose proof (ring_length _ _ _ Hring) as Hlen. destruct Hring as (_ & Hnd & Hs).
  apply list_elem_of_split in Hp as (l1 & l2 & ->).
  assert (Hrev : revoke A cl p = match l1 ++ l2 with [] => delete cl A | l => <[cl := l]> A end).
  { unfold revoke, leases_of. rewrite Hl. cbn [default from_option id]. by rewrite drop_lease_app. }
  destruct l1 as [|[h w0] l1].
  - cbn [app first_of fst fmap list_fmap] in *. apply NoDup_cons in Hnd as [Hp Hnd].
    wp_step. unfold wp at 1. erewrite ring_pred_eq; [|exact Hs|exact Hp|cbn in Hlen; lia]. rewrite Hrev.
    destruct l2 as [|[q wq] l2]; [by eapply bml_unlink_last|]. rewrite last_cons.
    replace (from_option fst p (match last l2 with Some y => Some y | None => Some (q, wq) end))
      with (from_option fst q (last l2)) by by destruct (last l2).
    eapply bml_unlink_head; [done|done|cbn; lia].
  - rewrite Hrev. clear Hrev. destruct (exists_last (l := (h, w0) :: l1)) as (l1' & [t wt] & Heq); [done|].
    rewrite Heq in Hl, Hlen |- *. cbn [first_of fst app] in Hs |- *.
    replace (first_of ((l1' ++ [(t, wt)]) ++ (p, w) :: l2) 0) with (first_of (l1' ++ [(t, wt)]) 0) by by destruct l1'.
    replace (first_of (l1' ++ [(t, wt)]) 0) with h by by rewrite <-Heq.
    change ((h, w0) :: l1 ++ (p, w) :: l2) with (((h, w0) :: l1) ++ (p, w) :: l2) in Hs. apply seg_app in Hs as [Hs1 _].
    assert (Hpl : p ∉ l1.*1).
    { rewrite fmap_app in Hnd. apply NoDup_app in Hnd as (_ & Hd & _). intros Hx.
      apply (Hd p); [by right|by left]. }
    apply (f_equal length) in Heq as Hlen2. rewrite length_app in Hlen2. cbn [length] in Hlen2. rewrite !length_app in Hlen.
    wp_step. unfold wp at 1. erewrite ring_pred_eq; [|exact Hs1|exact Hpl|cbn [length] in Hlen; lia].
    replace (from_option fst h (last l1)) with t.
    2:{ apply (f_equal last) in Heq. rewrite last_snoc, last_cons in Heq. destruct (last l1); by simplify_eq. }
    replace h with (first_of (l1' ++ [(t, wt)]) 0) by by rewrite <-Heq.
    replace (match (l1' ++ [(t, wt)]) ++ l2 with [] => _ | _ => _ end) with (<[cl := (l1' ++ [(t, wt)]) ++ l2]> A)
      by by destruct l1'.
    eapply bml_unlink_chain; [done|done|]. rewrite !length_app. cbn [length]. lia.
Qed.
End unlink.

(** ** The representation with the counts *)
Definition rep {T E} (s : lstate T E) (A : held) : Prop :=
  (∃ ks, linked (ls_bmls s) (ls_leases s) ks A) ∧ ls_writers s = nwriters A ∧ ls_readers s = nreaders A.

Section del.
Context {T E : Type}.
Implicit Types (s : lstate T E) (l : list (Z * bool)) (cl : client) (A : held).

Lemma linked_not_nil (m : gmap Z bmap_mds_lease) hs ks A cl : linked m hs ks A → A !! cl ≠ Some [].
Proof. intros (_ & _ & _ & Hr) Hl. by destruct (Hr _ _ Hl). Qed.
Lemma nwriters_nonneg A : 0 ≤ nwriters A ∧ 0 ≤ nreaders A.
Proof. unfold nwriters, nreaders. lia. Qed.
Lemma lookup_leases_of A cl x : x ∈ leases_of A cl → A !! cl = Some (leases_of A cl).
Proof. unfold leases_of. destruct (A !! cl); [done|]. by intros ?%elem_of_nil. Qed.

(** The adjustment of the counts when a lease goes. *)
Lemma drop_counts l p (w : bool) :
  NoDup l.*1 → (p, w) ∈ l →
  count_w l = (if w then 1 else 0) + count_w (drop_lease p l) ∧
  count_r l = (if w then 0 else 1) + count_r (drop_lease p l).
Proof.
  intros Hnd (l1 & l2 & ->)%list_elem_of_split. rewrite drop_lease_app by done.
  destruct (count_app l1 l2) as [-> ->], (count_app l1 ((p, w) :: l2)) as [-> ->], (count_cons p w l2) as [-> ->]. lia.
Qed.

Definition only_lists (s s' : lstate T E) : Prop :=
  ∃ m' hs' w' r', s' = ls_with_leases s m' hs' w' r' ∧ same_rest (ls_bmls s) m'.

Lemma wp_del_locked s A cl p w :
  rep s A → (p, w) ∈ leases_of A cl →
  wp (mds_bmap_bml_del_locked p) (λ _ s', rep s' (revoke A cl p) ∧ only_lists s s') s.
Proof.
  intros ([ks Hlk] & Hw & Hr) Hp. pose proof (lookup_leases_of _ _ _ Hp) as Hl.
  set (l := leases_of A cl) in *.
  assert (Hring : ring (ls_bmls s) cl l) by by apply Hlk.
  destruct (seg_cell _ _ _ _ _ _ _ (proj2 (proj2 Hring)) Hp) as (nxt & ch & b & Hb & Hcl & _ & HR & HW & _ & _).
  assert (exists h w0 l0, l = (h, w0) :: l0) as (h & w0 & l0 & El) by (destruct l as [|[h w0] l0]; [by destruct Hring|eauto]).
  destruct (drop_counts l p w (proj1 (proj2 Hring)) Hp) as [Hcw Hcr].
  destruct (counts_at A cl (linked_not_nil _ _ _ _ _ Hlk)) as [HAw HAr].
  destruct (counts_revoke A cl p) as [HBw HBr]. fold l in HAw, HAr, HBw, HBr.
  pose proof (count_length l) as (Hw0 & Hr0 & Hlen). pose proof (count_length (drop_lease p l)) as (Hw0' & Hr0' & _).
  destruct (nwriters_nonneg (delete cl A)) as [Hnw Hnr].
  unfold mds_bmap_bml_del_locked. wp_step. eapply wp_getL; [done|]. wp_step. rewrite Hcl.
  unfold wp at 1. rewrite (dupls_find_eq _ _ _ _ Hlk). fold l. rewrite El at 1. cbn [head fmap option_fmap option_map fst].
  wp_step. wp_step; [rewrite Hlen, El; apply Z.gtb_lt; cbn [length]; clear; lia|].
  assert (Hh : first_of l 0 = h) by by rewrite El.
  destruct Hring as (_ & _ & Hs). rewrite El in Hs. destruct Hs as [(bh & Hbh & _ & _ & _ & _ & HCh & _) _]. cbn [fst snd] in Hbh.
  wp_step. eapply wp_getL; [done|]. rewrite HCh. unfold on_list. wp_step. wp_step; [done|]. do 3 wp_step. wp_step.
  { apply bool_decide_true. apply (head_on_list _ _ _ _ _ _ h Hlk Hl); [rewrite El; by left|done]. }
  do 2 wp_step. rewrite Hlen, <-Hh. apply wp_assoc. wp_step.
  eapply wp_mono; [by eapply bml_unlink_any|]. intros _ s' (m' & hs' & ks' & -> & Hlk' & Hsr).
  assert (Hfin : ∀ w' r', w' = nwriters (revoke A cl p) → r' = nreaders (revoke A cl p) →
    rep (ls_with_leases s m' hs' w' r') (revoke A cl p) ∧ only_lists s (ls_with_leases s m' hs' w' r')).
  { intros w' r' -> ->. split; [split; [by exists ks'|done]|]. by exists m', hs', (nwriters (revoke A cl p)), (nreaders (revoke A cl p)). }
  pose proof (wr1_spec l). pose proof (wr1_spec (drop_lease p l)).
  pose proof (rd1_spec l). pose proof (rd1_spec (drop_lease p l)).
  do 2 wp_step. cbn [ls_writers ls_readers ls_with_leases]. rewrite HW, HR. unfold add_counts. destruct w.
  - apply wp_when; intros Hc; [|apply Hfin; lia]. repeat wp_step; [lia|].
    cbn [ls_with_leases ls_bmls ls_leases ls_writers ls_readers].
    apply Hfin; destruct (Z.eqb_spec (count_r l) 0); cbn [negb]; lia.
  - wp_step. wp_step; [done|]. apply wp_when; intros Hc; [|apply Hfin; lia]. repeat wp_step; [lia|].
    cbn [ls_with_leases ls_bmls ls_leases ls_writers ls_readers]. apply Hfin; lia.
Qed.
End del.

(** ** Direct I/O *)

(** A lease without the marks of the timeout queue and of a pending request to
    its client. *)
Definition core (b : bmap_mds_lease) : bmap_mds_lease :=
  l_with_flags b (clrf (bml_flags b) (Z.lor BML_DIOCB BML_TIMEOQ)).
Definition same_core (m m' : gmap Z bmap_mds_lease) : Prop := ∀ q, core <$> m !! q = core <$> m' !! q.
Definition lease_has {T E} (s : lstate T E) (fl p : Z) : Prop :=
  ∃ b, ls_bmls s !! p = Some b ∧ hasf (bml_flags b) fl = true.

Lemma core_flag b b' f :
  core b = core b' → Z.ldiff f (Z.lor BML_DIOCB BML_TIMEOQ) = f → hasf (bml_flags b) f = hasf (bml_flags b') f.
Proof.
  intros Hc Hf. apply (f_equal bml_flags) in Hc. cbn in Hc. rewrite <-Hf, <-!hasf_clrf. by rewrite Hc.
Qed.
Lemma core_setf b f :
  Z.ldiff f (Z.lor BML_DIOCB BML_TIMEOQ) = 0 → core (l_with_flags b (setf (bml_flags b) f)) = core b.
Proof.
  intros Hf. unfold core, clrf, setf. destruct b; cbn -[Z.lor Z.lnot Z.land].
  by rewrite Z.land_lor_distr_l, <-(Z.ldiff_land f), Hf, Z.lor_0_r.
Qed.
Lemma same_core_view m m' : same_core m m' → same_view m m'.
Proof.
  intros Hc q. specialize (Hc q). destruct (m !! q) as [b|], (m' !! q) as [b'|]; try done.
  apply (inj Some) in Hc. cbn [fmap option_fmap option_map]. f_equal. unfold view. rewrite !(core_flag b b') by done.
  f_equal. destruct b, b'. unfold core in Hc. cbn in Hc |- *. by simplify_eq.
Qed.
Lemma same_core_insert m m' p b b' :
  same_core m m' → m' !! p = Some b → core b' = core b → same_core m (<[p := b']> m').
Proof.
  intros Hs Hb Hr q. destruct (decide (q = p)) as [->|Hne].
  - rewrite lookup_insert_eq, Hs, Hb. simpl. by rewrite Hr.
  - by rewrite lookup_insert_ne.
Qed.

Section dio.
Context {T E : Type}.
Implicit Types (s : lstate T E) (l : list (Z * bool)) (cl np : client) (A : held).

(** What the check for direct I/O may change: the requests to clients, their
    marks, and the two flags of the bmap. *)
Definition dio_frame (s s' : lstate T E) : Prop :=
  ∃ m' fl' coh',
    s' = ls_with_misc (ls_with_flags (ls_with_bmls s m') fl') (ls_opcnt s) (ls_tt s) coh' (ls_env s) ∧
    same_core (ls_bmls s) m' ∧
    clrf fl' (Z.lor BMAPF_DIO BMAPF_DIOCB) = clrf (ls_flags s) (Z.lor BMAPF_DIO BMAPF_DIOCB) ∧
    (∀ q, lease_has s BML_DIOCB q → ∃ b, m' !! q = Some b ∧ hasf (bml_flags b) BML_DIOCB = true).

Lemma dio_frame_refl s : dio_frame s s.
Proof. exists (ls_bmls s), (ls_flags s), (ls_coh s). split_and!; [by destruct s|done|done|]. by intros q (b & Hb & Hf); exists b. Qed.
Lemma dio_frame_trans s1 s2 s3 : dio_frame s1 s2 → dio_frame s2 s3 → dio_frame s1 s3.
Proof.
  intros (m & fl & co & -> & Hm & Hfl & Hq) (m' & fl' & co' & -> & Hm' & Hfl' & Hq'). exists m', fl', co'.
  split_and!; [done| |cbn in Hfl'; congruence|].
  - intros q. rewrite (Hm q). apply Hm'.
  - intros q (b & Hb & Hf)%Hq. apply Hq'. by exists b.
Qed.

Lemma wp_mdscoh_req s p b :
  ls_bmls s !! p = Some b → bml_exp b = negb (hasf (bml_flags b) BML_RECOVER) →
  wp (mdscoh_req p) (λ _ s', ∃ coh', s' = ls_with_misc s (ls_opcnt s) (ls_tt s) coh' (ls_env s)) s.
Proof.
  intros Hb He. unfold mdscoh_req. wp_step. eapply wp_getL; [done|].
  destruct (hasf (bml_flags b) BML_RECOVER).
  - wp_step; [by rewrite He|]. exists (ls_coh s). by destruct s.
  - wp_step. wp_step; [done|]. wp_step. by eexists.
Qed.

Lemma wp_directio_lease np s cl p nxt w ch rc fd :
  cell (ls_bmls s) cl p nxt w ch →
  wp (directio_lease np p rc fd) (λ r s', dio_frame s s' ∧
    if decide (cl = np) then r = (rc, fd) else
      r.2 = true ∧ (r.1 = rc ∧ lease_has s BML_DIO p ∨ r.1 = - SLERR_BMAP_DIOWAIT ∧ lease_has s' BML_DIOCB p)) s.
Proof.
  intros (b & Hb & Hcl & Hn & HR & HW & HC & He). unfold directio_lease, setLf, setB. wp_step. eapply wp_getL; [done|].
  rewrite Hcl. destruct (decide (cl = np)) as [->|Hne].
  { rewrite bool_decide_true by done. wp_step. split; [apply dio_frame_refl|done]. }
  rewrite bool_decide_false by done. destruct (hasf (bml_flags b) BML_DIO) eqn:Hdio.
  { wp_step. split; [apply dio_frame_refl|]. split; [done|]. left. split; [done|]. by exists b. }
  wp_step. apply wp_when; intros Hc.
  - wp_step. eapply wp_modL; [done|]. wp_step. wp_step. eapply wp_mono.
    { eapply wp_mdscoh_req; [apply lookup_insert_eq|]. cbn. autorewrite with flags. by rewrite He. }
    intros _ s' [coh' ->]. wp_step. cbn. split; [|split; [done|right; split; [done|]]].
    + eexists _, _, coh'. split_and!; [reflexivity| | |].
      * eapply same_core_insert; [done|done|by apply core_setf].
      * unfold clrf, setf. by rewrite Z.land_lor_distr_l, Z.lor_0_r.
      * intros q (bq & Hbq & Hfq). destruct (decide (q = p)) as [->|Hqp].
        -- eexists. split; [apply lookup_insert_eq|]. cbn. by autorewrite with flags.
        -- exists bq. by rewrite lookup_insert_ne.
    + eexists. split; [apply lookup_insert_eq|]. cbn. by autorewrite with flags.
  - wp_step. split; [apply dio_frame_refl|]. split; [done|]. right. split; [done|]. exists b. split; [done|].
    by destruct (hasf (bml_flags b) BML_DIOCB).
Qed.

Lemma dio_frame_view s s' : dio_frame s s' → same_view (ls_bmls s) (ls_bmls s').
Proof. intros (m' & fl' & coh' & -> & Hm & _). by apply same_core_view. Qed.
Lemma dio_frame_has s s' f p :
  dio_frame s s' → Z.ldiff f (Z.lor BML_DIOCB BML_TIMEOQ) = f → lease_has s' f p ↔ lease_has s f p.
Proof.
  intros (m' & fl' & coh' & -> & Hm & _) Hf. specialize (Hm p). unfold lease_has. cbn.
  destruct (ls_bmls s !! p) as [b|], (m' !! p) as [b'|]; try done.
  apply (inj Some) in Hm. pose proof (core_flag b b' f Hm Hf) as Hfl.
  split; intros (? & [= <-] & Hx); eexists; (split; [done|congruence]).
Qed.
(** The client of the lease [p] has been told about direct I/O. *)
Definition told (s : lstate T E) (p : Z) : Prop := lease_has s BML_DIO p ∨ lease_has s BML_DIOCB p.
Lemma told_frame s s' p : dio_frame s s' → told s p → told s' p.
Proof.
  intros Hf [Hd|Hd]; [left; by rewrite (dio_frame_has s)|right].
  destruct Hf as (m' & fl' & coh' & -> & _ & _ & Hq). by apply Hq.
Qed.

Lemma wp_directio_ring np cl l s ch h rc fd :
  seg (ls_bmls s) cl ch l h →
  wp (directio_ring np l.*1 rc fd) (λ r s', dio_frame s s' ∧
    if decide (cl = np) then r = (rc, fd) else
      r.2 = (fd || negb (bool_decide (l = []))) ∧
      (r.1 = rc ∧ (∀ p, p ∈ l.*1 → lease_has s BML_DIO p) ∨ r.1 = - SLERR_BMAP_DIOWAIT) ∧
      (∀ p, p ∈ l.*1 → told s' p)) s.
Proof.
  revert s ch rc fd. induction l as [|[p w] l IH]; intros s ch rc fd Hs; cbn [fmap list_fmap directio_ring fst].
  - wp_step. split; [apply dio_frame_refl|]. case_decide; [done|].
    split_and!; [by rewrite orb_false_r|left; split; [done|]|]; by intros ? ?%elem_of_nil.
  - destruct Hs as [Hc Hs]. wp_step. eapply wp_mono; [by eapply wp_directio_lease|].
    intros [rc1 fd1] s1 [Hf1 H1]. eapply wp_mono.
    { eapply IH, seg_view; [|exact Hs]. intros q _. by apply dio_frame_view. }
    intros [rc2 fd2] s2 [Hf2 H2]. split; [by eapply dio_frame_trans|]. cbn [fst snd] in *.
    case_decide as Hcl; [congruence|]. destruct H1 as (-> & H1), H2 as (-> & H2 & Ht). cbn [orb].
    split_and!; [by rewrite orb_true_r| |].
    + destruct H2 as [[-> H2]| ->]; [|by right]. destruct H1 as [[-> H1]| [-> _]]; [|by right]. left. split; [done|].
      intros q [->|Hq]%elem_of_cons; [done|]. rewrite <-(dio_frame_has s s1) by done. by apply H2.
    + intros q [->|Hq]%elem_of_cons; [|by apply Ht]. apply (told_frame s1); [done|].
      destruct H1 as [[_ H1]|[_ H1]]; [left|by right]. by rewrite (dio_frame_has s).
Qed.

Lemma wp_directio_leases np ks s A rc fd :
  map_Forall (ring (ls_bmls s)) A → (∀ cl, cl ∈ ks → is_Some (A !! cl)) →
  wp (directio_leases np ((λ cl, first_of (leases_of A cl) 0) <$> ks) rc fd) (λ r s', dio_frame s s' ∧
    r.2 = (fd || existsb (λ cl, negb (bool_decide (cl = np))) ks) ∧
    (r.1 = rc ∧ (∀ cl p, cl ∈ ks → cl ≠ np → p ∈ (leases_of A cl).*1 → lease_has s BML_DIO p) ∨
     r.1 = - SLERR_BMAP_DIOWAIT) ∧
    (∀ cl p, cl ∈ ks → cl ≠ np → p ∈ (leases_of A cl).*1 → told s' p)) s.
Proof.
  revert s rc fd. induction ks as [|cl ks IH]; intros s rc fd Hr Hks; cbn [fmap list_fmap directio_leases existsb].
  - wp_step. split_and!; [apply dio_frame_refl|by rewrite orb_false_r|left; split; [done|]|]; by intros ? ? ?%elem_of_nil.
  - destruct (Hks cl ltac:(by left)) as [l Hl]. pose proof (Hr _ _ Hl) as Hring.
    assert (Hlo : leases_of A cl = l) by (unfold leases_of; by rewrite Hl). rewrite Hlo.
    wp_step. unfold wp at 1. rewrite (ring_of_eq _ _ _ Hring). wp_step.
    eapply wp_mono; [eapply wp_directio_ring; apply Hring|]. intros [rc1 fd1] s1 [Hf1 H1]. eapply wp_mono.
    { apply IH; [|intros; apply Hks; by right]. intros c x Hx. eapply ring_view; [|by apply Hr].
      intros q _. by apply dio_frame_view. }
    intros [rc2 fd2] s2 (Hf2 & Hfd & H2 & Ht). cbn [fst snd] in *. split; [by eapply dio_frame_trans|].
    rewrite Hfd. case_decide as Hcl.
    + simplify_eq. rewrite bool_decide_true by done. cbn [negb orb]. split_and!; [done| |].
      * destruct H2 as [[-> H2]| ->]; [|by right]. left. split; [done|]. intros c p [->|Hc]%elem_of_cons Hne Hp; [done|].
        rewrite <-(dio_frame_has s s1) by done. by eapply H2.
      * intros c p [->|Hc]%elem_of_cons Hne Hp; [done|]. by eapply Ht.
    + destruct H1 as (-> & H1 & Ht1). rewrite (bool_decide_false (cl = np)) by done. rewrite (bool_decide_false (l = [])) by apply Hring.
      cbn [negb orb]. split_and!; [by rewrite !orb_true_r| |].
      * destruct H2 as [[-> H2]| ->]; [|by right]. destruct H1 as [[-> H1]| ->]; [|by right]. left. split; [done|].
        intros c p [->|Hc]%elem_of_cons Hne Hp; [rewrite Hlo in Hp; by apply H1|].
        rewrite <-(dio_frame_has s s1) by done. by eapply H2.
      * intros c p [->|Hc]%elem_of_cons Hne Hp; [|by eapply Ht]. rewrite Hlo in Hp.
        apply (told_frame s1); [done|]. by apply Ht1.
Qed.

Lemma dio_frame_flags s s1 fl' :
  dio_frame s s1 →
  clrf fl' (Z.lor BMAPF_DIO BMAPF_DIOCB) = clrf (ls_flags s1) (Z.lor BMAPF_DIO BMAPF_DIOCB) →
  dio_frame s (ls_with_flags s1 fl').
Proof.
  intros (m' & fl & coh' & -> & Hm & Hfl & Hq) Hfl'. exists m', fl', coh'. split_and!; [done|done|cbn in Hfl'; congruence|done].
Qed.
Lemma dio_flags_clr w :
  clrf (clrf (setf w BMAPF_DIO) BMAPF_DIOCB) (Z.lor BMAPF_DIO BMAPF_DIOCB) = clrf w (Z.lor BMAPF_DIO BMAPF_DIOCB).
Proof.
  unfold clrf, setf. rewrite <-!Z.land_assoc. change (Z.land (Z.lnot BMAPF_DIOCB) _) with (Z.lnot (Z.lor BMAPF_DIO BMAPF_DIOCB)).
  by rewrite Z.land_lor_distr_l, Z.lor_0_r.
Qed.

(** A grant to [np] conflicts with the leases of other clients. *)
Definition contended (w : rw) (np : client) (A : held) : Prop :=
  (∃ cl, cl ≠ np ∧ is_Some (A !! cl)) ∧ (w = SL_WRITE ∨ nwriters A ≠ 0).

Lemma wp_directio s A w want np :
  rep s A →
  wp (mds_bmap_directio w want np) (λ rc s', dio_frame s s' ∧
    (rc = 0 ∧ (contended w np A → hasf (ls_flags s') BMAPF_DIO = true) ∧
       (hasf (ls_flags s) BMAPF_DIO = true → hasf (ls_flags s') BMAPF_DIO = true) ∧
       (contended w np A → hasf (ls_flags s) BMAPF_DIO = false →
        ∀ cl p, cl ≠ np → p ∈ (leases_of A cl).*1 → lease_has s BML_DIO p) ∨
     rc = - SLERR_BMAP_DIOWAIT ∧ hasf (ls_flags s) BMAPF_DIO = false ∧
       (∀ cl p, cl ≠ np → p ∈ (leases_of A cl).*1 → told s' p))) s.
Proof.
  intros ([ks Hlk] & Hw & Hr). pose proof Hlk as (_ & Hks & Hhs & Hring). unfold mds_bmap_directio, setB, clrB. do 2 wp_step.
  destruct (hasf (ls_flags s) BMAPF_DIO) eqn:Hdio.
  { wp_step. split; [apply dio_frame_refl|]. left. by split_and!. }
  cbv zeta. set (want' := want || hasf (ls_flags s) BMAPF_DIOCB). set (check := _ || _ || _).
  assert (Hcheck : contended w np A → check = true).
  { intros [(cl & _ & [l Hl]) [->|Hnw]]; unfold check; rewrite Hw, Hr.
    - destruct (counts_at A cl (linked_not_nil _ _ _ _ _ Hlk)) as [Haw Har].
      assert (Hne : leases_of A cl ≠ []) by (unfold leases_of; rewrite Hl; by apply Hring in Hl as [? _]).
      pose proof (wr1_spec (leases_of A cl)). pose proof (rd1_spec (leases_of A cl)).
      pose proof (count_length (leases_of A cl)) as (_ & _ & Hlen).
      destruct (nwriters_nonneg (delete cl A)). destruct (leases_of A cl) as [|x l'] eqn:El; [done|].
      cbn [length] in Hlen. rewrite <-El in *.
      destruct (Z.eqb_spec (nwriters A) 0), (Z.eqb_spec (nreaders A) 0); cbn [negb]; rewrite ?orb_true_r; try done. lia.
    - destruct (Z.eqb_spec (nwriters A) 0); cbn [negb]; [done|]. by rewrite orb_true_r. }
  assert (Hall : ∀ cl p, p ∈ (leases_of A cl).*1 → cl ∈ ks).
  { intros cl p Hp. apply Hks. unfold leases_of in Hp. destruct (A !! cl); [by eexists|by apply elem_of_nil in Hp]. }
  assert (Hwant : want' = true → check = true) by (unfold check; by intros ->).
  wp_step. destruct check eqn:Hck.
  - rewrite Hhs. eapply wp_mono; [apply wp_directio_leases; [done|by intros; apply Hks]|].
    intros [rc fd] s1 (Hf1 & -> & H1 & Ht). cbn [fst snd] in *. wp_step.
    destruct H1 as [[-> H1]| ->].
    + set (force := existsb _ ks). rewrite Z.eqb_refl. cbn [andb orb].
      assert (Hforce : contended w np A → force = true).
      { intros [(cl & Hne & Hcl) _]. apply existsb_exists. exists cl. split; [by apply list_elem_of_In, Hks|].
        by rewrite bool_decide_false. }
      destruct (want' || force) eqn:Hwf; cbn [whenM]; repeat wp_step.
      * split; [|left; split_and!; [done| |done|]].
        -- apply (dio_frame_flags s (ls_with_flags s1 (setf (ls_flags s1) BMAPF_DIO)));
             [by apply dio_frame_flags; [|unfold clrf, setf; rewrite Z.land_lor_distr_l, Z.lor_0_r]|].
           cbn. rewrite dio_flags_clr. unfold clrf, setf. by rewrite Z.land_lor_distr_l, Z.lor_0_r.
        -- intros _. cbn. by autorewrite with flags.
        -- intros _ _ cl p Hne Hp. by eapply H1; [eapply Hall| |].
      * split; [done|left; split_and!; [done| |done|]].
        -- intros Hc. rewrite Hforce, orb_true_r in Hwf by done. done.
        -- intros Hc. rewrite Hforce, orb_true_r in Hwf by done. done.
    + change (- SLERR_BMAP_DIOWAIT =? 0) with false. cbn [andb whenM]. repeat wp_step. split; [done|]. right. split_and!; [done|done|].
      intros cl p Hne Hp. by eapply Ht; [eapply Hall| |].
  - assert (want' = false) as -> by (destruct want'; [symmetry; by apply Hwant|done]). repeat wp_step; [done|].
    split; [apply dio_frame_refl|]. left. split_and!; [done| |done|]; intros Hc; by apply Hcheck in Hc.
Qed.
End dio.
