(* ===== verification/LeaseOps.v ===== *)
(** * Correctness of granting and releasing leases

    The invariant of the leases of a bmap: the lists represent the leases that
    are held and the counts are right; while there is a writer the bmap is
    bound to an I/O system by an entry of the assignment table that names it;
    a bmap with a writer and another client is in direct I/O mode. *)
From S2P Require Import Prelude ReplBits Inode ReplWalk BmapMds ReplMds ReplReq Replay Timeo Lease LeaseInv.

(** Compute the fields of a state that is given field by field. *)
Ltac ls_cbn :=
  cbn [ls_bmls ls_leases ls_writers ls_readers ls_flags ls_wr_ion ls_assign ls_seq ls_fid ls_bmapno ls_opcnt ls_tt ls_coh
       ls_freed ls_now ls_odt ls_env ls_with_leases ls_with_bmls ls_with_flags ls_with_ios ls_with_misc] in *.

Definition BML_FAILED : Z := Z.lor BML_ASSFAIL BML_RECOVERFAIL.

Section inv.
Context {T E : Type} `{OdTable T} `{LeaseEnvLaws E}.
Implicit Types (s : lstate T E) (A : held).

(** The bmap is bound to an I/O system by the entry [bia] of the assignment
    table, and that system has the only valid copy. *)
Definition entry_ok (s : lstate T E) (bia : bmap_ios_assign) : Prop :=
  bia_fid bia = ls_fid s ∧ bia_seq bia = ls_seq s ∧ bia_bmapno bia = ls_bmapno s ∧
  ios_ok (bia_ios bia) ∧ env_wr (ls_env s) (bia_ios bia).
Definition assigned (s : lstate T E) : Prop :=
  ∃ ion elem, ls_wr_ion s = Some ion ∧ ls_assign s = Some elem ∧
    bia_ios (odt_getitem (ls_odt s) elem) = ion ∧ entry_ok s (odt_getitem (ls_odt s) elem) ∧ hasf (ls_flags s) BMAPF_NOION = false.
Definition bound (s : lstate T E) (A : held) : Prop :=
  if nwriters A =? 0 then ls_wr_ion s = None ∧ ls_assign s = None else assigned s.
Definition coherent (s : lstate T E) (A : held) : Prop :=
  hasf (ls_flags s) BMAPF_DIO = true ∨ nwriters A = 0 ∨ nwriters A + nreaders A = 1.
Definition clean (m : gmap Z bmap_mds_lease) (A : held) : Prop :=
  ∀ cl p w, (p, w) ∈ leases_of A cl → ∃ b, m !! p = Some b ∧ hasf (bml_flags b) BML_FAILED = false.

Record linv (s : lstate T E) (A : held) : Prop := {
  li_rep : rep s A;
  li_bound : bound s A;
  li_coherent : coherent s A;
  li_clean : clean (ls_bmls s) A;
  li_opcnt : 0 ≤ ls_opcnt s;
  li_env : env_ok (ls_env s);
}.

Lemma rep_view s s' A :
  rep s A → same_view (ls_bmls s) (ls_bmls s') → ls_leases s' = ls_leases s →
  ls_writers s' = ls_writers s → ls_readers s' = ls_readers s → rep s' A.
Proof.
  intros ([ks Hlk] & Hw & Hr) Hv Hl Hw' Hr'. split; [|by rewrite Hw', Hr'].
  exists ks. rewrite Hl. by eapply linked_view.
Qed.
Lemma same_view_insert m p b b' : m !! p = Some b → view b' = view b → same_view m (<[p := b']> m).
Proof.
  intros Hb Hv q. destruct (decide (q = p)) as [->|Hne].
  - rewrite lookup_insert_eq, Hb. cbn [fmap option_fmap option_map]. by rewrite Hv.
  - by rewrite lookup_insert_ne.
Qed.
End inv.

(** ** What the operations on the assignment change *)
Section assign.
Context {T E : Type} `{OdTableLaws T} `{LeaseEnvLaws E} `{PflErr}.
Implicit Types (s : lstate T E) (A : held).

Lemma wp_onEnv {X} (m : M E X) s Q :
  wp m (λ x e', Q x (ls_with_misc s (ls_opcnt s) (ls_tt s) (ls_coh s) e')) (ls_env s) → wp (onEnv m) Q s.
Proof. unfold wp, onEnv. by destruct (m (ls_env s)) as [[x e']|]. Qed.

(** The promises of the environment in the style of [wp]. *)
Lemma wp_select pios e :
  env_ok e → wp (env_resm_select pios [])
    (λ r e', env_ok e' ∧ (∀ i, env_wr e i → env_wr e' i) ∧ (∀ i, r = Some i → ios_ok i)) e.
Proof. intros He. destruct (select_ok pios e He) as (r & e' & Hr & ?). unfold wp. by rewrite Hr. Qed.
Lemma wp_add_repl s elem bia Q :
  env_ok (ls_env s) → ios_ok (bia_ios bia) → ls_assign s = Some elem → hasf (ls_flags s) BMAPF_IOSASSIGNED = true →
  (∀ rc e', env_ok e' → (rc = 0 → env_wr e' (bia_ios bia)) →
     Q rc (ls_with_misc s (ls_opcnt s) (ls_tt s) (ls_coh s) e')) → wp (add_repl bia) Q s.
Proof.
  intros He Hi Has Hfl HQ. unfold add_repl. do 2 wp_step. wp_step. wp_step; [done|]. rewrite Has. apply wp_onEnv.
  destruct (add_repl_ok bia elem _ He Hi) as (rc & e' & Hr & ? & ?). unfold wp. rewrite Hr. by apply HQ.
Qed.
Lemma wp_queue_work e :
  env_ok e → wp env_queue_work (λ _ e', env_ok e' ∧ (∀ i, env_wr e i → env_wr e' i)) e.
Proof. intros He. destruct (queue_work_ok e He) as (e' & Hr & ?). unfold wp. by rewrite Hr. Qed.

Lemma wp_timeotbl_add s p b Q :
  ls_bmls s !! p = Some b →
  (∀ sq t', Q sq (ls_with_bmls (ls_with_misc s (ls_opcnt s) t' (ls_coh s) (ls_env s))
                   (<[p := l_with_flags b (setf (bml_flags b) BML_TIMEOQ)]> (ls_bmls s)))) →
  wp (timeotbl_mdsi p BTE_ADD) Q s.
Proof.
  intros Hb HQ. unfold timeotbl_mdsi, setLf. wp_step. eapply wp_getL; [done|]. do 2 wp_step.
  destruct (mds_bmap_timeotbl_mdsi _ _ _ _ _) as [[sq tq] t'] eqn:Ht.
  assert (tq = true) as ->.
  { unfold mds_bmap_timeotbl_mdsi in Ht. destruct (mds_bmap_timeotbl_getnextseq (ls_tt s)). by simplify_eq. }
  wp_step. wp_step. wp_step. eapply wp_modL; [done|]. wp_step. apply HQ.
Qed.

(** The lease [p] keeps its place in the lists; the counts do not change. *)
Definition ios_frame (s s' : lstate T E) (p : Z) (b b' : bmap_mds_lease) : Prop :=
  ls_bmls s' = <[p := b']> (ls_bmls s) ∧ view b' = view b ∧ ls_leases s' = ls_leases s ∧
  ls_writers s' = ls_writers s ∧ ls_readers s' = ls_readers s ∧ ls_opcnt s' = ls_opcnt s ∧
  clrf (ls_flags s') BMAPF_NOION = clrf (ls_flags s) BMAPF_NOION ∧ env_ok (ls_env s').

Lemma view_setf b f :
  hasf f BML_READ = false → hasf f BML_WRITE = false → hasf f BML_CHAIN = false → hasf f BML_RECOVER = false →
  view (l_with_flags b (setf (bml_flags b) f)) = view b.
Proof.
  intros Hf1 Hf2 Hf3 Hf4. unfold view. cbn [bml_cli_nidpid bml_chain bml_flags bml_exp l_with_flags].
  autorewrite with flags. by rewrite Hf1, Hf2, Hf3, Hf4, !orb_false_r.
Qed.
Lemma clrf_setf w f : clrf (setf w f) f = clrf w f.
Proof. unfold clrf, setf. by rewrite Z.land_lor_distr_l, Z.land_lnot_diag, Z.lor_0_r. Qed.

Lemma wp_ios_assign s p b prefios :
  ls_bmls s !! p = Some b → ls_wr_ion s = None → ls_assign s = None → 0 < ls_opcnt s →
  hasf (ls_flags s) BMAPF_IOSASSIGNED = true → env_ok (ls_env s) →
  wp (mds_bmap_ios_assign p prefios) (λ rc s', ∃ b', ios_frame s s' p b b' ∧
    (rc = 0 → hasf (bml_flags b') BML_FAILED = hasf (bml_flags b) BML_FAILED ∧ assigned s')) s.
Proof.
  destruct s as [m hs w r fl ion0 as0 sq0 fid bno op tbl coh fr now o e]. ls_cbn.
  intros Hb -> -> Hop Hfl He. unfold mds_bmap_ios_assign, setB, clrB, setLf.
  do 2 wp_step. ls_cbn. do 3 (wp_step; wp_step; [first [done | lia]|]). wp_step.
  apply wp_onEnv. eapply wp_mono; [by apply wp_select|]. intros [ion|] e1 (He1 & _ & Hsel); ls_cbn; wp_step; (wp_step; [done|]).
  - do 4 wp_step. ls_cbn. destruct (odt_allocslot o) as [[elem|] o'] eqn:Hal; do 2 wp_step; ls_cbn.
    + do 3 wp_step. ls_cbn. eapply wp_modL; [done|]. ls_cbn. wp_step. eapply wp_timeotbl_add; [apply lookup_insert_eq|].
      intros sq t'. ls_cbn. rewrite insert_insert_eq. wp_step. eapply wp_getL; [apply lookup_insert_eq|]. do 4 wp_step. ls_cbn.
      wp_step. eapply (wp_add_repl _ elem); [done|by apply Hsel|done|ls_cbn; by rewrite hasf_clrf|]. intros rc e2 He2 Hwr. ls_cbn.
      set (b1 := l_with_flags _ _).
      assert (Hv : view b1 = view b) by by apply (view_setf (l_with_ios_seq b ion (bml_seq b)) BML_TIMEOQ).
      assert (Hf : hasf (bml_flags b1) BML_FAILED = hasf (bml_flags b) BML_FAILED).
      { unfold b1. cbn [bml_flags l_with_flags l_with_ios_seq]. by autorewrite with flags. }
      clearbody b1. destruct (Z.eqb_spec rc 0) as [->|Hrc0]; cbn [negb].
      * wp_step. eapply wp_modL; [apply lookup_insert_eq|]. ls_cbn. rewrite insert_insert_eq. wp_step.
        exists (l_with_ios_seq b1 (bml_ios b1) sq). split; [split_and!; try done; apply clrf_clrf|].
        intros _. split; [done|]. exists ion, elem. ls_cbn. rewrite odt_get_put. split_and!; try done.
        { split_and!; try done; [by apply Hsel|]. by apply Hwr. }
        rewrite hasf_clrf. apply hasf_0_r.
      * wp_step. exists b1. split; [|discriminate]. split_and!; try done. apply clrf_clrf.
    + do 3 wp_step. eapply wp_modL; [done|]. wp_step. eexists. split; [|discriminate].
      split_and!; try done; [by apply view_setf|apply clrf_setf].
  - do 3 wp_step. eapply wp_modL; [done|]. wp_step. eexists. split; [|discriminate].
    split_and!; try done; [by apply view_setf|apply clrf_setf].
Qed.

Lemma wp_ios_update s p b :
  ls_bmls s !! p = Some b → assigned s → hasf (ls_flags s) BMAPF_IOSASSIGNED = true → env_ok (ls_env s) →
  wp (mds_bmap_ios_update p) (λ rc s', ∃ b', ios_frame s s' p b b' ∧
    hasf (bml_flags b') BML_FAILED = hasf (bml_flags b) BML_FAILED ∧ (rc = 0 → assigned s')) s.
Proof.
  destruct s as [m hs w r fl ion0 as0 sq0 fid bno op tbl coh fr now o e]. ls_cbn.
  intros Hb (ion & elem & Hion & Has & Hbia & (Hbf & Hbs & Hbb & Hbi & _) & Hno) Hfl He. ls_cbn. subst ion0 as0.
  unfold mds_bmap_ios_update. do 2 wp_step. ls_cbn. wp_step. wp_step; [done|]. cbv zeta.
  rewrite Hbf, Z.eqb_refl. cbn [negb]. wp_step. wp_step; [by rewrite Hbs, Z.eqb_refl|]. wp_step.
  eapply wp_timeotbl_add; [done|]. intros sq t'. ls_cbn. wp_step. eapply wp_getL; [apply lookup_insert_eq|].
  do 4 wp_step. ls_cbn. wp_step. eapply wp_modL; [apply lookup_insert_eq|]. ls_cbn. rewrite insert_insert_eq.
  set (b1 := l_with_flags b _). set (bia := {| bia_ios := _ |}).
  assert (Hv : view b1 = view b) by by apply (view_setf b BML_TIMEOQ).
  assert (Hf : hasf (bml_flags b1) BML_FAILED = hasf (bml_flags b) BML_FAILED).
  { unfold b1. cbn [bml_flags l_with_flags]. by autorewrite with flags. }
  clearbody b1. eapply (wp_add_repl _ elem); [done|done|done|done|]. intros rc e2 He2 Hwr. ls_cbn.
  exists (l_with_ios_seq b1 (bia_ios bia) sq). split; [split_and!; by try done|]. split; [done|].
  intros Hrc. exists ion, elem. ls_cbn. rewrite odt_get_replace. split_and!; try done. split_and!; try done. by apply Hwr.
Qed.
End assign.

(** ** Granting a lease *)
Section add.
Context {T E : Type} `{OdTableLaws T} `{LeaseEnvLaws E} `{PflErr}.
Implicit Types (s : lstate T E) (A : held).

Definition rw_of (w : bool) : rw := if w then SL_WRITE else SL_READ.
Definition client_ok (cl : client) : Prop :=
  cl.1 ≠ 0 ∧ cl.2 ≠ 0 ∧ cl.1 ≠ LNET_NID_ANY ∧ cl.2 ≠ LNET_PID_ANY.

Lemma clean_rest m m' A p b :
  clean m A → same_rest m m' → m !! p = Some b → hasf (bml_flags b) BML_FAILED = false →
  ∀ cl w, clean m' (grant A cl p w).
Proof.
  intros Hc Hs Hb Hbf cl w cl' q w' Hq.
  assert (∃ bq, m !! q = Some bq ∧ hasf (bml_flags bq) BML_FAILED = false) as (bq & Hbq & Hf).
  { destruct (decide (cl' = cl)) as [->|Hne].
    - rewrite leases_of_grant in Hq. apply elem_of_app in Hq as [Hq|Hq]; [by eapply Hc|].
      apply list_elem_of_singleton in Hq. simplify_eq. eauto.
    - eapply Hc. unfold grant, leases_of in Hq. by rewrite lookup_insert_ne in Hq. }
  specialize (Hs q). rewrite Hbq in Hs. destruct (m' !! q) as [bq'|]; [|done]. exists bq'. split; [done|].
  apply (inj Some), (f_equal bml_flags) in Hs. unfold rest in Hs. cbn [bml_flags l_with_chain l_with_flags] in Hs.
  change BML_FAILED with (Z.ldiff BML_FAILED (Z.lor BML_CHAIN BML_BMI)) in Hf |- *.
  rewrite <-hasf_clrf in Hf |- *. by rewrite <-Hs.
Qed.

(** How a grant changes the counts. *)
Lemma grant_counts m hs ks A cl p :
  linked m hs ks A →
  nwriters (grant A cl p true) = nwriters A + (if count_w (leases_of A cl) =? 0 then 1 else 0) ∧
  nreaders (grant A cl p true) =
    nreaders A + (if count_w (leases_of A cl) =? 0 then (if negb (count_r (leases_of A cl) =? 0) then -1 else 0) else 0) ∧
  nwriters (grant A cl p false) = nwriters A ∧
  nreaders (grant A cl p false) =
    nreaders A + (if (count_w (leases_of A cl) =? 0) && (count_r (leases_of A cl) =? 0) then 1 else 0).
Proof.
  intros Hlk. destruct (counts_at A cl (linked_not_nil _ _ _ _ _ Hlk)) as [Hw Hr].
  destruct (counts_grant A cl p true) as [Htw Htr], (counts_grant A cl p false) as [Hfw Hfr].
  set (l := leases_of A cl) in *. pose proof (wr1_spec l). pose proof (rd1_spec l). pose proof (count_length l).
  pose proof (wr1_spec (l ++ [(p, true)])) as Hwt. pose proof (rd1_spec (l ++ [(p, true)])) as Hrt.
  pose proof (wr1_spec (l ++ [(p, false)])) as Hwf. pose proof (rd1_spec (l ++ [(p, false)])) as Hrf.
  destruct (count_app l [(p, true)]) as [E1 E2], (count_app l [(p, false)]) as [E3 E4].
  change (count_w [(p, true)]) with 1 in *. change (count_r [(p, true)]) with 0 in *.
  change (count_w [(p, false)]) with 0 in *. change (count_r [(p, false)]) with 1 in *.
  destruct (Z.eqb_spec (count_w l) 0), (Z.eqb_spec (count_r l) 0); cbn [negb andb]; lia.
Qed.

Lemma counts_empty : nwriters ∅ = 0 ∧ nreaders ∅ = 0.
Proof. done. Qed.

(** After a grant without a conflict the bmap is coherent. *)
Lemma grant_coherent m hs ks A cl p w (dio : bool) :
  linked m hs ks A → (contended (rw_of w) cl A → dio = true) →
  dio = true ∨ nwriters (grant A cl p w) = 0 ∨ nwriters (grant A cl p w) + nreaders (grant A cl p w) = 1.
Proof.
  intros Hlk Hc. destruct (decide (delete cl A = ∅)) as [He|Hne].
  - right. right. destruct (counts_grant A cl p w) as [-> ->]. rewrite He. destruct counts_empty as [-> ->].
    pose proof (wr1_spec (leases_of A cl ++ [(p, w)])). pose proof (rd1_spec (leases_of A cl ++ [(p, w)])).
    pose proof (count_length (leases_of A cl ++ [(p, w)])) as (_ & _ & Hlen). rewrite length_app in Hlen. cbn in Hlen. lia.
  - apply map_choose in Hne as (cl' & l' & [Hcl Hl']%lookup_delete_Some).
    assert (Hoth : ∃ c, c ≠ cl ∧ is_Some (A !! c)) by (exists cl'; split; [done|by exists l']).
    destruct w; [left; apply Hc; split; [done|by left]|].
    destruct (decide (nwriters A = 0)) as [Hz|Hz]; [|left; apply Hc; split; [done|by right]].
    right. left. destruct (grant_counts m hs ks A cl p Hlk) as (_ & _ & -> & _). done.
Qed.

(** The lists after the lease is linked; the counts are still the old ones. *)
Record linking (s : lstate T E) (A : held) (cl : client) (p : Z) (w : bool) : Prop := {
  ln_linked : ∃ ks, linked (ls_bmls s) (ls_leases s) ks (grant A cl p w);
  ln_old : ∃ m hs ks, linked m hs ks A;
  ln_writers : ls_writers s = nwriters A;
  ln_readers : ls_readers s = nreaders A;
  ln_clean : clean (ls_bmls s) (grant A cl p w);
  ln_lease : ∃ b, ls_bmls s !! p = Some b;
  ln_bound : bound s A;
  ln_opcnt : 0 < ls_opcnt s;
  ln_env : env_ok (ls_env s);
  ln_dio : contended (rw_of w) cl A → hasf (ls_flags s) BMAPF_DIO = true;
}.

Lemma clean_insert m A p b b' :
  clean m A → m !! p = Some b → (hasf (bml_flags b) BML_FAILED = false → hasf (bml_flags b') BML_FAILED = false) →
  clean (<[p := b']> m) A.
Proof.
  intros Hc Hb Hf cl q w Hq. destruct (Hc _ _ _ Hq) as (bq & Hbq & Hbf). destruct (decide (q = p)) as [->|Hne].
  - exists b'. rewrite lookup_insert_eq. split; [done|]. apply Hf. congruence.
  - exists bq. by rewrite lookup_insert_ne.
Qed.

Lemma wp_add_read s A cl p rc :
  linking s A cl p false →
  wp (bml_add_read p (count_w (leases_of A cl)) (count_r (leases_of A cl)) rc)
     (λ rc' s', rc' = rc ∧ linv s' (grant A cl p false)) s.
Proof.
  intros [[ks Hlk] (m0 & hs0 & ks0 & Hold) Hw Hr Hcl [b Hb] Hbd Hop He Hdio].
  destruct (grant_counts _ _ _ _ cl p Hold) as (_ & _ & Hgw & Hgr).
  pose proof (grant_coherent _ _ _ _ cl p false _ Hold Hdio) as Hco.
  destruct s as [m hs w r fl ion0 as0 sq0 fid bno op tbl coh fr now o e]. ls_cbn.
  unfold bml_add_read, timeotbl_getnextseq. wp_step. do 2 wp_step. ls_cbn.
  destruct (mds_bmap_timeotbl_getnextseq tbl) as [sq t1]. do 3 wp_step. ls_cbn. wp_step. eapply wp_modL; [done|]. ls_cbn. wp_step.
  set (b1 := l_with_ios_seq _ _ _). set (b2 := l_with_flags b1 (setf (bml_flags b1) BML_TIMEOQ)).
  assert (Hv : view b2 = view b) by (etransitivity; [by apply view_setf|done]).
  assert (Hf : hasf (bml_flags b2) BML_FAILED = hasf (bml_flags b) BML_FAILED).
  { unfold b2, b1. cbn [bml_flags l_with_flags l_with_ios_seq]. by autorewrite with flags. }
  assert (Hfin : ∀ t' w' r', w' = nwriters (grant A cl p false) → r' = nreaders (grant A cl p false) →
    linv (Build_lstate T E (<[p := b2]> m) hs w' r' fl ion0 as0 sq0 fid bno op t' coh fr now o e) (grant A cl p false)).
  { intros t' w' r' -> ->. split; ls_cbn; [split; ls_cbn| |done| |lia|done].
    - exists ks. eapply linked_view; [|done]. by eapply same_view_insert.
    - done.
    - unfold bound in *. by rewrite Hgw.
    - eapply clean_insert; [done|done|by rewrite Hf]. }
  apply wp_when; intros Hc; rewrite Hc in Hgr; [unfold add_counts; wp_step; ls_cbn|]; (wp_step;
    eapply wp_timeotbl_add; [apply lookup_insert_eq|]; intros sq' t'; ls_cbn; rewrite insert_insert_eq; wp_step;
    split; [done|]; apply Hfin; ls_cbn; lia).
Qed.

Lemma grant_writer m hs ks A cl p : linked m hs ks A → nwriters (grant A cl p true) ≠ 0.
Proof.
  intros Hlk. destruct (grant_counts m hs ks A cl p Hlk) as (-> & _), (counts_at A cl (linked_not_nil _ _ _ _ _ Hlk)) as [-> _].
  pose proof (wr1_spec (leases_of A cl)). destruct (nwriters_nonneg (delete cl A)).
  destruct (Z.eqb_spec (count_w (leases_of A cl)) 0); lia.
Qed.

(** From the state after the assignment to the invariant; [G] are the leases
    with the new one. *)
Lemma linv_assigned s s' G p b b' :
  rep s G → coherent s G → clean (ls_bmls s) G → 0 < ls_opcnt s → nwriters G ≠ 0 →
  ls_bmls s !! p = Some b → ios_frame s s' p b b' →
  rep (ls_with_flags s' (clrf (ls_flags s') BMAPF_IOSASSIGNED)) G ∧
  (hasf (bml_flags b') BML_FAILED = hasf (bml_flags b) BML_FAILED → assigned s' →
   linv (ls_with_flags s' (clrf (ls_flags s') BMAPF_IOSASSIGNED)) G).
Proof.
  intros Hrep Hco Hcl Hop Hnw Hb (Hm & Hv & Hls & Hw & Hr & Hop' & Hfl & He).
  assert (Hrep' : rep (ls_with_flags s' (clrf (ls_flags s') BMAPF_IOSASSIGNED)) G).
  { eapply rep_view; [done| |done..]. cbn. rewrite Hm. by eapply same_view_insert. }
  split; [done|]. intros Hbf Has. split; [done| | | |cbn; lia|done].
  - unfold bound. destruct (Z.eqb_spec (nwriters G) 0); [done|].
    destruct Has as (ion & elem & H1' & H2' & H3' & H4' & H5'). exists ion, elem. cbn [ls_wr_ion ls_assign ls_odt ls_flags ls_with_flags].
    do 4 (split; [done|]). by rewrite hasf_clrf.
  - unfold coherent in *. cbn [ls_flags ls_with_flags]. rewrite hasf_clrf.
    change (Z.ldiff BMAPF_DIO BMAPF_IOSASSIGNED) with (Z.ldiff BMAPF_DIO BMAPF_NOION). rewrite <-hasf_clrf, Hfl, hasf_clrf. done.
  - cbn. rewrite Hm. eapply clean_insert; [done|done|by rewrite Hbf].
Qed.

Lemma wp_add_write s A cl p ios prefios :
  linking s A cl p true →
  wp (bml_add_write p false ios prefios (count_w (leases_of A cl)) (count_r (leases_of A cl)))
     (λ rc s', rep s' (grant A cl p true) ∧ (rc = 0 → linv s' (grant A cl p true))) s.
Proof.
  intros [[ks Hlk] (m0 & hs0 & ks0 & Hold) Hw Hr Hcl [b Hb] Hbd Hop He Hdio].
  destruct (grant_counts _ _ _ _ cl p Hold) as (Hgw & Hgr & _ & _).
  pose proof (grant_coherent _ _ _ _ cl p true _ Hold Hdio) as Hco. pose proof (grant_writer _ _ _ _ cl p Hold) as Hnz.
  destruct (counts_at A cl (linked_not_nil _ _ _ _ _ Hold)) as [Haw _]. pose proof (wr1_spec (leases_of A cl)) as Hwr.
  set (l := leases_of A cl) in *. set (G := grant A cl p true) in *. unfold bml_add_write, setB, clrB, add_counts.
  set (s1 := ls_with_leases (ls_with_flags s (setf (ls_flags s) BMAPF_IOSASSIGNED)) (ls_bmls s) (ls_leases s)
               (nwriters G) (nreaders G)).
  do 2 wp_step. wp_step. eapply (wp_mono _ (λ _ s', s' = s1)).
  { apply wp_when; intros Hc; rewrite Hc in Hgw, Hgr.
    - wp_step. unfold s1. rewrite Hgw, Hgr, <-Hw, <-Hr. by destruct s.
    - unfold s1. rewrite Hgw, Hgr, <-Hw, <-Hr, !Z.add_0_r. by destruct s. }
  intros _ ? ->. do 2 wp_step.
  assert (Hasg : hasf (ls_flags s1) BMAPF_IOSASSIGNED = true) by (cbn; by autorewrite with flags).
  assert (Hrep1 : rep s1 G) by (split; [by exists ks|done]).
  assert (Hco1 : coherent s1 G).
  { unfold coherent, s1. cbn [ls_flags ls_with_leases ls_with_flags]. rewrite hasf_setf, orb_false_r. done. }
  assert (Hfin : ∀ rc s' b', ios_frame s1 s' p b b' →
    (rc = 0 → hasf (bml_flags b') BML_FAILED = hasf (bml_flags b) BML_FAILED ∧ assigned s') →
    wp (_ ← modifyM (λ s, ls_with_flags s (clrf (ls_flags s) BMAPF_IOSASSIGNED)); mret rc)
      (λ rc s', rep s' G ∧ (rc = 0 → linv s' G)) s').
  { intros rc s' b' Hf Hok. destruct (linv_assigned s1 s' G p b b') as [H1' H2']; try done. repeat wp_step.
    split; [done|]. intros Hrc. apply H2'; by apply Hok. }
  wp_step. destruct ((count_w l =? 0) && (ls_writers s1 =? 1)) eqn:Hfirst.
  - assert (nwriters A = 0) as Hz.
    { change (ls_writers s1) with (nwriters G) in Hfirst. apply andb_true_iff in Hfirst as [Hc1 Hc2].
      rewrite Hc1 in Hgw. lia. }
    unfold bound in Hbd. rewrite Hz in Hbd. destruct Hbd as [Hion Has]. wp_step. wp_step.
    { cbn. rewrite Hion. done. }
    eapply wp_mono; [by eapply wp_ios_assign|]. intros rc s' (b' & Hf & Hok). by eapply Hfin.
  - destruct (nwriters_nonneg A), (nwriters_nonneg (delete cl A)).
    assert (nwriters A ≠ 0) as Hz.
    { change (ls_writers s1) with (nwriters G) in Hfirst. destruct (Z.eqb_spec (count_w l) 0); cbn [andb] in Hfirst; lia. }
    unfold bound in Hbd. destruct (Z.eqb_spec (nwriters A) 0); [done|].
    assert (Has1 : assigned s1).
    { destruct Hbd as (ion & elem & ? & ? & ? & ? & ?). exists ion, elem. cbn. split_and!; try done.
      by rewrite hasf_setf, orb_false_r. }
    wp_step. wp_step. { destruct Hbd as (ion & elem & Hion & _). cbn. by rewrite Hion. }
    eapply wp_mono; [by eapply wp_ios_update|]. intros rc s' (b' & Hf & Hff & Hok). eapply Hfin; [done|]. intros Hrc. split; [done|by apply Hok].
Qed.

Lemma dio_frame_flag s s1 f :
  dio_frame s s1 → Z.ldiff f (Z.lor BMAPF_DIO BMAPF_DIOCB) = f → hasf (ls_flags s1) f = hasf (ls_flags s) f.
Proof. intros (m' & fl' & coh' & -> & _ & Hfl & _) Hf. cbn. rewrite <-Hf, <-!hasf_clrf. by rewrite Hfl. Qed.

Lemma bound_frame s s1 A : bound s A → dio_frame s s1 → bound s1 A.
Proof.
  intros Hbd Hf. pose proof (dio_frame_flag s s1 BMAPF_NOION Hf eq_refl) as Hno.
  destruct Hf as (m' & fl' & coh' & -> & _). unfold bound in *. destruct (nwriters A =? 0); [done|].
  destruct Hbd as (ion & elem & ? & ? & ? & ? & ?). exists ion, elem. by split_and!; try rewrite Hno.
Qed.
Lemma clean_core m m' A : clean m A → same_core m m' → clean m' A.
Proof.
  intros Hc Hs cl p w Hp. destruct (Hc _ _ _ Hp) as (b & Hb & Hf). specialize (Hs p). rewrite Hb in Hs.
  destruct (m' !! p) as [b'|]; [|done]. exists b'. split; [done|]. apply (inj Some) in Hs.
  by rewrite <-(core_flag b b' BML_FAILED Hs eq_refl).
Qed.
Lemma linv_frame s s1 A : linv s A → dio_frame s s1 → coherent s1 A → linv s1 A.
Proof.
  intros [Hrep Hbd _ Hcl Hop He] Hf Hco. pose proof (bound_frame _ _ _ Hbd Hf). pose proof (dio_frame_view _ _ Hf) as Hv.
  destruct Hf as (m' & fl' & coh' & -> & Hm & _). split; try done.
  - by eapply rep_view.
  - by eapply clean_core.
Qed.

Lemma wp_bml_add s A cl p w b prefios :
  linv s A → ls_bmls s !! p = Some b → new_lease A cl w p b → client_ok cl →
  hasf (ls_flags s) BMAPF_IOSASSIGNED = false → hasf (bml_flags b) BML_RECOVER = false →
  hasf (bml_flags b) BML_FAILED = false →
  wp (mds_bmap_bml_add p (rw_of w) prefios) (λ rc s',
    (rc = - SLERR_BMAP_DIOWAIT ∧ linv s' A ∧ (∀ cl' q, cl' ≠ cl → q ∈ (leases_of A cl').*1 → told s' q)) ∨
    (rep s' (grant A cl p w) ∧ (rc = 0 → linv s' (grant A cl p w)) ∧ (w = false → rc = 0))) s.
Proof.
  intros Hinv Hb Hn Hok Hwait Hrec Hfail. pose proof Hn as (Hcl & _). unfold mds_bmap_bml_add.
  wp_step. eapply wp_getL; [done|]. cbv zeta. rewrite Hcl, Hrec. destruct Hok as (Hk1 & Hk2 & Hk3 & Hk4).
  wp_step. wp_step.
  { apply Z.eqb_neq in Hk1 as ->, Hk2 as ->, Hk3 as ->, Hk4 as ->. done. }
  do 3 wp_step. wp_step; [by rewrite Hwait|]. do 2 wp_step. wp_step.
  set (s0 := ls_with_misc s (ls_opcnt s + 1) (ls_tt s) (ls_coh s) (ls_env s)).
  assert (Hinv0 : linv s0 A) by (destruct Hinv as [? ? ? ? ? ?]; split; try done; cbn; lia).
  eapply wp_mono; [apply (wp_directio s0 A), Hinv0|]. intros rc s1 [Hf [(-> & Hd & Hmono & _)|(-> & Hnd & Ht)]].
  - assert (Hco1 : coherent s1 A).
    { destruct (li_coherent _ _ Hinv0) as [Hx|Hx]; [left; by apply Hmono|by right]. }
    pose proof (linv_frame s0 s1 A Hinv0 Hf Hco1) as Hinv1. destruct (li_rep _ _ Hinv1) as ([ks Hlk] & Hw1 & Hr1).
    rewrite Z.eqb_refl. cbn [negb andb]. wp_step. unfold wp at 1. rewrite (dupls_find_eq _ _ _ _ Hlk).
    assert (Hcore : same_core (ls_bmls s) (ls_bmls s1)) by (destruct Hf as (? & ? & ? & -> & Hm & _); done).
    assert (∃ b1, ls_bmls s1 !! p = Some b1 ∧ core b = core b1) as (b1 & Hb1 & Hcb).
    { specialize (Hcore p). rewrite Hb in Hcore. destruct (ls_bmls s1 !! p) as [b1|]; [|done].
      exists b1. split; [done|]. by apply (inj Some). }
    assert (Hn1 : new_lease A cl w p b1).
    { destruct Hn as (H1' & H2' & H3' & H4' & H5' & H6'). unfold new_lease. rewrite <-!(core_flag b b1) by done.
      split_and!; try done; [rewrite <-H1'|rewrite <-H6'].
      - by apply (f_equal bml_cli_nidpid) in Hcb.
      - by apply (f_equal bml_exp) in Hcb. }
    destruct (bml_link_eq _ _ _ _ _ _ _ Hlk Hb1 Hn1) as (m2 & hs2 & ks2 & Hrun & Hlk2 & Hsr & b2 & Hb2 & _).
    wp_step. unfold wp at 1. rewrite Hrun.
    assert (Hln : linking (ls_with_leases s1 m2 hs2 (ls_writers s1) (ls_readers s1)) A cl p w).
    { split; cbn; try done; [by exists ks2|by exists (ls_bmls s1), (ls_leases s1), ks| |by exists b2|apply Hinv1| |apply Hinv1].
      - eapply clean_rest; [apply Hinv1|done|done|]. by rewrite <-(core_flag b b1 BML_FAILED Hcb).
      - destruct Hf as (? & ? & ? & -> & _). cbn. pose proof (li_opcnt _ _ Hinv). lia. }
    destruct w; (eapply wp_mono; [first [by eapply wp_add_read|by eapply wp_add_write]|]).
    + intros rc s2 [? ?]. right. by split_and!.
    + intros rc s2 [-> Hi]. right. split_and!; try done. apply Hi.
  - cbn. wp_step. left. split_and!; try done.
    + eapply linv_frame; [done|done|]. right. destruct (li_coherent _ _ Hinv0) as [Hx|Hx]; [congruence|done].
Qed.
End add.

(** ** Releasing a lease *)
Section release.
Context {T E : Type} `{OdTableLaws T} `{LeaseEnvLaws E} `{PflErr}.
Implicit Types (s : lstate T E) (A : held).

Lemma view_clrf b f :
  Z.ldiff BML_READ f = BML_READ → Z.ldiff BML_WRITE f = BML_WRITE → Z.ldiff BML_CHAIN f = BML_CHAIN →
  Z.ldiff BML_RECOVER f = BML_RECOVER →
  view (l_with_flags b (clrf (bml_flags b) f)) = view b.
Proof.
  intros Hf1 Hf2 Hf3 Hf4. unfold view. cbn [bml_cli_nidpid bml_chain bml_flags bml_exp l_with_flags].
  rewrite !hasf_clrf. by rewrite Hf1, Hf2, Hf3, Hf4.
Qed.

Lemma wp_timeotbl_del s p b Q :
  ls_bmls s !! p = Some b →
  (∀ sq t', Q sq (ls_with_bmls (ls_with_misc s (ls_opcnt s) t' (ls_coh s) (ls_env s))
                   (<[p := l_with_flags b (clrf (bml_flags b) BML_TIMEOQ)]> (ls_bmls s)))) →
  wp (timeotbl_mdsi p BTE_DEL) Q s.
Proof.
  intros Hb HQ. unfold timeotbl_mdsi, clrLf. wp_step. eapply wp_getL; [done|]. do 2 wp_step.
  cbn [mds_bmap_timeotbl_mdsi]. wp_step. wp_step. wp_step. eapply wp_modL; [done|]. wp_step. apply HQ.
Qed.

Lemma revoke_absent m hs ks A cl p w :
  linked m hs ks A → (p, w) ∈ leases_of A cl → ∀ cl', p ∉ (leases_of (revoke A cl p) cl').*1.
Proof.
  intros Hlk Hp cl' Hin. destruct (decide (cl' = cl)) as [->|Hne].
  - rewrite leases_of_revoke in Hin. apply list_elem_of_fmap in Hin as (x & -> & Hx).
    unfold drop_lease in Hx. by apply list_elem_of_filter in Hx as [Hx _].
  - assert (Hsame : leases_of (revoke A cl p) cl' = leases_of A cl').
    { unfold revoke. destruct (drop_lease p (leases_of A cl)); unfold leases_of;
        [by rewrite lookup_delete_ne|by rewrite lookup_insert_ne]. }
    rewrite Hsame in Hin. destruct Hlk as (_ & _ & _ & Hr). apply Hne.
    apply list_elem_of_fmap in Hin as (x & -> & Hx).
    eapply (ring_disjoint m cl' cl); [apply Hr; by eapply lookup_leases_of|apply Hr; by eapply lookup_leases_of| |].
    + by apply list_elem_of_fmap_2.
    + by apply (list_elem_of_fmap_2 fst _ (x.1, w)).
Qed.

Lemma revoke_counts m hs ks A cl p w :
  linked m hs ks A → (p, w) ∈ leases_of A cl →
  nwriters (revoke A cl p) ≤ nwriters A ∧ nwriters (revoke A cl p) + nreaders (revoke A cl p) ≤ nwriters A + nreaders A ∧
  (w = false → nwriters (revoke A cl p) = nwriters A) ∧ (w = true → nwriters A ≠ 0).
Proof.
  intros Hlk Hp. destruct (counts_at A cl (linked_not_nil _ _ _ _ _ Hlk)) as [-> ->], (counts_revoke A cl p) as [-> ->].
  pose proof (lookup_leases_of _ _ _ Hp) as Hl. set (l := leases_of A cl) in *.
  assert (Hnd : NoDup l.*1) by (by apply Hlk in Hl as (_ & Hnd & _)).
  destruct (drop_counts l p w Hnd Hp) as [Hcw Hcr].
  pose proof (wr1_spec l). pose proof (rd1_spec l). pose proof (wr1_spec (drop_lease p l)). pose proof (rd1_spec (drop_lease p l)).
  pose proof (count_length l). pose proof (count_length (drop_lease p l)). destruct (nwriters_nonneg (delete cl A)).
  destruct w; split_and!; try done; intros; lia.
Qed.

Lemma linked_forget m hs ks A p :
  linked m hs ks A → (∀ cl, p ∉ (leases_of A cl).*1) → linked (delete p m) hs ks A.
Proof.
  intros (Hnd & Hks & Hhs & Hr) Hp. split_and!; try done. intros cl l Hl. eapply ring_view; [|by apply Hr].
  intros q Hq. rewrite lookup_delete_ne; [done|]. intros ->. apply (Hp cl). unfold leases_of. by rewrite Hl.
Qed.

(** The end of a release: what becomes of the assignment. *)
Lemma wp_release_writer s A R p b w :
  ls_bmls s !! p = Some b → hasf (bml_flags b) BML_WRITE = w → hasf (bml_flags b) BML_FAILED = false →
  bound s A → ls_writers s = nwriters R → nwriters R ≤ nwriters A → 0 ≤ nwriters R →
  (w = false → nwriters R = nwriters A) → (w = true → nwriters A ≠ 0) → env_ok (ls_env s) →
  wp (release_writer p) (λ odtr s', bound s' R ∧ (∃ ion asg e', env_ok e' ∧
      s' = ls_with_ios (ls_with_misc s (ls_opcnt s) (ls_tt s) (ls_coh s) e') ion asg (ls_seq s) (ls_odt s) (ls_freed s)) ∧
    (odtr ≠ None → nwriters R = 0) ∧ odtr = (if w && (nwriters R =? 0) then ls_assign s else None)) s.
Proof.
  intros Hb HW Hf Hbd Hw Hle H0' Hro Hwo Hen. unfold release_writer. do 2 wp_step. wp_step. eapply wp_getL; [done|].
  rewrite HW, Hw. destruct (w && (nwriters R =? 0)) eqn:Hlast.
  - apply andb_true_iff in Hlast as [-> Hz]. unfold bound in Hbd.
    destruct (Z.eqb_spec (nwriters A) 0); [by specialize (Hwo eq_refl)|].
    destruct Hbd as (ion & elem & Hion & Has & _ & (Hbf & Hbs & Hbb & _) & Hno). rewrite Hno, Has, Hion.
    assert (hasf (bml_flags b) BML_ASSFAIL = false ∧ hasf (bml_flags b) BML_RECOVERFAIL = false) as [-> ->].
    { apply hasf_lor_false. exact Hf. }
    cbn [negb]. wp_step. rewrite Hbs, Hbb, !Z.eqb_refl. do 2 (wp_step; wp_step; [done|]). do 6 wp_step.
    apply wp_onEnv. eapply wp_mono; [by apply wp_queue_work|]. intros _ e' [He' _]. wp_step. split_and!.
    + unfold bound. by rewrite Hz.
    + by exists None, None, e'.
    + intros _. lia.
    + done.
  - wp_step. split_and!; [|exists (ls_wr_ion s), (ls_assign s), (ls_env s); split; [done|by destruct s]|done|done].
    unfold bound in *. destruct (Z.eqb_spec (nwriters R) 0) as [Hz|Hz].
    + destruct w; [done|]. by rewrite <-Hro, Hz in Hbd by done.
    + destruct (Z.eqb_spec (nwriters A) 0); [lia|done].
Qed.

Lemma rest_flag b b' f :
  rest b = rest b' → Z.ldiff f (Z.lor BML_CHAIN BML_BMI) = f → hasf (bml_flags b) f = hasf (bml_flags b') f.
Proof. intros Hr Hf. apply (f_equal bml_flags) in Hr. cbn in Hr. rewrite <-Hf, <-!hasf_clrf. by rewrite Hr. Qed.

Lemma revoke_sub A cl p cl' x : x ∈ leases_of (revoke A cl p) cl' → x ∈ leases_of A cl'.
Proof.
  destruct (decide (cl' = cl)) as [->|Hne].
  - rewrite leases_of_revoke. unfold drop_lease. by intros [_ ?]%list_elem_of_filter.
  - unfold revoke. destruct (drop_lease p (leases_of A cl)); unfold leases_of;
      [by rewrite lookup_delete_ne|by rewrite lookup_insert_ne].
Qed.
Lemma clean_rest_revoke m m' A cl p : clean m A → same_rest m m' → clean m' (revoke A cl p).
Proof.
  intros Hc Hs cl' q w Hq%revoke_sub. destruct (Hc _ _ _ Hq) as (b & Hb & Hf). specialize (Hs q). rewrite Hb in Hs.
  destruct (m' !! q) as [b'|]; [|done]. exists b'. split; [done|]. apply (inj Some) in Hs.
  by rewrite <-(rest_flag b b' BML_FAILED Hs eq_refl).
Qed.

(** The flags of the bmap after a release. *)
Definition dio_after (fl w r : Z) : Z :=
  if hasf fl (Z.lor BMAPF_DIO BMAPF_DIOCB) && ((w =? 0) || ((w =? 1) && (r =? 0)))
  then clrf fl (Z.lor BMAPF_DIO BMAPF_DIOCB) else fl.

Lemma release_coherent m hs ks A cl p w fl :
  linked m hs ks A → (p, w) ∈ leases_of A cl →
  (hasf fl BMAPF_DIO = true ∨ nwriters A = 0 ∨ nwriters A + nreaders A = 1) →
  let R := revoke A cl p in
  hasf (clrf (dio_after fl (nwriters R) (nreaders R)) BMAPF_IOSASSIGNED) BMAPF_DIO = true ∨
  nwriters R = 0 ∨ nwriters R + nreaders R = 1.
Proof.
  intros Hlk Hp Hco R. destruct (revoke_counts _ _ _ _ _ _ _ Hlk Hp) as (Hw & Hs & _ & _). fold R in Hw, Hs.
  destruct (nwriters_nonneg R), (nwriters_nonneg A). unfold dio_after.
  destruct ((nwriters R =? 0) || ((nwriters R =? 1) && (nreaders R =? 0))) eqn:Hc; [right; lia|].
  rewrite andb_false_r. rewrite hasf_clrf. change (Z.ldiff BMAPF_DIO BMAPF_IOSASSIGNED) with BMAPF_DIO.
  destruct Hco as [->|[Hz|Hz]]; [by left|right; lia|right; lia].
Qed.

(** The part of a release that takes the lease off the lists. *)
Lemma wp_release_lists s A cl p w b Q :
  linv s A → (p, w) ∈ leases_of A cl → ls_bmls s !! p = Some b →
  (∀ m' hs' t' b', (∃ ks, linked m' hs' ks (revoke A cl p)) → m' !! p = Some b' →
     hasf (bml_flags b') BML_WRITE = w → hasf (bml_flags b') BML_FAILED = false → clean m' (revoke A cl p) →
     Q tt (ls_with_misc (ls_with_leases s m' hs' (nwriters (revoke A cl p)) (nreaders (revoke A cl p)))
             (ls_opcnt s) t' (ls_coh s) (ls_env s))) →
  wp (whenM (hasf (bml_flags b) BML_TIMEOQ) (_ ← timeotbl_mdsi p BTE_DEL; mret tt))
     (λ _ s', wp (mds_bmap_bml_del_locked p) (λ _ s', wp (clrLf p BML_BMI) Q s') s') s.
Proof.
  intros Hinv Hp Hb HQ.
  assert (∃ b0, ls_bmls s !! p = Some b0 ∧ hasf (bml_flags b0) BML_FAILED = false ∧ hasf (bml_flags b0) BML_WRITE = w)
    as (b0 & Hb0 & Hf & HW).
  { destruct (li_clean _ _ Hinv _ _ _ Hp) as (b0 & Hb0 & Hf0). exists b0. split; [done|]. split; [done|].
    destruct (li_rep _ _ Hinv) as ([ks (_ & _ & _ & Hr)] & _). pose proof (lookup_leases_of _ _ _ Hp) as Hl.
    destruct (seg_cell _ _ _ _ _ _ _ (proj2 (proj2 (Hr _ _ Hl))) Hp) as (? & ? & b1 & Hb1 & _ & _ & _ & HW1 & _). congruence. }
  simplify_eq.
  eapply (wp_mono _ (λ _ s', ∃ t' b2, core b2 = core b ∧
    s' = ls_with_misc (ls_with_bmls s (<[p := b2]> (ls_bmls s))) (ls_opcnt s) t' (ls_coh s) (ls_env s))).
  { apply wp_when; intros Ht.
    - wp_step. eapply wp_timeotbl_del; [done|]. intros sq t'. wp_step. eexists t', _. split; [|reflexivity].
      unfold core. cbn [bml_flags l_with_flags]. unfold clrf. by rewrite <-Z.land_assoc.
    - exists (ls_tt s), b. split; [done|]. rewrite insert_id by done. by destruct s. }
  intros _ s2 (t' & b2 & Hcore & ->). set (s2 := ls_with_misc _ _ _ _ _).
  assert (Hsc : same_core (ls_bmls s) (ls_bmls s2)) by (cbn; by eapply same_core_insert).
  assert (Hrep2 : rep s2 A) by (eapply rep_view; [apply Hinv|by apply same_core_view|done..]).
  eapply wp_mono; [by eapply wp_del_locked|]. intros _ s3 (Hrep3 & m3 & hs3 & w3 & r3 & -> & Hsr).
  pose proof (Hsr p) as Hsrp. cbn [ls_bmls s2 ls_with_misc ls_with_bmls ls_with_leases] in Hsrp. rewrite lookup_insert_eq in Hsrp.
  destruct (m3 !! p) as [b3|] eqn:Hb3; [|done]. apply (inj Some) in Hsrp.
  unfold clrLf. eapply wp_modL; [exact Hb3|]. set (b4 := l_with_flags b3 _).
  destruct Hrep3 as ([ks3 Hlk3] & Hw3 & Hr3). cbn in Hw3, Hr3, Hlk3. rewrite Hw3, Hr3.
  assert (Hfl : ∀ f, Z.ldiff f (Z.lor BML_CHAIN BML_BMI) = f → Z.ldiff f (Z.lor BML_DIOCB BML_TIMEOQ) = f →
                     Z.ldiff f BML_BMI = f → hasf (bml_flags b4) f = hasf (bml_flags b) f).
  { intros f H1' H2' H3'. unfold b4. cbn [bml_flags l_with_flags]. rewrite hasf_clrf, H3'.
    rewrite <-(rest_flag _ _ f Hsrp H1'). by apply core_flag. }
  refine (HQ (<[p := b4]> m3) hs3 t' b4 _ _ _ _ _).
  - exists ks3. eapply linked_view; [|done]. eapply same_view_insert; [done|by apply view_clrf].
  - apply lookup_insert_eq.
  - by rewrite Hfl.
  - by rewrite Hfl.
  - eapply clean_insert; [|exact Hb3|by rewrite Hfl].
    eapply clean_rest_revoke; [|exact Hsr]. eapply clean_core; [apply Hinv|done].
Qed.

(** The rest of a release, from a state in which the lists are those of
    [R]. *)
Lemma wp_release_tail s A R p b w :
  (∃ ks, linked (ls_bmls s) (ls_leases s) ks R) → ls_writers s = nwriters R → ls_readers s = nreaders R →
  ls_bmls s !! p = Some b → hasf (bml_flags b) BML_WRITE = w → hasf (bml_flags b) BML_FAILED = false →
  clean (ls_bmls s) R → bound s A → 0 < ls_opcnt s → (∀ cl, p ∉ (leases_of R cl).*1) →
  nwriters R ≤ nwriters A → (w = false → nwriters R = nwriters A) → (w = true → nwriters A ≠ 0) →
  (hasf (clrf (dio_after (ls_flags s) (nwriters R) (nreaders R)) BMAPF_IOSASSIGNED) BMAPF_DIO = true ∨
   nwriters R = 0 ∨ nwriters R + nreaders R = 1) → env_ok (ls_env s) →
  wp release_dio (λ _ s', wp (release_writer p) (λ odtr s', wp (release_done p odtr)
    (λ rc s', rc = 0 ∧ linv s' R ∧ ls_bmls s' !! p = None ∧
      ls_freed s' = ls_freed s ++ (if w && (nwriters R =? 0) then option_list (ls_assign s) else [])) s') s') s.
Proof.
  intros [ks Hlk] Hw Hr Hb HW Hf Hcl Hbd Hop Habs Hle Hro Hwo Hco Hen.
  unfold release_dio, clrB. do 2 wp_step.
  eapply (wp_mono _ (λ _ s', s' = ls_with_flags s (dio_after (ls_flags s) (nwriters R) (nreaders R)))).
  { unfold dio_after. rewrite Hw, Hr. apply wp_when; intros ->; [by wp_step|by destruct s]. }
  intros _ ? ->. set (fl := dio_after _ _ _) in *. eapply wp_mono.
  { eapply (wp_release_writer _ A R p b w); try done; [|by apply nwriters_nonneg].
    unfold bound in *. destruct (nwriters A =? 0); [done|]. destruct Hbd as (ion & elem & ? & ? & ? & ? & Hno).
    exists ion, elem. cbn. split_and!; try done. unfold fl, dio_after. case_match; [by rewrite hasf_clrf|done]. }
  intros odtr s' (Hbd' & (ion & asg & e' & He' & ->) & Hz & Hodtr).
  assert (Hbd2 : ∀ o fr fl', hasf fl' BMAPF_NOION = hasf fl BMAPF_NOION → (odtr = None → o = ls_odt s) →
    bound (Build_lstate T E (delete p (ls_bmls s)) (ls_leases s) (ls_writers s) (ls_readers s) fl' ion asg (ls_seq s)
      (ls_fid s) (ls_bmapno s) (ls_opcnt s - 1) (ls_tt s) (ls_coh s) fr (ls_now s) o e') R).
  { intros o fr fl' Hfl' Ho. unfold bound in *. destruct (Z.eqb_spec (nwriters R) 0) as [|Hnz]; [done|].
    destruct odtr; [by destruct Hnz; apply Hz|]. rewrite Ho by done.
    destruct Hbd' as (i' & el & ? & ? & ? & ? & Hno). exists i', el. by split_and!; cbn; try rewrite Hfl'. }
  assert (Hfin : ∀ o fr, (odtr = None → o = ls_odt s) →
    linv (Build_lstate T E (delete p (ls_bmls s)) (ls_leases s) (ls_writers s) (ls_readers s) (clrf fl BMAPF_IOSASSIGNED)
      ion asg (ls_seq s) (ls_fid s) (ls_bmapno s) (ls_opcnt s - 1) (ls_tt s) (ls_coh s) fr (ls_now s) o e') R).
  { intros o fr Ho. split; [split; [exists ks; by apply linked_forget|done]| |done| |cbn; lia|done].
    - apply Hbd2; [by rewrite hasf_clrf|done].
    - intros cl q w' Hq. cbn. rewrite lookup_delete_ne; [by eapply Hcl|]. intros ->. apply (Habs cl).
      by apply (list_elem_of_fmap_2 fst _ (q, w')). }
  assert (Hopt : (if w && (nwriters R =? 0) then option_list (ls_assign s) else []) = option_list odtr)
    by (rewrite Hodtr; by case_match).
  unfold release_done, clrB. do 5 wp_step. rewrite Hopt. clear Hodtr Hopt. destruct odtr as [elem|]; repeat wp_step; split_and!.
  all: try done; try (apply lookup_delete_eq); try (by apply Hfin). by rewrite app_nil_r.
Qed.

Lemma wp_bml_release s A cl p w b :
  linv s A → (p, w) ∈ leases_of A cl → ls_bmls s !! p = Some b →
  bml_refcnt b ≤ 1 → hasf (bml_flags b) BML_FREEING = true → hasf (bml_flags b) BML_BMI = true →
  0 < ls_opcnt s → hasf (ls_flags s) BMAPF_IOSASSIGNED = false →
  wp (mds_bmap_bml_release p) (λ rc s', rc = 0 ∧ linv s' (revoke A cl p) ∧ ls_bmls s' !! p = None ∧
    ls_freed s' = ls_freed s ++ (if w && (nwriters (revoke A cl p) =? 0) then option_list (ls_assign s) else [])) s.
Proof.
  intros Hinv Hp Hb Href Hfree Hbmi Hop Hwait. pose proof (li_rep _ _ Hinv) as ([ks Hlk] & _).
  pose proof (release_coherent _ _ _ _ _ _ _ (setf (ls_flags s) BMAPF_IOSASSIGNED) Hlk Hp) as Hco.
  pose proof (revoke_absent _ _ _ _ _ _ _ Hlk Hp) as Habs.
  destruct (revoke_counts _ _ _ _ _ _ _ Hlk Hp) as (Hcw & _ & Hro & Hwo). set (R := revoke A cl p) in *.
  unfold mds_bmap_bml_release, setB, clrB. do 2 wp_step. wp_step. wp_step; [lia|]. wp_step. wp_step; [by rewrite Hwait|].
  do 2 wp_step. set (s1 := ls_with_flags s _). wp_step. eapply wp_getL; [done|].
  replace (bml_refcnt b >? 1) with false by lia. rewrite Hfree, Hbmi. cbn [negb orb].
  assert (Hco1 : coherent s1 A).
  { unfold coherent, s1. cbn. rewrite hasf_setf, orb_false_r. apply Hinv. }
  assert (Hbd1 : bound s1 A).
  { pose proof (li_bound _ _ Hinv) as Hbd. unfold bound in *. destruct (nwriters A =? 0); [done|].
    destruct Hbd as (ion & elem & ? & ? & ? & ? & ?). exists ion, elem. cbn. split_and!; try done.
    by rewrite hasf_setf, orb_false_r. }
  assert (Hinv1 : linv s1 A) by (destruct Hinv; by split).
  wp_step. set (Post := λ (rc : Z) (s' : lstate T E), rc = 0 ∧ _).
  eapply wp_mono; [apply (wp_release_lists s1 A cl p w b (λ _ s', wp release_dio (λ _ s', wp (release_writer p)
    (λ odtr s', wp (release_done p odtr) Post s') s') s') Hinv1 Hp Hb)|].
  - intros m' hs' t' b' Hlk' Hb' HW HF Hcl'.
    apply (wp_release_tail (ls_with_misc (ls_with_leases s1 m' hs' (nwriters R) (nreaders R)) (ls_opcnt s1) t'
             (ls_coh s1) (ls_env s1)) A R p b' w); try done; [apply Hco, Hco1|apply Hinv].
  - intros [] s2 H2'. do 2 wp_step. eapply wp_mono; [exact H2'|]. intros [] s3 H3'. wp_step. eapply wp_mono; [exact H3'|].
    intros [] s4 H4'. wp_step. eapply wp_mono; [exact H4'|]. intros [] s5 H5'. exact H5'.
Qed.
End release.

(** ** Finding a lease by its number *)
Section getbml.
Context {T E : Type} `{OdTableLaws T} `{LeaseEnvLaws E} `{PflErr}.
Implicit Types (s : lstate T E) (A : held).

(** [p] is the first lease of [l] with the number [seq], and is not being
    freed. *)
Definition numbered (s : lstate T E) (seq : Z) (l : list (Z * bool)) (p : Z) (b : bmap_mds_lease) : Prop :=
  ∃ l1 w l2, l = l1 ++ (p, w) :: l2 ∧ (∀ q, q ∈ l1.*1 → seq_of s q ≠ seq) ∧
    ls_bmls s !! p = Some b ∧ bml_seq b = seq ∧ hasf (bml_flags b) BML_FREEING = false.

Definition taken (s : lstate T E) (p : Z) (b : bmap_mds_lease) : lstate T E :=
  ls_with_bmls s (<[p := l_with_refcnt b (bml_refcnt b + 1)]> (ls_bmls s)).

Lemma getbml_ring_eq s seq l p b :
  (∀ q, q ∈ l.*1 → is_Some (ls_bmls s !! q)) → numbered s seq l p b →
  getbml_ring seq l.*1 s = Done (Some (Some p), taken s p b).
Proof.
  intros Hall (l1 & w & l2 & -> & Hl1 & Hb & Hseq & Hfr). induction l1 as [|[q wq] l1 IH]; cbn [app fmap list_fmap getbml_ring fst].
  - rewrite (bind_done _ _ _ _ _ (getL_eq _ _ _ Hb)), Hseq, Z.eqb_refl, Hfr.
    by rewrite (bind_done _ _ _ _ _ (modL_eq _ _ _ _ Hb)).
  - destruct (Hall q ltac:(by left)) as [bq Hbq]. rewrite (bind_done _ _ _ _ _ (getL_eq _ _ _ Hbq)).
    pose proof (Hl1 q ltac:(by left)) as Hq. unfold seq_of in Hq. rewrite Hbq in Hq. cbn in Hq.
    apply Z.eqb_neq in Hq as ->. apply IH.
    + intros x Hx. apply Hall. by right.
    + intros x Hx. apply Hl1. by right.
Qed.

Lemma getbml_eq s ks A cl seq p b :
  linked (ls_bmls s) (ls_leases s) ks A → numbered s seq (leases_of A cl) p b →
  mds_bmap_getbml seq cl s = Done (Some p, taken s p b).
Proof.
  intros (Hnd & Hks & Hhs & Hr) Hnum. unfold mds_bmap_getbml. erewrite (bind_done getM) by done. rewrite Hhs.
  assert (Hin : cl ∈ ks).
  { apply Hks. destruct Hnum as (l1 & w & l2 & Hl & _). unfold leases_of in Hl. destruct (A !! cl); [by eexists|by destruct l1]. }
  assert (Hsub : ∀ x, x ∈ ks → is_Some (A !! x)) by (intros; by apply Hks). clear Hhs Hks.
  induction ks as [|c ks IH]; [by apply elem_of_nil in Hin|]. apply NoDup_cons in Hnd as [Hc Hnd].
  cbn [fmap list_fmap getbml_leases]. destruct (Hsub c ltac:(by left)) as [l Hl]. pose proof (Hr _ _ Hl) as Hring.
  assert (Hlo : leases_of A c = l) by (unfold leases_of; by rewrite Hl). rewrite Hlo.
  assert (∃ bh, ls_bmls s !! first_of l 0 = Some bh ∧ bml_cli_nidpid bh = c) as (bh & Hbh & Hch).
  { destruct l as [|[h w] l]; [by destruct Hring|]. destruct Hring as (_ & _ & [(bh & Hbh & Hch & _) _]). by exists bh. }
  rewrite (bind_done _ _ _ _ _ (getL_eq _ _ _ Hbh)), Hch. destruct (decide (c = cl)) as [->|Hne].
  - rewrite bool_decide_true by done. rewrite (bind_done _ _ _ _ _ (ring_of_eq _ _ _ Hring)). rewrite Hlo in Hnum.
    erewrite bind_done; [|apply getbml_ring_eq; [|exact Hnum]]; [done|].
    intros q Hq. destruct (ring_elem _ _ _ _ Hring Hq) as (? & ? & ? & _ & bq & Hbq & _). by exists bq.
  - rewrite bool_decide_false by done. apply IH; [done| |intros; apply Hsub; by right].
    apply elem_of_cons in Hin as [->|Hin]; done.
Qed.

(** Taking a reference keeps the invariant. *)
Lemma linv_update s A p b b' :
  linv s A → ls_bmls s !! p = Some b → view b' = view b → hasf (bml_flags b') BML_FAILED = hasf (bml_flags b) BML_FAILED →
  linv (ls_with_bmls s (<[p := b']> (ls_bmls s))) A.
Proof.
  intros [Hrep Hbd Hco Hcl Hop] Hb Hv Hf. split; try done.
  - eapply rep_view; [done|by eapply same_view_insert|done..].
  - eapply clean_insert; [done|done|by rewrite Hf].
Qed.

Lemma wp_handle_rls s A cl seq p w b :
  linv s A → (p, w) ∈ leases_of A cl → numbered s seq (leases_of A cl) p b →
  bml_refcnt b = 0 → hasf (bml_flags b) BML_BMI = true → 0 < ls_opcnt s → hasf (ls_flags s) BMAPF_IOSASSIGNED = false →
  wp (handle_rls_bmap_one seq cl) (λ _ s', linv s' (revoke A cl p) ∧ ls_bmls s' !! p = None ∧
    ls_freed s' = ls_freed s ++ (if w && (nwriters (revoke A cl p) =? 0) then option_list (ls_assign s) else [])) s.
Proof.
  intros Hinv Hp Hnum Href Hbmi Hop Hwait. destruct (li_rep _ _ Hinv) as ([ks Hlk] & _).
  unfold handle_rls_bmap_one, setLf. wp_step. unfold wp at 1. rewrite (getbml_eq _ _ _ _ _ _ _ Hlk Hnum).
  destruct Hnum as (_ & _ & _ & _ & _ & Hb & _ & _). wp_step.
  eapply wp_modL; [apply lookup_insert_eq|]. wp_step. set (b1 := l_with_flags _ _). cbn [taken ls_bmls ls_with_bmls ls_with_leases].
  rewrite insert_insert_eq. set (s1 := ls_with_bmls _ _).
  assert (Hv : view b1 = view b) by by apply (view_setf (l_with_refcnt b _) BML_FREEING).
  assert (Hf : hasf (bml_flags b1) BML_FAILED = hasf (bml_flags b) BML_FAILED).
  { unfold b1. cbn [bml_flags l_with_flags l_with_refcnt]. by autorewrite with flags. }
  eapply wp_mono; [eapply (wp_bml_release s1 A cl p w b1)|]; try done.
  - by apply (linv_update s A p b b1).
  - apply lookup_insert_eq.
  - cbn. lia.
  - unfold b1. cbn. by autorewrite with flags.
  - unfold b1. cbn. autorewrite with flags. by rewrite Hbmi.
  - intros rc s' (_ & H1' & H2' & H3'). wp_step. by split_and!.
Qed.
End getbml.
