(* ===== verification/LeaseProps.v ===== *)
(** * Theorems about leases

    Granting and releasing leases implement the abstract map of held leases;
    a reassigned lease and a full assignment table show two faults. *)
From S2P Require Import Prelude ReplBits Inode ReplWalk BmapMds ReplMds ReplReq Replay Timeo Lease LeaseInv LeaseOps.

(** ** A small server for the examples

    The assignment table has [ot_cap] slots; the environment answers with a
    fixed I/O system and a fixed result of the replica registration. *)
Module LeaseEx.
Record table := { ot_items : gmap Z bmap_ios_assign; ot_used : Z; ot_cap : Z }.
Definition no_item : bmap_ios_assign :=
  {| bia_ios := 0; bia_lastcli := (0, 0); bia_fid := 0; bia_seq := 0; bia_bmapno := 0; bia_start := 0; bia_flags := 0 |}.
Definition put (o : table) (n : Z) (a : bmap_ios_assign) : table :=
  {| ot_items := <[n := a]> (ot_items o); ot_used := ot_used o; ot_cap := ot_cap o |}.
#[global] Instance table_od : OdTable table := {|
  odt_allocslot o := if ot_used o <? ot_cap o
                     then (Some (ot_used o), {| ot_items := ot_items o; ot_used := ot_used o + 1; ot_cap := ot_cap o |})
                     else (None, o);
  odt_putitem := put;
  odt_getitem o n := default no_item (ot_items o !! n);
  odt_replaceitem := put;
  odt_freeitem o n := {| ot_items := delete n (ot_items o); ot_used := ot_used o; ot_cap := ot_cap o |};
  odt_putitemf o n a inuse := if (inuse : bool) then put o n a
    else {| ot_items := delete n (ot_items o); ot_used := ot_used o; ot_cap := ot_cap o |};
|}.
#[global] Instance table_laws : OdTableLaws table.
Proof. split; intros; simpl; by rewrite lookup_insert_eq. Qed.

Record answers := { an_ion : option Z; an_rc : Z; an_last : option Z }.
#[global] Instance answers_env : LeaseEnv answers := {|
  env_resm_select _ _ := λ e, Done (an_ion e, e);
  env_add_repl a _ := λ e, Done (an_rc e, {| an_ion := an_ion e; an_rc := an_rc e; an_last := Some (bia_ios a) |});
  env_queue_work := λ e, Done (tt, e);
|}.
#[global] Instance answers_laws : LeaseEnvLaws answers.
Proof.
  refine {| env_ok _ := True; ios_ok _ := True; env_wr e i := an_last e = Some i |}; intros; cbn; eauto 10.
Defined.

(** An idle bmap. *)
Definition idle (cap : Z) (ion : option Z) : lstate table answers :=
  {| ls_bmls := ∅; ls_leases := []; ls_writers := 0; ls_readers := 0; ls_flags := 0; ls_wr_ion := None;
     ls_assign := None; ls_seq := 0; ls_fid := 77; ls_bmapno := 3; ls_opcnt := 1;
     ls_tt := timeo_start 10; ls_coh := []; ls_freed := []; ls_now := 1000;
     ls_odt := {| ot_items := ∅; ot_used := 0; ot_cap := cap |}; ls_env := {| an_ion := ion; an_rc := 0; an_last := None |} |}.
Definition run {A} (m : M (lstate table answers) A) (s : lstate table answers) : lstate table answers :=
  match m s with Done (_, s') => s' | Stuck _ => s end.
Definition cli1 : client := (1, 101).
Definition cli2 : client := (2, 102).
(** Two read leases of one client. *)
Definition s_read2 : lstate table answers :=
  run (load_cli_lease 11 SL_READ false 5 cli1) (run (load_cli_lease 10 SL_READ false 5 cli1) (idle 4 (Some 5))).
Definition A_read2 : held := {[ cli1 := [(10, false); (11, false)] ]}.
(** One write lease. *)
Definition s_write : lstate table answers := run (load_cli_lease 20 SL_WRITE false 5 cli2) (idle 4 (Some 5)).
Definition A_write : held := {[ cli2 := [(20, true)] ]}.
End LeaseEx.

(** ** Runs that abort *)

Section facts.
Context {T E : Type} `{OdTableLaws T} `{LeaseEnvLaws E} `{PflErr}.
Implicit Types (s : lstate T E) (A : held).

(** A failed allocation of a slot leaves the I/O system bound and the bmap
    marked as having none. *)
Lemma wp_ios_assign_full s p b prefios ion e' o' :
  ls_bmls s !! p = Some b → ls_wr_ion s = None → ls_assign s = None → 0 < ls_opcnt s →
  hasf (ls_flags s) BMAPF_IOSASSIGNED = true →
  env_resm_select prefios [] (ls_env s) = Done (Some ion, e') → env_ok e' → odt_allocslot (ls_odt s) = (None, o') →
  wp (mds_bmap_ios_assign p prefios) (λ rc s', rc = - ENOMEM ∧ ls_wr_ion s' = Some ion ∧
    hasf (ls_flags s') BMAPF_NOION = true ∧ ∃ b', ios_frame s s' p b b' ∧
      b' = l_with_flags b (setf (bml_flags b) BML_ASSFAIL)) s.
Proof.
  destruct s as [m hs w r fl ion0 as0 sq0 fid bno op tbl coh fr now o e]. ls_cbn.
  intros Hb -> -> Hop Hfl Hsel He' Hal. unfold mds_bmap_ios_assign, setB, clrB, setLf.
  do 2 wp_step. ls_cbn. do 3 (wp_step; wp_step; [first [done | lia]|]). wp_step.
  unfold wp at 1, onEnv. ls_cbn. rewrite Hsel. wp_step. wp_step; [done|]. do 4 wp_step. ls_cbn. rewrite Hal.
  do 5 wp_step. ls_cbn. eapply wp_modL; [done|]. wp_step. ls_cbn. split_and!; [done|done|by autorewrite with flags|].
  eexists. split; [|reflexivity]. split_and!; try done; [by apply view_setf|apply clrf_setf].
Qed.

Lemma release_writer_aborts s p b :
  ls_bmls s !! p = Some b → hasf (bml_flags b) BML_WRITE = true → ls_writers s = 0 →
  hasf (ls_flags s) BMAPF_NOION = true → ls_wr_ion s ≠ None → faults Assertion (release_writer p) s.
Proof.
  intros Hb HW Hw Hno Hion. unfold release_writer. apply faults_bind. wp_step. apply faults_bind.
  eapply wp_getL; [done|]. rewrite HW, Hw, Z.eqb_refl, Hno. cbn [andb].
  destruct (bool_decide (ls_assign s = None)) eqn:Hasg.
  - apply faults_bind. wp_step; [done|]. apply faults_left. by rewrite bool_decide_false.
  - apply faults_left. done.
Qed.

(** Releasing the only write lease of such a bmap. *)
Lemma release_aborts s A cl p b :
  rep s A → (p, true) ∈ leases_of A cl → nwriters (revoke A cl p) = 0 → ls_bmls s !! p = Some b →
  hasf (bml_flags b) BML_WRITE = true → bml_refcnt b ≤ 1 → hasf (bml_flags b) BML_FREEING = true →
  hasf (bml_flags b) BML_BMI = true → hasf (bml_flags b) BML_TIMEOQ = false → 0 < ls_opcnt s →
  hasf (ls_flags s) BMAPF_IOSASSIGNED = false → hasf (ls_flags s) BMAPF_NOION = true → ls_wr_ion s ≠ None →
  faults Assertion (mds_bmap_bml_release p) s.
Proof.
  intros Hrep Hp Hz Hb HW Href Hfree Hbmi Htq Hop Hwait Hno Hion. unfold mds_bmap_bml_release, setB, clrB.
  apply faults_bind. wp_step. apply faults_bind. wp_step; [lia|]. apply faults_bind. wp_step; [by rewrite Hwait|].
  apply faults_bind. wp_step. apply faults_bind. eapply wp_getL; [done|].
  replace (bml_refcnt b >? 1) with false by lia. rewrite Hfree, Hbmi, Htq. cbn [negb orb].
  apply faults_bind. wp_step; [done|]. apply faults_left, faults_bind.
  eapply wp_mono; [eapply (wp_del_locked (ls_with_flags s _) A cl p true); [by destruct Hrep as (? & ? & ?)|done]|].
  intros _ s2 (([ks Hlk] & Hw & Hr) & m' & hs' & w' & r' & -> & Hsr). cbn in Hw, Hr, Hlk.
  pose proof (Hsr p) as Hsrp. cbn in Hsrp. rewrite Hb in Hsrp. destruct (m' !! p) as [b'|] eqn:Hb'; [|done].
  apply (inj Some) in Hsrp. unfold clrLf. apply faults_bind. eapply wp_modL; [exact Hb'|]. cbn [ls_with_bmls ls_with_leases].
  apply faults_bind. unfold release_dio, clrB. wp_step. wp_step.
  eapply (wp_mono _ (λ _ s', ls_bmls s' = <[p := l_with_flags b' (clrf (bml_flags b') BML_BMI)]> m' ∧
    ls_writers s' = 0 ∧ hasf (ls_flags s') BMAPF_NOION = true ∧ ls_wr_ion s' = ls_wr_ion s)).
  { apply wp_when; intros _; [wp_step|]; ls_cbn; split_and!; try done; try lia.
    - rewrite hasf_clrf. change (Z.ldiff BMAPF_NOION _) with BMAPF_NOION. by rewrite hasf_setf, Hno.
    - by rewrite hasf_setf, Hno. }
  intros _ s3 (Hm3 & Hw3 & Hno3 & Hion3). eapply release_writer_aborts; [rewrite Hm3; apply lookup_insert_eq| |done|done|congruence].
  cbn. rewrite hasf_clrf. change (Z.ldiff BML_WRITE BML_BMI) with BML_WRITE. by rewrite <-(rest_flag b b' BML_WRITE Hsrp).
Qed.

Lemma wp_bml_add_full s p cl b prefios ion e' o' :
  linv s ∅ → ls_flags s = 0 → client_ok cl → ls_bmls s !! p = Some b → new_lease ∅ cl true p b →
  bml_flags b = BML_WRITE → env_resm_select prefios [] (ls_env s) = Done (Some ion, e') →
  odt_allocslot (ls_odt s) = (None, o') →
  wp (mds_bmap_bml_add p SL_WRITE prefios) (λ rc s', rc = - ENOMEM ∧ rep s' (grant ∅ cl p true) ∧
    ls_wr_ion s' = Some ion ∧ hasf (ls_flags s') BMAPF_NOION = true ∧ hasf (ls_flags s') BMAPF_IOSASSIGNED = false ∧
    0 < ls_opcnt s' ∧ ∃ b', ls_bmls s' !! p = Some b' ∧ bml_refcnt b' = bml_refcnt b ∧
      hasf (bml_flags b') BML_WRITE = true ∧ hasf (bml_flags b') BML_BMI = true ∧ hasf (bml_flags b') BML_TIMEOQ = false) s.
Proof.
  intros Hinv Hfl Hok Hb Hn Hbf Hsel Hal. pose proof Hn as (Hcl & _).
  destruct (li_rep _ _ Hinv) as ([ks Hlk] & Hw & Hr). destruct (li_bound _ _ Hinv) as [Hion Has].
  pose proof (li_opcnt _ _ Hinv) as Hop. unfold mds_bmap_bml_add.
  assert (He' : env_ok e').
  { destruct (select_ok prefios _ (li_env _ _ Hinv)) as (r & e'' & Hr' & ? & _). rewrite Hsel in Hr'. by simplify_eq. }
  wp_step. eapply wp_getL; [done|]. cbv zeta. rewrite Hcl, Hbf. destruct Hok as (Hk1 & Hk2 & Hk3 & Hk4). wp_step. wp_step.
  { apply Z.eqb_neq in Hk1 as ->, Hk2 as ->, Hk3 as ->, Hk4 as ->. done. }
  do 3 wp_step. wp_step; [by rewrite Hfl|]. do 2 wp_step. wp_step. set (s0 := ls_with_misc _ _ _ _ _).
  assert (Hdio : mds_bmap_directio SL_WRITE (hasf BML_WRITE BML_DIO) cl s0 = Done (0, s0)).
  { unfold mds_bmap_directio. erewrite (bind_done getM) by done. cbn [s0 ls_flags ls_writers ls_readers ls_with_misc].
    rewrite Hfl, Hw, Hr. done. }
  unfold wp at 1. rewrite Hdio. cbn [negb andb Z.eqb]. wp_step. unfold wp at 1. rewrite (dupls_find_eq s0 ks ∅ cl Hlk).
  destruct (bml_link_eq s0 ks ∅ cl true p b Hlk Hb Hn) as (m2 & hs2 & ks2 & Hrun & Hlk2 & Hsr & b2 & Hb2 & Hbmi).
  wp_step. unfold wp at 1. rewrite Hrun. change (count_w (leases_of ∅ cl)) with 0. change (count_r (leases_of ∅ cl)) with 0.
  pose proof (Hsr p) as Hsrp. cbn in Hsrp. rewrite Hb, Hb2 in Hsrp. apply (inj Some) in Hsrp.
  unfold bml_add_write, setB, clrB, add_counts. do 2 wp_step. wp_step. wp_step; [|done]. wp_step. do 2 wp_step. wp_step.
  cbn [ls_writers ls_readers ls_wr_ion ls_with_leases ls_with_flags s0 ls_with_misc]. rewrite Hw, Hr, Hion.
  change (hasf BML_WRITE BML_RECOVER) with false. change ((0 =? 0) && (nwriters ∅ + 1 =? 1)) with true. cbv iota.
  wp_step. wp_step; [done|]. eapply wp_mono; [eapply wp_ios_assign_full; [exact Hb2|done|done|cbn; lia| |exact Hsel|exact He'|exact Hal]|].
  { cbn. by rewrite Hfl. }
  intros rc s' (-> & Hion' & Hno' & b' & Hf & Hb'). do 2 wp_step. wp_step.
  destruct Hf as (Hm & Hv & Hls & Hw' & Hr' & Hop' & Hfl' & _). split_and!; try done.
  - eapply (rep_view (ls_with_leases s0 m2 hs2 1 0)); [split; [by exists ks2|]| |done..].
    + destruct (grant_counts _ _ _ ∅ cl p Hlk) as (Hgw & Hgr & _). split; [by rewrite Hgw|by rewrite Hgr].
    + cbn. rewrite Hm. cbn. by eapply same_view_insert.
  - cbn. by rewrite hasf_clrf.
  - cbn. rewrite hasf_clrf. apply hasf_0_r.
  - cbn. rewrite Hop'. cbn. lia.
  - exists b'. split_and!.
    + cbn. rewrite Hm. apply lookup_insert_eq.
    + rewrite Hb'. by apply (f_equal bml_refcnt) in Hsrp.
    + rewrite Hb'. cbn. rewrite hasf_setf. rewrite <-(rest_flag b b2 BML_WRITE Hsrp), Hbf by done. done.
    + rewrite Hb'. cbn. by rewrite hasf_setf, Hbmi.
    + rewrite Hb'. cbn. rewrite hasf_setf. rewrite <-(rest_flag b b2 BML_TIMEOQ Hsrp), Hbf by done. done.
Qed.

Lemma load_cli_full s p cl prefios ion e' o' :
  linv s ∅ → ls_flags s = 0 → client_ok cl → env_resm_select prefios [] (ls_env s) = Done (Some ion, e') →
  odt_allocslot (ls_odt s) = (None, o') → faults Assertion (load_cli_lease p SL_WRITE false prefios cl) s.
Proof.
  intros Hinv Hfl Hok Hsel Hal. unfold load_cli_lease, mds_bml_new. apply faults_bind. wp_step.
  set (b := {| bml_seq := 0 |}). set (s1 := ls_with_bmls _ _).
  assert (Hinv1 : linv s1 ∅).
  { destruct Hinv as [([ks Hlk] & Hw & Hr) Hbd Hco Hcl Hop He]. split; try done.
    - split; [|by split]. exists ks. destruct Hlk as (? & ? & ? & ?). by split_and!.
    - intros c q w Hq. by apply elem_of_nil in Hq. }
  apply faults_bind. eapply wp_mono.
  { apply (wp_bml_add_full s1 p cl b prefios ion e' o'); try done; [apply lookup_insert_eq|].
    split_and!; try done. by apply not_elem_of_nil. }
  intros rc s2 (-> & Hrep & Hion & Hno & Hwait & Hop & b2 & Hb2 & Href & HW & Hbmi & Htq).
  change (negb (- ENOMEM =? 0)) with true. unfold bml_fail, setLf. apply faults_bind. do 2 wp_step.
  eapply wp_modL; [done|]. wp_step; [done|]. wp_step. apply faults_left.
  assert (Hlo : leases_of (grant ∅ cl p true) cl = [(p, true)]) by by rewrite leases_of_grant.
  apply (release_aborts _ (grant ∅ cl p true) cl p (l_with_flags b2 (setf (bml_flags b2) BML_FREEING))); try done.
  - destruct Hrep as ([ks Hlk] & ? & ?). split; [|done]. exists ks. eapply linked_view; [|exact Hlk]. cbn.
    eapply same_view_insert; [done|]. by apply view_setf.
  - rewrite Hlo. by left.
  - unfold revoke. rewrite Hlo. unfold drop_lease. rewrite filter_cons, decide_False by (cbn; tauto). cbn [filter list_filter].
    unfold grant. rewrite delete_insert_id by done. done.
  - apply lookup_insert_eq.
  - cbn. by rewrite hasf_setf, HW.
  - cbn. rewrite Href. cbn. lia.
  - cbn. rewrite hasf_setf. apply orb_true_r.
  - cbn. by rewrite hasf_setf, Hbmi.
  - cbn. by rewrite hasf_setf, Htq.
  - cbn. by rewrite Hion.
Qed.

Lemma wp_reassign s A cl seq p b pios prev ion e1 :
  linv s A → (p, true) ∈ leases_of A cl → numbered s seq (leases_of A cl) p b → 0 ≤ bml_refcnt b →
  nwriters A = 1 → nreaders A = 0 → hasf (ls_flags s) BMAPF_DIO = false → 0 < ls_opcnt s →
  hasf (ls_flags s) BMAPF_IOSASSIGNED = false →
  env_resm_select pios prev (ls_env s) = Done (Some ion, e1) → (∀ a n, ∃ e2, env_add_repl a (Some n) e1 = Done (0, e2)) →
  wp (lease_reassign seq cl pios prev) (λ r s', (∃ sq, r = (0, Some (sq, ion))) ∧ ls_wr_ion s' = ls_wr_ion s ∧
    ∃ elem, ls_assign s' = Some elem ∧ bia_ios (odt_getitem (ls_odt s') elem) = ion) s.
Proof.
  intros Hinv Hp Hnum Href Hw1 Hr0 Hdio Hop Hwait Hsel Hadd. destruct (li_rep _ _ Hinv) as ([ks Hlk] & Hw & Hr).
  pose proof (li_bound _ _ Hinv) as Hbd. unfold bound in Hbd. rewrite Hw1 in Hbd.
  destruct Hbd as (old & elem & Hion & Has & _ & (Hbf & Hbs & Hbb & _) & Hno).
  assert (HW : hasf (bml_flags b) BML_WRITE = true).
  { destruct Hlk as (_ & _ & _ & Hrg). pose proof (lookup_leases_of _ _ _ Hp) as Hl.
    destruct (seg_cell _ _ _ _ _ _ _ (proj2 (proj2 (Hrg _ _ Hl))) Hp) as (? & ? & b1 & Hb1 & _ & _ & _ & HW1 & _).
    destruct Hnum as (_ & _ & _ & _ & _ & Hb & _). congruence. }
  unfold lease_reassign. wp_step. unfold wp at 1. rewrite (getbml_eq _ _ _ _ _ _ _ Hlk Hnum).
  destruct Hnum as (_ & _ & _ & _ & _ & Hb & Hseq & Hfr).
  destruct s as [m hs w r fl ion0 as0 sq0 fid bno op tbl coh fre now o e]. unfold taken. ls_cbn. subst ion0 as0 w r.
  set (b1 := l_with_refcnt b _). wp_step. eapply wp_getL; [apply lookup_insert_eq|].
  change (hasf (bml_flags b1) BML_WRITE) with (hasf (bml_flags b) BML_WRITE). rewrite HW. cbn [negb].
  wp_step. do 2 wp_step. ls_cbn. wp_step. wp_step; [by rewrite Hwait|]. unfold setB, clrB. do 2 wp_step. ls_cbn. wp_step.
  rewrite Hw1, Hr0. change ((1 >? 1) || negb (0 =? 0)) with false. cbv iota.
  wp_step. wp_step; [done|]. wp_step. wp_step; [by rewrite Hdio|]. cbv zeta.
  wp_step. wp_step; [by rewrite Hbs, Z.eqb_refl|]. wp_step. unfold wp at 1, onEnv at 1. ls_cbn. rewrite Hsel.
  wp_step. eapply wp_timeotbl_add; [apply lookup_insert_eq|]. intros sq t'. ls_cbn. rewrite insert_insert_eq.
  do 3 wp_step. unfold add_repl. do 2 wp_step. wp_step. wp_step; [ls_cbn; by rewrite hasf_setf, orb_true_r|].
  unfold wp at 1, onEnv. ls_cbn.
  match goal with |- context [env_add_repl ?a (Some ?n) e1] => set (bia := a); destruct (Hadd bia n) as [e2 He2] end. rewrite He2.
  cbn [Z.eqb negb]. do 2 wp_step. ls_cbn. do 2 wp_step. wp_step. eapply wp_modL; [apply lookup_insert_eq|]. ls_cbn. rewrite insert_insert_eq.
  do 3 wp_step. wp_step. wp_step; [cbn; by rewrite hasf_setf, orb_true_r|]. do 2 wp_step. wp_step. wp_step. ls_cbn.
  unfold mds_bmap_bml_release, setB, clrB. do 2 wp_step. ls_cbn. wp_step. wp_step; [lia|]. wp_step.
  wp_step; [rewrite hasf_clrf; by rewrite hasf_0_r|]. do 2 wp_step. ls_cbn. wp_step. eapply wp_getL; [apply lookup_insert_eq|].
  set (b2 := l_with_ios_seq _ _ _).
  assert (Hfr2 : hasf (bml_flags b2) BML_FREEING = false).
  { unfold b2, b1. cbn [bml_flags l_with_ios_seq l_with_flags l_with_refcnt]. rewrite hasf_setf, Hfr. done. }
  rewrite Hfr2. cbn [negb]. rewrite orb_true_r. wp_step. wp_step; [unfold b2, b1; cbn; lia|]. wp_step.
  eapply wp_modL; [apply lookup_insert_eq|]. ls_cbn. do 2 wp_step. wp_step. wp_step. ls_cbn.
  split_and!; [by exists sq|done|]. exists elem. split; [done|]. by rewrite odt_get_replace.
Qed.

(** A lease that no client holds may be allocated. *)
Lemma linv_new s A p b :
  linv s A → (∀ cl, p ∉ (leases_of A cl).*1) → linv (ls_with_bmls s (<[p := b]> (ls_bmls s))) A.
Proof.
  intros [([ks (Hnd & Hks & Hhs & Hr)] & Hw & Hrd) Hbd Hco Hcl Hop He] Hp. split; try done.
  - split; [|done]. exists ks. split_and!; try done. intros cl l Hl. eapply ring_view; [|by apply Hr].
    intros q Hq. cbn. rewrite lookup_insert_ne; [done|]. intros ->. apply (Hp cl). unfold leases_of. by rewrite Hl.
  - intros cl q w Hq. cbn. rewrite lookup_insert_ne; [by eapply Hcl|]. intros ->. apply (Hp cl).
    by apply (list_elem_of_fmap_2 fst _ (q, w)).
Qed.
End facts.

(** ** The example states satisfy the invariant *)
Module LeaseExInv.
Import LeaseEx.
Lemma linked_one m cl l : ring m cl l → linked m [first_of l 0] [cl] {[ cl := l ]}.
Proof.
  intros Hr. split_and!.
  - apply NoDup_singleton.
  - intros c. rewrite list_elem_of_singleton, lookup_singleton_is_Some. split; by intros ->.
  - cbn [fmap list_fmap]. unfold leases_of. by rewrite lookup_singleton_eq.
  - by apply map_Forall_singleton.
Qed.
Lemma idle_linv cap ion : linv (idle cap ion) ∅.
Proof.
  split; [|done|right; by left| |done|done].
  - split; [|done]. exists []. split_and!; [apply NoDup_nil_2| |done|apply map_Forall_empty].
    intros cl. rewrite lookup_empty. split; [by intros ?%elem_of_nil|by intros [? ?]].
  - intros cl p w Hp. by apply elem_of_nil in Hp.
Qed.

Lemma read2_ring : ring (ls_bmls s_read2) cli1 [(10, false); (11, false)].
Proof.
  split_and!; [done|by refine (bool_decide_unpack _ _); vm_compute|].
  split; [|split; [|done]]; (eexists; split; [vm_compute; reflexivity|by vm_compute]).
Qed.
Lemma read2_linv : linv s_read2 A_read2.
Proof.
  split; [|by vm_compute|right; left; by vm_compute| |by vm_compute|done].
  - split; [|by vm_compute]. exists [cli1]. change (ls_leases s_read2) with [first_of [(10, false); (11, false)] 0].
    apply linked_one, read2_ring.
  - intros cl p w Hp. unfold leases_of, A_read2 in Hp. destruct (decide (cl = cli1)) as [->|Hne].
    + rewrite lookup_singleton_eq in Hp. cbn in Hp. list_cases Hp; simplify_eq; (eexists; split; by vm_compute).
    + rewrite lookup_singleton_ne in Hp by done. by apply elem_of_nil in Hp.
Qed.

Lemma write_ring : ring (ls_bmls s_write) cli2 [(20, true)].
Proof.
  split_and!; [done|apply NoDup_singleton|]. split; [|done]. eexists. split; [vm_compute; reflexivity|by vm_compute].
Qed.
Lemma write_linv : linv s_write A_write.
Proof.
  split; [|exists 5, 0; vm_compute; by split_and!|right; right; by vm_compute| |by vm_compute|done].
  - split; [|by vm_compute]. exists [cli2]. change (ls_leases s_write) with [first_of [(20, true)] 0].
    apply linked_one, write_ring.
  - intros cl p w Hp. unfold leases_of, A_write in Hp. destruct (decide (cl = cli2)) as [->|Hne].
    + rewrite lookup_singleton_eq in Hp. cbn in Hp. list_cases Hp; simplify_eq; (eexists; split; by vm_compute).
    + rewrite lookup_singleton_ne in Hp by done. by apply elem_of_nil in Hp.
Qed.
End LeaseExInv.

(** ** Properties *)

(** Removing a lease from the lists of its bmap.  If the list, the rings
    of [bml_chain] pointers and the counts represent the leases [A] and the
    client [cl] holds the lease [p], then [mds_bmap_bml_del_locked] finishes
    (no assertion fails, the walks of the ring end) and represents [A] without
    [p]: the next lease of the client takes its place on the list when [p] was
    the first, and a client counts as one writer while it holds a write lease,
    as one reader while it holds only read leases, and not at all otherwise.
    Everything else in the state, and everything in the leases but their
    place in the lists, is unchanged. *)
Theorem bml_del_refines {T E : Type} (s : lstate T E) (A : held) (cl : client) (p : Z) (w : bool) :
  rep s A → (p, w) ∈ leases_of A cl →
  wp (mds_bmap_bml_del_locked p) (λ _ s', rep s' (revoke A cl p) ∧ only_lists s s') s.
Proof. apply wp_del_locked. Qed.

Lemma bml_del_refines_witness :
  wp (mds_bmap_bml_del_locked 10) (λ _ s', rep s' (revoke LeaseEx.A_read2 LeaseEx.cli1 10) ∧ only_lists LeaseEx.s_read2 s')
    LeaseEx.s_read2.
Proof.
  apply (bml_del_refines LeaseEx.s_read2 LeaseEx.A_read2 LeaseEx.cli1 10 false).
  - apply LeaseExInv.read2_linv.
  - by left.
Defined.

(** C5: granting a lease.  Let the invariant hold for the leases [A] and let
    [p] be a new lease of a client.  [mds_bmap_bml_add] finishes, and
    - either it asks the other clients to switch to direct I/O and returns
      [-SLERR_BMAP_DIOWAIT]: the held leases are unchanged and every lease of
      every other client is in direct I/O mode or has been asked;
    - or the lease is linked, and when the value is 0 the invariant holds with
      the new lease; for a read lease the value is always 0.
    The invariant says that the lists and the counts are right, that a bmap
    with writers is bound to an I/O system by an entry of the assignment table
    which carries its file, number and last sequence number, and that a bmap
    with a writer and another client is in direct I/O mode. *)
Theorem bml_add_grants {T E : Type} `{OdTableLaws T} `{LeaseEnvLaws E} `{PflErr}
    (s : lstate T E) (A : held) (cl : client) (p : Z) (w : bool) (b : bmap_mds_lease) (prefios : Z) :
  linv s A → ls_bmls s !! p = Some b → new_lease A cl w p b → client_ok cl →
  hasf (ls_flags s) BMAPF_IOSASSIGNED = false → hasf (bml_flags b) BML_RECOVER = false →
  hasf (bml_flags b) BML_FAILED = false →
  wp (mds_bmap_bml_add p (rw_of w) prefios) (λ rc s',
    (rc = - SLERR_BMAP_DIOWAIT ∧ linv s' A ∧ (∀ cl' q, cl' ≠ cl → q ∈ (leases_of A cl').*1 → told s' q)) ∨
    (rep s' (grant A cl p w) ∧ (rc = 0 → linv s' (grant A cl p w)) ∧ (w = false → rc = 0))) s.
Proof. apply wp_bml_add. Qed.

(** A second client asks for a write lease while the first one reads. *)
Lemma bml_add_grants_witness : let s := LeaseEx.run (mds_bml_new 12 true BML_WRITE LeaseEx.cli2) LeaseEx.s_read2 in
  let A := LeaseEx.A_read2 in let cl := LeaseEx.cli2 in
  wp (mds_bmap_bml_add 12 SL_WRITE 5) (λ rc s',
    (rc = - SLERR_BMAP_DIOWAIT ∧ linv s' A ∧ (∀ cl' q, cl' ≠ cl → q ∈ (leases_of A cl').*1 → told s' q)) ∨
    (rep s' (grant A cl 12 true) ∧ (rc = 0 → linv s' (grant A cl 12 true)) ∧ (true = false → rc = 0))) s.
Proof.
  intros s A cl. eapply (bml_add_grants s A cl 12 true _ 5).
  - apply linv_new; [apply LeaseExInv.read2_linv|]. intros c Hc. unfold leases_of, A, LeaseEx.A_read2 in Hc.
    destruct (decide (c = LeaseEx.cli1)) as [->|Hne].
    + rewrite lookup_singleton_eq in Hc. cbn in Hc. list_cases Hc; lia.
    + rewrite lookup_singleton_ne in Hc by done. by apply elem_of_nil in Hc.
  - vm_compute. reflexivity.
  - split_and!; try done. by apply not_elem_of_nil.
  - done.
  - done.
  - done.
  - done.
Defined.

(** C6: a client gives a lease back by its sequence number.  If the
    invariant holds and [p] is the first lease of the client with that number,
    [mds_handle_rls_bmap] finishes, frees exactly [p] and keeps the invariant
    for the remaining leases; the entry of the assignment table is journaled
    as free exactly when [p] was a write lease and no writer is left, and then
    it is the entry the bmap was bound by. *)
Theorem rls_bmap_releases {T E : Type} `{OdTableLaws T} `{LeaseEnvLaws E}
    (s : lstate T E) (A : held) (cl : client) (seq p : Z) (w : bool) (b : bmap_mds_lease) :
  linv s A → (p, w) ∈ leases_of A cl → numbered s seq (leases_of A cl) p b →
  bml_refcnt b = 0 → hasf (bml_flags b) BML_BMI = true → 0 < ls_opcnt s → hasf (ls_flags s) BMAPF_IOSASSIGNED = false →
  wp (handle_rls_bmap_one seq cl) (λ _ s', linv s' (revoke A cl p) ∧ ls_bmls s' !! p = None ∧
    ls_freed s' = ls_freed s ++ (if w && (nwriters (revoke A cl p) =? 0) then option_list (ls_assign s) else [])) s.
Proof. apply wp_handle_rls. Qed.

Lemma rls_bmap_releases_witness :
  wp (handle_rls_bmap_one 11 LeaseEx.cli2) (λ _ s', linv s' (revoke LeaseEx.A_write LeaseEx.cli2 20) ∧
    ls_bmls s' !! 20 = None ∧ ls_freed s' = [0]) LeaseEx.s_write.
Proof.
  eapply wp_mono.
  - eapply (rls_bmap_releases LeaseEx.s_write LeaseEx.A_write LeaseEx.cli2 11 20 true).
    + apply LeaseExInv.write_linv.
    + by left.
    + exists [], true, []. split_and!; [vm_compute; reflexivity|intros q []%elem_of_nil|vm_compute; reflexivity..].
    + done.
    + done.
    + done.
    + done.
  - intros _ s' (H1 & H2 & H3). split_and!; [done|done|]. rewrite H3. by vm_compute.
Defined.

(** A reassigned lease names an I/O system the server does not accept.
    When a lone writer asks for another I/O system and one is found,
    [mds_lease_reassign] succeeds: it answers with the new system and stores
    it in the assignment table.  But the bmap stays bound to the old one, so
    [mds_bmap_crc_write] refuses every update from the new system as coming
    from an unexpected node, and still takes updates from the old one. *)
Theorem reassign_wr_ion_stale {T E : Type} `{OdTableLaws T} `{LeaseEnvLaws E}
    (s : lstate T E) (A : held) (cl : client) (seq p : Z) (b : bmap_mds_lease) (pios : Z) (prev : list Z) (ion old : Z) (e1 : E) :
  linv s A → (p, true) ∈ leases_of A cl → numbered s seq (leases_of A cl) p b → 0 ≤ bml_refcnt b →
  nwriters A = 1 → nreaders A = 0 → hasf (ls_flags s) BMAPF_DIO = false → 0 < ls_opcnt s →
  hasf (ls_flags s) BMAPF_IOSASSIGNED = false →
  env_resm_select pios prev (ls_env s) = Done (Some ion, e1) → (∀ a n, ∃ e2, env_add_repl a (Some n) e1 = Done (0, e2)) →
  ls_wr_ion s = Some old → ion ≠ old →
  wp (lease_reassign seq cl pios prev) (λ r s', (∃ sq, r = (0, Some (sq, ion))) ∧
    (∃ elem, ls_assign s' = Some elem ∧ bia_ios (odt_getitem (ls_odt s') elem) = ion) ∧
    crc_write_admits s' ion = false ∧ crc_write_admits s' old = true) s.
Proof.
  intros Hinv Hp Hnum Href Hw Hr Hdio Hop Hwait Hsel Hadd Hold Hne. eapply wp_mono; [by eapply wp_reassign|].
  intros r s' (Hsq & Hion & Hel). unfold crc_write_admits. rewrite Hion, Hold. split_and!; try done.
  - apply bool_decide_false. congruence.
  - by apply bool_decide_true.
Qed.

(** The state after the grant, in which the environment offers system 6. *)
Lemma reassign_wr_ion_stale_witness :
  let s := ls_with_misc LeaseEx.s_write (ls_opcnt LeaseEx.s_write) (ls_tt LeaseEx.s_write) []
             {| LeaseEx.an_ion := Some 6; LeaseEx.an_rc := 0; LeaseEx.an_last := Some 5 |} in
  wp (lease_reassign 11 LeaseEx.cli2 6 [5]) (λ r s', (∃ sq, r = (0, Some (sq, 6))) ∧
    (∃ elem, ls_assign s' = Some elem ∧ bia_ios (odt_getitem (ls_odt s') elem) = 6) ∧
    crc_write_admits s' 6 = false ∧ crc_write_admits s' 5 = true) s.
Proof.
  intros s. eapply (reassign_wr_ion_stale s LeaseEx.A_write LeaseEx.cli2 11 20).
  - destruct LeaseExInv.write_linv as [? ? ? ? ? ?]. by split.
  - by left.
  - exists [], true, []. split_and!; [vm_compute; reflexivity|intros q []%elem_of_nil|vm_compute; reflexivity..].
  - done.
  - by vm_compute.
  - by vm_compute.
  - done.
  - done.
  - done.
  - done.
  - intros a n. by eexists.
  - done.
  - done.
Defined.

(** A full assignment table ends the server.  On a bmap without leases,
    let the choice of an I/O system succeed and the allocation of a slot of
    the assignment table fail.  The request for a write lease returns
    [-ENOMEM] from [mds_bmap_ios_assign] with [bmi_wr_ion] already set and the
    bmap marked [BMAPF_NOION]; the release that follows in
    [mds_bmap_load_cli] then fails its assertion that [bmi_wr_ion] is null. *)
Theorem odtable_full_aborts {T E : Type} `{OdTableLaws T} `{LeaseEnvLaws E}
    (s : lstate T E) (p : Z) (cl : client) (prefios ion : Z) (e' : E) (o' : T) :
  linv s ∅ → ls_flags s = 0 → client_ok cl → env_resm_select prefios [] (ls_env s) = Done (Some ion, e') →
  odt_allocslot (ls_odt s) = (None, o') →
  load_cli_lease p SL_WRITE false prefios cl s = Stuck Assertion.
Proof. apply load_cli_full. Qed.

Lemma odtable_full_aborts_witness :
  load_cli_lease 20 SL_WRITE false 5 LeaseEx.cli2 (LeaseEx.idle 0 (Some 5)) = Stuck Assertion.
Proof.
  eapply odtable_full_aborts.
  - apply LeaseExInv.idle_linv.
  - done.
  - done.
  - done.
  - done.
Defined.
