(* ===== verification/IosSelect.v ===== *)
(** * Choice of an I/O system for a write lease ([slm_resm_select] and its
      helpers in [slashd/mds.c], resource lookup in [share/cfg_common.c])

    The server gathers a list of candidates: first the systems that have a
    valid copy of the bmap, then those of the client's preferred resource,
    then the others of the site, the later groups in random order.  It takes
    the first candidate that is enabled, connected and alive. *)
From S2P Require Import Prelude ReplBits Inode ReplWalk BmapMds ReplMds ReplReq Replay Timeo Lease.

(** ** Data *)

(** [struct sl_resm], a member of a resource, with its address and the
    ID of its native resource; [struct sl_resource]; the part of
    [struct sl_config] and [nodeSite] that is used. *)
Record sl_resm := { resm_addr : Z; resm_res_id : Z }.
#[global] Instance sl_resm_eq_dec : EqDecision sl_resm.
Proof. solve_decision. Defined.

Record sl_resource := { res_id : Z; res_type : sl_res_type; res_members : list sl_resm }.
Record sl_config := { gconf_res : gmap Z sl_resource; site_resources : list sl_resource }.
#[global] Instance sl_resource_eq_dec : EqDecision sl_resource.
Proof. solve_decision. Defined.

Definition RES_ISCLUSTER (t : sl_res_type) : bool :=
  bool_decide (t = SLREST_CLUSTER_NOSHARE_LFS) || bool_decide (t = SLREST_PARALLEL_LFS).

(** [libsl_id2res] with the whole resource; [Inode.libsl_id2res] sees its
    type only. *)
Definition id2res (gc : sl_config) (id : Z) : option sl_resource := gconf_res gc !! u64 id.
Definition res_types (gc : sl_config) : gmap Z sl_res_type := res_type <$> gconf_res gc.

(** [libsl_try_ios2resm]; [res_getmemb] of a resource without members is out
    of the bounds of the array. *)
Definition libsl_try_ios2resm (gc : sl_config) (id : Z) : outcome (option sl_resm) :=
  match id2res gc id with
  | None => Done None
  | Some r =>
      if negb (RES_ISFS (res_type r)) then Stuck Assertion
      else match res_members r with
           | [] => Stuck Assertion
           | m :: _ => Done (Some m)
           end
  end.

Definition SIF_DISABLE_LEASE : Z := Z.shiftl 1 1.
Definition SIF_DISABLE_ADVLEASE : Z := Z.shiftl 1 2.
Definition CSVC_PING_INTV : Z := 60.
Definition INOF_IOS_AFFINITY : Z := Z.shiftl 1 0.

(** [struct sl_mds_iosinfo]; times are seconds and nanoseconds. *)
Record sl_mds_iosinfo := { si_flags : Z; si_lastcomm : Z * Z }.
(** The servers as they are: the information kept for each resource, which
    members have a connection that [slm_geticsvc] finds established (it is
    called not to wait and not to reconnect), and the clock. *)
Record servers := { sv_info : Z → sl_mds_iosinfo; sv_conn : sl_resm → bool; sv_now : Z * Z }.

(** [psc_random32u(n)] of PFL, by the number of calls before; and the value of
    the variable of [DYNARRAY_FOREACH] after a pass over the whole array. *)
Class PflArray := {
  psc_random32u : nat → Z → Z;
  foreach_end : list sl_resm → option sl_resm;
}.
(** What the code relies on: the number is below the bound, and a pass that
    was not left early ends with a null pointer. *)
Class PflArrayLaws `{PflArray} := {
  random_range k n : 0 < n → 0 ≤ psc_random32u k n < n;
  foreach_end_null a : foreach_end a = None;
}.

(** ** Operations *)
Definition timespec_lt (a b : Z * Z) : bool := (a.1 <? b.1) || ((a.1 =? b.1) && (a.2 <? b.2)).

Definition mds_sliod_alive (now : Z * Z) (si : sl_mds_iosinfo) : bool :=
  negb ((si_lastcomm si).1 =? 0) &&
  timespec_lt now ((si_lastcomm si).1 + CSVC_PING_INTV * 2, (si_lastcomm si).2).

Definition slm_try_sliodresm (sv : servers) (resm : sl_resm) : bool :=
  let si := sv_info sv (resm_res_id resm) in
  if hasf (si_flags si) (Z.lor SIF_DISABLE_LEASE SIF_DISABLE_ADVLEASE) then false
  else if negb (sv_conn sv resm) then false
  else mds_sliod_alive (sv_now sv) si.

(** [psc_dynarray]: an array of pointers. *)
Definition psc_dynarray_add_ifdne (a : list sl_resm) (m : sl_resm) : list sl_resm :=
  if decide (m ∈ a) then a else a ++ [m].
Definition psc_dynarray_swap (a : list sl_resm) (i j : nat) : list sl_resm :=
  match a !! i, a !! j with
  | Some x, Some y => <[i := y]> (<[j := x]> a)
  | _, _ => a
  end.

Section select.
Context {DI : Type} `{Mdsio DI} `{PflErr} `{PflMem} `{PflArray}.

(** The loop of [slm_res_shuffle] from [i] on, for [n] rounds; [k] counts the
    random numbers. *)
Fixpoint shuffle_loop (n i begin k : nat) (a : list sl_resm) : nat * list sl_resm :=
  match n with
  | O => (k, a)
  | S n => shuffle_loop n (S i) begin (S k)
             (psc_dynarray_swap a (begin + i) (begin + Z.to_nat (psc_random32u k (Z.of_nat i + 1))))
  end.
Definition slm_res_shuffle (begin : nat) (ka : nat * list sl_resm) : nat * list sl_resm :=
  shuffle_loop (length ka.2 - begin - 1) 1 begin ka.1 ka.2.

Definition slm_res_fillmembers (shuffle : bool) (r : sl_resource) (ka : nat * list sl_resm) : nat * list sl_resm :=
  let begin := length ka.2 in
  let a := foldl psc_dynarray_add_ifdne ka.2 (res_members r) in
  if shuffle then slm_res_shuffle begin (ka.1, a) else (ka.1, a).

(** One round of the last loop; [r == pios] compares pointers, a resource is
    in the table once. *)
Definition site_fill (pios : sl_resource) (ka : nat * list sl_resm) (r : sl_resource) : nat * list sl_resm :=
  if negb (RES_ISFS (res_type r)) || bool_decide (r = pios) || bool_decide (res_type r = SLREST_ARCHIVAL_FS) then ka
  else slm_res_fillmembers false r ka.
Definition slm_get_ioslist (gc : sl_config) (ih : slm_inoh) (piosid : Z) (ka : nat * list sl_resm) :
    nat * list sl_resm :=
  match id2res gc piosid with
  | None => ka
  | Some pios =>
      if negb (RES_ISFS (res_type pios)) && negb (RES_ISCLUSTER (res_type pios)) then ka else
      let ka := if hasf (inoh_flags ih) INOF_IOS_AFFINITY then
                  match id2res gc (arr_get (ino_repls (inoh_ino ih)) 0) with
                  | Some r => slm_res_fillmembers true r ka
                  | None => ka
                  end
                else ka in
      let ka := slm_res_fillmembers true pios ka in
      let begin := length ka.2 in
      let ka := foldl (site_fill pios) ka (site_resources gc) in
      slm_res_shuffle begin ka
  end.

(** [fcmh_getrepl(f, n).bs_id] *)
Definition fcmh_getrepl (ih : slm_inoh) (n : Z) : outcome Z :=
  if n <? SL_DEF_REPLICAS then Done (arr_get (ino_repls (inoh_ino ih)) n)
  else match inoh_extras ih with
       | None => Stuck NullDeref
       | Some x => Done (arr_get (inox_repls x) (n - SL_DEF_REPLICAS))
       end.

(** The loop over the replicas from [i] on, for [n] rounds; the value is
    [repls], [a] and [resm]. *)
Fixpoint select_repls (gc : sl_config) (ih : slm_inoh) (bmi_repls : list Z) (n : nat) (i repls : Z)
    (a : list sl_resm) (resm : option sl_resm) : outcome (Z * list sl_resm * option sl_resm) :=
  match n with
  | O => Done (repls, a, resm)
  | S n =>
      let val := SL_REPL_GET_BMAP_IOS_STAT bmi_repls (i * SL_BITS_PER_REPLICA) in
      let repls := if negb (val =? BREPLST_INVALID) then repls + 1 else repls in
      if negb (val =? BREPLST_VALID) then select_repls gc ih bmi_repls n (i + 1) repls a resm
      else match fcmh_getrepl ih i with
           | Stuck w => Stuck w
           | Done ios =>
               match libsl_try_ios2resm gc ios with
               | Stuck w => Stuck w
               | Done (Some m) => select_repls gc ih bmi_repls n (i + 1) repls (a ++ [m]) (Some m)
               | Done None => select_repls gc ih bmi_repls n (i + 1) repls a None
               end
           end
  end.

(** The final loop: the first candidate that is not to be skipped and can
    take the lease. *)
Definition select_try (sv : servers) (to_skip : list Z) (a : list sl_resm) : option sl_resm :=
  match list_find (λ m, (resm_res_id m ∉ to_skip) ∧ slm_try_sliodresm sv m = true) a with
  | Some (_, m) => Some m
  | None => foreach_end a
  end.

Definition slm_resm_select (gc : sl_config) (sv : servers) (bmi_repls : list Z) (pios : Z) (to_skip : list Z) :
    M (inost (D := DI) * nat) (option sl_resm) :=
  s ← getM;
  let nr := ino_nrepls (inoh_ino (st_ih s.1)) in
  _ ← whenM (nr >? SL_DEF_REPLICAS)
        (λ s, match mds_inox_ensure_loaded (s.1) with
              | Done (_, i) => Done (tt, (i, s.2))
              | Stuck w => Stuck w
              end);
  '(repls, a, resm) ← (λ s, match select_repls gc (st_ih s.1) bmi_repls (Z.to_nat nr) 0 0 [] None with
                            | Done r => Done (r, s)
                            | Stuck w => Stuck w
                            end);
  let go repls a :=
    if negb (repls =? 0) && bool_decide (a = []) then mret None
    else
      s ← getM;
      let '(k, a) := slm_get_ioslist gc (st_ih s.1) pios (s.2, a) in
      _ ← putM (s.1, k);
      mret (select_try sv to_skip a) in
  match to_skip with
  | [] => go repls a
  | _ =>
      if negb (repls =? 1) then mret resm
      else match a with
           | [] => stuckM Assertion
           | m :: _ => if bool_decide (resm_res_id m ∈ to_skip) && negb (resm_res_id m =? IOS_ID_ANY)
                       then go 0 [] else mret (Some m)
           end
  end.

(** ** What is on the list of candidates *)
Context `{!PflArrayLaws}.

(** The array [a'] starts with the first [n] entries of [a], and has the same
    members. *)
Definition rearranged (n : nat) (a a' : list sl_resm) : Prop :=
  length a' = length a ∧ (∀ i, (i < n)%nat → a' !! i = a !! i) ∧ ∀ m, m ∈ a' ↔ m ∈ a.

Lemma rearranged_refl n a : rearranged n a a.
Proof. done. Qed.
Lemma rearranged_trans n a b c : rearranged n a b → rearranged n b c → rearranged n a c.
Proof.
  intros (H1' & H2' & H3') (H4' & H5' & H6'). split_and!; [congruence| |].
  - intros i Hi. by rewrite H5', H2'.
  - intros m. by rewrite H6', H3'.
Qed.

Lemma swap_rearranged n a i j : (n ≤ i)%nat → (n ≤ j)%nat → rearranged n a (psc_dynarray_swap a i j).
Proof.
  intros Hi Hj. unfold psc_dynarray_swap. destruct (a !! i) as [x|] eqn:Hx; [|done]. destruct (a !! j) as [y|] eqn:Hy; [|done].
  pose proof (lookup_lt_Some _ _ _ Hx). pose proof (lookup_lt_Some _ _ _ Hy). split_and!.
  - by rewrite !length_insert.
  - intros k Hk. by rewrite !list_lookup_insert_ne by lia.
  - intros m. split; intros [k Hk]%list_elem_of_lookup; apply list_elem_of_lookup.
    + apply list_lookup_insert_Some in Hk as [(<- & <- & _)|[_ Hk]]; [by exists j|].
      apply list_lookup_insert_Some in Hk as [(<- & <- & _)|[_ Hk]]; [by exists i|by exists k].
    + destruct (decide (k = i)) as [->|Hki]; [|destruct (decide (k = j)) as [->|Hkj]].
      * destruct (decide (i = j)) as [->|Hne]; [exists j|exists j].
        -- rewrite list_lookup_insert_eq by (rewrite length_insert; lia). congruence.
        -- rewrite list_lookup_insert_ne by done. rewrite list_lookup_insert_eq by lia. congruence.
      * exists i. rewrite list_lookup_insert_eq by (rewrite length_insert; lia). congruence.
      * exists k. by rewrite !list_lookup_insert_ne by done.
Qed.

Lemma shuffle_loop_rearranged n i begin k a : rearranged begin a (shuffle_loop n i begin k a).2.
Proof.
  revert i k a. induction n as [|n IH]; intros i k a; cbn [shuffle_loop]; [done|].
  eapply rearranged_trans; [|apply IH]. apply swap_rearranged; lia.
Qed.
Lemma shuffle_rearranged begin ka : rearranged begin ka.2 (slm_res_shuffle begin ka).2.
Proof. apply shuffle_loop_rearranged. Qed.

Lemma add_ifdne_foldl l a :
  ∃ t, foldl psc_dynarray_add_ifdne a l = a ++ t ∧ ∀ m, m ∈ a ++ t ↔ m ∈ a ∨ m ∈ l.
Proof.
  revert a. induction l as [|x l IH]; intros a; cbn [foldl].
  - exists []. rewrite app_nil_r. split; [done|]. intros m. rewrite elem_of_nil. tauto.
  - unfold psc_dynarray_add_ifdne at 2. destruct (decide (x ∈ a)) as [Hx|Hx].
    + destruct (IH a) as (t & -> & Ht). exists t. split; [done|]. intros m. rewrite Ht, elem_of_cons.
      split; [tauto|]. intros [?|[->|?]]; tauto.
    + destruct (IH (a ++ [x])) as (t & -> & Ht). exists (x :: t). rewrite <-app_assoc in *. split; [done|].
      intros m. rewrite (Ht m), elem_of_cons, elem_of_app, list_elem_of_singleton. tauto.
Qed.

Lemma fillmembers_spec sh r ka :
  let a' := (slm_res_fillmembers sh r ka).2 in
  (length ka.2 ≤ length a')%nat ∧ (∀ i, (i < length ka.2)%nat → a' !! i = ka.2 !! i) ∧
  ∀ m, m ∈ a' ↔ m ∈ ka.2 ∨ m ∈ res_members r.
Proof.
  unfold slm_res_fillmembers. destruct (add_ifdne_foldl (res_members r) ka.2) as (t & -> & Ht).
  assert (Hp : ∀ i, (i < length ka.2)%nat → (ka.2 ++ t) !! i = ka.2 !! i) by (intros; by rewrite lookup_app_l).
  destruct sh; cbn [snd]; [|rewrite length_app; split_and!; [lia|done|done]].
  destruct (shuffle_rearranged (length ka.2) (ka.1, ka.2 ++ t)) as (Hlen & Hpre & Hel). cbn [snd] in *.
  rewrite Hlen, length_app. split_and!; [lia| |].
  - intros i Hi. by rewrite Hpre, Hp.
  - intros m. by rewrite Hel, Ht.
Qed.

(** The members a request with preferred resource [piosid] may be given,
    besides those with a valid copy. *)
Definition offered (gc : sl_config) (ih : slm_inoh) (piosid : Z) (m : sl_resm) : Prop :=
  ∃ pios, id2res gc piosid = Some pios ∧ RES_ISFS (res_type pios) || RES_ISCLUSTER (res_type pios) = true ∧
    (m ∈ res_members pios ∨
     (∃ r, r ∈ site_resources gc ∧ RES_ISFS (res_type r) = true ∧ res_type r ≠ SLREST_ARCHIVAL_FS ∧ m ∈ res_members r) ∨
     (hasf (inoh_flags ih) INOF_IOS_AFFINITY = true ∧
      ∃ r, id2res gc (arr_get (ino_repls (inoh_ino ih)) 0) = Some r ∧ m ∈ res_members r)).

(** [a'] extends [a]: it starts with [a], and the members it has besides
    those of [a] are those in [P]. *)
Definition extends (a a' : list sl_resm) (P : sl_resm → Prop) : Prop :=
  (length a ≤ length a')%nat ∧ (∀ i, (i < length a)%nat → a' !! i = a !! i) ∧ ∀ m, m ∈ a' ↔ m ∈ a ∨ P m.

Lemma extends_refl a P : (∀ m, ¬ P m) → extends a a P.
Proof. intros HP. split_and!; [done|done|]. intros m. specialize (HP m). tauto. Qed.
Lemma extends_trans a b c P Q : extends a b P → extends b c Q → extends a c (λ m, P m ∨ Q m).
Proof.
  intros (H1' & H2' & H3') (H4' & H5' & H6'). split_and!; [lia| |].
  - intros i Hi. rewrite H5', H2' by lia. done.
  - intros m. rewrite H6', H3'. tauto.
Qed.
Lemma extends_iff a b P Q : extends a b P → (∀ m, m ∈ a ∨ P m ↔ m ∈ a ∨ Q m) → extends a b Q.
Proof. intros (? & ? & HP) HPQ. split_and!; [done|done|]. intros m. by rewrite HP, HPQ. Qed.
Lemma extends_shuffle a ka P : extends a ka.2 P → extends a (slm_res_shuffle (length a) ka).2 P.
Proof.
  intros (Hl & Hp & He). destruct (shuffle_rearranged (length a) ka) as (Hlen & Hpre & Hel). split_and!.
  - lia.
  - intros i Hi. by rewrite Hpre, Hp.
  - intros m. by rewrite Hel, He.
Qed.

Lemma site_extends pios l ka :
  extends ka.2 (foldl (site_fill pios) ka l).2
    (λ m, ∃ r, r ∈ l ∧ RES_ISFS (res_type r) = true ∧ r ≠ pios ∧ res_type r ≠ SLREST_ARCHIVAL_FS ∧ m ∈ res_members r).
Proof.
  revert ka. induction l as [|r l IH]; intros ka; cbn [foldl].
  - apply extends_refl. intros m (r & []%elem_of_nil & _).
  - set (ka1 := site_fill pios ka r).
    assert (Hx : extends ka.2 ka1.2 (λ m, RES_ISFS (res_type r) = true ∧ r ≠ pios ∧ res_type r ≠ SLREST_ARCHIVAL_FS ∧
                                          m ∈ res_members r)).
    { unfold ka1, site_fill. destruct (RES_ISFS (res_type r)) eqn:Hfs; cbn [negb orb]; [|by apply extends_refl; intros m (? & _)].
      destruct (decide (r = pios)) as [->|Hne]; [rewrite bool_decide_true by done; by apply extends_refl; intros m (_ & ? & _)|].
      rewrite (bool_decide_false (r = pios)) by done. cbn [orb].
      destruct (decide (res_type r = SLREST_ARCHIVAL_FS)) as [Ha|Ha];
        [rewrite bool_decide_true by done; by apply extends_refl; intros m (_ & _ & ? & _)|].
      rewrite bool_decide_false by done. destruct (fillmembers_spec false r ka) as (H1' & H2' & H3').
      split_and!; [done|done|]. intros m. rewrite H3'. tauto. }
    eapply extends_iff; [by eapply extends_trans, IH|]. intros m. split.
    + intros [?|[(? & ? & ? & ?)|(r' & ? & ?)]]; [by left|right; exists r; split_and!; try done; by left|].
      right. exists r'. split; [by right|done].
    + intros [?|(r' & Hr' & ? & ? & ? & ?)]; [by left|]. right. apply elem_of_cons in Hr' as [->|Hr']; [by left|].
      right. by exists r'.
Qed.

Lemma get_ioslist_extends gc ih piosid ka :
  extends ka.2 (slm_get_ioslist gc ih piosid ka).2 (offered gc ih piosid).
Proof.
  unfold slm_get_ioslist. destruct (id2res gc piosid) as [pios|] eqn:Hpios.
  2: { apply extends_refl. intros m (p & Hp & _). congruence. }
  destruct (RES_ISFS (res_type pios) || RES_ISCLUSTER (res_type pios)) eqn:Hty; [|].
  2: { apply orb_false_iff in Hty as [Hf1 Hf2]. rewrite Hf1, Hf2. cbn [negb andb]. apply extends_refl. intros m (p & Hp & Ht & _).
       rewrite Hpios in Hp. simplify_eq. apply orb_true_iff in Ht as [?|?]; congruence. }
  rewrite <-negb_orb, Hty. cbn [negb].
  set (ka1 := if hasf _ _ then _ else ka).
  assert (H1' : extends ka.2 ka1.2 (λ m, hasf (inoh_flags ih) INOF_IOS_AFFINITY = true ∧
      ∃ r, id2res gc (arr_get (ino_repls (inoh_ino ih)) 0) = Some r ∧ m ∈ res_members r)).
  { unfold ka1. destruct (hasf _ _); [|by apply extends_refl; intros m [? _]].
    destruct (id2res gc (arr_get (ino_repls (inoh_ino ih)) 0)) as [r|]; [|by apply extends_refl; intros m (_ & r & ? & _)].
    destruct (fillmembers_spec true r ka) as (? & ? & Hm). split_and!; [done|done|]. intros m. rewrite Hm.
    split; [intros [?|?]; [by left|right; split; [done|by exists r]]|]. intros [?|(_ & r' & ? & ?)]; [by left|]. simplify_eq. by right. }
  assert (H2' : extends ka1.2 (slm_res_fillmembers true pios ka1).2 (λ m, m ∈ res_members pios)) by apply fillmembers_spec.
  set (ka2 := slm_res_fillmembers true pios ka1) in *.
  pose proof (extends_shuffle _ _ _ (site_extends pios (site_resources gc) ka2)) as H3'.
  eapply extends_iff; [eapply extends_trans; [eapply extends_trans; [exact H1'|exact H2']|exact H3']|].
  intros m. split.
  - intros [?|[[?|?]|(r & ? & ? & _ & ? & ?)]]; [by left|right..]; exists pios; (split; [done|]; split; [done|]).
    + by right; right.
    + by left.
    + right; left. by exists r.
  - intros [?|(p & Hp & _ & [?|[(r & ? & ? & ? & ?)|?]])]; [by left|right..]; simplify_eq.
    + by left; right.
    + destruct (decide (r = pios)) as [->|]; [by left; right|]. right. by exists r.
    + by left; left.
Qed.

(** ** The choice *)

(** The configuration is complete: a storage resource has a member, and what
    is in the replica table and known is a storage resource. *)
Definition conf_ok (gc : sl_config) (L : list Z) : Prop :=
  (∀ id r, id2res gc id = Some r → RES_ISFS (res_type r) = true → res_members r ≠ []) ∧
  ∀ id r, id ∈ L → id2res gc id = Some r → RES_ISFS (res_type r) = true.

(** [m] serves a valid copy of the bmap, for the replicas from [i0] on. *)
Definition has_copy (gc : sl_config) (R L : list Z) (i0 : nat) (m : sl_resm) : Prop :=
  ∃ i id r, (i0 ≤ i)%nat ∧ L !! i = Some id ∧ repl_stat R (Z.of_nat i) = BREPLST_VALID ∧
    id2res gc id = Some r ∧ head (res_members r) = Some m.

Lemma select_repls_spec gc ih R L n i repls a resm :
  conf_ok gc L → (∀ k id, L !! k = Some id → fcmh_getrepl ih (Z.of_nat k) = Done id) →
  (i + n = length L)%nat → 0 ≤ repls →
  ∃ repls' a' resm', select_repls gc ih R n (Z.of_nat i) repls a resm = Done (repls', a', resm') ∧ repls ≤ repls' ∧
    (∃ t, a' = a ++ t ∧ (∀ m, m ∈ t ↔ has_copy gc R L i m)) ∧
    (repls' = 0 ↔ repls = 0 ∧ ∀ k, (i ≤ k < length L)%nat → repl_stat R (Z.of_nat k) = BREPLST_INVALID).
Proof.
  intros [Hmem Hfs] Hget. revert i repls a resm. induction n as [|n IH]; intros i repls a resm Hn Hrep.
  { exists repls, a, resm. split_and!; [done|lia| |].
    - exists []. rewrite app_nil_r. split; [done|]. intros m. split; [by intros ?%elem_of_nil|].
      intros (k & id & r & Hk & Hl & _). apply lookup_lt_Some in Hl. lia.
    - split; [|tauto]. intros ->. split; [done|]. intros k Hk. lia. }
  destruct (lookup_lt_is_Some_2 L i ltac:(lia)) as [id Hid]. cbn [select_repls].
  change (SL_REPL_GET_BMAP_IOS_STAT R (Z.of_nat i * SL_BITS_PER_REPLICA)) with (repl_stat R (Z.of_nat i)).
  set (repls1 := if negb _ then repls + 1 else repls).
  assert (H1' : repls ≤ repls1 ∧ (repls1 = 0 ↔ repls = 0 ∧ repl_stat R (Z.of_nat i) = BREPLST_INVALID)).
  { unfold repls1. destruct (Z.eqb_spec (repl_stat R (Z.of_nat i)) BREPLST_INVALID); cbn [negb]; split; try lia; tauto. }
  replace (Z.of_nat i + 1) with (Z.of_nat (S i)) by lia.
  assert (Hfin : ∀ a1 resm1, (∃ t, a1 = a ++ t ∧ ∀ m, m ∈ t ↔ repl_stat R (Z.of_nat i) = BREPLST_VALID ∧
      ∃ r, id2res gc id = Some r ∧ head (res_members r) = Some m) →
    ∃ repls' a' resm', select_repls gc ih R n (Z.of_nat (S i)) repls1 a1 resm1 = Done (repls', a', resm') ∧ repls ≤ repls' ∧
    (∃ t, a' = a ++ t ∧ (∀ m, m ∈ t ↔ has_copy gc R L i m)) ∧
    (repls' = 0 ↔ repls = 0 ∧ ∀ k, (i ≤ k < length L)%nat → repl_stat R (Z.of_nat k) = BREPLST_INVALID)).
  { intros a1 resm1 (t1 & -> & Ht1).
    destruct (IH (S i) repls1 (a ++ t1) resm1 ltac:(lia) ltac:(lia)) as (r' & a' & m' & -> & Hle & (t & -> & Ht) & H0').
    exists r', ((a ++ t1) ++ t), m'. split_and!; [done|lia| |].
    - exists (t1 ++ t). rewrite <-app_assoc. split; [done|]. intros m. rewrite elem_of_app, Ht1, Ht. split.
      + intros [(Hv & r & Hr & Hm)|(k & id' & r & Hk & ? & ? & ? & ?)].
        * exists i, id, r. by split_and!.
        * exists k, id', r. split_and!; try done. lia.
      + intros (k & id' & r & Hk & Hl & ? & ? & ?). destruct (decide (k = i)) as [->|Hne].
        * left. simplify_eq. split; [done|]. by exists r.
        * right. exists k, id', r. split_and!; try done. lia.
    - rewrite H0', (proj2 H1'). split.
      + intros [[? ?] Hk]. split; [done|]. intros k Hki. destruct (decide (k = i)) as [->|]; [done|]. apply Hk. lia.
      + intros [? Hk]. split; [split; [done|]; apply Hk; lia|]. intros k Hki. apply Hk. lia. }
  destruct (Z.eqb_spec (repl_stat R (Z.of_nat i)) BREPLST_VALID) as [Hv|Hv]; cbn [negb].
  2: { apply Hfin. exists []. rewrite app_nil_r. split; [done|]. intros m. rewrite elem_of_nil. tauto. }
  rewrite (Hget _ _ Hid). unfold libsl_try_ios2resm. destruct (id2res gc id) as [r|] eqn:Hr.
  2: { apply Hfin. exists []. rewrite app_nil_r. split; [done|]. intros m. rewrite elem_of_nil. split; [done|].
       intros (_ & r & ? & _). done. }
  assert (HF : RES_ISFS (res_type r) = true) by (eapply Hfs; [|done]; by eapply list_elem_of_lookup_2). rewrite HF. cbn [negb].
  destruct (res_members r) as [|m0 ms] eqn:Hms; [by destruct (Hmem _ _ Hr HF)|].
  apply Hfin. exists [m0]. split; [done|]. intros m. rewrite list_elem_of_singleton. split.
  - intros ->. split; [done|]. exists r. by rewrite Hms.
  - intros (_ & r' & ? & Hm). simplify_eq. rewrite Hms in Hm. cbn in Hm. congruence.
Qed.

Lemma getrepl_table i x ih k id :
  tbl_wf i x → repl_list i x !! k = Some id → inoh_ino ih = i →
  (ino_nrepls i > SL_DEF_REPLICAS → inoh_extras ih = Some x) → fcmh_getrepl ih (Z.of_nat k) = Done id.
Proof.
  intros (Hl1 & Hl2 & Hn) Hk Hi Hx. unfold repl_list in Hk. apply lookup_take_Some in Hk as [Hk Hlt].
  unfold fcmh_getrepl, arr_get. rewrite Hi. change SL_DEF_REPLICAS with 4 in *. destruct (Z.ltb_spec (Z.of_nat k) 4) as [Hd|Hd].
  - rewrite lookup_app_l in Hk by lia. by rewrite Nat2Z.id, Hk.
  - rewrite Hx by lia. rewrite lookup_app_r in Hk by lia. rewrite Hl1 in Hk.
    replace (Z.to_nat (Z.of_nat k - 4)) with (k - Z.to_nat 4)%nat by lia. by rewrite Hk.
Qed.

(** The table and the flags of the handle are as before, except that the
    extras block may have been loaded. *)
Definition same_table (s s' : inost (D := DI)) : Prop :=
  inoh_ino (st_ih s') = inoh_ino (st_ih s) ∧ inoh_flags (st_ih s') = inoh_flags (st_ih s) ∧
  st_disk s' = st_disk s ∧ ∀ x, inox_view s x → inox_view s' x.

Lemma select_try_spec sv sk a :
  match select_try sv sk a with
  | Some m => ∃ j, a !! j = Some m ∧ (resm_res_id m ∉ sk) ∧ slm_try_sliodresm sv m = true ∧
      ∀ k m', (k < j)%nat → a !! k = Some m' → resm_res_id m' ∈ sk ∨ slm_try_sliodresm sv m' = false
  | None => ∀ m, m ∈ a → resm_res_id m ∈ sk ∨ slm_try_sliodresm sv m = false
  end.
Proof.
  assert (Hdec : ∀ m, ¬ ((resm_res_id m ∉ sk) ∧ slm_try_sliodresm sv m = true) → resm_res_id m ∈ sk ∨ slm_try_sliodresm sv m = false).
  { intros m Hm. destruct (decide (resm_res_id m ∈ sk)); [by left|]. right. destruct (slm_try_sliodresm sv m) eqn:?; [|done].
    by destruct Hm. }
  unfold select_try. destruct (list_find _ a) as [[j m]|] eqn:Hf.
  - apply list_find_Some in Hf as (Hj & [Hs Ht] & Hk). exists j. split_and!; try done. intros k m' Hlt Hm'. apply Hdec. by eapply Hk.
  - rewrite foreach_end_null. apply list_find_None in Hf. rewrite Forall_forall in Hf. intros m Hm. by apply Hdec, Hf.
Qed.

Lemma wp_resm_select gc sv R pios (s : inost (D := DI) * nat) L :
  table_is s.1 L → conf_ok gc L →
  wp (slm_resm_select gc sv R pios []) (λ r s', same_table s.1 s'.1 ∧
    let copy m := has_copy gc R L 0 m in
    let cand m := copy m ∨ offered gc (st_ih s.1) pios m in
    match r with
    | Some m => slm_try_sliodresm sv m = true ∧ cand m ∧ (copy m ∨ ∀ m', copy m' → slm_try_sliodresm sv m' = false)
    | None => (∀ m, cand m → slm_try_sliodresm sv m = false) ∨
              ((∀ m, ¬ copy m) ∧ ∃ k, (k < length L)%nat ∧ repl_stat R (Z.of_nat k) ≠ BREPLST_INVALID)
    end) s.
Proof.
  destruct s as [i k0]. intros (x & Hwf & Hv & HL) Hconf. cbn [fst] in *. unfold slm_resm_select. do 2 wp_step. wp_step. cbn [fst snd].
  set (nr := ino_nrepls (inoh_ino (st_ih i))) in *.
  eapply (wp_mono _ (λ _ s', s'.2 = k0 ∧ same_table i s'.1 ∧ (nr > SL_DEF_REPLICAS → inoh_extras (st_ih s'.1) = Some x))).
  { apply wp_when; intros Hc.
    - unfold wp. cbn [fst]. rewrite Hv. cbn [fst snd]. split; [done|]. split; [|done]. split_and!; try done.
      intros y Hy. apply inox_view_loaded. cbn. unfold inox_view in Hv, Hy. rewrite Hv in Hy. by simplify_eq.
    - split; [done|]. split; [done|]. intros Hgt. lia. }
  intros _ [i1 k1] (Hk1 & Hst & Hext). cbn [fst snd] in *. subst k1. pose proof Hst as (Hino & Hfl & _ & _).
  assert (Hlen : length L = Z.to_nat nr).
  { rewrite HL. unfold repl_list. rewrite length_take, length_app. destruct Hwf as (-> & -> & Hn). fold nr in Hn |- *.
    unfold SL_INOX_NREPLICAS, SL_MAX_REPLICAS, SL_DEF_REPLICAS in *. lia. }
  destruct (select_repls_spec gc (st_ih i1) R L (Z.to_nat nr) 0 0 [] None Hconf) as (repls & a & m0 & Hsel & Hge & (t & -> & Ht) & H0').
  { intros k id Hk. subst L. by eapply getrepl_table. }
  { lia. }
  { lia. }
  wp_step. unfold wp at 1. cbn [fst]. change (Z.of_nat 0) with 0 in Hsel. rewrite Hsel. cbn [app].
  destruct (negb (repls =? 0) && bool_decide (t = [])) eqn:Hnone.
  { wp_step. split; [done|]. right. apply andb_true_iff in Hnone as [Hr ->%bool_decide_eq_true]. split.
    - intros m Hm. by apply Ht, elem_of_nil in Hm.
    - apply negb_true_iff, Z.eqb_neq in Hr.
      destruct (decide (Exists (λ k, repl_stat R (Z.of_nat k) ≠ BREPLST_INVALID) (seq 0 (length L)))) as [He|He].
      + apply Exists_exists in He as (k & Hk%elem_of_seq & ?). exists k. split; [lia|done].
      + destruct Hr. apply H0'. split; [done|]. intros k Hk. apply dec_stable. intros Hne. apply He, Exists_exists. exists k.
        split; [|done]. apply elem_of_seq. lia. }
  do 2 wp_step. cbn [fst snd]. pose proof (get_ioslist_extends gc (st_ih i1) pios (k0, t)) as (Hle & Hpre & Hel).
  destruct (slm_get_ioslist _ _ _ _) as [k2 a2]. cbn [fst snd] in *. do 2 wp_step. wp_step. cbn [fst]. split; [done|].
  assert (Hoff : ∀ m, offered gc (st_ih i1) pios m ↔ offered gc (st_ih i) pios m) by (intros m; unfold offered; by rewrite Hino, Hfl).
  assert (Hel' : ∀ m, m ∈ a2 ↔ has_copy gc R L 0 m ∨ offered gc (st_ih i) pios m) by (intros m; by rewrite Hel, Ht, Hoff).
  pose proof (select_try_spec sv [] a2) as Hs. destruct (select_try sv [] a2) as [m|].
  - destruct Hs as (j & Hj & _ & Htry & Hbef). split; [done|]. split; [apply Hel'; by eapply list_elem_of_lookup_2|].
    destruct (decide (j < length t)%nat) as [Hlt|Hge'].
    + left. apply Ht. rewrite Hpre in Hj by done. by eapply list_elem_of_lookup_2.
    + right. intros m' [k Hk]%Ht%list_elem_of_lookup. pose proof (lookup_lt_Some _ _ _ Hk).
      destruct (Hbef k m') as [[]%elem_of_nil|]; [lia| |done]. by rewrite Hpre.
  - left. intros m Hm. destruct (Hs m) as [[]%elem_of_nil|]; [by apply Hel'|done].
Qed.
End select.

(** Which I/O system a write lease is given.  [slm_resm_select] finishes,
    changes nothing of the replica table, and
    - an I/O system it chooses is enabled, connected and alive, and is either
      one with a valid copy of the bmap or one that the client's preferred
      resource and the site offer; one without a valid copy is only chosen
      when none of those with a valid copy can take the lease (the note before
      the function says that a valid replica must be chosen);
    - it chooses none only when no candidate can take the lease, or when the
      bmap has replicas but no valid copy on a known system. *)
Theorem resm_select_prefers_copy {DI} `{Mdsio DI} `{PflErr} `{PflMem} `{PflArrayLaws}
    gc sv R pios (s : inost (D := DI) * nat) L :
  table_is s.1 L → conf_ok gc L →
  wp (slm_resm_select gc sv R pios []) (λ r s', same_table s.1 s'.1 ∧
    let copy m := has_copy gc R L 0 m in
    let cand m := copy m ∨ offered gc (st_ih s.1) pios m in
    match r with
    | Some m => slm_try_sliodresm sv m = true ∧ cand m ∧ (copy m ∨ ∀ m', copy m' → slm_try_sliodresm sv m' = false)
    | None => (∀ m, cand m → slm_try_sliodresm sv m = false) ∨
              ((∀ m, ¬ copy m) ∧ ∃ k, (k < length L)%nat ∧ repl_stat R (Z.of_nat k) ≠ BREPLST_INVALID)
    end) s.
Proof. apply wp_resm_select. Qed.

(** Five systems, of which the second (11) has the valid copy and is down. *)
Module SelEx.
Definition memb (id : Z) : sl_resm := {| resm_addr := 1000 + id; resm_res_id := id |}.
Definition res (id : Z) : sl_resource := {| res_id := id; res_type := SLREST_STANDALONE_FS; res_members := [memb id] |}.
Definition gc : sl_config :=
  {| gconf_res := list_to_map ((λ id, (id, res id)) <$> [10; 11; 12; 13; 14]); site_resources := res <$> [10; 11; 12; 13; 14] |}.
Definition sv : servers :=
  {| sv_info _ := {| si_flags := 0; si_lastcomm := (1000, 0) |}; sv_conn m := negb (resm_res_id m =? 11); sv_now := (1100, 0) |}.
Definition R : list Z := repl_upd zero_table 1 BREPLST_VALID.
#[global] Instance pflarray : PflArray := {| psc_random32u k n := Z.of_nat k mod n; foreach_end _ := None |}.
#[global] Instance pflarray_laws : PflArrayLaws.
Proof. split; [|done]. intros k n Hn. by apply Z.mod_pos_bound. Qed.
Lemma conf : conf_ok gc [10; 11; 12; 13; 14].
Proof.
  assert (Hall : map_Forall (λ _ r, res_members r ≠ [] ∧ RES_ISFS (res_type r) = true) (gconf_res gc))
    by (refine (bool_decide_unpack _ _); by vm_compute).
  split; [intros id r Hr _; by apply (Hall (u64 id))|intros id r _ Hr; by apply (Hall (u64 id))].
Qed.
End SelEx.

Lemma resm_select_prefers_copy_witness :
  wp (slm_resm_select SelEx.gc SelEx.sv SelEx.R 12 []) (λ r s', ∃ m, r = Some m ∧ resm_res_id m = 12 ∧
    same_table MemFile.st5 s'.1 ∧ offered SelEx.gc (st_ih MemFile.st5) 12 m) (MemFile.st5, 0%nat).
Proof.
  assert (∃ s', slm_resm_select SelEx.gc SelEx.sv SelEx.R 12 [] (MemFile.st5, 0%nat) = Done (Some (SelEx.memb 12), s'))
    as [s' Hrun] by (eexists; vm_compute; reflexivity).
  pose proof (resm_select_prefers_copy SelEx.gc SelEx.sv SelEx.R 12 (MemFile.st5, 0%nat) [10; 11; 12; 13; 14]
                MemFile.st5_table SelEx.conf) as Hw.
  unfold wp in *. rewrite Hrun in *. destruct Hw as (Hst & _ & Hc & _). exists (SelEx.memb 12). split_and!; [done|done|done|].
  destruct Hc as [(i & id & r & _ & Hi & Hv & Hr & Hm)|Hoff]; [|done]. exfalso.
  assert (i = 1%nat) as ->.
  { apply lookup_lt_Some in Hi. cbn in Hi. do 5 (destruct i as [|i]; [by vm_compute in Hv|]). lia. }
  cbn in Hi. injection Hi as <-. vm_compute in Hr. injection Hr as <-. by vm_compute in Hm.
Defined.
