(* ===== verification/BmapAssign.v ===== *)
(** * Binding a bmap to an I/O system ([mds_bmap_add_repl] of [slashd/mds.c],
      [mds_replay_bmap_assign] of [slashd/jreplay.c])

    The operations that leases expect of the rest of the server ([LeaseEnv]),
    on a file with its replica table and cached bmaps: the choice of an I/O
    system, the registration of its replica with the journal entry for it, and
    the look for replication work when the last writer leaves.  The file shows
    that they keep the promises of the interface, so that the theorems on
    leases hold of the whole server. *)
From S2P Require Import Prelude ReplBits Inode ReplWalk BmapMds ReplMds ReplReq Replay Timeo Lease LeaseInv LeaseOps LeaseProps IosSelect.

(** ** Data *)
Definition SLJ_ASSIGN_REP_NONE : Z := 0.
Definition SLJ_ASSIGN_REP_INO : Z := 1.
Definition SLJ_ASSIGN_REP_REP : Z := 2.
Definition SLJ_ASSIGN_REP_BMAP : Z := 4.
Definition SLJ_ASSIGN_REP_FREE : Z := 8.

Record slmds_jent_bmap_assign := {
  sjba_lastcli : client;
  sjba_ios : Z;
  sjba_fid : Z;
  sjba_seq : Z;
  sjba_flags : Z;
  sjba_bmapno : Z;
  sjba_start : Z;
}.
Record slmds_jent_assign_rep := {
  sjar_flags : Z;
  sjar_elem : Z;
  sjar_ino : slmds_jent_ino_repls;
  sjar_rep : slmds_jent_bmap_repls;
  sjar_bmap : slmds_jent_bmap_assign;
}.

(** A file whose bmap is leased: the file, the number of random numbers drawn
    so far, and the journal entries for assignments, the last one first. *)
Record fenv (DI D : Type) := {
  fe_fs : fstate DI D;
  fe_rand : nat;
  fe_assigns : list slmds_jent_assign_rep;
}.
Arguments fe_fs {_ _}. Arguments fe_rand {_ _}. Arguments fe_assigns {_ _}.

(** ** Operations *)
Section ops.
Context {DI D : Type} `{Mdsio DI} `{BmapIO D} `{PflErr} `{PflMem} `{PflArray}.
Context (gc : sl_config) (sv : servers) (bno : Z).
(** What a journal buffer holds when it is handed out. *)
Context (buf : slmds_jent_assign_rep).
Abbreviation FE := (fenv DI D).

Definition onFile {A} (m : M (fstate DI D) A) : M FE A := λ e,
  match m (fe_fs e) with
  | Done (a, s) => Done (a, {| fe_fs := s; fe_rand := fe_rand e; fe_assigns := fe_assigns e |})
  | Stuck w => Stuck w
  end.

Definition bmap_resm_select (pios : Z) (to_skip : list Z) : M FE (option Z) := λ e,
  match fs_bmaps (fe_fs e) !! bno with
  | None => Stuck NullDeref
  | Some b =>
      match slm_resm_select gc sv (bmi_repls b) pios to_skip (fs_ino (fe_fs e), fe_rand e) with
      | Done (r, (i, k)) =>
          Done (resm_res_id <$> r, {| fe_fs := fs_with_ino (fe_fs e) i; fe_rand := k; fe_assigns := fe_assigns e |})
      | Stuck w => Stuck w
      end
  end.

Definition mk_sjba (bia : bmap_ios_assign) : slmds_jent_bmap_assign :=
  {| sjba_lastcli := bia_lastcli bia; sjba_ios := bia_ios bia; sjba_fid := bia_fid bia; sjba_seq := bia_seq bia;
     sjba_flags := bia_flags bia; sjba_bmapno := bia_bmapno bia; sjba_start := bia_start bia |}.

Definition mds_bmap_add_repl (bia : bmap_ios_assign) (assign : option Z) : M FE Z :=
  e ← getM;
  let nrepls := ino_nrepls (inoh_ino (st_ih (fs_ino (fe_fs e)))) in
  iosidx ← onFile (onIno (mds_repl_ios_lookup_fl (res_types gc) (bia_ios bia) IOSV_LOOKUPF_ADD));
  if iosidx <? 0 then stuckM Assertion else
  rc ← onFile (onBmap bno (λ f, mds_repl_inv_except_fl f iosidx false));
  if negb (rc =? 0) then mret rc else
  e ← getM;
  let fs := fe_fs e in
  let logs_ino := negb (nrepls =? ino_nrepls (inoh_ino (st_ih (fs_ino fs)))) in
  ino ← (if logs_ino then
           onFile (onIno (mdslogfill_ino_repls (fs_fid fs) (match fs_type fs with FtDir => true | _ => false end)
                            (drop (Z.to_nat SL_DEF_REPLICAS) (sjir_repls (sjar_ino buf)))))
         else mret (sjar_ino buf));
  match fs_bmaps fs !! bno, assign with
  | Some b, Some elem =>
      modifyM (λ e, {| fe_fs := fe_fs e; fe_rand := fe_rand e; fe_assigns :=
        {| sjar_flags := Z.lor (Z.lor (if (logs_ino : bool) then SLJ_ASSIGN_REP_INO else SLJ_ASSIGN_REP_NONE)
                                  SLJ_ASSIGN_REP_REP) SLJ_ASSIGN_REP_BMAP;
           sjar_elem := elem; sjar_ino := ino;
           sjar_rep := mdslogfill_bmap_repls (finfo_of fs) b;
           sjar_bmap := mk_sjba bia |} :: fe_assigns e |}) ≫= λ _, mret 0
  | _, _ => stuckM NullDeref
  end.

(** "Check if any replication work is ready and queue it up", in
    [mds_bmap_bml_release]. *)
Definition work_retifset : list Z := arr_set (arr_set (brepls_init 0) BREPLST_REPL_QUEUED 1) BREPLST_TRUNCPNDG 1.
Definition has_work_walk (f : finfo) : M (mstate D) Z :=
  onB (mds_repl_bmap_walk_all (fi_nrepls f) None (Some work_retifset) REPL_WALKF_SCIRCUIT).
Definition release_queue_work : M FE unit :=
  rc ← onFile (onBmap bno has_work_walk);
  if rc =? 0 then mret tt else
  e ← getM;
  _ ← whenM (ino_nrepls (inoh_ino (st_ih (fs_ino (fe_fs e)))) >? SL_DEF_REPLICAS)
        (_ ← onFile (onIno mds_inox_ensure_loaded); mret tt);
  onFile (onBmap bno (λ f, rc ← has_work_walk f; whenM (negb (rc =? 0)) (upsch_enqueue_bmap f))).

Definition fenv_lease_env : LeaseEnv FE := {|
  env_resm_select := bmap_resm_select;
  env_add_repl := mds_bmap_add_repl;
  env_queue_work := release_queue_work;
|}.
End ops.

(** Replay of an assignment entry on a file and the assignment table. *)
Section replay.
Context {DI D T : Type} `{Mdsio DI} `{BmapIO D} `{PflErr} `{PflMem} `{OdTable T}.
Context (cfg : gmap Z sl_res_type) (nonce : Z) (preclaim_notsup : Z → bool).

Definition replay_bia (r : slmds_jent_assign_rep) (bia : bmap_ios_assign) : bmap_ios_assign :=
  let sjba := sjar_bmap r in
  if hasf (sjar_flags r) SLJ_ASSIGN_REP_BMAP then
    {| bia_ios := sjba_ios sjba; bia_lastcli := sjba_lastcli sjba; bia_fid := sjba_fid sjba; bia_seq := sjba_seq sjba;
       bia_bmapno := sjba_bmapno sjba; bia_start := sjba_start sjba; bia_flags := sjba_flags sjba |}
  else bia.

Definition mds_replay_bmap_assign (r : slmds_jent_assign_rep) : M (fstate DI D * T) Z :=
  let onF (m : M (fstate DI D) Z) : M (fstate DI D * T) unit := λ s,
    match m s.1 with Done (_, f) => Done (tt, (f, s.2)) | Stuck w => Stuck w end in
  s ← getM;
  _ ← whenM (hasf (sjar_flags r) SLJ_ASSIGN_REP_INO)
        (onF (onIno (mds_replay_ino (match fs_type s.1 with FtDir => true | _ => false end) (sjar_ino r))));
  _ ← whenM (hasf (sjar_flags r) SLJ_ASSIGN_REP_REP)
        (onF (mds_replay_bmap_repls cfg nonce preclaim_notsup (sjar_rep r)));
  _ ← modifyM (λ s, (s.1, odt_putitemf s.2 (sjar_elem r) (replay_bia r (odt_getitem s.2 (sjar_elem r)))
                            (negb (hasf (sjar_flags r) SLJ_ASSIGN_REP_FREE))));
  mret 0.
End replay.

(** ** Rules for operations on a part of the file *)
Section rules.
Context {DI D : Type} `{Mdsio DI} `{BmapIO D} `{PflErr} `{PflMem}.

Lemma wp_onFile {A} (m : M (fstate DI D) A) (Q : A → fenv DI D → Prop) e :
  wp m (λ a s, Q a {| fe_fs := s; fe_rand := fe_rand e; fe_assigns := fe_assigns e |}) (fe_fs e) → wp (onFile m) Q e.
Proof. unfold wp, onFile. by destruct (m (fe_fs e)) as [[a s]|]. Qed.
Lemma wp_onIno {A} (m : M (inost (D := DI)) A) (Q : A → fstate DI D → Prop) s :
  wp m (λ a i, Q a (fs_with_ino s i)) (fs_ino s) → wp (onIno m) Q s.
Proof. unfold wp, onIno. by destruct (m (fs_ino s)) as [[a i]|]. Qed.
Lemma wp_onBmap {A} n b (m : finfo → M (mstate D) A) (Q : A → fstate DI D → Prop) s :
  fs_bmaps s !! n = Some b → wp (m (finfo_of s)) (λ a ms, Q a (of_ms s n ms)) (to_ms s b) → wp (onBmap n m) Q s.
Proof. intros Hb. unfold wp, onBmap. rewrite Hb. by destruct (m _ _) as [[a ms]|]. Qed.

Lemma fcmh_repls_table (i : inost (D := DI)) L : table_is i L → fcmh_repls i = L.
Proof.
  intros (x & (Hl1 & Hl2 & Hn) & Hv & ->). unfold fcmh_repls. rewrite Hv. cbn [inoh_extras st_ih set_ih inoh_with_extras from_option].
  rewrite Hl2, Nat.sub_diag. cbn [replicate]. by rewrite app_nil_r.
Qed.
Lemma finfo_table (s : fstate DI D) L :
  table_is (fs_ino s) L → 0 ≤ fs_size s → fi_nrepls (finfo_of s) = Z.of_nat (length L) ∧ finfo_ok (finfo_of s).
Proof.
  intros Ht Hsz. unfold finfo_ok, fi_nrepls. cbn [fi_repls fi_fsz finfo_of]. rewrite (fcmh_repls_table _ _ Ht).
  split; [done|]. split; [|done]. destruct Ht as (x & (Hl1 & Hl2 & Hn) & _ & ->). unfold repl_list. rewrite length_take. lia.
Qed.
End rules.

(** ** The promises of the interface *)
Section laws.
Context {DI D : Type} `{Mdsio DI} `{BmapIO D} `{PflErr} `{PflMem} `{PflArrayLaws} `{!MdsioLaws DI}.
Context (gc : sl_config) (sv : servers) (bno : Z) (buf : slmds_jent_assign_rep).
Abbreviation FE := (fenv DI D).

(** The I/O systems a writer may be bound to: the native resources of the
    members of storage and cluster resources. *)
Definition serving (r : sl_resource) : bool := RES_ISFS (res_type r) || RES_ISCLUSTER (res_type r).
Definition member_ids : gset Z :=
  list_to_set (resm_res_id <$> mjoin (res_members <$>
    filter (λ r, serving r = true) ((map_to_list (gconf_res gc)).*2 ++ site_resources gc))).

(** A deployment: storage resources have members, and the native resource of
    a member of a storage or cluster resource is a storage resource. *)
Class Deployment : Prop := {
  dep_members id r : id2res gc id = Some r → RES_ISFS (res_type r) = true → res_members r ≠ [];
  dep_native i : i ∈ member_ids → ∃ r, id2res gc i = Some r ∧ RES_ISFS (res_type r) = true;
}.

(** The states a bmap without replication requests goes through under the
    one-time policy. *)
Definition plain_states : list Z := [BREPLST_INVALID; BREPLST_VALID; BREPLST_GARBAGE].

(** The file [e] with replica table [L] and the leased bmap [b]: the table
    has no duplicates and there is room in it for every I/O system. *)
Record file_ok (e : FE) (L : list Z) (b : bmap) : Prop := {
  fo_table : table_is (fs_ino (fe_fs e)) L;
  fo_cached : fs_bmaps (fe_fs e) !! bno = Some b;
  fo_wf : repls_wf (bmi_repls b);
  fo_flags : hasf (bcm_flags b) BMAPF_REPLMODWR = false;
  fo_policy : bod_replpol (bmi_od b) ≠ BRPOL_PERSIST;
  fo_states : ∀ j, 0 ≤ j < 64 → stat b j ∈ plain_states;
  fo_size : 0 ≤ fs_size (fe_fs e);
  fo_nodup : NoDup L;
  fo_known : ∀ id r, id ∈ L → id2res gc id = Some r → RES_ISFS (res_type r) = true;
  fo_slot0 : L = [] → id2res gc (arr_get (ino_repls (inoh_ino (st_ih (fs_ino (fe_fs e))))) 0) = None;
  fo_room : Z.of_nat (size (list_to_set L ∪ member_ids)) ≤ SL_MAX_REPLICAS;
}.
Definition file_env_ok (e : FE) : Prop := ∃ L b, file_ok e L b.
(** The I/O system [i] has the only valid copy. *)
Definition sole_copy (e : FE) (i : Z) : Prop :=
  ∃ L b (k : nat), table_is (fs_ino (fe_fs e)) L ∧ fs_bmaps (fe_fs e) !! bno = Some b ∧ L !! k = Some i ∧
    stat b (Z.of_nat k) = BREPLST_VALID ∧
    ∀ j, (j < length L)%nat → j ≠ k → stat b (Z.of_nat j) ≠ BREPLST_VALID.

Lemma member_ids_intro r m :
  serving r = true → (∃ id, id2res gc id = Some r) ∨ r ∈ site_resources gc → m ∈ res_members r →
  resm_res_id m ∈ member_ids.
Proof.
  intros Hs Hr Hm. unfold member_ids. apply elem_of_list_to_set, list_elem_of_fmap_2, list_elem_of_join.
  exists (res_members r). split; [done|]. apply list_elem_of_fmap_2, list_elem_of_filter. split; [done|].
  apply elem_of_app. destruct Hr as [[id Hid]|Hr]; [left|by right].
  apply list_elem_of_fmap. exists (u64 id, r). split; [done|]. by apply elem_of_map_to_list.
Qed.

Context `{!Deployment}.

Lemma file_conf e L b : file_ok e L b → conf_ok gc L.
Proof. intros Hf. split; [apply dep_members|apply Hf]. Qed.

Lemma same_table_is (i i' : inost (D := DI)) L : same_table i i' → table_is i L → table_is i' L.
Proof. intros (Hi & _ & _ & Hv) (x & Hwf & Hx & ->). exists x. rewrite Hi. split_and!; [done|by apply Hv|done]. Qed.

Lemma bmap_select_ok pios (e : FE) :
  file_env_ok e → ∃ r e', bmap_resm_select gc sv bno pios [] e = Done (r, e') ∧ file_env_ok e' ∧
    (∀ i, sole_copy e i → sole_copy e' i) ∧ (∀ i, r = Some i → i ∈ member_ids).
Proof.
  intros (L & b & Hf). unfold bmap_resm_select. rewrite (fo_cached _ _ _ Hf).
  pose proof (wp_resm_select gc sv (bmi_repls b) pios (fs_ino (fe_fs e), fe_rand e) L (fo_table _ _ _ Hf) (file_conf _ _ _ Hf)) as Hw.
  unfold wp in Hw. destruct (slm_resm_select _ _ _ _ _ _) as [[r [i k]]|]; [|done]. destruct Hw as [Hst Hr]. cbn [fst] in *.
  eexists _, _. split; [done|]. split_and!.
  - exists L, b. pose proof (fo_slot0 _ _ _ Hf) as Hs0. destruct Hf. split; try done; cbn; [by eapply same_table_is|].
    destruct Hst as (-> & _). done.
  - intros j (L' & b' & k' & Ht & ?). exists L', b', k'. split; [by eapply same_table_is|done].
  - intros j Hj. destruct r as [m|]; [|done]. cbn in Hj. injection Hj as <-. destruct Hr as (_ & [Hc|Ho] & _).
    + destruct Hc as (n & id & rr & _ & Hn & _ & Hid & Hm). eapply (member_ids_intro rr); [|left; by exists id|by apply head_Some_elem_of].
      unfold serving. by rewrite (fo_known _ _ _ Hf id rr (list_elem_of_lookup_2 _ _ _ Hn) Hid).
    + destruct Ho as (p & Hp & Hty & [Hm|[(rr & Hs & Hfs & _ & Hm)|(_ & rr & Hid & Hm)]]).
      * eapply (member_ids_intro p); [done|left; by exists pios|done].
      * eapply (member_ids_intro rr); [unfold serving; by rewrite Hfs|by right|done].
      * eapply (member_ids_intro rr); [|left; by eexists|done]. unfold serving.
        destruct (fo_table _ _ _ Hf) as (x & (Hl1 & Hl2 & Hn) & _ & HL).
        destruct L as [|id0 L0] eqn:HLn; [by rewrite (fo_slot0 _ _ _ Hf eq_refl) in Hid|].
        assert (Hid0 : arr_get (ino_repls (inoh_ino (st_ih (fs_ino (fe_fs e))))) 0 = id0).
        { unfold repl_list in HL. destruct (ino_repls _) as [|z zs]; [done|]. destruct (Z.to_nat (ino_nrepls _)); [done|].
          cbn in HL. by injection HL as <- _. }
        rewrite Hid0 in Hid. by rewrite (fo_known _ _ _ Hf id0 rr ltac:(by left) Hid).
Qed.

(** Looking the bound system up, with room in the table. *)
Lemma lookup_add_spec e L b ios rc L' :
  file_ok e L b → ios ∈ member_ids → spec_lookup (res_types gc) ios IOSV_LOOKUPF_ADD L = (rc, L') →
  ∃ k : nat, rc = Z.of_nat k ∧ L' !! k = Some ios ∧ NoDup L' ∧ (L' = L ∨ L' = L ++ [ios]) ∧
    list_to_set L' ∪ member_ids = list_to_set L ∪ member_ids.
Proof.
  intros Hf Hios. unfold spec_lookup. destruct (list_find (ios =.) L) as [[k y]|] eqn:Hfind.
  - intros [= <- <-]. apply list_find_Some in Hfind as (Hk & <- & _). exists k. split_and!; try done; [apply Hf|by left].
  - apply list_find_None in Hfind.
    assert (Hni : ios ∉ L) by (intros Hi; rewrite Forall_forall in Hfind; by eapply Hfind).
    destruct (dep_native ios Hios) as (r & Hr & Hfs). unfold libsl_id2res, res_types. rewrite lookup_fmap.
    unfold id2res in Hr. rewrite Hr. cbn [fmap option_fmap option_map]. rewrite Hfs. cbn [negb].
    change (IOSV_LOOKUPF_ADD =? IOSV_LOOKUPF_ADD) with true. cbv iota.
    assert (Hlt : Z.of_nat (length L) < SL_MAX_REPLICAS).
    { pose proof (fo_room _ _ _ Hf) as Hroom. enough (length L < size (list_to_set L ∪ member_ids))%nat by lia.
      rewrite <-(size_list_to_set (C := gset Z) L) by apply Hf. apply subset_size. split; [apply union_subseteq_l|].
      intros Hsub. apply Hni. specialize (Hsub ios). rewrite elem_of_list_to_set in Hsub. apply Hsub, elem_of_union_r, Hios. }
    destruct (Z.eqb_spec (Z.of_nat (length L)) SL_MAX_REPLICAS); [lia|]. intros [= <- <-]. exists (length L). split_and!.
    + done.
    + by rewrite lookup_app_r, Nat.sub_diag.
    + apply NoDup_app. split_and!; [apply Hf| |apply NoDup_singleton]. intros x Hx ->%list_elem_of_singleton. done.
    + by right.
    + rewrite list_to_set_app_L. cbn [list_to_set]. rewrite union_empty_r_L, <-union_assoc_L. f_equal.
      apply subseteq_union_1_L. by apply singleton_subseteq_l.
Qed.

(** The states after the other copies were invalidated. *)
Lemma inv_stat_plain pol idx j v :
  pol ≠ BRPOL_PERSIST → v ∈ plain_states →
  inv_stat pol idx j v ∈ plain_states ∧ (j ≠ idx → inv_stat pol idx j v ≠ BREPLST_VALID).
Proof.
  intros Hpol%Z.eqb_neq Hv. unfold inv_stat, inv_others_tract. rewrite Hpol. unfold plain_states in Hv.
  destruct (decide (j = idx)); list_cases Hv; rewrite Hv; (split; [refine (bool_decide_unpack _ _); by vm_compute|done]).
Qed.
Lemma inv_post_plain (f : finfo) idx b b' :
  fi_nrepls f ≤ 64 → inv_post f idx b b' → bod_replpol (bmi_od b) ≠ BRPOL_PERSIST →
  (∀ j, 0 ≤ j < 64 → stat b j ∈ plain_states) →
  (∀ j, 0 ≤ j < 64 → stat b' j ∈ plain_states) ∧ (∀ j, 0 ≤ j < fi_nrepls f → j ≠ idx → stat b' j ≠ BREPLST_VALID).
Proof.
  intros Hnr (_ & _ & _ & _ & _ & Hst & _) Hpol Hpl. split; intros j Hj.
  - rewrite Hst by done. case_decide; [by apply inv_stat_plain; auto|by apply Hpl].
  - intros Hne. rewrite Hst, decide_True by lia. apply inv_stat_plain; [done|apply Hpl; lia|done].
Qed.

Lemma table_length (i : inost (D := DI)) L : table_is i L → (length L ≤ 64)%nat.
Proof.
  intros (x & (_ & _ & ? & Hn) & _ & ->). unfold repl_list. rewrite length_take. unfold SL_MAX_REPLICAS in Hn. lia.
Qed.
Lemma table_nrepls (i : inost (D := DI)) L : table_is i L → ino_nrepls (inoh_ino (st_ih i)) = Z.of_nat (length L).
Proof.
  intros (x & Hwf & _ & ->). rewrite repl_list_length by done. destruct Hwf as (_ & _ & ?). lia.
Qed.

Definition is_dir (s : fstate DI D) : bool := match fs_type s with FtDir => true | _ => false end.
Lemma fill_ino_run fid isdir l (i : inost (D := DI)) :
  0 < ino_nrepls (inoh_ino (st_ih i)) → extras_loaded i → ∃ r, mdslogfill_ino_repls fid isdir l i = Done (r, i).
Proof.
  intros Hn Hx. unfold mdslogfill_ino_repls, mbind, M_bind, getM.
  assert (Hass : whenM (negb isdir) (psc_assert (negb (ino_nrepls (inoh_ino (st_ih i)) =? 0))) i = Done (tt, i)).
  { unfold psc_assert. destruct (Z.eqb_spec (ino_nrepls (inoh_ino (st_ih i))) 0); [lia|]. by destruct isdir. }
  rewrite Hass. destruct (Z.gtb_spec (ino_nrepls (inoh_ino (st_ih i))) SL_DEF_REPLICAS) as [Hgt|]; [|by eexists].
  destruct Hx as [x ->]; [lia|]. by eexists.
Qed.

(** The entry [r] records the assignment [bia] in slot [elem] for a file whose
    table went from [L] to [L']. *)
Definition logs_assign (e : FE) (b : bmap) (bia : bmap_ios_assign) (elem : Z) (L L' : list Z) (r : slmds_jent_assign_rep) : Prop :=
  sjar_elem r = elem ∧ sjar_bmap r = mk_sjba bia ∧ sjar_rep r = mdslogfill_bmap_repls (finfo_of (fe_fs e)) b ∧
  sjar_flags r = (if decide (L' = L) then 6 else 7) ∧
  (L' ≠ L → mdslogfill_ino_repls (fs_fid (fe_fs e)) (is_dir (fe_fs e))
              (drop (Z.to_nat SL_DEF_REPLICAS) (sjir_repls (sjar_ino buf))) (fs_ino (fe_fs e)) = Done (sjar_ino r, fs_ino (fe_fs e))).

Lemma wp_add_repl_file e L b bia elem :
  file_ok e L b → bia_ios bia ∈ member_ids →
  wp (mds_bmap_add_repl gc bno buf bia (Some elem)) (λ rc e', ∃ L' b' (k : nat),
    file_ok e' L' b' ∧ fs_fid (fe_fs e') = fs_fid (fe_fs e) ∧ bcm_bmapno b' = bcm_bmapno b ∧
    (L' = L ∨ L' = L ++ [bia_ios bia]) ∧ L' !! k = Some (bia_ios bia) ∧
    stat b' (Z.of_nat k) = BREPLST_VALID ∧ (∀ j, (j < length L')%nat → j ≠ k → stat b' (Z.of_nat j) ≠ BREPLST_VALID) ∧
    (rc = 0 → ∃ r, fe_assigns e' = r :: fe_assigns e ∧ logs_assign e' b' bia elem L L' r)) e.
Proof.
  intros Hf Hios. unfold mds_bmap_add_repl. do 2 wp_step. wp_step. apply wp_onFile, wp_onIno.
  eapply wp_mono; [by apply wp_ios_lookup, Hf|]. intros idx i1 (L' & Hsp & Ht' & Hxl).
  destruct (lookup_add_spec _ _ _ _ _ _ Hf Hios Hsp) as (k & -> & Hk & Hnd & HL' & Hset).
  pose proof (lookup_lt_Some _ _ _ Hk) as Hklt. destruct (Z.ltb_spec (Z.of_nat k) 0); [lia|].
  set (fs1 := fs_with_ino (fe_fs e) i1).
  assert (Hsz : 0 ≤ fs_size fs1) by apply Hf. destruct (finfo_table fs1 L' Ht' Hsz) as [Hnr Hfok].
  pose proof Hfok as [Hmax _]. unfold SL_MAX_REPLICAS in Hmax.
  wp_step. apply wp_onFile. cbn [fe_fs fe_rand fe_assigns]. fold fs1. eapply (wp_onBmap bno b); [apply Hf|].
  apply wp_inv_except; [apply Hf|done|lia|apply Hf| |].
  { apply Hf. lia. }
  intros rc nb lg ms Hpost Hv _ _. destruct (inv_post_plain _ _ _ _ Hmax Hpost (fo_policy _ _ _ Hf) (fo_states _ _ _ Hf)) as [Hpl Hoth].
  set (rc' := if (rc =? 0) && negb (nb =? BMAP_OD_SZ) then SLERR_SHORTIO else rc). set (fs2 := of_ms fs1 bno ms). cbn [fe_fs fe_rand fe_assigns].
  destruct Hpost as (Hwf' & Hfl' & Hno' & _ & Hpol' & _).
  assert (Hok : ∀ asg, file_ok {| fe_fs := fs2; fe_rand := fe_rand e; fe_assigns := asg |} L' (ms_b ms)).
  { intros asg. split; cbn; try done.
    - apply lookup_insert_eq.
    - rewrite Hfl'. apply Hf.
    - rewrite Hpol'. apply Hf.
    - intros id r Hid Hr. destruct HL' as [->| ->]; [by eapply Hf|]. apply elem_of_app in Hid as [Hid|Hid%list_elem_of_singleton]; [by eapply Hf|].
      destruct (dep_native _ Hios) as (r' & Hr' & Hfs'). subst. rewrite Hr' in Hr. by simplify_eq.
    - intros ->. by rewrite lookup_nil in Hk.
    - rewrite Hset. apply Hf. }
  assert (Hcopy : ∀ j, (j < length L')%nat → j ≠ k → stat (ms_b ms) (Z.of_nat j) ≠ BREPLST_VALID) by (intros j Hj Hne; apply Hoth; lia).
  destruct (negb (rc' =? 0)) eqn:Hrc.
  { wp_step. exists L', (ms_b ms), k. split_and!; try done. intros Hz. by rewrite Hz in Hrc. }
  do 2 wp_step. cbn [fe_fs fs_ino fs2 of_ms fs1 fs_with_ino].
  rewrite (table_nrepls _ _ Ht'), (table_nrepls _ _ (fo_table _ _ _ Hf)).
  set (isdir := match fs_type (fe_fs e) with FtDir => true | _ => false end).
  assert (Hlog : wp (if negb (Z.of_nat (length L) =? Z.of_nat (length L'))
       then onFile (onIno (mdslogfill_ino_repls (fs_fid (fe_fs e)) isdir (drop (Z.to_nat SL_DEF_REPLICAS) (sjir_repls (sjar_ino buf)))))
       else mret (sjar_ino buf))
    (λ ino e', e' = {| fe_fs := fs2; fe_rand := fe_rand e; fe_assigns := fe_assigns e |} ∧
       (L' ≠ L → mdslogfill_ino_repls (fs_fid (fe_fs e)) isdir (drop (Z.to_nat SL_DEF_REPLICAS) (sjir_repls (sjar_ino buf))) i1 = Done (ino, i1)))
    {| fe_fs := fs2; fe_rand := fe_rand e; fe_assigns := fe_assigns e |}).
  { destruct (Z.eqb_spec (Z.of_nat (length L)) (Z.of_nat (length L'))) as [Heq|Hne]; cbn [negb].
    - wp_step. split; [done|]. intros Hne. destruct HL' as [->| ->]; [done|]. rewrite length_app in Heq. cbn in Heq. lia.
    - assert (L' ≠ L) as Hne' by congruence.
      destruct (fill_ino_run (fs_fid (fe_fs e)) isdir (drop (Z.to_nat SL_DEF_REPLICAS) (sjir_repls (sjar_ino buf))) i1) as [r Hr].
      { rewrite (table_nrepls _ _ Ht'). lia. }
      { by apply Hxl. }
      apply wp_onFile, wp_onIno. cbn [fe_fs fs_ino fs2 of_ms fs1 fs_with_ino]. unfold wp. rewrite Hr. split; done. }
  wp_step. eapply wp_mono; [exact Hlog|]. intros ino e' [-> Hino].
  assert (Hb2 : fs_bmaps fs2 !! bno = Some (ms_b ms)) by apply lookup_insert_eq. rewrite Hb2. do 3 wp_step.
  exists L', (ms_b ms), k. split_and!; try done. intros _. eexists. split; [done|]. split_and!; try done. cbn.
  destruct (decide (L' = L)) as [->|Hne]; [by rewrite Z.eqb_refl|]. destruct HL' as [?| ->]; [done|].
  destruct (Z.eqb_spec (Z.of_nat (length L)) (Z.of_nat (length (L ++ [bia_ios bia])))) as [Heq|]; [|done].
  rewrite length_app in Heq. cbn in Heq. lia.
Qed.

(** Without replication requests there is no work to queue. *)
Lemma queue_work_run e L b : file_ok e L b → release_queue_work bno e = Done (tt, e).
Proof.
  intros Hf. apply wp_eq.
  unfold release_queue_work. wp_step. apply wp_onFile. eapply (wp_onBmap bno b); [apply Hf|].
  destruct (finfo_table _ _ (fo_table _ _ _ Hf) (fo_size _ _ _ Hf)) as [_ [Hmax _]].
  apply wp_onB, wp_bmap_walk_query; [apply Hf|done|apply iosidx_ok_nil|].
  change (hasf REPL_WALKF_SCIRCUIT REPL_WALKF_SCIRCUIT) with true. cbv iota.
  assert (Hz : first_nonzero 0 ((λ k, ret_of (Some work_retifset) (stat b k)) <$> walk_idxs (fi_nrepls (finfo_of (fe_fs e))) REPL_WALKF_SCIRCUIT []) = 0).
  { apply first_nonzero_zero, Forall_fmap, Forall_forall. intros j Hj.
    destruct (walk_idxs_spec (fi_nrepls (finfo_of (fe_fs e))) REPL_WALKF_SCIRCUIT [] Hmax (iosidx_ok_nil _)) as (_ & Hall & _).
    rewrite Forall_forall in Hall. pose proof (fo_states _ _ _ Hf j (Hall j Hj)) as Hst. unfold plain_states in Hst.
    cbn. by list_cases Hst; rewrite Hst. }
  cbn [ms_b to_ms]. rewrite Hz. cbv iota. wp_step. split; [done|]. destruct e as [fs k asg]. cbn. f_equal.
  destruct fs. unfold of_ms, to_ms, ms_with_b. cbn. f_equal. apply insert_id, (fo_cached _ _ _ Hf).
Qed.

(** The file keeps the promises. *)
Definition fenv_laws : @LeaseEnvLaws FE (fenv_lease_env gc sv bno buf).
Proof.
  refine {| env_ok := file_env_ok; ios_ok i := i ∈ member_ids; env_wr := sole_copy |}.
  - apply bmap_select_ok.
  - intros a n e (L & b & Hf) Hios. destruct (wp_run _ _ _ (wp_add_repl_file e L b a n Hf Hios))
      as (rc & e' & Hrun & L' & b' & k & Hf' & _ & _ & _ & Hk & Hv & Hoth & _).
    exists rc, e'. split_and!; [done|by exists L', b'|]. intros _. exists L', b', k. split_and!; try done; apply Hf'.
  - intros e (L & b & Hf). exists e. split_and!; [by eapply queue_work_run|by exists L, b|done].
Defined.
End laws.

(** ** Leases on a file *)
Section lease_file.
Context {DI D T : Type} `{Mdsio DI} `{BmapIO D} `{PflErr} `{PflMem} `{PflArrayLaws} `{!MdsioLaws DI} `{OdTableLaws T}.
Context (gc : sl_config) (sv : servers) (bno : Z) (buf : slmds_jent_assign_rep) `{!Deployment gc}.
#[local] Instance file_lease_env : LeaseEnv (fenv DI D) := fenv_lease_env gc sv bno buf.
#[local] Instance file_lease_laws : LeaseEnvLaws (fenv DI D) := fenv_laws gc sv bno buf.

(** C8: a granted write lease and the replicas of the bmap.  For a file
    without replication requests and under the one-time policy, whose replica
    table has room for every I/O system of the deployment: when the grant of
    a write lease succeeds (one that is not recovered or failed, while no
    assignment of the bmap is under way), the invariant of leases holds, and the I/O system
    the bmap is bound to is the one in its entry of the assignment table, is in
    the replica table of the file and has the only valid copy of the bmap. *)
Theorem write_lease_sole_copy (s : lstate T (fenv DI D)) (A : held) (cl : client) (p : Z) (lb : bmap_mds_lease) (prefios : Z) :
  linv s A → ls_bmls s !! p = Some lb → new_lease A cl true p lb → client_ok cl →
  hasf (ls_flags s) BMAPF_IOSASSIGNED = false → hasf (bml_flags lb) BML_RECOVER = false →
  hasf (bml_flags lb) BML_FAILED = false →
  wp (mds_bmap_bml_add p SL_WRITE prefios) (λ rc s', rc = 0 →
    linv s' (grant A cl p true) ∧
    ∃ ion elem L b (k : nat), ls_wr_ion s' = Some ion ∧ ls_assign s' = Some elem ∧
      bia_ios (odt_getitem (ls_odt s') elem) = ion ∧ table_is (fs_ino (fe_fs (ls_env s'))) L ∧
      fs_bmaps (fe_fs (ls_env s')) !! bno = Some b ∧ L !! k = Some ion ∧
      stat b (Z.of_nat k) = BREPLST_VALID ∧ ∀ j, (j < length L)%nat → j ≠ k → stat b (Z.of_nat j) ≠ BREPLST_VALID) s.
Proof.
  intros Hinv Hb Hn Hok Hwait Hrec Hfail. destruct (li_rep _ _ Hinv) as ([ks Hlk] & _).
  eapply wp_mono; [by eapply (wp_bml_add s A cl p true)|]. intros rc s' [(-> & _)|(_ & Hl & _)]; [done|].
  intros Hrc. specialize (Hl Hrc). split; [done|]. pose proof (li_bound _ _ Hl) as Hbd. unfold bound in Hbd.
  destruct (Z.eqb_spec (nwriters (grant A cl p true)) 0) as [Hz|_]; [by destruct (grant_writer _ _ _ _ cl p Hlk)|].
  destruct Hbd as (ion & elem & Hion & Has & Hia & (_ & _ & _ & _ & (L & b & k & Ht & Hbb & Hk & Hv & Hoth)) & _).
  rewrite Hia in Hk. by exists ion, elem, L, b, k.
Qed.
End lease_file.

(** A file of which the system 11 has the only copy, on the deployment of
    [SelEx]; the bmap has no leases. *)
Module AssignEx.
Definition b0 : bmap := b_with_repls (b_with_flags (bmap_new 3) 0) SelEx.R.
Definition fs0 : fstate MemFile.mem MemBmaps.mem :=
  fs_with_cache ReqEx.fs {[ 3 := b0 ]} {[ 3 := 1 ]}.
Definition e0 : fenv MemFile.mem MemBmaps.mem := {| fe_fs := fs0; fe_rand := 0; fe_assigns := [] |}.
Definition buf : slmds_jent_assign_rep :=
  {| sjar_flags := 0; sjar_elem := 0;
     sjar_ino := {| sjir_fid := 0; sjir_replpol := 0; sjir_nrepls := 0; sjir_repls := replicate 64 0 |};
     sjar_rep := mdslogfill_bmap_repls (finfo_of fs0) b0; sjar_bmap := mk_sjba LeaseEx.no_item |}.
Definition idle : lstate LeaseEx.table (fenv MemFile.mem MemBmaps.mem) :=
  {| ls_bmls := ∅; ls_leases := []; ls_writers := 0; ls_readers := 0; ls_flags := 0; ls_wr_ion := None;
     ls_assign := None; ls_seq := 0; ls_fid := 77; ls_bmapno := 3; ls_opcnt := 1;
     ls_tt := timeo_start 10; ls_coh := []; ls_freed := []; ls_now := 1000;
     ls_odt := {| LeaseEx.ot_items := ∅; LeaseEx.ot_used := 0; LeaseEx.ot_cap := 4 |}; ls_env := e0 |}.

Lemma ids : member_ids SelEx.gc = list_to_set [10; 11; 12; 13; 14].
Proof. by apply (bool_decide_unpack _); vm_compute. Qed.
#[global] Instance deployment : Deployment SelEx.gc.
Proof.
  split; [apply SelEx.conf|]. rewrite ids. intros i Hi%elem_of_list_to_set.
  list_cases Hi; subst; (eexists; split; [vm_compute; reflexivity|done]).
Qed.
Lemma e0_ok : file_ok SelEx.gc 3 e0 [10; 11; 12; 13; 14] b0.
Proof.
  split; try done.
  - apply MemFile.st5_table.
  - apply repl_upd_wf, zero_table_wf.
  - intros j Hj. assert (Hall : Forall (λ j, stat b0 j ∈ plain_states) (seqZ 0 64)) by (refine (bool_decide_unpack _ _); by vm_compute).
    rewrite Forall_forall in Hall. apply Hall, elem_of_seqZ. lia.
  - refine (bool_decide_unpack _ _); by vm_compute.
  - apply (proj2 SelEx.conf).
Qed.
Lemma file_idle_linv : @linv _ _ _ _ (fenv_laws SelEx.gc SelEx.sv 3 buf) idle ∅.
Proof.
  split; [|done|right; by left| |done|by exists [10; 11; 12; 13; 14], b0; apply e0_ok].
  - split; [|done]. exists []. split_and!; [apply NoDup_nil_2| |done|apply map_Forall_empty].
    intros cl. rewrite lookup_empty. split; [by intros ?%elem_of_nil|by intros [? ?]].
  - intros cl p w Hp. by apply elem_of_nil in Hp.
Qed.
End AssignEx.

(** System 11 is down: the lease is bound to the preferred system 12, and its
    copy is the only valid one. *)
Lemma write_lease_sole_copy_witness :
  let lb := {| bml_seq := 0; bml_refcnt := 1; bml_ios := 0; bml_cli_nidpid := LeaseEx.cli2; bml_flags := BML_WRITE;
               bml_start := 1000; bml_expire := 1000 + BMAP_TIMEO_MAX; bml_exp := true; bml_chain := 0 |} in
  let s := ls_with_bmls AssignEx.idle {[ 20 := lb ]} in
  let env := fenv_lease_env SelEx.gc SelEx.sv 3 AssignEx.buf in
  ∃ s', mds_bmap_bml_add (H0 := env) 20 SL_WRITE 12 s = Done (0, s') ∧
    ∃ ion elem L b (k : nat), ls_wr_ion s' = Some ion ∧ ls_assign s' = Some elem ∧
      bia_ios (odt_getitem (ls_odt s') elem) = ion ∧ table_is (fs_ino (fe_fs (ls_env s'))) L ∧
      fs_bmaps (fe_fs (ls_env s')) !! 3 = Some b ∧ L !! k = Some ion ∧
      stat b (Z.of_nat k) = BREPLST_VALID ∧ ∀ j, (j < length L)%nat → j ≠ k → stat b (Z.of_nat j) ≠ BREPLST_VALID.
Proof.
  intros lb s env.
  pose proof (write_lease_sole_copy SelEx.gc SelEx.sv 3 AssignEx.buf s ∅ LeaseEx.cli2 20 lb 12) as Hw.
  assert (Hrc : match mds_bmap_bml_add (H0 := env) 20 SL_WRITE 12 s with Done (rc, _) => rc | Stuck _ => 1 end = 0)
    by (vm_compute; reflexivity).
  unfold wp, file_lease_env in Hw. fold env in Hw. destruct (mds_bmap_bml_add 20 SL_WRITE 12 s) as [[rc s']|]; [|done].
  subst rc. exists s'. split; [done|]. apply Hw; try done.
  - apply (linv_new AssignEx.idle ∅ 20 lb); [apply AssignEx.file_idle_linv|]. intros c. by apply not_elem_of_nil.
  - split_and!; try done. by apply not_elem_of_nil.
Defined.

(** ** Replay of an assignment *)
Section replay_file.
Context {DI D T : Type} `{Mdsio DI} `{BmapIO D} `{PflErr} `{PflMem} `{PflArrayLaws} `{!MdsioLaws DI} `{OdTableLaws T}.
Context (cfg : gmap Z sl_res_type) (nonce : Z) (preclaim_notsup : Z → bool).

(** Replay of plain states on a bmap that is in memory and stays there. *)
Lemma wp_replay_cached (r : slmds_jent_bmap_repls) (s : fstate DI D) L b ref (Q : Z → fstate DI D → Prop) :
  table_is (fs_ino s) L → 0 ≤ fs_size s → fs_bmaps s !! sjbr_bmapno r = Some b →
  fs_refs s !! sjbr_bmapno r = Some ref → 0 < ref →
  repls_wf (bmi_repls b) → hasf (bcm_flags b) (Z.lor BMAPF_INIT BMAPF_MODECHNG) = false →
  hasf (bcm_flags b) BMAPF_REPLMODWR = false →
  repls_wf (sjbr_repls r) → sjbr_nrepls r = Z.of_nat (length L) →
  (∀ j, 0 ≤ j < 64 → repl_stat (sjbr_repls r) j ∈ plain_states) →
  (∃ k : nat, (k < length L)%nat ∧ repl_stat (sjbr_repls r) (Z.of_nat k) = BREPLST_VALID) →
  (∀ rc s' b', fs_ino s' = fs_ino s → fs_bmaps s' !! sjbr_bmapno r = Some b' →
     (∀ j, 0 ≤ j < 64 → stat b' j = repl_stat (sjbr_repls r) j) → Q rc s') →
  wp (mds_replay_bmap_repls cfg nonce preclaim_notsup r) Q s.
Proof.
  intros Ht Hsz Hb Href Hpos Hwf Hinit Hmod Hwfr Hnr Hpl (k & Hk & Hv) HQ. unfold mds_replay_bmap_repls.
  wp_step. unfold wp at 1. rewrite (getf_cached cfg nonce true _ SL_WRITE s b Hb Hinit). cbn [Z.eqb negb].
  set (s1 := ref_add s _ 1). destruct (finfo_table s1 L Ht Hsz) as [Hnr1 Hfok]. pose proof Hfok as [Hmax _]. unfold SL_MAX_REPLICAS in Hmax.
  assert (Hrep : ∀ j, 0 ≤ j < 64 → replayed_stat r (finfo_of s1) j = repl_stat (sjbr_repls r) j).
  { intros j Hj. unfold replayed_stat. case_decide; [|done]. specialize (Hpl j Hj). unfold plain_states in Hpl. by list_cases Hpl; rewrite Hpl. }
  wp_step. eapply (wp_onBmap _ b); [done|]. wp_step. apply wp_replay_repls; [done|done|done|done|lia| |].
  { exists (Z.of_nat k). split; [lia|]. by rewrite Hv. }
  intros ms (_ & _ & Hwf' & _ & _ & _ & Hst & _). apply wp_bmap_write; [done|done| |done|].
  { exists (Z.of_nat k). split; [lia|]. rewrite Hst, Hrep, Hv by lia. done. }
  intros rc nb lg d' _. wp_step. unfold wp at 1. rewrite op_done_run. set (s2 := of_ms s1 _ _). wp_step.
  assert (Hcnt : 1 < bcm_opcnt s2 (sjbr_bmapno r)).
  { unfold bcm_opcnt, s2. cbn [fs_refs of_ms s1 ref_add fs_with_cache]. rewrite lookup_insert_eq, Href. cbn. lia. }
  destruct (Z.eqb_spec (bcm_opcnt s2 (sjbr_bmapno r)) 1); [lia|]. eapply (HQ _ _ (ms_b ms)); [done|apply lookup_insert_eq|].
  intros j Hj. by rewrite Hst, Hrep.
Qed.

(** The replica table after the first part of the replay. *)
Lemma wp_replay_assign_ino buf (e' : fenv DI D) b' bia elem L L' isdir r (i : inost (D := DI)) (Q : unit → inost (D := DI) → Prop) :
  logs_assign buf e' b' bia elem L L' r → table_is (fs_ino (fe_fs e')) L' → bia_ios bia ∈ L' → bia_ios bia ≠ 0 →
  fs_fid (fe_fs e') ≠ FID_ANY → length (sjir_repls (sjar_ino buf)) = Z.to_nat SL_MAX_REPLICAS → table_is i L →
  (∀ d y c, ∃ d', pwritev_inox d y c = (0, INOX_SZ + CRC_SZ, d')) →
  (∀ i', table_is i' L' → Q tt i') →
  wp (whenM (hasf (sjar_flags r) SLJ_ASSIGN_REP_INO) (_ ← mds_replay_ino isdir (sjar_ino r); mret tt)) Q i.
Proof.
  intros (_ & _ & _ & Hfl & Hfill) Ht' Hin Hnz Hfid Hbuf Ht Hpw HQ. destruct (decide (L' = L)) as [->|Hne].
  - rewrite Hfl. change (hasf 6 SLJ_ASSIGN_REP_INO) with false. by apply HQ.
  - rewrite Hfl. change (hasf 7 SLJ_ASSIGN_REP_INO) with true. cbn [whenM]. specialize (Hfill Hne). wp_step.
    apply (fill_ino_spec _ _ _ _ _ _ L') in Hfill as (Ef & _ & En & El & Etk & Hmax); [|done|rewrite length_drop, Hbuf; done].
    destruct Ht as (x & Hwf & Hv & _).
    eapply wp_replay_ino; [congruence|done|done|done|done|right; by exists (bia_ios bia)|done|done|done|].
    intros rc i' Hi' _. wp_step. by apply HQ.
Qed.

(** The states after the second part. *)
Lemma wp_replay_assign_rep gc bno buf (e' : fenv DI D) L L' b' bia elem (k : nat) r (s : fstate DI D) b1 ref :
  logs_assign buf e' b' bia elem L L' r → file_ok gc bno e' L' b' → bcm_bmapno b' = bno →
  (k < length L')%nat → stat b' (Z.of_nat k) = BREPLST_VALID →
  table_is (fs_ino s) L' → 0 ≤ fs_size s → fs_bmaps s !! bno = Some b1 → fs_refs s !! bno = Some ref → 0 < ref →
  repls_wf (bmi_repls b1) → hasf (bcm_flags b1) (Z.lor (Z.lor BMAPF_INIT BMAPF_MODECHNG) BMAPF_REPLMODWR) = false →
  wp (mds_replay_bmap_repls cfg nonce preclaim_notsup (sjar_rep r)) (λ _ s', table_is (fs_ino s') L' ∧
    ∃ b2, fs_bmaps s' !! bno = Some b2 ∧ ∀ j, 0 ≤ j < 64 → stat b2 j = stat b' j) s.
Proof.
  intros (_ & _ & Hrep & _) Hf' Hno Hk Hv Ht Hsz Hb1 Href Hpos Hwf1 [Hinit Hmod]%hasf_lor_false.
  pose proof (fo_wf _ _ _ _ _ Hf') as Hwf'.
  assert (Hstat : ∀ j, repl_stat (sjbr_repls (sjar_rep r)) j = stat b' j) by (intros j; rewrite Hrep; by apply fill_repl_stat).
  assert (Hbno : sjbr_bmapno (sjar_rep r) = bno) by (rewrite Hrep; cbn; congruence).
  eapply (wp_replay_cached (sjar_rep r) s L' b1 ref); rewrite ?Hbno; try done.
  - rewrite Hrep. cbn. destruct Hwf' as [Hl Hall]. by rewrite take_ge by lia.
  - rewrite Hrep. apply finfo_table; apply Hf'.
  - intros j Hj. rewrite Hstat. by apply Hf'.
  - exists k. split; [done|by rewrite Hstat].
  - intros rc' fs' b2 Hi2 Hb2 Hst2. split; [by rewrite Hi2|]. exists b2. split; [done|]. intros j Hj. by rewrite Hst2.
Qed.
End replay_file.

(** An assignment survives a crash.  Let [mds_bmap_add_repl] register
    the assignment [bia] of slot [elem] with success, and let the journal entry
    it wrote be replayed on a server that has the file's replica table as it
    was before, any states in the bmap (which is in memory), and any
    assignment table.  The replay finishes; then the table of the file and the
    state of every replica are those after the registration, and the slot
    holds exactly the assignment. *)
Theorem assign_replay_restores {DI D T : Type} `{Mdsio DI} `{BmapIO D} `{PflErr} `{PflMem} `{!MdsioLaws DI} `{OdTableLaws T}
    gc `{!Deployment gc} bno buf cfg nonce ns (e : fenv DI D) L b bia elem (fs1 : fstate DI D) (o : T) b1 ref :
  file_ok gc bno e L b → bcm_bmapno b = bno → bia_ios bia ∈ member_ids gc → bia_ios bia ≠ 0 →
  fs_fid (fe_fs e) ≠ FID_ANY → length (sjir_repls (sjar_ino buf)) = Z.to_nat SL_MAX_REPLICAS →
  table_is (fs_ino fs1) L → 0 ≤ fs_size fs1 → fs_bmaps fs1 !! bno = Some b1 → fs_refs fs1 !! bno = Some ref → 0 < ref →
  repls_wf (bmi_repls b1) → hasf (bcm_flags b1) (Z.lor (Z.lor BMAPF_INIT BMAPF_MODECHNG) BMAPF_REPLMODWR) = false →
  (∀ d y c, ∃ d', pwritev_inox d y c = (0, INOX_SZ + CRC_SZ, d')) →
  wp (mds_bmap_add_repl gc bno buf bia (Some elem)) (λ rc e', rc = 0 →
    ∃ r L' b', fe_assigns e' = r :: fe_assigns e ∧ table_is (fs_ino (fe_fs e')) L' ∧ fs_bmaps (fe_fs e') !! bno = Some b' ∧
      wp (mds_replay_bmap_assign cfg nonce ns r) (λ _ so, table_is (fs_ino so.1) L' ∧
        (∃ b2, fs_bmaps so.1 !! bno = Some b2 ∧ ∀ j, 0 ≤ j < 64 → stat b2 j = stat b' j) ∧
        odt_getitem so.2 elem = bia) (fs1, o)) e.
Proof.
  intros Hf Hno Hios Hnz Hfid Hbuf Ht1 Hsz1 Hb1 Href Hpos Hwf1 Hfl1 Hpw.
  eapply wp_mono; [by eapply wp_add_repl_file|].
  intros rc e' (L' & b' & k & Hf' & Hfid' & Hno' & _ & Hk & Hv & _ & Hlog) Hrc. destruct (Hlog Hrc) as (r & Hasg & Hr).
  pose proof (fo_table _ _ _ _ _ Hf') as Ht'.
  exists r, L', b'. split_and!; [done|done|apply Hf'|]. pose proof Hr as (Hel & Hbm & Hrep & Hfl & _).
  unfold mds_replay_bmap_assign. do 2 wp_step. cbn [fst snd].
  set (isdir := match fs_type fs1 with FtDir => true | _ => false end).
  assert (Hino : wp (whenM (hasf (sjar_flags r) SLJ_ASSIGN_REP_INO) (_ ← mds_replay_ino isdir (sjar_ino r); mret tt))
                    (λ _ i', table_is i' L') (fs_ino fs1)).
  { eapply wp_replay_assign_ino; try done; [by eapply list_elem_of_lookup_2|congruence]. }
  wp_step. eapply (wp_mono _ (λ _ so, so.2 = o ∧ ∃ i', so.1 = fs_with_ino fs1 i' ∧ table_is i' L')).
  { destruct (hasf (sjar_flags r) SLJ_ASSIGN_REP_INO); cbn [whenM] in *.
    - unfold wp, onIno, mbind, M_bind in *. cbn [fst]. destruct (mds_replay_ino _ _ _) as [[x i']|]; [|done].
      split; [done|]. by exists i'.
    - split; [done|]. exists (fs_ino fs1). split; [by destruct fs1|done]. }
  intros _ [fs2 o2] (Ho2 & i' & Hfs2 & Hi'). cbn [fst snd] in *. subst o2 fs2.
  assert (hasf (sjar_flags r) SLJ_ASSIGN_REP_REP = true ∧ hasf (sjar_flags r) SLJ_ASSIGN_REP_BMAP = true ∧
          hasf (sjar_flags r) SLJ_ASSIGN_REP_FREE = false) as (Hf2 & Hf4 & Hf8) by (rewrite Hfl; by case_decide).
  rewrite Hf2. cbn [whenM]. wp_step.
  eapply (wp_mono _ (λ _ so, so.2 = o ∧ table_is (fs_ino so.1) L' ∧
    ∃ b2, fs_bmaps so.1 !! bno = Some b2 ∧ ∀ j, 0 ≤ j < 64 → stat b2 j = stat b' j)).
  { epose proof (wp_replay_assign_rep cfg nonce ns gc bno buf e' L L' b' bia elem k r (fs_with_ino fs1 i') b1 ref Hr Hf') as Hw.
    ospecialize (Hw _ (lookup_lt_Some _ _ _ Hk) Hv Hi' Hsz1 Hb1 Href Hpos Hwf1 Hfl1); [congruence|].
    unfold wp in *. cbn [fst snd]. destruct (mds_replay_bmap_repls _ _ _ _ _) as [[x fs']|]; [|done]. by split. }
  intros _ [fs3 o3] (Ho3 & Ht3 & Hb3). cbn [fst snd] in *. subst o3. do 3 wp_step. cbn [fst snd]. split_and!; [done|done|].
  unfold replay_bia. rewrite Hf4, Hf8, Hel, Hbm. cbn [negb]. rewrite odt_get_putf. by destruct bia.
Qed.

(** The registration of system 12, replayed on the state before it with an
    empty assignment table. *)
Lemma assign_replay_restores_witness :
  let bia := {| bia_ios := 12; bia_lastcli := (2, 102); bia_fid := 77; bia_seq := 11; bia_bmapno := 3;
                bia_start := 1000; bia_flags := 0 |} in
  let o : LeaseEx.table := {| LeaseEx.ot_items := ∅; LeaseEx.ot_used := 0; LeaseEx.ot_cap := 4 |} in
  wp (mds_bmap_add_repl SelEx.gc 3 AssignEx.buf bia (Some 0)) (λ rc e', rc = 0 →
    ∃ r L' b', fe_assigns e' = r :: fe_assigns AssignEx.e0 ∧ table_is (fs_ino (fe_fs e')) L' ∧
      fs_bmaps (fe_fs e') !! 3 = Some b' ∧
      wp (mds_replay_bmap_assign (res_types SelEx.gc) 1 (λ _, true) r) (λ _ so, table_is (fs_ino so.1) L' ∧
        (∃ b2, fs_bmaps so.1 !! 3 = Some b2 ∧ ∀ j, 0 ≤ j < 64 → stat b2 j = stat b' j) ∧
        odt_getitem so.2 0 = bia) (AssignEx.fs0, o)) AssignEx.e0.
Proof.
  intros bia o. eapply (assign_replay_restores SelEx.gc 3 AssignEx.buf (res_types SelEx.gc) 1 (λ _, true) AssignEx.e0
    [10; 11; 12; 13; 14] AssignEx.b0 bia 0 AssignEx.fs0 o AssignEx.b0 1).
  - exact AssignEx.e0_ok.
  - reflexivity.
  - rewrite AssignEx.ids. apply elem_of_list_to_set. right. right. left.
  - discriminate.
  - discriminate.
  - reflexivity.
  - exact MemFile.st5_table.
  - discriminate.
  - vm_compute. reflexivity.
  - vm_compute. reflexivity.
  - reflexivity.
  - apply repl_upd_wf, zero_table_wf.
  - reflexivity.
  - intros d y c. eexists. reflexivity.
Defined.
