(* ===== verification/CrcWrite.v ===== *)
(** * CRC updates from I/O servers ([mds_bmap_crc_write] of [slashd/mds.c],
      [slm_rmi_handle_bmap_crcwrt] of [slashd/rmi.c])

    An I/O server reports the CRCs of the slivers it wrote.  The metadata
    server accepts the report from the system the bmap is bound to, once at a
    time, stores the CRCs, and ends a partial truncation that was waiting for
    them.  The state is that of the leases of the bmap with the file behind
    them, and the attributes of the file that the handler uses. *)
From S2P Require Import Prelude ReplBits Inode ReplWalk BmapMds ReplMds ReplReq Replay Timeo Lease LeaseInv LeaseOps LeaseProps IosSelect BmapAssign.

(** ** Data *)
Definition SRM_BMAPCRCWRT_PTRUNC : Z := Z.shiftl 1 0.
Definition MAX_BMAP_NCRC_UPDATES : Z := 64.
Definition S_ISUID : Z := 2048.
Definition S_ISGID : Z := 1024.
Definition ERANGE : Z := 34.

(** The file's generation and mode, and the files handed to the worker
    [slm_ptrunc_wake_clients], the last one first. *)
Record cwstate (T DI D : Type) := {
  cw_ls : lstate T (fenv DI D);
  cw_gen : Z;
  cw_mode : Z;
  cw_wake : list Z;
}.
Arguments cw_ls {_ _ _}. Arguments cw_gen {_ _ _}. Arguments cw_mode {_ _ _}. Arguments cw_wake {_ _ _}.

(** Results of calls that are not modelled: [slfid_to_vfsid] and whether it
    gave the current file system, [slm_fcmh_get], and the two calls of
    [mds_fcmh_setattr_nolog], for the block count and for the mode. *)
Record crcw_rcs := { vfs_rc : Z; same_vfs : bool; get_rc : Z; nblks_rc : Z; mode_rc : Z }.

(** An entry of the bulk buffer: the generation in [fg], [nups], and the rest,
    with the CRCs that are in the entry's part of the buffer. *)
Record crcup_entry := { ce_gen : Z; ce_nups : Z; ce_up : srm_bmap_crcup }.

(** ** Operations *)

(** The end of a partial truncation at replica [idx]. *)
Definition ptrunc_active_tract : list Z :=
  arr_set (arr_set (brepls_init (-1)) BREPLST_TRUNCPNDG BREPLST_VALID) BREPLST_TRUNCPNDG_SCHED BREPLST_VALID.
Definition ptrunc_others_tract (bpol : Z) : list Z :=
  arr_set (brepls_init (-1)) BREPLST_TRUNCPNDG (if bpol =? BRPOL_PERSIST then BREPLST_REPL_QUEUED else BREPLST_GARBAGE).
Definition crc_ptrunc_bmap {D : Type} (idx : Z) (f : finfo) : M (mstate D) unit :=
  _ ← onB (bmap_apply (Some ptrunc_active_tract) None (SL_BITS_PER_REPLICA * idx));
  s ← getM;
  _ ← onB (mds_repl_bmap_walk (fi_nrepls f) (Some (ptrunc_others_tract (bod_replpol (bmi_od (ms_b s))))) None
             REPL_WALKF_MODOTH [idx]);
  modB (λ b, b_with_wrlocked b false).

Section ops.
Context {T DI D : Type} `{Mdsio DI} `{BmapIO D} `{PflErr} `{PflMem}.
Context (cfg : gmap Z sl_res_type) (nonce bno : Z) (rcs : crcw_rcs).
Abbreviation CS := (cwstate T DI D).
Abbreviation CW := (M CS).

Definition cw_fs (s : CS) : fstate DI D := fe_fs (ls_env (cw_ls s)).
Definition cw_with_fs (s : CS) (fs : fstate DI D) : CS :=
  let l := cw_ls s in let e := ls_env l in
  {| cw_ls := ls_with_misc l (ls_opcnt l) (ls_tt l) (ls_coh l)
                {| fe_fs := fs; fe_rand := fe_rand e; fe_assigns := fe_assigns e |};
     cw_gen := cw_gen s; cw_mode := cw_mode s; cw_wake := cw_wake s |}.
Definition onFs {A} (m : M (fstate DI D) A) : CW A := λ s,
  match m (cw_fs s) with Done (a, fs) => Done (a, cw_with_fs s fs) | Stuck w => Stuck w end.

Definition clear_in_ptrunc : M (fstate DI D) unit := modifyM (λ s,
  {| fs_fid := fs_fid s; fs_type := fs_type s; fs_size := fs_size s; fs_nblks := fs_nblks s;
     fs_in_ptrunc := false; fs_ino := fs_ino s; fs_bmaps := fs_bmaps s;
     fs_refs := fs_refs s; fs_disk := fs_disk s; fs_journal := fs_journal s; fs_workq := fs_workq s;
     fs_upsch := fs_upsch s; fs_upschq := fs_upschq s; fs_paging := fs_paging s |}).

Definition crc_ptrunc (iosid : Z) : CW unit :=
  idx ← onFs (onIno (mds_repl_ios_lookup_fl cfg iosid 0));
  _ ← whenM (negb (idx <? 0)) (onFs (onBmap bno (crc_ptrunc_bmap idx)));
  _ ← onFs clear_in_ptrunc;
  modifyM (λ s, {| cw_ls := cw_ls s; cw_gen := cw_gen s; cw_mode := cw_mode s; cw_wake := fs_fid (cw_fs s) :: cw_wake s |}).

(** The set-id bits go after any modification. *)
Definition crc_clear_setid : CW unit :=
  s ← getM;
  whenM (hasf (cw_mode s) (Z.lor S_ISGID S_ISUID) && (mode_rc rcs =? 0))
    (putM {| cw_ls := cw_ls s; cw_gen := cw_gen s; cw_mode := clrf (cw_mode s) (Z.lor S_ISGID S_ISUID); cw_wake := cw_wake s |}).

(** The part of [mds_bmap_crc_write] that holds a reference to the bmap. *)
Definition crc_write_bmap (c : srm_bmap_crcup) (iosid flags : Z) : CW Z :=
  s ← getM;
  if negb (crc_write_admits (cw_ls s) iosid) then mret (- EINVAL) else
  up ← onFs (onBmap bno (λ _, s ← getM; mret (hasf (bcm_flags (ms_b s)) BMAPF_CRC_UP)));
  if up : bool then mret (- PFLERR_ALREADY) else
  _ ← onFs (or_flags bno BMAPF_CRC_UP);
  rc ← onFs (mds_bmap_crc_update cfg (vfs_rc rcs) (same_vfs rcs) (nblks_rc rcs) bno iosid c);
  _ ← whenM (hasf flags SRM_BMAPCRCWRT_PTRUNC) (crc_ptrunc iosid);
  _ ← crc_clear_setid;
  mret rc.

(** [mds_bmap_crc_write] for the leased bmap [bno]. *)
Definition mds_bmap_crc_write (c : srm_bmap_crcup) (fg_gen iosid flags : Z) : CW Z :=
  if negb (vfs_rc rcs =? 0) then mret (vfs_rc rcs) else
  if negb (same_vfs rcs) then mret (- EINVAL) else
  if negb (get_rc rcs =? 0) then mret (if get_rc rcs =? ENOENT then 0 else - get_rc rcs) else
  s ← getM;
  if negb (cw_gen s =? fg_gen) then mret (- (if cw_gen s >? fg_gen then SLERR_GEN_OLD else SLERR_GEN_INVALID)) else
  rc ← onFs (bmap_getf cfg nonce false bno None 0);
  if negb (rc =? 0) then mret (- EBADF) else
  rc ← crc_write_bmap c iosid flags;
  _ ← onFs (bmap_op_done bno);
  mret rc.

(** One round of the loop of [slm_rmi_handle_bmap_crcwrt], with the count the
    request gave for the entry; the value is [mp->crcup_rc[i]], which is 0
    before.  A CRC beyond the entry's part of the buffer is out of bounds. *)
Definition crcwrt_one (iosid flags ncrcs : Z) (e : crcup_entry) : CW Z :=
  let rc0 := if negb (ce_nups e =? ncrcs) then - EINVAL else 0 in
  if ce_nups e >? Z.of_nat (length (crcs (ce_up e))) then stuckM OutOfBounds else
  let l := take (Z.to_nat (ce_nups e)) (crcs (ce_up e)) in
  let rc0 := if existsb (λ c, slot c >=? SLASH_CRCS_PER_BMAP) l then - ERANGE else rc0 in
  rc ← mds_bmap_crc_write {| fsize := fsize (ce_up e); nblks := nblks (ce_up e); utimgen := utimgen (ce_up e);
                             extend := extend (ce_up e); crcs := l |} (ce_gen e) iosid flags;
  mret (if negb (rc =? 0) then rc else rc0).
Fixpoint crcwrt_loop (iosid flags : Z) (l : list (Z * crcup_entry)) : CW (list Z) :=
  match l with
  | [] => mret []
  | (n, e) :: l => rc ← crcwrt_one iosid flags n e; r ← crcwrt_loop iosid flags l; mret (rc :: r)
  end.

(** [slm_rmi_handle_bmap_crcwrt]; [bulk_rc] is the result of
    [slrpc_bulkserver], [l] the counts of the request with the entries. *)
Definition slm_rmi_handle_bmap_crcwrt (bulk_rc iosid flags : Z) (l : list (Z * crcup_entry)) : CW (Z * list Z) :=
  if Z.of_nat (length l) >? MAX_BMAP_NCRC_UPDATES then mret (- EINVAL, []) else
  if negb (bulk_rc =? 0) then mret (bulk_rc, []) else
  r ← crcwrt_loop iosid flags l;
  mret (0, r).
End ops.

(** ** Block counts of the replicas *)
Section nblks.
Context {D : Type} `{Mdsio D} `{PflErr} `{PflMem} `{!MdsioLaws D}.

Lemma table_loaded (i : inost (D := D)) L (Q : Z → inost → Prop) :
  table_is i L →
  (∀ x i', table_is i' L → inoh_extras (st_ih i') = Some x → Q 0 i') → wp mds_inox_ensure_loaded Q i.
Proof.
  intros (x & Hwf & Hv & ->) HQ. eapply wp_ensure_loaded; [done|]. apply (HQ x); [|done].
  exists x. split_and!; [done|by apply inox_view_loaded|done].
Qed.

Lemma wp_2_repl_nblks idx (i : inost (D := D)) L :
  table_is i L → wp (fcmh_2_repl_nblks idx) (λ _ i', table_is i' L) i.
Proof.
  intros Ht. unfold fcmh_2_repl_nblks. do 3 wp_step; [by wp_step|]. wp_step. eapply table_loaded; [done|].
  intros x i' Ht' Hx. do 2 wp_step. rewrite Hx. by wp_step.
Qed.

Lemma wp_set_repl_nblks idx n (i : inost (D := D)) L :
  table_is i L → wp (fcmh_set_repl_nblks idx n) (λ _ i', table_is i' L ∧ (SL_DEF_REPLICAS ≤ idx → is_Some (inoh_extras (st_ih i')))) i.
Proof.
  intros Ht. unfold fcmh_set_repl_nblks. do 2 wp_step. destruct (Z.ltb_spec idx SL_DEF_REPLICAS) as [Hlt|Hge].
  - wp_step. split; [|lia]. destruct Ht as (x & (Ha & Hb & Hc) & Hv & ->). exists x. cbn. split_and!; try done.
    eapply inox_view_ext; [..|exact Hv]; done.
  - wp_step. eapply table_loaded; [done|]. intros x i' Ht' Hx. do 2 wp_step. rewrite Hx. wp_step. split; [|by eexists].
    destruct Ht' as (y & (Ha & Hb & Hc) & Hv & ->). pose proof (inox_view_some _ _ _ Hx Hv) as ->.
    eexists. split_and!; [|by apply inox_view_loaded|]; done.
Qed.
(** Writing the block that holds it. *)
Lemma wp_write_block (inox : bool) (i : inost (D := D)) L :
  table_is i L → (inox = true → is_Some (inoh_extras (st_ih i))) →
  wp (if inox then mds_inox_write else mds_inode_write) (λ _ i', table_is i' L) i.
Proof.
  intros (x & Hwf & Hv & ->) Hx. destruct inox.
  - destruct (Hx eq_refl) as [y Hy]. unfold mds_inox_write. do 2 wp_step. rewrite Hy.
    destruct (pwritev_inox _ _ _) as [[rc nb] d']. do 2 wp_step. wp_step. exists x. split_and!; try done.
    apply inox_view_loaded. cbn. by rewrite Hy, (inox_view_some _ _ _ Hy Hv).
  - apply wp_inode_write. intros rc i' Hi He Hd. exists x. rewrite Hi. split_and!; try done. by eapply inox_view_ext.
Qed.
End nblks.

(** ** An update on a file *)
Lemma of_ms_id {DI D} (fs : fstate DI D) n b : fs_bmaps fs !! n = Some b → of_ms fs n (to_ms fs b) = fs.
Proof. intros Hb. destruct fs. unfold of_ms, to_ms. cbn in *. f_equal. by apply insert_id. Qed.

Section file_update.
Context {DI D : Type} `{Mdsio DI} `{BmapIO D} `{PflErr} `{PflMem} `{!MdsioLaws DI}.
Context (cfg : gmap Z sl_res_type) (bno : Z).

(** What an update of the bmap [b] from the replica [k] leaves of the file. *)
Definition file_updated (L : list Z) (k : nat) (c : srm_bmap_crcup) (fs fs' : fstate DI D) (b b' : bmap) (rc : Z) (lg : bool) : Prop :=
  table_is (fs_ino fs') L ∧ fs_bmaps fs' = <[bno := b']> (fs_bmaps fs) ∧ fs_refs fs' = fs_refs fs ∧ fs_fid fs' = fs_fid fs ∧
  fs_size fs' = fs_size fs ∧ fs_in_ptrunc fs' = fs_in_ptrunc fs ∧ fs_workq fs' = fs_workq fs ∧ fs_upschq fs' = fs_upschq fs ∧
  ∃ f ms ms', fi_nrepls f = Z.of_nat (length L) ∧ ms_b ms = b ∧ ms_b ms' = b' ∧
    ms_disk ms = fs_disk fs ∧ ms_disk ms' = fs_disk fs' ∧ crc_post f (Z.of_nat k) c ms ms' rc lg.

Lemma find_known (L : list Z) k ios : NoDup L → L !! k = Some ios → ∃ y, list_find (ios =.) L = Some (k, y).
Proof.
  intros Hnd Hk. exists ios. apply list_find_Some. split_and!; [done|done|].
  intros j y Hj Hlt ->. pose proof (NoDup_lookup _ _ _ _ Hnd Hk Hj). lia.
Qed.

Definition fs_with_nblks (fs : fstate DI D) (i : inost (D := DI)) (nb : Z) : fstate DI D :=
  {| fs_fid := fs_fid fs; fs_type := fs_type fs; fs_size := fs_size fs; fs_nblks := nb; fs_in_ptrunc := fs_in_ptrunc fs;
     fs_ino := i; fs_bmaps := fs_bmaps fs; fs_refs := fs_refs fs; fs_disk := fs_disk fs; fs_journal := fs_journal fs;
     fs_workq := fs_workq fs; fs_upsch := fs_upsch fs; fs_upschq := fs_upschq fs; fs_paging := fs_paging fs |}.

(** The part before the bmap is touched: the replica is looked up and its
    block count recorded. *)
Lemma crc_update_prefix nblks_rc L (k : nat) ios c (fs : fstate DI D) b (R : outcome (Z * fstate DI D) → Prop) :
  table_is (fs_ino fs) L → NoDup L → L !! k = Some ios → fs_bmaps fs !! bno = Some b → hasf (bcm_flags b) BMAPF_CRC_UP = true →
  (∀ i nb, table_is i L → R (onBmap bno (crc_update_bmap (Z.of_nat k) ios c) (fs_with_nblks fs i nb))) →
  R (mds_bmap_crc_update cfg 0 true nblks_rc bno ios c fs).
Proof.
  intros Ht Hnd Hk Hb Hup HQ. pose proof (lookup_lt_Some _ _ _ Hk) as Hlt. unfold mds_bmap_crc_update.
  apply wp_then. eapply (wp_onBmap bno b); [done|]. do 2 wp_step. wp_step; [done|]. rewrite of_ms_id by done. cbn [Z.eqb negb].
  apply wp_then, wp_onIno. eapply wp_mono; [by apply wp_ios_lookup|].
  intros idx i1 (L' & Hsp & Ht1 & _). destruct (find_known L k ios Hnd Hk) as [y Hy]. unfold spec_lookup in Hsp. rewrite Hy in Hsp.
  injection Hsp as <- <-. destruct (Z.ltb_spec (Z.of_nat k) 0); [lia|]. apply wp_then. wp_step; [done|]. apply wp_then, wp_onIno.
  eapply wp_mono; [by apply wp_2_repl_nblks|]. intros old i2 Ht2. apply wp_then. apply wp_when; intros _; [|by apply (HQ i2)].
  do 2 wp_step. wp_step. apply wp_onIno. eapply wp_mono; [apply (wp_set_repl_nblks _ _ _ L); exact Ht2|]. intros _ i3 [Ht3 Hx3]. wp_step.
  eapply (wp_mono _ (λ _ s', ∃ nb, s' = fs_with_nblks fs i3 nb)).
  { apply wp_when; intros _; [unfold set_size_nblks; wp_step|]; by eexists. }
  intros _ ? [nb ->]. wp_step. apply wp_onIno. eapply wp_mono; [apply (wp_write_block _ _ L); [exact Ht3|]|].
  { intros Hge. apply Hx3. rewrite Z.geb_leb in Hge. by apply Z.leb_le. }
  intros rc4 i4 Ht4. wp_step. by apply (HQ i4).
Qed.

Lemma wp_crc_update_file nblks_rc L (k : nat) ios c (fs : fstate DI D) b (Q : Z → fstate DI D → Prop) :
  table_is (fs_ino fs) L → 0 ≤ fs_size fs → NoDup L → L !! k = Some ios → fs_bmaps fs !! bno = Some b →
  repls_wf (bmi_repls b) → hasf (bcm_flags b) BMAPF_REPLMODWR = false → hasf (bcm_flags b) BMAPF_CRC_UP = true →
  stat b (Z.of_nat k) = BREPLST_VALID → Z.of_nat (length (bod_crcs (bmi_od b))) = SLASH_CRCS_PER_BMAP →
  Forall (λ e, 0 ≤ slot e < SLASH_CRCS_PER_BMAP) (crcs c) →
  (∀ rc lg fs' b', file_updated L k c fs fs' b b' rc lg → Q rc fs') →
  wp (mds_bmap_crc_update cfg 0 true nblks_rc bno ios c) Q fs.
Proof.
  intros Ht Hsz Hnd Hk Hb Hwf Hmod Hup Hv Hlen Hsl HQ. pose proof (lookup_lt_Some _ _ _ Hk) as Hlt.
  apply (crc_update_prefix _ L k _ _ _ b (λ o, match o with Done (a, s') => Q a s' | Stuck _ => False end)); try done.
  intros i nb Hi. set (F := fs_with_nblks fs i nb). change (wp (onBmap bno (crc_update_bmap (Z.of_nat k) ios c)) Q F).
  destruct (finfo_table F L Hi Hsz) as [Hnr Hfok].
  eapply (wp_onBmap bno b); [done|]. apply wp_crc_update_bmap; [done|done|lia|done..|].
  intros rc lg ms Hp. apply (HQ _ lg _ (ms_b ms)). pose proof Hp as (_ & _ & _ & _ & _ & _ & _ & _ & _ & Hq & _ & Hu & _).
  split_and!; try done. by exists (finfo_of F), (to_ms F b), ms.
Qed.

(** A slot beyond the table is stored to: nothing on the way tests it. *)
Lemma crc_update_out nblks_rc L (k : nat) ios c (fs : fstate DI D) b :
  table_is (fs_ino fs) L → 0 ≤ fs_size fs → NoDup L → L !! k = Some ios → fs_bmaps fs !! bno = Some b →
  repls_wf (bmi_repls b) → hasf (bcm_flags b) BMAPF_REPLMODWR = false → hasf (bcm_flags b) BMAPF_CRC_UP = true →
  stat b (Z.of_nat k) = BREPLST_VALID → slots_ok (crcs c) = false →
  mds_bmap_crc_update cfg 0 true nblks_rc bno ios c fs = Stuck OutOfBounds.
Proof.
  intros Ht Hsz Hnd Hk Hb Hwf Hmod Hup Hv Hsl. pose proof (lookup_lt_Some _ _ _ Hk) as Hlt.
  apply (crc_update_prefix _ L k _ _ _ b (λ o, o = Stuck OutOfBounds)); try done.
  intros i nb Hi. set (F := fs_with_nblks fs i nb). destruct (finfo_table F L Hi Hsz) as [Hnr Hfok].
  unfold onBmap. change (fs_bmaps F !! bno) with (fs_bmaps fs !! bno). rewrite Hb.
  enough (crc_update_bmap (Z.of_nat k) ios c (finfo_of F) (to_ms F b) = Stuck OutOfBounds) as -> by done.
  unfold crc_update_bmap, mds_repl_inv_except_fl.
  apply (wp_then _ _ (λ o, o = Stuck OutOfBounds)). wp_step. apply wp_inv_walks; [done|done|lia|done|].
  intros b1 _. cbn beta iota. wp_step. cbn [ms_b to_ms]. rewrite Hv.
  change (negb (arr_get inv_active_retifset BREPLST_VALID =? 0)) with false. cbv iota.
  apply (wp_then _ _ (λ o, o = Stuck OutOfBounds)). unfold modB at 1. wp_step. by rewrite Hsl.
Qed.
End file_update.

(** The end of a partial truncation. *)
Definition ptrunc_stat (pol idx j v : Z) : Z :=
  if decide (j = idx) then tr ptrunc_active_tract v else tr (ptrunc_others_tract pol) v.
Lemma ptrunc_tracts_ok pol : tract_ok ptrunc_active_tract ∧ tract_ok (ptrunc_others_tract pol).
Proof. split; apply tract_okb; [done|]. unfold ptrunc_others_tract. by destruct (pol =? BRPOL_PERSIST). Qed.

Lemma wp_crc_ptrunc_bmap {D : Type} idx f (s : mstate D) (Q : unit → mstate D → Prop) :
  repls_wf (bmi_repls (ms_b s)) → fi_nrepls f ≤ SL_MAX_REPLICAS → 0 ≤ idx < fi_nrepls f →
  hasf (bcm_flags (ms_b s)) BMAPF_REPLMODWR = false →
  (∀ b', same_but_repls (ms_b s) b' → repls_wf (bmi_repls b') → bmi_wrlocked b' = false →
     (∀ j, 0 ≤ j < 64 → stat b' j = if decide (0 ≤ j < fi_nrepls f)
        then ptrunc_stat (bod_replpol (bmi_od (ms_b s))) idx j (stat (ms_b s) j) else stat (ms_b s) j) → Q tt (ms_with_b s b')) →
  wp (crc_ptrunc_bmap idx f) Q s.
Proof.
  intros Hwf Hnr Hidx Hmod HQ. pose proof Hnr as Hnr'. unfold SL_MAX_REPLICAS in Hnr'.
  unfold crc_ptrunc_bmap. wp_step. apply wp_onB. rewrite Z.mul_comm.
  apply wp_bmap_apply; [done|lia|done|apply (ptrunc_tracts_ok 0)|]. intros b1 Hs1 Hwf1 Hst1 _ _. do 2 wp_step. wp_step. apply wp_onB.
  pose proof Hs1 as (_ & Hfl1 & Hod1 & _).
  apply wp_bmap_walk_tract; [done|done|by apply iosidx_ok_one| |done|apply ptrunc_tracts_ok|].
  { cbn. congruence. }
  intros b2 Hs2 Hwf2 Hst2 _. unfold modB. wp_step. apply HQ; try done.
  - eapply same_but_repls_trans; [done|]. eapply same_but_repls_trans; [done|]. by destruct b2 as [? ? [] ? ? ? ?].
  - intros j Hj. etransitivity; [exact (Hst2 j Hj)|]. rewrite !Hst1 by done. cbn [ms_b ms_with_b].
    rewrite Hod1. change (bod_replpol (od_with_repls (bmi_od (ms_b s)) (bmi_repls b1))) with (bod_replpol (bmi_od (ms_b s))).
    unfold ptrunc_stat. rewrite (decide_ext _ (0 ≤ j < fi_nrepls f ∧ j ≠ idx)) by apply selected_oth.
    destruct (decide (j = idx)) as [->|Hne]; repeat case_decide; try done; by exfalso; intuition lia.
Qed.

(** ** The handler *)
Section handler.
Context {DI D T : Type} `{Mdsio DI} `{BmapIO D} `{PflErr} `{PflMem} `{PflArrayLaws} `{!MdsioLaws DI} `{OdTableLaws T}.
Context (gc : sl_config) (sv : servers) (buf : slmds_jent_assign_rep) `{!Deployment gc}.
Context (cfg : gmap Z sl_res_type) (nonce bno : Z) (rcs : crcw_rcs).
#[local] Instance crc_lease_env : LeaseEnv (fenv DI D) := fenv_lease_env gc sv bno buf.
#[local] Instance crc_lease_laws : LeaseEnvLaws (fenv DI D) := fenv_laws gc sv bno buf.
Implicit Type s : cwstate T DI D.

Lemma wp_onFs {A} (m : M (fstate DI D) A) (Q : A → cwstate T DI D → Prop) s :
  wp m (λ a fs, Q a (cw_with_fs s fs)) (cw_fs s) → wp (onFs m) Q s.
Proof. unfold wp, onFs. by destruct (m (cw_fs s)) as [[a fs]|]. Qed.
Lemma cw_with_fs_id s : cw_with_fs s (cw_fs s) = s.
Proof. by destruct s as [[? ? ? ? ? ? ? ? ? ? ? ? ? ? ? ? []] ? ? ?]. Qed.

(** The calls before the bmap is looked up. *)
Definition rcs_ok : Prop := vfs_rc rcs = 0 ∧ same_vfs rcs = true ∧ get_rc rcs = 0.
(** The leased bmap is in memory. *)
Definition cached (s : cwstate T DI D) (b : bmap) (ref : Z) : Prop :=
  fs_bmaps (cw_fs s) !! bno = Some b ∧ fs_refs (cw_fs s) !! bno = Some ref ∧ 0 < ref ∧
  hasf (bcm_flags b) (Z.lor BMAPF_INIT BMAPF_MODECHNG) = false.

(** The frame of the handler: the reference is taken and given back. *)
Lemma wp_crc_write_frame c iosid flags s b ref (Q : Z → cwstate T DI D → Prop) :
  rcs_ok → cached s b ref →
  wp (crc_write_bmap cfg bno rcs c iosid flags) (λ rc s1, fs_refs (cw_fs s1) = <[bno := ref + 1]> (fs_refs (cw_fs s)) ∧
    Q rc (cw_with_fs s1 (ref_add (cw_fs s1) bno (-1)))) (cw_with_fs s (ref_add (cw_fs s) bno 1)) →
  wp (mds_bmap_crc_write cfg nonce bno rcs c (cw_gen s) iosid flags) Q s.
Proof.
  intros (Hv & Hsv & Hg) (Hb & Href & Hpos & Hfl) Hw. unfold mds_bmap_crc_write. rewrite Hv, Hsv, Hg. cbn [Z.eqb negb].
  do 2 wp_step. rewrite Z.eqb_refl. cbn [negb]. wp_step. apply wp_onFs. unfold wp at 1. rewrite (getf_hit _ _ _ _ _ _ _ b) by done.
  cbn [Z.eqb negb]. wp_step. eapply wp_mono; [exact Hw|]. intros rc s1 [Hr HQ]. wp_step. apply wp_onFs. unfold wp at 1.
  rewrite (op_done_ref _ _ (ref + 1)) by (rewrite ?Hr, ?lookup_insert_eq; done || lia). by wp_step.
Qed.

(** C40: updates that are refused, for a file that can be looked up and a
    bmap in memory. The handler finishes with the error of the
    case and nothing is changed: an update for another generation of the file;
    one from another I/O system than the one the bmap is bound to; one while
    another update of the bmap is under way. *)
Theorem crc_write_refused c fg_gen iosid flags s b ref rc :
  rcs_ok → cached s b ref →
  (cw_gen s ≠ fg_gen ∧ rc = - (if cw_gen s >? fg_gen then SLERR_GEN_OLD else SLERR_GEN_INVALID) ∨
   cw_gen s = fg_gen ∧ ls_wr_ion (cw_ls s) ≠ Some iosid ∧ rc = - EINVAL ∨
   cw_gen s = fg_gen ∧ ls_wr_ion (cw_ls s) = Some iosid ∧ hasf (bcm_flags b) BMAPF_CRC_UP = true ∧ rc = - PFLERR_ALREADY) →
  mds_bmap_crc_write cfg nonce bno rcs c fg_gen iosid flags s = Done (rc, s).
Proof.
  intros Hok Hc Hcase. pose proof Hc as (Hb & Href & Hpos & Hfl). apply wp_eq.
  destruct Hcase as [[Hg ->]|Hcase].
  { destruct Hok as (Hv & Hsv & Hg0). unfold mds_bmap_crc_write. rewrite Hv, Hsv, Hg0. cbn [Z.eqb negb]. do 2 wp_step.
    apply Z.eqb_neq in Hg as ->. by wp_step. }
  assert (cw_gen s = fg_gen) as <- by (by destruct Hcase as [[? _]|[? _]]).
  apply (wp_crc_write_frame _ _ _ _ b ref); [done..|]. set (s1 := cw_with_fs s _).
  assert (Hback : fs_refs (cw_fs s1) = <[bno := ref + 1]> (fs_refs (cw_fs s)) ∧ cw_with_fs s1 (ref_add (cw_fs s1) bno (-1)) = s).
  { split; [unfold s1; cbn; by rewrite Href|]. change (cw_fs s1) with (ref_add (cw_fs s) bno 1).
    rewrite (ref_add_back _ _ ref Href). unfold s1. change (cw_with_fs (cw_with_fs s _) (cw_fs s)) with (cw_with_fs s (cw_fs s)). apply cw_with_fs_id. }
  destruct Hback as [Hr Hback]. unfold crc_write_bmap. do 2 wp_step. unfold crc_write_admits. change (ls_wr_ion (cw_ls s1)) with (ls_wr_ion (cw_ls s)).
  destruct Hcase as [(_ & Hne & ->)|(_ & Hion & Hup & ->)].
  - rewrite bool_decide_false by done. by wp_step.
  - rewrite bool_decide_true by done. cbn [negb]. wp_step. apply wp_onFs. eapply (wp_onBmap bno b); [done|]. do 2 wp_step. wp_step. cbn [ms_b to_ms].
    rewrite of_ms_id by done. rewrite Hup, cw_with_fs_id. by wp_step.
Qed.

(** The states of the replicas after an update from the sole valid copy. *)
Lemma crc_post_file (e : fenv DI D) L b (f : finfo) (k : nat) c (ms ms' : mstate D) rc lg :
  file_ok gc bno e L b → fi_nrepls f = Z.of_nat (length L) → ms_b ms = b_with_flags b (setf (bcm_flags b) BMAPF_CRC_UP) →
  crc_post f (Z.of_nat k) c ms ms' rc lg → (k < length L)%nat → stat b (Z.of_nat k) = BREPLST_VALID →
  bod_replpol (bmi_od (ms_b ms')) ≠ BRPOL_PERSIST ∧
  hasf (bcm_flags (ms_b ms')) BMAPF_REPLMODWR = false ∧ hasf (bcm_flags (ms_b ms')) BMAPF_CRC_UP = negb lg ∧
  (∀ j, 0 ≤ j < 64 → stat (ms_b ms') j ∈ plain_states) ∧ stat (ms_b ms') (Z.of_nat k) = BREPLST_VALID ∧
  (∀ j, (j < length L)%nat → j ≠ k → stat (ms_b ms') (Z.of_nat j) ≠ BREPLST_VALID).
Proof.
  intros Hf Hnr Hb (_ & _ & Hpol & Hfl & Hst & _) Hk Hv. pose proof (table_length _ _ (fo_table _ _ _ _ _ Hf)) as Hmax.
  rewrite Hb in Hpol, Hfl, Hst. cbn [bmi_od bcm_flags b_with_flags] in *.
  change (stat (b_with_flags b (setf (bcm_flags b) BMAPF_CRC_UP))) with (stat b) in Hst.
  pose proof (fo_policy _ _ _ _ _ Hf) as Hp. pose proof (fo_states _ _ _ _ _ Hf) as Hpl. split_and!.
  - by rewrite Hpol.
  - pose proof (fo_flags _ _ _ _ _ Hf) as Hm. rewrite Hfl. destruct lg; [rewrite hasf_clrf|]; rewrite hasf_setf.
    + rewrite orb_false_r. done.
    + by rewrite Hm.
  - rewrite Hfl. destruct lg; [rewrite hasf_clrf; apply hasf_0_r|rewrite hasf_setf; apply orb_true_r].
  - intros j Hj. rewrite Hst by done. case_decide; [by apply inv_stat_plain; auto|by apply Hpl].
  - rewrite Hst, decide_True by lia. unfold inv_stat. rewrite decide_True by done. by rewrite Hv.
  - intros j Hj Hne. rewrite Hst, decide_True by lia. apply inv_stat_plain; [done|apply Hpl; lia|lia].
Qed.

Lemma linv_env (l : lstate T (fenv DI D)) A (e : fenv DI D) :
  linv l A → file_env_ok gc bno e → (∀ i, sole_copy bno (ls_env l) i → sole_copy bno e i) →
  linv (ls_with_misc l (ls_opcnt l) (ls_tt l) (ls_coh l) e) A.
Proof.
  intros [Hrep Hbd Hco Hcl Hop He] He' Hs. split; try done. unfold bound in *. destruct (nwriters A =? 0); [done|].
  destruct Hbd as (ion & elem & Hion & Has & Hia & (Hf & Hq & Hn & Hio & Hw) & Hno). exists ion, elem. split_and!; try done.
  split_and!; try done. by apply Hs.
Qed.

(** A file whose bmap was updated with plain states is as good as before. *)
Lemma file_ok_bmap (e e' : fenv DI D) L b b' (k : nat) :
  file_ok gc bno e L b → (k < length L)%nat → table_is (fs_ino (fe_fs e')) L → fs_bmaps (fe_fs e') !! bno = Some b' →
  fs_size (fe_fs e') = fs_size (fe_fs e) → repls_wf (bmi_repls b') → hasf (bcm_flags b') BMAPF_REPLMODWR = false →
  bod_replpol (bmi_od b') ≠ BRPOL_PERSIST → (∀ j, 0 ≤ j < 64 → stat b' j ∈ plain_states) → file_ok gc bno e' L b'.
Proof. intros Hf Hk Ht Hb Hsz ? ? ? ?. destruct Hf. split; try done; [congruence|]. intros ->. cbn in Hk. lia. Qed.

(** The end of a partial truncation changes no state when none is under
    truncation. *)
Lemma ptrunc_stat_plain pol idx j v : v ∈ plain_states → ptrunc_stat pol idx j v = v.
Proof.
  intros Hv. unfold plain_states in Hv. unfold ptrunc_stat, ptrunc_others_tract.
  destruct (decide (j = idx)); destruct (pol =? BRPOL_PERSIST); by list_cases Hv; rewrite Hv.
Qed.
Lemma wp_crc_ptrunc_plain iosid L (k : nat) b (s : cwstate T DI D) (Q : unit → cwstate T DI D → Prop) :
  table_is (fs_ino (cw_fs s)) L → 0 ≤ fs_size (cw_fs s) → NoDup L → L !! k = Some iosid →
  fs_bmaps (cw_fs s) !! bno = Some b → repls_wf (bmi_repls b) → hasf (bcm_flags b) BMAPF_REPLMODWR = false →
  (∀ j, 0 ≤ j < 64 → stat b j ∈ plain_states) →
  (∀ s' b', cw_ls s' = ls_with_misc (cw_ls s) (ls_opcnt (cw_ls s)) (ls_tt (cw_ls s)) (ls_coh (cw_ls s)) (ls_env (cw_ls s')) →
     table_is (fs_ino (cw_fs s')) L → fs_bmaps (cw_fs s') !! bno = Some b' → same_but_repls b b' → repls_wf (bmi_repls b') →
     (∀ j, 0 ≤ j < 64 → stat b' j = stat b j) → fs_size (cw_fs s') = fs_size (cw_fs s) →
     fs_refs (cw_fs s') = fs_refs (cw_fs s) → fs_disk (cw_fs s') = fs_disk (cw_fs s) → fs_in_ptrunc (cw_fs s') = false →
     cw_wake s' = fs_fid (cw_fs s) :: cw_wake s → cw_gen s' = cw_gen s → Q tt s') →
  wp (crc_ptrunc cfg bno iosid) Q s.
Proof.
  intros Ht Hsz Hnd Hk Hb Hwf Hmod Hpl HQ. pose proof (lookup_lt_Some _ _ _ Hk) as Hlt. unfold crc_ptrunc. wp_step. apply wp_onFs, wp_onIno.
  eapply wp_mono; [by apply wp_ios_lookup|]. intros idx i1 (L' & Hsp & Ht1 & _).
  destruct (find_known L k iosid Hnd Hk) as [y Hy]. unfold spec_lookup in Hsp. rewrite Hy in Hsp. injection Hsp as <- <-.
  destruct (Z.ltb_spec (Z.of_nat k) 0); [lia|]. cbn [negb whenM]. wp_step. apply wp_onFs. eapply (wp_onBmap bno b); [done|].
  destruct (finfo_table (fs_with_ino (cw_fs s) i1) L Ht1 Hsz) as [Hnr Hfok]. pose proof Hfok as [Hmax _].
  assert (Hidx : 0 ≤ Z.of_nat k < fi_nrepls (finfo_of (fs_with_ino (cw_fs s) i1))) by (rewrite Hnr; lia).
  apply wp_crc_ptrunc_bmap; [done|exact Hmax|exact Hidx|done|]. intros b' Hs' Hwf' _ Hst'. wp_step. apply wp_onFs. unfold clear_in_ptrunc. wp_step.
  wp_step. apply (HQ _ b'); try done; [apply lookup_insert_eq|]. intros j Hj. rewrite Hst' by done. cbn [ms_b to_ms]. case_decide; [|done].
  by apply ptrunc_stat_plain, Hpl.
Qed.

Lemma sole_copy_file (e : fenv DI D) L b i :
  file_ok gc bno e L b → sole_copy bno e i →
  ∃ k : nat, L !! k = Some i ∧ stat b (Z.of_nat k) = BREPLST_VALID ∧ ∀ j, (j < length L)%nat → j ≠ k → stat b (Z.of_nat j) ≠ BREPLST_VALID.
Proof.
  intros Hf (L1 & b1 & k & Ht & Hb & Hk & Hv). exists k. pose proof (fo_cached _ _ _ _ _ Hf) as Hb'. rewrite Hb in Hb'. injection Hb' as ->.
  rewrite <-(fcmh_repls_table _ _ Ht), (fcmh_repls_table _ _ (fo_table _ _ _ _ _ Hf)) in *. done.
Qed.

(** The state [s4] after an update of [s] that left the bmap [b4] with the
    states of [b3], and the metafile [d]. *)
Record updated (s s4 : cwstate T DI D) (L : list Z) (ref : Z) (b3 b4 : bmap) (d : D) : Prop := {
  up_ls : cw_ls s4 = ls_with_misc (cw_ls s) (ls_opcnt (cw_ls s)) (ls_tt (cw_ls s)) (ls_coh (cw_ls s)) (ls_env (cw_ls s4));
  up_table : table_is (fs_ino (cw_fs s4)) L;
  up_cached : fs_bmaps (cw_fs s4) !! bno = Some b4;
  up_same : same_but_repls b3 b4;
  up_wf : repls_wf (bmi_repls b4);
  up_stat j : 0 ≤ j < 64 → stat b4 j = stat b3 j;
  up_size : fs_size (cw_fs s4) = fs_size (cw_fs s);
  up_refs : fs_refs (cw_fs s4) = <[bno := ref]> (fs_refs (cw_fs s));
  up_disk : fs_disk (cw_fs s4) = d;
  up_gen : cw_gen s4 = cw_gen s;
}.

Lemma wp_crc_tail L (k : nat) iosid flags (rc : Z) s ref b3 d s3 :
  updated s s3 L ref b3 b3 d → 0 ≤ fs_size (cw_fs s) → NoDup L → L !! k = Some iosid →
  fs_fid (cw_fs s3) = fs_fid (cw_fs s) → cw_wake s3 = cw_wake s →
  hasf (bcm_flags b3) BMAPF_REPLMODWR = false → (∀ j, 0 ≤ j < 64 → stat b3 j ∈ plain_states) →
  wp (_ ← whenM (hasf flags SRM_BMAPCRCWRT_PTRUNC) (crc_ptrunc cfg bno iosid); _ ← crc_clear_setid rcs; mret rc)
    (λ rc' s4, rc' = rc ∧ (∃ b4, updated s s4 L ref b3 b4 d) ∧
       (mode_rc rcs = 0 → hasf (cw_mode s4) (Z.lor S_ISGID S_ISUID) = false) ∧
       (hasf flags SRM_BMAPCRCWRT_PTRUNC = true → fs_in_ptrunc (cw_fs s4) = false ∧ cw_wake s4 = fs_fid (cw_fs s) :: cw_wake s)) s3.
Proof.
  intros [Hls Ht Hb Hsame Hwf Hst Hsz Hr Hd Hg] Hpos Hnd Hk Hfid Hwk Hmod Hpl. wp_step.
  eapply (wp_mono _ (λ _ s4, (∃ b4, updated s s4 L ref b3 b4 d) ∧
    (hasf flags SRM_BMAPCRCWRT_PTRUNC = true → fs_in_ptrunc (cw_fs s4) = false ∧ cw_wake s4 = fs_fid (cw_fs s) :: cw_wake s))).
  { apply wp_when; intros Hpt; [|split; [by exists b3|congruence]].
    apply (wp_crc_ptrunc_plain iosid L k b3); try done; [by rewrite Hsz|].
    intros s' b' Hls' Ht' Hb' Hs' Hwf' Hst' Hsz' Hr' Hd' Hp' Hwk' Hg'. rewrite Hwk', Hfid, Hwk. split; [|done]. exists b'.
    split; try congruence; try done. etransitivity; [exact Hls'|]. by rewrite Hls. }
  intros _ s4 [[b4 Hup] Hpt]. unfold crc_clear_setid. wp_step. do 2 wp_step.
  apply wp_when; intros Hset; wp_step; (split_and!; [done|..|done]).
  - exists b4. by destruct Hup.
  - intros _. cbn. rewrite hasf_clrf. apply hasf_0_r.
  - by exists b4.
  - intros Hz. rewrite Hz, Z.eqb_refl, andb_true_r in Hset. done.
Qed.

Lemma updated_good s s4 A L (k : nat) b b3 b4 iosid ref d :
  linv (cw_ls s) A → file_ok gc bno (ls_env (cw_ls s)) L b → fs_refs (cw_fs s) !! bno = Some ref → L !! k = Some iosid →
  (∀ j, (j < length L)%nat → j ≠ k → stat b (Z.of_nat j) ≠ BREPLST_VALID) → ls_wr_ion (cw_ls s) = Some iosid →
  updated s s4 L (ref + 1) b3 b4 d → bod_replpol (bmi_od b3) ≠ BRPOL_PERSIST → hasf (bcm_flags b3) BMAPF_REPLMODWR = false →
  (∀ j, 0 ≤ j < 64 → stat b3 j ∈ plain_states) → stat b3 (Z.of_nat k) = BREPLST_VALID →
  (∀ j, (j < length L)%nat → j ≠ k → stat b3 (Z.of_nat j) ≠ BREPLST_VALID) →
  let s5 := cw_with_fs s4 (ref_add (cw_fs s4) bno (-1)) in
  linv (cw_ls s5) A ∧ ls_wr_ion (cw_ls s5) = Some iosid ∧ sole_copy bno (ls_env (cw_ls s5)) iosid ∧ fs_refs (cw_fs s5) = fs_refs (cw_fs s).
Proof.
  intros Hinv Hf Href Hk Hoth Hion [Hls Ht4 Hb4 Hsame Hwf4 Hst4 Hsz4 Href4 Hd4 _] Hpol3 Hmod3 Hpl3 Hv3 Hoth3 s5.
  pose proof (lookup_lt_Some _ _ _ Hk) as Hlt. pose proof (table_length _ _ Ht4) as Hmax.
  assert (Hf5 : file_ok gc bno (ls_env (cw_ls s5)) L b4).
  { destruct Hsame as (_ & Hfl4 & Hod4 & _). eapply (file_ok_bmap _ _ L b b4 k Hf Hlt); try done.
    - by rewrite Hfl4.
    - by rewrite Hod4.
    - intros j Hj. rewrite Hst4 by done. by apply Hpl3. }
  assert (Hs5 : sole_copy bno (ls_env (cw_ls s5)) iosid).
  { exists L, b4, k. split_and!; try done; [rewrite Hst4; [done|lia]|intros j Hj Hne; rewrite Hst4; [by apply Hoth3|lia]]. }
  assert (Hl5 : cw_ls s5 = ls_with_misc (cw_ls s) (ls_opcnt (cw_ls s)) (ls_tt (cw_ls s)) (ls_coh (cw_ls s)) (ls_env (cw_ls s5)))
    by (unfold s5; cbn; by rewrite Hls).
  split_and!; [|by rewrite Hl5|done|].
  - rewrite Hl5. apply linv_env; [done|by exists L, b4|]. intros i Hi. destruct (sole_copy_file _ _ _ _ Hf Hi) as (k' & Hk' & Hv' & _).
    destruct (decide (k' = k)) as [->|Hne]; [by rewrite Hk in Hk'; injection Hk' as <-|]. destruct (Hoth k' (lookup_lt_Some _ _ _ Hk') Hne Hv').
  - unfold s5. cbn. rewrite Href4, lookup_insert_eq, insert_insert_eq. cbn. replace (ref + 1 + -1) with ref by lia. by apply insert_id.
Qed.

Lemma bound_sole (l : lstate T (fenv DI D)) A iosid :
  linv l A → nwriters A ≠ 0 → ls_wr_ion l = Some iosid → sole_copy bno (ls_env l) iosid.
Proof.
  intros Hinv Hnw%Z.eqb_neq Hion. pose proof (li_bound _ _ Hinv) as Hbd. unfold bound in Hbd. rewrite Hnw in Hbd.
  destruct Hbd as (ion & elem & Hion' & _ & Hia & (_ & _ & _ & _ & Hsole) & _).
  rewrite Hion in Hion'. injection Hion' as <-. rewrite Hia in Hsole. exact Hsole.
Qed.

(** An update that is accepted, with what the next one relies on. *)
Lemma wp_crc_write_ok c iosid flags s A b ref :
  rcs_ok → cached s b ref → linv (cw_ls s) A → nwriters A ≠ 0 → ls_wr_ion (cw_ls s) = Some iosid →
  hasf (bcm_flags b) BMAPF_CRC_UP = false → Z.of_nat (length (bod_crcs (bmi_od b))) = SLASH_CRCS_PER_BMAP →
  Forall (λ e, 0 ≤ slot e < SLASH_CRCS_PER_BMAP) (crcs c) →
  wp (mds_bmap_crc_write cfg nonce bno rcs c (cw_gen s) iosid flags) (λ rc s',
    linv (cw_ls s') A ∧ ls_wr_ion (cw_ls s') = Some iosid ∧ sole_copy bno (ls_env (cw_ls s')) iosid ∧
    fs_refs (cw_fs s') = fs_refs (cw_fs s) ∧
    (mode_rc rcs = 0 → hasf (cw_mode s') (Z.lor S_ISGID S_ISUID) = false) ∧
    (hasf flags SRM_BMAPCRCWRT_PTRUNC = true → fs_in_ptrunc (cw_fs s') = false ∧ cw_wake s' = fs_fid (cw_fs s) :: cw_wake s) ∧
    ∃ b' o rc0 nb lg, fs_bmaps (cw_fs s') !! bno = Some b' ∧
      (∀ i, (i < length (bod_crcs (bmi_od b)))%nat → bod_crcs (bmi_od b') !! i =
         match last_crc (crcs c) (Z.of_nat i) with Some x => Some x | None => bod_crcs (bmi_od b) !! i end) ∧
      bod_crcs o = bod_crcs (bmi_od b') ∧
      pwritev_bmap (fs_disk (cw_fs s)) (bcm_bmapno b) o (crc64_bmap o) = (rc0, nb, lg, fs_disk (cw_fs s')) ∧
      rc = (if (rc0 =? 0) && negb (nb =? BMAP_OD_SZ) then SLERR_SHORTIO else rc0) ∧
      hasf (bcm_flags b') BMAPF_CRC_UP = negb lg ∧
      cw_gen s' = cw_gen s ∧ cached s' b' ref ∧ length (bod_crcs (bmi_od b')) = length (bod_crcs (bmi_od b))) s.
Proof.
  intros Hok Hc Hinv Hnw Hion Hup Hlen Hsl. pose proof Hc as (Hb & Href & Hpos & Hfl).
  destruct (li_env _ _ Hinv) as (L & b0 & Hf). pose proof (fo_cached _ _ _ _ _ Hf) as Hb0.
  assert (b0 = b) as -> by (change (fs_bmaps (cw_fs s) !! bno = Some b0) in Hb0; congruence). clear Hb0.
  pose proof (bound_sole _ _ _ Hinv Hnw Hion) as Hsole.
  destruct (sole_copy_file _ _ _ _ Hf Hsole) as (k & Hk & Hv & Hoth). pose proof (lookup_lt_Some _ _ _ Hk) as Hlt.
  apply (wp_crc_write_frame c iosid flags s b ref); [done..|]. set (s1 := cw_with_fs s _).
  unfold crc_write_bmap. do 2 wp_step. unfold crc_write_admits. change (ls_wr_ion (cw_ls s1)) with (ls_wr_ion (cw_ls s)).
  rewrite bool_decide_true by done. cbn [negb]. wp_step. apply wp_onFs. eapply (wp_onBmap bno b); [done|]. do 2 wp_step. wp_step. cbn [ms_b to_ms].
  rewrite of_ms_id by done. rewrite Hup, cw_with_fs_id. cbv iota. wp_step. apply wp_onFs. unfold or_flags. unfold wp at 1.
  rewrite (onBmap_modB _ _ _ b) by done. set (b1 := b_with_flags b _). set (fs2 := fs_with_cache _ _ _). wp_step. apply wp_onFs.
  destruct Hok as (-> & -> & _).
  eapply (wp_crc_update_file cfg bno (nblks_rc rcs) L k iosid c fs2 b1); try done; [apply Hf|apply Hf|apply Hf|apply lookup_insert_eq|apply Hf|..].
  { unfold b1. cbn. rewrite hasf_setf. pose proof (fo_flags _ _ _ _ _ Hf) as Hm. by rewrite Hm. }
  { unfold b1. cbn. rewrite hasf_setf. apply orb_true_r. }
  intros rc lg fs3 b3 (Ht3 & Hbm3 & Href3 & Hfid3 & Hsz3 & _ & _ & _ & f & ms & ms' & Hnr & Hms & Hms' & Hd & Hd' & Hp).
  subst b3. pose proof (crc_post_file _ _ _ _ _ _ _ _ _ _ Hf Hnr Hms Hp Hlt Hv) as (Hpol3 & Hmod3 & Hup3 & Hpl3 & Hv3 & Hoth3).
  destruct Hp as (Hwf3 & _ & _ & Hfl3 & _ & Hlen3 & Hcrc3 & (rc0 & nb & Hw3 & Hrc3) & _). rewrite Hms in Hcrc3, Hw3, Hfl3, Hlen3. rewrite Hd, Hd' in Hw3.
  eapply wp_mono; [eapply (wp_crc_tail L k iosid flags rc s (ref + 1) (ms_b ms') (fs_disk fs3)); try done; [|apply Hf|apply Hf]|].
  { split; try done.
    - change (fs_bmaps fs3 !! bno = Some (ms_b ms')). rewrite Hbm3. apply lookup_insert_eq.
    - apply same_but_repls_refl.
    - change (fs_refs fs3 = <[bno := ref + 1]> (fs_refs (cw_fs s))). rewrite Href3. cbn. by rewrite Href. }
  intros rc' s4 (-> & (b4 & Hupd) & Hmode & Hpt).
  destruct (updated_good s s4 A L k b (ms_b ms') b4 iosid ref (fs_disk fs3)) as (Hl5 & Hi5 & Hs5 & Hr5); try done.
  split; [apply Hupd|]. split_and!; try done. destruct (up_same _ _ _ _ _ _ _ Hupd) as (Hno4 & Hfl4 & Hod4 & _).
  exists b4, (bmi_od (ms_b ms')), rc0, nb, lg. split_and!; try done.
  - apply Hupd.
  - intros i Hi. rewrite Hod4. by apply Hcrc3.
  - by rewrite Hod4.
  - rewrite <-(up_disk _ _ _ _ _ _ _ Hupd) in Hw3. exact Hw3.
  - by rewrite Hfl4.
  - apply (up_gen _ _ _ _ _ _ _ Hupd).
  - split; [apply Hupd|]. split; [by rewrite Hr5|]. split; [done|]. rewrite Hfl4, Hfl3. unfold b1. cbn. destruct lg; rewrite ?hasf_clrf, hasf_setf; [change (Z.ldiff _ _) with (Z.lor BMAPF_INIT BMAPF_MODECHNG)|]; by rewrite Hfl.
  - rewrite Hod4. exact Hlen3.
Qed.

(** C9: an accepted update. Let the bmap be in memory, have writers and be
    bound to the system that reports, in a file without replication requests
    under the one-time policy ([linv]); let no other update be under way
    ([BMAPF_CRC_UP] is clear) and the slots of the report be in the table. The
    handler finishes; the CRCs of the batch are stored and written, the
    reporting system still has the only valid copy, the lease invariant holds
    for the same leases, the reference count of the bmap is as before, the
    set-id bits of the mode are off when the attributes could be written, and a
    report for a partial truncation ends it. The result is the backend's. The mark of an update under way is off again only if
    the backend called the log function: a failed write leaves it set, and
    then every later update is refused. *)
Theorem crc_write_accepted c iosid flags s A b ref :
  rcs_ok → cached s b ref → linv (cw_ls s) A → nwriters A ≠ 0 → ls_wr_ion (cw_ls s) = Some iosid →
  hasf (bcm_flags b) BMAPF_CRC_UP = false → Z.of_nat (length (bod_crcs (bmi_od b))) = SLASH_CRCS_PER_BMAP →
  Forall (λ e, 0 ≤ slot e < SLASH_CRCS_PER_BMAP) (crcs c) →
  wp (mds_bmap_crc_write cfg nonce bno rcs c (cw_gen s) iosid flags) (λ rc s',
    linv (cw_ls s') A ∧ ls_wr_ion (cw_ls s') = Some iosid ∧ sole_copy bno (ls_env (cw_ls s')) iosid ∧
    fs_refs (cw_fs s') = fs_refs (cw_fs s) ∧
    (mode_rc rcs = 0 → hasf (cw_mode s') (Z.lor S_ISGID S_ISUID) = false) ∧
    (hasf flags SRM_BMAPCRCWRT_PTRUNC = true → fs_in_ptrunc (cw_fs s') = false ∧ cw_wake s' = fs_fid (cw_fs s) :: cw_wake s) ∧
    ∃ b' o rc0 nb lg, fs_bmaps (cw_fs s') !! bno = Some b' ∧
      (∀ i, (i < length (bod_crcs (bmi_od b)))%nat → bod_crcs (bmi_od b') !! i =
         match last_crc (crcs c) (Z.of_nat i) with Some x => Some x | None => bod_crcs (bmi_od b) !! i end) ∧
      bod_crcs o = bod_crcs (bmi_od b') ∧
      pwritev_bmap (fs_disk (cw_fs s)) (bcm_bmapno b) o (crc64_bmap o) = (rc0, nb, lg, fs_disk (cw_fs s')) ∧
      rc = (if (rc0 =? 0) && negb (nb =? BMAP_OD_SZ) then SLERR_SHORTIO else rc0) ∧
      hasf (bcm_flags b') BMAPF_CRC_UP = negb lg) s.
Proof.
  intros Hok Hc Hinv Hnw Hion Hup Hlen Hsl. eapply wp_mono; [by apply (wp_crc_write_ok c iosid flags s A b ref)|].
  intros rc s' (? & ? & ? & ? & ? & ? & b' & o & rc0 & nb & lg & ? & ? & ? & ? & ? & ? & _). split_and!; try done. by exists b', o, rc0, nb, lg.
Qed.

(** The range check of the request handler.  Let a report come from the
    system the bmap is bound to, with a slot that is not one of the 128 of a
    bmap.  [slm_rmi_handle_bmap_crcwrt] notices it and sets the result of the
    entry to [-ERANGE], but calls [mds_bmap_crc_write] all the same, which
    stores the CRC beyond the end of the table. *)
Theorem crcwrt_range_unchecked s A b ref iosid flags (e : crcup_entry) l :
  rcs_ok → cached s b ref → linv (cw_ls s) A → nwriters A ≠ 0 → ls_wr_ion (cw_ls s) = Some iosid →
  hasf (bcm_flags b) BMAPF_CRC_UP = false → ce_gen e = cw_gen s → ce_nups e = Z.of_nat (length (crcs (ce_up e))) →
  Exists (λ c, SLASH_CRCS_PER_BMAP ≤ slot c) (crcs (ce_up e)) → Z.of_nat (length l) < MAX_BMAP_NCRC_UPDATES →
  slm_rmi_handle_bmap_crcwrt cfg nonce bno rcs 0 iosid flags ((ce_nups e, e) :: l) s = Stuck OutOfBounds.
Proof.
  intros Hok Hc Hinv Hnw Hion Hup Hgen Hn Hslot Hlen. pose proof Hok as (Hv1 & Hv2 & Hv3). pose proof Hc as (Hb & Href & Hpos & Hfl).
  destruct (li_env _ _ Hinv) as (L & b0 & Hf). pose proof (fo_cached _ _ _ _ _ Hf) as Hb0.
  assert (b0 = b) as -> by (change (fs_bmaps (cw_fs s) !! bno = Some b0) in Hb0; congruence). clear Hb0.
  pose proof (bound_sole _ _ _ Hinv Hnw Hion) as Hsole. destruct (sole_copy_file _ _ _ _ Hf Hsole) as (k & Hk & Hv & _).
  change (faults OutOfBounds (slm_rmi_handle_bmap_crcwrt cfg nonce bno rcs 0 iosid flags ((ce_nups e, e) :: l)) s).
  unfold slm_rmi_handle_bmap_crcwrt. cbn [length]. destruct (Z.gtb_spec (Z.of_nat (S (length l))) MAX_BMAP_NCRC_UPDATES); [lia|].
  cbn [Z.eqb negb crcwrt_loop]. do 2 apply faults_left. unfold crcwrt_one. rewrite Hn, Z.gtb_ltb, Z.ltb_irrefl, Nat2Z.id, take_ge by done.
  apply faults_left. unfold mds_bmap_crc_write. rewrite Hv1, Hv2, Hv3. cbn [Z.eqb negb]. apply faults_bind. wp_step.
  rewrite Hgen, Z.eqb_refl. cbn [negb]. apply faults_bind, wp_onFs. unfold wp at 1. rewrite (getf_hit _ _ _ _ _ _ _ b) by done.
  cbn [Z.eqb negb]. apply faults_left. set (s1 := cw_with_fs s _). unfold crc_write_bmap. apply faults_bind. wp_step.
  unfold crc_write_admits. change (ls_wr_ion (cw_ls s1)) with (ls_wr_ion (cw_ls s)). rewrite bool_decide_true by done. cbn [negb].
  apply faults_bind, wp_onFs. eapply (wp_onBmap bno b); [done|]. do 3 wp_step. cbn [ms_b to_ms]. rewrite of_ms_id by done. rewrite Hup, cw_with_fs_id.
  apply faults_bind, wp_onFs. unfold or_flags, wp at 1. rewrite (onBmap_modB _ _ _ b) by done. apply faults_left.
  unfold faults, onFs. rewrite Hv1, Hv2. rewrite (crc_update_out cfg bno _ L k _ _ _ (b_with_flags b (setf (bcm_flags b) BMAPF_CRC_UP))); [done|..]; try done; try apply Hf; [apply lookup_insert_eq|..].
  - cbn. rewrite hasf_setf. pose proof (fo_flags _ _ _ _ _ Hf) as Hm. by rewrite Hm.
  - cbn. rewrite hasf_setf. apply orb_true_r.
  - apply not_true_is_false. intros Hall%slots_ok_spec. apply Exists_exists in Hslot as (c & Hcin & Hcs).
    rewrite Forall_forall in Hall. specialize (Hall c Hcin). lia.
Qed.
End handler.

(** The file of [AssignEx] with a write lease of client 2, bound to system
    12; the mode is 04755. *)
Module CrcEx.
Definition lb : bmap_mds_lease :=
  {| bml_seq := 0; bml_refcnt := 1; bml_ios := 0; bml_cli_nidpid := LeaseEx.cli2; bml_flags := BML_WRITE;
     bml_start := 1000; bml_expire := 1000 + BMAP_TIMEO_MAX; bml_exp := true; bml_chain := 0 |}.
Abbreviation LSt := (lstate LeaseEx.table (fenv MemFile.mem MemBmaps.mem)).
Definition env : LeaseEnv (fenv MemFile.mem MemBmaps.mem) := fenv_lease_env SelEx.gc SelEx.sv 3 AssignEx.buf.
Definition granted : outcome (Z * LSt) :=
  mds_bmap_bml_add (H0 := env) 20 SL_WRITE 12 (ls_with_bmls AssignEx.idle {[ 20 := lb ]}).
Definition leased : LSt := match granted with Done (_, s) => s | Stuck _ => AssignEx.idle end.
Definition A : held := {[ LeaseEx.cli2 := [(20, true)] ]}.
Definition cw : cwstate LeaseEx.table MemFile.mem MemBmaps.mem :=
  {| cw_ls := leased; cw_gen := 1; cw_mode := 2541; cw_wake := [] |}.
Definition rcs : crcw_rcs := {| vfs_rc := 0; same_vfs := true; get_rc := 0; nblks_rc := 0; mode_rc := 0 |}.
Definition up (sl : Z) : srm_bmap_crcup :=
  {| fsize := 9; nblks := 1; utimgen := 0; extend := 0; crcs := [{| crc := 5; slot := sl |}] |}.
Definition b : bmap := match fs_bmaps (cw_fs cw) !! 3 with Some b => b | None => AssignEx.b0 end.
Lemma cached_cw : cached 3 cw b 1.
Proof. split_and!; vm_compute; reflexivity. Qed.
#[local] Existing Instance env.
#[local] Instance env_laws : LeaseEnvLaws (fenv MemFile.mem MemBmaps.mem) := fenv_laws SelEx.gc SelEx.sv 3 AssignEx.buf.
Lemma leased_linv : linv leased A.
Proof.
  pose proof (wp_bml_add (ls_with_bmls AssignEx.idle {[ 20 := lb ]}) ∅ LeaseEx.cli2 20 true lb 12) as Hw.
  assert (Hrc : match granted with Done (rc, _) => rc | Stuck _ => 1 end = 0) by (vm_compute; reflexivity).
  unfold leased. unfold wp, rw_of in Hw. fold granted in Hw. destruct granted as [[rc s']|]; [|done]. subst rc.
  destruct Hw as [(Hd & _)|(_ & Hl & _)]; try done.
  - apply (linv_new AssignEx.idle ∅ 20 lb); [apply AssignEx.file_idle_linv|]. intros c. by apply not_elem_of_nil.
  - split_and!; try done. by apply not_elem_of_nil.
  - by apply Hl.
Qed.
End CrcEx.

(** A report from system 11, which is not bound. *)
Lemma crc_write_refused_witness :
  mds_bmap_crc_write (res_types SelEx.gc) 1 3 CrcEx.rcs (CrcEx.up 2) 1 11 0 CrcEx.cw = Done (- EINVAL, CrcEx.cw).
Proof.
  apply (crc_write_refused (res_types SelEx.gc) 1 3 CrcEx.rcs (CrcEx.up 2) 1 11 0 CrcEx.cw CrcEx.b 1 (- EINVAL)).
  - by split.
  - exact CrcEx.cached_cw.
  - right. left. split; [reflexivity|]. split; [vm_compute; discriminate|reflexivity].
Defined.

(** A report from system 12 for sliver 2: the CRC is stored, the set-id bit
    is off, and the copy of system 12 is the only valid one. *)
Lemma crc_write_accepted_witness :
  ∃ s', mds_bmap_crc_write (res_types SelEx.gc) 1 3 CrcEx.rcs (CrcEx.up 2) 1 12 0 CrcEx.cw = Done (0, s') ∧
    sole_copy 3 (ls_env (cw_ls s')) 12 ∧ fs_refs (cw_fs s') = {[ 3 := 1 ]} ∧ hasf (cw_mode s') (Z.lor S_ISGID S_ISUID) = false ∧
    ∃ b', fs_bmaps (cw_fs s') !! 3 = Some b' ∧ bod_crcs (bmi_od b') !! 2%nat = Some 5.
Proof.
  pose proof (crc_write_accepted SelEx.gc SelEx.sv AssignEx.buf (res_types SelEx.gc) 1 3 CrcEx.rcs (CrcEx.up 2) 12 0 CrcEx.cw CrcEx.A CrcEx.b 1) as Hw.
  assert (Hrc : match mds_bmap_crc_write (res_types SelEx.gc) 1 3 CrcEx.rcs (CrcEx.up 2) 1 12 0 CrcEx.cw with
                | Done (rc, _) => rc | Stuck _ => 1 end = 0) by (vm_compute; reflexivity).
  unfold wp in Hw. change (cw_gen CrcEx.cw) with 1 in Hw.
  destruct (mds_bmap_crc_write _ _ _ _ _ _ _ _ CrcEx.cw) as [[rc s']|]; [|done]. subst rc.
  destruct Hw as (_ & _ & Hs & Hr & Hm & _ & b' & o & rc0 & nb & lg & Hb' & Hcrc & _).
  - by split.
  - exact CrcEx.cached_cw.
  - exact CrcEx.leased_linv.
  - vm_compute. discriminate.
  - vm_compute. reflexivity.
  - vm_compute. reflexivity.
  - vm_compute. reflexivity.
  - apply List.Forall_cons; [split; [discriminate|reflexivity]|apply List.Forall_nil].
  - exists s'. split; [done|]. split; [done|]. split; [rewrite Hr; vm_compute; reflexivity|]. split; [by apply Hm|].
    exists b'. split; [done|]. apply (Hcrc 2%nat). vm_compute. lia.
Defined.

(** A report from system 12 for sliver 128. *)
Lemma crcwrt_range_unchecked_witness :
  slm_rmi_handle_bmap_crcwrt (res_types SelEx.gc) 1 3 CrcEx.rcs 0 12 0
    [(1, {| ce_gen := 1; ce_nups := 1; ce_up := CrcEx.up 128 |})] CrcEx.cw = Stuck OutOfBounds.
Proof.
  apply (crcwrt_range_unchecked SelEx.gc SelEx.sv AssignEx.buf (res_types SelEx.gc) 1 3 CrcEx.rcs CrcEx.cw CrcEx.A CrcEx.b 1 12 0
           {| ce_gen := 1; ce_nups := 1; ce_up := CrcEx.up 128 |} []).
  - by split.
  - exact CrcEx.cached_cw.
  - exact CrcEx.leased_linv.
  - vm_compute. discriminate.
  - vm_compute. reflexivity.
  - vm_compute. reflexivity.
  - reflexivity.
  - reflexivity.
  - apply List.Exists_cons_hd. vm_compute. discriminate.
  - reflexivity.
Defined.
