(* ===== verification/Batch.v ===== *)
(** * Batched requests to I/O servers ([batchrq_add] and its helpers in
      [slashd/rpc_mds.c])

    Work for an I/O server is collected in a buffer, which is sent when it is
    full or when its time is over.  The batch then waits for the RPC to
    complete and for the reply that the server sends when the work is done;
    its callback runs when the last reference is dropped.  The callbacks of
    RPCs only queue work items, which a worker thread runs later. *)
From S2P Require Import Prelude.

(** ** Data *)
Definition SRMT_REPL_SCHEDWK : Z := 23.
Definition SRMT_PRECLAIM : Z := 48.
Definition SRMT_BATCH_RQ : Z := 49.
Definition BATCHF_RQINFL : Z := Z.shiftl 1 0.
Definition BATCHF_WAITREPLY : Z := Z.shiftl 1 1.
Definition ECONNRESET : Z := 104.

(** [struct batchrq]; [br_ents] is the content of [br_buf], [br_opc] the
    opcode in the request's body, and [br_rq] says whether the request is
    attached. *)
Record batchrq (E : Type) := {
  br_bid : Z;
  br_res : Z;
  br_opc : Z;
  br_expire : Z;
  br_rq : bool;
  br_flags : Z;
  br_refcnt : Z;
  br_rc : Z;
  br_ents : list E;
  br_len : Z;
}.
Arguments br_bid {_}. Arguments br_res {_}. Arguments br_opc {_}. Arguments br_expire {_}. Arguments br_rq {_}.
Arguments br_flags {_}. Arguments br_refcnt {_}. Arguments br_rc {_}. Arguments br_ents {_}. Arguments br_len {_}.

(** The items of the worker queue: [batchrq_finish_wkcb] with its code and
    [batchrq_waitreply_wkcb]. *)
Inductive bwork := BwFinish (bid rc : Z) | BwWaitReply (bid : Z).
#[global] Instance bwork_eq_dec : EqDecision bwork.
Proof. solve_decision. Defined.

(** The batches by address (the batch ID), the lists
    [res2rpmi(r)->rpmi_batchrqs] by resource, [batchrqs_delayed],
    [batchrqs_waitreply], the RPCs that were sent and not completed, the worker
    queue, the callbacks that ran (the last one first), and the references to
    the connections by resource. *)
Record bmgr (E : Type) := {
  bm_bid : Z;
  bm_brs : gmap Z (batchrq E);
  bm_res : gmap Z (list Z);
  bm_delayed : list Z;
  bm_waitreply : list Z;
  bm_rpcs : list Z;
  bm_work : list bwork;
  bm_done : list (batchrq E);
  bm_csvc : gmap Z Z;
}.
Arguments bm_bid {_}. Arguments bm_brs {_}. Arguments bm_res {_}. Arguments bm_delayed {_}. Arguments bm_waitreply {_}.
Arguments bm_rpcs {_}. Arguments bm_work {_}. Arguments bm_done {_}. Arguments bm_csvc {_}.

(** Of the PFL library: the size of the largest bulk transfer, and the place
    [lc_add_sorted] gives a new item, by the comparison function. *)
Class PflList := {
  LNET_MTU : Z;
  lc_add_sorted : (Z → Z → Z) → Z → list Z → list Z;
}.
Class PflListLaws `{PflList} := {
  mtu_pos : 0 < LNET_MTU;
  lc_add_sorted_perm cmp x l : lc_add_sorted cmp x l ≡ₚ x :: l;
}.

(** ** Operations *)
Section ops.
Context {E : Type} `{PflList}.
Abbreviation BS := (bmgr E).
Abbreviation BM := (M BS).

Definition br_upd (b : batchrq E) (rq : bool) (fl refcnt rc : Z) : batchrq E :=
  {| br_bid := br_bid b; br_res := br_res b; br_opc := br_opc b; br_expire := br_expire b; br_rq := rq; br_flags := fl;
     br_refcnt := refcnt; br_rc := rc; br_ents := br_ents b; br_len := br_len b |}.
Definition bm_with_brs (s : BS) (m : gmap Z (batchrq E)) : BS :=
  {| bm_bid := bm_bid s; bm_brs := m; bm_res := bm_res s; bm_delayed := bm_delayed s; bm_waitreply := bm_waitreply s;
     bm_rpcs := bm_rpcs s; bm_work := bm_work s; bm_done := bm_done s; bm_csvc := bm_csvc s |}.
Definition bm_with_lists (s : BS) (dl wr : list Z) : BS :=
  {| bm_bid := bm_bid s; bm_brs := bm_brs s; bm_res := bm_res s; bm_delayed := dl; bm_waitreply := wr;
     bm_rpcs := bm_rpcs s; bm_work := bm_work s; bm_done := bm_done s; bm_csvc := bm_csvc s |}.
Definition bm_with_queues (s : BS) (rpcs : list Z) (wk : list bwork) : BS :=
  {| bm_bid := bm_bid s; bm_brs := bm_brs s; bm_res := bm_res s; bm_delayed := bm_delayed s; bm_waitreply := bm_waitreply s;
     bm_rpcs := rpcs; bm_work := wk; bm_done := bm_done s; bm_csvc := bm_csvc s |}.
Definition bm_with_csvc (s : BS) (c : gmap Z Z) : BS :=
  {| bm_bid := bm_bid s; bm_brs := bm_brs s; bm_res := bm_res s; bm_delayed := bm_delayed s; bm_waitreply := bm_waitreply s;
     bm_rpcs := bm_rpcs s; bm_work := bm_work s; bm_done := bm_done s; bm_csvc := c |}.

(** A batch that was freed is a dangling pointer. *)
Definition getBr (bid : Z) : BM (batchrq E) := λ s,
  match bm_brs s !! bid with Some b => Done (b, s) | None => Stuck NullDeref end.
Definition setBr (bid : Z) (b : batchrq E) : BM unit := modifyM (λ s, bm_with_brs s (<[bid := b]> (bm_brs s))).

(** References to the connection of a resource. *)
Definition csvc_adj (r k : Z) : BM unit := modifyM (λ s, bm_with_csvc s (<[r := default 0 (bm_csvc s !! r) + k]> (bm_csvc s))).
Definition sl_csvc_decref (r : Z) : BM unit := csvc_adj r (-1).

(** [lc_remove]: the item must be on the list it is removed from. *)
Definition lc_remove (bid : Z) (l : list Z) : BM (list Z) :=
  _ ← psc_assert (bool_decide (bid ∈ l)); mret (filter (λ x, x ≠ bid) l).

Definition batchrq_cmp (s : BS) (a b : Z) : Z :=
  match bm_brs s !! a, bm_brs s !! b with
  | Some pa, Some pb => if br_expire pa <? br_expire pb then 1 else 0
  | _, _ => 0
  end.

(** [batchrq_decref]; the callback gets the batch with its code. *)
Definition batchrq_decref (bid rc : Z) : BM unit :=
  b ← getBr bid;
  let b := br_upd b (br_rq b) (br_flags b) (br_refcnt b) (if br_rc b =? 0 then rc else br_rc b) in
  _ ← psc_assert (br_refcnt b >? 0);
  let b := br_upd b (br_rq b) (br_flags b) (br_refcnt b - 1) (br_rc b) in
  if br_refcnt b =? 0 then
    s ← getM;
    _ ← (if hasf (br_flags b) (Z.lor BATCHF_WAITREPLY BATCHF_RQINFL)
         then l ← lc_remove bid (bm_waitreply s); modifyM (λ s, bm_with_lists s (bm_delayed s) l)
         else l ← lc_remove bid (bm_delayed s); modifyM (λ s, bm_with_lists s l (bm_waitreply s)));
    l ← lc_remove bid (default [] (bm_res s !! br_res b));
    _ ← sl_csvc_decref (br_res b);
    modifyM (λ s, {| bm_bid := bm_bid s; bm_brs := delete bid (bm_brs s); bm_res := <[br_res b := l]> (bm_res s);
                     bm_delayed := bm_delayed s; bm_waitreply := bm_waitreply s; bm_rpcs := bm_rpcs s;
                     bm_work := bm_work s; bm_done := b :: bm_done s; bm_csvc := bm_csvc s |})
  else setBr bid b.

(** [batchrq_send]; [bulk_rc] and [add_rc] are the results of
    [slrpc_bulkclient] and [SL_NBRQSET_ADD]. *)
Definition batchrq_send (bulk_rc add_rc bid : Z) : BM unit :=
  b ← getBr bid;
  _ ← setBr bid (br_upd b false (setf (br_flags b) BATCHF_RQINFL) (br_refcnt b + 1) (br_rc b));
  s ← getM;
  l ← lc_remove bid (bm_delayed s);
  _ ← modifyM (λ s, bm_with_lists s l (bm_waitreply s ++ [bid]));
  let rc := if negb (bulk_rc =? 0) then bulk_rc else add_rc in
  if rc =? 0 then modifyM (λ s, bm_with_queues s (bm_rpcs s ++ [bid]) (bm_work s))
  else
    b ← getBr bid;
    _ ← setBr bid (br_upd b true (clrf (br_flags b) BATCHF_RQINFL) (br_refcnt b - 1) (br_rc b));
    batchrq_decref bid rc.

(** The search of [batchrq_add]: the opcode it compares with is that of the
    RPC, which is [SRMT_BATCH_RQ] for every batch. *)
Definition batch_open (s : BS) (opc : Z) (bid : Z) : bool :=
  match bm_brs s !! bid with
  | Some b => negb (hasf (br_flags b) (Z.lor BATCHF_RQINFL BATCHF_WAITREPLY)) && (opc =? SRMT_BATCH_RQ)
  | None => false
  end.

(** [batchrq_add]; [newreq_rc] is the result of [SL_RSX_NEWREQ], [now] the
    time in seconds. The caller hands over its reference to the connection. *)
Definition batchrq_add (newreq_rc bulk_rc add_rc now : Z) (r opc : Z) (e : E) (len expire : Z) : BM Z :=
  s ← getM;
  found ← (match filter (λ bid, batch_open s opc bid = true) (default [] (bm_res s !! r)) with
           | bid :: _ => _ ← sl_csvc_decref r; mret (Some bid)
           | [] =>
               if negb (newreq_rc =? 0) then mret None
               else
                 let bid := bm_bid s + 1 in
                 let b := {| br_bid := bid; br_res := r; br_opc := opc; br_expire := now + expire; br_rq := true; br_flags := 0;
                             br_refcnt := 1; br_rc := 0; br_ents := []; br_len := 0 |} in
                 let s1 := bm_with_brs s (<[bid := b]> (bm_brs s)) in
                 _ ← putM {| bm_bid := bid; bm_brs := bm_brs s1;
                             bm_res := <[r := default [] (bm_res s !! r) ++ [bid]]> (bm_res s);
                             bm_delayed := lc_add_sorted (batchrq_cmp s1) bid (bm_delayed s);
                             bm_waitreply := bm_waitreply s; bm_rpcs := bm_rpcs s; bm_work := bm_work s;
                             bm_done := bm_done s; bm_csvc := bm_csvc s |};
                 mret (Some bid)
           end);
  match found with
  | None => _ ← sl_csvc_decref r; mret newreq_rc
  | Some bid =>
      b ← getBr bid;
      _ ← setBr bid {| br_bid := br_bid b; br_res := br_res b; br_opc := br_opc b; br_expire := br_expire b; br_rq := br_rq b;
                       br_flags := br_flags b; br_refcnt := br_refcnt b; br_rc := br_rc b;
                       br_ents := br_ents b ++ [e]; br_len := br_len b + len |};
      _ ← whenM (br_len b + len + len >? LNET_MTU) (batchrq_send bulk_rc add_rc bid);
      mret 0
  end.

(** [batchrq_sched_finish], [batchrq_sched_waitreply]: queue a work item. *)
Definition batchrq_sched (w : bwork) : BM unit := modifyM (λ s, bm_with_queues s (bm_rpcs s) (bm_work s ++ [w])).

(** [sl_batchrqsend_cb], when the RPC of the batch completes with [rc]. *)
Definition sl_batchrqsend_cb (bid rc : Z) : BM unit :=
  _ ← getBr bid;
  _ ← modifyM (λ s, bm_with_queues s (filter (λ x, x ≠ bid) (bm_rpcs s)) (bm_work s));
  if negb (rc =? 0) then batchrq_sched (BwFinish bid rc) else batchrq_sched (BwWaitReply bid).

(** [sl_handle_batchrp]: the reply [mq] with its length, code and batch ID;
    [bulk_rc] is the result of [slrpc_bulkserver]. *)
Definition sl_handle_batchrp (len mq_rc bid bulk_rc : Z) : BM Z :=
  let rc0 := if (len <? 0) || (len >? LNET_MTU) then - EINVAL else 0 in
  s ← getM;
  if bool_decide (bid ∈ bm_waitreply s) then
    let rc := if rc0 =? 0 then bulk_rc else rc0 in
    _ ← batchrq_sched (BwFinish bid (if negb (mq_rc =? 0) then mq_rc else rc));
    mret rc
  else mret (- EINVAL).

(** The worker takes the next item. *)
Definition batch_work (w : bwork) : BM unit :=
  match w with
  | BwFinish bid rc => batchrq_decref bid rc
  | BwWaitReply bid =>
      b ← getBr bid;
      _ ← setBr bid (br_upd b (br_rq b) (setf (clrf (br_flags b) BATCHF_RQINFL) BATCHF_WAITREPLY) (br_refcnt b) (br_rc b));
      batchrq_decref bid 0
  end.
Definition batch_worker : BM unit :=
  s ← getM;
  match bm_work s with
  | [] => mret tt
  | w :: l => _ ← putM (bm_with_queues s (bm_rpcs s) l); batch_work w
  end.

(** A round of [slmbchrqthr_main]: the first batch that waits is sent when
    its time is over. *)
Definition slmbchrqthr_round (bulk_rc add_rc now : Z) : BM unit :=
  s ← getM;
  match bm_delayed s with
  | [] => mret tt
  | bid :: _ => b ← getBr bid; whenM (now >? br_expire b) (batchrq_send bulk_rc add_rc bid)
  end.

(** The batches of a resource whose connection is lost, in
    [sl_resm_hldrop]. *)
Definition hldrop_batches (r : Z) : BM unit :=
  modifyM (λ s, bm_with_queues s (bm_rpcs s)
                  (bm_work s ++ ((λ bid, BwFinish bid (- ECONNRESET)) <$> default [] (bm_res s !! r)))).
End ops.


(** ** The life of a batch

    The runs in which the transport works: requests are created or refused,
    what is sent completes with success, and the server sends one reply for
    each batch it got.  The caller of [batchrq_add] holds a reference to the
    connection, which it hands over.  [R] has the batches that were replied to
    and [A] the entries that were accepted. *)
Section life.
Context {E : Type} `{PflList}.

Definition bmgr_init : bmgr E :=
  {| bm_bid := 0; bm_brs := ∅; bm_res := ∅; bm_delayed := []; bm_waitreply := []; bm_rpcs := []; bm_work := [];
     bm_done := []; bm_csvc := ∅ |}.

Inductive batch_run : bmgr E → gset Z → list E → Prop :=
| run_init : batch_run bmgr_init ∅ []
| run_add s R A newreq_rc now r opc e len expire rc s' :
    batch_run s R A →
    (_ ← csvc_adj r 1; batchrq_add newreq_rc 0 0 now r opc e len expire) s = Done (rc, s') →
    batch_run s' R (if rc =? 0 then e :: A else A)
| run_round s R A now s' :
    batch_run s R A → slmbchrqthr_round 0 0 now s = Done (tt, s') → batch_run s' R A
| run_sent s R A bid s' :
    batch_run s R A → bid ∈ bm_rpcs s → sl_batchrqsend_cb bid 0 s = Done (tt, s') → batch_run s' R A
| run_reply s R A len mq_rc bid bulk_rc rc s' :
    batch_run s R A → bid ∈ bm_waitreply s → bid ∉ R →
    sl_handle_batchrp len mq_rc bid bulk_rc s = Done (rc, s') → batch_run s' ({[bid]} ∪ R) A
| run_work s R A s' :
    batch_run s R A → batch_worker s = Done (tt, s') → batch_run s' R A.

(** The steps of the server and of the network among these: everything but a new
    entry. *)
Inductive batch_step : bmgr E * gset Z → bmgr E * gset Z → Prop :=
| bs_round s R now s' : slmbchrqthr_round 0 0 now s = Done (tt, s') → batch_step (s, R) (s', R)
| bs_sent s R bid s' : bid ∈ bm_rpcs s → sl_batchrqsend_cb bid 0 s = Done (tt, s') → batch_step (s, R) (s', R)
| bs_reply s R len mq_rc bid bulk_rc rc s' :
    bid ∈ bm_waitreply s → bid ∉ R → sl_handle_batchrp len mq_rc bid bulk_rc s = Done (rc, s') → batch_step (s, R) (s', {[bid]} ∪ R)
| bs_work s R s' : batch_worker s = Done (tt, s') → batch_step (s, R) (s', R).

(** What is outstanding for a batch: the completion of its RPC, until the
    worker has seen it, and replies the worker has not seen. *)
Definition wait_of (bid : Z) (w : bwork) : bool := match w with BwWaitReply b => b =? bid | _ => false end.
Definition fin_of (bid : Z) (w : bwork) : bool := match w with BwFinish b _ => b =? bid | _ => false end.
Definition owed (s : bmgr E) (bid : Z) : Z := cnt (Z.eqb bid) (bm_rpcs s) + cnt (wait_of bid) (bm_work s).
Definition fins (s : bmgr E) (bid : Z) : Z := cnt (fin_of bid) (bm_work s).
Definition live (s : bmgr E) : list (batchrq E) := (map_to_list (bm_brs s)).*2.

(** A batch that collects entries, and one that was sent. *)
Definition br_open (b : batchrq E) : Prop := br_flags b = 0 ∧ br_refcnt b = 1.
Definition br_sent (b : batchrq E) (replied : bool) (o f : Z) : Prop :=
  0 ≤ o ≤ 1 ∧ 0 ≤ f ≤ 1 ∧ (replied = false → f = 0) ∧
  br_flags b = (if o =? 1 then BATCHF_RQINFL else BATCHF_WAITREPLY) ∧
  br_refcnt b = o + (if replied then f else 1) ∧ 0 < br_refcnt b.

Record batch_core (O F : Z → Z) (s : bmgr E) (R : gset Z) (A : list E) : Prop := {
  bc_nodup : NoDup (bm_delayed s ++ bm_waitreply s);
  bc_dom bid : bid ∈ bm_delayed s ++ bm_waitreply s ↔ is_Some (bm_brs s !! bid);
  bc_br bid b : bm_brs s !! bid = Some b → br_bid b = bid ∧ bid ≤ bm_bid s ∧ bid ∈ default [] (bm_res s !! br_res b);
  bc_open bid b : bm_brs s !! bid = Some b → bid ∈ bm_delayed s → br_open b ∧ O bid = 0 ∧ F bid = 0 ∧ bid ∉ R;
  bc_sent bid b : bm_brs s !! bid = Some b → bid ∈ bm_waitreply s → br_sent b (bool_decide (bid ∈ R)) (O bid) (F bid);
  bc_live bid : bm_brs s !! bid = None → O bid = 0 ∧ F bid = 0;
  bc_R bid : bid ∈ R → bid ≤ bm_bid s;
  bc_done : NoDup (br_bid <$> bm_done s);
  bc_done_old b : b ∈ bm_done s → br_bid b ≤ bm_bid s ∧ bm_brs s !! br_bid b = None;
  bc_csvc r : default 0 (bm_csvc s !! r) = cnt (λ b, br_res b =? r) (live s);
  bc_ents : A ≡ₚ concat (br_ents <$> live s) ++ concat (br_ents <$> bm_done s);
}.
Definition batch_inv (s : bmgr E) : gset Z → list E → Prop := batch_core (owed s) (fins s) s.

Lemma wp_getBr bid b (Q : batchrq E → bmgr E → Prop) s : bm_brs s !! bid = Some b → Q b s → wp (getBr bid) Q s.
Proof. intros Hb HQ. unfold wp, getBr. by rewrite Hb. Qed.
Lemma wp_lc_remove bid l (Q : list Z → bmgr E → Prop) s :
  bid ∈ l → Q (filter (λ x, x ≠ bid) l) s → wp (lc_remove bid l) Q s.
Proof. intros Hin HQ. unfold lc_remove. wp_step. wp_step; [by apply bool_decide_eq_true|]. by wp_step. Qed.

(** What is left to do for the batches there are. *)
Definition pending (R : gset Z) (k : Z) : bool := negb (bool_decide (k ∈ R)).
Definition todo (R : gset Z) (s : bmgr E) : Z :=
  5 * Z.of_nat (length (bm_delayed s)) + 2 * Z.of_nat (length (bm_rpcs s)) + 2 * cnt (pending R) (bm_waitreply s) +
  Z.of_nat (length (bm_work s)).

(** *** The live batches *)
Lemma live_new s bid b : bm_brs s !! bid = None → live (bm_with_brs s (<[bid := b]> (bm_brs s))) ≡ₚ b :: live s.
Proof. intros Hn. unfold live. simpl. by rewrite map_to_list_insert. Qed.
Lemma live_del s bid b : bm_brs s !! bid = Some b → live s ≡ₚ b :: (map_to_list (delete bid (bm_brs s))).*2.
Proof. intros Hb. unfold live. by rewrite <-(map_to_list_delete (bm_brs s) bid b). Qed.
Lemma live_upd s bid b b' :
  bm_brs s !! bid = Some b → live (bm_with_brs s (<[bid := b']> (bm_brs s))) ≡ₚ b' :: (map_to_list (delete bid (bm_brs s))).*2.
Proof.
  intros Hb. unfold live. simpl. rewrite <-insert_delete_eq, map_to_list_insert by apply lookup_delete_eq. done.
Qed.

(** *** Flags *)
Lemma sent_flags b replied o f : br_sent b replied o f → hasf (br_flags b) (Z.lor BATCHF_WAITREPLY BATCHF_RQINFL) = true.
Proof. intros (_ & _ & _ & -> & _). by destruct (o =? 1). Qed.
Lemma wait_flags : setf (clrf BATCHF_RQINFL BATCHF_RQINFL) BATCHF_WAITREPLY = BATCHF_WAITREPLY.
Proof. done. Qed.

Lemma filter_ne_elem (bid x : Z) (l : list Z) : x ∈ filter (λ x, x ≠ bid) l ↔ x ≠ bid ∧ x ∈ l.
Proof. by rewrite list_elem_of_filter. Qed.
Lemma filter_ne_notin (bid : Z) (l : list Z) : bid ∉ l → filter (λ x, x ≠ bid) l = l.
Proof. intros Hn. apply filter_all. by intros x Hx ->. Qed.

Lemma filter_ne_perm (bid : Z) (l : list Z) : NoDup l → bid ∈ l → l ≡ₚ bid :: filter (λ x, x ≠ bid) l.
Proof.
  intros Hn Hin. apply NoDup_Permutation; [done|constructor; [|by apply NoDup_filter]|].
  - rewrite filter_ne_elem. by intros [? _].
  - intros x. rewrite elem_of_cons, filter_ne_elem. destruct (decide (x = bid)) as [->|]; tauto.
Qed.
Lemma cnt_filter_le (f : Z → bool) (bid : Z) (l : list Z) : cnt f (filter (λ x, x ≠ bid) l) ≤ cnt f l.
Proof. induction l as [|x l IH]; [done|]. rewrite filter_cons. case_decide; simpl; destruct (f x); lia. Qed.
Lemma cnt_filter_ne (bid k : Z) (l : list Z) : k ≠ bid → cnt (Z.eqb k) (filter (λ x, x ≠ bid) l) = cnt (Z.eqb k) l.
Proof.
  intros Hne. induction l as [|x l IH]; [done|]. rewrite filter_cons. destruct (decide (x = bid)) as [->|Hx].
  - rewrite decide_False by tauto. simpl. by rewrite (proj2 (Z.eqb_neq k bid)), IH.
  - rewrite decide_True by done. simpl. by rewrite IH.
Qed.

(** Nothing but the counts of one batch matters to the others. *)
Definition off (bid : Z) (f g : Z → Z) : Prop := ∀ k, k ≠ bid → f k = g k.

(** *** One batch changes

    Its data may change, entries may be added to it, and it may move from one
    list to the other. *)
Lemma batch_core_upd O F O' F' s s' R A X bid b b' :
  batch_core O F s R A → bm_brs s !! bid = Some b → bm_brs s' = <[bid := b']> (bm_brs s) →
  br_bid b' = br_bid b → br_res b' = br_res b → br_ents b' = br_ents b ++ X →
  bm_bid s' = bm_bid s → bm_res s' = bm_res s → bm_done s' = bm_done s →
  (∀ r, default 0 (bm_csvc s' !! r) = default 0 (bm_csvc s !! r)) →
  bm_delayed s' ++ bm_waitreply s' ≡ₚ bm_delayed s ++ bm_waitreply s →
  (∀ k, k ≠ bid → (k ∈ bm_delayed s' → k ∈ bm_delayed s) ∧ (k ∈ bm_waitreply s' → k ∈ bm_waitreply s)) →
  off bid O' O → off bid F' F →
  (bid ∈ bm_delayed s' → br_open b' ∧ O' bid = 0 ∧ F' bid = 0 ∧ bid ∉ R) →
  (bid ∈ bm_waitreply s' → br_sent b' (bool_decide (bid ∈ R)) (O' bid) (F' bid)) →
  batch_core O' F' s' R (X ++ A).
Proof.
  intros Hc Hb Hs Hbid Hres Hents Hn Hr Hd Hcs Hperm Hmv HO HF Hop Hse.
  assert (Hlk : ∀ k, k ≠ bid → bm_brs s' !! k = bm_brs s !! k) by (intros k Hk; rewrite Hs; by apply lookup_insert_ne).
  assert (Hlb : bm_brs s' !! bid = Some b') by (rewrite Hs; apply lookup_insert_eq).
  pose proof (live_upd s bid b b' Hb) as Hu. change (live _) with (map_to_list (<[bid := b']> (bm_brs s))).*2 in Hu.
  pose proof (live_del s bid b Hb) as Hl.
  split; rewrite ?Hperm, ?Hn, ?Hr, ?Hd; try apply Hc.
  - intros k. rewrite Hperm, (bc_dom _ _ _ _ _ Hc). destruct (decide (k = bid)) as [->|]; [|by rewrite Hlk].
    rewrite Hlb, Hb. split; eauto.
  - intros k c Hk. destruct (decide (k = bid)) as [->|].
    + assert (c = b') as -> by congruence. rewrite Hbid, Hres. by apply (bc_br _ _ _ _ _ Hc).
    + rewrite Hlk in Hk by done. by apply (bc_br _ _ _ _ _ Hc).
  - intros k c Hk Hkd. destruct (decide (k = bid)) as [->|Hne]; [assert (c = b') as -> by congruence; by apply Hop|].
    rewrite Hlk in Hk by done. rewrite HO, HF by done. apply (bc_open _ _ _ _ _ Hc _ _ Hk). by apply (Hmv k Hne).
  - intros k c Hk Hkd. destruct (decide (k = bid)) as [->|Hne]; [assert (c = b') as -> by congruence; by apply Hse|].
    rewrite Hlk in Hk by done. rewrite HO, HF by done. apply (bc_sent _ _ _ _ _ Hc _ _ Hk). by apply (Hmv k Hne).
  - intros k Hk. assert (Hne : k ≠ bid) by congruence. rewrite Hlk in Hk by done. rewrite HO, HF by done. by apply Hc.
  - intros c Hk. destruct (bc_done_old _ _ _ _ _ Hc c Hk) as [? Hnl]. split; [done|].
    assert (Hne : br_bid c ≠ bid) by congruence. by rewrite Hlk.
  - intros r. rewrite Hcs, (bc_csvc _ _ _ _ _ Hc r). unfold live at 2. rewrite Hs, Hu, Hl. simpl. by rewrite Hres.
  - rewrite (bc_ents _ _ _ _ _ Hc). unfold live at 2. rewrite Hs, Hu, Hl. simpl. rewrite Hents, !app_assoc.
    by rewrite (Permutation_app_comm X).
Qed.

(** *** A reference to a batch that was sent is dropped *)
Section decref.
Context (O F : Z → Z) (s : bmgr E) (R : gset Z) (A : list E) (bid rc : Z) (b : batchrq E) (fl : Z).
Let O' : Z → Z := owed s.
Let F' : Z → Z := fins s.
Hypothesis Hc : batch_core O F s R A.
Hypothesis Hb : bm_brs s !! bid = Some b.
Hypothesis Hw : bid ∈ bm_waitreply s.
Hypothesis HO : off bid O' O.
Hypothesis HF : off bid F' F.
Hypothesis Ho : 0 ≤ O' bid ≤ 1.
Hypothesis Hf : 0 ≤ F' bid ≤ 1.
Hypothesis Hr : bid ∉ R → F' bid = 0.
Hypothesis Hcnt : O' bid + (if bool_decide (bid ∈ R) then F' bid else 1) = br_refcnt b - 1.
Hypothesis Hfl : fl = if O' bid =? 1 then BATCHF_RQINFL else BATCHF_WAITREPLY.

Let b1 : batchrq E := br_upd b (br_rq b) fl (br_refcnt b) (br_rc b).
Let b2 : batchrq E := br_upd b (br_rq b) fl (br_refcnt b - 1) (if br_rc b =? 0 then rc else br_rc b).

Lemma not_delayed : bid ∉ bm_delayed s.
Proof. intros Hd. pose proof (bc_nodup _ _ _ _ _ Hc) as Hn. apply NoDup_app in Hn as (_ & Hn & _). by apply (Hn bid). Qed.

Lemma decref_keep : 0 < br_refcnt b - 1 → batch_core O' F' (bm_with_brs s (<[bid := b2]> (bm_brs s))) R A.
Proof.
  intros Hpos. change A with ([] ++ A). eapply (batch_core_upd O F _ _ s); try done.
  - simpl. by rewrite app_nil_r.
  - intros Hd. by apply not_delayed in Hd.
  - intros _. split_and!; try done; try (simpl; lia). intros HR. apply Hr. by apply bool_decide_eq_false in HR.
Qed.

Lemma decref_finish :
  br_refcnt b - 1 = 0 →
  batch_core O' F'
    {| bm_bid := bm_bid s; bm_brs := delete bid (<[bid := b1]> (bm_brs s));
       bm_res := <[br_res b := filter (λ x, x ≠ bid) (default [] (bm_res s !! br_res b))]> (bm_res s);
       bm_delayed := bm_delayed s; bm_waitreply := filter (λ x, x ≠ bid) (bm_waitreply s); bm_rpcs := bm_rpcs s;
       bm_work := bm_work s; bm_done := b2 :: bm_done s;
       bm_csvc := <[br_res b := default 0 (bm_csvc s !! br_res b) + -1]> (bm_csvc s) |} R A.
Proof.
  intros Hz. pose proof not_delayed as Hnd. pose proof (bc_br _ _ _ _ _ Hc _ _ Hb) as (Hid & Hle & Hres).
  rewrite delete_insert_eq.
  assert (Hother : ∀ k c, delete bid (bm_brs s) !! k = Some c → k ≠ bid ∧ bm_brs s !! k = Some c).
  { intros k c Hk. apply lookup_delete_Some in Hk as [? ?]. done. }
  split; simpl.
  - pose proof (bc_nodup _ _ _ _ _ Hc) as Hn. rewrite <-(filter_ne_notin bid (bm_delayed s)), <-filter_app by done.
    by apply NoDup_filter.
  - intros k. rewrite <-(filter_ne_notin bid (bm_delayed s)), <-filter_app, filter_ne_elem, (bc_dom _ _ _ _ _ Hc) by done.
    destruct (decide (k = bid)) as [->|Hne].
    + rewrite lookup_delete_eq. split; [by intros [? _]|by intros [? ?]].
    + rewrite lookup_delete_ne by done. split; [by intros [_ ?]|done].
  - intros k c Hk. destruct (Hother k c Hk) as [Hne Hk']. destruct (bc_br _ _ _ _ _ Hc _ _ Hk') as (? & ? & Hin).
    split_and!; [done..|]. destruct (decide (br_res c = br_res b)) as [Hrr|]; [|by simplify_map_eq].
    rewrite <-Hrr, lookup_insert_eq. simpl. apply filter_ne_elem. done.
  - intros k c Hk Hd. destruct (Hother k c Hk) as [Hne Hk']. rewrite HO, HF by done. by apply Hc.
  - intros k c Hk Hk2. apply filter_ne_elem in Hk2 as [Hne Hk2]. destruct (Hother k c Hk) as [_ Hk'].
    rewrite HO, HF by done. by apply Hc.
  - intros k Hk. destruct (decide (k = bid)) as [->|].
    + case_bool_decide as HR; [lia|]. specialize (Hr HR). lia.
    + rewrite HO, HF by done. apply Hc. by rewrite lookup_delete_ne in Hk by done.
  - apply Hc.
  - rewrite Hid. constructor; [|apply Hc]. intros (c & Heq & Hin)%list_elem_of_fmap_1.
    destruct (bc_done_old _ _ _ _ _ Hc c Hin) as [_ Hn]. rewrite <-Heq in Hn. congruence.
  - intros c [->|Hin]%elem_of_cons; simpl; [rewrite Hid; split; [done|]; apply lookup_delete_eq|].
    destruct (bc_done_old _ _ _ _ _ Hc c Hin) as [? Hn]. split; [done|]. apply lookup_delete_None. by right.
  - intros r. pose proof (bc_csvc _ _ _ _ _ Hc r) as Hr'. unfold live at 1. simpl. rewrite (live_del s bid b Hb) in Hr'.
    simpl in Hr'. destruct (Z.eqb_spec (br_res b) r) as [Heq|].
    { rewrite Heq in *. rewrite lookup_insert_eq. simpl. lia. }
    rewrite lookup_insert_ne by done. lia.
  - pose proof (bc_ents _ _ _ _ _ Hc) as He. rewrite (live_del s bid b Hb) in He. simpl in He. rewrite He.
    unfold live. simpl. rewrite (Permutation_app_comm (br_ents b)), <-app_assoc. done.
Qed.

Lemma wp_decref_sent :
  wp (batchrq_decref bid rc) (λ _ s', batch_inv s' R A ∧ todo R s' ≤ todo R s) (bm_with_brs s (<[bid := b1]> (bm_brs s))).
Proof.
  pose proof (bc_sent _ _ _ _ _ Hc _ _ Hb Hw) as (_ & _ & _ & _ & _ & Hpos).
  pose proof (bc_br _ _ _ _ _ Hc _ _ Hb) as (Hid & Hle & Hres).
  assert (Hfl' : hasf fl (Z.lor BATCHF_WAITREPLY BATCHF_RQINFL) = true) by (rewrite Hfl; by destruct (O' bid =? 1)).
  unfold batchrq_decref. wp_step. eapply wp_getBr; [apply lookup_insert_eq|]. unfold b1 at 1. cbn [br_refcnt br_upd br_rq br_flags br_rc br_res b1].
  wp_step. wp_step; [apply Z.gtb_lt; lia|]. wp_step; [|cbv delta [setBr]; cbv beta; wp_step].
  - apply Z.eqb_eq in Heqb0. wp_step. wp_step. wp_step. rewrite Hfl'.
    wp_step. apply wp_lc_remove; [done|]. wp_step. wp_step. apply wp_lc_remove; [done|]. unfold sl_csvc_decref, csvc_adj. wp_step. wp_step. wp_step.
    split; [by apply decref_finish|]. unfold todo. simpl. pose proof (cnt_filter_le (pending R) bid (bm_waitreply s)). lia.
  - apply Z.eqb_neq in Heqb0. unfold bm_with_brs. cbn [bm_brs bm_bid bm_res bm_delayed bm_waitreply bm_rpcs bm_work bm_done bm_csvc].
    rewrite insert_insert_eq. split; [apply decref_keep; lia|done].
Qed.
End decref.

Lemma off_refl bid f : off bid f f.
Proof. done. Qed.
Lemma batch_core_ext O F O' F' s R A :
  (∀ k, O k = O' k) → (∀ k, F k = F' k) → batch_core O F s R A → batch_core O' F' s R A.
Proof.
  intros HO HF Hc. destruct Hc. split; eauto.
  - intros k b. rewrite <-HO, <-HF. eauto.
  - intros k b. rewrite <-HO, <-HF. eauto.
  - intros k. rewrite <-HO, <-HF. eauto.
Qed.
(** The invariant reads neither of the queues. *)
Lemma batch_core_queues O F s R A rpcs wk : batch_core O F s R A → batch_core O F (bm_with_queues s rpcs wk) R A.
Proof. by destruct 1; split. Qed.

Lemma inv_owed s R A bid : batch_inv s R A → 0 < owed s bid + fins s bid → ∃ b, bm_brs s !! bid = Some b ∧ bid ∈ bm_waitreply s.
Proof.
  intros Hi Hpos. destruct (bm_brs s !! bid) as [b|] eqn:Hb; [|apply Hi in Hb; lia].
  exists b. split; [done|]. assert (Hin : bid ∈ bm_delayed s ++ bm_waitreply s) by (apply Hi; by rewrite Hb).
  apply elem_of_app in Hin as [Hin|Hin]; [|done]. destruct (bc_open _ _ _ _ _ Hi _ _ Hb Hin) as (_ & ? & ? & _). lia.
Qed.

Lemma br_upd_id (b : batchrq E) : br_upd b (br_rq b) (br_flags b) (br_refcnt b) (br_rc b) = b.
Proof. by destruct b. Qed.
Lemma bm_brs_id (s : bmgr E) bid b : bm_brs s !! bid = Some b → bm_with_brs s (<[bid := b]> (bm_brs s)) = s.
Proof. intros Hb. unfold bm_with_brs. rewrite insert_id by done. by destruct s. Qed.

(** *** The worker *)
Lemma worker_inv s R A : batch_inv s R A → wp batch_worker (λ _ s', batch_inv s' R A ∧ (bm_work s ≠ [] → todo R s' < todo R s)) s.
Proof.
  intros Hi. unfold batch_worker. wp_step. wp_step. destruct (bm_work s) as [|w l] eqn:Hwk; [by wp_step|]. wp_step. wp_step.
  set (s1 := bm_with_queues s (bm_rpcs s) l).
  assert (Htodo : todo R s = todo R s1 + 1) by (unfold todo; rewrite Hwk; simpl; lia).
  apply (wp_mono _ (λ _ s', batch_inv s' R A ∧ todo R s' ≤ todo R s1)); [|intros ? s' [? ?]; split; [done|intros _; lia]].
  assert (Hw : ∃ bid, 0 < owed s bid + fins s bid ∧ (w = BwWaitReply bid ∨ ∃ rc, w = BwFinish bid rc)).
  { pose proof (λ k, cnt_nonneg (Z.eqb k) (bm_rpcs s)) as Ha. pose proof (λ k, cnt_nonneg (wait_of k) l) as Hb.
    pose proof (λ k, cnt_nonneg (fin_of k) l) as Hc.
    destruct w as [k rc|k]; exists k; (split; [|eauto]); unfold owed, fins; rewrite Hwk; simpl; rewrite Z.eqb_refl;
      specialize (Ha k); specialize (Hb k); specialize (Hc k); lia. }
  destruct Hw as (bid & Hpos & Hw). destruct (inv_owed s R A bid Hi Hpos) as (b & Hb & Hwr).
  destruct (bc_sent _ _ _ _ _ Hi _ _ Hb Hwr) as (Ho & Hf & Hnr & Hfl & Hrc & Hp).
  assert (Hc1 : batch_core (owed s) (fins s) s1 R A) by by apply batch_core_queues.
  assert (Hoff : ∀ k, k ≠ bid → owed s1 k = owed s k ∧ fins s1 k = fins s k).
  { intros k Hk. unfold owed, fins. rewrite Hwk. simpl. destruct Hw as [->|[rc ->]]; simpl; rewrite (proj2 (Z.eqb_neq bid k)) by done; lia. }
  assert (Hcnt1 : 0 ≤ owed s1 bid ∧ 0 ≤ fins s1 bid).
  { unfold owed, fins. pose proof (cnt_nonneg (Z.eqb bid) (bm_rpcs s1)). pose proof (cnt_nonneg (wait_of bid) (bm_work s1)).
    pose proof (cnt_nonneg (fin_of bid) (bm_work s1)). lia. }
  assert (Hrep : bid ∉ R → fins s bid = 0) by (intros ?; apply Hnr; by apply bool_decide_eq_false).
  destruct Hw as [->|[rc ->]]; simpl.
  - assert (Hd : owed s1 bid = owed s bid - 1 ∧ fins s1 bid = fins s bid)
      by (unfold owed, fins; rewrite Hwk; simpl; rewrite Z.eqb_refl; lia).
    wp_step. eapply wp_getBr; [exact Hb|]. wp_step. cbv delta [setBr]; cbv beta. wp_step.
    apply (wp_decref_sent (owed s) (fins s) s1 R A bid 0 b); try done; try (intros ??; by apply Hoff); try lia.
    + destruct Hd as [_ ->]. done.
    + destruct Hd as [-> ->]. rewrite Hrc. lia.
    + rewrite Hfl. assert (owed s bid = 1) as -> by lia. assert (owed s1 bid = 0) as -> by lia. done.
  - assert (Hd : owed s1 bid = owed s bid ∧ fins s1 bid = fins s bid - 1)
      by (unfold owed, fins; rewrite Hwk; simpl; rewrite Z.eqb_refl; lia).
    assert (HR : bid ∈ R) by (destruct (decide (bid ∈ R)) as [|HR]; [done|apply Hrep in HR; lia]).
    rewrite bool_decide_eq_true_2 in Hrc by done.
    rewrite <-(bm_brs_id s1 bid b Hb). rewrite <-(br_upd_id b) at 1.
    apply (wp_decref_sent (owed s) (fins s) s1 R A bid rc b); try done; try (intros ??; by apply Hoff); try lia.
    + rewrite bool_decide_eq_true_2 by done. lia.
    + rewrite Hfl. by destruct Hd as [-> _].
Qed.

(** *** A batch is sent *)
Lemma send_inv s R A bid : batch_inv s R A → bid ∈ bm_delayed s → wp (batchrq_send 0 0 bid) (λ _ s', batch_inv s' R A ∧ todo R s' < todo R s) s.
Proof.
  intros Hi Hd. destruct (proj1 (bc_dom _ _ _ _ _ Hi bid)) as [b Hb]; [apply elem_of_app; by left|].
  destruct (bc_open _ _ _ _ _ Hi _ _ Hb Hd) as ((Hfl & Hrc) & Ho & Hf & HR).
  pose proof (bc_nodup _ _ _ _ _ Hi) as Hn. apply NoDup_app in Hn as (Hn1 & Hn2 & Hn3).
  unfold batchrq_send. wp_step. eapply wp_getBr; [exact Hb|]. wp_step. cbv delta [setBr]; cbv beta. wp_step. wp_step. wp_step.
  wp_step. apply wp_lc_remove; [done|]. wp_step. wp_step. simpl. wp_step.
  set (b' := br_upd b false _ _ _). assert (Hb'f : br_flags b' = BATCHF_RQINFL) by (unfold b'; simpl; by rewrite Hfl).
  pose proof (filter_ne_perm bid _ Hn1 Hd) as Hperm. split.
  2:{ unfold todo. simpl. rewrite (Permutation_length Hperm), !length_app, cnt_app. simpl. unfold pending.
      rewrite bool_decide_eq_false_2 by done. simpl. lia. }
  change A with ([] ++ A). eapply (batch_core_upd (owed s) (fins s) _ _ s); try done.
  - simpl. by rewrite app_nil_r.
  - simpl. rewrite Hperm at 2. simpl. rewrite app_assoc, (Permutation_app_comm _ [bid]). done.
  - simpl. intros k Hk. rewrite filter_ne_elem, elem_of_app, list_elem_of_singleton. split; [by intros [_ ?]|by intros [?|?]].
  - intros k Hk. unfold owed. simpl. rewrite cnt_app. simpl. rewrite (proj2 (Z.eqb_neq k bid)) by done. lia.
  - simpl. intros [? _]%filter_ne_elem. done.
  - intros _. unfold owed. simpl. rewrite cnt_app. simpl. rewrite Z.eqb_refl. fold (fins s bid).
    unfold owed in Ho. change (fins _ bid) with (fins s bid). rewrite Hf, bool_decide_eq_false_2 by done.
    replace (_ + _ + _) with 1 by lia. split_and!; try done; simpl; lia.
Qed.

Lemma round_inv s R A now : batch_inv s R A → wp (slmbchrqthr_round 0 0 now)
  (λ _ s', batch_inv s' R A ∧
     (∀ bid l b, bm_delayed s = bid :: l → bm_brs s !! bid = Some b → br_expire b < now → todo R s' < todo R s)) s.
Proof.
  intros Hi. unfold slmbchrqthr_round. wp_step. wp_step. destruct (bm_delayed s) as [|bid l] eqn:Hd; [by wp_step|].
  destruct (proj1 (bc_dom _ _ _ _ _ Hi bid)) as [b Hb]; [rewrite Hd; by left|].
  wp_step. eapply wp_getBr; [exact Hb|]. wp_step.
  - eapply wp_mono; [apply send_inv; [exact Hi|]|]; [rewrite Hd; by left|]. intros ? s' [? ?]. done.
  - split; [done|]. intros bid' l' b' ? ? ?. simplify_eq. lia.
Qed.

(** *** The RPC completes, and a reply arrives *)
Lemma sent_inv s R A bid : batch_inv s R A → bid ∈ bm_rpcs s → wp (sl_batchrqsend_cb bid 0) (λ _ s', batch_inv s' R A ∧ todo R s' < todo R s) s.
Proof.
  intros Hi Hin. assert (Hp : 0 < cnt (Z.eqb bid) (bm_rpcs s)) by (eapply cnt_pos; [exact Hin|apply Z.eqb_refl]).
  pose proof (cnt_nonneg (wait_of bid) (bm_work s)) as Hp1. pose proof (cnt_nonneg (fin_of bid) (bm_work s)) as Hp2.
  destruct (inv_owed s R A bid Hi) as (b & Hb & Hwr); [unfold owed, fins; lia|].
  destruct (bc_sent _ _ _ _ _ Hi _ _ Hb Hwr) as (Ho & _). unfold owed in Ho.
  unfold sl_batchrqsend_cb. wp_step. eapply wp_getBr; [exact Hb|]. wp_step. wp_step. simpl. unfold batchrq_sched. wp_step.
  split.
  2:{ unfold todo. simpl. rewrite length_app. simpl.
      pose proof (length_filter_lt (λ x, x ≠ bid) _ _ Hin (λ Hne, Hne eq_refl)). lia. }
  unfold batch_inv. eapply batch_core_ext; [| |apply batch_core_queues, batch_core_queues, Hi]; intros k.
  - unfold owed. simpl. rewrite cnt_app. simpl. destruct (decide (k = bid)) as [->|Hne].
    + rewrite Z.eqb_refl. rewrite (cnt_zero _ (filter _ _)); [lia|]. intros x [? _]%filter_ne_elem. by apply Z.eqb_neq.
    + rewrite (proj2 (Z.eqb_neq bid k)), cnt_filter_ne by done. lia.
  - unfold fins. simpl. rewrite cnt_app. simpl. lia.
Qed.

Lemma pending_reply R bid l :
  bid ∈ l → bid ∉ R → cnt (pending ({[bid]} ∪ R)) l < cnt (pending R) l.
Proof.
  intros Hin HR. assert (Hle : ∀ k, pending ({[bid]} ∪ R) k = true → pending R k = true).
  { intros k. unfold pending. rewrite !negb_true_iff, !bool_decide_eq_false, elem_of_union. tauto. }
  assert (Hmon : ∀ l, cnt (pending ({[bid]} ∪ R)) l ≤ cnt (pending R) l).
  { clear -Hle. induction l as [|k l IH]; [done|]. simpl. specialize (Hle k). destruct (pending _ k); [rewrite Hle by done; lia|].
    destruct (pending R k); lia. }
  induction Hin as [bid l|bid k l Hin IH]; simpl.
  - unfold pending at 1 3. rewrite bool_decide_eq_true_2 by (rewrite elem_of_union, elem_of_singleton; tauto).
    rewrite bool_decide_eq_false_2 by done. simpl. specialize (Hmon l). lia.
  - specialize (IH HR Hle Hmon). specialize (Hle k). destruct (pending ({[bid]} ∪ R) k); [rewrite Hle by done; lia|]. destruct (pending R k); lia.
Qed.
Lemma reply_inv s R A len mq_rc bid bulk_rc :
  batch_inv s R A → bid ∈ bm_waitreply s → bid ∉ R →
  wp (sl_handle_batchrp len mq_rc bid bulk_rc) (λ _ s', batch_inv s' ({[bid]} ∪ R) A ∧ todo ({[bid]} ∪ R) s' < todo R s) s.
Proof.
  intros Hi Hin HR. destruct (proj1 (bc_dom _ _ _ _ _ Hi bid)) as [b Hb]; [apply elem_of_app; by right|].
  pose proof (bc_br _ _ _ _ _ Hi _ _ Hb) as (_ & Hle & _).
  destruct (bc_sent _ _ _ _ _ Hi _ _ Hb Hin) as (Ho & Hf & Hnr & Hfl & Hrc & Hp).
  rewrite bool_decide_eq_false_2 in Hrc, Hnr by done. specialize (Hnr eq_refl).
  unfold sl_handle_batchrp. wp_step. wp_step. rewrite bool_decide_eq_true_2 by done. wp_step. unfold batchrq_sched. wp_step. wp_step.
  set (s' := bm_with_queues _ _ _).
  assert (HO : ∀ k, owed s' k = owed s k) by (intros k; unfold owed; simpl; rewrite cnt_app; simpl; lia).
  assert (HF : ∀ k, fins s' k = fins s k + (if bid =? k then 1 else 0)) by (intros k; unfold fins; simpl; rewrite cnt_app; simpl; lia).
  assert (HFn : ∀ k, k ≠ bid → fins s' k = fins s k) by (intros k Hk; rewrite HF, (proj2 (Z.eqb_neq bid k)) by done; lia).
  split; [|unfold todo; simpl; rewrite length_app; simpl; pose proof (pending_reply R bid _ Hin HR); lia].
  unfold batch_inv. apply (batch_core_ext (owed s) (fins s')); [done|done|]. destruct Hi. split; simpl; eauto.
  - intros k c Hk Hd. assert (Hne : k ≠ bid) by (intros ->; apply NoDup_app in bc_nodup0 as (_ & Hn & _); by apply (Hn bid)).
    rewrite HFn by done. destruct (bc_open0 k c Hk Hd) as (? & ? & ? & ?). split_and!; try done. rewrite elem_of_union, elem_of_singleton. tauto.
  - intros k c Hk Hkw. destruct (decide (k = bid)) as [->|Hne].
    + assert (c = b) as -> by congruence. rewrite HF, Z.eqb_refl, bool_decide_eq_true_2 by (rewrite elem_of_union, elem_of_singleton; tauto).
      split_and!; try done; lia.
    + rewrite HFn by done. replace (bool_decide (k ∈ _)) with (bool_decide (k ∈ R)); [by apply bc_sent0|].
      apply bool_decide_ext. rewrite elem_of_union, elem_of_singleton. tauto.
  - intros k Hk. rewrite HFn by congruence. by apply bc_live0.
  - intros k [->%elem_of_singleton|Hk]%elem_of_union; [done|by apply bc_R0].
Qed.

(** *** An entry is added *)
Lemma batch_core_new O F s R A bid b cmp s' `{!PflListLaws} :
  batch_core O F s R A → bid = bm_bid s + 1 → br_bid b = bid → br_open b → br_ents b = [] →
  s' = {| bm_bid := bid; bm_brs := <[bid := b]> (bm_brs s);
          bm_res := <[br_res b := default [] (bm_res s !! br_res b) ++ [bid]]> (bm_res s);
          bm_delayed := lc_add_sorted cmp bid (bm_delayed s); bm_waitreply := bm_waitreply s; bm_rpcs := bm_rpcs s;
          bm_work := bm_work s; bm_done := bm_done s;
          bm_csvc := <[br_res b := default 0 (bm_csvc s !! br_res b) + 1]> (bm_csvc s) |} →
  batch_core O F s' R A.
Proof.
  intros Hc Hn Hid Hop Hen ->. destruct Hc.
  assert (Hnone : bm_brs s !! bid = None).
  { destruct (bm_brs s !! bid) eqn:Heq; [|done]. apply bc_br0 in Heq as (_ & ? & _). lia. }
  assert (Hnin : bid ∉ bm_delayed s ++ bm_waitreply s) by (rewrite bc_dom0, Hnone; by intros [? ?]).
  pose proof (live_new s bid b Hnone) as Hl. change (live (bm_with_brs _ _)) with (map_to_list (<[bid := b]> (bm_brs s))).*2 in Hl.
  split; simpl; eauto.
  - rewrite lc_add_sorted_perm. simpl. by constructor.
  - intros k. rewrite lc_add_sorted_perm. simpl. rewrite elem_of_cons, bc_dom0.
    destruct (decide (k = bid)) as [->|]; [rewrite lookup_insert_eq|rewrite lookup_insert_ne by done; tauto].
    split; [eauto|by left].
  - intros k c Hk. destruct (decide (k = bid)) as [->|].
    + rewrite lookup_insert_eq in Hk. simplify_eq. rewrite lookup_insert_eq. simpl. split_and!; [done|lia|]. apply elem_of_app. right. by left.
    + rewrite lookup_insert_ne in Hk by done. destruct (bc_br0 _ _ Hk) as (? & ? & Hin). split_and!; [done|lia|].
      destruct (decide (br_res c = br_res b)) as [Heq|]; [|by rewrite lookup_insert_ne].
      rewrite Heq, lookup_insert_eq. simpl. rewrite Heq in Hin. apply elem_of_app. by left.
  - intros k c Hk. rewrite lc_add_sorted_perm. intros Hd. destruct (decide (k = bid)) as [->|].
    + rewrite lookup_insert_eq in Hk. simplify_eq. destruct (bc_live0 _ Hnone). split_and!; try done.
      intros HR. apply bc_R0 in HR. lia.
    + rewrite lookup_insert_ne in Hk by done. apply bc_open0; [done|]. by apply elem_of_cons in Hd as [?|?].
  - intros k c Hk Hw. assert (k ≠ bid) by (intros ->; apply Hnin, elem_of_app; by right).
    rewrite lookup_insert_ne in Hk by done. by apply bc_sent0.
  - intros k Hk. apply lookup_insert_None in Hk as [Hk _]. by apply bc_live0.
  - intros k Hk. apply bc_R0 in Hk. lia.
  - intros c Hk. destruct (bc_done_old0 c Hk) as [? Hnl]. split; [lia|]. apply lookup_insert_None. split; [done|lia].
  - intros r. unfold live. simpl. rewrite Hl. simpl. rewrite <-bc_csvc0. destruct (Z.eqb_spec (br_res b) r) as [->|].
    + rewrite lookup_insert_eq. simpl. lia.
    + by rewrite lookup_insert_ne by done.
  - unfold live at 1. simpl. rewrite Hl. simpl. by rewrite Hen.
Qed.

Lemma append_inv s R A bid e len :
  batch_inv s R A → bid ∈ bm_delayed s →
  wp (b ← getBr bid;
      _ ← setBr bid {| br_bid := br_bid b; br_res := br_res b; br_opc := br_opc b; br_expire := br_expire b; br_rq := br_rq b;
                       br_flags := br_flags b; br_refcnt := br_refcnt b; br_rc := br_rc b;
                       br_ents := br_ents b ++ [e]; br_len := br_len b + len |};
      _ ← whenM (br_len b + len + len >? LNET_MTU) (batchrq_send 0 0 bid);
      mret 0)
     (λ rc s', rc = 0 ∧ batch_inv s' R (e :: A)) s.
Proof.
  intros Hi Hd. destruct (proj1 (bc_dom _ _ _ _ _ Hi bid)) as [b Hb]; [apply elem_of_app; by left|].
  wp_step. eapply wp_getBr; [exact Hb|]. wp_step. unfold setBr. wp_step.
  assert (Hi' : batch_inv (bm_with_brs s (<[bid := {| br_bid := br_bid b; br_res := br_res b; br_opc := br_opc b;
      br_expire := br_expire b; br_rq := br_rq b; br_flags := br_flags b; br_refcnt := br_refcnt b; br_rc := br_rc b;
      br_ents := br_ents b ++ [e]; br_len := br_len b + len |}]> (bm_brs s))) R (e :: A)).
  { change (e :: A) with ([e] ++ A). eapply (batch_core_upd (owed s) (fins s) _ _ s); try done.
    - intros _. apply (bc_open _ _ _ _ _ Hi _ _ Hb Hd).
    - intros Hw. pose proof (bc_nodup _ _ _ _ _ Hi) as Hn. apply NoDup_app in Hn as (_ & Hn & _). by apply Hn in Hw. }
  wp_step. wp_step; [|by wp_step].
  eapply wp_mono; [by apply send_inv|]. intros [] s' [Hs' _]. by wp_step.
Qed.

(** A reference to a connection that is taken and given back. *)
Definition csvc_plus (s : bmgr E) (r k : Z) : bmgr E := bm_with_csvc s (<[r := default 0 (bm_csvc s !! r) + k]> (bm_csvc s)).
Lemma csvc_back_inv s R A r : batch_inv s R A → batch_inv (csvc_plus (csvc_plus s r 1) r (-1)) R A.
Proof.
  intros []. split; simpl; eauto. intros x. rewrite <-bc_csvc0. destruct (decide (x = r)) as [->|]; [|by rewrite !lookup_insert_ne].
  rewrite !lookup_insert_eq. simpl. lia.
Qed.

Lemma add_inv `{!PflListLaws} s R A newreq_rc now r opc e len expire :
  batch_inv s R A →
  wp (_ ← csvc_adj r 1; batchrq_add newreq_rc 0 0 now r opc e len expire)
     (λ rc s', batch_inv s' R (if rc =? 0 then e :: A else A) ∧ (newreq_rc = 0 → rc = 0)) s.
Proof.
  intros Hi. wp_step. unfold csvc_adj. wp_step. unfold batchrq_add. wp_step. wp_step. simpl.
  pose proof (csvc_back_inv s R A r Hi) as Hback.
  destruct (filter _ _) as [|bid l] eqn:Hfil.
  - wp_step. wp_step.
    + wp_step. wp_step. unfold sl_csvc_decref, csvc_adj. wp_step. wp_step.
      apply negb_true_iff in Heqb. rewrite Heqb. split; [done|]. apply Z.eqb_neq in Heqb. done.
    + wp_step. wp_step. wp_step. eapply wp_mono.
      * apply append_inv; [|simpl; rewrite lc_add_sorted_perm; by left].
        by eapply (batch_core_new _ _ s _ _ (bm_bid s + 1)
          {| br_bid := bm_bid s + 1; br_res := r; br_opc := opc; br_expire := now + expire; br_rq := true; br_flags := 0;
             br_refcnt := 1; br_rc := 0; br_ents := []; br_len := 0 |}); [apply _|exact Hi|..].
      * by intros rc s' [-> Hs'].
  - wp_step. wp_step. unfold sl_csvc_decref, csvc_adj. wp_step. wp_step. eapply wp_mono; [apply append_inv; [exact Hback|]|].
    + simpl. assert (Hin : bid ∈ bid :: l) by left. rewrite <-Hfil in Hin. apply list_elem_of_filter in Hin as [Hop _].
      unfold batch_open in Hop. simpl in Hop. destruct (bm_brs s !! bid) as [b|] eqn:Hb; [|done].
      assert (Hin : bid ∈ bm_delayed s ++ bm_waitreply s) by (apply Hi; by rewrite Hb).
      apply elem_of_app in Hin as [?|Hw]; [done|]. pose proof (sent_flags _ _ _ _ (bc_sent _ _ _ _ _ Hi _ _ Hb Hw)) as Hfl.
      rewrite Z.lor_comm, Hfl in Hop. done.
    + by intros rc s' [-> Hs'].
Qed.

Lemma init_inv : batch_inv bmgr_init ∅ [].
Proof.
  unfold bmgr_init. split; simpl; intros *; rewrite ?lookup_empty, ?elem_of_nil; try done; try constructor; try by intros ?%elem_of_nil.
Qed.

Lemma run_inv `{!PflListLaws} s R A : batch_run s R A → batch_inv s R A.
Proof.
  induction 1 as [|s R A newreq_rc now r opc e len expire rc s' _ IH Hrun|s R A now s' _ IH Hrun|s R A bid s' _ IH Hin Hrun
                 |s R A len mq_rc bid bulk_rc rc s' _ IH Hin HR Hrun|s R A s' _ IH Hrun].
  - apply init_inv.
  - apply (wp_done _ _ _ _ _ Hrun (add_inv s R A newreq_rc now r opc e len expire IH)).
  - apply (wp_done _ _ _ _ _ Hrun (round_inv s R A now IH)).
  - apply (wp_done _ _ _ _ _ Hrun (sent_inv s R A bid IH Hin)).
  - apply (wp_done _ _ _ _ _ Hrun (reply_inv s R A len mq_rc bid bulk_rc IH Hin HR)).
  - apply (wp_done _ _ _ _ _ Hrun (worker_inv s R A IH)).
Qed.

(** *** The steps of a run come to an end *)
Lemma step_run p p' A : batch_step p p' → batch_run p.1 p.2 A → batch_run p'.1 p'.2 A.
Proof. intros Hs Hr. destruct Hs; simpl in *; [by eapply run_round|by eapply run_sent|by eapply run_reply|by eapply run_work]. Qed.
Lemma step_exists `{!PflListLaws} s R A :
  batch_inv s R A → 0 < todo R s → ∃ s' R', batch_step (s, R) (s', R') ∧ todo R' s' < todo R s.
Proof.
  intros Hi Hpos.
  destruct (bm_work s) as [|w wk] eqn:Hwk.
  2:{ destruct (wp_run _ _ _ (worker_inv s R A Hi)) as ([] & s' & Hs & _ & Hlt). exists s', R.
      split; [by apply bs_work|]. apply Hlt. by rewrite Hwk. }
  destruct (bm_rpcs s) as [|bid rpcs] eqn:Hrp.
  2:{ assert (Hin : bid ∈ bm_rpcs s) by (rewrite Hrp; left).
      destruct (wp_run _ _ _ (sent_inv s R A bid Hi Hin)) as ([] & s' & Hs & _ & Hlt). exists s', R. split; [by eapply bs_sent|done]. }
  destruct (bm_delayed s) as [|bid dl] eqn:Hdl.
  2:{ destruct (proj1 (bc_dom _ _ _ _ _ Hi bid)) as [b Hb]; [rewrite Hdl; by left|].
      destruct (wp_run _ _ _ (round_inv s R A (br_expire b + 1) Hi)) as ([] & s' & Hs & _ & Hlt). exists s', R.
      split; [by eapply bs_round|]. eapply Hlt; [done..|lia]. }
  destruct (decide (Exists (λ k, k ∉ R) (bm_waitreply s))) as [Hex|Hno].
  - apply Exists_exists in Hex as (bid & Hin & HR).
    destruct (wp_run _ _ _ (reply_inv s R A 0 0 bid 0 Hi Hin HR)) as (rc & s' & Hs & _ & Hlt). exists s', ({[bid]} ∪ R).
    split; [by eapply bs_reply|done].
  - exfalso. apply not_Exists_Forall in Hno; [|intros; apply _]. rewrite Forall_forall in Hno.
    revert Hpos. unfold todo. rewrite Hwk, Hrp, Hdl. simpl. rewrite cnt_zero; [lia|].
    intros k Hk. unfold pending. rewrite bool_decide_eq_true_2; [done|]. by apply dec_stable, Hno.
Qed.

Lemma run_drains `{!PflListLaws} s R A :
  batch_run s R A → ∃ s' R', rtc batch_step (s, R) (s', R') ∧ batch_run s' R' A ∧ todo R' s' = 0.
Proof.
  assert (Hge : ∀ R s, 0 ≤ todo R s) by (intros R0 s0; unfold todo; pose proof (cnt_nonneg (pending R0) (bm_waitreply s0)); lia).
  remember (Z.to_nat (todo R s)) as n eqn:Hn. revert s R Hn.
  induction (lt_wf n) as [n _ IH]; intros s R Hn Hrun. destruct (decide (todo R s = 0)) as [|Hne]; [by exists s, R|].
  specialize (Hge R s) as Hge0. destruct (step_exists s R A (run_inv _ _ _ Hrun)) as (s' & R' & Hstep & Hlt); [lia|].
  destruct (IH (Z.to_nat (todo R' s')) ltac:(specialize (Hge R' s'); lia) s' R' eq_refl (step_run _ _ _ Hstep Hrun)) as (s2 & R2 & Hr & ?).
  exists s2, R2. split; [by eapply rtc_l|done].
Qed.

(** Nothing is left of what was replied to. *)
Lemma todo_none s R A : batch_inv s R A → todo R s = 0 → bm_brs s = ∅.
Proof.
  intros Hi Ht. unfold todo in Ht. pose proof (cnt_nonneg (pending R) (bm_waitreply s)) as Hc.
  assert (Hdl : bm_delayed s = []) by (apply length_zero_iff_nil; lia).
  assert (Hrp : bm_rpcs s = []) by (apply length_zero_iff_nil; lia).
  assert (Hwk : bm_work s = []) by (apply length_zero_iff_nil; lia).
  apply map_eq. intros k. rewrite lookup_empty. destruct (bm_brs s !! k) as [b|] eqn:Hb; [|done]. exfalso.
  assert (Hin : k ∈ bm_waitreply s).
  { assert (Hin : k ∈ bm_delayed s ++ bm_waitreply s) by (apply Hi; by rewrite Hb). by rewrite Hdl in Hin. }
  assert (HR : k ∈ R).
  { destruct (decide (k ∈ R)) as [|HR]; [done|]. pose proof (cnt_pos (pending R) _ k Hin) as Hp.
    unfold pending at 1 in Hp. rewrite bool_decide_eq_false_2 in Hp by done. specialize (Hp eq_refl). lia. }
  destruct (bc_sent _ _ _ _ _ Hi _ _ Hb Hin) as (_ & _ & _ & _ & Hrc & Hpos).
  rewrite bool_decide_eq_true_2 in Hrc by done. unfold owed, fins in Hrc. rewrite Hrp, Hwk in Hrc. simpl in Hrc. lia.
Qed.
End life.

(** ** Properties *)
Section props.
Context {E : Type} `{PflListLaws}.

(** C30: while the transport works, no step of the batch code fails: entries
    can be added, the timer, the completions, the replies and the worker run
    without a failing assertion and without the use of a batch that was freed.
    Every batch is on the list its flags say, is found from its resource, and
    has at least one reference; a connection has as many references as there
    are batches for it. *)
Theorem batch_run_safe (s : bmgr E) (R : gset Z) (A : list E) :
  batch_run s R A →
  (∀ newreq_rc now r opc e len expire, ∃ rc s',
     (_ ← csvc_adj r 1; batchrq_add newreq_rc 0 0 now r opc e len expire) s = Done (rc, s')) ∧
  (∀ now, ∃ s', slmbchrqthr_round 0 0 now s = Done (tt, s')) ∧
  (∀ bid, bid ∈ bm_rpcs s → ∃ s', sl_batchrqsend_cb bid 0 s = Done (tt, s')) ∧
  (∀ len mq_rc bid bulk_rc, bid ∈ bm_waitreply s → bid ∉ R → ∃ rc s', sl_handle_batchrp len mq_rc bid bulk_rc s = Done (rc, s')) ∧
  (∃ s', batch_worker s = Done (tt, s')) ∧
  (∀ bid b, bm_brs s !! bid = Some b →
     (if hasf (br_flags b) (Z.lor BATCHF_WAITREPLY BATCHF_RQINFL)
      then bid ∈ bm_waitreply s ∧ bid ∉ bm_delayed s else bid ∈ bm_delayed s ∧ bid ∉ bm_waitreply s) ∧
     bid ∈ default [] (bm_res s !! br_res b) ∧ 0 < br_refcnt b) ∧
  (∀ r, default 0 (bm_csvc s !! r) = cnt (λ b, br_res b =? r) (live s)).
Proof.
  intros Hrun. pose proof (run_inv s R A Hrun) as Hi. split_and!.
  - intros newreq_rc now r opc e len expire.
    destruct (wp_run _ _ _ (add_inv s R A newreq_rc now r opc e len expire Hi)) as (rc & s' & Hs & _). eauto.
  - intros now. destruct (wp_run _ _ _ (round_inv s R A now Hi)) as ([] & s' & Hs & _). eauto.
  - intros bid Hin. destruct (wp_run _ _ _ (sent_inv s R A bid Hi Hin)) as ([] & s' & Hs & _). eauto.
  - intros len mq_rc bid bulk_rc Hin HR.
    destruct (wp_run _ _ _ (reply_inv s R A len mq_rc bid bulk_rc Hi Hin HR)) as (rc & s' & Hs & _). eauto.
  - destruct (wp_run _ _ _ (worker_inv s R A Hi)) as ([] & s' & Hs & _). eauto.
  - intros bid b Hb. destruct (bc_br _ _ _ _ _ Hi _ _ Hb) as (_ & _ & Hres).
    pose proof (bc_nodup _ _ _ _ _ Hi) as Hn. apply NoDup_app in Hn as (_ & Hn & _).
    assert (Hin : bid ∈ bm_delayed s ++ bm_waitreply s) by (apply Hi; by rewrite Hb). apply elem_of_app in Hin as [Hin|Hin].
    + destruct (bc_open _ _ _ _ _ Hi _ _ Hb Hin) as ((-> & ->) & _). simpl. split_and!; [done|by apply Hn|done|lia].
    + pose proof (bc_sent _ _ _ _ _ Hi _ _ Hb Hin) as Hs. rewrite (sent_flags _ _ _ _ Hs). destruct Hs as (_ & _ & _ & _ & _ & ?).
      split_and!; [done| |done|done]. intros Hd. by apply (Hn bid).
  - apply Hi.
Qed.

(** C31: from every state of such a run the batches can be brought to their
    end: finitely many steps of the thread, the worker and the network, without
    a new entry, lead from that state to one in which no batch is left, no
    connection is referenced, and every entry that was accepted was handed to a
    callback exactly once, each batch having its own callback once. *)
Theorem batch_run_completes (s : bmgr E) (R : gset Z) (A : list E) :
  batch_run s R A →
  ∃ s' R', rtc batch_step (s, R) (s', R') ∧ bm_brs s' = ∅ ∧ bm_rpcs s' = [] ∧ bm_work s' = [] ∧
           NoDup (br_bid <$> bm_done s') ∧ concat (br_ents <$> bm_done s') ≡ₚ A ∧
           (∀ r, default 0 (bm_csvc s' !! r) = 0).
Proof.
  intros (s' & R' & Hsteps & Hrun & Ht)%run_drains. exists s', R'. pose proof (run_inv _ _ _ Hrun) as Hi.
  pose proof (todo_none s' R' A Hi Ht) as Hnone. unfold todo in Ht. pose proof (cnt_nonneg (pending R') (bm_waitreply s')) as Hc.
  assert (Hl : live s' = []) by (unfold live; by rewrite Hnone, map_to_list_empty).
  split_and!; [done|done|apply length_zero_iff_nil; lia|apply length_zero_iff_nil; lia|apply Hi| |].
  - rewrite (bc_ents _ _ _ _ _ Hi), Hl. done.
  - intros r. rewrite (bc_csvc _ _ _ _ _ Hi r), Hl. done.
Qed.

(** When a batch cannot be sent, because the bulk transfer cannot be set
    up or the request cannot be queued, the clean-up removes it from
    [batchrqs_delayed], but it was already moved to [batchrqs_waitreply]: the
    removal from a list the batch is not on fails. *)
Theorem batch_send_failure (s : bmgr E) (R : gset Z) (A : list E) (bid bulk_rc add_rc : Z) :
  batch_run s R A → bid ∈ bm_delayed s → bulk_rc ≠ 0 ∨ add_rc ≠ 0 →
  faults Assertion (batchrq_send bulk_rc add_rc bid) s.
Proof.
  intros Hrun Hd Hrc. pose proof (run_inv s R A Hrun) as Hi.
  destruct (proj1 (bc_dom _ _ _ _ _ Hi bid)) as [b Hb]; [apply elem_of_app; by left|].
  destruct (bc_open _ _ _ _ _ Hi _ _ Hb Hd) as ((Hfl & Hcnt) & _).
  unfold batchrq_send. apply faults_bind. eapply wp_getBr; [exact Hb|]. apply faults_bind. unfold setBr. wp_step.
  apply faults_bind. wp_step. apply faults_bind. apply wp_lc_remove; [done|]. apply faults_bind. wp_step.
  assert (((if negb (bulk_rc =? 0) then bulk_rc else add_rc) =? 0) = false) as ->.
  { destruct (Z.eqb_spec bulk_rc 0); simpl; apply Z.eqb_neq; tauto. }
  apply faults_bind. eapply wp_getBr; [apply lookup_insert_eq|]. apply faults_bind. wp_step.
  unfold batchrq_decref. apply faults_bind. eapply wp_getBr; [apply lookup_insert_eq|]. simpl. rewrite Hcnt, Hfl. simpl.
  apply faults_bind. wp_step. apply faults_bind. wp_step. simpl. apply faults_left. apply faults_left.
  unfold lc_remove. apply faults_left. rewrite bool_decide_eq_false_2; [done|]. rewrite filter_ne_elem. tauto.
Qed.

(** Entries for the same server and operation are never collected: the
    search for an open batch compares the caller's opcode with that of the RPC,
    [SRMT_BATCH_RQ], so every entry with another opcode gets a batch of its
    own, which waits for its time to be over. *)
Theorem batch_never_shared (s : bmgr E) (R : gset Z) (A : list E) (now r opc : Z) (e : E) (len expire : Z) :
  batch_run s R A → opc ≠ SRMT_BATCH_RQ → 0 < len → 2 * len ≤ LNET_MTU →
  wp (batchrq_add 0 0 0 now r opc e len expire)
     (λ rc s', rc = 0 ∧ ∃ b, bm_brs s' = <[bm_bid s + 1 := b]> (bm_brs s) ∧ bm_brs s !! (bm_bid s + 1) = None ∧
               br_ents b = [e] ∧ br_res b = r ∧ br_opc b = opc ∧ br_expire b = now + expire ∧
               bm_delayed s' ≡ₚ (bm_bid s + 1) :: bm_delayed s) s.
Proof.
  intros Hrun Hopc Hlen Hmtu. pose proof (run_inv s R A Hrun) as Hi. unfold batchrq_add. wp_step. wp_step.
  assert (filter (λ bid, batch_open s opc bid = true) (default [] (bm_res s !! r)) = []) as ->.
  { apply filter_none. intros k _. unfold batch_open. rewrite (proj2 (Z.eqb_neq _ _) Hopc).
    destruct (bm_brs s !! k); [|done]. by rewrite andb_false_r. }
  wp_step. simpl. wp_step. wp_step. wp_step. wp_step. eapply wp_getBr; [apply lookup_insert_eq|]. wp_step. unfold setBr. wp_step.
  simpl. wp_step. wp_step; [lia|]. wp_step. split; [done|]. eexists. split_and!; [apply insert_insert_eq|..]; try done.
  - destruct (bm_brs s !! (bm_bid s + 1)) eqn:Heq; [|done]. apply (bc_br _ _ _ _ _ Hi) in Heq. lia.
  - apply lc_add_sorted_perm.
Qed.

(** A batch whose RPC fails keeps the reference for a reply that never comes:
    its callback does not run. *)
Theorem batch_rpc_failure_stays (s : bmgr E) (R : gset Z) (A : list E) (bid rc : Z) :
  batch_run s R A → bid ∈ bm_rpcs s → bid ∉ R → bm_work s = [] → rc ≠ 0 →
  wp (_ ← sl_batchrqsend_cb bid rc; batch_worker)
     (λ _ s', (∃ b, bm_brs s' !! bid = Some b ∧ br_refcnt b = 1 ∧ hasf (br_flags b) BATCHF_RQINFL = true) ∧
              bid ∈ bm_waitreply s' ∧ (bid ∉ bm_rpcs s') ∧ bm_work s' = [] ∧ bm_done s' = bm_done s) s.
Proof.
  intros Hrun Hin HR Hwk Hrc. pose proof (run_inv s R A Hrun) as Hi.
  assert (Hp : 0 < cnt (Z.eqb bid) (bm_rpcs s)) by (eapply cnt_pos; [exact Hin|apply Z.eqb_refl]).
  assert (Hpos : 0 < owed s bid + fins s bid) by (unfold owed, fins; rewrite Hwk; simpl; lia).
  destruct (inv_owed s R A bid Hi Hpos) as (b & Hb & Hwr).
  destruct (bc_sent _ _ _ _ _ Hi _ _ Hb Hwr) as (Ho & _ & _ & Hfl & Hcnt & _).
  rewrite bool_decide_eq_false_2 in Hcnt by done. assert (Ho1 : owed s bid = 1) by (unfold owed in *; rewrite Hwk in *; simpl in *; lia).
  rewrite Ho1 in *. simpl in Hfl.
  unfold sl_batchrqsend_cb. wp_step. wp_step. eapply wp_getBr; [exact Hb|]. wp_step. wp_step.
  rewrite (proj2 (Z.eqb_neq _ _) Hrc). simpl. unfold batchrq_sched. wp_step. unfold batch_worker. wp_step. wp_step. simpl. rewrite Hwk. simpl.
  wp_step. wp_step. unfold batchrq_decref. wp_step. eapply wp_getBr; [exact Hb|]. simpl. rewrite Hcnt. wp_step. wp_step; [done|].
  simpl. unfold setBr. wp_step. simpl. split_and!; try done.
  - eexists. split; [apply lookup_insert_eq|]. simpl. by rewrite Hfl.
  - rewrite filter_ne_elem. tauto.
Qed.
End props.

(** ** Witnesses

    A transport with a small buffer and a list that keeps the order of
    arrival. *)
Module BatchEx.
#[global] Instance demo_list : PflList := {| LNET_MTU := 64; lc_add_sorted := λ _ x l, l ++ [x] |}.
#[global] Instance demo_list_laws : PflListLaws.
Proof. split; [done|]. intros cmp x l. by rewrite (Permutation_app_comm l [x]). Qed.

(** One entry, sent when its time is over. *)
Definition demo_added : bmgr Z :=
  match (_ ← csvc_adj 7 1; batchrq_add 0 0 0 100 7 SRMT_REPL_SCHEDWK 42 8 5) bmgr_init with Done (_, s) => s | _ => bmgr_init end.
Definition demo_sent : bmgr Z := match slmbchrqthr_round 0 0 106 demo_added with Done (_, s) => s | _ => bmgr_init end.
Lemma demo_added_run : batch_run demo_added ∅ [42].
Proof. apply (run_add bmgr_init ∅ [] 0 100 7 SRMT_REPL_SCHEDWK 42 8 5 0); [apply run_init|]. vm_compute. reflexivity. Qed.
Lemma demo_sent_run : batch_run demo_sent ∅ [42].
Proof. apply (run_round demo_added ∅ [42] 106); [apply demo_added_run|]. vm_compute. reflexivity. Qed.

End BatchEx.
Import BatchEx.

Lemma batch_run_safe_witness : ∃ s' : bmgr Z, batch_worker demo_sent = Done (tt, s').
Proof. apply (batch_run_safe demo_sent ∅ [42] demo_sent_run). Defined.
Lemma batch_run_completes_witness : ∃ s' R', rtc batch_step (demo_sent, ∅) (s', R') ∧ bm_brs s' = ∅ ∧ concat (br_ents <$> bm_done s') ≡ₚ [42].
Proof. destruct (batch_run_completes demo_sent ∅ [42] demo_sent_run) as (s' & R' & ? & ? & _ & _ & _ & ? & _). by exists s', R'. Defined.
Lemma batch_send_failure_witness : faults Assertion (batchrq_send (- EIO) 0 1) demo_added.
Proof.
  apply (batch_send_failure demo_added ∅ [42] 1 (- EIO) 0); [apply demo_added_run| |by left].
  assert (bm_delayed demo_added = [1]) as -> by (vm_compute; reflexivity). by left.
Defined.
Lemma batch_never_shared_witness : ∃ rc s', batchrq_add 0 0 0 101 7 SRMT_REPL_SCHEDWK 43 8 5 demo_added = Done (rc, s') ∧ rc = 0.
Proof.
  destruct (wp_run _ _ _ (batch_never_shared demo_added ∅ [42] 101 7 SRMT_REPL_SCHEDWK 43 8 5 demo_added_run ltac:(done)
    ltac:(lia) ltac:(done))) as (rc & s' & Hs & -> & _). by exists 0, s'.
Defined.
