(* ===== verification/Bandwidth.v ===== *)
(** * Bandwidth between I/O systems ([resmpair_bw_adj] in
      [slashd/repl_mds.c])

    The scheduler reserves bandwidth for a replication before it sends the
    work, and returns it when the work is done.  Amounts are counted in units
    of [BW_UNITSZ] octets, per I/O system and direction: what the server
    reported to be queued, what was assigned since the last report, and all
    that is assigned. *)
From S2P Require Import Prelude BmapMds.

(** ** Data *)
Definition BW_UNITSZ : Z := 4096.
(** The default of a control parameter; a run keeps one value. *)
Definition slm_bwqueuesz : Z := 8 * 32 * 1024.

Record bw_dir := { bwd_queued : Z; bwd_inflight : Z; bwd_assigned : Z }.
(** The three directions of [struct rpmi_ios]. *)
Inductive bwd := Ingress | Egress | Aggr.
#[global] Instance bwd_eq_dec : EqDecision bwd.
Proof. solve_decision. Defined.
#[global] Instance bwd_countable : Countable bwd.
Proof.
  refine (inj_countable' (λ d, match d with Ingress => 0 | Egress => 1 | Aggr => 2 end)
            (λ n, if n =? 0 then Ingress else if n =? 1 then Egress else Aggr) _). by intros [].
Defined.

(** [si_bw_ingress], [si_bw_egress] and [si_bw_aggr] by resource; they are zero
    at the start. *)
Abbreviation bwmap := (gmap (Z * bwd) bw_dir).
Definition bw0 : bw_dir := {| bwd_queued := 0; bwd_inflight := 0; bwd_assigned := 0 |}.
Definition bw_get (m : bwmap) (k : Z * bwd) : bw_dir := default bw0 (m !! k).

(** ** Operations *)
Definition HAS_BW (m : bwmap) (k : Z * bwd) : bool :=
  bwd_queued (bw_get m k) + bwd_inflight (bw_get m k) <? slm_bwqueuesz.
Definition bw_adjusted (d : bw_dir) (amt : Z) : bw_dir :=
  {| bwd_queued := bwd_queued d; bwd_inflight := (if amt >? 0 then bwd_inflight d + amt else bwd_inflight d);
     bwd_assigned := bwd_assigned d + amt |}.
Definition ADJ_BW (k : Z * bwd) (amt : Z) : M bwmap unit :=
  m ← getM;
  _ ← putM (<[k := bw_adjusted (bw_get m k) amt]> m);
  psc_assert (bwd_assigned (bw_get m k) + amt >=? 0).

Definition SIGN (x : Z) : Z := if x >=? 0 then 1 else -1.
Definition bw_units (amt_bytes : Z) : Z := SIGN amt_bytes * howmany (Z.abs amt_bytes) BW_UNITSZ.

(** The four counters of a pair. *)
Definition bw_pair (src dst : Z) : list (Z * bwd) := [(src, Egress); (src, Aggr); (dst, Ingress); (dst, Aggr)].
(** Whether all of them have bandwidth left. *)
Definition bw_room (m : bwmap) (src dst : Z) : bool := forallb (HAS_BW m) (bw_pair src dst).
#[global] Arguments bw_room : simpl never.
Fixpoint ADJ_BW_all (l : list (Z * bwd)) (amt : Z) : M bwmap unit :=
  match l with [] => mret tt | k :: l => _ ← ADJ_BW k amt; ADJ_BW_all l amt end.

(** The result and, when it is asked for, whether there is more. *)
Definition resmpair_bw_adj (src dst amt_bytes : Z) (ask : bool) : M bwmap (bool * bool) :=
  let amt := bw_units amt_bytes in
  m ← getM;
  if (amt <? 0) || bw_room m src dst then
    _ ← ADJ_BW_all (bw_pair src dst) amt;
    m ← getM;
    mret (true, ask && bw_room m src dst)
  else mret (false, false).

(** The report that comes with a message from an I/O server, in
    [slm_rpc_ion_unpack_statfs]: [frsize] is the block size in it. *)
Definition bw_report (r frsize ingress egress aggr : Z) : M bwmap unit :=
  let upd (d : bw_dir) (q : Z) := {| bwd_queued := q; bwd_inflight := 0; bwd_assigned := bwd_assigned d |} in
  if frsize =? 0 then mret tt
  else
    m ← getM;
    putM (<[(r, Aggr) := upd (bw_get m (r, Aggr)) aggr]> (<[(r, Egress) := upd (bw_get m (r, Egress)) egress]>
           (<[(r, Ingress) := upd (bw_get m (r, Ingress)) ingress]> m))).

(** ** What is assigned is what was reserved and not returned *)

(** Reservations that are out: the pair and the amount in octets. *)
Abbreviation resv := (Z * Z * Z)%type.
Definition uses (k : Z * bwd) (x : resv) : Z :=
  (if bool_decide (k ∈ bw_pair x.1.1 x.1.2) then bw_units x.2 else 0).
Definition reserved (O : list resv) (k : Z * bwd) : Z := foldr (λ x n, uses k x + n) 0 O.
Definition bw_inv (O : list resv) (m : bwmap) : Prop :=
  (∀ x, x ∈ O → x.1.1 ≠ x.1.2 ∧ 0 < x.2) ∧ ∀ k, bwd_assigned (bw_get m k) = reserved O k.

Lemma units_pos a : 0 < a → 0 < bw_units a.
Proof.
  intros Ha. unfold bw_units, SIGN, howmany, BW_UNITSZ. rewrite (proj2 (Z.geb_le a 0)), Z.abs_eq by lia.
  assert (1 ≤ (a + (4096 - 1)) / 4096) by (apply Z.div_le_lower_bound; lia). lia.
Qed.
Lemma units_neg a : 0 < a → bw_units (- a) = - bw_units a.
Proof.
  intros Ha. unfold bw_units, SIGN. rewrite (proj2 (Z.geb_le a 0)), Z.abs_opp by lia.
  assert ((- a >=? 0) = false) as -> by (rewrite Z.geb_leb; apply Z.leb_gt; lia). lia.
Qed.
Lemma units_mono a b : 0 < a → a ≤ b → bw_units a ≤ bw_units b.
Proof.
  intros Ha Hb. unfold bw_units, SIGN, howmany, BW_UNITSZ. rewrite !(proj2 (Z.geb_le _ 0)), !Z.abs_eq by lia.
  assert ((a + (4096 - 1)) / 4096 ≤ (b + (4096 - 1)) / 4096) by (apply Z.div_le_mono; lia). lia.
Qed.
#[global] Instance reserved_perm : Proper ((≡ₚ) ==> (=) ==> (=)) reserved.
Proof. intros O O' HO k ? <-. unfold reserved. induction HO; simpl; lia. Qed.
Lemma uses_nonneg O k : (∀ x, x ∈ O → x.1.1 ≠ x.1.2 ∧ 0 < x.2) → 0 ≤ reserved O k.
Proof.
  induction O as [|x O IH]; simpl; intros HO; [done|]. assert (0 ≤ reserved O k) by (apply IH; intros y Hy; apply HO; by right).
  destruct (HO x) as [_ Hx]; [by left|]. pose proof (units_pos _ Hx). unfold uses. case_bool_decide; lia.
Qed.
Lemma pair_nodup src dst : src ≠ dst → NoDup (bw_pair src dst).
Proof.
  intros Hne. unfold bw_pair. repeat (apply NoDup_cons; split; [rewrite ?elem_of_cons, ?elem_of_nil; intuition congruence|]).
  apply NoDup_nil_2.
Qed.

(** One pass over counters, each of which can take the change. *)
Lemma wp_adj_all (l : list (Z * bwd)) (amt : Z) (m : bwmap) (Q : unit → bwmap → Prop) :
  NoDup l → (∀ k, k ∈ l → 0 ≤ bwd_assigned (bw_get m k) + amt) →
  (∀ m', (∀ k, bw_get m' k = if bool_decide (k ∈ l) then bw_adjusted (bw_get m k) amt else bw_get m k) → Q tt m') →
  wp (ADJ_BW_all l amt) Q m.
Proof.
  intros Hnd. revert m. induction Hnd as [|k l Hk Hnd IH]; intros m Hpos HQ; simpl; [wp_step; by apply HQ|].
  wp_step. unfold ADJ_BW. wp_step. wp_step. wp_step. wp_step.
  assert (Hget : ∀ j, bw_get (<[k := bw_adjusted (bw_get m k) amt]> m) j = if decide (j = k) then bw_adjusted (bw_get m k) amt else bw_get m j).
  { intros j. unfold bw_get at 1. case_decide as Hj; [subst; by rewrite lookup_insert_eq|]. by rewrite lookup_insert_ne. }
  wp_step; [apply Z.geb_le, Hpos; by left|]. apply IH.
  - intros j Hj. rewrite Hget. rewrite decide_False by congruence. apply Hpos. by right.
  - intros m' Hm'. apply HQ. intros j. rewrite Hm', Hget. destruct (decide (j = k)) as [->|Hne].
    + rewrite (bool_decide_eq_false_2 (k ∈ l)), (bool_decide_eq_true_2 (k ∈ k :: l)) by (done || by left). done.
    + assert (bool_decide (j ∈ k :: l) = bool_decide (j ∈ l)) as ->; [|done].
      apply bool_decide_ext. rewrite elem_of_cons. tauto.
Qed.

(** Bandwidth is reserved, when there is some. *)
Lemma wp_bw_reserve (O : list resv) (m : bwmap) (src dst a : Z) (ask : bool) (Q : bool * bool → bwmap → Prop) :
  bw_inv O m → src ≠ dst → 0 < a →
  (bw_room m src dst = false → Q (false, false) m) →
  (∀ m' more, bw_room m src dst = true → bw_inv ((src, dst, a) :: O) m' →
     more = ask && bw_room m' src dst →
     (∀ k, bw_get m' k = if bool_decide (k ∈ bw_pair src dst) then bw_adjusted (bw_get m k) (bw_units a) else bw_get m k) →
     Q (true, more) m') →
  wp (resmpair_bw_adj src dst a ask) Q m.
Proof.
  intros [HO Hinv] Hne Ha Hno Hyes. pose proof (units_pos a Ha) as Hu. unfold resmpair_bw_adj. cbv zeta. wp_step. wp_step.
  assert ((bw_units a <? 0) = false) as -> by (apply Z.ltb_ge; lia). rewrite orb_false_l.
  destruct (bw_room m src dst) eqn:Hb; [|wp_step; by apply Hno].
  wp_step. apply wp_adj_all; [by apply pair_nodup| |].
  { intros k _. rewrite Hinv. pose proof (uses_nonneg O k HO). lia. }
  intros m' Hm'. wp_step. wp_step. wp_step. apply Hyes; [done| |done|done]. split.
  - intros x [->|Hx]%elem_of_cons; [done|by apply HO].
  - intros k. rewrite Hm'. specialize (Hinv k).
    change (reserved ((src, dst, a) :: O) k) with ((if bool_decide (k ∈ bw_pair src dst) then bw_units a else 0) + reserved O k).
    case_bool_decide; simpl; lia.
Qed.

(** A reservation that is out can be returned. *)
Lemma wp_bw_release (O : list resv) (m : bwmap) (src dst a : Z) (ask : bool) (Q : bool * bool → bwmap → Prop) :
  bw_inv ((src, dst, a) :: O) m →
  (∀ m' more, bw_inv O m' →
     (∀ k, bwd_queued (bw_get m' k) = bwd_queued (bw_get m k) ∧ bwd_inflight (bw_get m' k) = bwd_inflight (bw_get m k)) →
     Q (true, more) m') →
  wp (resmpair_bw_adj src dst (- a) ask) Q m.
Proof.
  intros [HO Hinv] HQ. destruct (HO (src, dst, a)) as [Hne Ha]; [by left|]. cbn [fst snd] in Hne, Ha.
  assert (HO' : ∀ x, x ∈ O → x.1.1 ≠ x.1.2 ∧ 0 < x.2) by (intros x Hx; apply HO; by right).
  pose proof (units_pos a Ha) as Hu. unfold resmpair_bw_adj. cbv zeta. rewrite units_neg by done. wp_step. wp_step.
  assert ((- bw_units a <? 0) = true) as -> by (apply Z.ltb_lt; lia). rewrite orb_true_l.
  assert (Hin : ∀ k, reserved ((src, dst, a) :: O) k = (if bool_decide (k ∈ bw_pair src dst) then bw_units a else 0) + reserved O k) by done.
  wp_step. apply wp_adj_all; [by apply pair_nodup| |].
  { intros k Hk. rewrite Hinv, Hin, bool_decide_eq_true_2 by done. pose proof (uses_nonneg O k HO'). lia. }
  intros m' Hm'. wp_step. wp_step. wp_step. apply HQ; [split; [done|]|]; intros k; rewrite Hm'.
  - specialize (Hinv k). rewrite Hin in Hinv. case_bool_decide; simpl; lia.
  - assert ((- bw_units a >? 0) = false) as Hg by (rewrite Z.gtb_ltb; apply Z.ltb_ge; lia).
    unfold bw_adjusted. rewrite Hg. by case_bool_decide.
Qed.

Lemma wp_bw_report (O : list resv) (m : bwmap) (r frsize ingress egress aggr : Z) (Q : unit → bwmap → Prop) :
  bw_inv O m → (∀ m', bw_inv O m' → Q tt m') → wp (bw_report r frsize ingress egress aggr) Q m.
Proof.
  intros [HO Hinv] HQ. unfold bw_report. cbv zeta. wp_step; [wp_step; by apply HQ|]. wp_step. wp_step. wp_step.
  apply HQ. split; [done|]. intros k. rewrite <-Hinv. unfold bw_get at 1.
  destruct (decide (k = (r, Aggr))) as [->|]; [by rewrite lookup_insert_eq|rewrite lookup_insert_ne by done].
  destruct (decide (k = (r, Egress))) as [->|]; [by rewrite lookup_insert_eq|rewrite lookup_insert_ne by done].
  destruct (decide (k = (r, Ingress))) as [->|]; [by rewrite lookup_insert_eq|by rewrite lookup_insert_ne].
Qed.

(** ** Properties *)

(** Runs of reservations, returns of what was reserved, and reports. *)
Inductive bw_run : list resv → bwmap → Prop :=
| bw_start : bw_run [] ∅
| bw_reserve (O : list resv) (m : bwmap) (src dst a : Z) (ask rc more : bool) (m' : bwmap) :
    bw_run O m → src ≠ dst → 0 < a ≤ SLASH_BMAP_SIZE → resmpair_bw_adj src dst a ask m = Done ((rc, more), m') →
    bw_run (if rc then (src, dst, a) :: O else O) m'
| bw_return (O O' : list resv) (m : bwmap) (src dst a : Z) (ask : bool) (r : bool * bool) (m' : bwmap) :
    bw_run O m → O ≡ₚ (src, dst, a) :: O' → resmpair_bw_adj src dst (- a) ask m = Done (r, m') → bw_run O' m'
| bw_reported (O : list resv) (m : bwmap) (r frsize ingress egress aggr : Z) (m' : bwmap) :
    bw_run O m → 0 ≤ ingress → 0 ≤ egress → 0 ≤ aggr → bw_report r frsize ingress egress aggr m = Done (tt, m') → bw_run O m'.

Lemma bw_inv_perm (O O' : list resv) (m : bwmap) : O ≡ₚ O' → bw_inv O m → bw_inv O' m.
Proof. intros HO [Ha Hb]. split; intros k; rewrite <-HO; [apply Ha|apply Hb]. Qed.

(** The largest reservation is one bmap. *)
Definition BW_BMAP : Z := 32 * 1024.
Lemma units_bmap a : 0 < a ≤ SLASH_BMAP_SIZE → 0 < bw_units a ≤ BW_BMAP.
Proof.
  intros [Ha Hb]. split; [by apply units_pos|]. etransitivity; [by apply units_mono|]. vm_compute. discriminate.
Qed.

Definition bw_bounded (m : bwmap) : Prop :=
  ∀ k, 0 ≤ bwd_queued (bw_get m k) ∧ 0 ≤ bwd_inflight (bw_get m k) < slm_bwqueuesz + BW_BMAP.

Lemma bw_run_inv (O : list resv) (m : bwmap) : bw_run O m → bw_inv O m ∧ bw_bounded m.
Proof.
  induction 1 as [|O m src dst a ask rc more m' _ [IH IHb] Hne Ha Hrun|O O' m src dst a ask r m' _ [IH IHb] HO Hrun
                 |O m r frsize i e g m' _ [IH IHb] Hi He Hg Hrun].
  - split; [split|]; intros k; [by intros ?%elem_of_nil|done|]. unfold bw_get. rewrite lookup_empty. simpl. unfold slm_bwqueuesz, BW_BMAP. lia.
  - assert (Hwp : wp (resmpair_bw_adj src dst a ask) (λ r m', bw_inv (if r.1 then (src, dst, a) :: O else O) m' ∧ bw_bounded m') m).
    { apply (wp_bw_reserve O); [done|done|lia|done|]. intros m1 more1 Hhas Hinv1 _ Hm1. split; [done|]. intros k. rewrite Hm1.
      destruct (IHb k) as [? ?]. case_bool_decide as Hk; [|done]. simpl. pose proof (units_bmap a Ha).
      unfold bw_room in Hhas. rewrite forallb_elem_of in Hhas. specialize (Hhas k Hk). unfold HAS_BW in Hhas.
      rewrite (proj2 (Z.gtb_lt (bw_units a) 0)) by lia. lia. }
    exact (wp_done _ _ _ _ _ Hrun Hwp).
  - assert (Hwp : wp (resmpair_bw_adj src dst (- a) ask) (λ _ m', bw_inv O' m' ∧ bw_bounded m') m).
    { apply (wp_bw_release O'); [by apply (bw_inv_perm O)|]. intros m1 more1 Hinv1 Hm1. split; [done|]. intros k.
      destruct (Hm1 k) as [-> ->]. apply IHb. }
    exact (wp_done _ _ _ _ _ Hrun Hwp).
  - assert (Hwp : wp (bw_report r frsize i e g) (λ _ m', bw_inv O m') m) by (by apply (wp_bw_report O)).
    split; [exact (wp_done _ _ _ _ _ Hrun Hwp)|]. clear Hwp. revert Hrun. unfold bw_report. destruct (frsize =? 0); intros Hrun.
    { injection Hrun as <-. done. }
    injection Hrun as <-. intros k. unfold bw_get.
    destruct (decide (k = (r, Aggr))) as [->|]; [rewrite lookup_insert_eq; simpl; unfold slm_bwqueuesz, BW_BMAP; lia|rewrite lookup_insert_ne by done].
    destruct (decide (k = (r, Egress))) as [->|]; [rewrite lookup_insert_eq; simpl; unfold slm_bwqueuesz, BW_BMAP; lia|rewrite lookup_insert_ne by done].
    destruct (decide (k = (r, Ingress))) as [->|]; [rewrite lookup_insert_eq; simpl; unfold slm_bwqueuesz, BW_BMAP; lia|].
    rewrite lookup_insert_ne by done. apply IHb.
Qed.

(** C33: bandwidth is neither lost nor returned twice.  Whatever was reserved,
    returned and reported, what is assigned in each direction of each system is
    the sum of the reservations that are out, every one of them can be returned
    without a failing assertion, and nothing is assigned when none is out.  The
    amount assigned since the last report exceeds the configured limit by at
    most one bmap, since the test for free bandwidth does not count the amount
    that is asked for. *)
Theorem bandwidth_balance (O : list resv) (m : bwmap) :
  bw_run O m →
  (∀ k, bwd_assigned (bw_get m k) = reserved O k) ∧
  (∀ src dst a O' ask, O ≡ₚ (src, dst, a) :: O' →
     ∃ more m', resmpair_bw_adj src dst (- a) ask m = Done ((true, more), m') ∧
                ∀ k, bwd_assigned (bw_get m' k) = reserved O' k) ∧
  (∀ k, 0 ≤ bwd_inflight (bw_get m k) < slm_bwqueuesz + BW_BMAP).
Proof.
  intros Hrun. destruct (bw_run_inv O m Hrun) as [Hi Hb]. split_and!.
  - apply Hi.
  - intros src dst a O' ask HO.
    destruct (wp_run (resmpair_bw_adj src dst (- a) ask) (λ r m', r.1 = true ∧ bw_inv O' m') m) as ([rc more] & m' & Hm & Hrc & Hi').
    { apply (wp_bw_release O'); [by apply (bw_inv_perm O)|]. intros m1 more Hi1 _. done. }
    simpl in Hrc. subst. exists more, m'. split; [done|apply Hi'].
  - intros k. apply Hb.
Qed.

(** A reservation of a whole bmap between systems 7 and 8. *)
Definition bw_demo : bwmap :=
  match resmpair_bw_adj 7 8 SLASH_BMAP_SIZE true ∅ with Done (_, m) => m | Stuck _ => ∅ end.
Lemma bandwidth_balance_witness : bwd_assigned (bw_get bw_demo (8, Ingress)) = 32768 ∧ bwd_assigned (bw_get bw_demo (7, Ingress)) = 0.
Proof.
  assert (Hrun : bw_run [(7, 8, SLASH_BMAP_SIZE)] bw_demo).
  { apply (bw_reserve [] ∅ 7 8 SLASH_BMAP_SIZE true true true); [apply bw_start|done|split; [done|reflexivity]|].
    vm_compute. reflexivity. }
  pose proof (bandwidth_balance _ _ Hrun) as (Ha & _). rewrite !Ha. split; vm_compute; reflexivity.
Defined.
