(* ===== verification/UpSched.v ===== *)
(** * The update scheduler ([slashd/up_sched_res.c])

    Work that is recorded in the replica states of a bmap is arranged with the
    I/O servers: a queued replica is copied from a system that has a valid one,
    a truncation is finished by a system with the data, and garbage is given
    back.  The answer of the server brings the states to their end, or back to
    pending. *)
From S2P Require Import Prelude ReplBits Inode ReplWalk BmapMds ReplMds IosSelect Bandwidth Batch.

(** ** Data *)
Definition ENODEV : Z := 19.
Definition ENODATA : Z := 61.

(** [struct srt_replwk_reqent] and the [slm_batchscratch_repl] that goes with
    it; [struct srt_preclaim_reqent]. *)
Record srt_replwk_reqent := { pe_fg : Z * Z; pe_bno : Z; pe_bgen : Z; pe_src : Z; pe_len : Z }.
Record slm_batchscratch_repl := { bsr_off : Z; bsr_amt : Z }.
Inductive bent :=
| EntRepl (pe : srt_replwk_reqent) (bsr : slm_batchscratch_repl)
| EntPreclaim (fg : Z * Z) (bno bgen : Z).
Definition SIZEOF_REPLWK : Z := 36.
Definition SIZEOF_PRECLAIM : Z := 32.

(** Items of [slm_db_lopri_workq] that the scheduler queues: [wk_bno] is [None]
    for [BMAPNO_ANY]. *)
Inductive schwork :=
| WkPurge (fid : Z) (bno : option Z)
| WkFinishPtrunc (resid off rc : Z).

(** The bmap at hand with the upsch table and the queues, the bandwidth, the
    batches, the systems with [SIF_PRECLAIM_NOTSUP], the references of type
    [BMAP_OPCNT_UPSCH] to the bmap, the systems that have its update on
    [rpmi_upschq], the PTRUNC RPCs that are out (system and offset), and the
    work items. *)
Record sched (D : Type) := {
  sc_ms : mstate D;
  sc_bw : bwmap;
  sc_bm : bmgr bent;
  sc_notsup : gset Z;
  sc_ref : Z;
  sc_rpmi : gset Z;
  sc_ptrpcs : list (Z * Z);
  sc_wk : list schwork;
}.
Arguments sc_ms {_}. Arguments sc_bw {_}. Arguments sc_bm {_}. Arguments sc_notsup {_}. Arguments sc_ref {_}.
Arguments sc_rpmi {_}. Arguments sc_ptrpcs {_}. Arguments sc_wk {_}.

(** What the transport answers when a batch is extended, and the time. *)
Record batch_env := { be_newreq : Z; be_bulk : Z; be_add : Z; be_now : Z }.

(** [FOREACH_RND] of PFL visits the indices below [n] in a random order, which
    depends on the loop; [pagein_select] is the [SELECT] of [upd_proc_pagein]
    on the table; [PFLERR_NOTSUP] is a code of PFL. *)
Class PflSched := {
  foreach_rnd : Z → Z → list Z;
  pagein_select : upsch_t → Z → list (Z * Z);
  PFLERR_NOTSUP : Z;
}.
Class PflSchedLaws `{PflSched} := {
  foreach_rnd_perm t n : foreach_rnd t n ≡ₚ seqZ 0 n;
  pagein_select_rows u resid fid bno :
    (fid, bno) ∈ pagein_select u resid → ∃ row, u !! (resid, fid, bno) = Some row ∧ ur_status row = StQ;
}.

(** ** Operations *)
Section ops.
Context {D : Type} `{BmapIO D} `{PflErr} `{PflList} `{PflSched}.
Context (f : finfo) (fgen : Z) (gc : sl_config) (sv : servers) (be : batch_env).
Abbreviation SS := (sched D).
Abbreviation SM := (M SS).

Definition sc_with_ms (s : SS) (m : mstate D) : SS :=
  {| sc_ms := m; sc_bw := sc_bw s; sc_bm := sc_bm s; sc_notsup := sc_notsup s; sc_ref := sc_ref s; sc_rpmi := sc_rpmi s;
     sc_ptrpcs := sc_ptrpcs s; sc_wk := sc_wk s |}.
Definition sc_with_bw (s : SS) (bw : bwmap) : SS :=
  {| sc_ms := sc_ms s; sc_bw := bw; sc_bm := sc_bm s; sc_notsup := sc_notsup s; sc_ref := sc_ref s; sc_rpmi := sc_rpmi s;
     sc_ptrpcs := sc_ptrpcs s; sc_wk := sc_wk s |}.
Definition sc_with_bm (s : SS) (bm : bmgr bent) : SS :=
  {| sc_ms := sc_ms s; sc_bw := sc_bw s; sc_bm := bm; sc_notsup := sc_notsup s; sc_ref := sc_ref s; sc_rpmi := sc_rpmi s;
     sc_ptrpcs := sc_ptrpcs s; sc_wk := sc_wk s |}.
(** Operations on one part of the state. *)
Definition onMs {A} (m : M (mstate D) A) : SM A := λ s,
  match m (sc_ms s) with Done (a, ms) => Done (a, sc_with_ms s ms) | Stuck w => Stuck w end.
Definition onBw {A} (m : M bwmap A) : SM A := λ s,
  match m (sc_bw s) with Done (a, bw) => Done (a, sc_with_bw s bw) | Stuck w => Stuck w end.
Definition onBm {A} (m : M (bmgr bent) A) : SM A := λ s,
  match m (sc_bm s) with Done (a, bm) => Done (a, sc_with_bm s bm) | Stuck w => Stuck w end.
Definition sc_with_ptrunc (s : SS) (ref : Z) (rpmi : gset Z) (rpcs : list (Z * Z)) (wk : list schwork) : SS :=
  {| sc_ms := sc_ms s; sc_bw := sc_bw s; sc_bm := sc_bm s; sc_notsup := sc_notsup s; sc_ref := ref; sc_rpmi := rpmi;
     sc_ptrpcs := rpcs; sc_wk := wk |}.

(** [res_getmemb]. *)
Definition res_getmemb (r : sl_resource) : SM sl_resm :=
  match res_members r with [] => stuckM Assertion | m :: _ => mret m end.
(** [slm_geticsvc], not to wait and not to reconnect: a reference when there is
    a connection. *)
Definition slm_geticsvc (m : sl_resm) : SM bool :=
  if sv_conn sv m then _ ← onBm (csvc_adj (resm_res_id m) 1); mret true else mret false.
Definition csvc_decref (m : sl_resm) : SM unit := onBm (sl_csvc_decref (resm_res_id m)).

(** [UPDATE upsch SET status = ? WHERE resid = ? AND fid = ? AND bno = ?] *)
Definition set_status (resid : Z) (st : upst) : M (mstate D) unit := modifyM (λ s,
  ms_with_upsch s (alter (λ row, {| ur_status := st; ur_sys_prio := ur_sys_prio row; ur_usr_prio := ur_usr_prio row;
                                    ur_nonce := ur_nonce row |}) (resid, fi_fid f, bcm_bmapno (ms_b s)) (ms_upsch s))).
Definition mds_bmap_write_logrepls : M (mstate D) Z := mds_bmap_write f LogBmapRepls.
(** [BMAPOD_MODIFY_DONE]. *)
Definition modify_done : M (mstate D) unit := modB (λ b, b_with_wrlocked b false).

(** *** Replication *)
Definition nodata_tract : list Z := arr_set (brepls_init (-1)) BREPLST_REPL_QUEUED BREPLST_VALID.
Definition sched_tract : list Z := arr_set (brepls_init (-1)) BREPLST_REPL_QUEUED BREPLST_REPL_SCHED.
Definition undo_tract : list Z := arr_set (brepls_init (-1)) BREPLST_REPL_SCHED BREPLST_REPL_QUEUED.

(** The length in the request: the last bmap is shorter; [None] when there is
    no data. *)
Definition repl_len (bno : Z) : option Z :=
  let lastbno := fcmh_nvalidbmaps f in
  let lastbno := if lastbno >? 0 then lastbno - 1 else lastbno in
  if bno =? lastbno then
    let sz := fi_fsz f in
    let sz := if sz >? bno * SLASH_BMAP_SIZE then sz - bno * SLASH_BMAP_SIZE else sz in
    if sz =? 0 then None else Some (Z.min sz SLASH_BMAP_SIZE)
  else Some SLASH_BMAP_SIZE.

(** The label [fail] of [slm_upsch_tryrepl]. *)
Definition tryrepl_fail (off amt : Z) (src dst : sl_resm) (chg have_csvc : bool) : SM bool :=
  _ ← whenM chg (
    _ ← onMs (onB (bmap_apply (Some undo_tract) None off));
    onMs slm_repl_bmap_rel);
  _ ← onBw (resmpair_bw_adj (resm_res_id src) (resm_res_id dst) (- amt) false);
  _ ← whenM have_csvc (csvc_decref dst);
  mret false.

(** The part after the connection was found. *)
Definition tryrepl_send (off amt len : Z) (src dst : sl_resm) (dst_res : sl_resource) (moreavail : bool) : SM bool :=
  rc ← onMs (onB (bmap_apply (Some sched_tract) (Some brepls_init_idx) off));
  _ ← psc_assert (negb ((rc =? BREPLST_VALID) || (rc =? BREPLST_REPL_SCHED)));
  if negb (rc =? BREPLST_REPL_QUEUED) then tryrepl_fail off amt src dst true true
  else
    _ ← onMs (set_status (res_id dst_res) StS);
    s ← getM;
    let b := ms_b (sc_ms s) in
    let pe := {| pe_fg := (fi_fid f, fgen); pe_bno := bcm_bmapno b; pe_bgen := bod_gen (bmi_od b);
                 pe_src := resm_res_id src; pe_len := len |} in
    rc ← onBm (batchrq_add (be_newreq be) (be_bulk be) (be_add be) (be_now be) (res_id dst_res) SRMT_REPL_SCHEDWK
                 (EntRepl pe {| bsr_off := off; bsr_amt := amt |}) SIZEOF_REPLWK 5);
    if negb (rc =? 0) then
      _ ← onMs (set_status (res_id dst_res) StQ);
      tryrepl_fail off amt src dst true true
    else
      _ ← onMs slm_repl_bmap_rel;
      _ ← whenM moreavail (onMs (upschq_resm (resm_res_id dst)));
      mret true.

Definition slm_upsch_tryrepl (off : Z) (src : sl_resm) (dst_res : sl_resource) : SM bool :=
  dst ← res_getmemb dst_res;
  s ← getM;
  let amt := slm_bmap_calc_repltraffic f (ms_b (sc_ms s)) in
  if amt =? 0 then
    _ ← onMs (onB (bmap_apply (Some nodata_tract) None off));
    _ ← onMs mds_bmap_write_logrepls;
    _ ← onMs (upschq_resm (resm_res_id dst));
    mret true
  else
    '(ok, moreavail) ← onBw (resmpair_bw_adj (resm_res_id src) (resm_res_id dst) amt true);
    if negb ok then mret false
    else
      have ← slm_geticsvc dst;
      if negb have then tryrepl_fail off amt src dst false false
      else
        s ← getM;
        match repl_len (bcm_bmapno (ms_b (sc_ms s))) with
        | None => tryrepl_fail off amt src dst false true
        | Some len => tryrepl_send off amt len src dst dst_res moreavail
        end.

(** One entry of [slm_batch_repl_cb].  [get_rc] is the result of
    [slm_fcmh_get] and [bmap_get]; the reply is the array of codes, if there is
    one, and [idx] the number of the entry. *)
Definition done_tract : list Z :=
  arr_set (arr_set (brepls_init (-1)) BREPLST_REPL_SCHED BREPLST_VALID) BREPLST_REPL_QUEUED BREPLST_VALID.
Definition done_retifset : list Z := arr_set (arr_set (brepls_init 0) BREPLST_REPL_SCHED 1) BREPLST_REPL_QUEUED 1.
Definition fail_tract (to : Z) : list Z := arr_set (brepls_init (-1)) BREPLST_REPL_SCHED to.
Definition fail_retifset : list Z := arr_set (brepls_init 0) BREPLST_REPL_SCHED 1.

Definition repl_cb_entry (get_rc ecode : Z) (reply : option (list Z)) (idx : nat) (dst_res : sl_resource)
    (pe : srt_replwk_reqent) (bsr : slm_batchscratch_repl) : SM unit :=
  dst ← res_getmemb dst_res;
  _ ← (if negb (get_rc =? 0) then mret tt
       else
         s ← getM;
         let bgen := bod_gen (bmi_od (ms_b (sc_ms s))) in
         bprc ← (match reply with
                 | None => mret None
                 | Some l => match l !! idx with
                             | None => stuckM OutOfBounds
                             | Some rc => mret (Some (if (rc =? 0) && negb (pe_bgen pe =? bgen) then SLERR_GEN_OLD else rc))
                             end
                 end);
         '(t, r) ← (match bprc with
                    | Some 0 => if ecode =? 0 then mret (done_tract, done_retifset)
                                else mret (fail_tract BREPLST_GARBAGE, fail_retifset)
                    | Some rc =>
                        if rc =? SLERR_ION_OFFLINE then
                          _ ← onMs (set_status (res_id dst_res) StQ);
                          mret (fail_tract BREPLST_REPL_QUEUED, fail_retifset)
                        else mret (fail_tract BREPLST_GARBAGE, fail_retifset)
                    | None =>
                        _ ← onMs (set_status (res_id dst_res) StQ);
                        mret (fail_tract BREPLST_REPL_QUEUED, fail_retifset)
                    end);
         rc ← onMs (onB (bmap_apply (Some t) (Some r) (bsr_off bsr)));
         _ ← whenM (negb (rc =? 0)) (_ ← onMs mds_bmap_write_logrepls; mret tt);
         onMs slm_repl_bmap_rel);
  _ ← onBw (resmpair_bw_adj (pe_src pe) (resm_res_id dst) (- bsr_amt bsr) false);
  onMs (upschq_resm (resm_res_id dst)).

(** *** Truncation *)
Definition ptrunc_sched_tract : list Z := arr_set (brepls_init (-1)) BREPLST_TRUNCPNDG BREPLST_TRUNCPNDG_SCHED.
Definition ptrunc_undo_tract : list Z := arr_set (brepls_init (-1)) BREPLST_TRUNCPNDG_SCHED BREPLST_TRUNCPNDG.
Definition ptrunc_busy_retifset : list Z := arr_set (brepls_init 0) BREPLST_TRUNCPNDG_SCHED 1.

Definition ref_adj (k : Z) : SM unit := modifyM (λ s, sc_with_ptrunc s (sc_ref s + k) (sc_rpmi s) (sc_ptrpcs s) (sc_wk s)).

(** [upd_rpmi_add], [upd_rpmi_remove] for the update of the bmap. *)
Definition upd_rpmi_add (r : Z) : SM unit :=
  s ← getM;
  if bool_decide (r ∈ sc_rpmi s) then mret tt
  else _ ← putM (sc_with_ptrunc s (sc_ref s) ({[r]} ∪ sc_rpmi s) (sc_ptrpcs s) (sc_wk s)); ref_adj 1.
Definition upd_rpmi_remove (r : Z) : SM unit :=
  s ← getM;
  if bool_decide (r ∈ sc_rpmi s)
  then _ ← putM (sc_with_ptrunc s (sc_ref s) (sc_rpmi s ∖ {[r]}) (sc_ptrpcs s) (sc_wk s)); ref_adj (-1)
  else mret tt.

(** [slm_upsch_finish_ptrunc]; the flags say whether there is a connection and
    whether the bmap is given. *)
Definition slm_upsch_finish_ptrunc (csvc have_b : bool) (dst : sl_resm) (rc off : Z) : SM unit :=
  _ ← whenM (negb (rc =? 0) && have_b) (
    _ ← onMs (onB (bmap_apply (Some ptrunc_undo_tract) None off));
    upd_rpmi_remove (resm_res_id dst));
  _ ← whenM csvc (csvc_decref dst);
  whenM have_b (ref_adj (-1)).

(** [slm_upsch_wk_finish_ptrunc]; [trybusy] is the result of
    [FCMH_TRYBUSY]. *)
Definition slm_upsch_wk_finish_ptrunc (trybusy : bool) (dst : sl_resm) (rc off : Z) : SM Z :=
  if negb trybusy then mret 1
  else _ ← slm_upsch_finish_ptrunc true true dst rc off; mret 0.

(** [slm_upsch_tryptrunc_cb], when the RPC is completed with [rc]. *)
Definition slm_upsch_tryptrunc_cb (resid off rc : Z) : SM unit := modifyM (λ s,
  sc_with_ptrunc s (sc_ref s) (sc_rpmi s)
    (match list_find (λ x, x = (resid, off)) (sc_ptrpcs s) with Some (i, _) => delete i (sc_ptrpcs s) | None => sc_ptrpcs s end)
    (sc_wk s ++ [WkFinishPtrunc resid off rc])).

(** [slm_upsch_tryptrunc]; [newreq_rc] and [add_rc] are the results of
    [SL_RSX_NEWREQ] and [SL_NBRQSET_ADD]; [csvc_err] that of
    [resm_getcsvcerr]. *)
Definition slm_upsch_tryptrunc (newreq_rc add_rc csvc_err : Z) (off : Z) (dst_res : sl_resource) : SM Z :=
  dst ← res_getmemb dst_res;
  rc ← onMs (onB (mds_repl_bmap_walk_all (fi_nrepls f) None (Some ptrunc_busy_retifset) REPL_WALKF_SCIRCUIT));
  if negb (rc =? 0) then mret (-1)
  else
    have ← slm_geticsvc dst;
    if negb have then _ ← slm_upsch_finish_ptrunc false false dst csvc_err off; mret 0
    else if negb (newreq_rc =? 0) then _ ← slm_upsch_finish_ptrunc true false dst newreq_rc off; mret 0
    else
      rc ← onMs (onB (bmap_apply (Some ptrunc_sched_tract) (Some brepls_init_idx) off));
      if rc =? BREPLST_TRUNCPNDG then
        _ ← ref_adj 1;
        _ ← upd_rpmi_add (resm_res_id dst);
        if add_rc =? 0 then
          _ ← modifyM (λ s, sc_with_ptrunc s (sc_ref s) (sc_rpmi s) (sc_ptrpcs s ++ [(resm_res_id dst, off)]) (sc_wk s));
          _ ← onMs slm_repl_bmap_rel;
          mret 1
        else _ ← slm_upsch_finish_ptrunc true true dst add_rc off; mret 0
      else _ ← slm_upsch_finish_ptrunc true false dst (- ENODEV) off; mret 0.

(** *** Garbage *)
Definition preclaim_tract : list Z := arr_set (brepls_init (-1)) BREPLST_GARBAGE BREPLST_GARBAGE_SCHED.
Definition preclaim_done_tract (rc : Z) : list Z :=
  arr_set (brepls_init (-1)) BREPLST_GARBAGE_SCHED (if negb (rc =? 0) then BREPLST_GARBAGE else BREPLST_INVALID).

Definition slm_upsch_trypreclaim (csvc_err : Z) (r : sl_resource) (off : Z) : SM bool :=
  s ← getM;
  if bool_decide (res_id r ∈ sc_notsup s) then mret false
  else
    m ← res_getmemb r;
    have ← slm_geticsvc m;
    if negb have then mret (csvc_err =? 0)
    else
      s ← getM;
      let b := ms_b (sc_ms s) in
      rc ← onBm (batchrq_add (be_newreq be) (be_bulk be) (be_add be) (be_now be) (res_id r) SRMT_PRECLAIM
                   (EntPreclaim (fi_fid f, fgen) (bcm_bmapno b) (bod_gen (bmi_od b))) SIZEOF_PRECLAIM 30);
      rc ← (if negb (rc =? 0) then mret rc
            else
              _ ← onMs (onB (bmap_apply (Some preclaim_tract) (Some brepls_init_idx) off));
              onMs mds_bmap_write_logrepls);
      _ ← csvc_decref m;
      mret (rc =? 0).

(** One entry of [slm_batch_preclaim_cb]; [idx] is the result of
    [mds_repl_iosv_lookup], which is positive on error. *)
Definition preclaim_cb_entry (rc get_rc : Z) (lookup : Z * Z) (r : sl_resource) : SM unit :=
  _ ← whenM (rc =? - PFLERR_NOTSUP) (modifyM (λ s,
        {| sc_ms := sc_ms s; sc_bw := sc_bw s; sc_bm := sc_bm s; sc_notsup := {[res_id r]} ∪ sc_notsup s; sc_ref := sc_ref s;
           sc_rpmi := sc_rpmi s; sc_ptrpcs := sc_ptrpcs s; sc_wk := sc_wk s |}));
  if negb (get_rc =? 0) then mret tt
  else whenM (lookup.1 >=? 0) (
    _ ← onMs (onB (mds_repl_bmap_walk (fi_nrepls f) (Some (preclaim_done_tract rc)) None 0 [lookup.2]));
    _ ← onMs mds_bmap_write_logrepls;
    mret tt).

(** *** The scan of a bmap *)
Definition cancel_tract : list Z := arr_set (brepls_init (-1)) BREPLST_REPL_QUEUED BREPLST_GARBAGE.
Definition cancel_retifset : list Z := arr_set (brepls_init 0) BREPLST_REPL_QUEUED 1.

(** A source of the second choice. *)
Definition src_last (src : sl_resource) : bool :=
  bool_decide (res_type src = SLREST_ARCHIVAL_FS)
  || hasf (si_flags (sv_info sv (res_id src))) (Z.lor SIF_DISABLE_LEASE SIF_DISABLE_ADVLEASE).

(** The search for a source: whether the work was arranged, and whether a
    valid replica was seen. *)
Fixpoint src_loop (pass : bool) (k : Z) (dst_res : sl_resource) (idxs : list Z) (valid : bool) : SM (bool * bool) :=
  match idxs with
  | [] => mret (false, valid)
  | i :: idxs =>
      if i =? k then src_loop pass k dst_res idxs valid
      else
        s ← getM;
        match id2res gc (default 0 (fi_repls f !! Z.to_nat i)) with
        | None => src_loop pass k dst_res idxs valid
        | Some src =>
            if negb (stat (ms_b (sc_ms s)) i =? BREPLST_VALID) then src_loop pass k dst_res idxs valid
            else if xorb pass (src_last src) then src_loop pass k dst_res idxs true
            else
              m ← res_getmemb src;
              have ← slm_geticsvc m;
              if negb have then src_loop pass k dst_res idxs true
              else
                _ ← csvc_decref m;
                ok ← slm_upsch_tryrepl (k * SL_BITS_PER_REPLICA) m dst_res;
                if ok : bool then mret (true, true) else src_loop pass k dst_res idxs true
        end
  end.

Inductive scan := ScanReturn | ScanNext (valid : bool).

(** One destination, with [valid_exists] before; [wr_ion] says that a write
    lease is out. *)
Definition scan_dst (wr_ion : bool) (ptr : Z * Z * Z) (k : Z) (dst_res : sl_resource) (valid : bool) : SM scan :=
  s ← getM;
  let off := k * SL_BITS_PER_REPLICA in
  let val := stat (ms_b (sc_ms s)) k in
  if val =? BREPLST_REPL_QUEUED then
    if wr_ion then mret (ScanNext valid)
    else
      r ← src_loop false k dst_res (foreach_rnd (2 * k + 1) (fi_nrepls f)) valid;
      if r.1 : bool then mret ScanReturn
      else
        r ← src_loop true k dst_res (foreach_rnd (2 * k + 2) (fi_nrepls f)) r.2;
        if r.1 : bool then mret ScanReturn
        else if r.2 : bool then mret (ScanNext true)
        else
          rc ← onMs (onB (bmap_apply (Some cancel_tract) (Some cancel_retifset) off));
          if negb (rc =? 0) then _ ← onMs mds_bmap_write_logrepls; mret ScanReturn
          else mret (ScanNext false)
  else if val =? BREPLST_TRUNCPNDG then
    rc ← slm_upsch_tryptrunc ptr.1.1 ptr.1.2 ptr.2 off dst_res;
    mret (if rc >? 0 then ScanReturn else ScanNext valid)
  else if val =? BREPLST_GARBAGE then
    ok ← slm_upsch_trypreclaim ptr.2 dst_res off;
    mret (if ok : bool then ScanReturn else ScanNext valid)
  else mret (ScanNext valid).

Fixpoint dst_loop (wr_ion : bool) (ptr : Z * Z * Z) (idxs : list Z) (valid : bool) : SM unit :=
  match idxs with
  | [] => onMs (modB (λ b, if bmi_wrlocked b then b_with_wrlocked b false else b))
  | k :: idxs =>
      match id2res gc (default 0 (fi_repls f !! Z.to_nat k)) with
      | None => dst_loop wr_ion ptr idxs valid
      | Some dst_res =>
          r ← scan_dst wr_ion ptr k dst_res valid;
          match r with
          | ScanReturn => mret tt
          | ScanNext valid => dst_loop wr_ion ptr idxs valid
          end
      end
  end.

Definition upd_proc_bmap (wr_ion : bool) (ptr : Z * Z * Z) : SM unit :=
  s ← getM;
  if hasf (bcm_flags (ms_b (sc_ms s))) BMAPF_REPLMODWR then mret tt
  else dst_loop wr_ion ptr (foreach_rnd 0 (fi_nrepls f)) false.

(** *** Paging work in *)
Definition pagein_retifset : list Z := arr_set (arr_set (brepls_init 0) BREPLST_REPL_QUEUED 1) BREPLST_TRUNCPNDG 1.

(** [upd_proc_pagein_unit] for a bmap; [get_rc] is the result of
    [slm_fcmh_get] or [bmap_get]. *)
Definition upd_proc_pagein_unit (get_rc : Z) (fid : Z) : SM unit :=
  if negb (get_rc =? 0) then
    modifyM (λ s, sc_with_ptrunc s (sc_ref s) (sc_rpmi s) (sc_ptrpcs s) (sc_wk s ++ [WkPurge fid None]))
  else
    rc ← onMs (onB (mds_repl_bmap_walk_all (fi_nrepls f) None (Some pagein_retifset) REPL_WALKF_SCIRCUIT));
    if negb (rc =? 0) then onMs (upsch_enqueue_bmap f)
    else modifyM (λ s, sc_with_ptrunc s (sc_ref s) (sc_rpmi s) (sc_ptrpcs s)
                         (sc_wk s ++ [WkPurge fid (Some (bcm_bmapno (ms_b (sc_ms s))))])).

(** [slm_wk_upsch_purge]. *)
Definition slm_wk_upsch_purge (fid : Z) (bno : option Z) : M (mstate D) unit := modifyM (λ s,
  ms_with_upsch s (filter (λ kv, ¬ (kv.1.1.2 = fid ∧ default kv.1.2 bno = kv.1.2)) (ms_upsch s))).

(** *** Start-up: work of the earlier incarnation is pending again *)
Definition revert_retifset : list Z := arr_set (arr_set (brepls_init 0) BREPLST_REPL_SCHED 1) BREPLST_GARBAGE_SCHED 1.
Definition slm_upsch_revert_cb (get_rc : Z) : M (mstate D) unit :=
  if negb (get_rc =? 0) then mret tt
  else
    rc ← onB (mds_repl_bmap_walk_all (fi_nrepls f) (Some unsched_tract) (Some revert_retifset) 0);
    if negb (rc =? 0) then _ ← mds_bmap_write f LogNone; mret tt else modify_done.
End ops.
