(* ===== verification/UpSchedProps.v ===== *)
(** * Properties of the update scheduler

    What an attempt to arrange a replication does on every branch, what the
    completion does with each answer, and the two together with the worker that
    keeps the upsch table. *)
From S2P Require Import Prelude ReplBits Inode ReplWalk BmapMds ReplMds ReplReq IosSelect Bandwidth Batch UpSched.

Lemma same_wrlocked b b' w : same_but_repls b b' → same_but_repls b (b_with_wrlocked b' w).
Proof. intros (? & ? & ? & ? & ?). by repeat split. Qed.

(** ** Lifting *)
Section lift.
Context {D : Type}.
Abbreviation SS := (sched D).

Lemma wp_onMs {A} (m : M (mstate D) A) (Q : A → SS → Prop) s :
  wp m (λ a ms, Q a (sc_with_ms s ms)) (sc_ms s) → wp (onMs m) Q s.
Proof. unfold wp, onMs. by destruct (m (sc_ms s)) as [[a ms]|]. Qed.
Lemma wp_onBw {A} (m : M bwmap A) (Q : A → SS → Prop) s :
  wp m (λ a bw, Q a (sc_with_bw s bw)) (sc_bw s) → wp (onBw m) Q s.
Proof. unfold wp, onBw. by destruct (m (sc_bw s)) as [[a bw]|]. Qed.
Lemma wp_onBm {A} (m : M (bmgr bent) A) (Q : A → SS → Prop) s :
  wp m (λ a bm, Q a (sc_with_bm s bm)) (sc_bm s) → wp (onBm m) Q s.
Proof. unfold wp, onBm. by destruct (m (sc_bm s)) as [[a bm]|]. Qed.

(** One replica of the bmap at hand. *)
Lemma wp_apply_one t r k (Q : Z → mstate D → Prop) s :
  repls_wf (bmi_repls (ms_b s)) → 0 ≤ k < 64 → hasf (bcm_flags (ms_b s)) BMAPF_REPLMODWR = false → tract_ok t →
  (∀ b', one_changed t k (ms_b s) b' → Q (ret_of r (stat (ms_b s) k)) (ms_with_b s b')) →
  wp (onB (bmap_apply (Some t) r (k * SL_BITS_PER_REPLICA))) Q s.
Proof.
  intros Hwf Hk Hmod Ht HQ. apply wp_onB, wp_bmap_apply; [done..|]. intros b' Hsame Hwf' Hst Hlk Hor.
  apply HQ. split_and!; [done..|]. intros j Hj. rewrite Hst by done. by case_decide; subst.
Qed.
End lift.

(** The transition arrays keep to the states. *)
Lemma nodata_tract_ok : tract_ok nodata_tract.
Proof. by apply tract_okb. Qed.
Lemma sched_tract_ok : tract_ok sched_tract.
Proof. by apply tract_okb. Qed.
Lemma undo_tract_ok : tract_ok undo_tract.
Proof. by apply tract_okb. Qed.
Lemma done_tract_ok : tract_ok done_tract.
Proof. by apply tract_okb. Qed.
Lemma fail_queued_tract_ok : tract_ok (fail_tract BREPLST_REPL_QUEUED).
Proof. by apply tract_okb. Qed.
Lemma fail_garbage_tract_ok : tract_ok (fail_tract BREPLST_GARBAGE).
Proof. by apply tract_okb. Qed.
Lemma cancel_tract_ok : tract_ok cancel_tract.
Proof. by apply tract_okb. Qed.
Lemma preclaim_tract_ok : tract_ok preclaim_tract.
Proof. by apply tract_okb. Qed.
Lemma ptrunc_sched_tract_ok : tract_ok ptrunc_sched_tract.
Proof. by apply tract_okb. Qed.
Lemma ptrunc_undo_tract_ok : tract_ok ptrunc_undo_tract.
Proof. by apply tract_okb. Qed.
Create HintDb sched.
#[export] Hint Resolve nodata_tract_ok sched_tract_ok undo_tract_ok done_tract_ok fail_queued_tract_ok fail_garbage_tract_ok
  cancel_tract_ok preclaim_tract_ok ptrunc_sched_tract_ok ptrunc_undo_tract_ok : sched.

(** The amount of data of a bmap fits in a bmap. *)
Lemma repltraffic_loop_range l i last lastslvr lastsize amt :
  0 ≤ lastsize ≤ SLASH_SLVR_SIZE →
  amt ≤ repltraffic_loop l i last lastslvr lastsize amt ≤ amt + Z.of_nat (length l) * SLASH_SLVR_SIZE.
Proof.
  intros Hls. assert (Hs : 0 < SLASH_SLVR_SIZE) by done. revert i amt.
  induction l as [|st l IH]; intros i amt; cbn [repltraffic_loop length]; [lia|]. rewrite Nat2Z.inj_succ.
  destruct (hasf st BMAP_SLVR_DATA); [destruct (last && (i =? lastslvr)); [nia|]|].
  - specialize (IH (i + 1) (amt + SLASH_SLVR_SIZE)). nia.
  - specialize (IH (i + 1) amt). nia.
Qed.
Lemma repltraffic_range f b : finfo_ok f → 0 ≤ slm_bmap_calc_repltraffic f b ≤ SLASH_BMAP_SIZE.
Proof.
  intros [_ Hf]. unfold slm_bmap_calc_repltraffic. cbv zeta.
  set (ls := if negb (fi_fsz f =? 0) then _ else _).
  assert (Hls : 0 ≤ ls.2 ≤ SLASH_SLVR_SIZE).
  { unfold ls. destruct (negb (fi_fsz f =? 0)); [|done]. cbv zeta. cbn [snd].
    pose proof (Z.mod_pos_bound (fi_fsz f) SLASH_SLVR_SIZE ltac:(done)) as [Hm1 Hm2].
    clear ls. destruct (_ =? 0); [split; [done|apply Z.le_refl]|]. split; [done|by apply Z.lt_le_incl]. }
  destruct ls as [lastslvr lastsize]. cbn [snd] in Hls.
  pose proof (repltraffic_loop_range (take (Z.to_nat SLASH_SLVRS_PER_BMAP) (bod_crcstates (bmi_od b))) 0
    (bcm_bmapno b =? (if negb (fcmh_nvalidbmaps f =? 0) then fcmh_nvalidbmaps f - 1 else fcmh_nvalidbmaps f)) lastslvr lastsize 0 Hls) as Hr.
  assert (Hlen : Z.of_nat (length (take (Z.to_nat SLASH_SLVRS_PER_BMAP) (bod_crcstates (bmi_od b)))) ≤ SLASH_SLVRS_PER_BMAP).
  { rewrite length_take. unfold SLASH_SLVRS_PER_BMAP. lia. }
  unfold SLASH_BMAP_SIZE. assert (0 < SLASH_SLVR_SIZE) by done. nia.
Qed.

(** ** An attempt to arrange a replication *)
Section tryrepl.
Context {D : Type} `{BmapIO D} `{PflErr} `{PflListLaws} `{PflSched}.
Context (f : finfo) (fgen : Z) (sv : servers) (be : batch_env).
Abbreviation SS := (sched D).

(** A bmap that can be changed, with the replica [k]. *)
Record ready (b : bmap) (k : Z) : Prop := {
  rd_wf : repls_wf (bmi_repls b);
  rd_f : finfo_ok f;
  rd_k : 0 ≤ k < fi_nrepls f;
  rd_mod : hasf (bcm_flags b) BMAPF_REPLMODWR = false;
  rd_lk : bmi_wrlocked b = false;
}.
Lemma ready_64 b k : ready b k → 0 ≤ k < 64.
Proof. intros [_ [Hnr _] Hk _ _]. unfold SL_MAX_REPLICAS in Hnr. lia. Qed.

(** The row of a system for the bmap gets a status. *)
Definition with_status (resid bno : Z) (st : upst) (u : upsch_t) : upsch_t :=
  alter (λ row, {| ur_status := st; ur_sys_prio := ur_sys_prio row; ur_usr_prio := ur_usr_prio row; ur_nonce := ur_nonce row |})
    (resid, fi_fid f, bno) u.

(** All states are as they were, nothing was written and nothing is held. *)
Definition untouched (s s' : mstate D) : Prop :=
  (∀ j, 0 ≤ j < 64 → stat (ms_b s') j = stat (ms_b s) j) ∧ same_but_repls (ms_b s) (ms_b s') ∧
  bmi_wrlocked (ms_b s') = false ∧ repls_wf (bmi_repls (ms_b s')) ∧
  ms_disk s' = ms_disk s ∧ ms_journal s' = ms_journal s ∧ ms_workq s' = ms_workq s.

Lemma untouched_refl s : repls_wf (bmi_repls (ms_b s)) → bmi_wrlocked (ms_b s) = false → untouched s s.
Proof. intros. split_and!; try done. apply same_but_repls_refl. Qed.

(** The label [fail]. *)
Lemma wp_tryrepl_fail O k amt (src dst : sl_resm) (chg have : bool) (s0 s : SS) (Q : bool → SS → Prop) :
  ready (ms_b (sc_ms s0)) k → stat (ms_b (sc_ms s0)) k = BREPLST_REPL_QUEUED →
  (if chg then ∃ b', one_changed sched_tract k (ms_b (sc_ms s0)) b' ∧ ms_b (sc_ms s) = b' else ms_b (sc_ms s) = ms_b (sc_ms s0)) →
  ms_disk (sc_ms s) = ms_disk (sc_ms s0) → ms_journal (sc_ms s) = ms_journal (sc_ms s0) → ms_workq (sc_ms s) = ms_workq (sc_ms s0) →
  bw_inv ((resm_res_id src, resm_res_id dst, amt) :: O) (sc_bw s) →
  (∀ s', untouched (sc_ms s0) (sc_ms s') → ms_upsch (sc_ms s') = ms_upsch (sc_ms s) → bw_inv O (sc_bw s') →
     sc_bm s' = (if have then bm_with_csvc (sc_bm s) (<[resm_res_id dst := default 0 (bm_csvc (sc_bm s) !! resm_res_id dst) + -1]> (bm_csvc (sc_bm s)))
                 else sc_bm s) → Q false s') →
  wp (tryrepl_fail (k * SL_BITS_PER_REPLICA) amt src dst chg have) Q s.
Proof.
  intros Hrd Hq Hb Hd Hj Hw Hbw HQ. pose proof (ready_64 _ _ Hrd) as Hk64. unfold tryrepl_fail. wp_step.
  assert (Htail : ∀ s1 : SS, untouched (sc_ms s0) (sc_ms s1) → ms_upsch (sc_ms s1) = ms_upsch (sc_ms s) → sc_bw s1 = sc_bw s → sc_bm s1 = sc_bm s →
    wp (_ ← onBw (resmpair_bw_adj (resm_res_id src) (resm_res_id dst) (- amt) false); _ ← whenM have (csvc_decref dst); mret false) Q s1).
  { intros s1 Hun Hu Hbw1 Hbm1. wp_step. apply wp_onBw. rewrite Hbw1. apply (wp_bw_release O); [done|]. intros bw more Hbw' _.
    wp_step. destruct have; simpl.
    - unfold csvc_decref. apply wp_onBm. unfold sl_csvc_decref, csvc_adj. wp_step. wp_step. apply HQ; [done..|]. simpl. by rewrite Hbm1.
    - wp_step. wp_step. apply HQ; [done..|]. simpl. by rewrite Hbm1. }
  destruct chg; simpl.
  - destruct Hb as (b1 & Hch & Hb). pose proof Hch as (Hsame & Hwf1 & Hlk1 & Hor1 & Hst1).
    wp_step. apply wp_onMs. rewrite <-Hb in *. apply wp_apply_one; [done|done| |auto with sched|].
    { rewrite (proj1 (proj2 Hsame)). apply Hrd. }
    intros b2 (Hsame2 & Hwf2 & Hlk2 & Hor2 & Hst2). apply wp_onMs. apply wp_bmap_rel. apply Htail; simpl; [|done..].
    assert (Hfl : hasf (bcm_flags b2) BMAPF_REPLMODWR = false).
    { rewrite (proj1 (proj2 Hsame2)), (proj1 (proj2 Hsame)). apply Hrd. }
    rewrite Hlk2, Hfl. simpl. split_and!; try done; simpl.
    + intros j Hj'. change (stat b2 j = stat (ms_b (sc_ms s0)) j). rewrite Hst2, Hst1 by done.
      destruct (decide (j = k)) as [->|]; [by rewrite Hq|done].
    + apply same_wrlocked. by apply (same_but_repls_trans _ _ _ Hsame Hsame2).
  - wp_step. apply Htail; [|done..]. destruct Hrd as [Hwf _ _ _ Hlk]. unfold untouched. rewrite Hb, Hd, Hj, Hw.
    split_and!; try done. apply same_but_repls_refl.
Qed.

(** The length in a request is what the file has in the bmap. *)
Lemma repl_len_bytes bno :
  0 ≤ bno < fcmh_nvalidbmaps f → repl_len f bno = Some (Z.min (fi_fsz f - bno * SLASH_BMAP_SIZE) SLASH_BMAP_SIZE).
Proof.
  unfold repl_len, fcmh_nvalidbmaps, howmany. set (n := (fi_fsz f + (SLASH_BMAP_SIZE - 1)) / SLASH_BMAP_SIZE). intros Hb.
  assert (Hs : 0 < SLASH_BMAP_SIZE) by done.
  pose proof (Z.div_mod (fi_fsz f + (SLASH_BMAP_SIZE - 1)) SLASH_BMAP_SIZE ltac:(lia)) as Hdm. fold n in Hdm.
  pose proof (Z.mod_pos_bound (fi_fsz f + (SLASH_BMAP_SIZE - 1)) SLASH_BMAP_SIZE Hs) as Hm.
  rewrite (proj2 (Z.gtb_lt n 0)) by lia. set (S := SLASH_BMAP_SIZE) in *. clearbody S n.
  destruct (Z.eqb_spec bno (n - 1)) as [->|Hne].
  - assert (Hgt : (n - 1) * S < fi_fsz f) by nia. rewrite (proj2 (Z.gtb_lt (fi_fsz f) ((n - 1) * S))) by lia.
    rewrite (proj2 (Z.eqb_neq (fi_fsz f - (n - 1) * S) 0)) by lia. done.
  - rewrite Z.min_r; [done|]. nia.
Qed.

(** What an attempt leaves behind: a bmap without data is replicated as it
    is, *)
Definition nodata_post (k : Z) (s : SS) (ok : bool) (s' : SS) : Prop :=
  let b := ms_b (sc_ms s) in
  let b' := ms_b (sc_ms s') in
  ok = true ∧ (∀ j, 0 ≤ j < 64 → stat b' j = if decide (j = k) then BREPLST_VALID else stat b j) ∧
  (∃ rc nb lg, pwritev_bmap (ms_disk (sc_ms s)) (bcm_bmapno b) (bmi_od b') (crc64_bmap (bmi_od b')) = (rc, nb, lg, ms_disk (sc_ms s'))) ∧
  sc_bw s' = sc_bw s ∧ sc_bm s' = sc_bm s ∧ ms_upsch (sc_ms s') = ms_upsch (sc_ms s).
(** the work is scheduled, *)
Definition sched_post (O : list resv) (R : gset Z) (A : list bent) (k : Z) (src dst : sl_resm) (s : SS) (ok : bool) (s' : SS) : Prop :=
  let b := ms_b (sc_ms s) in
  let b' := ms_b (sc_ms s') in
  let amt := slm_bmap_calc_repltraffic f b in
  ok = true ∧ (∀ j, 0 ≤ j < 64 → stat b' j = if decide (j = k) then BREPLST_REPL_SCHED else stat b j) ∧
  same_but_repls b b' ∧ bmi_wrlocked b' = false ∧ repls_wf (bmi_repls b') ∧
  ms_disk (sc_ms s') = ms_disk (sc_ms s) ∧ ms_journal (sc_ms s') = ms_journal (sc_ms s) ∧ ms_workq (sc_ms s') = ms_workq (sc_ms s) ∧
  ms_upsch (sc_ms s') = with_status (resm_res_id dst) (bcm_bmapno b) StS (ms_upsch (sc_ms s)) ∧
  bw_inv ((resm_res_id src, resm_res_id dst, amt) :: O) (sc_bw s') ∧
  ∃ len, repl_len f (bcm_bmapno b) = Some len ∧
    batch_inv (sc_bm s') R
      (EntRepl {| pe_fg := (fi_fid f, fgen); pe_bno := bcm_bmapno b; pe_bgen := bod_gen (bmi_od b); pe_src := resm_res_id src; pe_len := len |}
               {| bsr_off := k * SL_BITS_PER_REPLICA; bsr_amt := amt |} :: A).
(** or nothing has changed; [sent] says that the request could not be made, in
    which case one reference too many to the connection is dropped. *)
Definition failed_post (O : list resv) (R : gset Z) (A : list bent) (dst : sl_resm) (sent : bool) (s : SS) (ok : bool) (s' : SS) : Prop :=
  let bno := bcm_bmapno (ms_b (sc_ms s)) in
  let r := resm_res_id dst in
  ok = false ∧ untouched (sc_ms s) (sc_ms s') ∧ bw_inv O (sc_bw s') ∧
  ms_upsch (sc_ms s') = (if sent then with_status r bno StQ (with_status r bno StS (ms_upsch (sc_ms s))) else ms_upsch (sc_ms s)) ∧
  default 0 (bm_csvc (sc_bm s') !! r) = default 0 (bm_csvc (sc_bm s) !! r) - (if sent then 1 else 0) ∧
  (sent = false → batch_inv (sc_bm s') R A).

Definition tryrepl_post (O : list resv) (R : gset Z) (A : list bent) (k : Z) (src dst : sl_resm) (s : SS) (ok : bool) (s' : SS) : Prop :=
  let b := ms_b (sc_ms s) in
  let sent := bw_room (sc_bw s) (resm_res_id src) (resm_res_id dst) && sv_conn sv dst
              && bool_decide (is_Some (repl_len f (bcm_bmapno b))) in
  if slm_bmap_calc_repltraffic f b =? 0 then nodata_post k s ok s'
  else if sent && (be_newreq be =? 0) then sched_post O R A k src dst s ok s'
  else failed_post O R A dst sent s ok s'.

(** A batch that is extended with a reference that was just taken. *)
Lemma add_not_made rc now r opc e len expire (bm : bmgr bent) :
  opc ≠ SRMT_BATCH_RQ → rc ≠ 0 →
  wp (batchrq_add rc 0 0 now r opc e len expire)
     (λ rc' bm', rc' = rc ∧ bm' = bm_with_csvc bm (<[r := default 0 (bm_csvc bm !! r) + -1]> (bm_csvc bm))) bm.
Proof.
  intros Hopc Hrc. unfold batchrq_add. wp_step. wp_step.
  rewrite filter_none; [|intros x _; unfold batch_open; rewrite (proj2 (Z.eqb_neq _ _) Hopc); destruct (bm_brs bm !! x); rewrite ?andb_false_r; done].
  wp_step. rewrite (proj2 (Z.eqb_neq _ _) Hrc). simpl. wp_step. wp_step. unfold sl_csvc_decref, csvc_adj. wp_step. by wp_step.
Qed.

(** *** The branches *)
Section branches.
Context (O : list resv) (R : gset Z) (A : list bent) (k : Z) (src dst : sl_resm) (dst_res : sl_resource) (ms : list sl_resm) (s : SS).
Hypothesis Hrd : ready (ms_b (sc_ms s)) k.
Hypothesis Hq : stat (ms_b (sc_ms s)) k = BREPLST_REPL_QUEUED.
Hypothesis Hmem : res_members dst_res = dst :: ms.
Hypothesis Hid : res_id dst_res = resm_res_id dst.
Hypothesis Hbulk : be_bulk be = 0.
Hypothesis Hadd : be_add be = 0.
Let amt : Z := slm_bmap_calc_repltraffic f (ms_b (sc_ms s)).
Let off : Z := k * SL_BITS_PER_REPLICA.

Lemma wp_tryrepl_nodata :
  wp (_ ← onMs (onB (bmap_apply (Some nodata_tract) None off)); _ ← onMs (mds_bmap_write_logrepls f);
      _ ← onMs (upschq_resm (resm_res_id dst)); mret true) (nodata_post k s) s.
Proof.
  pose proof (ready_64 _ _ Hrd) as Hk64. wp_step. apply wp_onMs. apply wp_apply_one; [apply Hrd|done|apply Hrd|auto with sched|].
  intros b' (Hsame & Hwf' & Hlk & Hor & Hst).
  assert (Hst' : ∀ j, 0 ≤ j < 64 → stat b' j = if decide (j = k) then BREPLST_VALID else stat (ms_b (sc_ms s)) j).
  { intros j Hj. rewrite Hst by done. destruct (decide (j = k)) as [->|]; [by rewrite Hq|done]. }
  wp_step. apply wp_onMs. apply wp_bmap_write; [done|apply Hrd| |done|].
  { exists k. split; [apply Hrd|]. simpl. by rewrite Hst', decide_True. }
  intros rc nb lg d' Hw. wp_step. apply wp_onMs. unfold upschq_resm. wp_step. wp_step.
  split_and!; try done.
  - intros j Hj. rewrite <-Hst' by done. simpl. by destruct lg; simpl; case_bool_decide.
  - exists rc, nb, lg. simpl in Hw. rewrite (proj1 Hsame) in Hw. revert Hw. by destruct lg; simpl; case_bool_decide.
  - by destruct lg; simpl; case_bool_decide.
Qed.

(** With bandwidth [bw], a connection and a length. *)
Context (bw : bwmap) (len : Z).
Hypothesis Hbw : bw_inv ((resm_res_id src, resm_res_id dst, amt) :: O) bw.
Hypothesis Hrun : batch_inv (sc_bm s) R A.
Hypothesis Hlen : repl_len f (bcm_bmapno (ms_b (sc_ms s))) = Some len.
Let bm1 : bmgr bent :=
  bm_with_csvc (sc_bm s) (<[resm_res_id dst := default 0 (bm_csvc (sc_bm s) !! resm_res_id dst) + 1]> (bm_csvc (sc_bm s))).

(** The state once the replica is marked, in [b'], and the entry is in a
    batch. *)
Lemma sched_post_intro b' bm2 (s1 : SS) :
  one_changed sched_tract k (ms_b (sc_ms s)) b' →
  batch_inv bm2 R
    (EntRepl {| pe_fg := (fi_fid f, fgen); pe_bno := bcm_bmapno b'; pe_bgen := bod_gen (bmi_od b'); pe_src := resm_res_id src; pe_len := len |}
             {| bsr_off := off; bsr_amt := amt |} :: A) →
  ms_b (sc_ms s1) = b_with_wrlocked b' false → ms_disk (sc_ms s1) = ms_disk (sc_ms s) →
  ms_journal (sc_ms s1) = ms_journal (sc_ms s) → ms_workq (sc_ms s1) = ms_workq (sc_ms s) →
  ms_upsch (sc_ms s1) = with_status (resm_res_id dst) (bcm_bmapno b') StS (ms_upsch (sc_ms s)) →
  sc_bw s1 = bw → sc_bm s1 = bm2 → sched_post O R A k src dst s true s1.
Proof.
  intros (Hsame & Hwf' & Hlk & Hor & Hst) Heq Hb1 Hd1 Hj1 Hw1 Hu1 Hbw1 Hbm1. unfold sched_post. cbv zeta.
  rewrite (proj1 Hsame) in Hu1. rewrite Hb1, Hd1, Hj1, Hw1, Hbw1, Hbm1.
  split; [done|]. split; [|split; [by apply same_wrlocked|]; split_and!; try done].
  - intros j Hj. change (stat b' j = if decide (j = k) then BREPLST_REPL_SCHED else stat (ms_b (sc_ms s)) j).
    rewrite Hst by done. destruct (decide (j = k)) as [->|]; [by rewrite Hq|done].
  - exists len. split; [done|].
    rewrite (proj1 Hsame), (proj1 (proj2 (proj2 Hsame))) in Heq. exact Heq.
Qed.

Lemma wp_tryrepl_send more :
  wp (tryrepl_send f fgen be off amt len src dst dst_res more)
     (λ ok s', if be_newreq be =? 0 then sched_post O R A k src dst s ok s' else failed_post O R A dst true s ok s')
     (sc_with_bm (sc_with_bw s bw) bm1).
Proof.
  pose proof (ready_64 _ _ Hrd) as Hk64.
  unfold tryrepl_send. wp_step. apply wp_onMs. apply wp_apply_one; [apply Hrd|done|apply Hrd|auto with sched|].
  intros b' Hch. change (one_changed sched_tract k (ms_b (sc_ms s)) b') in Hch.
  pose proof Hch as (Hsame & _ & Hlk & _ & _). simpl ret_of. rewrite Hq. simpl. wp_step. wp_step. wp_step.
  apply wp_onMs. unfold set_status. wp_step. wp_step. wp_step. wp_step. apply wp_onBm. rewrite Hid, Hbulk, Hadd. simpl.
  destruct (Z.eqb_spec (be_newreq be) 0) as [Hn0|Hn0].
  - rewrite Hn0. set (e := EntRepl _ _).
    destruct (wp_run _ _ _ (add_inv (sc_bm s) R A 0 (be_now be) (resm_res_id dst) SRMT_REPL_SCHEDWK e SIZEOF_REPLWK 5 Hrun))
      as (rc & bm2 & Heq & Hinv2 & Hrc0). specialize (Hrc0 eq_refl). subst rc. simpl in Hinv2.
    change (batchrq_add 0 0 0 (be_now be) (resm_res_id dst) SRMT_REPL_SCHEDWK e SIZEOF_REPLWK 5 bm1 = Done (0, bm2)) in Heq.
    apply (wp_intro _ _ _ _ _ Heq). simpl. wp_step. apply wp_onMs. apply wp_bmap_rel. simpl.
    assert (Hfl : hasf (bcm_flags b') BMAPF_REPLMODWR = false) by (rewrite (proj1 (proj2 Hsame)); apply Hrd).
    rewrite Hlk, Hfl. simpl. wp_step. destruct more; simpl.
    + apply wp_onMs. unfold upschq_resm. wp_step. wp_step. eapply (sched_post_intro b' bm2); try done; simpl; by case_bool_decide.
    + wp_step. wp_step. by eapply (sched_post_intro b' bm2).
  - eapply wp_mono; [apply (add_not_made (be_newreq be)); [done|done]|]. intros rc bm2 [-> ->].
    rewrite (proj2 (Z.eqb_neq _ _) Hn0). simpl. wp_step. apply wp_onMs. unfold set_status. wp_step.
    eapply (wp_tryrepl_fail O k amt src dst true true s); try done.
    { exists b'. done. }
    intros s1 Hun Hu1 Hbw1 Hc1. split_and!; try done.
    + rewrite Hu1. simpl. by rewrite (proj1 Hsame).
    + rewrite Hc1. simpl. rewrite !lookup_insert_eq. simpl. lia.
Qed.
End branches.

Lemma wp_tryrepl O R A k src dst dst_res ms (s : SS) :
  ready (ms_b (sc_ms s)) k → stat (ms_b (sc_ms s)) k = BREPLST_REPL_QUEUED →
  res_members dst_res = dst :: ms → res_id dst_res = resm_res_id dst → resm_res_id src ≠ resm_res_id dst →
  bw_inv O (sc_bw s) → batch_inv (sc_bm s) R A → be_bulk be = 0 → be_add be = 0 →
  wp (slm_upsch_tryrepl f fgen sv be (k * SL_BITS_PER_REPLICA) src dst_res) (tryrepl_post O R A k src dst s) s.
Proof.
  intros Hrd Hq Hmem Hid Hne Hbw Hrun Hbulk Hadd. pose proof (repltraffic_range f (ms_b (sc_ms s)) (rd_f _ _ Hrd)) as [Hpos _].
  unfold slm_upsch_tryrepl, tryrepl_post. cbv zeta. unfold res_getmemb. rewrite Hmem. wp_step. wp_step. wp_step. wp_step.
  set (amt := slm_bmap_calc_repltraffic f (ms_b (sc_ms s))) in *.
  destruct (Z.eqb_spec amt 0) as [Hz|Hnz]; [by apply wp_tryrepl_nodata|].
  wp_step. apply wp_onBw. apply (wp_bw_reserve O); [done|done|lia| |].
  { intros Hno. simpl. wp_step. rewrite Hno. simpl. split; [done|]. split; [apply untouched_refl; apply Hrd|]. split; [done|].
    simpl. split; [done|]. split; [simpl; lia|done]. }
  intros bw more Hhas Hbw' Hmore _. rewrite Hhas. simpl. wp_step. unfold slm_geticsvc.
  destruct (sv_conn sv dst) eqn:Hconn; simpl.
  2:{ wp_step. simpl. eapply (wp_tryrepl_fail O k amt src dst false false s); try done.
      intros s' Hun Hu Hb1 Hc. split; [done|]. split; [done|]. rewrite Hc. simpl. split; [done|]. split; [done|]. split; [lia|done]. }
  wp_step. apply wp_onBm. unfold csvc_adj. wp_step. wp_step. simpl. wp_step. wp_step. simpl.
  destruct (repl_len f (bcm_bmapno (ms_b (sc_ms s)))) as [len|] eqn:Hlen; simpl.
  - by apply (wp_tryrepl_send O R A k src dst dst_res s Hrd Hq Hid Hbulk Hadd bw len).
  - eapply (wp_tryrepl_fail O k amt src dst false true s); try done.
    intros s' Hun Hu Hb1 Hc. split; [done|]. split; [done|]. split; [done|]. split; [done|]. rewrite Hc. simpl.
    split; [rewrite !lookup_insert_eq; simpl; lia|]. intros _. by apply (csvc_back_inv (sc_bm s)).
Qed.

(** An attempt to replicate a queued bmap from a system with a copy, on
    every branch.  Without data the replica is valid at once and the state is
    written.  With bandwidth for the pair, a connection to the destination and a
    request, the replica is marked, its row in the upsch table says so, the
    bandwidth is reserved, a batch has the entry with the source, the generation
    and the length of the bmap, and nothing is held.  Otherwise the states are
    as they were, the bandwidth is returned and the row says queued; but when the
    request could not be made the reference to the connection is dropped twice:
    by [batchrq_add] and by the caller. *)
Theorem tryrepl_outcome O R A k src dst dst_res ms (s : SS) :
  ready (ms_b (sc_ms s)) k → stat (ms_b (sc_ms s)) k = BREPLST_REPL_QUEUED →
  res_members dst_res = dst :: ms → res_id dst_res = resm_res_id dst → resm_res_id src ≠ resm_res_id dst →
  bw_inv O (sc_bw s) → batch_inv (sc_bm s) R A → be_bulk be = 0 → be_add be = 0 →
  wp (slm_upsch_tryrepl f fgen sv be (k * SL_BITS_PER_REPLICA) src dst_res) (tryrepl_post O R A k src dst s) s.
Proof. apply wp_tryrepl. Qed.
End tryrepl.

(** ** The completion *)
Section completion.
Context {D : Type} `{BmapIO D} `{PflErr} `{PflListLaws} `{PflSched}.
Context (f : finfo).
Abbreviation SS := (sched D).

(** What becomes of a replica that is being made, by the code of the batch and
    the answer for the entry. *)
Definition repl_outcome (ecode : Z) (answer : option Z) (bgen : Z) (pe : srt_replwk_reqent) : Z :=
  match answer with
  | None => BREPLST_REPL_QUEUED
  | Some rc =>
      if rc =? 0 then if (pe_bgen pe =? bgen) && (ecode =? 0) then BREPLST_VALID else BREPLST_GARBAGE
      else if rc =? SLERR_ION_OFFLINE then BREPLST_REPL_QUEUED else BREPLST_GARBAGE
  end.
Definition outcome_tract (o : Z) : list Z := if o =? BREPLST_VALID then done_tract else fail_tract o.
Definition outcome_retifset (o : Z) : list Z := if o =? BREPLST_VALID then done_retifset else fail_retifset.

Lemma outcome_cases ecode answer bgen pe :
  let o := repl_outcome ecode answer bgen pe in o = BREPLST_VALID ∨ o = BREPLST_REPL_QUEUED ∨ o = BREPLST_GARBAGE.
Proof.
  simpl. unfold repl_outcome. destruct answer as [rc|]; [|tauto]. destruct (rc =? 0); [destruct (_ && _)|destruct (_ =? _)]; tauto.
Qed.
Lemma outcome_tract_ok ecode answer bgen pe : tract_ok (outcome_tract (repl_outcome ecode answer bgen pe)).
Proof. destruct (outcome_cases ecode answer bgen pe) as [-> | [-> | ->]]; simpl; auto with sched. Qed.

(** The code selects its arrays by the outcome. *)
Definition answered (reply : option (list Z)) (idx : nat) (answer : option Z) : Prop :=
  match reply, answer with
  | None, None => True
  | Some l, Some rc => l !! idx = Some rc
  | _, _ => False
  end.

Lemma sched_id (s : SS) : sc_with_ms s (ms_with_upsch (sc_ms s) (ms_upsch (sc_ms s))) = s.
Proof. by destruct s as [[]]. Qed.

Lemma wp_repl_cb O k ecode reply idx answer pe bsr dst dst_res ms (s : SS) (Q : unit → SS → Prop) :
  ready f (ms_b (sc_ms s)) k → stat (ms_b (sc_ms s)) k = BREPLST_REPL_SCHED →
  (∃ j, 0 ≤ j < fi_nrepls f ∧ j ≠ k ∧ brepls_ok (stat (ms_b (sc_ms s)) j) = true) →
  res_members dst_res = dst :: ms → answered reply idx answer →
  bsr_off bsr = k * SL_BITS_PER_REPLICA → bw_inv ((pe_src pe, resm_res_id dst, bsr_amt bsr) :: O) (sc_bw s) →
  let o := repl_outcome ecode answer (bod_gen (bmi_od (ms_b (sc_ms s)))) pe in
  (∀ b' s', one_changed (outcome_tract o) k (ms_b (sc_ms s)) b' →
     (∀ j, 0 ≤ j < 64 → stat b' j = if decide (j = k) then o else stat (ms_b (sc_ms s)) j) →
     states_written f (ms_b (sc_ms s)) b'
       (ms_with_upsch (sc_ms s) (if o =? BREPLST_REPL_QUEUED then with_status f (res_id dst_res) (bcm_bmapno (ms_b (sc_ms s))) StQ (ms_upsch (sc_ms s))
                                 else ms_upsch (sc_ms s))) (sc_ms s') →
     bw_inv O (sc_bw s') → sc_bm s' = sc_bm s → Q tt s') →
  wp (repl_cb_entry f 0 ecode reply idx dst_res pe bsr) Q s.
Proof.
  intros Hrd Hst (j0 & Hj0 & Hne0 & Hok0) Hmem Hans Hoff Hbw o HQ. pose proof (ready_64 _ _ _ Hrd) as Hk64.
  unfold repl_cb_entry, res_getmemb. rewrite Hmem. wp_step. wp_step. wp_step. simpl. wp_step. wp_step. wp_step.
  set (bgen := bod_gen (bmi_od (ms_b (sc_ms s)))) in *.
  (* the answer *)
  eapply (wp_mono _ (λ bprc s1, s1 = s ∧ bprc = match answer with None => None | Some rc =>
     Some (if (rc =? 0) && negb (pe_bgen pe =? bgen) then SLERR_GEN_OLD else rc) end)).
  { destruct reply as [l|], answer as [rc|]; simpl in Hans; try done. rewrite Hans. by wp_step. }
  intros bprc ? [-> ->]. wp_step.
  eapply (wp_mono _ (λ tr s1, tr = (outcome_tract o, outcome_retifset o) ∧
     s1 = sc_with_ms s (ms_with_upsch (sc_ms s) (if o =? BREPLST_REPL_QUEUED
       then with_status f (res_id dst_res) (bcm_bmapno (ms_b (sc_ms s))) StQ (ms_upsch (sc_ms s)) else ms_upsch (sc_ms s))))).
  { unfold o, repl_outcome. destruct answer as [rc|]; [|wp_step; apply wp_onMs; unfold set_status; wp_step; by wp_step].
    destruct (Z.eqb_spec rc 0) as [->|Hrc]; simpl.
    - destruct (pe_bgen pe =? bgen); simpl; [destruct (ecode =? 0); wp_step; by rewrite sched_id|]. wp_step. by rewrite sched_id.
    - assert (∀ (A : Type) (x y : A), match rc with 0 => x | _ => y end = y) as Hm by (intros; by destruct rc).
      rewrite Hm. destruct (rc =? SLERR_ION_OFFLINE); simpl; [|wp_step; by rewrite sched_id].
      wp_step. apply wp_onMs. unfold set_status. wp_step. by wp_step. }
  intros [t r] ? [[= -> ->] ->]. wp_step. apply wp_onMs. rewrite Hoff.
  apply wp_apply_one; [apply Hrd|done|apply Hrd|apply outcome_tract_ok|]. simpl ms_b. intros b' Hch. simpl ret_of. rewrite Hst.
  pose proof Hch as (Hsame & Hwf' & Hlk & Hor & Hst').
  assert (Hr1 : arr_get (outcome_retifset o) BREPLST_REPL_SCHED = 1).
  { unfold o. by destruct (outcome_cases ecode answer bgen pe) as [-> | [-> | ->]]. }
  assert (Hstj : ∀ j, 0 ≤ j < 64 → stat b' j = if decide (j = k) then o else stat (ms_b (sc_ms s)) j).
  { intros j Hj. rewrite Hst' by done. destruct (decide (j = k)) as [->|]; [|done]. rewrite Hst. unfold o.
    by destruct (outcome_cases ecode answer bgen pe) as [-> | [-> | ->]]. }
  rewrite Hr1. simpl. wp_step. wp_step. apply wp_onMs. apply wp_bmap_write; [done|apply Hrd| |done|].
  { exists j0. split; [done|]. simpl. rewrite Hstj, decide_False; [done|done|]. pose proof (rd_f _ _ _ Hrd) as [Hnr _].
    unfold SL_MAX_REPLICAS in Hnr. lia. }
  intros rc nb lg d' Hw. wp_step. apply wp_onMs. apply wp_bmap_rel. wp_step. apply wp_onBw.
  apply (wp_bw_release O); [done|]. intros bw more Hbw' _. apply wp_onMs. unfold upschq_resm. wp_step.
  eapply (HQ b'); [done|done| |done|done]. simpl in Hw. rewrite (proj1 Hsame) in Hw.
  assert (Hmod : hasf (bcm_flags b') BMAPF_REPLMODWR = false) by (rewrite (proj1 (proj2 Hsame)); apply Hrd).
  exists rc, nb, lg. destruct lg; simpl; rewrite Hlk, ?hasf_setf, Hmod; simpl;
    case_bool_decide; simpl; rewrite ?(proj1 Hsame), ?(proj1 (proj2 Hsame)); done.
Qed.

(** The answer to a replication brings its states to their end.  Success
    with the generation of the bmap that was copied makes the replica valid;
    no answer, or one that says the source is offline, puts it back in the queue
    and its row of the upsch table to status Q; every other answer, and success
    for an older generation, makes it garbage.  The other replicas keep their
    states, the new states are written and, when the backend logs, journaled and
    handed to the worker; the bandwidth is returned and more work for the system
    is paged in. *)
Theorem repl_completion O k ecode reply idx answer pe bsr dst dst_res ms (s : SS) :
  ready f (ms_b (sc_ms s)) k → stat (ms_b (sc_ms s)) k = BREPLST_REPL_SCHED →
  (∃ j, 0 ≤ j < fi_nrepls f ∧ j ≠ k ∧ brepls_ok (stat (ms_b (sc_ms s)) j) = true) →
  res_members dst_res = dst :: ms → answered reply idx answer →
  bsr_off bsr = k * SL_BITS_PER_REPLICA → bw_inv ((pe_src pe, resm_res_id dst, bsr_amt bsr) :: O) (sc_bw s) →
  let o := repl_outcome ecode answer (bod_gen (bmi_od (ms_b (sc_ms s)))) pe in
  wp (repl_cb_entry f 0 ecode reply idx dst_res pe bsr) (λ _ s',
    (∀ j, 0 ≤ j < 64 → stat (ms_b (sc_ms s')) j = if decide (j = k) then o else stat (ms_b (sc_ms s)) j) ∧
    (∃ b', states_written f (ms_b (sc_ms s)) b'
       (ms_with_upsch (sc_ms s) (if o =? BREPLST_REPL_QUEUED then with_status f (res_id dst_res) (bcm_bmapno (ms_b (sc_ms s))) StQ (ms_upsch (sc_ms s))
                                 else ms_upsch (sc_ms s))) (sc_ms s')) ∧
    bw_inv O (sc_bw s')) s.
Proof.
  intros Hrd Hst Hoth Hmem Hans Hoff Hbw o. eapply wp_repl_cb; [done..|]. intros b' s' _ Hstj Hw Hbw' _. split_and!; [|by exists b'|done].
  intros j Hj. rewrite <-Hstj by done. destruct Hw as (rc0 & nb & lg & _ & Hb & _). rewrite Hb. by destruct lg.
Qed.
End completion.

(** ** A replication from the queue to its end *)
Section life.
Context {D : Type} `{BmapIO D} `{PflErr} `{PflListLaws} `{PflSched}.
Context (f : finfo) (fgen : Z) (sv : servers) (be : batch_env) (cfg : gmap Z sl_res_type) (nonce : Z) (ns : Z → bool).
Abbreviation SS := (sched D).
Abbreviation key b resid := (resid, fi_fid f, bcm_bmapno b).

Lemma with_status_some resid bno st u k : is_Some (with_status f resid bno st u !! k) ↔ is_Some (u !! k).
Proof. apply lookup_alter_is_Some. Qed.

(** The worker after the completion: [b'] has the new states, and the old
    states have the replica as scheduled. *)
Lemma worker_row b b' u n resid o :
  NoDup (fi_repls f) → (∀ resid, resid ∈ fi_repls f → is_Some (libsl_id2res cfg resid)) → fi_repls f !! n = Some resid →
  bcm_bmapno b' = bcm_bmapno b → bmi_orepls b' = bmi_repls b → stat b (Z.of_nat n) = BREPLST_REPL_SCHED → stat b' (Z.of_nat n) = o →
  is_Some (u !! key b resid) →
  (o = BREPLST_VALID → rows_after f cfg nonce ns b' u !! key b resid = None) ∧
  (o = BREPLST_REPL_QUEUED → ∃ row, rows_after f cfg nonce ns b' u !! key b resid = Some row ∧ ur_status row = StQ).
Proof.
  intros Hnd Hres Hn Hno Hor Hst Ho Hrow. rewrite <-Hno in *.
  assert (Hact : act_of cfg ns b' n resid = upd_action cfg ns resid BREPLST_REPL_SCHED o (bmi_sys_prio b') (bmi_usr_prio b')).
  { unfold act_of. rewrite Hor. change (repl_stat (bmi_repls b) (Z.of_nat n)) with (stat b (Z.of_nat n)).
    change (repl_stat (bmi_repls b') (Z.of_nat n)) with (stat b' (Z.of_nat n)). by rewrite Hst, Ho. }
  split; intros ->.
  - apply eq_None_not_Some. rewrite (rows_after_is_some f cfg nonce ns Hnd Hres b' u n resid Hn), Hact. by intros [].
  - apply (rows_after_requeued f cfg nonce ns Hnd b' u n resid Hn); [by rewrite Hact|done].
Qed.

(** C10: a replication that is scheduled runs to its end.  From a queued replica
    with a row in the upsch table, bandwidth, a connection and a request, the
    attempt, the completion of the entry it put in the batch, and the worker
    that is queued for the bmap give: on success a valid replica and no row;
    when no answer came or the source was offline, a queued replica whose row
    says queued, for the next attempt.  The other replicas are as before, the
    bandwidth is what it was, and the bmap is free for the next change. *)
Theorem replication_life O R A n src dst dst_res ms ecode reply answer len (s : SS) :
  let b := ms_b (sc_ms s) in
  let k := Z.of_nat n in
  let amt := slm_bmap_calc_repltraffic f b in
  let pe := {| pe_fg := (fi_fid f, fgen); pe_bno := bcm_bmapno b; pe_bgen := bod_gen (bmi_od b); pe_src := resm_res_id src; pe_len := len |} in
  let o := repl_outcome ecode answer (bod_gen (bmi_od b)) pe in
  ready f b k → stat b k = BREPLST_REPL_QUEUED →
  (∃ j, 0 ≤ j < fi_nrepls f ∧ j ≠ k ∧ brepls_ok (stat b j) = true) →
  fi_repls f !! n = Some (resm_res_id dst) → NoDup (fi_repls f) → (∀ resid, resid ∈ fi_repls f → is_Some (libsl_id2res cfg resid)) →
  res_members dst_res = dst :: ms → res_id dst_res = resm_res_id dst → resm_res_id src ≠ resm_res_id dst →
  amt ≠ 0 → bw_room (sc_bw s) (resm_res_id src) (resm_res_id dst) = true → sv_conn sv dst = true → repl_len f (bcm_bmapno b) = Some len →
  bw_inv O (sc_bw s) → batch_inv (sc_bm s) R A → be_newreq be = 0 → be_bulk be = 0 → be_add be = 0 →
  answered reply 0 answer → is_Some (ms_upsch (sc_ms s) !! key b (resm_res_id dst)) →
  (∀ d o c, ∃ rc nb d', pwritev_bmap d (bcm_bmapno b) o c = (rc, nb, true, d')) →
  wp (ok ← slm_upsch_tryrepl f fgen sv be (k * SL_BITS_PER_REPLICA) src dst_res;
      _ ← repl_cb_entry f 0 ecode reply 0 dst_res pe {| bsr_off := k * SL_BITS_PER_REPLICA; bsr_amt := amt |};
      _ ← onMs (slm_wkcb_wr_brepl f cfg nonce ns); mret ok) (λ ok s',
    ok = true ∧ (∀ j, 0 ≤ j < 64 → stat (ms_b (sc_ms s')) j = if decide (j = k) then o else stat b j) ∧
    (o = BREPLST_VALID → ms_upsch (sc_ms s') !! key b (resm_res_id dst) = None) ∧
    (o = BREPLST_REPL_QUEUED → ∃ row, ms_upsch (sc_ms s') !! key b (resm_res_id dst) = Some row ∧ ur_status row = StQ) ∧
    bw_inv O (sc_bw s') ∧ bmi_wrlocked (ms_b (sc_ms s')) = false ∧ hasf (bcm_flags (ms_b (sc_ms s'))) BMAPF_REPLMODWR = false) s.
Proof.
  intros b k amt pe o Hrd Hq Hoth Hn Hnd Hres Hmem Hid Hne Hamt Hroom Hconn Hlen Hbw Hrun Hnew Hbulk Hadd Hans Hrow Hlog.
  pose proof (ready_64 _ _ _ Hrd) as Hk64.
  wp_step. eapply wp_mono; [by eapply (wp_tryrepl f fgen sv be O R A k src dst dst_res ms)|].
  intros ok s1 Hp. unfold tryrepl_post in Hp. cbv zeta in Hp. fold b amt in Hp.
  rewrite (proj2 (Z.eqb_neq _ _) Hamt), Hroom, Hconn, Hlen, Hnew in Hp. simpl in Hp.
  destruct Hp as (-> & Hst1 & Hsame & Hlk1 & Hwf1 & Hd1 & Hj1 & Hw1 & Hu1 & Hbw1 & _). fold b amt in Hst1, Hsame, Hu1, Hbw1.
  assert (Hk1 : stat (ms_b (sc_ms s1)) k = BREPLST_REPL_SCHED) by (by rewrite Hst1, decide_True).
  assert (Hgen : bod_gen (bmi_od (ms_b (sc_ms s1))) = bod_gen (bmi_od b)) by (by rewrite (proj1 (proj2 (proj2 Hsame)))).
  wp_step. eapply (wp_repl_cb f O k ecode reply 0 answer pe); try done.
  { destruct Hrd as [_ Hf Hk Hm _]. split; try done. by rewrite (proj1 (proj2 Hsame)). }
  { destruct Hoth as (j & Hj & Hne' & Hok). exists j. split; [done|]. split; [done|]. rewrite Hst1, decide_False; [done|done|].
    pose proof (rd_f _ _ _ Hrd) as [Hnr _]. unfold SL_MAX_REPLICAS in Hnr. lia. }
  rewrite Hgen. fold o. intros b2 s2 (Hsame2 & Hwf2 & Hlk2 & Hor2 & _) Hst2 (rc0 & nb & lg & Hwr & Hb2 & Hu2 & _) Hbw2 _.
  destruct (Hlog (ms_disk (sc_ms s1)) (bmi_od b2) (crc64_bmap (bmi_od b2))) as (rc1 & nb1 & d1 & Hl). simpl in Hwr.
  rewrite (proj1 Hsame), Hl in Hwr. injection Hwr as <- <- <- _.
  wp_step. apply wp_onMs. unfold slm_wkcb_wr_brepl. wp_step. wp_step. apply wp_upd_write. simpl. intros ms3 Hu3 _ Hb3. wp_step. simpl.
  rewrite Hb2 in Hb3, Hu3. rewrite Hlk1 in Hor2.
  destruct (worker_row (ms_b (sc_ms s1)) (b_with_flags b2 (setf (bcm_flags (ms_b (sc_ms s1))) BMAPF_REPLMODWR)) (ms_upsch (sc_ms s2)) n
    (resm_res_id dst) o) as [Hv Hqd]; try done.
  { exact (proj1 Hsame2). }
  { change (stat b2 k = o). by rewrite Hst2, decide_True. }
  { rewrite Hu2. simpl. rewrite (proj1 Hsame). destruct (o =? BREPLST_REPL_QUEUED); rewrite ?with_status_some, Hu1, with_status_some; done. }
  rewrite (proj1 Hsame) in Hv, Hqd. split_and!; try done.
  - intros j Hj. rewrite Hb3. change (stat b2 j = if decide (j = k) then o else stat b j). rewrite Hst2, Hst1 by done. by case_decide.
  - intros Ho. rewrite Hu3. by apply Hv.
  - intros Ho. rewrite Hu3. by apply Hqd.
  - by rewrite Hb3.
  - rewrite Hb3. simpl. rewrite hasf_clrf, Z.ldiff_diag. apply hasf_0_r.
Qed.
End life.

(** ** The scan of a bmap *)
Section scan.
Context {D : Type} `{BmapIO D} `{PflErr} `{PflListLaws} `{PflSchedLaws}.
Context (f : finfo) (fgen : Z) (gc : sl_config) (sv : servers) (be : batch_env).
Abbreviation SS := (sched D).

(** The I/O system of a replica, when it is configured: a resource of its own
    with its first member. *)
Definition ios_of (i : Z) : option sl_resource := id2res gc (default 0 (fi_repls f !! Z.to_nat i)).
Definition native : Prop :=
  ∀ i r, 0 ≤ i < fi_nrepls f → ios_of i = Some r →
    ∃ m ms, res_members r = m :: ms ∧ res_id r = resm_res_id m ∧ fi_repls f !! Z.to_nat i = Some (res_id r).
(** A valid copy on a system that is configured. *)
Definition source (b : bmap) (i : Z) : bool := match ios_of i with Some _ => stat b i =? BREPLST_VALID | None => false end.

Hypothesis Hnative : native.
Hypothesis Hnd : NoDup (fi_repls f).
Hypothesis Hnew : be_newreq be = 0.
Hypothesis Hbulk : be_bulk be = 0.
Hypothesis Hadd : be_add be = 0.

Lemma native_ne i k r d m ms m' ms' :
  0 ≤ i < fi_nrepls f → 0 ≤ k < fi_nrepls f → i ≠ k → ios_of i = Some r → ios_of k = Some d →
  res_members r = m :: ms → res_members d = m' :: ms' → resm_res_id m ≠ resm_res_id m'.
Proof.
  intros Hi Hk Hne Hr Hd Hm Hm' Heq. destruct (Hnative i r Hi Hr) as (m1 & ms1 & Hm1 & Hid1 & Hl1).
  destruct (Hnative k d Hk Hd) as (m2 & ms2 & Hm2 & Hid2 & Hl2). rewrite Hm in Hm1. rewrite Hm' in Hm2. simplify_eq.
  rewrite Hid1, Heq, <-Hid2 in Hl1. apply Hne. pose proof (NoDup_lookup _ _ _ _ Hnd Hl1 Hl2). lia.
Qed.

(** Nothing has been arranged since [s0]. *)
Definition idle (O : list resv) (R : gset Z) (A : list bent) (s0 s : SS) : Prop :=
  untouched (sc_ms s0) (sc_ms s) ∧ ms_upsch (sc_ms s) = ms_upsch (sc_ms s0) ∧ bw_inv O (sc_bw s) ∧ batch_inv (sc_bm s) R A.

Context (O : list resv) (R : gset Z) (A : list bent) (s0 : SS).
Abbreviation b0 := (ms_b (sc_ms s0)).
Hypothesis Hf : finfo_ok f.
Hypothesis Hmod0 : hasf (bcm_flags b0) BMAPF_REPLMODWR = false.

Lemma idle_ready (s : SS) k : untouched (sc_ms s0) (sc_ms s) → 0 ≤ k < fi_nrepls f → ready f (ms_b (sc_ms s)) k.
Proof.
  intros (Hst & Hsame & Hlk & Hwf & _) Hk. split; try done. by rewrite (proj1 (proj2 Hsame)).
Qed.
Lemma nrepls_64 k : 0 ≤ k < fi_nrepls f → 0 ≤ k < 64.
Proof. destruct Hf as [Hnr _]. unfold SL_MAX_REPLICAS in Hnr. lia. Qed.
Lemma idle_stat (s : SS) k : untouched (sc_ms s0) (sc_ms s) → 0 ≤ k < fi_nrepls f → stat (ms_b (sc_ms s)) k = stat b0 k.
Proof. intros (Hst & _) Hk. apply Hst. by apply nrepls_64. Qed.
Lemma idle_traffic (s : SS) : untouched (sc_ms s0) (sc_ms s) → slm_bmap_calc_repltraffic f (ms_b (sc_ms s)) = slm_bmap_calc_repltraffic f b0.
Proof.
  intros (_ & (Hno & _ & Hod & _) & _). unfold slm_bmap_calc_repltraffic. by rewrite Hno, Hod.
Qed.
Lemma untouched_trans (s1 s2 s3 : mstate D) : untouched s1 s2 → untouched s2 s3 → untouched s1 s3.
Proof.
  intros (Ha1 & Hb1 & _ & _ & Hd1 & Hj1 & Hw1) (Ha2 & Hb2 & Hc2 & Hwf2 & Hd2 & Hj2 & Hw2).
  split; [intros j Hj; by rewrite Ha2, Ha1|]. split; [by eapply same_but_repls_trans|]. split_and!; congruence.
Qed.
Lemma idle_csvc s m : idle O R A s0 s → idle O R A s0 (sc_with_bm s (csvc_plus (csvc_plus (sc_bm s) m 1) m (-1))).
Proof. intros (? & ? & ? & ?). split; [done|]. split; [done|]. split; [done|]. by apply csvc_back_inv. Qed.

(** The work for replica [k] was arranged with a source. *)
Definition arranged (k : Z) (s' : SS) : Prop :=
  ∃ i, 0 ≤ i < fi_nrepls f ∧ i ≠ k ∧ source b0 i = true ∧
    ∀ j, 0 ≤ j < 64 → stat (ms_b (sc_ms s')) j =
      if decide (j = k) then (if slm_bmap_calc_repltraffic f b0 =? 0 then BREPLST_VALID else BREPLST_REPL_SCHED) else stat b0 j.

Lemma wp_src_loop pass k dst_res idxs valid s :
  idle O R A s0 s → 0 ≤ k < fi_nrepls f → stat b0 k = BREPLST_REPL_QUEUED → ios_of k = Some dst_res →
  (∀ i, i ∈ idxs → 0 ≤ i < fi_nrepls f) →
  wp (src_loop f fgen gc sv be pass k dst_res idxs valid)
     (λ r s', if r.1 : bool then arranged k s' else idle O R A s0 s' ∧ r.2 = valid || existsb (λ i, negb (i =? k) && source b0 i) idxs) s.
Proof.
  intros Hs Hk Hq Hdst. revert valid s Hs. induction idxs as [|i idxs IH]; intros valid s Hs Hin; cbn [src_loop existsb].
  { wp_step. by rewrite orb_false_r. }
  assert (Hin' : ∀ j, j ∈ idxs → 0 ≤ j < fi_nrepls f) by (intros j Hj; apply Hin; by right).
  assert (Hi : 0 ≤ i < fi_nrepls f) by (apply Hin; by left).
  destruct (Z.eqb_spec i k) as [->|Hne]; [simpl; by apply IH|]. wp_step. wp_step. simpl. unfold source at 1. unfold ios_of at 1.
  destruct (id2res gc (default 0 (fi_repls f !! Z.to_nat i))) as [src|] eqn:Hsrc; [|simpl; by apply IH].
  rewrite (idle_stat s i (proj1 Hs) Hi).
  destruct (Z.eqb_spec (stat b0 i) BREPLST_VALID) as [Hv|Hv]; simpl; [|by apply IH].
  assert (Hgo : ∀ s1, idle O R A s0 s1 → wp (src_loop f fgen gc sv be pass k dst_res idxs true)
    (λ r s', if r.1 : bool then arranged k s' else idle O R A s0 s' ∧ r.2 = valid || true) s1).
  { intros s1 Hs1. eapply wp_mono; [by apply IH|]. intros [[] v] s2; simpl; [done|]. intros [? ->]. by rewrite orb_true_r. }
  destruct (xorb pass (src_last sv src)); [by apply Hgo|].
  destruct (Hnative i src Hi Hsrc) as (m & ms & Hm & Hid & _).
  unfold res_getmemb. rewrite Hm. wp_step. wp_step. wp_step. unfold slm_geticsvc.
  destruct (sv_conn sv m) eqn:Hconn; [|wp_step; by apply Hgo].
  wp_step. apply wp_onBm. unfold csvc_adj. wp_step. wp_step. simpl. wp_step. unfold csvc_decref. apply wp_onBm.
  unfold sl_csvc_decref, csvc_adj. wp_step. simpl.
  pose proof (idle_csvc s (resm_res_id m) Hs) as Hs1. set (s1 := sc_with_bm _ _). change (idle O R A s0 s1) in Hs1. clearbody s1.
  destruct (Hnative k dst_res Hk Hdst) as (d & ds & Hd & Hdid & _).
  wp_step. eapply wp_mono.
  { eapply (wp_tryrepl f fgen sv be O R A k m d dst_res ds s1); try done; try apply Hs1; [apply idle_ready; [apply Hs1|done]| |].
    - by rewrite (idle_stat s1 k (proj1 Hs1) Hk).
    - by eapply (native_ne i k src dst_res). }
  intros ok s2 Hp. unfold tryrepl_post in Hp. cbv zeta in Hp. rewrite (idle_traffic s1 (proj1 Hs1)) in Hp.
  assert (Hdo : ∀ o, (∀ j, 0 ≤ j < 64 → stat (ms_b (sc_ms s2)) j = if decide (j = k) then o else stat (ms_b (sc_ms s1)) j) →
     o = (if slm_bmap_calc_repltraffic f b0 =? 0 then BREPLST_VALID else BREPLST_REPL_SCHED) → arranged k s2).
  { intros o Ho ->. exists i. split; [done|]. split; [done|]. split.
    - unfold source, ios_of. by rewrite Hsrc, Hv.
    - intros j Hj. rewrite Ho by done. case_decide; [done|]. destruct Hs1 as ((Hst & _) & _). by apply Hst. }
  destruct (slm_bmap_calc_repltraffic f b0 =? 0).
  { destruct Hp as (-> & Hst & _). wp_step. simpl. by eapply Hdo. }
  rewrite Hnew in Hp. simpl in Hp. rewrite andb_true_r in Hp. destruct (_ && _) eqn:Hsent.
  - destruct Hp as (-> & Hst & _). wp_step. simpl. by eapply Hdo.
  - destruct Hp as (-> & Hun & Hbw & Hup & _ & Hinv). apply Hgo. destruct Hs1 as (Hun1 & Hup1 & _ & _).
    split; [by eapply untouched_trans|]. split; [congruence|]. split; [done|by apply Hinv].
Qed.

(** The states are written: every write succeeds. *)
Hypothesis Hwrite : ∀ d n o c, ∃ d', pwritev_bmap d n o c = (0, BMAP_OD_SZ, true, d').

(** One replica is marked and the states are written. *)
Lemma wp_mark t r k (s : SS) (Q : Z → Z → SS → Prop) :
  untouched (sc_ms s0) (sc_ms s) → 0 ≤ k < fi_nrepls f → tract_ok t → brepls_ok (tr t (stat b0 k)) = true →
  (∀ s', (∀ j, 0 ≤ j < 64 → stat (ms_b (sc_ms s')) j = if decide (j = k) then tr t (stat b0 k) else stat b0 j) →
     Q (ret_of r (stat b0 k)) 0 s') →
  wp (onMs (onB (bmap_apply (Some t) r (k * SL_BITS_PER_REPLICA))))
     (λ rc s1, wp (onMs (mds_bmap_write_logrepls f)) (λ rc', Q rc rc') s1) s.
Proof.
  intros Hs Hk Ht Hok HQ. pose proof (idle_ready s k Hs Hk) as Hrd. pose proof (nrepls_64 k Hk) as Hk64.
  apply wp_onMs. apply wp_apply_one; [apply Hrd|done|apply Hrd|done|]. intros b' (Hsame & Hwf' & Hlk & Hor & Hst).
  rewrite (idle_stat s k Hs Hk).
  assert (Hst' : ∀ j, 0 ≤ j < 64 → stat b' j = if decide (j = k) then tr t (stat b0 k) else stat b0 j).
  { intros j Hj. destruct Hs as (Hu & _). rewrite Hst, Hu by done. by case_decide; subst. }
  apply wp_onMs. apply wp_bmap_write; [done|done| |done|].
  { exists k. split; [done|]. simpl. by rewrite Hst', decide_True. }
  intros rc nb lg d' Hw. simpl in Hw. destruct (Hwrite (ms_disk (sc_ms s)) (bcm_bmapno b') (bmi_od b') (crc64_bmap (bmi_od b'))) as [d2 Hw2].
  rewrite Hw2 in Hw. injection Hw as <- <- <- _. simpl. by apply HQ.
Qed.

Lemma wp_trypreclaim k dst_res csvc_err s :
  idle O R A s0 s → 0 ≤ k < fi_nrepls f → stat b0 k = BREPLST_GARBAGE → ios_of k = Some dst_res → csvc_err ≠ 0 →
  wp (slm_upsch_trypreclaim f fgen sv be csvc_err dst_res (k * SL_BITS_PER_REPLICA)) (λ ok s',
    if ok : bool then ∀ j, 0 ≤ j < 64 → stat (ms_b (sc_ms s')) j = if decide (j = k) then BREPLST_GARBAGE_SCHED else stat b0 j
    else idle O R A s0 s') s.
Proof.
  intros Hs Hk Hg Hd Herr. destruct (Hnative k dst_res Hk Hd) as (m & ms & Hm & Hid & _).
  unfold slm_upsch_trypreclaim. wp_step. wp_step. case_bool_decide; [by wp_step|]. unfold res_getmemb. rewrite Hm. wp_step. wp_step. wp_step.
  unfold slm_geticsvc. destruct (sv_conn sv m); [|wp_step; simpl; wp_step; by rewrite (proj2 (Z.eqb_neq _ _) Herr)].
  wp_step. apply wp_onBm. unfold csvc_adj. wp_step. wp_step. simpl. wp_step. wp_step. wp_step. apply wp_onBm. rewrite Hid, Hnew, Hbulk, Hadd.
  simpl. set (e := EntPreclaim _ _ _).
  destruct (wp_run _ _ _ (add_inv (sc_bm s) R A 0 (be_now be) (resm_res_id m) SRMT_PRECLAIM e SIZEOF_PRECLAIM 30
    (proj2 (proj2 (proj2 Hs))))) as (rc & bm2 & Heq & _ & Hrc0). specialize (Hrc0 eq_refl). subst rc.
  change (batchrq_add 0 0 0 (be_now be) (resm_res_id m) SRMT_PRECLAIM e SIZEOF_PRECLAIM 30 (csvc_plus (sc_bm s) (resm_res_id m) 1)
    = Done (0, bm2)) in Heq.
  apply (wp_intro _ _ _ _ _ Heq). simpl. wp_step. wp_step. apply (wp_mark _ _ k); [apply Hs|done|auto with sched|by rewrite Hg|].
  rewrite Hg. intros s' Hst. wp_step. unfold csvc_decref. apply wp_onBm. unfold sl_csvc_decref, csvc_adj. wp_step. by wp_step.
Qed.

(** What one destination leads to. *)
Definition moved (wr_ion : bool) (k : Z) (s' : SS) : Prop :=
  0 ≤ k < fi_nrepls f ∧ ∃ v,
    (∀ j, 0 ≤ j < 64 → stat (ms_b (sc_ms s')) j = if decide (j = k) then v else stat b0 j) ∧
    ((stat b0 k = BREPLST_REPL_QUEUED ∧ wr_ion = false ∧
      ((v = (if slm_bmap_calc_repltraffic f b0 =? 0 then BREPLST_VALID else BREPLST_REPL_SCHED) ∧
        ∃ i, 0 ≤ i < fi_nrepls f ∧ i ≠ k ∧ source b0 i = true) ∨
       (v = BREPLST_GARBAGE ∧ ∀ i, 0 ≤ i < fi_nrepls f → source b0 i = false))) ∨
     (stat b0 k = BREPLST_GARBAGE ∧ v = BREPLST_GARBAGE_SCHED)).

(** Whether a source was seen so far. *)
Definition seen (valid : bool) : Prop := valid = true → ∃ i, 0 ≤ i < fi_nrepls f ∧ source b0 i = true.

Lemma rnd_elem t i : i ∈ foreach_rnd t (fi_nrepls f) ↔ 0 ≤ i < fi_nrepls f.
Proof. rewrite foreach_rnd_perm, elem_of_seqZ. lia. Qed.

Lemma wp_scan_dst wr_ion ptr k dst_res valid s :
  idle O R A s0 s → 0 ≤ k < fi_nrepls f → ios_of k = Some dst_res → stat b0 k ≠ BREPLST_TRUNCPNDG → ptr.2 ≠ 0 → seen valid →
  wp (scan_dst f fgen gc sv be wr_ion ptr k dst_res valid) (λ r s',
    match r with ScanReturn => moved wr_ion k s' | ScanNext valid' => idle O R A s0 s' ∧ seen valid' end) s.
Proof.
  intros Hs Hk Hd Hnt Herr Hseen. unfold scan_dst. wp_step. wp_step. cbv zeta. rewrite (idle_stat s k (proj1 Hs) Hk).
  destruct (Z.eqb_spec (stat b0 k) BREPLST_REPL_QUEUED) as [Hq|Hq].
  - destruct wr_ion; [by wp_step|]. wp_step.
    assert (Hex : ∀ t, existsb (λ i, negb (i =? k) && source b0 i) (foreach_rnd t (fi_nrepls f)) = true → ∃ i, 0 ≤ i < fi_nrepls f ∧ source b0 i = true).
    { intros t (i & Hi & Hsrc)%existsb_elem. apply andb_true_iff in Hsrc as [_ ?]. exists i. by rewrite rnd_elem in Hi. }
    assert (Harr : ∀ s', arranged k s' → moved false k s').
    { intros s' (i & Hi & Hne & Hsrc & Hst). split; [done|]. eexists. split; [exact Hst|]. left. split; [done|]. split; [done|]. left. eauto. }
    eapply wp_mono; [apply (wp_src_loop false k dst_res _ valid s Hs Hk Hq Hd); intros i; apply rnd_elem|].
    intros [[] v1] s1; simpl; [intros Ha; wp_step; by apply Harr|]. intros [Hs1 Hv1]. wp_step.
    eapply wp_mono; [apply (wp_src_loop true k dst_res _ v1 s1 Hs1 Hk Hq Hd); intros i; apply rnd_elem|].
    intros [[] v2] s2; simpl; [intros Ha; wp_step; by apply Harr|]. intros [Hs2 Hv2].
    destruct v2.
    + wp_step. split; [done|]. intros _. symmetry in Hv2. apply orb_true_iff in Hv2 as [->|Hv2]; [|by eapply Hex].
      symmetry in Hv1. apply orb_true_iff in Hv1 as [->|Hv1]; [by apply Hseen|by eapply Hex].
    + wp_step. apply (wp_mono _ (λ rc s1, wp (onMs (mds_bmap_write_logrepls f)) (λ _ s', rc = 1 ∧ moved false k s') s1)).
      * apply (wp_mark _ (Some cancel_retifset) k); [apply Hs2|done|auto with sched|by rewrite Hq|]. rewrite Hq. intros s' Hst.
        split; [done|]. split; [done|]. exists BREPLST_GARBAGE. split; [exact Hst|]. left. split; [done|]. split; [done|]. right. split; [done|].
        intros i Hi. symmetry in Hv2. apply orb_false_iff in Hv2 as [_ Hv2]. destruct (source b0 i) eqn:Hsrc; [|done].
        destruct (decide (i = k)) as [->|Hne].
        { revert Hsrc. unfold source. destruct (ios_of k); [rewrite Hq; done|done]. }
        exfalso. apply not_true_iff_false in Hv2. apply Hv2, existsb_elem. exists i. rewrite rnd_elem, (proj2 (Z.eqb_neq _ _) Hne), Hsrc. done.
      * intros rc s3 Hw. destruct (wp_run _ _ _ Hw) as (rc2 & s4 & Hrun4 & -> & Hmv). simpl. wp_step. apply (wp_intro _ _ _ _ _ Hrun4). by wp_step.
  - rewrite (proj2 (Z.eqb_neq _ _) Hnt). destruct (Z.eqb_spec (stat b0 k) BREPLST_GARBAGE) as [Hg|Hg]; [|by wp_step].
    wp_step. eapply wp_mono; [by apply wp_trypreclaim|]. intros [] s1; simpl; intros Hp; wp_step; [|done].
    split; [done|]. exists BREPLST_GARBAGE_SCHED. split; [exact Hp|]. by right.
Qed.

Lemma wp_dst_loop wr_ion ptr idxs valid s :
  idle O R A s0 s → (∀ k, k ∈ idxs → 0 ≤ k < fi_nrepls f) → (∀ k, 0 ≤ k < fi_nrepls f → stat b0 k ≠ BREPLST_TRUNCPNDG) →
  ptr.2 ≠ 0 → seen valid →
  wp (dst_loop f fgen gc sv be wr_ion ptr idxs valid)
     (λ _ s', (∀ j, 0 ≤ j < 64 → stat (ms_b (sc_ms s')) j = stat b0 j) ∨ ∃ k, moved wr_ion k s') s.
Proof.
  intros Hs Hin Hnt Herr. revert valid s Hs. induction idxs as [|k idxs IH]; intros valid s Hs Hseen; cbn [dst_loop].
  { apply wp_onMs. unfold modB. wp_step. left. intros j Hj. destruct Hs as ((Hst & _) & _). rewrite <-Hst by done. simpl.
    by destruct (bmi_wrlocked (ms_b (sc_ms s))). }
  assert (Hk : 0 ≤ k < fi_nrepls f) by (apply Hin; by left).
  specialize (IH (λ j Hj, Hin j (list_elem_of_further _ _ _ Hj))).
  destruct (id2res gc (default 0 (fi_repls f !! Z.to_nat k))) as [d|] eqn:Hd; [|by apply IH].
  wp_step. eapply wp_mono; [apply (wp_scan_dst wr_ion ptr k d valid s); try done; by apply Hnt|].
  intros [|valid'] s1 Hp; [wp_step; eauto|]. destruct Hp as [Hs1 Hv1]. by apply IH.
Qed.
End scan.

Section scan_thm.
Context {D : Type} `{BmapIO D} `{PflErr} `{PflListLaws} `{PflSchedLaws}.
Context (f : finfo) (fgen : Z) (gc : sl_config) (sv : servers) (be : batch_env).
Abbreviation SS := (sched D).

(** C32: what a scan of a bmap may do, when no truncation is pending, no one
    holds the lock of the replica states, requests can be added to batches
    ([be_newreq], [be_bulk] and [be_add] are 0) and writes of the backend
    succeed and are logged. It does not fail, and it changes at most one
    replica. A queued one is scheduled when another configured system has a
    valid copy (or is valid at once when the bmap has no data), is given up as
    garbage when no configured system has one, and is left alone while a write
    lease is out; garbage is sent to be reclaimed. A valid copy is never
    touched. *)
Theorem scan_moves O R A wr_ion ptr (s : SS) :
  let b := ms_b (sc_ms s) in
  native f gc → NoDup (fi_repls f) → be_newreq be = 0 → be_bulk be = 0 → be_add be = 0 →
  repls_wf (bmi_repls b) → finfo_ok f → bmi_wrlocked b = false →
  (∀ k, 0 ≤ k < fi_nrepls f → stat b k ≠ BREPLST_TRUNCPNDG) → ptr.2 ≠ 0 →
  bw_inv O (sc_bw s) → batch_inv (sc_bm s) R A → (∀ d n o c, ∃ d', pwritev_bmap d n o c = (0, BMAP_OD_SZ, true, d')) →
  wp (upd_proc_bmap f fgen gc sv be wr_ion ptr) (λ _ s',
    (∀ j, 0 ≤ j < 64 → stat (ms_b (sc_ms s')) j = stat b j) ∨
    ∃ k v, 0 ≤ k < fi_nrepls f ∧
      (∀ j, 0 ≤ j < 64 → stat (ms_b (sc_ms s')) j = if decide (j = k) then v else stat b j) ∧
      ((stat b k = BREPLST_REPL_QUEUED ∧ wr_ion = false ∧
        ((v = (if slm_bmap_calc_repltraffic f b =? 0 then BREPLST_VALID else BREPLST_REPL_SCHED) ∧
          ∃ i, 0 ≤ i < fi_nrepls f ∧ i ≠ k ∧ source f gc b i = true) ∨
         (v = BREPLST_GARBAGE ∧ ∀ i, 0 ≤ i < fi_nrepls f → source f gc b i = false))) ∨
       (stat b k = BREPLST_GARBAGE ∧ v = BREPLST_GARBAGE_SCHED))) s.
Proof.
  intros b Hnat Hnd Hnew Hbulk Hadd Hwf Hf Hlk Hnt Herr Hbw Hinv Hwr. unfold upd_proc_bmap. wp_step. wp_step.
  destruct (hasf (bcm_flags (ms_b (sc_ms s))) BMAPF_REPLMODWR) eqn:Hmod; [wp_step; by left|].
  eapply wp_mono.
  { apply (wp_dst_loop f fgen gc sv be Hnat Hnd Hnew Hbulk Hadd O R A s Hf Hmod Hwr wr_ion ptr); try done.
    - split; [by apply untouched_refl|done].
    - intros k. apply rnd_elem. }
  intros [] s' [Hst|(k & Hk & v & Hst & Hv)]; [by left|right]. exists k, v. done.
Qed.

(** *** Paging work in *)
Lemma pagein_retifset_spec v : 0 ≤ v < NBREPLST →
  arr_get pagein_retifset v = if (v =? BREPLST_REPL_QUEUED) || (v =? BREPLST_TRUNCPNDG) then 1 else 0.
Proof. intros Hv. by by_state v Hv. Qed.

(** Work that is paged in is queued for the scheduler when a replica of the
    bmap is queued or waits for a truncation; otherwise all rows of the bmap
    are deleted from the upsch table, and with them the rows of the replicas
    that are garbage to be reclaimed, which the scan would have sent. *)
Theorem pagein_drops_garbage fid (s : SS) :
  let b := ms_b (sc_ms s) in
  repls_wf (bmi_repls b) → finfo_ok f → fid = fi_fid f →
  (∀ j, 0 ≤ j < fi_nrepls f → stat b j ≠ BREPLST_REPL_QUEUED ∧ stat b j ≠ BREPLST_TRUNCPNDG) →
  wp (_ ← upd_proc_pagein_unit f 0 fid; s1 ← getM;
      match last (sc_wk s1) with Some (WkPurge fid bno) => onMs (slm_wk_upsch_purge fid bno) | _ => mret tt end) (λ _ s',
    ms_b (sc_ms s') = b ∧ ms_upschq (sc_ms s') = ms_upschq (sc_ms s) ∧
    (∀ resid, ms_upsch (sc_ms s') !! (resid, fid, bcm_bmapno b) = None) ∧
    (∀ k, (k.1.2 ≠ fid ∨ k.2 ≠ bcm_bmapno b) → ms_upsch (sc_ms s') !! k = ms_upsch (sc_ms s) !! k)) s.
Proof.
  intros b Hwf Hf -> Hno. unfold upd_proc_pagein_unit. simpl. wp_step. wp_step. apply wp_onMs, wp_onB.
  apply wp_bmap_walk_query; [done|apply Hf|apply iosidx_ok_nil|].
  change (hasf REPL_WALKF_SCIRCUIT REPL_WALKF_SCIRCUIT) with true. cbv iota.
  rewrite (proj2 (first_nonzero_zero _)).
  2:{ rewrite Forall_fmap, Forall_forall. intros j Hj%elem_of_seqZ. simpl. destruct (Hno j) as [Ha Hb]; [lia|].
      rewrite pagein_retifset_spec by (by apply stat_range). fold b. by rewrite (proj2 (Z.eqb_neq _ _) Ha), (proj2 (Z.eqb_neq _ _) Hb). }
  simpl. wp_step. wp_step. wp_step. simpl. rewrite last_snoc. apply wp_onMs. unfold slm_wk_upsch_purge. wp_step. simpl. split_and!; try done.
  - intros resid. apply map_lookup_filter_None. right. intros row _. simpl. tauto.
  - intros k Hk. destruct (ms_upsch (sc_ms s) !! k) as [row|] eqn:Hrow.
    + apply map_lookup_filter_Some. split; [done|]. simpl. fold b. intros [? ?]. destruct Hk as [?|?]; congruence.
    + apply map_lookup_filter_None. by left.
Qed.

(** *** A truncation that failed *)

(** When the RPC for a truncation fails, the worker takes the write lock on the
    states to mark them pending again, and nothing releases it: neither the
    states are written nor is the lock undone. *)
Theorem ptrunc_failure_keeps_lock (dst : sl_resm) rc k (s : SS) :
  ready f (ms_b (sc_ms s)) k → stat (ms_b (sc_ms s)) k = BREPLST_TRUNCPNDG_SCHED → rc ≠ 0 →
  wp (slm_upsch_wk_finish_ptrunc true dst rc (k * SL_BITS_PER_REPLICA)) (λ _ s',
    stat (ms_b (sc_ms s')) k = BREPLST_TRUNCPNDG ∧ bmi_wrlocked (ms_b (sc_ms s')) = true ∧
    hasf (bcm_flags (ms_b (sc_ms s'))) BMAPF_REPLMODWR = false ∧ ms_disk (sc_ms s') = ms_disk (sc_ms s)) s.
Proof.
  intros Hrd Hst Hrc. pose proof (ready_64 _ _ _ Hrd) as Hk64. unfold slm_upsch_wk_finish_ptrunc, slm_upsch_finish_ptrunc. simpl.
  rewrite (proj2 (Z.eqb_neq _ _) Hrc). simpl. wp_step. wp_step. wp_step. apply wp_onMs. apply wp_apply_one; [apply Hrd|done|apply Hrd|auto with sched|].
  intros b' (Hsame & _ & Hlk & _ & Hst'). 
  assert (Hb : stat b' k = BREPLST_TRUNCPNDG ∧ bmi_wrlocked b' = true ∧ hasf (bcm_flags b') BMAPF_REPLMODWR = false).
  { rewrite Hst', decide_True, Hst, (proj1 (proj2 Hsame)) by done. split_and!; try done. apply Hrd. }
  unfold upd_rpmi_remove, ref_adj, csvc_decref, sl_csvc_decref, csvc_adj. wp_step. wp_step. simpl.
  case_bool_decide; [wp_step; wp_step; wp_step|wp_step]; wp_step; apply wp_onBm; wp_step; wp_step; wp_step; simpl; destruct Hb as (? & ? & ?); done.
Qed.
End scan_thm.

(** ** Witnesses

    File 77 with a bmap of 1000 octets: replica 0 (system 10) is valid and
    replica 2 (system 12) is queued, with its row in the upsch table. *)
Module SchedEx.
#[global] Instance pflsched : PflSched :=
  {| foreach_rnd _ n := seqZ 0 n;
     pagein_select u resid := (λ kv, (kv.1.1.2, kv.1.2)) <$> filter (λ kv, kv.1.1.1 = resid ∧ ur_status kv.2 = StQ) (map_to_list u);
     PFLERR_NOTSUP := 5000 |}.
#[global] Instance pflsched_laws : PflSchedLaws.
Proof.
  split; [done|]. intros u resid fid bno ([[[r f] n] row] & [= -> ->] & [[Hr Hst] Hin]%list_elem_of_filter)%list_elem_of_fmap_1. simpl in *. subst.
  apply elem_of_map_to_list in Hin. by exists row.
Qed.

Definition b : bmap :=
  b_with_od ex_bmap {| bod_crcstates := BMAP_SLVR_DATA :: replicate 127 0; bod_repls := bod_repls (bmi_od ex_bmap);
                       bod_crcs := bod_crcs (bmi_od ex_bmap); bod_gen := 7; bod_replpol := 0 |}.
Definition row : uprow := {| ur_status := StQ; ur_sys_prio := 0; ur_usr_prio := 0; ur_nonce := 1 |}.
Definition ms : mstate MemBmaps.mem := ms_with_upsch (ms_with_b MemBmaps.st b) {[ (12, 77, 0) := row ]}.
Definition st : sched MemBmaps.mem :=
  {| sc_ms := ms; sc_bw := ∅; sc_bm := bmgr_init; sc_notsup := ∅; sc_ref := 0; sc_rpmi := ∅; sc_ptrpcs := []; sc_wk := [] |}.
Definition be : batch_env := {| be_newreq := 0; be_bulk := 0; be_add := 0; be_now := 100 |}.
Definition cfg : gmap Z sl_res_type := list_to_map ((λ i, (i, SLREST_STANDALONE_FS)) <$> [10; 11; 12; 13]).
Lemma cfg_known : ∀ resid, resid ∈ fi_repls MemBmaps.fi → is_Some (libsl_id2res cfg resid).
Proof.
  intros resid Hin. change (resid ∈ [10; 11; 12; 13]) in Hin.
  list_cases Hin; rewrite Hin; exists SLREST_STANDALONE_FS; vm_compute; reflexivity.
Qed.
Lemma b_ready : ready MemBmaps.fi b 2.
Proof. split; [exact ex_bmap_wf|exact MemBmaps.fi_ok|by vm_compute|reflexivity|reflexivity]. Qed.
Lemma bw_none : bw_inv [] ∅.
Proof. split; [by intros x ?%elem_of_nil|done]. Qed.
Lemma other : ∃ j, 0 ≤ j < fi_nrepls MemBmaps.fi ∧ j ≠ 2 ∧ brepls_ok (stat b j) = true.
Proof. exists 0. split; [by vm_compute|]. split; [done|]. vm_compute. reflexivity. Qed.
Lemma writes : ∀ d n o c, ∃ d', pwritev_bmap (D := MemBmaps.mem) d n o c = (0, BMAP_OD_SZ, true, d').
Proof. intros. eexists. reflexivity. Qed.
(** The state with the replica scheduled and its bandwidth reserved. *)
Definition bw : bwmap := match resmpair_bw_adj 10 12 1000 true ∅ with Done (_, m) => m | Stuck _ => ∅ end.
Definition scheduled : sched MemBmaps.mem :=
  sc_with_bw (sc_with_ms st (ms_with_b ms (b_with_repls b (repl_upd (bmi_repls b) 2 BREPLST_REPL_SCHED)))) bw.
Lemma scheduled_ready : ready MemBmaps.fi (ms_b (sc_ms scheduled)) 2.
Proof. split; [apply repl_upd_wf; exact ex_bmap_wf|exact MemBmaps.fi_ok|by vm_compute|reflexivity|reflexivity]. Qed.
Lemma bw_out : bw_inv [(10, 12, 1000)] bw.
Proof.
  apply (bw_run_inv [(10, 12, 1000)]), (bw_reserve [] ∅ 10 12 1000 true true true); [apply bw_start|done|by vm_compute|].
  vm_compute. reflexivity.
Qed.
(** A bmap with a valid copy and garbage to reclaim on system 12. *)
Definition garbage : sched MemBmaps.mem :=
  sc_with_ms st (ms_with_b ms (b_with_repls b (repl_upd (bmi_repls b) 2 BREPLST_GARBAGE))).
Lemma conf_native : native MemBmaps.fi SelEx.gc.
Proof.
  intros i r Hi. assert (i = 0 ∨ i = 1 ∨ i = 2 ∨ i = 3) as Hc by (unfold fi_nrepls in Hi; simpl in Hi; lia).
  destruct Hc as [-> | [-> | [-> | ->]]]; intros Hr; vm_compute in Hr; injection Hr as <-; eexists _, []; done.
Qed.
Lemma small_idx (P : Z → Prop) : P 0 → P 1 → P 2 → P 3 → ∀ k, 0 ≤ k < fi_nrepls MemBmaps.fi → P k.
Proof. intros ? ? ? ? k Hk. assert (k = 0 ∨ k = 1 ∨ k = 2 ∨ k = 3) as Hc by (unfold fi_nrepls in Hk; simpl in Hk; lia).
  by destruct Hc as [-> | [-> | [-> | ->]]]. Qed.
End SchedEx.
Import SchedEx.

Lemma tryrepl_outcome_witness :
  wp (slm_upsch_tryrepl MemBmaps.fi 1 SelEx.sv be (2 * SL_BITS_PER_REPLICA) (SelEx.memb 10) (SelEx.res 12)) (λ ok s', ok = true ∧
    stat (ms_b (sc_ms s')) 2 = BREPLST_REPL_SCHED) st.
Proof.
  eapply wp_mono; [apply (tryrepl_outcome MemBmaps.fi 1 SelEx.sv be [] ∅ [] 2 (SelEx.memb 10) (SelEx.memb 12) (SelEx.res 12) [] st)|].
  - exact b_ready.
  - vm_compute. reflexivity.
  - reflexivity.
  - reflexivity.
  - discriminate.
  - exact bw_none.
  - exact init_inv.
  - reflexivity.
  - reflexivity.
  - intros ok s' Hp. unfold tryrepl_post in Hp. cbv zeta in Hp.
    assert (slm_bmap_calc_repltraffic MemBmaps.fi (ms_b (sc_ms st)) = 1000) as Ha by (vm_compute; reflexivity).
    assert (bw_room (sc_bw st) (resm_res_id (SelEx.memb 10)) (resm_res_id (SelEx.memb 12)) = true) as Hr by (vm_compute; reflexivity).
    assert (repl_len MemBmaps.fi (bcm_bmapno (ms_b (sc_ms st))) = Some 1000) as Hl by (vm_compute; reflexivity).
    rewrite Ha, Hr, Hl in Hp. destruct Hp as (-> & Hst & _). split; [done|]. by rewrite Hst by lia.
Defined.

Lemma replication_life_witness :
  let pe := {| pe_fg := (77, 1); pe_bno := 0; pe_bgen := 7; pe_src := 10; pe_len := 1000 |} in
  wp (ok ← slm_upsch_tryrepl MemBmaps.fi 1 SelEx.sv be (2 * SL_BITS_PER_REPLICA) (SelEx.memb 10) (SelEx.res 12);
      _ ← repl_cb_entry MemBmaps.fi 0 0 (Some [0]) 0 (SelEx.res 12) pe {| bsr_off := 2 * SL_BITS_PER_REPLICA; bsr_amt := 1000 |};
      _ ← onMs (slm_wkcb_wr_brepl MemBmaps.fi cfg 1 (λ _, true)); mret ok) (λ ok s',
    ok = true ∧ stat (ms_b (sc_ms s')) 2 = BREPLST_VALID ∧ ms_upsch (sc_ms s') !! (12, 77, 0) = None) st.
Proof.
  intros pe. assert (Ha : slm_bmap_calc_repltraffic MemBmaps.fi (ms_b (sc_ms st)) = 1000) by (vm_compute; reflexivity).
  pose proof (replication_life MemBmaps.fi 1 SelEx.sv be cfg 1 (λ _, true) [] ∅ [] 2 (SelEx.memb 10) (SelEx.memb 12) (SelEx.res 12) []
    0 (Some [0]) (Some 0) 1000 st) as Hlife. cbv zeta in Hlife. rewrite Ha in Hlife.
  eapply wp_mono; [apply Hlife|].
  - exact b_ready.
  - vm_compute. reflexivity.
  - exact other.
  - reflexivity.
  - apply (bool_decide_unpack _). vm_compute. exact I.
  - exact cfg_known.
  - reflexivity.
  - reflexivity.
  - discriminate.
  - discriminate.
  - vm_compute. reflexivity.
  - reflexivity.
  - vm_compute. reflexivity.
  - exact bw_none.
  - exact init_inv.
  - reflexivity.
  - reflexivity.
  - reflexivity.
  - reflexivity.
  - eexists. reflexivity.
  - intros d o c. eexists _, _, _. reflexivity.
  - intros ok s' (Hok & Hst & Hv & _). split; [done|]. split; [by rewrite Hst by lia|by apply Hv].
Defined.

Lemma repl_completion_witness :
  wp (repl_cb_entry MemBmaps.fi 0 0 None 0 (SelEx.res 12) {| pe_fg := (77, 1); pe_bno := 0; pe_bgen := 7; pe_src := 10; pe_len := 1000 |}
        {| bsr_off := 2 * SL_BITS_PER_REPLICA; bsr_amt := 1000 |}) (λ _ s', stat (ms_b (sc_ms s')) 2 = BREPLST_REPL_QUEUED) scheduled.
Proof.
  eapply wp_mono; [apply (repl_completion MemBmaps.fi [] 2 0 None 0 None {| pe_fg := (77, 1); pe_bno := 0; pe_bgen := 7; pe_src := 10; pe_len := 1000 |}
    {| bsr_off := 2 * SL_BITS_PER_REPLICA; bsr_amt := 1000 |} (SelEx.memb 12) (SelEx.res 12) [] scheduled)|].
  - exact scheduled_ready.
  - vm_compute. reflexivity.
  - exists 0. split; [by vm_compute|]. split; [done|]. vm_compute. reflexivity.
  - reflexivity.
  - exact I.
  - reflexivity.
  - exact bw_out.
  - intros ? s' (Hst & _). by rewrite Hst by lia.
Defined.

Lemma scan_moves_witness :
  wp (upd_proc_bmap MemBmaps.fi 1 SelEx.gc SelEx.sv be true (0, 0, 1)) (λ _ s', ∀ j, 0 ≤ j < 64 → stat (ms_b (sc_ms s')) j = stat b j) st.
Proof.
  eapply wp_mono; [apply (scan_moves MemBmaps.fi 1 SelEx.gc SelEx.sv be [] ∅ [] true (0, 0, 1) st)|].
  - exact conf_native.
  - apply (bool_decide_unpack _). vm_compute. exact I.
  - reflexivity.
  - reflexivity.
  - reflexivity.
  - exact ex_bmap_wf.
  - exact MemBmaps.fi_ok.
  - reflexivity.
  - apply small_idx; vm_compute; discriminate.
  - discriminate.
  - exact bw_none.
  - exact init_inv.
  - exact writes.
  - intros ? s' [Hst|(k & v & Hk & Hst & [(_ & ? & _)|[Hg _]])]; [done|done|]. exfalso.
    revert Hg. apply (small_idx (λ k, stat (ms_b (sc_ms st)) k ≠ BREPLST_GARBAGE)); [vm_compute; discriminate..|exact Hk].
Defined.

Lemma pagein_drops_garbage_witness :
  stat (ms_b (sc_ms garbage)) 2 = BREPLST_GARBAGE ∧ ms_upsch (sc_ms garbage) !! (12, 77, 0) = Some row ∧
  wp (_ ← upd_proc_pagein_unit MemBmaps.fi 0 77; s1 ← getM;
      match last (sc_wk s1) with Some (WkPurge fid bno) => onMs (slm_wk_upsch_purge fid bno) | _ => mret tt end) (λ _ s',
    ms_upsch (sc_ms s') !! (12, 77, 0) = None) garbage.
Proof.
  split; [vm_compute; reflexivity|]. split; [reflexivity|].
  eapply wp_mono; [apply (pagein_drops_garbage MemBmaps.fi 77 garbage)|].
  - apply repl_upd_wf. exact ex_bmap_wf.
  - exact MemBmaps.fi_ok.
  - reflexivity.
  - apply small_idx; vm_compute; split; discriminate.
  - intros ? s' (_ & _ & Hn & _). apply Hn.
Defined.
