(* ===== verification/Slvr.v ===== *)
(** * Slivers: the data cache of an I/O server

    The 1 MB parts of a bmap that an I/O server keeps in memory
    ([sliod/slvr.c]), reads and writes of clients on them ([sliod/ric.c]), the
    threads that compute CRCs and report them to the metadata server
    ([sliod/slvr_worker.c], [sliod/bmap_iod.c]). The state is that of one bmap:
    its slivers, the lists they are on, its CRC table, the reports under way
    and the file behind it. I/O on the file is synchronous ([cfg_async_io]
    is off). *)
From S2P Require Import Prelude ReplBits ReplWalk BmapMds ReplReq Replay CrcWrite.

(** ** Constants and data *)
Definition SLASH_SLVR_BLKSZ : Z := 32 * 1024.
Definition SLASH_BLKS_PER_SLVR : Z := SLASH_SLVR_SIZE / SLASH_SLVR_BLKSZ.
Definition BMAP_SLVR_CRCABSENT : Z := Z.shiftl 1 3.
Definition BMAP_SLVR_WANTREPL : Z := Z.shiftl 1 4.
Definition SLERR_CRCABSENT : Z := SLERR_START + 34.
Definition CRC_QUEUE_AGE : Z := 2.
Definition BCR_BATCH_AGE : Z := 12.
Definition RIC_MAX_SLVRS_PER_IO : Z := 2.

Definition SLVRF_FAULTING : Z := Z.shiftl 1 0.
Definition SLVRF_DATARDY : Z := Z.shiftl 1 1.
Definition SLVRF_DATAERR : Z := Z.shiftl 1 2.
Definition SLVRF_LRU : Z := Z.shiftl 1 3.
Definition SLVRF_CRCDIRTY : Z := Z.shiftl 1 4.
Definition SLVRF_FREEING : Z := Z.shiftl 1 5.
Definition SLVRF_READAHEAD : Z := Z.shiftl 1 6.

(** Bytes by offset: the contents of a slab, of a file, of a transfer. *)
Abbreviation data := (Z → Z).
(** [memcpy(dst + off, src, len)]. *)
Definition overlay (dst : data) (off len : Z) (src : data) : data :=
  λ i, if (off <=? i) && (i <? off + len) then src (i - off) else dst i.

Record slvr := {
  slvr_flags : Z;
  slvr_refcnt : Z;
  slvr_err : Z;
  slvr_ts : Z;           (* seconds *)
  slvr_slab : data;
}.

(** A report that is being collected or sent: [bcr_crcup.crcs]. *)
Record bcrcupd := { bcr_age : Z; bcr_crcs : list srt_bmap_crcwire }.

Record sli_readaheadrq := { rarq_off : Z; rarq_size : Z }.

(** The I/O server's view of one bmap. *)
Record ion := {
  io_slvrs : gmap Z slvr;            (* bii_slvrs, by slvr_num *)
  io_lru : list Z;                   (* sli_lruslvrs *)
  io_crcq : list Z;                  (* sli_crcqslvrs *)
  io_crcthr : list Z;                (* the arrays of the CRC threads *)
  io_crcstates : list Z;             (* bii_crcstates *)
  io_crcs : list Z;                  (* bii_crcs *)
  io_bcr : option Z;                 (* bii_bcr *)
  io_bcrs : gmap Z bcrcupd;          (* the allocated bcrcupd's *)
  io_nbcr : Z;                       (* how many were allocated so far *)
  io_ready : list Z;                 (* bcr_ready *)
  io_crud : bool;                    (* BMAPF_CRUD_INFLIGHT *)
  io_rpcs : list (list Z);           (* CRC update RPCs in flight *)
  io_raq : list sli_readaheadrq;     (* sli_readaheadq *)
  io_back : bool;                    (* FCMH_IOD_BACKFILE *)
  io_file : data;                    (* the backing file *)
  io_fsize : Z;
}.

Definition io_with_slvrs (s : ion) (m : gmap Z slvr) : ion :=
  {| io_slvrs := m; io_lru := io_lru s; io_crcq := io_crcq s; io_crcthr := io_crcthr s; io_crcstates := io_crcstates s;
     io_crcs := io_crcs s; io_bcr := io_bcr s; io_bcrs := io_bcrs s; io_nbcr := io_nbcr s; io_ready := io_ready s; io_crud := io_crud s;
     io_rpcs := io_rpcs s; io_raq := io_raq s; io_back := io_back s; io_file := io_file s; io_fsize := io_fsize s |}.
Definition io_with_lists (s : ion) (lru crcq crcthr : list Z) : ion :=
  {| io_slvrs := io_slvrs s; io_lru := lru; io_crcq := crcq; io_crcthr := crcthr; io_crcstates := io_crcstates s;
     io_crcs := io_crcs s; io_bcr := io_bcr s; io_bcrs := io_bcrs s; io_nbcr := io_nbcr s; io_ready := io_ready s; io_crud := io_crud s;
     io_rpcs := io_rpcs s; io_raq := io_raq s; io_back := io_back s; io_file := io_file s; io_fsize := io_fsize s |}.
Definition io_with_crc (s : ion) (states crcs : list Z) : ion :=
  {| io_slvrs := io_slvrs s; io_lru := io_lru s; io_crcq := io_crcq s; io_crcthr := io_crcthr s; io_crcstates := states;
     io_crcs := crcs; io_bcr := io_bcr s; io_bcrs := io_bcrs s; io_nbcr := io_nbcr s; io_ready := io_ready s; io_crud := io_crud s;
     io_rpcs := io_rpcs s; io_raq := io_raq s; io_back := io_back s; io_file := io_file s; io_fsize := io_fsize s |}.
Definition io_with_bcrs (s : ion) (cur : option Z) (m : gmap Z bcrcupd) (nbcr : Z) (ready : list Z) (crud : bool) (rpcs : list (list Z)) : ion :=
  {| io_slvrs := io_slvrs s; io_lru := io_lru s; io_crcq := io_crcq s; io_crcthr := io_crcthr s; io_crcstates := io_crcstates s;
     io_crcs := io_crcs s; io_bcr := cur; io_bcrs := m; io_nbcr := nbcr; io_ready := ready; io_crud := crud;
     io_rpcs := rpcs; io_raq := io_raq s; io_back := io_back s; io_file := io_file s; io_fsize := io_fsize s |}.
Definition io_with_raq (s : ion) (q : list sli_readaheadrq) : ion :=
  {| io_slvrs := io_slvrs s; io_lru := io_lru s; io_crcq := io_crcq s; io_crcthr := io_crcthr s; io_crcstates := io_crcstates s;
     io_crcs := io_crcs s; io_bcr := io_bcr s; io_bcrs := io_bcrs s; io_nbcr := io_nbcr s; io_ready := io_ready s; io_crud := io_crud s;
     io_rpcs := io_rpcs s; io_raq := q; io_back := io_back s; io_file := io_file s; io_fsize := io_fsize s |}.
Definition io_with_file (s : ion) (f : data) (n : Z) : ion :=
  {| io_slvrs := io_slvrs s; io_lru := io_lru s; io_crcq := io_crcq s; io_crcthr := io_crcthr s; io_crcstates := io_crcstates s;
     io_crcs := io_crcs s; io_bcr := io_bcr s; io_bcrs := io_bcrs s; io_nbcr := io_nbcr s; io_ready := io_ready s; io_crud := io_crud s;
     io_rpcs := io_rpcs s; io_raq := io_raq s; io_back := io_back s; io_file := f; io_fsize := n |}.

Abbreviation IO A := (M ion A).

(** [psc_crc64_calc] over a whole slab, which is code of libpfl: it depends on
    the bytes of the slab only. *)
Class PflCrc := { crc64_slvr : data → Z }.
Definition slab_eq (d e : data) : Prop := ∀ i, 0 ≤ i < SLASH_SLVR_SIZE → d i = e i.
Class PflCrcLaws `{PflCrc} := { crc64_proper : ∀ d e, slab_eq d e → crc64_slvr d = crc64_slvr e }.

(** ** Slivers *)
Section ops.
Context `{PflErr} `{PflCrc}.
(** The number of the bmap in its file. *)
Context (bno : Z).

Definition sv_with_flags (v : slvr) (fl : Z) : slvr :=
  {| slvr_flags := fl; slvr_refcnt := slvr_refcnt v; slvr_err := slvr_err v; slvr_ts := slvr_ts v; slvr_slab := slvr_slab v |}.
Definition sv_with_ref (v : slvr) (n : Z) : slvr :=
  {| slvr_flags := slvr_flags v; slvr_refcnt := n; slvr_err := slvr_err v; slvr_ts := slvr_ts v; slvr_slab := slvr_slab v |}.
Definition sv_with_err (v : slvr) (rc : Z) : slvr :=
  {| slvr_flags := slvr_flags v; slvr_refcnt := slvr_refcnt v; slvr_err := rc; slvr_ts := slvr_ts v; slvr_slab := slvr_slab v |}.
Definition sv_with_ts (v : slvr) (t : Z) : slvr :=
  {| slvr_flags := slvr_flags v; slvr_refcnt := slvr_refcnt v; slvr_err := slvr_err v; slvr_ts := t; slvr_slab := slvr_slab v |}.
Definition sv_with_slab (v : slvr) (d : data) : slvr :=
  {| slvr_flags := slvr_flags v; slvr_refcnt := slvr_refcnt v; slvr_err := slvr_err v; slvr_ts := slvr_ts v; slvr_slab := d |}.

(** A sliver that the caller has a pointer to. *)
Definition getSv (num : Z) : IO slvr := λ s,
  match io_slvrs s !! num with Some v => Done (v, s) | None => Stuck NullDeref end.
Definition setSv (num : Z) (v : slvr) : IO unit := modifyM (λ s, io_with_slvrs s (<[num := v]> (io_slvrs s))).
Definition modSv (num : Z) (g : slvr → slvr) : IO unit := v ← getSv num; setSv num (g v).

(** [lc_remove]: the entry must be on the list. *)
Definition list_del (num : Z) (l : list Z) : IO (list Z) :=
  _ ← psc_assert (bool_decide (num ∈ l)); mret (filter (λ n, n ≠ num) l).

Definition slvr_2_fileoff (num blk : Z) : Z :=
  bno * SLASH_BMAP_SIZE + num * SLASH_SLVR_SIZE + blk * SLASH_SLVR_BLKSZ.

(** [slvr_do_crc]; [crcp] is whether the caller wants the CRC. *)
Definition slvr_do_crc (num : Z) (crcp : bool) : IO (Z * Z) :=
  v ← getSv num;
  let fl := slvr_flags v in
  _ ← psc_assert (hasf fl SLVRF_FAULTING || hasf fl SLVRF_CRCDIRTY);
  s ← getM;
  match io_crcstates s !! Z.to_nat num, io_crcs s !! Z.to_nat num with
  | Some st, Some old =>
      if hasf fl SLVRF_CRCDIRTY then
        if negb crcp then stuckM NullDeref else
        let c := crc64_slvr (slvr_slab v) in
        _ ← modifyM (λ s, io_with_crc s (<[Z.to_nat num := setf st (Z.lor BMAP_SLVR_DATA BMAP_SLVR_CRC)]> (io_crcstates s))
                                        (<[Z.to_nat num := c]> (io_crcs s)));
        mret (-1, c)
      else if hasf st BMAP_SLVR_CRCABSENT then mret (SLERR_CRCABSENT, 0)
      else if hasf st BMAP_SLVR_DATA && hasf st BMAP_SLVR_CRC then
        if negb (crc64_slvr (slvr_slab v) =? old) then mret (PFLERR_BADCRC, 0) else mret (-1, 0)
      else mret (0, 0)
  | _, _ => stuckM OutOfBounds
  end.

(** [slvr_fsio]; [sys] is the result of the system call: a negative error
    number, or for a write the number of bytes written. A read of a regular
    file gets what there is. *)
Definition slvr_fsio (num off size : Z) (w : rw) (sys : Z) : IO Z :=
  s ← getM;
  if negb (io_back s) then mret (- EBADF)
  else match w with
  | SL_READ =>
      if sys <? 0 then mret sys
      else
        let foff := slvr_2_fileoff num 0 in
        let n := Z.max 0 (Z.min SLASH_SLVR_SIZE (io_fsize s - foff)) in
        _ ← modSv num (λ v, sv_with_slab v (overlay (slvr_slab v) 0 n (λ i, io_file s (foff + i))));
        _ ← (if n =? 0 then mret (0, 0) else slvr_do_crc num false);
        mret 0
  | SL_WRITE =>
      let sblk := off / SLASH_SLVR_BLKSZ in
      _ ← psc_assert (off mod SLASH_SLVR_BLKSZ =? 0);
      v ← getSv num;
      if sys <? 0 then mret sys
      else
        let foff := slvr_2_fileoff num sblk in
        _ ← putM (io_with_file s (overlay (io_file s) foff sys (λ i, slvr_slab v (sblk * SLASH_SLVR_BLKSZ + i)))
                    (if sys =? 0 then io_fsize s else Z.max (io_fsize s) (foff + sys)));
        mret 0
  end.

Definition slvr_fsbytes_rio (num off size sys : Z) : IO Z := slvr_fsio num off size SL_READ sys.
Definition slvr_fsbytes_wio (num sblk size sys : Z) : IO Z := slvr_fsio num (sblk * SLASH_SLVR_BLKSZ) size SL_WRITE sys.

(** [slvr_io_prep]. *)
Definition slvr_io_prep (num off len : Z) (w : rw) (flags sys : Z) : IO Z :=
  v ← getSv num;
  _ ← wait_until (negb (hasf (slvr_flags v) SLVRF_FAULTING));
  if hasf (slvr_flags v) SLVRF_DATAERR then mret (slvr_err v)
  else
    _ ← modSv num (λ v, sv_with_flags v (setf (slvr_flags v) SLVRF_FAULTING));
    if hasf (slvr_flags v) SLVRF_DATARDY then mret 0
    else if match w with SL_WRITE => (off =? 0) && (len =? SLASH_SLVR_SIZE) | SL_READ => false end then mret 0
    else
      _ ← whenM (hasf flags SLVRF_READAHEAD) (modSv num (λ v, sv_with_flags v (setf (slvr_flags v) SLVRF_READAHEAD)));
      slvr_fsbytes_rio num off len sys.

(** [slvr_schedule_crc_locked] *)
Definition slvr_schedule_crc_locked (now num : Z) : IO unit :=
  _ ← modSv num (λ v, sv_with_ts (sv_with_flags v (setf (clrf (slvr_flags v) SLVRF_LRU) SLVRF_CRCDIRTY)) now);
  s ← getM;
  l ← list_del num (io_lru s);
  modifyM (λ s, io_with_lists s l (io_crcq s ++ [num]) (io_crcthr s)).

(** [slvr_remove] *)
Definition slvr_remove (num : Z) : IO unit :=
  v ← getSv num;
  s ← getM;
  _ ← (if hasf (slvr_flags v) SLVRF_LRU
       then l ← list_del num (io_lru s); modifyM (λ s, io_with_lists s l (io_crcq s) (io_crcthr s))
       else l ← list_del num (io_crcq s); modifyM (λ s, io_with_lists s (io_lru s) l (io_crcthr s)));
  modifyM (λ s, io_with_slvrs s (delete num (io_slvrs s))).

(** [slvr_lru_tryunpin_locked] *)
Definition slvr_lru_tryunpin_locked (num : Z) : IO unit :=
  v ← getSv num;
  let fl := slvr_flags v in
  if negb (slvr_refcnt v =? 0) || hasf fl SLVRF_CRCDIRTY then mret tt
  else if hasf fl (Z.lor SLVRF_DATAERR SLVRF_FREEING) then slvr_remove num
  else
    _ ← psc_assert (hasf fl SLVRF_LRU);
    _ ← psc_assert (hasf fl SLVRF_DATARDY);
    s ← getM;
    l ← list_del num (io_lru s);
    modifyM (λ s, io_with_lists s (l ++ [num]) (io_crcq s) (io_crcthr s)).

(** [slvr_io_done], [slvr_rio_done], [slvr_wio_done] *)
Definition slvr_io_done (num rc : Z) : IO unit :=
  modSv num (λ v, let fl := clrf (slvr_flags v) (Z.lor SLVRF_FAULTING SLVRF_DATARDY) in
                  if negb (rc =? 0) then sv_with_err (sv_with_flags v (setf fl SLVRF_DATAERR)) rc
                  else sv_with_flags v (setf fl SLVRF_DATARDY)).

Definition slvr_decref (num : Z) : IO slvr :=
  v ← getSv num;
  _ ← psc_assert (slvr_refcnt v >? 0);
  let v := sv_with_ref v (slvr_refcnt v - 1) in
  _ ← setSv num v;
  mret v.

Definition slvr_rio_done (num : Z) : IO unit :=
  _ ← slvr_decref num; slvr_lru_tryunpin_locked num.

Definition slvr_wio_done (now num : Z) (repl : bool) : IO unit :=
  v ← slvr_decref num;
  if hasf (slvr_flags v) SLVRF_DATAERR || repl then slvr_lru_tryunpin_locked num
  else whenM (hasf (slvr_flags v) SLVRF_LRU) (slvr_schedule_crc_locked now num).

(** [_slvr_lookup]: the caller waits while the sliver is about to be freed. *)
Definition slvr_lookup (num : Z) : IO unit :=
  s ← getM;
  match io_slvrs s !! num with
  | Some v =>
      _ ← wait_until (negb (hasf (slvr_flags v) (Z.lor SLVRF_FREEING SLVRF_DATAERR)));
      setSv num (sv_with_ref v (slvr_refcnt v + 1))
  | None =>
      _ ← setSv num {| slvr_flags := SLVRF_LRU; slvr_refcnt := 1; slvr_err := 0; slvr_ts := 0; slvr_slab := λ _, 0 |};
      modifyM (λ s, io_with_lists s (io_lru s ++ [num]) (io_crcq s) (io_crcthr s))
  end.

(** [slvr_buffer_reap]: the scan of the list marks at most [nwaiters] slivers,
    and one in any case; then they are removed. *)
Fixpoint reap_scan (nwaiters : Z) (l : list Z) (a : list Z) : IO (list Z) :=
  match l with
  | [] => mret a
  | num :: l =>
      v ← getSv num;
      if negb (slvr_refcnt v =? 0) || hasf (slvr_flags v) SLVRF_FREEING then reap_scan nwaiters l a
      else
        _ ← setSv num (sv_with_flags v (setf (slvr_flags v) SLVRF_FREEING));
        if Z.of_nat (length (a ++ [num])) >=? nwaiters then mret (a ++ [num]) else reap_scan nwaiters l (a ++ [num])
  end.
Fixpoint remove_each (l : list Z) : IO unit :=
  match l with [] => mret tt | num :: l => _ ← slvr_remove num; remove_each l end.
Definition slvr_buffer_reap (nwaiters : Z) : IO Z :=
  s ← getM;
  a ← reap_scan nwaiters (io_lru s) [];
  _ ← remove_each a;
  mret (Z.of_nat (length a)).
End ops.
