(* ===== verification/SlvrIO.v ===== *)
(** * Reads, writes and CRC reports of an I/O server

    Requests of clients on slivers ([sliod/ric.c]), readahead, and the threads
    that compute CRCs and send them ([sliod/slvr_worker.c]). A request is in
    two parts, [ric_begin] up to the transfer and [ric_end] from it, so that
    requests and threads can be interleaved between the two. *)
From S2P Require Import Prelude ReplBits ReplWalk BmapMds ReplReq Replay CrcWrite Slvr.

Definition SLERR_AIOWAIT : Z := SLERR_START + 25.

(** Codes and limits of the libraries below: the transfer size of LNET is that
    of a sliver, on which [sli_ric_handle_io] relies. *)
Class PflNet := {
  PFLERR_KEYEXPIRED : Z;
  LNET_MTU_RIC : Z;
}.
Class PflNetLaws `{PflNet} := {
  KEYEXPIRED_pos : 0 < PFLERR_KEYEXPIRED;
  MTU_slvr : LNET_MTU_RIC = SLASH_SLVR_SIZE;
}.

(** The fields of a request that the handler reads. *)
Record srm_io_req := { mq_size : Z; mq_offset : Z; mq_bench : bool; sbd_ios : Z; sbd_seq : Z }.

(** What the results of the calls below the handler are: [sli_fcmh_get],
    [bmap_get], the reads and writes of each sliver, the bulk transfer; and the
    data a client sends. *)
Record io_env := { ie_get : Z; ie_bmap : Z; ie_read : Z → Z; ie_write : Z → Z; ie_bulk : Z; ie_data : data; ie_now : Z }.

(** The answer: the code of the RPC, [mp->rc], and the data of a read. *)
Record io_result := { ir_rc : Z; ir_mprc : Z; ir_data : data }.
Definition refused (rc : Z) : io_result := {| ir_rc := rc; ir_mprc := rc; ir_data := λ _, 0 |}.

(** A part of a request: sliver, offset in it, length. *)
Definition part : Type := Z * Z * Z.
Abbreviation p_num p := (p.1.1).

(** The slivers of a request. *)
Definition io_parts (offset size : Z) : list part :=
  let slvrno := offset / SLASH_SLVR_SIZE in
  let roff := offset - slvrno * SLASH_SLVR_SIZE in
  let len := Z.min size (SLASH_SLVR_SIZE - roff) in
  if u32 (offset + size - 1) / SLASH_SLVR_SIZE >? slvrno
  then [(slvrno, roff, len); (slvrno + 1, 0, Z.min (size - len) SLASH_SLVR_SIZE)]
  else [(slvrno, roff, len)].

Section ric.
Context `{PflErr} `{PflCrc} `{PflNet}.
Context (bno ios_id : Z).
Abbreviation IO A := (M ion A).

(** [sli_ric_write_sliver] *)
Fixpoint write_loop (sblk tsize : Z) (nums : list Z) (sys : Z → Z) : IO (Z * Z) :=
  match nums with
  | [] => mret (0, tsize)
  | num :: nums =>
      let tsz := Z.min ((SLASH_BLKS_PER_SLVR - sblk) * SLASH_SLVR_BLKSZ) tsize in
      rc ← slvr_fsbytes_wio bno num sblk tsz (sys num);
      if negb (rc =? 0) then _ ← psc_assert (negb (rc =? - SLERR_AIOWAIT)); mret (rc, tsize - tsz)
      else write_loop 0 (tsize - tsz) nums sys
  end.
Definition sli_ric_write_sliver (off size : Z) (nums : list Z) (sys : Z → Z) : IO Z :=
  let roff := off - off / SLASH_SLVR_SIZE * SLASH_SLVR_SIZE in
  r ← write_loop (roff / SLASH_SLVR_BLKSZ) (size + roff mod SLASH_SLVR_BLKSZ) nums sys;
  _ ← whenM (r.1 =? 0) (psc_assert (r.2 =? 0));
  mret r.1.

(** [readahead_enqueue] *)
Definition readahead_enqueue (off size : Z) : IO unit :=
  if off >=? SLASH_BMAP_SIZE then mret tt
  else modifyM (λ s, io_with_raq s (io_raq s ++ [{| rarq_off := off; rarq_size := size |}])).

(** The tests before the bmap is looked up. *)
Definition ric_check (mq : srm_io_req) (w : rw) (seqno : Z) : Z :=
  if u32 (mq_offset mq + mq_size mq) >? SLASH_BMAP_SIZE then - ERANGE
  else
    let rc := bmapdesc_access_check (sbd_ios mq) w ios_id in
    if negb (rc =? 0) then rc
    else if sbd_seq mq <? seqno then - PFLERR_KEYEXPIRED else 0.

(** The label [out]. *)
Fixpoint ric_out (w : rw) (now rc : Z) (nums : list Z) : IO unit :=
  match nums with
  | [] => mret tt
  | num :: nums =>
      _ ← slvr_io_done num rc;
      _ ← match w with SL_READ => slvr_rio_done num | SL_WRITE => slvr_wio_done now num false end;
      ric_out w now rc nums
  end.

(** The loop that prepares the slivers; the slivers held, and the error that
    ended it. *)
Fixpoint ric_prep (w : rw) (sys : Z → Z) (parts : list part) (tsize : Z) (held : list Z) : IO (Z * list Z) :=
  match parts with
  | [] => _ ← psc_assert (tsize =? 0); mret (0, held)
  | (num, roff, len) :: parts =>
      _ ← slvr_lookup num;
      rv ← slvr_io_prep bno num roff len w 0 (sys num);
      if negb (rv =? 0) then mret (rv, held ++ [num])
      else
        _ ← psc_assert (len >? 0);
        ric_prep w sys parts (tsize - len) (held ++ [num])
  end.

(** The first part of [sli_ric_handle_io]: 0 when the transfer may start. *)
Definition ric_begin (mq : srm_io_req) (w : rw) (e : io_env) : IO Z :=
  if negb (ie_get e =? 0) then mret (ie_get e)
  else if negb (ie_bmap e =? 0) then mret (ie_bmap e)
  else
    r ← ric_prep w (ie_read e) (io_parts (mq_offset mq) (mq_size mq)) (mq_size mq) [];
    if negb (r.1 =? 0) then _ ← ric_out w (ie_now e) r.1 r.2; mret r.1
    else mret 0.

(** The bulk transfer into or out of the slabs; [base] is the position in the
    transfer. *)
Fixpoint bulk_sink (base : Z) (parts : list part) (d : data) : IO unit :=
  match parts with
  | [] => mret tt
  | (num, roff, len) :: parts =>
      _ ← modSv num (λ v, sv_with_slab v (overlay (slvr_slab v) roff len (λ i, d (base + i))));
      bulk_sink (base + len) parts d
  end.
Fixpoint bulk_source (base : Z) (parts : list part) (d : data) : IO data :=
  match parts with
  | [] => mret d
  | (num, roff, len) :: parts =>
      v ← getSv num;
      bulk_source (base + len) parts (overlay d base len (λ i, slvr_slab v (roff + i)))
  end.

(** The second part: the transfer, the write to the file or the readahead, and
    the release of the slivers. *)
Definition ric_end (mq : srm_io_req) (w : rw) (e : io_env) : IO io_result :=
  let parts := io_parts (mq_offset mq) (mq_size mq) in
  let nums := (λ p : part, p_num p) <$> parts in
  d ← match w with SL_WRITE => _ ← bulk_sink 0 parts (ie_data e); mret (λ _, 0) | SL_READ => bulk_source 0 parts (λ _, 0) end;
  if negb (ie_bulk e =? 0) then
    _ ← ric_out w (ie_now e) (ie_bulk e) nums;
    mret (refused (ie_bulk e))
  else
    mprc ← match w with
           | SL_WRITE => sli_ric_write_sliver (mq_offset mq) (mq_size mq) nums (ie_write e)
           | SL_READ => _ ← readahead_enqueue (mq_offset mq + mq_size mq) (mq_size mq); mret 0
           end;
    _ ← ric_out w (ie_now e) 0 nums;
    mret {| ir_rc := 0; ir_mprc := mprc; ir_data := d |}.

(** [sli_ric_handle_io]; [seqno] is the mark that [bim_getcurseq] returns. *)
Definition sli_ric_handle_io (mq : srm_io_req) (w : rw) (seqno : Z) (e : io_env) : IO io_result :=
  if (mq_size mq <=? 0) || (mq_size mq >? LNET_MTU_RIC) then mret (refused (- EINVAL))
  else if mq_bench mq then mret (refused (ie_bulk e))
  else
    let rc := ric_check mq w seqno in
    if negb (rc =? 0) then mret (refused rc)
    else
      rc ← ric_begin mq w e;
      if negb (rc =? 0) then mret (refused rc) else ric_end mq w e.

(** One request of [slirathr_main]; [get_rc] is the result of
    [sli_fcmh_peek] and [bmap_get]. *)
Fixpoint readahead_loop (sys : Z → Z) (nums : list Z) : IO unit :=
  match nums with
  | [] => mret tt
  | num :: nums =>
      _ ← slvr_lookup num;
      rc ← slvr_io_prep bno num 0 SLASH_SLVR_SIZE SL_READ SLVRF_READAHEAD (sys num);
      _ ← slvr_io_done num rc;
      _ ← slvr_rio_done num;
      readahead_loop sys nums
  end.
Definition slirathr_round (get_rc : Z) (sys : Z → Z) : IO unit :=
  s ← getM;
  match io_raq s with
  | [] => stuckM WouldBlock
  | q :: qs =>
      _ ← modifyM (λ s, io_with_raq s qs);
      if negb (get_rc =? 0) then mret tt
      else let n := rarq_off q / SLASH_SLVR_SIZE in readahead_loop sys [n; n + 1; n + 2; n + 3]
  end.

(** ** The threads that compute CRCs *)

(** [slislvrthr_main], the choice of slivers: those on the queue that are not
    in use and are old enough. *)
Fixpoint crcq_scan (expire : Z) (l : list Z) (ss : list Z) : IO (list Z) :=
  match l with
  | [] => mret ss
  | num :: l =>
      v ← getSv num;
      if negb (slvr_refcnt v =? 0) || hasf (slvr_flags v) SLVRF_FREEING then crcq_scan expire l ss
      else
        ss ← (if expire >? slvr_ts v then
                _ ← setSv num (sv_with_flags v (setf (slvr_flags v) SLVRF_FAULTING));
                s ← getM;
                q ← list_del num (io_crcq s);
                _ ← modifyM (λ s, io_with_lists s (io_lru s) q (io_crcthr s ++ [num]));
                mret (ss ++ [num])
              else mret ss);
        if Z.of_nat (length ss) >=? MAX_BMAP_NCRC_UPDATES then mret ss else crcq_scan expire l ss
  end.
Definition slislvrthr_pick (now : Z) : IO (list Z) :=
  s ← getM; crcq_scan (now - CRC_QUEUE_AGE) (io_crcq s) [].

(** [bcr_ready_add] and [bcr_ready_remove]; the reference to the bmap that a
    report holds meanwhile is not counted. *)
Definition bcr_ready_add (bid : Z) (b : bcrcupd) : IO unit := modifyM (λ s,
  io_with_bcrs s (Some bid) (<[bid := b]> (io_bcrs s)) (io_nbcr s + 1) (io_ready s ++ [bid]) (io_crud s) (io_rpcs s)).
Definition bcr_ready_remove (bid : Z) : IO unit :=
  s ← getM;
  l ← list_del bid (io_ready s);
  modifyM (λ s, io_with_bcrs s (io_bcr s) (delete bid (io_bcrs s)) (io_nbcr s) l (io_crud s) (io_rpcs s)).

(** The slot of a sliver in a report is reused. *)
Definition bcr_store (l : list srt_bmap_crcwire) (num c : Z) : list srt_bmap_crcwire :=
  match list_find (λ x, slot x = num) l with
  | Some (i, _) => <[i := {| crc := c; slot := num |}]> l
  | None => l ++ [{| crc := c; slot := num |}]
  end.
Definition getBcr (bid : Z) : IO bcrcupd := λ s,
  match io_bcrs s !! bid with Some b => Done (b, s) | None => Stuck NullDeref end.

Definition bcr_add (now num c : Z) : IO unit :=
  s ← getM;
  match io_bcr s with
  | Some bid =>
      b ← getBcr bid;
      _ ← psc_assert (Z.of_nat (length (bcr_crcs b)) <? MAX_BMAP_INODE_PAIRS);
      let l := bcr_store (bcr_crcs b) num c in
      modifyM (λ s, io_with_bcrs s (if Z.of_nat (length l) =? MAX_BMAP_INODE_PAIRS then None else Some bid)
                      (<[bid := {| bcr_age := bcr_age b; bcr_crcs := l |}]> (io_bcrs s)) (io_nbcr s) (io_ready s) (io_crud s) (io_rpcs s))
  | None => bcr_ready_add (io_nbcr s) {| bcr_age := now; bcr_crcs := [{| crc := c; slot := num |}] |}
  end.

(** [slislvrthr_proc] on a sliver the thread chose. *)
Definition slislvrthr_proc (now num : Z) : IO unit :=
  v ← getSv num;
  _ ← psc_assert (negb (hasf (slvr_flags v) SLVRF_LRU));
  _ ← psc_assert (hasf (slvr_flags v) SLVRF_CRCDIRTY);
  _ ← psc_assert (hasf (slvr_flags v) SLVRF_DATARDY);
  s ← getM;
  _ ← psc_assert (bool_decide (num ∉ io_lru s ++ io_crcq s));
  r ← slvr_do_crc num true;
  _ ← psc_assert (negb (r.1 =? 0));
  _ ← modifyM (λ s, io_with_lists s (io_lru s) (io_crcq s) (filter (λ n, n ≠ num) (io_crcthr s)));
  _ ← (if hasf (slvr_flags v) SLVRF_DATAERR && (slvr_refcnt v =? 0) then slvr_remove num
       else
         _ ← setSv num (sv_with_flags v (clrf (setf (slvr_flags v) SLVRF_LRU) (Z.lor SLVRF_CRCDIRTY SLVRF_FAULTING)));
         modifyM (λ s, io_with_lists s (io_lru s ++ [num]) (io_crcq s) (io_crcthr s)));
  bcr_add now num r.2.

(** [slicrudthr_main]: the choice of reports; those of a bmap with one under
    way stay on the list. *)
Fixpoint crud_scan (now : Z) (l : list Z) (bcrs : list Z) : IO (list Z) :=
  match l with
  | [] => mret bcrs
  | bid :: l =>
      b ← getBcr bid;
      let nups := Z.of_nat (length (bcr_crcs b)) in
      _ ← psc_assert (nups >? 0);
      s ← getM;
      if io_crud s then crud_scan now l bcrs
      else
        bcrs ← (if (nups =? MAX_BMAP_INODE_PAIRS) || (now - bcr_age b >=? BCR_BATCH_AGE) then
                  _ ← modifyM (λ s, io_with_bcrs s None (io_bcrs s) (io_nbcr s) (io_ready s) true (io_rpcs s));
                  mret (bcrs ++ [bid])
                else mret bcrs);
        if Z.of_nat (length bcrs) =? MAX_BMAP_NCRC_UPDATES then mret bcrs else crud_scan now l bcrs
  end.

(** [slvr_worker_crcup_genrq]: the message has a header and the CRCs of each
    report; [rc] is the result of the calls it makes. *)
Definition SIZEOF_CRCUP : Z := 48.
Definition SIZEOF_CRCWIRE : Z := 16.
Fixpoint crcup_len (bcrs : list Z) : IO Z :=
  match bcrs with
  | [] => mret 0
  | bid :: bcrs =>
      b ← getBcr bid;
      n ← crcup_len bcrs;
      mret (SIZEOF_CRCUP + Z.of_nat (length (bcr_crcs b)) * SIZEOF_CRCWIRE + n)
  end.
Definition slvr_worker_crcup_genrq (rc : Z) (bcrs : list Z) : IO Z :=
  if negb (rc =? 0) then mret rc
  else
    len ← crcup_len bcrs;
    _ ← psc_assert (len <=? LNET_MTU_RIC);
    _ ← modifyM (λ s, io_with_bcrs s (io_bcr s) (io_bcrs s) (io_nbcr s) (io_ready s) (io_crud s) (io_rpcs s ++ [bcrs]));
    mret 0.

(** A round; [rc] is the result of the calls to send the request. *)
Definition slicrudthr_round (now rc : Z) : IO (list Z) :=
  s ← getM;
  bcrs ← crud_scan now (io_ready s) [];
  match bcrs with
  | [] => mret []
  | _ =>
      rc ← slvr_worker_crcup_genrq rc bcrs;
      _ ← whenM (negb (rc =? 0)) (modifyM (λ s, io_with_bcrs s (io_bcr s) (io_bcrs s) (io_nbcr s) (io_ready s) false (io_rpcs s)));
      mret bcrs
  end.

(** [sli_rmi_bcrcupd_cb] for an RPC in flight; [status] is [rq->rq_status]. *)
Fixpoint bcrcupd_done (status : Z) (l : list Z) : IO unit :=
  match l with
  | [] => mret tt
  | bid :: l =>
      s ← getM;
      _ ← psc_assert (io_crud s);
      _ ← modifyM (λ s, io_with_bcrs s (io_bcr s) (io_bcrs s) (io_nbcr s) (io_ready s) false (io_rpcs s));
      _ ← (if negb (status =? 0) then mret tt else bcr_ready_remove bid);
      bcrcupd_done status l
  end.
Definition sli_rmi_bcrcupd_cb (status : Z) (a : list Z) : IO unit :=
  s ← getM;
  _ ← modifyM (λ s, io_with_bcrs s (io_bcr s) (io_bcrs s) (io_nbcr s) (io_ready s) (io_crud s) (filter (λ b, b ≠ a) (io_rpcs s)));
  bcrcupd_done status a.
End ric.
