(* ===== verification/SlvrInv.v ===== *)
(** * The invariant of the sliver cache

    What holds of the slivers of a bmap while requests are open: the lists they
    are on, their flags and counts, and that their slabs show the file. Each
    operation on slivers is proved against it. *)
From S2P Require Import Prelude ReplBits ReplWalk BmapMds ReplReq Replay CrcWrite Slvr SlvrIO.

(** ** The invariant *)

(** A request that is open on a part of a sliver; [None] when its slab is not
    to be trusted any more, because a transfer or a read failed. *)
Definition openio : Type := option rw * part.
Abbreviation o_num e := (e.2.1.1).
Abbreviation held O := ((λ e : openio, o_num e) <$> O).
Abbreviation nums parts := ((λ p : part, p.1.1) <$> parts).
(** The parts of one request. *)
Definition opens (w : rw) (parts : list part) : list openio := (λ p, (Some w, p)) <$> parts.
Fixpoint lens (parts : list part) : Z := match parts with [] => 0 | p :: parts => p.2 + lens parts end.

Definition part_ok (p : part) : Prop :=
  0 ≤ p.1.1 < SLASH_SLVRS_PER_BMAP ∧ 0 ≤ p.1.2 ∧ 0 < p.2 ∧ p.1.2 + p.2 ≤ SLASH_SLVR_SIZE.

(** A request that does not rely on what the slab had before. *)
Definition blind (e : openio) : Prop := e.1 = None ∨ (e.1 = Some SL_WRITE ∧ e.2.1.2 = 0 ∧ e.2.2 = SLASH_SLVR_SIZE).

Section inv.
Context (bno : Z).

(** The slab shows the file. *)
Definition slab_file (f : data) (n : Z) (d : data) : Prop :=
  ∀ i, 0 ≤ i < SLASH_SLVR_SIZE → d i = f (slvr_2_fileoff bno n 0 + i).

Record sv_ok (s : ion) (O : list openio) (n : Z) (v : slvr) : Prop := {
  so_num : 0 ≤ n < SLASH_SLVRS_PER_BMAP;
  so_lru : hasf (slvr_flags v) SLVRF_LRU = bool_decide (n ∈ io_lru s);
  so_dirty : hasf (slvr_flags v) SLVRF_CRCDIRTY = negb (bool_decide (n ∈ io_lru s));
  so_err : hasf (slvr_flags v) SLVRF_DATAERR = false;
  so_freeing : hasf (slvr_flags v) SLVRF_FREEING = false;
  so_ref : slvr_refcnt v = if bool_decide (n ∈ held O) then 1 else 0;
  so_fault : hasf (slvr_flags v) SLVRF_FAULTING = bool_decide (n ∈ held O) || bool_decide (n ∈ io_crcthr s);
  so_ready : (n ∉ held O ∨ n ∉ io_lru s) → hasf (slvr_flags v) SLVRF_DATARDY = true;
  so_slab : (∃ e : openio, e ∈ O ∧ o_num e = n ∧ blind e) ∨ slab_file (io_file s) n (slvr_slab v);
}.

Record cinv (s : ion) (O : list openio) : Prop := {
  ci_dom : ∀ n, is_Some (io_slvrs s !! n) ↔ n ∈ io_lru s ++ io_crcq s ++ io_crcthr s;
  ci_nodup : NoDup (io_lru s ++ io_crcq s ++ io_crcthr s);
  ci_sv : ∀ n v, io_slvrs s !! n = Some v → sv_ok s O n v;
  ci_open : NoDup (held O);
  ci_held : ∀ n, n ∈ held O → is_Some (io_slvrs s !! n) ∧ n ∉ io_crcthr s;
  ci_parts : Forall (λ e, part_ok e.2) O;
  ci_back : io_back s = true;
  ci_zero : ∀ i, io_fsize s ≤ i → io_file s i = 0;
  ci_size : 0 ≤ io_fsize s;
  ci_len : length (io_crcstates s) = Z.to_nat SLASH_CRCS_PER_BMAP ∧ length (io_crcs s) = Z.to_nat SLASH_CRCS_PER_BMAP;
}.

#[global] Instance held_perm : Proper ((≡ₚ) ==> (≡ₚ)) (λ O : list openio, held O).
Proof. intros O O' Hp. by rewrite Hp. Qed.

Lemma cinv_perm s O O' : O ≡ₚ O' → cinv s O → cinv s O'.
Proof.
  intros Hp [Hd Hn Hsv Hop Hh Hpt ? ? ? ?].
  assert (Hm : ∀ n, n ∈ held O ↔ n ∈ held O') by (intros n; by rewrite Hp).
  assert (Hb : ∀ n, bool_decide (n ∈ held O) = bool_decide (n ∈ held O')) by (intros n; by apply bool_decide_ext).
  split; try done.
  - intros n v Hv. destruct (Hsv n v Hv) as [? ? ? ? ? Hr Hf Hrd Hs]. split; try done.
    + by rewrite <-Hb.
    + by rewrite <-Hb.
    + by rewrite <-Hm.
    + destruct Hs as [(e & He & Hs)|]; [left; exists e; by rewrite <-Hp|by right].
  - by rewrite <-Hp.
  - intros n. rewrite <-Hm. apply Hh.
  - by rewrite <-Hp.
Qed.

(** A request may give up on the slab. *)
Lemma cinv_junk s k p O : cinv s ((k, p) :: O) → cinv s ((None, p) :: O).
Proof.
  intros [Hd Hn Hsv Hop Hh Hpt ? ? ? ?]. split; try done.
  - intros n v Hv. destruct (Hsv n v Hv) as [? ? ? ? ? Hr Hf Hrd Hs]. split; try done.
    destruct Hs as [(e & [->|He]%elem_of_cons & Hnum & Hbl)|]; [| |by right].
    + left. exists (None, p). split; [by left|]. split; [done|by left].
    + left. exists e. split; [by right|done].
  - by inversion Hpt; constructor.
Qed.
End inv.

(** ** Symbolic execution on slivers *)
Lemma wp_getSv n v (Q : slvr → ion → Prop) s : io_slvrs s !! n = Some v → Q v s → wp (getSv n) Q s.
Proof. unfold wp, getSv. by intros ->. Qed.
Lemma wp_modSv n v g (Q : unit → ion → Prop) s :
  io_slvrs s !! n = Some v → Q tt (io_with_slvrs s (<[n := g v]> (io_slvrs s))) → wp (modSv n g) Q s.
Proof. intros Hv HQ. unfold modSv. wp_step. eapply wp_getSv; [done|]. unfold setSv. by wp_step. Qed.
Lemma wp_list_del n l (Q : list Z → ion → Prop) s : n ∈ l → Q (filter (λ k, k ≠ n) l) s → wp (list_del n l) Q s.
Proof. intros Hn HQ. unfold list_del. wp_step. wp_step; [by apply bool_decide_eq_true_2|]. by wp_step. Qed.

(** The parts of the state that the slivers' own operations change. *)
Definition cache_only (s s' : ion) : Prop :=
  ∃ m lru crcq thr, s' = io_with_lists (io_with_slvrs s m) lru crcq thr.
Lemma cache_only_refl s : cache_only s s.
Proof. exists (io_slvrs s), (io_lru s), (io_crcq s), (io_crcthr s). by destruct s. Qed.
Lemma cache_only_trans s s' s'' : cache_only s s' → cache_only s' s'' → cache_only s s''.
Proof. intros (m & l & q & t & ->) (m' & l' & q' & t' & ->). by exists m', l', q', t'. Qed.
Lemma cache_only_intro s m lru crcq thr : cache_only s (io_with_lists (io_with_slvrs s m) lru crcq thr).
Proof. by exists m, lru, crcq, thr. Qed.
Lemma cache_only_file s s' : cache_only s s' → io_file s' = io_file s ∧ io_fsize s' = io_fsize s.
Proof. by intros (? & ? & ? & ? & ->). Qed.

(** Put the changes of a state in one form: slivers first, then the lists. *)
Ltac io_norm :=
  repeat match goal with
  | |- context [io_with_slvrs (io_with_slvrs ?s ?a) ?b] => change (io_with_slvrs (io_with_slvrs s a) b) with (io_with_slvrs s b)
  | |- context [io_with_lists (io_with_lists ?s ?a ?b ?c) ?d ?e ?f] =>
      change (io_with_lists (io_with_lists s a b c) d e f) with (io_with_lists s d e f)
  | |- context [io_with_slvrs (io_with_lists ?s ?a ?b ?c) ?m] =>
      change (io_with_slvrs (io_with_lists s a b c) m) with (io_with_lists (io_with_slvrs s m) a b c)
  | |- context [io_slvrs (io_with_slvrs ?s ?m)] => change (io_slvrs (io_with_slvrs s m)) with m
  | |- context [io_slvrs (io_with_lists ?s ?a ?b ?c)] => change (io_slvrs (io_with_lists s a b c)) with (io_slvrs s)
  | |- context [io_lru (io_with_lists ?s ?a ?b ?c)] => change (io_lru (io_with_lists s a b c)) with a
  | |- context [io_crcq (io_with_lists ?s ?a ?b ?c)] => change (io_crcq (io_with_lists s a b c)) with b
  | |- context [io_crcthr (io_with_lists ?s ?a ?b ?c)] => change (io_crcthr (io_with_lists s a b c)) with c
  | |- context [io_lru (io_with_slvrs ?s ?m)] => change (io_lru (io_with_slvrs s m)) with (io_lru s)
  | |- context [io_crcq (io_with_slvrs ?s ?m)] => change (io_crcq (io_with_slvrs s m)) with (io_crcq s)
  | |- context [io_crcthr (io_with_slvrs ?s ?m)] => change (io_crcthr (io_with_slvrs s m)) with (io_crcthr s)
  end;
  rewrite ?insert_insert_eq.
Ltac cache_tac := io_norm; eexists _, _, _, _; reflexivity.

(** ** The invariant after a change of one sliver *)
Section change.
Context (bno : Z).
Implicit Types (s : ion) (O : list openio) (p : part) (parts : list part).

Lemma sv_ok_other s s' O O' n v :
  (n ∈ io_lru s' ↔ n ∈ io_lru s) → (n ∈ io_crcthr s' ↔ n ∈ io_crcthr s) → (n ∈ held O' ↔ n ∈ held O) →
  ((∃ e : openio, e ∈ O ∧ o_num e = n ∧ blind e) → ∃ e : openio, e ∈ O' ∧ o_num e = n ∧ blind e) → io_file s' = io_file s →
  sv_ok bno s O n v → sv_ok bno s' O' n v.
Proof.
  intros Hl Ht Hh Hb Hf [? Hlru Hdirty ? ? Hr Hfl Hrd Hs].
  assert (El : bool_decide (n ∈ io_lru s') = bool_decide (n ∈ io_lru s)) by (by apply bool_decide_ext).
  assert (Et : bool_decide (n ∈ io_crcthr s') = bool_decide (n ∈ io_crcthr s)) by (by apply bool_decide_ext).
  assert (Eh : bool_decide (n ∈ held O') = bool_decide (n ∈ held O)) by (by apply bool_decide_ext).
  split; rewrite ?El, ?Et, ?Eh, ?Hf; try done.
  - rewrite Hh, Hl. done.
  - destruct Hs as [Hs|Hs]; [left; by apply Hb|by right].
Qed.

(** One sliver changes, is created or goes; the lists and the requests change
    for it alone. *)
Lemma cinv_change s O O' n (ov : option slvr) lru crcq thr :
  cinv bno s O →
  NoDup (lru ++ crcq ++ thr) →
  (∀ k, k ∈ lru ++ crcq ++ thr ↔ (k = n ∧ is_Some ov) ∨ (k ≠ n ∧ k ∈ io_lru s ++ io_crcq s ++ io_crcthr s)) →
  (∀ k, k ≠ n → (k ∈ lru ↔ k ∈ io_lru s) ∧ (k ∈ thr ↔ k ∈ io_crcthr s)) →
  NoDup (held O') → (∀ k, k ≠ n → k ∈ held O' ↔ k ∈ held O) → (n ∈ held O' → is_Some ov ∧ n ∉ thr) →
  Forall (λ e, part_ok e.2) O' →
  (∀ e : openio, e ∈ O → o_num e ≠ n → e ∈ O') →
  (∀ v, ov = Some v → sv_ok bno (io_with_lists s lru crcq thr) O' n v) →
  cinv bno (io_with_lists (io_with_slvrs s (partial_alter (λ _, ov) n (io_slvrs s))) lru crcq thr) O'.
Proof.
  intros [Hd Hn Hsv Hop Hh Hpt ? ? ? ?] Hnd Hmem Hoth Hnd' Hheld Hnh Hparts Hkeep Hnew. split; try done; simpl.
  - intros k. rewrite Hmem. destruct (decide (k = n)) as [->|Hne].
    + rewrite lookup_partial_alter_eq. tauto.
    + rewrite lookup_partial_alter_ne by done. rewrite Hd. tauto.
  - intros k v Hk. destruct (decide (k = n)) as [->|Hne].
    + rewrite lookup_partial_alter_eq in Hk. destruct (Hnew v Hk) as [? ? ? ? ? ? ? ? ?]. by split.
    + rewrite lookup_partial_alter_ne in Hk by done.
      eapply (sv_ok_other s _ O O' k v); [apply Hoth; done|apply Hoth; done|by apply Hheld| |done|by apply Hsv].
      intros (e & He & Hnum & Hb). exists e. split; [|done]. apply Hkeep; [done|]. by rewrite Hnum.
  - intros k Hk. destruct (decide (k = n)) as [->|Hne].
    + destruct (Hnh Hk) as [Hs Ht]. by rewrite lookup_partial_alter_eq.
    + rewrite lookup_partial_alter_ne by done. rewrite (proj2 (Hoth k Hne)). apply Hh. by apply Hheld.
Qed.
End change.

(** ** The operations *)
Section ops.
Context `{PflErr} `{PflCrc} `{PflNet}.
Context (bno : Z).
Implicit Types (s : ion) (O : list openio) (p : part) (parts : list part).

Lemma held_part e O n : e ∈ O → o_num e = n → n ∈ held O.
Proof. intros He <-. by apply (list_elem_of_fmap_2 (λ e : openio, o_num e)). Qed.
Lemma cinv_head s k p O : cinv bno s ((k, p) :: O) → p.1.1 ∉ held O.
Proof. intros Hi. pose proof (ci_open _ _ _ Hi) as Hnd. rewrite fmap_cons in Hnd. apply NoDup_cons in Hnd as [Hn _]. done. Qed.
Lemma cinv_lru_dom s O n : cinv bno s O → n ∈ io_lru s → is_Some (io_slvrs s !! n).
Proof. intros Hi Hn. apply Hi. apply elem_of_app. by left. Qed.
Lemma cinv_states s O n : cinv bno s O → 0 ≤ n < SLASH_SLVRS_PER_BMAP →
  is_Some (io_crcstates s !! Z.to_nat n) ∧ is_Some (io_crcs s !! Z.to_nat n).
Proof.
  intros Hi Hn. destruct (ci_len _ _ _ Hi) as [Hl1 Hl2]. unfold SLASH_CRCS_PER_BMAP, SLASH_SLVRS_PER_BMAP in *.
  split; apply lookup_lt_is_Some_2; lia.
Qed.

(** The check of a CRC after a read changes nothing. *)
Lemma wp_do_crc_check n v (Q : Z * Z → ion → Prop) s :
  io_slvrs s !! n = Some v → hasf (slvr_flags v) SLVRF_FAULTING = true → hasf (slvr_flags v) SLVRF_CRCDIRTY = false →
  is_Some (io_crcstates s !! Z.to_nat n) → is_Some (io_crcs s !! Z.to_nat n) →
  (∀ r, Q r s) → wp (slvr_do_crc n false) Q s.
Proof.
  intros Hv Hf Hd [st Hst] [c Hc] HQ. unfold slvr_do_crc. wp_step. eapply wp_getSv; [done|]. wp_step. wp_step; [by rewrite Hf|].
  wp_step. wp_step. rewrite Hst, Hc, Hd. destruct (hasf st BMAP_SLVR_CRCABSENT); [by wp_step|].
  destruct (_ && _); [|by wp_step]. destruct (negb _); by wp_step.
Qed.

(** The read of a sliver that was just created. *)
Lemma wp_read_new n fl off len sys (Q : Z → ion → Prop) s :
  io_back s = true → (∀ i, io_fsize s ≤ i → io_file s i = 0) → is_Some (io_crcstates s !! Z.to_nat n) → is_Some (io_crcs s !! Z.to_nat n) →
  io_slvrs s !! n = Some {| slvr_flags := fl; slvr_refcnt := 1; slvr_err := 0; slvr_ts := 0; slvr_slab := λ _, 0 |} →
  hasf fl SLVRF_FAULTING = true → hasf fl SLVRF_CRCDIRTY = false →
  (sys < 0 → Q sys s) →
  (0 ≤ sys → ∀ d, slab_file bno (io_file s) n d →
     Q 0 (io_with_slvrs s (<[n := {| slvr_flags := fl; slvr_refcnt := 1; slvr_err := 0; slvr_ts := 0; slvr_slab := d |}]> (io_slvrs s)))) →
  wp (slvr_fsbytes_rio bno n off len sys) Q s.
Proof.
  intros Hb Hz Hst Hc Hv Hf Hd Herr Hok. unfold slvr_fsbytes_rio, slvr_fsio. wp_step. wp_step. rewrite Hb. simpl.
  destruct (Z.ltb_spec sys 0); [wp_step; by apply Herr|]. wp_step. eapply wp_modSv; [done|]. simpl.
  set (foff := slvr_2_fileoff bno n 0). set (m := Z.max 0 _).
  match goal with |- wp _ _ (io_with_slvrs s (<[n := ?x]> _)) => set (v' := x) end.
  assert (Hd' : slab_file bno (io_file s) n (slvr_slab v')).
  { intros i Hi. unfold v', overlay. simpl. fold foff. destruct (Z.leb_spec 0 i); [|lia]. simpl.
    destruct (Z.ltb_spec i (0 + m)).
    - f_equal. lia.
    - symmetry. apply Hz. unfold m in *. lia. }
  wp_step. destruct (m =? 0).
  - do 2 wp_step. by apply Hok.
  - eapply (wp_do_crc_check n v'); [apply lookup_insert_eq|done..|]. intros r. wp_step. by apply Hok.
Qed.

(** A request takes a sliver: [slvr_lookup] and [slvr_io_prep]. *)
Lemma wp_take s O w p flags sys (Q : Z → ion → Prop) :
  cinv bno s O → part_ok p → p.1.1 ∉ held O → p.1.1 ∉ io_crcthr s →
  (∀ s' rv lru, cache_only s s' → io_crcq s' = io_crcq s → io_crcthr s' = io_crcthr s → io_lru s' = lru →
     (lru = io_lru s ∨ lru = io_lru s ++ [p.1.1]) →
     (rv = 0 ∧ cinv bno s' ((Some w, p) :: O)) ∨ (rv = sys ∧ sys < 0 ∧ p.1.1 ∈ lru ∧ cinv bno s' ((None, p) :: O)) →
     Q rv s') →
  wp (_ ← slvr_lookup p.1.1; slvr_io_prep bno p.1.1 p.1.2 p.2 w flags sys) Q s.
Proof.
  intros Hi Hp Hh Ht HQ. destruct p as [[n roff] len]. simpl in *.
  assert (Hparts : ∀ k, Forall (λ e : openio, part_ok e.2) ((k, (n, roff, len)) :: O)) by (intros; constructor; [done|apply Hi]).
  assert (Hmemh : ∀ e : option rw, n ∈ held ((e, (n, roff, len)) :: O)) by (intros; by left).
  wp_step. unfold slvr_lookup. wp_step. wp_step. destruct (io_slvrs s !! n) as [v|] eqn:Hv.
  - pose proof (ci_sv _ _ _ Hi n v Hv) as Hok.
    wp_step. wp_step; [rewrite hasf_lor_r, (so_freeing _ _ _ _ _ Hok), (so_err _ _ _ _ _ Hok); done|].
    unfold setSv. wp_step. unfold slvr_io_prep. wp_step. eapply wp_getSv; [apply lookup_insert_eq|]. simpl.
    wp_step. wp_step.
    { rewrite (so_fault _ _ _ _ _ Hok), !bool_decide_eq_false_2 by done. done. }
    rewrite (so_err _ _ _ _ _ Hok). wp_step. eapply wp_modSv; [apply lookup_insert_eq|]. simpl.
    rewrite (so_ready _ _ _ _ _ Hok) by (by left). wp_step.
    rewrite insert_insert_eq. apply (HQ _ _ (io_lru s)); try done; [cache_tac|by left|]. left. split; [done|].
    io_norm. match goal with |- cinv _ (io_with_slvrs _ (<[n := ?x]> _)) _ =>
      apply (cinv_change bno s O ((Some w, (n, roff, len)) :: O) n (Some x) (io_lru s) (io_crcq s) (io_crcthr s)) end; try done.
    + apply Hi.
    + intros k. destruct (decide (k = n)) as [->|]; [|tauto]. assert (is_Some (io_slvrs s !! n)) as Hin%(ci_dom _ _ _ Hi) by (by rewrite Hv).
      split; [|done]. left. split; [done|by eexists].
    + simpl. apply NoDup_cons. split; [done|apply Hi].
    + intros k Hk. rewrite fmap_cons, elem_of_cons. simpl. tauto.
    + intros e He _. by right.
    + intros v' [= <-]. destruct Hok as [? Hl Hdd ? ? Hr Hf Hrd Hs]. split; simpl; try done; flags_goal; try done.
      * rewrite Hr, !bool_decide_eq_false_2 by done. rewrite bool_decide_eq_true_2 by (by left). done.
      * rewrite bool_decide_eq_true_2 by (by left). done.
      * intros _. apply Hrd. by left.
      * destruct Hs as [(e & He & Hn & _)|]; [|by right]. exfalso. apply Hh. by eapply held_part.
  - assert (Hnl : n ∉ io_lru s ++ io_crcq s ++ io_crcthr s) by (rewrite <-(ci_dom _ _ _ Hi), Hv; by intros []).
    assert (Hnd : NoDup ((io_lru s ++ [n]) ++ io_crcq s ++ io_crcthr s)).
    { assert ((io_lru s ++ [n]) ++ io_crcq s ++ io_crcthr s ≡ₚ n :: io_lru s ++ io_crcq s ++ io_crcthr s) as ->.
      { rewrite <-app_assoc. simpl. by rewrite <-Permutation_middle. }
      constructor; [done|apply Hi]. }
    assert (Hchg : ∀ k v', sv_ok bno (io_with_lists s (io_lru s ++ [n]) (io_crcq s) (io_crcthr s)) ((k, (n, roff, len)) :: O) n v' →
      cinv bno (io_with_lists (io_with_slvrs s (<[n := v']> (io_slvrs s))) (io_lru s ++ [n]) (io_crcq s) (io_crcthr s)) ((k, (n, roff, len)) :: O)).
    { intros k v' Hnew. eapply (cinv_change bno s O ((k, (n, roff, len)) :: O) n (Some v')); try done.
      - intros j. assert (is_Some (Some v')) by (by eexists). rewrite !elem_of_app, list_elem_of_singleton.
        destruct (decide (j = n)) as [->|]; tauto.
      - intros j Hj. rewrite elem_of_app, list_elem_of_singleton. tauto.
      - simpl. apply NoDup_cons. split; [done|apply Hi].
      - intros j Hj. rewrite fmap_cons, elem_of_cons. simpl. tauto.
      - intros e He _. by right.
      - by intros ? [= <-]. }
    assert (Hsv : ∀ k d (ra : bool), (blind (k, (n, roff, len)) ∨ slab_file bno (io_file s) n d) →
      sv_ok bno (io_with_lists s (io_lru s ++ [n]) (io_crcq s) (io_crcthr s)) ((k, (n, roff, len)) :: O) n
        {| slvr_flags := if ra then setf (setf SLVRF_LRU SLVRF_FAULTING) SLVRF_READAHEAD else setf SLVRF_LRU SLVRF_FAULTING; slvr_refcnt := 1; slvr_err := 0; slvr_ts := 0; slvr_slab := d |}).
    { intros k d ra Hd. assert (Hin : n ∈ io_lru s ++ [n]) by (apply elem_of_app; right; by apply list_elem_of_singleton).
      assert (Hin' : n ∈ held ((k, (n, roff, len)) :: O)) by (by left).
      split; cbn [slvr_flags slvr_refcnt slvr_slab io_with_lists io_lru io_crcthr io_file]; try done;
        rewrite ?(bool_decide_eq_true_2 _ Hin), ?(bool_decide_eq_true_2 _ Hin'); try done; try by destruct ra.
      - apply Hp.
      - intros [?|?]; [done|]. tauto.
      - destruct Hd as [Hb|Hb]; [left|by right]. eexists. split; [by left|done]. }
    wp_step. unfold setSv. wp_step. wp_step. unfold slvr_io_prep. wp_step. eapply wp_getSv; [apply lookup_insert_eq|]. simpl.
    wp_step. wp_step. wp_step. eapply wp_modSv; [apply lookup_insert_eq|]. simpl.
    rewrite insert_insert_eq.
    destruct (match w with SL_READ => false | SL_WRITE => (roff =? 0) && (len =? SLASH_SLVR_SIZE) end) eqn:Hfull.
    + wp_step. eapply HQ; try done; [cache_tac|by right|]. left. split; [done|]. apply Hchg, (Hsv _ _ false). left. right.
      destruct w; [done|]. apply andb_prop in Hfull as [?%Z.eqb_eq ?%Z.eqb_eq]. done.
    + destruct (cinv_states s O n Hi) as [Hst Hc]; [apply Hp|]. set (ra := hasf flags SLVRF_READAHEAD). wp_step.
      match goal with |- wp (whenM _ _) _ ?s1 => apply (wp_mono _ (λ _ s2, s2 = io_with_lists (io_with_slvrs s (<[n :=
        {| slvr_flags := if ra then setf (setf SLVRF_LRU SLVRF_FAULTING) SLVRF_READAHEAD else setf SLVRF_LRU SLVRF_FAULTING;
           slvr_refcnt := 1; slvr_err := 0; slvr_ts := 0; slvr_slab := λ _, 0 |}]> (io_slvrs s))) (io_lru s ++ [n]) (io_crcq s) (io_crcthr s)) _ s1) end.
      { clearbody ra. destruct ra; simpl; [|wp_step; by io_norm]. eapply wp_modSv; [apply lookup_insert_eq|]. by io_norm. }
      intros _ s2 ->.
      eapply wp_read_new; [apply Hi|apply Hi|done|done|apply lookup_insert_eq|by clearbody ra; destruct ra|by clearbody ra; destruct ra|..].
      * intros Hneg. eapply HQ; try done; [cache_tac|by right|]. right. split_and!; try done.
        { apply elem_of_app; right; by apply list_elem_of_singleton. }
        apply Hchg, (Hsv _ _ ra). left. by left.
      * intros _ d Hd. simpl. io_norm. eapply HQ; try done; [cache_tac|by right|].
        left. split; [done|]. apply Hchg, (Hsv _ _ ra). by right.
Qed.

(** *** The release of a sliver *)
Definition release (w : rw) (now n : Z) (repl : bool) : M ion unit :=
  match w with SL_READ => slvr_rio_done n | SL_WRITE => slvr_wio_done now n repl end.

(** The flags of a sliver after [slvr_io_done]. *)
Lemma ok_flags fl g : hasf (setf (clrf fl (Z.lor SLVRF_FAULTING SLVRF_DATARDY)) SLVRF_DATARDY) g =
  hasf fl (Z.ldiff g (Z.lor SLVRF_FAULTING SLVRF_DATARDY)) || hasf SLVRF_DATARDY g.
Proof. by rewrite hasf_setf, hasf_clrf. Qed.

(** The sliver of a request that is over. *)
Lemma released_ok s O k p v lru crcq :
  cinv bno s ((k, p) :: O) → io_slvrs s !! p.1.1 = Some v → slab_file bno (io_file s) p.1.1 (slvr_slab v) →
  (lru ++ crcq ≡ₚ io_lru s ++ io_crcq s) → (∀ j, j ≠ p.1.1 → j ∈ lru ↔ j ∈ io_lru s) →
  ∀ v', slvr_slab v' = slvr_slab v → slvr_refcnt v' = 0 →
  hasf (slvr_flags v') SLVRF_LRU = bool_decide (p.1.1 ∈ lru) → hasf (slvr_flags v') SLVRF_CRCDIRTY = negb (bool_decide (p.1.1 ∈ lru)) →
  hasf (slvr_flags v') SLVRF_DATARDY = true → hasf (slvr_flags v') SLVRF_DATAERR = false → hasf (slvr_flags v') SLVRF_FREEING = false →
  hasf (slvr_flags v') SLVRF_FAULTING = false →
  cinv bno (io_with_lists (io_with_slvrs s (<[p.1.1 := v']> (io_slvrs s))) lru crcq (io_crcthr s)) O.
Proof.
  intros Hi Hv Hs Hperm Hlru v' Hs' Href HL HD HR HE HF Hflt. set (n := p.1.1) in *.
  pose proof (ci_open _ _ _ Hi) as Hnd. apply NoDup_cons in Hnd as [Hn Hnd]. change (n ∉ held O) in Hn.
  pose proof (ci_sv _ _ _ Hi n v Hv) as Hok. destruct (ci_held _ _ _ Hi n) as [_ Ht]; [by left|].
  assert (Hall : lru ++ crcq ++ io_crcthr s ≡ₚ io_lru s ++ io_crcq s ++ io_crcthr s) by (by rewrite !(assoc (++)), Hperm).
  apply (cinv_change bno s ((k, p) :: O) O n (Some v')); try done.
  - rewrite Hall. apply Hi.
  - intros j. rewrite Hall. destruct (decide (j = n)) as [->|]; [|tauto].
    assert (is_Some (io_slvrs s !! n)) as Hin%(ci_dom _ _ _ Hi) by (by rewrite Hv). split; [|done]. left. split; [done|by eexists].
  - intros j Hj. split; [by apply Hlru|done].
  - intros j Hj. rewrite fmap_cons, elem_of_cons. simpl. fold n. tauto.
  - pose proof (ci_parts _ _ _ Hi) as Hp. by inversion Hp.
  - intros e [->|He]%elem_of_cons Hne; [done|done].
  - intros ? [= <-]. split; simpl; try done.
    + apply Hok.
    + by rewrite Href, bool_decide_eq_false_2.
    + by rewrite Hflt, !bool_decide_eq_false_2.
    + right. by rewrite Hs'.
Qed.

Lemma wp_release_ok s O k p w now repl v (Q : unit → ion → Prop) :
  cinv bno s ((k, p) :: O) → io_slvrs s !! p.1.1 = Some v → slab_file bno (io_file s) p.1.1 (slvr_slab v) →
  (∀ s', cache_only s s' → cinv bno s' O → io_crcthr s' = io_crcthr s →
     (∀ j, j ∈ io_lru s' ++ io_crcq s' ↔ j ∈ io_lru s ++ io_crcq s) →
     (∀ j, j ∈ io_crcq s' ↔ j ∈ io_crcq s ∨ (j = p.1.1 ∧ w = SL_WRITE ∧ repl = false)) →
     (∀ j, j ≠ p.1.1 → io_slvrs s' !! j = io_slvrs s !! j) → Q tt s') →
  wp (_ ← slvr_io_done p.1.1 0; release w now p.1.1 repl) Q s.
Proof.
  intros Hi Hv Hs HQ. pose proof (ci_sv _ _ _ Hi _ v Hv) as Hok.
  pose proof (released_ok s O k p v) as Hrel. set (n := p.1.1) in *.
  assert (Hone : slvr_refcnt v = 1) by (rewrite (so_ref _ _ _ _ _ Hok), bool_decide_eq_true_2; [done|by left]).
  pose proof (ci_nodup _ _ _ Hi) as Hnd. rewrite (assoc (++)) in Hnd. apply NoDup_app in Hnd as (Hnd & Hdis & _).
  pose proof Hnd as Hnd2. apply NoDup_app in Hnd2 as (Hndl & Hlq & _).
  assert (Hinl : n ∈ io_lru s ++ io_crcq s).
  { assert (is_Some (io_slvrs s !! n)) as Hin%(ci_dom _ _ _ Hi) by (by rewrite Hv). rewrite (assoc (++)) in Hin.
    apply elem_of_app in Hin as [|Hin]; [done|]. destruct (ci_held _ _ _ Hi n) as [_ []]; [by left|done]. }
  set (fl := setf (clrf (slvr_flags v) (Z.lor SLVRF_FAULTING SLVRF_DATARDY)) SLVRF_DATARDY).
  assert (F1 : hasf fl SLVRF_LRU = bool_decide (n ∈ io_lru s)) by (unfold fl; flags_goal; apply Hok).
  assert (F2 : hasf fl SLVRF_CRCDIRTY = negb (bool_decide (n ∈ io_lru s))) by (unfold fl; flags_goal; apply Hok).
  assert (F3 : hasf fl SLVRF_DATARDY = true) by (unfold fl; flags_goal; done).
  assert (F4 : hasf fl SLVRF_DATAERR = false) by (unfold fl; flags_goal; apply Hok).
  assert (F5 : hasf fl SLVRF_FREEING = false) by (unfold fl; flags_goal; apply Hok).
  assert (F6 : hasf fl SLVRF_FAULTING = false) by (unfold fl; flags_goal; done).
  wp_step. unfold slvr_io_done. eapply wp_modSv; [done|]. cbn [Z.eqb negb]. fold fl. set (s1 := io_with_slvrs s _).
  set (v1 := sv_with_ref (sv_with_flags v fl) 0).
  assert (Hdec : ∀ (Q' : slvr → ion → Prop), Q' v1 (io_with_slvrs s (<[n := v1]> (io_slvrs s))) → wp (slvr_decref n) Q' s1).
  { intros Q' HQ'. unfold slvr_decref. wp_step. eapply wp_getSv; [apply lookup_insert_eq|]. wp_step. cbn [sv_with_flags slvr_refcnt].
    rewrite Hone. wp_step; [done|]. wp_step. unfold setSv. wp_step. wp_step. unfold s1. io_norm. exact HQ'. }
  assert (Hunpin : (∀ lru crcq, (∀ j, j ∈ lru ↔ j ∈ io_lru s) → crcq = io_crcq s → lru ++ crcq ≡ₚ io_lru s ++ io_crcq s →
     Q tt (io_with_lists (io_with_slvrs s (<[n := v1]> (io_slvrs s))) lru crcq (io_crcthr s))) →
     wp (slvr_lru_tryunpin_locked n) Q (io_with_slvrs s (<[n := v1]> (io_slvrs s)))).
  { intros HQ'. unfold slvr_lru_tryunpin_locked. wp_step. eapply wp_getSv; [apply lookup_insert_eq|]. cbv zeta.
    change (slvr_refcnt v1) with 0. change (slvr_flags v1) with fl. cbn [Z.eqb negb orb]. rewrite F2.
    destruct (bool_decide (n ∈ io_lru s)) eqn:Hl; cbn [negb].
    - rewrite hasf_lor_r, F4, F5. cbn [orb]. wp_step. wp_step; [done|]. wp_step. wp_step; [done|]. wp_step. wp_step. wp_step.
      apply bool_decide_eq_true in Hl. apply wp_list_del; [done|]. wp_step. io_norm.
      assert (Hp : filter (λ j, j ≠ n) (io_lru s) ++ [n] ≡ₚ io_lru s).
      { apply NoDup_Permutation; [|done|].
        - apply NoDup_app. split; [by apply NoDup_filter|]. split; [|apply NoDup_singleton].
          intros j [? _]%list_elem_of_filter ->%list_elem_of_singleton. done.
        - intros j. rewrite elem_of_app, list_elem_of_singleton, list_elem_of_filter. destruct (decide (j = n)) as [->|]; tauto. }
      apply HQ'; [|done|by rewrite Hp]. intros j. by rewrite Hp.
    - wp_step. apply (HQ' (io_lru s) (io_crcq s)); done. }
  assert (Hread : w = SL_READ ∨ repl = true → wp (slvr_lru_tryunpin_locked n) Q (io_with_slvrs s (<[n := v1]> (io_slvrs s)))).
  { intros Hw. apply Hunpin. intros lru crcq Hj -> Hp.
    assert (Eb : bool_decide (n ∈ lru) = bool_decide (n ∈ io_lru s)) by (by apply bool_decide_ext).
    apply HQ; [cache_tac| |done|intros j; simpl; by rewrite Hp| |intros j Hne; by apply lookup_insert_ne].
    - apply Hrel; try done; by rewrite Eb.
    - intros j. simpl. split; [tauto|]. intros [?|(-> & Hw1 & Hw2)]; [done|]. destruct Hw; congruence. }
  destruct w; unfold release.
  - unfold slvr_rio_done. wp_step. apply Hdec. apply Hread. by left.
  - unfold slvr_wio_done. wp_step. apply Hdec. change (slvr_flags v1) with fl. rewrite F4, F1. cbn [orb].
    destruct repl; [apply Hread; by right|].
    destruct (bool_decide (n ∈ io_lru s)) eqn:Hl; cbn [whenM].
    + apply bool_decide_eq_true in Hl. unfold slvr_schedule_crc_locked. wp_step. eapply wp_modSv; [apply lookup_insert_eq|]. io_norm.
      wp_step. wp_step. wp_step. apply wp_list_del; [done|]. wp_step. io_norm. simpl.
      assert (Hp : filter (λ j, j ≠ n) (io_lru s) ++ io_crcq s ++ [n] ≡ₚ io_lru s ++ io_crcq s).
      { assert (Hp : n :: filter (λ j, j ≠ n) (io_lru s) ≡ₚ io_lru s).
        { apply NoDup_Permutation; [|done|].
          - constructor; [|by apply NoDup_filter]. rewrite list_elem_of_filter. tauto.
          - intros j. rewrite elem_of_cons, list_elem_of_filter. destruct (decide (j = n)) as [->|]; tauto. }
        rewrite <-Hp at 2. rewrite (assoc (++)), (comm (++) _ [n]). done. }
      apply HQ; [cache_tac| |done|intros j; simpl; by rewrite Hp| |intros j Hne; by apply lookup_insert_ne].
      * assert (Hnf : n ∉ filter (λ j, j ≠ n) (io_lru s)) by (rewrite list_elem_of_filter; tauto).
        apply Hrel; try done; simpl; rewrite ?(bool_decide_eq_false_2 _ Hnf); try by flags_goal.
        intros j Hj. rewrite list_elem_of_filter. tauto.
      * intros j. simpl. rewrite elem_of_app, list_elem_of_singleton. tauto.
    + wp_step. apply bool_decide_eq_false in Hl.
      apply HQ; [cache_tac| |done|done| |intros j Hne; by apply lookup_insert_ne].
      * apply (Hrel (io_lru s) (io_crcq s)); try done; rewrite (bool_decide_eq_false_2 _ Hl); done.
      * intros j. simpl. split; [tauto|]. intros [?|[-> _]]; [done|]. apply elem_of_app in Hinl as [|]; done.
Qed.

(** A sliver goes from the cache. *)
Lemma cinv_drop s O O' n :
  cinv bno s O → n ∈ io_lru s → held O' ≡ₚ filter (λ j, j ≠ n) (held O) → (∀ e : openio, e ∈ O' → e ∈ O) → (∀ e : openio, e ∈ O → o_num e ≠ n → e ∈ O') →
  cinv bno (io_with_lists (io_with_slvrs s (delete n (io_slvrs s))) (filter (λ j, j ≠ n) (io_lru s)) (io_crcq s) (io_crcthr s)) O'.
Proof.
  intros Hi Hn Hh Hsub Hkeep. pose proof (ci_nodup _ _ _ Hi) as Hnd. apply NoDup_app in Hnd as (Hl & Hdis & Hrest).
  apply (cinv_change bno s O O' n None); try done.
  - apply NoDup_app. split; [by apply NoDup_filter|]. split; [|done]. intros j [_ Hj]%list_elem_of_filter. by apply Hdis.
  - intros j. rewrite !elem_of_app, list_elem_of_filter. specialize (Hdis n Hn). rewrite elem_of_app in Hdis.
    destruct (decide (j = n)) as [->|]; [|tauto]. split; [tauto|]. intros [[_ []%is_Some_None]|[? _]]; done.
  - intros j Hj. rewrite list_elem_of_filter. tauto.
  - rewrite Hh. apply NoDup_filter, Hi.
  - intros j Hj. rewrite Hh, list_elem_of_filter. tauto.
  - rewrite Hh, list_elem_of_filter. tauto.
  - apply Forall_forall. intros e He%Hsub. pose proof (ci_parts _ _ _ Hi) as Hp. rewrite Forall_forall in Hp. by apply Hp.
Qed.

Lemma wp_release_err s O k p w now repl rc (Q : unit → ion → Prop) :
  cinv bno s ((k, p) :: O) → p.1.1 ∈ io_lru s → rc ≠ 0 →
  (∀ s', cache_only s s' → cinv bno s' O → io_crcthr s' = io_crcthr s → io_crcq s' = io_crcq s →
     (∀ j, j ∈ io_lru s' → j ∈ io_lru s) → (∀ j, j ≠ p.1.1 → j ∈ io_lru s → j ∈ io_lru s') → Q tt s') →
  wp (_ ← slvr_io_done p.1.1 rc; release w now p.1.1 repl) Q s.
Proof.
  intros Hi Hl Hrc HQ. set (n := p.1.1) in *. destruct (cinv_lru_dom _ _ _ Hi Hl) as [v Hv].
  pose proof (ci_sv _ _ _ Hi _ v Hv) as Hok. pose proof (ci_open _ _ _ Hi) as Hnd. apply NoDup_cons in Hnd as [Hn Hnd]. change (n ∉ held O) in Hn.
  assert (Hone : slvr_refcnt v = 1) by (rewrite (so_ref _ _ _ _ _ Hok), bool_decide_eq_true_2; [done|by left]).
  set (fl := setf (clrf (slvr_flags v) (Z.lor SLVRF_FAULTING SLVRF_DATARDY)) SLVRF_DATAERR).
  assert (F1 : hasf fl SLVRF_LRU = true) by (unfold fl; flags_goal; rewrite (so_lru _ _ _ _ _ Hok); by apply bool_decide_eq_true_2).
  assert (F2 : hasf fl SLVRF_CRCDIRTY = false) by (unfold fl; flags_goal; rewrite (so_dirty _ _ _ _ _ Hok), bool_decide_eq_true_2; done).
  assert (F4 : hasf fl SLVRF_DATAERR = true) by (unfold fl; by flags_goal).
  wp_step. unfold slvr_io_done. eapply wp_modSv; [done|]. rewrite (proj2 (Z.eqb_neq _ _) Hrc). cbn [negb]. fold fl. set (s1 := io_with_slvrs s _).
  set (v1 := sv_with_ref (sv_with_err (sv_with_flags v fl) rc) 0).
  assert (Hdec : ∀ (Q' : slvr → ion → Prop), Q' v1 (io_with_slvrs s (<[n := v1]> (io_slvrs s))) → wp (slvr_decref n) Q' s1).
  { intros Q' HQ'. unfold slvr_decref. wp_step. eapply wp_getSv; [apply lookup_insert_eq|]. wp_step. cbn [sv_with_flags sv_with_err slvr_refcnt].
    rewrite Hone. wp_step; [done|]. wp_step. unfold setSv. wp_step. wp_step. unfold s1. io_norm. exact HQ'. }
  assert (Hunpin : wp (slvr_lru_tryunpin_locked n) Q (io_with_slvrs s (<[n := v1]> (io_slvrs s)))).
  { unfold slvr_lru_tryunpin_locked. wp_step. eapply wp_getSv; [apply lookup_insert_eq|]. cbv zeta.
    change (slvr_refcnt v1) with 0. change (slvr_flags v1) with fl. cbn [Z.eqb negb orb]. rewrite F2, hasf_lor_r, F4. cbn [orb].
    unfold slvr_remove. wp_step. eapply wp_getSv; [apply lookup_insert_eq|]. wp_step. wp_step. change (slvr_flags v1) with fl. rewrite F1.
    wp_step. wp_step. apply wp_list_del; [done|]. wp_step. wp_step. io_norm. rewrite delete_insert_eq.
    apply HQ; [cache_tac| |done|done|..].
    - apply (cinv_drop s ((k, p) :: O) O n); try done.
      + rewrite fmap_cons, filter_cons_False by (simpl; fold n; tauto). symmetry. rewrite filter_all; [done|]. intros j Hj ->. done.
      + intros e He. by right.
      + intros e [->|He]%elem_of_cons Hne; done.
    - intros j. simpl. rewrite list_elem_of_filter. tauto.
    - intros j. simpl. rewrite list_elem_of_filter. tauto. }
  destruct w; unfold release.
  - unfold slvr_rio_done. wp_step. by apply Hdec.
  - unfold slvr_wio_done. wp_step. apply Hdec. change (slvr_flags v1) with fl. by rewrite F4.
Qed.

(** *** Several slivers *)
Lemma ric_out_cons w now rc n nums :
  ric_out w now rc (n :: nums) = (_ ← slvr_io_done n rc; _ ← release w now n false; ric_out w now rc nums).
Proof. by destruct w. Qed.

(** The slivers of requests that ended well. *)
Lemma wp_out_ok w now (P : list openio) : ∀ s O (Q : unit → ion → Prop),
  cinv bno s (P ++ O) → (∀ (e : openio) v, e ∈ P → io_slvrs s !! o_num e = Some v → slab_file bno (io_file s) (o_num e) (slvr_slab v)) →
  (∀ s', cache_only s s' → cinv bno s' O → io_crcthr s' = io_crcthr s →
     (∀ j, j ∈ io_lru s' ++ io_crcq s' ↔ j ∈ io_lru s ++ io_crcq s) →
     (∀ j, j ∈ io_crcq s' ↔ j ∈ io_crcq s ∨ (j ∈ held P ∧ w = SL_WRITE)) → Q tt s') →
  wp (ric_out w now 0 (held P)) Q s.
Proof.
  induction P as [|[k p] P IH]; intros s O Q Hi Hs HQ.
  { simpl. wp_step. apply HQ; try done; [apply cache_only_refl|]. intros j. rewrite elem_of_nil. tauto. }
  rewrite fmap_cons, ric_out_cons. cbn [snd]. apply (wp_assoc (slvr_io_done p.1.1 0) (λ _, release w now p.1.1 false)). wp_step.
  destruct (ci_held _ _ _ Hi p.1.1) as [[v Hv] _]; [by left|].
  eapply (wp_release_ok s (P ++ O) k p w now false v); [done|done|apply (Hs (k, p)); [by left|done]|].
  intros s1 Hc Hi1 Ht1 Hm1 Hq1 Ho1. apply (IH s1 O); [done|..].
  - intros e v' He Hv'. destruct (cache_only_file _ _ Hc) as [-> _]. apply (Hs e); [by right|]. rewrite <-Ho1; [done|].
    pose proof (ci_open _ _ _ Hi) as Hnd. apply NoDup_cons in Hnd as [Hn _]. intros Heq. apply Hn. simpl. rewrite <-Heq.
    apply (held_part e); [apply elem_of_app; by left|done].
  - intros s2 Hc2 Hi2 Ht2 Hm2 Hq2. apply HQ; [by eapply cache_only_trans|done|congruence|..].
    + intros j. by rewrite Hm2.
    + intros j. rewrite Hq2, Hq1. simpl. rewrite elem_of_cons. tauto.
Qed.

(** The slivers of requests that failed; none of them waits for its CRC. *)
Lemma wp_out_err w now rc (P : list openio) : ∀ s O (Q : unit → ion → Prop),
  cinv bno s (P ++ O) → rc ≠ 0 → (∀ n, n ∈ held P → n ∈ io_lru s) →
  (∀ s', cache_only s s' → cinv bno s' O → io_crcthr s' = io_crcthr s → io_crcq s' = io_crcq s → Q tt s') →
  wp (ric_out w now rc (held P)) Q s.
Proof.
  induction P as [|[k p] P IH]; intros s O Q Hi Hrc Hl HQ.
  { simpl. wp_step. apply HQ; try done. apply cache_only_refl. }
  rewrite fmap_cons, ric_out_cons. cbn [snd]. apply (wp_assoc (slvr_io_done p.1.1 rc) (λ _, release w now p.1.1 false)). wp_step.
  eapply (wp_release_err s (P ++ O) k p w now false rc); [done|apply Hl; by left|done|].
  intros s1 Hc Hi1 Ht1 Hq1 Hl1 Hl2. apply (IH s1 O); [done|done|..].
  - intros n Hn. apply Hl2; [|apply Hl; by right]. intros ->. apply (cinv_head s k p (P ++ O) Hi).
    rewrite fmap_app. apply elem_of_app. by left.
  - intros s2 Hc2 Hi2 Ht2 Hq2. apply HQ; [by eapply cache_only_trans|done|congruence|congruence].
Qed.

(** *** The start of a request *)
Lemma held_opens w parts : held (opens w parts) = nums parts.
Proof. unfold opens. by rewrite <-list_fmap_compose. Qed.
Lemma opens_app w l k : opens w (l ++ k) = opens w l ++ opens w k.
Proof. apply fmap_app. Qed.

(** A request that may start: its slivers are not in use. *)
Definition free_parts (s : ion) (O : list openio) (parts : list part) : Prop :=
  Forall part_ok parts ∧ NoDup (nums parts) ∧ (∀ p : part, p ∈ parts → (p.1.1 ∉ held O) ∧ p.1.1 ∉ io_crcthr s).

Lemma wp_ric_prep w sys parts : ∀ s O h tsize (Q : Z * list Z → ion → Prop),
  cinv bno s O → free_parts s O parts → tsize = lens parts →
  (∀ s', cache_only s s' → io_crcq s' = io_crcq s → io_crcthr s' = io_crcthr s →
     (∀ j, j ∈ io_lru s → j ∈ io_lru s') → cinv bno s' (opens w parts ++ O) → Q (0, h ++ nums parts) s') →
  (∀ s' pre p post, parts = pre ++ p :: post → cache_only s s' → io_crcq s' = io_crcq s → io_crcthr s' = io_crcthr s →
     sys p.1.1 < 0 → cinv bno s' (opens w pre ++ (None, p) :: O) → Q (sys p.1.1, h ++ nums pre ++ [p.1.1]) s') →
  wp (ric_prep bno w sys parts tsize h) Q s.
Proof.
  induction parts as [|p parts IH]; intros s O h tsize Q Hi (Hok & Hnd & Hfree) -> HQ HE.
  { cbn [ric_prep lens]. wp_step. wp_step; [done|]. wp_step. pose proof (HQ s) as HQ'. simpl in HQ'. rewrite app_nil_r in HQ'.
    apply HQ'; try done. apply cache_only_refl. }
  destruct p as [[n roff] len]. cbn [ric_prep].
  apply (wp_assoc (slvr_lookup n) (λ _, slvr_io_prep bno n roff len w 0 (sys n))). wp_step.
  apply Forall_cons in Hok as [Hp Hok]. apply NoDup_cons in Hnd as [Hn Hnd]. simpl in Hn.
  destruct (Hfree (n, roff, len)) as [Hh Ht]; [by left|].
  apply (wp_take s O w (n, roff, len) 0); [done..|]. simpl. intros s1 rv lru Hc Hq Hth Hlru Hcase [[-> Hi1]|(-> & Hneg & Hl & Hi1)].
  - cbn [Z.eqb negb]. wp_step. wp_step; [destruct Hp as (_ & _ & Hp & _); simpl in Hp; apply Z.gtb_lt; lia|].
    eapply (IH s1 ((Some w, (n, roff, len)) :: O)); [done|..].
    + split; [done|]. split; [done|]. intros p Hp'. destruct (Hfree p) as [Hh' Ht']; [by right|]. rewrite Hth. split; [|done].
      rewrite fmap_cons, elem_of_cons. simpl. intros [Heq|?]; [|done]. apply Hn. rewrite <-Heq. by apply (list_elem_of_fmap_2 (λ p : part, p.1.1)).
    + simpl. lia.
    + intros s2 Hc2 Hq2 Hth2 Hlm Hi2. rewrite <-app_assoc. simpl. apply HQ; [by eapply cache_only_trans|congruence|congruence| |].
      * intros j Hj. apply Hlm. destruct Hcase as [-> | ->]; rewrite Hlru; [done|apply elem_of_app; by left].
      * eapply cinv_perm; [|done]. simpl. by rewrite Permutation_middle.
    + intros s2 pre p post -> Hc2 Hq2 Hth2 Hneg Hi2. rewrite <-app_assoc. simpl.
      apply (HE s2 ((n, roff, len) :: pre) p post); try done; [by eapply cache_only_trans|congruence|congruence|].
      eapply cinv_perm; [|done]. simpl. rewrite <-!Permutation_middle. by rewrite Permutation_swap.
  - rewrite (proj2 (Z.eqb_neq _ _)) by lia. cbn [negb]. wp_step. apply (HE s1 [] (n, roff, len) parts); try done.
Qed.
End ops.
