(* ===== verification/SlvrReq.v ===== *)
(** * Requests on slivers

    The two parts of a client's request against the invariant of the sliver
    cache: a read gets the bytes of the file, a write changes exactly the bytes
    of its range. *)
From S2P Require Import Prelude ReplBits ReplWalk BmapMds ReplReq Replay CrcWrite Slvr SlvrIO SlvrInv.

(** ** The parts of a request *)
Section parts.
Context (bno : Z).

(** The parts cover the range of the file from [start + base] on. *)
Fixpoint contig (start base : Z) (parts : list part) : Prop :=
  match parts with
  | [] => True
  | p :: parts => slvr_2_fileoff bno p.1.1 0 + p.1.2 = start + base ∧ contig start (base + p.2) parts
  end.

(** A request within the bmap and of at most a sliver's size. *)
Definition req_ok (off size : Z) : Prop := 0 ≤ off ∧ 0 < size ≤ SLASH_SLVR_SIZE ∧ off + size ≤ SLASH_BMAP_SIZE.
Definition req_start (off : Z) : Z := bno * SLASH_BMAP_SIZE + off.

(** The two shapes of a request. *)
Lemma io_parts_cases off size : req_ok off size →
  let n := off / SLASH_SLVR_SIZE in let roff := off mod SLASH_SLVR_SIZE in
  (io_parts off size = [(n, roff, size)] ∧ roff + size ≤ SLASH_SLVR_SIZE) ∨
  (io_parts off size = [(n, roff, SLASH_SLVR_SIZE - roff); (n + 1, 0, size - (SLASH_SLVR_SIZE - roff))] ∧
   SLASH_SLVR_SIZE < roff + size ∧ n + 1 < SLASH_SLVRS_PER_BMAP).
Proof.
  intros (Ho & Hs & Hb). simpl. unfold io_parts. cbv zeta.
  assert (Hu : u32 (off + size - 1) = off + size - 1) by (apply u32_small; unfold SLASH_BMAP_SIZE, SLASH_SLVRS_PER_BMAP, SLASH_SLVR_SIZE in Hb; lia).
  rewrite Hu. pose proof (Z.div_mod off SLASH_SLVR_SIZE ltac:(unfold SLASH_SLVR_SIZE; lia)) as Hdm.
  pose proof (Z.mod_pos_bound off SLASH_SLVR_SIZE ltac:(unfold SLASH_SLVR_SIZE; lia)) as Hm.
  set (n := off / SLASH_SLVR_SIZE) in *. set (roff := off mod SLASH_SLVR_SIZE) in *.
  replace (off - n * SLASH_SLVR_SIZE) with roff by lia.
  assert (Hdiv : (off + size - 1) / SLASH_SLVR_SIZE = n + (roff + size - 1) / SLASH_SLVR_SIZE).
  { rewrite Hdm. replace (SLASH_SLVR_SIZE * n + roff + size - 1) with (roff + size - 1 + n * SLASH_SLVR_SIZE) by lia.
    rewrite Z.div_add by (unfold SLASH_SLVR_SIZE; lia). lia. }
  rewrite Hdiv. destruct (Z.le_gt_cases (roff + size) SLASH_SLVR_SIZE) as [Hle|Hgt].
  - left. rewrite (Z.div_small (roff + size - 1)) by lia. destruct (Z.gtb_spec (n + 0) n); [lia|]. split; [|done]. do 2 f_equal. lia.
  - right. assert ((roff + size - 1) / SLASH_SLVR_SIZE = 1) as ->.
    { symmetry. apply (Z.div_unique _ _ _ (roff + size - 1 - SLASH_SLVR_SIZE)); lia. }
    destruct (Z.gtb_spec (n + 1) n); [|lia]. split_and!; [|lia|].
    + repeat f_equal; lia.
    + unfold SLASH_BMAP_SIZE in Hb. assert ((n + 1) * SLASH_SLVR_SIZE < SLASH_SLVRS_PER_BMAP * SLASH_SLVR_SIZE) as Hlt by lia.
      apply Z.mul_lt_mono_pos_r in Hlt; [done|unfold SLASH_SLVR_SIZE; lia].
Qed.

Lemma req_num off size : req_ok off size → 0 ≤ off / SLASH_SLVR_SIZE < SLASH_SLVRS_PER_BMAP.
Proof.
  intros (Ho & Hs & Hb). split; [apply Z.div_pos; [done|unfold SLASH_SLVR_SIZE; lia]|].
  apply Z.div_lt_upper_bound; unfold SLASH_BMAP_SIZE in Hb; [unfold SLASH_SLVR_SIZE; lia|]. lia.
Qed.

Lemma io_parts_ok off size : req_ok off size →
  Forall part_ok (io_parts off size) ∧ NoDup (nums (io_parts off size)) ∧ lens (io_parts off size) = size ∧
  contig (req_start off) 0 (io_parts off size).
Proof.
  intros Hr. pose proof (req_num _ _ Hr) as Hn. destruct Hr as (Ho & Hs & Hb).
  pose proof (Z.mod_pos_bound off SLASH_SLVR_SIZE ltac:(unfold SLASH_SLVR_SIZE; lia)) as Hm.
  pose proof (Z.div_mod off SLASH_SLVR_SIZE ltac:(unfold SLASH_SLVR_SIZE; lia)) as Hdm.
  destruct (io_parts_cases off size ltac:(done)) as [[-> Hc]|(-> & Hc & Hn1)].
  - split_and!; [|apply NoDup_singleton|simpl; lia|simpl; split; [|done]].
    + repeat constructor; simpl; lia.
    + unfold slvr_2_fileoff, req_start. lia.
  - split_and!; [| |simpl; lia|].
    + repeat constructor; simpl; lia.
    + simpl. apply NoDup_cons. rewrite list_elem_of_singleton. split; [lia|apply NoDup_singleton].
    + simpl. unfold slvr_2_fileoff, req_start. lia.
Qed.

(** A position of a sliver is in the range of the request exactly when it is
    in the part of the request on that sliver. *)
Lemma in_part off size n i : req_ok off size → 0 ≤ i < SLASH_SLVR_SIZE →
  req_start off ≤ slvr_2_fileoff bno n 0 + i < req_start off + size ↔
  ∃ p : part, p ∈ io_parts off size ∧ p.1.1 = n ∧ p.1.2 ≤ i < p.1.2 + p.2.
Proof.
  intros Hr Hi. pose proof (io_parts_cases off size Hr) as Hcases. destruct Hr as (Ho & Hs & Hb).
  pose proof (Z.mod_pos_bound off SLASH_SLVR_SIZE ltac:(unfold SLASH_SLVR_SIZE; lia)) as Hm.
  pose proof (Z.div_mod off SLASH_SLVR_SIZE ltac:(unfold SLASH_SLVR_SIZE; lia)) as Hdm.
  unfold slvr_2_fileoff, req_start. cbv zeta in Hcases. revert Hcases Hm Hdm.
  generalize (off / SLASH_SLVR_SIZE) (off mod SLASH_SLVR_SIZE). intros q r Hcases Hm Hdm.
  assert (Hpos : 0 < SLASH_SLVR_SIZE) by done.
  destruct Hcases as [[-> Hc]|(-> & Hc & Hn1)].
  - split.
    + intros Hx. assert (n = q) by nia. subst n. exists (q, r, size). split; [by left|]. simpl. lia.
    + intros (p & ->%list_elem_of_singleton & <- & Hx). simpl in *. lia.
  - split.
    + intros Hx. assert (n = q ∨ n = q + 1) as [-> | ->] by nia.
      * exists (q, r, SLASH_SLVR_SIZE - r). split; [by left|]. simpl. lia.
      * exists (q + 1, 0, size - (SLASH_SLVR_SIZE - r)). split; [by right; left|]. simpl. lia.
    + intros (p & Hp & <- & Hx). list_cases Hp; subst p; simpl in *; lia.
Qed.
End parts.

(** ** The start of a request *)
Section req.
Context `{PflErr} `{PflCrc} `{PflNet}.
Context (bno : Z).
Implicit Types (s : ion) (O : list openio) (p : part) (parts : list part).

(** What a step on slivers leaves alone. *)
Definition quiet (s s' : ion) : Prop :=
  cache_only s s' ∧ io_crcq s' = io_crcq s ∧ io_crcthr s' = io_crcthr s.

Lemma wp_ric_begin mq w e s O (Q : Z → ion → Prop) :
  cinv bno s O → req_ok (mq_offset mq) (mq_size mq) → free_parts s O (io_parts (mq_offset mq) (mq_size mq)) →
  ie_get e = 0 → ie_bmap e = 0 →
  ((∀ p : part, p ∈ io_parts (mq_offset mq) (mq_size mq) → 0 ≤ ie_read e p.1.1) ∨
   (∀ p : part, p ∈ io_parts (mq_offset mq) (mq_size mq) → p.1.1 ∉ io_crcq s)) →
  (∀ s', quiet s s' → cinv bno s' (opens w (io_parts (mq_offset mq) (mq_size mq)) ++ O) → Q 0 s') →
  (∀ s' rc, quiet s s' → cinv bno s' O → rc < 0 → (∃ p : part, p ∈ io_parts (mq_offset mq) (mq_size mq) ∧ ie_read e p.1.1 = rc) → Q rc s') →
  wp (ric_begin bno mq w e) Q s.
Proof.
  intros Hi Hr Hf Hg Hb Herr HQ HE. unfold ric_begin. rewrite Hg, Hb. cbn [Z.eqb negb].
  destruct (io_parts_ok bno _ _ Hr) as (_ & _ & Hlen & _). set (parts := io_parts _ _) in *.
  wp_step. apply (wp_ric_prep bno w (ie_read e) parts s O [] (mq_size mq)); [done|done|done|..].
  - intros s' Hc Hq Ht _ Hi'. cbn [fst Z.eqb negb]. wp_step. by apply HQ.
  - intros s' pre p post Hparts Hc Hq Ht Hneg Hi'. cbn [fst snd]. rewrite (proj2 (Z.eqb_neq _ _)) by lia. cbn [negb].
    assert (Hin : p ∈ parts) by (rewrite Hparts; apply elem_of_app; right; by left).
    destruct Herr as [Herr|Herr]; [specialize (Herr p Hin); lia|]. wp_step.
    set (P := opens w pre ++ [(None, p)]).
    assert (HP : nums pre ++ [p.1.1] = held P) by (unfold P; rewrite fmap_app; f_equal; symmetry; apply held_opens).
    cbn [app]. rewrite HP. apply (wp_out_err bno w (ie_now e) (ie_read e p.1.1) P s' O).
    + unfold P. rewrite <-app_assoc. done.
    + lia.
    + intros n Hn. destruct (ci_held _ _ _ Hi' n) as [Hd Hnt].
      { eapply elem_of_submseteq; [exact Hn|]. unfold P. rewrite !fmap_app. simpl. apply submseteq_skips_l, submseteq_skip, submseteq_nil_l. }
      apply (ci_dom _ _ _ Hi') in Hd. rewrite !elem_of_app in Hd. rewrite Hq in Hd. destruct Hd as [?|[Hx|?]]; [done| |done].
      exfalso. rewrite <-HP in Hn. apply elem_of_app in Hn as [Hn|Hn].
      * apply list_elem_of_fmap_1 in Hn as (p' & -> & Hp'). apply (Herr p'); [|done]. rewrite Hparts. apply elem_of_app. by left.
      * apply list_elem_of_singleton in Hn as ->. by apply (Herr p).
    + intros s2 Hc2 Hi2 Ht2 Hq2. wp_step. apply HE; [|done|done|by exists p]. split; [by eapply cache_only_trans|]. split; congruence.
Qed.

(** ** The transfer of a read *)
Lemma wp_bulk_source s O start (parts : list part) : ∀ base d (Q : data → ion → Prop),
  cinv bno s O → contig bno start base parts → Forall part_ok parts →
  (∀ p : part, p ∈ parts → ∃ v, io_slvrs s !! p.1.1 = Some v ∧ slab_file bno (io_file s) p.1.1 (slvr_slab v)) →
  (∀ d', (∀ i, d' i = if (base <=? i) && (i <? base + lens parts) then io_file s (start + i) else d i) → Q d' s) →
  wp (bulk_source base parts d) Q s.
Proof.
  induction parts as [|[[n roff] len] parts IH]; intros base d Q Hi Hct Hok Hsl HQ.
  { simpl. wp_step. apply HQ. intros i. simpl. destruct (Z.leb_spec base i), (Z.ltb_spec i (base + 0)); simpl; try done. lia. }
  simpl in Hct. destruct Hct as [Hpos Hct]. apply Forall_cons in Hok as [(Hn & Hro & Hl & Hsz) Hok]. cbn [bulk_source]. simpl in *.
  destruct (Hsl (n, roff, len)) as (v & Hv & Hs); [by left|]. simpl in *. wp_step. eapply wp_getSv; [done|].
  assert (Hlp : 0 ≤ lens parts).
  { clear -Hok. induction parts as [|q parts IH]; simpl; [lia|]. apply Forall_cons in Hok as [(_ & _ & ? & _) Hok]. specialize (IH Hok). lia. }
  apply IH; [done|done|done|intros p Hp; apply Hsl; by right|]. intros d' Hd'. apply HQ. intros i. rewrite Hd'. unfold overlay.
  destruct (Z.leb_spec (base + len) i), (Z.ltb_spec i (base + len + lens parts)), (Z.leb_spec base i), (Z.ltb_spec i (base + len)),
    (Z.ltb_spec i (base + (len + lens parts))); simpl; try lia; try done.
  all: rewrite Hs by lia; f_equal; lia.
Qed.

(** The slivers of a request that reads, or of one that writes a part. *)
Lemma open_slab s O w parts p : cinv bno s (opens w parts ++ O) → p ∈ parts → ¬ blind (Some w, p) →
  ∃ v, io_slvrs s !! p.1.1 = Some v ∧ slab_file bno (io_file s) p.1.1 (slvr_slab v).
Proof.
  intros Hi Hp Hb. assert (Hin : ((Some w, p) : openio) ∈ opens w parts ++ O).
  { apply elem_of_app. left. by apply (list_elem_of_fmap_2 (λ p, (Some w, p))). }
  destruct (ci_held _ _ _ Hi p.1.1) as [[v Hv] _]; [by apply (held_part (Some w, p))|]. exists v. split; [done|].
  destruct (so_slab _ _ _ _ _ (ci_sv _ _ _ Hi _ _ Hv)) as [(e & He & Hnum & Hbl)|]; [|done]. exfalso.
  assert (e = (Some w, p)) as ->; [|done].
  pose proof (ci_open _ _ _ Hi) as Hnd. apply list_elem_of_lookup_1 in He as [i He], Hin as [j Hj].
  assert (Hij : i = j); [|subst j; rewrite He in Hj; by injection Hj].
  eapply (NoDup_lookup _ i j (p.1.1) Hnd); rewrite list_lookup_fmap; [rewrite He|rewrite Hj]; simpl; congruence.
Qed.
Lemma read_not_blind p : ¬ blind (Some SL_READ, p).
Proof. by intros [?|[? _]]. Qed.

(** ** The transfer of a write *)

(** The file after the write. *)
Definition written (off size : Z) (f d : data) : data := overlay f (req_start bno off) size d.

(** The slab after the transfer shows the file after the write. *)
Lemma sink_slab off size f d p base slab :
  req_ok off size → p ∈ io_parts off size → slvr_2_fileoff bno p.1.1 0 + p.1.2 = req_start bno off + base →
  (p.1.2 = 0 ∧ p.2 = SLASH_SLVR_SIZE) ∨ slab_file bno f p.1.1 slab →
  slab_file bno (written off size f d) p.1.1 (overlay slab p.1.2 p.2 (λ i, d (base + i))).
Proof.
  intros Hr Hp Hb Hs i Hi. unfold written, overlay.
  destruct (io_parts_ok bno _ _ Hr) as (Hok & Hnd & _). rewrite Forall_forall in Hok. pose proof (Hok p Hp) as (Hn & Ho & Hl & Hle).
  pose proof (in_part bno off size p.1.1 i Hr Hi) as Hin.
  destruct (decide (p.1.2 ≤ i < p.1.2 + p.2)) as [Hd|Hd].
  - assert (req_start bno off ≤ slvr_2_fileoff bno p.1.1 0 + i < req_start bno off + size) as Hx by (apply Hin; by exists p).
    rewrite (proj2 (Z.leb_le _ _)), (proj2 (Z.ltb_lt _ _)), (proj2 (Z.leb_le _ _)), (proj2 (Z.ltb_lt _ _)) by lia. simpl. f_equal. lia.
  - assert (¬ (req_start bno off ≤ slvr_2_fileoff bno p.1.1 0 + i < req_start bno off + size)) as Hx.
    { rewrite Hin. intros (q & Hq & Hnum & Hqi). apply Hd.
      assert (q = p) as ->; [|done]. apply list_elem_of_lookup_1 in Hq as [a Ha], Hp as [b Hbb].
      assert (a = b) as Hab; [|subst b; rewrite Ha in Hbb; by injection Hbb]. eapply (NoDup_lookup _ a b q.1.1 Hnd); rewrite list_lookup_fmap; [by rewrite Ha|by rewrite Hbb, Hnum]. }
    assert (Hf : ((p.1.2 <=? i) && (i <? p.1.2 + p.2)) = false) by (destruct (Z.leb_spec p.1.2 i), (Z.ltb_spec i (p.1.2 + p.2)); simpl; lia).
    rewrite Hf. destruct Hs as [[H1' H2']|Hs]; [lia|]. rewrite Hs by done.
    destruct (Z.leb_spec (req_start bno off) (slvr_2_fileoff bno p.1.1 0 + i)), (Z.ltb_spec (slvr_2_fileoff bno p.1.1 0 + i) (req_start bno off + size));
      simpl; lia || done.
Qed.

(** A change of one slab that is not trusted any more. *)
Lemma cinv_slab s O p v d : cinv bno s ((None, p) :: O) → io_slvrs s !! p.1.1 = Some v →
  cinv bno (io_with_slvrs s (<[p.1.1 := sv_with_slab v d]> (io_slvrs s))) ((None, p) :: O).
Proof.
  intros Hi Hv. pose proof (ci_sv _ _ _ Hi _ _ Hv) as Hok.
  apply (cinv_change bno s ((None, p) :: O) ((None, p) :: O) p.1.1 (Some (sv_with_slab v d)) (io_lru s) (io_crcq s) (io_crcthr s)); try done.
  - apply Hi.
  - intros j. destruct (decide (j = p.1.1)) as [->|]; [|tauto].
    assert (is_Some (io_slvrs s !! p.1.1)) as Hin%(ci_dom _ _ _ Hi) by (by rewrite Hv). split; [|done]. left. split; [done|by eexists].
  - apply Hi.
  - intros Hh. split; [by eexists|]. by apply (ci_held _ _ _ Hi).
  - apply Hi.
  - intros v' [= <-]. destruct Hok as [? ? ? ? ? ? ? ? ?]. split; try done. left. exists (None, p). split; [by left|]. split; [done|by left].
Qed.

Definition junk (parts : list part) : list openio := (λ p, (None, p)) <$> parts.
Lemma held_junk parts : held (junk parts) = nums parts.
Proof. unfold junk. by rewrite <-list_fmap_compose. Qed.

Lemma wp_bulk_sink off size d w f (parts : list part) : ∀ s O base (Q : unit → ion → Prop),
  req_ok off size → (∀ p : part, p ∈ parts → p ∈ io_parts off size) → NoDup (nums parts) → contig bno (req_start bno off) base parts →
  cinv bno s (opens w parts ++ O) → w = SL_WRITE → io_file s = f →
  (∀ s', quiet s s' → cinv bno s' (junk parts ++ O) →
     (∀ n, n ∉ nums parts → io_slvrs s' !! n = io_slvrs s !! n) →
     (∀ p : part, p ∈ parts → ∃ v, io_slvrs s' !! p.1.1 = Some v ∧ slab_file bno (written off size f d) p.1.1 (slvr_slab v)) → Q tt s') →
  wp (bulk_sink base parts d) Q s.
Proof.
  induction parts as [|p parts IH]; intros s O base Q Hr Hsub Hnd Hct Hi Hw Hf HQ.
  { simpl. wp_step. apply HQ; try done; [split; [apply cache_only_refl|done]|]. by intros p Hp%elem_of_nil. }
  destruct Hct as [Hpos Hct]. pose proof Hnd as Hnd'. rewrite fmap_cons in Hnd'. apply NoDup_cons in Hnd' as [Hn Hnd'].
  assert (Hsl : (p.1.2 = 0 ∧ p.2 = SLASH_SLVR_SIZE) ∨ ∃ v, io_slvrs s !! p.1.1 = Some v ∧ slab_file bno f p.1.1 (slvr_slab v)).
  { destruct (decide (p.1.2 = 0 ∧ p.2 = SLASH_SLVR_SIZE)) as [|Hnb]; [by left|right]. rewrite <-Hf.
    apply (open_slab s O w (p :: parts)); [done|by left|]. intros [?|(_ & ? & ?)]; [done|]. by apply Hnb. }
  destruct (ci_held _ _ _ Hi p.1.1) as [[v Hv] _]; [by left|].
  pose proof (Hsub p ltac:(by left)) as Hpin.
  assert (Hs' := sink_slab off size f d p base (slvr_slab v) Hr Hpin Hpos).
  destruct p as [[n roff] len]. cbn [bulk_sink]. simpl in Hv, Hn, Hs', Hsl, Hct. wp_step. eapply wp_modSv; [done|]. set (s1 := io_with_slvrs s _).
  assert (Hi1 : cinv bno s1 ((None, (n, roff, len)) :: opens w parts ++ O)).
  { apply (cinv_slab s (opens w parts ++ O) (n, roff, len) v); [|done]. by apply (cinv_junk bno s (Some w)). }
  apply (IH s1 ((None, (n, roff, len)) :: O)); try done.
  - intros p Hp. apply Hsub. by right.
  - eapply cinv_perm; [|exact Hi1]. by rewrite <-Permutation_middle.
  - intros s2 (Hc2 & Hq2 & Ht2) Hi2 Ho2 Hp2. apply HQ.
    + split; [|by split]. eapply cache_only_trans; [|done]. unfold s1. cache_tac.
    + eapply cinv_perm; [|exact Hi2]. simpl. by rewrite <-Permutation_middle.
    + intros k Hk. rewrite fmap_cons, elem_of_cons in Hk. simpl in Hk. rewrite Ho2 by tauto. apply lookup_insert_ne. intros <-. tauto.
    + intros q [->|Hq]%elem_of_cons; [|by apply Hp2]. simpl. rewrite Ho2 by done. exists (sv_with_slab v (overlay (slvr_slab v) roff len (λ i, d (base + i)))).
      split; [apply lookup_insert_eq|]. simpl. apply Hs'. destruct Hsl as [|(v' & Hv' & Hs)]; [by left|right]. rewrite Hv in Hv'. by injection Hv' as <-.
Qed.

(** ** The write to the file *)

(** Whole blocks are written, from the block in which the part starts to the
    end of the part. *)
Definition wrlen (p : part) : Z := p.1.2 mod SLASH_SLVR_BLKSZ + p.2.

Lemma wp_write_one F n roff len (Q : Z → ion → Prop) s v :
  part_ok (n, roff, len) → io_back s = true → io_slvrs s !! n = Some v → slab_file bno F n (slvr_slab v) →
  (∀ f', (∀ x, f' x = if decide (slvr_2_fileoff bno n 0 + (roff - roff mod SLASH_SLVR_BLKSZ) ≤ x < slvr_2_fileoff bno n 0 + (roff + len)) then F x else io_file s x) →
     Q 0 (io_with_file s f' (Z.max (io_fsize s) (slvr_2_fileoff bno n 0 + roff + len)))) →
  wp (slvr_fsbytes_wio bno n (roff / SLASH_SLVR_BLKSZ) (wrlen (n, roff, len)) (wrlen (n, roff, len))) Q s.
Proof.
  intros (Hn & Hro & Hl & Hsz) Hb Hv Hs HQ. unfold slvr_fsbytes_wio, slvr_fsio. simpl in Hn, Hro, Hl, Hsz. wp_step. wp_step. rewrite Hb. cbn [negb]. cbv zeta.
  rewrite Z.div_mul by done. wp_step. rewrite Z.mod_mul by done. wp_step; [done|]. wp_step. eapply wp_getSv; [done|].
  pose proof (Z.mod_pos_bound roff SLASH_SLVR_BLKSZ ltac:(unfold SLASH_SLVR_BLKSZ; lia)) as Hm.
  pose proof (Z.div_mod roff SLASH_SLVR_BLKSZ ltac:(unfold SLASH_SLVR_BLKSZ; lia)) as Hdm.
  pose proof (Z.mod_le roff SLASH_SLVR_BLKSZ Hro ltac:(unfold SLASH_SLVR_BLKSZ; lia)) as Hml.
  unfold wrlen. simpl fst. simpl snd. set (blk := roff / SLASH_SLVR_BLKSZ) in *. set (bm := roff mod SLASH_SLVR_BLKSZ) in *.
  destruct (Z.ltb_spec (bm + len) 0); [lia|]. wp_step. wp_step. wp_step. destruct (Z.eqb_spec (bm + len) 0); [lia|].
  assert (Hoff : slvr_2_fileoff bno n blk = slvr_2_fileoff bno n 0 + (roff - bm)) by (unfold slvr_2_fileoff; lia).
  replace (slvr_2_fileoff bno n blk + (bm + len)) with (slvr_2_fileoff bno n 0 + roff + len) by lia.
  apply HQ. intros x. rewrite Hoff. unfold overlay. set (fo := slvr_2_fileoff bno n 0) in *.
  destruct (Z.leb_spec (fo + (roff - bm)) x), (Z.ltb_spec x (fo + (roff - bm) + (bm + len))); simpl.
  - rewrite decide_True by lia. rewrite Hs by lia. f_equal. fold fo. lia.
  - rewrite decide_False by lia. done.
  - rewrite decide_False by lia. done.
  - rewrite decide_False by lia. done.
Qed.

(** The blocks of a part in a sliver. *)
Lemma tsz_last roff len : 0 ≤ roff → roff + len ≤ SLASH_SLVR_SIZE →
  Z.min ((SLASH_BLKS_PER_SLVR - roff / SLASH_SLVR_BLKSZ) * SLASH_SLVR_BLKSZ) (roff mod SLASH_SLVR_BLKSZ + len) = roff mod SLASH_SLVR_BLKSZ + len.
Proof.
  intros Hr Hl. pose proof (Z.div_mod roff SLASH_SLVR_BLKSZ ltac:(unfold SLASH_SLVR_BLKSZ; lia)) as Hdm.
  assert (SLASH_BLKS_PER_SLVR * SLASH_SLVR_BLKSZ = SLASH_SLVR_SIZE) as Hs by done. lia.
Qed.
Lemma tsz_full roff rest : 0 ≤ roff → roff ≤ SLASH_SLVR_SIZE → 0 ≤ rest →
  Z.min ((SLASH_BLKS_PER_SLVR - roff / SLASH_SLVR_BLKSZ) * SLASH_SLVR_BLKSZ) (roff mod SLASH_SLVR_BLKSZ + (SLASH_SLVR_SIZE - roff) + rest) =
  roff mod SLASH_SLVR_BLKSZ + (SLASH_SLVR_SIZE - roff).
Proof.
  intros Hr Hl Hrest. pose proof (Z.div_mod roff SLASH_SLVR_BLKSZ ltac:(unfold SLASH_SLVR_BLKSZ; lia)) as Hdm.
  assert (SLASH_BLKS_PER_SLVR * SLASH_SLVR_BLKSZ = SLASH_SLVR_SIZE) as Hs by done. lia.
Qed.

Lemma wp_write_sliver off size d sys s (Q : Z → ion → Prop) :
  req_ok off size → io_back s = true →
  (∀ p : part, p ∈ io_parts off size → sys p.1.1 = wrlen p) →
  (∀ p : part, p ∈ io_parts off size → ∃ v, io_slvrs s !! p.1.1 = Some v ∧ slab_file bno (written off size (io_file s) d) p.1.1 (slvr_slab v)) →
  (∀ f', (∀ x, f' x = written off size (io_file s) d x) → Q 0 (io_with_file s f' (Z.max (io_fsize s) (req_start bno off + size)))) →
  wp (sli_ric_write_sliver bno off size (nums (io_parts off size)) sys) Q s.
Proof.
  intros Hr Hb Hsys Hsl HQ. pose proof (io_parts_ok bno off size Hr) as (Hok & _ & Hlen & Hct).
  pose proof (Z.mod_pos_bound off SLASH_SLVR_SIZE ltac:(unfold SLASH_SLVR_SIZE; lia)) as Hm.
  pose proof (Z.div_mod off SLASH_SLVR_SIZE ltac:(unfold SLASH_SLVR_SIZE; lia)) as Hdm.
  unfold sli_ric_write_sliver. cbv zeta. replace (off - off / SLASH_SLVR_SIZE * SLASH_SLVR_SIZE) with (off mod SLASH_SLVR_SIZE) by lia.
  set (F := written off size (io_file s) d) in *.
  assert (HF : ∀ x, ¬ (req_start bno off ≤ x < req_start bno off + size) → F x = io_file s x).
  { intros x Hx. unfold F, written, overlay. destruct (Z.leb_spec (req_start bno off) x), (Z.ltb_spec x (req_start bno off + size)); simpl; lia || done. }
  destruct (io_parts_cases off size Hr) as [[Hp Hc]|(Hp & Hc & _)]; rewrite Hp in *; clear Hp; revert Hm Hdm Hc Hok Hct Hsys Hsl Hlen;
    generalize (off / SLASH_SLVR_SIZE) (off mod SLASH_SLVR_SIZE); intros q r Hm Hdm Hc Hok Hct Hsys Hsl Hlen; destruct Hr as (Ho & Hsz & Hbm).
  - destruct (Hsl (q, r, size)) as (v & Hv & Hs); [by left|]. pose proof (Hsys (q, r, size) ltac:(by left)) as Hy. simpl in Hv, Hs, Hy, Hct.
    apply Forall_cons in Hok as [Hp _]. wp_step. cbn [fmap list_fmap write_loop fst]. rewrite (Z.add_comm size), tsz_last by lia. wp_step. rewrite Hy.
    apply (wp_write_one F q r size _ s v); [done..|]. intros f' Hf'. cbn [Z.eqb negb]. rewrite Z.sub_diag. do 2 wp_step. wp_step; [|done]. wp_step; [done|].
    replace (slvr_2_fileoff bno q 0 + r + size) with (req_start bno off + size) by lia. wp_step. apply HQ.
    intros x. rewrite Hf'. pose proof (Z.mod_pos_bound r SLASH_SLVR_BLKSZ ltac:(unfold SLASH_SLVR_BLKSZ; lia)). case_decide; [done|]. symmetry. apply HF. lia.
  - destruct (Hsl (q, r, SLASH_SLVR_SIZE - r)) as (v & Hv & Hs); [by left|].
    destruct (Hsl (q + 1, 0, size - (SLASH_SLVR_SIZE - r))) as (v2 & Hv2 & Hs2); [right; by left|].
    pose proof (Hsys (q, r, SLASH_SLVR_SIZE - r) ltac:(by left)) as Hy. pose proof (Hsys (q + 1, 0, size - (SLASH_SLVR_SIZE - r)) ltac:(right; by left)) as Hy2.
    simpl in Hv, Hs, Hv2, Hs2, Hy, Hy2, Hct. apply Forall_cons in Hok as [Hp Hok]. apply Forall_cons in Hok as [Hp2 _].
    wp_step. cbn [fmap list_fmap write_loop fst].
    replace (size + r mod SLASH_SLVR_BLKSZ) with (r mod SLASH_SLVR_BLKSZ + (SLASH_SLVR_SIZE - r) + (size - (SLASH_SLVR_SIZE - r))) by lia.
    rewrite tsz_full by lia. wp_step. rewrite Hy. apply (wp_write_one F q r (SLASH_SLVR_SIZE - r) _ s v); [done..|]. intros f1 Hf1. cbn [Z.eqb negb].
    replace (r mod SLASH_SLVR_BLKSZ + (SLASH_SLVR_SIZE - r) + (size - (SLASH_SLVR_SIZE - r)) - (r mod SLASH_SLVR_BLKSZ + (SLASH_SLVR_SIZE - r)))
      with (0 mod SLASH_SLVR_BLKSZ + (size - (SLASH_SLVR_SIZE - r))) by (change (0 mod SLASH_SLVR_BLKSZ) with 0; lia).
    change ((SLASH_BLKS_PER_SLVR - 0) * SLASH_SLVR_BLKSZ) with ((SLASH_BLKS_PER_SLVR - 0 / SLASH_SLVR_BLKSZ) * SLASH_SLVR_BLKSZ).
    rewrite tsz_last by lia. wp_step. rewrite Hy2. change 0 with (0 / SLASH_SLVR_BLKSZ) at 1.
    apply (wp_write_one F (q + 1) 0 (size - (SLASH_SLVR_SIZE - r)) _ _ v2); [done..|]. intros f2 Hf2. cbn [Z.eqb negb]. rewrite Z.sub_diag.
    do 2 wp_step. wp_step; [|done]. wp_step; [done|]. wp_step. cbn [io_fsize io_with_file] in *.
    change (io_with_file (io_with_file s f1 ?a) f2 ?b) with (io_with_file s f2 b).
    replace (Z.max (Z.max (io_fsize s) _) _) with (Z.max (io_fsize s) (req_start bno off + size)) by lia.
    apply HQ. intros x. rewrite Hf2. cbn [io_file io_with_file]. rewrite Hf1.
    pose proof (Z.mod_pos_bound r SLASH_SLVR_BLKSZ ltac:(unfold SLASH_SLVR_BLKSZ; lia)). change (0 mod SLASH_SLVR_BLKSZ) with 0.
    do 2 (case_decide; [done|]). symmetry. apply HF. lia.
Qed.

(** A change of the file where the slabs are not trusted. *)
Lemma cinv_file s O f n :
  cinv bno s O → (∀ i, n ≤ i → f i = 0) → 0 ≤ n →
  (∀ k v, io_slvrs s !! k = Some v → (∃ e : openio, e ∈ O ∧ o_num e = k ∧ blind e) ∨
     ∀ i, 0 ≤ i < SLASH_SLVR_SIZE → f (slvr_2_fileoff bno k 0 + i) = io_file s (slvr_2_fileoff bno k 0 + i)) →
  cinv bno (io_with_file s f n) O.
Proof.
  intros [Hd Hn Hsv Hop Hh Hpt ? ? ? ?] Hz H0n Hf. split; try done. intros k v Hv. destruct (Hsv k v Hv) as [? ? ? ? ? ? ? ? Hs]. split; try done.
  destruct (Hf k v Hv) as [|Hfk]; [by left|]. destruct Hs as [|Hs]; [by left|right]. intros i Hi. cbn. by rewrite Hfk, Hs.
Qed.

(** ** The end of a request *)
Lemma opens_junk s w parts : ∀ O, cinv bno s (opens w parts ++ O) → cinv bno s (junk parts ++ O).
Proof.
  induction parts as [|p parts IH]; intros O Hi; [done|]. change (cinv bno s ((None, p) :: junk parts ++ O)).
  eapply cinv_perm; [by rewrite Permutation_middle|]. apply IH. eapply cinv_perm; [by rewrite <-Permutation_middle|]. by apply (cinv_junk bno s (Some w)).
Qed.

Lemma wp_end_bulk_err mq w e s O (Q : io_result → ion → Prop) :
  cinv bno s (opens w (io_parts (mq_offset mq) (mq_size mq)) ++ O) → req_ok (mq_offset mq) (mq_size mq) → ie_bulk e ≠ 0 →
  (∀ p, p ∈ io_parts (mq_offset mq) (mq_size mq) → p.1.1 ∉ io_crcq s) →
  (∀ s', quiet s s' → cinv bno s' O → Q (refused (ie_bulk e)) s') →
  wp (ric_end bno mq w e) Q s.
Proof.
  intros Hi Hr Hb Hcl HQ. unfold ric_end. cbv zeta. set (parts := io_parts _ _) in *. destruct (io_parts_ok bno _ _ Hr) as (Hok & Hnd & _ & Hct). fold parts in Hok, Hnd, Hct.
  assert (Hgo : ∀ d s1, quiet s s1 → cinv bno s1 (junk parts ++ O) →
    wp (if negb (ie_bulk e =? 0) then _ ← ric_out w (ie_now e) (ie_bulk e) (nums parts); mret (refused (ie_bulk e))
        else mprc ← match w with
           | SL_WRITE => sli_ric_write_sliver bno (mq_offset mq) (mq_size mq) (nums parts) (ie_write e)
           | SL_READ => _ ← readahead_enqueue (mq_offset mq + mq_size mq) (mq_size mq); mret 0
           end;
        _ ← ric_out w (ie_now e) 0 (nums parts);
        mret {| ir_rc := 0; ir_mprc := mprc; ir_data := d |}) Q s1).
  { intros d s1 (Hc1 & Hq1 & Ht1) Hi1. rewrite (proj2 (Z.eqb_neq _ _) Hb). cbn [negb]. wp_step. rewrite <-held_junk.
    apply (wp_out_err bno w (ie_now e) (ie_bulk e) (junk parts) s1 O); [done|done|..].
    - intros n Hn. destruct (ci_held _ _ _ Hi1 n) as [Hd Hnt]; [rewrite fmap_app; apply elem_of_app; by left|].
      apply (ci_dom _ _ _ Hi1) in Hd. rewrite !elem_of_app, Hq1 in Hd. destruct Hd as [?|[Hx|?]]; [done| |done].
      exfalso. rewrite held_junk in Hn. apply list_elem_of_fmap_1 in Hn as (p & -> & Hp). by apply (Hcl p).
    - intros s2 Hc2 Hi2 Ht2 Hq2. wp_step. apply HQ; [|done]. split; [by eapply cache_only_trans|]. split; congruence. }
  wp_step. destruct w.
  - apply (wp_bulk_source s (opens SL_READ parts ++ O) (req_start bno (mq_offset mq))); [done|done|done|..].
    + intros p Hp. by apply (open_slab s O SL_READ parts p), read_not_blind.
    + intros d Hd. apply Hgo; [split; [apply cache_only_refl|done]|]. by apply (opens_junk s SL_READ).
  - wp_step. apply (wp_bulk_sink (mq_offset mq) (mq_size mq) (ie_data e) SL_WRITE (io_file s) parts s O 0); try done.
    intros s1 Hq1 Hi1 _ _. wp_step. by apply Hgo.
Qed.

Lemma wp_end_read mq e s O (Q : io_result → ion → Prop) :
  cinv bno s (opens SL_READ (io_parts (mq_offset mq) (mq_size mq)) ++ O) → req_ok (mq_offset mq) (mq_size mq) → ie_bulk e = 0 →
  (∀ r s' q, cache_only (io_with_raq s q) s' → cinv bno s' O → io_crcthr s' = io_crcthr s →
     (∀ j, j ∈ io_crcq s' ↔ j ∈ io_crcq s) →
     ir_rc r = 0 → ir_mprc r = 0 →
     (∀ i, 0 ≤ i < mq_size mq → ir_data r i = io_file s (req_start bno (mq_offset mq) + i)) → Q r s') →
  wp (ric_end bno mq SL_READ e) Q s.
Proof.
  intros Hi Hr Hb HQ. unfold ric_end. cbv zeta. destruct (io_parts_ok bno _ _ Hr) as (Hok & Hnd & Hlen & Hct). set (parts := io_parts _ _) in *.
  assert (Hsl : ∀ p, p ∈ parts → ∃ v, io_slvrs s !! p.1.1 = Some v ∧ slab_file bno (io_file s) p.1.1 (slvr_slab v)).
  { intros p Hp. by apply (open_slab s O SL_READ parts p), read_not_blind. }
  wp_step. apply (wp_bulk_source s (opens SL_READ parts ++ O) (req_start bno (mq_offset mq))); [done..|]. intros d Hd. rewrite Hb. cbn [Z.eqb negb].
  assert (Hgo : ∀ q, wp (_ ← ric_out SL_READ (ie_now e) 0 (nums parts); mret {| ir_rc := 0; ir_mprc := 0; ir_data := d |}) Q (io_with_raq s q)).
  { intros q. wp_step. rewrite <-(held_opens SL_READ parts).
    apply (wp_out_ok bno SL_READ (ie_now e) (opens SL_READ parts) (io_with_raq s q) O).
    - destruct Hi as [? ? Hsv ? ? ? ? ? ? ?]. split; try done. intros n v Hv. destruct (Hsv n v Hv) as [? ? ? ? ? ? ? ? ?]. by split.
    - intros x v Hx Hv. apply list_elem_of_fmap_1 in Hx as (p & -> & Hp). simpl in *. destruct (Hsl p Hp) as (v' & Hv' & Hs). by simplify_eq.
    - intros s' Hc Hi' Ht Hm Hq. wp_step. apply (HQ _ s' q); try done.
      + intros j. rewrite Hq. simpl. split; [|tauto]. intros [?|[_ ?]]; done.
      + intros i Hi1. simpl. rewrite Hd, Hlen. destruct (Z.leb_spec 0 i), (Z.ltb_spec i (0 + mq_size mq)); simpl; lia || done. }
  wp_step. wp_step. unfold readahead_enqueue. destruct (_ >=? _).
  - wp_step. wp_step. specialize (Hgo (io_raq s)). by destruct s.
  - wp_step. wp_step. apply Hgo.
Qed.

Lemma wp_end_write mq e s O (Q : io_result → ion → Prop) :
  cinv bno s (opens SL_WRITE (io_parts (mq_offset mq) (mq_size mq)) ++ O) → req_ok (mq_offset mq) (mq_size mq) → 0 ≤ bno → ie_bulk e = 0 →
  (∀ p, p ∈ io_parts (mq_offset mq) (mq_size mq) → ie_write e p.1.1 = wrlen p) →
  (∀ r s' f n, (∀ x, f x = written (mq_offset mq) (mq_size mq) (io_file s) (ie_data e) x) → n = Z.max (io_fsize s) (req_start bno (mq_offset mq) + mq_size mq) →
     cache_only (io_with_file s f n) s' → cinv bno s' O → io_crcthr s' = io_crcthr s →
     (∀ j, j ∈ io_crcq s' ↔ j ∈ io_crcq s ∨ j ∈ nums (io_parts (mq_offset mq) (mq_size mq))) →
     ir_rc r = 0 → ir_mprc r = 0 → Q r s') →
  wp (ric_end bno mq SL_WRITE e) Q s.
Proof.
  intros Hi Hr Hbno Hb Hw HQ. unfold ric_end. cbv zeta. destruct (io_parts_ok bno _ _ Hr) as (Hok & Hnd & Hlen & Hct). set (parts := io_parts _ _) in *.
  set (off := mq_offset mq) in *. set (size := mq_size mq) in *. wp_step. wp_step.
  apply (wp_bulk_sink off size (ie_data e) SL_WRITE (io_file s) parts s O 0); try done. intros s1 (Hc1 & Hq1 & Ht1) Hi1 Ho1 Hp1. wp_step.
  destruct (cache_only_file _ _ Hc1) as [Hf1 Hn1]. rewrite Hb. cbn [Z.eqb negb]. wp_step.
  apply (wp_write_sliver off size (ie_data e)); try done; [apply Hi1|by rewrite Hf1|]. rewrite Hf1, Hn1. intros f Hf. set (n := Z.max _ _).
  assert (Hi2 : cinv bno (io_with_file s1 f n) (junk parts ++ O)).
  { apply cinv_file; [done|..].
    - intros i Hge. rewrite Hf. unfold written, overlay. unfold n in Hge. rewrite (proj2 (Z.ltb_ge i _)) by lia. rewrite andb_false_r. apply (ci_zero _ _ _ Hi). lia.
    - unfold n. pose proof (ci_size _ _ _ Hi). lia.
    - intros k v Hv. destruct (decide (k ∈ nums parts)) as [(p & -> & Hp)%list_elem_of_fmap_1|Hk].
      + left. exists (None, p). split; [apply elem_of_app; left; by apply (list_elem_of_fmap_2 (λ p, (None, p)))|]. split; [done|by left].
      + right. intros i Hi'. rewrite Hf, Hf1. unfold written, overlay.
        destruct (decide (req_start bno off ≤ slvr_2_fileoff bno k 0 + i < req_start bno off + size)) as [Hx|Hx].
        * apply (in_part bno off size k i Hr Hi') in Hx as (p & Hp & <- & _). destruct Hk. by apply (list_elem_of_fmap_2 (λ p : part, p.1.1)).
        * destruct (Z.leb_spec (req_start bno off) (slvr_2_fileoff bno k 0 + i)), (Z.ltb_spec (slvr_2_fileoff bno k 0 + i) (req_start bno off + size)); simpl; lia || done. }
  wp_step. rewrite <-(held_junk parts). apply (wp_out_ok bno SL_WRITE (ie_now e) (junk parts) (io_with_file s1 f n) O); [done|..].
  - intros x v Hx Hv. apply list_elem_of_fmap_1 in Hx as (p & -> & Hp). simpl in *. destruct (Hp1 p Hp) as (v' & Hv' & Hs). simplify_eq.
    intros i Hi'. rewrite Hf. by apply Hs.
  - intros s' Hc Hi' Ht Hm Hq. wp_step. apply (HQ _ s' f n); try done.
    + destruct Hc1 as (m & l & qq & t & ->). destruct Hc as (m' & l' & q' & t' & ->). by exists m', l', q', t'.
    + rewrite Ht. done.
    + intros j. rewrite Hq, held_junk. simpl. rewrite Hq1. tauto.
Qed.
End req.
