(* ===== verification/SlvrThreads.v ===== *)
(** * The threads of the sliver cache

    Readahead, the reaper of slabs and the threads that compute CRCs, against
    the invariant of the cache; and the invariant of the CRC reports. *)
From S2P Require Import Prelude ReplBits ReplWalk BmapMds ReplReq Replay CrcWrite Slvr SlvrIO SlvrInv SlvrReq.

Section threads.
Context `{PflErr} `{PflCrc} `{PflNet}.
Context (bno : Z).
Implicit Types (s : ion) (O : list openio) (p : part).

(** ** Readahead *)
Lemma wp_readahead_loop sys (ns : list Z) : ∀ s O (Q : unit → ion → Prop),
  cinv bno s O → NoDup ns → (∀ n, n ∈ ns → 0 ≤ n < SLASH_SLVRS_PER_BMAP ∧ (n ∉ held O) ∧ n ∉ io_crcthr s) →
  (∀ s', cache_only s s' → cinv bno s' O → io_crcthr s' = io_crcthr s → (∀ j, j ∈ io_crcq s' ↔ j ∈ io_crcq s) → Q tt s') →
  wp (readahead_loop bno sys ns) Q s.
Proof.
  induction ns as [|n ns IH]; intros s O Q Hi Hnd Hns HQ.
  { simpl. wp_step. apply HQ; try done. apply cache_only_refl. }
  apply NoDup_cons in Hnd as [Hn Hnd]. destruct (Hns n) as (Hr & Hh & Ht); [by left|]. cbn [readahead_loop].
  set (p := (n, 0, SLASH_SLVR_SIZE) : part).
  apply (wp_assoc (slvr_lookup n) (λ _, slvr_io_prep bno n 0 SLASH_SLVR_SIZE SL_READ SLVRF_READAHEAD (sys n))). wp_step.
  apply (wp_take bno s O SL_READ p); [done|split; [done|]; simpl; unfold SLASH_SLVR_SIZE; lia|done|done|].
  intros s1 rv lru Hc1 Hq1 Ht1 Hl1 Hcase Hres.
  apply (wp_assoc (slvr_io_done n rv) (λ _, slvr_rio_done n)). wp_step.
  assert (Hnext : ∀ s2, cache_only s1 s2 → cinv bno s2 O → io_crcthr s2 = io_crcthr s1 → (∀ j, j ∈ io_crcq s2 ↔ j ∈ io_crcq s1) →
    wp (readahead_loop bno sys ns) Q s2).
  { intros s2 Hc2 Hi2 Ht2 Hq2. apply (IH s2 O); [done|done|..].
    - intros k Hk. destruct (Hns k) as (? & ? & ?); [by right|]. rewrite Ht2, Ht1. done.
    - intros s3 Hc3 Hi3 Ht3 Hq3. apply HQ; [|done|congruence|].
      + eapply cache_only_trans; [done|]. by eapply cache_only_trans.
      + intros j. by rewrite Hq3, Hq2, Hq1. }
  destruct Hres as [[-> Hi1]|(-> & Hneg & Hl & Hi1)].
  - destruct (open_slab bno s1 O SL_READ [p] p Hi1 ltac:(by left) (read_not_blind p)) as (v & Hv & Hs).
    apply (wp_release_ok bno s1 O (Some SL_READ) p SL_READ 0 false v); [done..|]. intros s2 Hc2 Hi2 Ht2 _ Hq2 _. apply Hnext; try done.
    intros j. rewrite Hq2. split; [|tauto]. intros [?|(_ & ? & _)]; done.
  - apply (wp_release_err bno s1 O None p SL_READ 0 false (sys n)); [done|by rewrite Hl1|lia|]. intros s2 Hc2 Hi2 Ht2 Hq2 _ _.
    apply Hnext; try done. by rewrite Hq2.
Qed.

(** ** The reaper *)

(** Slivers marked to be freed. *)
Definition mark (a : list Z) (m : gmap Z slvr) : gmap Z slvr :=
  map_imap (λ n v, Some (if decide (n ∈ a) then sv_with_flags v (setf (slvr_flags v) SLVRF_FREEING) else v)) m.
Lemma mark_lookup a m n : mark a m !! n = (λ v, if decide (n ∈ a) then sv_with_flags v (setf (slvr_flags v) SLVRF_FREEING) else v) <$> m !! n.
Proof. unfold mark. rewrite map_lookup_imap. by destruct (m !! n). Qed.
Lemma mark_nil m : mark [] m = m.
Proof. apply map_eq. intros n. rewrite mark_lookup. destruct (m !! n) as [v|]; [|done]. cbn [fmap option_fmap option_map]. f_equal. Qed.
Lemma mark_snoc a m n v : m !! n = Some v → n ∉ a →
  <[n := sv_with_flags v (setf (slvr_flags v) SLVRF_FREEING)]> (mark a m) = mark (a ++ [n]) m.
Proof.
  intros Hv Hn. apply map_eq. intros k. rewrite mark_lookup. destruct (decide (k = n)) as [->|Hne].
  - rewrite lookup_insert_eq, Hv. simpl. rewrite decide_True; [done|]. apply elem_of_app. right. by left.
  - rewrite lookup_insert_ne, mark_lookup by done. destruct (m !! k); simpl; [|done]. f_equal.
    assert (k ∈ a ++ [n] ↔ k ∈ a) as Hk by (rewrite elem_of_app, list_elem_of_singleton; tauto). by rewrite (decide_ext _ _ _ _ Hk).
Qed.
Lemma mark_delete a m n : delete n (mark (n :: a) m) = mark a (delete n m).
Proof.
  apply map_eq. intros k. rewrite mark_lookup. destruct (decide (k = n)) as [->|Hne].
  - by rewrite !lookup_delete_eq.
  - rewrite !lookup_delete_ne, mark_lookup by done. destruct (m !! k); simpl; [|done]. f_equal.
    assert (k ∈ n :: a ↔ k ∈ a) as Hk by (rewrite elem_of_cons; tauto). by rewrite (decide_ext _ _ _ _ Hk).
Qed.

Lemma wp_reap_scan nw s O (l : list Z) : ∀ a (Q : list Z → ion → Prop),
  cinv bno s O → NoDup (a ++ l) → (∀ n, n ∈ a → n ∈ io_lru s ∧ n ∉ held O) → (∀ n, n ∈ l → n ∈ io_lru s) →
  (∀ a', NoDup a' → (∀ n, n ∈ a' → n ∈ io_lru s ∧ n ∉ held O) → Q a' (io_with_slvrs s (mark a' (io_slvrs s)))) →
  wp (reap_scan nw l a) Q (io_with_slvrs s (mark a (io_slvrs s))).
Proof.
  induction l as [|n l IH]; intros a Q Hi Hnd Ha Hl HQ.
  { simpl. wp_step. rewrite app_nil_r in Hnd. by apply HQ. }
  destruct (cinv_lru_dom bno s O n Hi) as [v Hv]; [apply Hl; by left|]. pose proof (ci_sv _ _ _ Hi n v Hv) as Hok.
  pose proof Hnd as Hnd2. apply NoDup_app in Hnd2 as (Hnda & Hdis & Hndl).
  assert (Hna : n ∉ a) by (intros Hna; apply (Hdis n Hna); by left).
  assert (Hv' : mark a (io_slvrs s) !! n = Some v) by (rewrite mark_lookup, Hv; simpl; by rewrite decide_False).
  cbn [reap_scan]. wp_step. eapply wp_getSv; [done|]. rewrite (so_freeing _ _ _ _ _ Hok), orb_false_r, (so_ref _ _ _ _ _ Hok).
  assert (Hskip : NoDup (a ++ l)) by (apply NoDup_app; split; [done|]; split; [intros k Hk Hk'; apply (Hdis k Hk); by right|by apply NoDup_cons in Hndl as [_ ?]]).
  destruct (bool_decide (n ∈ held O)) eqn:Hh; cbn [Z.eqb negb].
  { apply IH; try done. intros k Hk. apply Hl. by right. }
  apply bool_decide_eq_false in Hh. wp_step. unfold setSv. wp_step. io_norm. rewrite (mark_snoc _ _ _ _ Hv Hna).
  assert (Ha' : ∀ k, k ∈ a ++ [n] → k ∈ io_lru s ∧ k ∉ held O).
  { intros k [Hk|Hk]%elem_of_app; [by apply Ha|]. apply list_elem_of_singleton in Hk as ->. split; [apply Hl; by left|done]. }
  assert (Hnd3 : NoDup ((a ++ [n]) ++ l)) by (by rewrite <-app_assoc).
  destruct (_ >=? _).
  - wp_step. apply HQ; [|done]. by apply NoDup_app in Hnd3 as (? & _).
  - apply IH; try done. intros k Hk. apply Hl. by right.
Qed.

Lemma wp_remove_each (a : list Z) : ∀ s O (Q : unit → ion → Prop),
  cinv bno s O → NoDup a → (∀ n, n ∈ a → n ∈ io_lru s ∧ n ∉ held O) →
  (∀ s', quiet s s' → cinv bno s' O → Q tt s') →
  wp (remove_each a) Q (io_with_slvrs s (mark a (io_slvrs s))).
Proof.
  induction a as [|n a IH]; intros s O Q Hi Hnd Ha HQ.
  { simpl. wp_step. rewrite mark_nil. apply HQ; [split; [cache_tac|done]|]. by destruct s. }
  apply NoDup_cons in Hnd as [Hn Hnd]. destruct (Ha n) as [Hl Hh]; [by left|]. destruct (cinv_lru_dom bno s O n Hi Hl) as [v Hv].
  cbn [remove_each]. wp_step. unfold slvr_remove. wp_step. eapply wp_getSv.
  { cbn [io_slvrs io_with_slvrs]. rewrite mark_lookup, Hv. simpl. by rewrite decide_True by (by left). }
  wp_step. wp_step. cbn [slvr_flags sv_with_flags]. rewrite hasf_setf, (so_lru _ _ _ _ _ (ci_sv _ _ _ Hi n v Hv)), bool_decide_eq_true_2 by done.
  cbn [orb]. wp_step. wp_step. apply wp_list_del; [done|]. wp_step. wp_step. io_norm. rewrite mark_delete.
  set (s1 := io_with_lists (io_with_slvrs s (delete n (io_slvrs s))) (filter (λ j, j ≠ n) (io_lru s)) (io_crcq s) (io_crcthr s)).
  change (wp (remove_each a) Q (io_with_slvrs s1 (mark a (io_slvrs s1)))). apply (IH s1 O).
  - apply (cinv_drop bno s O O n); try done. rewrite filter_all; [done|]. intros j Hj ->. done.
  - done.
  - intros k Hk. destruct (Ha k) as [? ?]; [by right|]. split; [|done]. simpl. apply list_elem_of_filter. split; [|done]. by intros ->.
  - intros s2 (Hc2 & Hq2 & Ht2) Hi2. apply HQ; [|done]. split; [|split; [done|done]]. eapply cache_only_trans; [|done]. unfold s1. cache_tac.
Qed.

Lemma wp_reap nw s O (Q : Z → ion → Prop) :
  cinv bno s O → (∀ s' n, quiet s s' → cinv bno s' O → Q n s') → wp (slvr_buffer_reap nw) Q s.
Proof.
  intros Hi HQ. unfold slvr_buffer_reap. wp_step. wp_step. wp_step.
  pose proof (wp_reap_scan nw s O (io_lru s) []) as Hscan. rewrite mark_nil in Hscan.
  replace (io_with_slvrs s (io_slvrs s)) with s in Hscan by (by destruct s).
  pose proof (ci_nodup _ _ _ Hi) as Hnd. apply NoDup_app in Hnd as (Hnd & _).
  apply Hscan; [done|done|by intros n Hn%elem_of_nil|done|]. intros a Ha Hin. wp_step. apply (wp_remove_each a s O); try done.
  intros s' Hq Hi'. wp_step. by apply HQ.
Qed.

(** ** The choice of slivers for their CRC *)
Lemma pick_one s O n v : cinv bno s O → io_slvrs s !! n = Some v → n ∈ io_crcq s → n ∉ held O →
  cinv bno (io_with_lists (io_with_slvrs s (<[n := sv_with_flags v (setf (slvr_flags v) SLVRF_FAULTING)]> (io_slvrs s)))
              (io_lru s) (filter (λ k, k ≠ n) (io_crcq s)) (io_crcthr s ++ [n])) O.
Proof.
  intros Hi Hv Hq Hh. pose proof (ci_sv _ _ _ Hi n v Hv) as Hok. pose proof (ci_nodup _ _ _ Hi) as Hnd.
  apply NoDup_app in Hnd as (Hl & Hlx & Hnd). apply NoDup_app in Hnd as (Hndq & Hqt & Hndt).
  assert (Hnl : n ∉ io_lru s) by (intros Hx; apply (Hlx n Hx), elem_of_app; by left).
  assert (Hp : filter (λ k, k ≠ n) (io_crcq s) ++ io_crcthr s ++ [n] ≡ₚ io_crcq s ++ io_crcthr s).
  { assert (Hp : n :: filter (λ k, k ≠ n) (io_crcq s) ≡ₚ io_crcq s).
    { apply NoDup_Permutation; [|done|].
      - constructor; [|by apply NoDup_filter]. rewrite list_elem_of_filter. tauto.
      - intros j. rewrite elem_of_cons, list_elem_of_filter. destruct (decide (j = n)) as [->|]; tauto. }
    rewrite <-Hp at 2. rewrite (assoc (++)), (comm (++) _ [n]). done. }
  apply (cinv_change bno s O O n (Some _)); try done.
  - rewrite Hp. apply Hi.
  - intros j. rewrite Hp. destruct (decide (j = n)) as [->|]; [|tauto].
    assert (is_Some (io_slvrs s !! n)) as Hin%(ci_dom _ _ _ Hi) by (by rewrite Hv). split; [|done]. left. split; [done|by eexists].
  - intros j Hj. split; [done|]. rewrite elem_of_app, list_elem_of_singleton. tauto.
  - apply Hi.
  - apply Hi.
  - intros v' [= <-]. destruct Hok as [? HL HD ? ? Hr Hf Hrd Hs]. split; cbn [slvr_flags sv_with_flags slvr_refcnt slvr_slab io_with_lists io_lru io_crcthr io_file]; try done; flags_goal; try done.
    rewrite (bool_decide_eq_true_2 (n ∈ io_crcthr s ++ [n])); [by rewrite orb_true_r|]. apply elem_of_app. right. by left.
Qed.

(** What the choice leaves alone: nothing leaves the queue but to a thread. *)
Definition picked (s s' : ion) : Prop :=
  cache_only s s' ∧ io_lru s' = io_lru s ∧ (∀ j, j ∈ io_crcq s' ++ io_crcthr s' ↔ j ∈ io_crcq s ++ io_crcthr s).
Lemma picked_refl s : picked s s.
Proof. split; [apply cache_only_refl|done]. Qed.
Lemma picked_trans s s' s'' : picked s s' → picked s' s'' → picked s s''.
Proof. intros (Hc & Hl & Hm) (Hc' & Hl' & Hm'). split; [by eapply cache_only_trans|]. split; [congruence|]. intros j. by rewrite Hm'. Qed.

Lemma wp_crcq_scan expire (l : list Z) : ∀ s O ss (Q : list Z → ion → Prop),
  cinv bno s O → NoDup l → (∀ n, n ∈ l → n ∈ io_crcq s) →
  (∀ s' ss', picked s s' → cinv bno s' O → (length (io_crcq s') ≤ length (io_crcq s))%nat →
     (∀ n v, head l = Some n → n ∉ held O → io_slvrs s !! n = Some v → slvr_ts v < expire → (length (io_crcq s') < length (io_crcq s))%nat) → Q ss' s') →
  wp (crcq_scan expire l ss) Q s.
Proof.
  induction l as [|n l IH]; intros s O ss Q Hi Hnd Hq HQ.
  { simpl. wp_step. apply HQ; try done. apply picked_refl. }
  apply NoDup_cons in Hnd as [Hn Hnd]. assert (Hnq : n ∈ io_crcq s) by (apply Hq; by left).
  destruct (proj2 (ci_dom _ _ _ Hi n)) as [v Hv]; [rewrite !elem_of_app; tauto|]. pose proof (ci_sv _ _ _ Hi n v Hv) as Hok.
  cbn [crcq_scan]. wp_step. eapply wp_getSv; [done|]. rewrite (so_freeing _ _ _ _ _ Hok), orb_false_r, (so_ref _ _ _ _ _ Hok).
  assert (Hskip : ∀ ss', (n ∈ held O ∨ ¬ slvr_ts v < expire) → wp (crcq_scan expire l ss') Q s).
  { intros ss' Hwhy. apply (IH s O); [done|done|intros k Hk; apply Hq; by right|]. intros s' ss1 Hp Hi' Hlen _. apply HQ; try done.
    intros n' v' [= <-] Hh Hv' Hts. rewrite Hv in Hv'. injection Hv' as <-. by destruct Hwhy. }
  destruct (bool_decide (n ∈ held O)) eqn:Hh; cbn [Z.eqb negb].
  { apply Hskip. left. by apply bool_decide_eq_true in Hh. }
  apply bool_decide_eq_false in Hh. wp_step. destruct (Z.gtb_spec expire (slvr_ts v)) as [Hts|Hts].
  - wp_step. unfold setSv. wp_step. wp_step. wp_step. wp_step. apply wp_list_del; [done|]. wp_step. wp_step. wp_step. io_norm.
    pose proof (pick_one s O n v Hi Hv Hnq Hh) as Hi1.
    match type of Hi1 with cinv _ ?x _ => set (s1 := x) in * end.
    assert (Hp1 : picked s s1).
    { split; [unfold s1; cache_tac|]. split; [done|]. intros j. simpl. rewrite !elem_of_app, list_elem_of_filter, list_elem_of_singleton.
      destruct (decide (j = n)) as [->|]; tauto. }
    assert (Hlt : (length (io_crcq s1) < length (io_crcq s))%nat).
    { simpl. apply (length_filter_lt (λ k, k ≠ n) (io_crcq s) n); [done|tauto]. }
    destruct (_ >=? _).
    + wp_step. apply HQ; try done; lia.
    + apply (IH s1 O); [done|done|..].
      * intros k Hk. simpl. apply list_elem_of_filter. split; [|apply Hq; by right]. by intros ->.
      * intros s' ss' Hp' Hi' Hlen _. apply HQ; [by eapply picked_trans|done|lia|]. intros. lia.
  - wp_step. destruct (_ >=? _); [wp_step; apply HQ; try done; [apply picked_refl|]|apply Hskip; right; lia].
    intros n' v' [= <-] _ Hv' Hts'. rewrite Hv in Hv'. injection Hv' as <-. lia.
Qed.

(** ** The CRC of a sliver *)

(** The bytes of the file in a sliver. *)
Definition fslab (f : data) (n : Z) : data := λ i, f (slvr_2_fileoff bno n 0 + i).

(** What [slislvrthr_proc] does before the report: the sliver is clean again,
    and its CRC is that of the file. *)
Lemma wp_proc `{!PflCrcLaws} now n s O (Q : unit → ion → Prop) :
  cinv bno s O → n ∈ io_crcthr s →
  (∀ s', cinv bno s' O → io_crcq s' = io_crcq s → io_crcthr s' = filter (λ k, k ≠ n) (io_crcthr s) →
     io_file s' = io_file s → io_fsize s' = io_fsize s → io_bcr s' = io_bcr s → io_bcrs s' = io_bcrs s → io_nbcr s' = io_nbcr s →
     io_ready s' = io_ready s → io_crud s' = io_crud s → io_rpcs s' = io_rpcs s → io_raq s' = io_raq s →
     wp (bcr_add now n (crc64_slvr (fslab (io_file s) n))) Q s') →
  wp (slislvrthr_proc now n) Q s.
Proof.
  intros Hi Ht HQ. destruct (proj2 (ci_dom _ _ _ Hi n)) as [v Hv]; [rewrite !elem_of_app; tauto|]. pose proof (ci_sv _ _ _ Hi n v Hv) as Hok.
  pose proof (ci_nodup _ _ _ Hi) as Hnd. pose proof Hnd as Hnd2. rewrite (assoc (++)) in Hnd2. apply NoDup_app in Hnd2 as (Hndlq & Hdis & Hndt).
  assert (Hnlq : n ∉ io_lru s ++ io_crcq s) by (intros Hx; by apply (Hdis n Hx)).
  assert (Hnl : n ∉ io_lru s) by (intros Hx; apply Hnlq, elem_of_app; by left).
  assert (Hh : n ∉ held O) by (intros Hx; by apply (ci_held _ _ _ Hi n)).
  destruct (cinv_states bno s O n Hi) as [[st Hst] [c0 Hc0]]; [apply Hok|].
  assert (HL : hasf (slvr_flags v) SLVRF_LRU = false) by (rewrite (so_lru _ _ _ _ _ Hok); by apply bool_decide_eq_false_2).
  assert (HD : hasf (slvr_flags v) SLVRF_CRCDIRTY = true) by (rewrite (so_dirty _ _ _ _ _ Hok), bool_decide_eq_false_2; done).
  assert (HR : hasf (slvr_flags v) SLVRF_DATARDY = true) by (apply (so_ready _ _ _ _ _ Hok); by left).
  assert (Hs : slab_file bno (io_file s) n (slvr_slab v)).
  { destruct (so_slab _ _ _ _ _ Hok) as [(e & He & Hnum & _)|]; [|done]. destruct Hh. by eapply held_part. }
  unfold slislvrthr_proc. wp_step. eapply wp_getSv; [done|]. wp_step. rewrite HL. wp_step; [done|]. wp_step. wp_step; [done|]. wp_step. wp_step; [done|].
  do 3 wp_step. wp_step; [by apply bool_decide_eq_true_2|]. wp_step. unfold slvr_do_crc. wp_step. eapply wp_getSv; [done|]. wp_step.
  rewrite HD, orb_true_r. wp_step; [done|]. wp_step. wp_step. rewrite Hst, Hc0. cbn [negb]. wp_step. wp_step. wp_step. wp_step. cbn [fst].
  wp_step; [done|]. wp_step. wp_step. wp_step. rewrite (so_err _ _ _ _ _ Hok). cbn [andb]. wp_step. unfold setSv. wp_step. wp_step. cbn [snd].
  assert (crc64_slvr (slvr_slab v) = crc64_slvr (fslab (io_file s) n)) as -> by (by apply crc64_proper).
  apply HQ; try done.
  set (st' := <[_ := _]> (io_crcstates s)). set (cs' := <[_ := _]> (io_crcs s)).
  set (v' := sv_with_flags v _).
  assert (Hlen : length st' = Z.to_nat SLASH_CRCS_PER_BMAP ∧ length cs' = Z.to_nat SLASH_CRCS_PER_BMAP).
  { unfold st', cs'. rewrite !length_insert. apply Hi. }
  assert (Hi0 : cinv bno (io_with_crc s st' cs') O).
  { destruct Hi as [? ? Hsv ? ? ? ? ? ? ?]. split; try done. intros k w Hw. destruct (Hsv k w Hw) as [? ? ? ? ? ? ? ? ?]. by split. }
  assert (Hpm : (io_lru s ++ [n]) ++ io_crcq s ++ filter (λ k, k ≠ n) (io_crcthr s) ≡ₚ io_lru s ++ io_crcq s ++ io_crcthr s).
  { assert (Hp : n :: filter (λ k, k ≠ n) (io_crcthr s) ≡ₚ io_crcthr s).
    { apply NoDup_Permutation; [|done|].
      - constructor; [|by apply NoDup_filter]. rewrite list_elem_of_filter. tauto.
      - intros j. rewrite elem_of_cons, list_elem_of_filter. destruct (decide (j = n)) as [->|]; tauto. }
    rewrite <-Hp at 2. rewrite <-!app_assoc. simpl. by rewrite <-!Permutation_middle. }
  change (cinv bno (io_with_lists (io_with_slvrs (io_with_crc s st' cs') (<[n := v']> (io_slvrs s))) (io_lru s ++ [n]) (io_crcq s) (filter (λ k, k ≠ n) (io_crcthr s))) O).
  apply (cinv_change bno (io_with_crc s st' cs') O O n (Some v')); try done.
  - rewrite Hpm. apply Hi.
  - intros j. rewrite Hpm. cbn. destruct (decide (j = n)) as [->|]; [|tauto].
    assert (is_Some (io_slvrs s !! n)) as Hin%(ci_dom _ _ _ Hi) by (by rewrite Hv). split; [|done]. left. split; [done|by eexists].
  - intros j Hj. cbn. rewrite list_elem_of_filter, elem_of_app, list_elem_of_singleton. tauto.
  - apply Hi.
  - apply Hi.
  - intros ? [= <-]. assert (Hin : n ∈ io_lru s ++ [n]) by (apply elem_of_app; right; by left).
    assert (Hnt : n ∉ filter (λ k, k ≠ n) (io_crcthr s)) by (rewrite list_elem_of_filter; tauto).
    destruct Hok as [? ? ? ? ? Hr Hf Hrd ?]. split; cbn [slvr_flags sv_with_flags slvr_refcnt slvr_slab io_with_lists io_with_crc io_lru io_crcthr io_file v'];
      try done; rewrite ?(bool_decide_eq_true_2 _ Hin); flags_goal; try done.
    rewrite !bool_decide_eq_false_2; done.
Qed.
End threads.

(** ** CRC reports *)

(** A report as it is sent. *)
Definition report_ok (l : list srt_bmap_crcwire) : Prop :=
  0 < Z.of_nat (length l) ≤ MAX_BMAP_INODE_PAIRS ∧ NoDup (slot <$> l) ∧ Forall (λ c, 0 ≤ slot c < SLASH_CRCS_PER_BMAP) l.

(** The slot of a sliver in a report has its latest CRC. *)
Lemma last_crc_snoc l c i : last_crc (l ++ [c]) i = if slot c =? i then Some (crc c) else last_crc l i.
Proof. apply last_crc_app. Qed.
Lemma last_crc_app_l l k i : last_crc (l ++ k) i = match last_crc k i with Some c => Some c | None => last_crc l i end.
Proof.
  induction k as [|c k IH] using rev_ind; [by rewrite app_nil_r|]. rewrite (assoc (++)), !last_crc_snoc. by destruct (slot c =? i).
Qed.
Lemma last_crc_none l i : i ∉ slot <$> l → last_crc l i = None.
Proof.
  induction l as [|c l IH] using rev_ind; [done|]. rewrite last_crc_snoc, fmap_app, elem_of_app. simpl. rewrite list_elem_of_singleton.
  intros Hn. destruct (Z.eqb_spec (slot c) i) as [Heq|]; [destruct Hn; right; by rewrite Heq|]. apply IH. tauto.
Qed.
Lemma last_crc_cons c l i : NoDup (slot <$> c :: l) → last_crc (c :: l) i = if slot c =? i then Some (crc c) else last_crc l i.
Proof.
  intros Hnd. apply NoDup_cons in Hnd as [Hn _]. change (c :: l) with ([c] ++ l). rewrite last_crc_app_l.
  assert (last_crc [c] i = if slot c =? i then Some (crc c) else None) as -> by (change [c] with ([] ++ [c]); by rewrite last_crc_snoc).
  destruct (Z.eqb_spec (slot c) i) as [<-|]; [|by destruct (last_crc l i)]. by rewrite last_crc_none.
Qed.

Lemma bcr_store_cons x l n c : bcr_store (x :: l) n c = if decide (slot x = n) then {| crc := c; slot := n |} :: l else x :: bcr_store l n c.
Proof. unfold bcr_store. simpl. case_decide; [done|]. destruct (list_find _ l) as [[j y]|]; done. Qed.
Lemma bcr_store_slots l n c : n ∈ slot <$> l → slot <$> bcr_store l n c = slot <$> l.
Proof.
  induction l as [|x l IH]; [by intros ?%elem_of_nil|]. rewrite bcr_store_cons. case_decide as Hx; [by subst|]. rewrite !fmap_cons.
  intros [->|Hn]%elem_of_cons; [done|]. by rewrite IH.
Qed.
Lemma bcr_store_new l n c : n ∉ slot <$> l → bcr_store l n c = l ++ [{| crc := c; slot := n |}].
Proof.
  induction l as [|x l IH]; [done|]. rewrite bcr_store_cons, fmap_cons, elem_of_cons. intros Hn. rewrite decide_False by (intros Hx; apply Hn; by left).
  simpl. rewrite IH; [done|]. tauto.
Qed.
Lemma bcr_store_last l n c i : NoDup (slot <$> l) → last_crc (bcr_store l n c) i = if n =? i then Some c else last_crc l i.
Proof.
  induction l as [|x l IH]; intros Hnd.
  { change (bcr_store [] n c) with ([] ++ [{| crc := c; slot := n |}]). by rewrite last_crc_snoc. }
  pose proof Hnd as Hnd'. rewrite fmap_cons in Hnd'. apply NoDup_cons in Hnd' as [Hx Hnd'].
  rewrite bcr_store_cons. case_decide as Heq.
  - subst n. rewrite !last_crc_cons by done. simpl. by destruct (slot x =? i).
  - assert (Hnd2 : NoDup (slot <$> x :: bcr_store l n c)).
    { rewrite fmap_cons. constructor.
      - destruct (decide (n ∈ slot <$> l)); [by rewrite bcr_store_slots|]. rewrite bcr_store_new by done. rewrite fmap_app, elem_of_app. simpl.
        rewrite list_elem_of_singleton. intros [?|?]; done.
      - destruct (decide (n ∈ slot <$> l)) as [|Hn]; [by rewrite bcr_store_slots|]. rewrite bcr_store_new by done. rewrite fmap_app. simpl.
        apply NoDup_app. split; [done|]. split; [|apply NoDup_singleton]. intros k Hk ->%list_elem_of_singleton. done. }
    rewrite !last_crc_cons by done. rewrite IH by done. destruct (Z.eqb_spec (slot x) i) as [Hs|], (Z.eqb_spec n i); try done. congruence.
Qed.
Lemma bcr_store_ok l n c : report_ok l → Z.of_nat (length l) < MAX_BMAP_INODE_PAIRS → 0 ≤ n < SLASH_CRCS_PER_BMAP → report_ok (bcr_store l n c).
Proof.
  intros (Hl & Hnd & Hf) Hlt Hn. destruct (decide (n ∈ slot <$> l)) as [Hin|Hin].
  - pose proof (bcr_store_slots l n c Hin) as Hs.
    assert (length (bcr_store l n c) = length l) as Hlen by (rewrite <-(length_fmap slot), Hs; apply length_fmap).
    split; [by rewrite Hlen|]. split; [by rewrite Hs|]. apply (proj1 (Forall_fmap slot (λ k, 0 ≤ k < SLASH_CRCS_PER_BMAP) _)). rewrite Hs. by apply Forall_fmap.
  - rewrite bcr_store_new by done. split; [rewrite length_app; simpl; lia|]. split.
    + rewrite fmap_app. apply NoDup_app. split; [done|]. split; [|apply NoDup_singleton]. intros k Hk ->%list_elem_of_singleton. done.
    + apply Forall_app. split; [done|]. by constructor.
Qed.


(** ** The order of the reports *)

(** The reports that wait, in the order of the list. *)
Definition pending (m : gmap Z bcrcupd) (ready : list Z) : list (list srt_bmap_crcwire) :=
  omap (λ b, bcr_crcs <$> m !! b) ready.
Lemma pending_app m l k : pending m (l ++ k) = pending m l ++ pending m k.
Proof. apply omap_app. Qed.
Lemma pending_ext m m' l : (∀ b, b ∈ l → m !! b = m' !! b) → pending m l = pending m' l.
Proof.
  induction l as [|b l IH]; intros Heq; [done|]. unfold pending in *. cbn [omap list_omap]. rewrite (Heq b) by (by left).
  rewrite IH; [done|]. intros k Hk. apply Heq. by right.
Qed.
Lemma pending_snoc m l b x : m !! b = Some x → pending m (l ++ [b]) = pending m l ++ [bcr_crcs x].
Proof. intros Hx. rewrite pending_app. f_equal. unfold pending. cbn [omap list_omap]. by rewrite Hx. Qed.

(** The invariant of the reports: [R] are those the metadata server got, in
    their order; for the slivers in [K] the last CRC, of those it got and
    those under way, is that of the file. *)
Section reports.
Context `{PflErr} `{PflCrc} `{PflNet}.
Context (bno : Z).
Implicit Types (s : ion) (K : Z → Prop) (R : list (list srt_bmap_crcwire)).

Record rinv s R K : Prop := {
  ri_nodup : NoDup (io_ready s);
  ri_fresh : ∀ b, b ∈ io_ready s → b < io_nbcr s;
  ri_dom : ∀ b, is_Some (io_bcrs s !! b) ↔ b ∈ io_ready s;
  ri_ok : ∀ b x, io_bcrs s !! b = Some x → report_ok (bcr_crcs x);
  ri_cur : ∀ b, io_bcr s = Some b → last (io_ready s) = Some b ∧
             ∀ x, io_bcrs s !! b = Some x → Z.of_nat (length (bcr_crcs x)) < MAX_BMAP_INODE_PAIRS;
  ri_fly : (io_crud s = false ∧ io_rpcs s = []) ∨
           (∃ b l, io_crud s = true ∧ io_ready s = b :: l ∧ io_rpcs s = [[b]] ∧ io_bcr s ≠ Some b);
  ri_sent : Forall report_ok R;
  ri_last : ∀ n, K n → last_crc (concat R ++ concat (pending (io_bcrs s) (io_ready s))) n = Some (crc64_slvr (fslab bno (io_file s) n));
}.

(** The fields the invariant is about. *)
Definition rep_fields s : option Z * gmap Z bcrcupd * Z * list Z * bool * list (list Z) :=
  (io_bcr s, io_bcrs s, io_nbcr s, io_ready s, io_crud s, io_rpcs s).
Lemma rinv_same `{!PflCrcLaws} s s' R K K' : rinv s R K → rep_fields s' = rep_fields s →
  (∀ n, K' n → K n ∧ slab_eq (fslab bno (io_file s') n) (fslab bno (io_file s) n)) → rinv s' R K'.
Proof.
  intros [? ? ? ? ? ? ? Hl] Heq HK. unfold rep_fields in Heq. injection Heq as Hb Hbs Hn Hr Hc Hp.
  split; rewrite ?Hb, ?Hbs, ?Hn, ?Hr, ?Hc, ?Hp; try done. intros n Hn'. destruct (HK n Hn') as [HKn Hs]. rewrite Hl by done. f_equal. symmetry. by apply crc64_proper.
Qed.
Lemma cache_only_fields s s' : cache_only s s' → rep_fields s' = rep_fields s.
Proof. by intros (? & ? & ? & ? & ->). Qed.

Lemma wp_getBcr b x (Q : bcrcupd → ion → Prop) s : io_bcrs s !! b = Some x → Q x s → wp (getBcr b) Q s.
Proof. intros Hx HQ. unfold wp, getBcr. by rewrite Hx. Qed.

Lemma bcr_new_ok n c : 0 ≤ n < SLASH_CRCS_PER_BMAP → report_ok [{| crc := c; slot := n |}].
Proof. intros Hn. split; [simpl; unfold MAX_BMAP_INODE_PAIRS; lia|]. split; [apply NoDup_singleton|]. by constructor. Qed.

(** A CRC that is added to the report under way is the last one. *)
Lemma wp_bcr_add now n s R K (Q : unit → ion → Prop) :
  rinv s R K → 0 ≤ n < SLASH_CRCS_PER_BMAP →
  (∀ cur m nb ready, rinv (io_with_bcrs s cur m nb ready (io_crud s) (io_rpcs s)) R (λ k, k = n ∨ K k) →
     Q tt (io_with_bcrs s cur m nb ready (io_crud s) (io_rpcs s))) →
  wp (bcr_add now n (crc64_slvr (fslab bno (io_file s) n))) Q s.
Proof.
  intros [Hnd Hfr Hdom Hok Hcur Hfly Hsent Hlast] Hn HQ. unfold bcr_add. wp_step. wp_step.
  set (c := crc64_slvr _) in *. destruct (io_bcr s) as [b|] eqn:Hb.
  - destruct (Hcur b eq_refl) as [Hend Hlen]. apply last_Some in Hend as [l Hl].
    assert (Hbr : b ∈ io_ready s) by (rewrite Hl; apply elem_of_app; right; by left).
    destruct (proj2 (Hdom b) Hbr) as [x Hx]. specialize (Hlen x Hx). pose proof (Hok b x Hx) as Hrep.
    assert (Hbl : b ∉ l) by (rewrite Hl in Hnd; apply NoDup_app in Hnd as (_ & Hd & _); intros Hin; apply (Hd b Hin); by left).
    wp_step. eapply wp_getBcr; [done|]. wp_step. wp_step; [by apply Z.ltb_lt|]. wp_step.
    set (cs := bcr_store (bcr_crcs x) n c). apply HQ.
    assert (Hcs : report_ok cs) by (by apply bcr_store_ok).
    split; cbn [io_with_bcrs io_bcr io_bcrs io_nbcr io_ready io_crud io_rpcs io_file]; try done.
    + intros k. destruct (decide (k = b)) as [->|]; [|by rewrite lookup_insert_ne]. rewrite lookup_insert_eq. split; [done|by eexists].
    + intros k y. destruct (decide (k = b)) as [->|]; [|rewrite lookup_insert_ne by done; apply Hok]. rewrite lookup_insert_eq. by intros [= <-].
    + intros k. destruct (Z.eqb_spec (Z.of_nat (length cs)) MAX_BMAP_INODE_PAIRS) as [|Hne]; [done|]. intros [= <-].
      split; [rewrite Hl; by rewrite last_snoc|]. intros y. rewrite lookup_insert_eq. intros [= <-]. simpl. destruct Hcs as [? _]. lia.
    + destruct Hfly as [?|(k & l' & ? & ? & ? & Hk)]; [by left|right]. exists k, l'. split; [done|]. split; [done|]. split; [done|]. destruct (_ =? _); [done|]. congruence.
    + assert (Hold : pending (io_bcrs s) (io_ready s) = pending (io_bcrs s) l ++ [bcr_crcs x]) by (rewrite Hl; by apply pending_snoc).
      rewrite Hold in Hlast. rewrite Hl, (pending_snoc _ l b _ (lookup_insert_eq _ _ _)).
      rewrite (pending_ext _ (io_bcrs s) l) by (intros k Hk; apply lookup_insert_ne; by intros ->).
      intros k Hk. rewrite concat_app in *. simpl in *. rewrite app_nil_r in *. rewrite (assoc (++)), last_crc_app_l. unfold cs. rewrite bcr_store_last by apply Hrep.
      destruct (Z.eqb_spec n k) as [<-|Hne]; [done|]. destruct Hk as [->|Hk]; [done|]. specialize (Hlast k Hk). by rewrite (assoc (++)), last_crc_app_l in Hlast.
  - unfold bcr_ready_add. wp_step. apply HQ. set (x := {| bcr_age := now; bcr_crcs := _ |}). set (b := io_nbcr s).
    assert (Hbr : b ∉ io_ready s) by (intros Hin%Hfr; unfold b in Hin; lia).
    split; cbn [io_with_bcrs io_bcr io_bcrs io_nbcr io_ready io_crud io_rpcs io_file]; try done.
    + apply NoDup_app. split; [done|]. split; [|apply NoDup_singleton]. intros k Hk ->%list_elem_of_singleton. done.
    + intros k [Hk%Hfr| ->%list_elem_of_singleton]%elem_of_app; unfold b in *; lia.
    + intros k. rewrite elem_of_app, list_elem_of_singleton. destruct (decide (k = b)) as [->|].
      * rewrite lookup_insert_eq. split; [by right|by eexists].
      * rewrite lookup_insert_ne, Hdom by done. tauto.
    + intros k y. destruct (decide (k = b)) as [->|]; [|rewrite lookup_insert_ne by done; apply Hok]. rewrite lookup_insert_eq. intros [= <-]. by apply bcr_new_ok.
    + intros k [= <-]. split; [by rewrite last_snoc|]. intros y. rewrite lookup_insert_eq. intros [= <-]. done.
    + destruct Hfly as [?|(k & l' & ? & Hrd & ? & Hk)]; [by left|right]. exists k, (l' ++ [b]). split; [done|]. split; [by rewrite Hrd|]. split; [done|].
      intros [= <-]. apply Hbr. rewrite Hrd. by left.
    + rewrite (pending_snoc _ _ b _ (lookup_insert_eq _ _ _)).
      rewrite (pending_ext _ (io_bcrs s) (io_ready s)) by (intros k Hk; apply lookup_insert_ne; by intros ->).
      intros k Hk. rewrite concat_app. simpl. rewrite (assoc (++)), last_crc_app_l. change [{| crc := c; slot := n |}] with ([] ++ [{| crc := c; slot := n |}]).
      rewrite last_crc_snoc. cbn [slot crc]. destruct (Z.eqb_spec n k) as [<-|Hne]; [done|]. destruct Hk as [->|Hk]; [done|]. by apply Hlast.
Qed.

(** ** Sending *)

(** The oldest report is due: it is full, or old enough. *)
Definition oldest_due (now : Z) s : Prop :=
  ∀ b l x, io_ready s = b :: l → io_bcrs s !! b = Some x →
    Z.of_nat (length (bcr_crcs x)) = MAX_BMAP_INODE_PAIRS ∨ BCR_BATCH_AGE ≤ now - bcr_age x.

(** The reports of a bmap with one under way are skipped. *)
Lemma wp_crud_skip now (l : list Z) bcrs s (Q : list Z → ion → Prop) :
  io_crud s = true → (∀ b, b ∈ l → ∃ x, io_bcrs s !! b = Some x ∧ 0 < Z.of_nat (length (bcr_crcs x))) → Q bcrs s → wp (crud_scan now l bcrs) Q s.
Proof.
  intros Hc. induction l as [|b l IH]; intros Hin HQ; cbn [crud_scan]; [by wp_step|]. destruct (Hin b) as (x & Hx & Hlen); [by left|].
  wp_step. eapply wp_getBcr; [done|]. wp_step. wp_step; [apply Z.gtb_lt; lia|]. wp_step. wp_step. rewrite Hc. apply IH; [|done]. intros k Hk. apply Hin. by right.
Qed.
Lemma ready_crcs s R K b : rinv s R K → b ∈ io_ready s → ∃ x, io_bcrs s !! b = Some x ∧ 0 < Z.of_nat (length (bcr_crcs x)).
Proof. intros Hi Hb. destruct (proj2 (ri_dom _ _ _ Hi b) Hb) as [x Hx]. exists x. split; [done|]. destruct (ri_ok _ _ _ Hi b x Hx) as [? _]. lia. Qed.
Lemma rinv_unsent s R K cur crud rpcs : rinv s R K → (cur = io_bcr s ∨ cur = None) →
  ((crud = false ∧ rpcs = []) ∨ (∃ b l, crud = true ∧ io_ready s = b :: l ∧ rpcs = [[b]] ∧ cur ≠ Some b)) →
  rinv (io_with_bcrs s cur (io_bcrs s) (io_nbcr s) (io_ready s) crud rpcs) R K.
Proof. intros [? ? ? ? Hcur ? ? ?] Hc Hf. split; try done. cbn. destruct Hc as [-> | ->]; [done|]. by intros. Qed.

Lemma wp_crud_round `{!PflNetLaws} now rc s R K (Q : list Z → ion → Prop) :
  rinv s R K → oldest_due now s →
  (∀ bcrs cur crud rpcs, rinv (io_with_bcrs s cur (io_bcrs s) (io_nbcr s) (io_ready s) crud rpcs) R K →
     (∀ b l, io_crud s = false → io_ready s = b :: l → rc = 0 → rpcs = [[b]] ∧ bcrs = [b]) →
     Q bcrs (io_with_bcrs s cur (io_bcrs s) (io_nbcr s) (io_ready s) crud rpcs)) →
  wp (slicrudthr_round now rc) Q s.
Proof.
  intros Hi Hdue HQ. unfold slicrudthr_round. wp_step. wp_step. wp_step. destruct (io_crud s) eqn:Hc.
  { apply wp_crud_skip; [done|intros b Hb; by eapply ready_crcs|]. wp_step. replace s with (io_with_bcrs s (io_bcr s) (io_bcrs s) (io_nbcr s) (io_ready s) (io_crud s) (io_rpcs s)) by (by destruct s).
    apply HQ; [|done]. by destruct s. }
  assert (Hp : io_rpcs s = []) by (destruct (ri_fly _ _ _ Hi) as [[_ ?]|(? & ? & ? & _)]; congruence).
  destruct (io_ready s) as [|b l] eqn:Hr.
  { cbn [crud_scan]. do 2 wp_step. rewrite <-Hr in *. replace s with (io_with_bcrs s (io_bcr s) (io_bcrs s) (io_nbcr s) (io_ready s) (io_crud s) (io_rpcs s)) by (by destruct s).
    apply HQ; [by destruct s|]. intros. congruence. }
  destruct (proj2 (ri_dom _ _ _ Hi b)) as [x Hx]; [rewrite Hr; by left|]. destruct (ri_ok _ _ _ Hi b x Hx) as [Hlen _].
  cbn [crud_scan]. wp_step. eapply wp_getBcr; [done|]. wp_step. wp_step; [apply Z.gtb_lt; lia|]. wp_step. wp_step. rewrite Hc.
  assert (((Z.of_nat (length (bcr_crcs x)) =? MAX_BMAP_INODE_PAIRS) || (now - bcr_age x >=? BCR_BATCH_AGE)) = true) as ->.
  { destruct (Hdue b l x Hr Hx) as [Hd|Hd]; [apply Z.eqb_eq in Hd as ->; done|]. rewrite Z.geb_leb, (proj2 (Z.leb_le _ _)) by lia. apply orb_true_r. }
  wp_step. wp_step. wp_step. wp_step. cbn [app length Z.of_nat Pos.of_succ_nat]. rewrite ?Hr. change (1 =? MAX_BMAP_NCRC_UPDATES) with false. cbv iota.
  assert (Hi1 : rinv (io_with_bcrs s None (io_bcrs s) (io_nbcr s) (io_ready s) true [[b]]) R K).
  { apply rinv_unsent; [done|by right|]. right. by exists b, l. }
  pose proof (rinv_unsent _ _ _ None false [] Hi ltac:(by right) ltac:(by left)) as Hi0. rewrite Hr in Hi0, Hi1.
  apply wp_crud_skip; [done|intros j Hj; apply (ready_crcs s R K); [done|]; rewrite Hr; by right|].
  wp_step. unfold slvr_worker_crcup_genrq. destruct (Z.eqb_spec rc 0) as [->|Hrc]; cbn [negb].
  - wp_step. cbn [crcup_len]. wp_step. eapply wp_getBcr; [done|]. do 4 wp_step. wp_step.
    { apply Z.leb_le. rewrite MTU_slvr. unfold SIZEOF_CRCUP, SIZEOF_CRCWIRE, SLASH_SLVR_SIZE, MAX_BMAP_INODE_PAIRS in *. lia. }
    do 3 wp_step. cbn [Z.eqb negb whenM]. do 3 wp_step. cbn [io_rpcs io_with_bcrs]. rewrite Hp. apply HQ; [done|]. intros ? ? _ [= <- <-] _. done.
  - wp_step. rewrite (proj2 (Z.eqb_neq _ _) Hrc). cbn [negb whenM]. do 3 wp_step. rewrite Hp. by apply HQ.
Qed.

(** The callback. *)
Lemma wp_bcrcupd_cb status a s R K (Q : unit → ion → Prop) :
  rinv s R K → a ∈ io_rpcs s →
  (∀ b l x, io_ready s = b :: l → io_bcrs s !! b = Some x → a = [b] →
     (status ≠ 0 → rinv (io_with_bcrs s (io_bcr s) (io_bcrs s) (io_nbcr s) (io_ready s) false []) R K →
        Q tt (io_with_bcrs s (io_bcr s) (io_bcrs s) (io_nbcr s) (io_ready s) false [])) ∧
     (status = 0 → rinv (io_with_bcrs s (io_bcr s) (delete b (io_bcrs s)) (io_nbcr s) l false []) (R ++ [bcr_crcs x]) K →
        Q tt (io_with_bcrs s (io_bcr s) (delete b (io_bcrs s)) (io_nbcr s) l false []))) →
  wp (sli_rmi_bcrcupd_cb status a) Q s.
Proof.
  intros Hi Ha HQ. pose proof Hi as [Hnd Hfr Hdom Hok Hcur Hfly Hsent Hlast].
  destruct Hfly as [[_ Hp]|(b & l & Hc & Hr & Hp & Hb)]; rewrite Hp in Ha; [by apply elem_of_nil in Ha|]. apply list_elem_of_singleton in Ha as ->.
  destruct (proj2 (Hdom b)) as [x Hx]; [rewrite Hr; by left|]. destruct (HQ b l x Hr Hx eq_refl) as [HQ1 HQ0].
  unfold sli_rmi_bcrcupd_cb. do 3 wp_step. wp_step. rewrite Hp. rewrite filter_cons_False by tauto. rewrite filter_nil. cbn [bcrcupd_done]. do 3 wp_step. wp_step; [done|].
  do 2 wp_step. rewrite Hr in Hnd. apply NoDup_cons in Hnd as [Hbl Hnd]. wp_step. destruct (Z.eqb_spec status 0) as [Hst|Hst]; cbn [negb].
  - unfold bcr_ready_remove. do 3 wp_step. apply wp_list_del; [cbn; rewrite Hr; by left|]. wp_step. wp_step. cbn [io_ready io_with_bcrs]. rewrite Hr.
    rewrite filter_cons_False by tauto. rewrite filter_all by (intros j Hj ->; done). apply HQ0; [done|].
    split; cbn [io_with_bcrs io_bcr io_bcrs io_nbcr io_ready io_crud io_rpcs io_file]; try done.
    + intros k Hk. apply Hfr. rewrite Hr. by right.
    + intros k. destruct (decide (k = b)) as [->|]; [rewrite lookup_delete_eq; split; [by intros []|done]|]. rewrite lookup_delete_ne, Hdom, Hr, elem_of_cons by done. tauto.
    + intros k y Hy. apply lookup_delete_Some in Hy as [_ Hy]. by eapply Hok.
    + intros k Hk. destruct (Hcur k Hk) as [Hlst Hlen]. split.
      * rewrite Hr in Hlst. destruct l as [|j l]; [|done]. simpl in Hlst. congruence.
      * intros y Hy. apply lookup_delete_Some in Hy as [_ Hy]. by apply Hlen.
    + by left.
    + apply Forall_app. split; [done|]. constructor; [by eapply Hok|done].
    + intros n Hn. rewrite <-(Hlast n Hn), Hr, concat_app, <-(assoc (++)). f_equal. f_equal. simpl. rewrite app_nil_r.
      rewrite (pending_ext _ (io_bcrs s) l) by (intros k Hk; apply lookup_delete_ne; by intros ->). unfold pending at 2. cbn [omap list_omap]. by rewrite Hx.
  - wp_step. wp_step. apply HQ1; [done|]. apply rinv_unsent; [done|by left|by left].
Qed.
End reports.
