(* ===== verification/SlvrProps.v ===== *)
(** * What clients and the metadata server see of an I/O server

    Runs of requests and threads on one bmap, the plain file they implement,
    and the CRC reports they send. *)
From S2P Require Import Prelude ReplBits ReplWalk BmapMds ReplReq Replay CrcWrite Slvr SlvrIO SlvrInv SlvrReq SlvrThreads.

(** ** The specification: a file without a cache *)

(** What has been answered to clients: the data of a read, or a write. *)
Inductive io_event := ev_read (off size : Z) (d : data) | ev_write (off size : Z) (d : data).

Section spec.
Context (bno : Z).
Definition plain_step (f : data) (ev : io_event) : data :=
  match ev with ev_read _ _ _ => f | ev_write off size d => written bno off size f d end.
Definition plain_file (f : data) (T : list io_event) : data := foldl plain_step f T.
(** Every read got what the writes before it left. *)
Fixpoint plain_ok (f : data) (T : list io_event) : Prop :=
  match T with
  | [] => True
  | ev :: T =>
      match ev with ev_read off size d => ∀ i, 0 ≤ i < size → d i = f (req_start bno off + i) | ev_write _ _ _ => True end ∧
      plain_ok (plain_step f ev) T
  end.
Lemma plain_ok_snoc f T ev : plain_ok f T →
  match ev with ev_read off size d => ∀ i, 0 ≤ i < size → d i = plain_file f T (req_start bno off + i) | ev_write _ _ _ => True end →
  plain_ok f (T ++ [ev]).
Proof. revert f. induction T as [|x T IH]; intros f HT Hev; simpl in *; [done|]. destruct HT as [Hx HT]. split; [done|]. by apply IH. Qed.
Lemma plain_file_snoc f T ev : plain_file f (T ++ [ev]) = plain_step (plain_file f T) ev.
Proof. unfold plain_file. by rewrite foldl_app. Qed.
Lemma written_ext off size f g d x : f x = g x → written bno off size f d x = written bno off size g d x.
Proof. intros Hx. unfold written, overlay. by destruct (_ && _). Qed.
End spec.

(** The slivers that were written. *)
Definition touched (T : list io_event) : list Z :=
  concat ((λ ev, match ev with ev_read _ _ _ => [] | ev_write off size _ => nums (io_parts off size) end) <$> T).
Lemma touched_snoc T ev n : n ∈ touched (T ++ [ev]) ↔
  n ∈ touched T ∨ match ev with ev_read _ _ _ => False | ev_write off size _ => n ∈ nums (io_parts off size) end.
Proof.
  unfold touched. rewrite fmap_app, concat_app, elem_of_app. simpl. rewrite app_nil_r. destruct ev; [|done]. rewrite elem_of_nil. done.
Qed.

(** ** Runs *)
Section runs.
Context `{PflErr} `{PflCrc} `{PflNet}.
Context (bno : Z).
Implicit Types (s : ion) (O : list openio) (T : list io_event) (R : list (list srt_bmap_crcwire)).

(** A bmap that was just loaded. *)
Definition fresh s : Prop :=
  io_slvrs s = ∅ ∧ io_lru s = [] ∧ io_crcq s = [] ∧ io_crcthr s = [] ∧
  io_bcr s = None ∧ io_bcrs s = ∅ ∧ io_ready s = [] ∧ io_crud s = false ∧ io_rpcs s = [] ∧ io_raq s = [] ∧
  io_back s = true ∧ 0 ≤ io_fsize s ∧ (∀ i, io_fsize s ≤ i → io_file s i = 0) ∧
  length (io_crcstates s) = Z.to_nat SLASH_CRCS_PER_BMAP ∧ length (io_crcs s) = Z.to_nat SLASH_CRCS_PER_BMAP.

Abbreviation parts_of mq := (io_parts (mq_offset mq) (mq_size mq)).
(** What the system below does in a run: lookups succeed, and a write of the
    file writes all. *)
Definition good_env (mq : srm_io_req) (e : io_env) : Prop :=
  ie_get e = 0 ∧ ie_bmap e = 0 ∧ ∀ p : part, p ∈ parts_of mq → ie_write e p.1.1 = wrlen p.

(** [ion_run f0 s O T R]: from the file [f0], requests and threads led to [s],
    where [O] are the slivers in use, [T] what was answered, and [R] the
    reports the metadata server got.  A request starts when its slivers are
    not in use, as it waits for them otherwise. *)
Inductive ion_run (f0 : data) : ion → list openio → list io_event → list (list srt_bmap_crcwire) → Prop :=
  | run_fresh s : fresh s → io_file s = f0 → ion_run f0 s [] [] []
  | run_begin s O T R mq w e s' :
      ion_run f0 s O T R → req_ok (mq_offset mq) (mq_size mq) → free_parts s O (parts_of mq) → good_env mq e →
      (∀ p : part, p ∈ parts_of mq → 0 ≤ ie_read e p.1.1) →
      ric_begin bno mq w e s = Done (0, s') → ion_run f0 s' (opens w (parts_of mq) ++ O) T R
  | run_begin_failed s O T R mq w e s' rc :
      ion_run f0 s O T R → req_ok (mq_offset mq) (mq_size mq) → free_parts s O (parts_of mq) → good_env mq e →
      (∀ p : part, p ∈ parts_of mq → p.1.1 ∉ io_crcq s) →
      ric_begin bno mq w e s = Done (rc, s') → rc ≠ 0 → ion_run f0 s' O T R
  | run_read s O O' T R mq e s' r :
      ion_run f0 s O T R → req_ok (mq_offset mq) (mq_size mq) → O ≡ₚ opens SL_READ (parts_of mq) ++ O' → ie_bulk e = 0 →
      ric_end bno mq SL_READ e s = Done (r, s') →
      ion_run f0 s' O' (T ++ [ev_read (mq_offset mq) (mq_size mq) (ir_data r)]) R
  | run_write s O O' T R mq e s' r :
      ion_run f0 s O T R → req_ok (mq_offset mq) (mq_size mq) → O ≡ₚ opens SL_WRITE (parts_of mq) ++ O' → ie_bulk e = 0 → good_env mq e →
      ric_end bno mq SL_WRITE e s = Done (r, s') →
      ion_run f0 s' O' (T ++ [ev_write (mq_offset mq) (mq_size mq) (ie_data e)]) R
  | run_bulk_failed s O O' T R mq w e s' r :
      ion_run f0 s O T R → req_ok (mq_offset mq) (mq_size mq) → O ≡ₚ opens w (parts_of mq) ++ O' → ie_bulk e ≠ 0 →
      (∀ p : part, p ∈ parts_of mq → p.1.1 ∉ io_crcq s) →
      ric_end bno mq w e s = Done (r, s') → ion_run f0 s' O' T R
  | run_reap s O T R nwaiters n s' :
      ion_run f0 s O T R → slvr_buffer_reap nwaiters s = Done (n, s') → ion_run f0 s' O T R
  | run_readahead s O T R q qs get_rc sys s' :
      ion_run f0 s O T R → io_raq s = q :: qs → 0 ≤ rarq_off q → rarq_off q / SLASH_SLVR_SIZE + 3 < SLASH_SLVRS_PER_BMAP →
      (∀ k, 0 ≤ k ≤ 3 → (rarq_off q / SLASH_SLVR_SIZE + k ∉ held O) ∧ rarq_off q / SLASH_SLVR_SIZE + k ∉ io_crcthr s) →
      slirathr_round bno get_rc sys s = Done (tt, s') → ion_run f0 s' O T R
  | run_pick s O T R now ss s' :
      ion_run f0 s O T R → slislvrthr_pick now s = Done (ss, s') → ion_run f0 s' O T R
  | run_proc s O T R now n s' :
      ion_run f0 s O T R → n ∈ io_crcthr s → slislvrthr_proc now n s = Done (tt, s') → ion_run f0 s' O T R
  | run_crud s O T R now rc bcrs s' :
      ion_run f0 s O T R → oldest_due now s → slicrudthr_round now rc s = Done (bcrs, s') → ion_run f0 s' O T R
  | run_cb s O T R status a s' :
      ion_run f0 s O T R → a ∈ io_rpcs s → sli_rmi_bcrcupd_cb status a s = Done (tt, s') →
      ion_run f0 s' O T (if status =? 0 then R ++ pending (io_bcrs s) a else R).

(** ** The invariant of a run *)
Definition settled s T (n : Z) : Prop := n ∈ touched T ∧ n ∉ io_crcq s ++ io_crcthr s.
Record run_inv (f0 : data) s O T R : Prop := {
  rv_cache : cinv bno s O;
  rv_reports : rinv bno s R (settled s T);
  rv_file : ∀ x, io_file s x = plain_file bno f0 T x;
  rv_trace : plain_ok bno f0 T;
}.

Lemma fslab_refl f n : slab_eq (fslab bno f n) (fslab bno f n).
Proof. by intros i _. Qed.

(** A step that changes neither the file nor the reports. *)
Lemma run_inv_cache `{!PflCrcLaws} f0 s s' O O' T R :
  run_inv f0 s O T R → cinv bno s' O' → rep_fields s' = rep_fields s → io_file s' = io_file s →
  (∀ n, n ∈ io_crcq s ++ io_crcthr s → n ∈ io_crcq s' ++ io_crcthr s') → run_inv f0 s' O' T R.
Proof.
  intros [_ Hr Hf Ht] Hc Hrep Hfile Hq. split; [done| |by rewrite Hfile|done].
  apply (rinv_same bno s s' R (settled s T)); [done|done|]. intros n [Hn Hnq]. rewrite Hfile. split; [|apply fslab_refl]. split; [done|]. intros Hx. by apply Hnq, Hq.
Qed.
Lemma run_inv_quiet `{!PflCrcLaws} f0 s s' O O' T R :
  run_inv f0 s O T R → cinv bno s' O' → quiet s s' → run_inv f0 s' O' T R.
Proof.
  intros Hi Hc (Hco & Hq & Ht). eapply run_inv_cache; [done|done|by apply cache_only_fields|apply cache_only_file; done|]. by rewrite Hq, Ht.
Qed.
Lemma run_inv_perm f0 s O O' T R : O ≡ₚ O' → run_inv f0 s O T R → run_inv f0 s O' T R.
Proof. intros Hp [Hc ? ? ?]. split; try done. by eapply cinv_perm. Qed.

Lemma fresh_inv s : fresh s → run_inv (io_file s) s [] [] [].
Proof.
  intros (Hsv & Hl & Hq & Ht & Hb & Hbs & Hr & Hc & Hp & _ & Hbk & Hsz & Hz & Hlen). split; [| |done|done].
  - split; rewrite ?Hsv, ?Hl, ?Hq, ?Ht; try done.
    + intros n. rewrite lookup_empty. simpl. rewrite elem_of_nil. split; [by intros []|done].
    + apply NoDup_nil_2.
    + apply NoDup_nil_2.
    + intros n Hn. by apply elem_of_nil in Hn.
  - split; rewrite ?Hb, ?Hbs, ?Hr, ?Hc, ?Hp; try done.
    + apply NoDup_nil_2.
    + intros b Hx. by apply elem_of_nil in Hx.
    + intros b. rewrite lookup_empty, elem_of_nil. split; [by intros []|done].
    + by left.
    + intros n [Hn _]. by apply elem_of_nil in Hn.
Qed.

(** A write leaves the other slivers as they were. *)
Lemma written_other off size f d n : req_ok off size → n ∉ nums (io_parts off size) → slab_eq (fslab bno (written bno off size f d) n) (fslab bno f n).
Proof.
  intros Hr Hn i Hi. unfold fslab, written, overlay.
  destruct (Z.leb_spec (req_start bno off) (slvr_2_fileoff bno n 0 + i)), (Z.ltb_spec (slvr_2_fileoff bno n 0 + i) (req_start bno off + size)); simpl; try done.
  destruct (proj1 (in_part bno off size n i Hr Hi)) as (p & Hp & <- & _); [lia|]. destruct Hn. by apply (list_elem_of_fmap_2 (λ p : part, p.1.1)).
Qed.

(** The end of a read or write as a step of the run. *)
Lemma step_read `{!PflCrcLaws} f0 s O O' T R mq e (Q : io_result → ion → Prop) :
  run_inv f0 s O T R → req_ok (mq_offset mq) (mq_size mq) → O ≡ₚ opens SL_READ (parts_of mq) ++ O' → ie_bulk e = 0 →
  (∀ r s', run_inv f0 s' O' (T ++ [ev_read (mq_offset mq) (mq_size mq) (ir_data r)]) R → ir_rc r = 0 → ir_mprc r = 0 → Q r s') →
  wp (ric_end bno mq SL_READ e) Q s.
Proof.
  intros Hi Hreq HO Hb HQ. pose proof (run_inv_perm _ _ _ _ _ _ HO Hi) as [Hc Hr Hf Ht].
  apply (wp_end_read bno mq e s O'); [done..|]. intros r s' q Hco Hc' Htr Hq Hrc Hmp Hd. apply HQ; [|done|done].
  destruct (cache_only_file _ _ Hco) as [Hfile _]. change (io_file (io_with_raq s q)) with (io_file s) in Hfile.
  split; [done|..].
  - apply (rinv_same bno s s' R (settled s T)); [done|by rewrite (cache_only_fields _ _ Hco)|]. intros n [Hn Hnq]. rewrite Hfile. split; [|apply fslab_refl].
    apply touched_snoc in Hn as [Hn|[]]. split; [done|]. intros Hx. apply Hnq. rewrite Htr. revert Hx. rewrite !elem_of_app, Hq. done.
  - intros x. rewrite plain_file_snoc, Hfile. apply Hf.
  - apply plain_ok_snoc; [done|]. intros i Hi'. rewrite Hd by done. apply Hf.
Qed.
Lemma step_write `{!PflCrcLaws} f0 s O O' T R mq e (Q : io_result → ion → Prop) :
  0 ≤ bno → run_inv f0 s O T R → req_ok (mq_offset mq) (mq_size mq) → O ≡ₚ opens SL_WRITE (parts_of mq) ++ O' → ie_bulk e = 0 → good_env mq e →
  (∀ r s', run_inv f0 s' O' (T ++ [ev_write (mq_offset mq) (mq_size mq) (ie_data e)]) R → ir_rc r = 0 → ir_mprc r = 0 → Q r s') →
  wp (ric_end bno mq SL_WRITE e) Q s.
Proof.
  intros Hbno Hi Hreq HO Hb (_ & _ & Hw) HQ. pose proof (run_inv_perm _ _ _ _ _ _ HO Hi) as [Hc Hr Hf Ht].
  apply (wp_end_write bno mq e s O'); [done..|]. intros r s' f n Hfx Hn Hco Hc' Htr Hq Hrc Hmp. apply HQ; [|done|done].
  destruct (cache_only_file _ _ Hco) as [Hfile _]. change (io_file (io_with_file s f n)) with f in Hfile.
  split; [done|..].
  - apply (rinv_same bno s s' R (settled s T)); [done|by rewrite (cache_only_fields _ _ Hco)|]. intros k [Hk Hnq]. rewrite Htr in Hnq. rewrite !elem_of_app, Hq in Hnq.
    apply touched_snoc in Hk as [Hk|Hk]; [|tauto]. split; [split; [done|rewrite elem_of_app; tauto]|]. rewrite Hfile.
    intros i Hi'. unfold fslab at 1. rewrite Hfx. apply (written_other (mq_offset mq) (mq_size mq) (io_file s) (ie_data e) k Hreq); [tauto|done].
  - intros x. rewrite plain_file_snoc, Hfile, Hfx. cbn [plain_step]. apply written_ext, Hf.
  - by apply plain_ok_snoc.
Qed.

Lemma step_begin `{!PflCrcLaws} f0 s O T R mq w e (Q : Z → ion → Prop) :
  run_inv f0 s O T R → req_ok (mq_offset mq) (mq_size mq) → free_parts s O (parts_of mq) → good_env mq e →
  ((∀ p : part, p ∈ parts_of mq → 0 ≤ ie_read e p.1.1) ∨ (∀ p : part, p ∈ parts_of mq → p.1.1 ∉ io_crcq s)) →
  (∀ s', run_inv f0 s' (opens w (parts_of mq) ++ O) T R → Q 0 s') →
  (∀ s' rc, run_inv f0 s' O T R → rc < 0 → (∃ p : part, p ∈ parts_of mq ∧ ie_read e p.1.1 = rc) → Q rc s') →
  wp (ric_begin bno mq w e) Q s.
Proof.
  intros Hi Hreq Hfree (Hg & Hb & _) Herr HQ HE. apply (wp_ric_begin bno mq w e s O); try done; [apply Hi|..].
  - intros s' Hq Hc. apply HQ. by eapply run_inv_quiet.
  - intros s' rc Hq Hc Hneg Hex. apply HE; [|done|done]. by eapply run_inv_quiet.
Qed.

(** A CRC thread is done with a sliver. *)
Lemma step_proc `{!PflCrcLaws} f0 s O T R now n (Q : unit → ion → Prop) :
  run_inv f0 s O T R → n ∈ io_crcthr s →
  (∀ s', run_inv f0 s' O T R → io_crcq s' = io_crcq s → io_crcthr s' = filter (λ k, k ≠ n) (io_crcthr s) → Q tt s') →
  wp (slislvrthr_proc now n) Q s.
Proof.
  intros Hi Hn HQ. pose proof Hi as [Hc Hr Hf Ht]. apply (wp_proc bno now n s O); [done|done|].
  intros s' Hc' Hq Hthr Hfile _ Hb Hbs Hnb Hrd Hcr Hrp _.
  destruct (proj2 (ci_dom _ _ _ Hc n)) as [v Hv]; [rewrite !elem_of_app; tauto|].
  rewrite <-Hfile. apply (wp_bcr_add bno now n s' R (settled s T)).
  - apply (rinv_same bno s s' R (settled s T)); [done| |].
    + unfold rep_fields. by rewrite Hb, Hbs, Hnb, Hrd, Hcr, Hrp.
    + intros k Hk. rewrite Hfile. split; [done|apply fslab_refl].
  - apply (so_num _ _ _ _ _ (ci_sv _ _ _ Hc n v Hv)).
  - intros cur m nb ready Hr'. apply HQ; [|done|done]. split; [|..|done].
    + destruct Hc' as [? ? Hsv ? ? ? ? ? ? ?]. split; try done. intros k w Hw. destruct (Hsv k w Hw) as [? ? ? ? ? ? ? ? ?]. by split.
    + eapply (rinv_same bno _ _ R); [exact Hr'|done|]. intros k [Hk Hkq]. split; [|apply fslab_refl].
      cbn in Hkq. rewrite Hq, Hthr in Hkq. rewrite elem_of_app, list_elem_of_filter in Hkq. destruct (decide (k = n)) as [->|Hne]; [by left|right].
      split; [done|]. rewrite elem_of_app. tauto.
    + intros x. cbn. rewrite Hfile. apply Hf.
Qed.

(** The other threads. *)
Lemma step_readahead `{!PflCrcLaws} f0 s O T R q qs get_rc sys (Q : unit → ion → Prop) :
  run_inv f0 s O T R → io_raq s = q :: qs → 0 ≤ rarq_off q → rarq_off q / SLASH_SLVR_SIZE + 3 < SLASH_SLVRS_PER_BMAP →
  (∀ k, 0 ≤ k ≤ 3 → (rarq_off q / SLASH_SLVR_SIZE + k ∉ held O) ∧ rarq_off q / SLASH_SLVR_SIZE + k ∉ io_crcthr s) →
  (∀ s', run_inv f0 s' O T R → Q tt s') → wp (slirathr_round bno get_rc sys) Q s.
Proof.
  intros Hi Hq Hoff Hmax Hfree HQ. unfold slirathr_round. do 2 wp_step. rewrite Hq. do 2 wp_step.
  assert (Hc : cinv bno (io_with_raq s qs) O).
  { destruct (rv_cache _ _ _ _ _ Hi) as [? ? Hsv ? ? ? ? ? ? ?]. split; try done. intros k w Hw. destruct (Hsv k w Hw) as [? ? ? ? ? ? ? ? ?]. by split. }
  assert (Hi1 : run_inv f0 (io_with_raq s qs) O T R) by (by apply (run_inv_cache f0 s _ O O)).
  destruct (negb _); [wp_step; by apply HQ|]. cbv zeta. set (n := rarq_off q / SLASH_SLVR_SIZE) in *.
  assert (Hn : 0 ≤ n) by (apply Z.div_pos; [done|unfold SLASH_SLVR_SIZE; lia]).
  apply (wp_readahead_loop bno sys _ (io_with_raq s qs) O); [done|..].
  - repeat (apply NoDup_cons; split; [rewrite ?elem_of_cons, elem_of_nil; lia|]). apply NoDup_nil_2.
  - intros k Hk. assert (∃ j, 0 ≤ j ≤ 3 ∧ k = n + j) as (j & Hj & ->).
    { rewrite !elem_of_cons, elem_of_nil in Hk. exists (k - n). lia. }
    destruct (Hfree j Hj) as [Hh Ht]. split; [lia|]. by split.
  - intros s' Hco Hc' Hthr Hcq. apply HQ. apply (run_inv_cache f0 (io_with_raq s qs) s' O O); [done|done|by apply cache_only_fields|by apply cache_only_file|].
    intros k. rewrite Hthr, !elem_of_app, Hcq. done.
Qed.
Lemma step_pick `{!PflCrcLaws} f0 s O T R now (Q : list Z → ion → Prop) :
  run_inv f0 s O T R →
  (∀ ss s', run_inv f0 s' O T R → (length (io_crcq s') ≤ length (io_crcq s))%nat →
     (∀ n v, head (io_crcq s) = Some n → n ∉ held O → io_slvrs s !! n = Some v → slvr_ts v < now - CRC_QUEUE_AGE →
        (length (io_crcq s') < length (io_crcq s))%nat) → Q ss s') →
  wp (slislvrthr_pick now) Q s.
Proof.
  intros Hi HQ. unfold slislvrthr_pick. do 2 wp_step. pose proof (ci_nodup _ _ _ (rv_cache _ _ _ _ _ Hi)) as Hnd.
  apply NoDup_app in Hnd as (_ & _ & Hnd). apply NoDup_app in Hnd as (Hnd & _).
  apply (wp_crcq_scan bno _ _ s O); [apply Hi|done|done|]. intros s' ss (Hco & Hl & Hm) Hc' Hlen Hlt. apply HQ; [|done|done].
  apply (run_inv_cache f0 s s' O O); [done|done|by apply cache_only_fields|by apply cache_only_file|]. intros k. by rewrite Hm.
Qed.
Lemma run_inv_bcrs `{!PflCrcLaws} f0 s O T R R' cur m nb ready crud rpcs :
  run_inv f0 s O T R → rinv bno (io_with_bcrs s cur m nb ready crud rpcs) R' (settled s T) →
  run_inv f0 (io_with_bcrs s cur m nb ready crud rpcs) O T R'.
Proof.
  intros [Hc _ Hf Ht] Hr. split; [|done|done|done]. destruct Hc as [? ? Hsv ? ? ? ? ? ? ?]. split; try done. intros k w Hw. destruct (Hsv k w Hw) as [? ? ? ? ? ? ? ? ?]. by split.
Qed.
Lemma step_crud `{!PflCrcLaws} `{!PflNetLaws} f0 s O T R now rc (Q : list Z → ion → Prop) :
  run_inv f0 s O T R → oldest_due now s →
  (∀ bcrs s', run_inv f0 s' O T R → io_ready s' = io_ready s → io_crcq s' = io_crcq s → io_crcthr s' = io_crcthr s →
     (∀ b l, io_crud s = false → io_ready s = b :: l → rc = 0 → io_rpcs s' = [[b]]) → Q bcrs s') →
  wp (slicrudthr_round now rc) Q s.
Proof.
  intros Hi Hdue HQ. apply (wp_crud_round bno now rc s R (settled s T)); [apply Hi|done|]. intros bcrs cur crud rpcs Hr Hlive.
  apply HQ; try done; [by apply (run_inv_bcrs f0 s O T R)|]. intros b l Hc Hl Hrc. by destruct (Hlive b l Hc Hl Hrc).
Qed.
Lemma step_cb `{!PflCrcLaws} f0 s O T R status a (Q : unit → ion → Prop) :
  run_inv f0 s O T R → a ∈ io_rpcs s →
  (∀ s', run_inv f0 s' O T (if status =? 0 then R ++ pending (io_bcrs s) a else R) → io_crcq s' = io_crcq s → io_crcthr s' = io_crcthr s →
     (status = 0 → (length (io_ready s') < length (io_ready s))%nat) → Q tt s') →
  wp (sli_rmi_bcrcupd_cb status a) Q s.
Proof.
  intros Hi Ha HQ. apply (wp_bcrcupd_cb bno status a s R (settled s T)); [apply Hi|done|]. intros b l x Hr Hx ->.
  assert (Hp : pending (io_bcrs s) [b] = [bcr_crcs x]) by (apply (pending_snoc _ [] b x Hx)). rewrite Hp in HQ.
  split; intros Hst Hrv.
  - rewrite (proj2 (Z.eqb_neq _ _) Hst) in HQ. apply HQ; try done. by apply (run_inv_bcrs f0 s O T R).
  - rewrite Hst in HQ. cbn [Z.eqb] in HQ. apply HQ; try done; [by apply (run_inv_bcrs f0 s O T R)|]. intros _. rewrite Hr. simpl. lia.
Qed.

Lemma ion_run_inv `{!PflCrcLaws} `{!PflNetLaws} f0 s O T R : 0 ≤ bno → ion_run f0 s O T R → run_inv f0 s O T R.
Proof.
  intros Hbno Hrun. induction Hrun as [s Hs <-| s O T R mq w e s' _ IH Hreq Hfree He Hrd Hdo| s O T R mq w e s' rc _ IH Hreq Hfree He Hcl Hdo Hrc
    | s O O' T R mq e s' r _ IH Hreq HO Hb Hdo | s O O' T R mq e s' r _ IH Hreq HO Hb He Hdo | s O O' T R mq w e s' r _ IH Hreq HO Hb Hcl Hdo
    | s O T R nw n s' _ IH Hdo | s O T R q qs g sys s' _ IH Hq Ho Hm Hf Hdo | s O T R now ss s' _ IH Hdo | s O T R now n s' _ IH Hn Hdo
    | s O T R now rc bcrs s' _ IH Hdue Hdo | s O T R status a s' _ IH Ha Hdo].
  - by apply fresh_inv.
  - apply (wp_done _ (λ rc s', rc = 0 → run_inv f0 s' _ T R) _ _ _ Hdo); [|done].
    apply (step_begin f0 s O T R mq w e); try done; [by left|]. intros s2 rc _ Hneg _ ->. lia.
  - apply (wp_done _ (λ rc s', rc ≠ 0 → run_inv f0 s' O T R) _ _ _ Hdo); [|done].
    apply (step_begin f0 s O T R mq w e); try done. by right.
  - apply (wp_done _ (λ r s', run_inv f0 s' O' (T ++ [ev_read (mq_offset mq) (mq_size mq) (ir_data r)]) R) _ _ _ Hdo). by apply (step_read f0 s O O' T R mq e).
  - apply (wp_done _ (λ r s', run_inv f0 s' O' (T ++ [ev_write (mq_offset mq) (mq_size mq) (ie_data e)]) R) _ _ _ Hdo). by apply (step_write f0 s O O' T R mq e).
  - apply (wp_done _ (λ r s', run_inv f0 s' O' T R) _ _ _ Hdo). pose proof (run_inv_perm _ _ _ _ _ _ HO IH) as Hi.
    apply (wp_end_bulk_err bno mq w e s O'); try done; [apply Hi|]. intros s2 Hq Hc. by eapply run_inv_quiet.
  - apply (wp_done _ (λ _ s', run_inv f0 s' O T R) _ _ _ Hdo). apply (wp_reap bno nw s O); [apply IH|]. intros s2 k Hq Hc. by eapply run_inv_quiet.
  - apply (wp_done _ (λ _ s', run_inv f0 s' O T R) _ _ _ Hdo). by apply (step_readahead f0 s O T R q qs).
  - apply (wp_done _ (λ _ s', run_inv f0 s' O T R) _ _ _ Hdo). by apply (step_pick f0 s O T R).
  - apply (wp_done _ (λ _ s', run_inv f0 s' O T R) _ _ _ Hdo). by apply (step_proc f0 s O T R).
  - apply (wp_done _ (λ _ s', run_inv f0 s' O T R) _ _ _ Hdo). by apply (step_crud f0 s O T R).
  - apply (wp_done _ (λ _ s', run_inv f0 s' O T (if status =? 0 then R ++ pending (io_bcrs s) a else R)) _ _ _ Hdo). by apply (step_cb f0 s O T R).
Qed.

(** ** The CRC threads catch up *)
Definition idle s : Prop := io_crcq s = [] ∧ io_crcthr s = [] ∧ io_ready s = [].

Section drain.
Context `{!PflCrcLaws} `{!PflNetLaws}.
Context (Hbno : 0 ≤ bno) (f0 : data).

Lemma drain_queue T R : ∀ s, ion_run f0 s [] T R → ∃ s', ion_run f0 s' [] T R ∧ io_crcq s' = [].
Proof.
  intros s. induction s as [s IH] using (induction_ltof1 _ (λ s, length (io_crcq s))). intros Hrun. pose proof (ion_run_inv _ _ _ _ _ Hbno Hrun) as Hi.
  destruct (io_crcq s) as [|n l] eqn:Hq; [by exists s|].
  destruct (proj2 (ci_dom _ _ _ (rv_cache _ _ _ _ _ Hi) n)) as [v Hv]; [rewrite Hq, !elem_of_app; right; left; by left|].
  set (now := slvr_ts v + CRC_QUEUE_AGE + 1).
  destruct (wp_run (slislvrthr_pick now) (λ _ s', (length (io_crcq s') < length (io_crcq s))%nat) s) as (ss & s1 & Hdo & Hlt).
  { apply (step_pick f0 s [] T R now); [done|]. intros ss s' _ _ Hlt. apply (Hlt n v); [by rewrite Hq|apply not_elem_of_nil|done|unfold now; lia]. }
  apply (IH s1 Hlt). by eapply run_pick.
Qed.
Lemma drain_threads T R : ∀ s, ion_run f0 s [] T R → io_crcq s = [] → ∃ s', ion_run f0 s' [] T R ∧ io_crcq s' = [] ∧ io_crcthr s' = [].
Proof.
  intros s. induction s as [s IH] using (induction_ltof1 _ (λ s, length (io_crcthr s))). intros Hrun Hq. pose proof (ion_run_inv _ _ _ _ _ Hbno Hrun) as Hi.
  destruct (io_crcthr s) as [|n l] eqn:Ht; [by exists s|]. assert (Hn : n ∈ io_crcthr s) by (rewrite Ht; by left).
  destruct (wp_run (slislvrthr_proc 0 n) (λ _ s', io_crcq s' = [] ∧ (length (io_crcthr s') < length (io_crcthr s))%nat) s) as ([] & s1 & Hdo & Hq1 & Hlt).
  { apply (step_proc f0 s [] T R 0 n); [done|done|]. intros s' _ Hq' Ht'. rewrite Hq', Ht'. split; [done|]. apply (length_filter_lt (λ k, k ≠ n) _ n); [done|tauto]. }
  apply (IH s1 Hlt); [|done]. by apply (run_proc f0 s [] T R 0 n).
Qed.
(** A report that is under way is answered. *)
Lemma drain_answer T R s b : ion_run f0 s [] T R → [b] ∈ io_rpcs s →
  ∃ s' R', ion_run f0 s' [] T R' ∧ R `prefix_of` R' ∧ io_crcq s' = io_crcq s ∧ io_crcthr s' = io_crcthr s ∧ (length (io_ready s') < length (io_ready s))%nat.
Proof.
  intros Hrun Hin. pose proof (ion_run_inv _ _ _ _ _ Hbno Hrun) as Hi.
  destruct (wp_run (sli_rmi_bcrcupd_cb 0 [b]) (λ _ s', io_crcq s' = io_crcq s ∧ io_crcthr s' = io_crcthr s ∧ (length (io_ready s') < length (io_ready s))%nat) s)
    as ([] & s1 & Hdo & Hlt).
  { apply (step_cb f0 s [] T R 0 [b]); [done|done|]. intros s' _ ? ? Hl. split_and!; try done. by apply Hl. }
  exists s1, (R ++ pending (io_bcrs s) [b]). split; [|split; [by eexists|done]]. by apply (run_cb f0 s [] T R 0 [b]).
Qed.
Lemma drain_reports T : ∀ s R, ion_run f0 s [] T R → io_crcq s = [] → io_crcthr s = [] →
  ∃ s' R', ion_run f0 s' [] T R' ∧ R `prefix_of` R' ∧ idle s'.
Proof.
  intros s. induction s as [s IH] using (induction_ltof1 _ (λ s, length (io_ready s))). intros R Hrun Hq Ht. pose proof (ion_run_inv _ _ _ _ _ Hbno Hrun) as Hi.
  pose proof (rv_reports _ _ _ _ _ Hi) as Hr. destruct (io_ready s) as [|b l] eqn:Hrd; [by exists s, R|].
  assert (∃ s1 b1, ion_run f0 s1 [] T R ∧ [b1] ∈ io_rpcs s1 ∧ io_crcq s1 = [] ∧ io_crcthr s1 = [] ∧ io_ready s1 = io_ready s) as (s1 & b1 & Hrun1 & Hin & Hq1 & Ht1 & Hr1).
  { destruct (ri_fly _ _ _ _ Hr) as [[Hc _]|(b' & l' & _ & _ & Hp & _)]; [|exists s, b'; rewrite Hp; split_and!; try done; by left].
    destruct (proj2 (ri_dom _ _ _ _ Hr b)) as [x Hx]; [rewrite Hrd; by left|].
    assert (Hdue : oldest_due (bcr_age x + BCR_BATCH_AGE) s).
    { intros b' l' x' Heq Hx'. rewrite Hrd in Heq. injection Heq as <- <-. rewrite Hx in Hx'. injection Hx' as <-. right. lia. }
    destruct (wp_run (slicrudthr_round (bcr_age x + BCR_BATCH_AGE) 0)
      (λ _ s', [b] ∈ io_rpcs s' ∧ io_crcq s' = [] ∧ io_crcthr s' = [] ∧ io_ready s' = io_ready s) s) as (bcrs & s1 & Hdo & Hs1).
    { apply (step_crud f0 s [] T R); [done|done|]. intros bcrs s' _ Hr' Hq' Ht' Hlive. rewrite (Hlive b l Hc Hrd eq_refl), Hq', Ht'. split_and!; try done. by left. }
    exists s1, b. split; [|done]. by eapply run_crud. }
  destruct (drain_answer T R s1 b1 Hrun1 Hin) as (s2 & R2 & Hrun2 & Hp2 & Hq2 & Ht2 & Hlt).
  destruct (IH s2) with (R := R2) as (s3 & R3 & ? & ? & ?); [unfold ltof; by rewrite <-Hr1|done|congruence|congruence|].
  exists s3, R3. split_and!; try done. by etransitivity.
Qed.
End drain.
End runs.

(** The slivers that were written are slivers of the bmap. *)
Lemma run_touched `{PflErr} `{PflCrc} `{PflNet} bno f0 s O T R n : ion_run bno f0 s O T R → n ∈ touched T → 0 ≤ n < SLASH_SLVRS_PER_BMAP.
Proof.
  intros Hrun. induction Hrun as [| | |s O O' T R mq e s' r _ IH _ _ _ _|s O O' T R mq e s' r _ IH Hreq _ _ _ _| | | | | | |]; try done.
  - by intros ?%elem_of_nil.
  - intros [?|[]]%touched_snoc. by apply IH.
  - intros [?|(p & -> & Hp)%list_elem_of_fmap_1]%touched_snoc; [by apply IH|].
    destruct (io_parts_ok bno _ _ Hreq) as [Hok _]. rewrite Forall_forall in Hok. apply (Hok p Hp).
Qed.

(** What the reports say when nothing waits. *)
Lemma run_last `{PflErr} `{PflCrc} `{PflNet} `{!PflCrcLaws} bno f0 s O T R :
  run_inv bno f0 s O T R → idle s → ∀ n, n ∈ touched T → last_crc (concat R) n = Some (crc64_slvr (fslab bno (plain_file bno f0 T) n)).
Proof.
  intros [_ Hr Hf _] (Hq & Ht & Hrd) n Hn.
  pose proof (ri_last _ _ _ _ Hr n) as Hl. rewrite Hrd in Hl. unfold pending in Hl. simpl in Hl. rewrite app_nil_r in Hl. rewrite Hl.
  - f_equal. apply crc64_proper. intros i _. apply Hf.
  - split; [done|]. rewrite Hq, Ht. apply not_elem_of_nil.
Qed.

Lemma count_nodup (l : list Z) n : NoDup l → Z.of_nat (length (filter (λ k, k = n) l)) = if bool_decide (n ∈ l) then 1 else 0.
Proof.
  induction l as [|x l IH]; intros Hnd; [done|]. apply NoDup_cons in Hnd as [Hx Hnd]. destruct (decide (x = n)) as [->|Hxn].
  - rewrite filter_cons_True by done. rewrite bool_decide_eq_true_2 by (by left). simpl. rewrite bool_decide_eq_false_2 in IH by done. specialize (IH Hnd). lia.
  - rewrite filter_cons_False, IH by done. rewrite (bool_decide_ext (n ∈ x :: l) (n ∈ l)); [done|]. rewrite elem_of_cons. split; [|tauto]. intros [->|]; done.
Qed.

(** ** Theorems *)
Section theorems.
Context `{PflErr} `{PflCrc} `{PflNet} `{!PflCrcLaws} `{!PflNetLaws}.
Context (bno : Z).
Implicit Types (s : ion) (O : list openio) (T : list io_event) (R : list (list srt_bmap_crcwire)).

(** C2: the cache is transparent. Take a run of requests and threads on a bmap
    in which every write of the file succeeds and is whole, a request or a
    transfer fails only when none of its slivers waits for its CRC, readahead
    stays inside the bmap and reports are sent oldest first ([good_env],
    [ion_run]; [SlvrFaults.v] shows what happens otherwise). With requests
    that overlap, slabs that are reclaimed, readahead and CRC threads in any
    order, every read was answered with what the writes before it had left,
    and the file has what all writes left: clients see a plain file, each
    request taking effect when it ends. *)
Theorem slvr_cache_transparent f0 s O T R :
  0 ≤ bno → ion_run bno f0 s O T R → plain_ok bno f0 T ∧ ∀ x, io_file s x = plain_file bno f0 T x.
Proof. intros Hbno Hrun. destruct (ion_run_inv bno _ _ _ _ _ Hbno Hrun) as [_ _ Hf Ht]. done. Qed.

(** A request as two steps of the run. *)
Lemma run_io ios_id f0 s O T R mq w seqno e :
  0 ≤ bno → ion_run bno f0 s O T R → req_ok (mq_offset mq) (mq_size mq) → mq_bench mq = false →
  bmapdesc_access_check (sbd_ios mq) w ios_id = 0 → seqno ≤ sbd_seq mq →
  free_parts s O (io_parts (mq_offset mq) (mq_size mq)) → good_env mq e →
  (∀ p : part, p ∈ io_parts (mq_offset mq) (mq_size mq) → 0 ≤ ie_read e p.1.1) → ie_bulk e = 0 →
  ∃ r s', sli_ric_handle_io bno ios_id mq w seqno e s = Done (r, s') ∧ ir_rc r = 0 ∧ ir_mprc r = 0 ∧
    ion_run bno f0 s' O (T ++ [match w with SL_READ => ev_read (mq_offset mq) (mq_size mq) (ir_data r)
                                          | SL_WRITE => ev_write (mq_offset mq) (mq_size mq) (ie_data e) end]) R.
Proof.
  intros Hbno Hrun Hreq Hbench Hacc Hseq Hfree Henv Hrd Hbulk. pose proof (ion_run_inv bno _ _ _ _ _ Hbno Hrun) as Hi. pose proof Hreq as (Ho & Hs & Hb).
  apply wp_run. unfold sli_ric_handle_io. rewrite Hbench.
  assert ((mq_size mq <=? 0) || (mq_size mq >? LNET_MTU_RIC) = false) as ->.
  { apply orb_false_iff. rewrite MTU_slvr, Z.gtb_ltb. split; [apply Z.leb_gt|apply Z.ltb_ge]; lia. }
  assert (ric_check ios_id mq w seqno = 0) as ->.
  { unfold ric_check. rewrite Hacc. rewrite u32_small by (unfold SLASH_BMAP_SIZE, SLASH_SLVRS_PER_BMAP, SLASH_SLVR_SIZE in *; lia). rewrite Z.gtb_ltb.
    destruct (Z.ltb_spec SLASH_BMAP_SIZE (mq_offset mq + mq_size mq)); [lia|]. cbn [Z.eqb negb]. by destruct (Z.ltb_spec (sbd_seq mq) seqno); [lia|]. }
  cbn [Z.eqb negb]. wp_step.
  destruct (wp_run (ric_begin bno mq w e) (λ rc s', rc = 0) s) as (rc & s1 & Hdo & ->).
  { apply (step_begin bno f0 s O T R mq w e); try done; [by left|]. intros s' rc _ Hneg (p & Hp & <-). specialize (Hrd p Hp). lia. }
  apply (wp_intro _ _ _ _ _ Hdo). cbn [Z.eqb negb]. pose proof (run_begin bno f0 s O T R mq w e s1 Hrun Hreq Hfree Henv Hrd Hdo) as Hrun1.
  pose proof (ion_run_inv bno _ _ _ _ _ Hbno Hrun1) as Hi1. destruct w.
  - destruct (wp_run (ric_end bno mq SL_READ e) (λ r _, ir_rc r = 0 ∧ ir_mprc r = 0) s1) as (r & s2 & Hdo2 & ? & ?).
    { by apply (step_read bno f0 s1 (opens SL_READ (io_parts (mq_offset mq) (mq_size mq)) ++ O) O T R mq e). }
    apply (wp_intro _ _ _ _ _ Hdo2). split_and!; try done. by eapply run_read.
  - destruct (wp_run (ric_end bno mq SL_WRITE e) (λ r _, ir_rc r = 0 ∧ ir_mprc r = 0) s1) as (r & s2 & Hdo2 & ? & ?).
    { by apply (step_write bno f0 s1 (opens SL_WRITE (io_parts (mq_offset mq) (mq_size mq)) ++ O) O T R mq e). }
    apply (wp_intro _ _ _ _ _ Hdo2). split_and!; try done. by eapply run_write.
Qed.

(** C22: a request is served.  In any state of a run, a valid request with a
    good descriptor on slivers that no one uses at the moment finishes: no
    assertion of the handler fails, the answer is success, and the state is
    again one of the run, with the read or write added to what was answered. *)
Theorem ric_io_served ios_id f0 s O T R mq w seqno e :
  0 ≤ bno → ion_run bno f0 s O T R → req_ok (mq_offset mq) (mq_size mq) → mq_bench mq = false →
  bmapdesc_access_check (sbd_ios mq) w ios_id = 0 → seqno ≤ sbd_seq mq →
  free_parts s O (io_parts (mq_offset mq) (mq_size mq)) → good_env mq e →
  (∀ p : part, p ∈ io_parts (mq_offset mq) (mq_size mq) → 0 ≤ ie_read e p.1.1) → ie_bulk e = 0 →
  ∃ r s', sli_ric_handle_io bno ios_id mq w seqno e s = Done (r, s') ∧ ir_rc r = 0 ∧ ir_mprc r = 0 ∧
    ion_run bno f0 s' O (T ++ [match w with SL_READ => ev_read (mq_offset mq) (mq_size mq) (ir_data r)
                                          | SL_WRITE => ev_write (mq_offset mq) (mq_size mq) (ie_data e) end]) R.
Proof. apply run_io. Qed.

Lemma run_drain f0 s T R :
  0 ≤ bno → ion_run bno f0 s [] T R → ∃ s' R', ion_run bno f0 s' [] T R' ∧ R `prefix_of` R' ∧ idle s'.
Proof.
  intros Hbno Hrun. destruct (drain_queue bno Hbno f0 T R s Hrun) as (s1 & Hrun1 & Hq1).
  destruct (drain_threads bno Hbno f0 T R s1 Hrun1 Hq1) as (s2 & Hrun2 & Hq2 & Ht2). by apply (drain_reports bno Hbno f0 T s2 R).
Qed.

(** The CRC threads catch up.  From any state of a run in which no
    request is under way, they can bring the bmap to one where no sliver waits
    for its CRC and no report waits to be sent, and the metadata server has
    got the reports it had and some more. *)
Theorem crc_threads_drain f0 s T R :
  0 ≤ bno → ion_run bno f0 s [] T R → ∃ s' R', ion_run bno f0 s' [] T R' ∧ R `prefix_of` R' ∧ idle s'.
Proof. apply run_drain. Qed.

(** The reports agree with the file.  Whenever the CRC threads have
    caught up, the last CRC the metadata server got for a sliver that was
    written is that of the sliver's bytes in the file, after all writes; and
    every report it got has between one and 24 entries, for different slivers
    of the bmap, as the metadata server requires. *)
Theorem crc_reports_agree f0 s O T R :
  0 ≤ bno → ion_run bno f0 s O T R →
  Forall report_ok R ∧
  (idle s → ∀ n, n ∈ touched T → last_crc (concat R) n = Some (crc64_slvr (fslab bno (plain_file bno f0 T) n))).
Proof.
  intros Hbno Hrun. pose proof (ion_run_inv bno _ _ _ _ _ Hbno Hrun) as Hi. split; [apply (rv_reports _ _ _ _ _ _ Hi)|].
  intros Hidle. by apply (run_last bno f0 s O T R).
Qed.
(** Slivers stay well-formed.  Between the steps of any run, every
    sliver of the cache is one of the 128 of the bmap and on exactly one of the
    list of clean slivers, the CRC queue and the CRC threads' arrays; its flags
    say which ([SLVRF_LRU] on the first only, [SLVRF_CRCDIRTY] on the others),
    [SLVRF_FAULTING] is set exactly while a request or a CRC thread uses it, its
    reference count is that of the requests, and a sliver that no request uses
    is ready and shows the file. *)
Theorem slvr_well_formed f0 s O T R n v :
  0 ≤ bno → ion_run bno f0 s O T R → io_slvrs s !! n = Some v →
  0 ≤ n < SLASH_SLVRS_PER_BMAP ∧ NoDup (io_lru s ++ io_crcq s ++ io_crcthr s) ∧ n ∈ io_lru s ++ io_crcq s ++ io_crcthr s ∧
  hasf (slvr_flags v) SLVRF_LRU = bool_decide (n ∈ io_lru s) ∧
  hasf (slvr_flags v) SLVRF_CRCDIRTY = bool_decide (n ∈ io_crcq s ++ io_crcthr s) ∧
  hasf (slvr_flags v) SLVRF_FAULTING = bool_decide (n ∈ held O ++ io_crcthr s) ∧
  hasf (slvr_flags v) (Z.lor SLVRF_DATAERR SLVRF_FREEING) = false ∧
  slvr_refcnt v = Z.of_nat (length (filter (λ k, k = n) (held O))) ∧
  (n ∉ held O → hasf (slvr_flags v) SLVRF_DATARDY = true ∧ slab_file bno (io_file s) n (slvr_slab v)).
Proof.
  intros Hbno Hrun Hv. pose proof (rv_cache _ _ _ _ _ _ (ion_run_inv bno _ _ _ _ _ Hbno Hrun)) as Hi.
  pose proof (ci_sv _ _ _ Hi n v Hv) as [Hn Hl Hd He Hfr Hr Hf Hrd Hs]. pose proof (ci_nodup _ _ _ Hi) as Hnd.
  assert (is_Some (io_slvrs s !! n)) as Hin%(ci_dom _ _ _ Hi) by (by rewrite Hv).
  split; [done|]. split; [done|]. split; [done|]. split; [done|]. split; [|split; [|split; [|split]]].
  - rewrite Hd, <-bool_decide_not. apply bool_decide_ext. apply NoDup_app in Hnd as (_ & Hdis & _). specialize (Hdis n). rewrite elem_of_app in Hin. tauto.
  - rewrite Hf, <-bool_decide_or. apply bool_decide_ext. by rewrite elem_of_app.
  - by rewrite hasf_lor_r, He, Hfr.
  - rewrite Hr. rewrite (count_nodup (held O) n (ci_open _ _ _ Hi)). by destruct (bool_decide _).
  - intros Hh. split; [apply Hrd; by left|]. destruct Hs as [(e & Hin' & <- & _)|]; [|done]. destruct Hh. by apply (held_part e).
Qed.
End theorems.

(** ** Examples *)

(** Bmap 0 of an empty file: a client writes three bytes at offset 5, the
    sliver gets its CRC and the report is sent. *)
Module SlvrEx.
#[global] Instance slab_crc : PflCrc := {| crc64_slvr d := d 0 + 2 * d 5 + 4 * d 6 |}.
#[global] Instance crc_laws : PflCrcLaws.
Proof. split. intros d e Heq. unfold crc64_slvr, slab_crc. rewrite !Heq by (unfold SLASH_SLVR_SIZE; lia). done. Qed.
#[global] Instance net : PflNet := {| PFLERR_KEYEXPIRED := 920; LNET_MTU_RIC := SLASH_SLVR_SIZE |}.
#[global] Instance net_laws : PflNetLaws.
Proof. by split. Qed.

Definition f0 : data := λ _, 0.
Definition s0 : ion :=
  {| io_slvrs := ∅; io_lru := []; io_crcq := []; io_crcthr := []; io_crcstates := replicate 128 0; io_crcs := replicate 128 0;
     io_bcr := None; io_bcrs := ∅; io_nbcr := 0; io_ready := []; io_crud := false; io_rpcs := []; io_raq := []; io_back := true;
     io_file := f0; io_fsize := 0 |}.
Definition mq : srm_io_req := {| mq_size := 3; mq_offset := 5; mq_bench := false; sbd_ios := 12; sbd_seq := 7 |}.
Definition env (d : data) : io_env :=
  {| ie_get := 0; ie_bmap := 0; ie_read := λ _, 0; ie_write := λ _, 8; ie_bulk := 0; ie_data := d; ie_now := 100 |}.
Definition d1 : data := λ i, i + 1.
Definition after {A} (m : M ion A) (s : ion) : ion := match m s with Done (_, s') => s' | Stuck _ => s end.
Lemma after_done {A} (m : M ion A) s : match m s with Done _ => True | Stuck _ => False end → ∃ a, m s = Done (a, after m s).
Proof. unfold after. destruct (m s) as [[a s']|]; [|done]. intros _. by exists a. Qed.
Definition s1 : ion := after (ric_begin 0 mq SL_WRITE (env d1)) s0.
Definition s2 : ion := after (ric_end 0 mq SL_WRITE (env d1)) s1.
Definition s3 : ion := after (slislvrthr_pick 103) s2.
Definition s4 : ion := after (slislvrthr_proc 103 0) s3.
Definition s5 : ion := after (slicrudthr_round 115 0) s4.
Definition s6 : ion := after (sli_rmi_bcrcupd_cb 0 [0]) s5.

Lemma parts : io_parts 5 3 = [(0, 5, 3)].
Proof. vm_compute. reflexivity. Qed.
Lemma req : req_ok 5 3.
Proof. split; [lia|]. split; unfold SLASH_BMAP_SIZE, SLASH_SLVRS_PER_BMAP, SLASH_SLVR_SIZE; lia. Qed.
Lemma free s : 0 ∉ io_crcthr s → free_parts s [] (io_parts 5 3).
Proof.
  intros Ht. destruct (io_parts_ok 0 _ _ req) as (Hok & Hnd & _). split; [done|]. split; [done|]. rewrite parts.
  intros p ->%list_elem_of_singleton. split; [apply not_elem_of_nil|done].
Qed.
Lemma good d : good_env mq (env d).
Proof. split; [done|]. split; [done|]. change (mq_offset mq) with 5. change (mq_size mq) with 3. rewrite parts. intros p ->%list_elem_of_singleton. reflexivity. Qed.
Lemma reads d : ∀ p : part, p ∈ io_parts 5 3 → 0 ≤ ie_read (env d) p.1.1.
Proof. intros p _. done. Qed.

Abbreviation T1 := [ev_write 5 3 d1].
Lemma fresh0 bno : ion_run bno f0 s0 [] [] [].
Proof. apply run_fresh; [|done]. split_and!; try done. Qed.
Lemma run2 : ion_run 0 f0 s2 [] T1 [].
Proof.
  assert (Hb : ion_run 0 f0 s1 (opens SL_WRITE (io_parts 5 3) ++ []) [] []).
  { apply (run_begin 0 f0 s0 [] [] [] mq SL_WRITE (env d1) s1); [apply fresh0|apply req|apply free, not_elem_of_nil|apply good|apply reads|vm_compute; reflexivity]. }
  eapply (run_write 0 f0 s1 _ [] [] [] mq (env d1) s2); [exact Hb|apply req|done|done|apply good|vm_compute; reflexivity].
Qed.
Lemma run6 : ion_run 0 f0 s6 [] T1 [[{| crc := 10; slot := 0 |}]].
Proof.
  apply (run_cb 0 f0 s5 [] T1 [] 0 [0] s6); [|vm_compute; by left|vm_compute; reflexivity].
  eapply (run_crud 0 f0 s4 [] T1 [] 115 0 _ s5); [|intros b l x Hr Hx; right|vm_compute; reflexivity].
  - apply (run_proc 0 f0 s3 [] T1 [] 103 0 s4); [|vm_compute; by left|vm_compute; reflexivity].
    eapply (run_pick 0 f0 s2 [] T1 [] 103 _ s3); [exact run2|vm_compute; reflexivity].
  - assert (b = 0) as -> by (assert (io_ready s4 = [0]) as Hq by (vm_compute; reflexivity); congruence).
    assert (bcr_age <$> io_bcrs s4 !! 0 = Some 103) as Ha by (vm_compute; reflexivity). rewrite Hx in Ha. injection Ha as ->. done.
Qed.
End SlvrEx.

(** After the write and the report, the file has the bytes that were sent. *)
Lemma slvr_cache_transparent_witness : io_file SlvrEx.s6 6 = 2.
Proof. destruct (slvr_cache_transparent 0 _ _ _ _ _ ltac:(lia) SlvrEx.run6) as [_ Hf]. rewrite Hf. reflexivity. Defined.

(** A read right after the write. *)
Lemma ric_io_served_witness :
  ∃ r s', sli_ric_handle_io 0 12 SlvrEx.mq SL_READ 7 (SlvrEx.env SlvrEx.f0) SlvrEx.s2 = Done (r, s') ∧
    ir_mprc r = 0 ∧ ion_run 0 SlvrEx.f0 s' [] [ev_write 5 3 SlvrEx.d1; ev_read 5 3 (ir_data r)] [].
Proof.
  destruct (ric_io_served 0 12 SlvrEx.f0 SlvrEx.s2 [] [ev_write 5 3 SlvrEx.d1] [] SlvrEx.mq SL_READ 7 (SlvrEx.env SlvrEx.f0)) as (r & s' & Hdo & _ & Hm & Hrun);
    [lia|exact SlvrEx.run2|exact SlvrEx.req|reflexivity|reflexivity|simpl; lia|apply SlvrEx.free; vm_compute; apply not_elem_of_nil|apply SlvrEx.good|apply SlvrEx.reads|reflexivity|].
  exists r, s'. split; [exact Hdo|]. split; [exact Hm|exact Hrun].
Defined.

(** The sliver that was written waits for its CRC. *)
Lemma crc_threads_drain_witness :
  io_crcq SlvrEx.s2 = [0] ∧ ∃ s' R', ion_run 0 SlvrEx.f0 s' [] [ev_write 5 3 SlvrEx.d1] R' ∧ [] `prefix_of` R' ∧ idle s'.
Proof. split; [vm_compute; reflexivity|]. apply (crc_threads_drain 0 SlvrEx.f0 SlvrEx.s2); [lia|exact SlvrEx.run2]. Defined.

(** The report of the example. *)
Lemma crc_reports_agree_witness :
  report_ok [{| crc := 10; slot := 0 |}] ∧ Some 10 = Some (crc64_slvr (fslab 0 (plain_file 0 SlvrEx.f0 [ev_write 5 3 SlvrEx.d1]) 0)).
Proof.
  destruct (crc_reports_agree 0 _ _ _ _ _ ltac:(lia) SlvrEx.run6) as [Hok Hl]. split; [exact (Forall_inv Hok)|].
  apply (Hl ltac:(split; [vm_compute; reflexivity|split; vm_compute; reflexivity]) 0). vm_compute. by left.
Defined.

(** The sliver that was written, while it waits for its CRC. *)
Lemma slvr_well_formed_witness : ∃ v, io_slvrs SlvrEx.s2 !! 0 = Some v ∧
  hasf (slvr_flags v) SLVRF_CRCDIRTY = true ∧ slvr_refcnt v = 0 ∧ hasf (slvr_flags v) SLVRF_DATARDY = true.
Proof.
  assert (∃ v, io_slvrs SlvrEx.s2 !! 0 = Some v) as [v Hv] by (eexists; vm_compute; reflexivity). exists v. split; [exact Hv|].
  destruct (slvr_well_formed 0 _ _ _ _ _ _ _ ltac:(lia) SlvrEx.run2 Hv) as (_ & _ & _ & _ & Hd & _ & _ & Hr & Hn).
  split; [rewrite Hd; apply bool_decide_eq_true_2; vm_compute; by left|]. split; [rewrite Hr; reflexivity|]. apply Hn, not_elem_of_nil.
Defined.
