(* ===== verification/SlvrFaults.v ===== *)
(** * Errors of an I/O server

    What failed transfers and writes leave in the sliver cache, readahead at
    the end of a bmap, and reports that overtake each other. *)
From S2P Require Import Prelude ReplBits ReplWalk BmapMds ReplReq Replay CrcWrite Slvr SlvrIO SlvrInv SlvrReq SlvrThreads SlvrProps.

Section faults.
Context `{PflErr} `{PflCrc} `{PflNet} `{!PflCrcLaws} `{!PflNetLaws}.
Context (bno : Z).
Implicit Types (s : ion) (O : list openio) (p : part).

(** A sliver in use by one request. *)
Lemma open_one s O k p : cinv bno s ((k, p) :: O) →
  ∃ v, io_slvrs s !! p.1.1 = Some v ∧ slvr_refcnt v = 1 ∧ sv_ok bno s ((k, p) :: O) p.1.1 v ∧ p.1.1 ∈ io_lru s ++ io_crcq s.
Proof.
  intros Hi. destruct (ci_held _ _ _ Hi p.1.1) as [[v Hv] Ht]; [by left|]. exists v. pose proof (ci_sv _ _ _ Hi _ _ Hv) as Hok.
  split; [done|]. split; [rewrite (so_ref _ _ _ _ _ Hok), bool_decide_eq_true_2; [done|by left]|]. split; [done|].
  assert (is_Some (io_slvrs s !! p.1.1)) as Hin%(ci_dom _ _ _ Hi) by (by rewrite Hv). rewrite !elem_of_app in *. tauto.
Qed.

(** A failed transfer of a sliver that waits for its CRC.  Let a read be
    open on a sliver that was written before and is the one that waits for its
    CRC.  When the transfer to the client fails, the handler takes the ready
    mark from the sliver but leaves it on the CRC queue; the CRC thread takes it
    from there when it is old enough, and its assertion that the data is ready
    fails: the server ends. *)
Theorem bulk_failure_asserts f0 s O T R mq e p v now :
  0 ≤ bno → ion_run bno f0 s ((Some SL_READ, p) :: O) T R → io_parts (mq_offset mq) (mq_size mq) = [p] →
  io_crcq s = [p.1.1] → io_slvrs s !! p.1.1 = Some v → slvr_ts v < now - CRC_QUEUE_AGE → ie_bulk e ≠ 0 →
  ∃ s1 s2, ric_end bno mq SL_READ e s = Done (refused (ie_bulk e), s1) ∧
    slislvrthr_pick now s1 = Done ([p.1.1], s2) ∧ slislvrthr_proc now p.1.1 s2 = Stuck Assertion.
Proof.
  intros Hbno Hrun Hparts Hq Hv Hts Hb. pose proof (rv_cache _ _ _ _ _ _ (ion_run_inv bno _ _ _ _ _ Hbno Hrun)) as Hi.
  destruct (open_one s O _ p Hi) as (v' & Hv' & Hone & Hok & _). rewrite Hv in Hv'. injection Hv' as <-. set (n := p.1.1) in *.
  assert (Hnl : n ∉ io_lru s).
  { intros Hl. pose proof (ci_nodup _ _ _ Hi) as Hnd. apply NoDup_app in Hnd as (_ & Hd & _). apply (Hd n Hl). rewrite Hq. by left. }
  assert (HD : hasf (slvr_flags v) SLVRF_CRCDIRTY = true) by (by rewrite (so_dirty _ _ _ _ _ Hok), bool_decide_eq_false_2).
  assert (HL : hasf (slvr_flags v) SLVRF_LRU = false) by (by rewrite (so_lru _ _ _ _ _ Hok), bool_decide_eq_false_2).
  set (fl := setf (clrf (slvr_flags v) (Z.lor SLVRF_FAULTING SLVRF_DATARDY)) SLVRF_DATAERR).
  set (v1 := sv_with_ref (sv_with_err (sv_with_flags v fl) (ie_bulk e)) 0). set (s1 := io_with_slvrs s (<[n := v1]> (io_slvrs s))).
  exists s1. assert (Hend : ric_end bno mq SL_READ e s = Done (refused (ie_bulk e), s1)).
  { apply wp_eq. unfold ric_end. rewrite Hparts. cbv zeta. rewrite fmap_cons, fmap_nil. fold n. destruct p as [[n' roff] len]. cbn in n. subst n.
    wp_step. cbn [bulk_source]. wp_step. eapply wp_getSv; [done|]. wp_step. rewrite (proj2 (Z.eqb_neq _ _) Hb). cbn [negb]. wp_step. cbn [ric_out]. wp_step.
    unfold slvr_io_done. eapply wp_modSv; [done|]. rewrite (proj2 (Z.eqb_neq _ _) Hb). cbn [negb]. fold fl. wp_step. unfold slvr_rio_done, slvr_decref. do 2 wp_step.
    eapply wp_getSv; [apply lookup_insert_eq|]. wp_step. cbn [slvr_refcnt sv_with_err sv_with_flags]. rewrite Hone. wp_step; [done|]. wp_step. unfold setSv. wp_step. wp_step.
    unfold slvr_lru_tryunpin_locked. wp_step. eapply wp_getSv; [apply lookup_insert_eq|]. cbn [slvr_refcnt slvr_flags sv_with_err sv_with_flags sv_with_ref].
    assert (hasf fl SLVRF_CRCDIRTY = true) as -> by (unfold fl; flags_goal; done). rewrite orb_true_r. wp_step. do 2 wp_step. split; [done|]. unfold s1. io_norm. done. }
  set (v2 := sv_with_flags v1 (setf fl SLVRF_FAULTING)).
  exists (io_with_lists (io_with_slvrs s (<[n := v2]> (io_slvrs s))) (io_lru s) [] (io_crcthr s ++ [n])). split; [done|]. split.
  - apply wp_eq. unfold slislvrthr_pick. do 2 wp_step. change (io_crcq s1) with (io_crcq s). rewrite Hq. cbn [crcq_scan]. wp_step. eapply wp_getSv; [apply lookup_insert_eq|].
    cbn [slvr_refcnt slvr_flags slvr_ts sv_with_err sv_with_flags sv_with_ref v1 Z.eqb negb orb].
    assert (hasf fl SLVRF_FREEING = false) as -> by (unfold fl; flags_goal; apply Hok). wp_step. destruct (Z.gtb_spec (now - CRC_QUEUE_AGE) (slvr_ts v)); [|lia].
    wp_step. unfold setSv. wp_step. do 3 wp_step. apply wp_list_del; [cbn; rewrite Hq; by left|]. wp_step. wp_step. wp_step. cbn [length app Z.of_nat Pos.of_succ_nat].
    change (1 >=? MAX_BMAP_NCRC_UPDATES) with false. cbn [crcq_scan]. wp_step. split; [done|]. unfold s1. io_norm. cbn [io_crcq io_with_slvrs]. rewrite Hq.
    rewrite filter_cons_False by tauto. done.
  - apply (faults_bind Assertion). eapply wp_getSv; [cbn; apply lookup_insert_eq|]. cbn [slvr_flags v2 v1 sv_with_flags sv_with_ref sv_with_err].
    apply faults_bind. wp_step; [unfold fl; flags_goal; by rewrite HL|]. apply faults_bind. wp_step; [unfold fl; flags_goal; done|]. apply faults_left.
    unfold faults, psc_assert. replace (hasf (setf fl SLVRF_FAULTING) SLVRF_DATARDY) with false; [done|]. unfold fl. by flags_goal.
Qed.

(** A sliver that is ready, in no use, and waits for its CRC, is read from
    memory. *)
Lemma read_cached mq e s p v :
  io_parts (mq_offset mq) (mq_size mq) = [p] → p.2 = mq_size mq → 0 < p.2 → ie_get e = 0 → ie_bmap e = 0 → ie_bulk e = 0 →
  io_slvrs s !! p.1.1 = Some v → slvr_refcnt v = 0 → hasf (slvr_flags v) SLVRF_DATARDY = true → hasf (slvr_flags v) SLVRF_FAULTING = false →
  hasf (slvr_flags v) SLVRF_DATAERR = false → hasf (slvr_flags v) SLVRF_FREEING = false → hasf (slvr_flags v) SLVRF_CRCDIRTY = true →
  ∃ r s1 s2, ric_begin bno mq SL_READ e s = Done (0, s1) ∧ ric_end bno mq SL_READ e s1 = Done (r, s2) ∧
    ir_mprc r = 0 ∧ ∀ i, 0 ≤ i < mq_size mq → ir_data r i = slvr_slab v (p.1.2 + i).
Proof.
  intros Hparts Hlen Hpos Hg Hbm Hbk Hv Href HR HF HE HFr HD. destruct p as [[n roff] len]. cbn in Hlen, Hpos, Hv |- *. subst len.
  set (v1 := sv_with_flags (sv_with_ref v 1) (setf (slvr_flags v) SLVRF_FAULTING)).
  assert (Hb : ric_begin bno mq SL_READ e s = Done (0, io_with_slvrs s (<[n := v1]> (io_slvrs s)))).
  { apply wp_eq. unfold ric_begin. rewrite Hg, Hbm, Hparts. cbn [Z.eqb negb]. wp_step. cbn [ric_prep]. wp_step. unfold slvr_lookup. do 2 wp_step. rewrite Hv.
    rewrite hasf_lor_r, HE, HFr. wp_step. wp_step; [done|]. unfold setSv. wp_step. wp_step. unfold slvr_io_prep. wp_step. eapply wp_getSv; [apply lookup_insert_eq|].
    cbn [slvr_flags sv_with_ref]. rewrite HF, HE, HR. wp_step. wp_step; [done|]. wp_step. eapply wp_modSv; [apply lookup_insert_eq|]. wp_step. cbn [Z.eqb negb].
    wp_step. wp_step; [apply Z.gtb_lt; lia|]. wp_step. wp_step; [apply Z.eqb_eq; lia|]. wp_step. cbn [fst Z.eqb negb]. wp_step. split; [done|]. io_norm. cbn [slvr_refcnt sv_with_flags sv_with_ref]. rewrite Href. done. }
  destruct (wp_run (ric_end bno mq SL_READ e) (λ r _, ir_mprc r = 0 ∧ ∀ i, 0 ≤ i < mq_size mq → ir_data r i = slvr_slab v (roff + i))
    (io_with_slvrs s (<[n := v1]> (io_slvrs s)))) as (r & s2 & Hdo & Hr).
  { unfold ric_end. rewrite Hparts, Hbk. cbv zeta. rewrite fmap_cons, fmap_nil. wp_step. cbn [bulk_source]. wp_step. eapply wp_getSv; [apply lookup_insert_eq|]. wp_step.
    cbn [Z.eqb negb]. wp_step. wp_step. unfold readahead_enqueue.
    assert (Hend : ∀ q, wp (_ ← ric_out SL_READ (ie_now e) 0 [n]; mret {| ir_rc := 0; ir_mprc := 0; ir_data := overlay (λ _, 0) 0 (mq_size mq) (λ i, slvr_slab v (roff + i)) |})
      (λ r _, ir_mprc r = 0 ∧ ∀ i, 0 ≤ i < mq_size mq → ir_data r i = slvr_slab v (roff + i)) (io_with_raq (io_with_slvrs s (<[n := v1]> (io_slvrs s))) q)).
    { intros q. wp_step. cbn [ric_out]. wp_step. unfold slvr_io_done. eapply wp_modSv; [apply lookup_insert_eq|]. cbn [Z.eqb negb]. wp_step. unfold slvr_rio_done, slvr_decref. do 2 wp_step.
      eapply wp_getSv; [apply lookup_insert_eq|]. cbn [slvr_refcnt sv_with_flags v1 sv_with_ref]. wp_step. wp_step; [done|]. wp_step. unfold setSv. wp_step. wp_step.
      unfold slvr_lru_tryunpin_locked. wp_step. eapply wp_getSv; [apply lookup_insert_eq|]. cbn [slvr_refcnt slvr_flags sv_with_flags v1 sv_with_ref].
      match goal with |- context [hasf ?w SLVRF_CRCDIRTY] => assert (hasf w SLVRF_CRCDIRTY = true) as -> by (flags_goal; done) end.
      rewrite orb_true_r. do 3 wp_step. split; [done|]. intros i Hi. unfold overlay. cbn [ir_data]. rewrite Z.sub_0_r. destruct (Z.leb_spec 0 i), (Z.ltb_spec i (0 + mq_size mq)); cbn; lia || done. }
    destruct (_ >=? _); do 2 wp_step; [|apply Hend]. specialize (Hend (io_raq s)). exact Hend. }
  exists r, (io_with_slvrs s (<[n := v1]> (io_slvrs s))), s2. split; [done|]. split; [done|done].
Qed.

(** A sliver as a failed write leaves it. *)
Definition stale_ready (s1 : ion) (n : Z) (d : data) : Prop :=
  ∃ v1, io_slvrs s1 !! n = Some v1 ∧ slvr_refcnt v1 = 0 ∧ slvr_slab v1 = d ∧ hasf (slvr_flags v1) SLVRF_DATARDY = true ∧ hasf (slvr_flags v1) SLVRF_FAULTING = false ∧
    hasf (slvr_flags v1) SLVRF_DATAERR = false ∧ hasf (slvr_flags v1) SLVRF_FREEING = false ∧ hasf (slvr_flags v1) SLVRF_CRCDIRTY = true.
Lemma end_write_failed mq e s O p :
  cinv bno s ((Some SL_WRITE, p) :: O) → io_parts (mq_offset mq) (mq_size mq) = [p] → ie_bulk e = 0 → ie_write e p.1.1 < 0 → ie_write e p.1.1 ≠ - SLERR_AIOWAIT →
  wp (ric_end bno mq SL_WRITE e) (λ r s1, ir_mprc r = ie_write e p.1.1 ∧ io_file s1 = io_file s ∧
    ∃ d0, stale_ready s1 p.1.1 (overlay d0 p.1.2 p.2 (λ i, ie_data e (0 + i)))) s.
Proof.
  intros Hi Hparts Hb Hw Haio.
  destruct (open_one s O _ p Hi) as (v & Hv & Hone & Hok & Hin).
  set (fl := setf (clrf (slvr_flags v) (Z.lor SLVRF_FAULTING SLVRF_DATARDY)) SLVRF_DATARDY).
  assert (Hfl : hasf fl SLVRF_DATARDY = true ∧ hasf fl SLVRF_FAULTING = false ∧ hasf fl SLVRF_DATAERR = false ∧ hasf fl SLVRF_FREEING = false).
  { unfold fl. split; [by flags_goal|]. split; [by flags_goal|]. split; flags_goal; apply Hok. }
  destruct Hfl as (HR & HF & HE & HFr).
  unfold ric_end. rewrite Hparts, Hb. cbv zeta. rewrite fmap_cons, fmap_nil. destruct p as [[n roff] len]. cbn [fst snd] in *. do 2 wp_step. cbn [bulk_sink]. wp_step.
  eapply wp_modSv; [done|]. do 2 wp_step. cbn [Z.eqb negb]. wp_step. unfold sli_ric_write_sliver. wp_step. cbn [write_loop]. wp_step. unfold slvr_fsbytes_wio, slvr_fsio. do 2 wp_step.
  cbn [io_back io_with_slvrs]. rewrite (ci_back _ _ _ Hi). cbn [negb]. wp_step. wp_step; [by rewrite Z.mod_mul by done|]. wp_step. eapply wp_getSv; [apply lookup_insert_eq|].
  destruct (Z.ltb_spec (ie_write e n) 0); [|lia]. wp_step. rewrite (proj2 (Z.eqb_neq (ie_write e n) 0)) by lia. cbn [negb]. wp_step.
  wp_step; [by rewrite (proj2 (Z.eqb_neq _ _) Haio)|]. wp_step. cbn [fst]. wp_step. rewrite (proj2 (Z.eqb_neq (ie_write e n) 0)) by lia. cbn [whenM]. do 2 wp_step.
  wp_step. cbn [ric_out]. wp_step. unfold slvr_io_done. eapply wp_modSv; [apply lookup_insert_eq|]. cbn [Z.eqb negb sv_with_slab slvr_flags]. fold fl. wp_step. unfold slvr_wio_done, slvr_decref. do 2 wp_step.
  eapply wp_getSv; [apply lookup_insert_eq|]. cbn [slvr_refcnt sv_with_flags sv_with_slab]. rewrite Hone. wp_step. wp_step; [done|]. wp_step. unfold setSv. wp_step. wp_step.
  cbn [slvr_flags sv_with_ref sv_with_flags]. rewrite HE. cbn [orb].
  assert (HL : hasf fl SLVRF_LRU = bool_decide (n ∈ io_lru s)) by (unfold fl; flags_goal; apply Hok). rewrite HL. io_norm.
  destruct (bool_decide (n ∈ io_lru s)) eqn:El; cbn [whenM].
  - apply bool_decide_eq_true in El. unfold slvr_schedule_crc_locked. wp_step. eapply wp_modSv; [apply lookup_insert_eq|]. io_norm. do 3 wp_step. apply wp_list_del; [done|].
    wp_step. do 2 wp_step. split; [done|]. split; [done|]. exists (slvr_slab v). eexists. split; [apply lookup_insert_eq|]. cbn [slvr_refcnt slvr_slab slvr_flags sv_with_flags sv_with_ts sv_with_ref sv_with_slab].
    split; [done|]. split; [done|]. split; [by flags_goal|]. split; [by flags_goal|]. split; [by flags_goal|]. split; by flags_goal.
  - do 3 wp_step. split; [done|]. split; [done|]. exists (slvr_slab v). eexists. split; [apply lookup_insert_eq|]. cbn [slvr_refcnt slvr_slab slvr_flags sv_with_flags sv_with_ts sv_with_ref sv_with_slab].
    split; [done|]. split; [done|]. split; [done|]. split; [done|]. split; [done|]. split; [done|]. unfold fl. flags_goal. rewrite (so_dirty _ _ _ _ _ Hok), El. done.
Qed.

(** A write to the file that fails.  The handler reports the error to
    the client in [mp->rc], but its own [rc] stays 0, with which the slivers
    are released: the sliver counts as good data.  The file is unchanged, and
    a later read of the same bytes is answered, without an error, with the
    data that was never written. *)
Theorem failed_write_visible f0 s O T R mq e e2 p :
  0 ≤ bno → ion_run bno f0 s ((Some SL_WRITE, p) :: O) T R → req_ok (mq_offset mq) (mq_size mq) →
  io_parts (mq_offset mq) (mq_size mq) = [p] → ie_bulk e = 0 → ie_write e p.1.1 < 0 → ie_write e p.1.1 ≠ - SLERR_AIOWAIT →
  ie_get e2 = 0 → ie_bmap e2 = 0 → ie_bulk e2 = 0 →
  ∃ r s1 r2 s2 s3, ric_end bno mq SL_WRITE e s = Done (r, s1) ∧ ir_mprc r = ie_write e p.1.1 ∧ io_file s1 = io_file s ∧
    ric_begin bno mq SL_READ e2 s1 = Done (0, s2) ∧ ric_end bno mq SL_READ e2 s2 = Done (r2, s3) ∧ ir_mprc r2 = 0 ∧
    ∀ i, 0 ≤ i < mq_size mq → ir_data r2 i = ie_data e i.
Proof.
  intros Hbno Hrun Hreq Hparts Hb Hw Haio Hg2 Hbm2 Hb2. pose proof (rv_cache _ _ _ _ _ _ (ion_run_inv bno _ _ _ _ _ Hbno Hrun)) as Hi.
  destruct (io_parts_ok bno _ _ Hreq) as (Hpok & _ & Hlen & _). rewrite Hparts in Hpok, Hlen. apply Forall_inv in Hpok as (Hpn & Hpo & Hpp & Hps). cbn in Hlen. rewrite Z.add_0_r in Hlen.
  destruct (wp_run _ _ _ (end_write_failed mq e s O p Hi Hparts Hb Hw Haio)) as (r & s1 & Hdo & Hm & Hfile & d0 & v1 & Hv1 & Href & Hd & HR1 & HF1 & HE1 & HFr1 & HD1).
  destruct (read_cached mq e2 s1 p v1) as (r2 & s2 & s3 & Hbeg & Hend & Hm2 & Hdata); try done.
  exists r, s1, r2, s2, s3. split_and!; try done. intros i Hi'. rewrite Hdata, Hd by done. unfold overlay.
  destruct (Z.leb_spec p.1.2 (p.1.2 + i)), (Z.ltb_spec (p.1.2 + i) (p.1.2 + p.2)); cbn; try lia. f_equal. lia.
Qed.

Lemma readahead_app w sys (a l : list Z) : ∀ s,
  wp (readahead_loop bno sys a) (λ _ s', faults w (readahead_loop bno sys l) s') s → faults w (readahead_loop bno sys (a ++ l)) s.
Proof.
  induction a as [|n a IH]; intros s Hw; [by apply (wp_done _ _ _ _ _ (eq_refl : readahead_loop bno sys [] s = Done (tt, s))) in Hw|].
  cbn [readahead_loop app] in *. do 4 (apply faults_bind; apply wp_bind_inv in Hw; eapply wp_mono; [exact Hw|]; clear Hw; intros ? ? Hw). by apply IH.
Qed.
(** The sliver after the last of the bmap. *)
Lemma readahead_128 sys s O l : cinv bno s O → 0 ≤ sys SLASH_SLVRS_PER_BMAP → slvr_2_fileoff bno SLASH_SLVRS_PER_BMAP 0 < io_fsize s →
  faults OutOfBounds (readahead_loop bno sys (SLASH_SLVRS_PER_BMAP :: l)) s.
Proof.
  intros Hi Hsys Hsz. set (n := SLASH_SLVRS_PER_BMAP) in *.
  assert (Hnone : io_slvrs s !! n = None).
  { destruct (io_slvrs s !! n) as [v|] eqn:Hv; [|done]. pose proof (so_num _ _ _ _ _ (ci_sv _ _ _ Hi n v Hv)). unfold n in *. lia. }
  cbn [readahead_loop]. apply faults_bind. unfold slvr_lookup. do 2 wp_step. rewrite Hnone. wp_step. unfold setSv. wp_step. wp_step.
  apply faults_left. unfold slvr_io_prep. apply faults_bind. eapply wp_getSv; [apply lookup_insert_eq|]. apply faults_bind. wp_step; [done|]. cbn [slvr_flags].
  change (hasf SLVRF_LRU SLVRF_DATAERR) with false. cbv iota. apply faults_bind. eapply wp_modSv; [apply lookup_insert_eq|]. change (hasf SLVRF_LRU SLVRF_DATARDY) with false. cbv iota.
  change (hasf SLVRF_READAHEAD SLVRF_READAHEAD) with true. cbn [whenM]. apply faults_bind. eapply wp_modSv; [apply lookup_insert_eq|].
  unfold slvr_fsbytes_rio, slvr_fsio. apply faults_bind. wp_step. cbn [io_back io_with_slvrs io_with_lists]. rewrite (ci_back _ _ _ Hi). cbn [negb].
  destruct (Z.ltb_spec (sys n) 0); [lia|]. cbv zeta. cbn [io_fsize io_file io_with_slvrs io_with_lists]. apply faults_bind. eapply wp_modSv; [apply lookup_insert_eq|].
  apply faults_left. rewrite (proj2 (Z.eqb_neq _ _)) by (unfold SLASH_SLVR_SIZE; lia). unfold slvr_do_crc. apply faults_bind. eapply wp_getSv; [apply lookup_insert_eq|].
  apply faults_bind. wp_step; [reflexivity|]. apply faults_bind. wp_step. cbn [io_crcstates io_with_slvrs io_with_lists].
  rewrite (lookup_ge_None_2 (io_crcstates s)); [done|]. rewrite (proj1 (ci_len _ _ _ Hi)). unfold n. done.
Qed.

(** Readahead at the end of a bmap.  The readahead thread reads four
    slivers from the end of a read on and does not stop at the last one of the
    bmap.  After a read that ends in one of the last three slivers, in a file
    that goes on in the next bmap, it makes a sliver 128 and looks up its CRC
    beyond the table of the bmap. *)
Theorem readahead_past_bmap f0 s O T R q qs sys :
  0 ≤ bno → ion_run bno f0 s O T R → io_raq s = q :: qs →
  SLASH_SLVRS_PER_BMAP - 3 ≤ rarq_off q / SLASH_SLVR_SIZE < SLASH_SLVRS_PER_BMAP →
  (∀ n, rarq_off q / SLASH_SLVR_SIZE ≤ n → (n ∉ held O) ∧ n ∉ io_crcthr s) →
  0 ≤ sys SLASH_SLVRS_PER_BMAP → slvr_2_fileoff bno SLASH_SLVRS_PER_BMAP 0 < io_fsize s →
  slirathr_round bno 0 sys s = Stuck OutOfBounds.
Proof.
  intros Hbno Hrun Hq Hn Hfree Hsys Hsz. pose proof (rv_cache _ _ _ _ _ _ (ion_run_inv bno _ _ _ _ _ Hbno Hrun)) as Hi.
  assert (Hi1 : cinv bno (io_with_raq s qs) O).
  { destruct Hi as [? ? Hsv ? ? ? ? ? ? ?]. split; try done. intros k w Hw. destruct (Hsv k w Hw) as [? ? ? ? ? ? ? ? ?]. by split. }
  unfold slirathr_round. apply (faults_bind OutOfBounds). wp_step. rewrite Hq. apply faults_bind. wp_step. cbn [Z.eqb negb]. cbv zeta.
  set (n := rarq_off q / SLASH_SLVR_SIZE) in *. set (k := Z.to_nat (SLASH_SLVRS_PER_BMAP - n)).
  assert (∃ l, [n; n + 1; n + 2; n + 3] = seqZ n (SLASH_SLVRS_PER_BMAP - n) ++ SLASH_SLVRS_PER_BMAP :: l) as [l ->].
  { clearbody n. unfold SLASH_SLVRS_PER_BMAP in *. assert (n = 125 ∨ n = 126 ∨ n = 127) as [-> | [-> | ->]] by lia; eexists; reflexivity. }
  apply readahead_app, (wp_readahead_loop bno sys _ (io_with_raq s qs) O); [done|apply NoDup_seqZ|..].
  - intros j Hj. apply elem_of_seqZ in Hj. destruct (Hfree j) as [? ?]; [lia|]. split; [unfold SLASH_SLVRS_PER_BMAP in *; lia|]. done.
  - intros s' Hc Hi' _ _. eapply readahead_128; [done|done|]. destruct (cache_only_file _ _ Hc) as [_ ->]. done.
Qed.
End faults.

(** ** Reports that overtake *)

(** A report that is answered, with its contents. *)
Definition answered (a : list Z) : M ion (list (list srt_bmap_crcwire)) :=
  s ← getM; _ ← sli_rmi_bcrcupd_cb 0 a; mret (pending (io_bcrs s) a).
Fixpoint adds (now c : Z) (l : list Z) : M ion unit :=
  match l with [] => mret tt | n :: l => _ ← bcr_add now n c; adds now c l end.
(** The CRC of sliver 5 is computed twice, first [old] and then [new]. *)
Definition overtake `{PflNet} (old new : Z) : M ion (list (list srt_bmap_crcwire)) :=
  _ ← bcr_add 0 0 7;
  _ ← slicrudthr_round 12 0;
  _ ← bcr_add 13 5 old;
  _ ← sli_rmi_bcrcupd_cb (-5) [0];
  _ ← slicrudthr_round 14 0;
  r0 ← answered [0];
  _ ← bcr_add 15 5 new;
  _ ← adds 15 7 (seqZ 6 23);
  _ ← slicrudthr_round 16 0;
  r1 ← answered [2];
  _ ← slicrudthr_round 25 0;
  r2 ← answered [1];
  mret (r0 ++ r1 ++ r2).

(** Reports can overtake each other.  When the CRC update thread sends
    an old report again, after an error, it sets [bii_bcr] to NULL although
    another report is open there; that one stays on the list, neither full nor
    old enough, while the next report of the bmap fills up and is sent first.
    In this run the CRC of sliver 5 is computed as [old] and then as [new],
    every report arrives, none waits any more, and the last CRC the metadata
    server got for the sliver is [old]. *)
Theorem reports_overtake old new :
  wp (overtake old new) (λ R s, idle s ∧ last_crc (concat R) 5 = Some old) SlvrEx.s0.
Proof. vm_compute. split; [split; [|split]|]; reflexivity. Qed.

(** ** Examples *)
Module FaultEx.
Import SlvrEx.
(** A read of the sliver that [SlvrEx] wrote, and a client that went away. *)
Definition rd : ion := after (ric_begin 0 mq SL_READ (env f0)) s2.
Definition gone (rc : Z) : io_env :=
  {| ie_get := 0; ie_bmap := 0; ie_read := λ _, 0; ie_write := λ _, 8; ie_bulk := rc; ie_data := f0; ie_now := 101 |}.
Lemma run_rd : ion_run 0 f0 rd [(Some SL_READ, (0, 5, 3))] T1 [].
Proof.
  apply (run_begin 0 f0 s2 [] T1 [] mq SL_READ (env f0) rd); [exact run2|exact req|apply free; vm_compute; apply not_elem_of_nil|apply good|apply reads|vm_compute; reflexivity].
Qed.
(** A disk that is full. *)
Definition full : io_env :=
  {| ie_get := 0; ie_bmap := 0; ie_read := λ _, 0; ie_write := λ _, -28; ie_bulk := 0; ie_data := d1; ie_now := 100 |}.
Lemma run_wr : ion_run 0 f0 s1 [(Some SL_WRITE, (0, 5, 3))] [] [].
Proof.
  apply (run_begin 0 f0 s0 [] [] [] mq SL_WRITE (env d1) s1); [apply fresh0|exact req|apply free, not_elem_of_nil|apply good|apply reads|vm_compute; reflexivity].
Qed.
(** A read of the last but two sliver of the first bmap of a large file. *)
Definition off : Z := 125 * SLASH_SLVR_SIZE + 5.
Definition mqr : srm_io_req := {| mq_size := 3; mq_offset := off; mq_bench := false; sbd_ios := 12; sbd_seq := 7 |}.
Definition big : ion := io_with_file s0 f0 (SLASH_BMAP_SIZE + 10).
Definition b1 : ion := after (ric_begin 0 mqr SL_READ (env f0)) big.
Definition b2 : ion := after (ric_end 0 mqr SL_READ (env f0)) b1.
Lemma req125 : req_ok off 3.
Proof. split; [unfold off, SLASH_SLVR_SIZE; lia|]. split; unfold off, SLASH_BMAP_SIZE, SLASH_SLVRS_PER_BMAP, SLASH_SLVR_SIZE; lia. Qed.
Lemma parts125 : io_parts off 3 = [(125, 5, 3)].
Proof. vm_compute. reflexivity. Qed.
Lemma good125 : good_env mqr (env f0).
Proof. split; [done|]. split; [done|]. change (mq_offset mqr) with off. change (mq_size mqr) with 3. rewrite parts125. intros p ->%list_elem_of_singleton. reflexivity. Qed.
Lemma run_big : ion_run 0 f0 b2 [] [ev_read off 3 (ir_data (match ric_end 0 mqr SL_READ (env f0) b1 with Done (r, _) => r | Stuck _ => refused 0 end))] [].
Proof.
  destruct (after_done (ric_begin 0 mqr SL_READ (env f0)) big) as [rc Hb]; [vm_compute; exact I|].
  assert (rc = 0) as -> by (assert (match ric_begin 0 mqr SL_READ (env f0) big with Done (rc, _) => rc | Stuck _ => 1 end = 0) as Hc by (vm_compute; reflexivity); by rewrite Hb in Hc).
  destruct (after_done (ric_end 0 mqr SL_READ (env f0)) b1) as [r He]; [vm_compute; exact I|]. rewrite He.
  eapply (run_read 0 f0 b1 (opens SL_READ (io_parts off 3) ++ []) [] [] [] mqr (env f0) b2 r); [|exact req125|done|done|exact He].
  apply (run_begin 0 f0 big [] [] [] mqr SL_READ (env f0) b1); [|exact req125| |exact good125| |exact Hb].
  - apply run_fresh; [|done]. repeat (split; [done|]). done.
  - destruct (io_parts_ok 0 _ _ req125) as (Hok & Hnd & _). split; [exact Hok|]. split; [exact Hnd|]. intros p _. split; apply not_elem_of_nil.
  - intros p _. done.
Qed.
End FaultEx.

Lemma bulk_failure_asserts_witness :
  ∃ s1 s2, ric_end 0 SlvrEx.mq SL_READ (FaultEx.gone (-110)) FaultEx.rd = Done (refused (-110), s1) ∧
    slislvrthr_pick 103 s1 = Done ([0], s2) ∧ slislvrthr_proc 103 0 s2 = Stuck Assertion.
Proof.
  assert (∃ v, io_slvrs FaultEx.rd !! 0 = Some v ∧ slvr_ts v = 100) as (v & Hv & Hts) by (eexists; split; [vm_compute; reflexivity|reflexivity]).
  apply (bulk_failure_asserts 0 SlvrEx.f0 FaultEx.rd [] [ev_write 5 3 SlvrEx.d1] [] SlvrEx.mq (FaultEx.gone (-110)) (0, 5, 3) v 103);
    [lia|exact FaultEx.run_rd|vm_compute; reflexivity|vm_compute; reflexivity|exact Hv|rewrite Hts; reflexivity|discriminate].
Defined.

(** The write of [SlvrEx] on a full disk, and the read after it. *)
Lemma failed_write_visible_witness :
  ∃ r s1 r2 s2 s3, ric_end 0 SlvrEx.mq SL_WRITE FaultEx.full SlvrEx.s1 = Done (r, s1) ∧ ir_mprc r = -28 ∧ io_file s1 = SlvrEx.f0 ∧
    ric_begin 0 SlvrEx.mq SL_READ (SlvrEx.env SlvrEx.f0) s1 = Done (0, s2) ∧ ric_end 0 SlvrEx.mq SL_READ (SlvrEx.env SlvrEx.f0) s2 = Done (r2, s3) ∧
    ir_mprc r2 = 0 ∧ ∀ i, 0 ≤ i < 3 → ir_data r2 i = i + 1.
Proof.
  apply (failed_write_visible 0 SlvrEx.f0 SlvrEx.s1 [] [] [] SlvrEx.mq FaultEx.full (SlvrEx.env SlvrEx.f0) (0, 5, 3));
    [lia|exact FaultEx.run_wr|exact SlvrEx.req|vm_compute; reflexivity|reflexivity|reflexivity|discriminate|reflexivity..].
Defined.

Lemma readahead_past_bmap_witness : slirathr_round 0 0 (λ _, 0) FaultEx.b2 = Stuck OutOfBounds.
Proof.
  eapply (readahead_past_bmap 0 SlvrEx.f0 FaultEx.b2 [] _ [] {| rarq_off := FaultEx.off + 3; rarq_size := 3 |} [] (λ _, 0)).
  - lia.
  - exact FaultEx.run_big.
  - vm_compute. reflexivity.
  - vm_compute. split; [discriminate|reflexivity].
  - intros n _. split; [apply not_elem_of_nil|]. replace (io_crcthr FaultEx.b2) with (@nil Z) by (vm_compute; reflexivity). apply not_elem_of_nil.
  - reflexivity || discriminate.
  - vm_compute. reflexivity.
Defined.
