(* ===== verification/ReplIod.v ===== *)
(** * Replication on the I/O servers

    The destination of a replication gets batches of work from the metadata
    server, reads the slivers of each bmap from a source and answers the batch
    when all its entries are done ([sliod/repl_iod.c], [sliod/rim.c],
    [sliod/rmi.c]); the source serves the reads ([sliod/rii.c]).  The state is
    that of an I/O server with several bmaps, each as in [Slvr.v].  References
    to files and bmaps are not counted. *)
From S2P Require Import Prelude ReplBits ReplWalk BmapMds ReplReq Replay Lease CrcWrite Batch Bandwidth UpSched Slvr SlvrIO.

(** ** Data *)
Definition SLERR_ION_UNKNOWN : Z := SLERR_START + 9.

Abbreviation fidgen := (Z * Z)%type.
Abbreviation bkey := (fidgen * Z)%type.

(** [SLI_REPLWKOP_PTRUNC], [SLI_REPLWKOP_REPL] *)
Inductive replwkop := REPLWKOP_PTRUNC | REPLWKOP_REPL.
(** An entry of [srw_slvr]: NULL, [SLI_REPL_SLVR_SCHED], or a sliver. *)
Inductive rslot := SNull | SSched | SSlvr (n : Z).
#[global] Instance rslot_eq_dec : EqDecision rslot.
Proof. solve_decision. Defined.

Record sli_repl_workrq := {
  srw_fg : fidgen;
  srw_op : replwkop;
  srw_bmapno : Z;
  srw_bgen : Z;
  srw_len : Z;
  srw_src : option Z;        (* srw_src_res *)
  srw_status : Z;
  srw_refcnt : Z;
  srw_nslvr_tot : Z;
  srw_nslvr_cur : Z;
  srw_bchrp : option Z;
  srw_pp : option Z;         (* the position in the reply buffer *)
  srw_slvr : list rslot;
}.
(** The buffer has the [rc] of every entry. *)
Record sli_batch_reply := { bch_id : Z; bch_total : Z; bch_ndone : Z; bch_buf : list Z }.

Record rst := {
  rs_wks : gmap Z sli_repl_workrq;     (* by address *)
  rs_nwk : Z;                          (* how many were allocated so far *)
  rs_active : list Z;                  (* sli_replwkq_active *)
  rs_pending : list Z;                 (* sli_replwkq_pending *)
  rs_bmaps : gmap bkey ion;            (* the bmaps in memory *)
  rs_reads : list (Z * Z);             (* REPL_READ in flight: work item and sliver *)
  rs_bchs : gmap Z sli_batch_reply;    (* by address *)
  rs_nbch : Z;
  rs_ingress : Z;                      (* sbq_ingress *)
  rs_aggr : Z;                         (* sbq_aggr *)
  rs_sent : list (Z * list Z);         (* BATCH_RP sent: the batch and its results *)
}.

(** [lc_add] of libpfl puts an entry on a list; nothing depends on where. *)
Class PflQueue := { lc_add : Z → list Z → list Z }.
Class PflQueueLaws `{PflQueue} := { lc_add_perm x l : lc_add x l ≡ₚ x :: l }.
Class PflTimeo := { PFLERR_TIMEDOUT : Z; PFLERR_TIMEDOUT_pos : 0 < PFLERR_TIMEDOUT; PFLERR_NOTSUP : Z }.

(** An entry of a batch: [srt_replwk_reqent] with its file's generation. *)
Record replwk_req := { rq_src : Z; rq_fg : fidgen; rq_bno : Z; rq_bgen : Z; rq_len : Z }.
(** The results of the calls [sli_repl_addwk] makes, and the bmap that
    [bmap_get] loads when it is not in memory. *)
Record addwk_env := { aw_known : bool; aw_fcmh : Z; aw_bmap : Z; aw_ion : ion }.
(** Those of a read that is sent: for the request, the slab, the transfer. *)
Record issue_env := { is_newreq : Z; is_read : Z; is_bulk : Z; is_add : Z; is_now : Z; is_rpc : Z }.

Section iod.
Context `{PflErr} `{PflCrc} `{PflNet} `{PflQueue} `{PflTimeo}.
Abbreviation RM A := (M rst A).

Definition getW (a : Z) : RM sli_repl_workrq := λ s,
  match rs_wks s !! a with Some w => Done (w, s) | None => Stuck NullDeref end.
Definition rs_with_wks (s : rst) (m : gmap Z sli_repl_workrq) (active pending : list Z) (reads : list (Z * Z)) : rst :=
  {| rs_wks := m; rs_nwk := rs_nwk s; rs_active := active; rs_pending := pending; rs_bmaps := rs_bmaps s; rs_reads := reads;
     rs_bchs := rs_bchs s; rs_nbch := rs_nbch s; rs_ingress := rs_ingress s; rs_aggr := rs_aggr s; rs_sent := rs_sent s |}.
Definition rs_with_bmaps (s : rst) (m : gmap bkey ion) : rst :=
  {| rs_wks := rs_wks s; rs_nwk := rs_nwk s; rs_active := rs_active s; rs_pending := rs_pending s; rs_bmaps := m; rs_reads := rs_reads s;
     rs_bchs := rs_bchs s; rs_nbch := rs_nbch s; rs_ingress := rs_ingress s; rs_aggr := rs_aggr s; rs_sent := rs_sent s |}.
Definition rs_with_bchs (s : rst) (m : gmap Z sli_batch_reply) (nb : Z) (sent : list (Z * list Z)) : rst :=
  {| rs_wks := rs_wks s; rs_nwk := rs_nwk s; rs_active := rs_active s; rs_pending := rs_pending s; rs_bmaps := rs_bmaps s; rs_reads := rs_reads s;
     rs_bchs := m; rs_nbch := nb; rs_ingress := rs_ingress s; rs_aggr := rs_aggr s; rs_sent := sent |}.
Definition rs_with_ingress (s : rst) (n m : Z) : rst :=
  {| rs_wks := rs_wks s; rs_nwk := rs_nwk s; rs_active := rs_active s; rs_pending := rs_pending s; rs_bmaps := rs_bmaps s; rs_reads := rs_reads s;
     rs_bchs := rs_bchs s; rs_nbch := rs_nbch s; rs_ingress := n; rs_aggr := m; rs_sent := rs_sent s |}.
Definition setW (a : Z) (w : sli_repl_workrq) : RM unit :=
  modifyM (λ s, rs_with_wks s (<[a := w]> (rs_wks s)) (rs_active s) (rs_pending s) (rs_reads s)).

Definition w_with (w : sli_repl_workrq) (status refcnt cur : Z) (slots : list rslot) : sli_repl_workrq :=
  {| srw_fg := srw_fg w; srw_op := srw_op w; srw_bmapno := srw_bmapno w; srw_bgen := srw_bgen w; srw_len := srw_len w; srw_src := srw_src w;
     srw_status := status; srw_refcnt := refcnt; srw_nslvr_tot := srw_nslvr_tot w; srw_nslvr_cur := cur; srw_bchrp := srw_bchrp w;
     srw_pp := srw_pp w; srw_slvr := slots |}.
Definition w_key (w : sli_repl_workrq) : bkey := (srw_fg w, srw_bmapno w).

(** An operation on the slivers of a bmap. *)
Definition onIon {A} (k : bkey) (m : M ion A) : RM A := λ s,
  match rs_bmaps s !! k with
  | Some i => match m i with Done (x, i') => Done (x, rs_with_bmaps s (<[k := i']> (rs_bmaps s))) | Stuck w => Stuck w end
  | None => Stuck NullDeref
  end.

(** [sli_repl_findwq] *)
Definition sli_repl_findwq (s : rst) (fg : fidgen) (bno : Z) : option Z :=
  snd <$> list_find (λ a, w_key <$> rs_wks s !! a = Some (fg, bno)) (rs_active s).

(** [sli_bwqueued_adj] for the ingress counter. *)
Definition sli_bwqueued_adj (amt : Z) : RM unit := modifyM (λ s, rs_with_ingress s (rs_ingress s + bw_units amt) (rs_aggr s + bw_units amt)).

(** [sli_rmi_issue_repl_schedwk]: the entry of a batch is done; the last one
    sends the reply.  [rpc] is the result of the calls that send it.  What is
    sent for a partial truncation is not recorded. *)
Definition getBch (b : Z) : RM sli_batch_reply := λ s,
  match rs_bchs s !! b with Some x => Done (x, s) | None => Stuck NullDeref end.
Definition sli_rmi_issue_repl_schedwk (op : replwkop) (status : Z) (bch pp : option Z) (rpc : Z) : RM Z :=
  match op with
  | REPLWKOP_PTRUNC => mret rpc
  | REPLWKOP_REPL =>
      match bch, pp with
      | Some b, Some i =>
          x ← getBch b;
          if negb (0 <=? i) || (i >=? Z.of_nat (length (bch_buf x))) then stuckM OutOfBounds
          else
            let x := {| bch_id := bch_id x; bch_total := bch_total x; bch_ndone := bch_ndone x + 1;
                        bch_buf := <[Z.to_nat i := status]> (bch_buf x) |} in
            _ ← modifyM (λ s, rs_with_bchs s (<[b := x]> (rs_bchs s)) (rs_nbch s) (rs_sent s));
            if bch_ndone x <? bch_total x then mret 0
            else if negb (rpc =? 0) then mret rpc
            else
              _ ← modifyM (λ s, rs_with_bchs s (rs_bchs s) (rs_nbch s) (rs_sent s ++ [(bch_id x, bch_buf x)]));
              mret 0
      | _, _ => stuckM NullDeref
      end
  end.

Definition pflrpc_portable_rc (rc : Z) : Z := if rc =? - ETIMEDOUT then - PFLERR_TIMEDOUT else rc.

(** [sli_replwkrq_decref] *)
Definition sli_replwkrq_decref (a rc rpc : Z) : RM unit :=
  w ← getW a;
  let rc := pflrpc_portable_rc rc in
  let status := if negb (rc =? 0) && (srw_status w =? 0) then rc else srw_status w in
  let w := w_with w status (srw_refcnt w - 1) (srw_nslvr_cur w) (srw_slvr w) in
  _ ← setW a w;
  if negb (srw_refcnt w =? 0) then mret tt
  else
    s ← getM;
    _ ← psc_assert (bool_decide (a ∈ rs_active s));
    _ ← modifyM (λ s, rs_with_wks s (rs_wks s) (filter (λ b, b ≠ a) (rs_active s)) (rs_pending s) (rs_reads s));
    _ ← match srw_op w with REPLWKOP_REPL => sli_bwqueued_adj (- srw_len w) | REPLWKOP_PTRUNC => mret tt end;
    _ ← sli_rmi_issue_repl_schedwk (srw_op w) (srw_status w) (srw_bchrp w) (srw_pp w) rpc;
    modifyM (λ s, rs_with_wks s (delete a (rs_wks s)) (rs_active s) (rs_pending s) (rs_reads s)).

(** [replwk_queue] *)
Definition replwk_queue (a : Z) : RM unit :=
  w ← getW a;
  s ← getM;
  if bool_decide (a ∈ rs_pending s) then mret tt
  else
    _ ← setW a (w_with w (srw_status w) (srw_refcnt w + 1) (srw_nslvr_cur w) (srw_slvr w));
    modifyM (λ s, rs_with_wks s (rs_wks s) (rs_active s) (lc_add a (rs_pending s)) (rs_reads s)).

(** The slivers of a work item are marked in their bmap: the loop over [i] and
    [len]. *)
Definition nslvrs (len : Z) : Z := Z.min SLASH_SLVRS_PER_BMAP (howmany len SLASH_SLVR_SIZE).
Definition want_repl (len : Z) : M ion unit := modifyM (λ s,
  io_with_crc s (imap (λ i st, if Z.of_nat i * SLASH_SLVR_SIZE <? len then setf st BMAP_SLVR_WANTREPL else st) (io_crcstates s)) (io_crcs s)).

(** [sli_repl_addwk] *)
Definition addwk_fail (op : replwkop) (rc : Z) (bch pp : option Z) (rpc : Z) : RM Z :=
  match pp with
  | Some _ => _ ← sli_rmi_issue_repl_schedwk REPLWKOP_REPL rc bch pp rpc; mret rc
  | None => mret rc
  end.
Definition sli_repl_addwk (op : replwkop) (resid : Z) (fg : fidgen) (bno bgen len : Z) (bch pp : option Z) (e : addwk_env) (rpc : Z) : RM Z :=
  if fg.1 =? FID_ANY then addwk_fail op (- EINVAL) bch pp rpc
  else if (len <? 1) || (len >? SLASH_BMAP_SIZE) then addwk_fail op (- EINVAL) bch pp rpc
  else if negb (resid =? IOS_ID_ANY) && negb (aw_known e) then addwk_fail op (- SLERR_ION_UNKNOWN) bch pp rpc
  else
    s ← getM;
    match sli_repl_findwq s fg bno with
    | Some _ => addwk_fail op (- PFLERR_ALREADY) bch pp rpc
    | None =>
        if negb (aw_fcmh e =? 0) then addwk_fail op (aw_fcmh e) bch pp rpc
        else if negb (aw_bmap e =? 0) then addwk_fail op (aw_bmap e) bch pp rpc
        else
          let a := rs_nwk s in
          let k := (fg, bno) in
          _ ← modifyM (λ s, rs_with_bmaps s (<[k := default (aw_ion e) (rs_bmaps s !! k)]> (rs_bmaps s)));
          _ ← match op with
              | REPLWKOP_REPL => _ ← sli_bwqueued_adj len; onIon k (want_repl len)
              | REPLWKOP_PTRUNC => mret tt
              end;
          let tot := match op with REPLWKOP_REPL => nslvrs len | REPLWKOP_PTRUNC => 0 end in
          let w := {| srw_fg := fg; srw_op := op; srw_bmapno := bno; srw_bgen := bgen; srw_len := len;
                      srw_src := if resid =? IOS_ID_ANY then None else Some resid; srw_status := 0; srw_refcnt := 0;
                      srw_nslvr_tot := tot; srw_nslvr_cur := 0; srw_bchrp := bch; srw_pp := pp;
                      srw_slvr := replicate (Z.to_nat SLASH_SLVRS_PER_BMAP) SNull |} in
          _ ← modifyM (λ s, {| rs_wks := <[a := w]> (rs_wks s); rs_nwk := a + 1; rs_active := rs_active s ++ [a]; rs_pending := rs_pending s;
                               rs_bmaps := rs_bmaps s; rs_reads := rs_reads s; rs_bchs := rs_bchs s; rs_nbch := rs_nbch s;
                               rs_ingress := rs_ingress s; rs_aggr := rs_aggr s; rs_sent := rs_sent s |});
          _ ← replwk_queue a;
          mret 0
    end.

(** The length of the read of a sliver: the last one may be short. *)
Definition repl_slvr_len (w : sli_repl_workrq) (n : Z) : Z :=
  if n =? srw_len w / SLASH_SLVR_SIZE then srw_len w mod SLASH_SLVR_SIZE else SLASH_SLVR_SIZE.

(** A sliver of a work item is done, well or not. *)
Definition slvr_finish (a slvridx n now rc rpc : Z) : RM unit :=
  w ← getW a;
  _ ← onIon (w_key w) (slvr_io_done n rc);
  _ ← onIon (w_key w) (slvr_wio_done now n true);
  _ ← setW a (w_with w (srw_status w) (srw_refcnt w) (srw_nslvr_cur w + 1) (<[Z.to_nat slvridx := SNull]> (srw_slvr w)));
  _ ← replwk_queue a;
  sli_replwkrq_decref a rc rpc.

(** [sli_rii_issue_repl_read] *)
Definition sli_rii_issue_repl_read (a slvrno slvridx : Z) (e : issue_env) : RM Z :=
  if negb (is_newreq e =? 0) then mret (is_newreq e)
  else
    w ← getW a;
    _ ← psc_assert (bool_decide (srw_slvr w !! Z.to_nat slvridx = Some SSched));
    _ ← setW a (w_with w (srw_status w) (srw_refcnt w + 1) (srw_nslvr_cur w) (<[Z.to_nat slvridx := SSlvr slvrno]> (srw_slvr w)));
    _ ← onIon (w_key w) (slvr_lookup slvrno);
    rc ← onIon (w_key w) (slvr_io_prep (srw_bmapno w) slvrno 0 SLASH_SLVR_SIZE SL_WRITE 0 (is_read e));
    _ ← psc_assert (rc =? 0);
    let rc := if negb (is_bulk e =? 0) then is_bulk e else is_add e in
    if negb (rc =? 0) then _ ← slvr_finish a slvridx slvrno (is_now e) rc (is_rpc e); mret rc
    else
      _ ← modifyM (λ s, rs_with_wks s (rs_wks s) (rs_active s) (rs_pending s) (rs_reads s ++ [(a, slvrno)]));
      mret 0.

(** [sli_rii_replread_release_sliver]; [sys] is the result of the write. *)
Definition sli_rii_replread_release_sliver (a slvridx rc now sys rpc : Z) : RM Z :=
  w ← getW a;
  match srw_slvr w !! Z.to_nat slvridx with
  | Some (SSlvr n) =>
      if rc =? - SLERR_AIOWAIT then
        _ ← onIon (w_key w) (v ← getSv n;
                             _ ← psc_assert (slvr_refcnt v >? 0);
                             setSv n (sv_with_flags (sv_with_ref v (slvr_refcnt v - 1)) (clrf (slvr_flags v) SLVRF_FAULTING)));
        mret rc
      else
        rc ← (if rc =? 0 then onIon (w_key w) (slvr_fsbytes_wio (srw_bmapno w) n 0 (repl_slvr_len w n) sys) else mret rc);
        _ ← slvr_finish a slvridx n now rc rpc;
        mret rc
  | _ => stuckM NullDeref
  end.

(** [sli_rii_replread_cb] for a read in flight: [d] is what came into the
    slab. *)
Definition sli_rii_replread_cb (a n rc : Z) (d : data) (now sys rpc : Z) : RM Z :=
  _ ← modifyM (λ s, rs_with_wks s (rs_wks s) (rs_active s) (rs_pending s) (filter (λ r, r ≠ (a, n)) (rs_reads s)));
  w ← getW a;
  _ ← onIon (w_key w) (modSv n (λ v, sv_with_slab v (overlay (slvr_slab v) 0 (repl_slvr_len w n) d)));
  match list_find (λ x, x = SSlvr n) (srw_slvr w) with
  | Some (idx, _) => sli_rii_replread_release_sliver a (Z.of_nat idx) rc now sys rpc
  | None => stuckM Assertion
  end.

(** A round of [slireplpndthr_main]; [csvc] is whether there is a connection
    to the source. *)
Definition find_want (l : list Z) : option nat := fst <$> list_find (λ st, hasf st BMAP_SLVR_WANTREPL = true) l.
Definition set_want (n : nat) (on : bool) : M ion unit := modifyM (λ s,
  io_with_crc s (alter (λ st, if on then setf st BMAP_SLVR_WANTREPL else clrf st BMAP_SLVR_WANTREPL) n (io_crcstates s)) (io_crcs s)).
Definition repl_send (a : Z) (w : sli_repl_workrq) (slvrno slvridx : nat) (csvc : bool) (e : issue_env) : RM unit :=
  _ ← onIon (w_key w) (set_want slvrno false);
  _ ← setW a (w_with w (srw_status w) (srw_refcnt w) (srw_nslvr_cur w) (<[slvridx := SSched]> (srw_slvr w)));
  match srw_src w with
  | None => stuckM NullDeref
  | Some _ =>
      _ ← replwk_queue a;
      rc ← (if csvc then sli_rii_issue_repl_read a (Z.of_nat slvrno) (Z.of_nat slvridx) e else mret SLERR_ION_OFFLINE);
      whenM (negb (rc =? 0))
        (w ← getW a;
         _ ← setW a (w_with w (srw_status w) (srw_refcnt w) (srw_nslvr_cur w) (<[slvridx := SNull]> (srw_slvr w)));
         onIon (w_key w) (set_want slvrno true))
  end.
Definition slireplpndthr_round (csvc : bool) (e : issue_env) : RM unit :=
  s ← getM;
  match rs_pending s with
  | [] => stuckM WouldBlock
  | a :: l =>
      _ ← modifyM (λ s, rs_with_wks s (rs_wks s) (rs_active s) l (rs_reads s));
      w ← getW a;
      _ ← (if negb (srw_status w =? 0) then mret tt
           else match srw_op w with
           | REPLWKOP_PTRUNC => mret tt
           | REPLWKOP_REPL =>
               st ← onIon (w_key w) (getsM io_crcstates);
               match find_want st with
               | None => mret tt
               | Some slvrno =>
                   match list_find (λ x, x = SNull) (srw_slvr w) with
                   | None => replwk_queue a
                   | Some (slvridx, _) => repl_send a w slvrno slvridx csvc e
                   end
               end
           end);
      sli_replwkrq_decref a 0 (is_rpc e)
  end.

(** [sli_rim_handle_batch] for the work of replication; the other operation is
    answered with an error. *)
Fixpoint batch_addwk (b : Z) (i : Z) (l : list (replwk_req * addwk_env)) (rpc : Z) : RM unit :=
  match l with
  | [] => mret tt
  | (q, e) :: l =>
      _ ← sli_repl_addwk REPLWKOP_REPL (rq_src q) (rq_fg q) (rq_bno q) (rq_bgen q) (rq_len q) (Some b) (Some i) e rpc;
      batch_addwk b (i + 1) l rpc
  end.
Definition SIZEOF_REPLWK_REQENT : Z := 36.
Definition sli_rim_handle_batch (opc bid len bulk_rc rpc : Z) (l : list (replwk_req * addwk_env)) : RM Z :=
  if (len <? 1) || (len >? LNET_MTU_RIC) then mret (- EINVAL)
  else if negb (bulk_rc =? 0) then mret bulk_rc
  else if opc =? SRMT_REPL_SCHEDWK then
    let total := len / SIZEOF_REPLWK_REQENT in
    s ← getM;
    _ ← modifyM (λ s, rs_with_bchs s (<[rs_nbch s := {| bch_id := bid; bch_total := total; bch_ndone := 0; bch_buf := replicate (Z.to_nat total) 0 |}]> (rs_bchs s))
                        (rs_nbch s + 1) (rs_sent s));
    _ ← batch_addwk (rs_nbch s) 0 l rpc;
    mret 0
  else mret (- PFLERR_NOTSUP).
End iod.

(** ** The source *)
Section source.
Context `{PflErr} `{PflCrc}.
(** [sli_rii_handle_repl_read]; [sys] is the result of the read of the file,
    [bulk_rc] that of the transfer. *)
Definition sli_rii_handle_repl_read (bno fid len slvrno fcmh_rc bmap_rc sys bulk_rc : Z) : M ion (Z * data) :=
  if fid =? FID_ANY then mret (- EINVAL, λ _, 0)
  else if (len <=? 0) || (len >? SLASH_SLVR_SIZE) then mret (- EINVAL, λ _, 0)
  else if (slvrno <? 0) || (slvrno >=? SLASH_SLVRS_PER_BMAP) then mret (- EINVAL, λ _, 0)
  else if negb (fcmh_rc =? 0) then mret (fcmh_rc, λ _, 0)
  else if negb (bmap_rc =? 0) then mret (bmap_rc, λ _, 0)
  else
    _ ← slvr_lookup slvrno;
    rv ← slvr_io_prep bno slvrno 0 len SL_READ 0 sys;
    _ ← slvr_io_done slvrno rv;
    if negb (rv =? 0) then mret (rv, λ _, 0)
    else
      v ← getSv slvrno;
      _ ← slvr_rio_done slvrno;
      mret (bulk_rc, slvr_slab v).
End source.
