(* ===== verification/ReplIodInv.v ===== *)
(** * The invariant of replication on an I/O server

    Work items, the slivers they have in flight, the bmaps they fill and the
    batches they belong to; each operation of [ReplIod.v] against it. *)
From S2P Require Import Prelude ReplBits ReplWalk BmapMds ReplReq Replay Lease CrcWrite Batch Bandwidth UpSched Slvr SlvrIO SlvrInv SlvrReq ReplIod.

Lemma wp_and {S A} (m : M S A) (P Q : A → S → Prop) s : wp m P s → wp m Q s → wp m (λ a s', P a s' ∧ Q a s') s.
Proof. unfold wp. by destruct (m s) as [[a s']|]. Qed.

(** ** One bmap *)
Section local.
Context `{PflErr} `{PflCrc} `{PflNet}.
Context (bno : Z).
Implicit Types (i : ion) (rd : list Z).

(** A sliver that is being filled, as a request open on all of it. *)
Definition full (n : Z) : part := (n, 0, SLASH_SLVR_SIZE).
Definition fopens rd : list openio := opens SL_WRITE (full <$> rd).
Lemma held_fopens rd : held (fopens rd) = rd.
Proof. unfold fopens. rewrite held_opens, <-list_fmap_compose. apply list_fmap_id. Qed.

(** A bmap with the slivers [rd] in flight and none that waits for its CRC. *)
Record lion i rd : Prop := {
  ln_cinv : cinv bno i (fopens rd);
  ln_clean : io_crcq i = [] ∧ io_crcthr i = [];
  ln_slab : ∀ n, n ∈ rd → ∃ v, io_slvrs i !! n = Some v ∧ ((∀ x, slvr_slab v x = 0) ∨ slab_file bno (io_file i) n (slvr_slab v));
}.
Lemma lion_perm i rd rd' : rd ≡ₚ rd' → lion i rd → lion i rd'.
Proof.
  intros Hp [Hc Hcl Hs]. split; [|done|].
  - eapply cinv_perm; [|done]. unfold fopens, opens. by rewrite Hp.
  - intros n. rewrite <-Hp. apply Hs.
Qed.
(** The marks of slivers do not matter for the cache. *)
Lemma lion_states i rd st : length st = length (io_crcstates i) → lion i rd → lion (io_with_crc i st (io_crcs i)) rd.
Proof.
  intros Hl [[? ? Hsv ? ? ? ? ? ? [Hl1 ?]] ? ?]. split; [|done|done]. split; try done.
  - intros k v Hv. destruct (Hsv k v Hv) as [? ? ? ? ? ? ? ? ?]. by split.
  - cbn. by rewrite Hl.
Qed.
Lemma lion_lru i rd n : lion i rd → n ∈ rd → n ∈ io_lru i.
Proof.
  intros [Hc [Hq Ht] _] Hn. destruct (ci_held _ _ _ Hc n) as [Hd%(ci_dom _ _ _ Hc) _]; [by rewrite held_fopens|].
  rewrite Hq, Ht, !app_nil_r in Hd. done.
Qed.

(** A sliver is taken for a transfer: nothing is read for it. *)
Lemma wp_fill_begin i rd n sys (Q : Z → ion → Prop) :
  lion i rd → n ∉ rd → 0 ≤ n < SLASH_SLVRS_PER_BMAP →
  (∀ i', cache_only i i' → lion i' (n :: rd) → Q 0 i') →
  wp (_ ← slvr_lookup n; slvr_io_prep bno n 0 SLASH_SLVR_SIZE SL_WRITE 0 sys) Q i.
Proof.
  intros [Hc [Hq Ht] Hs] Hn Hr HQ.
  assert (Hh : n ∉ held (fopens rd)) by (by rewrite held_fopens).
  assert (Hrun : wp (_ ← slvr_lookup n; slvr_io_prep bno n 0 SLASH_SLVR_SIZE SL_WRITE 0 sys)
    (λ rc i', rc = 0 ∧ (∀ k, k ≠ n → io_slvrs i' !! k = io_slvrs i !! k) ∧
       ∃ v, io_slvrs i' !! n = Some v ∧ ((∀ x, slvr_slab v x = 0) ∨ slab_file bno (io_file i) n (slvr_slab v))) i).
  { wp_step. unfold slvr_lookup. do 2 wp_step. destruct (io_slvrs i !! n) as [v|] eqn:Hv.
    - pose proof (ci_sv _ _ _ Hc n v Hv) as Hok.
      wp_step. wp_step; [rewrite hasf_lor_r, (so_freeing _ _ _ _ _ Hok), (so_err _ _ _ _ _ Hok); done|].
      unfold setSv. wp_step. unfold slvr_io_prep. wp_step. eapply wp_getSv; [apply lookup_insert_eq|]. cbn [slvr_flags sv_with_ref]. wp_step. wp_step.
      { rewrite (so_fault _ _ _ _ _ Hok), !bool_decide_eq_false_2; [done|by rewrite Ht; apply not_elem_of_nil|done]. }
      rewrite (so_err _ _ _ _ _ Hok). wp_step. eapply wp_modSv; [apply lookup_insert_eq|]. rewrite (so_ready _ _ _ _ _ Hok) by (by left). wp_step.
      split; [done|]. io_norm. split; [intros k Hk; by apply lookup_insert_ne|]. eexists. split; [apply lookup_insert_eq|]. right.
      destruct (so_slab _ _ _ _ _ Hok) as [(e & He & <- & _)|]; [|done]. destruct Hh. by apply (held_part e).
    - wp_step. unfold setSv. wp_step. wp_step. unfold slvr_io_prep. wp_step. eapply wp_getSv; [apply lookup_insert_eq|]. wp_step. wp_step; [done|].
      cbn [slvr_flags]. change (hasf SLVRF_LRU SLVRF_DATAERR) with false. cbv iota. wp_step. eapply wp_modSv; [apply lookup_insert_eq|].
      change (hasf SLVRF_LRU SLVRF_DATARDY) with false. rewrite Z.eqb_refl. cbn [andb Z.eqb]. wp_step. split; [done|]. io_norm.
      split; [intros k Hk; by apply lookup_insert_ne|]. eexists. split; [apply lookup_insert_eq|]. by left. }
  eapply wp_mono; [apply wp_and; [exact Hrun|]|].
  - apply (wp_take bno i (fopens rd) SL_WRITE (full n) 0 sys (λ rc i', rc = 0 → cache_only i i' ∧ io_crcq i' = [] ∧ io_crcthr i' = [] ∧ cinv bno i' (fopens (n :: rd)))); [done| |done|rewrite Ht; apply not_elem_of_nil|].
    + split; [done|]. cbn. unfold SLASH_SLVR_SIZE. lia.
    + intros i' rv lru Hco Hq' Ht' _ _ [[-> Hc']|(-> & ? & _)]; [|lia]. intros _. rewrite Hq', Ht'. done.
  - intros rc i' [(-> & Ho & v & Hv & Hz) Hc']. destruct (Hc' eq_refl) as (Hco & Hq' & Ht' & Hci). apply HQ; [done|]. destruct (cache_only_file _ _ Hco) as [Hf _].
    split; [done|done|]. intros k [->|Hk]%elem_of_cons; [exists v; by rewrite Hf|]. rewrite Ho by (by intros ->). rewrite Hf. by apply Hs.
Qed.

(** A sliver whose transfer has ended; its slab may have changed. *)
Record lopen (k : option rw) i rd n : Prop := {
  lo_cinv : cinv bno i ((k, full n) :: fopens rd);
  lo_clean : io_crcq i = [] ∧ io_crcthr i = [];
  lo_slab : ∀ m, m ∈ rd → ∃ v, io_slvrs i !! m = Some v ∧ ((∀ x, slvr_slab v x = 0) ∨ slab_file bno (io_file i) m (slvr_slab v));
}.
Lemma lopen_new k i rd n : lopen k i rd n → n ∉ rd.
Proof. intros [Hc _ _]. pose proof (ci_open _ _ _ Hc) as Hnd. rewrite fmap_cons, held_fopens in Hnd. by apply NoDup_cons in Hnd as [? _]. Qed.
Lemma lopen_lru k i rd n : lopen k i rd n → n ∈ io_lru i.
Proof.
  intros [Hc [Hq Ht] _]. destruct (ci_held _ _ _ Hc n) as [Hd%(ci_dom _ _ _ Hc) _]; [by left|]. rewrite Hq, Ht, !app_nil_r in Hd. done.
Qed.
Lemma lion_open i rd n : lion i (n :: rd) → lopen (Some SL_WRITE) i rd n.
Proof. intros [Hc Hcl Hs]. split; [done|done|]. intros m Hm. apply Hs. by right. Qed.

(** It ends with an error. *)
Lemma wp_fill_err k i rd n now rc (Q : unit → ion → Prop) :
  lopen k i rd n → rc ≠ 0 → (∀ i', cache_only i i' → lion i' rd → Q tt i') →
  wp (_ ← slvr_io_done n rc; slvr_wio_done now n true) Q i.
Proof.
  intros Hl Hrc HQ. pose proof Hl as [Hc [Hq Ht] Hs]. pose proof (lopen_lru _ _ _ _ Hl) as Hlru. pose proof (lopen_new _ _ _ _ Hl) as Hn.
  destruct (ci_held _ _ _ Hc n) as [[v Hv] _]; [by left|]. pose proof (ci_sv _ _ _ Hc _ v Hv) as Hok.
  assert (Ho : wp (_ ← slvr_io_done n rc; slvr_wio_done now n true) (λ _ i', ∀ k, k ≠ n → io_slvrs i' !! k = io_slvrs i !! k) i).
  { wp_step. unfold slvr_io_done. eapply wp_modSv; [done|]. rewrite (proj2 (Z.eqb_neq _ _) Hrc). cbn [negb]. unfold slvr_wio_done, slvr_decref. do 2 wp_step.
    eapply wp_getSv; [apply lookup_insert_eq|]. cbn [slvr_refcnt sv_with_err sv_with_flags].
    rewrite (so_ref _ _ _ _ _ Hok), bool_decide_eq_true_2 by (by left). wp_step. wp_step; [done|]. wp_step. unfold setSv. wp_step. wp_step.
    cbn [slvr_flags sv_with_ref sv_with_err sv_with_flags]. rewrite orb_true_r. unfold slvr_lru_tryunpin_locked. wp_step. eapply wp_getSv; [apply lookup_insert_eq|].
    cbn [slvr_flags slvr_refcnt sv_with_ref sv_with_err sv_with_flags Z.eqb negb orb Z.sub].
    match goal with |- context [hasf ?w SLVRF_CRCDIRTY] => assert (hasf w SLVRF_CRCDIRTY = false) as -> by (flags_goal; rewrite (so_dirty _ _ _ _ _ Hok), bool_decide_eq_true_2; done) end.
    match goal with |- context [hasf ?w (Z.lor SLVRF_DATAERR SLVRF_FREEING)] => assert (hasf w (Z.lor SLVRF_DATAERR SLVRF_FREEING) = true) as -> by (by flags_goal) end.
    change (1 - 1 =? 0) with true. cbn [negb orb]. unfold slvr_remove. wp_step. eapply wp_getSv; [apply lookup_insert_eq|]. wp_step. wp_step. cbn [slvr_flags sv_with_ref sv_with_err sv_with_flags].
    match goal with |- context [hasf ?w SLVRF_LRU] => assert (hasf w SLVRF_LRU = true) as -> by (flags_goal; rewrite (so_lru _ _ _ _ _ Hok), bool_decide_eq_true_2; done) end.
    do 2 wp_step. apply wp_list_del; [done|]. wp_step. wp_step. intros j Hj. io_norm. rewrite delete_insert_eq. by apply lookup_delete_ne. }
  eapply wp_mono; [apply wp_and; [exact Ho|]|].
  - apply (wp_release_err bno i (fopens rd) k (full n) SL_WRITE now true rc (λ _ i', cache_only i i' ∧ io_crcq i' = [] ∧ io_crcthr i' = [] ∧ cinv bno i' (fopens rd))); [done|done|done|].
    intros i' Hco Hc' Ht' Hq' _ _. rewrite Hq', Ht'. done.
  - intros [] i' (Hk & Hco & Hq' & Ht' & Hc'). apply HQ; [done|]. destruct (cache_only_file _ _ Hco) as [Hf _]. split; [done|done|].
    intros m Hm. rewrite Hk, Hf by (by intros ->). by apply Hs.
Qed.

(** What comes into the slab of a sliver: [len] bytes of [d]; behind them are
    zeros, or what the file has. *)
Definition got i n len (d : data) : Prop := ∃ v, io_slvrs i !! n = Some v ∧
  (∀ x, 0 ≤ x < len → slvr_slab v x = d x) ∧
  ((∀ x, len ≤ x < SLASH_SLVR_SIZE → slvr_slab v x = 0) ∨
   (∀ x, len ≤ x < SLASH_SLVR_SIZE → slvr_slab v x = io_file i (slvr_2_fileoff bno n 0 + x))).
Lemma wp_fill_sink i rd n len d (Q : unit → ion → Prop) :
  lion i (n :: rd) → 0 ≤ len →
  (∀ i', cache_only i i' → lopen None i' rd n → got i' n len d → Q tt i') →
  wp (modSv n (λ v, sv_with_slab v (overlay (slvr_slab v) 0 len d))) Q i.
Proof.
  intros Hl Hlen HQ. pose proof (lopen_new _ _ _ _ (lion_open _ _ _ Hl)) as Hn. pose proof Hl as [Hc [Hq Ht] Hs]. destruct (Hs n) as (v & Hv & Hz); [by left|].
  eapply wp_modSv; [done|]. apply HQ; [cache_tac|..].
  - split; [|done|].
    + apply (cinv_slab bno i (fopens rd) (full n) v); [|done]. by apply (cinv_junk bno i (Some SL_WRITE)).
    + intros m Hm. cbn. rewrite lookup_insert_ne by (by intros ->). apply Hs. by right.
  - eexists. split; [apply lookup_insert_eq|]. cbn [slvr_slab sv_with_slab io_file io_with_slvrs]. unfold overlay. split.
    + intros x Hx. destruct (Z.leb_spec 0 x), (Z.ltb_spec x (0 + len)); cbn; try lia. f_equal. lia.
    + destruct Hz as [Hz|Hz]; [left|right]; intros x Hx; destruct (Z.leb_spec 0 x), (Z.ltb_spec x (0 + len)); cbn; try lia; [done|]. by apply Hz; lia.
Qed.

(** The file after the bytes of a sliver were written. *)
Definition filled (f : data) (n len : Z) (d : data) : data := overlay f (slvr_2_fileoff bno n 0) len d.
Lemma wp_fill_write i rd n len d (Q : Z → ion → Prop) :
  0 ≤ bno → lopen None i rd n → got i n len d → 0 ≤ n < SLASH_SLVRS_PER_BMAP → 0 < len ≤ SLASH_SLVR_SIZE →
  (∀ x, len ≤ x < SLASH_SLVR_SIZE → io_file i (slvr_2_fileoff bno n 0 + x) = 0) →
  (∀ i' f' z, (∀ x, f' x = filled (io_file i) n len d x) → i' = io_with_file i f' z → lopen None i' rd n →
     (∃ v, io_slvrs i' !! n = Some v ∧ slab_file bno (io_file i') n (slvr_slab v)) → Q 0 i') →
  wp (slvr_fsbytes_wio bno n 0 len len) Q i.
Proof.
  intros Hb Hl (v & Hv & Hd & Htl) Hn Hlen Hz HQ. pose proof Hl as [Hc Hcl Hs]. pose proof (lopen_new _ _ _ _ Hl) as Hnew.
  set (F := λ x, if decide (slvr_2_fileoff bno n 0 ≤ x < slvr_2_fileoff bno n 0 + SLASH_SLVR_SIZE) then slvr_slab v (x - slvr_2_fileoff bno n 0) else io_file i x).
  assert (HF : slab_file bno F n (slvr_slab v)) by (intros x Hx; unfold F; rewrite decide_True by lia; f_equal; lia).
  assert (Hpos : 0 ≤ slvr_2_fileoff bno n 0) by (unfold slvr_2_fileoff, SLASH_BMAP_SIZE, SLASH_SLVR_SIZE, SLASH_SLVRS_PER_BMAP, SLASH_SLVR_BLKSZ; lia).
  apply (wp_write_one bno F n 0 len Q i v); [split; [done|cbn; lia]|apply Hc|done|done|]. intros f' Hf'. cbn in Hf'.
  change (0 mod SLASH_SLVR_BLKSZ) with 0 in Hf'.
  assert (Hff : ∀ x, f' x = filled (io_file i) n len d x).
  { intros x. rewrite Hf'. unfold filled, overlay, F. destruct (Z.leb_spec (slvr_2_fileoff bno n 0) x), (Z.ltb_spec x (slvr_2_fileoff bno n 0 + len)); cbn;
      repeat case_decide; try lia; try done. apply Hd. lia. }
  assert (Hout : ∀ x, ¬ (slvr_2_fileoff bno n 0 ≤ x < slvr_2_fileoff bno n 0 + len) → f' x = io_file i x).
  { intros x Hx. rewrite Hff. unfold filled, overlay. destruct (Z.leb_spec (slvr_2_fileoff bno n 0) x), (Z.ltb_spec x (slvr_2_fileoff bno n 0 + len)); cbn; lia || done. }
  assert (Hother : ∀ m x, m ≠ n → 0 ≤ x < SLASH_SLVR_SIZE → f' (slvr_2_fileoff bno m 0 + x) = io_file i (slvr_2_fileoff bno m 0 + x)).
  { intros m x Hm Hx. apply Hout. unfold slvr_2_fileoff, SLASH_SLVR_SIZE in *. lia. }
  pose proof (ci_size _ _ _ Hc) as Hsz. eapply (HQ _ f'); [done|reflexivity|..].
  - split; [|done|].
    + apply cinv_file; [done|..].
      * intros x Hx. rewrite Hout by lia. apply (ci_zero _ _ _ Hc). lia.
      * lia.
      * intros m v' Hv'. destruct (decide (m = n)) as [->|Hm]; [left|right].
        -- exists (None, full n). split; [by left|]. split; [done|by left].
        -- intros x Hx. by apply Hother.
    + intros m Hm. destruct (Hs m Hm) as (v' & Hv' & Hz'). exists v'. split; [done|]. destruct Hz' as [?|Hz']; [by left|right].
      intros x Hx. cbn. rewrite Hother; [by apply Hz'|by intros ->|done].
  - exists v. split; [done|]. intros x Hx. cbn. destruct (decide (x < len)).
    + rewrite Hff. unfold filled, overlay. destruct (Z.leb_spec (slvr_2_fileoff bno n 0) (slvr_2_fileoff bno n 0 + x)), (Z.ltb_spec (slvr_2_fileoff bno n 0 + x) (slvr_2_fileoff bno n 0 + len)); cbn; try lia.
      rewrite Hd by lia. f_equal. lia.
    + rewrite Hout by lia. destruct Htl as [Htl|Htl]; rewrite Htl by lia; [|done]. symmetry. apply Hz. lia.
Qed.
Lemma wp_fill_write_err i n v len sys (Q : Z → ion → Prop) :
  io_back i = true → io_slvrs i !! n = Some v → sys < 0 → Q sys i → wp (slvr_fsbytes_wio bno n 0 len sys) Q i.
Proof.
  intros Hb Hv Hs HQ. unfold slvr_fsbytes_wio, slvr_fsio. do 2 wp_step. rewrite Hb. cbn [negb]. wp_step. wp_step; [done|]. wp_step. eapply wp_getSv; [done|].
  destruct (Z.ltb_spec sys 0); [|lia]. by wp_step.
Qed.

(** It ends well. *)
Lemma wp_fill_ok i rd n now (Q : unit → ion → Prop) :
  lopen None i rd n → (∃ v, io_slvrs i !! n = Some v ∧ slab_file bno (io_file i) n (slvr_slab v)) →
  (∀ i', cache_only i i' → lion i' rd → Q tt i') →
  wp (_ ← slvr_io_done n 0; slvr_wio_done now n true) Q i.
Proof.
  intros Hl (v & Hv & Hsl) HQ. pose proof Hl as [Hc [Hq Ht] Hs]. pose proof (lopen_new _ _ _ _ Hl) as Hn.
  apply (wp_release_ok bno i (fopens rd) None (full n) SL_WRITE now true v Q); [done|done|done|].
  intros i' Hco Hc' Ht' _ Hq' Ho. apply HQ; [done|]. destruct (cache_only_file _ _ Hco) as [Hf _]. split; [done|split; [|by rewrite Ht']|].
  - apply elem_of_nil_inv. intros j. rewrite Hq', Hq. intros [?%elem_of_nil|(_ & _ & ?)]; done.
  - intros m Hm. rewrite Ho, Hf by (cbn; by intros ->). by apply Hs.
Qed.
End local.

(** What is outside of the server: what the source has of each bmap, from its
    start on, and the ID of each batch, by the address of its reply. *)
Record world := { g_src : bkey → data; g_bid : Z → Z }.

(** ** Work items *)
Section items.
Context `{PflErr} `{PflCrc} `{PflNet} `{PflQueue} `{PflTimeo}.
Context (src : world).
Implicit Types (s : rst) (i : ion) (rd : list Z) (k : bkey) (w : sli_repl_workrq).

Definition wants i (n : Z) : Prop := ∃ st, io_crcstates i !! Z.to_nat n = Some st ∧ hasf st BMAP_SLVR_WANTREPL = true.
(** The bytes of sliver [n] below [len] are those of the source. *)
Definition copied k i (len n : Z) : Prop :=
  ∀ x, 0 ≤ x < SLASH_SLVR_SIZE → n * SLASH_SLVR_SIZE + x < len → io_file i (slvr_2_fileoff k.2 n 0 + x) = g_src src k (n * SLASH_SLVR_SIZE + x).
Definition copied_all k i (len : Z) : Prop := ∀ n, 0 ≤ n → n * SLASH_SLVR_SIZE < len → copied k i len n.

(** A work item, with whether it is pending, the slivers it has in flight and
    its bmap. *)
Record litem (pend : bool) rd i w : Prop := {
  li_op : srw_op w = REPLWKOP_REPL;
  li_src : is_Some (srw_src w);
  li_bno : 0 ≤ srw_bmapno w;
  li_len : 1 ≤ srw_len w ≤ SLASH_BMAP_SIZE;
  li_ref : srw_refcnt w = (if pend then 1 else 0) + Z.of_nat (length rd);
  li_nslots : length (srw_slvr w) = Z.to_nat SLASH_SLVRS_PER_BMAP;
  li_slots : filter (λ x, x ≠ SNull) (srw_slvr w) ≡ₚ SSlvr <$> rd;
  li_ion : lion (srw_bmapno w) i rd;
  li_want : ∀ n, 0 ≤ n → wants i n → n * SLASH_SLVR_SIZE < srw_len w ∧ n ∉ rd;
  li_rd : ∀ n, n ∈ rd → 0 ≤ n ∧ n * SLASH_SLVR_SIZE < srw_len w;
  li_data : srw_status w = 0 → ∀ n, 0 ≤ n → n * SLASH_SLVR_SIZE < srw_len w → n ∈ rd ∨ wants i n ∨ copied (w_key w) i (srw_len w) n;
  li_tail : ∀ x, srw_len w ≤ x < SLASH_BMAP_SIZE → io_file i (srw_bmapno w * SLASH_BMAP_SIZE + x) = 0;
}.

(** The length of a sliver of an item. *)
Lemma slvr_len_spec w n : 1 ≤ srw_len w → 0 ≤ n → n * SLASH_SLVR_SIZE < srw_len w →
  0 < repl_slvr_len w n ≤ SLASH_SLVR_SIZE ∧ repl_slvr_len w n = Z.min SLASH_SLVR_SIZE (srw_len w - n * SLASH_SLVR_SIZE).
Proof.
  intros Hl Hn Hlt. unfold repl_slvr_len. pose proof (Z.div_mod (srw_len w) SLASH_SLVR_SIZE ltac:(done)) as Hdm.
  pose proof (Z.mod_pos_bound (srw_len w) SLASH_SLVR_SIZE ltac:(done)) as Hm. revert Hdm Hm Hlt. generalize (srw_len w / SLASH_SLVR_SIZE) (srw_len w mod SLASH_SLVR_SIZE).
  unfold SLASH_SLVR_SIZE. intros q r Hdm Hm Hlt. destruct (Z.eqb_spec n q); lia.
Qed.
Lemma item_range w n : 1 ≤ srw_len w ≤ SLASH_BMAP_SIZE → 0 ≤ n → n * SLASH_SLVR_SIZE < srw_len w → 0 ≤ n < SLASH_SLVRS_PER_BMAP.
Proof. unfold SLASH_BMAP_SIZE, SLASH_SLVRS_PER_BMAP, SLASH_SLVR_SIZE. lia. Qed.

(** Bytes of the source that are written keep what was copied. *)
Lemma copied_filled k i i' (len len' n m : Z) d :
  (∀ x, io_file i' x = filled k.2 (io_file i) n len' d x) → (∀ x, 0 ≤ x < len' → d x = g_src src k (n * SLASH_SLVR_SIZE + x)) → len' ≤ SLASH_SLVR_SIZE →
  copied k i len m → copied k i' len m.
Proof.
  intros Hf Hd Hl Hc x Hx Hlt. rewrite Hf. unfold filled, overlay.
  destruct (Z.leb_spec (slvr_2_fileoff k.2 n 0) (slvr_2_fileoff k.2 m 0 + x)), (Z.ltb_spec (slvr_2_fileoff k.2 m 0 + x) (slvr_2_fileoff k.2 n 0 + len')); cbn; try by apply Hc.
  assert (m = n) as -> by (unfold slvr_2_fileoff, SLASH_SLVR_SIZE in *; lia). rewrite Hd by lia. f_equal. lia.
Qed.
Lemma copied_new k i i' (len n : Z) d :
  (∀ x, io_file i' x = filled k.2 (io_file i) n (Z.min SLASH_SLVR_SIZE (len - n * SLASH_SLVR_SIZE)) d x) →
  (∀ x, 0 ≤ x < Z.min SLASH_SLVR_SIZE (len - n * SLASH_SLVR_SIZE) → d x = g_src src k (n * SLASH_SLVR_SIZE + x)) → copied k i' len n.
Proof.
  intros Hf Hd x Hx Hlt. rewrite Hf. unfold filled, overlay.
  destruct (Z.leb_spec (slvr_2_fileoff k.2 n 0) (slvr_2_fileoff k.2 n 0 + x)), (Z.ltb_spec (slvr_2_fileoff k.2 n 0 + x) (slvr_2_fileoff k.2 n 0 + Z.min SLASH_SLVR_SIZE (len - n * SLASH_SLVR_SIZE))); cbn; try lia.
  rewrite Hd by lia. f_equal. lia.
Qed.

(** ** Batches *)

(** What of a work item does not change. *)
Definition proj w : bkey * Z * option Z * option Z := (w_key w, srw_len w, srw_bchrp w, srw_pp w).
Abbreviation pmap := (gmap Z (bkey * Z * option Z * option Z)).
Definition rdsl (reads : list (Z * Z)) (a : Z) : list Z := snd <$> filter (λ r, r.1 = a) reads.
#[local] Arguments rdsl : simpl never.
Definition in_bch (pj : pmap) (b a : Z) : bool := bool_decide ((λ p, p.1.2) <$> pj !! a = Some (Some b)).
Definition ingress_of (pj : pmap) (active : list Z) : Z :=
  foldr (λ a z, match pj !! a with Some p => bw_units p.1.1.2 | None => 0 end + z) 0 active.

(** Entries of a batch that is being taken in: those from [m] on. *)
Definition unseen (op : option (Z * nat)) (b : Z) (len : nat) : nat :=
  match op with Some (b', m) => if decide (b = b') then len - m else 0 | None => 0 end.

(** The replies of the batches [L]. *)
Definition replies (bchs : gmap Z sli_batch_reply) (L : list Z) : list (Z * list Z) := omap (λ b, (λ x, (bch_id x, bch_buf x)) <$> bchs !! b) L.

(** The batches, the requests [Q] they had, and the replies. *)
Record binv (op : option (Z * nat)) (pj : pmap) (active : list Z) (bchs : gmap Z sli_batch_reply) (sent : list (Z * list Z)) (bmaps : gmap bkey ion)
    (Q : gmap Z (list replwk_req)) : Prop := {
  bi_dom : ∀ b, is_Some (bchs !! b) ↔ is_Some (Q !! b);
  bi_id : ∀ b x, bchs !! b = Some x → bch_id x = g_bid src b;
  bi_len : ∀ b x qs, bchs !! b = Some x → Q !! b = Some qs →
    bch_total x = Z.of_nat (length qs) ∧ length (bch_buf x) = length qs ∧ (0 < length qs)%nat ∧
    bch_ndone x + Z.of_nat (length (filter (λ a, in_bch pj b a = true) active)) + Z.of_nat (unseen op b (length qs)) = bch_total x;
  bi_item : ∀ a k len bch pp, pj !! a = Some (k, len, bch, pp) →
    ∃ b j qs q, bch = Some b ∧ pp = Some (Z.of_nat j) ∧ Q !! b = Some qs ∧ qs !! j = Some q ∧ (rq_fg q, rq_bno q) = k ∧ rq_len q = len ∧
      (j < length qs - unseen op b (length qs))%nat;
  bi_inj : ∀ a a' p p', pj !! a = Some p → pj !! a' = Some p' → p.1.2 = p'.1.2 → p.2 = p'.2 → a = a';
  bi_done : ∀ b x qs j q, bchs !! b = Some x → Q !! b = Some qs → qs !! j = Some q → (j < length qs - unseen op b (length qs))%nat →
    (∃ a p, pj !! a = Some p ∧ p.1.2 = Some b ∧ p.2 = Some (Z.of_nat j)) ∨
    (bch_buf x !! j = Some 0 → ∃ io, bmaps !! (rq_fg q, rq_bno q) = Some io ∧ copied_all (rq_fg q, rq_bno q) io (rq_len q));
  bi_sent : ∃ L, NoDup L ∧ (∀ b, b ∈ L ↔ ∃ x, bchs !! b = Some x ∧ bch_ndone x = bch_total x) ∧
    sent = replies bchs L;
}.

(** ** The invariant *)
Record rinvr (op : option (Z * nat)) s (Q : gmap Z (list replwk_req)) : Prop := {
  rr_active : NoDup (rs_active s);
  rr_dom : ∀ a, is_Some (rs_wks s !! a) ↔ a ∈ rs_active s;
  rr_fresh : ∀ a, a ∈ rs_active s → a < rs_nwk s;
  rr_freshb : ∀ b, is_Some (rs_bchs s !! b) → b < rs_nbch s;
  rr_pend : NoDup (rs_pending s);
  rr_pending : ∀ a, a ∈ rs_pending s → a ∈ rs_active s;
  rr_reads : NoDup (rs_reads s);
  rr_inflight : ∀ a n, (a, n) ∈ rs_reads s → a ∈ rs_active s;
  rr_keys : ∀ a a' w w', rs_wks s !! a = Some w → rs_wks s !! a' = Some w' → w_key w = w_key w' → a = a';
  rr_item : ∀ a w, rs_wks s !! a = Some w → 0 < srw_refcnt w ∧
    ∃ i, rs_bmaps s !! w_key w = Some i ∧ litem (bool_decide (a ∈ rs_pending s)) (rdsl (rs_reads s) a) i w;
  rr_free : ∀ k i, rs_bmaps s !! k = Some i → (∀ a w, rs_wks s !! a = Some w → w_key w ≠ k) → lion k.2 i [];
  rr_bw : rs_ingress s = ingress_of (proj <$> rs_wks s) (rs_active s);
  rr_batch : binv op (proj <$> rs_wks s) (rs_active s) (rs_bchs s) (rs_sent s) (rs_bmaps s) Q;
}.

Lemma rdsl_elem R a n : n ∈ rdsl R a ↔ (a, n) ∈ R.
Proof.
  unfold rdsl. split.
  - intros ([a' n'] & -> & [Ha Hin]%list_elem_of_filter)%list_elem_of_fmap_1. cbn in *. by subst.
  - intros Hin. apply (list_elem_of_fmap_2' snd _ (a, n)); [|done]. apply list_elem_of_filter. done.
Qed.
Lemma in_bch_true pj b a : in_bch pj b a = true ↔ ∃ p, pj !! a = Some p ∧ p.1.2 = Some b.
Proof.
  unfold in_bch. rewrite bool_decide_eq_true. destruct (pj !! a) as [p|]; cbn.
  - split; [intros [= Hp]; by exists p|]. intros (p' & [= <-] & ->). done.
  - split; [done|]. by intros (p & ? & _).
Qed.

(** Bmaps may change as long as what was copied stays. *)
Definition keeps_copies (m m' : gmap bkey ion) : Prop :=
  ∀ k i, m !! k = Some i → ∃ i', m' !! k = Some i' ∧ ∀ len n, copied k i len n → copied k i' len n.
Lemma binv_bmaps op pj act bchs sent m m' Q : keeps_copies m m' → binv op pj act bchs sent m Q → binv op pj act bchs sent m' Q.
Proof.
  intros Hm [? ? ? ? ? Hd ?]. split; try done. intros b x qs j q Hb HQ Hq Hj. destruct (Hd b x qs j q Hb HQ Hq Hj) as [?|Hc]; [by left|right].
  intros Hz. destruct (Hc Hz) as (io & Hio & Hcp). destruct (Hm _ _ Hio) as (io' & Hio' & Hcp'). exists io'. split; [done|].
  intros n Hn Hlt. apply Hcp'. by apply Hcp.
Qed.
Lemma keeps_insert (m : gmap bkey ion) k i i' : m !! k = Some i → (∀ len n, copied k i len n → copied k i' len n) → keeps_copies m (<[k := i']> m).
Proof.
  intros Hk Hc k' io Hio. destruct (decide (k' = k)) as [->|Hne].
  - rewrite lookup_insert_eq. exists i'. rewrite Hk in Hio. injection Hio as <-. done.
  - rewrite lookup_insert_ne by done. by exists io.
Qed.

(** A state in which one work item, its bmap and the lists have changed. *)
Definition foc s (a : Z) w i (P : list Z) (R : list (Z * Z)) : rst :=
  rs_with_bmaps (rs_with_wks s (<[a := w]> (rs_wks s)) (rs_active s) P R) (<[w_key w := i]> (rs_bmaps s)).
Lemma foc_id s a w i : rs_wks s !! a = Some w → rs_bmaps s !! w_key w = Some i → foc s a w i (rs_pending s) (rs_reads s) = s.
Proof. intros Hw Hi. unfold foc, rs_with_bmaps, rs_with_wks. cbn. rewrite !insert_id by done. by destruct s. Qed.
Lemma foc_lists s a w i P R : rs_wks s !! a = Some w → rs_bmaps s !! w_key w = Some i → rs_with_wks s (rs_wks s) (rs_active s) P R = foc s a w i P R.
Proof. intros Hw Hi. unfold foc, rs_with_bmaps, rs_with_wks. cbn. by rewrite !insert_id by done. Qed.
Lemma foc_foc s a w i P R w' i' P' R' : w_key w' = w_key w → foc (foc s a w i P R) a w' i' P' R' = foc s a w' i' P' R'.
Proof. intros Hk. unfold foc, rs_with_bmaps, rs_with_wks. cbn. by rewrite Hk, !insert_insert_eq. Qed.

Section focus.
Context (s : rst) (a : Z).
Lemma wp_foc_get w i P R (K : sli_repl_workrq → rst → Prop) : K w (foc s a w i P R) → wp (getW a) K (foc s a w i P R).
Proof. intros HK. unfold wp, getW. cbn. by rewrite lookup_insert_eq. Qed.
Lemma wp_foc_set w w' i P R (K : unit → rst → Prop) : w_key w' = w_key w → K tt (foc s a w' i P R) → wp (setW a w') K (foc s a w i P R).
Proof. intros Hk HK. unfold setW. wp_step. revert HK. unfold foc, rs_with_bmaps, rs_with_wks. cbn. by rewrite Hk, insert_insert_eq. Qed.
Lemma wp_foc_lists w i P R P' R' (K : unit → rst → Prop) : K tt (foc s a w i P' R') →
  wp (modifyM (λ s, rs_with_wks s (rs_wks s) (rs_active s) P' R')) K (foc s a w i P R).
Proof. done. Qed.
Lemma wp_foc_ion {A} w k (m : M ion A) i P R (K : A → rst → Prop) :
  w_key w = k → wp m (λ x i', K x (foc s a w i' P R)) i → wp (onIon k m) K (foc s a w i P R).
Proof.
  intros <-. unfold wp, onIon, foc. cbn. rewrite lookup_insert_eq. destruct (m i) as [[x i']|]; [|done]. unfold rs_with_bmaps, rs_with_wks. cbn. by rewrite insert_insert_eq.
Qed.
Lemma wp_foc_queue w i P R (K : unit → rst → Prop) :
  K tt (if bool_decide (a ∈ P) then foc s a w i P R
        else foc s a (w_with w (srw_status w) (srw_refcnt w + 1) (srw_nslvr_cur w) (srw_slvr w)) i (lc_add a P) R) →
  wp (replwk_queue a) K (foc s a w i P R).
Proof.
  intros HK. unfold replwk_queue. wp_step. apply wp_foc_get. do 2 wp_step. change (rs_pending (foc s a w i P R)) with P.
  destruct (bool_decide (a ∈ P)); wp_step; [done|]. by apply wp_foc_set; [|wp_step].
Qed.
End focus.

(** What a step on one work item keeps. *)
Record fok s (a : Z) w i w' i' (P : list Z) (R : list (Z * Z)) : Prop := {
  fk_w : rs_wks s !! a = Some w;
  fk_i : rs_bmaps s !! w_key w = Some i;
  fk_proj : proj w' = proj w;
  fk_nodup : NoDup P ∧ NoDup R;
  fk_pend : ∀ c, c ≠ a → c ∈ P ↔ c ∈ rs_pending s;
  fk_reads : ∀ c, c ≠ a → rdsl R c = rdsl (rs_reads s) c;
  fk_copied : ∀ len n, copied (w_key w) i len n → copied (w_key w) i' len n;
}.
Lemma rinvr_change op s Q a w w' i i' P R :
  rinvr op s Q → fok s a w i w' i' P R → 0 < srw_refcnt w' → litem (bool_decide (a ∈ P)) (rdsl R a) i' w' →
  rinvr op (foc s a w' i' P R) Q.
Proof.
  intros [Hact Hdom Hfr Hfrb Hpd Hpend Hrd Hinf Hkeys Hitem Hfree Hbw Hb] [Hw Hi Hpj [HndP HndR] HP HR Hc] Hpos Hl.
  assert (Hk' : w_key w' = w_key w) by (by apply (f_equal (λ p, p.1.1.1)) in Hpj). unfold foc. rewrite Hk'.
  assert (Ha : a ∈ rs_active s) by (apply Hdom; by rewrite Hw).
  assert (Hpm : proj <$> <[a := w']> (rs_wks s) = proj <$> rs_wks s).
  { rewrite fmap_insert, Hpj. apply insert_id. by rewrite lookup_fmap, Hw. }
  assert (Hcase : ∀ c v, <[a := w']> (rs_wks s) !! c = Some v → (c = a ∧ v = w') ∨ (c ≠ a ∧ rs_wks s !! c = Some v)).
  { intros c v Hv. destruct (decide (c = a)) as [->|]; [rewrite lookup_insert_eq in Hv; by injection Hv as <-; left|]. rewrite lookup_insert_ne in Hv by done. by right. }
  assert (Hsame : ∀ c v, <[a := w']> (rs_wks s) !! c = Some v → ∃ v0, rs_wks s !! c = Some v0 ∧ w_key v0 = w_key v).
  { intros c v [[-> ->]|[_ Hv]]%Hcase; [exists w|exists v]; by rewrite ?Hk'. }
  split; cbn [rs_with_bmaps rs_with_wks rs_wks rs_nwk rs_active rs_pending rs_bmaps rs_reads rs_bchs rs_nbch rs_ingress rs_aggr rs_sent]; try done.
  - intros c. destruct (decide (c = a)) as [->|]; [rewrite lookup_insert_eq; split; [done|by eexists]|]. by rewrite lookup_insert_ne.
  - intros c Hc'. destruct (decide (c = a)) as [->|Hne]; [done|]. apply Hpend. by apply HP.
  - intros c n Hcn. destruct (decide (c = a)) as [->|Hne]; [done|]. apply rdsl_elem in Hcn. rewrite HR in Hcn by done. apply rdsl_elem in Hcn. by eapply Hinf.
  - intros c c' v v' Hv Hv' Hkk. destruct (Hsame c v Hv) as (v0 & Hv0 & Hk0). destruct (Hsame c' v' Hv') as (v0' & Hv0' & Hk0').
    apply (Hkeys c c' v0 v0'); [done|done|congruence].
  - intros c v [[-> ->]|[Hne Hv]]%Hcase.
    + split; [done|]. exists i'. rewrite Hk'. split; [apply lookup_insert_eq|done].
    + destruct (Hitem c v Hv) as (Hp & io & Hio & Hlc). split; [done|]. exists io. split.
      * rewrite lookup_insert_ne; [done|]. intros Heq. apply Hne. by apply (Hkeys c a v w).
      * rewrite HR by done. rewrite (bool_decide_ext (c ∈ P) (c ∈ rs_pending s)); [done|by apply HP].
  - intros k io Hio Hno. destruct (decide (k = w_key w)) as [->|Hne]; [destruct (Hno a w'); [apply lookup_insert_eq|done]|].
    rewrite lookup_insert_ne in Hio by done. apply (Hfree k io Hio). intros c v Hv. destruct (decide (c = a)) as [->|Hca]; [rewrite Hw in Hv; injection Hv as <-; done|].
    apply (Hno c v). by rewrite lookup_insert_ne.
  - by rewrite Hpm.
  - rewrite Hpm. eapply binv_bmaps; [|done]. by apply (keeps_insert _ _ i).
Qed.

(** ** The end of an entry *)

Definition in_count (pj : pmap) (act : list Z) (b : Z) : nat := length (filter (λ a, in_bch pj b a = true) act).
Definition bch_mark (x : sli_batch_reply) (j : nat) (st : Z) : sli_batch_reply :=
  {| bch_id := bch_id x; bch_total := bch_total x; bch_ndone := bch_ndone x + 1; bch_buf := <[j := st]> (bch_buf x) |}.
Definition sent_mark (x : sli_batch_reply) (sent : list (Z * list Z)) : list (Z * list Z) :=
  if bch_ndone x <? bch_total x then sent else sent ++ [(bch_id x, bch_buf x)].
Lemma wp_sched s b j x st (K : Z → rst → Prop) :
  rs_bchs s !! b = Some x → (j < length (bch_buf x))%nat →
  K 0 (rs_with_bchs s (<[b := bch_mark x j st]> (rs_bchs s)) (rs_nbch s) (sent_mark (bch_mark x j st) (rs_sent s))) →
  wp (sli_rmi_issue_repl_schedwk REPLWKOP_REPL st (Some b) (Some (Z.of_nat j)) 0) K s.
Proof.
  intros Hb Hj HK. unfold sli_rmi_issue_repl_schedwk, sent_mark in *. wp_step. unfold wp at 1, getBch. rewrite Hb.
  destruct (Z.leb_spec 0 (Z.of_nat j)); [|lia]. destruct (Z.geb_spec (Z.of_nat j) (Z.of_nat (length (bch_buf x)))); [lia|]. cbn [negb orb]. do 2 wp_step.
  unfold bch_mark in HK. cbn [bch_id bch_total bch_ndone bch_buf] in *. rewrite Nat2Z.id. destruct (_ <? _); [by wp_step|]. cbn [negb Z.eqb]. do 2 wp_step. by wp_step.
Qed.

(** Entry [j] of batch [b] is answered with [st]; nothing else of any batch
    changes. *)
Record marks (op op' : option (Z * nat)) (pj pj' : pmap) (act act' : list Z) (Q : gmap Z (list replwk_req)) (b : Z) (j : nat) : Prop := {
  mk_sub : ∀ a p, pj' !! a = Some p → pj !! a = Some p ∧ ¬ (p.1.2 = Some b ∧ p.2 = Some (Z.of_nat j));
  mk_gone : ∀ a p, pj !! a = Some p → pj' !! a = Some p ∨ p.1.2 = Some b ∧ p.2 = Some (Z.of_nat j);
  mk_count : ∀ c ys, Q !! c = Some ys →
    (in_count pj' act' c + unseen op' c (length ys) + (if decide (c = b) then 1 else 0) = in_count pj act c + unseen op c (length ys))%nat;
  mk_seen : ∀ c ys j', Q !! c = Some ys → (j' < length ys - unseen op' c (length ys))%nat → ¬ (c = b ∧ j' = j) → (j' < length ys - unseen op c (length ys))%nat;
  mk_unseen : ∀ c n, (unseen op' c n ≤ unseen op c n)%nat;
}.
Lemma binv_mark op op' pj pj' act act' bchs sent bm Q b j x qs q st :
  binv op pj act bchs sent bm Q → marks op op' pj pj' act act' Q b j → bchs !! b = Some x → Q !! b = Some qs → qs !! j = Some q →
  (st = 0 → ∃ io, bm !! (rq_fg q, rq_bno q) = Some io ∧ copied_all (rq_fg q, rq_bno q) io (rq_len q)) →
  binv op' pj' act' (<[b := bch_mark x j st]> bchs) (sent_mark (bch_mark x j st) sent) bm Q.
Proof.
  intros [Hdom Hid Hlen Hitem Hinj Hdone (L & HndL & HL & Hsent)] [Hsub Hgone Hcnt Hseen Huns] Hx HQ Hq Hst.
  destruct (Hlen b x qs Hx HQ) as (Htot & Hbuf & Hpos & Hsum). pose proof (Hcnt b qs HQ) as Hcb. rewrite decide_True in Hcb by done.
  assert (Hlt : bch_ndone x < bch_total x) by (unfold in_count in Hcb; lia).
  assert (HbL : b ∉ L) by (intros (y & Hy & Heq)%HL; rewrite Hx in Hy; injection Hy as <-; lia).
  assert (Hom : ∀ l, b ∉ l → replies (<[b := bch_mark x j st]> bchs) l = replies bchs l).
  { unfold replies. induction l as [|c l IH]; [done|]. intros Hn. apply not_elem_of_cons in Hn as [Hne Hn]. csimpl. rewrite lookup_insert_ne by done. by rewrite IH. }
  assert (Hcase : ∀ c y, <[b := bch_mark x j st]> bchs !! c = Some y → (c = b ∧ y = bch_mark x j st) ∨ (c ≠ b ∧ bchs !! c = Some y)).
  { intros c y Hy. destruct (decide (c = b)) as [->|]; [rewrite lookup_insert_eq in Hy; by injection Hy as <-; left|]. rewrite lookup_insert_ne in Hy by done. by right. }
  split.
  - intros c. destruct (decide (c = b)) as [->|]; [rewrite lookup_insert_eq, HQ; split; by eexists|]. rewrite lookup_insert_ne by done. apply Hdom.
  - intros c y [[-> ->]|[Hne Hy]]%Hcase; [by apply (Hid b x)|by apply Hid].
  - intros c y ys [[-> ->]|[Hne Hy]]%Hcase HQc.
    + rewrite HQ in HQc. injection HQc as <-. cbn. rewrite length_insert. unfold in_count in Hcb. lia.
    + destruct (Hlen c y ys Hy HQc) as (? & ? & ? & ?). pose proof (Hcnt c ys HQc) as Hcc. rewrite decide_False in Hcc by done. unfold in_count in Hcc. lia.
  - intros a k len bch pp Ha. destruct (Hsub _ _ Ha) as [Ha' _]. destruct (Hitem _ _ _ _ _ Ha') as (c & j' & ys & q' & -> & -> & HQc & Hq' & Hk & Hl & Hj').
    exists c, j', ys, q'. pose proof (Huns c (length ys)). do 6 (split; [done|]). lia.
  - intros a a' p p' [Ha _]%Hsub [Ha' _]%Hsub. by apply Hinj.
  - intros c y ys j' q' Hy HQc Hq' Hj'. destruct (decide (c = b ∧ j' = j)) as [[-> ->]|Hne].
    + right. rewrite lookup_insert_eq in Hy. injection Hy as <-. rewrite HQ in HQc. injection HQc as <-. rewrite Hq in Hq'. injection Hq' as <-. cbn.
      rewrite list_lookup_insert_eq by (rewrite Hbuf; by eapply lookup_lt_Some). intros [= ->]. by apply Hst.
    + pose proof (Hseen c ys j' HQc Hj' Hne) as Hj. destruct (Hcase c y Hy) as [[-> ->]|[Hcb' Hy']].
      * rewrite HQ in HQc. injection HQc as <-. destruct (Hdone b x qs j' q' Hx HQ Hq' Hj) as [(a & p & Ha & Hp1 & Hp2)|Hd].
        -- left. exists a, p. destruct (Hgone a p Ha) as [?|[_ Hp]]; [done|]. rewrite Hp2 in Hp. injection Hp as Hp. assert (j' = j) as -> by lia. by destruct Hne.
        -- right. cbn. rewrite list_lookup_insert_ne; [done|]. intros ->. by destruct Hne.
      * destruct (Hdone c y ys j' q' Hy' HQc Hq' Hj) as [(a & p & Ha & Hp1 & Hp2)|Hd]; [|by right]. left. exists a, p.
        destruct (Hgone a p Ha) as [?|[Hp _]]; [done|]. rewrite Hp1 in Hp. by injection Hp.
  - unfold sent_mark. destruct (Z.ltb_spec (bch_ndone (bch_mark x j st)) (bch_total (bch_mark x j st))) as [Hl|Hl]; cbn in Hl.
    + exists L. split; [done|]. split; [|by rewrite Hom]. intros c. rewrite HL. destruct (decide (c = b)) as [->|].
      * rewrite lookup_insert_eq. split; [intros (y & Hy & ?); rewrite Hx in Hy; injection Hy as <-; lia|]. intros (y & [= <-] & Heq). cbn in Heq. lia.
      * by rewrite lookup_insert_ne.
    + exists (L ++ [b]). split; [apply NoDup_app; split; [done|]; split; [|by apply NoDup_singleton]; by intros c Hc ->%list_elem_of_singleton|]. split.
      * intros c. rewrite elem_of_app, list_elem_of_singleton, HL. destruct (decide (c = b)) as [->|].
        -- rewrite lookup_insert_eq. split; [intros _; eexists; split; [done|]; cbn; lia|by right].
        -- rewrite lookup_insert_ne by done. split; [by intros [?|?]|by left].
      * unfold replies at 1. rewrite omap_app. change (omap _ L) with (replies (<[b := bch_mark x j st]> bchs) L). rewrite Hom, Hsent by done. csimpl. by rewrite lookup_insert_eq.
Qed.

(** ** Measure

    What is left to do for a work item: slivers to ask for, slivers in flight,
    and its turn on the pending list. *)
Definition nwants i : nat := length (filter (λ st, hasf st BMAP_SLVR_WANTREPL = true) (io_crcstates i)).
Definition wt (pend : bool) rd i w : nat :=
  (if srw_status w =? 0 then 4 * nwants i else 0) + 2 * length rd + (if pend then 1 else 0).
Definition iw s (a : Z) : nat :=
  match rs_wks s !! a with
  | Some w => match rs_bmaps s !! w_key w with Some i => wt (bool_decide (a ∈ rs_pending s)) (rdsl (rs_reads s) a) i w | None => 0 end
  | None => 0
  end.
Definition rwork s : nat := sum_list (iw s <$> rs_active s).
Lemma sum_off (f g : Z → nat) l a : a ∉ l → (∀ c, c ≠ a → f c = g c) → sum_list (f <$> l) = sum_list (g <$> l).
Proof. intros Ha Hfg. induction l as [|c l IH]; [done|]. apply not_elem_of_cons in Ha as [? ?]. csimpl. rewrite IH, Hfg by done. done. Qed.
Lemma sum_change (f g : Z → nat) l a : NoDup l → a ∈ l → (∀ c, c ≠ a → f c = g c) → (sum_list (f <$> l) + g a = sum_list (g <$> l) + f a)%nat.
Proof.
  intros Hnd Ha Hfg. induction l as [|c l IH]; [by apply elem_of_nil in Ha|]. apply NoDup_cons in Hnd as [Hc Hnd]. csimpl. apply elem_of_cons in Ha as [->|Ha].
  - rewrite (sum_off f g l c) by done. lia.
  - specialize (IH Hnd Ha). rewrite (Hfg c) by (by intros ->). lia.
Qed.
Lemma sum_remove (f g : Z → nat) l a : NoDup l → a ∈ l → (∀ c, c ≠ a → f c = g c) → (sum_list (f <$> filter (λ c, c ≠ a) l) + g a = sum_list (g <$> l))%nat.
Proof.
  intros Hnd Ha Hfg. induction l as [|c l IH]; [by apply elem_of_nil in Ha|]. apply NoDup_cons in Hnd as [Hc Hnd]. apply elem_of_cons in Ha as [->|Ha].
  - rewrite filter_cons_False by auto. csimpl. rewrite filter_ne_notin by done. rewrite (sum_off f g l c) by done. lia.
  - rewrite filter_cons_True by (by intros ->). csimpl. specialize (IH Hnd Ha). rewrite (Hfg c) by (by intros ->). lia.
Qed.
Lemma iw_foc s a w i w' i' P R op Q c : rinvr op s Q → fok s a w i w' i' P R → c ≠ a → iw (foc s a w' i' P R) c = iw s c.
Proof.
  intros Hr [Hw Hi Hpj _ HP HR _] Hne. assert (Hk' : w_key w' = w_key w) by (by apply (f_equal (λ p, p.1.1.1)) in Hpj).
  unfold iw, foc. cbn. rewrite lookup_insert_ne by done. destruct (rs_wks s !! c) as [v|] eqn:Hv; [|done].
  rewrite lookup_insert_ne, HR by (done || (rewrite Hk'; intros Heq; apply Hne; by apply (rr_keys _ _ _ Hr c a v w))).
  destruct (rs_bmaps s !! w_key v); [|done]. by rewrite (bool_decide_ext (c ∈ P) (c ∈ rs_pending s)) by (by apply HP).
Qed.
Lemma iw_foc_eq s a w i P R : iw (foc s a w i P R) a = wt (bool_decide (a ∈ P)) (rdsl R a) i w.
Proof. unfold iw, foc. cbn. by rewrite !lookup_insert_eq. Qed.
Lemma rwork_foc s a w i w' i' P R op Q : rinvr op s Q → fok s a w i w' i' P R →
  (rwork (foc s a w' i' P R) + iw s a = rwork s + wt (bool_decide (a ∈ P)) (rdsl R a) i' w')%nat.
Proof.
  intros Hr Hf. rewrite <-(iw_foc_eq s a w' i' P R). unfold rwork. apply sum_change; [apply Hr|apply Hr; by rewrite (fk_w _ _ _ _ _ _ _ _ Hf)|].
  intros c Hc. by eapply iw_foc.
Qed.

(** ** A work item is destroyed *)
Lemma count_delete (pj : pmap) act a k len b pp c : NoDup act → a ∈ act → pj !! a = Some (k, len, Some b, pp) →
  (in_count (delete a pj) (filter (λ d, d ≠ a) act) c + (if decide (c = b) then 1 else 0) = in_count pj act c)%nat.
Proof.
  intros Hnd Ha Hp. unfold in_count.
  assert (Hoff : ∀ l : list Z, a ∉ l → filter (λ d, in_bch (delete a pj) c d = true) l = filter (λ d, in_bch pj c d = true) l).
  { induction l as [|d l IHl]; [done|]. intros [? ?]%not_elem_of_cons. rewrite !filter_cons, IHl by done.
    by assert (in_bch (delete a pj) c d = in_bch pj c d) as -> by (unfold in_bch; by rewrite lookup_delete_ne). }
  induction act as [|d act IH]; [by apply elem_of_nil in Ha|]. apply NoDup_cons in Hnd as [Hd Hnd]. apply elem_of_cons in Ha as [->|Ha].
  - rewrite (filter_cons_False (λ c, c ≠ d)), filter_ne_notin, Hoff by auto. rewrite (filter_cons (λ x, in_bch pj c x = true)). 
    assert (in_bch pj c d = bool_decide (c = b)) as -> by (unfold in_bch; rewrite Hp; apply bool_decide_ext; cbn; split; congruence).
    destruct (decide (c = b)); [rewrite bool_decide_eq_true_2, decide_True by done|rewrite bool_decide_eq_false_2, decide_False by done]; cbn; lia.
  - rewrite (filter_cons_True (λ c, c ≠ a)) by (by intros ->). rewrite !(filter_cons (λ x, in_bch _ c x = true)). specialize (IH Hnd Ha).
    assert (in_bch (delete a pj) c d = in_bch pj c d) as -> by (unfold in_bch; by rewrite lookup_delete_ne by (by intros ->)).
    destruct (decide (in_bch pj c d = true)); cbn; lia.
Qed.
Lemma ingress_delete (pj : pmap) act a p : NoDup act → a ∈ act → pj !! a = Some p →
  ingress_of (delete a pj) (filter (λ d, d ≠ a) act) + bw_units p.1.1.2 = ingress_of pj act.
Proof.
  intros Hnd Ha Hp. assert (Hoff : ∀ l, a ∉ l → ingress_of (delete a pj) l = ingress_of pj l).
  { induction l as [|d l IHl]; [done|]. intros [? ?]%not_elem_of_cons. unfold ingress_of in *. cbn [foldr]. by rewrite lookup_delete_ne, IHl. }
  induction act as [|d act IH]; [by apply elem_of_nil in Ha|]. apply NoDup_cons in Hnd as [Hd Hnd]. apply elem_of_cons in Ha as [->|Ha].
  - rewrite filter_cons_False, filter_ne_notin, Hoff by auto. unfold ingress_of. cbn [foldr]. rewrite Hp. lia.
  - rewrite filter_cons_True by (by intros ->). specialize (IH Hnd Ha). unfold ingress_of in *. cbn [foldr]. rewrite lookup_delete_ne by (by intros ->). lia.
Qed.

Definition fin s (a : Z) w i (P : list Z) (R : list (Z * Z)) (b : Z) (x : sli_batch_reply) : rst :=
  {| rs_wks := delete a (rs_wks s); rs_nwk := rs_nwk s; rs_active := filter (λ c, c ≠ a) (rs_active s); rs_pending := P;
     rs_bmaps := <[w_key w := i]> (rs_bmaps s); rs_reads := R; rs_bchs := <[b := x]> (rs_bchs s); rs_nbch := rs_nbch s;
     rs_ingress := rs_ingress s + bw_units (- srw_len w); rs_aggr := rs_aggr s + bw_units (- srw_len w); rs_sent := sent_mark x (rs_sent s) |}.
Lemma proj_lookup s a w : rs_wks s !! a = Some w → (proj <$> rs_wks s) !! a = Some (proj w).
Proof. intros Hw. by rewrite lookup_fmap, Hw. Qed.
Lemma marks_delete op s Q a w b j : rinvr op s Q → rs_wks s !! a = Some w → srw_bchrp w = Some b → srw_pp w = Some (Z.of_nat j) →
  marks op op (proj <$> rs_wks s) (proj <$> delete a (rs_wks s)) (rs_active s) (filter (λ c, c ≠ a) (rs_active s)) Q b j.
Proof.
  intros Hr Hw Hb Hj. pose proof (proj_lookup _ _ _ Hw) as Hp. rewrite fmap_delete.
  assert (Ha : a ∈ rs_active s) by (apply Hr; by rewrite Hw). split; [..|done|done].
  - intros c p Hc. destruct (decide (c = a)) as [->|Hne]; [by rewrite lookup_delete_eq in Hc|]. rewrite lookup_delete_ne in Hc by done. split; [done|]. intros [Hp1 Hp2].
    apply Hne. apply (bi_inj _ _ _ _ _ _ _ (rr_batch _ _ _ Hr) c a p _ Hc Hp); cbn; congruence.
  - intros c p Hc. destruct (decide (c = a)) as [->|Hne]; [right|left; by rewrite lookup_delete_ne]. rewrite Hp in Hc. injection Hc as <-. done.
  - intros c ys Hc. rewrite <-(count_delete (proj <$> rs_wks s) (rs_active s) a (w_key w) (srw_len w) b (srw_pp w) c); [lia|apply Hr|done|].
    rewrite Hp. unfold proj. by rewrite Hb.
Qed.
Lemma rinvr_finish op s Q a w w0 i i0 P R b j x :
  rinvr op s Q → fok s a w0 i0 w i P R → a ∉ P → rdsl R a = [] → lion (srw_bmapno w) i [] → 0 < srw_len w →
  (srw_status w = 0 → copied_all (w_key w) i (srw_len w)) →
  srw_bchrp w = Some b → srw_pp w = Some (Z.of_nat j) → rs_bchs s !! b = Some x →
  rinvr op (fin s a w i P R b (bch_mark x j (srw_status w))) Q.
Proof.
  intros Hr Hf HaP HaR Hl Hlen Hcp Hb Hj Hx. pose proof Hf as [Hw Hi Hpj [HndP HndR] HP HR Hc].
  assert (Hk' : w_key w = w_key w0) by (by apply (f_equal (λ p, p.1.1.1)) in Hpj). pose proof (f_equal (λ p, p.1.1.2) Hpj) as Hl'. pose proof (f_equal (λ p, p.1.2) Hpj) as Hb'.
  pose proof (f_equal snd Hpj) as Hj'. cbn in Hl', Hb', Hj'. rewrite Hb in Hb'. rewrite Hj in Hj'.
  pose proof Hr as [Hact Hdom Hfr Hfrb Hpd Hpend Hrd Hinf Hkeys Hitem Hfree Hbw Hbi].
  assert (Ha : a ∈ rs_active s) by (apply Hdom; by rewrite Hw).
  assert (Hcase : ∀ c v, delete a (rs_wks s) !! c = Some v → c ≠ a ∧ rs_wks s !! c = Some v).
  { intros c v Hv. destruct (decide (c = a)) as [->|]; [by rewrite lookup_delete_eq in Hv|]. by rewrite lookup_delete_ne in Hv. }
  split; cbn [fin rs_wks rs_nwk rs_active rs_pending rs_bmaps rs_reads rs_bchs rs_nbch rs_ingress rs_aggr rs_sent]; try done.
  - by apply NoDup_filter.
  - intros c. rewrite list_elem_of_filter. destruct (decide (c = a)) as [->|]; [rewrite lookup_delete_eq; split; [by intros [? ?]|by intros [? _]]|].
    rewrite lookup_delete_ne, Hdom by done. tauto.
  - intros c [_ Hc']%list_elem_of_filter. by apply Hfr.
  - intros c. destruct (decide (c = b)) as [->|]; [intros _; apply Hfrb; by rewrite Hx|]. rewrite lookup_insert_ne by done. apply Hfrb.
  - intros c Hc'. apply list_elem_of_filter. assert (c ≠ a) by (by intros ->). split; [done|]. apply Hpend. by apply HP.
  - intros c n Hcn%rdsl_elem. apply list_elem_of_filter. destruct (decide (c = a)) as [->|Hne]; [rewrite HaR in Hcn; by apply elem_of_nil in Hcn|]. split; [done|].
    rewrite HR in Hcn by done. apply rdsl_elem in Hcn. by eapply Hinf.
  - intros c c' v v' [_ Hv]%Hcase [_ Hv']%Hcase. by apply Hkeys.
  - intros c v [Hne Hv]%Hcase. destruct (Hitem c v Hv) as (Hp & io & Hio & Hlc). split; [done|]. exists io. split.
    + rewrite lookup_insert_ne; [done|]. rewrite Hk'. intros Heq. apply Hne. by apply (Hkeys c a v w0).
    + rewrite HR by done. rewrite (bool_decide_ext (c ∈ P) (c ∈ rs_pending s)); [done|by apply HP].
  - intros k io Hio Hno. destruct (decide (k = w_key w)) as [->|Hne]; [rewrite lookup_insert_eq in Hio; by injection Hio as <-|].
    rewrite lookup_insert_ne in Hio by done. apply (Hfree k io Hio). intros c v Hv. destruct (decide (c = a)) as [->|Hca]; [rewrite Hw in Hv; injection Hv as <-; congruence|].
    apply (Hno c v). by rewrite lookup_delete_ne.
  - rewrite units_neg, fmap_delete by done. pose proof (ingress_delete (proj <$> rs_wks s) (rs_active s) a (proj w0) Hact Ha (proj_lookup _ _ _ Hw)) as Hin.
    change ((proj w0).1.1.2) with (srw_len w0) in Hin. rewrite Hl'. lia.
  - destruct (bi_item _ _ _ _ _ _ _ Hbi a _ _ _ _ (proj_lookup _ _ _ Hw)) as (b1 & j1 & qs & q & Hb1 & Hj1 & HQ & Hq & Hkq & Hlq & _).
    rewrite <-Hb' in Hb1. injection Hb1 as <-. rewrite <-Hj' in Hj1. injection Hj1 as Hj1. assert (j1 = j) as -> by lia.
    apply (binv_mark op op (proj <$> rs_wks s) _ (rs_active s) _ _ _ _ Q b j x qs q); [|by apply (marks_delete _ _ _ _ w0)|done|done|done|].
    + eapply binv_bmaps; [|done]. rewrite Hk'. by apply (keeps_insert _ _ i0).
    + intros Hst. exists i. rewrite Hkq, <-Hk', lookup_insert_eq, Hlq, <-Hl'. split; [done|]. by apply Hcp.
Qed.

(** A reference to a work item is dropped. *)
Definition decr w (rc : Z) : sli_repl_workrq :=
  w_with w (if negb (pflrpc_portable_rc rc =? 0) && (srw_status w =? 0) then pflrpc_portable_rc rc else srw_status w) (srw_refcnt w - 1) (srw_nslvr_cur w) (srw_slvr w).
Lemma wp_decref op s Q a w0 i0 w i P R rc (K : unit → rst → Prop) :
  rinvr op s Q → fok s a w0 i0 w i P R → litem (bool_decide (a ∈ P)) (rdsl R a) i (decr w rc) →
  (srw_refcnt w = 1 → srw_status (decr w rc) = 0 → ∀ n, 0 ≤ n → ¬ wants i n) →
  (∀ s', rinvr op s' Q → (rwork s' + iw s a ≤ rwork s + wt (bool_decide (a ∈ P)) (rdsl R a) i (decr w rc))%nat → K tt s') →
  wp (sli_replwkrq_decref a rc 0) K (foc s a w i P R).
Proof.
  intros Hr Hf Hl Hfin HK. unfold sli_replwkrq_decref. wp_step. apply wp_foc_get. wp_step. fold (decr w rc). apply wp_foc_set; [done|].
  assert (Hf' : fok s a w0 i0 (decr w rc) i P R) by (destruct Hf; by split). pose proof (fk_w _ _ _ _ _ _ _ _ Hf) as Hw.
  pose proof (li_ref _ _ _ _ Hl) as Href.
  destruct (Z.eqb_spec (srw_refcnt (decr w rc)) 0) as [Hz|Hz]; cbn [negb].
  - assert (HaP : a ∉ P) by (intros Hin; rewrite (bool_decide_eq_true_2 _ Hin) in Href; lia).
    assert (HaR : rdsl R a = []) by (destruct (rdsl R a); [done|]; cbn [length] in Href; case_bool_decide; lia).
    assert (Ha : a ∈ rs_active s) by (apply Hr; by rewrite Hw).
    destruct (bi_item _ _ _ _ _ _ _ (rr_batch _ _ _ Hr) a _ _ _ _ (proj_lookup _ _ _ Hw)) as (b & j & qs & q & Hb & Hj & HQ & Hq & Hkq & Hlq & _).
    pose proof (fk_proj _ _ _ _ _ _ _ _ Hf') as Hpj. pose proof (f_equal (λ p, p.1.2) Hpj) as Hb'. pose proof (f_equal snd Hpj) as Hj'. cbn in Hb', Hj'. rewrite Hb in Hb'. rewrite Hj in Hj'.
    destruct (proj2 (bi_dom _ _ _ _ _ _ _ (rr_batch _ _ _ Hr) b)) as [x Hx]; [by rewrite HQ|].
    destruct (bi_len _ _ _ _ _ _ _ (rr_batch _ _ _ Hr) b x qs Hx HQ) as (_ & Hbuf & _ & _).
    do 2 wp_step. wp_step. wp_step; [by apply bool_decide_eq_true_2|]. do 2 wp_step. wp_step. rewrite (li_op _ _ _ _ Hl). unfold sli_bwqueued_adj. wp_step. wp_step.
    change (srw_bchrp (decr w rc)) with (srw_bchrp w). change (srw_pp (decr w rc)) with (srw_pp w). rewrite Hb', Hj'.
    apply (wp_sched _ b j x); [done|rewrite Hbuf; by eapply lookup_lt_Some|]. wp_step.
    assert (Hlion : lion (srw_bmapno (decr w rc)) i []) by (rewrite <-HaR; apply Hl).
    assert (Hcp : srw_status (decr w rc) = 0 → copied_all (w_key (decr w rc)) i (srw_len (decr w rc))).
    { intros Hst n Hn Hlt. destruct (li_data _ _ _ _ Hl Hst n Hn Hlt) as [Hin|[Hwt|?]]; [rewrite HaR in Hin; by apply elem_of_nil in Hin| |done].
      destruct (Hfin ltac:(cbn in Hz; lia) Hst n Hn Hwt). }
    pose proof (rinvr_finish op s Q a (decr w rc) w0 i i0 P R b j x Hr Hf' HaP HaR Hlion ltac:(pose proof (li_len _ _ _ _ Hl); lia) Hcp Hb' Hj' Hx) as Hres.
    match goal with |- K tt ?s' => assert (s' = fin s a (decr w rc) i P R b (bch_mark x j (srw_status (decr w rc)))) as -> end.
    { unfold fin, foc, rs_with_bmaps, rs_with_wks, rs_with_bchs, rs_with_ingress. cbn. by rewrite delete_insert_eq. }
    apply HK; [done|]. unfold rwork.
    enough (sum_list (iw (fin s a (decr w rc) i P R b (bch_mark x j (srw_status (decr w rc)))) <$> filter (λ c, c ≠ a) (rs_active s)) + iw s a = sum_list (iw s <$> rs_active s))%nat
      by (cbn [fin rs_active]; lia).
    apply sum_remove; [apply Hr|done|]. intros c Hc. rewrite <-(iw_foc s a w0 i0 (decr w rc) i P R op Q c) by done. unfold iw, foc, fin. cbn. by rewrite lookup_delete_ne, lookup_insert_ne.
  - wp_step. apply HK.
    + apply (rinvr_change _ _ _ _ w0 _ i0); [done|done| |done]. case_bool_decide; lia.
    + rewrite (rwork_foc _ _ w0 i0 _ _ _ _ op Q Hr Hf'). done.
Qed.
End items.
