(* ===== verification/ReplIodStep.v ===== *)
(** * The steps of replication on an I/O server

    Each operation of [ReplIod.v] keeps the invariant of [ReplIodInv.v]; the
    replies to reads and the rounds of the thread also bring the work closer to
    its end. *)
From S2P Require Import Prelude ReplBits ReplWalk BmapMds ReplReq Replay Lease CrcWrite Batch Bandwidth UpSched Slvr SlvrIO SlvrInv SlvrReq ReplIod ReplIodInv.

(** ** Slots *)
Section slots.
Implicit Types (l : list rslot).
Abbreviation used l := (filter (λ x, x ≠ SNull) l).
Lemma used_insert l idx x : l !! idx = Some SNull → x ≠ SNull → used (<[idx := x]> l) ≡ₚ x :: used l.
Proof.
  intros Hl Hx. pose proof (lookup_lt_Some _ _ _ Hl). rewrite insert_take_drop by done. rewrite <-(take_drop_middle l idx SNull Hl) at 3.
  rewrite !filter_app, filter_cons_True, filter_cons_False by auto. symmetry. apply Permutation_middle.
Qed.
Lemma used_clear l idx x : l !! idx = Some x → x ≠ SNull → used l ≡ₚ x :: used (<[idx := SNull]> l).
Proof.
  intros Hl Hx. pose proof (lookup_lt_Some _ _ _ Hl). rewrite insert_take_drop by done. rewrite <-(take_drop_middle l idx x Hl) at 1.
  rewrite !filter_app, filter_cons_True, filter_cons_False by auto. symmetry. apply Permutation_middle.
Qed.
Lemma find_slot l n : n ∈ used l → ∃ idx, list_find (λ x, x = n) l = Some (idx, n) ∧ l !! idx = Some n.
Proof.
  intros [_ Hin]%list_elem_of_filter. destruct (list_find_elem_of (λ x, x = n) l n Hin eq_refl) as [[idx y] Hf].
  pose proof Hf as (Hl & -> & _)%list_find_Some. eauto.
Qed.
End slots.

(** ** The marks of a bmap *)
Section want_bits.
Implicit Types (l : list Z).
Abbreviation WANT := BMAP_SLVR_WANTREPL.
Abbreviation wanted l := (filter (λ st, hasf st WANT = true) l).
Lemma hasf_clr st : hasf (clrf st WANT) WANT = false.
Proof. rewrite hasf_clrf, Z.ldiff_diag. apply hasf_0_r. Qed.
Lemma hasf_set st : hasf (setf st WANT) WANT = true.
Proof. rewrite hasf_setf. apply orb_true_r. Qed.
Lemma set_clr st : hasf st WANT = true → setf (clrf st WANT) WANT = st.
Proof.
  intros Hs. unfold hasf in Hs. apply negb_true_iff, Z.eqb_neq in Hs. change WANT with (2 ^ 4) in *.
  apply Z.bits_inj'. intros b Hb. unfold setf, clrf. rewrite Z.lor_spec, Z.land_spec, Z.lnot_spec, Z.pow2_bits_eqb by lia. destruct (Z.eqb_spec 4 b) as [<-|]; cbn; [|by rewrite andb_true_r, orb_false_r].
  rewrite orb_true_r. destruct (Z.testbit st 4) eqn:Ht; [done|]. destruct Hs. apply Z.bits_inj'. intros c Hc. rewrite Z.land_spec, Z.pow2_bits_eqb, Z.bits_0 by lia.
  destruct (Z.eqb_spec 4 c) as [<-|]; [by rewrite Ht|apply andb_false_r].
Qed.
Lemma alter_at (f : Z → Z) l n st : l !! n = Some st → alter f n l = <[n := f st]> l.
Proof.
  intros Hl. apply list_eq. intros m. destruct (decide (m = n)) as [->|Hne].
  - rewrite list_lookup_alter_eq, Hl, list_lookup_insert_eq by (by eapply lookup_lt_Some). done.
  - by rewrite list_lookup_alter_ne, list_lookup_insert_ne by done.
Qed.
Lemma wanted_insert l n st st' : l !! n = Some st → hasf st WANT = true → hasf st' WANT = false → (S (length (wanted (<[n := st']> l))) = length (wanted l))%nat.
Proof.
  intros Hl Hs Hs'. pose proof (lookup_lt_Some _ _ _ Hl). rewrite insert_take_drop by done. rewrite <-(take_drop_middle l n st Hl) at 3.
  rewrite !filter_app, (filter_cons_False _ st'), (filter_cons_True _ st), !length_app by (done || by rewrite Hs'). cbn. lia.
Qed.
End want_bits.

Section steps.
Context `{PflErr} `{PflCrc} `{PflNet} `{PflQueue} `{PflTimeo} `{!PflQueueLaws}.
Context (src : world).
Implicit Types (s : rst) (i : ion) (rd : list Z) (k : bkey) (w : sli_repl_workrq).

Lemma wp_foc_decref s a w i P R rc rpc (K : unit → rst → Prop) :
  srw_refcnt w ≠ 1 → K tt (foc s a (decr w rc) i P R) → wp (sli_replwkrq_decref a rc rpc) K (foc s a w i P R).
Proof.
  intros Hr HK. unfold sli_replwkrq_decref. wp_step. apply wp_foc_get. wp_step. fold (decr w rc). apply wp_foc_set; [done|].
  destruct (Z.eqb_spec (srw_refcnt (decr w rc)) 0) as [Hz|Hz]; [cbn in Hz; lia|]. by wp_step.
Qed.

(** A sliver is done with: the slot is free, and the item is pending. *)
Definition slot_done w (idx : nat) (ref : Z) : sli_repl_workrq := w_with w (srw_status w) ref (srw_nslvr_cur w + 1) (<[idx := SNull]> (srw_slvr w)).
Lemma wp_foc_finish s a w i P R idx n now rc rpc (K : unit → rst → Prop) :
  let q := bool_decide (a ∈ P) in
  let w' := slot_done w idx (if q then srw_refcnt w else srw_refcnt w + 1) in
  srw_refcnt w' ≠ 1 →
  wp (_ ← slvr_io_done n rc; slvr_wio_done now n true) (λ _ i', K tt (foc s a (decr w' rc) i' (if q then P else lc_add a P) R)) i →
  wp (slvr_finish a (Z.of_nat idx) n now rc rpc) K (foc s a w i P R).
Proof.
  intros q w' Href Hi. unfold slvr_finish. wp_step. apply wp_foc_get. wp_step. apply wp_foc_ion; [done|]. apply wp_bind_inv in Hi. eapply wp_mono; [exact Hi|].
  intros [] i1 Hi1. cbn beta in Hi1. wp_step. apply wp_foc_ion; [done|]. eapply wp_mono; [exact Hi1|]. intros [] i2 Hi2. cbn beta in Hi2.
  wp_step. apply wp_foc_set; [done|]. wp_step. apply wp_foc_queue. rewrite Nat2Z.id. unfold w', q in *. clear w' q. destruct (bool_decide (a ∈ P)); by apply wp_foc_decref.
Qed.

(** A sliver in flight has come to its end, with [rc]. *)
Definition tail_zero i w : Prop := ∀ x, srw_len w ≤ x < SLASH_BMAP_SIZE → io_file i (srw_bmapno w * SLASH_BMAP_SIZE + x) = 0.
Lemma portable_zero rc : pflrpc_portable_rc rc = 0 → rc = 0.
Proof. unfold pflrpc_portable_rc. destruct (Z.eqb_spec rc (- ETIMEDOUT)); [|done]. pose proof PFLERR_TIMEDOUT_pos. lia. Qed.
Lemma decr_status w rc : srw_status (decr w rc) = 0 → srw_status w = 0 ∧ rc = 0.
Proof.
  cbn. destruct (Z.eqb_spec (pflrpc_portable_rc rc) 0) as [Hz|Hz]; cbn.
  - intros Hs. split; [done|]. by apply portable_zero.
  - destruct (Z.eqb_spec (srw_status w) 0); [done|done].
Qed.
Lemma litem_release pend rd n i i' w idx rc :
  litem src pend (n :: rd) i w → lion (srw_bmapno w) i' rd → io_crcstates i' = io_crcstates i →
  (∀ len m, copied src (w_key w) i len m → copied src (w_key w) i' len m) → (rc = 0 → copied src (w_key w) i' (srw_len w) n) → tail_zero i' w →
  srw_slvr w !! idx = Some (SSlvr n) → n ∉ rd →
  litem src true rd i' (decr (slot_done w idx (if pend then srw_refcnt w else srw_refcnt w + 1)) rc).
Proof.
  intros [Hop Hsrc Hbno Hlen Href Hns Hsl Hion Hwt Hrd Hdata Htl] Hl Hst Hcp Hn Ht Hidx Hnew.
  assert (Hw : ∀ m, wants i' m ↔ wants i m) by (intros m; unfold wants; by rewrite Hst).
  split; cbn [decr slot_done w_with srw_fg srw_op srw_bmapno srw_bgen srw_len srw_src srw_refcnt srw_nslvr_tot srw_slvr]; try done.
  - cbn [length] in Href. destruct pend; lia.
  - by rewrite length_insert.
  - rewrite (used_clear _ _ _ Hidx) in Hsl by done. cbn [fmap list_fmap] in Hsl. by apply Permutation_cons_inv in Hsl.
  - intros m Hm Hwm%Hw. destruct (Hwt m Hm Hwm) as [? Hnot]. split; [done|]. intros Hin. apply Hnot. by right.
  - intros m Hm. apply Hrd. by right.
  - intros [Hst0 ->]%decr_status m Hm Hlt. cbn in Hst0. destruct (Hdata Hst0 m Hm Hlt) as [[->|?]%elem_of_cons|[?|Hc]]; [..|by right; right; apply Hcp].
    + right. right. by apply Hn.
    + by left.
    + right. left. by apply Hw.
Qed.

(** The reads that stay in flight. *)
Lemma rdsl_filter R a n c : c ≠ a → rdsl (filter (λ r, r ≠ (a, n)) R) c = rdsl R c.
Proof.
  intros Hne. unfold rdsl. f_equal. apply list_filter_filter_l. intros [c' m] Hc [= -> ->]. by apply Hne.
Qed.
Lemma rdsl_take R a n : NoDup R → (a, n) ∈ R → rdsl R a ≡ₚ n :: rdsl (filter (λ r, r ≠ (a, n)) R) a.
Proof.
  intros Hnd (l1 & l2 & ->)%list_elem_of_split. apply NoDup_app in Hnd as (_ & Hd & [Hn _]%NoDup_cons).
  rewrite filter_app, filter_cons_False by auto. rewrite !(filter_all _ l1), !(filter_all _ l2).
  - unfold rdsl. rewrite !filter_app, filter_cons_True by done. rewrite !fmap_app. symmetry. apply Permutation_middle.
  - intros r Hr ->. done.
  - intros r Hr ->. apply (Hd _ Hr). by left.
Qed.
Lemma rdsl_nodup R a : NoDup R → NoDup (rdsl R a).
Proof.
  intros Hnd. unfold rdsl. apply (NoDup_fmap_2_strong snd); [|by apply NoDup_filter]. intros [c n] [c' n'] [Hc _]%list_elem_of_filter [Hc' _]%list_elem_of_filter. cbn in *. congruence.
Qed.

Lemma litem_perm pend rd rd' i w : rd ≡ₚ rd' → litem src pend rd i w → litem src pend rd' i w.
Proof.
  intros Hp [? ? ? ? Href ? Hsl Hion Hwt Hrd Hdata ?]. split; try done.
  - by rewrite <-Hp.
  - by rewrite Hsl, Hp.
  - by eapply lion_perm.
  - intros m Hm Hw. rewrite <-Hp. by apply Hwt.
  - intros m. rewrite <-Hp. apply Hrd.
  - intros Hs m Hm Hlt. rewrite <-Hp. by apply Hdata.
Qed.

(** What a reply to a read must be: the bytes of the source when it is not an
    error; the write of them is whole or fails. *)
Definition good_reply w (n rc : Z) (d : data) (sys : Z) : Prop :=
  rc ≠ - SLERR_AIOWAIT ∧ (rc = 0 → (∀ x, 0 ≤ x < repl_slvr_len w n → d x = g_src src (w_key w) (n * SLASH_SLVR_SIZE + x)) ∧ (sys = repl_slvr_len w n ∨ sys < 0)).
(** The write and the end of a sliver, on its bmap. *)
Definition landed w rd n i (rc : Z) i' : Prop :=
  lion (srw_bmapno w) i' rd ∧ io_crcstates i' = io_crcstates i ∧ (∀ len m, copied src (w_key w) i len m → copied src (w_key w) i' len m) ∧
  (rc = 0 → copied src (w_key w) i' (srw_len w) n) ∧ tail_zero i' w.
Lemma landed_err w rd n i i' rc : rc ≠ 0 → cache_only i i' → lion (srw_bmapno w) i' rd → tail_zero i w → landed w rd n i rc i'.
Proof.
  intros Hrc Hco Hl Ht. destruct (cache_only_file _ _ Hco) as [Hf _]. split; [done|]. split; [by destruct Hco as (? & ? & ? & ? & ->)|].
  unfold copied, tail_zero. rewrite Hf. done.
Qed.
Lemma wp_land pend i rd n w rc d now sys (K : Z → ion → Prop) :
  litem src pend (n :: rd) i w → n ∉ rd → good_reply w n rc d sys → (∀ rc' i', landed w rd n i rc' i' → K rc' i') →
  wp (_ ← modSv n (λ v, sv_with_slab v (overlay (slvr_slab v) 0 (repl_slvr_len w n) d));
      rc ← (if rc =? 0 then slvr_fsbytes_wio (srw_bmapno w) n 0 (repl_slvr_len w n) sys else mret rc);
      _ ← (_ ← slvr_io_done n rc; slvr_wio_done now n true);
      mret rc) K i.
Proof.
  intros Hli Hnew [_ Hgood] HK. destruct (li_rd _ _ _ _ _ Hli n) as [Hn Hlt]; [by left|]. pose proof (li_len _ _ _ _ _ Hli) as Hlen. pose proof (li_bno _ _ _ _ _ Hli) as Hb.
  destruct (slvr_len_spec w n) as [Hsl Hmin]; [lia|done|done|]. pose proof (item_range w n Hlen Hn Hlt) as Hr. pose proof (li_tail _ _ _ _ _ Hli) as Htl.
  wp_step. apply (wp_fill_sink (srw_bmapno w) i rd n (repl_slvr_len w n) d); [apply Hli|lia|]. intros i1 Hco1 Hlo Hgot. destruct (cache_only_file _ _ Hco1) as [Hf1 _].
  assert (Hfile : slvr_2_fileoff (srw_bmapno w) n 0 = srw_bmapno w * SLASH_BMAP_SIZE + n * SLASH_SLVR_SIZE) by (unfold slvr_2_fileoff, SLASH_SLVR_BLKSZ, SLASH_BMAP_SIZE, SLASH_SLVR_SIZE; lia).
  assert (Herr : ∀ rc', rc' ≠ 0 → wp (_ ← (_ ← slvr_io_done n rc'; slvr_wio_done now n true); mret rc') K i1).
  { intros rc' Hrc'. wp_step. apply (wp_fill_err (srw_bmapno w) None i1 rd n); [done|done|]. intros i2 Hco2 Hl2. wp_step. apply HK. apply landed_err; [done| |done|done].
    by eapply cache_only_trans. }
  destruct (Z.eqb_spec rc 0) as [->|Hrc]; [|wp_step; wp_step; by apply Herr].
  destruct (Hgood eq_refl) as [Hd [->|Hneg]].
  - wp_step. apply (wp_fill_write (srw_bmapno w) i1 rd n (repl_slvr_len w n) d); [done|done|done|done|lia| |].
    { intros x Hx. rewrite Hf1, Hfile. replace (srw_bmapno w * SLASH_BMAP_SIZE + n * SLASH_SLVR_SIZE + x) with (srw_bmapno w * SLASH_BMAP_SIZE + (n * SLASH_SLVR_SIZE + x)) by lia. apply Htl.
      unfold SLASH_BMAP_SIZE, SLASH_SLVR_SIZE, SLASH_SLVRS_PER_BMAP in *. lia. }
    intros i2 f' z Hf' -> Hlo2 Hslab. wp_step. apply (wp_fill_ok (srw_bmapno w) _ rd n); [done|done|]. intros i3 Hco3 Hl3. wp_step. apply HK.
    destruct (cache_only_file _ _ Hco3) as [Hf3 _]. cbn in Hf3.
    assert (Hff : ∀ x, io_file i3 x = filled (srw_bmapno w) (io_file i) n (repl_slvr_len w n) d x) by (intros x; by rewrite Hf3, Hf', Hf1).
    split; [done|]. split; [destruct Hco3 as (? & ? & ? & ? & ->); by destruct Hco1 as (? & ? & ? & ? & ->)|]. split; [|split].
    + intros len m. apply (copied_filled src (w_key w) i i3 len (repl_slvr_len w n) n m d); [done|done|lia].
    + intros _. apply (copied_new src (w_key w) i i3 (srw_len w) n d); by rewrite <-Hmin.
    + intros x Hx. rewrite Hff. unfold filled, overlay. rewrite Hfile.
      match goal with |- (if ?c then _ else _) = _ => destruct c eqn:Hc end; [|by apply Htl].
      apply andb_true_iff in Hc as [?%Z.leb_le ?%Z.ltb_lt]. unfold SLASH_SLVR_SIZE in *. lia.
  - wp_step. destruct (ci_held _ _ _ (lo_cinv _ _ _ _ _ Hlo) n) as [[v Hv] _]; [by left|].
    apply (wp_fill_write_err _ _ _ v); [apply (ci_back _ _ _ (lo_cinv _ _ _ _ _ Hlo))|done|done|]. apply Herr. lia.
Qed.

(** ** The reply to a read *)
Lemma item_of op s Q a w : rinvr src op s Q → rs_wks s !! a = Some w →
  ∃ i, rs_bmaps s !! w_key w = Some i ∧ litem src (bool_decide (a ∈ rs_pending s)) (rdsl (rs_reads s) a) i w ∧
    iw s a = wt (bool_decide (a ∈ rs_pending s)) (rdsl (rs_reads s) a) i w.
Proof. intros Hr Hw. destruct (rr_item _ _ _ _ Hr a w Hw) as (_ & i & Hi & Hl). exists i. unfold iw. by rewrite Hw, Hi. Qed.
Definition requeue (a : Z) (P : list Z) : list Z := if bool_decide (a ∈ P) then P else lc_add a P.
Lemma requeue_ok a P : NoDup P → NoDup (requeue a P) ∧ a ∈ requeue a P ∧ ∀ c, c ≠ a → c ∈ requeue a P ↔ c ∈ P.
Proof.
  intros Hnd. unfold requeue. case_bool_decide as Hin; [done|]. rewrite lc_add_perm. split; [by apply NoDup_cons|]. split; [by left|].
  intros c Hc. rewrite lc_add_perm, elem_of_cons. tauto.
Qed.
Lemma cb_end op s Q a n w i idx rc i' :
  let R := filter (λ r, r ≠ (a, n)) (rs_reads s) in
  let pend := bool_decide (a ∈ rs_pending s) in
  let w' := decr (slot_done w idx (if pend then srw_refcnt w else srw_refcnt w + 1)) rc in
  rinvr src op s Q → (a, n) ∈ rs_reads s → rs_wks s !! a = Some w → rs_bmaps s !! w_key w = Some i → srw_slvr w !! idx = Some (SSlvr n) →
  litem src pend (n :: rdsl R a) i w → n ∉ rdsl R a → iw s a = wt pend (n :: rdsl R a) i w → landed w (rdsl R a) n i rc i' →
  rinvr src op (foc s a w' i' (requeue a (rs_pending s)) R) Q ∧ (rwork (foc s a w' i' (requeue a (rs_pending s)) R) < rwork s)%nat.
Proof.
  intros R pend w' Hr Hin Hw Hi Hidx Hl Hnew Hiw (Hlion & Hst & Hcp & Hn & Ht). destruct (requeue_ok a _ (rr_pend _ _ _ _ Hr)) as (Hnd & Ha & Hoth).
  pose proof (litem_release pend (rdsl R a) n i i' w idx rc Hl Hlion Hst Hcp Hn Ht Hidx Hnew) as Hli.
  assert (Hf : fok src s a w i w' i' (requeue a (rs_pending s)) R).
  { split; try done; [split; [done|]; apply NoDup_filter; apply Hr|]. intros c Hc. by apply rdsl_filter. }
  split.
  - apply (rinvr_change _ _ _ _ _ w _ i); [done|done|fold w' in Hli; rewrite (li_ref _ _ _ _ _ Hli); lia|]. by rewrite bool_decide_eq_true_2.
  - pose proof (rwork_foc src s a w i w' i' _ R op Q Hr Hf) as Hwk. rewrite Hiw, bool_decide_eq_true_2 in Hwk by done. unfold wt, nwants in Hwk. rewrite Hst in Hwk. cbn [length] in Hwk.
    assert ((if (srw_status w' =? 0)%Z then 4 * length (filter (λ st, hasf st BMAP_SLVR_WANTREPL = true) (io_crcstates i)) else 0) ≤
            (if (srw_status w =? 0)%Z then 4 * length (filter (λ st, hasf st BMAP_SLVR_WANTREPL = true) (io_crcstates i)) else 0))%nat.
    { destruct (Z.eqb_spec (srw_status w') 0) as [[Hs _]%decr_status|]; [|lia]. cbn in Hs. rewrite Hs. cbn. lia. }
    destruct pend; lia.
Qed.
Lemma wp_cb op s Q a n rc d now sys w (K : Z → rst → Prop) :
  rinvr src op s Q → (a, n) ∈ rs_reads s → rs_wks s !! a = Some w → good_reply w n rc d sys →
  (∀ r s', rinvr src op s' Q → (rwork s' < rwork s)%nat → K r s') →
  wp (sli_rii_replread_cb a n rc d now sys 0) K s.
Proof.
  intros Hr Hin Hw Hgood HK. destruct (item_of _ _ _ _ _ Hr Hw) as (i & Hi & Hl & Hiw). set (R := filter (λ r, r ≠ (a, n)) (rs_reads s)).
  pose proof (rdsl_take _ _ _ (rr_reads _ _ _ _ Hr) Hin) as Hp. fold R in Hp. pose proof (rdsl_nodup _ a (rr_reads _ _ _ _ Hr)) as Hnd. rewrite Hp in Hnd. apply NoDup_cons in Hnd as [Hnew _].
  pose proof (litem_perm _ _ _ _ _ Hp Hl) as Hl'. assert (Hiw' : iw s a = wt (bool_decide (a ∈ rs_pending s)) (n :: rdsl R a) i w) by (rewrite Hiw; unfold wt; by rewrite Hp).
  destruct (find_slot (srw_slvr w) (SSlvr n)) as (idx & Hfind & Hidx); [rewrite (li_slots _ _ _ _ _ Hl'); by left|].
  pose proof (wp_land _ i _ n w rc d now sys _ Hl' Hnew Hgood (λ rc' i' Hla, Hla)) as Hland. apply wp_bind_inv in Hland.
  assert (Hfin : ∀ rc' i1, wp (_ ← (_ ← slvr_io_done n rc'; slvr_wio_done now n true); mret rc') (landed w (rdsl R a) n i) i1 →
            wp (_ ← slvr_finish a (Z.of_nat idx) n now rc' 0; mret rc') K (foc s a w i1 (rs_pending s) R)).
  { intros rc' i1 Hd%wp_bind_inv. wp_step. apply wp_foc_finish.
    - cbn. pose proof (li_ref _ _ _ _ _ Hl') as Href. cbn [length] in Href. destruct (bool_decide _); lia.
    - eapply wp_mono; [exact Hd|]. intros [] i2 Hla. wp_step. destruct (cb_end op s Q a n w i idx rc' i2) as [? ?]; try done. by apply HK. }
  unfold sli_rii_replread_cb. wp_step. wp_step. fold R. rewrite (foc_lists s a w i) by done. wp_step. apply wp_foc_get. wp_step. apply wp_foc_ion; [done|].
  eapply wp_mono; [exact Hland|]. clear Hland. intros [] i1 Hland. rewrite Hfind. unfold sli_rii_replread_release_sliver. wp_step. apply wp_foc_get.
  rewrite Nat2Z.id, Hidx. rewrite (proj2 (Z.eqb_neq _ _) (proj1 Hgood)). apply wp_bind_inv in Hland. wp_step. destruct (rc =? 0).
  - apply wp_foc_ion; [done|]. eapply wp_mono; [exact Hland|]. intros rc' i2. apply Hfin.
  - wp_step. by apply Hfin.
Qed.

(** ** A round of the thread *)

(** What sending a read leads to: nothing when there is no connection or no
    request, an error that is kept in the item, or a sliver in flight. *)
Inductive sent_as w i rd (n idx : nat) (P : list Z) (R : list (Z * Z)) (a : Z) (go : bool) : sli_repl_workrq → ion → list Z → list (Z * Z) → Prop :=
  | sent_stalled : go = false → sent_as w i rd n idx P R a go (w_with w (srw_status w) (srw_refcnt w + 1) (srw_nslvr_cur w) (srw_slvr w)) i (lc_add a P) R
  | sent_failed st i' : go = true → st ≠ 0 → lion (srw_bmapno w) i' rd → io_crcstates i' = io_crcstates i → io_file i' = io_file i →
      sent_as w i rd n idx P R a go (w_with w st (srw_refcnt w + 1) (srw_nslvr_cur w + 1) (srw_slvr w)) i' (lc_add a P) R
  | sent_ok st i' : go = true → io_crcstates i !! n = Some st → hasf st BMAP_SLVR_WANTREPL = true →
      lion (srw_bmapno w) i' (Z.of_nat n :: rd) → io_crcstates i' = <[n := clrf st BMAP_SLVR_WANTREPL]> (io_crcstates i) → io_file i' = io_file i →
      sent_as w i rd n idx P R a go (w_with w (srw_status w) (srw_refcnt w + 1 + 1) (srw_nslvr_cur w) (<[idx := SSlvr (Z.of_nat n)]> (srw_slvr w))) i' (lc_add a P) (R ++ [(a, Z.of_nat n)]).

Lemma io_crc_id i st crcs : io_with_crc (io_with_crc i st crcs) (io_crcstates i) (io_crcs i) = i.
Proof. by destruct i. Qed.
Lemma w_with_with w st ref cur sl st' ref' cur' sl' : w_with (w_with w st ref cur sl) st' ref' cur' sl' = w_with w st' ref' cur' sl'.
Proof. done. Qed.
(** An error takes the mark back. *)
Lemma wp_unsend s a w i P n idx st w' i' R (K : unit → rst → Prop) :
  io_crcstates i !! n = Some st → hasf st BMAP_SLVR_WANTREPL = true →
  w_key w' = w_key w → io_crcstates i' = <[n := clrf st BMAP_SLVR_WANTREPL]> (io_crcstates i) → io_crcs i' = io_crcs i →
  K tt (foc s a (w_with w' (srw_status w') (srw_refcnt w') (srw_nslvr_cur w') (<[idx := SNull]> (srw_slvr w'))) (io_with_crc i' (io_crcstates i) (io_crcs i)) P R) →
  wp (w ← getW a; _ ← setW a (w_with w (srw_status w) (srw_refcnt w) (srw_nslvr_cur w) (<[idx := SNull]> (srw_slvr w))); onIon (w_key w) (set_want n true)) K
    (foc s a w' i' P R).
Proof.
  intros Hst Hwant Hk Hs' Hc' HK. wp_step. apply wp_foc_get. wp_step. apply wp_foc_set; [done|]. apply wp_foc_ion; [done|]. unfold set_want. wp_step.
  rewrite Hs', Hc', (alter_at _ _ _ (clrf st BMAP_SLVR_WANTREPL)) by (apply list_lookup_insert_eq; by eapply lookup_lt_Some).
  rewrite set_clr, (list_insert_insert_eq (io_crcstates i)), (list_insert_id (io_crcstates i)) by done. done.
Qed.
Lemma wp_send s a w i P n idx st csvc e (K : unit → rst → Prop) :
  let rd := rdsl (rs_reads s) a in
  litem src true rd i w → a ∉ P → io_crcstates i !! n = Some st → hasf st BMAP_SLVR_WANTREPL = true → srw_slvr w !! idx = Some SNull → srw_status w = 0 → is_rpc e = 0 →
  (∀ w' i' P' R', sent_as w i rd n idx P (rs_reads s) a (csvc && (is_newreq e =? 0)) w' i' P' R' → K tt (foc s a w' i' P' R')) →
  wp (repl_send a w n idx csvc e) K (foc s a w i P (rs_reads s)).
Proof.
  intros rd Hl HaP Hst Hwant Hidx Hs0 Hrpc HK. pose proof (lookup_lt_Some _ _ _ Hidx) as Hlt.
  set (i1 := io_with_crc i (<[n := clrf st BMAP_SLVR_WANTREPL]> (io_crcstates i)) (io_crcs i)).
  assert (Hl1 : lion (srw_bmapno w) i1 rd) by (apply lion_states; [by rewrite length_insert|apply Hl]).
  destruct (li_want _ _ _ _ _ Hl (Z.of_nat n)) as [Hnl Hnr]; [lia|exists st; by rewrite Nat2Z.id|].
  pose proof (item_range w (Z.of_nat n) (li_len _ _ _ _ _ Hl) ltac:(lia) Hnl) as Hrange.
  unfold repl_send. wp_step. apply wp_foc_ion; [done|]. unfold set_want at 1. wp_step. rewrite (alter_at _ _ _ st) by done. fold i1. wp_step. apply wp_foc_set; [done|].
  destruct (li_src _ _ _ _ _ Hl) as [srcres ->]. wp_step. apply wp_foc_queue. rewrite bool_decide_eq_false_2 by done. wp_step.
  assert (Hstall : csvc && (is_newreq e =? 0) = false → ∀ i' R', i' = i1 → R' = rs_reads s →
    wp (w ← getW a; _ ← setW a (w_with w (srw_status w) (srw_refcnt w) (srw_nslvr_cur w) (<[idx := SNull]> (srw_slvr w))); onIon (w_key w) (set_want n true)) K
      (foc s a (w_with w (srw_status w) (srw_refcnt w + 1) (srw_nslvr_cur w) (<[idx := SSched]> (srw_slvr w))) i' (lc_add a P) R')).
  { intros Hgo i' R' -> ->. apply (wp_unsend s a w i _ n idx st); [done|done|done|done|done|]. cbn [w_with srw_status srw_refcnt srw_nslvr_cur srw_slvr]. rewrite (list_insert_insert_eq (srw_slvr w)), (list_insert_id (srw_slvr w) idx SNull) by done.
    unfold i1. rewrite io_crc_id. exact (HK _ _ _ _ (sent_stalled w i rd n idx P (rs_reads s) a _ Hgo)). }
  destruct csvc; [|wp_step; apply wp_when; [intros _; by apply Hstall|done]]. unfold sli_rii_issue_repl_read. destruct (Z.eqb_spec (is_newreq e) 0) as [Hnew|Hnew]; cbn [negb].
  2: { wp_step. apply wp_when; [intros _; by apply Hstall|]. intros Heq%negb_false_iff%Z.eqb_eq. done. }
  wp_step. apply wp_foc_get. cbn [w_with srw_slvr]. rewrite !Nat2Z.id. wp_step. wp_step; [by apply bool_decide_eq_true_2, list_lookup_insert_eq|]. wp_step. apply wp_foc_set; [done|].
  assert (Hfill : wp (_ ← slvr_lookup (Z.of_nat n); slvr_io_prep (srw_bmapno w) (Z.of_nat n) 0 SLASH_SLVR_SIZE SL_WRITE 0 (is_read e))
    (λ rc i', rc = 0 ∧ cache_only i1 i' ∧ lion (srw_bmapno w) i' (Z.of_nat n :: rd)) i1) by (by apply (wp_fill_begin _ i1 rd)).
  apply wp_bind_inv in Hfill. wp_step. apply wp_foc_ion; [done|]. eapply wp_mono; [exact Hfill|]. clear Hfill. intros [] i2 Hfill. cbn beta in Hfill.
  wp_step. apply wp_foc_ion; [done|]. eapply wp_mono; [exact Hfill|]. clear Hfill i2. intros rc0 i2 (-> & Hco & Hl2). wp_step. wp_step; [done|]. rewrite Hrpc.
  destruct (cache_only_file _ _ Hco) as [Hf2 _]. assert (Hs2 : io_crcstates i2 = io_crcstates i1 ∧ io_crcs i2 = io_crcs i) by (by destruct Hco as (? & ? & ? & ? & ->)).
  set (rc := if negb (is_bulk e =? 0) then is_bulk e else is_add e). cbv zeta. fold rc. destruct (Z.eqb_spec rc 0) as [Hrc|Hrc]; cbn [negb].
  - wp_step. wp_step. wp_step. apply wp_when; [done|]. intros _.
    assert (Hs := HK _ _ _ _ (sent_ok w i rd n idx P (rs_reads s) a _ st i2 eq_refl Hst Hwant Hl2 (proj1 Hs2) Hf2)).
    revert Hs. unfold foc, rs_with_wks, rs_with_bmaps. cbn. by rewrite list_insert_insert_eq.
  - wp_step. apply wp_foc_finish; rewrite !bool_decide_eq_true_2 by (rewrite lc_add_perm; by left).
    + cbn. pose proof (li_ref _ _ _ _ _ Hl) as Href. cbn in Href. lia.
    + apply (wp_fill_err (srw_bmapno w) (Some SL_WRITE) i2 rd (Z.of_nat n)); [by apply lion_open|done|]. intros i3 Hco3 Hl3. wp_step. apply wp_when; [intros _|by rewrite (proj2 (Z.eqb_neq _ _) Hrc)].
      destruct (cache_only_file _ _ Hco3) as [Hf3 _]. assert (Hs3 : io_crcstates i3 = io_crcstates i2 ∧ io_crcs i3 = io_crcs i2) by (by destruct Hco3 as (? & ? & ? & ? & ->)).
      destruct Hs2 as [Hs2 Hc2], Hs3 as [Hs3 Hc3]. apply (wp_unsend s a w i _ n idx st); [done|done|done|by rewrite Hs3, Hs2|congruence|].
      assert (Hl4 : lion (srw_bmapno w) (io_with_crc i3 (io_crcstates i) (io_crcs i)) rd).
      { rewrite <-Hc2, <-Hc3. apply lion_states; [rewrite Hs3, Hs2; unfold i1; cbn; by rewrite length_insert|done]. }
      assert (Hst4 : pflrpc_portable_rc rc ≠ 0) by (by intros ?%portable_zero).
      assert (Hs := HK _ _ _ _ (sent_failed w i rd n idx P (rs_reads s) a _ (pflrpc_portable_rc rc) _ eq_refl Hst4 Hl4 eq_refl (eq_trans Hf3 Hf2))).
      revert Hs. unfold decr, slot_done. cbn [w_with srw_status srw_refcnt srw_nslvr_cur srw_slvr]. rewrite Hs0, (proj2 (Z.eqb_neq _ _) Hst4). cbn [negb andb Z.eqb].
      rewrite !w_with_with, !list_insert_insert_eq, list_insert_id by done. by replace (srw_refcnt w + 1 + 1 - 1) with (srw_refcnt w + 1) by lia.
Qed.

Lemma decr_zero w : decr w 0 = w_with w (srw_status w) (srw_refcnt w - 1) (srw_nslvr_cur w) (srw_slvr w).
Proof. done. Qed.
Lemma litem_drop rd i w : litem src true rd i w → litem src false rd i (decr w 0).
Proof.
  rewrite decr_zero. intros [? ? ? ? Href ? ? ? ? ? ? ?]. split; cbn [w_with srw_fg srw_op srw_bmapno srw_bgen srw_len srw_src srw_refcnt srw_nslvr_tot srw_slvr srw_status]; try done. lia.
Qed.
Lemma litem_failed rd i i' w st cur :
  litem src true rd i w → lion (srw_bmapno w) i' rd → io_crcstates i' = io_crcstates i → io_file i' = io_file i → st ≠ 0 →
  litem src true rd i' (w_with w st (srw_refcnt w) cur (srw_slvr w)).
Proof.
  intros [? ? ? ? Href ? ? ? Hwt ? ? Htl] Hl Hs Hf Hst. split; cbn [w_with srw_fg srw_op srw_bmapno srw_bgen srw_len srw_src srw_refcnt srw_nslvr_tot srw_slvr srw_status]; try done.
  - intros n Hn. unfold wants. rewrite Hs. by apply Hwt.
  - by rewrite Hf.
Qed.
Lemma litem_sent rd i i' w n idx st :
  litem src true rd i w → srw_slvr w !! idx = Some SNull → io_crcstates i !! n = Some st → hasf st BMAP_SLVR_WANTREPL = true →
  lion (srw_bmapno w) i' (Z.of_nat n :: rd) → io_crcstates i' = <[n := clrf st BMAP_SLVR_WANTREPL]> (io_crcstates i) → io_file i' = io_file i →
  litem src true (Z.of_nat n :: rd) i' (w_with w (srw_status w) (srw_refcnt w + 1) (srw_nslvr_cur w) (<[idx := SSlvr (Z.of_nat n)]> (srw_slvr w))).
Proof.
  intros [? ? ? ? Href ? Hsl ? Hwt Hrd Hdata Htl] Hidx Hst Hwant Hl Hs Hf. destruct (Hwt (Z.of_nat n)) as [Hlt Hnr]; [lia|exists st; by rewrite Nat2Z.id|].
  assert (Hw : ∀ m, 0 ≤ m → wants i' m ↔ wants i m ∧ m ≠ Z.of_nat n).
  { intros m Hm. unfold wants. rewrite Hs. destruct (decide (m = Z.of_nat n)) as [->|Hne].
    - rewrite Nat2Z.id, list_lookup_insert_eq by (by eapply lookup_lt_Some). split; [|by intros [_ ?]]. intros (st' & [= <-] & Hh). by rewrite hasf_clr in Hh.
    - rewrite list_lookup_insert_ne by lia. tauto. }
  split; cbn [w_with srw_fg srw_op srw_bmapno srw_bgen srw_len srw_src srw_refcnt srw_nslvr_tot srw_slvr srw_status]; try done.
  - cbn [length]. lia.
  - by rewrite length_insert.
  - rewrite used_insert by done. csimpl. by rewrite Hsl.
  - intros m Hm [Hwm Hne]%Hw; [|done]. destruct (Hwt m Hm Hwm) as [? ?]. split; [done|]. by intros [?|?]%elem_of_cons.
  - intros m [->|Hm]%elem_of_cons; [lia|by apply Hrd].
  - intros Hs0 m Hm Hlt'. destruct (decide (m = Z.of_nat n)) as [->|Hne]; [left; by left|]. destruct (Hdata Hs0 m Hm Hlt') as [?|[?|Hc]]; [left; by right|right; left; by apply Hw|right; right].
    unfold copied. by rewrite Hf.
  - by rewrite Hf.
Qed.

(** A slot is free as long as a sliver is wanted. *)
Lemma slot_free rd i w n : litem src true rd i w → NoDup rd → 0 ≤ n → wants i n → list_find (λ x, x = SNull) (srw_slvr w) ≠ None.
Proof.
  intros Hl Hnd Hn Hw Hnone%list_find_None. destruct (li_want _ _ _ _ _ Hl n Hn Hw) as [Hlt Hnot].
  pose proof (li_slots _ _ _ _ _ Hl) as Hsl. rewrite filter_all in Hsl by (rewrite Forall_forall in Hnone; intros x Hx; by apply Hnone).
  apply Permutation_length in Hsl. rewrite length_fmap, (li_nslots _ _ _ _ _ Hl) in Hsl.
  assert (Hsub : n :: rd ⊆+ seqZ 0 SLASH_SLVRS_PER_BMAP).
  { apply NoDup_submseteq; [by apply NoDup_cons|]. intros m Hm. apply elem_of_seqZ. destruct (item_range w m (li_len _ _ _ _ _ Hl)) as [? ?]; [..|lia].
    - apply elem_of_cons in Hm as [->|Hm]; [done|]. by apply (li_rd _ _ _ _ _ Hl m).
    - apply elem_of_cons in Hm as [->|Hm]; [done|]. by apply (li_rd _ _ _ _ _ Hl m). }
  apply submseteq_length in Hsub. rewrite length_seqZ in Hsub. cbn [length] in Hsub. lia.
Qed.

Lemma find_want_spec i : match find_want (io_crcstates i) with
  | Some n => ∃ st, io_crcstates i !! n = Some st ∧ hasf st BMAP_SLVR_WANTREPL = true
  | None => ∀ n, ¬ wants i n
  end.
Proof.
  unfold find_want. destruct (list_find _ _) as [[n st]|] eqn:Hf; cbn.
  - apply list_find_Some in Hf as (Hl & Hw & _). by exists st.
  - intros n (st & Hl & Hw). apply list_find_None in Hf. rewrite Forall_forall in Hf. apply (Hf st); [|done]. by eapply list_elem_of_lookup_2.
Qed.
Lemma rdsl_snoc R a n c : rdsl (R ++ [(a, n)]) c = rdsl R c ++ (if decide (c = a) then [n] else []).
Proof.
  unfold rdsl. rewrite filter_app, fmap_app. f_equal. destruct (decide (c = a)) as [->|Hne]; [by rewrite filter_cons_True|]. rewrite filter_cons_False; [done|]. cbn. by intros ->.
Qed.
(** The end of a round in which a read was to be sent. *)
Lemma send_end op s Q a l w i n idx go w' i' P' R' st :
  let rd := rdsl (rs_reads s) a in
  rinvr src op s Q → rs_pending s = a :: l → rs_wks s !! a = Some w → rs_bmaps s !! w_key w = Some i → litem src true rd i w → iw s a = wt true rd i w →
  srw_slvr w !! idx = Some SNull → srw_status w = 0 → io_crcstates i !! n = Some st → hasf st BMAP_SLVR_WANTREPL = true →
  sent_as w i rd n idx l (rs_reads s) a go w' i' P' R' →
  fok src s a w i w' i' P' R' ∧ litem src (bool_decide (a ∈ P')) (rdsl R' a) i' (decr w' 0) ∧ srw_refcnt w' ≠ 1 ∧
    (go = true ∧ (wt (bool_decide (a ∈ P')) (rdsl R' a) i' (decr w' 0) < iw s a)%nat ∨ go = false ∧ foc s a (decr w' 0) i' P' R' = rs_with_wks s (rs_wks s) (rs_active s) (lc_add a l) (rs_reads s)).
Proof.
  intros rd Hr Hpend Hw Hi Hl Hiw Hidx Hs0 Hst Hwant Hsent. pose proof (rr_pend _ _ _ _ Hr) as Hnd. rewrite Hpend in Hnd. apply NoDup_cons in Hnd as [Hal Hndl].
  pose proof (rr_reads _ _ _ _ Hr) as HndR. pose proof (li_ref _ _ _ _ _ Hl) as Href.
  assert (HP : NoDup (lc_add a l) ∧ a ∈ lc_add a l ∧ ∀ c, c ≠ a → c ∈ lc_add a l ↔ c ∈ rs_pending s).
  { rewrite lc_add_perm, Hpend. split; [by apply NoDup_cons|]. split; [by left|]. intros c _. by rewrite lc_add_perm. }
  destruct HP as (HP1 & HP2 & HP3). assert (Hnw : (0 < nwants i)%nat).
  { unfold nwants. rewrite <-(wanted_insert _ n st 0 Hst Hwant) by done. lia. }
  destruct Hsent as [Hgo|st' i' Hgo Hst' Hl' Hs' Hf'|st' i' Hgo Hst' Hw' Hl' Hs' Hf']; rewrite bool_decide_eq_true_2, decr_zero by done;
    cbn [w_with srw_status srw_refcnt srw_nslvr_cur srw_slvr]; rewrite w_with_with.
  - replace (w_with w (srw_status w) (srw_refcnt w + 1 - 1) (srw_nslvr_cur w) (srw_slvr w)) with w by (destruct w; unfold w_with; cbn; f_equal; lia).
    split; [by split|]. split; [done|]. split; [lia|]. right. split; [done|]. by rewrite (foc_lists s a w i).
  - replace (srw_refcnt w + 1 - 1) with (srw_refcnt w) by lia. split; [split; try done; unfold copied; by rewrite Hf'|]. split; [by apply (litem_failed _ i)|]. split; [lia|]. left. split; [done|].
    rewrite Hiw. unfold wt. cbn [w_with srw_status]. rewrite Hs0, (proj2 (Z.eqb_neq _ _) Hst'). cbn. fold rd. lia.
  - rewrite Hst in Hst'. injection Hst' as <-. replace (srw_refcnt w + 1 + 1 - 1) with (srw_refcnt w + 1) by lia.
    assert (Hp : rdsl (rs_reads s ++ [(a, Z.of_nat n)]) a ≡ₚ Z.of_nat n :: rd) by (rewrite rdsl_snoc, decide_True by done; by rewrite Permutation_app_comm).
    assert (Hnr : Z.of_nat n ∉ rd) by (apply (li_want _ _ _ _ _ Hl); [lia|exists st; by rewrite Nat2Z.id]).
    split; [split; try done|split; [|split; [lia|left; split; [done|]]]].
    + split; [done|]. apply NoDup_app. split; [done|]. split; [|by apply NoDup_singleton]. intros r Hr' ->%list_elem_of_singleton. by apply Hnr, rdsl_elem.
    + intros c Hc. rewrite rdsl_snoc, decide_False by done. by rewrite app_nil_r.
    + unfold copied. by rewrite Hf'.
    + apply (litem_perm _ (Z.of_nat n :: rd)); [by symmetry|]. by apply (litem_sent rd i i' w n idx st).
    + rewrite Hiw. unfold wt, nwants in *. cbn [w_with srw_status]. rewrite Hs0, Hp, Hs'. cbn [length Z.eqb]. pose proof (wanted_insert _ n st (clrf st BMAP_SLVR_WANTREPL) Hst Hwant (hasf_clr st)). lia.
Qed.

(** A round brings the work closer to its end, or there was no connection or
    no request and the item goes back on the list. *)
Lemma wp_round op s Q a l csvc e (K : unit → rst → Prop) :
  rinvr src op s Q → rs_pending s = a :: l → is_rpc e = 0 →
  (∀ s', rinvr src op s' Q → (rwork s' < rwork s)%nat ∨ csvc && (is_newreq e =? 0) = false ∧ s' = rs_with_wks s (rs_wks s) (rs_active s) (lc_add a l) (rs_reads s) → K tt s') →
  wp (slireplpndthr_round csvc e) K s.
Proof.
  intros Hr Hpend Hrpc HK. pose proof (rr_pend _ _ _ _ Hr) as Hnd. rewrite Hpend in Hnd. apply NoDup_cons in Hnd as [Hal Hndl].
  destruct (proj2 (rr_dom _ _ _ _ Hr a)) as [w Hw]; [apply (rr_pending _ _ _ _ Hr); rewrite Hpend; by left|]. destruct (item_of _ _ _ _ _ Hr Hw) as (i & Hi & Hl & Hiw).
  rewrite bool_decide_eq_true_2 in Hl, Hiw by (rewrite Hpend; by left).
  assert (Hf : fok src s a w i w i l (rs_reads s)).
  { split; try done; [split; [done|apply Hr]|]. intros c Hc. rewrite Hpend, elem_of_cons. tauto. }
  assert (Hdrop : (srw_refcnt w = 1 → srw_status w = 0 → ∀ n, 0 ≤ n → ¬ wants i n) → wp (sli_replwkrq_decref a 0 0) K (foc s a w i l (rs_reads s))).
  { intros Hno. apply (wp_decref src op s Q a w i); [done|done| |done|].
    - rewrite bool_decide_eq_false_2 by done. by apply litem_drop.
    - intros s' Hr' Hwk. apply HK; [done|]. left. rewrite bool_decide_eq_false_2, Hiw in Hwk by done. unfold wt in Hwk. rewrite decr_zero in Hwk. cbn [w_with srw_status] in Hwk. lia. }
  unfold slireplpndthr_round. wp_step. wp_step. rewrite Hpend, Hrpc. wp_step. wp_step. rewrite (foc_lists s a w i) by done. wp_step. apply wp_foc_get. wp_step.
  destruct (Z.eqb_spec (srw_status w) 0) as [Hs0|Hs0]; cbn [negb]; [|wp_step; by apply Hdrop].
  rewrite (li_op _ _ _ _ _ Hl). wp_step. apply wp_foc_ion; [done|]. wp_step. pose proof (find_want_spec i) as Hfw. destruct (find_want (io_crcstates i)) as [n|].
  - destruct Hfw as (st & Hst & Hwant). assert (Hwn : wants i (Z.of_nat n)) by (exists st; by rewrite Nat2Z.id).
    pose proof (slot_free _ _ _ (Z.of_nat n) Hl (rdsl_nodup _ a (rr_reads _ _ _ _ Hr)) ltac:(lia) Hwn) as Hfree.
    destruct (list_find _ (srw_slvr w)) as [[idx x]|] eqn:Hfind; [|done]. apply list_find_Some in Hfind as (Hidx & -> & _).
    apply (wp_send s a w i l n idx st); try done. intros w' i' P' R' Hsent.
    destruct (send_end op s Q a l w i n idx _ w' i' P' R' st Hr Hpend Hw Hi Hl Hiw Hidx Hs0 Hst Hwant Hsent) as (Hf' & Hl' & Href & Hwt).
    assert (Hf2 : fok src s a w i (decr w' 0) i' P' R') by (destruct Hf'; by split).
    apply wp_foc_decref; [done|]. apply HK.
    + apply (rinvr_change _ _ _ _ _ w _ i); [done|done| |done]. pose proof (li_ref _ _ _ _ _ Hl') as Hp. rewrite decr_zero in *. cbn [w_with srw_refcnt] in *. destruct (bool_decide _); lia.
    + destruct Hwt as [[_ Hlt]|Hst2]; [left|by right]. pose proof (rwork_foc _ _ _ _ _ _ _ _ _ op Q Hr Hf2). lia.
  - wp_step. apply Hdrop. intros _ _ n _. apply Hfw.
Qed.

(** Without a connection an item that has slivers to ask for stays as it is. *)
Lemma wp_round_stalled op s Q a l w i csvc e (K : unit → rst → Prop) :
  rinvr src op s Q → rs_pending s = a :: l → rs_wks s !! a = Some w → rs_bmaps s !! w_key w = Some i → srw_status w = 0 → (∃ n, 0 ≤ n ∧ wants i n) →
  csvc && (is_newreq e =? 0) = false → is_rpc e = 0 →
  K tt (rs_with_wks s (rs_wks s) (rs_active s) (lc_add a l) (rs_reads s)) → wp (slireplpndthr_round csvc e) K s.
Proof.
  intros Hr Hpend Hw Hi Hs0 (n0 & Hn0 & Hwants) Hgo Hrpc HK. pose proof (rr_pend _ _ _ _ Hr) as Hnd. rewrite Hpend in Hnd. apply NoDup_cons in Hnd as [Hal Hndl].
  destruct (item_of _ _ _ _ _ Hr Hw) as (i' & Hi' & Hl & Hiw). rewrite Hi in Hi'. injection Hi' as <-. rewrite bool_decide_eq_true_2 in Hl, Hiw by (rewrite Hpend; by left).
  unfold slireplpndthr_round. wp_step. wp_step. rewrite Hpend, Hrpc. wp_step. wp_step. rewrite (foc_lists s a w i) by done. wp_step. apply wp_foc_get. wp_step.
  rewrite Hs0. cbn [negb Z.eqb]. rewrite (li_op _ _ _ _ _ Hl). wp_step. apply wp_foc_ion; [done|]. wp_step. pose proof (find_want_spec i) as Hfw. destruct (find_want (io_crcstates i)) as [n|]; [|by destruct (Hfw n0)].
  destruct Hfw as (st & Hst & Hwant). assert (Hwn : wants i (Z.of_nat n)) by (exists st; by rewrite Nat2Z.id).
  pose proof (slot_free _ _ _ (Z.of_nat n) Hl (rdsl_nodup _ a (rr_reads _ _ _ _ Hr)) ltac:(lia) Hwn) as Hfree.
  destruct (list_find _ (srw_slvr w)) as [[idx x]|] eqn:Hfind; [|done]. apply list_find_Some in Hfind as (Hidx & -> & _).
  apply (wp_send s a w i l n idx st); try done. intros w' i' P' R' Hsent.
  destruct (send_end op s Q a l w i n idx _ w' i' P' R' st Hr Hpend Hw Hi Hl Hiw Hidx Hs0 Hst Hwant Hsent) as (_ & _ & Href & [[? _]|[_ Heq]]); [congruence|].
  apply wp_foc_decref; [done|]. by rewrite Heq.
Qed.
End steps.
