(* ===== verification/ReplIodAdd.v ===== *)
(** * Batches of replication work

    A batch of work comes in: each entry becomes a work item or is answered
    with an error ([sli_rim_handle_batch], [sli_repl_addwk]). *)
From S2P Require Import Prelude ReplBits ReplWalk BmapMds ReplReq Replay Lease CrcWrite Batch Bandwidth UpSched Slvr SlvrIO SlvrInv SlvrReq ReplIod ReplIodInv ReplIodStep.

Section add.
Context `{PflErr} `{PflCrc} `{PflNet} `{PflQueue} `{PflTimeo} `{!PflQueueLaws}.
Context (src : world).
Implicit Types (s : rst) (i : ion) (rd : list Z) (k : bkey) (w : sli_repl_workrq).

Definition q_key (q : replwk_req) : bkey := (rq_fg q, rq_bno q).

(** ** An entry that is refused *)
Lemma marks_fail pj act Q bchs sent bm b m qs :
  binv src (Some (b, m)) pj act bchs sent bm Q → Q !! b = Some qs → (m < length qs)%nat →
  marks (Some (b, m)) (Some (b, S m)) pj pj act act Q b m.
Proof.
  intros Hb HQ Hm. split.
  - intros a [[[k len] bch] pp] Hp. split; [done|]. cbn. intros [-> ->]. destruct (bi_item _ _ _ _ _ _ _ _ Hb a _ _ _ _ Hp) as (c & j & ys & q & [= <-] & [= Hj] & HQ' & _ & _ & _ & Hlt).
    rewrite HQ in HQ'. injection HQ' as <-. unfold unseen in Hlt. rewrite decide_True in Hlt by done. lia.
  - intros a p Hp. by left.
  - intros c ys Hc. unfold unseen. destruct (decide (c = b)) as [->|]; [|lia]. rewrite HQ in Hc. injection Hc as <-. lia.
  - intros c ys j Hc. unfold unseen. destruct (decide (c = b)) as [->|]; [|done]. intros ? Hne. assert (j ≠ m) by (intros ->; by apply Hne). lia.
  - intros c n. unfold unseen. case_decide; lia.
Qed.
Lemma wp_addwk_fail op s Q b m qs q rc (K : Z → rst → Prop) :
  rinvr src (Some (b, m)) s Q → Q !! b = Some qs → qs !! m = Some q → rc ≠ 0 →
  (∀ r s', rinvr src (Some (b, S m)) s' Q → rs_wks s' = rs_wks s → rs_bmaps s' = rs_bmaps s → K r s') →
  wp (addwk_fail op rc (Some b) (Some (Z.of_nat m)) 0) K s.
Proof.
  intros Hr HQ Hq Hrc HK. pose proof (rr_batch _ _ _ _ Hr) as Hb. destruct (proj2 (bi_dom _ _ _ _ _ _ _ _ Hb b)) as [x Hx]; [by rewrite HQ|].
  destruct (bi_len _ _ _ _ _ _ _ _ Hb b x qs Hx HQ) as (_ & Hbuf & _ & _). unfold addwk_fail. wp_step.
  apply (wp_sched _ b m x); [done|rewrite Hbuf; by eapply lookup_lt_Some|]. wp_step. apply HK; [|done|done].
  destruct Hr. split; try done.
  - intros c. cbn. destruct (decide (c = b)) as [->|]; [intros _; apply rr_freshb; by rewrite Hx|]. rewrite lookup_insert_ne by done. apply rr_freshb.
  - apply (binv_mark src (Some (b, m)) (Some (b, S m)) (proj <$> rs_wks s) _ (rs_active s) _ _ _ _ Q b m x qs q); try done.
    eapply marks_fail; [done|done|]. by eapply lookup_lt_Some.
Qed.

(** ** An entry that becomes a work item *)
Lemma in_count_snoc (pj : gmap Z (bkey * Z * option Z * option Z)) act a k len b pp c : a ∉ act → 
  in_count (<[a := (k, len, Some b, pp)]> pj) (act ++ [a]) c = (in_count pj act c + (if decide (c = b) then 1 else 0))%nat.
Proof.
  intros Ha. unfold in_count. rewrite filter_app, length_app. f_equal.
  - f_equal. induction act as [|d act IH]; [done|]. apply not_elem_of_cons in Ha as [Hd Ha]. rewrite !filter_cons, IH by done.
    by assert (in_bch (<[a := (k, len, Some b, pp)]> pj) c d = in_bch pj c d) as -> by (unfold in_bch; by rewrite lookup_insert_ne).
  - rewrite filter_cons. assert (in_bch (<[a := (k, len, Some b, pp)]> pj) c a = bool_decide (c = b)) as ->
      by (unfold in_bch; rewrite lookup_insert_eq; apply bool_decide_ext; cbn; split; congruence).
    destruct (decide (c = b)); [rewrite bool_decide_eq_true_2, decide_True by done|rewrite bool_decide_eq_false_2, decide_False by done]; done.
Qed.
Lemma ingress_snoc (pj : gmap Z (bkey * Z * option Z * option Z)) act a p : a ∉ act → ingress_of (<[a := p]> pj) (act ++ [a]) = ingress_of pj act + bw_units p.1.1.2.
Proof.
  intros Ha. unfold ingress_of. induction act as [|d act IH]; cbn [foldr app].
  - rewrite lookup_insert_eq. lia.
  - apply not_elem_of_cons in Ha as [Hd Ha]. rewrite lookup_insert_ne, IH by done. lia.
Qed.
Lemma binv_add pj act bchs sent bm Q b m qs q a :
  binv src (Some (b, m)) pj act bchs sent bm Q → Q !! b = Some qs → qs !! m = Some q → a ∉ act → pj !! a = None →
  binv src (Some (b, S m)) (<[a := (q_key q, rq_len q, Some b, Some (Z.of_nat m))]> pj) (act ++ [a]) bchs sent bm Q.
Proof.
  intros Hb HQ Hq Ha Hpa. pose proof (lookup_lt_Some _ _ _ Hq) as Hm. pose proof (marks_fail _ _ _ _ _ _ _ _ _ Hb HQ Hm) as [Hsub _ Hcnt Hseen Huns].
  destruct Hb as [Hdom Hid Hlen Hitem Hinj Hdone Hsent].
  assert (Hcase : ∀ c p, <[a := (q_key q, rq_len q, Some b, Some (Z.of_nat m))]> pj !! c = Some p →
            c = a ∧ p = (q_key q, rq_len q, Some b, Some (Z.of_nat m)) ∨ c ≠ a ∧ pj !! c = Some p).
  { intros c p Hp. destruct (decide (c = a)) as [->|]; [rewrite lookup_insert_eq in Hp; by injection Hp as <-; left|]. rewrite lookup_insert_ne in Hp by done. by right. }
  split; [done|done|..|done].
  - intros c x ys Hx HQc. destruct (Hlen c x ys Hx HQc) as (? & ? & ? & Hs). do 3 (split; [done|]). pose proof (Hcnt c ys HQc) as Hc.
    pose proof (in_count_snoc pj act a (q_key q) (rq_len q) b (Some (Z.of_nat m)) c Ha) as Hsn. unfold in_count in *. rewrite Hsn. lia.
  - intros c k len bch pp [[-> [= -> -> -> ->]]|[Hne Hp]]%Hcase.
    + exists b, m, qs, q. do 6 (split; [done|]). unfold unseen. rewrite decide_True by done. lia.
    + destruct (Hitem _ _ _ _ _ Hp) as (b' & j & ys & q' & -> & -> & HQc & Hq' & Hk & Hl & Hj). exists b', j, ys, q'. pose proof (Huns b' (length ys)). do 6 (split; [done|]). lia.
  - intros c c' p p' [[-> ->]|[Hne Hp]]%Hcase [[-> ->]|[Hne' Hp']]%Hcase; cbn; [done|..].
    + intros Hx1 Hx2. destruct (Hsub _ _ Hp') as [_ []]. done.
    + intros Hx1 Hx2. destruct (Hsub _ _ Hp) as [_ []]. done.
    + by apply (Hinj c c' p p').
  - intros c x ys j q' Hx HQc Hq' Hj. destruct (decide (c = b ∧ j = m)) as [[-> ->]|Hne].
    + left. eexists a, _. split; [apply lookup_insert_eq|]. done.
    + destruct (Hdone c x ys j q' Hx HQc Hq') as [(d & p & Hd & Hp)|?]; [by apply Hseen| |by right]. left. exists d, p. split; [|done]. rewrite lookup_insert_ne; [done|]. intros ->. by rewrite Hpa in Hd.
Qed.

Definition new_item (q : replwk_req) (b : Z) (m : nat) : sli_repl_workrq :=
  {| srw_fg := rq_fg q; srw_op := REPLWKOP_REPL; srw_bmapno := rq_bno q; srw_bgen := rq_bgen q; srw_len := rq_len q; srw_src := Some (rq_src q); srw_status := 0;
     srw_refcnt := 1; srw_nslvr_tot := nslvrs (rq_len q); srw_nslvr_cur := 0; srw_bchrp := Some b; srw_pp := Some (Z.of_nat m);
     srw_slvr := replicate (Z.to_nat SLASH_SLVRS_PER_BMAP) SNull |}.
Definition wanted_ion i (len : Z) : ion :=
  io_with_crc i (imap (λ j st, if Z.of_nat j * SLASH_SLVR_SIZE <? len then setf st BMAP_SLVR_WANTREPL else st) (io_crcstates i)) (io_crcs i).
(** A bmap that can take new work: nothing is in flight, no marks are left
    behind the end, and the file has nothing there. *)
Definition add_ok i (q : replwk_req) : Prop :=
  0 ≤ rq_bno q ∧ rq_src q ≠ IOS_ID_ANY ∧ (∀ n, 0 ≤ n → wants i n → n * SLASH_SLVR_SIZE < rq_len q) ∧
  (∀ x, rq_len q ≤ x < SLASH_BMAP_SIZE → io_file i (rq_bno q * SLASH_BMAP_SIZE + x) = 0).
Lemma wanted_wants i len n : 0 ≤ n → (∀ n, 0 ≤ n → wants i n → n * SLASH_SLVR_SIZE < len) → length (io_crcstates i) = Z.to_nat SLASH_CRCS_PER_BMAP →
  (wants (wanted_ion i len) n → n * SLASH_SLVR_SIZE < len) ∧ (n * SLASH_SLVR_SIZE < len → n < SLASH_SLVRS_PER_BMAP → wants (wanted_ion i len) n).
Proof.
  intros Hn Hst Hlen. unfold wants, wanted_ion. cbn [io_crcstates io_with_crc]. split.
  - intros (st & Hl & Hw). rewrite list_lookup_imap in Hl. destruct (io_crcstates i !! Z.to_nat n) as [st0|] eqn:Hl0; [|done]. cbn in Hl. rewrite Z2Nat.id in Hl by done.
    destruct (Z.ltb_spec (n * SLASH_SLVR_SIZE) len); [done|]. injection Hl as <-. apply Hst; [done|]. by exists st0.
  - intros Hlt Hr. destruct (lookup_lt_is_Some_2 (io_crcstates i) (Z.to_nat n)) as [st Hl]; [rewrite Hlen; unfold SLASH_CRCS_PER_BMAP; lia|].
    exists (setf st BMAP_SLVR_WANTREPL). split; [|apply hasf_set]. rewrite list_lookup_imap, Hl. cbn. rewrite Z2Nat.id by done. by destruct (Z.ltb_spec (n * SLASH_SLVR_SIZE) len); [|lia].
Qed.
Lemma litem_new i q b m : 1 ≤ rq_len q ≤ SLASH_BMAP_SIZE → lion (rq_bno q) i [] → add_ok i q → litem src true [] (wanted_ion i (rq_len q)) (new_item q b m).
Proof.
  intros Hlen Hl (Hb & Hsrc & Hst & Htl). pose proof (ci_len _ _ _ (ln_cinv _ _ _ Hl)) as [Hcl _].
  split; cbn [new_item srw_fg srw_op srw_bmapno srw_bgen srw_len srw_src srw_refcnt srw_nslvr_tot srw_slvr srw_status]; try done.
  - apply lion_states; [by rewrite length_imap|done].
  - intros n Hn Hw. split; [|apply not_elem_of_nil]. by apply (wanted_wants i (rq_len q) n Hn Hst Hcl).
  - by intros n ?%elem_of_nil.
  - intros _ n Hn Hlt. right. left. apply wanted_wants; try done. unfold SLASH_BMAP_SIZE, SLASH_SLVR_SIZE, SLASH_SLVRS_PER_BMAP in *. lia.
Qed.

Definition added s (q : replwk_req) (b : Z) (m : nat) i : rst :=
  {| rs_wks := <[rs_nwk s := new_item q b m]> (rs_wks s); rs_nwk := rs_nwk s + 1; rs_active := rs_active s ++ [rs_nwk s]; rs_pending := lc_add (rs_nwk s) (rs_pending s);
     rs_bmaps := <[q_key q := wanted_ion i (rq_len q)]> (rs_bmaps s); rs_reads := rs_reads s; rs_bchs := rs_bchs s; rs_nbch := rs_nbch s;
     rs_ingress := rs_ingress s + bw_units (rq_len q); rs_aggr := rs_aggr s + bw_units (rq_len q); rs_sent := rs_sent s |}.
Lemma rinvr_add s Q b m qs q i :
  rinvr src (Some (b, m)) s Q → Q !! b = Some qs → qs !! m = Some q → 1 ≤ rq_len q ≤ SLASH_BMAP_SIZE →
  (∀ a w, rs_wks s !! a = Some w → w_key w ≠ q_key q) → (∀ j, rs_bmaps s !! q_key q = Some j → i = j) → lion (rq_bno q) i [] → add_ok i q →
  rinvr src (Some (b, S m)) (added s q b m i) Q.
Proof.
  intros Hr HQ Hq Hlen Hno Hi Hl Hok. pose proof Hr as [Hact Hdom Hfr Hfrb Hpd Hpend Hrd Hinf Hkeys Hitem Hfree Hbw Hb].
  assert (Ha : rs_nwk s ∉ rs_active s) by (intros ?%Hfr; lia). assert (Hw : rs_wks s !! rs_nwk s = None) by (apply eq_None_not_Some; by rewrite Hdom).
  assert (Hcase : ∀ c v, <[rs_nwk s := new_item q b m]> (rs_wks s) !! c = Some v → c = rs_nwk s ∧ v = new_item q b m ∨ c ≠ rs_nwk s ∧ rs_wks s !! c = Some v).
  { intros c v Hv. destruct (decide (c = rs_nwk s)) as [->|]; [rewrite lookup_insert_eq in Hv; by injection Hv as <-; left|]. rewrite lookup_insert_ne in Hv by done. by right. }
  assert (Hkc : keeps_copies src (rs_bmaps s) (<[q_key q := wanted_ion i (rq_len q)]> (rs_bmaps s))).
  { intros k j Hj. destruct (decide (k = q_key q)) as [->|]; [|exists j; by rewrite lookup_insert_ne]. rewrite lookup_insert_eq, (Hi j Hj). by eexists. }
  split; cbn [added rs_wks rs_nwk rs_active rs_pending rs_bmaps rs_reads rs_bchs rs_nbch rs_ingress rs_aggr rs_sent]; try done.
  - apply NoDup_app. split; [done|]. split; [|by apply NoDup_singleton]. by intros c Hc ->%list_elem_of_singleton.
  - intros c. rewrite elem_of_app, list_elem_of_singleton. destruct (decide (c = rs_nwk s)) as [->|]; [rewrite lookup_insert_eq; split; [by right|by eexists]|]. rewrite lookup_insert_ne, Hdom by done. tauto.
  - intros c [?%Hfr| ->%list_elem_of_singleton]%elem_of_app; lia.
  - rewrite lc_add_perm. apply NoDup_cons. split; [|done]. by intros ?%Hpend.
  - intros c. rewrite lc_add_perm, elem_of_cons, elem_of_app, list_elem_of_singleton. intros [->|?%Hpend]; [by right|by left].
  - intros c n Hcn. apply elem_of_app. left. by eapply Hinf.
  - intros c c' v v' [[-> ->]|[Hne Hv]]%Hcase [[-> ->]|[Hne' Hv']]%Hcase Hkk; [done|..|by apply (Hkeys c c' v v')].
    + by destruct (Hno c' v').
    + by destruct (Hno c v).
  - intros c v [[-> ->]|[Hne Hv]]%Hcase.
    + split; [done|]. eexists. split; [apply lookup_insert_eq|]. rewrite bool_decide_eq_true_2 by (rewrite lc_add_perm; by left).
      assert (rdsl (rs_reads s) (rs_nwk s) = []) as -> by (apply elem_of_nil_inv; intros n Hn%rdsl_elem; by apply Ha, (Hinf _ n)). by apply litem_new.
    + destruct (Hitem c v Hv) as (Hp & io & Hio & Hlc). split; [done|]. exists io. split; [rewrite lookup_insert_ne; [done|]; intros Heq; by apply (Hno c v)|].
      rewrite (bool_decide_ext (c ∈ lc_add (rs_nwk s) (rs_pending s)) (c ∈ rs_pending s)); [done|]. rewrite lc_add_perm, elem_of_cons. tauto.
  - intros k j Hj Hnk. destruct (decide (k = q_key q)) as [->|]; [destruct (Hnk (rs_nwk s) (new_item q b m)); [apply lookup_insert_eq|done]|].
    rewrite lookup_insert_ne in Hj by done. apply (Hfree k j Hj). intros c v Hv. apply (Hnk c). rewrite lookup_insert_ne; [done|]. intros <-. by rewrite Hw in Hv.
  - rewrite fmap_insert, ingress_snoc by done. rewrite Hbw. done.
  - rewrite fmap_insert. eapply binv_bmaps; [exact Hkc|]. apply (binv_add _ _ _ _ _ _ _ _ qs); [done|done|done|done|by rewrite lookup_fmap, Hw].
Qed.

(** What holds of an entry when it is taken in: its bmap is being replicated
    already, or can take new work. *)
Definition busy s k : Prop := ∃ a w, rs_wks s !! a = Some w ∧ w_key w = k.
Definition entry_ok s (x : replwk_req * addwk_env) : Prop :=
  busy s (q_key x.1) ∨ add_ok (default (aw_ion x.2) (rs_bmaps s !! q_key x.1)) x.1 ∧ (rs_bmaps s !! q_key x.1 = None → lion (rq_bno x.1) (aw_ion x.2) []).
Lemma entry_ok_same s s' x : rs_wks s' = rs_wks s → rs_bmaps s' = rs_bmaps s → entry_ok s x → entry_ok s' x.
Proof. unfold entry_ok, busy. by intros -> ->. Qed.
Lemma entry_ok_added s Q op q b m i x : rinvr src op s Q → entry_ok s x → entry_ok (added s q b m i) x.
Proof.
  intros Hr [(a & w & Hw & Hk)|Hok].
  - left. exists a, w. split; [|done]. cbn. rewrite lookup_insert_ne; [done|]. intros <-. assert (rs_nwk s ∈ rs_active s) as ?%(rr_fresh _ _ _ _ Hr) by (apply Hr; by rewrite Hw). lia.
  - destruct (decide (q_key x.1 = q_key q)) as [Heq|Hne]; [left|right].
    + exists (rs_nwk s), (new_item q b m). split; [apply lookup_insert_eq|]. by rewrite Heq.
    + cbn. by rewrite lookup_insert_ne.
Qed.
Lemma findwq_spec s Q op fg bno : rinvr src op s Q →
  match sli_repl_findwq s fg bno with Some _ => busy s (fg, bno) | None => ¬ busy s (fg, bno) end.
Proof.
  intros Hr. unfold sli_repl_findwq. destruct (list_find _ _) as [[j a]|] eqn:Hf; cbn.
  - apply list_find_Some in Hf as (_ & Hk & _). destruct (rs_wks s !! a) as [w|] eqn:Hw; [|done]. exists a, w. split; [done|]. cbn in Hk. congruence.
  - intros (a & w & Hw & Hk). apply list_find_None in Hf. rewrite Forall_forall in Hf. apply (Hf a); [apply Hr; by rewrite Hw|]. by rewrite Hw, <-Hk.
Qed.

Lemma wp_addwk s Q b m qs q e (K : Z → rst → Prop) :
  rinvr src (Some (b, m)) s Q → Q !! b = Some qs → qs !! m = Some q → entry_ok s (q, e) →
  (∀ r s', rinvr src (Some (b, S m)) s' Q → (∀ x, entry_ok s x → entry_ok s' x) → K r s') →
  wp (sli_repl_addwk REPLWKOP_REPL (rq_src q) (rq_fg q) (rq_bno q) (rq_bgen q) (rq_len q) (Some b) (Some (Z.of_nat m)) e 0) K s.
Proof.
  intros Hr HQ Hq Hok HK.
  assert (Hfail : ∀ rc, rc ≠ 0 → wp (addwk_fail REPLWKOP_REPL rc (Some b) (Some (Z.of_nat m)) 0) K s).
  { intros rc Hrc. apply (wp_addwk_fail _ s Q b m qs q); try done. intros r s' Hr' Hw' Hb'. apply HK; [done|]. intros x. by apply entry_ok_same. }
  unfold sli_repl_addwk. wp_step; [by apply Hfail|]. wp_step; [by apply Hfail|]. wp_step; [by apply Hfail|]. wp_step. wp_step.
  pose proof (findwq_spec s Q _ (rq_fg q) (rq_bno q) Hr) as Hfw. destruct (sli_repl_findwq s (rq_fg q) (rq_bno q)); [apply Hfail; pose proof PFLERR_ALREADY_pos; lia|].
  destruct (Z.eqb_spec (aw_fcmh e) 0); cbn [negb]; [|by apply Hfail]. destruct (Z.eqb_spec (aw_bmap e) 0); cbn [negb]; [|by apply Hfail].
  destruct Hok as [Hbusy|[Hok Hnew]]; [done|]. cbn [fst snd] in Hok, Hnew. set (i := default (aw_ion e) (rs_bmaps s !! q_key q)) in *.
  assert (Hno : ∀ a w, rs_wks s !! a = Some w → w_key w ≠ q_key q) by (intros a w Hw Hk; apply Hfw; by exists a, w).
  assert (Hl : lion (rq_bno q) i []).
  { unfold i. destruct (rs_bmaps s !! q_key q) as [j|] eqn:Hj; [|by apply Hnew]. by apply (rr_free _ _ _ _ Hr (q_key q)). }
  assert (Hlen : 1 ≤ rq_len q ≤ SLASH_BMAP_SIZE) by (apply orb_false_iff in Heqb1 as [? Hle]; rewrite Z.gtb_ltb in Hle; lia).
  assert (Ha : rs_nwk s ∉ rs_pending s).
  { intros Hin%(rr_pending _ _ _ _ Hr)%(rr_fresh _ _ _ _ Hr). lia. }
  assert (Hi : ∀ j, rs_bmaps s !! q_key q = Some j → i = j) by (intros j Hj; unfold i; by rewrite Hj).
  assert (Hadd := HK 0 _ (rinvr_add s Q b m qs q i Hr HQ Hq Hlen Hno Hi Hl Hok) (λ x, entry_ok_added s Q _ q b m i x Hr)).
  wp_step. wp_step. wp_step. wp_step. unfold sli_bwqueued_adj. wp_step. unfold wp at 1, onIon. cbn [rs_with_ingress rs_with_bmaps rs_bmaps]. rewrite lookup_insert_eq. change (rq_fg q, rq_bno q) with (q_key q). fold i.
  unfold want_repl, modifyM at 1. cbv beta iota. wp_step. wp_step. unfold replwk_queue. wp_step. wp_step. unfold wp at 1, getW. cbn [rs_wks]. rewrite lookup_insert_eq. wp_step. wp_step.
  rewrite bool_decide_eq_false_2 by done. unfold setW. wp_step. wp_step. wp_step. wp_step.
  revert Hadd. unfold added, new_item, rs_with_wks, rs_with_ingress, rs_with_bmaps, w_with, wanted_ion. cbn. by rewrite !insert_insert_eq, (proj2 (Z.eqb_neq _ _) (proj1 (proj2 Hok))).
Qed.

(** ** A batch *)
Lemma rinvr_op op op' s Q : (∀ c ys, Q !! c = Some ys → unseen op' c (length ys) = unseen op c (length ys)) → rinvr src op s Q → rinvr src op' s Q.
Proof.
  intros Heq [? ? ? ? ? ? ? ? ? ? ? ? [? ? Hlen Hitem ? Hdone ?]]. split; try done. split; try done.
  - intros c x ys Hx Hc. rewrite (Heq c ys Hc). by apply Hlen.
  - intros a k len bch pp Ha. destruct (Hitem _ _ _ _ _ Ha) as (c & j & ys & q & ? & ? & Hc & Hrest). exists c, j, ys, q. rewrite (Heq c ys Hc). done.
  - intros c x ys j q Hx Hc. rewrite (Heq c ys Hc). by apply Hdone.
Qed.
(** The entries from [m] on. *)
Lemma wp_batch_addwk s Q b m qs l (K : unit → rst → Prop) :
  rinvr src (Some (b, m)) s Q → Q !! b = Some qs → drop m qs = l.*1 → Forall (entry_ok s) l → (∀ s', rinvr src None s' Q → K tt s') →
  wp (batch_addwk b (Z.of_nat m) l 0) K s.
Proof.
  intros Hr HQ Hd Hok HK. revert m s Hr Hd Hok. induction l as [|[q e] l IH]; intros m s Hr Hd Hok; cbn [batch_addwk].
  - wp_step. apply HK. apply (f_equal length) in Hd. rewrite length_drop in Hd. cbn in Hd. eapply rinvr_op; [|exact Hr].
    intros c ys Hc. unfold unseen. case_decide as Hcb; [|done]. subst c. rewrite HQ in Hc. injection Hc as <-. lia.
  - apply Forall_cons in Hok as [Hok1 Hok]. wp_step. assert (Hq : qs !! m = Some q).
    { pose proof (f_equal (.!! 0%nat) Hd) as Hd0. rewrite lookup_drop, Nat.add_0_r in Hd0. by rewrite Hd0. }
    apply (wp_addwk s Q b m qs q e); try done. intros r s' Hr' Hpres. replace (Z.of_nat m + 1) with (Z.of_nat (S m)) by lia. apply IH; [done| |by eapply Forall_impl].
    rewrite (drop_S _ q) in Hd by done. cbn in Hd. by injection Hd.
Qed.
Lemma rinvr_open s Q qs bid : rinvr src None s Q → (0 < length qs)%nat → g_bid src (rs_nbch s) = bid →
  rinvr src (Some (rs_nbch s, 0%nat))
    (rs_with_bchs s (<[rs_nbch s := {| bch_id := bid; bch_total := Z.of_nat (length qs); bch_ndone := 0; bch_buf := replicate (length qs) 0 |}]> (rs_bchs s)) (rs_nbch s + 1) (rs_sent s))
    (<[rs_nbch s := qs]> Q).
Proof.
  intros Hr Hpos Hbid. pose proof Hr as [? ? ? Hfrb ? ? ? ? ? ? ? ? [Hdom Hid Hlen Hitem Hinj Hdone (L & HndL & HL & Hsent)]].
  assert (Hnb : rs_bchs s !! rs_nbch s = None) by (apply eq_None_not_Some; intros ?%Hfrb; lia).
  assert (HnQ : Q !! rs_nbch s = None) by (apply eq_None_not_Some; rewrite <-Hdom, Hnb; by intros [? ?]).
  assert (Hun : ∀ c n, c ≠ rs_nbch s → unseen (Some (rs_nbch s, 0%nat)) c n = 0%nat) by (intros c n Hc; unfold unseen; by rewrite decide_False).
  assert (HbL : rs_nbch s ∉ L) by (intros (x & Hx & _)%HL; by rewrite Hnb in Hx).
  split; cbn [rs_with_bchs rs_wks rs_nwk rs_active rs_pending rs_bmaps rs_reads rs_bchs rs_nbch rs_ingress rs_aggr rs_sent]; try done.
  { intros c. destruct (decide (c = rs_nbch s)) as [->|]; [lia|]. rewrite lookup_insert_ne by done. intros ?%Hfrb. lia. }
  split.
  - intros c. destruct (decide (c = rs_nbch s)) as [->|]; [rewrite !lookup_insert_eq; split; by eexists|]. rewrite !lookup_insert_ne by done. apply Hdom.
  - intros c x. destruct (decide (c = rs_nbch s)) as [->|]; [rewrite lookup_insert_eq; by intros [= <-]|]. rewrite lookup_insert_ne by done. apply Hid.
  - intros c x ys. destruct (decide (c = rs_nbch s)) as [->|Hne].
    + rewrite !lookup_insert_eq. intros [= <-] [= <-]. cbn. rewrite length_replicate. do 3 (split; [done|]). rewrite filter_none.
      * unfold unseen. rewrite decide_True by done. cbn. lia.
      * intros a _ (p & Hp & Hpb)%in_bch_true. destruct p as [[[k len] bch] pp]. cbn in Hpb. subst bch. destruct (Hitem _ _ _ _ _ Hp) as (c & j & ys & q & [= <-] & _ & HQ & _). by rewrite HnQ in HQ.
    + rewrite !lookup_insert_ne, Hun by done. apply Hlen.
  - intros a k len bch pp Hp. destruct (Hitem _ _ _ _ _ Hp) as (c & j & ys & q & -> & -> & HQ & Hq & Hk & Hl & Hj). exists c, j, ys, q.
    assert (c ≠ rs_nbch s) by (intros ->; by rewrite HnQ in HQ). rewrite lookup_insert_ne, Hun by done. do 6 (split; [done|]). cbn in Hj. lia.
  - done.
  - intros c x ys j q. destruct (decide (c = rs_nbch s)) as [->|Hne]; [|rewrite !lookup_insert_ne, Hun by done; apply Hdone].
    rewrite !lookup_insert_eq. intros [= <-] [= <-] _. unfold unseen. rewrite decide_True by done. lia.
  - exists L. split; [done|]. split.
    + intros c. rewrite HL. destruct (decide (c = rs_nbch s)) as [->|]; [|by rewrite lookup_insert_ne]. rewrite lookup_insert_eq, Hnb. split; [by intros (? & ? & _)|]. intros (x & [= <-] & Heq). cbn in Heq. lia.
    + rewrite Hsent. clear -HbL. unfold replies. induction L as [|c L IH]; [done|]. apply not_elem_of_cons in HbL as [? ?]. csimpl. rewrite lookup_insert_ne by done. by rewrite IH.
Qed.
Lemma wp_handle_batch s Q bid len l (K : Z → rst → Prop) :
  rinvr src None s Q → g_bid src (rs_nbch s) = bid → (0 < length l)%nat → len = SIZEOF_REPLWK_REQENT * Z.of_nat (length l) → len ≤ LNET_MTU_RIC → Forall (entry_ok s) l →
  (∀ s', rinvr src None s' (<[rs_nbch s := l.*1]> Q) → K 0 s') →
  wp (sli_rim_handle_batch SRMT_REPL_SCHEDWK bid len 0 0 l) K s.
Proof.
  intros Hr Hbid Hpos -> Hmtu Hok HK. unfold sli_rim_handle_batch, SIZEOF_REPLWK_REQENT in *. destruct (Z.ltb_spec (36 * Z.of_nat (length l)) 1); [lia|].
  rewrite Z.gtb_ltb. destruct (Z.ltb_spec LNET_MTU_RIC (36 * Z.of_nat (length l))); [lia|]. cbn [orb Z.eqb negb]. rewrite Z.eqb_refl. cbv zeta. wp_step. wp_step.
  rewrite (Z.mul_comm 36), Z.div_mul by done. rewrite Nat2Z.id. wp_step. wp_step. wp_step. rewrite <-(length_fmap fst l) in *.
  apply (wp_batch_addwk _ (<[rs_nbch s := l.*1]> Q) (rs_nbch s) 0 l.*1); [by apply rinvr_open|apply lookup_insert_eq|done|done|]. intros s' Hr'. wp_step. by apply HK.
Qed.
End add.
