(* ===== verification/ReplIodProps.v ===== *)
(** * Replication on an I/O server: what the metadata server is told

    The runs of the destination of replications, in any order of batches,
    rounds of the thread and replies to reads, and what holds of the replies
    to the batches. *)
From S2P Require Import Prelude ReplBits ReplWalk BmapMds ReplReq Replay Lease CrcWrite Batch Bandwidth UpSched Slvr SlvrIO SlvrInv SlvrReq SlvrThreads SlvrProps SlvrFaults ReplIod ReplIodInv ReplIodStep ReplIodAdd.

Section runs.
Context `{PflErr} `{PflCrc} `{PflNet} `{PflQueue} `{PflTimeo} `{!PflQueueLaws}.
Context (W : world).
Implicit Types (s : rst) (i : ion) (k : bkey) (w : sli_repl_workrq).

Definition rst_empty : rst :=
  {| rs_wks := ∅; rs_nwk := 0; rs_active := []; rs_pending := []; rs_bmaps := ∅; rs_reads := []; rs_bchs := ∅; rs_nbch := 0; rs_ingress := 0; rs_aggr := 0; rs_sent := [] |}.

(** The server handles a reply to a read, or the thread takes an item for which
    a request can be made ([go]) or not. *)
Inductive repl_step (go : bool) : rst → rst → Prop :=
  | step_round s csvc e s' :
      csvc && (is_newreq e =? 0) = go → is_rpc e = 0 → slireplpndthr_round csvc e s = Done (tt, s') → repl_step go s s'
  | step_reply s a n w rc d now sys r s' :
      (a, n) ∈ rs_reads s → rs_wks s !! a = Some w → good_reply W w n rc d sys → sli_rii_replread_cb a n rc d now sys 0 s = Done (r, s') → repl_step go s s'.

(** [repl_run s Q]: [s] is reached, and [Q] are the batches that came in, by
    number. *)
Inductive repl_run : rst → gmap Z (list replwk_req) → Prop :=
  | repl_start : repl_run rst_empty ∅
  | repl_batch s Q len l s' :
      repl_run s Q → (0 < length l)%nat → len = SIZEOF_REPLWK_REQENT * Z.of_nat (length l) → len ≤ LNET_MTU_RIC → Forall (entry_ok s) l →
      sli_rim_handle_batch SRMT_REPL_SCHEDWK (g_bid W (rs_nbch s)) len 0 0 l s = Done (0, s') → repl_run s' (<[rs_nbch s := l.*1]> Q)
  | repl_more s Q go s' : repl_run s Q → repl_step go s s' → repl_run s' Q.

Lemma rinvr_empty : rinvr W None rst_empty ∅.
Proof.
  split; cbn; try done; try apply NoDup_nil_2; try (by intros * ?%elem_of_nil).
  - intros a. rewrite lookup_empty. split; [by intros [? ?]|by intros ?%elem_of_nil].
  - intros b. rewrite lookup_empty. by intros [? ?].
  - split; rewrite ?fmap_empty; [|done|done|done|done|done|].
    { intros b. rewrite !lookup_empty. split; by intros [? ?]. }
    exists []. split; [apply NoDup_nil_2|]. split; [|done]. intros b. split; [by intros ?%elem_of_nil|]. by intros (x & ? & _).
Qed.
Lemma step_inv go s s' Q : rinvr W None s Q → repl_step go s s' → rinvr W None s' Q ∧ (go = true → rwork s' < rwork s)%nat.
Proof.
  intros Hr Hstep. destruct Hstep as [s csvc e s' Hgo Hrpc Hrun|s a n w rc d now sys r s' Hin Hw Hgood Hrun].
  - destruct (rs_pending s) as [|a l] eqn:Hp; [unfold slireplpndthr_round, mbind, M_bind, getM in Hrun; by rewrite Hp in Hrun|].
    refine (wp_done _ (λ _ s', rinvr W None s' Q ∧ (go = true → rwork s' < rwork s)%nat) _ _ _ Hrun _). eapply wp_round; [done|done|done|].
    intros s1 Hr1 [Hlt|[Hf _]]; split; try done. intros Ht. congruence.
  - refine (wp_done _ (λ _ s', rinvr W None s' Q ∧ (go = true → rwork s' < rwork s)%nat) _ _ _ Hrun _). by eapply wp_cb.
Qed.
Lemma run_rinvr s Q : repl_run s Q → rinvr W None s Q.
Proof.
  induction 1 as [|s Q len l s' _ IH Hpos Hlen Hmtu Hok Hrun|s Q go s' _ IH Hstep].
  - apply rinvr_empty.
  - refine (wp_done _ (λ _ s', rinvr W None s' (<[rs_nbch s := l.*1]> Q)) _ _ _ Hrun _). by eapply wp_handle_batch.
  - by eapply step_inv.
Qed.

(** What the server still has to do for a batch. *)
Definition open_batch s (b : Z) : Prop := ∃ a w, rs_wks s !! a = Some w ∧ srw_bchrp w = Some b.
Lemma done_batch s Q b x : rinvr W None s Q → rs_bchs s !! b = Some x → bch_ndone x = bch_total x ↔ ¬ open_batch s b.
Proof.
  intros Hr Hx. pose proof (rr_batch _ _ _ _ Hr) as Hb. destruct (proj1 (bi_dom _ _ _ _ _ _ _ _ Hb b)) as [qs HQ]; [by rewrite Hx|].
  destruct (bi_len _ _ _ _ _ _ _ _ Hb b x qs Hx HQ) as (_ & _ & _ & Hsum). cbn [unseen] in Hsum.
  set (l := filter (λ a, in_bch (proj <$> rs_wks s) b a = true) (rs_active s)) in *.
  assert (Hl : (∃ a, a ∈ l) ↔ open_batch s b).
  { split.
    - intros (a & [(p & Hp & Hpb)%in_bch_true _]%list_elem_of_filter). rewrite lookup_fmap in Hp. destruct (rs_wks s !! a) as [w|] eqn:Hw; [|done]. injection Hp as <-. by exists a, w.
    - intros (a & w & Hw & Hb'). exists a. apply list_elem_of_filter. split; [apply in_bch_true; exists (proj w); split; [by rewrite lookup_fmap, Hw|done]|]. apply Hr. by rewrite Hw. }
  rewrite <-Hl. destruct l as [|a l']; cbn [length] in Hsum.
  - split; [|lia]. intros _ (a & ?%elem_of_nil). done.
  - split; [lia|]. intros Hno. destruct Hno. exists a. by left.
Qed.

(** C23: A batch is answered exactly once, and exactly when the last of its
    work items is gone, in every run with batches of whole entries in which
    the replies to the metadata server can be sent ([is_rpc] is 0; a reply
    that fails is never sent again). *)
Theorem batch_answered_once s Q : repl_run s Q →
  ∃ L, NoDup L ∧ (∀ b, b ∈ L ↔ is_Some (Q !! b) ∧ ¬ open_batch s b) ∧ (rs_sent s).*1 = g_bid W <$> L.
Proof.
  intros Hr%run_rinvr. pose proof (rr_batch _ _ _ _ Hr) as Hb. destruct (bi_sent _ _ _ _ _ _ _ _ Hb) as (L & Hnd & HL & Hsent). exists L. split; [done|]. split.
  - intros b. rewrite HL, <-(bi_dom _ _ _ _ _ _ _ _ Hb b). split.
    + intros (x & Hx & Hd). split; [by eexists|]. by apply (done_batch s Q b x).
    + intros [[x Hx] Hno]. exists x. split; [done|]. by apply (done_batch s Q b x).
  - rewrite Hsent. assert (HLs : ∀ b, b ∈ L → is_Some (rs_bchs s !! b)) by (intros b (x & ? & _)%HL; by eexists). clear Hsent HL Hnd.
    unfold replies. induction L as [|b L IH]; [done|]. destruct (HLs b) as [x Hx]; [by left|]. csimpl. rewrite Hx. csimpl. rewrite (bi_id _ _ _ _ _ _ _ _ Hb b x Hx). f_equal.
    apply IH. intros c Hc. apply HLs. by right.
Qed.

(** C24: A reply has a result for each entry of its batch; an entry that is
    answered with 0 has the bytes of the source in the file of this server.
    The run has writes of the file that are whole or fail and replies of the
    source that are errors or its bytes ([good_reply]); [short_write_answered]
    shows an entry answered with 0 after a short write. *)
Theorem batch_reply_correct s Q id rcs : repl_run s Q → (id, rcs) ∈ rs_sent s →
  ∃ b qs, Q !! b = Some qs ∧ id = g_bid W b ∧ length rcs = length qs ∧
    ∀ j q, qs !! j = Some q → rcs !! j = Some 0 → ∃ i, rs_bmaps s !! q_key q = Some i ∧ copied_all W (q_key q) i (rq_len q).
Proof.
  intros Hr%run_rinvr Hin. pose proof (rr_batch _ _ _ _ Hr) as Hb. destruct (bi_sent _ _ _ _ _ _ _ _ Hb) as (L & _ & HL & Hsent).
  rewrite Hsent in Hin. unfold replies in Hin. apply list_elem_of_omap in Hin as (b & [x [Hx Hd]]%HL & Hid). rewrite Hx in Hid. injection Hid as <- <-.
  destruct (proj1 (bi_dom _ _ _ _ _ _ _ _ Hb b)) as [qs HQ]; [by rewrite Hx|]. destruct (bi_len _ _ _ _ _ _ _ _ Hb b x qs Hx HQ) as (_ & Hbuf & _ & _).
  exists b, qs. split; [done|]. split; [by apply (bi_id _ _ _ _ _ _ _ _ Hb)|]. split; [done|]. intros j q Hq Hz.
  destruct (bi_done _ _ _ _ _ _ _ _ Hb b x qs j q Hx HQ Hq) as [(a & p & Ha & Hp & _)|Hc]; [cbn; pose proof (lookup_lt_Some _ _ _ Hq); lia| |by apply Hc].
  destruct (proj1 (done_batch s Q b x Hr Hx) Hd). rewrite lookup_fmap in Ha. destruct (rs_wks s !! a) as [w|] eqn:Hw; [|done]. injection Ha as <-. by exists a, w.
Qed.

(** Every operation runs to its end: no assertion fails and nothing is missing. *)
Lemma pending_or_read s Q a : rinvr W None s Q → a ∈ rs_active s → a ∈ rs_pending s ∨ ∃ n, (a, n) ∈ rs_reads s.
Proof.
  intros Hr Ha. destruct (proj2 (rr_dom _ _ _ _ Hr a) Ha) as [w Hw]. destruct (rr_item _ _ _ _ Hr a w Hw) as (Hpos & i & _ & Hl). pose proof (li_ref _ _ _ _ _ Hl) as Href.
  destruct (decide (a ∈ rs_pending s)) as [|Hnp]; [by left|right]. rewrite bool_decide_eq_false_2 in Href by done. destruct (rdsl (rs_reads s) a) as [|n l] eqn:Hd; [cbn in Href; lia|].
  exists n. apply rdsl_elem. rewrite Hd. by left.
Qed.
Lemma repl_enabled s Q : rinvr W None s Q → rs_active s ≠ [] → ∃ s', repl_step true s s'.
Proof.
  intros Hr Hne. destruct (rs_active s) as [|a act] eqn:Hact; [done|]. destruct (pending_or_read s Q a Hr) as [Hp|[n Hn]]; [rewrite Hact; by left|..].
  - destruct (rs_pending s) as [|c l] eqn:Hpend; [by apply elem_of_nil in Hp|]. set (e := {| is_newreq := 0; is_read := 0; is_bulk := 0; is_add := 0; is_now := 0; is_rpc := 0 |}).
    destruct (wp_run _ _ _ (wp_round W None s Q c l true e (λ _ _, True) Hr Hpend eq_refl (λ _ _ _, I))) as ([] & s' & Hrun & _). exists s'. by apply (step_round _ s true e).
  - destruct (proj2 (rr_dom _ _ _ _ Hr a)) as [w Hw]; [rewrite Hact; by left|]. set (d := λ x, g_src W (w_key w) (n * SLASH_SLVR_SIZE + x)).
    assert (Hgood : good_reply W w n 0 d (repl_slvr_len w n)) by (split; [done|]; intros _; split; [done|by left]).
    destruct (wp_run _ _ _ (wp_cb W None s Q a n 0 d 0 (repl_slvr_len w n) w (λ _ _, True) Hr Hn Hw Hgood (λ _ _ _ _, I))) as (r & s' & Hrun & _). exists s'. by eapply step_reply.
Qed.

(** No operation of the destination hits an assertion, a missing item or an
    entry beyond a buffer: from every state that is reached, a batch, a round
    of the thread that finds an item, and a reply to a read run to their end. *)
Theorem repl_no_fault s Q : repl_run s Q →
  (∀ len l, (0 < length l)%nat → len = SIZEOF_REPLWK_REQENT * Z.of_nat (length l) → len ≤ LNET_MTU_RIC → Forall (entry_ok s) l →
     ∃ s', sli_rim_handle_batch SRMT_REPL_SCHEDWK (g_bid W (rs_nbch s)) len 0 0 l s = Done (0, s')) ∧
  (∀ csvc e, rs_pending s ≠ [] → is_rpc e = 0 → ∃ s', slireplpndthr_round csvc e s = Done (tt, s')) ∧
  (∀ a n, (a, n) ∈ rs_reads s → ∃ w, rs_wks s !! a = Some w ∧ ∀ rc d now sys, good_reply W w n rc d sys → ∃ r s', sli_rii_replread_cb a n rc d now sys 0 s = Done (r, s')).
Proof.
  intros Hr%run_rinvr. split; [|split].
  - intros len l Hpos Hlen Hmtu Hok. destruct (wp_run _ _ _ (wp_handle_batch W s Q _ len l (λ r _, r = 0) Hr eq_refl Hpos Hlen Hmtu Hok (λ _ _, eq_refl))) as (r & s' & Hrun & ->). by exists s'.
  - intros csvc e Hp Hrpc. destruct (rs_pending s) as [|a l] eqn:Hpend; [done|].
    destruct (wp_run _ _ _ (wp_round W None s Q a l csvc e (λ _ _, True) Hr Hpend Hrpc (λ _ _ _, I))) as ([] & s' & Hrun & _). by exists s'.
  - intros a n Hn. destruct (proj2 (rr_dom _ _ _ _ Hr a)) as [w Hw]; [by eapply (rr_inflight _ _ _ _ Hr)|]. exists w. split; [done|]. intros rc d now sys Hgood.
    destruct (wp_run _ _ _ (wp_cb W None s Q a n rc d now sys w (λ _ _, True) Hr Hn Hw Hgood (λ _ _ _ _, I))) as (r & s' & Hrun & _). by exists r, s'.
Qed.

(** C25: With a source that can be reached, and replies to the metadata server
    that can be sent, the work comes to its end: every sequence of rounds and
    replies is finite, another step is possible as long as a work item is
    left, and when none is left every batch was answered and no bandwidth is
    reserved. *)
Theorem repl_drains s Q : repl_run s Q →
  Acc (λ s2 s1, repl_step true s1 s2) s ∧
  ∀ s', rtc (repl_step true) s s' → (∃ s'', repl_step true s' s'') ∨ rs_active s' = [] ∧ rs_ingress s' = 0 ∧ ∀ b, is_Some (Q !! b) → g_bid W b ∈ (rs_sent s').*1.
Proof.
  intros Hrun. split.
  - apply run_rinvr in Hrun. remember (rwork s) as m eqn:Hm. revert s Hrun Hm. induction (lt_wf m) as [m _ IH]. intros s Hr ->. constructor. intros s2 Hstep.
    destruct (step_inv true s s2 Q Hr Hstep) as [Hr2 Hlt]. by apply (IH (rwork s2)); [apply Hlt|..].
  - intros s' Hsteps. assert (Hr : rinvr W None s' Q).
    { apply run_rinvr in Hrun. induction Hsteps as [|s s1 s' Hstep _ IH]; [done|]. apply IH. by eapply step_inv. }
    destruct (rs_active s') as [|a act] eqn:Hact; [right|left; apply (repl_enabled s' Q Hr); by rewrite Hact]. split; [done|]. split; [by rewrite (rr_bw _ _ _ _ Hr), Hact|]. intros b HQ.
    pose proof (rr_batch _ _ _ _ Hr) as Hb. destruct (bi_sent _ _ _ _ _ _ _ _ Hb) as (L & _ & HL & Hsent). destruct (proj2 (bi_dom _ _ _ _ _ _ _ _ Hb b) HQ) as [x Hx].
    assert (Hin : b ∈ L). { apply HL. exists x. split; [done|]. apply (done_batch s' Q b x Hr Hx). intros (a & w & Hw & _). assert (a ∈ rs_active s') as Ha by (apply Hr; by rewrite Hw). rewrite Hact in Ha. by apply elem_of_nil in Ha. }
    rewrite Hsent. apply (list_elem_of_fmap_2' fst _ (bch_id x, bch_buf x)); [|cbn; symmetry; by apply (bi_id _ _ _ _ _ _ _ _ Hb)]. apply list_elem_of_omap. exists b. by rewrite Hx.
Qed.

(** A round for which there is no connection or no request. *)
Definition offline_round s s' : Prop := ∃ csvc e, csvc && (is_newreq e =? 0) = false ∧ is_rpc e = 0 ∧ slireplpndthr_round csvc e s = Done (tt, s').
(** A source that cannot be reached is never reported: as long as there is
    no connection, work items with slivers to ask for stay as they are, however
    often the thread takes them, and no reply is sent. *)
Theorem offline_unreported s Q s' : repl_run s Q →
  (∀ a w, rs_wks s !! a = Some w → srw_status w = 0 ∧ ∃ i n, rs_bmaps s !! w_key w = Some i ∧ 0 ≤ n ∧ wants i n) →
  rtc offline_round s s' →
  rs_wks s' = rs_wks s ∧ rs_bmaps s' = rs_bmaps s ∧ rs_sent s' = rs_sent s ∧ rs_pending s' ≡ₚ rs_pending s.
Proof.
  intros Hr%run_rinvr Hall Hsteps. induction Hsteps as [|s s1 s' (csvc & e & Hgo & Hrpc & Hrun) _ IH]; [done|].
  destruct (rs_pending s) as [|a l] eqn:Hp; [unfold slireplpndthr_round, mbind, M_bind, getM in Hrun; by rewrite Hp in Hrun|].
  destruct (proj2 (rr_dom _ _ _ _ Hr a)) as [w Hw]; [apply (rr_pending _ _ _ _ Hr); rewrite Hp; by left|]. destruct (Hall a w Hw) as (Hs0 & i & n & Hi & Hn & Hwt).
  assert (Heq : s1 = rs_with_wks s (rs_wks s) (rs_active s) (lc_add a l) (rs_reads s)).
  { refine (wp_done _ (λ _ s', s' = _) _ _ _ Hrun _). eapply wp_round_stalled; try done. by exists n. }
  destruct (step_inv false s s1 Q Hr (step_round _ s csvc e s1 Hgo Hrpc Hrun)) as [Hr1 _]. rewrite Heq in *. destruct (IH Hr1 Hall) as (H1' & H2' & H3' & H4').
  split; [done|]. split; [done|]. split; [done|]. rewrite H4'. cbn. by rewrite lc_add_perm.
Qed.
End runs.

(** ** The source *)
Section source_props.
Context `{PflErr} `{PflCrc} `{PflNet} `{!PflCrcLaws} `{!PflNetLaws}.
Context (bno : Z).
Implicit Types (s : ion).

Lemma wp_io_done_ok s n v :
  io_slvrs s !! n = Some v → wp (slvr_io_done n 0) (λ _ s', ∃ v', io_slvrs s' !! n = Some v' ∧ slvr_slab v' = slvr_slab v) s.
Proof. intros Hv. unfold slvr_io_done. eapply wp_modSv; [done|]. eexists. split; [apply lookup_insert_eq|done]. Qed.
(** The source answers a read of a sliver with the bytes of its file, and its
    cache is as it was: the sliver is not in use any more. *)
Theorem repl_read_served f0 s O T R fid len n sys bulk_rc :
  0 ≤ bno → ion_run bno f0 s O T R → fid ≠ FID_ANY → 0 < len ≤ SLASH_SLVR_SIZE → 0 ≤ n < SLASH_SLVRS_PER_BMAP → 0 ≤ sys → n ∉ held O → n ∉ io_crcthr s →
  ∃ d s', sli_rii_handle_repl_read bno fid len n 0 0 sys bulk_rc s = Done ((bulk_rc, d), s') ∧
    (∀ x, 0 ≤ x < len → d x = io_file s (bno * SLASH_BMAP_SIZE + n * SLASH_SLVR_SIZE + x)) ∧ io_file s' = io_file s ∧ cinv bno s' O.
Proof.
  intros Hb Hrun Hfid Hlen Hn Hsys Hh Ht. pose proof (rv_cache _ _ _ _ _ _ (ion_run_inv bno _ _ _ _ _ Hb Hrun)) as Hi.
  enough (wp (sli_rii_handle_repl_read bno fid len n 0 0 sys bulk_rc) (λ r s', r.1 = bulk_rc ∧ (∀ x, 0 ≤ x < len → r.2 x = io_file s (bno * SLASH_BMAP_SIZE + n * SLASH_SLVR_SIZE + x)) ∧
            io_file s' = io_file s ∧ cinv bno s' O) s) as ([rc d] & s' & Hdo & Hrc & Hd & Hf & Hc)%wp_run.
  { exists d, s'. cbn in *. by subst rc. }
  unfold sli_rii_handle_repl_read. rewrite (proj2 (Z.eqb_neq _ _) Hfid). destruct (Z.leb_spec len 0); [lia|]. rewrite Z.gtb_ltb, Z.geb_leb.
  destruct (Z.ltb_spec SLASH_SLVR_SIZE len); [lia|]. destruct (Z.ltb_spec n 0); [lia|]. destruct (Z.leb_spec SLASH_SLVRS_PER_BMAP n); [lia|]. cbn [orb negb Z.eqb].
  apply wp_assoc. wp_step. apply (wp_take bno s O SL_READ (n, 0, len) 0 sys); [done|split; [done|cbn; lia]|done|done|].
  intros s1 rv lru Hco _ _ _ _ [[-> Hc]|(_ & ? & _)]; [|lia]. destruct (open_one bno s1 O _ _ Hc) as (v & Hv & _ & Hok & _). destruct (cache_only_file _ _ Hco) as [Hf1 _].
  assert (Hsl : slab_file bno (io_file s1) n (slvr_slab v)).
  { destruct (so_slab _ _ _ _ _ Hok) as [(e & He & Hnum & Hbl)|]; [|done]. apply elem_of_cons in He as [->|He]; [by destruct Hbl as [?|(? & _)]|]. destruct Hh. cbn in Hnum. rewrite <-Hnum. by apply (list_elem_of_fmap_2' _ _ e). }
  assert (Hrel : wp (_ ← slvr_io_done n 0; release SL_READ 0 n false) (λ _ s', cache_only s1 s' ∧ cinv bno s' O) s1) by (by apply (wp_release_ok bno s1 O (Some SL_READ) (n, 0, len) SL_READ 0 false v)).
  apply wp_bind_inv in Hrel. wp_step. eapply wp_mono; [apply wp_and; [exact (wp_io_done_ok s1 n v Hv)|exact Hrel]|]. intros [] s2 [(v' & Hv' & Hvs) Hr2]. cbn [negb Z.eqb].
  wp_step. eapply wp_getSv; [exact Hv'|]. wp_step. eapply wp_mono; [exact Hr2|]. intros [] s3 [Hco3 Hc3]. wp_step. destruct (cache_only_file _ _ Hco3) as [Hf3 _]. cbn [fst snd].
  split; [done|]. split; [|split; [congruence|done]]. intros x Hx. rewrite Hvs, Hsl, Hf1 by lia. f_equal. unfold slvr_2_fileoff. lia.
Qed.

(** When the read of the file fails at the source, the sliver stays in the
    cache with its reference and its error, so whoever asks for it later waits
    for a wakeup that nobody makes. *)
Theorem repl_read_error_leaks s fid len n sys bulk_rc :
  fid ≠ FID_ANY → 0 < len ≤ SLASH_SLVR_SIZE → 0 ≤ n < SLASH_SLVRS_PER_BMAP → io_back s = true → io_slvrs s !! n = None → sys < 0 →
  ∃ d s', sli_rii_handle_repl_read bno fid len n 0 0 sys bulk_rc s = Done ((sys, d), s') ∧
    slvr_refcnt <$> io_slvrs s' !! n = Some 1 ∧ slvr_lookup n s' = Stuck WouldBlock.
Proof.
  intros Hfid Hlen Hn Hb Hv Hsys.
  enough (wp (sli_rii_handle_repl_read bno fid len n 0 0 sys bulk_rc) (λ r s', r.1 = sys ∧ slvr_refcnt <$> io_slvrs s' !! n = Some 1 ∧ slvr_lookup n s' = Stuck WouldBlock) s)
    as ([rc d] & s' & Hdo & Hrc & Hrest)%wp_run by (exists d, s'; cbn in *; by subst rc).
  unfold sli_rii_handle_repl_read. rewrite (proj2 (Z.eqb_neq _ _) Hfid). destruct (Z.leb_spec len 0); [lia|]. rewrite Z.gtb_ltb, Z.geb_leb.
  destruct (Z.ltb_spec SLASH_SLVR_SIZE len); [lia|]. destruct (Z.ltb_spec n 0); [lia|]. destruct (Z.leb_spec SLASH_SLVRS_PER_BMAP n); [lia|]. cbn [orb negb Z.eqb].
  wp_step. unfold slvr_lookup at 1. wp_step. wp_step. rewrite Hv. wp_step. unfold setSv. wp_step. wp_step. wp_step. unfold slvr_io_prep. wp_step. eapply wp_getSv; [apply lookup_insert_eq|].
  wp_step. wp_step; [done|]. cbn [slvr_flags]. change (hasf SLVRF_LRU SLVRF_DATAERR) with false. cbv iota. wp_step. eapply wp_modSv; [apply lookup_insert_eq|].
  change (hasf SLVRF_LRU SLVRF_DATARDY) with false. cbv iota. wp_step. apply wp_when; [done|]. intros _. unfold slvr_fsbytes_rio, slvr_fsio. wp_step. wp_step. cbn [io_back io_with_slvrs io_with_lists]. rewrite Hb. cbn [negb].
  destruct (Z.ltb_spec sys 0); [|lia]. wp_step. wp_step. unfold slvr_io_done. eapply wp_modSv; [apply lookup_insert_eq|]. assert (sys ≠ 0) as Hne%Z.eqb_neq by lia. rewrite Hne. cbn [negb]. wp_step.
  split; [done|]. io_norm. split; [by rewrite lookup_insert_eq|]. unfold slvr_lookup, mbind, M_bind, getM. io_norm. rewrite lookup_insert_eq. done.
Qed.
End source_props.

(** ** A replication of ten bytes *)
Module ReplEx.
#[global] Instance queue : PflQueue := {| lc_add x l := l ++ [x] |}.
#[global] Instance queue_laws : PflQueueLaws.
Proof. split. intros x l. cbn. by rewrite Permutation_app_comm. Qed.
#[global] Instance timeo : PflTimeo := {| PFLERR_TIMEDOUT := 930; PFLERR_TIMEDOUT_pos := eq_refl; PFLERR_NOTSUP := 931 |}.

Definition W : world := {| g_src := λ _ x, x + 1; g_bid := λ b, 70 + b |}.
Definition q : replwk_req := {| rq_src := 5; rq_fg := (9, 0); rq_bno := 0; rq_bgen := 1; rq_len := 10 |}.
Definition l : list (replwk_req * addwk_env) := [(q, {| aw_known := true; aw_fcmh := 0; aw_bmap := 0; aw_ion := SlvrEx.s0 |})].
Definition e : issue_env := {| is_newreq := 0; is_read := 0; is_bulk := 0; is_add := 0; is_now := 0; is_rpc := 0 |}.
Definition Q : gmap Z (list replwk_req) := <[0 := [q]]> ∅.
Definition after {A} (m : M rst A) (s : rst) : rst := match m s with Done (_, s') => s' | Stuck _ => s end.
Definition val {A} (m : M rst A) (s : rst) : option A := match m s with Done (a, _) => Some a | Stuck _ => None end.
Lemma rafter_done {A} (m : M rst A) s a : val m s = Some a → m s = Done (a, after m s).
Proof. unfold val, after. destruct (m s) as [[a' s']|]; [|done]. by intros [= ->]. Qed.
Definition s1 : rst := after (sli_rim_handle_batch SRMT_REPL_SCHEDWK 70 36 0 0 l) rst_empty.
Definition s2 : rst := after (slireplpndthr_round true e) s1.
Definition s3 : rst := after (sli_rii_replread_cb 0 0 0 (λ x, x + 1) 0 10 0) s2.
Definition s4 : rst := after (slireplpndthr_round true e) s3.

Lemma clean : lion 0 SlvrEx.s0 [].
Proof. split; [apply (rv_cache _ _ _ _ _ _ (ion_run_inv 0 _ _ _ _ _ ltac:(lia) (SlvrEx.fresh0 0)))|done|by intros n ?%elem_of_nil]. Qed.
Lemma no_wants n : ¬ wants SlvrEx.s0 n.
Proof. intros (st & Hst%list_elem_of_lookup_2%elem_of_replicate & Hw). by destruct Hst as [-> _]. Qed.
Lemma rrun1 : repl_run W s1 Q.
Proof.
  apply (repl_batch W rst_empty ∅ 36 l s1); [apply repl_start|cbn; lia|done|vm_compute; discriminate| |unfold s1; apply rafter_done; vm_compute; reflexivity].
  constructor; [|constructor]. right. split; [|intros _; apply clean]. split; [done|]. split; [done|]. split; [|done]. intros n _ Hw. by destruct (no_wants n).
Qed.
Lemma rrun2 : repl_run W s2 Q.
Proof. apply (repl_more W s1 Q true); [apply rrun1|]. apply (step_round W true s1 true e); [done|done|]. unfold s2. apply rafter_done. vm_compute. reflexivity. Qed.
Lemma rrun3 : repl_run W s3 Q.
Proof.
  assert (∃ w, rs_wks s2 !! 0 = Some w) as [w Hw] by (apply fmap_is_Some with (f := srw_len); vm_compute; by eexists).
  assert (Hlen : srw_len w = 10 ∧ srw_len <$> rs_wks s2 !! 0 = Some 10).
  { assert (srw_len <$> rs_wks s2 !! 0 = Some 10) as Hl by (vm_compute; reflexivity). split; [rewrite Hw in Hl; by injection Hl|done]. }
  apply (repl_more W s2 Q true); [apply rrun2|]. apply (step_reply W true s2 0 0 w 0 (λ x, x + 1) 0 10 0); [vm_compute; by left|done| |unfold s3; apply rafter_done; vm_compute; reflexivity].
  split; [done|]. intros _. unfold repl_slvr_len. rewrite (proj1 Hlen). split; [intros x _; done|by left].
Qed.
Lemma rrun4 : repl_run W s4 Q.
Proof. apply (repl_more W s3 Q true); [apply rrun3|]. apply (step_round W true s3 true e); [done|done|]. unfold s4. apply rafter_done. vm_compute. reflexivity. Qed.
Lemma sent4 : rs_sent s4 = [(70, [0])].
Proof. vm_compute. reflexivity. Qed.
(** The write of the ten bytes is short, of three bytes: [slvr_fsio] returns 0,
    the entry is answered with 0, and the file lacks the rest. *)
Definition s3' : rst := after (sli_rii_replread_cb 0 0 0 (λ x, x + 1) 0 3 0) s2.
Definition s4' : rst := after (slireplpndthr_round true e) s3'.
Lemma short_write_answered : rs_sent s4' = [(70, [0])] ∧ ∃ i, rs_bmaps s4' !! q_key q = Some i ∧ io_file i 2 = g_src W (q_key q) 2 ∧ io_file i 3 ≠ g_src W (q_key q) 3.
Proof. split; [vm_compute; reflexivity|]. eexists. split; [vm_compute; reflexivity|]. split; [vm_compute; reflexivity|vm_compute; discriminate]. Qed.
End ReplEx.

(** The batch with one entry was answered, once. *)
Lemma batch_answered_once_witness : rs_sent ReplEx.s4 = [(70, [0])] ∧
  ∃ L, NoDup L ∧ (∀ b, b ∈ L ↔ is_Some (ReplEx.Q !! b) ∧ ¬ open_batch ReplEx.s4 b) ∧ (rs_sent ReplEx.s4).*1 = g_bid ReplEx.W <$> L.
Proof. split; [exact ReplEx.sent4|]. exact (batch_answered_once ReplEx.W ReplEx.s4 ReplEx.Q ReplEx.rrun4). Defined.
(** The ten bytes are there. *)
Lemma batch_reply_correct_witness : ∃ b qs, ReplEx.Q !! b = Some qs ∧ 70 = g_bid ReplEx.W b ∧ length [0] = length qs ∧
  ∀ j q, qs !! j = Some q → [0] !! j = Some 0 → ∃ i, rs_bmaps ReplEx.s4 !! q_key q = Some i ∧ copied_all ReplEx.W (q_key q) i (rq_len q).
Proof. apply (batch_reply_correct ReplEx.W ReplEx.s4 ReplEx.Q 70 [0] ReplEx.rrun4). rewrite ReplEx.sent4. by left. Defined.
(** The read in flight. *)
Lemma repl_no_fault_witness : ∃ w, rs_wks ReplEx.s2 !! 0 = Some w.
Proof. destruct (repl_no_fault ReplEx.W ReplEx.s2 ReplEx.Q ReplEx.rrun2) as (_ & _ & Hr). destruct (Hr 0 0) as (w & Hw & _); [vm_compute; by left|]. by exists w. Defined.
Lemma repl_drains_witness : ∃ s, repl_step ReplEx.W true ReplEx.s1 s.
Proof.
  destruct (repl_drains ReplEx.W ReplEx.s1 ReplEx.Q ReplEx.rrun1) as [_ Hd]. destruct (Hd ReplEx.s1 (rtc_refl _ _)) as [?|[Ha _]]; [done|].
  assert (rs_active ReplEx.s1 = [0]) as Hn by (vm_compute; reflexivity). by rewrite Hn in Ha.
Defined.
(** A round without a connection. *)
Lemma offline_unreported_witness : rs_sent (ReplEx.after (slireplpndthr_round false ReplEx.e) ReplEx.s1) = rs_sent ReplEx.s1.
Proof.
  apply (offline_unreported ReplEx.W ReplEx.s1 ReplEx.Q _ ReplEx.rrun1).
  - intros a w Hw. assert (Ha : a ∈ rs_active ReplEx.s1) by (apply (rr_dom _ _ _ _ (run_rinvr _ _ _ ReplEx.rrun1)); by rewrite Hw).
    assert (rs_active ReplEx.s1 = [0]) as Hact by (vm_compute; reflexivity). rewrite Hact in Ha. apply list_elem_of_singleton in Ha as ->.
    assert (Hs : (λ w, (srw_status w, w_key w)) <$> rs_wks ReplEx.s1 !! 0 = Some (0, ((9, 0), 0))) by (vm_compute; reflexivity). rewrite Hw in Hs. assert (srw_status w = 0 ∧ w_key w = ((9, 0), 0)) as [Hs0 Hk] by (cbn in Hs; split; congruence). split; [done|].
    assert (Hi : (λ i, io_crcstates i !! 0%nat) <$> rs_bmaps ReplEx.s1 !! ((9, 0), 0) = Some (Some BMAP_SLVR_WANTREPL)) by (vm_compute; reflexivity).
    destruct (rs_bmaps ReplEx.s1 !! ((9, 0), 0)) as [i|] eqn:Hb; [|done]. exists i, 0. rewrite Hk. split; [done|]. split; [done|]. exists BMAP_SLVR_WANTREPL. by injection Hi.
  - apply rtc_once. exists false, ReplEx.e. split; [done|]. split; [done|]. apply (ReplEx.rafter_done (slireplpndthr_round false ReplEx.e) ReplEx.s1 tt). vm_compute. reflexivity.
Defined.
(** A read of three bytes right after they were written by a client. *)
Lemma repl_read_served_witness : ∃ d s', sli_rii_handle_repl_read 0 9 8 0 0 0 0 0 SlvrEx.s2 = Done ((0, d), s') ∧ d 6 = 2.
Proof.
  destruct (repl_read_served 0 SlvrEx.f0 SlvrEx.s2 [] [ev_write 5 3 SlvrEx.d1] [] 9 8 0 0 0) as (d & s' & Hdo & Hd & _);
    [lia|exact SlvrEx.run2|done|unfold SLASH_SLVR_SIZE; lia|done|lia|apply not_elem_of_nil|vm_compute; apply not_elem_of_nil|].
  exists d, s'. split; [exact Hdo|]. rewrite Hd by lia. vm_compute. reflexivity.
Defined.
Lemma repl_read_error_leaks_witness : ∃ d s', sli_rii_handle_repl_read 0 9 8 0 0 0 (- EIO) 0 SlvrEx.s0 = Done ((- EIO, d), s') ∧
  slvr_refcnt <$> io_slvrs s' !! 0 = Some 1 ∧ slvr_lookup 0 s' = Stuck WouldBlock.
Proof. apply (repl_read_error_leaks 0 SlvrEx.s0 9 8 0 (- EIO) 0); [done|unfold SLASH_SLVR_SIZE; lia|done|done|done|done]. Defined.
