(* ===== verification/CrcFlow.v ===== *)
(** * From a client's write to the CRC table of the metadata server

    The I/O server and the metadata server together: the reports of a run of
    [SlvrProps], delivered to [slm_rmi_handle_bmap_crcwrt] of [CrcWrite]. *)
From S2P Require Import Prelude ReplBits Inode ReplWalk BmapMds ReplMds ReplReq Replay Timeo Lease LeaseInv LeaseOps LeaseProps IosSelect BmapAssign CrcWrite Slvr SlvrIO SlvrInv SlvrReq SlvrThreads SlvrProps.

Section flow.
Context {DI D T : Type} `{Mdsio DI} `{BmapIO D} `{PflErr} `{PflMem} `{PflArrayLaws} `{!MdsioLaws DI} `{OdTableLaws T}.
Context (gc : sl_config) (sv : servers) (buf : slmds_jent_assign_rep) `{!Deployment gc}.
Context (cfg : gmap Z sl_res_type) (nonce bno : Z) (rcs : crcw_rcs).
#[local] Instance flow_lease_env : LeaseEnv (fenv DI D) := fenv_lease_env gc sv bno buf.
#[local] Instance flow_lease_laws : LeaseEnvLaws (fenv DI D) := fenv_laws gc sv bno buf.
Implicit Type s : cwstate T DI D.
(** The attributes of the file that a report carries, of which nothing is
    required. *)
Context (info : list srt_bmap_crcwire → srm_bmap_crcup).

(** The message of a report, as [slvr_worker_crcup_genrq] builds it. *)
Definition report_entry (gen : Z) (r : list srt_bmap_crcwire) : Z * crcup_entry :=
  (Z.of_nat (length r),
   {| ce_gen := gen; ce_nups := Z.of_nat (length r);
      ce_up := {| fsize := fsize (info r); nblks := nblks (info r); utimgen := utimgen (info r); extend := extend (info r); crcs := r |} |}).
Fixpoint deliver (iosid gen : Z) (R : list (list srt_bmap_crcwire)) : M (cwstate T DI D) unit :=
  match R with
  | [] => mret tt
  | r :: R =>
      _ ← slm_rmi_handle_bmap_crcwrt cfg nonce bno rcs 0 iosid 0 [report_entry gen r];
      deliver iosid gen R
  end.

(** The metadata server takes reports of [iosid]: the bmap is leased for
    writing and bound to it. *)
Record mds_open (s : cwstate T DI D) (A : LeaseInv.held) (iosid gen : Z) (b : bmap) : Prop := {
  mo_cached : ∃ ref, cached bno s b ref;
  mo_linv : linv (cw_ls s) A;
  mo_writers : nwriters A ≠ 0;
  mo_bound : ls_wr_ion (cw_ls s) = Some iosid;
  mo_up : hasf (bcm_flags b) BMAPF_CRC_UP = false;
  mo_len : Z.of_nat (length (bod_crcs (bmi_od b))) = SLASH_CRCS_PER_BMAP;
  mo_gen : cw_gen s = gen;
}.

(** The backend: writes of bmaps succeed, and are logged. *)
Definition writes_ok : Prop := ∀ (d : D) n o c, ∃ d', pwritev_bmap d n o c = (0, BMAP_OD_SZ, true, d').

Lemma wp_deliver_one s A iosid gen b r (Q : Z * list Z → cwstate T DI D → Prop) :
  rcs_ok rcs → writes_ok → mds_open s A iosid gen b → report_ok r →
  (∀ s' b', mds_open s' A iosid gen b' →
     (∀ i, (i < length (bod_crcs (bmi_od b)))%nat → bod_crcs (bmi_od b') !! i =
        match last_crc r (Z.of_nat i) with Some x => Some x | None => bod_crcs (bmi_od b) !! i end) → Q (0, [0]) s') →
  wp (slm_rmi_handle_bmap_crcwrt cfg nonce bno rcs 0 iosid 0 [report_entry gen r]) Q s.
Proof.
  intros Hrcs Hio [[ref Hc] Hl Hnw Hb Hup Hlen Hgen] (Hn & Hnd & Hsl) HQ. unfold slm_rmi_handle_bmap_crcwrt.
  change (Z.of_nat (length [report_entry gen r]) >? MAX_BMAP_NCRC_UPDATES) with false. cbn [Z.eqb negb]. wp_step. cbn [crcwrt_loop report_entry]. wp_step.
  unfold crcwrt_one. cbn [ce_nups ce_gen ce_up crcs]. rewrite Z.eqb_refl, Z.gtb_ltb, Z.ltb_irrefl, Nat2Z.id, take_ge by done. cbn [negb].
  assert (existsb (λ c, slot c >=? SLASH_CRCS_PER_BMAP) r = false) as ->.
  { apply not_true_is_false. intros (c & Hin & Hge)%existsb_exists. rewrite Forall_forall in Hsl. specialize (Hsl c). rewrite list_elem_of_In in Hsl.
    specialize (Hsl Hin). rewrite Z.geb_leb in Hge. apply Z.leb_le in Hge. lia. }
  wp_step. rewrite <-Hgen. eapply wp_mono; [eapply (wp_crc_write_ok gc sv buf); try done|]. 
  intros rc s' (Hl' & Hb' & _ & _ & _ & _ & b' & o & rc0 & nb & lg & Hbm & Hcrc & _ & Hw & -> & Hup' & Hgen' & Hc' & Hlen').
  destruct (Hio (fs_disk (cw_fs s)) (bcm_bmapno b) o (crc64_bmap o)) as [d' Hd]. rewrite Hd in Hw. injection Hw as <- <- <- _.
  rewrite Z.eqb_refl. cbn [Z.eqb negb andb]. do 4 wp_step. apply (HQ s' b'); [|done].
  split; try done; [by exists ref|by rewrite Hlen'|congruence].
Qed.

Lemma wp_deliver iosid gen A R : ∀ s b (Q : unit → cwstate T DI D → Prop),
  rcs_ok rcs → writes_ok → mds_open s A iosid gen b → Forall report_ok R →
  (∀ s' b', mds_open s' A iosid gen b' →
     (∀ i, (i < length (bod_crcs (bmi_od b)))%nat → bod_crcs (bmi_od b') !! i =
        match last_crc (concat R) (Z.of_nat i) with Some x => Some x | None => bod_crcs (bmi_od b) !! i end) → Q tt s') →
  wp (deliver iosid gen R) Q s.
Proof.
  induction R as [|r R IH]; intros s b Q Hrcs Hio Hmo Hok HQ; cbn [deliver]; [wp_step; by apply (HQ s b)|].
  apply Forall_cons in Hok as [Hr HR]. wp_step. apply (wp_deliver_one s A iosid gen b r); try done. intros s1 b1 Hmo1 Hcrc1.
  apply (IH s1 b1); try done. intros s2 b2 Hmo2 Hcrc2. apply (HQ s2 b2); [done|]. intros i Hi.
  assert (Hi1 : (i < length (bod_crcs (bmi_od b1)))%nat) by (pose proof (mo_len _ _ _ _ _ Hmo); pose proof (mo_len _ _ _ _ _ Hmo1); lia).
  rewrite Hcrc2, Hcrc1 by done. simpl. rewrite last_crc_app_l. by destruct (last_crc (concat R) _).
Qed.

End flow.

(** The write of [SlvrEx], on bmap 3 of the file of [CrcEx], which is bound to
    system 12. *)
Module FlowEx.
Definition info (r : list srt_bmap_crcwire) : srm_bmap_crcup := CrcEx.up 0.
Lemma mem_writes : @writes_ok MemBmaps.mem _.
Proof. intros d n o c. eexists. reflexivity. Qed.
#[local] Existing Instance CrcEx.env.
#[local] Existing Instance CrcEx.env_laws.
Lemma opened : mds_open SelEx.gc SelEx.sv AssignEx.buf 3 CrcEx.cw CrcEx.A 12 1 CrcEx.b.
Proof.
  split; [exists 1; exact CrcEx.cached_cw|exact CrcEx.leased_linv|vm_compute; discriminate|vm_compute; reflexivity..].
Qed.
Lemma run3 : ∃ s R, ion_run 3 SlvrEx.f0 s [] [ev_write 5 3 SlvrEx.d1] R ∧ idle s.
Proof.
  destruct (run_io 3 12 SlvrEx.f0 SlvrEx.s0 [] [] [] SlvrEx.mq SL_WRITE 7 (SlvrEx.env SlvrEx.d1)) as (r & s & _ & _ & _ & Hrun); try done.
  - apply SlvrEx.fresh0.
  - apply SlvrEx.free, not_elem_of_nil.
  - apply SlvrEx.good.
  - destruct (run_drain 3 SlvrEx.f0 s [ev_write 5 3 SlvrEx.d1] []) as (s' & R & ? & _ & ?); [lia|done|]. by exists s', R.
Qed.
End FlowEx.
