(* ===== verification/Reclaim.v ===== *)
(** * Reclamation of the space of dead files

    When a file is removed or truncated to zero, the I/O servers have to remove
    its backing file.  The journal entry of the operation is distilled into a
    reclaim log, which consists of files ("batches") of 2048 records, the first
    one a header; a thread sends each batch to every I/O server, keeps for each
    of them how far it got, and removes old log files ([slashd/mdslog.c]).  The
    server removes the backing files ([sli_rim_handle_reclaim] of
    [sliod/rim.c]).

    A log file is the list of its whole records and the number of bytes that
    follow them.  Operations on log files that fail for another reason than a
    missing file end the server and are left out.  The sending of a batch is
    cut in two where it waits for the replies. *)
From S2P Require Import Prelude.

(** ** Data *)
Abbreviation fidgen := (Z * Z)%type.
Definition R_ENTSZ : Z := 24.
Definition RP_ENTSZ : Z := 24.
Definition SLM_RECLAIM_BATCH_NENTS : Z := 2048.
Definition MAX_RECLAIM_PROG_ENTRY : Z := 1024.
Definition UINT64_MAX : Z := 2 ^ 64 - 1.

Record srt_reclaim_entry := { re_xid : Z; re_fg : fidgen }.
#[global] Instance reclaim_entry_eq_dec : EqDecision srt_reclaim_entry.
Proof. solve_decision. Defined.
(** [RECLAIM_MAGIC_VER], [RECLAIM_MAGIC_FID], [RECLAIM_MAGIC_GEN] *)
Definition RECLAIM_MAGIC : srt_reclaim_entry := {| re_xid := 1; re_fg := (2 ^ 64 - 1, 0xabcdefabcdef5678) |}.
Record logfile := { lf_ents : list srt_reclaim_entry; lf_extra : Z }.
Definition lf_size (f : logfile) : Z := R_ENTSZ * Z.of_nat (length (lf_ents f)) + lf_extra f.

(** [struct reclaim_prog_entry] *)
Record reclaim_prog_entry := { rpe_xid : Z; rpe_batchno : Z; rpe_id : Z }.
Definition prog0 : reclaim_prog_entry := {| rpe_xid := 0; rpe_batchno := 0; rpe_id := 0 |}.

Definition SIF_NEED_JRNL_INIT : Z := Z.shiftl 1 0.
Definition SIF_DISABLE_GC : Z := Z.shiftl 1 3.
Definition SIF_NEW_PROG_ENTRY : Z := Z.shiftl 1 5.
(** The part of [struct rpmi_ios] that reclamation uses. *)
Record rpmi_ios := { si_xid : Z; si_batchno : Z; si_index : Z; si_flags : Z }.

(** [struct slm_progress reclaim_prg], with the log files, the progress file
    and the I/O systems by ID. *)
Record gcst := {
  gc_logs : gmap Z logfile;
  gc_cur_batchno : Z;
  gc_cur_xid : Z;
  gc_sync_xid : Z;
  gc_handle : option Z;                (* log_handle: the batch that is open *)
  gc_offset : Z;                       (* log_offset *)
  gc_buf : list reclaim_prog_entry;    (* prg_buf *)
  gc_prog : list reclaim_prog_entry;   (* the progress file *)
  gc_ios : gmap Z rpmi_ios;
}.
(** A batch that was sent: [struct reclaim_arg] with the locals of
    [mds_send_batch_reclaim]; a request has its receiver, its batch number and
    its records. *)
Record gc_send := {
  gs_batchno : Z;
  gs_count : Z;
  gs_xid : Z;
  gs_ndone : Z;
  gs_nios : Z;
  gs_next : Z;
  gs_sent : list (Z * Z * list srt_reclaim_entry);
}.
(** What a call sees of the network for one I/O system: whether there is a
    connection, and still is, and the results of setting up and adding the
    request. *)
Record gc_net := { gn_csvc1 : bool; gn_csvc2 : bool; gn_newreq : Z; gn_add : Z }.

Section mds.
(** The resources that are file systems, in the order of the configuration. *)
Context (fs : list Z).
Abbreviation GC A := (M gcst A).

Definition gc_with_log (s : gcst) (logs : gmap Z logfile) (h : option Z) (off : Z) : gcst :=
  {| gc_logs := logs; gc_cur_batchno := gc_cur_batchno s; gc_cur_xid := gc_cur_xid s; gc_sync_xid := gc_sync_xid s; gc_handle := h; gc_offset := off;
     gc_buf := gc_buf s; gc_prog := gc_prog s; gc_ios := gc_ios s |}.
Definition gc_with_cur (s : gcst) (b x y : Z) : gcst :=
  {| gc_logs := gc_logs s; gc_cur_batchno := b; gc_cur_xid := x; gc_sync_xid := y; gc_handle := gc_handle s; gc_offset := gc_offset s;
     gc_buf := gc_buf s; gc_prog := gc_prog s; gc_ios := gc_ios s |}.
Definition gc_with_ios (s : gcst) (m : gmap Z rpmi_ios) : gcst :=
  {| gc_logs := gc_logs s; gc_cur_batchno := gc_cur_batchno s; gc_cur_xid := gc_cur_xid s; gc_sync_xid := gc_sync_xid s; gc_handle := gc_handle s; gc_offset := gc_offset s;
     gc_buf := gc_buf s; gc_prog := gc_prog s; gc_ios := m |}.
Definition gc_with_prog (s : gcst) (buf prog : list reclaim_prog_entry) : gcst :=
  {| gc_logs := gc_logs s; gc_cur_batchno := gc_cur_batchno s; gc_cur_xid := gc_cur_xid s; gc_sync_xid := gc_sync_xid s; gc_handle := gc_handle s; gc_offset := gc_offset s;
     gc_buf := buf; gc_prog := prog; gc_ios := gc_ios s |}.
Definition si_with (xid batchno index flags : Z) : rpmi_ios := {| si_xid := xid; si_batchno := batchno; si_index := index; si_flags := flags |}.
Definition getSi (r : Z) : GC rpmi_ios := λ s, match gc_ios s !! r with Some x => Done (x, s) | None => Stuck NullDeref end.
Definition setSi (r : Z) (x : rpmi_ios) : GC unit := modifyM (λ s, gc_with_ios s (<[r := x]> (gc_ios s))).

(** ** Log files *)

(** [mds_write_file] of a record at [off] *)
Definition lf_write (f : logfile) (off : Z) (e : srt_reclaim_entry) : logfile :=
  let k := Z.to_nat (off / R_ENTSZ) in
  if (k <? length (lf_ents f))%nat then {| lf_ents := <[k := e]> (lf_ents f); lf_extra := lf_extra f |}
  else {| lf_ents := lf_ents f ++ [e]; lf_extra := 0 |}.
(** [mds_open_logfile] to read, and to write *)
Definition open_logfile_ro (b : Z) : GC Z := λ s, match gc_logs s !! b with Some _ => Done (0, s) | None => Done (ENOENT, s) end.
Definition open_logfile_rw (b : Z) : GC unit :=
  modifyM (λ s, gc_with_log s (match gc_logs s !! b with Some _ => gc_logs s | None => <[b := {| lf_ents := []; lf_extra := 0 |}]> (gc_logs s) end) (Some b) (gc_offset s)).
Definition getLog (b : Z) : GC logfile := λ s, match gc_logs s !! b with Some f => Done (f, s) | None => Stuck NullDeref end.
(** [mds_remove_logfile] *)
Definition mds_remove_logfile (b : Z) : GC Z := λ s,
  match gc_logs s !! b with
  | Some _ => Done (0, gc_with_log s (delete b (gc_logs s)) (gc_handle s) (gc_offset s))
  | None => Done (ENOENT, s)
  end.
(** [mds_remove_logfiles]: [n] is the number of files below [i], which ends the
    loop; it ends before when eleven files were missing. *)
Fixpoint remove_loop (n : nat) (i notfound : Z) : GC unit :=
  match n with
  | O => mret tt
  | S n =>
      rc ← mds_remove_logfile i;
      if negb (rc =? 0) then if notfound + 1 >? 10 then mret tt else remove_loop n (i - 1) (notfound + 1)
      else remove_loop n (i - 1) notfound
  end.
Definition mds_remove_logfiles (batchno : Z) : GC unit := remove_loop (Z.to_nat (batchno - 1)) (batchno - 2) 0.

(** [mds_write_logentry]: the log file is opened and its end found ... *)
Definition logentry_open : GC unit :=
  s ← getM;
  let b := gc_cur_batchno s in
  _ ← open_logfile_rw b;
  f ← getLog b;
  if negb (lf_size f =? 0) then
    _ ← psc_assert (bool_decide (head (lf_ents f) = Some RECLAIM_MAGIC));
    let size := lf_size f - R_ENTSZ in
    let size := if (size >? R_ENTSZ * SLM_RECLAIM_BATCH_NENTS) || negb (size mod R_ENTSZ =? 0) then R_ENTSZ * (SLM_RECLAIM_BATCH_NENTS - 1) else size in
    let off := R_ENTSZ + R_ENTSZ * (size / R_ENTSZ) in
    _ ← modifyM (λ s, gc_with_log s (gc_logs s) (gc_handle s) off);
    psc_assert (off =? lf_size f)
  else
    modifyM (λ s, gc_with_log s (<[b := lf_write f 0 RECLAIM_MAGIC]> (gc_logs s)) (gc_handle s) R_ENTSZ).
(** ... and the record is written; a file that is full is closed.  [next] is
    the transaction number that the journal gives when there is none. *)
Definition mds_write_logentry (xid : Z) (fg : fidgen) (next : Z) : GC unit :=
  let xid := if xid =? 0 then next else xid in
  s ← getM;
  _ ← match gc_handle s with Some _ => mret tt | None => logentry_open end;
  s ← getM;
  match gc_handle s with
  | None => stuckM NullDeref
  | Some b =>
      f ← getLog b;
      let off := gc_offset s + R_ENTSZ in
      _ ← modifyM (λ s, gc_with_cur (gc_with_log s (<[b := lf_write f (gc_offset s) {| re_xid := xid; re_fg := fg |}]> (gc_logs s)) (Some b) off)
                          (gc_cur_batchno s) xid (gc_sync_xid s));
      _ ← whenM (off =? SLM_RECLAIM_BATCH_NENTS * R_ENTSZ)
            (modifyM (λ s, gc_with_cur (gc_with_log s (gc_logs s) None off) (gc_cur_batchno s + 1) (gc_cur_xid s) xid));
      psc_assert (off <=? SLM_RECLAIM_BATCH_NENTS * R_ENTSZ)
  end.

(** ** Progress *)

(** [mds_reclaim_lwm] and [mds_reclaim_hwm] of batch numbers ([batchno]) or of
    transaction numbers *)
Definition si_mark (batchno : bool) (x : rpmi_ios) : Z := if batchno then si_batchno x else si_xid x.
Fixpoint lwm_loop (batchno : bool) (l : list Z) (value : Z) : GC Z :=
  match l with
  | [] => mret value
  | r :: l => x ← getSi r; lwm_loop batchno l (if hasf (si_flags x) SIF_DISABLE_GC then value else if si_mark batchno x <? value then si_mark batchno x else value)
  end.
Definition mds_reclaim_lwm (batchno : bool) : GC Z :=
  value ← lwm_loop batchno fs UINT64_MAX;
  _ ← psc_assert (negb (value =? UINT64_MAX));
  mret value.
Fixpoint hwm_loop (batchno : bool) (l : list Z) (value : Z) : GC Z :=
  match l with
  | [] => mret value
  | r :: l => x ← getSi r; hwm_loop batchno l (if si_mark batchno x >? value then si_mark batchno x else value)
  end.
Definition mds_reclaim_hwm (batchno : bool) : GC Z := hwm_loop batchno fs 0.

(** [mds_record_reclaim_prog] *)
Fixpoint record_loop (l : list Z) (lastindex : Z) : GC Z :=
  match l with
  | [] => mret lastindex
  | r :: l =>
      x ← getSi r;
      s ← getM;
      match gc_buf s !! Z.to_nat (si_index x) with
      | None => stuckM OutOfBounds
      | Some p =>
          let isnew := hasf (si_flags x) SIF_NEW_PROG_ENTRY in
          let id := if isnew then r else rpe_id p in
          _ ← whenM isnew (setSi r (si_with (si_xid x) (si_batchno x) (si_index x) (clrf (si_flags x) SIF_NEW_PROG_ENTRY)));
          _ ← psc_assert (id =? r);
          _ ← modifyM (λ s, gc_with_prog s (<[Z.to_nat (si_index x) := {| rpe_xid := si_xid x; rpe_batchno := si_batchno x; rpe_id := id |}]> (gc_buf s)) (gc_prog s));
          record_loop l (if lastindex <? si_index x then si_index x else lastindex)
      end
  end.
Definition mds_record_reclaim_prog : GC unit :=
  lastindex ← record_loop fs 0;
  let n := Z.to_nat (lastindex + 1) in
  modifyM (λ s, gc_with_prog s (gc_buf s) (take n (gc_buf s) ++ drop n (gc_prog s))).

(** [mds_skip_reclaim_batch]: the numbers of systems, of those that are past
    the batch, and whether there is something to record *)
Fixpoint skip_loop (batchno : Z) (l : list Z) (nios didwork : Z) (record : bool) : GC (Z * Z * bool) :=
  match l with
  | [] => mret (nios, didwork, record)
  | r :: l =>
      x ← getSi r;
      if si_batchno x <? batchno then skip_loop batchno l (nios + 1) didwork record
      else if si_batchno x >? batchno then skip_loop batchno l (nios + 1) (didwork + 1) record
      else
        _ ← setSi r (si_with (si_xid x) (si_batchno x + 1) (si_index x) (si_flags x));
        skip_loop batchno l (nios + 1) (didwork + 1) true
  end.
Definition mds_skip_reclaim_batch (batchno : Z) : GC unit :=
  s ← getM;
  if batchno >=? gc_cur_batchno s then mret tt
  else
    r ← skip_loop batchno fs 0 0 false;
    let '(nios, didwork, record) := r in
    _ ← whenM record mds_record_reclaim_prog;
    whenM ((didwork =? nios) && (batchno >=? 1)) (_ ← mds_remove_logfile (batchno - 1); mret tt).

(** ** Sending a batch *)

(** The records that an I/O system has not seen: the loop over [r] *)
Fixpoint unsent (l : list srt_reclaim_entry) (xid : Z) : list srt_reclaim_entry :=
  match l with
  | [] => []
  | r :: l' => if re_xid r >=? xid then l else unsent l' xid
  end.
Fixpoint reclaim_send_loop (batchno count xid : Z) (ents : list srt_reclaim_entry) (net : Z → gc_net) (l : list Z) (g : gc_send) : GC gc_send :=
  match l with
  | [] => mret g
  | r :: l =>
      x ← getSi r;
      let g := {| gs_batchno := gs_batchno g; gs_count := gs_count g; gs_xid := gs_xid g; gs_ndone := gs_ndone g; gs_nios := gs_nios g + 1;
                  gs_next := gs_next g; gs_sent := gs_sent g |} in
      if hasf (si_flags x) SIF_DISABLE_GC then reclaim_send_loop batchno count xid ents net l g
      else if negb (gn_csvc1 (net r)) then reclaim_send_loop batchno count xid ents net l g
      else
        let g := {| gs_batchno := gs_batchno g; gs_count := gs_count g; gs_xid := gs_xid g; gs_ndone := gs_ndone g; gs_nios := gs_nios g;
                    gs_next := Z.min (gs_next g) (si_batchno x); gs_sent := gs_sent g |} in
        if si_batchno x <? batchno then reclaim_send_loop batchno count xid ents net l g
        else if (si_batchno x >? batchno) || ((count <? SLM_RECLAIM_BATCH_NENTS) && (si_xid x >? xid)) then
          reclaim_send_loop batchno count xid ents net l
            {| gs_batchno := gs_batchno g; gs_count := gs_count g; gs_xid := gs_xid g; gs_ndone := gs_ndone g + 1; gs_nios := gs_nios g;
               gs_next := gs_next g; gs_sent := gs_sent g |}
        else
          let part := if si_xid x <=? xid then unsent ents (si_xid x) else ents in
          _ ← psc_assert (negb (bool_decide (part = [])));
          if negb (gn_csvc2 (net r)) || negb (gn_newreq (net r) =? 0) || negb (gn_add (net r) =? 0) then reclaim_send_loop batchno count xid ents net l g
          else
            reclaim_send_loop batchno count xid ents net l
              {| gs_batchno := gs_batchno g; gs_count := gs_count g; gs_xid := gs_xid g; gs_ndone := gs_ndone g; gs_nios := gs_nios g;
                 gs_next := gs_next g; gs_sent := gs_sent g ++ [(r, si_batchno x, part)] |}
  end.
(** [mds_send_batch_reclaim] up to the wait: it returns at once, or requests
    were sent. *)
Definition reclaim_begin (batchno : Z) (net : Z → gc_net) : GC (Z + gc_send) :=
  s ← getM;
  match gc_logs s !! batchno with
  | None =>
      if batchno <? gc_cur_batchno s then _ ← mds_skip_reclaim_batch batchno; mret (inl 1)
      else mret (inl 0)
  | Some f =>
      let size := lf_size f in
      if size =? 0 then mret (inl 0)
      else if size =? R_ENTSZ then mret (inl 0)
      else if (size >? R_ENTSZ * SLM_RECLAIM_BATCH_NENTS) || negb (size mod R_ENTSZ =? 0) then _ ← mds_skip_reclaim_batch batchno; mret (inl 1)
      else
        let count := size / R_ENTSZ in
        match lf_ents f !! Z.to_nat (count - 1) with
        | None => stuckM OutOfBounds
        | Some e =>
            g ← reclaim_send_loop batchno count (re_xid e) (tail (lf_ents f)) net fs
                  {| gs_batchno := batchno; gs_count := count; gs_xid := re_xid e; gs_ndone := 0; gs_nios := 0; gs_next := UINT64_MAX; gs_sent := [] |};
            mret (inr g)
        end
  end.
(** [slm_rim_reclaim_cb] with the status of the request *)
Definition slm_rim_reclaim_cb (g : gc_send) (r rc : Z) : GC bool :=
  x ← getSi r;
  if negb (rc =? 0) then mret false
  else
    _ ← setSi r (si_with (gs_xid g + 1) (if gs_count g =? SLM_RECLAIM_BATCH_NENTS then si_batchno x + 1 else si_batchno x) (si_index x) (si_flags x));
    mret true.
Fixpoint reply_loop (g : gc_send) (l : list (Z * Z * list srt_reclaim_entry)) (st : Z → Z) (ndone : Z) : GC Z :=
  match l with
  | [] => mret ndone
  | (r, _, _) :: l => ok ← slm_rim_reclaim_cb g r (st r); reply_loop g l st (if ok : bool then ndone + 1 else ndone)
  end.
(** The rest of [mds_send_batch_reclaim]; [pbatchno] is the batch after the one
    that was sent.  The result has the next batch. *)
Definition reclaim_end (g : gc_send) (st : Z → Z) : GC (Z * Z) :=
  ndone ← reply_loop g (gs_sent g) st (gs_ndone g);
  _ ← whenM (negb (ndone =? gs_ndone g)) mds_record_reclaim_prog;
  _ ← whenM ((ndone =? gs_nios g) && (gs_count g =? SLM_RECLAIM_BATCH_NENTS) && (gs_batchno g >=? 1)) (_ ← mds_remove_logfile (gs_batchno g - 1); mret tt);
  mret (ndone, if negb (gs_next g =? UINT64_MAX) && negb (gs_next g =? gs_batchno g) then gs_next g else gs_batchno g + 1).

(** ** Start of the server: the part of [mds_journal_init] on the reclaim log *)

(** [slcfg_init_res] *)
Definition slcfg_init_si : rpmi_ios := {| si_xid := 0; si_batchno := 0; si_index := 0; si_flags := SIF_NEED_JRNL_INIT |}.
(** The progress file is read: records of systems that are gone are cleared, and
    the highest batch is found. *)
Fixpoint prog_scan (i : Z) (l : list reclaim_prog_entry) (ios : gmap Z rpmi_ios) (batchno : Z) : list reclaim_prog_entry * gmap Z rpmi_ios * Z :=
  match l with
  | [] => ([], ios, batchno)
  | p :: l =>
      if bool_decide (rpe_id p ∉ fs) then
        let '(l', ios', b') := prog_scan (i + 1) l ios batchno in ({| rpe_xid := 0; rpe_batchno := 0; rpe_id := rpe_id p |} :: l', ios', b')
      else
        let flags := from_option si_flags 0 (ios !! rpe_id p) in
        let '(l', ios', b') := prog_scan (i + 1) l (<[rpe_id p := si_with (rpe_xid p) (rpe_batchno p) i (clrf flags SIF_NEED_JRNL_INIT)]> ios)
                                 (if rpe_batchno p >? batchno then rpe_batchno p else batchno) in
        (p :: l', ios', b')
  end.
(** The first batch from [batchno] on that has no file *)
Fixpoint scan_logs (fuel : nat) (batchno : Z) : GC Z :=
  match fuel with
  | O => stuckM OutOfFuel
  | S fuel => rc ← open_logfile_ro batchno; if negb (rc =? 0) then mret batchno else scan_logs fuel (batchno + 1)
  end.
(** Systems that have no record get one, at the end. *)
Fixpoint init_new (l : list Z) (idx : Z) : GC unit :=
  match l with
  | [] => mret tt
  | r :: l =>
      s ← getM;
      x ← getSi r;
      let x := if (si_xid x =? 0) && (si_batchno x =? 0) then si_with (gc_cur_xid s) (gc_cur_batchno s) (si_index x) (si_flags x) else x in
      if negb (hasf (si_flags x) SIF_NEED_JRNL_INIT) then _ ← setSi r x; init_new l idx
      else
        _ ← setSi r (si_with (si_xid x) (si_batchno x) idx (setf (clrf (si_flags x) SIF_NEED_JRNL_INIT) SIF_NEW_PROG_ENTRY));
        init_new l (idx + 1)
  end.
Definition mds_journal_init (fuel : nat) : GC unit :=
  s ← getM;
  _ ← psc_assert (negb (bool_decide (fs = [])));
  _ ← psc_assert (Z.of_nat (length fs) <=? MAX_RECLAIM_PROG_ENTRY);
  let n := Z.to_nat MAX_RECLAIM_PROG_ENTRY in
  let '(entries, ios, lwm) := prog_scan 0 (take n (gc_prog s)) (list_to_map ((λ r, (r, slcfg_init_si)) <$> fs)) 0 in
  _ ← putM {| gc_logs := gc_logs s; gc_cur_batchno := 0; gc_cur_xid := 0; gc_sync_xid := 0; gc_handle := None; gc_offset := 0;
              gc_buf := entries ++ replicate (n - length entries) prog0; gc_prog := entries ++ drop n (gc_prog s); gc_ios := ios |};
  missing ← scan_logs fuel lwm;
  let batchno := if missing >? lwm then missing - 1 else missing in
  match gc_logs s !! batchno with
  | None => stuckM Assertion
  | Some f =>
      let size := lf_size f in
      _ ← whenM (negb (size =? 0)) (psc_assert (bool_decide (head (lf_ents f) = Some RECLAIM_MAGIC)));
      _ ← whenM (negb (size =? 0)) (psc_assert ((size - R_ENTSZ) mod R_ENTSZ =? 0));
      let total := (size - R_ENTSZ) / R_ENTSZ in
      let xid := if size =? 0 then 0 else from_option re_xid 0 (last (tail (lf_ents f))) in
      let cur := if negb (size =? 0) && (total >=? SLM_RECLAIM_BATCH_NENTS - 1) then batchno + 1 else batchno in
      _ ← modifyM (λ s, gc_with_cur s cur xid 0);
      init_new fs (Z.of_nat (length entries))
  end.
(** The files that [slnewfs_create] makes *)
Definition newfs : gcst :=
  {| gc_logs := {[0 := {| lf_ents := []; lf_extra := 0 |}]}; gc_cur_batchno := 0; gc_cur_xid := 0; gc_sync_xid := 0; gc_handle := None; gc_offset := 0; gc_buf := []; gc_prog := []; gc_ios := ∅ |}.
End mds.

(** ** The I/O server *)

(** The number of the last transaction and batch, the backing files, and those
    that are open. *)
Record iost := { ri_xid : Z; ri_batchno : Z; ri_files : gset fidgen; ri_open : gset fidgen }.
Class PflMtu := { LNET_MTU_GC : Z }.
Class PflMtuLaws `{PflMtu} := { mtu_batch : R_ENTSZ * SLM_RECLAIM_BATCH_NENTS ≤ LNET_MTU_GC }.
Section iod.
Context `{PflMtu}.
(** [unlink] says for each file whether it can be removed: 0 or an error. *)
Fixpoint reclaim_files (l : list srt_reclaim_entry) (unlink : fidgen → Z) (mprc : Z) : M iost Z :=
  match l with
  | [] => mret mprc
  | e :: l =>
      _ ← modifyM (λ s, {| ri_xid := ri_xid s; ri_batchno := ri_batchno s; ri_files := ri_files s; ri_open := ri_open s ∖ {[re_fg e]} |});
      s ← getM;
      if bool_decide (re_fg e ∉ ri_files s) then reclaim_files l unlink mprc
      else if negb (unlink (re_fg e) =? 0) then reclaim_files l unlink (- unlink (re_fg e))
      else
        _ ← modifyM (λ s, {| ri_xid := ri_xid s; ri_batchno := ri_batchno s; ri_files := ri_files s ∖ {[re_fg e]}; ri_open := ri_open s |});
        reclaim_files l unlink mprc
  end.
(** [sli_rim_handle_reclaim]: the result of the handler and of the reply. *)
Definition sli_rim_handle_reclaim (size count xid batchno bulk_rc : Z) (ents : list srt_reclaim_entry) (unlink : fidgen → Z) : M iost (Z * Z) :=
  if (size <? R_ENTSZ) || (size >? LNET_MTU_GC) then mret (- EINVAL, 0)
  else if negb (count =? size / R_ENTSZ) then mret (- EINVAL, 0)
  else
    _ ← modifyM (λ s, {| ri_xid := if xid >? ri_xid s then xid else ri_xid s; ri_batchno := if batchno >? ri_batchno s then batchno else ri_batchno s;
                         ri_files := ri_files s; ri_open := ri_open s |});
    if negb (bulk_rc =? 0) then mret (bulk_rc, 0)
    else
      mprc ← reclaim_files (take (Z.to_nat count) ents) unlink 0;
      mret (0, mprc).
End iod.

(** ** The metadata server and the I/O servers *)
Record gsys := { y_mds : gcst; y_iod : gmap Z iost }.
(** What happens to a request: it is lost, or its data is transferred with the
    given result and files are removed or not; the reply is lost or not. *)
Record gc_env := { ge_lost : bool; ge_bulk : Z; ge_unlink : fidgen → Z; ge_reply_lost : bool }.
Definition onMds {A} (m : M gcst A) : M gsys A := λ y, match m (y_mds y) with Done (a, s) => Done (a, {| y_mds := s; y_iod := y_iod y |}) | Stuck w => Stuck w end.

Section system.
Context `{PflMtu} (fs : list Z).
Definition reclaim_deliver (xid : Z) (r b : Z) (l : list srt_reclaim_entry) (bulk_rc : Z) (unlink : fidgen → Z) : M gsys (Z * Z) := λ y,
  match y_iod y !! r with
  | None => Stuck NullDeref
  | Some i =>
      match sli_rim_handle_reclaim (R_ENTSZ * Z.of_nat (length l)) (Z.of_nat (length l)) xid b bulk_rc l unlink i with
      | Done (x, i) => Done (x, {| y_mds := y_mds y; y_iod := <[r := i]> (y_iod y) |})
      | Stuck w => Stuck w
      end
  end.
(** [SL_GET_RQ_STATUS] of a reply: the status of the message, and the result in
    it; without a reply there is the error of the transport. *)
Definition rq_status (replied : bool) (r : Z * Z) : Z := if negb replied then - ETIMEDOUT else if negb (r.1 =? 0) then r.1 else r.2.
(** [pscrpc_set_wait]: the status of each request *)
Fixpoint set_wait (xid : Z) (l : list (Z * Z * list srt_reclaim_entry)) (env : Z → gc_env) : M gsys (Z → Z) :=
  match l with
  | [] => mret (λ _, 0)
  | (r, b, e) :: l =>
      rc ← (if ge_lost (env r) then mret (- ETIMEDOUT)
            else x ← reclaim_deliver xid r b e (ge_bulk (env r)) (ge_unlink (env r)); mret (rq_status (negb (ge_reply_lost (env r))) x));
      st ← set_wait xid l env;
      mret (λ c, if decide (c = r) then rc else st c)
  end.
Definition mds_send_batch_reclaim (batchno : Z) (net : Z → gc_net) (env : Z → gc_env) : M gsys (Z * Z) :=
  r ← onMds (reclaim_begin fs batchno net);
  match r with
  | inl didwork => mret (didwork, batchno + 1)
  | inr g => st ← set_wait (gs_xid g) (gs_sent g) env; onMds (reclaim_end fs g st)
  end.

(** A round of [slmjreclaimthr_main]: the batches are sent one after the other.
    The environment of the calls is given by their number. *)
Fixpoint reclaim_loop (fuel : nat) (batchno : Z) (env : nat → (Z → gc_net) * (Z → gc_env)) (k : nat) : M gsys unit :=
  match fuel with
  | O => stuckM OutOfFuel
  | S fuel =>
      y ← getM;
      lwm ← (if gc_cur_xid (y_mds y) =? 0 then mret 0 else onMds (mds_reclaim_lwm fs false));
      if (gc_cur_xid (y_mds y) =? 0) || (lwm >? gc_cur_xid (y_mds y)) then mret tt
      else
        r ← mds_send_batch_reclaim batchno (env k).1 (env k).2;
        hwm ← onMds (mds_reclaim_hwm fs true);
        if negb (r.1 =? 0) && (hwm >=? r.2) then reclaim_loop fuel r.2 env (S k) else mret tt
  end.
Definition slmjreclaimthr_round (fuel : nat) (cleanup : bool) (env : nat → (Z → gc_net) * (Z → gc_env)) : M gsys unit :=
  batchno ← onMds (mds_reclaim_lwm fs true);
  _ ← whenM cleanup (onMds (mds_remove_logfiles batchno));
  reclaim_loop fuel batchno env 0.
End system.
