(* ===== verification/ReclaimInv.v ===== *)
(** * The invariant of the reclaim log

    The log files hold what was logged, batch by batch; an I/O system that is
    past a record has no backing file for it; a log file is gone only when
    every system is past it. *)
From S2P Require Import Prelude Reclaim.

Abbreviation hist := (list (Z * srt_reclaim_entry)).
(** The records of a batch. *)
Definition ents_of (H : hist) (b : Z) : list srt_reclaim_entry := snd <$> filter (λ x, x.1 = b) H.
Definition later (x y : Z * srt_reclaim_entry) : Prop := x.1 ≤ y.1 ∧ re_xid x.2 < re_xid y.2.

Lemma ents_of_app H b x : ents_of (H ++ [x]) b = ents_of H b ++ (if decide (x.1 = b) then [x.2] else []).
Proof. unfold ents_of. rewrite filter_app, fmap_app. f_equal. rewrite filter_cons. case_decide; done. Qed.
Lemma ents_of_elem H b e : e ∈ ents_of H b ↔ (b, e) ∈ H.
Proof.
  unfold ents_of. split.
  - intros ([b' e'] & -> & [Hb Hin]%list_elem_of_filter)%list_elem_of_fmap_1. cbn in *. by subst.
  - intros Hin. apply (list_elem_of_fmap_2' snd _ (b, e)); [|done]. by apply list_elem_of_filter.
Qed.
Lemma sorted_snoc H x : StronglySorted later H → (∀ y, y ∈ H → later y x) → StronglySorted later (H ++ [x]).
Proof.
  intros Hs Hx. induction Hs as [|y l Hs IH Hy]; cbn; [repeat constructor|]. constructor.
  - apply IH. intros z Hz. apply Hx. by right.
  - apply Forall_app. split; [done|]. constructor; [|constructor]. apply Hx. by left.
Qed.
(** Records of a batch are in the order of their numbers. *)
Lemma ents_of_sorted H b : StronglySorted later H → StronglySorted (λ e f, re_xid e < re_xid f) (ents_of H b).
Proof.
  unfold ents_of. induction 1 as [|[b' e] l Hs IH Hall]; [constructor|]. rewrite filter_cons. case_decide; [|done]. csimpl. constructor; [done|].
  apply Forall_forall. intros f ([b2 e2] & -> & [_ Hin]%list_elem_of_filter)%list_elem_of_fmap_1. rewrite Forall_forall in Hall. apply (Hall _ Hin).
Qed.

(** The systems that a batch was sent to. *)
Abbreviation recv g := ((λ m : Z * Z * list srt_reclaim_entry, m.1.1) <$> gs_sent g).

Section inv.
Context (fs : list Z).
Implicit Types (s : gcst) (H : hist).

(** The progress buffer has a place of its own for each system. *)
Record prog_ok s : Prop := {
  po_index : ∀ r x, r ∈ fs → gc_ios s !! r = Some x → 0 ≤ si_index x ∧ ∃ p, gc_buf s !! Z.to_nat (si_index x) = Some p ∧ (hasf (si_flags x) SIF_NEW_PROG_ENTRY = true ∨ rpe_id p = r);
  po_inj : ∀ r r' x x', r ∈ fs → r' ∈ fs → gc_ios s !! r = Some x → gc_ios s !! r' = Some x' → si_index x = si_index x' → r = r';
  po_len : Z.of_nat (length (gc_buf s)) = MAX_RECLAIM_PROG_ENTRY;
  po_buf : ∀ i p, gc_buf s !! i = Some p → rpe_id p ∈ fs → ∃ x, gc_ios s !! rpe_id p = Some x ∧ Z.to_nat (si_index x) = i;
}.
Record gok s H : Prop := {
  go_cur : 0 ≤ gc_cur_batchno s ∧ 0 ≤ gc_cur_xid s;
  go_sorted : StronglySorted later H;
  go_hist : ∀ b e, (b, e) ∈ H → 0 ≤ b ≤ gc_cur_batchno s ∧ 0 < re_xid e ≤ gc_cur_xid s;
  go_last : gc_cur_xid s = from_option (λ x : Z * srt_reclaim_entry, re_xid x.2) 0 (last H);
  go_full : ∀ b, 0 ≤ b < gc_cur_batchno s → Z.of_nat (length (ents_of H b)) = SLM_RECLAIM_BATCH_NENTS - 1;
  go_open : Z.of_nat (length (ents_of H (gc_cur_batchno s))) < SLM_RECLAIM_BATCH_NENTS - 1;
  go_file : ∀ b f, gc_logs s !! b = Some f → 0 ≤ b ≤ gc_cur_batchno s ∧ lf_extra f = 0 ∧ (lf_ents f = RECLAIM_MAGIC :: ents_of H b ∨ lf_ents f = [] ∧ ents_of H b = []);
  go_handle : ∀ b, gc_handle s = Some b → b = gc_cur_batchno s ∧ ∃ f, gc_logs s !! b = Some f ∧ lf_ents f ≠ [] ∧ gc_offset s = lf_size f;
  go_kept : ∀ b, ents_of H b ≠ [] → is_Some (gc_logs s !! b) ∨ (b < gc_cur_batchno s ∧ ∀ r, r ∈ fs → ∃ x, gc_ios s !! r = Some x ∧ b < si_batchno x);
  go_ios : ∀ r, r ∈ fs → ∃ x, gc_ios s !! r = Some x ∧ 0 ≤ si_batchno x ≤ gc_cur_batchno s ∧ 0 ≤ si_xid x ≤ gc_cur_xid s + 1;
  go_prog : prog_ok s;
}.

(** The size of a log file. *)
Lemma go_count s H b : gok s H → Z.of_nat (length (ents_of H b)) ≤ SLM_RECLAIM_BATCH_NENTS - 1.
Proof.
  intros Hg. destruct (decide (ents_of H b = [])) as [->|Hne]; [done|].
  destruct (ents_of H b) as [|e l] eqn:He; [done|]. assert (Hin : (b, e) ∈ H) by (apply ents_of_elem; rewrite He; by left). rewrite <-He.
  destruct (go_hist _ _ Hg b e Hin) as [Hb _]. destruct (decide (b = gc_cur_batchno s)) as [->|]; [pose proof (go_open _ _ Hg); lia|]. rewrite (go_full _ _ Hg); lia.
Qed.

(** ** A record is logged *)
Definition framed s s' : Prop := gc_ios s' = gc_ios s ∧ gc_buf s' = gc_buf s ∧ gc_prog s' = gc_prog s.
Lemma prog_ok_framed s s' : framed s s' → prog_ok s → prog_ok s'.
Proof. intros (Hi & Hb & _) [? ? ? ?]. split; rewrite ?Hi, ?Hb; done. Qed.
(** The current log file has changed, the history has not. *)
Lemma gok_log s H f off : gok s H → lf_extra f = 0 → lf_ents f = RECLAIM_MAGIC :: ents_of H (gc_cur_batchno s) → off = lf_size f →
  gok (gc_with_log s (<[gc_cur_batchno s := f]> (gc_logs s)) (Some (gc_cur_batchno s)) off) H.
Proof.
  intros [? ? ? ? ? ? Hfile Hh Hk Hios Hp] He Hf Ho. split; cbn; try done.
  - intros b f'. destruct (decide (b = gc_cur_batchno s)) as [->|]; [rewrite lookup_insert_eq; intros [= <-]; split; [lia|by auto]|]. rewrite lookup_insert_ne by done. apply Hfile.
  - intros b [= <-]. split; [done|]. exists f. rewrite lookup_insert_eq, Hf. done.
  - intros b Hb. destruct (decide (b = gc_cur_batchno s)) as [->|]; [left; rewrite lookup_insert_eq; by eexists|]. rewrite lookup_insert_ne by done. by apply Hk.
  - by apply (prog_ok_framed s).
Qed.
Lemma gok_offset s H off f : gok s H → gc_logs s !! gc_cur_batchno s = Some f → lf_ents f ≠ [] → off = lf_size f →
  gok (gc_with_log s (gc_logs s) (Some (gc_cur_batchno s)) off) H.
Proof.
  intros Hg Hf Hne Ho. rewrite <-(insert_id (gc_logs s) (gc_cur_batchno s) f Hf). destruct (go_file _ _ Hg _ _ Hf) as (_ & He & [Hm|[? _]]); [|done]. by apply gok_log.
Qed.
Lemma wp_logentry_open s H (K : unit → gcst → Prop) :
  gok s H → (∀ s', gok s' H → gc_handle s' = Some (gc_cur_batchno s) → framed s s' → gc_cur_batchno s' = gc_cur_batchno s → gc_cur_xid s' = gc_cur_xid s → K tt s') →
  wp logentry_open K s.
Proof.
  intros Hg HK. set (b := gc_cur_batchno s). unfold logentry_open. wp_step. wp_step. wp_step. unfold open_logfile_rw. wp_step. fold b. wp_step.
  assert (Hnew : ∀ logs, logs = gc_logs s ∨ logs = <[b := {| lf_ents := []; lf_extra := 0 |}]> (gc_logs s) → ents_of H b = [] →
    K tt (gc_with_log (gc_with_log s logs (Some b) (gc_offset s)) (<[b := lf_write {| lf_ents := []; lf_extra := 0 |} 0 RECLAIM_MAGIC]> logs) (Some b) R_ENTSZ)).
  { intros logs Hlogs He. assert (<[b := lf_write {| lf_ents := []; lf_extra := 0 |} 0 RECLAIM_MAGIC]> logs = <[b := {| lf_ents := [RECLAIM_MAGIC]; lf_extra := 0 |}]> (gc_logs s)) as Heq
      by (destruct Hlogs as [-> | ->]; [done|by rewrite insert_insert_eq]).
    rewrite Heq. apply HK; [|done|done|done|done]. apply (gok_log s H {| lf_ents := [RECLAIM_MAGIC]; lf_extra := 0 |}); [done|done|unfold b in He; by rewrite He|done]. }
  destruct (gc_logs s !! b) as [f|] eqn:Hf; unfold wp at 1, getLog; cbn [gc_logs gc_with_log].
  - rewrite Hf. destruct (go_file _ _ Hg b f Hf) as (_ & Hx & [Hm|[Hm He]]).
    + pose proof (go_open _ _ Hg) as Ho. fold b in Ho. assert (Hsz : lf_size f = R_ENTSZ * (1 + Z.of_nat (length (ents_of H b)))) by (unfold lf_size; rewrite Hm, Hx; cbn [length]; lia).
      assert ((lf_size f =? 0) = false) as -> by (apply Z.eqb_neq; unfold R_ENTSZ in *; lia). cbn [negb]. wp_step. wp_step; [rewrite Hm; by apply bool_decide_eq_true_2|].
      assert (Hq : lf_size f - R_ENTSZ = Z.of_nat (length (ents_of H b)) * R_ENTSZ) by lia. rewrite Hq, Z.mod_mul, Z.eqb_refl by done. cbn [negb]. rewrite orb_false_r.
      destruct (Z.gtb_spec (Z.of_nat (length (ents_of H b)) * R_ENTSZ) (R_ENTSZ * SLM_RECLAIM_BATCH_NENTS)); [unfold R_ENTSZ, SLM_RECLAIM_BATCH_NENTS in *; lia|].
      rewrite Z.div_mul by done. wp_step. wp_step. wp_step; [apply Z.eqb_eq; lia|]. apply HK; [|done|done|done|done]. apply (gok_offset s H _ f); [done|done|by rewrite Hm|lia].
    + assert (f = {| lf_ents := []; lf_extra := 0 |}) as -> by (destruct f; cbn in *; by subst). change (lf_size _ =? 0) with true. cbn [negb]. wp_step. apply Hnew; [by left|done].
  - rewrite lookup_insert_eq. change (lf_size _ =? 0) with true. cbn [negb]. wp_step. apply Hnew; [by right|].
    destruct (ents_of H b) as [|e l] eqn:He; [done|]. destruct (go_kept _ _ Hg b) as [[? ?]|[? _]]; [by rewrite He|congruence|unfold b in *; lia].
Qed.

Lemma gok_append s H f e next : gok s H → gc_logs s !! gc_cur_batchno s = Some f → lf_extra f = 0 → lf_ents f = RECLAIM_MAGIC :: ents_of H (gc_cur_batchno s) → gc_cur_xid s < re_xid e →
  let b := gc_cur_batchno s in
  let f' := {| lf_ents := lf_ents f ++ [e]; lf_extra := 0 |} in
  let full := lf_size f' =? SLM_RECLAIM_BATCH_NENTS * R_ENTSZ in
  gok (gc_with_cur (gc_with_log s (<[b := f']> (gc_logs s)) (if full then None else Some b) (lf_size f')) (if full then b + 1 else b) (re_xid e) next) (H ++ [(b, e)]).
Proof.
  intros Hg Hf Hx Hm Hxid b f' full. pose proof Hg as [[Hb0 Hx0] Hsort Hhist _ Hfull Hopen Hfile Hh Hk Hios Hp].
  assert (Hbeq : gc_cur_batchno s = b) by done. clearbody b. rewrite Hbeq in *.
  assert (Hlen : lf_size f' = R_ENTSZ * (Z.of_nat (length (ents_of H b)) + 2)) by (unfold lf_size, f'; cbn; rewrite Hm, length_app; cbn [length]; lia).
  assert (Hfl : full = true ↔ Z.of_nat (length (ents_of H b)) + 1 = SLM_RECLAIM_BATCH_NENTS - 1).
  { unfold full. rewrite Z.eqb_eq, Hlen. unfold R_ENTSZ, SLM_RECLAIM_BATCH_NENTS. lia. }
  assert (Hof : ∀ c, ents_of (H ++ [(b, e)]) c = ents_of H c ++ (if decide (b = c) then [e] else [])) by (intros c; apply ents_of_app).
  assert (Hself : ents_of (H ++ [(b, e)]) b = ents_of H b ++ [e]) by (rewrite Hof, decide_True; done).
  assert (Hoth : ∀ c, c ≠ b → ents_of (H ++ [(b, e)]) c = ents_of H c) by (intros c Hc; rewrite Hof, decide_False by done; apply app_nil_r).
  assert (Hnext : ents_of H (b + 1) = []).
  { destruct (ents_of H (b + 1)) as [|e' l] eqn:He; [done|]. destruct (Hhist (b + 1) e') as [? _]; [apply ents_of_elem; rewrite He; by left|lia]. }
  set (s' := gc_with_cur _ _ _ _). assert (Hcur : gc_cur_batchno s' = if full then b + 1 else b) by done. assert (b ≤ gc_cur_batchno s' ≤ b + 1) by (rewrite Hcur; destruct full; lia).
  split; cbn [s' gc_with_cur gc_with_log gc_cur_batchno gc_cur_xid gc_logs gc_handle gc_offset gc_ios] in *.
  - lia.
  - apply sorted_snoc; [done|]. intros [b' e'] Hin. destruct (Hhist b' e' Hin). split; cbn; lia.
  - intros b' e' [Hin|[= -> ->]%list_elem_of_singleton]%elem_of_app; [destruct (Hhist b' e' Hin); lia|lia].
  - by rewrite last_snoc.
  - intros c Hc. destruct (decide (c = b)) as [->|Hne]; [|rewrite Hoth by done; apply Hfull; destruct full; lia]. destruct full; [|lia]. rewrite Hself, length_app. cbn [length]. pose proof (proj1 Hfl eq_refl). lia.
  - destruct full eqn:Hfe; [rewrite Hoth, Hnext by lia; done|]. rewrite Hself, length_app. cbn [length].
    assert (Z.of_nat (length (ents_of H b)) + 1 ≠ SLM_RECLAIM_BATCH_NENTS - 1) by (intros ?%Hfl; done). lia.
  - intros c f0. destruct (decide (c = b)) as [->|Hne]; [|rewrite lookup_insert_ne, Hoth by done; intros Hc; destruct (Hfile c f0 Hc) as (? & ? & ?); split; [lia|done]].
    rewrite lookup_insert_eq. intros [= <-]. split; [lia|]. split; [done|]. left. cbn. by rewrite Hm, Hself.
  - intros c Hc. destruct full; [done|]. injection Hc as <-. split; [done|]. exists f'. rewrite lookup_insert_eq. split; [done|]. split; [|done]. cbn. rewrite Hm. done.
  - intros c Hc. destruct (decide (c = b)) as [->|Hne]; [left; rewrite lookup_insert_eq; by eexists|]. rewrite lookup_insert_ne by done. rewrite Hoth in Hc by done.
    destruct (Hk c Hc) as [?|[? ?]]; [by left|right]. split; [lia|done].
  - intros r Hr. destruct (Hios r Hr) as (x & Hxr & ? & ?). exists x. split; [done|]. lia.
  - by apply (prog_ok_framed s).
Qed.
Lemma wp_logentry s H xid fg next (K : unit → gcst → Prop) :
  gok s H → gc_cur_xid s < xid →
  (∀ s', gok s' (H ++ [(gc_cur_batchno s, {| re_xid := xid; re_fg := fg |})]) → framed s s' → gc_cur_xid s' = xid → gc_cur_batchno s ≤ gc_cur_batchno s' →
     (is_Some (gc_logs s' !! gc_cur_batchno s') → gc_cur_batchno s' = gc_cur_batchno s) → K tt s') →
  wp (mds_write_logentry xid fg next) K s.
Proof.
  intros Hg Hxid HK. unfold mds_write_logentry. cbv zeta. destruct (go_cur _ _ Hg) as [? ?]. assert ((xid =? 0) = false) as -> by (apply Z.eqb_neq; lia). wp_step. wp_step. wp_step.
  assert (Hrest : ∀ s1, gok s1 H → gc_handle s1 = Some (gc_cur_batchno s) → framed s s1 → gc_cur_batchno s1 = gc_cur_batchno s → gc_cur_xid s1 = gc_cur_xid s →
    wp (s ← getM; match gc_handle s with None => stuckM NullDeref | Some b =>
      f ← getLog b;
      let off := gc_offset s + R_ENTSZ in
      _ ← modifyM (λ s, gc_with_cur (gc_with_log s (<[b := lf_write f (gc_offset s) {| re_xid := xid; re_fg := fg |}]> (gc_logs s)) (Some b) off) (gc_cur_batchno s) xid (gc_sync_xid s));
      _ ← whenM (off =? SLM_RECLAIM_BATCH_NENTS * R_ENTSZ) (modifyM (λ s, gc_with_cur (gc_with_log s (gc_logs s) None off) (gc_cur_batchno s + 1) (gc_cur_xid s) xid));
      psc_assert (off <=? SLM_RECLAIM_BATCH_NENTS * R_ENTSZ) end) K s1).
  { intros s1 Hg1 Hh Hfr Hcb Hcx. wp_step. wp_step. rewrite Hh. destruct (go_handle _ _ Hg1 _ Hh) as (_ & f & Hf & Hne & Hoff). wp_step. unfold wp at 1, getLog. rewrite Hf. cbv zeta.
    destruct (go_file _ _ Hg1 _ _ Hf) as (_ & Hx & [Hm|[? _]]); [|done]. set (e := {| re_xid := xid; re_fg := fg |}).
    assert (Hw : lf_write f (gc_offset s1) e = {| lf_ents := lf_ents f ++ [e]; lf_extra := 0 |}).
    { unfold lf_write. rewrite Hoff. unfold lf_size. rewrite Hx, Z.add_0_r, Z.mul_comm, Z.div_mul, Nat2Z.id by done. by rewrite Nat.ltb_irrefl. }
    assert (Hsz : gc_offset s1 + R_ENTSZ = lf_size {| lf_ents := lf_ents f ++ [e]; lf_extra := 0 |}) by (rewrite Hoff; unfold lf_size; cbn; rewrite length_app; cbn [length]; lia).
    wp_step. wp_step. fold e. rewrite Hw, Hsz. rewrite <-Hcb in *. rewrite <-Hcx in Hxid.
    assert (Hbound : lf_size {| lf_ents := lf_ents f ++ [e]; lf_extra := 0 |} ≤ SLM_RECLAIM_BATCH_NENTS * R_ENTSZ).
    { unfold lf_size. cbn. rewrite Hm, length_app. cbn [length]. pose proof (go_open _ _ Hg1). unfold R_ENTSZ. lia. }
    pose proof (λ next, gok_append s1 H f e next Hg1 Hf Hx Hm Hxid) as Happ. cbv zeta in Happ. wp_step. apply wp_when; intros Hfe; rewrite Hfe in Happ.
    + wp_step. wp_step; [by apply Z.leb_le|]. apply HK; [apply Happ|done|done|cbn; lia|]. cbn. intros [f0 Hf0]. rewrite lookup_insert_ne in Hf0 by lia. destruct (go_file _ _ Hg1 _ _ Hf0). lia.
    + wp_step; [by apply Z.leb_le|]. apply HK; [apply Happ|done|done|cbn; lia|done]. }
  destruct (gc_handle s) as [b|] eqn:Hh.
  - wp_step. apply Hrest; try done. rewrite Hh. f_equal. by apply (go_handle _ _ Hg).
  - by apply (wp_logentry_open s H).
Qed.

(** ** A batch is sent *)
Lemma unsent_sub l xid : unsent l xid `suffix_of` l.
Proof. induction l as [|r l IH]; [done|]. cbn. destruct (_ >=? _); [done|]. by apply suffix_cons_r. Qed.
Lemma unsent_rest l xid e : e ∈ l → e ∈ unsent l xid ∨ re_xid e < xid.
Proof.
  induction l as [|r l IH]; [by intros ?%elem_of_nil|]. cbn. rewrite Z.geb_leb. destruct (Z.leb_spec xid (re_xid r)); [by left|]. intros [->|Hin]%elem_of_cons; [by right|by apply IH].
Qed.
(** A system that can be reached and takes part. *)
Definition up (net : Z → gc_net) (r : Z) (x : rpmi_ios) : Prop :=
  hasf (si_flags x) SIF_DISABLE_GC = false ∧ gn_csvc1 (net r) = true ∧ gn_csvc2 (net r) = true ∧ gn_newreq (net r) = 0 ∧ gn_add (net r) = 0.
Record sinv s (net : Z → gc_net) (E : list srt_reclaim_entry) (p : list Z) g (D : list Z) : Prop := {
  sv_nios : gs_nios g = Z.of_nat (length p);
  sv_done : gs_ndone g = Z.of_nat (length D);
  sv_nodup : NoDup (D ++ recv g);
  sv_D : ∀ r, r ∈ D → r ∈ p ∧ ∃ x, gc_ios s !! r = Some x ∧ (gs_batchno g < si_batchno x ∨ gs_count g < SLM_RECLAIM_BATCH_NENTS ∧ gs_xid g < si_xid x ∧ si_batchno x = gs_batchno g);
  sv_sent : ∀ r b l, (r, b, l) ∈ gs_sent g → r ∈ p ∧ l ≠ [] ∧ b = gs_batchno g ∧ l `suffix_of` E ∧
    ∃ x, gc_ios s !! r = Some x ∧ si_batchno x = gs_batchno g ∧ ∀ e, e ∈ E → e ∈ l ∨ re_xid e < si_xid x;
  sv_cover : ∀ r x, r ∈ p → gc_ios s !! r = Some x → up net r x → si_batchno x < gs_batchno g ∨ r ∈ D ∨ r ∈ recv g;
  sv_next_le : ∀ r x, r ∈ p → gc_ios s !! r = Some x → up net r x → gs_next g ≤ si_batchno x;
  sv_next : gs_next g = UINT64_MAX ∨ ∃ r x, r ∈ p ∧ gc_ios s !! r = Some x ∧ gs_next g = si_batchno x;
}.
Definition g_with (g : gc_send) (ndone nios next : Z) (sent : list (Z * Z * list srt_reclaim_entry)) : gc_send :=
  {| gs_batchno := gs_batchno g; gs_count := gs_count g; gs_xid := gs_xid g; gs_ndone := ndone; gs_nios := nios; gs_next := next; gs_sent := sent |}.
(** A system is passed over. *)
Lemma sinv_skip s net E p g D r x next : sinv s net E p g D → gc_ios s !! r = Some x → r ∉ p →
  (up net r x → si_batchno x < gs_batchno g) → next = gs_next g ∧ ¬ up net r x ∨ next = Z.min (gs_next g) (si_batchno x) →
  sinv s net E (p ++ [r]) (g_with g (gs_ndone g) (gs_nios g + 1) next (gs_sent g)) D.
Proof.
  intros [Hn Hd Hnd HD Hs Hc Hle Hnx] Hx Hr Hup Hnext. split; cbn [g_with gs_batchno gs_count gs_xid gs_ndone gs_nios gs_next gs_sent]; try done.
  - rewrite length_app. cbn. lia.
  - intros c Hc'. destruct (HD c Hc') as [? ?]. split; [|done]. apply elem_of_app. by left.
  - intros c b l Hin. destruct (Hs c b l Hin) as (? & Hrest). split; [apply elem_of_app; by left|done].
  - intros c y [Hin| ->%list_elem_of_singleton]%elem_of_app Hy Hu; [by apply (Hc c y)|]. rewrite Hx in Hy. injection Hy as <-. left. by apply Hup.
  - intros c y [Hin| ->%list_elem_of_singleton]%elem_of_app Hy Hu.
    + pose proof (Hle c y Hin Hy Hu). destruct Hnext as [[-> _]| ->]; lia.
    + rewrite Hx in Hy. injection Hy as <-. destruct Hnext as [[_ ?]| ->]; [done|lia].
  - assert (Hold : gs_next g = UINT64_MAX ∨ ∃ c y, c ∈ p ++ [r] ∧ gc_ios s !! c = Some y ∧ gs_next g = si_batchno y).
    { destruct Hnx as [?|(c & y & ? & ?)]; [by left|]. right. exists c, y. split; [apply elem_of_app; by left|done]. }
    destruct Hnext as [[-> _]| ->]; [done|]. destruct (Z.min_spec (gs_next g) (si_batchno x)) as [[_ ->]|[_ ->]]; [done|]. right. exists r, x. split; [apply elem_of_app; right; by left|done].
Qed.
(** A system has the batch already, or gets it. *)
Lemma sinv_take s net E p g D r x k part :
  sinv s net E p g D → gc_ios s !! r = Some x → r ∉ p → gs_batchno g ≤ si_batchno x →
  (if k : bool then gs_batchno g < si_batchno x ∨ gs_count g < SLM_RECLAIM_BATCH_NENTS ∧ gs_xid g < si_xid x ∧ si_batchno x = gs_batchno g
   else part ≠ [] ∧ si_batchno x = gs_batchno g ∧ part `suffix_of` E ∧ ∀ e, e ∈ E → e ∈ part ∨ re_xid e < si_xid x) →
  sinv s net E (p ++ [r])
    (g_with g (if k then gs_ndone g + 1 else gs_ndone g) (gs_nios g + 1) (Z.min (gs_next g) (si_batchno x)) (if k then gs_sent g else gs_sent g ++ [(r, si_batchno x, part)]))
    (if k then D ++ [r] else D).
Proof.
  intros Hi Hx Hr Hb Hk. pose proof Hi as [Hn Hd Hnd HD Hs Hc Hle Hnx].
  assert (Hnr : r ∉ D ++ recv g).
  { intros [Hin|Hin]%elem_of_app; [by destruct (HD r Hin)|]. apply list_elem_of_fmap_1 in Hin as ([[c b] l] & -> & Hin). by destruct (Hs c b l Hin) as [? _]. }
  assert (Hnx2 : Z.min (gs_next g) (si_batchno x) = UINT64_MAX ∨ ∃ c y, c ∈ p ++ [r] ∧ gc_ios s !! c = Some y ∧ Z.min (gs_next g) (si_batchno x) = si_batchno y).
  { destruct (Z.min_spec (gs_next g) (si_batchno x)) as [[_ ->]|[_ ->]]; [|right; exists r, x; split; [apply elem_of_app; right; by left|done]].
    destruct Hnx as [?|(c & y & ? & ?)]; [by left|right]. exists c, y. split; [apply elem_of_app; by left|done]. }
  split; cbn [g_with gs_batchno gs_count gs_xid gs_ndone gs_nios gs_next gs_sent]; [rewrite length_app; cbn; lia|..|done].
  - destruct k; rewrite ?length_app; cbn; lia.
  - destruct k; [rewrite <-app_assoc; cbn; apply NoDup_app in Hnd as (? & Hdis & ?); apply NoDup_app|].
    + split; [done|]. split; [|apply NoDup_cons; split; [intros ?; apply Hnr, elem_of_app; by right|done]]. intros c Hc'. rewrite elem_of_cons. intros [->|?]; [apply Hnr, elem_of_app; by left|by apply (Hdis c)].
    + rewrite fmap_app, app_assoc. apply NoDup_app. split; [done|]. split; [|by apply NoDup_singleton]. by intros c Hc' ->%list_elem_of_singleton.
  - intros c Hc'. assert (Hold : ∀ c, c ∈ D → c ∈ p ++ [r] ∧ ∃ x, gc_ios s !! c = Some x ∧ (gs_batchno g < si_batchno x ∨ gs_count g < SLM_RECLAIM_BATCH_NENTS ∧ gs_xid g < si_xid x ∧ si_batchno x = gs_batchno g))
      by (intros d Hd'; destruct (HD d Hd') as [? ?]; split; [apply elem_of_app; by left|done]).
    destruct k; [|by apply Hold]. apply elem_of_app in Hc' as [?| ->%list_elem_of_singleton]; [by apply Hold|]. split; [apply elem_of_app; right; by left|]. by exists x.
  - intros c b l Hin. assert (Hold : (c, b, l) ∈ gs_sent g → c ∈ p ++ [r] ∧ l ≠ [] ∧ b = gs_batchno g ∧ l `suffix_of` E ∧ ∃ x, gc_ios s !! c = Some x ∧ si_batchno x = gs_batchno g ∧ ∀ e, e ∈ E → e ∈ l ∨ re_xid e < si_xid x)
      by (intros Hin'; destruct (Hs c b l Hin') as (? & Hrest); split; [apply elem_of_app; by left|done]).
    destruct k; [by apply Hold|]. apply elem_of_app in Hin as [?|[= -> -> ->]%list_elem_of_singleton]; [by apply Hold|]. destruct Hk as (? & ? & ? & ?).
    split; [apply elem_of_app; right; by left|]. do 3 (split; [done|]). by exists x.
  - intros c y [Hin| ->%list_elem_of_singleton]%elem_of_app Hy Hu.
    + destruct (Hc c y Hin Hy Hu) as [?|[?|?]]; [by left|right; left|right; right]; destruct k; rewrite ?fmap_app, ?elem_of_app; auto.
    + right. destruct k; [left; apply elem_of_app; right; by left|right]. rewrite fmap_app, elem_of_app. right. by left.
  - intros c y [Hin| ->%list_elem_of_singleton]%elem_of_app Hy Hu; [pose proof (Hle c y Hin Hy Hu); lia|]. rewrite Hx in Hy. injection Hy as <-. lia.
Qed.

Lemma wp_getSi r x s (K : rpmi_ios → gcst → Prop) : gc_ios s !! r = Some x → K x s → wp (getSi r) K s.
Proof. intros Hx HK. unfold wp, getSi. by rewrite Hx. Qed.
Lemma wp_send_loop s net E xid count b (K : gc_send → gcst → Prop) l : ∀ p g D,
  (∀ r, r ∈ l → is_Some (gc_ios s !! r)) → NoDup (p ++ l) → E ≠ [] → (∃ e, e ∈ E ∧ re_xid e = xid) →
  gs_batchno g = b → gs_count g = count → gs_xid g = xid → sinv s net E p g D →
  (∀ g D, gs_batchno g = b → gs_count g = count → gs_xid g = xid → sinv s net E (p ++ l) g D → K g s) →
  wp (reclaim_send_loop b count xid E net l g) K s.
Proof.
  induction l as [|r l IH]; intros p g D Hios Hnd HE Hlast Hb Hc Hx Hi HK; cbn [reclaim_send_loop].
  { wp_step. rewrite app_nil_r in HK. by apply (HK g D). }
  destruct (Hios r) as [x Hr]; [by left|]. wp_step. apply (wp_getSi r x); [done|]. cbv zeta.
  assert (Hrp : r ∉ p) by (apply NoDup_app in Hnd as (_ & Hd & _); intros Hin; apply (Hd r Hin); by left).
  assert (Hnext : ∀ g D, gs_batchno g = b → gs_count g = count → gs_xid g = xid → sinv s net E (p ++ [r]) g D → wp (reclaim_send_loop b count xid E net l g) K s).
  { intros g' D' Hb' Hc' Hx' Hi'. apply (IH (p ++ [r]) g' D'); try done; [intros c Hc2; apply Hios; by right|by rewrite <-app_assoc|]. intros g2 D2. rewrite <-app_assoc. apply HK. }
  destruct (hasf (si_flags x) SIF_DISABLE_GC) eqn:Hdis.
  { eapply Hnext; [..|apply (sinv_skip s net E p g D r x (gs_next g)); try done]; try done; [by intros [? _]; congruence|]. left. split; [done|]. intros [? _]. congruence. }
  destruct (gn_csvc1 (net r)) eqn:Hc1; cbn [negb].
  2: { eapply Hnext; [..|apply (sinv_skip s net E p g D r x (gs_next g)); try done]; try done; [by intros (_ & ? & _); congruence|]. left. split; [done|]. intros (_ & ? & _). congruence. }
  destruct (Z.ltb_spec (si_batchno x) b) as [Hlt|Hge].
  { eapply Hnext; [..|apply (sinv_skip s net E p g D r x (Z.min (gs_next g) (si_batchno x))); try done]; try done; [by intros _; lia|by right]. }
  rewrite !Z.gtb_ltb. destruct ((b <? si_batchno x) || (count <? SLM_RECLAIM_BATCH_NENTS) && (xid <? si_xid x)) eqn:Hdone.
  { eapply Hnext; [..|apply (sinv_take s net E p g D r x true []); try done]; try done; [lia|]. subst. apply orb_true_iff in Hdone as [?%Z.ltb_lt|[?%Z.ltb_lt ?%Z.ltb_lt]%andb_true_iff]; [by left|].
    destruct (decide (si_batchno x = gs_batchno g)); [by right|left; lia]. }
  apply orb_false_iff in Hdone as [Hle%Z.ltb_ge Hxle]. assert (Heq : si_batchno x = b) by lia.
  set (part := if si_xid x <=? xid then unsent E (si_xid x) else E).
  assert (Hpart : part ≠ [] ∧ part `suffix_of` E ∧ ∀ e, e ∈ E → e ∈ part ∨ re_xid e < si_xid x).
  { unfold part. destruct (Z.leb_spec (si_xid x) xid) as [Hxx|Hxx]; [|by auto]. split; [|split; [apply unsent_sub|apply unsent_rest]]. destruct Hlast as (e & He & Hex).
    destruct (unsent_rest E (si_xid x) e He) as [Hin|?]; [|lia]. intros Hn. rewrite Hn in Hin. by apply elem_of_nil in Hin. }
  destruct Hpart as (Hne & Hsub & Hrest). wp_step. wp_step; [by rewrite bool_decide_eq_false_2|].
  destruct (negb (gn_csvc2 (net r)) || negb (gn_newreq (net r) =? 0) || negb (gn_add (net r) =? 0)) eqn:Hfail.
  - assert (Hnu : ¬ up net r x). { intros (_ & _ & H2 & H3 & H4). rewrite H2, H3, H4 in Hfail. done. }
    eapply Hnext; [..|apply (sinv_skip s net E p g D r x (Z.min (gs_next g) (si_batchno x))); try done]; try done. by right.
  - eapply Hnext; [..|apply (sinv_take s net E p g D r x false part); try done]; try done; [lia|]. by subst.
Qed.

(** ** Progress is recorded *)

(** What of a system does not change when its progress is recorded. *)
Definition core (x : rpmi_ios) : Z * Z * Z * Z := (si_xid x, si_batchno x, si_index x, clrf (si_flags x) SIF_NEW_PROG_ENTRY).
Definition logs_of s := (gc_logs s, gc_cur_batchno s, gc_cur_xid s, gc_handle s, gc_offset s).
Definition placed s r x : Prop := gc_buf s !! Z.to_nat (si_index x) = Some {| rpe_xid := si_xid x; rpe_batchno := si_batchno x; rpe_id := r |}.
Record recorded s s' (l : list Z) : Prop := {
  rc_logs : logs_of s' = logs_of s;
  rc_core : ∀ r, core <$> gc_ios s' !! r = core <$> gc_ios s !! r;
  rc_prog : prog_ok s → prog_ok s';
  rc_placed : ∀ r x, r ∈ l → gc_ios s' !! r = Some x → placed s' r x;
  rc_other : ∀ r x, r ∈ fs → r ∉ l → gc_ios s !! r = Some x → gc_buf s' !! Z.to_nat (si_index x) = gc_buf s !! Z.to_nat (si_index x);
}.
Lemma core_eq x y : core x = core y → si_xid x = si_xid y ∧ si_batchno x = si_batchno y ∧ si_index x = si_index y ∧ ∀ f, Z.ldiff f SIF_NEW_PROG_ENTRY = f → hasf (si_flags x) f = hasf (si_flags y) f.
Proof. unfold core. intros [= -> -> -> Hf]. do 3 (split; [done|]). intros f Hd. rewrite <-Hd, <-!hasf_clrf. by rewrite Hf. Qed.
(** One system is recorded. *)
Lemma prog_one s r x p : prog_ok s → r ∈ fs → gc_ios s !! r = Some x → gc_buf s !! Z.to_nat (si_index x) = Some p →
  recorded s (gc_with_prog (gc_with_ios s (<[r := si_with (si_xid x) (si_batchno x) (si_index x) (clrf (si_flags x) SIF_NEW_PROG_ENTRY)]> (gc_ios s)))
                (<[Z.to_nat (si_index x) := {| rpe_xid := si_xid x; rpe_batchno := si_batchno x; rpe_id := r |}]> (gc_buf s)) (gc_prog s)) [r].
Proof.
  intros Hp Hr Hx Hpx. set (x' := si_with _ _ _ _). set (n := Z.to_nat (si_index x)). pose proof (lookup_lt_Some _ _ _ Hpx) as Hlt. fold n in Hpx, Hlt.
  assert (Hcore : core x' = core x) by (unfold core, x'; cbn; by rewrite clrf_clrf).
  assert (Hc : ∀ c, core <$> (<[r := x']> (gc_ios s) !! c) = core <$> gc_ios s !! c).
  { intros c. destruct (decide (c = r)) as [->|]; [by rewrite lookup_insert_eq, Hx; cbn; rewrite Hcore|by rewrite lookup_insert_ne]. }
  assert (Hdiff : ∀ c y, c ∈ fs → c ≠ r → gc_ios s !! c = Some y → Z.to_nat (si_index y) ≠ n).
  { intros c y Hcf Hne Hy Heq. destruct (po_index _ Hp c y Hcf Hy) as [? _]. destruct (po_index _ Hp r x Hr Hx) as [? _]. apply Hne. apply (po_inj _ Hp c r y x Hcf Hr Hy Hx). unfold n in Heq. lia. }
  split; [done|done|..].
  - intros _. split; cbn.
    + intros c y Hcf. destruct (decide (c = r)) as [->|Hne].
      * rewrite lookup_insert_eq. intros [= <-]. destruct (po_index _ Hp r x Hr Hx) as [? _]. split; [done|]. eexists. rewrite list_lookup_insert_eq by done. split; [done|by right].
      * rewrite lookup_insert_ne by done. intros Hy. destruct (po_index _ Hp c y Hcf Hy) as (? & q & Hq & ?). split; [done|]. exists q. rewrite list_lookup_insert_ne; [done|]. by apply not_eq_sym, Hdiff with c.
    + intros c c' y y' Hcf Hcf' Hy Hy' Hi. pose proof (Hc c) as Ec. pose proof (Hc c') as Ec'. rewrite Hy in Ec. rewrite Hy' in Ec'. cbn in Ec, Ec'.
      destruct (gc_ios s !! c) as [z|] eqn:Hz; [|done]. destruct (gc_ios s !! c') as [z'|] eqn:Hz'; [|done]. injection Ec as _ _ E1 _. injection Ec' as _ _ E2 _.
      apply (po_inj _ Hp c c' z z'); try done. congruence.
    + rewrite length_insert. apply (po_len _ Hp).
    + intros i q Hq Hqf. destruct (decide (i = n)) as [->|Hne].
      * rewrite list_lookup_insert_eq in Hq by done. injection Hq as <-. cbn. exists x'. by rewrite lookup_insert_eq.
      * rewrite list_lookup_insert_ne in Hq by done. destruct (po_buf _ Hp i q Hq Hqf) as (y & Hy & Hi). destruct (decide (rpe_id q = r)) as [Hqr|Hqr].
        -- rewrite Hqr, Hx in Hy. injection Hy as <-. done.
        -- exists y. by rewrite lookup_insert_ne.
  - intros c y ->%list_elem_of_singleton. cbn. rewrite lookup_insert_eq. intros [= <-]. unfold placed. cbn. by apply list_lookup_insert_eq.
  - intros c y Hcf Hne Hy. cbn. apply list_lookup_insert_ne. apply not_eq_sym. apply (Hdiff c y Hcf); [|done]. intros ->. apply Hne. by left.
Qed.
Lemma recorded_trans s s1 s2 l l' : (∀ r, r ∈ l → (r ∉ l') ∧ r ∈ fs) → recorded s s1 l → recorded s1 s2 l' → recorded s s2 (l ++ l').
Proof.
  intros Hdis [L1 C1 P1 Q1 O1] [L2 C2 P2 Q2 O2]. split; [congruence|intros r; by rewrite C2|auto|..].
  - intros r x [Hr|Hr]%elem_of_app Hx; [|by apply Q2]. destruct (Hdis r Hr) as [Hn Hf]. pose proof (C2 r) as Ec. rewrite Hx in Ec. cbn in Ec.
    destruct (gc_ios s1 !! r) as [y|] eqn:Hy; [|done]. injection Ec as E1 E2 E3 _. pose proof (Q1 r y Hr Hy) as Hpl. unfold placed in *. by rewrite E1, E2, E3, (O2 r y Hf Hn Hy).
  - intros r x Hf Hn Hx. apply not_elem_of_app in Hn as [Hn1 Hn2]. pose proof (C1 r) as Ec. rewrite Hx in Ec. cbn in Ec. destruct (gc_ios s1 !! r) as [y|] eqn:Hy; [|done].
    injection Ec as _ _ E3 _. rewrite <-(O1 r x Hf Hn1 Hx), <-E3. by apply (O2 r y).
Qed.
End inv.
