(* ===== verification/ReclaimStep.v ===== *)
(** * The steps of reclamation keep the invariant

    Progress is recorded, a missing batch is skipped, a batch is sent and the
    replies are taken, and old log files are removed. *)
From S2P Require Import Prelude Reclaim ReclaimInv.

(** A reply without an error is taken. *)
Definition ack (g : gc_send) (x : rpmi_ios) : rpmi_ios :=
  si_with (gs_xid g + 1) (if gs_count g =? SLM_RECLAIM_BATCH_NENTS then si_batchno x + 1 else si_batchno x) (si_index x) (si_flags x).
Abbreviation acks g ios l := (foldl (λ m r, alter (ack g) r m) ios l).
Abbreviation acked g st := (filter (λ r, st r = 0) (recv g)).

Section step.
Context (fs : list Z).
Implicit Types (s : gcst) (H : hist).

(** ** Progress is recorded *)

(** What the progress file has of a system. *)
Definition saved s r x : Prop := gc_prog s !! Z.to_nat (si_index x) = Some {| rpe_xid := si_xid x; rpe_batchno := si_batchno x; rpe_id := r |}.
(** The records of the progress file are those of the systems they name. *)
Definition prog_ids s : Prop := ∀ i p, gc_prog s !! i = Some p → rpe_id p ∈ fs → ∃ x, gc_ios s !! rpe_id p = Some x ∧ Z.to_nat (si_index x) = i.
Lemma recorded_refl s : recorded fs s s [].
Proof. split; try done. by intros r x ?%elem_of_nil. Qed.
Lemma wp_record_loop s0 (K : Z → gcst → Prop) l : ∀ p s last,
  prog_ok fs s → recorded fs s0 s p → gc_prog s = gc_prog s0 → NoDup (p ++ l) → (∀ r, r ∈ p ++ l → r ∈ fs ∧ is_Some (gc_ios s !! r)) →
  0 ≤ last < MAX_RECLAIM_PROG_ENTRY → (∀ r x, r ∈ p → gc_ios s !! r = Some x → si_index x ≤ last) →
  (∀ last s', prog_ok fs s' → recorded fs s0 s' (p ++ l) → gc_prog s' = gc_prog s0 → 0 ≤ last < MAX_RECLAIM_PROG_ENTRY → (∀ r x, r ∈ p ++ l → gc_ios s' !! r = Some x → si_index x ≤ last) → K last s') →
  wp (record_loop l last) K s.
Proof.
  induction l as [|r l IH]; intros p s last Hp Hrec Hprog Hnd Hin H0 Hmax HK; cbn [record_loop].
  { wp_step. rewrite app_nil_r in HK. by apply HK. }
  destruct (Hin r) as [Hr [x Hx]]; [apply elem_of_app; right; by left|]. wp_step. apply (wp_getSi r x); [done|]. wp_step. wp_step.
  destruct (po_index _ _ Hp r x Hr Hx) as (Hi & q & Hq & Hnew). rewrite Hq. cbv zeta. pose proof (lookup_lt_Some _ _ _ Hq) as Hlt. pose proof (po_len _ _ Hp) as Hpl. pose proof (prog_one fs s r x q Hp Hr Hx Hq) as Hone.
  match type of Hone with recorded _ _ ?s2 _ => set (s1 := s2) in * end.
  assert (Hnext : ∀ s', s' = s1 → wp (record_loop l (if last <? si_index x then si_index x else last)) K s').
  { intros s' ->. assert (Hps : prog_ok fs s1) by by apply (rc_prog _ _ _ _ Hone).
    assert (Hix : ∀ c, c ∈ p ++ [r] → ∀ y, gc_ios s1 !! c = Some y → si_index y ≤ (if last <? si_index x then si_index x else last)).
    { intros c Hc y Hy. unfold s1 in Hy. cbn in Hy. destruct (decide (c = r)) as [->|Hne].
      - rewrite lookup_insert_eq in Hy. injection Hy as <-. cbn. destruct (Z.ltb_spec last (si_index x)); lia.
      - rewrite lookup_insert_ne in Hy by done. apply elem_of_app in Hc as [Hc|?%list_elem_of_singleton]; [|done]. pose proof (Hmax c y Hc Hy). destruct (Z.ltb_spec last (si_index x)); lia. }
    apply (IH (p ++ [r])); try done.
    - apply (recorded_trans fs s0 s); [|done|done]. intros c Hc. split; [|apply Hin; apply elem_of_app; by left]. intros ->%list_elem_of_singleton. apply NoDup_app in Hnd as (_ & Hd & _). apply (Hd r Hc). by left.
    - by rewrite <-app_assoc.
    - intros c Hc. rewrite <-app_assoc in Hc. destruct (Hin c Hc) as [? Hs]. split; [done|]. unfold s1. cbn. rewrite lookup_insert_is_Some. by destruct (decide (r = c)); auto.
    - destruct (Z.ltb_spec last (si_index x)); lia.
    - intros c y Hc Hy. by apply (Hix c).
    - intros last' s'. rewrite <-app_assoc. apply HK. }
  destruct (hasf (si_flags x) SIF_NEW_PROG_ENTRY) eqn:Hfl; cbn [whenM].
  - wp_step. unfold setSi. wp_step. wp_step. wp_step; [by apply Z.eqb_eq|]. wp_step. wp_step. by apply Hnext.
  - destruct Hnew as [?|Hid]; [done|]. wp_step. wp_step. wp_step. wp_step; [by apply Z.eqb_eq|]. wp_step. wp_step. apply Hnext. unfold s1. rewrite Hid, (clrf_none _ _ Hfl).
    rewrite insert_id; [by destruct s|]. by rewrite Hx; destruct x.
Qed.
Lemma wp_record s (K : unit → gcst → Prop) :
  prog_ok fs s → NoDup fs → (∀ r, r ∈ fs → is_Some (gc_ios s !! r)) →
  (∀ s', prog_ok fs s' → recorded fs s s' fs → (∀ r x, r ∈ fs → gc_ios s' !! r = Some x → saved s' r x) → (prog_ids s → prog_ids s') → K tt s') →
  wp (mds_record_reclaim_prog fs) K s.
Proof.
  intros Hp Hnd Hin HK. unfold mds_record_reclaim_prog. wp_step. apply (wp_record_loop s _ fs []); try done; [apply recorded_refl|by intros r Hr; auto|by intros r x ?%elem_of_nil|].
  intros last s1 Hp1 Hrec Hpr H0 Hmax. cbv zeta. wp_step. apply HK.
  - destruct Hp1. by split.
  - destruct Hrec as [L C P Q O]. split; [done|done| |done|done]. intros _. destruct Hp1. by split.
  - intros r x Hr Hx. pose proof (rc_placed _ _ _ _ Hrec r x Hr Hx) as Hpl. unfold placed in Hpl. unfold saved. cbn in *. pose proof (Hmax r x Hr Hx). destruct (po_index _ _ Hp1 r x Hr Hx) as [? _].
    rewrite lookup_app_l; [rewrite lookup_take_lt by lia; done|]. rewrite length_take. apply lookup_lt_Some in Hpl. lia.
  - intros Hids i p. cbn. pose proof (po_len _ _ Hp1) as Hl. destruct (decide (i < Z.to_nat (last + 1))%nat).
    + rewrite lookup_app_l by (rewrite length_take; lia). rewrite lookup_take_lt by done. apply (po_buf _ _ Hp1).
    + rewrite lookup_app_r by (rewrite length_take; lia). rewrite lookup_drop, length_take, Hpr. replace (Z.to_nat (last + 1) + (i - Z.to_nat (last + 1) `min` length (gc_buf s1)))%nat with i by lia.
      intros Hi Hf. destruct (Hids i p Hi Hf) as (x & Hx & Hix). pose proof (rc_core _ _ _ _ Hrec (rpe_id p)) as Ec. rewrite Hx in Ec. destruct (gc_ios s1 !! rpe_id p) as [x'|]; [|done]. injection Ec as _ _ E3 _. exists x'. split; [done|]. by rewrite E3.
Qed.

(** The systems have made progress. *)
Lemma gok_progress s s' H :
  gok fs s H → logs_of s' = logs_of s → prog_ok fs s' →
  (∀ r x, r ∈ fs → gc_ios s !! r = Some x → ∃ x', gc_ios s' !! r = Some x' ∧ si_batchno x ≤ si_batchno x' ≤ gc_cur_batchno s ∧ 0 ≤ si_xid x' ≤ gc_cur_xid s + 1) →
  gok fs s' H.
Proof.
  intros [Hc Hs Hh Hla Hf Ho Hfile Hhd Hk Hi Hp] [= Hl Hb Hx Hhand Hoff] Hp' Hprog. split; try done; rewrite ?Hl, ?Hb, ?Hx, ?Hhand, ?Hoff; try done.
  - intros b Hne. destruct (Hk b Hne) as [?|[? Hall]]; [by left|right]. split; [done|]. intros r Hr. destruct (Hall r Hr) as (x & Hxr & ?). destruct (Hprog r x Hr Hxr) as (x' & ? & ? & _). exists x'. split; [done|lia].
  - intros r Hr. destruct (Hi r Hr) as (x & Hxr & ? & ?). destruct (Hprog r x Hr Hxr) as (x' & ? & ? & ?). exists x'. split; [done|lia].
Qed.
Lemma gok_recorded s s' H l : gok fs s H → prog_ok fs s' → recorded fs s s' l → gok fs s' H.
Proof.
  intros Hg Hp [L C _ _ _]. apply (gok_progress s); try done. intros r x Hr Hx. destruct (go_ios _ _ _ Hg r Hr) as (y & Hy & ? & ?). rewrite Hx in Hy. injection Hy as <-.
  specialize (C r). rewrite Hx in C. destruct (gc_ios s' !! r) as [x'|] eqn:Hx'; [|done]. injection C as E1 E2 _ _. exists x'. split; [done|lia].
Qed.

(** ** Log files are removed *)
Lemma gok_remove s H b : gok fs s H → b < gc_cur_batchno s → (∀ r, r ∈ fs → ∃ x, gc_ios s !! r = Some x ∧ b < si_batchno x) →
  gok fs (gc_with_log s (delete b (gc_logs s)) (gc_handle s) (gc_offset s)) H.
Proof.
  intros [Hc Hs Hh Hla Hf Ho Hfile Hhd Hk Hi Hp] Hlt Hall. split; cbn; try done.
  - intros c f [_ Hcf]%lookup_delete_Some. by apply Hfile.
  - intros c Hc'. destruct (Hhd c Hc') as (-> & f & ? & ? & ?). split; [done|]. exists f. rewrite lookup_delete_ne by lia. done.
  - intros c Hne. destruct (decide (c = b)) as [->|]; [by right|]. rewrite lookup_delete_ne by done. by apply Hk.
  - by apply (prog_ok_framed fs s).
Qed.
(** Log files may be gone. *)
Definition pruned s s' : Prop := framed s s' ∧ gc_cur_batchno s' = gc_cur_batchno s ∧ gc_cur_xid s' = gc_cur_xid s ∧ gc_logs s' ⊆ gc_logs s.
Lemma pruned_refl s : pruned s s.
Proof. done. Qed.
Lemma pruned_trans s1 s2 s3 : pruned s1 s2 → pruned s2 s3 → pruned s1 s3.
Proof. intros ((? & ? & ?) & ? & ? & ?) ((? & ? & ?) & ? & ? & ?). split; [split; [congruence|split; congruence]|]. split; [congruence|]. split; [congruence|]. by etrans. Qed.
Lemma wp_remove s H b (K : Z → gcst → Prop) : gok fs s H → b < gc_cur_batchno s → (∀ r, r ∈ fs → ∃ x, gc_ios s !! r = Some x ∧ b < si_batchno x) →
  (∀ rc s', gok fs s' H → pruned s s' → K rc s') → wp (mds_remove_logfile b) K s.
Proof. intros Hg Hlt Hall HK. unfold wp, mds_remove_logfile. destruct (gc_logs s !! b); [|by apply HK]. apply HK; [by apply gok_remove|]. do 3 (split; [done|]). apply delete_subseteq. Qed.
Lemma wp_remove_loop H n (K : unit → gcst → Prop) : ∀ s i k, gok fs s H → i < gc_cur_batchno s → (∀ r, r ∈ fs → ∃ x, gc_ios s !! r = Some x ∧ i < si_batchno x) →
  (∀ s', gok fs s' H → pruned s s' → K tt s') → wp (remove_loop n i k) K s.
Proof.
  induction n as [|n IH]; intros s i k Hg Hi Hall HK; cbn [remove_loop]; [wp_step; by apply HK|]. wp_step. apply (wp_remove s H i); try done. intros rc s' Hg' Hpr. pose proof Hpr as ((Hf1 & _) & Hcb & _).
  assert (Hnext : ∀ k, wp (remove_loop n (i - 1) k) K s').
  { intros k'. apply IH; [done|lia|rewrite Hf1; intros r Hr; destruct (Hall r Hr) as (x & ? & ?); exists x; split; [done|lia]|].
    intros s2 Hg2 Hpr2. apply HK; [done|]. by apply (pruned_trans s s'). }
  destruct (negb (rc =? 0)); [|apply Hnext]. destruct (k + 1 >? 10); [|apply Hnext]. wp_step. by apply HK.
Qed.

(** ** A batch is skipped *)
Lemma wp_skip_loop s b (K : Z * Z * bool → gcst → Prop) l : ∀ n d rec, (∀ r, r ∈ l → ∃ x, gc_ios s !! r = Some x ∧ b < si_batchno x) →
  K (n + Z.of_nat (length l), d + Z.of_nat (length l), rec) s → wp (skip_loop b l n d rec) K s.
Proof.
  induction l as [|r l IH]; intros n d rec Hall HK; cbn [skip_loop]; [wp_step; cbn in HK; by rewrite !Z.add_0_r in HK|]. destruct (Hall r) as (x & Hx & Hlt); [by left|]. wp_step. apply (wp_getSi r x); [done|].
  destruct (Z.ltb_spec (si_batchno x) b); [lia|]. rewrite Z.gtb_ltb. destruct (Z.ltb_spec b (si_batchno x)); [|lia]. apply IH; [intros c Hc; apply Hall; by right|]. cbn [length] in HK.
  replace (n + 1 + Z.of_nat (length l)) with (n + Z.of_nat (S (length l))) by lia. by replace (d + 1 + Z.of_nat (length l)) with (d + Z.of_nat (S (length l))) by lia.
Qed.
(** A file is missing below the current one only when every system is past it:
    nothing is skipped, and the file before may go. *)
Lemma wp_skip s H b (K : unit → gcst → Prop) : gok fs s H → 0 ≤ b < gc_cur_batchno s → gc_logs s !! b = None →
  (∀ s', gok fs s' H → pruned s s' → (∀ r, r ∈ fs → ∃ x, gc_ios s !! r = Some x ∧ b < si_batchno x) → K tt s') →
  wp (mds_skip_reclaim_batch fs b) K s.
Proof.
  intros Hg Hb Hnone HK. assert (Hall : ∀ r, r ∈ fs → ∃ x, gc_ios s !! r = Some x ∧ b < si_batchno x).
  { destruct (go_kept _ _ _ Hg b) as [[? ?]|[_ ?]]; [|congruence|done]. pose proof (go_full _ _ _ Hg b Hb) as Hf. intros Hn. rewrite Hn in Hf. done. }
  unfold mds_skip_reclaim_batch. wp_step. wp_step. rewrite Z.geb_leb. destruct (Z.leb_spec (gc_cur_batchno s) b); [lia|]. wp_step. apply wp_skip_loop; [done|]. wp_step. apply wp_when; [done|]. intros _.
  apply wp_when; intros Hc; [|by apply HK]. wp_step. apply (wp_remove s H); [done|lia|intros r Hr; destruct (Hall r Hr) as (x & ? & ?); exists x; split; [done|lia]|]. intros rc s' Hg' Hpr. wp_step. by apply HK.
Qed.

(** ** A batch is sent *)
Lemma sinv_start s net E b count xid : sinv s net E [] {| gs_batchno := b; gs_count := count; gs_xid := xid; gs_ndone := 0; gs_nios := 0; gs_next := UINT64_MAX; gs_sent := [] |} [].
Proof. split; cbn; try done; [by constructor|by intros r ?%elem_of_nil|by intros r b' l ?%elem_of_nil|by intros r x ?%elem_of_nil..|by left]. Qed.
Lemma wp_send_begin s H b net (K : Z + gc_send → gcst → Prop) :
  gok fs s H → NoDup fs → 0 ≤ b →
  (∀ d s', gok fs s' H → pruned s s' →
     (d = 0 ∧ ents_of H b = [] ∧ gc_cur_batchno s ≤ b ∨ (∀ r, r ∈ fs → ∃ x, gc_ios s !! r = Some x ∧ b < si_batchno x)) → K (inl d) s') →
  (∀ g D e, b ≤ gc_cur_batchno s → last (ents_of H b) = Some e → gs_batchno g = b → gs_count g = Z.of_nat (length (ents_of H b)) + 1 → gs_xid g = re_xid e →
     sinv s net (ents_of H b) fs g D → K (inr g) s) →
  wp (reclaim_begin fs b net) K s.
Proof.
  intros Hg Hnd Hb Hret Hsend. unfold reclaim_begin. wp_step. wp_step. pose proof (go_count fs s H b Hg) as Hcnt.
  assert (Hempty : ents_of H b = [] → gc_cur_batchno s ≤ b).
  { intros He. destruct (decide (b < gc_cur_batchno s)); [|lia]. pose proof (go_full _ _ _ Hg b) as Hf. rewrite He in Hf. cbn in Hf. unfold SLM_RECLAIM_BATCH_NENTS in Hf. lia. }
  destruct (gc_logs s !! b) as [f|] eqn:Hf.
  2: { destruct (Z.ltb_spec b (gc_cur_batchno s)).
       - wp_step. apply (wp_skip s H); [done|lia|done|]. intros s' Hg' Hpr Hall. wp_step. apply Hret; try done. by right.
       - wp_step. apply Hret; try done. left. split; [done|]. split; [|lia]. destruct (ents_of H b) as [|e l] eqn:He; [done|]. destruct (go_kept _ _ _ Hg b) as [[? ?]|[? _]]; [by rewrite He|congruence|lia]. }
  destruct (go_file _ _ _ Hg b f Hf) as (Hbc & Hx & [Hm|[Hm He]]).
  2: { assert (lf_size f = 0) as -> by (unfold lf_size; by rewrite Hx, Hm). cbv zeta. rewrite Z.eqb_refl. wp_step. apply Hret; try done. left. auto. }
  assert (Hsz : lf_size f = (Z.of_nat (length (ents_of H b)) + 1) * R_ENTSZ) by (unfold lf_size; rewrite Hx, Hm; cbn [length]; lia). cbv zeta. rewrite Hsz, Z.mod_mul, Z.div_mul by done.
  destruct (Z.eqb_spec ((Z.of_nat (length (ents_of H b)) + 1) * R_ENTSZ) 0); [unfold R_ENTSZ in *; lia|]. destruct (Z.eqb_spec ((Z.of_nat (length (ents_of H b)) + 1) * R_ENTSZ) R_ENTSZ) as [Hone|Hone].
  { wp_step. assert (ents_of H b = []) by (apply nil_length_inv; unfold R_ENTSZ in *; lia). apply Hret; try done. left. auto. }
  rewrite Z.gtb_ltb. destruct (Z.ltb_spec (R_ENTSZ * SLM_RECLAIM_BATCH_NENTS) ((Z.of_nat (length (ents_of H b)) + 1) * R_ENTSZ)); [unfold R_ENTSZ in *; lia|]. cbn [orb negb Z.eqb].
  assert (Hne : ents_of H b ≠ []) by (intros Hn; rewrite Hn in Hone; done). destruct (last (ents_of H b)) as [e|] eqn:Hlast; [|by apply last_None in Hlast].
  replace (Z.to_nat (Z.of_nat (length (ents_of H b)) + 1 - 1)) with (length (ents_of H b)) by lia. rewrite Hm. cbn [tail].
  assert (Hlk : (RECLAIM_MAGIC :: ents_of H b) !! length (ents_of H b) = Some e).
  { rewrite last_lookup in Hlast. destruct (ents_of H b) as [|e0 l]; [done|]. done. }
  rewrite Hlk. wp_step. apply (wp_send_loop s net (ents_of H b) (re_xid e) (Z.of_nat (length (ents_of H b)) + 1) b _ fs [] _ []); try done.
  - intros r Hr. destruct (go_ios _ _ _ Hg r Hr) as (x & ? & _). by eexists.
  - exists e. split; [|done]. rewrite last_lookup in Hlast. by apply list_elem_of_lookup_2 in Hlast.
  - apply sinv_start.
  - intros g D Hgb Hgc Hgx Hi. wp_step. apply (Hsend g D e); try done. lia.
Qed.

(** ** While a batch is on its way *)
Lemma sorted_later H b1 e1 b2 e2 : StronglySorted later H → (b1, e1) ∈ H → (b2, e2) ∈ H → b1 < b2 → re_xid e1 < re_xid e2.
Proof.
  induction 1 as [|x l Hs IH Hall]; [by intros ?%elem_of_nil|]. rewrite Forall_forall in Hall. intros [Hx1|H1]%elem_of_cons [Hx2|H2]%elem_of_cons Hlt.
  - rewrite <-Hx1 in Hx2. injection Hx2 as -> _. lia.
  - destruct (Hall _ H2) as [_ ?]. subst x. done.
  - destruct (Hall _ H1) as [? _]. subst x. cbn in *. lia.
  - by apply IH.
Qed.
Lemma last_max l (e e' : srt_reclaim_entry) : StronglySorted (λ e f, re_xid e < re_xid f) l → last l = Some e → e' ∈ l → re_xid e' ≤ re_xid e.
Proof.
  intros Hs (l0 & ->)%last_Some. intros [Hin| ->%list_elem_of_singleton]%elem_of_app; [|lia].
  apply Z.lt_le_incl. apply (StronglySorted_app_1_elem_of _ _ _ e' e Hs Hin). by left.
Qed.
Record flight s H g (D : list Z) : Prop := {
  fl_batch : 0 ≤ gs_batchno g ≤ gc_cur_batchno s ∧ 0 ≤ gs_xid g ≤ gc_cur_xid s;
  fl_last : ∃ e, (gs_batchno g, e) ∈ H ∧ re_xid e = gs_xid g;
  fl_full : gs_count g = SLM_RECLAIM_BATCH_NENTS → gs_batchno g < gc_cur_batchno s ∧ ∀ e, (gs_batchno g, e) ∈ H → re_xid e ≤ gs_xid g;
  fl_nios : gs_nios g = Z.of_nat (length fs);
  fl_done : gs_ndone g = Z.of_nat (length D);
  fl_nodup : NoDup (D ++ recv g);
  fl_sub : ∀ r, r ∈ D ++ recv g → r ∈ fs;
  fl_D : ∀ r, r ∈ D → gs_count g = SLM_RECLAIM_BATCH_NENTS → ∃ x, gc_ios s !! r = Some x ∧ gs_batchno g < si_batchno x;
  fl_sent : ∀ r b l, (r, b, l) ∈ gs_sent g → b = gs_batchno g ∧ 0 < Z.of_nat (length l) < SLM_RECLAIM_BATCH_NENTS ∧ (∀ e, e ∈ l → (gs_batchno g, e) ∈ H) ∧
    ∃ x, gc_ios s !! r = Some x ∧ si_batchno x = gs_batchno g ∧ ∀ e, (gs_batchno g, e) ∈ H → re_xid e ≤ gs_xid g → e ∈ l ∨ re_xid e < si_xid x;
}.
Lemma recv_elem g r : r ∈ recv g ↔ ∃ b l, (r, b, l) ∈ gs_sent g.
Proof.
  split; [intros ([[c b] l] & -> & ?)%list_elem_of_fmap_1; by exists b, l|]. intros (b & l & Hin). by apply (list_elem_of_fmap_2' (λ m : Z * Z * list srt_reclaim_entry, m.1.1) _ (r, b, l)).
Qed.
Lemma flight_begin s H b net g D e :
  gok fs s H → 0 ≤ b ≤ gc_cur_batchno s → last (ents_of H b) = Some e → gs_batchno g = b → gs_count g = Z.of_nat (length (ents_of H b)) + 1 → gs_xid g = re_xid e →
  sinv s net (ents_of H b) fs g D → flight s H g D.
Proof.
  intros Hg Hb Hlast Hgb Hgc Hgx [Hn Hd Hnd HD Hs _ _ _]. assert (He : (b, e) ∈ H) by (apply ents_of_elem; rewrite last_lookup in Hlast; by apply list_elem_of_lookup_2 in Hlast).
  destruct (go_hist _ _ _ Hg b e He) as [_ Hxe]. pose proof (go_count fs s H b Hg) as Hcnt. split; rewrite ?Hgb, ?Hgx; try done.
  - lia.
  - by exists e.
  - intros Hfull. split.
    + destruct (decide (b = gc_cur_batchno s)) as [->|]; [pose proof (go_open _ _ _ Hg); lia|lia].
    + intros e' He'. apply (last_max (ents_of H b)); [by apply ents_of_sorted, (go_sorted _ _ _ Hg)|done|by apply ents_of_elem].
  - intros r [Hin|Hin]%elem_of_app; [by apply HD|]. apply recv_elem in Hin as (b' & l & Hin). by apply (Hs r b' l).
  - intros r Hr Hfull. destruct (HD r Hr) as (_ & x & Hx & [?|(? & _)]); [|lia]. exists x. by rewrite <-Hgb.
  - intros r b' l Hin. destruct (Hs r b' l Hin) as (_ & Hne & -> & Hsuf & x & Hx & Hbx & Hrest). split; [done|]. split.
    + apply suffix_length in Hsuf. destruct l; [done|]. cbn [length] in *. lia.
    + split; [intros e' He'; apply ents_of_elem; destruct Hsuf as [k Hk]; rewrite Hk; apply elem_of_app; by right|]. exists x. split; [done|]. split; [congruence|]. intros e' He' _. apply Hrest. by apply ents_of_elem.
Qed.
(** Nothing of it changes when records are logged, or when only flags change. *)
Lemma flight_later s s' H l g D : flight s H g D → gok fs s H → gc_cur_batchno s ≤ gc_cur_batchno s' → gc_cur_xid s ≤ gc_cur_xid s' →
  (∀ b e, (b, e) ∈ l → gc_cur_batchno s ≤ b ∧ gc_cur_xid s < re_xid e) →
  (∀ r x, gc_ios s !! r = Some x → ∃ x', gc_ios s' !! r = Some x' ∧ si_batchno x' = si_batchno x ∧ si_xid x' = si_xid x) → flight s' (H ++ l) g D.
Proof.
  intros [Hb (e0 & Hlast & Hx0) Hfull Hn Hd Hnd Hsub HD Hs] Hg Hcb Hcx Hl Hios. split; try done.
  - lia.
  - exists e0. split; [|done]. apply elem_of_app. by left.
  - intros Hf. destruct (Hfull Hf) as [? Hm]. split; [lia|]. intros e [?|Hin]%elem_of_app; [by apply Hm|]. destruct (Hl _ _ Hin). lia.
  - intros r Hr Hf. destruct (HD r Hr Hf) as (x & Hx & ?). destruct (Hios r x Hx) as (x' & ? & ? & ?). exists x'. split; [done|lia].
  - intros r b l' Hin. destruct (Hs r b l' Hin) as (? & ? & Hel & x & Hx & ? & Hrest). do 2 (split; [done|]). split; [intros e He; apply elem_of_app; left; by apply Hel|]. destruct (Hios r x Hx) as (x' & ? & ? & ?). exists x'. split; [done|]. split; [lia|].
    intros e [He|He]%elem_of_app Hle; [destruct (Hrest e He Hle); [by left|right; lia]|]. destruct (Hl _ _ He). lia.
Qed.

(** ** The replies are taken *)
Lemma acks_lookup g (l : list Z) : ∀ (m : gmap Z rpmi_ios) r, NoDup l → acks g m l !! r = if decide (r ∈ l) then ack g <$> m !! r else m !! r.
Proof.
  induction l as [|c l IH]; intros m r Hnd; cbn [foldl]; [by rewrite decide_False by (by intros ?%elem_of_nil)|]. apply NoDup_cons in Hnd as [Hc Hnd]. rewrite IH by done.
  destruct (decide (r = c)) as [->|Hne].
  - rewrite decide_False by done. rewrite lookup_alter_eq, decide_True; [done|by left].
  - rewrite lookup_alter_ne by done. destruct (decide (r ∈ l)); [rewrite decide_True; [done|by right]|]. rewrite decide_False; [done|]. by intros [?|?]%elem_of_cons.
Qed.
Lemma wp_reply_loop g st (K : Z → gcst → Prop) (l : list (Z * Z * list srt_reclaim_entry)) : ∀ s n, (∀ r b e, (r, b, e) ∈ l → is_Some (gc_ios s !! r)) →
  let ok := filter (λ r, st r = 0) ((λ m : Z * Z * list srt_reclaim_entry, m.1.1) <$> l) in K (n + Z.of_nat (length ok)) (gc_with_ios s (acks g (gc_ios s) ok)) → wp (reply_loop g l st n) K s.
Proof.
  induction l as [|[[r b] e] l IH]; intros s n Hall ok HK; cbn [reply_loop].
  { wp_step. unfold ok in HK. cbn in HK. rewrite Z.add_0_r in HK. by destruct s. }
  destruct (Hall r b e) as [x Hx]; [by left|]. wp_step. unfold slm_rim_reclaim_cb. wp_step. apply (wp_getSi r x); [done|]. unfold ok in HK. cbn [fmap list_fmap fst] in HK. rewrite filter_cons in HK.
  destruct (Z.eqb_spec (st r) 0) as [H0|H0]; cbn [negb].
  - rewrite decide_True in HK by done. wp_step. unfold setSi. wp_step. wp_step.
    assert (Heq : <[r := ack g x]> (gc_ios s) = alter (ack g) r (gc_ios s)). { apply map_eq. intros c. destruct (decide (c = r)) as [->|]; [by rewrite lookup_insert_eq, lookup_alter_eq, Hx|by rewrite lookup_insert_ne, lookup_alter_ne]. }
    fold (ack g x). rewrite Heq. apply IH.
    + intros c b' e' Hin. cbn. rewrite lookup_alter_is_Some. apply (Hall c b' e'). by right.
    + cbn [gc_ios gc_with_ios] in *. cbn [length foldl] in HK. by replace (n + 1 + _) with (n + Z.of_nat (S (length (filter (λ r, st r = 0) ((λ m : Z * Z * list srt_reclaim_entry, m.1.1) <$> l))))) by lia.
  - rewrite decide_False in HK by done. wp_step. apply IH; [intros c b' e' Hin; apply (Hall c b' e'); by right|done].
Qed.
(** The state with the acknowledged requests. *)
Lemma acks_ios s H g D st : gok fs s H → flight s H g D → let s1 := gc_with_ios s (acks g (gc_ios s) (acked g st)) in
  gok fs s1 H ∧ ∀ r x, gc_ios s !! r = Some x → gc_ios s1 !! r = Some (if decide (r ∈ acked g st) then ack g x else x).
Proof.
  intros Hg Hfl s1. pose proof Hfl as [Hb _ Hfull _ _ Hnd Hsub _ Hs]. assert (Hlk : ∀ r x, gc_ios s !! r = Some x → gc_ios s1 !! r = Some (if decide (r ∈ acked g st) then ack g x else x)).
  { intros r x Hx. unfold s1. cbn. apply NoDup_app in Hnd as (_ & _ & Hnd). rewrite acks_lookup by by apply NoDup_filter. case_decide; by rewrite Hx. }
  split; [|done]. assert (Hsome : ∀ r y, r ∈ fs → gc_ios s1 !! r = Some y → ∃ x, gc_ios s !! r = Some x ∧ y = if decide (r ∈ acked g st) then ack g x else x).
  { intros r y Hr Hy. destruct (go_ios _ _ _ Hg r Hr) as (x & Hx & _). exists x. split; [done|]. rewrite (Hlk r x Hx) in Hy. congruence. }
  apply (gok_progress s); [done|done|..].
  - destruct (go_prog _ _ _ Hg) as [Hpi Hpj Hpl Hpb]. split; [..|done|].
    + intros r y Hr Hy. destruct (Hsome r y Hr Hy) as (x & Hx & ->). destruct (Hpi r x Hr Hx) as (? & p & ? & ?). case_decide; (split; [done|by exists p]).
    + intros r r' y y' Hr Hr' Hy Hy' Hi. destruct (Hsome r y Hr Hy) as (x & Hx & ->). destruct (Hsome r' y' Hr' Hy') as (x' & Hx' & ->). apply (Hpj r r' x x'); try done. by repeat case_decide.
    + intros i p Hp Hpf. destruct (Hpb i p Hp Hpf) as (x & Hx & Hi). eexists. split; [by apply Hlk|]. by case_decide.
  - intros r x Hr Hx. destruct (go_ios _ _ _ Hg r Hr) as (x0 & Hx0 & ? & ?). rewrite Hx in Hx0. injection Hx0 as <-. eexists. split; [by apply Hlk|]. case_decide as Hin; [|lia].
    apply list_elem_of_filter in Hin as [_ Hin]. apply recv_elem in Hin as (b & l & Hin). destruct (Hs r b l Hin) as (_ & _ & _ & x0 & Hx0 & Hbx & _). rewrite Hx in Hx0. injection Hx0 as <-. cbn.
    destruct (Z.eqb_spec (gs_count g) SLM_RECLAIM_BATCH_NENTS) as [Hc|]; [destruct (Hfull Hc)|]; lia.
Qed.

(** The progress file has every system that has a place in it. *)
Definition all_saved s : Prop := (∀ r x, r ∈ fs → gc_ios s !! r = Some x → hasf (si_flags x) SIF_NEW_PROG_ENTRY = true ∨ saved s r x) ∧ prog_ids s.
Lemma all_saved_framed s s' : framed s s' → all_saved s → all_saved s'.
Proof. intros (Hi & _ & Hp) [Hs Hd]. unfold all_saved, prog_ids, saved. by rewrite Hi, Hp. Qed.
(** Distinct systems, as many as there are: all of them. *)
Lemma all_covered (l : list Z) : NoDup l → (∀ r, r ∈ l → r ∈ fs) → length l = length fs → ∀ r, r ∈ fs → r ∈ l.
Proof. intros Hnd Hsub Hlen r Hr. assert (l ≡ₚ fs) as ->; [|done]. apply submseteq_length_Permutation; [by apply NoDup_submseteq|lia]. Qed.
Definition next_of g : Z := if negb (gs_next g =? UINT64_MAX) && negb (gs_next g =? gs_batchno g) then gs_next g else gs_batchno g + 1.
Lemma wp_send_end s H g D st (K : Z * Z → gcst → Prop) :
  gok fs s H → NoDup fs → flight s H g D → all_saved s →
  (∀ s', gok fs s' H → all_saved s' → gc_cur_batchno s' = gc_cur_batchno s → gc_cur_xid s' = gc_cur_xid s → gc_logs s' ⊆ gc_logs s →
     (∀ r x, r ∈ fs → gc_ios s !! r = Some x → ∃ x', gc_ios s' !! r = Some x' ∧ core x' = core (if decide (r ∈ acked g st) then ack g x else x)) →
     K (Z.of_nat (length D) + Z.of_nat (length (acked g st)), next_of g) s') →
  wp (reclaim_end fs g st) K s.
Proof.
  intros Hg Hnd Hfl Hsv HK. pose proof Hfl as [Hb _ Hfull Hn Hd Hndr Hsub HD Hs]. destruct (acks_ios s H g D st Hg Hfl) as [Hg1 Hlk]. unfold reclaim_end. wp_step. apply wp_reply_loop.
  { intros r b e Hin. destruct (Hs r b e Hin) as (_ & _ & _ & x & Hx & _). by eexists. }
  rewrite Hd. set (s1 := gc_with_ios _ _) in *. set (n := Z.of_nat (length D) + Z.of_nat (length (acked g st))). wp_step.
  assert (Hrest : ∀ s2, gok fs s2 H → all_saved s2 → gc_cur_batchno s2 = gc_cur_batchno s → gc_cur_xid s2 = gc_cur_xid s → gc_logs s2 = gc_logs s →
    (∀ r x, r ∈ fs → gc_ios s !! r = Some x → ∃ x', gc_ios s2 !! r = Some x' ∧ core x' = core (if decide (r ∈ acked g st) then ack g x else x)) →
    wp (_ ← whenM ((n =? gs_nios g) && (gs_count g =? SLM_RECLAIM_BATCH_NENTS) && (gs_batchno g >=? 1)) (_ ← mds_remove_logfile (gs_batchno g - 1); mret tt); mret (n, next_of g)) K s2).
  { intros s2 Hg2 Hsv2 Hcb Hcx Hlg Hios. wp_step. apply wp_when; intros Hc; [|wp_step; apply HK; try done; by rewrite Hlg]. apply andb_true_iff in Hc as [[Hall%Z.eqb_eq Hcount%Z.eqb_eq]%andb_true_iff _]. wp_step. apply (wp_remove s2 H); [done|lia|..].
    - intros r Hr. assert (Hin : r ∈ D ++ acked g st).
      { apply all_covered; [|intros c Hc; apply Hsub; apply elem_of_app in Hc as [?|[_ ?]%list_elem_of_filter]; apply elem_of_app; auto|rewrite length_app; lia|done].
        apply NoDup_app in Hndr as (? & Hdis & ?). apply NoDup_app. split; [done|]. split; [|by apply NoDup_filter]. intros c Hc [_ ?]%list_elem_of_filter. by apply (Hdis c). }
      destruct (go_ios _ _ _ Hg r Hr) as (x & Hx & _). destruct (Hios r x Hr Hx) as (x' & Hx' & Hcore). exists x'. split; [done|]. injection Hcore as _ Ebat _ _. rewrite Ebat. clear Ebat.
      apply elem_of_app in Hin as [Hin|Hin].
      + destruct (HD r Hin Hcount) as (y & Hy & ?). rewrite Hx in Hy. injection Hy as <-. case_decide; cbn; [destruct (_ =? _)|]; lia.
      + rewrite decide_True by done. cbn. rewrite Hcount, Z.eqb_refl. apply list_elem_of_filter in Hin as [_ Hin]. apply recv_elem in Hin as (b & l & Hin). destruct (Hs r b l Hin) as (_ & _ & _ & y & Hy & ? & _).
        rewrite Hx in Hy. injection Hy as <-. lia.
    - intros rc s3 Hg3 (Hf3 & Hcb3 & Hcx3 & Hl3). wp_step. wp_step. pose proof Hf3 as (Hi3 & _). apply HK; [done|by apply (all_saved_framed s2)|congruence|congruence|by rewrite Hlg in Hl3|by rewrite Hi3]. }
  apply wp_when; intros Hc.
  - apply (wp_record s1); [by apply (go_prog _ _ _ Hg1)|done|intros r Hr; destruct (go_ios _ _ _ Hg1 r Hr) as (x & ? & _); by eexists|]. intros s2 Hp2 Hrec Hsv2 Hids.
    pose proof (rc_logs _ _ _ _ Hrec) as [= Elg Ecb Ecx _ _]. apply Hrest; [by apply (gok_recorded s1 s2 H fs)|split; [intros r x Hr Hx; right; by apply Hsv2|]|done|done|done|].
    { apply Hids. intros i p Hi Hf. destruct (proj2 Hsv i p Hi Hf) as (x & Hx & ?). eexists. split; [by apply Hlk|by case_decide]. }
    intros r x Hr Hx. pose proof (rc_core _ _ _ _ Hrec r) as Ec. rewrite (Hlk r x Hx) in Ec. destruct (gc_ios s2 !! r) as [x'|]; [|done]. exists x'. split; [done|]. cbn in Ec. congruence.
  - apply negb_false_iff, Z.eqb_eq in Hc. assert (Hz : acked g st = []) by (apply nil_length_inv; unfold n in Hc; lia). assert (s1 = s) as -> by (unfold s1; rewrite Hz; by destruct s).
    apply Hrest; try done. intros r x Hr Hx. exists x. split; [done|]. rewrite Hz. by rewrite decide_False by (by intros ?%elem_of_nil).
Qed.
End step.
