(* ===== verification/ReclaimInit.v ===== *)
(** * Start and restart of the reclaim log

    What [mds_journal_init] makes of the files of a new file system, and of
    those that a server left. *)
From S2P Require Import Prelude Reclaim ReclaimInv ReclaimStep.

Section init.
Context (fs : list Z).
Implicit Types (s : gcst) (H : hist).

(** ** The progress file is read *)
Definition cleared (p : reclaim_prog_entry) : reclaim_prog_entry := if decide (rpe_id p ∈ fs) then p else {| rpe_xid := 0; rpe_batchno := 0; rpe_id := rpe_id p |}.
Lemma cleared_id p : rpe_id (cleared p) = rpe_id p.
Proof. unfold cleared. by case_decide. Qed.
Lemma prog_scan_entries l : ∀ i ios b, (prog_scan fs i l ios b).1.1 = cleared <$> l.
Proof.
  induction l as [|p l IH]; intros i ios b; [done|]. cbn. unfold cleared at 1. case_bool_decide as Hp.
  - specialize (IH (i + 1) ios b). destruct (prog_scan fs (i + 1) l ios b) as [[l' ios'] b']. cbn in *. by rewrite IH, decide_False.
  - specialize (IH (i + 1) (<[rpe_id p:=si_with (rpe_xid p) (rpe_batchno p) i (clrf (from_option si_flags 0 (ios !! rpe_id p)) SIF_NEED_JRNL_INIT)]> ios) (if rpe_batchno p >? b then rpe_batchno p else b)).
    destruct (prog_scan fs (i + 1) l _ _) as [[l' ios'] b']. cbn in *. by rewrite IH, decide_True.
Qed.
(** A system that the file does not name is as before. *)
Lemma prog_scan_other l r : ∀ i ios b, (∀ p, p ∈ l → rpe_id p ≠ r) → (prog_scan fs i l ios b).1.2 !! r = ios !! r.
Proof.
  induction l as [|p l IH]; intros i ios b Hn; [done|]. cbn. assert (Hl : ∀ q, q ∈ l → rpe_id q ≠ r) by (intros q Hq; apply Hn; by right).
  case_bool_decide; [specialize (IH (i + 1) ios b Hl); by destruct (prog_scan fs (i + 1) l ios b) as [[? ?] ?]|].
  match goal with |- context [prog_scan fs (i + 1) l ?m ?c] => specialize (IH (i + 1) m c Hl); destruct (prog_scan fs (i + 1) l m c) as [[? ?] ?] end. cbn in *. rewrite IH. apply lookup_insert_ne. apply Hn. by left.
Qed.
(** A system that it names once has what the file has. *)
Lemma prog_scan_found l r p : ∀ i ios b j, r ∈ fs → l !! j = Some p → rpe_id p = r → (∀ k q, l !! k = Some q → rpe_id q = r → k = j) →
  (∀ x, ios !! r = Some x → clrf (si_flags x) SIF_NEED_JRNL_INIT = 0) →
  (prog_scan fs i l ios b).1.2 !! r = Some (si_with (rpe_xid p) (rpe_batchno p) (i + Z.of_nat j) 0).
Proof.
  induction l as [|q l IH]; intros i ios b j Hr Hj Hp Hu Hfl; [done|]. cbn. destruct j as [|j].
  - injection Hj as ->. case_bool_decide; [subst; done|]. assert (Hl : ∀ q, q ∈ l → rpe_id q ≠ r) by (intros q [k Hk]%list_elem_of_lookup_1 Hq; by specialize (Hu (S k) q Hk Hq)).
    match goal with |- context [prog_scan fs (i + 1) l ?m ?c] => pose proof (prog_scan_other l r (i + 1) m c Hl) as Ho; destruct (prog_scan fs (i + 1) l m c) as [[? ?] ?] end. cbn in *. rewrite Ho, Hp, lookup_insert_eq.
    rewrite Z.add_0_r. f_equal. unfold si_with. f_equal. destruct (ios !! r) as [x|] eqn:Hx; [by apply Hfl|done].
  - assert (Hqr : rpe_id q ≠ r) by (intros Hq; by specialize (Hu 0%nat q eq_refl Hq)). assert (Hu' : ∀ k q, l !! k = Some q → rpe_id q = r → k = j) by (intros k q' Hk Hq'; specialize (Hu (S k) q' Hk Hq'); lia).
    replace (i + Z.of_nat (S j)) with (i + 1 + Z.of_nat j) by lia. case_bool_decide.
    + specialize (IH (i + 1) ios b j Hr Hj Hp Hu' Hfl). by destruct (prog_scan fs (i + 1) l ios b) as [[? ?] ?].
    + match goal with |- context [prog_scan fs (i + 1) l ?m ?c] => specialize (IH (i + 1) m c j Hr Hj Hp Hu'); destruct (prog_scan fs (i + 1) l m c) as [[? ?] ?] end. apply IH. by rewrite lookup_insert_ne.
Qed.
(** The highest batch. *)
Lemma prog_scan_max l : ∀ i ios b, let m := (prog_scan fs i l ios b).2 in
  b ≤ m ∧ (∀ p, p ∈ l → rpe_id p ∈ fs → rpe_batchno p ≤ m) ∧ (m = b ∨ ∃ p, p ∈ l ∧ rpe_id p ∈ fs ∧ m = rpe_batchno p).
Proof.
  induction l as [|q l IH]; intros i ios b; cbn; [split; [done|split; [by intros p ?%elem_of_nil|by left]]|]. case_bool_decide as Hq.
  - specialize (IH (i + 1) ios b). destruct (prog_scan fs (i + 1) l ios b) as [[? ?] m]. cbn in *. destruct IH as (? & Hle & Hex). split; [done|]. split.
    + intros p [->|Hp]%elem_of_cons ?; [done|by apply Hle].
    + destruct Hex as [?|(p & ? & ?)]; [by left|right]. exists p. split; [by right|done].
  - match goal with |- context [prog_scan fs (i + 1) l ?mm ?c] => specialize (IH (i + 1) mm c); destruct (prog_scan fs (i + 1) l mm c) as [[? ?] m] end. cbn in *. rewrite Z.gtb_ltb in IH.
    destruct IH as (Hb & Hle & Hex). destruct (Z.ltb_spec b (rpe_batchno q)); (split; [lia|]; split; [intros p [->|Hp]%elem_of_cons ?; [lia|by apply Hle]|]).
    + right. destruct Hex as [->|(p & ? & ?)]; [exists q; split; [by left|done]|exists p; split; [by right|done]].
    + destruct Hex as [->|(p & ? & ?)]; [by left|right; exists p; split; [by right|done]].
Qed.

(** ** The last log file is found *)
Lemma wp_scan_logs s (K : Z → gcst → Prop) top fuel : ∀ b, (∀ c, b ≤ c < top → is_Some (gc_logs s !! c)) → gc_logs s !! top = None → b ≤ top → (Z.to_nat (top - b) < fuel)%nat →
  K top s → wp (scan_logs fuel b) K s.
Proof.
  induction fuel as [|fuel IH]; intros b Hall Hnone Hle Hfuel HK; [lia|]. cbn [scan_logs]. wp_step. unfold wp at 1, open_logfile_ro. destruct (decide (b = top)) as [->|].
  - rewrite Hnone. change (negb (ENOENT =? 0)) with true. by wp_step.
  - destruct (Hall b) as [f Hf]; [lia|]. rewrite Hf. change (negb (0 =? 0)) with false. cbv beta iota. apply IH; [intros c Hc; apply Hall; lia|done|lia|lia|done].
Qed.
(** The last record is in the last file. *)
Lemma last_ents H b e : last H = Some (b, e) → last (ents_of H b) = Some e.
Proof. intros (H0 & ->)%last_Some. rewrite ents_of_app, decide_True by done. by rewrite last_snoc. Qed.
Lemma last_batch s H b e : gok fs s H → last H = Some (b, e) → (b = gc_cur_batchno s ∧ is_Some (gc_logs s !! b)) ∨ (b = gc_cur_batchno s - 1 ∧ ents_of H (gc_cur_batchno s) = []).
Proof.
  intros Hg Hlast. assert (Hin : (b, e) ∈ H) by (rewrite last_lookup in Hlast; by apply list_elem_of_lookup_2 in Hlast). destruct (go_hist _ _ _ Hg b e Hin) as [Hb _].
  assert (Hmax : ∀ b' e', (b', e') ∈ H → b' ≤ b).
  { intros b' e' Hin'. apply last_Some in Hlast as (H0 & ->). apply elem_of_app in Hin' as [Hin'|[= -> _]%list_elem_of_singleton]; [|lia].
    assert (later (b', e') (b, e)) as [? _]; [|done]. apply (StronglySorted_app_1_elem_of _ _ _ _ _ (go_sorted _ _ _ Hg) Hin'). by left. }
  destruct (decide (b = gc_cur_batchno s)) as [->|Hne].
  - left. split; [done|]. destruct (go_kept _ _ _ Hg (gc_cur_batchno s)) as [?|[? _]]; [|done|lia]. intros Hn. apply last_ents in Hlast. by rewrite Hn in Hlast.
  - right. assert (Hnil : ∀ c, b < c → ents_of H c = []).
    { intros c Hc. destruct (ents_of H c) as [|e' l] eqn:He; [done|]. assert ((c, e') ∈ H) as ?%Hmax by (apply ents_of_elem; rewrite He; by left). lia. }
    split; [|apply Hnil; lia]. destruct (decide (b = gc_cur_batchno s - 1)); [done|]. pose proof (go_full _ _ _ Hg (gc_cur_batchno s - 1) ltac:(lia)) as Hf. rewrite Hnil in Hf by lia. done.
Qed.

(** ** A restart *)

(** What has to hold for a server to be started again where it stopped: each
    system has a record in the progress file that is not zero, and the highest
    batch that a system has reached has a log file. *)
Record restartable s : Prop := {
  rb_recorded : ∀ r x, r ∈ fs → gc_ios s !! r = Some x → hasf (si_flags x) SIF_NEW_PROG_ENTRY = false ∧ ¬ (si_xid x = 0 ∧ si_batchno x = 0);
  rb_file : (∀ r x, r ∈ fs → gc_ios s !! r = Some x → si_batchno x < gc_cur_batchno s) ∨ is_Some (gc_logs s !! gc_cur_batchno s);
}.
Lemma rb_new s : restartable s → ∀ r x, r ∈ fs → gc_ios s !! r = Some x → hasf (si_flags x) SIF_NEW_PROG_ENTRY = false.
Proof. intros Hrb r x Hr Hx. by apply (rb_recorded _ Hrb r x). Qed.
(** The current file has records, or nothing was ever logged. *)
Definition cur_file s H : Prop := ∀ f, gc_logs s !! gc_cur_batchno s = Some f → ents_of H (gc_cur_batchno s) = [] → H = [] ∧ lf_ents f = [].
Lemma wp_init_new s (K : unit → gcst → Prop) l : ∀ idx, (∀ r, r ∈ l → ∃ x, gc_ios s !! r = Some x ∧ hasf (si_flags x) SIF_NEED_JRNL_INIT = false ∧ ¬ (si_xid x = 0 ∧ si_batchno x = 0)) →
  K tt s → wp (init_new l idx) K s.
Proof.
  induction l as [|r l IH]; intros idx Hall HK; cbn [init_new]; [by wp_step|]. destruct (Hall r) as (x & Hx & Hf & Hn); [by left|]. wp_step. wp_step. wp_step. apply (wp_getSi r x); [done|]. cbv zeta.
  assert (((si_xid x =? 0) && (si_batchno x =? 0)) = false) as -> by (apply not_true_is_false; intros [?%Z.eqb_eq ?%Z.eqb_eq]%andb_true_iff; by apply Hn). rewrite Hf. cbn [negb]. wp_step. unfold setSi. wp_step.
  assert (gc_with_ios s (<[r := x]> (gc_ios s)) = s) as -> by (rewrite insert_id by done; by destruct s). apply IH; [intros c Hc; apply Hall; by right|done].
Qed.

Abbreviation NPROG := (Z.to_nat MAX_RECLAIM_PROG_ENTRY).
Abbreviation ios0 := (list_to_map ((λ r, (r, slcfg_init_si)) <$> fs) : gmap Z rpmi_ios).
Lemma ios0_flags r x : ios0 !! r = Some x → x = slcfg_init_si.
Proof. intros Hx%elem_of_list_to_map_2. apply list_elem_of_fmap_1 in Hx as (c & [= _ ->] & _). done. Qed.
Section restart.
Context s H (Hg : gok fs s H) (Hsv : all_saved fs s) (Hnew : ∀ r x, r ∈ fs → gc_ios s !! r = Some x → hasf (si_flags x) SIF_NEW_PROG_ENTRY = false) (Hne : fs ≠ []) (H0 : 0 ∉ fs).
Local Abbreviation scan := (prog_scan fs 0 (take NPROG (gc_prog s)) ios0 0).
Lemma saved_at r x : r ∈ fs → gc_ios s !! r = Some x → 0 ≤ si_index x ∧ take NPROG (gc_prog s) !! Z.to_nat (si_index x) = Some {| rpe_xid := si_xid x; rpe_batchno := si_batchno x; rpe_id := r |}.
Proof.
  intros Hr Hx. destruct (proj1 Hsv r x Hr Hx) as [Hn|Hs]; [by rewrite (Hnew r x Hr Hx) in Hn|]. destruct (po_index _ _ (go_prog _ _ _ Hg) r x Hr Hx) as (Hi & p & Hp & _).
  split; [done|]. rewrite lookup_take_lt; [done|]. apply lookup_lt_Some in Hp. pose proof (po_len _ _ (go_prog _ _ _ Hg)). unfold MAX_RECLAIM_PROG_ENTRY in *. lia.
Qed.
Lemma take_ids i p : take NPROG (gc_prog s) !! i = Some p → rpe_id p ∈ fs → ∃ x, gc_ios s !! rpe_id p = Some x ∧ Z.to_nat (si_index x) = i ∧ p = {| rpe_xid := si_xid x; rpe_batchno := si_batchno x; rpe_id := rpe_id p |}.
Proof.
  intros [Hp _]%lookup_take_Some Hf. destruct (proj2 Hsv i p Hp Hf) as (x & Hx & Hi). exists x. split; [done|]. split; [done|]. destruct (saved_at _ x Hf Hx) as [_ [Hs _]%lookup_take_Some]. rewrite Hi, Hp in Hs. congruence.
Qed.
Lemma restart_ios r x : r ∈ fs → gc_ios s !! r = Some x → scan.1.2 !! r = Some (si_with (si_xid x) (si_batchno x) (si_index x) 0).
Proof.
  intros Hr Hx. destruct (saved_at r x Hr Hx) as [Hi Hs]. rewrite (prog_scan_found _ r _ 0 ios0 0 _ Hr Hs); [|done|..].
  - cbn. by rewrite Z2Nat.id.
  - intros k q Hq Hqr. rewrite <-Hqr in Hr. destruct (take_ids k q Hq Hr) as (y & Hy & Hk & _). rewrite Hqr, Hx in Hy. injection Hy as <-. done.
  - by intros y ->%ios0_flags.
Qed.
Lemma restart_max : (∀ r x, r ∈ fs → gc_ios s !! r = Some x → si_batchno x ≤ scan.2) ∧ ∃ r x, r ∈ fs ∧ gc_ios s !! r = Some x ∧ scan.2 = si_batchno x.
Proof.
  destruct (prog_scan_max (take NPROG (gc_prog s)) 0 ios0 0) as (Hm & Hle & Hex).
  assert (Hall : ∀ r x, r ∈ fs → gc_ios s !! r = Some x → si_batchno x ≤ scan.2). { intros r x Hr Hx. destruct (saved_at r x Hr Hx) as [_ Hs]. apply (Hle _ (list_elem_of_lookup_2 _ _ _ Hs) Hr). }
  split; [done|]. cbv zeta in *. destruct Hex as [Hz|(p & [i Hi]%list_elem_of_lookup_1 & Hf & ->)].
  - assert (∃ r, r ∈ fs) as [r Hr] by (destruct fs as [|r l]; [done|]; exists r; by left). destruct (go_ios _ _ _ Hg r Hr) as (x & Hx & ? & _). exists r, x. split; [done|]. split; [done|].
    pose proof (Hall r x Hr Hx). lia.
  - destruct (take_ids i p Hi Hf) as (x & Hx & _ & Hp). exists (rpe_id p), x. split; [done|]. split; [done|]. by rewrite Hp.
Qed.
Definition restarted : gcst :=
  {| gc_logs := gc_logs s; gc_cur_batchno := gc_cur_batchno s; gc_cur_xid := gc_cur_xid s; gc_sync_xid := 0; gc_handle := None; gc_offset := 0;
     gc_buf := scan.1.1 ++ replicate (NPROG - length scan.1.1) prog0; gc_prog := scan.1.1 ++ drop NPROG (gc_prog s); gc_ios := scan.1.2 |}.
Lemma restarted_ios r y : r ∈ fs → gc_ios restarted !! r = Some y → ∃ x, gc_ios s !! r = Some x ∧ y = si_with (si_xid x) (si_batchno x) (si_index x) 0.
Proof. intros Hr Hy. destruct (go_ios _ _ _ Hg r Hr) as (x & Hx & _). exists x. split; [done|]. cbn in Hy. rewrite (restart_ios r x Hr Hx) in Hy. congruence. Qed.
(** What the buffer and the file have of a system. *)
Lemma restarted_at r x (l : list reclaim_prog_entry) : r ∈ fs → gc_ios s !! r = Some x → (scan.1.1 ++ l) !! Z.to_nat (si_index x) = Some {| rpe_xid := si_xid x; rpe_batchno := si_batchno x; rpe_id := r |}.
Proof.
  intros Hr Hx. destruct (saved_at r x Hr Hx) as [_ Hs]. rewrite prog_scan_entries. apply lookup_app_l_Some. rewrite list_lookup_fmap, Hs. cbn. f_equal. unfold cleared. cbn. by rewrite decide_True.
Qed.
Lemma restarted_entry i p : scan.1.1 !! i = Some p → rpe_id p ∈ fs → ∃ x, gc_ios restarted !! rpe_id p = Some x ∧ Z.to_nat (si_index x) = i.
Proof.
  rewrite prog_scan_entries, list_lookup_fmap. intros (q & Hq & ->)%fmap_Some. rewrite cleared_id. intros Hf. destruct (take_ids i q Hq Hf) as (x & Hx & Hi & _). eexists. split; [by apply restart_ios|done].
Qed.
Lemma restarted_prog : prog_ok fs restarted.
Proof.
  split.
  - intros r y Hr Hy. destruct (restarted_ios r y Hr Hy) as (x & Hx & ->). destruct (saved_at r x Hr Hx) as [Hi _]. split; [done|]. eexists. split; [cbn; by apply (restarted_at r x)|]. by right.
  - intros r r' y y' Hr Hr' Hy Hy'. destruct (restarted_ios r y Hr Hy) as (x & Hx & ->). destruct (restarted_ios r' y' Hr' Hy') as (x' & Hx' & ->). by apply (po_inj _ _ (go_prog _ _ _ Hg) r r' x x').
  - cbn. rewrite length_app, length_replicate, prog_scan_entries, length_fmap, length_take. unfold MAX_RECLAIM_PROG_ENTRY. lia.
  - intros i p. cbn. intros [Hp|[_ Hp]]%lookup_app_Some Hf; [by apply restarted_entry|]. apply lookup_replicate_1 in Hp as [-> _]. done.
Qed.
Lemma restarted_ok : gok fs restarted H ∧ all_saved fs restarted.
Proof.
  split.
  - destruct Hg as [Hc Hs Hh Hla Hf Ho Hfile Hhd Hk Hi Hp]. split; try done.
    + intros b Hb. destruct (Hk b Hb) as [?|[? Hall]]; [by left|right]. split; [done|]. intros r Hr. destruct (Hall r Hr) as (x & Hx & ?). eexists. split; [by apply restart_ios|done].
    + intros r Hr. destruct (Hi r Hr) as (x & Hx & ? & ?). eexists. split; [by apply restart_ios|done].
    + apply restarted_prog.
  - split.
    + intros r y Hr Hy. destruct (restarted_ios r y Hr Hy) as (x & Hx & ->). right. unfold saved. cbn. by apply (restarted_at r x).
    + intros i p. cbn. intros [Hp|[Hge Hp]]%lookup_app_Some Hf; [by apply restarted_entry|]. rewrite lookup_drop in Hp. rewrite prog_scan_entries, length_fmap, length_take in *.
      destruct (proj2 Hsv _ p Hp Hf) as (x & Hx & Hix). eexists. split; [by apply restart_ios|]. cbn. rewrite Hix. pose proof (lookup_lt_Some _ _ _ Hp). lia.
Qed.
(** The last file gives the current batch and transaction. *)
Definition last_file s0 (batchno : Z) : option (Z * Z) :=
  f ← gc_logs s0 !! batchno;
  let size := lf_size f in
  if (size =? 0) then Some (batchno, 0)
  else Some (if (size - R_ENTSZ) / R_ENTSZ >=? SLM_RECLAIM_BATCH_NENTS - 1 then batchno + 1 else batchno, from_option re_xid 0 (last (tail (lf_ents f)))).
Lemma file_full b f : gc_logs s !! b = Some f → ents_of H b ≠ [] → lf_ents f = RECLAIM_MAGIC :: ents_of H b ∧ lf_size f = (Z.of_nat (length (ents_of H b)) + 1) * R_ENTSZ.
Proof.
  intros Hf Hb. destruct (go_file _ _ _ Hg b f Hf) as (_ & Hx & [Hm|[_ ?]]); [|done]. split; [done|]. unfold lf_size. rewrite Hx, Hm. cbn [length]. lia.
Qed.
Lemma last_file_full b f e : gc_logs s !! b = Some f → last H = Some (b, e) → last_file s b = Some (gc_cur_batchno s, gc_cur_xid s).
Proof.
  intros Hf Hlast. pose proof (last_ents H b e Hlast) as He. assert (Hb : ents_of H b ≠ []) by (intros Hn; by rewrite Hn in He). destruct (file_full b f Hf Hb) as [Hm Hsz].
  unfold last_file. rewrite Hf. cbn [mbind option_bind]. cbv zeta. rewrite Hsz, Hm. cbn [tail]. rewrite He. cbn [from_option]. destruct (Z.eqb_spec ((Z.of_nat (length (ents_of H b)) + 1) * R_ENTSZ) 0); [unfold R_ENTSZ in *; lia|].
  replace ((Z.of_nat (length (ents_of H b)) + 1) * R_ENTSZ - R_ENTSZ) with (Z.of_nat (length (ents_of H b)) * R_ENTSZ) by lia. rewrite Z.div_mul by done. f_equal. f_equal; [|by rewrite (go_last _ _ _ Hg), Hlast].
  rewrite Z.geb_leb. destruct (last_batch s H b e Hg Hlast) as [[-> _]|[-> _]].
  - pose proof (go_open _ _ _ Hg). destruct (Z.leb_spec (SLM_RECLAIM_BATCH_NENTS - 1) (Z.of_nat (length (ents_of H (gc_cur_batchno s))))); lia.
  - destruct (go_hist _ _ _ Hg (gc_cur_batchno s - 1) e) as [? _]; [rewrite last_lookup in Hlast; by apply list_elem_of_lookup_2 in Hlast|]. rewrite (go_full _ _ _ Hg) by lia. rewrite Z.leb_refl. lia.
Qed.
(** A server that has reached a batch without a file: the start ends at once. *)
Lemma restart_stuck fuel : Z.of_nat (length fs) ≤ MAX_RECLAIM_PROG_ENTRY → (∃ r x, r ∈ fs ∧ gc_ios s !! r = Some x ∧ si_batchno x = gc_cur_batchno s) → gc_logs s !! gc_cur_batchno s = None →
  faults Assertion (mds_journal_init fs (S fuel)) s.
Proof.
  intros Hlen (r & x & Hr & Hx & Hb) Hnone. destruct restart_max as [Hmax (r1 & x1 & Hr1 & Hx1 & Hm)]. pose proof (Hmax r x Hr Hx). destruct (go_ios _ _ _ Hg r1 Hr1) as (y & Hy & Hbd & _). rewrite Hx1 in Hy. injection Hy as <-.
  unfold mds_journal_init. apply faults_bind. wp_step. apply faults_bind. wp_step; [by rewrite bool_decide_eq_false_2|]. apply faults_bind. wp_step; [by apply Z.leb_le|]. cbv zeta.
  destruct scan as [[entries ios] lwm]. cbn [fst snd] in *. assert (lwm = gc_cur_batchno s) as -> by lia. apply faults_bind. wp_step. apply faults_bind. cbn [scan_logs]. wp_step. unfold wp at 1, open_logfile_ro. cbn [gc_logs]. rewrite Hnone.
  change (negb (ENOENT =? 0)) with true. cbv beta iota. wp_step. rewrite Z.gtb_ltb, Z.ltb_irrefl, Hnone. done.
Qed.
(** The file that the scan ends at. *)
Context (Hrb : restartable s).
Lemma restart_file : cur_file s H → ∃ top, scan.2 ≤ top ∧ top ≤ gc_cur_batchno s + 1 ∧ (∀ c, scan.2 ≤ c < top → is_Some (gc_logs s !! c)) ∧ gc_logs s !! top = None ∧
  last_file s (if top >? scan.2 then top - 1 else top) = Some (gc_cur_batchno s, gc_cur_xid s).
Proof.
  intros Hcf. destruct restart_max as [Hmax (r & x & Hr & Hx & Hm)]. destruct (go_ios _ _ _ Hg r Hr) as (x0 & Hx0 & Hbx & _). rewrite Hx in Hx0. injection Hx0 as <-. rewrite Hm.
  assert (Hall : ∀ c, si_batchno x ≤ c < gc_cur_batchno s → is_Some (gc_logs s !! c)).
  { intros c Hc. destruct (go_kept _ _ _ Hg c) as [?|[_ Hp]]; [|done|destruct (Hp r Hr) as (y & Hy & ?); rewrite Hx in Hy; injection Hy as <-; lia].
    pose proof (go_full _ _ _ Hg c ltac:(lia)) as Hf. intros Hn. by rewrite Hn in Hf. }
  assert (Hnext : gc_logs s !! (gc_cur_batchno s + 1) = None) by (destruct (gc_logs s !! (gc_cur_batchno s + 1)) as [f|] eqn:Hf; [destruct (go_file _ _ _ Hg _ _ Hf); lia|done]).
  destruct (gc_logs s !! gc_cur_batchno s) as [f|] eqn:Hf.
  - exists (gc_cur_batchno s + 1). split; [lia|]. split; [lia|]. split; [intros c Hc; destruct (decide (c = gc_cur_batchno s)) as [->|]; [by rewrite Hf|apply Hall; lia]|]. split; [done|].
    rewrite Z.gtb_ltb. destruct (Z.ltb_spec (si_batchno x) (gc_cur_batchno s + 1)); [|lia]. rewrite Z.add_simpl_r. destruct (last H) as [[b e]|] eqn:Hlast.
    + destruct (last_batch s H b e Hg Hlast) as [[-> _]|[_ Hnil]]; [by apply (last_file_full _ f e)|]. destruct (Hcf f Hf Hnil) as [-> _]. done.
    + apply last_None in Hlast. rewrite Hlast in *. destruct (Hcf f Hf eq_refl) as [_ Hempty]. destruct (go_file _ _ _ Hg _ _ Hf) as (_ & Hxt & _). unfold last_file. rewrite Hf. cbn. unfold lf_size. rewrite Hempty, Hxt. cbn. rewrite (go_last _ _ _ Hg). done.
  - exists (gc_cur_batchno s). split; [lia|]. split; [lia|]. split; [done|]. split; [done|]. destruct (rb_file _ Hrb) as [Hlt|[? ?]]; [|congruence]. specialize (Hlt r x Hr Hx). rewrite Z.gtb_ltb.
    destruct (Z.ltb_spec (si_batchno x) (gc_cur_batchno s)); [|lia]. destruct (Hall (gc_cur_batchno s - 1)) as [f Hf']; [lia|]. destruct (last H) as [[b e]|] eqn:Hlast.
    + destruct (last_batch s H b e Hg Hlast) as [[-> [? ?]]|[-> _]]; [congruence|]. by apply (last_file_full _ f e).
    + apply last_None in Hlast. pose proof (go_full _ _ _ Hg (gc_cur_batchno s - 1) ltac:(lia)) as Hfl. by rewrite Hlast in Hfl.
Qed.
Lemma wp_restart fuel (K : unit → gcst → Prop) : cur_file s H → Z.of_nat (length fs) ≤ MAX_RECLAIM_PROG_ENTRY → (Z.to_nat (gc_cur_batchno s) + 1 < fuel)%nat → K tt restarted → wp (mds_journal_init fs fuel) K s.
Proof.
  intros Hcf Hlen Hfuel HK. destruct (restart_file Hcf) as (top & Hlo & Hhi & Hall & Hnone & Hlast). unfold mds_journal_init. wp_step. wp_step. wp_step. wp_step; [by rewrite bool_decide_eq_false_2|].
  wp_step. wp_step; [by apply Z.leb_le|]. cbv zeta. destruct restart_max as [_ (r0 & x0 & Hr0 & Hx0 & Hm0)]. destruct (go_ios _ _ _ Hg r0 Hr0) as (y0 & Hy0 & Hb0 & _). rewrite Hx0 in Hy0. injection Hy0 as <-.
  unfold restarted in HK. pose proof restart_ios as Hios. destruct scan as [[entries ios] lwm]. cbn [fst snd] in *. wp_step. wp_step.
  wp_step. apply (wp_scan_logs _ _ top); [done|done|lia|lia|]. unfold last_file in Hlast. destruct (gc_logs s !! (if top >? lwm then top - 1 else top)) as [f|] eqn:Hf; [|done]. cbn [mbind option_bind] in Hlast. cbv zeta in Hlast.
  assert (Hfile : lf_size f = 0 ∨ head (lf_ents f) = Some RECLAIM_MAGIC ∧ (lf_size f - R_ENTSZ) mod R_ENTSZ = 0).
  { destruct (go_file _ _ _ Hg _ _ Hf) as (_ & Hx & [Hm|[Hm _]]); [right|left; unfold lf_size; by rewrite Hm, Hx]. rewrite Hm. split; [done|]. unfold lf_size. rewrite Hx, Hm.
    replace (_ - R_ENTSZ) with (Z.of_nat (length (ents_of H (if top >? lwm then top - 1 else top))) * R_ENTSZ) by (cbn [length]; lia). by apply Z.mod_mul. }
  cbv zeta. assert (Hend : ∀ r, r ∈ fs → ∃ x, ios !! r = Some x ∧ hasf (si_flags x) SIF_NEED_JRNL_INIT = false ∧ ¬ (si_xid x = 0 ∧ si_batchno x = 0)).
  { intros r Hr. destruct (go_ios _ _ _ Hg r Hr) as (x & Hx & _). eexists. split; [by apply (Hios r x)|]. split; [done|]. by apply (rb_recorded _ Hrb r x). }
  destruct (Z.eqb_spec (lf_size f) 0) as [Hz|Hz]; cbn [negb andb whenM]; injection Hlast as Hcur Hxid.
  - wp_step. wp_step. wp_step. wp_step. wp_step. wp_step. apply wp_init_new; unfold gc_with_cur; cbn; [done|rewrite Hcur; by rewrite <-Hxid in HK].
  - destruct Hfile as [?|[? ?]]; [done|]. wp_step. wp_step; [by apply bool_decide_eq_true_2|]. wp_step. wp_step; [by apply Z.eqb_eq|]. wp_step. wp_step. apply wp_init_new; unfold gc_with_cur; cbn; [done|by rewrite Hcur, Hxid].
Qed.
End restart.

(** ** The first start *)
Definition fresh_si (j : nat) : rpmi_ios := si_with 0 0 (Z.of_nat j) SIF_NEW_PROG_ENTRY.
Lemma wp_init_fresh (K : unit → gcst → Prop) l : ∀ p s, gc_cur_batchno s = 0 → gc_cur_xid s = 0 → NoDup (p ++ l) → (∀ j r, p !! j = Some r → gc_ios s !! r = Some (fresh_si j)) →
  (∀ r, r ∈ l → gc_ios s !! r = Some slcfg_init_si) →
  (∀ ios, (∀ j r, (p ++ l) !! j = Some r → ios !! r = Some (fresh_si j)) → K tt (gc_with_ios s ios)) → wp (init_new l (Z.of_nat (length p))) K s.
Proof.
  induction l as [|r l IH]; intros p s Hb Hx Hnd Hp Hl HK; cbn [init_new].
  { wp_step. rewrite app_nil_r in HK. specialize (HK (gc_ios s) Hp). by destruct s. }
  wp_step. wp_step. wp_step. apply (wp_getSi r slcfg_init_si); [apply Hl; by left|]. rewrite Hb, Hx. cbv zeta. change (negb (hasf _ SIF_NEED_JRNL_INIT)) with false. cbv iota. wp_step. unfold setSi. wp_step.
  replace (Z.of_nat (length p) + 1) with (Z.of_nat (length (p ++ [r]))) by (rewrite length_app; cbn; lia).
  assert (Hr : r ∉ p ++ l) by (apply NoDup_app in Hnd as (_ & Hd & [? _]%NoDup_cons); intros [Hin|?]%elem_of_app; [apply (Hd r Hin); by left|done]).
  apply IH; [done|done|by rewrite <-app_assoc|..].
  - intros j c Hj. cbn. destruct (decide (c = r)) as [->|Hne].
    + rewrite lookup_insert_eq. apply lookup_app_Some in Hj as [Hj|[Hge Hj]]; [by destruct Hr; apply elem_of_app; left; apply list_elem_of_lookup_2 in Hj|]. apply list_lookup_singleton_Some in Hj as [? _]. by assert (j = length p) as -> by lia.
    + rewrite lookup_insert_ne by done. apply lookup_app_Some in Hj as [Hj|[Hge Hj]]; [by apply Hp|]. apply list_lookup_singleton_Some in Hj as [_ ?]. congruence.
  - intros c Hc. cbn. rewrite lookup_insert_ne; [apply Hl; by right|]. intros ->. apply Hr. apply elem_of_app. by right.
  - intros ios. rewrite <-app_assoc. cbn [app]. intros Hios. specialize (HK ios Hios). by destruct s.
Qed.
Lemma fresh_ok s : NoDup fs → 0 ∉ fs → Z.of_nat (length fs) ≤ MAX_RECLAIM_PROG_ENTRY →
  gc_logs s = {[0 := {| lf_ents := []; lf_extra := 0 |}]} → gc_cur_batchno s = 0 → gc_cur_xid s = 0 → gc_handle s = None → gc_buf s = replicate NPROG prog0 → gc_prog s = [] →
  (∀ j r, fs !! j = Some r → gc_ios s !! r = Some (fresh_si j)) → gok fs s [] ∧ all_saved fs s ∧ cur_file s [].
Proof.
  intros Hnd H0 Hlen Hl Hb Hx Hh Hbuf Hprog Hios. assert (Hsi : ∀ r, r ∈ fs → ∃ j, fs !! j = Some r ∧ gc_ios s !! r = Some (fresh_si j)) by (intros r [j Hj]%list_elem_of_lookup_1; eauto).
  split; [split|split].
  - lia.
  - constructor.
  - by intros b e ?%elem_of_nil.
  - done.
  - intros b ?. lia.
  - done.
  - rewrite Hl, Hb. intros b f [<- <-]%lookup_singleton_Some. split; [lia|]. split; [done|]. by right.
  - congruence.
  - done.
  - intros r Hr. destruct (Hsi r Hr) as (j & _ & Hj). exists (fresh_si j). rewrite Hb, Hx. split; [done|]. cbn. lia.
  - split.
    + intros r x Hr Hxr. destruct (Hsi r Hr) as (j & Hj & Hxj). rewrite Hxr in Hxj. injection Hxj as ->. split; [cbn; lia|]. exists prog0. rewrite Hbuf. cbn. rewrite Nat2Z.id. apply lookup_lt_Some in Hj. split; [apply lookup_replicate_2; unfold MAX_RECLAIM_PROG_ENTRY in *; lia|by left].
    + intros r r' x x' Hr Hr' Hxr Hxr'. destruct (Hsi r Hr) as (j & Hj & Hxj). destruct (Hsi r' Hr') as (j' & Hj' & Hxj'). rewrite Hxr in Hxj. rewrite Hxr' in Hxj'. injection Hxj as ->. injection Hxj' as ->. cbn. intros ?%Nat2Z.inj. congruence.
    + rewrite Hbuf, length_replicate. done.
    + intros i p. rewrite Hbuf. intros [-> _]%lookup_replicate_1 Hf. done.
  - split; [|intros i p; by rewrite Hprog]. intros r x Hr Hxr. destruct (Hsi r Hr) as (j & _ & Hxj). rewrite Hxr in Hxj. injection Hxj as ->. by left.
  - intros f. rewrite Hl, Hb. intros [_ <-]%lookup_singleton_Some _. done.
Qed.
Lemma wp_first fuel (K : unit → gcst → Prop) : NoDup fs → fs ≠ [] → 0 ∉ fs → Z.of_nat (length fs) ≤ MAX_RECLAIM_PROG_ENTRY → (1 < fuel)%nat →
  (∀ s, gok fs s [] → all_saved fs s → cur_file s [] → K tt s) → wp (mds_journal_init fs fuel) K newfs.
Proof.
  intros Hnd Hne H0 Hlen Hfuel HK. unfold mds_journal_init. wp_step. wp_step. wp_step. wp_step; [by rewrite bool_decide_eq_false_2|]. wp_step. wp_step; [by apply Z.leb_le|]. cbv zeta.
  cbn [gc_prog gc_logs newfs]. rewrite take_nil, drop_nil. cbn [prog_scan]. rewrite Nat.sub_0_r. cbn [app]. wp_step. wp_step. wp_step. apply (wp_scan_logs _ _ 1); [|done|lia|lia|].
  { intros c Hc. assert (c = 0) as -> by lia. by eexists. }
  change (1 >? 0) with true. cbv iota. change (1 - 1) with 0. rewrite lookup_singleton_eq. change (lf_size _ =? 0) with true. cbn [negb whenM andb]. wp_step. wp_step. wp_step. wp_step. wp_step. wp_step. apply (wp_init_fresh _ fs []); try done.
  - intros r Hr. cbn. apply elem_of_list_to_map_1; [by rewrite <-list_fmap_compose; cbn; rewrite list_fmap_id|]. by apply (list_elem_of_fmap_2' (λ r, (r, slcfg_init_si)) fs r).
  - intros ios Hios. destruct (fresh_ok (gc_with_ios (gc_with_cur {| gc_logs := {[0 := {| lf_ents := []; lf_extra := 0 |}]}; gc_cur_batchno := 0; gc_cur_xid := 0; gc_sync_xid := 0; gc_handle := None; gc_offset := 0;
      gc_buf := replicate NPROG prog0; gc_prog := []; gc_ios := ios0 |} 0 0 0) ios)) as (? & ? & ?); try done. by apply HK.
Qed.
End init.
