(* ===== verification/ReclaimSys.v ===== *)
(** * The metadata server and its I/O servers, reclaiming

    Runs of the whole: records are logged, backing files are made, batches are
    sent, handled (also late, and more than once) and answered, garbage
    collection is switched off and on, old log files are removed and the
    metadata server is started again. *)
From S2P Require Import Prelude Reclaim ReclaimInv ReclaimStep ReclaimInit.

(** ** Watermarks *)
Section marks.
Context (fs : list Z).
Abbreviation takes s r x bn v := (gc_ios s !! r = Some x ∧ hasf (si_flags x) SIF_DISABLE_GC = false ∧ v = si_mark bn x).
Lemma wp_lwm_loop s bn (K : Z → gcst → Prop) l : ∀ v, (∀ r, r ∈ l → is_Some (gc_ios s !! r)) →
  (∀ v', v' ≤ v → (∀ r x, r ∈ l → gc_ios s !! r = Some x → hasf (si_flags x) SIF_DISABLE_GC = false → v' ≤ si_mark bn x) → (v' = v ∨ ∃ r x, r ∈ l ∧ takes s r x bn v') → K v' s) →
  wp (lwm_loop bn l v) K s.
Proof.
  induction l as [|r l IH]; intros v Hall HK; cbn [lwm_loop]; [wp_step; apply HK; [done|by intros r x ?%elem_of_nil|by left]|]. destruct (Hall r) as [x Hx]; [by left|]. wp_step. apply (wp_getSi r x); [done|].
  apply IH; [intros c Hc; apply Hall; by right|]. intros v' Hv' Hle Hex. apply HK.
  - destruct (hasf _ _); [done|]. destruct (Z.ltb_spec (si_mark bn x) v); lia.
  - intros c y [->|Hc]%elem_of_cons Hy Hd; [|by apply (Hle c y)]. rewrite Hx in Hy. injection Hy as <-. rewrite Hd in Hv'. destruct (Z.ltb_spec (si_mark bn x) v); lia.
  - destruct Hex as [->|(c & y & ? & ?)]; [|right; exists c, y; split; [by right|done]]. destruct (hasf (si_flags x) SIF_DISABLE_GC) eqn:Hd; [by left|]. destruct (si_mark bn x <? v); [|by left]. right. exists r, x. split; [by left|done].
Qed.
Lemma wp_lwm s bn (K : Z → gcst → Prop) : (∀ r, r ∈ fs → is_Some (gc_ios s !! r)) →
  (∃ r x, r ∈ fs ∧ gc_ios s !! r = Some x ∧ hasf (si_flags x) SIF_DISABLE_GC = false ∧ si_mark bn x < UINT64_MAX) →
  (∀ v, (∀ r x, r ∈ fs → gc_ios s !! r = Some x → hasf (si_flags x) SIF_DISABLE_GC = false → v ≤ si_mark bn x) → (∃ r x, r ∈ fs ∧ takes s r x bn v) → K v s) →
  wp (mds_reclaim_lwm fs bn) K s.
Proof.
  intros Hall (r0 & x0 & Hr0 & Hx0 & Hd0 & Hlt) HK. unfold mds_reclaim_lwm. wp_step. apply wp_lwm_loop; [done|]. intros v Hv Hle Hex. pose proof (Hle r0 x0 Hr0 Hx0 Hd0). wp_step.
  wp_step; [apply negb_true_iff, Z.eqb_neq; lia|]. wp_step. apply HK; [done|]. destruct Hex as [->|?]; [lia|done].
Qed.
Lemma wp_hwm s bn (K : Z → gcst → Prop) : (∀ r, r ∈ fs → is_Some (gc_ios s !! r)) →
  (∀ v, 0 ≤ v → (∀ r x, r ∈ fs → gc_ios s !! r = Some x → si_mark bn x ≤ v) → (v = 0 ∨ ∃ r x, r ∈ fs ∧ gc_ios s !! r = Some x ∧ v = si_mark bn x) → K v s) → wp (mds_reclaim_hwm fs bn) K s.
Proof.
  intros Hall HK. unfold mds_reclaim_hwm. assert (Hloop : ∀ l v, (∀ r, r ∈ l → is_Some (gc_ios s !! r)) →
    (∀ v', v ≤ v' → (∀ r x, r ∈ l → gc_ios s !! r = Some x → si_mark bn x ≤ v') → (v' = v ∨ ∃ r x, r ∈ l ∧ gc_ios s !! r = Some x ∧ v' = si_mark bn x) → K v' s) → wp (hwm_loop bn l v) K s); [|by apply Hloop].
  clear HK. induction l as [|r l IH]; intros v Hl HK; cbn [hwm_loop]; [wp_step; apply HK; [done|by intros r x ?%elem_of_nil|by left]|]. destruct (Hl r) as [x Hx]; [by left|]. wp_step. apply (wp_getSi r x); [done|].
  rewrite Z.gtb_ltb. apply IH; [intros c Hc; apply Hl; by right|]. intros v' Hv' Hle Hex. apply HK.
  - destruct (Z.ltb_spec v (si_mark bn x)); lia.
  - intros c y [->|Hc]%elem_of_cons Hy; [|by apply (Hle c y)]. rewrite Hx in Hy. injection Hy as <-. destruct (Z.ltb_spec v (si_mark bn x)); lia.
  - destruct Hex as [->|(c & y & ? & ?)]; [|right; exists c, y; split; [by right|done]]. destruct (v <? si_mark bn x); [|by left]. right. exists r, x. split; [by left|done].
Qed.
End marks.

(** ** An I/O server handles a request *)
Section iod.
Context {pm : PflMtu} {pml : PflMtuLaws}.
Lemma wp_reclaim_files unlink (K : Z → iost → Prop) l : ∀ s rc,
  (∀ s' rc', ri_files s' ⊆ ri_files s → (∀ f, f ∈ ri_files s → f ∉ ri_files s' → f ∈ re_fg <$> l) → (rc' = 0 → rc = 0 ∧ ∀ e, e ∈ l → re_fg e ∉ ri_files s') →
     ((∀ e, e ∈ l → unlink (re_fg e) = 0) → rc' = rc) → K rc' s') →
  wp (reclaim_files l unlink rc) K s.
Proof.
  induction l as [|e l IH]; intros s rc HK; cbn [reclaim_files]; [wp_step; apply HK; [done|done|intros ->; split; [done|by intros e ?%elem_of_nil]|done]|]. wp_step. wp_step. wp_step. wp_step. cbn [ri_files].
  case_bool_decide as Hin.
  { apply IH. intros s' rc' Hsub Hrem Hok Hno. cbn [ri_files] in *. apply HK; [done|intros f Hf Hn; right; by apply Hrem| |intros Hu; apply Hno; intros c Hc; apply Hu; by right].
    intros Hz. destruct (Hok Hz) as [? Hall]. split; [done|]. intros c [->|Hc]%elem_of_cons; [by intros ?%Hsub|by apply Hall]. }
  destruct (Z.eqb_spec (unlink (re_fg e)) 0) as [Hu0|Hu0]; cbn [negb].
  - wp_step. wp_step. apply IH. intros s' rc' Hsub Hrem Hok Hno. cbn [ri_files] in *. apply HK; [by intros f [? _]%Hsub%elem_of_difference| | |intros Hu; apply Hno; intros c Hc; apply Hu; by right].
    + intros f Hf Hn. destruct (decide (f = re_fg e)) as [->|Hne]; [by left|]. right. apply Hrem; [|done]. by apply elem_of_difference; rewrite elem_of_singleton.
    + intros Hz. destruct (Hok Hz) as [? Hall]. split; [done|]. intros c [->|Hc]%elem_of_cons; [|by apply Hall]. intros [_ Hn]%Hsub%elem_of_difference. apply Hn. by apply elem_of_singleton.
  - apply IH. intros s' rc' Hsub Hrem Hok Hno. cbn [ri_files] in *. apply HK; [done|intros f Hf Hn; right; by apply Hrem| |intros Hu; by specialize (Hu e ltac:(by left))].
    intros Hz. destruct (Hok Hz) as [Hneg _]. lia.
Qed.
Lemma wp_handle s xid b bulk unlink l (K : Z * Z → iost → Prop) : 0 < Z.of_nat (length l) < SLM_RECLAIM_BATCH_NENTS →
  (∀ x s', ri_files s' ⊆ ri_files s → (∀ f, f ∈ ri_files s → f ∉ ri_files s' → f ∈ re_fg <$> l) → (x = (0, 0) → ∀ e, e ∈ l → re_fg e ∉ ri_files s') →
     (bulk = 0 → (∀ e, e ∈ l → unlink (re_fg e) = 0) → x = (0, 0)) → K x s') →
  wp (sli_rim_handle_reclaim (R_ENTSZ * Z.of_nat (length l)) (Z.of_nat (length l)) xid b bulk l unlink) K s.
Proof.
  intros Hlen HK. pose proof mtu_batch. unfold sli_rim_handle_reclaim. rewrite Z.gtb_ltb. destruct (Z.ltb_spec (R_ENTSZ * Z.of_nat (length l)) R_ENTSZ); [unfold R_ENTSZ in *; lia|].
  destruct (Z.ltb_spec LNET_MTU_GC (R_ENTSZ * Z.of_nat (length l))); [unfold R_ENTSZ in *; lia|]. cbn [orb]. rewrite Z.mul_comm, Z.div_mul, Z.eqb_refl by done. cbn [negb]. wp_step. wp_step.
  destruct (Z.eqb_spec bulk 0) as [Hb|Hb]; cbn [negb].
  - rewrite Nat2Z.id, firstn_all. wp_step. apply wp_reclaim_files. intros s' rc' Hsub Hrem Hok Hno. cbn [ri_files] in *. wp_step. apply HK; [done|done| |].
    + intros [= ->]. by apply Hok.
    + intros _ Hu. by rewrite (Hno Hu).
  - wp_step. apply HK; cbn [ri_files]; [done|done| |done]. intros [= ->]. done.
Qed.
End iod.

(** ** Runs *)

(** A message: the transaction of the batch, the receiver, the batch and the
    records. *)
Abbreviation gmsg := (Z * (Z * Z * list srt_reclaim_entry))%type.
(** The whole: what was logged, the batch that is on its way with the systems
    that have handled it without an error, and all messages ever sent. *)
Record rsys := { z_sys : gsys; z_hist : hist; z_flight : option (gc_send * list Z); z_msgs : list gmsg }.
Abbreviation Sys s iod H fl ms := {| z_sys := {| y_mds := s; y_iod := iod |}; z_hist := H; z_flight := fl; z_msgs := ms |}.
Definition add_file (i : iost) (f : fidgen) : iost := {| ri_xid := ri_xid i; ri_batchno := ri_batchno i; ri_files := {[f]} ∪ ri_files i; ri_open := {[f]} ∪ ri_open i |}.
(** [slmctl_resfieldi_disable_gc] *)
Definition disable_gc (on : bool) (x : rpmi_ios) : rpmi_ios :=
  si_with (si_xid x) (si_batchno x) (si_index x) (if on then setf (si_flags x) SIF_DISABLE_GC else clrf (si_flags x) SIF_DISABLE_GC).

(** Enough for the search of the last log file. *)
Definition scan_fuel (s : gcst) : nat := Z.to_nat (gc_cur_batchno s) + 2.
Lemma some_elem (l : list Z) : l ≠ [] → ∃ r, r ∈ l.
Proof. destruct l as [|r l]; [done|]. exists r. by left. Qed.

Section runs.
Context {pm : PflMtu} {pml : PflMtuLaws} (fs : list Z).
Inductive rstep : rsys → rsys → Prop :=
| r_log s s' iod H fl ms xid fg next : gc_cur_xid s < xid → mds_write_logentry xid fg next s = Done (tt, s') →
    rstep (Sys s iod H fl ms) (Sys s' iod (H ++ [(gc_cur_batchno s, {| re_xid := xid; re_fg := fg |})]) fl ms)
| r_create s iod H fl ms r i f : iod !! r = Some i → (∀ b e, (b, e) ∈ H → re_fg e ≠ f) → rstep (Sys s iod H fl ms) (Sys s (<[r := add_file i f]> iod) H fl ms)
| r_begin s s' iod H ms b net res : 0 ≤ b → reclaim_begin fs b net s = Done (res, s') →
    rstep (Sys s iod H None ms) (Sys s' iod H (match res with inl _ => None | inr g => Some (g, []) end) (ms ++ match res with inl _ => [] | inr g => (λ m, (gs_xid g, m)) <$> gs_sent g end))
| r_handle s iod iod' H g dn ms r b l bulk unlink x : (r, b, l) ∈ gs_sent g → reclaim_deliver (gs_xid g) r b l bulk unlink {| y_mds := s; y_iod := iod |} = Done (x, {| y_mds := s; y_iod := iod' |}) →
    rstep (Sys s iod H (Some (g, dn)) ms) (Sys s iod' H (Some (g, if decide (x = (0, 0)) then r :: dn else dn)) ms)
| r_late s iod iod' H fl ms xid r b l bulk unlink x : (xid, (r, b, l)) ∈ ms → reclaim_deliver xid r b l bulk unlink {| y_mds := s; y_iod := iod |} = Done (x, {| y_mds := s; y_iod := iod' |}) →
    rstep (Sys s iod H fl ms) (Sys s iod' H fl ms)
| r_end s s' iod H g dn ms st res : (∀ r, r ∈ recv g → st r = 0 → r ∈ dn) → reclaim_end fs g st s = Done (res, s') → rstep (Sys s iod H (Some (g, dn)) ms) (Sys s' iod H None ms)
| r_disable s iod H fl ms r x on : gc_ios s !! r = Some x → rstep (Sys s iod H fl ms) (Sys (gc_with_ios s (<[r := disable_gc on x]> (gc_ios s))) iod H fl ms)
| r_cleanup s s' iod H ms b : (∀ r x, r ∈ fs → gc_ios s !! r = Some x → hasf (si_flags x) SIF_DISABLE_GC = true → b ≤ si_batchno x) → mds_reclaim_lwm fs true s = Done (b, s) → mds_remove_logfiles b s = Done (tt, s') →
    rstep (Sys s iod H None ms) (Sys s' iod H None ms)
| r_restart s s' iod H fl ms : restartable fs s → mds_journal_init fs (scan_fuel s) s = Done (tt, s') → rstep (Sys s iod H fl ms) (Sys s' iod H None ms).
Inductive rreach : rsys → Prop :=
| rr_init s iod : mds_journal_init fs (scan_fuel newfs) newfs = Done (tt, s) → (∀ r, r ∈ fs → is_Some (iod !! r)) → rreach (Sys s iod [] None [])
| rr_step z z' : rreach z → rstep z z' → rreach z'.

(** An I/O server has no file for a record that its progress is past. *)
Definition clean s (iod : gmap Z iost) (H : hist) : Prop := ∀ r, r ∈ fs → ∃ i, iod !! r = Some i ∧
  ∀ x b e, gc_ios s !! r = Some x → (b, e) ∈ H → b < si_batchno x ∨ re_xid e < si_xid x → re_fg e ∉ ri_files i.
Definition applied (iod : gmap Z iost) g (r : Z) : Prop := ∃ b l, (r, b, l) ∈ gs_sent g ∧ ∀ i e, iod !! r = Some i → e ∈ l → re_fg e ∉ ri_files i.
Record zinv z : Prop := {
  zi_gok : gok fs (y_mds (z_sys z)) (z_hist z);
  zi_saved : all_saved fs (y_mds (z_sys z));
  zi_cur : cur_file (y_mds (z_sys z)) (z_hist z);
  zi_clean : clean (y_mds (z_sys z)) (y_iod (z_sys z)) (z_hist z);
  zi_msgs : ∀ xid r b l, (xid, (r, b, l)) ∈ z_msgs z → r ∈ fs ∧ 0 < Z.of_nat (length l) < SLM_RECLAIM_BATCH_NENTS ∧ ∀ e, e ∈ l → ∃ b', (b', e) ∈ z_hist z;
  zi_flight : ∀ g dn, z_flight z = Some (g, dn) → (∃ D, flight fs (y_mds (z_sys z)) (z_hist z) g D) ∧ (∀ m, m ∈ gs_sent g → (gs_xid g, m) ∈ z_msgs z) ∧ ∀ r, r ∈ dn → applied (y_iod (z_sys z)) g r;
}.

(** The backing files of dead files only become fewer. *)
Definition fewer (iod iod' : gmap Z iost) (H : hist) : Prop := ∀ r i, iod !! r = Some i → ∃ i', iod' !! r = Some i' ∧ ∀ b e, (b, e) ∈ H → re_fg e ∈ ri_files i' → re_fg e ∈ ri_files i.
Lemma clean_fewer s iod iod' H : fewer iod iod' H → clean s iod H → clean s iod' H.
Proof. intros Hf Hc r Hr. destruct (Hc r Hr) as (i & Hi & Hcl). destruct (Hf r i Hi) as (i' & Hi' & Hsub). exists i'. split; [done|]. intros x b e Hx He Hp Hin. by apply (Hcl x b e Hx He Hp), (Hsub b). Qed.
Lemma applied_fewer s iod iod' H g D r : fewer iod iod' H → clean s iod H → flight fs s H g D → applied iod g r → applied iod' g r.
Proof.
  intros Hf Hc Hfl (b & l & Hm & Hr). exists b, l. split; [done|]. intros i' e Hi' He Hin. destruct (fl_sent _ _ _ _ _ Hfl r b l Hm) as (_ & _ & Hel & _).
  assert (r ∈ fs) as Hrf by (apply (fl_sub _ _ _ _ _ Hfl), elem_of_app; right; apply recv_elem; by exists b, l). destruct (Hc r Hrf) as (i & Hi & _). destruct (Hf r i Hi) as (i2 & Hi2 & Hsub). rewrite Hi' in Hi2. injection Hi2 as <-.
  apply (Hr i e Hi He). apply (Hsub (gs_batchno g)); [by apply Hel|done].
Qed.
Lemma zinv_iod s iod iod' H fl ms : zinv (Sys s iod H fl ms) → fewer iod iod' H → zinv (Sys s iod' H fl ms).
Proof.
  intros [Hg Hs Hcf Hc Hm Hfl] Hf. cbn in *. split; cbn; try done; [by apply (clean_fewer s iod)|]. intros g dn Hgd. destruct (Hfl g dn Hgd) as ((D & HD) & Hms & Hdn). split; [by exists D|]. split; [done|].
  intros r Hr. apply (applied_fewer s iod iod' H g D); [done|done|done|by apply Hdn].
Qed.
(** A message is handled. *)
Lemma deliver_spec s iod H xid r b l bulk unlink x y i : iod !! r = Some i → 0 < Z.of_nat (length l) < SLM_RECLAIM_BATCH_NENTS →
  reclaim_deliver xid r b l bulk unlink {| y_mds := s; y_iod := iod |} = Done (x, y) →
  ∃ i', y = {| y_mds := s; y_iod := <[r := i']> iod |} ∧ fewer iod (<[r := i']> iod) H ∧ (∀ f, f ∈ ri_files i → f ∉ ri_files i' → f ∈ re_fg <$> l) ∧ (x = (0, 0) → ∀ e, e ∈ l → re_fg e ∉ ri_files i') ∧
    (bulk = 0 → (∀ e, e ∈ l → unlink (re_fg e) = 0) → x = (0, 0)).
Proof.
  intros Hi Hlen. unfold reclaim_deliver. cbn [y_iod y_mds]. rewrite Hi. assert (Hw := wp_handle i xid b bulk unlink l (λ x i', ri_files i' ⊆ ri_files i ∧ (∀ f, f ∈ ri_files i → f ∉ ri_files i' → f ∈ re_fg <$> l) ∧
    (x = (0, 0) → ∀ e, e ∈ l → re_fg e ∉ ri_files i') ∧ (bulk = 0 → (∀ e, e ∈ l → unlink (re_fg e) = 0) → x = (0, 0))) Hlen (λ x s1 h1 h2 h3 h4, conj h1 (conj h2 (conj h3 h4)))). apply wp_run in Hw as (x' & i' & -> & Hsub & Hrest). intros [= <- <-].
  exists i'. split; [done|]. split; [|done]. intros c j Hj. destruct (decide (c = r)) as [->|Hne]; [|exists j; by rewrite lookup_insert_ne]. rewrite Hi in Hj. injection Hj as <-. exists i'. rewrite lookup_insert_eq. split; [done|]. intros _ e _. apply Hsub.
Qed.
(** A record is logged. *)
Lemma clean_log s s' iod H b e : clean s iod H → gok fs s H → gc_ios s' = gc_ios s → gc_cur_batchno s ≤ b → gc_cur_xid s < re_xid e → clean s' iod (H ++ [(b, e)]).
Proof.
  intros Hc Hg Hios Hb Hx r Hr. destruct (Hc r Hr) as (i & Hi & Hcl). exists i. split; [done|]. rewrite Hios. intros x b' e' Hxr [Hin|[= -> ->]%list_elem_of_singleton]%elem_of_app Hp; [by apply (Hcl x b')|].
  destruct (go_ios _ _ _ Hg r Hr) as (x0 & Hx0 & ? & ?). rewrite Hxr in Hx0. injection Hx0 as <-. lia.
Qed.
(** A reply is taken: the server has removed the files of the whole batch. *)
Lemma clean_end s s' iod H g D st : gok fs s H → flight fs s H g D → clean s iod H → (∀ r, r ∈ recv g → st r = 0 → applied iod g r) →
  (∀ r x, r ∈ fs → gc_ios s !! r = Some x → ∃ x', gc_ios s' !! r = Some x' ∧ core x' = core (if decide (r ∈ acked g st) then ack g x else x)) → clean s' iod H.
Proof.
  intros Hg Hfl Hc Hap Hios r Hr. destruct (Hc r Hr) as (i & Hi & Hcl). exists i. split; [done|]. intros x' b' e Hx' He Hpast. destruct (go_ios _ _ _ Hg r Hr) as (x & Hx & _).
  destruct (Hios r x Hr Hx) as (x2 & Hx2 & Hcore). rewrite Hx' in Hx2. injection Hx2 as <-. injection Hcore as Exid Ebat _ _. rewrite Exid, Ebat in Hpast. clear Exid Ebat.
  case_decide as Hack; [|by apply (Hcl x b')]. apply list_elem_of_filter in Hack as [Hst Hrecv]. destruct (Hap r Hrecv Hst) as (b & l & Hm & Hgone). destruct (fl_sent _ _ _ _ _ Hfl r b l Hm) as (_ & _ & _ & x0 & Hx0 & Hbx & Hcov).
  rewrite Hx in Hx0. injection Hx0 as <-. cbn in Hpast. destruct (decide (b' < gs_batchno g)); [apply (Hcl x b'); [done|done|lia]|].
  assert (b' = gs_batchno g ∧ re_xid e ≤ gs_xid g) as [-> Hle].
  { destruct (decide (b' = gs_batchno g)) as [->|Hne].
    - split; [done|]. destruct (Z.eqb_spec (gs_count g) SLM_RECLAIM_BATCH_NENTS) as [Hcnt|]; [by apply (fl_full _ _ _ _ _ Hfl Hcnt)|lia].
    - destruct (fl_last _ _ _ _ _ Hfl) as (e0 & He0 & Hx0). pose proof (sorted_later H _ _ _ _ (go_sorted _ _ _ Hg) He0 He ltac:(lia)). destruct (_ =? _); lia. }
  destruct (Hcov e He Hle) as [Hin|Hlt]; [by apply (Hgone i)|]. apply (Hcl x (gs_batchno g)); [done|done|by right].
Qed.

(** ** Every step keeps the invariant *)
Record fs_ok : Prop := { fo_nodup : NoDup fs; fo_some : fs ≠ []; fo_id : 0 ∉ fs; fo_max : Z.of_nat (length fs) ≤ MAX_RECLAIM_PROG_ENTRY }.
Context (Hfs : fs_ok).
Lemma msgs_later (ms : list gmsg) (H l : hist) :
  (∀ xid r b k, (xid, (r, b, k)) ∈ ms → r ∈ fs ∧ 0 < Z.of_nat (length k) < SLM_RECLAIM_BATCH_NENTS ∧ ∀ e, e ∈ k → ∃ b', (b', e) ∈ H) →
  ∀ xid r b k, (xid, (r, b, k)) ∈ ms → r ∈ fs ∧ 0 < Z.of_nat (length k) < SLM_RECLAIM_BATCH_NENTS ∧ ∀ e, e ∈ k → ∃ b', (b', e) ∈ H ++ l.
Proof. intros Hm xid r b k Hin. destruct (Hm xid r b k Hin) as (? & ? & Hel). do 2 (split; [done|]). intros e He. destruct (Hel e He) as [b' ?]. exists b'. apply elem_of_app. by left. Qed.
Lemma zinv_log s s' iod H fl ms xid fg next : zinv (Sys s iod H fl ms) → gc_cur_xid s < xid → mds_write_logentry xid fg next s = Done (tt, s') →
  zinv (Sys s' iod (H ++ [(gc_cur_batchno s, {| re_xid := xid; re_fg := fg |})]) fl ms).
Proof.
  intros [Hg Hs Hcf Hc Hm Hfl] Hx Hrun. cbn in *. set (e := {| re_xid := xid; re_fg := fg |}). apply (wp_done _ (λ _ s', zinv (Sys s' iod (H ++ [(gc_cur_batchno s, e)]) fl ms)) _ _ _ Hrun). clear s' Hrun.
  apply (wp_logentry fs s H); [done|done|]. intros s' Hg' Hfr Hcx Hcb Hcur. pose proof Hfr as (Hios & _ & _). fold e in Hg'. split; cbn.
  - done.
  - by apply (all_saved_framed fs s).
  - intros f Hf Hn. rewrite Hcur in Hn by by eexists. rewrite ents_of_app, decide_True in Hn by done. by apply app_nil in Hn as [_ ?].
  - by apply (clean_log s).
  - by apply msgs_later.
  - intros g dn Hgd. destruct (Hfl g dn Hgd) as ((D & HD) & Hms & Hdn). split; [|done]. exists D. apply (flight_later fs s); [done|done|done|lia|..].
    + intros b e' [= -> ->]%list_elem_of_singleton. cbn. lia.
    + rewrite Hios. intros r x Hr. by exists x.
Qed.
Lemma cur_file_pruned s s' H : gc_logs s' ⊆ gc_logs s → gc_cur_batchno s' = gc_cur_batchno s → cur_file s H → cur_file s' H.
Proof. intros Hl Hb Hc f. rewrite Hb. intros Hf. apply Hc. by apply (lookup_weaken _ _ _ _ Hf). Qed.
Lemma zinv_begin s s' iod H ms b net res : zinv (Sys s iod H None ms) → 0 ≤ b → reclaim_begin fs b net s = Done (res, s') →
  zinv (Sys s' iod H (match res with inl _ => None | inr g => Some (g, []) end) (ms ++ match res with inl _ => [] | inr g => (λ m, (gs_xid g, m)) <$> gs_sent g end)).
Proof.
  intros [Hg Hs Hcf Hc Hm Hfl] Hb Hrun. cbn in *.
  apply (wp_done _ (λ res s', zinv (Sys s' iod H (match res with inl _ => None | inr g => Some (g, []) end) (ms ++ match res with inl _ => [] | inr g => (λ m, (gs_xid g, m)) <$> gs_sent g end))) _ _ _ Hrun). clear Hrun.
  apply (wp_send_begin fs s H); [done|apply Hfs|done|..].
  - intros d s1 Hg' (Hfr & Hcb & Hcx & Hl) _. rewrite app_nil_r. pose proof Hfr as (Hios & _). split; cbn; try done; [by apply (all_saved_framed fs s)|by apply (cur_file_pruned s)|by unfold clean; rewrite Hios].
  - intros g D e Hbc Hlast Hgb Hgc Hgx Hi. pose proof (flight_begin fs s H b net g D e Hg (conj Hb Hbc) Hlast Hgb Hgc Hgx Hi) as HD. split; cbn; try done.
    + intros xid r b' l [Hin|Hin]%elem_of_app; [by apply (Hm xid r b')|]. apply list_elem_of_fmap_1 in Hin as (m & [= -> <-] & Hin). destruct (fl_sent _ _ _ _ _ HD r b' l Hin) as (_ & ? & Hel & _).
      split; [apply (fl_sub _ _ _ _ _ HD), elem_of_app; right; apply recv_elem; by exists b', l|]. split; [done|]. intros e' He'. eexists. by apply Hel.
    + intros g' dn [= <- <-]. split; [by exists D|]. split; [|by intros r ?%elem_of_nil]. intros m Hin. apply elem_of_app. right. by apply (list_elem_of_fmap_2' (λ m, (gs_xid g, m)) _ m).
Qed.
Lemma zinv_handle s iod iod' H g dn ms r b l bulk unlink x : zinv (Sys s iod H (Some (g, dn)) ms) → (r, b, l) ∈ gs_sent g →
  reclaim_deliver (gs_xid g) r b l bulk unlink {| y_mds := s; y_iod := iod |} = Done (x, {| y_mds := s; y_iod := iod' |}) → zinv (Sys s iod' H (Some (g, if decide (x = (0, 0)) then r :: dn else dn)) ms).
Proof.
  intros Hz Hin Hd. destruct (zi_flight _ Hz g dn eq_refl) as ((D & HD) & Hms & _). cbn in *. destruct (zi_msgs _ Hz _ _ _ _ (Hms _ Hin)) as (Hr & Hlen & _). destruct (zi_clean _ Hz r Hr) as (i & Hi & _). cbn in *.
  destruct (deliver_spec s iod H _ r b l bulk unlink x _ i Hi Hlen Hd) as (i' & [= ->] & Hf & _ & Hgone & _). pose proof (zinv_iod s iod _ H _ ms Hz Hf) as [Hg Hs Hcf Hc Hm Hfl]. cbn in *. split; cbn; try done.
  intros g' dn' [= <- <-]. destruct (Hfl g dn eq_refl) as (? & ? & Hdn). do 2 (split; [done|]). case_decide as Hx; [|done]. intros c [->|Hc']%elem_of_cons; [|by apply Hdn]. exists b, l. split; [done|]. rewrite lookup_insert_eq. intros j e [= <-]. by apply Hgone.
Qed.
Lemma zinv_late s iod iod' H fl ms xid r b l bulk unlink x : zinv (Sys s iod H fl ms) → (xid, (r, b, l)) ∈ ms →
  reclaim_deliver xid r b l bulk unlink {| y_mds := s; y_iod := iod |} = Done (x, {| y_mds := s; y_iod := iod' |}) → zinv (Sys s iod' H fl ms).
Proof.
  intros Hz Hin Hd. destruct (zi_msgs _ Hz xid r b l Hin) as (Hr & Hlen & _). destruct (zi_clean _ Hz r Hr) as (i & Hi & _). cbn in *.
  destruct (deliver_spec s iod H xid r b l bulk unlink x _ i Hi Hlen Hd) as (i' & [= ->] & Hf & _). by apply (zinv_iod s iod).
Qed.
Lemma zinv_end s s' iod H g dn ms st res : zinv (Sys s iod H (Some (g, dn)) ms) → (∀ r, r ∈ recv g → st r = 0 → r ∈ dn) → reclaim_end fs g st s = Done (res, s') → zinv (Sys s' iod H None ms).
Proof.
  intros [Hg Hs Hcf Hc Hm Hfl] Hst Hrun. cbn in *. destruct (Hfl g dn eq_refl) as ((D & HD) & Hms & Hdn). apply (wp_done _ (λ _ s', zinv (Sys s' iod H None ms)) _ _ _ Hrun). clear s' Hrun.
  apply (wp_send_end fs s H g D); [done|apply Hfs|done|done|]. intros s' Hg' Hs' Hcb Hcx Hl Hios. split; cbn; try done; [by apply (cur_file_pruned s)|]. apply (clean_end s s' iod H g D st); auto.
Qed.
Lemma zinv_create s iod H fl ms r i f : zinv (Sys s iod H fl ms) → iod !! r = Some i → (∀ b e, (b, e) ∈ H → re_fg e ≠ f) → zinv (Sys s (<[r := add_file i f]> iod) H fl ms).
Proof.
  intros Hz Hi Hf. apply (zinv_iod s iod); [done|]. intros c j Hj. destruct (decide (c = r)) as [->|Hne]; [|exists j; by rewrite lookup_insert_ne]. rewrite Hi in Hj. injection Hj as <-. exists (add_file i f).
  rewrite lookup_insert_eq. split; [done|]. intros b e He. cbn. intros [?%elem_of_singleton|?]%elem_of_union; [by destruct (Hf b e He)|done].
Qed.
Lemma disable_new on x : hasf (si_flags (disable_gc on x)) SIF_NEW_PROG_ENTRY = hasf (si_flags x) SIF_NEW_PROG_ENTRY.
Proof. destruct on; cbn; [by rewrite hasf_setf, orb_false_r|by rewrite hasf_clrf]. Qed.
Lemma zinv_disable s iod H fl ms r x on : zinv (Sys s iod H fl ms) → gc_ios s !! r = Some x → zinv (Sys (gc_with_ios s (<[r := disable_gc on x]> (gc_ios s))) iod H fl ms).
Proof.
  intros [Hg [Hs Hid] Hcf Hc Hm Hfl] Hx. cbn in *. set (s' := gc_with_ios _ _).
  assert (Hback : ∀ c y, gc_ios s' !! c = Some y → ∃ z, gc_ios s !! c = Some z ∧ si_xid y = si_xid z ∧ si_batchno y = si_batchno z ∧ si_index y = si_index z ∧ hasf (si_flags y) SIF_NEW_PROG_ENTRY = hasf (si_flags z) SIF_NEW_PROG_ENTRY).
  { intros c y. cbn. destruct (decide (c = r)) as [->|]; [rewrite lookup_insert_eq; intros [= <-]; exists x; split; [done|by rewrite disable_new]|rewrite lookup_insert_ne by done; intros Hy; by exists y]. }
  assert (Hforth : ∀ c y, gc_ios s !! c = Some y → ∃ z, gc_ios s' !! c = Some z ∧ si_batchno z = si_batchno y ∧ si_xid z = si_xid y ∧ si_index z = si_index y).
  { intros c y Hy. cbn. destruct (decide (c = r)) as [->|]; [rewrite Hx in Hy; injection Hy as <-; rewrite lookup_insert_eq; by eexists|rewrite lookup_insert_ne by done; by exists y]. }
  split; cbn.
  - destruct (go_prog _ _ _ Hg) as [Hpi Hpj Hpl Hpb]. apply (gok_progress fs s); [done|done|split|]; [..|done| |].
    + intros c y Hc' Hy. destruct (Hback c y Hy) as (z & Hz & _ & _ & -> & ->). by apply (Hpi c z).
    + intros c c' y y' Hc' Hc2 Hy Hy'. destruct (Hback c y Hy) as (z & Hz & _ & _ & -> & _). destruct (Hback c' y' Hy') as (z' & Hz' & _ & _ & -> & _). by apply (Hpj c c' z z').
    + intros i p Hp Hf. destruct (Hpb i p Hp Hf) as (y & Hy & Hi). destruct (Hforth _ y Hy) as (z & Hz & _ & _ & Hiz). exists z. split; [done|congruence].
    + intros c y Hc' Hy. destruct (go_ios _ _ _ Hg c Hc') as (y0 & Hy0 & ? & ?). rewrite Hy in Hy0. injection Hy0 as <-. destruct (Hforth c y Hy) as (z & Hz & ? & ? & _). exists z. split; [done|lia].
  - split.
    + intros c y Hc' Hy. destruct (Hback c y Hy) as (z & Hz & E1 & E2 & E3 & ->). destruct (Hs c z Hc' Hz) as [?|Hsv]; [by left|right]. unfold saved in *. by rewrite E1, E2, E3.
    + intros i p Hp Hf. destruct (Hid i p Hp Hf) as (y & Hy & Hi). destruct (Hforth _ y Hy) as (z & Hz & _ & _ & Hiz). exists z. split; [done|congruence].
  - done.
  - intros c Hc'. destruct (Hc c Hc') as (i & Hi & Hcl). exists i. split; [done|]. intros y b e Hy He Hp. destruct (Hback c y Hy) as (z & Hz & E1 & E2 & _). apply (Hcl z b e Hz He). by rewrite <-E1, <-E2.
  - done.
  - intros g dn Hgd. destruct (Hfl g dn Hgd) as ((D & HD) & Hms & Hdn). split; [|done]. exists D. rewrite <-(app_nil_r H). apply (flight_later fs s); [done|done|done|done|by intros b e ?%elem_of_nil|].
    intros c y Hy. destruct (Hforth c y Hy) as (z & ? & ? & ? & _). by exists z.
Qed.
Lemma zinv_cleanup s s' iod H ms b : zinv (Sys s iod H None ms) → (∀ r x, r ∈ fs → gc_ios s !! r = Some x → hasf (si_flags x) SIF_DISABLE_GC = true → b ≤ si_batchno x) →
  mds_reclaim_lwm fs true s = Done (b, s) → mds_remove_logfiles b s = Done (tt, s') → zinv (Sys s' iod H None ms).
Proof.
  intros [Hg Hs Hcf Hc Hm Hfl] Hen Hlwm Hrun. cbn in *. assert (Hle : ∀ r x, r ∈ fs → gc_ios s !! r = Some x → b ≤ si_batchno x).
  { assert (Hw : wp (lwm_loop true fs UINT64_MAX) (λ v s1, s1 = s ∧ ∀ r x, r ∈ fs → gc_ios s !! r = Some x → hasf (si_flags x) SIF_DISABLE_GC = false → v ≤ si_batchno x) s).
    { apply wp_lwm_loop; [intros c Hc'; destruct (go_ios _ _ _ Hg c Hc') as (y & ? & _); by eexists|]. intros v _ Hv _. split; [done|]. intros r x Hr Hx Hd. by apply (Hv r x Hr Hx). }
    apply wp_run in Hw as (v & s1 & Hv & -> & Hle). unfold mds_reclaim_lwm in Hlwm. rewrite (bind_done _ _ _ _ _ Hv) in Hlwm. unfold psc_assert in Hlwm. destruct (negb (v =? UINT64_MAX)); [|done]. injection Hlwm as <-.
    intros r x Hr Hx. destruct (hasf (si_flags x) SIF_DISABLE_GC) eqn:Hd; [by apply (Hen r x)|by apply (Hle r x)]. }
  apply (wp_done _ (λ _ s', zinv (Sys s' iod H None ms)) _ _ _ Hrun). clear s' Hrun Hlwm. unfold mds_remove_logfiles.
  assert (Hb : b ≤ gc_cur_batchno s). { destruct (some_elem fs (fo_some Hfs)) as [r Hr]. destruct (go_ios _ _ _ Hg r Hr) as (x & Hx & ? & _). pose proof (Hle r x Hr Hx). lia. }
  apply (wp_remove_loop fs H); [done|lia|..].
  - intros r Hr. destruct (go_ios _ _ _ Hg r Hr) as (x & Hx & _). exists x. split; [done|]. pose proof (Hle r x Hr Hx). lia.
  - intros s' Hg' (Hfr & Hcb & Hcx & Hl). pose proof Hfr as (Hios & _). split; cbn; try done; [by apply (all_saved_framed fs s)|by apply (cur_file_pruned s)|by unfold clean; rewrite Hios].
Qed.
Lemma zinv_restart s s' iod H fl ms : zinv (Sys s iod H fl ms) → restartable fs s → mds_journal_init fs (scan_fuel s) s = Done (tt, s') → zinv (Sys s' iod H None ms).
Proof.
  intros [Hg Hs Hcf Hc Hm _] Hrb Hrun. cbn in *. destruct Hfs as [Hnd Hne H0 Hmax]. destruct (restarted_ok fs s H Hg Hs (rb_new _ _ Hrb) H0) as [Hg' Hs'].
  assert (s' = restarted fs s) as ->. { apply (wp_done _ (λ _ s', s' = restarted fs s) _ _ _ Hrun). apply (wp_restart fs s H); try done; [by apply rb_new|]. unfold scan_fuel. lia. }
  split; cbn; try done. intros r Hr. destruct (Hc r Hr) as (i & Hi & Hcl). exists i. split; [done|]. intros y b e Hy He Hp. destruct (restarted_ios fs s H Hg Hs (rb_new _ _ Hrb) r y Hr Hy) as (x & Hx & ->). by apply (Hcl x b e).
Qed.
Lemma zinv_step z z' : zinv z → rstep z z' → zinv z'.
Proof.
  intros Hz Hst. destruct Hst.
  - by eapply zinv_log.
  - by apply zinv_create.
  - by eapply zinv_begin.
  - by eapply zinv_handle.
  - by eapply zinv_late.
  - by eapply zinv_end.
  - by apply zinv_disable.
  - by eapply zinv_cleanup.
  - by eapply zinv_restart.
Qed.
Lemma zinv_reach z : rreach z → zinv z.
Proof.
  induction 1 as [s iod Hrun Hiod|z z' _ IH Hst]; [|by eapply zinv_step]. destruct Hfs as [Hnd Hne H0 Hmax]. apply (wp_done _ (λ _ s, zinv (Sys s iod [] None [])) _ _ _ Hrun).
  apply wp_first; try done; [unfold scan_fuel; cbn; lia|]. clear s Hrun. intros s Hg Hs Hcf. split; cbn; try done; [|by intros xid r b l ?%elem_of_nil]. intros r Hr. destruct (Hiod r Hr) as [i Hi]. exists i. split; [done|]. by intros x b e _ ?%elem_of_nil.
Qed.
(** A file that a request removes is one of its records. *)
Lemma removed_dead s iod iod' H fl ms xid r b l bulk unlink x c i f : zinv (Sys s iod H fl ms) → (xid, (r, b, l)) ∈ ms →
  reclaim_deliver xid r b l bulk unlink {| y_mds := s; y_iod := iod |} = Done (x, {| y_mds := s; y_iod := iod' |}) → iod !! c = Some i → f ∈ ri_files i →
  ∃ i', iod' !! c = Some i' ∧ (f ∈ ri_files i' ∨ ∃ b e, (b, e) ∈ H ∧ re_fg e = f).
Proof.
  intros Hz Hin Hd Hi Hf. destruct (zi_msgs _ Hz xid r b l Hin) as (Hr & Hlen & Hel). destruct (zi_clean _ Hz r Hr) as (j & Hj & _). cbn in *.
  destruct (deliver_spec s iod H xid r b l bulk unlink x _ j Hj Hlen Hd) as (j' & [= ->] & _ & Hrem & _). destruct (decide (c = r)) as [->|]; [|exists i; rewrite lookup_insert_ne by done; by auto].
  rewrite Hi in Hj. injection Hj as <-. exists j'. rewrite lookup_insert_eq. split; [done|]. destruct (decide (f ∈ ri_files j')) as [?|Hn]; [by left|right]. destruct (list_elem_of_fmap_1 _ _ _ (Hrem f Hf Hn)) as (e & -> & He). destruct (Hel e He) as (b' & ?). by exists b', e.
Qed.
End runs.
