(* ===== verification/ReclaimRound.v ===== *)
(** * A round of the reclaim thread

    With all I/O servers up, one round of the thread ends, and no server has a
    backing file of a dead file any more. *)
From S2P Require Import Prelude Reclaim ReclaimInv ReclaimStep ReclaimInit ReclaimSys.

Lemma wp_onMds {A} (m : M gcst A) (K : A → gsys → Prop) y : wp m (λ a s, K a {| y_mds := s; y_iod := y_iod y |}) (y_mds y) → wp (onMds m) K y.
Proof. unfold wp, onMds. by destruct (m (y_mds y)) as [[a s]|]. Qed.

Section round.
Context {pm : PflMtu} {pml : PflMtuLaws} (fs : list Z) (Hfs : fs_ok fs) (H : hist).
(** Every server can be reached, and every file can be removed. *)
Record good_env (e : (Z → gc_net) * (Z → gc_env)) : Prop := {
  ge_net : ∀ r, gn_csvc1 (e.1 r) = true ∧ gn_csvc2 (e.1 r) = true ∧ gn_newreq (e.1 r) = 0 ∧ gn_add (e.1 r) = 0;
  ge_io : ∀ r, ge_lost (e.2 r) = false ∧ ge_bulk (e.2 r) = 0 ∧ (∀ f, ge_unlink (e.2 r) f = 0) ∧ ge_reply_lost (e.2 r) = false;
}.
Lemma fewer_trans iod1 iod2 iod3 : fewer iod1 iod2 H → fewer iod2 iod3 H → fewer iod1 iod3 H.
Proof. intros H1 H2 r i Hi. destruct (H1 r i Hi) as (i2 & Hi2 & Hs1). destruct (H2 r i2 Hi2) as (i3 & Hi3 & Hs2). exists i3. split; [done|]. intros b e He Hin. by apply (Hs1 b), (Hs2 b). Qed.
Lemma fewer_refl iod : fewer iod iod H.
Proof. intros r i Hi. by exists i. Qed.
Lemma wp_set_wait s xid env (l : list (Z * Z * list srt_reclaim_entry)) : ∀ iod (K : (Z → Z) → gsys → Prop),
  (∀ r, ge_lost (env r) = false ∧ ge_bulk (env r) = 0 ∧ (∀ f, ge_unlink (env r) f = 0) ∧ ge_reply_lost (env r) = false) →
  (∀ r b k, (r, b, k) ∈ l → is_Some (iod !! r) ∧ 0 < Z.of_nat (length k) < SLM_RECLAIM_BATCH_NENTS ∧ ∀ e, e ∈ k → ∃ b', (b', e) ∈ H) →
  (∀ st iod', fewer iod iod' H → (∀ r, r ∈ (λ m : Z * Z * list srt_reclaim_entry, m.1.1) <$> l → st r = 0) →
     (∀ r b k i e, (r, b, k) ∈ l → iod' !! r = Some i → e ∈ k → re_fg e ∉ ri_files i) → K st {| y_mds := s; y_iod := iod' |}) →
  wp (set_wait xid l env) K {| y_mds := s; y_iod := iod |}.
Proof.
  induction l as [|[[r b] k] l IH]; intros iod K Henv Hl HK; cbn [set_wait].
  { wp_step. apply HK; [apply fewer_refl|by intros r ?%elem_of_nil|by intros r b k i e ?%elem_of_nil]. }
  destruct (Henv r) as (Hlost & Hbulk & Hun & Hrep). rewrite Hlost, Hbulk, Hrep. destruct (Hl r b k) as ([i Hi] & Hlen & Hel); [by left|]. wp_step. wp_step.
  assert (Hd : ∃ x y, reclaim_deliver xid r b k 0 (ge_unlink (env r)) {| y_mds := s; y_iod := iod |} = Done (x, y)).
  { unfold reclaim_deliver. cbn [y_iod]. rewrite Hi. assert (Hw := wp_handle i xid b 0 (ge_unlink (env r)) k (λ _ _, True) Hlen ltac:(done)). apply wp_run in Hw as (x & i' & -> & _). eauto. }
  destruct Hd as (x & y & Hd). destruct (deliver_spec s iod H xid r b k 0 _ x y i Hi Hlen Hd) as (i' & -> & Hf & _ & Hgone & Hzero). specialize (Hzero eq_refl ltac:(auto)). subst x.
  apply (wp_intro _ _ _ _ _ Hd). wp_step. wp_step. apply IH; [done|..].
  - intros c b' k' Hin. destruct (Hl c b' k') as ([j Hj] & Hrest); [by right|]. split; [|done]. destruct (Hf c j Hj) as (j' & ? & _). by eexists.
  - intros st iod' Hf' Hst Hgone'. wp_step. apply HK.
    + by apply (fewer_trans iod (<[r:=i']> iod)).
    + intros c Hc. case_decide; [done|]. apply Hst. cbn in Hc. apply elem_of_cons in Hc as [?|?]; [done|done].
    + intros c b' k' j e [Hin|Hin]%elem_of_cons Hj He; [|by apply (Hgone' c b' k' j e)]. injection Hin as -> -> ->. destruct (Hf' r i') as (j' & Hj' & Hsub); [by rewrite lookup_insert_eq|]. rewrite Hj in Hj'. injection Hj' as <-.
      destruct (Hel e He) as (b' & Hb'). intros Hin. by apply (Hgone eq_refl e He), (Hsub b').
Qed.

(** No server has a file of a dead file. *)
Definition tidy (y : gsys) : Prop := ∀ r, r ∈ fs → ∃ i, y_iod y !! r = Some i ∧ ∀ b e, (b, e) ∈ H → re_fg e ∉ ri_files i.
Record rnd (y : gsys) (b : Z) : Prop := {
  rn_gok : gok fs (y_mds y) H;
  rn_saved : all_saved fs (y_mds y);
  rn_clean : clean fs (y_mds y) (y_iod y) H;
  rn_en : ∀ r x, r ∈ fs → gc_ios (y_mds y) !! r = Some x → hasf (si_flags x) SIF_DISABLE_GC = false;
  rn_max : gc_cur_batchno (y_mds y) < UINT64_MAX ∧ gc_cur_xid (y_mds y) + 1 < UINT64_MAX;
  rn_low : ∀ r x, r ∈ fs → gc_ios (y_mds y) !! r = Some x → b ≤ si_batchno x;
  rn_at : ∃ r x, r ∈ fs ∧ gc_ios (y_mds y) !! r = Some x ∧ si_batchno x = b;
}.
(** Progress that covers all records means there is nothing left. *)
Lemma tidy_past y : clean fs (y_mds y) (y_iod y) H → (∀ r, r ∈ fs → ∃ x, gc_ios (y_mds y) !! r = Some x ∧ ∀ b e, (b, e) ∈ H → b < si_batchno x ∨ re_xid e < si_xid x) → tidy y.
Proof. intros Hc Hall r Hr. destruct (Hc r Hr) as (i & Hi & Hcl). destruct (Hall r Hr) as (x & Hx & Hp). exists i. split; [done|]. intros b e He. apply (Hcl x b e); auto. Qed.
Lemma rn_batch y b : rnd y b → 0 ≤ b ≤ gc_cur_batchno (y_mds y).
Proof. intros Hr. destruct (rn_at _ _ Hr) as (r & x & Hrf & Hx & <-). destruct (go_ios _ _ _ (rn_gok _ _ Hr) r Hrf) as (x' & Hx' & ? & _). rewrite Hx in Hx'. injection Hx' as <-. done. Qed.
(** The systems a batch was sent to, and those that have it: all of them. *)
Lemma sent_all y b net g D : rnd y b → (∀ r, gn_csvc1 (net r) = true ∧ gn_csvc2 (net r) = true ∧ gn_newreq (net r) = 0 ∧ gn_add (net r) = 0) → gs_batchno g = b → sinv (y_mds y) net (ents_of H b) fs g D →
  (∀ r, r ∈ fs → r ∈ D ∨ r ∈ recv g) ∧ next_of g = b + 1.
Proof.
  intros Hr Hnet Hb [Hn Hd Hnd HD Hs Hc Hle Hnx]. assert (Hup : ∀ r x, r ∈ fs → gc_ios (y_mds y) !! r = Some x → up net r x) by (intros r x Hrf Hx; split; [by apply (rn_en _ _ Hr r x)|done]). split.
  - intros r Hrf. destruct (go_ios _ _ _ (rn_gok _ _ Hr) r Hrf) as (x & Hx & _). destruct (Hc r x Hrf Hx (Hup r x Hrf Hx)) as [Hlt|?]; [|done]. pose proof (rn_low _ _ Hr r x Hrf Hx). lia.
  - destruct (rn_at _ _ Hr) as (r & x & Hrf & Hx & Hxb). pose proof (Hle r x Hrf Hx (Hup r x Hrf Hx)). pose proof (rn_batch y b Hr). pose proof (proj1 (rn_max _ _ Hr)).
    assert (gs_next g = b) as Hnb. { destruct Hnx as [?|(c & z & Hcf & Hz & Hcz)]; [lia|]. pose proof (rn_low _ _ Hr c z Hcf Hz). lia. }
    unfold next_of. rewrite Hnb, Hb, Z.eqb_refl. by rewrite andb_false_r.
Qed.
(** The progress of a system when all have answered. *)
Lemma acked_si s s' g D st b : gok fs s H → flight fs s H g D → gs_batchno g = b → (∀ r x, r ∈ fs → gc_ios s !! r = Some x → hasf (si_flags x) SIF_DISABLE_GC = false) →
  (∀ r, r ∈ fs → r ∈ D ∨ r ∈ recv g) → (∀ r, r ∈ recv g → st r = 0) →
  (∀ r x, r ∈ fs → gc_ios s !! r = Some x → ∃ x', gc_ios s' !! r = Some x' ∧ core x' = core (if decide (r ∈ acked g st) then ack g x else x)) →
  ∀ r x', r ∈ fs → gc_ios s' !! r = Some x' → ∃ x, gc_ios s !! r = Some x ∧ hasf (si_flags x') SIF_DISABLE_GC = false ∧
    (r ∈ recv g ∧ si_batchno x = b ∧ si_xid x' = gs_xid g + 1 ∧ si_batchno x' = (if gs_count g =? SLM_RECLAIM_BATCH_NENTS then b + 1 else b) ∨ r ∈ D ∧ si_xid x' = si_xid x ∧ si_batchno x' = si_batchno x).
Proof.
  intros Hg Hfl Hgb Hen Hcov Hst Hios r x' Hrf Hx'. destruct (go_ios _ _ _ Hg r Hrf) as (x & Hx & _). exists x. split; [done|]. destruct (Hios r x Hrf Hx) as (x2 & Hx2 & Hcore). rewrite Hx' in Hx2. injection Hx2 as <-.
  destruct (core_eq _ _ Hcore) as (E1 & E2 & _ & Efl). split; [rewrite (Efl SIF_DISABLE_GC) by done; case_decide; cbn; by apply (Hen r x)|]. case_decide as Hin.
  - left. apply list_elem_of_filter in Hin as [_ Hin]. split; [done|]. apply recv_elem in Hin as (b' & k & Hin). destruct (fl_sent _ _ _ _ _ Hfl r b' k Hin) as (_ & _ & _ & x3 & Hx3 & Hb3 & _). rewrite Hx in Hx3. injection Hx3 as <-.
    cbn in E1, E2. rewrite Hb3, Hgb in E2. split; [by rewrite Hb3|done].
  - right. split; [|done]. destruct (Hcov r Hrf) as [?|Hrr]; [done|]. destruct Hin. apply list_elem_of_filter. split; [by apply Hst|done].
Qed.
Lemma wp_send_one y b e (K : Z * Z → gsys → Prop) : rnd y b → good_env e →
  (∀ d n y', gok fs (y_mds y') H → tidy y' → d = 0 ∨ (∀ r x, r ∈ fs → gc_ios (y_mds y') !! r = Some x → si_batchno x < n) ∧ 0 < n → K (d, n) y') →
  (∀ d y', d ≠ 0 → rnd y' (b + 1) → gc_cur_batchno (y_mds y') = gc_cur_batchno (y_mds y) → K (d, b + 1) y') →
  wp (mds_send_batch_reclaim fs b e.1 e.2) K y.
Proof.
  intros Hr He Hend Hmore. pose proof Hr as [Hg Hsv Hcl Hen Hmax Hlow (r0 & x0 & Hr0 & Hx0 & Hxb)]. pose proof (rn_batch y b Hr) as Hbc. unfold mds_send_batch_reclaim. wp_step. apply wp_onMds.
  apply (wp_send_begin fs (y_mds y) H); [done|apply Hfs|lia|..].
  - intros d s' Hg' (Hfr & Hcb & Hcx & Hl) [(-> & Hnil & Hge)|Hall]; [|destruct (Hall r0 Hr0) as (x & Hx & ?); rewrite Hx0 in Hx; injection Hx as <-; lia]. wp_step. apply Hend; [done| |by left]. pose proof Hfr as (Hios & _).
    apply tidy_past; cbn; [by unfold clean; rewrite Hios|]. rewrite Hios. intros r Hrf. destruct (go_ios _ _ _ Hg r Hrf) as (x & Hx & _). exists x. split; [done|]. intros b' e' He'. left. pose proof (Hlow r x Hrf Hx).
    destruct (go_hist _ _ _ Hg b' e' He') as [? _]. destruct (decide (b' = b)) as [->|]; [|lia]. apply ents_of_elem in He'. rewrite Hnil in He'. by apply elem_of_nil in He'.
  - intros g D el _ Hlast Hgb Hgc Hgx Hi. pose proof (flight_begin fs _ H b e.1 g D el Hg Hbc Hlast Hgb Hgc Hgx Hi) as Hfl. destruct (sent_all y b e.1 g D Hr (ge_net _ He) Hgb Hi) as [Hcov Hnext]. destruct y as [s iod]. cbn [y_mds y_iod] in *. wp_step.
    apply (wp_set_wait s _ _ _ iod); [by apply ge_io|..].
    { intros r b' k Hin. destruct (fl_sent _ _ _ _ _ Hfl r b' k Hin) as (_ & Hlen & Hel & _). split; [|split; [done|intros e' He'; eexists; by apply Hel]].
      destruct (Hcl r) as (i & Hi' & _); [apply (fl_sub _ _ _ _ _ Hfl), elem_of_app; right; apply recv_elem; by exists b', k|]. by eexists. }
    intros st iod' Hf Hst Hgone. apply wp_onMds. cbn [y_mds y_iod]. apply (wp_send_end fs s H g D); [done|apply Hfs|done|done|]. intros s' Hg' Hsv' Hcb Hcx Hl Hios.
    assert (Hcl' : clean fs s' iod' H).
    { apply (clean_end fs s s' iod' H g D st); [done|done|by apply (clean_fewer fs s iod)| |done]. intros r Hrr _. apply recv_elem in Hrr as (b' & k & Hin). exists b', k. split; [done|]. intros i e' Hi' He'. by apply (Hgone r b' k i e'). }
    pose proof (acked_si s s' g D st b Hg Hfl Hgb Hen Hcov Hst Hios) as Hack.
    rewrite Hnext. destruct (Z.eqb_spec (gs_count g) SLM_RECLAIM_BATCH_NENTS) as [Hfull|Hpart].
    + apply Hmore; [|split; cbn; try done|done].
      * assert (r0 ∈ D ++ acked g st) as Hin0; [|apply list_elem_of_lookup_1 in Hin0 as [j Hj%lookup_lt_Some]; rewrite length_app in Hj; lia].
        apply elem_of_app. destruct (Hcov r0 Hr0) as [?|Hin0]; [by left|right]. apply list_elem_of_filter. split; [by apply Hst|done].
      * intros r x' Hrf Hx'. destruct (Hack r x' Hrf Hx') as (x & _ & ? & _). done.
      * by rewrite Hcb, Hcx.
      * intros r x' Hrf Hx'. destruct (Hack r x' Hrf Hx') as (x & Hx & _ & [(_ & _ & _ & ->)|(HD & _ & ->)]); [done|]. destruct (fl_D _ _ _ _ _ Hfl r HD Hfull) as (x3 & Hx3 & ?). rewrite Hx in Hx3. injection Hx3 as <-. lia.
      * destruct (Hios r0 x0 Hr0 Hx0) as (x' & Hx' & _). exists r0, x'. split; [done|]. split; [done|]. destruct (Hack r0 x' Hr0 Hx') as (x & Hx & _ & [(_ & _ & _ & ->)|(HD & _ & _)]); [done|].
        destruct (fl_D _ _ _ _ _ Hfl r0 HD Hfull) as (x3 & Hx3 & ?). rewrite Hx0 in Hx3. injection Hx3 as <-. lia.
    + assert (b = gc_cur_batchno s) as Hbeq by (destruct (decide (b = gc_cur_batchno s)); [done|]; rewrite Hgc, (go_full _ _ _ Hg) in Hpart; unfold SLM_RECLAIM_BATCH_NENTS in *; lia).
      assert (Hle : ∀ b' e', (b', e') ∈ H → b' < b ∨ re_xid e' ≤ gs_xid g).
      { intros b' e' He'. destruct (go_hist _ _ _ Hg b' e' He') as [? _]. destruct (decide (b' = b)) as [->|]; [right|left; lia]. rewrite Hgx. apply (last_max (ents_of H b)); [by apply ents_of_sorted, (go_sorted _ _ _ Hg)|done|by apply ents_of_elem]. }
      apply Hend; [done| |right; split; [|lia]].
      * apply tidy_past; [done|]. cbn. intros r Hrf. destruct (go_ios _ _ _ Hg' r Hrf) as (x' & Hx' & _). exists x'. split; [done|]. intros b' e' He'. destruct (Hack r x' Hrf Hx') as (x & Hx & _ & [(_ & Hxe & -> & ->)|(HD & -> & ->)]); [destruct (Hle b' e' He'); lia|].
        destruct (sv_D _ _ _ _ _ _ Hi r HD) as (_ & x3 & Hx3 & Hd3). rewrite Hx in Hx3. injection Hx3 as <-. destruct (go_ios _ _ _ Hg r Hrf) as (x4 & Hx4 & ? & _). rewrite Hx in Hx4. injection Hx4 as <-. destruct (Hle b' e' He'); lia.
      * intros r x' Hrf Hx'. destruct (go_ios _ _ _ Hg' r Hrf) as (x4 & Hx4 & ? & _). cbn in Hx'. rewrite Hx' in Hx4. injection Hx4 as <-. lia.
Qed.
Lemma wp_loop env fuel : ∀ y b k (K : unit → gsys → Prop), rnd y b → (∀ k, good_env (env k)) → (Z.to_nat (gc_cur_batchno (y_mds y) - b) < fuel)%nat → (∀ y', gok fs (y_mds y') H → tidy y' → K tt y') →
  wp (reclaim_loop fs fuel b env k) K y.
Proof.
  induction fuel as [|fuel IH]; intros y b k K Hr Henv Hfuel HK; [lia|]. cbn [reclaim_loop]. wp_step. wp_step. pose proof Hr as [Hg Hsv Hcl Hen [Hm1 Hm2] Hlow Hat]. pose proof (rn_batch y b Hr).
  assert (Hios : ∀ r, r ∈ fs → is_Some (gc_ios (y_mds y) !! r)) by (intros r Hrf; destruct (go_ios _ _ _ Hg r Hrf) as (x & ? & _); by eexists).
  destruct (Z.eqb_spec (gc_cur_xid (y_mds y)) 0) as [Hz|Hz]; cbn [orb].
  { wp_step. wp_step. wp_step. apply HK; [done|]. intros r Hrf. destruct (Hcl r Hrf) as (i & Hi & _). exists i. split; [done|]. intros b' e' He'. destruct (go_hist _ _ _ Hg b' e' He'). lia. }
  wp_step. apply wp_onMds. destruct (some_elem fs (fo_some _ Hfs)) as [r0 Hr0]. destruct (go_ios _ _ _ Hg r0 Hr0) as (x0 & Hx0 & _ & Hxid0).
  apply (wp_lwm fs); [done|exists r0, x0; split; [done|]; split; [done|]; split; [by apply (Hen r0 x0)|cbn; lia]|]. intros lwm Hlwm _. assert (Hy : {| y_mds := y_mds y; y_iod := y_iod y |} = y) by by destruct y. rewrite Hy. rewrite Z.gtb_ltb.
  destruct (Z.ltb_spec (gc_cur_xid (y_mds y)) lwm) as [Hlt|_].
  { wp_step. apply HK; [done|]. apply tidy_past; [done|]. intros r Hrf. destruct (go_ios _ _ _ Hg r Hrf) as (x & Hx & _). exists x. split; [done|]. intros b' e' He'. right.
    destruct (go_hist _ _ _ Hg b' e' He') as [_ ?]. pose proof (Hlwm r x Hrf Hx (Hen r x Hrf Hx)). cbn in *. lia. }
  wp_step. apply (wp_send_one y b); [done|done|..].
  - intros d n y' Hg' Ht Hstop. wp_step. apply wp_onMds. apply (wp_hwm fs); [intros r Hrf; destruct (go_ios _ _ _ Hg' r Hrf) as (x & ? & _); by eexists|]. intros v _ _ Hv. destruct y' as [s' iod']. cbn [y_mds y_iod fst snd] in *.
    assert ((negb (d =? 0) && (v >=? n)) = false) as ->; [|wp_step; by apply HK]. destruct Hstop as [->|[Hlt Hn]]; [done|]. rewrite Z.geb_leb, andb_false_iff. right. apply Z.leb_gt. destruct Hv as [->|(r & x & Hrf & Hx & ->)]; [lia|by apply (Hlt r x)].
  - intros d y' Hd Hr' Hcb. wp_step. apply wp_onMds. pose proof (rn_gok _ _ Hr') as Hg'. apply (wp_hwm fs); [intros r Hrf; destruct (go_ios _ _ _ Hg' r Hrf) as (x & ? & _); by eexists|]. intros v _ Hv _.
    destruct (rn_at _ _ Hr') as (r & x & Hrf & Hx & Hxb). pose proof (Hv r x Hrf Hx) as Hge. cbn [si_mark] in Hge. pose proof (rn_batch _ _ Hr'). assert ({| y_mds := y_mds y'; y_iod := y_iod y' |} = y') as -> by by destruct y'. cbn [fst snd].
    assert ((negb (d =? 0) && (v >=? b + 1)) = true) as ->; [|apply IH; [done|done|rewrite Hcb; lia|done]]. rewrite Z.geb_leb, andb_true_iff. split; [by apply negb_true_iff, Z.eqb_neq|apply Z.leb_le; lia].
Qed.
End round.
