(* ===== verification/ReclaimProps.v ===== *)
(** * What reclamation guarantees

    Garbage is never forgotten, only dead files are removed, no assertion fails,
    the log files are well-formed, a restart loses nothing, and a round of the
    thread removes all garbage; and where the code falls short of that. *)
From S2P Require Import Prelude Reclaim ReclaimInv ReclaimStep ReclaimInit ReclaimSys ReclaimRound.

Section props.
Context {pm : PflMtu} {pml : PflMtuLaws}.
Implicit Types (fs : list Z) (z : rsys).
Abbreviation mds z := (y_mds (z_sys z)).
Abbreviation iods z := (y_iod (z_sys z)).

(** C26: garbage is never forgotten. In every run (records are logged, files
    made, requests lost, late, repeated or answered with errors, collection
    switched on and off, log files removed, the server restarted): as long as
    an I/O server has the backing file of a dead file, the log file with its
    record exists and the progress of the server is not past the record. A run
    restarts the server only where every system has a progress record that is
    not zero and the highest batch reached has its file ([restartable]), and
    the clean-up of log files at start happens only while no system that is
    switched off is behind the files ([r_cleanup]); [reclaim_restart_forgets]
    and [cleanup_forgets] are runs that forget garbage otherwise. *)
Theorem reclaim_garbage_kept fs z r i b e : fs_ok fs → rreach fs z → r ∈ fs → iods z !! r = Some i → (b, e) ∈ z_hist z → re_fg e ∈ ri_files i →
  (∃ f, gc_logs (mds z) !! b = Some f ∧ e ∈ lf_ents f) ∧ ∃ x, gc_ios (mds z) !! r = Some x ∧ si_batchno x ≤ b ∧ si_xid x ≤ re_xid e.
Proof.
  intros Hfs Hz%zinv_reach Hr Hi He Hin; [|done]. destruct Hz as [Hg _ _ Hc _ _]. destruct (Hc r Hr) as (i' & Hi' & Hcl). rewrite Hi in Hi'. injection Hi' as <-.
  destruct (go_ios _ _ _ Hg r Hr) as (x & Hx & _). assert (Hnp : ¬ (b < si_batchno x ∨ re_xid e < si_xid x)) by (intros Hp; by apply (Hcl x b e)). split; [|exists x; split; [done|lia]].
  assert (Hel : e ∈ ents_of (z_hist z) b) by by apply ents_of_elem. destruct (go_kept _ _ _ Hg b) as [[f Hf]|[_ Hall]].
  - intros Hn. rewrite Hn in Hel. by apply elem_of_nil in Hel.
  - exists f. split; [done|]. destruct (go_file _ _ _ Hg b f Hf) as (_ & _ & [->|[_ Hn]]); [by right|]. rewrite Hn in Hel. by apply elem_of_nil in Hel.
  - destruct (Hall r Hr) as (x' & Hx' & ?). rewrite Hx in Hx'. injection Hx' as <-. lia.
Qed.

(** Only dead files are removed. A backing file that a step removes from an I/O server is one of a record that was logged; late and repeated requests included. *)
Theorem reclaim_only_dead fs z z' r i f : fs_ok fs → rreach fs z → rstep fs z z' → iods z !! r = Some i → f ∈ ri_files i →
  ∃ i', iods z' !! r = Some i' ∧ (f ∈ ri_files i' ∨ ∃ b e, (b, e) ∈ z_hist z ∧ re_fg e = f).
Proof.
  intros Hfs Hz%zinv_reach Hst Hi Hf; [|done]. destruct Hst as [| s iod H fl ms r' i' f' Hi' _| |s iod iod' H g dn ms r' b l bulk unlink x Hin Hd|s iod iod' H fl ms xid r' b l bulk unlink x Hin Hd| | | | ]; cbn in *; try (exists i; by auto).
  - destruct (decide (r = r')) as [->|]; [|exists i; rewrite lookup_insert_ne by done; by auto]. rewrite Hi in Hi'. injection Hi' as <-. exists (add_file i f'). rewrite lookup_insert_eq. split; [done|]. left. cbn. by apply elem_of_union_r.
  - destruct (zi_flight _ _ Hz g dn eq_refl) as (_ & Hms & _). by apply (removed_dead fs s iod iod' H (Some (g, dn)) ms (gs_xid g) r' b l bulk unlink x r i); auto.
  - by apply (removed_dead fs s iod iod' H fl ms xid r' b l bulk unlink x r i).
Qed.

(** No assertion of the reclaim log fails and no access is out of bounds, in any state that a run reaches: a record with a new number can be logged, a batch can be sent, its replies taken, the watermarks found when a server takes part, and the server started again. *)
Theorem reclaim_no_fault fs s iod H fl ms : fs_ok fs → rreach fs {| z_sys := {| y_mds := s; y_iod := iod |}; z_hist := H; z_flight := fl; z_msgs := ms |} →
  (∀ xid fg next, gc_cur_xid s < xid → ∃ s', mds_write_logentry xid fg next s = Done (tt, s')) ∧
  (∀ b net, 0 ≤ b → ∃ res s', reclaim_begin fs b net s = Done (res, s')) ∧
  (∀ g dn st, fl = Some (g, dn) → ∃ res s', reclaim_end fs g st s = Done (res, s')) ∧
  (∀ bn r x, r ∈ fs → gc_ios s !! r = Some x → hasf (si_flags x) SIF_DISABLE_GC = false → si_mark bn x < UINT64_MAX → ∃ v, mds_reclaim_lwm fs bn s = Done (v, s)) ∧
  (restartable fs s → ∃ s', mds_journal_init fs (scan_fuel s) s = Done (tt, s')).
Proof.
  intros Hfs Hz%zinv_reach; [|done]. destruct Hz as [Hg Hsv Hcf Hc Hm Hfl]. cbn in *. split; [|split; [|split; [|split]]].
  - intros xid fg next Hx. assert (Hw : wp (mds_write_logentry xid fg next) (λ _ _, True) s) by by apply (wp_logentry fs s H). apply wp_run in Hw as ([] & s' & ? & _). by exists s'.
  - intros b net Hb. assert (Hw : wp (reclaim_begin fs b net) (λ _ _, True) s) by (apply (wp_send_begin fs s H); try done; apply Hfs). apply wp_run in Hw as (res & s' & ? & _). by exists res, s'.
  - intros g dn st Hgd. destruct (Hfl g dn Hgd) as ((D & HD) & _). assert (Hw : wp (reclaim_end fs g st) (λ _ _, True) s) by (apply (wp_send_end fs s H g D); try done; apply Hfs). apply wp_run in Hw as (res & s' & ? & _). by exists res, s'.
  - intros bn r x Hr Hx Hen Hlt. assert (Hw : wp (mds_reclaim_lwm fs bn) (λ _ s', s' = s) s).
    { apply wp_lwm; [intros c Hc'; destruct (go_ios _ _ _ Hg c Hc') as (y & ? & _); by eexists|by exists r, x|done]. }
    apply wp_run in Hw as (v & s' & ? & ->). by exists v.
  - intros Hrb. destruct Hfs as [Hnd Hne H0 Hmax]. assert (Hw : wp (mds_journal_init fs (scan_fuel s)) (λ _ _, True) s) by (apply (wp_restart fs s H); try done; [by apply rb_new|unfold scan_fuel; lia]). apply wp_run in Hw as ([] & s' & ? & _). by exists s'.
Qed.

(** The log files are well-formed in every state that a run reaches: a file is empty, or it has its header and the records that were logged for its batch, at most 2047, in the order of their numbers, with no bytes after them. *)
Theorem reclaim_log_ok fs z b f : fs_ok fs → rreach fs z → gc_logs (mds z) !! b = Some f →
  (lf_ents f = [] ∨ head (lf_ents f) = Some RECLAIM_MAGIC) ∧ tail (lf_ents f) = snd <$> filter (λ x, x.1 = b) (z_hist z) ∧ StronglySorted (λ e e', re_xid e < re_xid e') (tail (lf_ents f)) ∧
  lf_size f = R_ENTSZ * Z.of_nat (length (lf_ents f)) ∧ lf_size f ≤ R_ENTSZ * SLM_RECLAIM_BATCH_NENTS.
Proof.
  intros Hfs Hz%zinv_reach Hf; [|done]. pose proof (zi_gok _ _ Hz) as Hg. destruct (go_file _ _ _ Hg b f Hf) as (_ & Hx & Hm). pose proof (go_count fs _ _ b Hg) as Hcnt.
  assert (Htl : tail (lf_ents f) = ents_of (z_hist z) b) by (destruct Hm as [->|[-> ->]]; done). split; [destruct Hm as [->|[-> _]]; auto|]. split; [done|].
  split; [rewrite Htl; apply ents_of_sorted, (go_sorted _ _ _ Hg)|]. unfold lf_size. rewrite Hx. split; [lia|]. destruct Hm as [->|[-> _]]; cbn [length]; unfold R_ENTSZ, SLM_RECLAIM_BATCH_NENTS in *; lia.
Qed.

(** C28: a restart loses nothing. When every server has a record of its progress that is not zero and the highest batch that a server has reached has its file, [mds_journal_init] brings back the current batch, the last transaction, and the progress of every server, from the files alone. *)
Theorem reclaim_restart fs z : fs_ok fs → rreach fs z → restartable fs (mds z) →
  ∃ s', mds_journal_init fs (scan_fuel (mds z)) (mds z) = Done (tt, s') ∧ gc_logs s' = gc_logs (mds z) ∧ gc_cur_batchno s' = gc_cur_batchno (mds z) ∧ gc_cur_xid s' = gc_cur_xid (mds z) ∧
    ∀ r x, r ∈ fs → gc_ios (mds z) !! r = Some x → gc_ios s' !! r = Some (si_with (si_xid x) (si_batchno x) (si_index x) 0).
Proof.
  intros Hfs Hz%zinv_reach Hrb; [|done]. destruct Hz as [Hg Hsv Hcf _ _ _]. destruct Hfs as [Hnd Hne H0 Hmax]. exists (restarted fs (mds z)). split.
  - apply wp_eq. apply (wp_restart fs (mds z) (z_hist z)); try done; [by apply rb_new|]. unfold scan_fuel. lia.
  - do 3 (split; [done|]). intros r x Hr Hx. by apply (restart_ios fs (mds z) (z_hist z) Hg Hsv (rb_new _ _ Hrb)).
Qed.

(** C27: garbage goes away. From any state that such a run reaches, in which no
    batch is on its way, collection is switched on for every server and the
    numbers of batches and transactions are not at their limit, a round of the
    thread ends when the servers can be reached and files can be removed, and
    then no server has a backing file of a dead file. *)
Theorem reclaim_round_tidies fs z fuel cleanup env : fs_ok fs → rreach fs z → z_flight z = None →
  (∀ r x, r ∈ fs → gc_ios (mds z) !! r = Some x → hasf (si_flags x) SIF_DISABLE_GC = false) → gc_cur_batchno (mds z) < UINT64_MAX → gc_cur_xid (mds z) + 1 < UINT64_MAX →
  (∀ k, good_env (env k)) → (Z.to_nat (gc_cur_batchno (mds z)) < fuel)%nat →
  ∃ y, slmjreclaimthr_round fs fuel cleanup env (z_sys z) = Done (tt, y) ∧ ∀ r, r ∈ fs → ∃ i, y_iod y !! r = Some i ∧ ∀ b e, (b, e) ∈ z_hist z → re_fg e ∉ ri_files i.
Proof.
  intros Hfs Hz%zinv_reach Hfl Hen Hm1 Hm2 Henv Hfuel; [|done]. destruct Hz as [Hg Hsv _ Hc _ _]. assert (Hw : wp (slmjreclaimthr_round fs fuel cleanup env) (λ _ y, tidy fs (z_hist z) y) (z_sys z)).
  { destruct (z_sys z) as [s iod]. cbn [y_mds y_iod] in *. unfold slmjreclaimthr_round. wp_step. apply wp_onMds. cbn [y_mds y_iod]. destruct (some_elem fs (fo_some _ Hfs)) as [r0 Hr0]. destruct (go_ios _ _ _ Hg r0 Hr0) as (x0 & Hx0 & Hb0 & _).
    apply (wp_lwm fs); [intros r Hr; destruct (go_ios _ _ _ Hg r Hr) as (y & ? & _); by eexists|exists r0, x0; split; [done|]; split; [done|]; split; [by apply (Hen r0 x0)|cbn; lia]|]. intros b Hle (r1 & x1 & Hr1 & Hx1 & _ & Hb1). cbn [si_mark] in *.
    destruct (go_ios _ _ _ Hg r1 Hr1) as (y1 & Hy1 & Hb2 & _). rewrite Hx1 in Hy1. injection Hy1 as <-. assert (Hlow : ∀ r x, r ∈ fs → gc_ios s !! r = Some x → b ≤ si_batchno x) by (intros r x Hr Hx; by apply (Hle r x Hr Hx), (Hen r x)).
    assert (Hrest : ∀ s', gok fs s' (z_hist z) → pruned s s' → wp (reclaim_loop fs fuel b env 0) (λ _ y, tidy fs (z_hist z) y) {| y_mds := s'; y_iod := iod |}).
    { intros s' Hg' (Hfr & Hcb & Hcx & _). pose proof Hfr as (Hios & _). apply (wp_loop fs Hfs (z_hist z)); [|done|cbn; lia|done]. split; cbn; rewrite ?Hios, ?Hcb, ?Hcx; try done; [by apply (all_saved_framed fs s)|by unfold clean; rewrite Hios|by exists r1, x1]. }
    wp_step. apply wp_when; intros _; [|by apply Hrest, pruned_refl]. apply wp_onMds. unfold mds_remove_logfiles. apply (wp_remove_loop fs (z_hist z)); [done|cbn; lia| |by apply Hrest].
    intros r Hr. destruct (go_ios _ _ _ Hg r Hr) as (x & Hx & _). exists x. split; [done|]. pose proof (Hlow r x Hr Hx). lia. }
  apply wp_run in Hw as ([] & y & ? & Ht). by exists y.
Qed.

(** The server cannot be started again between two batches: when a server has reached the batch after a full one and nothing was logged since, there is no file for that batch, and [mds_journal_init] ends the server at each start. *)
Theorem reclaim_restart_fatal fs z fuel : fs_ok fs → rreach fs z → (∀ r x, r ∈ fs → gc_ios (mds z) !! r = Some x → hasf (si_flags x) SIF_NEW_PROG_ENTRY = false) →
  (∃ r x, r ∈ fs ∧ gc_ios (mds z) !! r = Some x ∧ si_batchno x = gc_cur_batchno (mds z)) → gc_logs (mds z) !! gc_cur_batchno (mds z) = None → mds_journal_init fs (S fuel) (mds z) = Stuck Assertion.
Proof. intros Hfs Hz%zinv_reach Hnew Hat Hnone; [|done]. destruct Hz as [Hg Hsv _ _ _ _]. destruct Hfs. by apply (restart_stuck fs (mds z) (z_hist z)). Qed.

(** When garbage collection is switched off for every I/O server, the next round of the thread ends the metadata server: the low watermark of no server is an assertion. *)
Theorem gc_all_disabled_fatal fs y fuel cleanup env : (∀ r, r ∈ fs → ∃ x, gc_ios (y_mds y) !! r = Some x ∧ hasf (si_flags x) SIF_DISABLE_GC = true) → slmjreclaimthr_round fs fuel cleanup env y = Stuck Assertion.
Proof.
  intros Hall. assert (Hl : lwm_loop true fs UINT64_MAX (y_mds y) = Done (UINT64_MAX, y_mds y)).
  { apply wp_eq. apply wp_lwm_loop; [intros r Hr; destruct (Hall r Hr) as (x & ? & _); by eexists|]. intros v _ _ [->|(r & x & Hr & Hx & Hd & _)]; [done|]. destruct (Hall r Hr) as (x' & Hx' & Hd'). congruence. }
  unfold slmjreclaimthr_round. apply faults_left. unfold faults, onMds, mds_reclaim_lwm. by rewrite (bind_done _ _ _ _ _ Hl).
Qed.
End props.

(** ** Runs on concrete inputs *)
Module GcEx.
#[local] Instance gc_mtu : PflMtu := {| LNET_MTU_GC := 2 ^ 20 |}.
#[local] Instance gc_mtu_laws : PflMtuLaws.
Proof. by split. Qed.
Definition fs : list Z := [1; 2].
Lemma fs_good : fs_ok fs.
Proof. split; [apply (bool_decide_unpack _); by vm_compute|done|apply (bool_decide_unpack _); by vm_compute|done]. Qed.
Definition net : Z → gc_net := λ _, {| gn_csvc1 := true; gn_csvc2 := true; gn_newreq := 0; gn_add := 0 |}.
Definition io : Z → gc_env := λ _, {| ge_lost := false; ge_bulk := 0; ge_unlink := λ _, 0; ge_reply_lost := false |}.
Definition env : nat → (Z → gc_net) * (Z → gc_env) := λ _, (net, io).
Lemma env_good k : good_env (env k).
Proof. by split. Qed.
Definition iod0 : gmap Z iost := <[1 := {| ri_xid := 0; ri_batchno := 0; ri_files := ∅; ri_open := ∅ |}]> {[2 := {| ri_xid := 0; ri_batchno := 0; ri_files := ∅; ri_open := ∅ |}]}.

(** Steps as functions. *)
Inductive gop := GLog (xid : Z) (fg : fidgen) | GMake (r : Z) (f : fidgen) | GBegin (b : Z) | GHandle (r : Z) | GEnd | GDisable (r : Z).
Definition gexec (o : gop) (z : rsys) : option rsys :=
  let s := y_mds (z_sys z) in
  let iod := y_iod (z_sys z) in
  match o with
  | GLog xid fg =>
      if gc_cur_xid s <? xid then
        match mds_write_logentry xid fg 0 s with
        | Done (_, s') => Some {| z_sys := {| y_mds := s'; y_iod := iod |}; z_hist := z_hist z ++ [(gc_cur_batchno s, {| re_xid := xid; re_fg := fg |})]; z_flight := z_flight z; z_msgs := z_msgs z |}
        | Stuck _ => None
        end
      else None
  | GMake r f =>
      i ← iod !! r;
      if bool_decide (f ∈ (λ x : Z * srt_reclaim_entry, re_fg x.2) <$> z_hist z) then None
      else Some {| z_sys := {| y_mds := s; y_iod := <[r := add_file i f]> iod |}; z_hist := z_hist z; z_flight := z_flight z; z_msgs := z_msgs z |}
  | GBegin b =>
      match z_flight z, 0 <=? b, reclaim_begin fs b net s with
      | None, true, Done (res, s') =>
          Some {| z_sys := {| y_mds := s'; y_iod := iod |}; z_hist := z_hist z; z_flight := match res with inl _ => None | inr g => Some (g, []) end;
                  z_msgs := z_msgs z ++ match res with inl _ => [] | inr g => (λ m, (gs_xid g, m)) <$> gs_sent g end |}
      | _, _, _ => None
      end
  | GHandle r =>
      match z_flight z with
      | None => None
      | Some (g, dn) =>
          m ← list_find (λ m : Z * Z * list srt_reclaim_entry, m.1.1 = r) (gs_sent g);
          i ← iod !! r;
          match sli_rim_handle_reclaim (R_ENTSZ * Z.of_nat (length m.2.2)) (Z.of_nat (length m.2.2)) (gs_xid g) m.2.1.2 0 m.2.2 (λ _, 0) i with
          | Done (x, i') => Some {| z_sys := {| y_mds := s; y_iod := <[r := i']> iod |}; z_hist := z_hist z; z_flight := Some (g, if decide (x = (0, 0)) then r :: dn else dn); z_msgs := z_msgs z |}
          | Stuck _ => None
          end
      end
  | GEnd =>
      match z_flight z with
      | None => None
      | Some (g, dn) =>
          match reclaim_end fs g (λ r, if decide (r ∈ dn) then 0 else -1) s with
          | Done (_, s') => Some {| z_sys := {| y_mds := s'; y_iod := iod |}; z_hist := z_hist z; z_flight := None; z_msgs := z_msgs z |}
          | Stuck _ => None
          end
      end
  | GDisable r => x ← gc_ios s !! r; Some {| z_sys := {| y_mds := gc_with_ios s (<[r := disable_gc true x]> (gc_ios s)); y_iod := iod |}; z_hist := z_hist z; z_flight := z_flight z; z_msgs := z_msgs z |}
  end.
Lemma gexec_step o z z' : gexec o z = Some z' → rstep fs z z'.
Proof.
  destruct z as [[s iod] H fl ms], o as [xid fg|r f|b|r| |r]; cbn [gexec z_sys y_mds y_iod z_flight z_hist z_msgs].
  - destruct (Z.ltb_spec (gc_cur_xid s) xid); [|done]. destruct (mds_write_logentry xid fg 0 s) as [[[] s']|] eqn:Hs; [|done]. intros [= <-]. by apply (r_log fs s s' iod H fl ms xid fg 0).
  - destruct (iod !! r) as [i|] eqn:Hi; [|done]. cbn. case_bool_decide as Hin; [done|]. intros [= <-]. apply r_create; [done|]. intros b e He Hf. apply Hin. subst f. by apply (list_elem_of_fmap_2' (λ x : Z * srt_reclaim_entry, re_fg x.2) _ (b, e)).
  - destruct fl; [done|]. destruct (Z.leb_spec 0 b); [|done]. destruct (reclaim_begin fs b net s) as [[res s']|] eqn:Hs; [|done]. intros [= <-]. by apply (r_begin fs s s' iod H ms b net res).
  - destruct fl as [[g dn]|]; [|done]. destruct (list_find _ (gs_sent g)) as [[k [[c b] l]]|] eqn:Hk; [|done]. cbn. apply list_find_Some in Hk as (Hk & Hc & _). cbn in Hc. subst c. destruct (iod !! r) as [i|] eqn:Hi; [|done]. cbn.
    destruct (sli_rim_handle_reclaim _ _ _ _ _ _ _ i) as [[x i']|] eqn:Hd; [|done]. intros [= <-]. apply (r_handle fs s iod (<[r := i']> iod) H g dn ms r b l 0 (λ _, 0) x); [by apply list_elem_of_lookup_2 in Hk|]. unfold reclaim_deliver. cbn [y_iod y_mds]. by rewrite Hi, Hd.
  - destruct fl as [[g dn]|]; [|done]. destruct (reclaim_end fs g _ s) as [[res s']|] eqn:Hs; [|done]. intros [= <-]. eapply r_end; [|done]. intros r _ Hr. cbv beta in Hr. by case_decide.
  - destruct (gc_ios s !! r) as [x|] eqn:Hx; [|done]. intros [= <-]. by apply (r_disable fs s iod H fl ms r x true).
Qed.
Fixpoint gruns (l : list gop) (z : rsys) : option rsys := match l with [] => Some z | o :: l => z' ← gexec o z; gruns l z' end.
Lemma gruns_reach l : ∀ z z', rreach fs z → gruns l z = Some z' → rreach fs z'.
Proof.
  induction l as [|o l IH]; intros z z' Hz; cbn; [by intros [= <-]|]. destruct (gexec o z) as [z1|] eqn:Ho; [|done]. cbn. apply IH. eapply rr_step; [done|]. by apply (gexec_step o).
Qed.
Definition started : option rsys := match mds_journal_init fs (scan_fuel newfs) newfs with Done (_, s) => Some {| z_sys := {| y_mds := s; y_iod := iod0 |}; z_hist := []; z_flight := None; z_msgs := [] |} | Stuck _ => None end.
Lemma started_reach z : started = Some z → rreach fs z.
Proof.
  unfold started. destruct (mds_journal_init fs (scan_fuel newfs) newfs) as [[[] s]|] eqn:Hs; [|done]. intros [= <-]. apply rr_init; [done|]. intros r Hr. apply list_elem_of_In in Hr as [<-|[<-|[]]]; by eexists.
Qed.
Definition run (l : list gop) : option rsys := z ← started; gruns l z.
Lemma run_reach l z : run l = Some z → rreach fs z.
Proof. unfold run. destruct started as [z0|] eqn:Hz; [|done]. cbn. apply gruns_reach. by apply started_reach. Qed.
Definition logs (n : nat) : list gop := (λ k, GLog (Z.of_nat k + 1) (Z.of_nat k, 0)) <$> seq 0 n.
Definition dummy : rsys := {| z_sys := {| y_mds := newfs; y_iod := ∅ |}; z_hist := []; z_flight := None; z_msgs := [] |}.
Definition zof (l : list gop) : rsys := default dummy (run l).
Lemma zof_reach l : bool_decide (is_Some (run l)) = true → rreach fs (zof l).
Proof. intros Hb%bool_decide_eq_true. unfold zof. destruct Hb as [z Hz]. rewrite Hz. by apply (run_reach l). Qed.
Lemma sys_eta z : {| z_sys := {| y_mds := y_mds (z_sys z); y_iod := y_iod (z_sys z) |}; z_hist := z_hist z; z_flight := z_flight z; z_msgs := z_msgs z |} = z.
Proof. by destruct z as [[s iod] H fl ms]. Qed.
Ltac reached := apply zof_reach; vm_compute; reflexivity.
Ltac decided := apply (bool_decide_unpack _); vm_compute; exact I.

(** Two servers have the file of a dead file; one has answered. *)
Definition steps1 : list gop := [GMake 1 (0, 0); GMake 2 (0, 0); GMake 2 (1, 0); GMake 2 (7, 0)] ++ logs 3 ++ [GBegin 0; GHandle 1; GEnd].
Definition z1 : rsys := zof steps1.
Definition i2 : iost := default {| ri_xid := 0; ri_batchno := 0; ri_files := ∅; ri_open := ∅ |} (y_iod (z_sys z1) !! 2).
Definition e1 : srt_reclaim_entry := {| re_xid := 2; re_fg := (1, 0) |}.
Lemma enabled_z1 r x : r ∈ fs → gc_ios (y_mds (z_sys z1)) !! r = Some x → hasf (si_flags x) SIF_DISABLE_GC = false ∧ hasf (si_flags x) SIF_NEW_PROG_ENTRY = false.
Proof. intros Hr. apply list_elem_of_In in Hr as [<-|[<-|[]]]; vm_compute; by intros [= <-]. Qed.
End GcEx.
Lemma reclaim_garbage_kept_witness : let z := GcEx.z1 in
  (∃ f, gc_logs (y_mds (z_sys z)) !! 0 = Some f ∧ GcEx.e1 ∈ lf_ents f) ∧ ∃ x, gc_ios (y_mds (z_sys z)) !! 2 = Some x ∧ si_batchno x ≤ 0 ∧ si_xid x ≤ re_xid GcEx.e1.
Proof. apply (@reclaim_garbage_kept GcEx.gc_mtu GcEx.gc_mtu_laws GcEx.fs GcEx.z1 2 GcEx.i2 0 GcEx.e1); [apply GcEx.fs_good|GcEx.reached|GcEx.decided|vm_compute; reflexivity|GcEx.decided|GcEx.decided]. Defined.
Lemma reclaim_only_dead_witness : let z := GcEx.zof (take 7 GcEx.steps1 ++ [GcEx.GBegin 0]) in let z' := GcEx.zof (take 7 GcEx.steps1 ++ [GcEx.GBegin 0; GcEx.GHandle 2]) in
  ∃ i', y_iod (z_sys z') !! 2 = Some i' ∧ ((1, 0) ∈ ri_files i' ∨ ∃ b e, (b, e) ∈ z_hist z ∧ re_fg e = (1, 0)).
Proof.
  eapply (@reclaim_only_dead GcEx.gc_mtu GcEx.gc_mtu_laws GcEx.fs (GcEx.zof (take 7 GcEx.steps1 ++ [GcEx.GBegin 0])) (GcEx.zof (take 7 GcEx.steps1 ++ [GcEx.GBegin 0; GcEx.GHandle 2])) 2 GcEx.i2 (1, 0));
    [apply GcEx.fs_good|GcEx.reached|apply (GcEx.gexec_step (GcEx.GHandle 2)); vm_compute; reflexivity|vm_compute; reflexivity|GcEx.decided].
Defined.
Lemma reclaim_no_fault_witness : ∃ s', mds_write_logentry 4 (9, 0) 0 (y_mds (z_sys GcEx.z1)) = Done (tt, s').
Proof.
  apply (proj1 (@reclaim_no_fault GcEx.gc_mtu GcEx.gc_mtu_laws GcEx.fs (y_mds (z_sys GcEx.z1)) (y_iod (z_sys GcEx.z1)) (z_hist GcEx.z1) (z_flight GcEx.z1) (z_msgs GcEx.z1) GcEx.fs_good
    ltac:(rewrite GcEx.sys_eta; GcEx.reached))). vm_compute. reflexivity.
Defined.
Lemma reclaim_log_ok_witness : let z := GcEx.z1 in ∃ f, gc_logs (y_mds (z_sys z)) !! 0 = Some f ∧ lf_size f ≤ R_ENTSZ * SLM_RECLAIM_BATCH_NENTS.
Proof.
  cbv zeta. eexists. split; [vm_compute; reflexivity|]. eapply (@reclaim_log_ok GcEx.gc_mtu GcEx.gc_mtu_laws GcEx.fs GcEx.z1 0); [apply GcEx.fs_good|GcEx.reached|vm_compute; reflexivity].
Defined.
Definition zdone : rsys := GcEx.zof (take 7 GcEx.steps1 ++ [GcEx.GBegin 0; GcEx.GHandle 1; GcEx.GHandle 2; GcEx.GEnd]).
Lemma zdone_restartable : restartable GcEx.fs (y_mds (z_sys zdone)).
Proof.
  split; [|right; vm_compute; by eexists]. intros r x Hr. apply list_elem_of_In in Hr as [<-|[<-|[]]]; vm_compute; intros [= <-]; split; [done|by intros [? _]|done|by intros [? _]].
Qed.
Lemma reclaim_restart_witness : ∃ s', mds_journal_init GcEx.fs (scan_fuel (y_mds (z_sys zdone))) (y_mds (z_sys zdone)) = Done (tt, s') ∧ gc_cur_xid s' = 3.
Proof.
  destruct (@reclaim_restart GcEx.gc_mtu GcEx.gc_mtu_laws GcEx.fs zdone GcEx.fs_good ltac:(GcEx.reached) zdone_restartable) as (s' & ? & _ & _ & Hx & _). exists s'. split; [done|]. rewrite Hx. vm_compute. reflexivity.
Defined.
Lemma reclaim_round_tidies_witness : ∃ y, @slmjreclaimthr_round GcEx.gc_mtu GcEx.fs 1 true GcEx.env (z_sys GcEx.z1) = Done (tt, y) ∧ ∀ r, r ∈ GcEx.fs → ∃ i, y_iod y !! r = Some i ∧ ∀ b e, (b, e) ∈ z_hist GcEx.z1 → re_fg e ∉ ri_files i.
Proof.
  apply (@reclaim_round_tidies GcEx.gc_mtu GcEx.gc_mtu_laws GcEx.fs GcEx.z1 1 true GcEx.env); [apply GcEx.fs_good|GcEx.reached|vm_compute; reflexivity|intros r x Hr Hx; by apply (GcEx.enabled_z1 r x)|vm_compute; reflexivity|vm_compute; reflexivity|apply GcEx.env_good|vm_compute; lia].
Defined.
(** A batch is full and everyone has it. *)
Definition zfull : rsys := GcEx.zof (GcEx.logs 2047 ++ [GcEx.GBegin 0; GcEx.GHandle 1; GcEx.GHandle 2; GcEx.GEnd]).
Lemma zfull_progress r x : r ∈ GcEx.fs → gc_ios (y_mds (z_sys zfull)) !! r = Some x → hasf (si_flags x) SIF_NEW_PROG_ENTRY = false.
Proof. intros Hr. apply list_elem_of_In in Hr as [<-|[<-|[]]]; vm_compute; by intros [= <-]. Qed.
Lemma reclaim_restart_fatal_witness : mds_journal_init GcEx.fs 1 (y_mds (z_sys zfull)) = Stuck Assertion.
Proof.
  apply (@reclaim_restart_fatal GcEx.gc_mtu GcEx.gc_mtu_laws GcEx.fs zfull 0); [apply GcEx.fs_good|GcEx.reached|apply zfull_progress| |vm_compute; reflexivity].
  exists 1. eexists. split; [GcEx.decided|]. split; [vm_compute; reflexivity|vm_compute; reflexivity].
Defined.
Lemma gc_all_disabled_fatal_witness : @slmjreclaimthr_round GcEx.gc_mtu GcEx.fs 1 false GcEx.env (z_sys (GcEx.zof [GcEx.GDisable 1; GcEx.GDisable 2])) = Stuck Assertion.
Proof. apply gc_all_disabled_fatal. intros r Hr. apply list_elem_of_In in Hr as [<-|[<-|[]]]; vm_compute; by eexists. Defined.

(** A restart forgets garbage when a server has made no progress yet: its record of (0, 0) is taken for that of a new server and set to the end of the log. In this run an I/O server has the backing file of a logged record, and after the restart its progress is past the record. *)
Theorem reclaim_restart_forgets : ∃ z s' i x b e, @rreach GcEx.gc_mtu GcEx.fs z ∧ mds_journal_init GcEx.fs (scan_fuel (y_mds (z_sys z))) (y_mds (z_sys z)) = Done (tt, s') ∧
  y_iod (z_sys z) !! 2 = Some i ∧ (b, e) ∈ z_hist z ∧ re_fg e ∈ ri_files i ∧ gc_ios s' !! 2 = Some x ∧ re_xid e < si_xid x.
Proof.
  eexists GcEx.z1, _, GcEx.i2, _, 0, GcEx.e1. split; [GcEx.reached|]. split; [vm_compute; reflexivity|]. split; [vm_compute; reflexivity|]. split; [GcEx.decided|]. split; [GcEx.decided|]. split; vm_compute; reflexivity.
Qed.

(** The clean-up of log files at the start of the thread ([slmjreclaimthr_main])
    takes the low watermark of the servers that take part. In this run collection
    is switched off for a server that has seen nothing while the other one gets two
    full batches; then the log file with a record whose backing file the first
    server still has goes away. *)
Definition zoff : rsys := GcEx.zof ([GcEx.GMake 2 (0, 0); GcEx.GDisable 2] ++ GcEx.logs 4094 ++ [GcEx.GBegin 0; GcEx.GHandle 1; GcEx.GEnd; GcEx.GBegin 1; GcEx.GHandle 1; GcEx.GEnd]).
Lemma cleanup_forgets : ∃ b s' i e, @rreach GcEx.gc_mtu GcEx.fs zoff ∧ mds_reclaim_lwm GcEx.fs true (y_mds (z_sys zoff)) = Done (b, y_mds (z_sys zoff)) ∧
  mds_remove_logfiles b (y_mds (z_sys zoff)) = Done (tt, s') ∧ y_iod (z_sys zoff) !! 2 = Some i ∧ (0, e) ∈ z_hist zoff ∧ re_fg e ∈ ri_files i ∧ gc_logs s' !! 0 = None.
Proof.
  eexists _, _, _, {| re_xid := 1; re_fg := (0, 0) |}. split; [GcEx.reached|]. split; [vm_compute; reflexivity|]. split; [vm_compute; reflexivity|]. split; [vm_compute; reflexivity|]. split; [GcEx.decided|]. split; [GcEx.decided|]. vm_compute. reflexivity.
Qed.
