(* ===== verification/Pgcache.v ===== *)
(** * The page cache of a client

    The pages of one bmap that a client keeps in memory
    ([mount_slash/pgcache.c], [mount_slash/pgcache.h]): lookup, release, the
    lists of pages nobody uses, the reaper, and the end of a bmap. A page is
    named by its offset in the bmap: the tree has one page per offset, and a page
    is taken off the tree when it is freed. Pages that wait for an
    asynchronous read ([BMPCEF_AIOWAIT]) are not modelled. *)
From S2P Require Import Prelude BmapMds Slvr.

(** ** Constants and data *)
Definition BMPC_BUFSZ : Z := SLASH_SLVR_BLKSZ.
Definition BMPC_BUFMASK : Z := BMPC_BUFSZ - 1.

Definition BMPCEF_DATARDY : Z := Z.shiftl 1 0.
Definition BMPCEF_FAULTING : Z := Z.shiftl 1 1.
Definition BMPCEF_TOFREE : Z := Z.shiftl 1 2.
Definition BMPCEF_EIO : Z := Z.shiftl 1 3.
Definition BMPCEF_DISCARD : Z := Z.shiftl 1 5.
Definition BMPCEF_PINNED : Z := Z.shiftl 1 6.
Definition BMPCEF_READAHEAD : Z := Z.shiftl 1 7.
Definition BMPCEF_ACCESSED : Z := Z.shiftl 1 8.
Definition BMPCEF_IDLE : Z := Z.shiftl 1 9.
Definition BMPCEF_REAPED : Z := Z.shiftl 1 10.
Definition BMPCEF_READALC : Z := Z.shiftl 1 11.

Record bmpce := {
  bmpce_rc : Z;
  bmpce_ref : Z;
  bmpce_flags : Z;
  bmpce_len : Z;
  bmpce_off : Z;         (* relative to inside bmap *)
  bmpce_start : Z;       (* region where data are valid *)
  bmpce_base : data;     (* page contents *)
}.

(** The pages of the bmap, the lists of unused pages, and the arrays of
    pages that reapers have taken off the lists. *)
Record pcache := {
  pc_tree : gmap Z bmpce;
  pc_idle : list Z;
  pc_readahead : list Z;
  pc_reaped : list Z;
}.
Abbreviation PC A := (M pcache A).
Definition pcache_init : pcache := {| pc_tree := ∅; pc_idle := []; pc_readahead := []; pc_reaped := [] |}.

Definition pce_flags (e : bmpce) (fl : Z) : bmpce :=
  {| bmpce_rc := bmpce_rc e; bmpce_ref := bmpce_ref e; bmpce_flags := fl; bmpce_len := bmpce_len e; bmpce_off := bmpce_off e;
     bmpce_start := bmpce_start e; bmpce_base := bmpce_base e |}.
Definition pce_ref (e : bmpce) (n : Z) : bmpce :=
  {| bmpce_rc := bmpce_rc e; bmpce_ref := n; bmpce_flags := bmpce_flags e; bmpce_len := bmpce_len e; bmpce_off := bmpce_off e;
     bmpce_start := bmpce_start e; bmpce_base := bmpce_base e |}.
Definition pce_rc (e : bmpce) (rc : Z) : bmpce :=
  {| bmpce_rc := rc; bmpce_ref := bmpce_ref e; bmpce_flags := bmpce_flags e; bmpce_len := bmpce_len e; bmpce_off := bmpce_off e;
     bmpce_start := bmpce_start e; bmpce_base := bmpce_base e |}.
Definition pce_region (e : bmpce) (start len : Z) : bmpce :=
  {| bmpce_rc := bmpce_rc e; bmpce_ref := bmpce_ref e; bmpce_flags := bmpce_flags e; bmpce_len := len; bmpce_off := bmpce_off e;
     bmpce_start := start; bmpce_base := bmpce_base e |}.
Definition pce_base (e : bmpce) (d : data) : bmpce :=
  {| bmpce_rc := bmpce_rc e; bmpce_ref := bmpce_ref e; bmpce_flags := bmpce_flags e; bmpce_len := bmpce_len e; bmpce_off := bmpce_off e;
     bmpce_start := bmpce_start e; bmpce_base := d |}.

Definition pc_with_tree (s : pcache) (m : gmap Z bmpce) : pcache :=
  {| pc_tree := m; pc_idle := pc_idle s; pc_readahead := pc_readahead s; pc_reaped := pc_reaped s |}.
Definition pc_with_lists (s : pcache) (idle ra reaped : list Z) : pcache :=
  {| pc_tree := pc_tree s; pc_idle := idle; pc_readahead := ra; pc_reaped := reaped |}.

(** ** Operations *)
Definition getPg (p : Z) : PC bmpce := λ s,
  match pc_tree s !! p with Some e => Done (e, s) | None => Stuck NullDeref end.
Definition setPg (p : Z) (e : bmpce) : PC unit := modifyM (λ s, pc_with_tree s (<[p := e]> (pc_tree s))).
Definition modPg (p : Z) (g : bmpce → bmpce) : PC unit := e ← getPg p; setPg p (g e).

(** [lc_remove(&msl_idle_pages, e)], [lc_remove(&msl_readahead_pages, e)] *)
Definition idle_remove (p : Z) : PC unit :=
  s ← getM;
  _ ← psc_assert (bool_decide (p ∈ pc_idle s));
  modifyM (λ s, pc_with_lists s (filter (λ q, q ≠ p) (pc_idle s)) (pc_readahead s) (pc_reaped s)).
Definition readahead_remove (p : Z) : PC unit :=
  s ← getM;
  _ ← psc_assert (bool_decide (p ∈ pc_readahead s));
  modifyM (λ s, pc_with_lists s (pc_idle s) (filter (λ q, q ≠ p) (pc_readahead s)) (pc_reaped s)).

(** A page as [_bmpce_lookup] makes it; the memory of the pool keeps what it
    had ([junk]). *)
Definition new_page (flags off : Z) (junk : data) : bmpce :=
  {| bmpce_rc := 0; bmpce_ref := 1; bmpce_flags := flags; bmpce_len := 0; bmpce_off := off; bmpce_start := off; bmpce_base := junk |}.

(** [_bmpce_lookup]: the caller waits while the page has an error, unless it
    was read ahead. A page on a list passes its reference to the caller. *)
Definition bmpce_lookup (flags off : Z) (junk : data) : PC unit :=
  s ← getM;
  match pc_tree s !! off with
  | Some e =>
      _ ← wait_until (negb (hasf (bmpce_flags e) BMPCEF_EIO) || hasf (bmpce_flags e) BMPCEF_READAHEAD);
      let fl := clrf (bmpce_flags e) BMPCEF_EIO in
      _ ← wait_until (negb (hasf fl BMPCEF_TOFREE));
      if (bmpce_ref e =? 1) && negb (hasf fl BMPCEF_REAPED) then
        if hasf fl BMPCEF_IDLE then _ ← setPg off (pce_flags e (clrf fl BMPCEF_IDLE)); idle_remove off
        else if hasf fl BMPCEF_READALC then _ ← setPg off (pce_flags e (clrf fl BMPCEF_READALC)); readahead_remove off
        else setPg off (pce_ref (pce_flags e fl) (bmpce_ref e + 1))
      else setPg off (pce_ref (pce_flags e fl) (bmpce_ref e + 1))
  | None => setPg off (new_page flags off junk)
  end.

Definition bmpce_free (p : Z) : PC unit :=
  e ← getPg p;
  _ ← psc_assert (bmpce_ref e =? 0);
  modifyM (λ s, pc_with_tree s (delete p (pc_tree s))).

(** [bmpce_release]: the last user leaves a page with data to one of the lists,
    and frees any other page. *)
Definition bmpce_release (p : Z) : PC unit :=
  e ← getPg p;
  _ ← psc_assert (bmpce_ref e >? 0);
  let fl := bmpce_flags e in
  if (bmpce_ref e =? 1) && (Z.land fl (Z.lor BMPCEF_DATARDY (Z.lor BMPCEF_EIO BMPCEF_DISCARD)) =? BMPCEF_DATARDY) then
    if hasf fl BMPCEF_READAHEAD then
      _ ← setPg p (pce_flags e (setf fl BMPCEF_READALC));
      modifyM (λ s, pc_with_lists s (pc_idle s) (pc_readahead s ++ [p]) (pc_reaped s))
    else
      _ ← setPg p (pce_flags e (setf fl BMPCEF_IDLE));
      modifyM (λ s, pc_with_lists s (pc_idle s ++ [p]) (pc_readahead s) (pc_reaped s))
  else
    let e := pce_ref e (bmpce_ref e - 1) in
    _ ← setPg p e;
    if bmpce_ref e >? 0 then mret tt else bmpce_free p.

(** [bmpce_reap_list] on one of the lists: pages whose lock is taken ([busy])
    are passed over, at most [nwaiters] are taken, and one in any case. *)
Fixpoint reap_list (flag nwaiters : Z) (busy : Z → bool) (l a : list Z) : PC (list Z) :=
  match l with
  | [] => mret a
  | p :: l =>
      e ← getPg p;
      if busy p then reap_list flag nwaiters busy l a
      else
        let fl := bmpce_flags e in
        a ← (if Z.land fl (Z.lor flag BMPCEF_REAPED) =? flag then
               _ ← setPg p (pce_flags e (setf (clrf fl flag) (Z.lor BMPCEF_DISCARD BMPCEF_REAPED)));
               _ ← (if flag =? BMPCEF_IDLE then idle_remove p else readahead_remove p);
               mret (a ++ [p])
             else mret a);
        if Z.of_nat (length a) >=? nwaiters then mret a else reap_list flag nwaiters busy l a
  end.

(** [bmpce_reap] up to the releases: the pages are then in the array of the
    reaper. *)
Definition bmpce_reap (desperate : bool) (nwaiters : Z) (busy : Z → bool) : PC unit :=
  s ← getM;
  a ← (if desperate then reap_list BMPCEF_READALC nwaiters busy (pc_readahead s) [] else mret []);
  a ← (if Z.of_nat (length a) <? nwaiters then s ← getM; reap_list BMPCEF_IDLE nwaiters busy (pc_idle s) a else mret a);
  modifyM (λ s, pc_with_lists s (pc_idle s) (pc_readahead s) (pc_reaped s ++ a)).

(** The release of a page from the array of a reaper. *)
Definition reap_release (p : Z) : PC unit :=
  s ← getM;
  if bool_decide (p ∈ pc_reaped s) then
    _ ← modifyM (λ s, pc_with_lists s (pc_idle s) (pc_readahead s) (filter (λ q, q ≠ p) (pc_reaped s)));
    bmpce_release p
  else stuckM WouldBlock.

(** The loop of [bmpc_freeall] over the pages of the tree; it starts again as
    long as a reaper has a page. *)
Fixpoint freeall_loop (l : list Z) : PC unit :=
  match l with
  | [] => mret tt
  | p :: l =>
      e ← getPg p;
      let fl := setf (bmpce_flags e) BMPCEF_DISCARD in
      _ ← setPg p (pce_flags e fl);
      _ ← wait_until (negb (hasf fl BMPCEF_REAPED));
      _ ← (if hasf fl BMPCEF_IDLE then _ ← idle_remove p; bmpce_release p
           else if hasf fl BMPCEF_READALC then _ ← readahead_remove p; bmpce_release p
           else stuckM Assertion);
      freeall_loop l
  end.
Definition pc_offs (s : pcache) : list Z := merge_sort Z.le (elements (dom (pc_tree s))).
Definition bmpc_freeall_pages : PC unit := s ← getM; freeall_loop (pc_offs s).
