(* ===== verification/PgcacheInv.v ===== *)
(** * The invariant of the page cache

    Reference counts of pages and the lists of unused pages. [h p] is how many
    users outside the cache have page [p]; every operation is proved against
    the change of [h] it makes. *)
From S2P Require Import Prelude BmapMds Slvr Pgcache.

(** ** The invariant *)
Definition listed (s : pcache) : list Z := pc_idle s ++ pc_readahead s ++ pc_reaped s.
Definition one (b : bool) : Z := if b then 1 else 0.

Record pg_ok (s : pcache) (h : Z → Z) (p : Z) (e : bmpce) : Prop := {
  pg_off : bmpce_off e = p;
  pg_ref : bmpce_ref e = h p + one (bool_decide (p ∈ listed s));
  pg_used : 0 < bmpce_ref e;
  pg_tofree : hasf (bmpce_flags e) BMPCEF_TOFREE = false;
  pg_idle : hasf (bmpce_flags e) BMPCEF_IDLE = bool_decide (p ∈ pc_idle s);
  pg_ra : hasf (bmpce_flags e) BMPCEF_READALC = bool_decide (p ∈ pc_readahead s);
  pg_reaped : p ∈ pc_reaped s → hasf (bmpce_flags e) BMPCEF_REAPED = true;
  pg_discard : hasf (bmpce_flags e) BMPCEF_REAPED = true → hasf (bmpce_flags e) BMPCEF_DISCARD = true;
  pg_unused : p ∈ pc_idle s ∨ p ∈ pc_readahead s → h p = 0 ∧ hasf (bmpce_flags e) BMPCEF_REAPED = false;
}.

Record pcinv (s : pcache) (h : Z → Z) : Prop := {
  pci_nodup : NoDup (listed s);
  pci_pos : ∀ p, 0 ≤ h p;
  pci_dom : ∀ p, 0 < h p ∨ p ∈ listed s → is_Some (pc_tree s !! p);
  pci_pg : ∀ p e, pc_tree s !! p = Some e → pg_ok s h p e;
}.

(** One more or one less user of [p]. *)
Definition hadd (h : Z → Z) (p n : Z) : Z → Z := λ q, if q =? p then h q + n else h q.

(** The page has the same data and the same state of transfers. *)
Record keeps (e e' : bmpce) : Prop := {
  kp_rc : bmpce_rc e' = bmpce_rc e;
  kp_len : bmpce_len e' = bmpce_len e;
  kp_off : bmpce_off e' = bmpce_off e;
  kp_start : bmpce_start e' = bmpce_start e;
  kp_base : bmpce_base e' = bmpce_base e;
  kp_rdy : hasf (bmpce_flags e') BMPCEF_DATARDY = hasf (bmpce_flags e) BMPCEF_DATARDY;
  kp_fault : hasf (bmpce_flags e') BMPCEF_FAULTING = hasf (bmpce_flags e) BMPCEF_FAULTING;
  kp_pin : hasf (bmpce_flags e') BMPCEF_PINNED = hasf (bmpce_flags e) BMPCEF_PINNED;
}.
Definition same_eio (e e' : bmpce) : Prop := hasf (bmpce_flags e') BMPCEF_EIO = hasf (bmpce_flags e) BMPCEF_EIO.

Lemma pcinv_init : pcinv pcache_init (λ _, 0).
Proof. split; [constructor|lia| |done]. intros p [|Hp]; [lia|]. by apply elem_of_nil in Hp. Qed.

(** ** Lists without one element *)
Lemma filter_ne {A} `{EqDecision A} (x y : A) (l : list A) : y ∈ filter (λ q, q ≠ x) l ↔ y ∈ l ∧ y ≠ x.
Proof. rewrite list_elem_of_filter. tauto. Qed.
Lemma filter_ne_out {A} `{EqDecision A} (x : A) (l : list A) : x ∉ l → filter (λ q, q ≠ x) l = l.
Proof. intros Hx. apply filter_all. intros y Hy ->. done. Qed.
Lemma NoDup_one {A} (x : A) (l : list A) : NoDup (x :: l) → x ∉ l.
Proof. by intros [? _]%NoDup_cons. Qed.

(** The change of one page, and of the lists for that page only. *)
Lemma pcinv_change s h s' h' p :
  pcinv s h → (∀ q, q ≠ p → h' q = h q) → 0 ≤ h' p → NoDup (listed s') →
  (∀ q, q ≠ p → (q ∈ pc_idle s' ↔ q ∈ pc_idle s) ∧ (q ∈ pc_readahead s' ↔ q ∈ pc_readahead s) ∧ (q ∈ pc_reaped s' ↔ q ∈ pc_reaped s)) →
  (∀ q, q ≠ p → pc_tree s' !! q = pc_tree s !! q) →
  (0 < h' p ∨ p ∈ listed s' → is_Some (pc_tree s' !! p)) →
  (∀ e, pc_tree s' !! p = Some e → pg_ok s' h' p e) → pcinv s' h'.
Proof.
  intros I Hh Hp Hnd Hl Ht Hdom Hpg.
  assert (∀ q, q ≠ p → q ∈ listed s' ↔ q ∈ listed s) as Hls.
  { intros q Hq. unfold listed. rewrite !elem_of_app. destruct (Hl q Hq) as (? & ? & ?). tauto. }
  split; [done| | |].
  - intros q. destruct (decide (q = p)) as [->|Hq]; [done|]. rewrite Hh by done. apply I.
  - intros q. destruct (decide (q = p)) as [->|Hq]; [done|]. rewrite Hh, Ht, Hls by done. apply I.
  - intros q e Hq. destruct (decide (q = p)) as [->|Hne]; [by apply Hpg|]. rewrite Ht in Hq by done.
    destruct (pci_pg _ _ I _ _ Hq) as [E1 E2 E3 E4 E5 E6 E7 E8 E9]. destruct (Hl q Hne) as (Ha & Hb & Hc).
    split; rewrite ?Hh by done; try done.
    + by rewrite E2, (bool_decide_ext _ _ (Hls q Hne)).
    + rewrite E5. apply bool_decide_ext. tauto.
    + rewrite E6. apply bool_decide_ext. tauto.
    + intros ?. apply E7. tauto.
    + intros ?. apply E9. tauto.
Qed.

Lemma hadd_eq h p n : hadd h p n p = h p + n.
Proof. unfold hadd. by rewrite Z.eqb_refl. Qed.
Lemma hadd_ne h p n q : q ≠ p → hadd h p n q = h q.
Proof. unfold hadd. intros ?. by destruct (Z.eqb_spec q p). Qed.
Lemma hadd_hadd h p n m q : hadd (hadd h p n) p m q = hadd h p (n + m) q.
Proof. unfold hadd. destruct (q =? p); lia. Qed.
Lemma pcinv_ext s h h' : (∀ q, h' q = h q) → pcinv s h → pcinv s h'.
Proof.
  intros Hh I. split; [apply I| | |].
  - intros p. rewrite Hh. apply I.
  - intros p. rewrite Hh. apply I.
  - intros p e Hp. destruct (pci_pg _ _ I _ _ Hp) as [E1 E2 E3 E4 E5 E6 E7 E8 E9]. split; rewrite ?Hh; done.
Qed.

(** ** Changes of flags that the cache does not look at *)
Definition pc_same (e e' : bmpce) : Prop :=
  bmpce_off e' = bmpce_off e ∧ bmpce_ref e' = bmpce_ref e ∧
  hasf (bmpce_flags e') BMPCEF_TOFREE = hasf (bmpce_flags e) BMPCEF_TOFREE ∧ hasf (bmpce_flags e') BMPCEF_IDLE = hasf (bmpce_flags e) BMPCEF_IDLE ∧
  hasf (bmpce_flags e') BMPCEF_READALC = hasf (bmpce_flags e) BMPCEF_READALC ∧ hasf (bmpce_flags e') BMPCEF_REAPED = hasf (bmpce_flags e) BMPCEF_REAPED ∧
  hasf (bmpce_flags e') BMPCEF_DISCARD = hasf (bmpce_flags e) BMPCEF_DISCARD.
Lemma pcinv_same s h p e e' : pcinv s h → pc_tree s !! p = Some e → pc_same e e' → pcinv (pc_with_tree s (<[p := e']> (pc_tree s))) h.
Proof.
  intros I Hp (H1 & H2 & H3 & H4 & H5 & H6 & H7). destruct (pci_pg _ _ I _ _ Hp) as [E1 E2 E3 E4 E5 E6 E7 E8 E9].
  apply (pcinv_change s h _ h p); simpl; try done.
  - apply I.
  - apply (pci_nodup _ _ I).
  - intros q Hq. by rewrite lookup_insert_ne.
  - intros _. rewrite lookup_insert_eq. by eexists.
  - intros e0. rewrite lookup_insert_eq. intros [= <-]. split; simpl; rewrite ?H1, ?H2, ?H3, ?H4, ?H5, ?H6, ?H7; done.
Qed.

(** ** Access to pages *)
Lemma wp_getPg p e (Q : bmpce → pcache → Prop) s : pc_tree s !! p = Some e → Q e s → wp (getPg p) Q s.
Proof. unfold wp, getPg. by intros ->. Qed.
Lemma wp_modPg p e g (Q : unit → pcache → Prop) s :
  pc_tree s !! p = Some e → Q tt (pc_with_tree s (<[p := g e]> (pc_tree s))) → wp (modPg p g) Q s.
Proof. intros Hp HQ. unfold modPg. wp_step. by eapply wp_getPg. Qed.

(** ** Lookup *)
Lemma listed_out s h p e : pcinv s h → pc_tree s !! p = Some e → p ∉ listed s → 0 < h p.
Proof. intros I Hp Hl. destruct (pci_pg _ _ I _ _ Hp) as [_ E2 E3 _ _ _ _ _ _]. rewrite bool_decide_false in E2 by done. simpl in E2. lia. Qed.
Lemma listed_idle s p : p ∈ pc_idle s → p ∈ listed s.
Proof. intros Hp. unfold listed. rewrite !elem_of_app. tauto. Qed.
Lemma listed_ra s p : p ∈ pc_readahead s → p ∈ listed s.
Proof. intros Hp. unfold listed. rewrite !elem_of_app. tauto. Qed.
Lemma listed_reaped s p : p ∈ pc_reaped s → p ∈ listed s.
Proof. intros Hp. unfold listed. rewrite !elem_of_app. tauto. Qed.
Lemma listed_excl s h p : pcinv s h →
  (p ∈ pc_idle s → (p ∉ pc_readahead s) ∧ (p ∉ pc_reaped s)) ∧ (p ∈ pc_readahead s → (p ∉ pc_idle s) ∧ (p ∉ pc_reaped s)) ∧
  (p ∈ pc_reaped s → (p ∉ pc_idle s) ∧ (p ∉ pc_readahead s)).
Proof.
  intros I. pose proof (pci_nodup _ _ I) as Hnd. unfold listed in Hnd.
  apply NoDup_app in Hnd as (_ & H1 & (_ & H2 & _)%NoDup_app). specialize (H1 p). specialize (H2 p).
  rewrite elem_of_app in H1. tauto.
Qed.

(** Taking a page off one of the lists of unused pages. *)
Definition pc_drop (s : pcache) (p : Z) : pcache :=
  pc_with_lists s (filter (λ q, q ≠ p) (pc_idle s)) (filter (λ q, q ≠ p) (pc_readahead s)) (pc_reaped s).
Lemma idle_remove_run s p : p ∈ pc_idle s → p ∉ pc_readahead s → idle_remove p s = Done (tt, pc_drop s p).
Proof.
  intros Hp Hn. unfold idle_remove. rewrite (bind_done getM _ s s s) by done. rewrite bool_decide_true by done. unfold mbind, M_bind. simpl.
  unfold modifyM, pc_drop. by rewrite (filter_ne_out p (pc_readahead s)).
Qed.
Lemma readahead_remove_run s p : p ∈ pc_readahead s → p ∉ pc_idle s → readahead_remove p s = Done (tt, pc_drop s p).
Proof.
  intros Hp Hn. unfold readahead_remove. rewrite (bind_done getM _ s s s) by done. rewrite bool_decide_true by done. unfold mbind, M_bind. simpl.
  unfold modifyM, pc_drop. by rewrite (filter_ne_out p (pc_idle s)).
Qed.
Lemma pc_drop_nodup s h p : pcinv s h → NoDup (listed (pc_drop s p)).
Proof.
  intros I. pose proof (pci_nodup _ _ I) as Hnd. unfold listed in *. simpl.
  apply NoDup_app in Hnd as (N1 & D1 & (N2 & D2 & N3)%NoDup_app).
  apply NoDup_app; split_and!; [by apply NoDup_filter| |apply NoDup_app; split_and!; [by apply NoDup_filter| |done]].
  - intros q [Hq _]%filter_ne. rewrite elem_of_app, filter_ne. specialize (D1 q Hq). rewrite elem_of_app in D1. tauto.
  - intros q [Hq _]%filter_ne. by apply D2.
Qed.
Lemma pc_drop_other s p q : q ≠ p →
  (q ∈ pc_idle (pc_drop s p) ↔ q ∈ pc_idle s) ∧ (q ∈ pc_readahead (pc_drop s p) ↔ q ∈ pc_readahead s) ∧ (q ∈ pc_reaped (pc_drop s p) ↔ q ∈ pc_reaped s).
Proof. intros Hq. simpl. rewrite !filter_ne. tauto. Qed.
Lemma pc_drop_self s h p : pcinv s h → (p ∈ pc_idle s ∨ p ∈ pc_readahead s) → p ∉ listed (pc_drop s p).
Proof.
  intros I Hp. destruct (listed_excl s h p I) as (Ha & Hb & _). unfold listed. simpl. rewrite !elem_of_app, !filter_ne. tauto.
Qed.

(** The page a lookup gives: the one of the tree, or a new one. *)
Definition looked_up (s : pcache) (flags off : Z) (junk : data) (e' : bmpce) : Prop :=
  match pc_tree s !! off with
  | Some e => keeps e e' ∧ hasf (bmpce_flags e') BMPCEF_EIO = false ∧
              (hasf (bmpce_flags e) BMPCEF_EIO = true → hasf (bmpce_flags e) BMPCEF_READAHEAD = true)
  | None => e' = new_page flags off junk
  end.

Lemma pcinv_insert s h p e' n :
  pcinv s h → 0 ≤ h p + n → (0 < h p + n ∨ p ∈ listed s) → pg_ok s (hadd h p n) p e' →
  pcinv (pc_with_tree s (<[p := e']> (pc_tree s))) (hadd h p n).
Proof.
  intros I Hn Hu Hpg. apply (pcinv_change s h _ _ p); simpl; try done.
  - intros q Hq. by apply hadd_ne.
  - by rewrite hadd_eq.
  - apply (pci_nodup _ _ I).
  - intros q Hq. by rewrite lookup_insert_ne.
  - intros _. rewrite lookup_insert_eq. by eexists.
  - intros e. rewrite lookup_insert_eq. intros [= <-]. by destruct Hpg.
Qed.
(** What is left to show for a page that is on no list. *)
Lemma pg_ok_unlisted s h p e :
  p ∉ listed s → bmpce_off e = p → bmpce_ref e = h p → 0 < h p → hasf (bmpce_flags e) BMPCEF_TOFREE = false →
  hasf (bmpce_flags e) BMPCEF_IDLE = false → hasf (bmpce_flags e) BMPCEF_READALC = false →
  (hasf (bmpce_flags e) BMPCEF_REAPED = true → hasf (bmpce_flags e) BMPCEF_DISCARD = true) → pg_ok s h p e.
Proof.
  intros Hl O R U F1 F2 F3 F4. pose proof Hl as Hl'. unfold listed in Hl'. rewrite !elem_of_app in Hl'.
  split; try done; rewrite ?R; try done.
  - rewrite bool_decide_false by done. simpl. lia.
  - rewrite F2, bool_decide_false; tauto.
  - rewrite F3, bool_decide_false; tauto.
  - tauto.
  - tauto.
Qed.
Lemma pcinv_drop_insert s h p e' n :
  pcinv s h → (p ∈ pc_idle s ∨ p ∈ pc_readahead s) → 0 < h p + n →
  bmpce_off e' = p → bmpce_ref e' = h p + n → hasf (bmpce_flags e') BMPCEF_TOFREE = false →
  hasf (bmpce_flags e') BMPCEF_IDLE = false → hasf (bmpce_flags e') BMPCEF_READALC = false →
  (hasf (bmpce_flags e') BMPCEF_REAPED = true → hasf (bmpce_flags e') BMPCEF_DISCARD = true) →
  pcinv (pc_with_tree (pc_drop s p) (<[p := e']> (pc_tree s))) (hadd h p n).
Proof.
  intros I Hl Hn O R F1 F2 F3 F4. pose proof (pc_drop_self s h p I Hl) as Hout.
  apply (pcinv_change s h _ _ p); try done.
  - intros q Hq. by apply hadd_ne.
  - rewrite hadd_eq. lia.
  - apply (pc_drop_nodup s h p I).
  - intros q Hq. by apply (pc_drop_other s p q).
  - intros q Hq. simpl. by rewrite lookup_insert_ne.
  - intros _. simpl. rewrite lookup_insert_eq. by eexists.
  - intros e0. simpl. rewrite lookup_insert_eq. intros [= <-]. apply pg_ok_unlisted; rewrite ?hadd_eq; done.
Qed.

Ltac keeps_tac := split; simpl; try done; flags_goal; done.

(** One more user of a page that is on no list of unused pages. *)
Lemma pcinv_incref s h p e fl :
  pcinv s h → pc_tree s !! p = Some e → p ∉ pc_idle s → p ∉ pc_readahead s → fl = clrf (bmpce_flags e) BMPCEF_EIO →
  pcinv (pc_with_tree s (<[p := pce_ref (pce_flags e fl) (bmpce_ref e + 1)]> (pc_tree s))) (hadd h p 1).
Proof.
  intros I Hp N1 N2 ->. destruct (pci_pg _ _ I _ _ Hp) as [E1 E2 E3 E4 E5 E6 E7 E8 E9]. pose proof (pci_pos _ _ I p).
  apply pcinv_insert; [done|lia|lia|]. split; simpl; rewrite ?hadd_eq; try done; try lia; flags_goal; try done.
  tauto.
Qed.

Lemma wpb_lookup s h flags off junk (Q : unit → pcache → Prop) :
  pcinv s h → (flags = 0 ∨ flags = BMPCEF_READAHEAD) →
  (∀ s' e', pcinv s' (hadd h off 1) → pc_tree s' = <[off := e']> (pc_tree s) → looked_up s flags off junk e' → Q tt s') →
  wpb (bmpce_lookup flags off junk) Q s.
Proof.
  intros I Hfl HQ. unfold bmpce_lookup. wb_step. wb_step. unfold looked_up in HQ.
  destruct (pc_tree s !! off) as [e|] eqn:He.
  2:{ assert (h off = 0 ∧ off ∉ listed s) as [Hz Hnl].
    { pose proof (pci_dom _ _ I off) as Hd. pose proof (pci_pos _ _ I off). rewrite He in Hd.
      split; [destruct (decide (0 < h off)); [|lia]|intros ?]; destruct Hd as [? ?]; auto; done. }
    apply wpb_of, wp_modify. eapply HQ; [|reflexivity|reflexivity].
    apply pcinv_insert; [done|lia|lia|]. apply pg_ok_unlisted; rewrite ?hadd_eq, ?Hz; simpl; try done; by destruct Hfl as [-> | ->]. }
  destruct (pci_pg _ _ I _ _ He) as [E1 E2 E3 E4 E5 E6 E7 E8 E9]. destruct (listed_excl s h off I) as (X1 & X2 & _).
  wb_step. wb_step. cbv zeta. wb_step. wb_step.
  assert (hasf (bmpce_flags e) BMPCEF_EIO = true → hasf (bmpce_flags e) BMPCEF_READAHEAD = true) as Hra.
  { intros Hio. rewrite Hio in *. done. }
  assert (off ∉ pc_idle s → off ∉ pc_readahead s → wpb (setPg off (pce_ref (pce_flags e (clrf (bmpce_flags e) BMPCEF_EIO)) (bmpce_ref e + 1))) Q s) as Hinc.
  { intros N1 N2. apply wpb_of, wp_modify. eapply HQ; [by apply pcinv_incref|reflexivity|]. split_and!; [keeps_tac|simpl; by flags_goal|done]. }
  destruct ((bmpce_ref e =? 1) && negb (hasf (clrf (bmpce_flags e) BMPCEF_EIO) BMPCEF_REAPED)) eqn:Hone.
  2:{ flags_in Hone. apply Hinc; intros Hin.
    all: destruct (E9 ltac:(tauto)) as [Hz Hr]; rewrite Hr, E2, Hz, bool_decide_true in Hone by first [by apply listed_idle|by apply listed_ra]; done. }
  apply andb_true_iff in Hone as [Hone _]. apply Z.eqb_eq in Hone.
  assert (hasf (clrf (bmpce_flags e) BMPCEF_EIO) BMPCEF_IDLE = bool_decide (off ∈ pc_idle s)) as -> by (flags_goal; done).
  assert (hasf (clrf (bmpce_flags e) BMPCEF_EIO) BMPCEF_READALC = bool_decide (off ∈ pc_readahead s)) as -> by (flags_goal; done).
  destruct (bool_decide_reflect (off ∈ pc_idle s)) as [Hid|Hid];
    [|destruct (bool_decide_reflect (off ∈ pc_readahead s)) as [Hrd|Hrd]; [|by apply Hinc]].
  - destruct (E9 (or_introl Hid)) as [Hz Hr]. destruct (X1 Hid) as [N1 N2].
    wb_step. apply wpb_of, wp_modify. eapply wpb_of, wp_intro; [by apply idle_remove_run|].
    eapply HQ; [|reflexivity|split_and!; [keeps_tac|simpl; by flags_goal|done]].
    apply (pcinv_drop_insert s h off _ 1 I); [by left|lia| | |..]; simpl; try done; try lia; flags_goal; try done.
    rewrite ?E6, ?bool_decide_false; done.
  - destruct (E9 (or_intror Hrd)) as [Hz Hr]. destruct (X2 Hrd) as [N1 N2].
    wb_step. apply wpb_of, wp_modify. eapply wpb_of, wp_intro; [by apply readahead_remove_run|].
    eapply HQ; [|reflexivity|split_and!; [keeps_tac|simpl; by flags_goal|done]].
    apply (pcinv_drop_insert s h off _ 1 I); [by right|lia| | |..]; simpl; try done; try lia; flags_goal; try done.
Qed.

(** ** Release *)
Lemma land_pow2 fl k : 0 ≤ k → Z.land fl (2 ^ k) = if hasf fl (2 ^ k) then 2 ^ k else 0.
Proof.
  intros Hk. unfold hasf. destruct (Z.eqb_spec (Z.land fl (2 ^ k)) 0) as [|Hz]; [done|]. simpl. apply Z.bits_inj'. intros n Hn.
  rewrite Z.land_spec, Z.pow2_bits_eqb by done. destruct (Z.eqb_spec k n) as [<-|]; [|by rewrite andb_false_r].
  destruct (Z.testbit fl k) eqn:Hb; [done|]. exfalso. apply Hz. apply Z.bits_inj'. intros m Hm.
  rewrite Z.land_spec, Z.pow2_bits_eqb, Z.bits_0 by done. destruct (Z.eqb_spec k m) as [<-|]; [by rewrite Hb|by rewrite andb_false_r].
Qed.
(** [(fl & (f | m)) == f] for one bit [f]. *)
Lemma land_flag fl k m : 0 ≤ k → Z.land m (2 ^ k) = 0 → (Z.land fl (Z.lor (2 ^ k) m) =? 2 ^ k) = hasf fl (2 ^ k) && negb (hasf fl m).
Proof.
  intros Hk Hm. rewrite Z.land_lor_distr_r, land_pow2 by done. unfold hasf at 3.
  assert (2 ^ k ≠ 0) by (apply Z.pow_nonzero; lia).
  destruct (Z.eqb_spec (Z.land fl m) 0) as [->|Hz]; simpl.
  { rewrite Z.lor_0_r. destruct (hasf fl (2 ^ k)); cbn [andb negb]; [apply Z.eqb_refl|apply Z.eqb_neq; lia]. }
  rewrite andb_false_r. apply Z.eqb_neq. intros He. apply Hz.
  assert (Z.land (Z.land fl m) (2 ^ k) = Z.land fl m) as <-.
  { rewrite <-He at 1. rewrite Z.land_lor_distr_r, Z.land_diag. destruct (hasf fl (2 ^ k)).
    - by rewrite <-(Z.land_assoc fl m (2 ^ k)), Hm, Z.land_0_r, Z.lor_0_l.
    - by rewrite Z.land_0_r, Z.lor_0_l. }
  by rewrite <-Z.land_assoc, Hm, Z.land_0_r.
Qed.
Lemma land_rdy fl : (Z.land fl (Z.lor BMPCEF_DATARDY (Z.lor BMPCEF_EIO BMPCEF_DISCARD)) =? BMPCEF_DATARDY) =
  hasf fl BMPCEF_DATARDY && negb (hasf fl BMPCEF_EIO || hasf fl BMPCEF_DISCARD).
Proof. rewrite <-hasf_lor_r. by apply (land_flag fl 0 (Z.lor BMPCEF_EIO BMPCEF_DISCARD)). Qed.

(** A page that is given up: by its last user, or by a list. *)
Lemma pcinv_delete s h p n :
  pcinv s h → h p + n = 0 → p ∉ listed s → pcinv (pc_with_tree s (delete p (pc_tree s))) (hadd h p n).
Proof.
  intros I Hn Hl. apply (pcinv_change s h _ _ p); simpl; try done.
  - intros q Hq. by apply hadd_ne.
  - rewrite hadd_eq. lia.
  - apply (pci_nodup _ _ I).
  - intros q Hq. by rewrite lookup_delete_ne.
  - rewrite hadd_eq. intros [|]; [lia|done].
  - intros e. by rewrite lookup_delete_eq.
Qed.

(** A page that goes to one of the lists when its last user leaves. *)
Lemma pcinv_enlist (ra : bool) s h p e :
  pcinv s h → pc_tree s !! p = Some e → h p = 1 → p ∉ listed s → hasf (bmpce_flags e) BMPCEF_REAPED = false →
  pcinv (pc_with_lists (pc_with_tree s (<[p := pce_flags e (setf (bmpce_flags e) (if ra then BMPCEF_READALC else BMPCEF_IDLE))]> (pc_tree s)))
           (if ra then pc_idle s else pc_idle s ++ [p]) (if ra then pc_readahead s ++ [p] else pc_readahead s) (pc_reaped s)) (hadd h p (-1)).
Proof.
  intros I Hp Hh Hl Hr. destruct (pci_pg _ _ I _ _ Hp) as [E1 E2 E3 E4 E5 E6 E7 E8 E9]. pose proof (pci_nodup _ _ I) as Hnd.
  rewrite bool_decide_false in E2 by done. simpl in E2. pose proof Hl as Hl'. unfold listed in Hl'. rewrite !elem_of_app in Hl'.
  assert (p ∉ pc_idle s ∧ p ∉ pc_readahead s ∧ p ∉ pc_reaped s) as (N1 & N2 & N3) by tauto.
  rewrite bool_decide_false in E5 by done. rewrite bool_decide_false in E6 by done.
  apply (pcinv_change s h _ _ p); simpl; try done.
  - intros q Hq. by apply hadd_ne.
  - rewrite hadd_eq. lia.
  - assert (NoDup (p :: listed s)) as Hnd' by (by constructor). revert Hnd'. apply NoDup_Permutation_proper. unfold listed. simpl. destruct ra; solve_Permutation.
  - intros q Hq. destruct ra; rewrite elem_of_app, list_elem_of_singleton; naive_solver.
  - intros q Hq. by rewrite lookup_insert_ne.
  - intros _. rewrite lookup_insert_eq. by eexists.
  - intros e0. rewrite lookup_insert_eq. intros [= <-].
    split; simpl; rewrite ?hadd_eq; try done; try lia; unfold listed; simpl.
    + rewrite bool_decide_true; [simpl; lia|]. destruct ra; rewrite !elem_of_app, list_elem_of_singleton; tauto.
    + destruct ra; flags_goal; done.
    + destruct ra; flags_goal; rewrite ?E5; symmetry; [by apply bool_decide_false|apply bool_decide_true]. rewrite elem_of_app, list_elem_of_singleton. tauto.
    + destruct ra; flags_goal; rewrite ?E6; symmetry; [apply bool_decide_true|by apply bool_decide_false]. rewrite elem_of_app, list_elem_of_singleton. tauto.
    + destruct ra; flags_goal; rewrite Hr; done.
    + intros _. destruct ra; flags_goal; split; first [lia|done].
Qed.

Lemma wp_bmpce_release s h p e (Q : unit → pcache → Prop) :
  pcinv s h → 0 < h p → pc_tree s !! p = Some e →
  (∀ s', pcinv s' (hadd h p (-1)) →
     (pc_tree s' = delete p (pc_tree s) ∧ h p = 1) ∨ (∃ e', pc_tree s' = <[p := e']> (pc_tree s) ∧ keeps e e' ∧ same_eio e e') → Q tt s') →
  wp (bmpce_release p) Q s.
Proof.
  intros I Hu Hp HQ. destruct (pci_pg _ _ I _ _ Hp) as [E1 E2 E3 E4 E5 E6 E7 E8 E9]. unfold bmpce_release.
  assert (p ∉ pc_idle s ∧ p ∉ pc_readahead s) as [N1 N2] by (split; intros Hin; destruct (E9 ltac:(tauto)); lia).
  wp_step. eapply wp_getPg; [done|]. wp_step. apply wp_assert; [lia|]. cbv zeta. rewrite land_rdy.
  destruct ((bmpce_ref e =? 1) && _) eqn:Hc.
  - apply andb_true_iff in Hc as [Hone (Hd & (He & Hdi)%negb_true_iff%orb_false_iff)%andb_true_iff]. apply Z.eqb_eq in Hone.
    assert (hasf (bmpce_flags e) BMPCEF_REAPED = false) as Hr by (destruct (hasf (bmpce_flags e) BMPCEF_REAPED) eqn:Hr; [|done]; by rewrite E8 in Hdi).
    assert (p ∉ listed s) as Hl by (intros Hl; rewrite bool_decide_true in E2 by done; simpl in E2; lia).
    assert (h p = 1) as Hh by (rewrite bool_decide_false in E2 by done; simpl in E2; lia).
    destruct (hasf (bmpce_flags e) BMPCEF_READAHEAD).
    + wp_step. unfold setPg. wp_step. wp_step. apply HQ; [by apply (pcinv_enlist true s h p e)|]. right. eexists. split; [reflexivity|].
      split; [keeps_tac|]. unfold same_eio. simpl. by flags_goal.
    + wp_step. unfold setPg. wp_step. wp_step. apply HQ; [by apply (pcinv_enlist false s h p e)|]. right. eexists. split; [reflexivity|].
      split; [keeps_tac|]. unfold same_eio. simpl. by flags_goal.
  - clear Hc. wp_step. unfold setPg at 1. wp_step. cbn [bmpce_ref pce_ref]. rewrite Z.gtb_ltb. destruct (Z.ltb_spec 0 (bmpce_ref e - 1)).
    + wp_step. apply HQ; [|right; eexists; split; [reflexivity|split; [keeps_tac|done]]].
      apply pcinv_insert; [done|lia| |].
      { rewrite E2 in H. destruct (bool_decide_reflect (p ∈ listed s)); [by right|left]. simpl in H. lia. }
      split; simpl; rewrite ?hadd_eq; try done; try lia. tauto.
    + assert (p ∉ listed s) as Hl by (intros Hl; rewrite bool_decide_true in E2 by done; simpl in E2; lia).
      rewrite bool_decide_false in E2 by done. simpl in E2. unfold bmpce_free. wp_step. eapply wp_getPg; [simpl; apply lookup_insert_eq|].
      wp_step. apply wp_assert; [simpl; lia|]. wp_step. simpl. apply HQ; [|left; split; [by rewrite delete_insert_eq|lia]].
      unfold pc_with_tree. simpl. rewrite delete_insert_eq. apply (pcinv_delete s h p (-1)); [done|lia|done].
Qed.

(** ** The reaper *)
Lemma pcinv_reap_release s h p :
  pcinv s h → p ∈ pc_reaped s →
  pcinv (pc_with_lists s (pc_idle s) (pc_readahead s) (filter (λ q, q ≠ p) (pc_reaped s))) (hadd h p 1).
Proof.
  intros I Hp. destruct (listed_excl s h p I) as (_ & _ & X3). destruct (X3 Hp) as [N1 N2].
  destruct (pci_dom _ _ I p (or_intror (listed_reaped s p Hp))) as [e He]. destruct (pci_pg _ _ I _ _ He) as [E1 E2 E3 E4 E5 E6 E7 E8 E9].
  pose proof (pci_nodup _ _ I) as Hnd. pose proof (pci_pos _ _ I p) as Hpos.
  apply (pcinv_change s h _ _ p); simpl; try done.
  - intros q Hq. by apply hadd_ne.
  - rewrite hadd_eq. lia.
  - unfold listed in *. simpl. apply NoDup_app in Hnd as (M1 & D1 & (M2 & D2 & M3)%NoDup_app).
    apply NoDup_app; split_and!; [done| |apply NoDup_app; split_and!; [done| |by apply NoDup_filter]].
    + intros q Hq. specialize (D1 q Hq). rewrite elem_of_app, filter_ne. rewrite elem_of_app in D1. tauto.
    + intros q Hq. rewrite filter_ne. specialize (D2 q Hq). tauto.
  - intros q Hq. rewrite filter_ne. tauto.
  - intros e0. rewrite He. intros [= <-].
    assert (p ∉ listed (pc_with_lists s (pc_idle s) (pc_readahead s) (filter (λ q, q ≠ p) (pc_reaped s)))) as Hl.
    { unfold listed. simpl. rewrite !elem_of_app, filter_ne. tauto. }
    rewrite bool_decide_true in E2 by (by apply listed_reaped). simpl in E2.
    apply pg_ok_unlisted; rewrite ?hadd_eq; try done; try lia; [by rewrite E5, bool_decide_false|by rewrite E6, bool_decide_false].
Qed.

Lemma wpb_reap_release s h p (Q : unit → pcache → Prop) :
  pcinv s h →
  (∀ s' e, pcinv s' h → pc_tree s !! p = Some e →
     (pc_tree s' = delete p (pc_tree s) ∧ h p = 0) ∨ (∃ e', pc_tree s' = <[p := e']> (pc_tree s) ∧ keeps e e' ∧ same_eio e e') → Q tt s') →
  wpb (reap_release p) Q s.
Proof.
  intros I HQ. unfold reap_release. wb_step. wb_step. destruct (bool_decide_reflect (p ∈ pc_reaped s)) as [Hp|]; [|wb_step].
  destruct (pci_dom _ _ I p (or_intror (listed_reaped s p Hp))) as [e He]. pose proof (pci_pos _ _ I p) as Hpos.
  wb_step. wb_step. apply wpb_of. eapply wp_bmpce_release; [by apply pcinv_reap_release|rewrite hadd_eq; lia|done|].
  intros s' I' Hs'. apply (HQ s' e); [|done|].
  - eapply pcinv_ext; [|exact I']. intros q. rewrite hadd_hadd. unfold hadd. destruct (q =? p); lia.
  - destruct Hs' as [[? Hh]|?]; [left|by right]. rewrite hadd_eq in Hh. split; [done|lia].
Qed.

(** Every page has the data and the state of transfers it had. *)
Definition pages_keep (m m' : gmap Z bmpce) : Prop :=
  ∀ p, match m !! p, m' !! p with
       | Some e, Some e' => keeps e e' ∧ same_eio e e'
       | None, None => True
       | _, _ => False
       end.
Lemma keeps_refl e : keeps e e.
Proof. by split. Qed.
Lemma keeps_trans e e' e'' : keeps e e' → keeps e' e'' → keeps e e''.
Proof. intros [] []. split; congruence. Qed.
Lemma pages_keep_refl m : pages_keep m m.
Proof. intros p. destruct (m !! p); [split; [apply keeps_refl|done]|done]. Qed.
Lemma pages_keep_trans m m' m'' : pages_keep m m' → pages_keep m' m'' → pages_keep m m''.
Proof.
  intros H1 H2 p. specialize (H1 p). specialize (H2 p). destruct (m !! p), (m' !! p), (m'' !! p); try done.
  destruct H1 as [K1 S1], H2 as [K2 S2]. split; [by eapply keeps_trans|]. unfold same_eio in *. congruence.
Qed.
Lemma pages_keep_insert m p e e' : m !! p = Some e → keeps e e' → same_eio e e' → pages_keep m (<[p := e']> m).
Proof.
  intros Hp HK HS q. destruct (decide (q = p)) as [->|]; [rewrite Hp, lookup_insert_eq; done|rewrite lookup_insert_ne by done].
  destruct (m !! q); [split; [apply keeps_refl|done]|done].
Qed.

(** The state with the pages of [a] in the array of the reaper. *)
Abbreviation reaping s a := (pc_with_lists s (pc_idle s) (pc_readahead s) (pc_reaped s ++ a)).
Lemma pcinv_to_reaped s h p e a f :
  pcinv (reaping s a) h → pc_tree s !! p = Some e → (p ∈ pc_idle s ∧ f = BMPCEF_IDLE ∨ p ∈ pc_readahead s ∧ f = BMPCEF_READALC) →
  let s' := pc_with_tree (pc_drop s p) (<[p := pce_flags e (setf (clrf (bmpce_flags e) f) (Z.lor BMPCEF_DISCARD BMPCEF_REAPED))]> (pc_tree s)) in
  pcinv (reaping s' (a ++ [p])) h.
Proof.
  intros I Hp Hf s'. destruct (pci_pg _ _ I _ _ Hp) as [E1 E2 E3 E4 E5 E6 E7 E8 E9]. pose proof (pci_nodup _ _ I) as Hnd.
  destruct (listed_excl _ _ p I) as (X1 & X2 & _). simpl in *.
  assert (p ∈ listed (reaping s a)) as Hl by (destruct Hf as [[? _]|[? _]]; [by apply listed_idle|by apply listed_ra]).
  rewrite bool_decide_true in E2 by done. simpl in E2.
  assert (NoDup (listed (pc_drop (reaping s a) p))) as Hnd' by (by apply (pc_drop_nodup _ h)).
  assert (p ∉ listed (pc_drop (reaping s a) p)) as Hout by (apply (pc_drop_self _ h); [done|destruct Hf as [[? _]|[? _]]; auto]).
  unfold listed in Hnd', Hout. simpl in Hnd', Hout.
  apply (pcinv_change (reaping s a) h _ h p); simpl; try done.
  - apply I.
  - assert (NoDup (p :: filter (λ q, q ≠ p) (pc_idle s) ++ filter (λ q, q ≠ p) (pc_readahead s) ++ pc_reaped s ++ a)) as Hc by (by constructor).
    revert Hc. apply NoDup_Permutation_proper. unfold listed. simpl. solve_Permutation.
  - intros q Hq. rewrite !filter_ne, !elem_of_app, list_elem_of_singleton. tauto.
  - intros q Hq. by rewrite lookup_insert_ne.
  - intros _. rewrite lookup_insert_eq. by eexists.
  - intros e0. rewrite lookup_insert_eq. intros [= <-]. rewrite !elem_of_app in Hout.
    assert (hasf (bmpce_flags e) BMPCEF_IDLE = bool_decide (f = BMPCEF_IDLE) ∧ hasf (bmpce_flags e) BMPCEF_READALC = bool_decide (f = BMPCEF_READALC)) as [B1 B2].
    { rewrite E5, E6. destruct Hf as [[Hi ->]|[Hr ->]]; [destruct (X1 Hi)|destruct (X2 Hr)]; split; by rewrite ?(bool_decide_true (p ∈ _)), ?(bool_decide_false (p ∈ _)) by done. }
    split; unfold listed; simpl; try done; try lia.
    + rewrite bool_decide_true; [simpl; lia|]. rewrite !elem_of_app, list_elem_of_singleton. tauto.
    + destruct Hf as [[_ ->]|[_ ->]]; flags_goal; done.
    + rewrite (bool_decide_false (p ∈ _)) by tauto. destruct Hf as [[_ ->]|[_ ->]]; flags_goal; [done|by rewrite B1].
    + rewrite (bool_decide_false (p ∈ _)) by tauto. destruct Hf as [[_ ->]|[_ ->]]; flags_goal; [by rewrite B2|done].
    + intros _. destruct Hf as [[_ ->]|[_ ->]]; flags_goal; done.
    + intros _. destruct Hf as [[_ ->]|[_ ->]]; flags_goal; done.
    + tauto.
Qed.

Definition lc_of (f : Z) (s : pcache) : list Z := if f =? BMPCEF_IDLE then pc_idle s else pc_readahead s.
Lemma wp_reap_list f n busy : (f = BMPCEF_IDLE ∨ f = BMPCEF_READALC) → ∀ l s h a (Q : list Z → pcache → Prop),
  pcinv (reaping s a) h → NoDup l → (∀ p, p ∈ l → p ∈ lc_of f s) →
  (∀ s' a', pcinv (reaping s' a') h → pages_keep (pc_tree s) (pc_tree s') → Q a' s') → wp (reap_list f n busy l a) Q s.
Proof.
  intros Hf. induction l as [|p l IH]; intros s h a Q I Hnd Hl HQ.
  { apply wp_ret. apply (HQ s a); [done|apply pages_keep_refl]. }
  apply NoDup_cons in Hnd as [Hpl Hnd]. assert (p ∈ lc_of f s) as Hp by (apply Hl; left).
  assert (p ∈ pc_idle s ∧ f = BMPCEF_IDLE ∨ p ∈ pc_readahead s ∧ f = BMPCEF_READALC) as Hpf.
  { destruct Hf as [-> | ->]; [left|right]; done. }
  destruct (pci_dom _ _ I p) as [e He].
  { right. destruct Hpf as [[? _]|[? _]]; [by apply listed_idle|by apply listed_ra]. }
  destruct (pci_pg _ _ I _ _ He) as [E1 E2 E3 E4 E5 E6 E7 E8 E9]. simpl in *.
  wp_step. eapply wp_getPg; [done|]. destruct (busy p).
  { eapply IH; [done|done| |done]. intros q Hq. apply Hl. by right. }
  cbv zeta. assert (Z.land (bmpce_flags e) (Z.lor f BMPCEF_REAPED) =? f = true) as ->.
  { destruct (E9 ltac:(tauto)) as [_ Hr]. destruct Hpf as [[Hi ->]|[Hr' ->]].
    - pose proof (land_flag (bmpce_flags e) 9 BMPCEF_REAPED ltac:(done) ltac:(done)) as HL. change (2 ^ 9) with BMPCEF_IDLE in HL.
      by rewrite HL, E5, Hr, bool_decide_true.
    - pose proof (land_flag (bmpce_flags e) 11 BMPCEF_REAPED ltac:(done) ltac:(done)) as HL. change (2 ^ 11) with BMPCEF_READALC in HL.
      by rewrite HL, E6, Hr, bool_decide_true. }
  wp_step. wp_step. unfold setPg. wp_step. wp_step. destruct (listed_excl _ _ p I) as (X1 & X2 & _). simpl in X1, X2.
  pose proof (pcinv_to_reaped s h p e a f I He Hpf) as I'. cbv zeta in I'.
  set (s' := pc_with_tree (pc_drop s p) _) in I'.
  assert ((if f =? BMPCEF_IDLE then idle_remove p else readahead_remove p)
    (pc_with_tree s (<[p:=pce_flags e (setf (clrf (bmpce_flags e) f) (Z.lor BMPCEF_DISCARD BMPCEF_REAPED))]> (pc_tree s))) = Done (tt, s')) as Hrun.
  { destruct Hpf as [[Hi ->]|[Hr ->]]; simpl.
    - apply (idle_remove_run (pc_with_tree s _) p); [done|]. destruct (X1 Hi). done.
    - apply (readahead_remove_run (pc_with_tree s _) p); [done|]. destruct (X2 Hr). done. }
  eapply wp_intro; [exact Hrun|]. wp_step.
  assert (pages_keep (pc_tree s) (pc_tree s')) as HK.
  { apply (pages_keep_insert _ _ e); [done|destruct Hpf as [[_ ->]|[_ ->]]; keeps_tac|].
    unfold same_eio. simpl. destruct Hpf as [[_ ->]|[_ ->]]; flags_goal; done. }
  destruct (Z.of_nat (length (a ++ [p])) >=? n).
  { wp_step. by apply HQ. }
  eapply (IH s' h (a ++ [p])); [done|done| |].
  - intros q Hq. assert (q ≠ p) by (by intros ->). assert (q ∈ lc_of f s) by (apply Hl; by right).
    unfold lc_of in *. destruct (f =? BMPCEF_IDLE); simpl; rewrite filter_ne; done.
  - intros s'' a'' I'' HK'. apply HQ; [done|]. by eapply pages_keep_trans.
Qed.

Lemma reaping_nil s : reaping s [] = s.
Proof. destruct s. unfold pc_with_lists. simpl. by rewrite app_nil_r. Qed.

Lemma wp_bmpce_reap desperate n busy s h (Q : unit → pcache → Prop) :
  pcinv s h → (∀ s', pcinv s' h → pages_keep (pc_tree s) (pc_tree s') → Q tt s') → wp (bmpce_reap desperate n busy) Q s.
Proof.
  intros I HQ. unfold bmpce_reap. wp_step. wp_step. wp_step.
  apply wp_mono with (P := λ a s', pcinv (reaping s' a) h ∧ pages_keep (pc_tree s) (pc_tree s')).
  { destruct desperate.
    - pose proof (pci_nodup _ _ I) as Hnd. unfold listed in Hnd. apply NoDup_app in Hnd as (_ & _ & (Hnd & _ & _)%NoDup_app).
      eapply (wp_reap_list BMPCEF_READALC n busy ltac:(by right) (pc_readahead s) s h []); [by rewrite reaping_nil|done|done|]. by intros s' a' ? ?.
    - wp_step. rewrite reaping_nil. split; [done|apply pages_keep_refl]. }
  intros a s1 [I1 K1]. wp_step.
  apply wp_mono with (P := λ a s', pcinv (reaping s' a) h ∧ pages_keep (pc_tree s) (pc_tree s')).
  { destruct (Z.of_nat (length a) <? n); [|by wp_step]. wp_step. wp_step.
    pose proof (pci_nodup _ _ I1) as Hnd. unfold listed in Hnd. simpl in Hnd. apply NoDup_app in Hnd as (Hnd & _ & _).
    eapply (wp_reap_list BMPCEF_IDLE n busy ltac:(by left) (pc_idle s1) s1 h a); [done|done|done|].
    intros s' a' ? ?. split; [done|by eapply pages_keep_trans]. }
  intros a' s2 [I2 K2]. wp_step. by apply HQ.
Qed.

(** ** The end of a bmap *)
Lemma wp_freeall_loop l : ∀ s (Q : unit → pcache → Prop),
  pcinv s (λ _, 0) → pc_reaped s = [] → NoDup l → (∀ p, p ∈ l ↔ is_Some (pc_tree s !! p)) →
  (∀ s', pcinv s' (λ _, 0) → pc_tree s' = ∅ → Q tt s') → wp (freeall_loop l) Q s.
Proof.
  induction l as [|p l IH]; intros s Q I Hrp Hnd Hl HQ.
  { apply wp_ret. apply HQ; [done|]. apply map_empty. intros p. apply eq_None_not_Some. rewrite <-Hl. apply not_elem_of_nil. }
  apply NoDup_cons in Hnd as [Hpl Hnd]. destruct (proj1 (Hl p) ltac:(left)) as [e He].
  destruct (pci_pg _ _ I _ _ He) as [E1 E2 E3 E4 E5 E6 E7 E8 E9]. destruct (listed_excl _ _ p I) as (X1 & X2 & X3).
  assert (p ∈ listed s) as Hls by (destruct (bool_decide_reflect (p ∈ listed s)); [done|simpl in E2; lia]).
  rewrite bool_decide_true in E2 by done. simpl in E2.
  simpl. wp_step. eapply wp_getPg; [done|]. cbv zeta. wp_step. unfold setPg at 1. wp_step.
  assert (p ∈ pc_idle s ∨ p ∈ pc_readahead s) as Hor.
  { unfold listed in Hls. rewrite !elem_of_app in Hls. rewrite Hrp, elem_of_nil in Hls. tauto. }
  assert (hasf (bmpce_flags e) BMPCEF_REAPED = false) as Hr by (by apply E9).
  wp_step. apply wp_intro with (a := tt) (s' := pc_with_tree s (<[p := pce_flags e (setf (bmpce_flags e) BMPCEF_DISCARD)]> (pc_tree s))).
  { flags_goal. by rewrite Hr. }
  set (e' := pce_flags e _). set (s1 := pc_with_tree s _).
  assert (hasf (bmpce_flags e') BMPCEF_IDLE = bool_decide (p ∈ pc_idle s)) as Hi by (simpl; flags_goal; done).
  assert (hasf (bmpce_flags e') BMPCEF_READALC = bool_decide (p ∈ pc_readahead s)) as Hra by (simpl; flags_goal; done).
  simpl in Hi, Hra. rewrite Hi, Hra. set (s2 := pc_drop s1 p).
  assert (wp (bmpce_release p) (λ _ s', wp (freeall_loop l) Q s') s2) as Hrel.
  { unfold bmpce_release. wp_step. eapply wp_getPg; [apply lookup_insert_eq|]. wp_step. apply wp_assert; [simpl; lia|].
    cbv zeta. rewrite land_rdy. simpl. assert (hasf (setf (bmpce_flags e) BMPCEF_DISCARD) BMPCEF_DISCARD = true) as -> by (flags_goal; done).
    rewrite orb_true_r, !andb_false_r. wp_step. unfold setPg at 1. wp_step. rewrite E2. simpl.
    unfold bmpce_free. wp_step. eapply wp_getPg; [apply lookup_insert_eq|]. wp_step. apply wp_assert; [simpl; lia|].
    wp_step. unfold pc_with_tree. simpl. rewrite !insert_insert_eq, delete_insert_eq.
    apply IH; [|done|done| |done].
    - pose proof (pc_drop_self _ _ p I Hor) as Hout. apply (pcinv_change s (λ _, 0) _ _ p); simpl; try done.
      + apply (pc_drop_nodup _ _ p I).
      + intros q Hq. by apply (pc_drop_other s p q).
      + intros q Hq. by rewrite lookup_delete_ne.
      + intros [|]; [lia|done].
      + intros e0. by rewrite lookup_delete_eq.
    - intros q. simpl. destruct (decide (q = p)) as [->|Hq]; [rewrite lookup_delete_eq; split; [done|by intros [? ?]]|].
      rewrite lookup_delete_ne by done. rewrite <-Hl, elem_of_cons. tauto. }
  wp_step. destruct (bool_decide_reflect (p ∈ pc_idle s)) as [Hin|Hin].
  - wp_step. eapply wp_intro; [apply idle_remove_run; [done|]; simpl; destruct (X1 Hin); done|exact Hrel].
  - rewrite bool_decide_true by tauto. wp_step. eapply wp_intro; [apply readahead_remove_run; [simpl; tauto|done]|exact Hrel].
Qed.

Lemma wp_freeall s (Q : unit → pcache → Prop) :
  pcinv s (λ _, 0) → pc_reaped s = [] → (∀ s', pcinv s' (λ _, 0) → pc_tree s' = ∅ → Q tt s') → wp bmpc_freeall_pages Q s.
Proof.
  intros I Hrp HQ. unfold bmpc_freeall_pages. wp_step. wp_step. eapply wp_freeall_loop; [done|done| | |done].
  - unfold pc_offs. rewrite merge_sort_Permutation. apply NoDup_elements.
  - intros p. unfold pc_offs. rewrite merge_sort_Permutation, elem_of_elements, elem_of_dom. done.
Qed.
