(* ===== verification/Coalesce.v ===== *)
(** * Requests of a client and their coalescing into RPCs

    The requests that reads and writes of a file become
    ([mount_slash/pgcache.h], [msl_biorq_build] of [mount_slash/io.c]), and how
    the flush thread joins pending writes into RPCs
    ([mount_slash/bflush.c]): which requests make up an RPC, which pages it
    has, and what it sends. *)
From S2P Require Import Prelude BmapMds ReplReq Lease Slvr SlvrIO Pgcache.

(** ** Constants and data *)
Definition BIORQ_READ : Z := Z.shiftl 1 0.
Definition BIORQ_WRITE : Z := Z.shiftl 1 1.
Definition BIORQ_EXPIRE : Z := Z.shiftl 1 3.
Definition BIORQ_DESTROY : Z := Z.shiftl 1 4.
Definition BIORQ_FLUSHRDY : Z := Z.shiftl 1 5.
Definition BIORQ_ONTREE : Z := Z.shiftl 1 8.
Definition BIORQ_READAHEAD : Z := Z.shiftl 1 9.

(** The request of the file system a [biorq] is for. *)
Record fsrqinfo := {
  mfsrq_err : Z;
  mfsrq_ref : Z;
  mfsrq_len : Z;
  mfsrq_size : Z;
  mfsrq_replied : bool;    (* MFSRQ_FSREPLIED *)
  mfsrq_copied : bool;     (* MFSRQ_COPIED *)
}.

Record biorq := {
  biorq_buf : data;
  biorq_ref : Z;
  biorq_off : Z;           (* bmap relative *)
  biorq_len : Z;           (* length of the original req *)
  biorq_flags : Z;         (* state and op type bits *)
  biorq_retries : Z;       (* dirty data flush retries *)
  biorq_last_sliod : Z;
  biorq_expire : Z;        (* nanoseconds *)
  biorq_pages : list Z;    (* array of bmpce *)
  biorq_fsrqi : option fsrqinfo;   (* NULL for internal read-ahead *)
}.
Definition biorq_voff_get (r : biorq) : Z := biorq_off r + biorq_len r.

(** A part of a page in a transfer. *)
Record iovec := { iov_page : Z; iov_off : Z; iov_len : Z }.

Record bmpc_write_coalescer := {
  bwc_size : Z;
  bwc_soff : Z;
  bwc_biorqs : list nat;
  bwc_iovs : list iovec;
  bwc_bmpces : list Z;
}.

(** [x & ~BMPC_BUFMASK] *)
Definition page_align (x : Z) : Z := Z.land x (Z.lnot BMPC_BUFMASK).
(** [n] pages from offset [a]. *)
Fixpoint prange (a : Z) (n : nat) : list Z :=
  match n with O => [] | S n => a :: prange (a + BMPC_BUFSZ) n end.
(** The pages of a request: [aoff], [alen] and [npages] of [msl_biorq_build]. *)
Definition biorq_npages (roff len : Z) : Z :=
  let alen := len + Z.land roff BMPC_BUFMASK in
  if alen mod BMPC_BUFSZ =? 0 then alen / BMPC_BUFSZ else alen / BMPC_BUFSZ + 1.
Definition biorq_page_offs (roff len : Z) : list Z := prange (page_align roff) (Z.to_nat (biorq_npages roff len)).

Section coalesce.
Context `{PflNet}.

Definition BMPC_MAXBUFSRPC : Z := LNET_MTU_RIC / BMPC_BUFSZ.
(** plus one because the offset in the first request might not be page aligned *)
Definition BMPC_COALESCE_MAX_IOV : Z := BMPC_MAXBUFSRPC + 1.
Definition MIN_COALESCE_RPC_SZ : Z := LNET_MTU_RIC.

(** ** Which requests make up an RPC *)
Definition bmap_flush_biorq_expired (now : Z) (a : biorq) : bool :=
  hasf (biorq_flags a) BIORQ_EXPIRE || (biorq_expire a <=? now).

Definition bwc_start (id : nat) (r : biorq) : bmpc_write_coalescer :=
  {| bwc_size := biorq_len r; bwc_soff := biorq_off r; bwc_biorqs := [id]; bwc_iovs := []; bwc_bmpces := [] |}.
Definition bwc_add (g : bmpc_write_coalescer) (id : nat) (sz : Z) : bmpc_write_coalescer :=
  {| bwc_size := if sz >? 0 then bwc_size g + sz else bwc_size g; bwc_soff := bwc_soff g; bwc_biorqs := bwc_biorqs g ++ [id];
     bwc_iovs := bwc_iovs g; bwc_bmpces := bwc_bmpces g |}.

(** The loop of [bmap_flush_trycoalesce] after its first request: [last] is the
    request that reaches furthest so far; the result is [large], [expired],
    the group, and how many requests were passed. *)
Fixpoint trycoalesce_loop (now : Z) (l : list (nat * biorq)) (idx : nat) (last : biorq) (g : bmpc_write_coalescer) (expired : bool)
    : outcome (bool * bool * bmpc_write_coalescer * nat) :=
  match l with
  | [] => Done (false, expired, g, idx)
  | (id, curr) :: l =>
      let expired := expired || bmap_flush_biorq_expired now curr in
      if negb (biorq_off curr >=? biorq_off last) then Stuck Assertion
      else if biorq_off curr <=? biorq_voff_get last then
        let sz := biorq_voff_get curr - biorq_voff_get last in
        if (sz >? 0) && (sz + bwc_size g >? MIN_COALESCE_RPC_SZ) then Done (true, expired, g, idx)
        else trycoalesce_loop now l (S idx) (if sz <? 0 then last else curr) (bwc_add g id sz) expired
      else if expired then Done (false, expired, g, idx)
      else trycoalesce_loop now l (S idx) curr (bwc_start id curr) expired
  end.
(** [bmap_flush_trycoalesce] on the requests from [*indexp] on: the group if
    there is one to send, and how far [*indexp] moves. *)
Definition bmap_flush_trycoalesce (now : Z) (l : list (nat * biorq)) : outcome (option bmpc_write_coalescer * nat) :=
  match l with
  | [] => Stuck Assertion
  | (id, r) :: l =>
      match trycoalesce_loop now l 1 r (bwc_start id r) (bmap_flush_biorq_expired now r) with
      | Done (large, expired, g, idx) => Done (if large || expired then Some g else None, idx)
      | Stuck w => Stuck w
      end
  end.

(** The groups that one pass of [bmap_flush] over the pending writes [l] of a
    bmap sends, one after the other, as long as there is one to send. *)
Fixpoint flush_groups (fuel : nat) (now : Z) (l : list (nat * biorq)) : outcome (list bmpc_write_coalescer) :=
  match fuel, l with
  | _, [] => Done []
  | O, _ => Stuck OutOfFuel
  | S fuel, _ =>
      match bmap_flush_trycoalesce now l with
      | Done (Some g, idx) =>
          match flush_groups fuel now (drop idx l) with Done gs => Done (g :: gs) | Stuck w => Stuck w end
      | Done (None, _) => Done []
      | Stuck w => Stuck w
      end
  end.

(** ** Which pages an RPC has *)

(** The inner loop of [bmap_flush_coalesce_prep], over the pages of a request
    at offset [roff]; what is left of the request, and the pages of the
    group. *)
Fixpoint prep_pages (first : bool) (roff : Z) (pages : list Z) (off reqsz : Z) (acc : list Z) : PC (Z * list Z) :=
  match pages with
  | [] => mret (reqsz, acc)
  | p :: pages =>
      e ← getPg p;
      _ ← psc_assert (bmpce_ref e >? 0);
      _ ← psc_assert (bmpce_off e =? (if first then page_align roff else off));
      let tlen := Z.min reqsz (if first then BMPC_BUFSZ - (off - bmpce_off e) else BMPC_BUFSZ) in
      acc ← match last acc with
            | None => mret [p]
            | Some q =>
                eq ← getPg q;
                if bmpce_off eq >=? bmpce_off e then mret acc
                else
                  _ ← psc_assert (bmpce_off e - BMPC_BUFSZ =? bmpce_off eq);
                  if Z.of_nat (length acc) <? BMPC_COALESCE_MAX_IOV then mret (acc ++ [p]) else stuckM OutOfBounds
            end;
      prep_pages false roff pages (off + tlen) (reqsz - tlen) acc
  end.
(** The outer loop: [e] is the request that reaches furthest, [loff] the offset
    of the request before. *)
Fixpoint prep_loop (rs : list biorq) (e : option biorq) (loff : Z) (acc : list Z) : PC (option biorq * list Z) :=
  match rs with
  | [] => mret (e, acc)
  | r :: rs =>
      e ← match e with
          | None => mret r
          | Some e =>
              _ ← psc_assert (biorq_off r >=? loff);
              _ ← psc_assert (biorq_off r <=? biorq_voff_get e);
              mret (if biorq_voff_get r >? biorq_voff_get e then r else e)
          end;
      '(rest, acc) ← prep_pages true (biorq_off r) (biorq_pages r) (biorq_off r) (biorq_len r) acc;
      _ ← psc_assert (rest =? 0);
      prep_loop rs (Some e) (biorq_off r) acc
  end.
Definition bmap_flush_coalesce_prep (rs : list biorq) (size : Z) : PC (list Z) :=
  '(e, acc) ← prep_loop rs None 0 [];
  match e, rs with
  | Some e, r :: _ => _ ← psc_assert (size =? (biorq_off e - biorq_off r) + biorq_len e); mret acc
  | _, _ => stuckM NullDeref
  end.

(** ** What an RPC sends *)
Fixpoint map_loop (first : bool) (roff : Z) (pages : list Z) (tot : Z) : PC (list iovec * Z) :=
  match pages with
  | [] => mret ([], tot)
  | p :: pages =>
      e ← getPg p;
      let o := if first then roff - bmpce_off e else 0 in
      let len := Z.min tot (if first then BMPC_BUFSZ - (roff - bmpce_off e) else BMPC_BUFSZ) in
      '(iovs, tot) ← map_loop false roff pages (tot - len);
      mret ({| iov_page := p; iov_off := o; iov_len := len |} :: iovs, tot)
  end.
(** [bmap_flush_coalesce_map]; [rs] are the requests of the group. *)
Definition bmap_flush_coalesce_map (g : bmpc_write_coalescer) (rs : list biorq) : PC bmpc_write_coalescer :=
  pages ← bmap_flush_coalesce_prep rs (bwc_size g);
  match rs with
  | [] => stuckM NullDeref
  | r :: _ =>
      _ ← psc_assert (bwc_soff g =? biorq_off r);
      '(iovs, tot) ← map_loop true (biorq_off r) pages (bwc_size g);
      _ ← psc_assert (Z.of_nat (length iovs) <=? BMPC_COALESCE_MAX_IOV);
      _ ← psc_assert (tot =? 0);
      mret {| bwc_size := bwc_size g; bwc_soff := bwc_soff g; bwc_biorqs := bwc_biorqs g; bwc_iovs := iovs; bwc_bmpces := pages |}
  end.

(** The bytes of a transfer: those of its parts, one after the other. *)
Fixpoint iov_bytes (m : gmap Z bmpce) (iovs : list iovec) : data :=
  match iovs with
  | [] => λ _, 0
  | v :: iovs =>
      λ i, if i <? iov_len v
           then match m !! iov_page v with Some e => bmpce_base e (iov_off v + i) | None => 0 end
           else iov_bytes m iovs (i - iov_len v)
  end.
End coalesce.
