(* ===== verification/CoalesceProps.v ===== *)
(** * Correctness of write coalescing

    A group of requests covers one range without holes that fits into one
    transfer, no request that is due is left out, and the RPC made of the group
    sends the bytes of the range as the pages have them. *)
From S2P Require Import Prelude BmapMds ReplReq Lease Slvr SlvrIO Pgcache PgcacheInv Coalesce.

(** ** Groups *)

(** Each request starts before the end of what the requests before it cover;
    [hi] is that end. *)
Fixpoint joined (hi : Z) (l : list biorq) : Prop :=
  match l with [] => True | r :: l => biorq_off r ≤ hi ∧ joined (Z.max hi (biorq_voff_get r)) l end.
Fixpoint reach (hi : Z) (l : list biorq) : Z :=
  match l with [] => hi | r :: l => reach (Z.max hi (biorq_voff_get r)) l end.
Definition off_le (a b : biorq) : Prop := biorq_off a ≤ biorq_off b.

(** The requests of a group in order, and the range they cover. *)
Definition group_of (rs : list biorq) (g : bmpc_write_coalescer) : Prop :=
  match rs with
  | [] => False
  | r :: rs => bwc_soff g = biorq_off r ∧ joined (biorq_voff_get r) rs ∧ bwc_soff g + bwc_size g = reach (biorq_voff_get r) rs
  end.

Lemma joined_app hi l k : joined hi (l ++ k) ↔ joined hi l ∧ joined (reach hi l) k.
Proof. revert hi. induction l as [|r l IH]; intros hi; simpl; [tauto|]. rewrite IH. tauto. Qed.
Lemma reach_app hi l k : reach hi (l ++ k) = reach (reach hi l) k.
Proof. revert hi. induction l as [|r l IH]; intros hi; simpl; [done|]. apply IH. Qed.
Lemma reach_ge hi l : hi ≤ reach hi l.
Proof. revert hi. induction l as [|r l IH]; intros hi; simpl; [lia|]. specialize (IH (Z.max hi (biorq_voff_get r))). lia. Qed.
Lemma reach_elem hi l r : r ∈ l → biorq_voff_get r ≤ reach hi l.
Proof.
  revert hi. induction l as [|r' l IH]; intros hi Hr; simpl; [by apply elem_of_nil in Hr|].
  apply elem_of_cons in Hr as [->|Hr]; [|by apply IH]. pose proof (reach_ge (Z.max hi (biorq_voff_get r')) l). lia.
Qed.

Section try.
Context `{PflNet} (now : Z).
Abbreviation due r := (bmap_flush_biorq_expired now r).
Abbreviation rqs l := (snd <$> (l : list (nat * biorq))).
Abbreviation ids l := (fst <$> (l : list (nat * biorq))).

(** Where the loop is: [A] was passed over, [G] is the group. *)
Record at_group (A G : list (nat * biorq)) (last : biorq) (g : bmpc_write_coalescer) (expired : bool) : Prop := {
  ag_ids : bwc_biorqs g = ids G;
  ag_group : group_of (rqs G) g;
  ag_last : biorq_voff_get last = bwc_soff g + bwc_size g;
  ag_in : last ∈ rqs G;
  ag_size : 0 < bwc_size g ≤ LNET_MTU_RIC;
  ag_skip : ∀ r, r ∈ rqs A → due r = false;
  ag_due : expired = false → ∀ r, r ∈ rqs G → due r = false;
}.

Lemma at_start A id r : (∀ q, q ∈ rqs A → due q = false) → 0 < biorq_len r ≤ LNET_MTU_RIC → at_group A [(id, r)] r (bwc_start id r) (due r).
Proof.
  intros HA Hr. split; simpl; try done.
  - left.
  - intros Hd q Hq%list_elem_of_singleton. by subst q.
Qed.

Lemma group_snoc G g id curr last :
  group_of (rqs G) g → biorq_voff_get last = bwc_soff g + bwc_size g → biorq_off curr ≤ biorq_voff_get last →
  group_of (rqs (G ++ [(id, curr)])) (bwc_add g id (biorq_voff_get curr - biorq_voff_get last)).
Proof.
  rewrite fmap_app. simpl. unfold group_of. destruct (rqs G) as [|r0 G']; [done|]. intros (Hs & Hj & He) Hl Hc. simpl.
  split_and!; [done| |].
  - apply joined_app. split; [done|]. simpl. lia.
  - rewrite reach_app. simpl. rewrite Z.gtb_ltb. destruct (Z.ltb_spec 0 (biorq_voff_get curr - biorq_voff_get last)); lia.
Qed.

Lemma trycoalesce_loop_spec : ∀ l A G last g expired,
  at_group A G last g expired → StronglySorted off_le (rqs (A ++ G ++ l)) → (∀ r, r ∈ rqs l → 0 < biorq_len r ≤ LNET_MTU_RIC) →
  ∃ large expired' g' A' G' l' last', trycoalesce_loop now l (length (A ++ G)) last g expired = Done (large, expired', g', length (A' ++ G')) ∧
    A ++ G ++ l = A' ++ G' ++ l' ∧ at_group A' G' last' g' expired' ∧ (large = false → expired' = false → l' = []).
Proof.
  induction l as [|[id curr] l IH]; intros A G last g expired HG Hs Hl.
  { exists false, expired, g, A, G, [], last. done. }
  assert (biorq_off last ≤ biorq_off curr) as Hle.
  { rewrite app_assoc, fmap_app in Hs. apply (StronglySorted_app_1_elem_of off_le _ _ last curr Hs); [|left].
    rewrite fmap_app, elem_of_app. right. apply HG. }
  assert (0 < biorq_len curr ≤ LNET_MTU_RIC) as Hlen by (apply Hl; left).
  assert (∀ r, r ∈ rqs l → 0 < biorq_len r ≤ LNET_MTU_RIC) as Hl' by (intros r Hr; apply Hl; by right).
  destruct HG as [H1 H2 H3 H4 H5 H6 H7]. simpl. rewrite Z.geb_leb. destruct (Z.leb_spec (biorq_off last) (biorq_off curr)); [|lia]. cbn [negb].
  destruct (Z.leb_spec (biorq_off curr) (biorq_voff_get last)) as [Hj|Hj].
  - destruct ((biorq_voff_get curr - biorq_voff_get last >? 0) && _) eqn:Hbig.
    { exists true, (expired || due curr), g, A, G, ((id, curr) :: l), last. split_and!; [done..| |done].
      split; try done. intros [He _]%orb_false_iff. by apply H7. }
    assert (at_group A (G ++ [(id, curr)]) (if biorq_voff_get curr - biorq_voff_get last <? 0 then last else curr)
      (bwc_add g id (biorq_voff_get curr - biorq_voff_get last)) (expired || due curr)) as HG'.
    { rewrite Z.gtb_ltb in Hbig. split; simpl; rewrite ?Z.gtb_ltb in *.
      - by rewrite H1, fmap_app.
      - by apply group_snoc.
      - destruct (Z.ltb_spec (biorq_voff_get curr - biorq_voff_get last) 0), (Z.ltb_spec 0 (biorq_voff_get curr - biorq_voff_get last)); lia.
      - rewrite fmap_app, elem_of_app. destruct (_ <? 0); [by left|right; left].
      - destruct (Z.ltb_spec 0 (biorq_voff_get curr - biorq_voff_get last)); [|done]. simpl in Hbig. unfold MIN_COALESCE_RPC_SZ in Hbig. lia.
      - done.
      - intros [He Hd]%orb_false_iff r. rewrite fmap_app, elem_of_app. intros [Hr|Hr%list_elem_of_singleton]; [by apply H7|by subst r]. }
    destruct (IH A (G ++ [(id, curr)]) _ _ _ HG') as (large & ex' & g' & A' & G' & l' & last' & Hrun & Heq & Hg' & Hend);
      [by rewrite <-app_assoc|done|].
    exists large, ex', g', A', G', l', last'. split_and!; [|by rewrite <-Heq, <-app_assoc|done|done].
    rewrite <-Hrun. f_equal. rewrite !length_app. simpl. lia.
  - destruct (expired || due curr) eqn:Hex.
    { exists false, true, g, A, G, ((id, curr) :: l), last. split_and!; [done..| |done]. by split. }
    apply orb_false_iff in Hex as [-> Hd].
    destruct (IH (A ++ G) [(id, curr)] curr (bwc_start id curr) (due curr)) as (large & ex' & g' & A' & G' & l' & last' & Hrun & Heq & Hg' & Hend).
    { apply at_start; [|done]. intros r. rewrite fmap_app, elem_of_app. intros [Hr|Hr]; [by apply H6|by apply H7]. }
    { by rewrite <-app_assoc. }
    { done. }
    exists large, ex', g', A', G', l', last'. split_and!; [|by rewrite <-Heq, <-app_assoc|done|done].
    rewrite <-Hrun, Hd. f_equal. rewrite !length_app. simpl. lia.
Qed.

Lemma trycoalesce_spec l :
  l ≠ [] → StronglySorted off_le (rqs l) → (∀ r, r ∈ rqs l → 0 < biorq_len r ≤ LNET_MTU_RIC) →
  ∃ A G l', l = A ++ G ++ l' ∧ G ≠ [] ∧ (∀ r, r ∈ rqs A → due r = false) ∧
    ((∃ g, bmap_flush_trycoalesce now l = Done (Some g, length (A ++ G)) ∧ bwc_biorqs g = ids G ∧ group_of (rqs G) g ∧ 0 < bwc_size g ≤ LNET_MTU_RIC) ∨
     (bmap_flush_trycoalesce now l = Done (None, length l) ∧ ∀ r, r ∈ rqs l → due r = false)).
Proof.
  intros Hne Hs Hl. destruct l as [|[id r] l]; [done|].
  destruct (trycoalesce_loop_spec l [] [(id, r)] r (bwc_start id r) (due r)) as (large & ex & g & A & G & l' & last & Hrun & Heq & HG & Hend).
  { apply at_start; [intros ? Hq; by apply elem_of_nil in Hq|apply Hl; left]. }
  { done. }
  { intros q Hq. apply Hl. by right. }
  simpl in Hrun, Heq. destruct HG as [H1 H2 H3 H4 H5 H6 H7].
  assert (G ≠ []) as HG by (intros ->; by apply elem_of_nil in H4).
  exists A, G, l'. split_and!; [done|done|done|]. unfold bmap_flush_trycoalesce. rewrite Hrun.
  destruct (large || ex) eqn:Hle; [left; by exists g|right]. apply orb_false_iff in Hle as [-> ->]. rewrite (Hend eq_refl eq_refl), app_nil_r in Heq.
  rewrite Heq. split; [done|]. intros q. rewrite fmap_app, elem_of_app. intros [Hq|Hq]; [by apply H6|by apply H7].
Qed.

(** A group of a pass: consecutive requests that cover one range. *)
Definition part_of (l : list (nat * biorq)) (g : bmpc_write_coalescer) : Prop :=
  ∃ A G l', l = A ++ G ++ l' ∧ bwc_biorqs g = ids G ∧ group_of (rqs G) g ∧ 0 < bwc_size g ≤ LNET_MTU_RIC.
Lemma part_of_app k l g : part_of l g → part_of (k ++ l) g.
Proof. intros (A & G & l' & -> & Hg). exists (k ++ A), G, l'. by rewrite <-app_assoc. Qed.

Lemma flush_groups_spec : ∀ n l,
  (length l ≤ n)%nat → StronglySorted off_le (rqs l) → (∀ r, r ∈ rqs l → 0 < biorq_len r ≤ LNET_MTU_RIC) →
  ∃ gs, flush_groups n now l = Done gs ∧ (∀ g, g ∈ gs → part_of l g) ∧ concat (bwc_biorqs <$> gs) `sublist_of` ids l ∧
    (∀ id r, (id, r) ∈ l → due r = true → id ∈ concat (bwc_biorqs <$> gs)).
Proof.
  induction n as [|n IH]; intros l Hn Hs Hl.
  { destruct l; [|simpl in Hn; lia]. exists []. split_and!; [done| |done|]; intros ? *; rewrite ?elem_of_nil; done. }
  destruct (decide (l = [])) as [->|Hne].
  { exists []. split_and!; [done| |done|]; intros ? *; rewrite ?elem_of_nil; done. }
  destruct (trycoalesce_spec l Hne Hs Hl) as (A & G & l' & -> & HG & HA & [(g & Hrun & H1 & H2 & H3)|[Hrun Hd]]).
  - destruct (IH l') as (gs & Hgs & Hp & Hsub & Hdue).
    { rewrite !length_app in Hn. destruct G; [done|]. simpl in Hn. lia. }
    { rewrite !fmap_app in Hs. by apply StronglySorted_app_1_r, StronglySorted_app_1_r in Hs. }
    { intros r Hr. apply Hl. rewrite !fmap_app, !elem_of_app. tauto. }
    exists (g :: gs). split_and!.
    + destruct (A ++ G ++ l') as [|x y] eqn:Hx; [done|]. cbn [flush_groups]. rewrite Hrun, <-Hx, app_assoc, drop_app_length, Hgs. done.
    + intros g' [->|Hg']%elem_of_cons; [by exists A, G, l'|]. apply part_of_app, part_of_app. by apply Hp.
    + simpl. rewrite H1, !fmap_app. apply sublist_inserts_l. by apply sublist_app.
    + intros id r Hin Hd. simpl. rewrite H1. rewrite !elem_of_app in *. destruct Hin as [Hin|[Hin|Hin]].
      * rewrite HA in Hd; [done|]. by apply (list_elem_of_fmap_2' snd A (id, r)).
      * left. by apply (list_elem_of_fmap_2' fst G (id, r)).
      * right. by eapply Hdue.
  - exists []. split_and!.
    + destruct (A ++ G ++ l') as [|x y] eqn:Hx; [done|]. cbn [flush_groups]. by rewrite Hrun.
    + intros g Hg. by apply elem_of_nil in Hg.
    + apply sublist_nil_l.
    + intros id r Hin Hdu. rewrite Hd in Hdu; [done|]. by apply (list_elem_of_fmap_2' snd _ (id, r)).
Qed.
End try.

(** ** Pages of a range *)
Ltac zdiv := Z.div_mod_to_equations; lia.
Lemma bufsz_eq : BMPC_BUFSZ = 32768.
Proof. done. Qed.
Lemma page_align_eq x : page_align x = BMPC_BUFSZ * (x / BMPC_BUFSZ).
Proof.
  unfold page_align. change BMPC_BUFMASK with (Z.ones 15). rewrite <-Z.ldiff_land, Z.ldiff_ones_r by done.
  rewrite Z.shiftr_div_pow2, Z.shiftl_mul_pow2 by done. change (2 ^ 15) with BMPC_BUFSZ. lia.
Qed.
Lemma page_align_bound x : page_align x ≤ x < page_align x + BMPC_BUFSZ.
Proof. rewrite page_align_eq. pose proof (Z.mul_div_le x BMPC_BUFSZ). pose proof (Z.mul_succ_div_gt x BMPC_BUFSZ). rewrite bufsz_eq in *. lia. Qed.
Lemma page_align_uniq x p : page_align p = p → p ≤ x < p + BMPC_BUFSZ → page_align x = p.
Proof. rewrite !page_align_eq. intros Hp Hx. rewrite bufsz_eq in *. zdiv. Qed.
Lemma npages_eq off len : 0 < len → biorq_npages off len = (off + len - 1) / BMPC_BUFSZ - off / BMPC_BUFSZ + 1.
Proof.
  intros Hlen. unfold biorq_npages. change BMPC_BUFMASK with (Z.ones 15). rewrite Z.land_ones by done. change (2 ^ 15) with BMPC_BUFSZ.
  cbv zeta. rewrite bufsz_eq. destruct (Z.eqb_spec ((len + off mod 32768) mod 32768) 0); zdiv.
Qed.
Lemma elem_of_prange x a n : x ∈ prange a n ↔ ∃ i, 0 ≤ i < Z.of_nat n ∧ x = a + i * BMPC_BUFSZ.
Proof.
  revert a. induction n as [|n IH]; intros a; simpl; [rewrite elem_of_nil; split; [done|intros (i & ? & _); lia]|].
  rewrite elem_of_cons, IH. split.
  - intros [->|(i & Hi & ->)]; [exists 0; lia|exists (i + 1); lia].
  - intros (i & Hi & ->). destruct (decide (i = 0)) as [->|]; [left; lia|right; exists (i - 1); lia].
Qed.
Lemma prange_app a n m : prange a (n + m) = prange a n ++ prange (a + Z.of_nat n * BMPC_BUFSZ) m.
Proof.
  revert a. induction n as [|n IH]; intros a; simpl; [by rewrite Z.add_0_r|]. rewrite IH. do 3 f_equal. lia.
Qed.
Lemma length_prange a n : length (prange a n) = n.
Proof. revert a. induction n as [|n IH]; intros a; simpl; [done|by rewrite IH]. Qed.
Lemma last_prange a n : last (prange a (S n)) = Some (a + Z.of_nat n * BMPC_BUFSZ).
Proof. replace (S n) with (n + 1)%nat by lia. rewrite prange_app. simpl. apply last_snoc. Qed.
Lemma NoDup_prange a n : NoDup (prange a n).
Proof.
  revert a. induction n as [|n IH]; intros a; simpl; [constructor|]. constructor; [|apply IH].
  rewrite elem_of_prange, bufsz_eq. intros (i & ? & ?). lia.
Qed.
(** The pages of a range are those of its bytes. *)
Lemma elem_of_page_offs p off len : 0 < len →
  p ∈ biorq_page_offs off len ↔ page_align p = p ∧ page_align off ≤ p ∧ p < off + len.
Proof.
  intros Hlen. unfold biorq_page_offs. rewrite elem_of_prange, npages_eq, !page_align_eq by done. rewrite bufsz_eq. split.
  - intros (i & Hi & ->). split_and!; zdiv.
  - intros (Hp & Hlo & Hhi). exists (p / 32768 - off / 32768). split; zdiv.
Qed.
Lemma page_offs_byte x off len : off ≤ x < off + len → page_align x ∈ biorq_page_offs off len.
Proof.
  intros Hx. apply elem_of_page_offs; [lia|]. pose proof (page_align_bound x). split_and!; [|rewrite !page_align_eq|lia].
  - apply page_align_uniq; [|lia]. rewrite !page_align_eq. rewrite bufsz_eq. zdiv.
  - rewrite bufsz_eq. zdiv.
Qed.

(** The byte of the bmap at [x], as its page has it. *)
Definition page_byte (m : gmap Z bmpce) (x : Z) : Z :=
  match m !! page_align x with Some e => bmpce_base e (x - page_align x) | None => 0 end.

(** ** The pages and the bytes of an RPC *)
Definition pgs_in (s : pcache) (l : list Z) : Prop :=
  ∀ p, p ∈ l → ∃ e, pc_tree s !! p = Some e ∧ bmpce_off e = p ∧ 0 < bmpce_ref e.
(** A request as [msl_biorq_build] makes it. *)
Definition rq_shape (r : biorq) : Prop :=
  0 ≤ biorq_off r ∧ 0 < biorq_len r ∧ biorq_off r + biorq_len r ≤ SLASH_BMAP_SIZE ∧ biorq_pages r = biorq_page_offs (biorq_off r) (biorq_len r).

Section map.
Context `{PflNetLaws}.

Lemma max_iov : BMPC_COALESCE_MAX_IOV = 33.
Proof. unfold BMPC_COALESCE_MAX_IOV, BMPC_MAXBUFSRPC. by rewrite MTU_slvr. Qed.

(** The loop over the pages of a request, when the group has [k] pages from
    [a] on and the next page of the request is the one at position [j]. *)
Lemma wp_prep_pages n : ∀ (first : bool) roff off reqsz a (j k : nat) s (Q : Z * list Z → pcache → Prop),
  let cur := a + Z.of_nat j * BMPC_BUFSZ in
  pgs_in s (prange a (j + n)) → pgs_in s (prange a k) → cur = (if first then page_align roff else off) → cur ≤ off < cur + BMPC_BUFSZ →
  (first = true → off = roff) → (j ≤ k)%nat → Z.of_nat (j + n) ≤ BMPC_COALESCE_MAX_IOV →
  0 ≤ reqsz → (n = O → reqsz = 0) → (n ≠ O → cur + Z.of_nat (n - 1) * BMPC_BUFSZ < off + reqsz ≤ cur + Z.of_nat n * BMPC_BUFSZ) →
  Q (0, prange a (Nat.max k (j + n))) s → wp (prep_pages first roff (prange cur n) off reqsz (prange a k)) Q s.
Proof.
  induction n as [|n IH]; intros first roff off reqsz a j k s Q cur Hp1 Hp2 Hcur Hoff Hfirst Hjk Hmax Hsz Hn0 Hn HQ.
  { simpl. wp_step. rewrite (Hn0 eq_refl). rewrite Nat.add_0_r, Nat.max_l in HQ by lia. done. }
  clear Hn0. specialize (Hn ltac:(done)). replace (S n - 1)%nat with n in Hn by lia. simpl.
  destruct (Hp1 cur) as (e & He & Heo & Her); [apply elem_of_prange; exists (Z.of_nat j); lia|].
  wp_step. eapply wp_getPg; [exact He|]. wp_step. apply wp_assert; [lia|]. wp_step. apply wp_assert; [rewrite Heo; by apply Z.eqb_eq|].
  cbv zeta. rewrite Heo. set (tlen := Z.min reqsz _). wp_step.
  apply wp_mono with (P := λ acc s', acc = prange a (Nat.max k (j + 1)) ∧ s' = s).
  { destruct k as [|k].
    { simpl. wp_step. assert (j = O) as -> by lia. split; [|done]. simpl. unfold cur. do 2 f_equal. lia. }
    rewrite last_prange. destruct (Hp2 (a + Z.of_nat k * BMPC_BUFSZ)) as (e2 & He2 & Heo2 & _).
    { apply elem_of_prange. exists (Z.of_nat k). lia. }
    wp_step. eapply wp_getPg; [exact He2|]. rewrite ?Heo, Heo2, Z.geb_leb. unfold cur. rewrite bufsz_eq in *.
    destruct (Z.leb_spec (a + Z.of_nat j * 32768) (a + Z.of_nat k * 32768)).
    - wp_step. split; [|done]. f_equal. lia.
    - assert (j = S k) as -> by lia. wp_step. apply wp_assert; [apply Z.eqb_eq; lia|]. rewrite length_prange.
      destruct (Z.ltb_spec (Z.of_nat (S k)) BMPC_COALESCE_MAX_IOV); [|lia]. wp_step. split; [|done].
      rewrite Nat.max_r by lia. rewrite prange_app. simpl. by rewrite bufsz_eq. }
  intros acc s' [-> ->]. replace (cur + BMPC_BUFSZ) with (a + Z.of_nat (S j) * BMPC_BUFSZ) by (unfold cur; lia).
  assert (tlen = Z.min reqsz (BMPC_BUFSZ - (off - cur))) as Ht.
  { unfold tlen. destruct first; [done|]. f_equal. lia. }
  destruct n as [|n].
  - simpl in Hn. simpl. wp_step. replace (reqsz - tlen) with 0 by lia. done.
  - apply IH; try lia; try done.
    + replace (S j + S n)%nat with (j + S (S n))%nat by lia. done.
    + intros p Hp. destruct (decide (p ∈ prange a k)) as [|Hnp]; [by apply Hp2|]. apply Hp1. rewrite elem_of_prange in *.
      destruct Hp as (i & Hi & ->). exists i. split; [|done]. destruct (decide (Z.of_nat k ≤ i)); [lia|]. exfalso. apply Hnp. exists i. lia.
    + subst cur. rewrite bufsz_eq in *. lia.
    + subst cur. rewrite bufsz_eq in *. lia.
    + subst cur. rewrite bufsz_eq in *. intros _. lia.
    + replace (Nat.max (Nat.max k (j + 1)) (S j + S n)) with (Nat.max k (j + S (S n))) by lia. done.
Qed.

(** The loop over the requests of a group. *)
Lemma wp_prep_loop rs : ∀ a soff e hi loff k s (Q : option biorq * list Z → pcache → Prop),
  (∀ r, r ∈ rs → rq_shape r ∧ soff ≤ biorq_off r ∧ loff ≤ biorq_off r ∧ pgs_in s (biorq_pages r)) → StronglySorted off_le rs →
  a = page_align soff → k = Z.to_nat (biorq_npages soff (hi - soff)) → pgs_in s (prange a k) → soff < hi → biorq_voff_get e = hi → joined hi rs →
  biorq_npages soff (reach hi rs - soff) ≤ BMPC_COALESCE_MAX_IOV →
  (∀ e', biorq_voff_get e' = reach hi rs → Q (Some e', biorq_page_offs soff (reach hi rs - soff)) s) →
  wp (prep_loop rs (Some e) loff (prange a k)) Q s.
Proof.
  induction rs as [|r rs IH]; intros a soff e hi loff k s Q Hrs Hs Ha Hk Hpg Hhi He Hj Hmax HQ.
  { simpl. wp_step. subst a k. by apply HQ. }
  destruct (Hrs r ltac:(left)) as ((Hr0 & Hrl & Hre & Hrp) & Hrs1 & Hrs2 & Hrpg). simpl in Hj, Hmax, HQ. destruct Hj as [Hj1 Hj].
  apply StronglySorted_inv in Hs as [Hs Hall]. rewrite Forall_forall in Hall.
  set (hi' := Z.max hi (biorq_voff_get r)) in *. pose proof (reach_ge hi' rs) as Hge.
  simpl. wp_step. wp_step. apply wp_assert; [lia|]. wp_step. apply wp_assert; [lia|]. wp_step.
  set (e' := if biorq_voff_get r >? biorq_voff_get e then r else e).
  assert (biorq_voff_get e' = hi') as He' by (unfold e', hi'; rewrite Z.gtb_ltb; destruct (Z.ltb_spec (biorq_voff_get e) (biorq_voff_get r)); lia).
  wp_step. rewrite Hrp. unfold biorq_page_offs.
  set (j := Z.to_nat (biorq_off r / BMPC_BUFSZ - soff / BMPC_BUFSZ)). set (n := Z.to_nat (biorq_npages (biorq_off r) (biorq_len r))).
  assert (0 < biorq_npages (biorq_off r) (biorq_len r)) as Hnp by (rewrite npages_eq by done; rewrite bufsz_eq; zdiv).
  assert (page_align (biorq_off r) = a + Z.of_nat j * BMPC_BUFSZ) as Hpa.
  { unfold j. subst a. rewrite !page_align_eq. rewrite bufsz_eq. rewrite Z2Nat.id by zdiv. lia. }
  unfold biorq_voff_get in Hj1, He, hi'.
  assert (Nat.max k (j + n) = Z.to_nat (biorq_npages soff (hi' - soff))) as Hk'.
  { subst k. unfold j, n, hi'. rewrite !npages_eq by lia. rewrite bufsz_eq. zdiv. }
  assert (pgs_in s (prange a (Nat.max k (j + n)))) as Hpg'.
  { intros p Hp. destruct (decide (p ∈ prange a k)) as [|Hnp']; [by apply Hpg|]. apply Hrpg. rewrite Hrp. unfold biorq_page_offs. fold n.
    rewrite Hpa. rewrite elem_of_prange in *. destruct Hp as (i & Hi & ->).
    destruct (decide (i < Z.of_nat k)); [destruct Hnp'; exists i; lia|]. exists (i - Z.of_nat j).
    assert (j ≤ k)%nat; [|lia]. subst k. unfold j. rewrite !npages_eq by lia. rewrite bufsz_eq. zdiv. }
  rewrite Hpa. apply wp_prep_pages; try done.
  - intros p Hp. apply Hpg'. rewrite elem_of_prange in *. destruct Hp as (i & Hi & ->). exists i. lia.
  - rewrite <-Hpa. apply page_align_bound.
  - subst k. unfold j. rewrite !npages_eq by lia. rewrite bufsz_eq. zdiv.
  - assert (Z.of_nat (j + n) ≤ biorq_npages soff (hi' - soff)).
    { unfold j, n, hi'. rewrite !npages_eq by lia. rewrite bufsz_eq. zdiv. }
    assert (biorq_npages soff (hi' - soff) ≤ biorq_npages soff (reach hi' rs - soff)); [|lia].
    rewrite !npages_eq by lia. rewrite bufsz_eq. zdiv.
  - lia.
  - unfold n. lia.
  - intros _. rewrite <-Hpa. unfold n. rewrite !npages_eq, page_align_eq by done. rewrite bufsz_eq. zdiv.
  - rewrite Hk'. wp_step. apply wp_assert; [done|].
    apply (IH a soff e' hi'); try done; try lia; [|by rewrite <-Hk'].
    intros q Hq. destruct (Hrs q ltac:(by right)) as (Q1 & Q2 & Q3 & Q4). split_and!; [done|done|by apply Hall|done].
Qed.

Lemma wp_map_loop n : ∀ (first : bool) roff cur off tot s (Q : list iovec * Z → pcache → Prop),
  pgs_in s (prange cur n) → page_align cur = cur → off = (if first then roff else cur) → cur ≤ off < cur + BMPC_BUFSZ → 0 ≤ tot → (n = O → tot = 0) →
  (n ≠ O → cur + Z.of_nat (n - 1) * BMPC_BUFSZ < off + tot ≤ cur + Z.of_nat n * BMPC_BUFSZ) →
  (∀ iovs, length iovs = n → (∀ m i, 0 ≤ i < tot → iov_bytes m iovs i = page_byte m (off + i)) → Q (iovs, 0) s) →
  wp (map_loop first roff (prange cur n) tot) Q s.
Proof.
  induction n as [|n IH]; intros first roff cur off tot s Q Hp Hal Hoff Hb Ht Hn0 Hn HQ.
  { simpl. wp_step. rewrite (Hn0 eq_refl) in *. apply HQ; [done|lia]. }
  clear Hn0. specialize (Hn ltac:(done)). replace (S n - 1)%nat with n in Hn by lia. simpl.
  destruct (Hp cur ltac:(left)) as (e & He & Heo & _). wp_step. eapply wp_getPg; [exact He|]. cbv zeta. rewrite Heo.
  set (len := Z.min tot _). assert (len = Z.min tot (BMPC_BUFSZ - (off - cur))) as Hlen by (unfold len; destruct first; subst off; f_equal; lia).
  set (o := if first then _ else _). assert (o = off - cur) as Ho by (unfold o; destruct first; subst off; lia).
  assert (∀ iovs m i, 0 ≤ i < len → iov_bytes m ({| iov_page := cur; iov_off := o; iov_len := len |} :: iovs) i = page_byte m (off + i)) as Hhead.
  { intros iovs m i Hi. simpl. destruct (Z.ltb_spec i len); [|lia]. unfold page_byte.
    rewrite (page_align_uniq (off + i) cur) by (done || lia). destruct (m !! cur); [|done]. f_equal. lia. }
  wp_step. destruct n as [|n].
  - simpl. wp_step. wp_step. replace (tot - len) with 0 by (simpl in Hn; lia). apply HQ; [done|]. intros m i Hi. apply Hhead. simpl in Hn. lia.
  - assert (len = BMPC_BUFSZ - (off - cur)) as Hlen' by (rewrite bufsz_eq in *; lia).
    apply (IH false roff (cur + BMPC_BUFSZ) (cur + BMPC_BUFSZ)); try lia.
    + intros p Hp'. apply Hp. by right.
    + apply page_align_uniq; [|rewrite bufsz_eq; lia]. rewrite page_align_eq in *. rewrite bufsz_eq in *. zdiv.
    + intros iovs Hl Hby. wp_step. apply HQ; [simpl; by rewrite Hl|]. intros m i Hi.
      destruct (decide (i < len)); [apply Hhead; lia|]. simpl. destruct (Z.ltb_spec i len); [lia|].
      rewrite Hby by lia. f_equal. lia.
Qed.

(** Every page of the range is a page of one of the requests. *)
Lemma joined_pages rs : ∀ hi soff p,
  joined hi rs → (∀ r, r ∈ rs → 0 < biorq_len r ∧ biorq_pages r = biorq_page_offs (biorq_off r) (biorq_len r)) →
  soff < hi → p ∈ biorq_page_offs soff (reach hi rs - soff) →
  p ∈ biorq_page_offs soff (hi - soff) ∨ ∃ r, r ∈ rs ∧ p ∈ biorq_pages r.
Proof.
  induction rs as [|r rs IH]; intros hi soff p Hj Hrs Hhi Hp; [by left|]. simpl in Hj, Hp. destruct Hj as [Hj1 Hj].
  destruct (Hrs r ltac:(left)) as [Hl Hpg]. destruct (IH (Z.max hi (biorq_voff_get r)) soff p) as [Hin|(q & Hq & Hin)]; try done; try lia.
  { intros q Hq. apply Hrs. by right. }
  2:{ right. exists q. split; [by right|done]. }
  destruct (decide (p ∈ biorq_page_offs soff (hi - soff))) as [|Hno]; [by left|]. right. exists r. split; [left|]. rewrite Hpg.
  rewrite elem_of_page_offs in * by (unfold biorq_voff_get in *; lia). unfold biorq_voff_get in *. destruct Hin as (Ha & Hb & Hc).
  split_and!; [done| |].
  - destruct (decide (hi ≤ p)); [|exfalso; apply Hno; split_and!; done || lia]. pose proof (page_align_bound (biorq_off r)). lia.
  - destruct (decide (p < hi)); [|lia]. exfalso. apply Hno. split_and!; done || lia.
Qed.
(** The RPC of a group has the pages of its range, and the bytes of the range
    as the pages have them. *)
Lemma wp_coalesce_map g rs s (Q : bmpc_write_coalescer → pcache → Prop) :
  group_of rs g → 0 < bwc_size g ≤ LNET_MTU_RIC → StronglySorted off_le rs → (∀ r, r ∈ rs → rq_shape r ∧ pgs_in s (biorq_pages r)) →
  (∀ iovs, Z.of_nat (length iovs) ≤ 33 → (∀ m i, 0 ≤ i < bwc_size g → iov_bytes m iovs i = page_byte m (bwc_soff g + i)) →
     Q {| bwc_size := bwc_size g; bwc_soff := bwc_soff g; bwc_biorqs := bwc_biorqs g; bwc_iovs := iovs;
          bwc_bmpces := biorq_page_offs (bwc_soff g) (bwc_size g) |} s) →
  wp (bmap_flush_coalesce_map g rs) Q s.
Proof.
  intros Hg Hsz Hs Hrs HQ. destruct rs as [|r rs]; [done|]. destruct Hg as (Hso & Hj & Hre).
  destruct (Hrs r ltac:(left)) as ((Hr0 & Hrl & Hrb & Hrp) & Hrpg). apply StronglySorted_inv in Hs as [Hs Hall]. rewrite Forall_forall in Hall.
  assert (biorq_npages (bwc_soff g) (bwc_size g) ≤ BMPC_COALESCE_MAX_IOV) as Hmax.
  { rewrite max_iov, npages_eq by lia. rewrite MTU_slvr in Hsz. unfold SLASH_SLVR_SIZE in Hsz. rewrite bufsz_eq. zdiv. }
  unfold bmap_flush_coalesce_map, bmap_flush_coalesce_prep. wp_step. wp_step. simpl. wp_step. wp_step.
  set (n := Z.to_nat (biorq_npages (biorq_off r) (biorq_len r))).
  assert (Z.of_nat n = biorq_npages (biorq_off r) (biorq_len r)) as Hn by (unfold n; rewrite npages_eq by done; rewrite bufsz_eq; zdiv).
  unfold biorq_voff_get in Hre, Hj. pose proof (reach_ge (biorq_off r + biorq_len r) rs) as Hge.
  rewrite Hrp in *. unfold biorq_page_offs in *. fold n in Hrpg |- *.
  replace (page_align (biorq_off r)) with (page_align (biorq_off r) + Z.of_nat 0 * BMPC_BUFSZ) at 1 by lia.
  wp_step. apply (wp_prep_pages n true (biorq_off r) (biorq_off r) (biorq_len r) (page_align (biorq_off r)) 0 0).
  1: done.
  1: intros p Hp; by apply elem_of_nil in Hp.
  1: lia.
  1: pose proof (page_align_bound (biorq_off r)); lia.
  1,2: done.
  { simpl. rewrite Hn. assert (biorq_npages (biorq_off r) (biorq_len r) ≤ biorq_npages (bwc_soff g) (bwc_size g)); [|lia].
    rewrite !npages_eq by lia. rewrite bufsz_eq. zdiv. }
  1: lia.
  { intros Hz. rewrite Hz in Hn. rewrite npages_eq in Hn by done. rewrite bufsz_eq in Hn. zdiv. }
  { intros _. rewrite page_align_eq. rewrite npages_eq in Hn by done. rewrite bufsz_eq in *. zdiv. }
  wp_step. apply wp_assert; [done|]. simpl.
  apply (wp_prep_loop rs (page_align (biorq_off r)) (biorq_off r) r (biorq_off r + biorq_len r)); try done; try lia.
  { intros q Hq. destruct (Hrs q ltac:(by right)) as [? ?]. pose proof (Hall q Hq) as Hle. unfold off_le in Hle. done. }
  { unfold n. do 2 f_equal. lia. }
  { replace (reach (biorq_off r + biorq_len r) rs - biorq_off r) with (bwc_size g) by lia. by rewrite <-Hso. }
  intros e He. replace (reach (biorq_off r + biorq_len r) rs - biorq_off r) with (bwc_size g) by lia.
  wp_step. apply wp_assert; [unfold biorq_voff_get in He; apply Z.eqb_eq; lia|]. wp_step. wp_step. apply wp_assert; [by apply Z.eqb_eq|]. wp_step.
  set (k := Z.to_nat (biorq_npages (biorq_off r) (bwc_size g))). unfold biorq_page_offs at 1. fold k.
  assert (Z.of_nat k = biorq_npages (biorq_off r) (bwc_size g)) as Hk by (unfold k; rewrite npages_eq by lia; rewrite bufsz_eq; zdiv).
  apply (wp_map_loop k true (biorq_off r) (page_align (biorq_off r)) (biorq_off r) (bwc_size g)).
  - intros p. unfold k. fold (biorq_page_offs (biorq_off r) (bwc_size g)). intros Hp.
    replace (bwc_size g) with (reach (biorq_off r + biorq_len r) rs - biorq_off r) in Hp by lia.
    destruct (λ A B, joined_pages rs _ (biorq_off r) p Hj A B Hp) as [Hin|(q & Hq & Hin)].
    + intros q Hq. destruct (Hrs q ltac:(by right)) as [(? & ? & ? & ?) _]. done.
    + lia.
    + apply Hrpg. replace (biorq_off r + biorq_len r - biorq_off r) with (biorq_len r) in Hin by lia. exact Hin.
    + destruct (Hrs q ltac:(by right)) as [_ Hpq]. by apply Hpq.
  - apply page_align_uniq; [|pose proof (page_align_bound (biorq_off r)); rewrite bufsz_eq in *; lia].
    rewrite !page_align_eq. rewrite bufsz_eq. zdiv.
  - done.
  - apply page_align_bound.
  - lia.
  - intros Hz. rewrite Hz in Hk. rewrite npages_eq in Hk by lia. rewrite bufsz_eq in Hk. zdiv.
  - intros _. rewrite page_align_eq. rewrite npages_eq in Hk by lia. rewrite bufsz_eq in *. zdiv.
  - intros iovs Hl Hby. wp_step. apply wp_assert; [rewrite Hl, Hk, <-Hso; lia|]. wp_step. apply wp_assert; [done|]. wp_step.
    rewrite Hso in HQ. rewrite Hso. apply HQ; [|done]. rewrite Hl, Hk, <-Hso, <-max_iov. done.
Qed.
Lemma coalesce_map_run g rs s :
  group_of rs g → 0 < bwc_size g ≤ LNET_MTU_RIC → StronglySorted off_le rs → (∀ r, r ∈ rs → rq_shape r ∧ pgs_in s (biorq_pages r)) →
  ∃ g', bmap_flush_coalesce_map g rs s = Done (g', s) ∧ bwc_soff g' = bwc_soff g ∧ bwc_size g' = bwc_size g ∧ Z.of_nat (length (bwc_iovs g')) ≤ 33 ∧
    bwc_bmpces g' = biorq_page_offs (bwc_soff g) (bwc_size g) ∧ ∀ i, 0 ≤ i < bwc_size g → iov_bytes (pc_tree s) (bwc_iovs g') i = page_byte (pc_tree s) (bwc_soff g + i).
Proof.
  intros Hg Hsz Hs Hrs. destruct (wp_run (bmap_flush_coalesce_map g rs) (λ g' s', s' = s ∧ bwc_soff g' = bwc_soff g ∧ bwc_size g' = bwc_size g ∧ Z.of_nat (length (bwc_iovs g')) ≤ 33 ∧
    bwc_bmpces g' = biorq_page_offs (bwc_soff g) (bwc_size g) ∧ ∀ i, 0 ≤ i < bwc_size g → iov_bytes (pc_tree s) (bwc_iovs g') i = page_byte (pc_tree s) (bwc_soff g + i)) s) as (g' & s' & Hr & -> & HQ).
  { eapply wp_coalesce_map; try done. intros iovs Hn Hby. simpl. split_and!; try done. by apply Hby. }
  by exists g'.
Qed.
End map.
