(* ===== verification/Cio.v ===== *)
(** * Cached I/O of a client

    Reads and writes of a file that go through the page cache
    ([mount_slash/io.c]), and the flush thread that sends what was written to
    the I/O server ([mount_slash/bflush.c]). The state is that of one bmap: its
    pages, its requests, the RPCs in flight, where each thread is, and the data
    of the bmap on the I/O server. An operation of the code is cut at the points
    at which its thread may have to wait or another thread may come between,
    and each part is a step; [cstep] puts the steps together. Requests lie in
    one bmap; direct and asynchronous I/O are not modelled. *)
From S2P Require Import Prelude BmapMds ReplReq ReplWalk Lease Slvr SlvrIO Pgcache Coalesce.

(** ** Constants and data *)
Definition BMAPF_LEASEFAILED : Z := Z.shiftl BMAPF_SHIFT 2.
Definition BMAPF_LEASEEXPIRED : Z := Z.shiftl BMAPF_SHIFT 3.
Definition BMAPF_SCHED : Z := Z.shiftl BMAPF_SHIFT 4.
Definition BMAPF_FLUSHQ : Z := Z.shiftl BMAPF_SHIFT 6.
Definition SL_MAX_BMAPFLSH_RETRIES : Z := 2048.
Definition BMAP_CLI_EXTREQSECS : Z := 20.
Definition MAX_OUTSTANDING_RPCS : Z := 128.
(** 10 milliseconds *)
Definition msl_bflush_maxage : Z := 10000000.
Definition NSEC : Z := 1000000000.

(** What the file system is told. *)
Inductive reply :=
| ReplyRead (err len : Z) (d : data)
| ReplyWrite (len err : Z).

(** A write RPC, and whether the server has written all of it. *)
Record wrpc := { w_bwc : bmpc_write_coalescer; w_applied : bool }.
(** A read RPC: the request and pages it is for, the data the server sent, and
    the result once the pages are set. *)
Record rrpc := { rr_rq : nat; rr_pages : list Z; rr_data : option data; rr_done : option Z }.

(** Where a thread with a request is: in [msl_biorq_build] with pages to look
    up; before the first loop of [msl_launch_read_rpcs]; before the wait for
    pending writes; before its second loop; at a page of the loop of
    [msl_pages_fetch]; at the error handling of [msl_io]; before the release;
    at a page of [msl_pages_copyin]; before the reply; before
    [msl_pages_schedflush]. *)
Inductive pc :=
| PBuild (todo : list Z)
| PMark
| PFlush (pages : list Z)
| PLaunch (pages : list Z)
| PFetch (i : nat)
| PErr (rc : Z)
| PRel
| PCopy (i : nat) (toff tsize : Z)
| PReply
| PSched.

(** Where the flush thread is: in a pass with requests left to look at, or
    sending a group of which some pages are pinned. *)
Inductive flpc :=
| FIdle
| FPass (reqs : list nat)
| FSend (reqs : list nat) (g : bmpc_write_coalescer) (pinned : nat).

Record bmapc := {
  b_rqs : gmap nat biorq;             (* the requests that exist *)
  b_new : list nat;                   (* bmpc_new_biorqs, in order *)
  b_exp : list nat;                   (* bmpc_new_biorqs_exp *)
  b_pndg : list nat;                  (* bmpc_pndg_biorqs *)
  b_nwr : Z;                          (* bmpc_pndg_writes *)
  b_flags : Z;                        (* bcm_flags *)
  b_error : Z;                        (* bci_error *)
  b_flushrc : Z;                      (* bci_flush_rc *)
  b_ios : Z;                          (* sbd_ios *)
  b_onq : bool;                       (* on slc_bmapflushq *)
}.
Definition b_set_rqs (s : bmapc) (x : gmap nat biorq) : bmapc :=
  {| b_rqs := x; b_new := b_new s; b_exp := b_exp s; b_pndg := b_pndg s; b_nwr := b_nwr s; b_flags := b_flags s; b_error := b_error s;
     b_flushrc := b_flushrc s; b_ios := b_ios s; b_onq := b_onq s |}.
Definition b_set_new (s : bmapc) (x : list nat) : bmapc :=
  {| b_rqs := b_rqs s; b_new := x; b_exp := b_exp s; b_pndg := b_pndg s; b_nwr := b_nwr s; b_flags := b_flags s; b_error := b_error s;
     b_flushrc := b_flushrc s; b_ios := b_ios s; b_onq := b_onq s |}.
Definition b_set_exp (s : bmapc) (x : list nat) : bmapc :=
  {| b_rqs := b_rqs s; b_new := b_new s; b_exp := x; b_pndg := b_pndg s; b_nwr := b_nwr s; b_flags := b_flags s; b_error := b_error s;
     b_flushrc := b_flushrc s; b_ios := b_ios s; b_onq := b_onq s |}.
Definition b_set_pndg (s : bmapc) (x : list nat) : bmapc :=
  {| b_rqs := b_rqs s; b_new := b_new s; b_exp := b_exp s; b_pndg := x; b_nwr := b_nwr s; b_flags := b_flags s; b_error := b_error s;
     b_flushrc := b_flushrc s; b_ios := b_ios s; b_onq := b_onq s |}.
Definition b_set_nwr (s : bmapc) (x : Z) : bmapc :=
  {| b_rqs := b_rqs s; b_new := b_new s; b_exp := b_exp s; b_pndg := b_pndg s; b_nwr := x; b_flags := b_flags s; b_error := b_error s;
     b_flushrc := b_flushrc s; b_ios := b_ios s; b_onq := b_onq s |}.
Definition b_set_flags (s : bmapc) (x : Z) : bmapc :=
  {| b_rqs := b_rqs s; b_new := b_new s; b_exp := b_exp s; b_pndg := b_pndg s; b_nwr := b_nwr s; b_flags := x; b_error := b_error s;
     b_flushrc := b_flushrc s; b_ios := b_ios s; b_onq := b_onq s |}.
Definition b_set_error (s : bmapc) (x : Z) : bmapc :=
  {| b_rqs := b_rqs s; b_new := b_new s; b_exp := b_exp s; b_pndg := b_pndg s; b_nwr := b_nwr s; b_flags := b_flags s; b_error := x;
     b_flushrc := b_flushrc s; b_ios := b_ios s; b_onq := b_onq s |}.
Definition b_set_flushrc (s : bmapc) (x : Z) : bmapc :=
  {| b_rqs := b_rqs s; b_new := b_new s; b_exp := b_exp s; b_pndg := b_pndg s; b_nwr := b_nwr s; b_flags := b_flags s; b_error := b_error s;
     b_flushrc := x; b_ios := b_ios s; b_onq := b_onq s |}.
Definition b_set_ios (s : bmapc) (x : Z) : bmapc :=
  {| b_rqs := b_rqs s; b_new := b_new s; b_exp := b_exp s; b_pndg := b_pndg s; b_nwr := b_nwr s; b_flags := b_flags s; b_error := b_error s;
     b_flushrc := b_flushrc s; b_ios := x; b_onq := b_onq s |}.
Definition b_set_onq (s : bmapc) (x : bool) : bmapc :=
  {| b_rqs := b_rqs s; b_new := b_new s; b_exp := b_exp s; b_pndg := b_pndg s; b_nwr := b_nwr s; b_flags := b_flags s; b_error := b_error s;
     b_flushrc := b_flushrc s; b_ios := b_ios s; b_onq := x |}.
Record cl := {
  c_pc : pcache;                      (* the page cache *)
  c_b : bmapc;                        (* the bmap *)
  c_srv : data;                       (* the bmap on the I/O server *)
  c_fsz : Z;                          (* the size of the file, from the bmap on *)
  c_wr : gmap nat wrpc;               (* write RPCs in flight *)
  c_rd : gmap nat rrpc;               (* read RPCs in flight *)
  c_thr : gmap nat pc;                (* threads that have a request *)
  c_fl : flpc;                        (* the flush thread *)
  c_next : nat;                       (* the next name *)
  c_out : list (nat * reply);         (* replies to the file system *)
}.
Definition c_set_pc (s : cl) (x : pcache) : cl :=
  {| c_pc := x; c_b := c_b s; c_srv := c_srv s; c_fsz := c_fsz s; c_wr := c_wr s; c_rd := c_rd s; c_thr := c_thr s; c_fl := c_fl s;
     c_next := c_next s; c_out := c_out s |}.
Definition c_set_b (s : cl) (x : bmapc) : cl :=
  {| c_pc := c_pc s; c_b := x; c_srv := c_srv s; c_fsz := c_fsz s; c_wr := c_wr s; c_rd := c_rd s; c_thr := c_thr s; c_fl := c_fl s;
     c_next := c_next s; c_out := c_out s |}.
Definition c_set_srv (s : cl) (x : data) : cl :=
  {| c_pc := c_pc s; c_b := c_b s; c_srv := x; c_fsz := c_fsz s; c_wr := c_wr s; c_rd := c_rd s; c_thr := c_thr s; c_fl := c_fl s;
     c_next := c_next s; c_out := c_out s |}.
Definition c_set_fsz (s : cl) (x : Z) : cl :=
  {| c_pc := c_pc s; c_b := c_b s; c_srv := c_srv s; c_fsz := x; c_wr := c_wr s; c_rd := c_rd s; c_thr := c_thr s; c_fl := c_fl s;
     c_next := c_next s; c_out := c_out s |}.
Definition c_set_wr (s : cl) (x : gmap nat wrpc) : cl :=
  {| c_pc := c_pc s; c_b := c_b s; c_srv := c_srv s; c_fsz := c_fsz s; c_wr := x; c_rd := c_rd s; c_thr := c_thr s; c_fl := c_fl s;
     c_next := c_next s; c_out := c_out s |}.
Definition c_set_rd (s : cl) (x : gmap nat rrpc) : cl :=
  {| c_pc := c_pc s; c_b := c_b s; c_srv := c_srv s; c_fsz := c_fsz s; c_wr := c_wr s; c_rd := x; c_thr := c_thr s; c_fl := c_fl s;
     c_next := c_next s; c_out := c_out s |}.
Definition c_set_thr (s : cl) (x : gmap nat pc) : cl :=
  {| c_pc := c_pc s; c_b := c_b s; c_srv := c_srv s; c_fsz := c_fsz s; c_wr := c_wr s; c_rd := c_rd s; c_thr := x; c_fl := c_fl s;
     c_next := c_next s; c_out := c_out s |}.
Definition c_set_fl (s : cl) (x : flpc) : cl :=
  {| c_pc := c_pc s; c_b := c_b s; c_srv := c_srv s; c_fsz := c_fsz s; c_wr := c_wr s; c_rd := c_rd s; c_thr := c_thr s; c_fl := x;
     c_next := c_next s; c_out := c_out s |}.
Definition c_set_next (s : cl) (x : nat) : cl :=
  {| c_pc := c_pc s; c_b := c_b s; c_srv := c_srv s; c_fsz := c_fsz s; c_wr := c_wr s; c_rd := c_rd s; c_thr := c_thr s; c_fl := c_fl s;
     c_next := x; c_out := c_out s |}.
Definition c_set_out (s : cl) (x : list (nat * reply)) : cl :=
  {| c_pc := c_pc s; c_b := c_b s; c_srv := c_srv s; c_fsz := c_fsz s; c_wr := c_wr s; c_rd := c_rd s; c_thr := c_thr s; c_fl := c_fl s;
     c_next := c_next s; c_out := x |}.
Abbreviation CM A := (M cl A).

Definition liftPc {A} (m : PC A) : CM A := λ s,
  match m (c_pc s) with Done (a, p) => Done (a, c_set_pc s p) | Stuck w => Stuck w end.
Definition modB (f : bmapc → bmapc) : CM unit := modifyM (λ s, c_set_b s (f (c_b s))).
Definition getB : CM bmapc := getsM c_b.
Definition getRq (id : nat) : CM biorq := λ s,
  match b_rqs (c_b s) !! id with Some r => Done (r, s) | None => Stuck NullDeref end.
Definition setRq (id : nat) (r : biorq) : CM unit := modB (λ b, b_set_rqs b (<[id := r]> (b_rqs b))).
Definition modRq (id : nat) (g : biorq → biorq) : CM unit := r ← getRq id; setRq id (g r).
Definition setPc (id : nat) (x : pc) : CM unit := modifyM (λ s, c_set_thr s (<[id := x]> (c_thr s))).
Definition endThr (id : nat) : CM unit := modifyM (λ s, c_set_thr s (delete id (c_thr s))).
Definition setFl (x : flpc) : CM unit := modifyM (λ s, c_set_fl s x).
Definition tellFs (id : nat) (x : reply) : CM unit := modifyM (λ s, c_set_out s (c_out s ++ [(id, x)])).

Definition rq_upd (r : biorq) (ref flags retries last expire : Z) (pages : list Z) (q : option fsrqinfo) : biorq :=
  {| biorq_buf := biorq_buf r; biorq_ref := ref; biorq_off := biorq_off r; biorq_len := biorq_len r; biorq_flags := flags;
     biorq_retries := retries; biorq_last_sliod := last; biorq_expire := expire; biorq_pages := pages; biorq_fsrqi := q |}.
Definition rq_ref (r : biorq) (n : Z) : biorq :=
  rq_upd r n (biorq_flags r) (biorq_retries r) (biorq_last_sliod r) (biorq_expire r) (biorq_pages r) (biorq_fsrqi r).
Definition rq_flags (r : biorq) (fl : Z) : biorq :=
  rq_upd r (biorq_ref r) fl (biorq_retries r) (biorq_last_sliod r) (biorq_expire r) (biorq_pages r) (biorq_fsrqi r).
Definition rq_pages (r : biorq) (l : list Z) : biorq :=
  rq_upd r (biorq_ref r) (biorq_flags r) (biorq_retries r) (biorq_last_sliod r) (biorq_expire r) l (biorq_fsrqi r).
Definition rq_fsrq (r : biorq) (q : option fsrqinfo) : biorq :=
  rq_upd r (biorq_ref r) (biorq_flags r) (biorq_retries r) (biorq_last_sliod r) (biorq_expire r) (biorq_pages r) q.
Definition rq_retry (r : biorq) (fl retries last expire : Z) : biorq :=
  rq_upd r (biorq_ref r) fl retries last expire (biorq_pages r) (biorq_fsrqi r).
Definition fsrq_upd (q : fsrqinfo) (err ref len : Z) (replied copied : bool) : fsrqinfo :=
  {| mfsrq_err := err; mfsrq_ref := ref; mfsrq_len := len; mfsrq_size := mfsrq_size q; mfsrq_replied := replied; mfsrq_copied := copied |}.

Section steps.
Context `{PflNet}.

(** ** Parts of a request in pages *)

(** How much of a request that is at [toff], with [tsize] to go, is in the page
    at [eoff]; only in its first page does a request start inside. *)
Definition page_span (first : bool) (toff tsize eoff : Z) : Z :=
  if first && (toff >? eoff) then Z.min (BMPC_BUFSZ - (toff - eoff)) tsize else Z.min BMPC_BUFSZ tsize.

(** [msl_biorq_page_valid] *)
Fixpoint page_valid_loop (pages : list Z) (i idx : nat) (toff tsize : Z) : PC bool :=
  match pages with
  | [] => stuckM Assertion
  | p :: pages =>
      e ← getPg p;
      let nbytes := page_span (i =? 0)%nat toff tsize (bmpce_off e) in
      if negb (i =? idx)%nat then page_valid_loop pages (S i) idx (toff + nbytes) (tsize - nbytes)
      else if hasf (bmpce_flags e) BMPCEF_DATARDY then mret true
      else mret ((toff >=? bmpce_start e) && (toff + nbytes <=? bmpce_start e + bmpce_len e))
  end.
Definition msl_biorq_page_valid (r : biorq) (idx : nat) : PC bool :=
  page_valid_loop (biorq_pages r) 0 idx (biorq_off r) (biorq_len r).

Fixpoint each_page (f : Z → PC unit) (l : list Z) : PC unit :=
  match l with [] => mret tt | p :: l => _ ← f p; each_page f l end.
Fixpoint each_rq (f : nat → CM unit) (l : list nat) : CM unit :=
  match l with [] => mret tt | id :: l => _ ← f id; each_rq f l end.

(** ** The tree of pending writes *)

(** [bmpc_biorq_cmp] *)
Definition bmpc_biorq_lt (a : biorq) (ida : nat) (b : biorq) (idb : nat) : bool :=
  if biorq_off a =? biorq_off b then
    if biorq_len a =? biorq_len b then (ida <? idb)%nat else biorq_len a <? biorq_len b
  else biorq_off a <? biorq_off b.
(** [PSC_RB_XINSERT(bmpc_biorq_tree, ...)] *)
Fixpoint tree_insert (m : gmap nat biorq) (id : nat) (r : biorq) (l : list nat) : list nat :=
  match l with
  | [] => [id]
  | x :: l =>
      match m !! x with
      | Some rx => if bmpc_biorq_lt rx x r id then x :: tree_insert m id r l else id :: x :: l
      | None => x :: tree_insert m id r l
      end
  end.
Definition rq_enqueue (id : nat) (r : biorq) : CM unit :=
  modB (λ b, b_set_exp (b_set_new b (tree_insert (b_rqs b) id r (b_new b))) (b_exp b ++ [id])).
Definition rq_dequeue (id : nat) : CM unit :=
  b ← getB;
  _ ← psc_assert (bool_decide (id ∈ b_new b));
  _ ← psc_assert (bool_decide (id ∈ b_exp b));
  modB (λ b, b_set_exp (b_set_new b (filter (λ x, x ≠ id) (b_new b))) (filter (λ x, x ≠ id) (b_exp b))).

(** ** Requests *)

(** [bmpc_biorq_new], and the start of [msl_io] on one bmap. *)
Definition bmpc_biorq_new (q : option fsrqinfo) (buf : data) (off len flags now : Z) : CM nat :=
  s ← getM;
  let id := c_next s in
  let r := {| biorq_buf := buf; biorq_ref := 1; biorq_off := off; biorq_len := len; biorq_flags := flags; biorq_retries := 0;
              biorq_last_sliod := IOS_ID_ANY; biorq_expire := now + msl_bflush_maxage; biorq_pages := []; biorq_fsrqi := q |} in
  _ ← putM (c_set_next s (S id));
  _ ← setRq id r;
  _ ← modB (λ b, b_set_pndg b (b_pndg b ++ [id]));
  mret id.

(** [msl_fsrqinfo_init], and the reference of the request. *)
Definition new_fsrq (size : Z) : fsrqinfo :=
  {| mfsrq_err := 0; mfsrq_ref := 2; mfsrq_len := 0; mfsrq_size := size; mfsrq_replied := false; mfsrq_copied := false |}.

(** [msl_io] and [msl_biorq_build] up to the loop over pages. A write needs a
    bmap leased for writing, and has at most [LNET_MTU] bytes (the mount option
    [max_write], [STD_MOUNT_OPTIONS] of [main.c]). [msl_io] cuts a read at the end
    of the file before this point: [off] and [len] are what is left. *)
Definition msl_io_start (w : bool) (off len : Z) (buf : data) (now : Z) : CM unit :=
  b ← getB;
  _ ← wait_until (negb w || hasf (b_flags b) BMAPF_WR);
  _ ← wait_until ((0 <=? off) && (if w then len <=? LNET_MTU_RIC else true));
  _ ← psc_assert (0 <? len);
  _ ← psc_assert (off + len <=? SLASH_BMAP_SIZE);
  id ← bmpc_biorq_new (Some (new_fsrq len)) buf off len (if w then BIORQ_WRITE else BIORQ_READ) now;
  setPc id (PBuild (biorq_page_offs off len)).
(** [msreadaheadthr_main] up to its loop over pages. *)
Definition readahead_start (off : Z) (npages : nat) (now : Z) : CM unit :=
  _ ← wait_until ((0 <=? off) && (off mod BMPC_BUFSZ =? 0) && (off + Z.of_nat npages * BMPC_BUFSZ <=? SLASH_BMAP_SIZE));
  id ← bmpc_biorq_new None (λ _, 0) 0 0 (Z.lor BIORQ_READ BIORQ_READAHEAD) now;
  setPc id (PBuild (prange off npages)).

(** One round of the loop over pages. *)
Definition build_step (id : nat) (junk : data) : CM unit :=
  s ← getM;
  match c_thr s !! id with
  | Some (PBuild todo) =>
      r ← getRq id;
      match todo with
      | [] => setPc id (if hasf (biorq_flags r) BIORQ_READ then PMark else PFetch 0)
      | p :: todo =>
          _ ← liftPc (bmpce_lookup (if hasf (biorq_flags r) BIORQ_READAHEAD then BMPCEF_READAHEAD else 0) p junk);
          _ ← setRq id (rq_pages r (biorq_pages r ++ [p]));
          setPc id (PBuild todo)
      end
  | _ => stuckM WouldBlock
  end.

(** [msl_biorq_del] and [_msl_biorq_destroy] *)
Definition msl_biorq_del (id : nat) (r : biorq) : CM unit :=
  _ ← liftPc (each_page bmpce_release (biorq_pages r));
  b ← getB;
  _ ← psc_assert (bool_decide (id ∈ b_pndg b));
  _ ← modB (λ b, b_set_pndg b (filter (λ x, x ≠ id) (b_pndg b)));
  _ ← whenM (hasf (biorq_flags r) BIORQ_ONTREE) (rq_dequeue id);
  whenM (hasf (biorq_flags r) BIORQ_FLUSHRDY)
    (b ← getB;
     _ ← psc_assert (b_nwr b >? 0);
     _ ← psc_assert (hasf (b_flags b) BMAPF_FLUSHQ);
     _ ← modB (λ b, b_set_nwr b (b_nwr b - 1));
     b ← getB;
     whenM (b_nwr b =? 0)
       (_ ← psc_assert (b_onq b);
        modB (λ b, b_set_onq (b_set_flags b (clrf (b_flags b) BMAPF_FLUSHQ)) false))).
Definition msl_biorq_destroy (id : nat) : CM unit :=
  r ← getRq id;
  _ ← psc_assert (biorq_ref r =? 0);
  _ ← psc_assert (negb (hasf (biorq_flags r) BIORQ_DESTROY));
  let r := rq_flags r (setf (biorq_flags r) BIORQ_DESTROY) in
  _ ← msl_biorq_del id r;
  modB (λ b, b_set_rqs b (delete id (b_rqs b))).
(** The part of [_msl_biorq_release] that drops the reference. *)
Definition biorq_decref (id : nat) : CM unit :=
  r ← getRq id;
  _ ← psc_assert (biorq_ref r >? 0);
  _ ← setRq id (rq_ref r (biorq_ref r - 1));
  if biorq_ref r - 1 =? 0 then msl_biorq_destroy id else mret tt.

(** [msl_bmpces_fail] *)
Definition msl_bmpces_fail (id : nat) (rc : Z) : CM unit :=
  r ← getRq id;
  whenM (hasf (biorq_flags r) BIORQ_WRITE)
    (liftPc (each_page (λ p, modPg p (λ e, pce_rc (pce_flags e (setf (bmpce_flags e) BMPCEF_EIO)) rc)) (biorq_pages r))).

(** ** Replies *)

(** [mfsrq_seterr] *)
Definition mfsrq_seterr (id : nat) (rc : Z) : CM unit :=
  modRq id (λ r, rq_fsrq r (match biorq_fsrqi r with
                            | Some q => Some (if (mfsrq_err q =? 0) && negb (rc =? 0)
                                              then fsrq_upd q rc (mfsrq_ref q) (mfsrq_len q) (mfsrq_replied q) (mfsrq_copied q) else q)
                            | None => None
                            end)).

(** [_msl_complete_fsrq]; [d] is what the vectors of the request point to, and
    [msl_update_attributes] is the change of [c_fsz]. *)
Definition msl_complete_fsrq (id : nat) (len : Z) (d : data) : CM unit :=
  r ← getRq id;
  match biorq_fsrqi r with
  | None => stuckM NullDeref
  | Some q =>
      let qlen := if mfsrq_err q =? 0 then mfsrq_len q + len else mfsrq_len q in
      _ ← psc_assert (negb (mfsrq_err q =? 0) || (qlen <=? mfsrq_size q));
      _ ← psc_assert (mfsrq_ref q >? 0);
      let ref := mfsrq_ref q - 1 in
      if negb (ref =? 0) then
        setRq id (rq_fsrq r (Some (fsrq_upd q (mfsrq_err q) ref qlen (mfsrq_replied q) (mfsrq_copied q))))
      else
        _ ← psc_assert (negb (mfsrq_replied q));
        _ ← setRq id (rq_fsrq r (Some (fsrq_upd q (mfsrq_err q) ref qlen true (mfsrq_copied q))));
        let accessed := liftPc (each_page (λ p, modPg p (λ e, pce_flags e (setf (bmpce_flags e) BMPCEF_ACCESSED))) (biorq_pages r)) in
        if hasf (biorq_flags r) BIORQ_READ then
          if negb (mfsrq_err q =? 0) then tellFs id (ReplyRead (Z.abs (mfsrq_err q)) 0 d)
          else if qlen =? 0 then tellFs id (ReplyRead 0 0 d)
          else
            _ ← psc_assert (mfsrq_copied q);
            _ ← accessed;
            tellFs id (ReplyRead 0 qlen d)
        else
          _ ← whenM (mfsrq_err q =? 0)
                (_ ← modifyM (λ s, if biorq_off r + qlen >? c_fsz s then c_set_fsz s (biorq_off r + qlen) else s);
                 _ ← psc_assert (mfsrq_copied q);
                 accessed);
          tellFs id (ReplyWrite qlen (Z.abs (mfsrq_err q)))
  end.

(** [msl_pages_copyout]: the vectors of the request; the loop stops when there
    is nothing to copy. *)
Fixpoint copyout_loop (r : biorq) (pages : list Z) (i : nat) (toff tsize : Z) : PC (list iovec * Z) :=
  match pages with
  | [] => mret ([], tsize)
  | p :: pages =>
      if tsize =? 0 then mret ([], tsize)
      else
        e ← getPg p;
        let nbytes := page_span (i =? 0)%nat toff tsize (bmpce_off e) in
        _ ← psc_assert (negb ((i =? 0)%nat && (toff >? bmpce_off e)) || (toff - bmpce_off e <? BMPC_BUFSZ));
        v ← msl_biorq_page_valid r i;
        _ ← psc_assert v;
        _ ← psc_assert (bmpce_ref e >? 0);
        _ ← psc_assert (bmpce_off e =? page_align (biorq_off r) + Z.of_nat i * BMPC_BUFSZ);
        '(iovs, tsize) ← copyout_loop r pages (S i) (toff + nbytes) (tsize - nbytes);
        mret ({| iov_page := p; iov_off := if (i =? 0)%nat && (toff >? bmpce_off e) then toff - bmpce_off e else 0; iov_len := nbytes |} :: iovs, tsize)
  end.
Definition msl_pages_copyout (fsz : Z) (r : biorq) : PC (list iovec * Z) :=
  let tsize := if biorq_voff_get r >? fsz then fsz - biorq_off r else biorq_len r in
  if tsize <=? 0 then mret ([], 0)
  else
    '(iovs, rest) ← copyout_loop r (biorq_pages r) 0 (biorq_off r) tsize;
    _ ← psc_assert (match biorq_pages r with [] => true | _ => rest =? 0 end);
    mret (iovs, tsize - rest).

(** [msl_biorq_complete_fsrq] for a read *)
Definition complete_read (id : nat) : CM unit :=
  r ← getRq id;
  match biorq_fsrqi r with
  | None => mret tt
  | Some q =>
      if negb (mfsrq_err q =? 0) then msl_complete_fsrq id 0 (λ _, 0)
      else
        s ← getM;
        '(iovs, len) ← liftPc (msl_pages_copyout (c_fsz s) r);
        _ ← setRq id (rq_fsrq r (Some (fsrq_upd q (mfsrq_err q) (mfsrq_ref q) (mfsrq_len q) (mfsrq_replied q) true)));
        msl_complete_fsrq id len (iov_bytes (pc_tree (c_pc s)) iovs)
  end.
(** [_msl_biorq_release] of a read: the last one to release it completes it. *)
Definition release_read (id : nat) : CM unit :=
  r ← getRq id;
  _ ← whenM (biorq_ref r =? 1) (complete_read id);
  biorq_decref id.

(** ** Reading *)

(** The first loop of [msl_launch_read_rpcs]: the pages that have to be read are
    marked. *)
Fixpoint mark_loop (r : biorq) (pages : list Z) (i : nat) : PC (list Z) :=
  match pages with
  | [] => mret []
  | p :: pages =>
      e ← getPg p;
      v ← (if hasf (bmpce_flags e) BMPCEF_FAULTING then mret true else msl_biorq_page_valid r i);
      if v : bool then mark_loop r pages (S i)
      else
        _ ← setPg p (pce_flags e (setf (bmpce_flags e) BMPCEF_FAULTING));
        l ← mark_loop r pages (S i);
        mret (p :: l)
  end.
(** Where the thread of a read goes when nothing is left to launch. *)
Definition launched (r : biorq) (rc : Z) : pc :=
  if hasf (biorq_flags r) BIORQ_READAHEAD then PRel else if rc =? 0 then PFetch 0 else PErr rc.
Definition mark_step (id : nat) : CM unit :=
  s ← getM;
  match c_thr s !! id with
  | Some PMark =>
      r ← getRq id;
      pages ← liftPc (mark_loop r (biorq_pages r) 0);
      setPc id (match pages with [] => launched r 0 | _ => PFlush pages end)
  | _ => stuckM WouldBlock
  end.

(** [bmpc_biorqs_flush]: one round makes pending writes expire, from the end of
    the list up to one that has. *)
Fixpoint expire_loop (l : list nat) : CM unit :=
  match l with
  | [] => mret tt
  | id :: l =>
      r ← getRq id;
      if hasf (biorq_flags r) BIORQ_EXPIRE then mret tt
      else _ ← setRq id (rq_flags r (setf (biorq_flags r) BIORQ_EXPIRE)); expire_loop l
  end.
Definition flush_round : CM unit :=
  b ← getB;
  _ ← wait_until (negb (b_nwr b =? 0));
  expire_loop (rev (b_exp b)).
(** The end of [bmpc_biorqs_flush_wait] of a read. *)
Definition flushed_step (id : nat) : CM unit :=
  s ← getM;
  match c_thr s !! id with
  | Some (PFlush pages) => _ ← wait_until (b_nwr (c_b s) =? 0); setPc id (PLaunch pages)
  | _ => stuckM WouldBlock
  end.

(** [msl_read_rpc_launch]; [rc] is the result of setting up the RPC. *)
Definition msl_read_rpc_launch (id : nat) (pages : list Z) (rc : Z) : CM Z :=
  _ ← psc_assert (Z.of_nat (length pages) <=? BMPC_MAXBUFSRPC);
  _ ← liftPc (each_page (λ p, e ← getPg p;
        _ ← psc_assert (negb (hasf (bmpce_flags e) BMPCEF_PINNED));
        _ ← psc_assert (hasf (bmpce_flags e) BMPCEF_FAULTING);
        psc_assert (negb (hasf (bmpce_flags e) BMPCEF_DATARDY))) pages);
  if negb (rc =? 0) then
    _ ← liftPc (each_page (λ p, modPg p (λ e,
          pce_rc (pce_flags e (clrf (setf (bmpce_flags e) BMPCEF_EIO) (Z.lor BMPCEF_FAULTING BMPCEF_PINNED))) rc)) pages);
    mret rc
  else
    _ ← psc_assert (match pages with [] => true | p :: _ => p + Z.of_nat (length pages) * BMPC_BUFSZ <=? SLASH_BMAP_SIZE end);
    _ ← modRq id (λ r, rq_ref r (biorq_ref r + 1));
    s ← getM;
    _ ← putM (c_set_next (c_set_rd s (<[c_next s := {| rr_rq := id; rr_pages := pages; rr_data := None; rr_done := None |}]> (c_rd s))) (S (c_next s)));
    mret 0.

(** The second loop of [msl_launch_read_rpcs]: an RPC for each run of
    pages; [cur] is the run so far ([pages[j..i)]), [off] its end, [k] counts
    the RPCs, whose results are [rcs]. The result has the pages from [i] on
    when an RPC could not be sent. *)
Fixpoint launch_loop (id : nat) (rcs : nat → Z) (k : nat) (pages cur : list Z) (off : Z) : CM (Z * list Z) :=
  match pages with
  | [] => mret (0, [])
  | p :: rest =>
      let split := match cur with [] => false | _ => negb (p =? off) end in
      rc ← (if split then msl_read_rpc_launch id cur (rcs k) else mret 0);
      if negb (rc =? 0) then mret (rc, pages)
      else
        let k := if split then S k else k in
        let cur := (if split then [] else cur) ++ [p] in
        if (Z.of_nat (length cur) =? BMPC_MAXBUFSRPC) || match rest with [] => true | _ => false end then
          rc ← msl_read_rpc_launch id cur (rcs k);
          if negb (rc =? 0) then mret (rc, pages) else launch_loop id rcs (S k) rest [] (p + BMPC_BUFSZ)
        else launch_loop id rcs k rest cur (p + BMPC_BUFSZ)
  end.
Definition launch_step (id : nat) (rcs : nat → Z) : CM unit :=
  s ← getM;
  match c_thr s !! id with
  | Some (PLaunch pages) =>
      '(rc, rest) ← launch_loop id rcs 0 pages [] 0;
      _ ← liftPc (each_page (λ p, modPg p (λ e, pce_flags e (setf (clrf (bmpce_flags e) BMPCEF_FAULTING) BMPCEF_EIO))) rest);
      r ← getRq id;
      setPc id (launched r rc)
  | _ => stuckM WouldBlock
  end.

(** One page of the loop of [msl_pages_fetch]. *)
Definition fetch_step (id : nat) : CM unit :=
  s ← getM;
  match c_thr s !! id with
  | Some (PFetch i) =>
      r ← getRq id;
      match biorq_pages r !! i with
      | None => setPc id PRel
      | Some p =>
          e ← liftPc (getPg p);
          _ ← wait_until (negb (hasf (bmpce_flags e) BMPCEF_FAULTING));
          if hasf (bmpce_flags e) BMPCEF_EIO then setPc id (if bmpce_rc e =? 0 then PRel else PErr (bmpce_rc e))
          else setPc id (PFetch (S i))
      end
  | _ => stuckM WouldBlock
  end.

(** Step 4 of [msl_io]: the request is retried, or gets the error. *)
Definition error_step (id : nat) (retry : bool) : CM unit :=
  s ← getM;
  match c_thr s !! id with
  | Some (PErr rc) =>
      r ← getRq id;
      if retry then
        _ ← setRq id (rq_fsrq (rq_retry r (biorq_flags r) (biorq_retries r + 1) (biorq_last_sliod r) (biorq_expire r))
              (match biorq_fsrqi r with
               | Some q => Some (fsrq_upd q 0 (mfsrq_ref q) (mfsrq_len q) (mfsrq_replied q) (mfsrq_copied q)) | None => None end));
        _ ← liftPc (each_page (λ p, modPg p (λ e,
              if hasf (bmpce_flags e) BMPCEF_EIO then pce_rc (pce_flags e (clrf (bmpce_flags e) BMPCEF_EIO)) 0 else e)) (biorq_pages r));
        setPc id (if hasf (biorq_flags r) BIORQ_READ then PMark else PFetch 0)
      else
        _ ← mfsrq_seterr id (if Z.abs rc =? SLERR_ION_OFFLINE then - ETIMEDOUT else rc);
        setPc id PRel
  | _ => stuckM WouldBlock
  end.

(** Steps 5 and 6 of [msl_io], and the release of a readahead. A write that
    has no error goes on to copy its data in. *)
Definition release_step (id : nat) : CM unit :=
  s ← getM;
  match c_thr s !! id with
  | Some PRel =>
      r ← getRq id;
      _ ← whenM (negb (hasf (biorq_flags r) BIORQ_READAHEAD)) (msl_complete_fsrq id 0 (λ _, 0));
      if hasf (biorq_flags r) BIORQ_READ then _ ← release_read id; endThr id
      else
        match biorq_fsrqi r with
        | None => stuckM NullDeref
        | Some q =>
            if negb (mfsrq_err q =? 0) then
              _ ← msl_complete_fsrq id 0 (λ _, 0);
              _ ← biorq_decref id;
              endThr id
            else setPc id (PCopy 0 (biorq_off r) (biorq_len r))
        end
  | _ => stuckM WouldBlock
  end.

(** A read on the I/O server. *)
Definition srv_read (rid : nat) : CM unit :=
  s ← getM;
  match c_rd s !! rid with
  | Some v =>
      _ ← wait_until (match rr_data v with None => true | _ => false end);
      putM (c_set_rd s (<[rid := {| rr_rq := rr_rq v; rr_pages := rr_pages v; rr_data := Some (c_srv s); rr_done := rr_done v |}]> (c_rd s)))
  | None => stuckM WouldBlock
  end.

(** The data lands in the pages, all of it if the RPC succeeds, what [land]
    says if it fails; and [msl_read_cleanup] sets the pages, [_msl_bmpce_rpc_done]
    each of them. *)
Definition rpc_done_page (d : option data) (land : Z → bool) (rc p : Z) : PC unit :=
  modPg p (λ e,
    let e := match d with
             | Some d => pce_base e (λ i, if (rc =? 0) || land (p + i) then d (p + i) else bmpce_base e i)
             | None => e
             end in
    let fl := bmpce_flags e in
    let e := if negb (rc =? 0) then pce_rc (pce_flags e (setf fl BMPCEF_EIO)) rc else pce_flags e (setf fl BMPCEF_DATARDY) in
    pce_flags e (clrf (bmpce_flags e) (Z.lor BMPCEF_FAULTING BMPCEF_PINNED))).
Definition read_done (rid : nat) (rc : Z) (land : Z → bool) : CM unit :=
  s ← getM;
  match c_rd s !! rid with
  | Some v =>
      _ ← wait_until (match rr_done v with None => true | _ => false end);
      _ ← wait_until (negb (rc =? 0) || match rr_data v with Some _ => true | None => false end);
      _ ← liftPc (each_page (rpc_done_page (rr_data v) land rc) (rr_pages v));
      modifyM (λ s, c_set_rd s (<[rid := {| rr_rq := rr_rq v; rr_pages := rr_pages v; rr_data := rr_data v; rr_done := Some rc |}]> (c_rd s)))
  | None => stuckM WouldBlock
  end.
(** The rest of [msl_read_cleanup]. *)
Definition read_cleanup (rid : nat) : CM unit :=
  s ← getM;
  match c_rd s !! rid with
  | Some v =>
      match rr_done v with
      | None => stuckM WouldBlock
      | Some rc =>
          _ ← whenM (rc =? - PFLERR_KEYEXPIRED) (modB (λ b, b_set_flags b (setf (b_flags b) BMAPF_LEASEEXPIRED)));
          r ← getRq (rr_rq v);
          _ ← whenM (negb (rc =? 0) && negb (hasf (biorq_flags r) BIORQ_READAHEAD)) (mfsrq_seterr (rr_rq v) rc);
          _ ← modifyM (λ s, c_set_rd s (delete rid (c_rd s)));
          release_read (rr_rq v)
      end
  | None => stuckM WouldBlock
  end.

(** ** Writing *)

(** The region of a page that holds data, after [nbytes] at [toff] were copied
    into it. *)
Definition region_merge (e : bmpce) (toff nbytes : Z) : PC bmpce :=
  if (toff =? bmpce_off e) && (nbytes =? BMPC_BUFSZ) then mret (pce_flags e (setf (bmpce_flags e) BMPCEF_DATARDY))
  else if bmpce_len e =? 0 then mret (pce_region e toff nbytes)
  else if (toff + nbytes >=? bmpce_start e) || (bmpce_start e + bmpce_len e >=? toff) then
    let start := if toff <? bmpce_start e then toff else bmpce_start e in
    let end_ := if toff + nbytes >? bmpce_start e + bmpce_len e then toff + nbytes else bmpce_start e + bmpce_len e in
    let len := (end_ - start) mod 2 ^ 16 in
    _ ← psc_assert (len <=? BMPC_BUFSZ);
    mret (pce_region e start len)
  else mret e.
(** One page of [msl_pages_copyin]. *)
Definition copyin_page (r : biorq) (i : nat) (toff tsize : Z) : PC Z :=
  match biorq_pages r !! i with
  | None => stuckM OutOfBounds
  | Some p =>
      _ ← psc_assert (negb (tsize =? 0));
      e ← getPg p;
      _ ← wait_until (negb (hasf (bmpce_flags e) BMPCEF_PINNED));
      let inside := (i =? 0)%nat && (toff >? bmpce_off e) in
      let nbytes := page_span (i =? 0)%nat toff tsize (bmpce_off e) in
      _ ← psc_assert (bmpce_ref e >? 0);
      _ ← psc_assert (bmpce_off e =? (if inside then page_align toff else toff));
      _ ← psc_assert (negb inside || (toff - bmpce_off e <? BMPC_BUFSZ));
      let o := toff - bmpce_off e in
      let e := pce_base e (overlay (bmpce_base e) o nbytes (λ j, biorq_buf r (toff - biorq_off r + j))) in
      e ← region_merge e toff nbytes;
      _ ← setPg p e;
      mret nbytes
  end.
Definition copy_step (id : nat) : CM unit :=
  s ← getM;
  match c_thr s !! id with
  | Some (PCopy i toff tsize) =>
      r ← getRq id;
      nbytes ← liftPc (copyin_page r i toff tsize);
      if (S i =? length (biorq_pages r))%nat then
        _ ← psc_assert (tsize - nbytes =? 0);
        setPc id PReply
      else setPc id (PCopy (S i) (toff + nbytes) (tsize - nbytes))
  | _ => stuckM WouldBlock
  end.
(** The end of [msl_biorq_complete_fsrq] of a write: the file system is told. *)
Definition reply_step (id : nat) : CM unit :=
  s ← getM;
  match c_thr s !! id with
  | Some PReply =>
      r ← getRq id;
      _ ← match biorq_fsrqi r with
          | None => stuckM NullDeref
          | Some q => setRq id (rq_fsrq r (Some (fsrq_upd q (mfsrq_err q) (mfsrq_ref q) (mfsrq_len q) (mfsrq_replied q) true)))
          end;
      _ ← msl_complete_fsrq id (biorq_len r) (λ _, 0);
      setPc id PSched
  | _ => stuckM WouldBlock
  end.
(** [msl_pages_schedflush] *)
Definition msl_pages_schedflush (id : nat) : CM unit :=
  b ← getB;
  _ ← psc_assert (hasf (b_flags b) BMAPF_WR);
  r ← getRq id;
  let r := rq_flags (rq_ref r (biorq_ref r + 1)) (setf (biorq_flags r) (Z.lor BIORQ_FLUSHRDY BIORQ_ONTREE)) in
  _ ← setRq id r;
  _ ← modB (λ b, b_set_nwr b (b_nwr b + 1));
  _ ← rq_enqueue id r;
  whenM (negb (hasf (b_flags b) BMAPF_FLUSHQ))
    (modB (λ b, b_set_onq (b_set_flags b (setf (b_flags b) BMAPF_FLUSHQ)) true)).
Definition sched_step (id : nat) : CM unit :=
  s ← getM;
  match c_thr s !! id with
  | Some PSched => _ ← msl_pages_schedflush id; _ ← biorq_decref id; endThr id
  | _ => stuckM WouldBlock
  end.

(** ** Flushing *)

(** [bmap_flush_resched] *)
Definition bmap_flush_resched (now rc : Z) (id : nat) : CM unit :=
  _ ← whenM (rc =? - PFLERR_KEYEXPIRED) (modB (λ b, b_set_flags b (setf (b_flags b) BMAPF_LEASEEXPIRED)));
  r ← getRq id;
  if (rc =? - ENOSPC) || (biorq_retries r >=? SL_MAX_BMAPFLSH_RETRIES) then
    _ ← modB (λ b, if negb (rc =? 0) && (b_flushrc b =? 0) then b_set_flushrc b rc else b);
    _ ← msl_bmpces_fail id rc;
    biorq_decref id
  else
    _ ← whenM (negb (hasf (biorq_flags r) BIORQ_ONTREE)) (rq_enqueue id r);
    b ← getB;
    let retries := if (biorq_last_sliod r =? b_ios b) || (biorq_last_sliod r =? IOS_ID_ANY) then biorq_retries r + 1 else 1 in
    let delta := if retries <? 32 then 20 else if retries <? 64 then (retries - 32) * 20 + 20 else 32 * 20 in
    setRq id (rq_retry r (clrf (setf (biorq_flags r) BIORQ_ONTREE) BIORQ_EXPIRE) retries (biorq_last_sliod r) (now + delta * NSEC)).

(** [bmpc_biorqs_destroy_locked]: the pending writes are given up. *)
Definition destroy_dequeue (id : nat) : CM unit :=
  r ← getRq id;
  _ ← psc_assert (hasf (biorq_flags r) BIORQ_FLUSHRDY);
  _ ← setRq id (rq_flags r (clrf (biorq_flags r) BIORQ_ONTREE));
  rq_dequeue id.
Definition bmpc_biorqs_destroy_locked (rc : Z) : CM unit :=
  _ ← modB (λ b, if negb (rc =? 0) && (b_flushrc b =? 0) then b_set_flushrc b rc else b);
  b ← getB;
  _ ← each_rq destroy_dequeue (b_new b);
  each_rq (λ id, _ ← msl_bmpces_fail id rc; biorq_decref id) (b_new b).

(** [bmap_flushable]; [secs] is what is left of the lease. *)
Definition bmap_flushable (secs : Z) : CM bool :=
  b ← getB;
  match b_new b with
  | [] => mret false
  | id :: _ =>
      r ← getRq id;
      _ ← psc_assert (hasf (biorq_flags r) BIORQ_FLUSHRDY);
      mret (hasf (biorq_flags r) BIORQ_EXPIRE ||
            negb ((0 <? secs) && (secs <? BMAP_CLI_EXTREQSECS) || hasf (b_flags b) BMAPF_LEASEEXPIRED))
  end.
(** The beginning of a pass of [bmap_flush] over the bmap. *)
Definition flush_begin (secs : Z) : CM unit :=
  s ← getM;
  match c_fl s with
  | FIdle =>
      _ ← wait_until (b_onq (c_b s));
      _ ← psc_assert (hasf (b_flags (c_b s)) BMAPF_FLUSHQ);
      go ← bmap_flushable secs;
      _ ← wait_until (go || hasf (b_flags (c_b s)) BMAPF_LEASEFAILED);
      if hasf (b_flags (c_b s)) BMAPF_LEASEFAILED then bmpc_biorqs_destroy_locked (b_error (c_b s))
      else
        _ ← modB (λ b, b_set_flags b (setf (b_flags b) BMAPF_SCHED));
        setFl (FPass (b_new (c_b s)))
  | _ => stuckM WouldBlock
  end.
Definition flush_end : CM unit :=
  s ← getM;
  match c_fl s with
  | FPass [] => _ ← modB (λ b, b_set_flags b (clrf (b_flags b) BMAPF_SCHED)); setFl FIdle
  | _ => stuckM WouldBlock
  end.

Fixpoint getRqs (l : list nat) : CM (list (nat * biorq)) :=
  match l with [] => mret [] | id :: l => r ← getRq id; rs ← getRqs l; mret ((id, r) :: rs) end.
Definition send_dequeue (id : nat) : CM unit :=
  r ← getRq id;
  b ← getB;
  _ ← setRq id (rq_retry r (clrf (biorq_flags r) BIORQ_ONTREE) (biorq_retries r) (b_ios b) (biorq_expire r));
  rq_dequeue id.
(** A round of the loop of [bmap_flush] over groups, up to
    [bwc_pin_pages]; [csvc_rc] is the result of [msl_bmap_to_csvc], [req_rc] that
    of making the request. *)
Definition flush_group (now csvc_rc req_rc : Z) : CM unit :=
  s ← getM;
  match c_fl s with
  | FPass (id :: reqs) =>
      rs ← getRqs (id :: reqs);
      match bmap_flush_trycoalesce now rs with
      | Stuck w => stuckM w
      | Done (None, _) => setFl (FPass [])
      | Done (Some g, idx) =>
          grs ← getRqs (bwc_biorqs g);
          g ← liftPc (bmap_flush_coalesce_map g (snd <$> grs));
          _ ← wait_until (Z.of_nat (size (c_wr s)) <? MAX_OUTSTANDING_RPCS);
          if negb (csvc_rc =? 0) then
            _ ← each_rq (bmap_flush_resched now csvc_rc) (bwc_biorqs g);
            setFl (FPass (drop idx (id :: reqs)))
          else
            _ ← psc_assert (match grs with (_, r) :: _ => bwc_soff g =? biorq_off r | [] => false end);
            _ ← each_rq send_dequeue (bwc_biorqs g);
            if negb (req_rc =? 0) then
              _ ← each_rq (bmap_flush_resched now req_rc) (bwc_biorqs g);
              setFl (FPass (drop idx (id :: reqs)))
            else setFl (FSend (drop idx (id :: reqs)) g 0)
      end
  | _ => stuckM WouldBlock
  end.
(** One page of [bwc_pin_pages]. *)
Definition pin_step : CM unit :=
  s ← getM;
  match c_fl s with
  | FSend reqs g i =>
      match bwc_bmpces g !! i with
      | None => stuckM WouldBlock
      | Some p =>
          e ← liftPc (getPg p);
          _ ← wait_until (negb (hasf (bmpce_flags e) BMPCEF_PINNED));
          _ ← liftPc (setPg p (pce_flags e (setf (bmpce_flags e) BMPCEF_PINNED)));
          setFl (FSend reqs g (S i))
      end
  | _ => stuckM WouldBlock
  end.
Definition bwc_unpin_pages (g : bmpc_write_coalescer) : CM unit :=
  liftPc (each_page (λ p, modPg p (λ e, pce_flags e (clrf (bmpce_flags e) BMPCEF_PINNED))) (bwc_bmpces g)).
(** The end of [bmap_flush_create_rpc]; [rc] is the result of
    [SL_NBRQSET_ADD]. *)
Definition send_step (now rc : Z) : CM unit :=
  s ← getM;
  match c_fl s with
  | FSend reqs g i =>
      _ ← wait_until (i =? length (bwc_bmpces g))%nat;
      if negb (rc =? 0) then
        _ ← bwc_unpin_pages g;
        _ ← each_rq (bmap_flush_resched now rc) (bwc_biorqs g);
        setFl (FPass reqs)
      else
        putM (c_set_fl (c_set_next (c_set_wr s (<[c_next s := {| w_bwc := g; w_applied := false |}]> (c_wr s))) (S (c_next s))) (FPass reqs))
  | _ => stuckM WouldBlock
  end.

(** A write on the I/O server, of the first [n] bytes if it does not get to the
    end. The data is fetched from the pages of the client. *)
Definition srv_write (wid : nat) (n : Z) : CM unit :=
  s ← getM;
  match c_wr s !! wid with
  | Some v =>
      let g := w_bwc v in
      _ ← wait_until ((0 <=? n) && (n <=? bwc_size g) && negb (w_applied v));
      putM (c_set_wr (c_set_srv s (overlay (c_srv s) (bwc_soff g) n (iov_bytes (pc_tree (c_pc s)) (bwc_iovs g))))
              (<[wid := {| w_bwc := g; w_applied := n =? bwc_size g |}]> (c_wr s)))
  | None => stuckM WouldBlock
  end.
(** [msl_ric_bflush_cb] *)
Definition write_cb (now : Z) (wid : nat) (rc : Z) : CM unit :=
  s ← getM;
  match c_wr s !! wid with
  | Some v =>
      _ ← wait_until (negb (rc =? 0) || w_applied v);
      _ ← bwc_unpin_pages (w_bwc v);
      _ ← each_rq (if negb (rc =? 0) then bmap_flush_resched now rc else biorq_decref) (bwc_biorqs (w_bwc v));
      modifyM (λ s, c_set_wr s (delete wid (c_wr s)))
  | None => stuckM WouldBlock
  end.

(** ** The lease, and the end of the bmap *)
Definition lease_failed (rc : Z) : CM unit :=
  _ ← wait_until (negb (rc =? 0));
  modB (λ b, b_set_error (b_set_flags b (setf (b_flags b) BMAPF_LEASEFAILED)) rc).
(** [msl_bmap_lease_tryext] asks for more time, and the answer has the I/O
    system. *)
Definition lease_ext_begin : CM unit := modB (λ b, b_set_flags b (clrf (b_flags b) BMAPF_LEASEEXPIRED)).
Definition lease_renewed (ios : Z) : CM unit := modB (λ b, b_set_ios b ios).

(** [msl_bmap_final_cleanup] with [bmpc_freeall], when the last user of the bmap
    is gone. *)
Definition msl_bmap_final_cleanup : CM unit :=
  b ← getB;
  _ ← psc_assert (negb (hasf (b_flags b) BMAPF_FLUSHQ));
  _ ← psc_assert (match b_pndg b with [] => true | _ => false end);
  _ ← psc_assert (match b_new b with [] => true | _ => false end);
  _ ← psc_assert (negb (b_onq b));
  _ ← liftPc bmpc_freeall_pages;
  s ← getM;
  psc_assert (bool_decide (pc_tree (c_pc s) = ∅)).

(** ** All steps *)
Inductive label :=
| LWrite (off len : Z) (buf : data) (now : Z)
| LRead (off len now : Z)
| LReadahead (off : Z) (n : nat) (now : Z)
| LBuild (id : nat) (junk : data)
| LMark (id : nat)
| LExpire
| LFlushed (id : nat)
| LLaunch (id : nat) (rcs : nat → Z)
| LFetch (id : nat)
| LError (id : nat) (retry : bool)
| LRelease (id : nat)
| LCopy (id : nat)
| LReply (id : nat)
| LSched (id : nat)
| LSrvRead (rid : nat)
| LReadDone (rid : nat) (rc : Z) (land : Z → bool)
| LReadCleanup (rid : nat)
| LFlushBegin (secs : Z)
| LFlushGroup (now csvc_rc req_rc : Z)
| LPin
| LSend (now rc : Z)
| LFlushEnd
| LSrvWrite (wid : nat) (n : Z)
| LWriteCb (now : Z) (wid : nat) (rc : Z)
| LReap (desperate : bool) (n : Z) (busy : Z → bool)
| LReapRelease (p : Z)
| LLeaseFailed (rc : Z)
| LLeaseExt
| LLeaseRenewed (ios : Z).

Definition cstep (l : label) : CM unit :=
  match l with
  | LWrite off len buf now => msl_io_start true off len buf now
  | LRead off len now => msl_io_start false off len (λ _, 0) now
  | LReadahead off n now => readahead_start off n now
  | LBuild id junk => build_step id junk
  | LMark id => mark_step id
  | LExpire => flush_round
  | LFlushed id => flushed_step id
  | LLaunch id rcs => launch_step id rcs
  | LFetch id => fetch_step id
  | LError id retry => error_step id retry
  | LRelease id => release_step id
  | LCopy id => copy_step id
  | LReply id => reply_step id
  | LSched id => sched_step id
  | LSrvRead rid => srv_read rid
  | LReadDone rid rc land => read_done rid rc land
  | LReadCleanup rid => read_cleanup rid
  | LFlushBegin secs => flush_begin secs
  | LFlushGroup now csvc_rc req_rc => flush_group now csvc_rc req_rc
  | LPin => pin_step
  | LSend now rc => send_step now rc
  | LFlushEnd => flush_end
  | LSrvWrite wid n => srv_write wid n
  | LWriteCb now wid rc => write_cb now wid rc
  | LReap desperate n busy => liftPc (bmpce_reap desperate n busy)
  | LReapRelease p => liftPc (reap_release p)
  | LLeaseFailed rc => lease_failed rc
  | LLeaseExt => lease_ext_begin
  | LLeaseRenewed ios => lease_renewed ios
  end.
Fixpoint crun_labels (ls : list label) : CM unit :=
  match ls with [] => mret tt | l :: ls => _ ← cstep l; crun_labels ls end.
End steps.

(** A bmap that was just leased for writing. *)
Definition cl_init (ios : Z) (srv : data) (fsz : Z) : cl :=
  {| c_pc := pcache_init;
     c_b := {| b_rqs := ∅; b_new := []; b_exp := []; b_pndg := []; b_nwr := 0; b_flags := BMAPF_WR; b_error := 0; b_flushrc := 0;
               b_ios := ios; b_onq := false |};
     c_srv := srv; c_fsz := fsz; c_wr := ∅; c_rd := ∅; c_thr := ∅; c_fl := FIdle; c_next := 0%nat; c_out := [] |}.
