(* ===== verification/CioInv.v ===== *)
(** * The invariant of cached I/O

    What holds of pages, requests, RPCs and threads of a client between the
    steps of [Cio.v]: reference counts and queues ([rqinv]), which thread or RPC
    is loading a page and who waits for it ([ownv]), and how the bytes of pages
    and of the server relate to what was written ([dat]). *)
From S2P Require Import Prelude BmapMds ReplReq ReplWalk Lease Slvr SlvrIO Pgcache PgcacheInv Coalesce CoalesceProps Cio.

(** ** Pages *)
Abbreviation pfl e f := (hasf (bmpce_flags e) f).
Abbreviation rfl r f := (hasf (biorq_flags r) f).

(** The page has the bytes of request [r] that are in it. *)
Definition pv (m : gmap Z bmpce) (r : biorq) (p : Z) : Prop :=
  ∃ e, m !! p = Some e ∧
    (pfl e BMPCEF_DATARDY = true ∨
     (bmpce_start e ≤ Z.max (biorq_off r) p ∧ Z.min (biorq_voff_get r) (p + BMPC_BUFSZ) ≤ bmpce_start e + bmpce_len e)).
Definition loading (m : gmap Z bmpce) (p : Z) : Prop :=
  ∃ e, m !! p = Some e ∧ pfl e BMPCEF_FAULTING = true ∧ pfl e BMPCEF_DATARDY = false.
(** [r] may wait for the page: it is being read, or failed, or is there. *)
Definition waitable (m : gmap Z bmpce) (r : biorq) (p : Z) : Prop :=
  pv m r p ∨ ∃ e, m !! p = Some e ∧ (pfl e BMPCEF_FAULTING = true ∨ pfl e BMPCEF_EIO = true).

Record page_ok (p : Z) (e : bmpce) : Prop := {
  po_off : bmpce_off e = p;
  po_align : page_align p = p;
  po_lo : p ≤ bmpce_start e;
  po_len : 0 ≤ bmpce_len e;
  po_hi : bmpce_start e + bmpce_len e ≤ p + BMPC_BUFSZ;
  po_eio : pfl e BMPCEF_EIO = true → bmpce_rc e ≠ 0;
}.

(** ** Requests *)

(** The pages a request is to have. *)
Definition full_pages (r : biorq) (l : list Z) : Prop :=
  if rfl r BIORQ_READAHEAD then
    biorq_off r = 0 ∧ biorq_len r = 0 ∧ ∃ a n, l = prange a n ∧ page_align a = a ∧ 0 ≤ a ∧ a + Z.of_nat n * BMPC_BUFSZ ≤ SLASH_BMAP_SIZE
  else
    0 ≤ biorq_off r ∧ 0 < biorq_len r ∧ biorq_off r + biorq_len r ≤ SLASH_BMAP_SIZE ∧ l = biorq_page_offs (biorq_off r) (biorq_len r).
Definition todo (t : option pc) : list Z := match t with Some (PBuild l) => l | _ => [] end.

(** The read RPCs of a request. *)
Definition nrpc (R : gmap nat rrpc) (id : nat) : Z := Z.of_nat (size (filter (λ kv, rr_rq kv.2 = id) R)).

(** The state of the request of the file system. *)
Definition fsrq_ok (w : bool) (t : option pc) (q : fsrqinfo) : Prop :=
  match t with
  | Some (PCopy _ _ _) | Some PReply => mfsrq_ref q = 1 ∧ mfsrq_len q = 0 ∧ mfsrq_replied q = false ∧ mfsrq_err q = 0
  | Some PSched => True
  | None => if w then True else mfsrq_ref q = 1 ∧ mfsrq_len q = 0 ∧ mfsrq_replied q = false
  | Some PRel => mfsrq_ref q = 2 ∧ mfsrq_len q = 0 ∧ mfsrq_replied q = false
  | _ => mfsrq_ref q = 2 ∧ mfsrq_len q = 0 ∧ mfsrq_replied q = false ∧ (w = true → mfsrq_err q = 0)
  end.
(** Which thread may have which request. *)
Definition pc_ok (r : biorq) (t : option pc) : Prop :=
  match t with
  | Some (PFlush l) => rfl r BIORQ_WRITE = false ∧ l ≠ []
  | Some (PMark) | Some (PLaunch _) => rfl r BIORQ_WRITE = false
  | Some (PFetch _) => rfl r BIORQ_READAHEAD = false
  | Some (PErr rc) => rfl r BIORQ_READAHEAD = false ∧ rc ≠ 0
  | Some (PCopy i toff tsize) =>
      rfl r BIORQ_WRITE = true ∧ toff = Z.max (biorq_off r) (page_align (biorq_off r) + Z.of_nat i * BMPC_BUFSZ) ∧
      toff + tsize = biorq_voff_get r ∧ 0 < tsize
  | Some PReply | Some PSched => rfl r BIORQ_WRITE = true
  | _ => True
  end.

Record rq_inv (R : gmap nat rrpc) (id : nat) (r : biorq) (t : option pc) : Prop := {
  ri_kind : rfl r BIORQ_READ = negb (rfl r BIORQ_WRITE);
  ri_destroy : rfl r BIORQ_DESTROY = false;
  ri_full : full_pages r (biorq_pages r ++ todo t);
  ri_mtu : rfl r BIORQ_WRITE = true → biorq_len r ≤ SLASH_SLVR_SIZE;
  ri_ra : rfl r BIORQ_READAHEAD = true → rfl r BIORQ_WRITE = false ∧ biorq_fsrqi r = None;
  ri_fsrq : rfl r BIORQ_READAHEAD = false → ∃ q, biorq_fsrqi r = Some q ∧ mfsrq_size q = biorq_len r ∧ fsrq_ok (rfl r BIORQ_WRITE) t q;
  ri_rdy : rfl r BIORQ_FLUSHRDY = rfl r BIORQ_WRITE && match t with None => true | _ => false end;
  ri_tree : rfl r BIORQ_ONTREE = true → rfl r BIORQ_FLUSHRDY = true;
  ri_ref : biorq_ref r = if rfl r BIORQ_WRITE then 1 else one (match t with None => false | _ => true end) + nrpc R id;
  ri_live : 0 < biorq_ref r;
  ri_pc : pc_ok r t;
}.

(** A group of writes on its way to the server: how many of its pages are
    pinned, and whether the server has all of it. *)
Record grp := { g_bwc : bmpc_write_coalescer; g_pin : nat; g_app : bool }.
Definition g_ids (G : list grp) : list nat := concat ((λ g, bwc_biorqs (g_bwc g)) <$> G).
Definition g_pins (G : list grp) : list Z := concat ((λ g, take (g_pin g) (bwc_bmpces (g_bwc g))) <$> G).

Record g_ok (m : gmap nat biorq) (g : grp) : Prop := {
  go_rq : ∀ id, id ∈ bwc_biorqs (g_bwc g) → ∃ r, m !! id = Some r ∧ rfl r BIORQ_FLUSHRDY = true ∧ rfl r BIORQ_ONTREE = false ∧
    bwc_soff (g_bwc g) ≤ biorq_off r ∧ biorq_voff_get r ≤ bwc_soff (g_bwc g) + bwc_size (g_bwc g);
  go_cover : ∀ x, bwc_soff (g_bwc g) ≤ x < bwc_soff (g_bwc g) + bwc_size (g_bwc g) →
    ∃ id r, id ∈ bwc_biorqs (g_bwc g) ∧ m !! id = Some r ∧ biorq_off r ≤ x < biorq_voff_get r;
  go_pages : bwc_bmpces (g_bwc g) = biorq_page_offs (bwc_soff (g_bwc g)) (bwc_size (g_bwc g));
  go_size : 0 < bwc_size (g_bwc g);
  go_bytes : ∀ pm i, 0 ≤ i < bwc_size (g_bwc g) → iov_bytes pm (bwc_iovs (g_bwc g)) i = page_byte pm (bwc_soff (g_bwc g) + i);
}.

Definition off_at (m : gmap nat biorq) (id : nat) : Z := match m !! id with Some r => biorq_off r | None => 0 end.
Definition off_sorted (m : gmap nat biorq) (l : list nat) : Prop := StronglySorted (λ a b, off_at m a ≤ off_at m b) l.

(** How many requests have page [p]. *)
Definition holds (b : bmapc) (p : Z) : Z :=
  cnt (λ id, match b_rqs b !! id with Some r => bool_decide (p ∈ biorq_pages r) | None => false end) (b_pndg b).
Definition is_rdy (b : bmapc) (id : nat) : bool := match b_rqs b !! id with Some r => rfl r BIORQ_FLUSHRDY | None => false end.

(** [D]: writes that are neither in the tree nor in a group. *)
Record rqinv (pc : pcache) (b : bmapc) (R : gmap nat rrpc) (T : gmap nat Cio.pc) (G : list grp) (D : list nat) : Prop := {
  rv_pc : pcinv pc (holds b);
  rv_pndg : NoDup (b_pndg b);
  rv_dom : ∀ id, id ∈ b_pndg b ↔ is_Some (b_rqs b !! id);
  rv_rq : ∀ id r, b_rqs b !! id = Some r → rq_inv R id r (T !! id);
  rv_thr : ∀ id, is_Some (T !! id) → is_Some (b_rqs b !! id);
  rv_rd : ∀ rid v, R !! rid = Some v → ∃ r, b_rqs b !! rr_rq v = Some r ∧ rfl r BIORQ_WRITE = false;
  rv_new : NoDup (b_new b);
  rv_in_new : ∀ id, id ∈ b_new b ↔ ∃ r, b_rqs b !! id = Some r ∧ rfl r BIORQ_ONTREE = true;
  rv_sorted : off_sorted (b_rqs b) (b_new b);
  rv_exp : b_exp b ≡ₚ b_new b;
  rv_g : ∀ g, g ∈ G → g_ok (b_rqs b) g;
  rv_gids : NoDup (g_ids G ++ D);
  rv_flight : ∀ id, id ∈ g_ids G ++ D ↔ ∃ r, b_rqs b !! id = Some r ∧ rfl r BIORQ_FLUSHRDY = true ∧ rfl r BIORQ_ONTREE = false;
  rv_pins : NoDup (g_pins G);
  rv_pinned : ∀ p e, pc_tree pc !! p = Some e → pfl e BMPCEF_PINNED = bool_decide (p ∈ g_pins G);
  rv_nwr : b_nwr b = cnt (is_rdy b) (b_pndg b);
  rv_flushq : hasf (b_flags b) BMAPF_FLUSHQ = (0 <? b_nwr b);
  rv_onq : b_onq b = hasf (b_flags b) BMAPF_FLUSHQ;
  rv_wr : hasf (b_flags b) BMAPF_WR = true;
  rv_lease : hasf (b_flags b) BMAPF_LEASEFAILED = true → b_error b ≠ 0;
}.

(** ** Loading of pages *)

(** Thread [inl id] or RPC [inr rid] is loading page [p]; [past]: it no longer
    waits for pending writes. *)
Definition own (R : gmap nat rrpc) (T : gmap nat Cio.pc) (past : bool) (o : nat + nat) (p : Z) : Prop :=
  match o with
  | inl id => ∃ l, (T !! id = Some (PLaunch l) ∨ (past = false ∧ T !! id = Some (PFlush l))) ∧ p ∈ l
  | inr rid => ∃ v, R !! rid = Some v ∧ rr_done v = None ∧ p ∈ rr_pages v
  end.
(** Write [r] has found page [p] free to be written, and is not pending yet. *)
Definition hot (r : biorq) (t : option pc) (p : Z) : Prop :=
  rfl r BIORQ_WRITE = true ∧
  match t with
  | Some (PFetch i) => p ∈ take i (biorq_pages r)
  | Some PRel => p ∈ biorq_pages r ∧ match biorq_fsrqi r with Some q => mfsrq_err q = 0 | None => False end
  | Some (PCopy _ _ _) | Some PReply | Some PSched => p ∈ biorq_pages r
  | _ => False
  end.

(** A read that is not a readahead. *)
Definition plain_read (r : biorq) : Prop := rfl r BIORQ_WRITE = false ∧ rfl r BIORQ_READAHEAD = false.

Definition thr_ok (m : gmap Z bmpce) (r : biorq) (t : option pc) : Prop :=
  match t with
  | Some (PFlush l) | Some (PLaunch l) =>
      NoDup l ∧ (∀ p, p ∈ l → p ∈ biorq_pages r ∧ loading m p) ∧
      (plain_read r → ∀ p, p ∈ biorq_pages r → waitable m r p)
  | Some (PFetch i) =>
      plain_read r → (∀ p, p ∈ take i (biorq_pages r) → pv m r p) ∧ (∀ p, p ∈ drop i (biorq_pages r) → waitable m r p)
  | Some PRel | None =>
      rfl r BIORQ_WRITE = false → match biorq_fsrqi r with Some q => mfsrq_err q = 0 → ∀ p, p ∈ biorq_pages r → pv m r p | None => True end
  | _ => True
  end.

Record ownv (m : gmap Z bmpce) (rqs : gmap nat biorq) (R : gmap nat rrpc) (T : gmap nat Cio.pc) : Prop := {
  ov_page : ∀ p e, m !! p = Some e → page_ok p e;
  ov_thr : ∀ id r, rqs !! id = Some r → thr_ok m r (T !! id);
  ov_rd : ∀ rid v, R !! rid = Some v → NoDup (rr_pages v) ∧ (∀ r, rqs !! rr_rq v = Some r → ∀ p, p ∈ rr_pages v → p ∈ biorq_pages r) ∧
    (rr_done v = None → ∀ p, p ∈ rr_pages v → loading m p);
  ov_uniq : ∀ o o' p, own R T false o p → own R T false o' p → o = o';
  ov_hot : ∀ id r p e, rqs !! id = Some r → hot r (T !! id) p → m !! p = Some e → pfl e BMPCEF_FAULTING = false;
  ov_past : ∀ o p id r, own R T true o p → rqs !! id = Some r → rfl r BIORQ_FLUSHRDY = true → p ∉ biorq_pages r;
}.

(** ** Data *)

(** How far a write has been copied into the pages. *)
Definition copied_end (r : biorq) (t : option pc) : Z :=
  match t with
  | None | Some PReply | Some PSched => biorq_voff_get r
  | Some (PCopy _ toff _) => toff
  | _ => biorq_off r
  end.
(** A write that was copied in and that the server may not have. *)
Definition dirty (rqs : gmap nat biorq) (T : gmap nat pc) (x : Z) : Prop :=
  ∃ id r, rqs !! id = Some r ∧ rfl r BIORQ_WRITE = true ∧ biorq_off r ≤ x < copied_end r (T !! id).

(** [A]: the bmap as the writes left it; [K]: the bytes that pages have. *)
Record dat (m : gmap Z bmpce) (rqs : gmap nat biorq) (R : gmap nat rrpc) (T : gmap nat pc) (G : list grp) (srv : data) (K : Z → bool) (A : data) : Prop := {
  da_page : ∀ x, K x = true → page_byte m x = A x;
  da_out : ∀ x, K x = false → srv x = A x;
  da_clean : ∀ x, K x = true → srv x = A x ∨ dirty rqs T x;
  da_rd : ∀ rid v d p x, R !! rid = Some v → rr_done v = None → rr_data v = Some d → p ∈ rr_pages v → p ≤ x < p + BMPC_BUFSZ → d x = srv x;
  da_app : ∀ g x, g ∈ G → g_app g = true → bwc_soff (g_bwc g) ≤ x < bwc_soff (g_bwc g) + bwc_size (g_bwc g) → srv x = A x;
}.
(** The bytes of [K] are in pages, the pages have them all if they say so, and
    they have what was copied in. In a [tidy] run the regions of pages are
    right too. *)
Record kinv (tidy : bool) (m : gmap Z bmpce) (rqs : gmap nat biorq) (T : gmap nat pc) (K : Z → bool) : Prop := {
  kv_page : ∀ x, K x = true → is_Some (m !! page_align x);
  kv_rdy : ∀ p e x, m !! p = Some e → pfl e BMPCEF_DATARDY = true → p ≤ x < p + BMPC_BUFSZ → K x = true;
  kv_dirty : ∀ x, dirty rqs T x → K x = true;
  kv_region : tidy = true → ∀ p e x, m !! p = Some e → bmpce_start e ≤ x < bmpce_start e + bmpce_len e → K x = true;
}.

Definition core (tidy : bool) (pc : pcache) (b : bmapc) (R : gmap nat rrpc) (T : gmap nat Cio.pc) (G : list grp) (D : list nat) (srv : data) (A : data) : Prop :=
  rqinv pc b R T G D ∧ ownv (pc_tree pc) (b_rqs b) R T ∧
  ∃ K, kinv tidy (pc_tree pc) (b_rqs b) T K ∧ (b_flushrc b = 0 → dat (pc_tree pc) (b_rqs b) R T G srv K A).
