(* ===== verification/CioFrame.v ===== *)
(** * Changes that keep the invariant of cached I/O

    Frame lemmas for the invariant of [CioInv.v]: changes of pages, and changes
    of one request and its thread. *)
From S2P Require Import Prelude BmapMds ReplReq ReplWalk Lease Slvr SlvrIO Pgcache PgcacheInv Coalesce CoalesceProps Cio CioInv.

(** ** Changes of pages *)

(** The page has the same data, or an error; [W] allows to forget an error. *)
Record pkeep (W : Prop) (e e' : bmpce) : Prop := {
  pk_off : bmpce_off e' = bmpce_off e;
  pk_start : bmpce_start e' = bmpce_start e;
  pk_len : bmpce_len e' = bmpce_len e;
  pk_base : bmpce_base e' = bmpce_base e;
  pk_rdy : pfl e' BMPCEF_DATARDY = pfl e BMPCEF_DATARDY;
  pk_fault : pfl e' BMPCEF_FAULTING = pfl e BMPCEF_FAULTING;
  pk_eio : (pfl e' BMPCEF_EIO = pfl e BMPCEF_EIO ∧ bmpce_rc e' = bmpce_rc e) ∨ (W ∧ pfl e' BMPCEF_EIO = false) ∨ (pfl e' BMPCEF_EIO = true ∧ bmpce_rc e' ≠ 0);
}.
Lemma pkeep_refl W e : pkeep W e e.
Proof. by split; auto. Qed.
Lemma pkeep_keeps W e e' : keeps e e' → same_eio e e' → pkeep W e e'.
Proof. intros [] ?. split; try done. by left. Qed.

(** [H]: the pages requests have; only others may go away. *)
Record mframe (W H : Z → Prop) (m m' : gmap Z bmpce) : Prop := {
  mf_old : ∀ p e', m' !! p = Some e' → (∃ e, m !! p = Some e ∧ pkeep (W p) e e') ∨ (m !! p = None ∧ ∃ fl junk, e' = new_page fl p junk ∧
    (fl = 0 ∨ fl = BMPCEF_READAHEAD) ∧ page_align p = p);
  mf_held : ∀ p e, H p → m !! p = Some e → is_Some (m' !! p);
}.
Definition held (rqs : gmap nat biorq) (p : Z) : Prop := ∃ id r, rqs !! id = Some r ∧ p ∈ biorq_pages r.
(** A read that waits for page [p]. *)
Definition waits (r : biorq) (t : option pc) (p : Z) : Prop :=
  plain_read r ∧
  match t with
  | Some (PFlush _) | Some (PLaunch _) => p ∈ biorq_pages r
  | Some (PFetch i) => p ∈ drop i (biorq_pages r)
  | _ => False
  end.

Section frame.
Context (W H : Z → Prop) (m m' : gmap Z bmpce) (F : mframe W H m m').

Lemma frame_fwd p e : H p → m !! p = Some e → ∃ e', m' !! p = Some e' ∧ pkeep (W p) e e'.
Proof.
  intros Hp Hm. destruct (mf_held _ _ _ _ F p e Hp Hm) as [e' He']. exists e'. split; [done|].
  destruct (mf_old _ _ _ _ F p e' He') as [(e0 & He0 & Hk)|[Hn _]]; [|by rewrite Hn in Hm]. rewrite Hm in He0. by injection He0 as ->.
Qed.
Lemma pv_frame r p : H p → pv m r p → pv m' r p.
Proof.
  intros Hp (e & He & Hv). destruct (frame_fwd p e Hp He) as (e' & He' & []). exists e'. split; [done|]. rewrite pk_rdy0, pk_start0, pk_len0. done.
Qed.
Lemma loading_frame p : H p → loading m p → loading m' p.
Proof. intros Hp (e & He & Hf & Hd). destruct (frame_fwd p e Hp He) as (e' & He' & []). exists e'. rewrite pk_rdy0, pk_fault0. done. Qed.
Lemma waitable_frame r p : H p → ¬ W p → waitable m r p → waitable m' r p.
Proof.
  intros Hp HW [Hv|(e & He & Hf)]; [left; by apply pv_frame|right]. destruct (frame_fwd p e Hp He) as (e' & He' & []).
  exists e'. split; [done|]. rewrite pk_fault0. destruct pk_eio0 as [[-> _]|[[? _]|[? _]]]; [done|done|by right].
Qed.
Lemma page_ok_frame : (∀ p e, m !! p = Some e → page_ok p e) → ∀ p e, m' !! p = Some e → page_ok p e.
Proof.
  intros Hok p e He. destruct (mf_old _ _ _ _ F p e He) as [(e0 & He0 & [])|(_ & fl & junk & -> & Hfl & Hal)].
  - destruct (Hok _ _ He0). split; try congruence. intros Hio. destruct pk_eio0 as [[Ha Hb]|[[_ Ha]|[_ Ha]]]; [rewrite Hb; apply po_eio; congruence|congruence|done].
  - split; simpl; try done; try lia; [rewrite bufsz_eq; lia|]. destruct Hfl as [-> | ->]; done.
Qed.
Lemma page_byte_frame x : is_Some (m !! page_align x) → is_Some (m' !! page_align x) → page_byte m' x = page_byte m x.
Proof.
  intros [e He] [e' He']. unfold page_byte. rewrite He, He'.
  destruct (mf_old _ _ _ _ F _ _ He') as [(e0 & He0 & [])|[Hn _]]; [|by rewrite Hn in He]. rewrite He in He0. injection He0 as <-. by rewrite pk_base0.
Qed.
End frame.

Lemma ownv_frame W m m' rqs R T :
  ownv m rqs R T → (∀ rid v, R !! rid = Some v → is_Some (rqs !! rr_rq v)) → mframe W (held rqs) m m' →
  (∀ id r p, rqs !! id = Some r → waits r (T !! id) p → ¬ W p) → ownv m' rqs R T.
Proof.
  intros [O1 O2 O3 O4 O5 O6] HR F HW. split; try done.
  - by eapply page_ok_frame.
  - intros id r Hr. specialize (O2 id r Hr). specialize (λ p, HW id r p Hr). unfold waits in HW.
    assert (∀ p, p ∈ biorq_pages r → held rqs p) as Hh by (intros p Hp; by exists id, r).
    assert (∀ l : list Z, (∀ p, p ∈ l → p ∈ biorq_pages r ∧ loading m p) → ∀ p, p ∈ l → p ∈ biorq_pages r ∧ loading m' p) as Hl.
    { intros l Hb p Hp. destruct (Hb p Hp). split; [done|]. eapply loading_frame; [done|by apply Hh|done]. }
    destruct (T !! id) as [[]|]; simpl in *; try done.
    + destruct O2 as (Ha & Hb & Hc). split_and!; [done|by apply Hl|].
      intros Hrd p Hp. eapply waitable_frame; [done|by apply Hh|by apply HW|by apply Hc].
    + destruct O2 as (Ha & Hb & Hc). split_and!; [done|by apply Hl|].
      intros Hrd p Hp. eapply waitable_frame; [done|by apply Hh|by apply HW|by apply Hc].
    + intros Hrd. destruct (O2 Hrd) as [Ha Hb]. split; intros p Hp.
      * eapply pv_frame; [done|apply Hh; by eapply elem_of_take_in|by apply Ha].
      * eapply waitable_frame; [done|apply Hh; by eapply elem_of_drop_in|by apply HW|by apply Hb].
    + intros Hw. specialize (O2 Hw). destruct (biorq_fsrqi r); [|done]. intros He p Hp. eapply pv_frame; [done|by apply Hh|by apply O2].
    + intros Hw. specialize (O2 Hw). destruct (biorq_fsrqi r); [|done]. intros He p Hp. eapply pv_frame; [done|by apply Hh|by apply O2].
  - intros rid v Hv. destruct (O3 rid v Hv) as (Ha & Hb & Hc). split_and!; [done|done|]. intros Hd p Hp.
    destruct (HR rid v Hv) as [r Hr]. eapply loading_frame; [done|exists (rr_rq v), r; split; [done|by eapply Hb]|by apply Hc].
  - intros id r p e' Hr Hh He'. destruct (mf_old _ _ _ _ F p e' He') as [(e & He & [])|(_ & fl & junk & -> & Hfl & _)].
    + rewrite pk_fault0. by eapply O5.
    + by destruct Hfl as [-> | ->].
Qed.

(** A byte that was written is in a page of the request that wrote it. *)
Lemma dirty_held pc b R T G D x : rqinv pc b R T G D → dirty (b_rqs b) T x → held (b_rqs b) (page_align x).
Proof.
  intros I (id & r & Hr & Hw & Hx). exists id, r. split; [done|]. destruct (rv_rq _ _ _ _ _ _ I id r Hr) as [_ _ Hf _ Hra _ _ _ _ _ Hpc].
  unfold full_pages in Hf. destruct (rfl r BIORQ_READAHEAD); [destruct (Hra eq_refl); congruence|]. destruct Hf as (F1 & F2 & F3 & F4).
  assert (todo (T !! id) = []) as Htd by (destruct (T !! id) as [[]|]; simpl in *; try done; lia). rewrite Htd, app_nil_r in F4. rewrite F4.
  apply page_offs_byte. split; [lia|]. destruct (T !! id) as [[]|]; simpl in *; unfold biorq_voff_get in *; try lia.
Qed.

Definition kpres (m : gmap Z bmpce) (K : Z → bool) : Z → bool := λ x, K x && bool_decide (is_Some (m !! page_align x)).
Lemma kpres_true m K x : kpres m K x = true ↔ K x = true ∧ is_Some (m !! page_align x).
Proof. unfold kpres. rewrite andb_true_iff, bool_decide_eq_true. done. Qed.

Lemma page_align_page (p : Z) (e : bmpce) (m : gmap Z bmpce) (x : Z) : (∀ p e, m !! p = Some e → page_ok p e) → m !! p = Some e → p ≤ x < p + BMPC_BUFSZ → page_align x = p.
Proof. intros Hok He Hx. apply page_align_uniq; [|done]. by destruct (Hok p e He). Qed.

Lemma kinv_frame tidy W m m' rqs T K :
  kinv tidy m rqs T K → (∀ p e, m !! p = Some e → page_ok p e) → mframe W (held rqs) m m' → (∀ x, dirty rqs T x → held rqs (page_align x)) →
  kinv tidy m' rqs T (kpres m' K).
Proof.
  intros [K1 K2 K3 K4] Hok F Hd. split.
  - intros x [_ ?]%kpres_true. done.
  - intros p e' x He' Hr Hx. pose proof (page_ok_frame _ _ _ _ F Hok) as Hok'. apply kpres_true.
    rewrite (page_align_page p e' m' x) by done. split; [|done].
    destruct (mf_old _ _ _ _ F p e' He') as [(e & He & [])|(_ & fl & junk & -> & Hfl & _)]; [eapply K2; [done| |done]; congruence|].
    by destruct Hfl as [-> | ->].
  - intros x Hx. apply kpres_true. split; [by apply K3|]. destruct (K1 x (K3 x Hx)) as [e He]. by eapply (mf_held _ _ _ _ F); [apply Hd|].
  - intros Ht p e' x He' Hx. pose proof (page_ok_frame _ _ _ _ F Hok) as Hok'. destruct (Hok' p e' He') as [E1 E2 E3 E4 E5 E6].
    apply kpres_true. rewrite (page_align_page p e' m' x) by (done || lia). split; [|done].
    destruct (mf_old _ _ _ _ F p e' He') as [(e & He & [])|(_ & fl & junk & -> & Hfl & _)]; [|simpl in Hx; lia].
    rewrite pk_start0, pk_len0 in Hx. by eapply K4.
Qed.

Lemma dat_frame W m m' rqs R T G srv K A :
  dat m rqs R T G srv K A → mframe W (held rqs) m m' → (∀ x, K x = true → is_Some (m !! page_align x)) → (∀ x, dirty rqs T x → held rqs (page_align x)) →
  dat m' rqs R T G srv (kpres m' K) A.
Proof.
  intros [D1 D2 D3 D4 D5] F Hk Hd. split; try done.
  - intros x [Hx Hs]%kpres_true. rewrite (page_byte_frame _ _ _ _ F x); auto.
  - intros x Hx. destruct (K x) eqn:HK; [|by apply D2]. destruct (D3 x HK) as [|Hdi]; [done|]. exfalso.
    assert (kpres m' K x = true); [|congruence]. apply kpres_true. split; [done|]. destruct (Hk x HK) as [e He]. by eapply (mf_held _ _ _ _ F); [apply Hd|].
  - intros x [Hx _]%kpres_true. by apply D3.
Qed.

(** A change of pages that the requests do not notice. *)
Lemma core_frame W tidy pc pc' b R T G D srv A G' D' :
  core tidy pc b R T G D srv A → rqinv pc' b R T G' D' → mframe W (held (b_rqs b)) (pc_tree pc) (pc_tree pc') →
  (∀ id r p, b_rqs b !! id = Some r → waits r (T !! id) p → ¬ W p) →
  (∀ g, g ∈ G' → g_app g = true → ∃ g0, g0 ∈ G ∧ g_app g0 = true ∧ g_bwc g0 = g_bwc g) → core tidy pc' b R T G' D' srv A.
Proof.
  intros (I & O & K & HK & HD) I' F HW HG. split; [done|].
  assert (∀ x, dirty (b_rqs b) T x → held (b_rqs b) (page_align x)) as Hd by (intros x; by eapply dirty_held).
  split; [|exists (kpres (pc_tree pc') K); split].
  - eapply ownv_frame; [done| |done|done]. intros rid v Hv. destruct (rv_rd _ _ _ _ _ _ I rid v Hv) as (r & Hr & _). by exists r.
  - eapply kinv_frame; [done|apply O|done|done].
  - intros Hf. specialize (HD Hf). destruct (dat_frame W _ _ _ _ _ _ _ _ _ HD F (kv_page _ _ _ _ _ HK) Hd) as [E1 E2 E3 E4 E5]. split; try done.
    intros g x Hg Ha Hx. destruct (HG g Hg Ha) as (g0 & Hg0 & Ha0 & Hb). rewrite <-Hb in Hx. by eapply E5.
Qed.

(** ** Changes of one request and its thread *)
Abbreviation tset T id t := (partial_alter (λ _, t) id T).

(** What the rest of the invariant looks at. *)
Record rsame (r r' : biorq) : Prop := {
  rs_off : biorq_off r' = biorq_off r;
  rs_len : biorq_len r' = biorq_len r;
  rs_pages : biorq_pages r' = biorq_pages r;
  rs_buf : biorq_buf r' = biorq_buf r;
  rs_write : rfl r' BIORQ_WRITE = rfl r BIORQ_WRITE;
  rs_ra : rfl r' BIORQ_READAHEAD = rfl r BIORQ_READAHEAD;
  rs_rdy : rfl r' BIORQ_FLUSHRDY = rfl r BIORQ_FLUSHRDY;
  rs_tree : rfl r' BIORQ_ONTREE = rfl r BIORQ_ONTREE;
}.
Lemma rsame_refl r : rsame r r.
Proof. by split. Qed.
Lemma rsame_voff r r' : rsame r r' → biorq_voff_get r' = biorq_voff_get r.
Proof. intros []. unfold biorq_voff_get. congruence. Qed.
Lemma full_same r r' l : rsame r r' → full_pages r l → full_pages r' l.
Proof. intros []. unfold full_pages. by rewrite rs_ra0, rs_off0, rs_len0. Qed.
Lemma pv_same m r r' p : rsame r r' → pv m r p → pv m r' p.
Proof. intros Hs. unfold pv. rewrite (rsame_voff r r' Hs). destruct Hs. by rewrite rs_off0. Qed.
Lemma waitable_same m r r' p : rsame r r' → waitable m r p → waitable m r' p.
Proof. intros Hs [Hv|Hv]; [left; by eapply pv_same|by right]. Qed.

Section upd.
Context (m : gmap nat biorq) (id : nat) (r r' : biorq) (Hr : m !! id = Some r) (Hs : rsame r r').
Abbreviation m' := (<[id := r']> m).

Lemma upd_fwd j q : m !! j = Some q → ∃ q', m' !! j = Some q' ∧ rsame q q'.
Proof.
  intros Hq. destruct (decide (j = id)) as [->|]; [exists r'; rewrite lookup_insert_eq; split; [done|]; congruence|].
  exists q. rewrite lookup_insert_ne by done. split; [done|apply rsame_refl].
Qed.
Lemma upd_bwd j q' : m' !! j = Some q' → ∃ q, m !! j = Some q ∧ rsame q q'.
Proof.
  destruct (decide (j = id)) as [->|]; [rewrite lookup_insert_eq; intros [= <-]; by exists r|].
  rewrite lookup_insert_ne by done. intros ?. exists q'. split; [done|apply rsame_refl].
Qed.
Lemma upd_some j : is_Some (m' !! j) ↔ is_Some (m !! j).
Proof. split; [intros [q (q0 & ? & _)%upd_bwd]; by exists q0|intros [q (q0 & ? & _)%upd_fwd]; by exists q0]. Qed.
Lemma upd_off_at j : off_at m' j = off_at m j.
Proof.
  unfold off_at. destruct (decide (j = id)) as [->|]; [rewrite lookup_insert_eq, Hr; apply Hs|by rewrite lookup_insert_ne].
Qed.
Lemma upd_sorted l : off_sorted m l → off_sorted m' l.
Proof.
  unfold off_sorted. induction 1 as [|a l ? IH Hall]; constructor; [done|]. eapply Forall_impl; [done|]. simpl. intros b. by rewrite !upd_off_at.
Qed.
Lemma upd_g_ok g : g_ok m g → g_ok m' g.
Proof.
  intros [G1 G2 G3 G4 G5]. split; try done.
  - intros j Hj. destruct (G1 j Hj) as (q & Hq & ?). destruct (upd_fwd j q Hq) as (q' & Hq' & Hs'). exists q'.
    rewrite (rsame_voff q q' Hs'). destruct Hs'. by rewrite rs_rdy0, rs_tree0, rs_off0.
  - intros x Hx. destruct (G2 x Hx) as (j & q & Hj & Hq & ?). destruct (upd_fwd j q Hq) as (q' & Hq' & Hs'). exists j, q'.
    rewrite (rsame_voff q q' Hs'). destruct Hs'. by rewrite rs_off0.
Qed.
Lemma upd_held p : held m' p ↔ held m p.
Proof.
  split; intros (j & q & Hq & Hp).
  - destruct (upd_bwd j q Hq) as (q0 & Hq0 & []). exists j, q0. split; [done|]. congruence.
  - destruct (upd_fwd j q Hq) as (q0 & Hq0 & []). exists j, q0. split; [done|]. congruence.
Qed.
End upd.

Lemma tset_ne {X} (T : gmap nat X) id (t : option X) j : j ≠ id → tset T id t !! j = T !! j.
Proof. intros ?. by rewrite lookup_partial_alter_ne. Qed.
Lemma tset_eq {X} (T : gmap nat X) id (t : option X) : tset T id t !! id = t.
Proof. by rewrite lookup_partial_alter_eq. Qed.

Lemma rq_inv_R R R' id r t : nrpc R' id = nrpc R id → rq_inv R id r t → rq_inv R' id r t.
Proof. intros Hn [R1 R2 R3 R4 R5 R6 R7 R8 R9 R10 R11]. split; try done. by rewrite Hn. Qed.
(** The RPCs of the request change too. *)
Lemma rqinv_rpc pc b R R' T G D id r r' t :
  rqinv pc b R T G D → b_rqs b !! id = Some r → rsame r r' → rq_inv R' id r' t → (∀ j, j ≠ id → nrpc R' j = nrpc R j) →
  (∀ rid v, R' !! rid = Some v → (rr_rq v = id ∧ rfl r BIORQ_WRITE = false) ∨ ∃ rid0 v0, R !! rid0 = Some v0 ∧ rr_rq v0 = rr_rq v) →
  rqinv pc (b_set_rqs b (<[id := r']> (b_rqs b))) R' (tset T id t) G D.
Proof.
  intros I Hr Hs Hri Hn HR. pose proof (upd_some (b_rqs b) id r r' Hr Hs) as Hsome. destruct I as [rv_pc0 rv_pndg0 rv_dom0 rv_rq0 rv_thr0 rv_rd0 rv_new0 rv_in_new0 rv_sorted0 rv_exp0 rv_g0 rv_gids0 rv_flight0 rv_pins0 rv_pinned0 rv_nwr0 rv_flushq0 rv_onq0 rv_wr0 rv_lease0]. split; try done; simpl.
  - eapply pcinv_ext; [|exact rv_pc0]. intros p. unfold holds. simpl. apply cnt_ext. intros j Hj.
    destruct (decide (j = id)) as [->|]; [rewrite lookup_insert_eq, Hr; by destruct Hs as [_ _ -> _ _ _ _ _]|by rewrite lookup_insert_ne].
  - intros j. by rewrite Hsome.
  - intros j q Hq. destruct (decide (j = id)) as [->|]; [rewrite lookup_insert_eq in Hq; injection Hq as <-; by rewrite tset_eq|].
    rewrite lookup_insert_ne in Hq by done. rewrite tset_ne by done. eapply rq_inv_R; [by apply Hn|by apply rv_rq0].
  - intros j Hj. rewrite Hsome. destruct (decide (j = id)) as [->|]; [by exists r|]. rewrite tset_ne in Hj by done. by apply rv_thr0.
  - intros rid v Hv. assert (∃ q, b_rqs b !! rr_rq v = Some q ∧ rfl q BIORQ_WRITE = false) as (q & Hq & Hw).
    { destruct (HR rid v Hv) as [[-> Hw]|(rid0 & v0 & Hv0 & <-)]; [by exists r|by eapply rv_rd0]. }
    destruct (upd_fwd (b_rqs b) id r r' Hr Hs _ _ Hq) as (q' & Hq' & []). exists q'. split; [done|congruence].
  - intros j. rewrite rv_in_new0. split; intros (q & Hq & Ht).
    + destruct (upd_fwd (b_rqs b) id r r' Hr Hs _ _ Hq) as (q' & Hq' & []). exists q'. split; [done|congruence].
    + destruct (upd_bwd (b_rqs b) id r r' Hr Hs _ _ Hq) as (q' & Hq' & []). exists q'. split; [done|congruence].
  - by eapply upd_sorted.
  - intros g Hg. by eapply upd_g_ok; [| |apply rv_g0].
  - intros j. rewrite rv_flight0. split; intros (q & Hq & Ha & Hb).
    + destruct (upd_fwd (b_rqs b) id r r' Hr Hs _ _ Hq) as (q' & Hq' & []). exists q'. split_and!; [done|congruence|congruence].
    + destruct (upd_bwd (b_rqs b) id r r' Hr Hs _ _ Hq) as (q' & Hq' & []). exists q'. split_and!; [done|congruence|congruence].
  - rewrite rv_nwr0. apply cnt_ext. intros j _. unfold is_rdy. simpl.
    destruct (decide (j = id)) as [->|]; [rewrite lookup_insert_eq, Hr; symmetry; apply Hs|by rewrite lookup_insert_ne].
Qed.
Lemma rqinv_rq pc b R T G D id r r' t :
  rqinv pc b R T G D → b_rqs b !! id = Some r → rsame r r' → rq_inv R id r' t →
  rqinv pc (b_set_rqs b (<[id := r']> (b_rqs b))) R (tset T id t) G D.
Proof. intros I Hr Hs Hri. eapply rqinv_rpc; try done. intros rid v Hv. right. by exists rid, v. Qed.

(** The general form: the request may be new, and may get more pages. *)
Lemma ownv_put m rqs R T id r' t :
  ownv m rqs R T → (∀ r p, rqs !! id = Some r → p ∈ biorq_pages r → p ∈ biorq_pages r') →
  (rfl r' BIORQ_FLUSHRDY = true → ∀ o p, own R T true o p → p ∉ biorq_pages r') →
  (∀ rid v, R !! rid = Some v → is_Some (rqs !! rr_rq v)) → thr_ok m r' t →
  (∀ p e, hot r' t p → m !! p = Some e → pfl e BMPCEF_FAULTING = false) →
  (∀ past p, own R (tset T id t) past (inl id) p → own R T past (inl id) p) → ownv m (<[id := r']> rqs) R (tset T id t).
Proof.
  intros [O1 O2 O3 O4 O5 O6] Hp Hf HR Ht Hhot Hown.
  assert (∀ past o p, own R (tset T id t) past o p → own R T past o p) as Hown'.
  { intros past [j|rid] p; [|done]. destruct (decide (j = id)) as [->|Hj]; [apply Hown|]. simpl. by rewrite tset_ne. }
  split; try done.
  - intros j q Hq. destruct (decide (j = id)) as [->|]; [rewrite lookup_insert_eq in Hq; injection Hq as <-; by rewrite tset_eq|].
    rewrite lookup_insert_ne in Hq by done. rewrite tset_ne by done. by apply O2.
  - intros rid v Hv. destruct (O3 rid v Hv) as (Ha & Hb & Hc). split_and!; [done| |done]. intros q Hq p Hpv. destruct (HR rid v Hv) as [q0 Hq0].
    destruct (decide (rr_rq v = id)) as [<-|]; [rewrite lookup_insert_eq in Hq; injection Hq as <-; eapply Hp; [done|by eapply Hb]|].
    rewrite lookup_insert_ne in Hq by done. by eapply Hb.
  - intros o o' p H1 H2. eapply O4; by apply Hown'.
  - intros j q p e Hq. destruct (decide (j = id)) as [->|]; [rewrite lookup_insert_eq in Hq; injection Hq as <-; rewrite tset_eq; apply Hhot|].
    rewrite lookup_insert_ne in Hq by done. rewrite tset_ne by done. by apply O5.
  - intros o p j q Ho Hq Hrdy. destruct (decide (j = id)) as [->|].
    + rewrite lookup_insert_eq in Hq. injection Hq as <-. eapply Hf; [done|by apply Hown'].
    + rewrite lookup_insert_ne in Hq by done. eapply O6; [by apply Hown'|done|done].
Qed.
Lemma ownv_rq m rqs R T id r r' t :
  ownv m rqs R T → rqs !! id = Some r → rsame r r' → (∀ rid v, R !! rid = Some v → is_Some (rqs !! rr_rq v)) → thr_ok m r' t →
  (∀ p e, hot r' t p → m !! p = Some e → pfl e BMPCEF_FAULTING = false) →
  (∀ past p, own R (tset T id t) past (inl id) p → own R T past (inl id) p) → ownv m (<[id := r']> rqs) R (tset T id t).
Proof.
  intros O Hr Hs HR Ht Hhot Hown. apply ownv_put; try done.
  - intros r0 p. rewrite Hr. intros [= <-]. by rewrite (rs_pages _ _ Hs).
  - intros Hf o p Ho. rewrite (rs_pages _ _ Hs). eapply (ov_past _ _ _ _ O o p id r); [done|done|]. by rewrite <-(rs_rdy _ _ Hs).
Qed.

(** A request nothing of which was copied in. *)
Lemma dirty_put rqs T id r' t x :
  (rfl r' BIORQ_WRITE = true → copied_end r' t ≤ biorq_off r') →
  (∀ r, rqs !! id = Some r → rfl r BIORQ_WRITE = true → copied_end r (T !! id) ≤ biorq_off r) →
  dirty (<[id := r']> rqs) (tset T id t) x ↔ dirty rqs T x.
Proof.
  intros H1 H2. split; intros (j & q & Hq & Hw & Hx).
  - destruct (decide (j = id)) as [->|]; [rewrite lookup_insert_eq in Hq; injection Hq as <-; rewrite tset_eq in Hx; specialize (H1 Hw); lia|].
    rewrite lookup_insert_ne in Hq by done. rewrite tset_ne in Hx by done. by exists j, q.
  - destruct (decide (j = id)) as [->|]; [specialize (H2 q Hq Hw); lia|]. exists j, q. by rewrite lookup_insert_ne, tset_ne.
Qed.

Lemma dirty_rq rqs T id r r' t x :
  rqs !! id = Some r → rsame r r' → (rfl r BIORQ_WRITE = true → copied_end r' t = copied_end r (T !! id)) →
  dirty (<[id := r']> rqs) (tset T id t) x ↔ dirty rqs T x.
Proof.
  intros Hr Hs Hc. split.
  - intros (j & q & Hq & Hw & Hx). destruct (decide (j = id)) as [->|].
    + rewrite lookup_insert_eq in Hq. injection Hq as <-. rewrite tset_eq in Hx. exists id, r. destruct Hs.
      rewrite Hc, rs_off0, rs_write0 in *; try congruence. done.
    + rewrite lookup_insert_ne in Hq by done. rewrite tset_ne in Hx by done. by exists j, q.
  - intros (j & q & Hq & Hw & Hx). destruct (decide (j = id)) as [->|].
    + rewrite Hr in Hq. injection Hq as <-. exists id, r'. rewrite lookup_insert_eq, tset_eq, Hc by done. destruct Hs. by rewrite rs_off0, rs_write0.
    + exists j, q. by rewrite lookup_insert_ne, tset_ne.
Qed.

Lemma kinv_dirty tidy m rqs rqs' T T' K : kinv tidy m rqs T K → (∀ x, dirty rqs' T' x → dirty rqs T x) → kinv tidy m rqs' T' K.
Proof. intros [K1 K2 K3 K4] Hd. split; try done. intros x Hx. auto. Qed.
Lemma dat_dirty m rqs rqs' R T T' G srv K A :
  dat m rqs R T G srv K A → (∀ x, dirty rqs T x → dirty rqs' T' x) → dat m rqs' R T' G srv K A.
Proof. intros [D1 D2 D3 D4 D5] Hd. split; try done. intros x Hx. destruct (D3 x Hx); [by left|right; auto]. Qed.

(** A request that keeps its shape, and whose thread moves on. *)
Lemma core_rq tidy pc b R T G D srv A id r r' t :
  core tidy pc b R T G D srv A → b_rqs b !! id = Some r → rsame r r' → rq_inv R id r' t → thr_ok (pc_tree pc) r' t →
  (∀ p e, hot r' t p → pc_tree pc !! p = Some e → pfl e BMPCEF_FAULTING = false) →
  (∀ past p, own R (tset T id t) past (inl id) p → own R T past (inl id) p) →
  (rfl r BIORQ_WRITE = true → copied_end r' t = copied_end r (T !! id)) →
  core tidy pc (b_set_rqs b (<[id := r']> (b_rqs b))) R (tset T id t) G D srv A.
Proof.
  intros (I & O & K & HK & HD) Hr Hs Hri Ht Hh Ho Hc. split; [by eapply rqinv_rq|].
  split; [eapply ownv_rq; try done; intros rid v Hv; destruct (rv_rd _ _ _ _ _ _ I rid v Hv) as (q & Hq & _); by exists q|].
  exists K. split; [eapply kinv_dirty; [done|]; intros x; by rewrite (dirty_rq (b_rqs b) T id r r' t x)|].
  intros Hf. eapply dat_dirty; [by apply HD|]. intros x. by rewrite (dirty_rq (b_rqs b) T id r r' t x).
Qed.
