(* ===== verification/CioTop.v ===== *)
(** * The invariant on whole states, and small steps

    The invariant [cinv] of a client, rules for the operations the steps are
    made of, and the steps that touch pages nobody waits for. *)
From S2P Require Import Prelude BmapMds ReplReq ReplWalk Lease Slvr SlvrIO Pgcache PgcacheInv Coalesce CoalesceProps Cio CioInv CioFrame.

(** ** The invariant *)
Definition grp_send (g : bmpc_write_coalescer) (n : nat) : grp := {| g_bwc := g; g_pin := n; g_app := false |}.
Definition grp_rpc (v : wrpc) : grp := {| g_bwc := w_bwc v; g_pin := length (bwc_bmpces (w_bwc v)); g_app := w_applied v |}.
Definition fl_groups (f : flpc) : list grp := match f with FSend _ g n => [grp_send g n] | _ => [] end.
Definition wr_groups (W : gmap nat wrpc) : list grp := (λ kv, grp_rpc kv.2) <$> map_to_list W.
Definition groups_of (s : cl) : list grp := fl_groups (c_fl s) ++ wr_groups (c_wr s).

(** The requests a pass of the flush thread has yet to look at. *)
Definition pass_of (f : flpc) : list nat := match f with FIdle => [] | FPass l | FSend l _ _ => l end.
Definition pass_ok (b : bmapc) (l : list nat) : Prop := NoDup l ∧ off_sorted (b_rqs b) l ∧ ∀ id, id ∈ l → id ∈ b_new b.

Record fresh (s : cl) : Prop := {
  fr_rq : ∀ id, is_Some (b_rqs (c_b s) !! id) → (id < c_next s)%nat;
  fr_rd : ∀ id, is_Some (c_rd s !! id) → (id < c_next s)%nat;
  fr_wr : ∀ id, is_Some (c_wr s !! id) → (id < c_next s)%nat;
}.

Record cinv (tidy : bool) (s : cl) (A : data) : Prop := {
  ci_core : core tidy (c_pc s) (c_b s) (c_rd s) (c_thr s) (groups_of s) [] (c_srv s) A;
  ci_pass : pass_ok (c_b s) (pass_of (c_fl s));
  ci_fresh : fresh s;
}.

(** ** Rules *)
Lemma wpb_lift {A} (m : PC A) (Q : A → cl → Prop) s : wpb m (λ a p, Q a (c_set_pc s p)) (c_pc s) → wpb (liftPc m) Q s.
Proof. unfold wpb, liftPc. by destruct (m (c_pc s)) as [[a p]|]. Qed.
Lemma wp_lift {A} (m : PC A) (Q : A → cl → Prop) s : wp m (λ a p, Q a (c_set_pc s p)) (c_pc s) → wp (liftPc m) Q s.
Proof. unfold wp, liftPc. by destruct (m (c_pc s)) as [[a p]|]. Qed.
Lemma wp_getRq id r (Q : biorq → cl → Prop) s : b_rqs (c_b s) !! id = Some r → Q r s → wp (getRq id) Q s.
Proof. unfold wp, getRq. by intros ->. Qed.
Lemma wp_modRq id r g (Q : unit → cl → Prop) s :
  b_rqs (c_b s) !! id = Some r → Q tt (c_set_b s (b_set_rqs (c_b s) (<[id := g r]> (b_rqs (c_b s))))) → wp (modRq id g) Q s.
Proof. intros Hr HQ. unfold modRq. wp_step. eapply wp_getRq; [done|]. exact HQ. Qed.

(** The same change of each page of a list. *)
Definition mod_tree (f : Z → bmpce → bmpce) (l : list Z) (m m' : gmap Z bmpce) : Prop :=
  ∀ p, m' !! p = if bool_decide (p ∈ l) then f p <$> m !! p else m !! p.
Lemma wp_each_mod (f : Z → bmpce → bmpce) l : ∀ s h (Q : unit → pcache → Prop),
  pcinv s h → NoDup l → (∀ p, p ∈ l → is_Some (pc_tree s !! p)) → (∀ p e, pc_same e (f p e)) →
  (∀ s', pcinv s' h → mod_tree f l (pc_tree s) (pc_tree s') → Q tt s') → wp (each_page (λ p, modPg p (f p)) l) Q s.
Proof.
  induction l as [|p l IH]; intros s h Q I Hnd Hl Hf HQ.
  { apply wp_ret. apply HQ; [done|]. intros p. by rewrite bool_decide_false by apply not_elem_of_nil. }
  apply NoDup_cons in Hnd as [Hp Hnd]. destruct (Hl p ltac:(left)) as [e He]. simpl. wp_step. eapply wp_modPg; [done|].
  eapply IH; [by eapply pcinv_same|done| |done|].
  - intros q Hq. simpl. destruct (decide (q = p)) as [->|]; [done|]. rewrite lookup_insert_ne by done. apply Hl. by right.
  - intros s' I' Ht. apply HQ; [done|]. intros q. rewrite (Ht q). simpl. destruct (decide (q = p)) as [->|Hq].
    + rewrite bool_decide_false, lookup_insert_eq by done. rewrite bool_decide_true by left. by rewrite He.
    + rewrite lookup_insert_ne by done. erewrite (bool_decide_ext (q ∈ p :: l)); [done|]. rewrite elem_of_cons. tauto.
Qed.

(** Requests: pages that exist, and in no order. *)
Section facts.
Context {tidy : bool} {pc : pcache} {b : bmapc} {R : gmap nat rrpc} {T : gmap nat Cio.pc} {G : list grp} {D : list nat}.

Lemma full_aligned r l p : full_pages r l → p ∈ l → page_align p = p ∧ 0 ≤ p ∧ p + BMPC_BUFSZ ≤ SLASH_BMAP_SIZE.
Proof.
  unfold full_pages. destruct (rfl r BIORQ_READAHEAD).
  - intros (_ & _ & a & n & -> & Ha & H0 & Hb) (i & Hi & ->)%elem_of_prange. rewrite page_align_eq in *. rewrite bufsz_eq in *. split_and!; [|lia|lia]. zdiv.
  - intros (H0 & Hl & Hb & ->) (Ha & Hlo & Hhi)%elem_of_page_offs; [|done]. split; [done|]. rewrite page_align_eq in *.
    unfold SLASH_BMAP_SIZE, SLASH_SLVRS_PER_BMAP, SLASH_SLVR_SIZE in *. rewrite bufsz_eq in *. zdiv.
Qed.
Lemma full_nodup r l : full_pages r l → NoDup l.
Proof.
  unfold full_pages. destruct (rfl r BIORQ_READAHEAD); [intros (_ & _ & a & n & -> & _); apply NoDup_prange|intros (_ & _ & _ & ->); apply NoDup_prange].
Qed.
Lemma rq_pages_nodup id r t : rq_inv R id r t → NoDup (biorq_pages r).
Proof. intros [_ _ Hf _ _ _ _ _ _ _ _]. apply full_nodup in Hf. by apply NoDup_app in Hf as (? & _ & _). Qed.
Lemma rq_pages_in id r p : rqinv pc b R T G D → b_rqs b !! id = Some r → p ∈ biorq_pages r → is_Some (pc_tree pc !! p) ∧ 0 < holds b p.
Proof.
  intros I Hr Hp. assert (0 < holds b p) as Hh.
  { unfold holds. eapply (cnt_pos _ _ id); [apply (rv_dom _ _ _ _ _ _ I); by exists r|]. rewrite Hr. by apply bool_decide_true. }
  split; [|done]. apply (pci_dom _ _ (rv_pc _ _ _ _ _ _ I)). by left.
Qed.
(** The pages of requests that are complete. *)
Lemma rq_pages_full id r t : rq_inv R id r t → todo t = [] → rfl r BIORQ_READAHEAD = false →
  0 ≤ biorq_off r ∧ 0 < biorq_len r ∧ biorq_voff_get r ≤ SLASH_BMAP_SIZE ∧ biorq_pages r = biorq_page_offs (biorq_off r) (biorq_len r).
Proof. intros [_ _ Hf _ _ _ _ _ _ _ _] Ht Hra. unfold full_pages in Hf. by rewrite Hra, Ht, app_nil_r in Hf. Qed.
Lemma rdy_full id r : rqinv pc b R T G D → b_rqs b !! id = Some r → rfl r BIORQ_FLUSHRDY = true →
  rfl r BIORQ_WRITE = true ∧ T !! id = None ∧
  0 ≤ biorq_off r ∧ 0 < biorq_len r ∧ biorq_voff_get r ≤ SLASH_BMAP_SIZE ∧ biorq_pages r = biorq_page_offs (biorq_off r) (biorq_len r).
Proof.
  intros I Hr Hf. pose proof (rv_rq _ _ _ _ _ _ I id r Hr) as Hri. pose proof (ri_rdy _ _ _ _ Hri) as Hrdy. rewrite Hf in Hrdy.
  symmetry in Hrdy. apply andb_true_iff in Hrdy as [Hw Ht]. split; [done|]. split; [by destruct (T !! id)|].
  eapply (rq_pages_full id r (T !! id)); [done|by destruct (T !! id) as [[]|]|].
  destruct (rfl r BIORQ_READAHEAD) eqn:Hra; [|done]. destruct (ri_ra _ _ _ _ Hri Hra). congruence.
Qed.
(** A byte of a group is written by one of its requests, and in a page of it. *)
Lemma group_byte g x : rqinv pc b R T G D → g ∈ G → bwc_soff (g_bwc g) ≤ x < bwc_soff (g_bwc g) + bwc_size (g_bwc g) →
  ∃ id r, id ∈ bwc_biorqs (g_bwc g) ∧ b_rqs b !! id = Some r ∧ rfl r BIORQ_FLUSHRDY = true ∧ biorq_off r ≤ x < biorq_voff_get r ∧ page_align x ∈ biorq_pages r.
Proof.
  intros I Hg Hx. destruct (rv_g _ _ _ _ _ _ I g Hg) as [G1 G2 _ _ _]. destruct (G2 x Hx) as (id & r & Hid & Hr & Hxr).
  destruct (G1 id Hid) as (r0 & Hr0 & Hf & _). rewrite Hr in Hr0. injection Hr0 as <-. exists id, r. split_and!; try done; try lia.
  destruct (rdy_full id r I Hr Hf) as (_ & _ & _ & _ & _ & ->). apply page_offs_byte. unfold biorq_voff_get in Hxr. lia.
Qed.
Lemma group_page g p : rqinv pc b R T G D → g ∈ G → p ∈ bwc_bmpces (g_bwc g) →
  ∃ id r, id ∈ bwc_biorqs (g_bwc g) ∧ b_rqs b !! id = Some r ∧ rfl r BIORQ_FLUSHRDY = true ∧ p ∈ biorq_pages r.
Proof.
  intros I Hg Hp. destruct (rv_g _ _ _ _ _ _ I g Hg) as [_ _ Hpg Hsz _]. rewrite Hpg in Hp. apply elem_of_page_offs in Hp as (Ha & Hlo & Hhi); [|done].
  destruct (group_byte g (Z.max (bwc_soff (g_bwc g)) p) I Hg ltac:(lia)) as (id & r & Hid & Hr & Hf & _ & Hin). exists id, r. split_and!; try done.
  rewrite (page_align_uniq _ p) in Hin; [done|done|]. pose proof (page_align_bound (bwc_soff (g_bwc g))). lia.
Qed.
Lemma pins_page p : p ∈ g_pins G → ∃ g, g ∈ G ∧ p ∈ bwc_bmpces (g_bwc g).
Proof.
  unfold g_pins. intros (l & Hl & Hp)%list_elem_of_In%in_concat. apply list_elem_of_In, list_elem_of_fmap in Hl as (g & -> & Hg).
  exists g. split; [done|]. apply list_elem_of_In in Hp. by apply elem_of_take_in in Hp.
Qed.
Lemma pins_held p : rqinv pc b R T G D → p ∈ g_pins G → ∃ id r, b_rqs b !! id = Some r ∧ rfl r BIORQ_FLUSHRDY = true ∧ p ∈ biorq_pages r.
Proof. intros I (g & Hg & Hp)%pins_page. destruct (group_page g p I Hg Hp) as (id & r & _ & ? & ? & ?). by exists id, r. Qed.

Lemma core_perm A srv G' D' : core tidy pc b R T G D srv A → G ≡ₚ G' → D ≡ₚ D' → core tidy pc b R T G' D' srv A.
Proof.
  intros (I & O & K & HK & HD) HG HDp. split; [|split; [done|exists K; split; [done|]]].
  - assert (g_ids G ≡ₚ g_ids G') as Hi by (unfold g_ids; by rewrite HG).
    assert (g_pins G ≡ₚ g_pins G') as Hp by (unfold g_pins; by rewrite HG).
    destruct I as [V1 V2 V3 V4 V5 V6 V7 V8 V9 V10 V11 V12 V13 V14 V15 V16 V17 V18 V19 V20]. split; try done.
    + intros g. rewrite <-HG. apply V11.
    + by rewrite <-Hi, <-HDp.
    + intros id. rewrite <-Hi, <-HDp. apply V13.
    + by rewrite <-Hp.
    + intros p e He. rewrite (V15 p e He). apply bool_decide_ext. by rewrite Hp.
  - intros Hf. destruct (HD Hf) as [D1 D2 D3 D4 D5]. split; try done. intros g x. rewrite <-HG. apply D5.
Qed.
End facts.

(** ** Changes of the bmap that requests do not see *)
Record bsame (b b' : bmapc) : Prop := {
  bs_rqs : b_rqs b' = b_rqs b;
  bs_new : b_new b' = b_new b;
  bs_exp : b_exp b' = b_exp b;
  bs_pndg : b_pndg b' = b_pndg b;
  bs_nwr : b_nwr b' = b_nwr b;
  bs_onq : b_onq b' = b_onq b;
  bs_flushq : hasf (b_flags b') BMAPF_FLUSHQ = hasf (b_flags b) BMAPF_FLUSHQ;
  bs_wr : hasf (b_flags b') BMAPF_WR = hasf (b_flags b) BMAPF_WR;
  bs_lease : hasf (b_flags b') BMAPF_LEASEFAILED = true → hasf (b_flags b) BMAPF_LEASEFAILED = true ∧ b_error b' = b_error b ∨ b_error b' ≠ 0;
}.
Lemma rqinv_b pc b b' R T G D : rqinv pc b R T G D → bsame b b' → rqinv pc b' R T G D.
Proof.
  intros [V1 V2 V3 V4 V5 V6 V7 V8 V9 V10 V11 V12 V13 V14 V15 V16 V17 V18 V19 V20] [B1 B2 B3 B4 B5 B6 B7 B8 B9].
  split; rewrite ?B1, ?B2, ?B3, ?B4, ?B5, ?B6, ?B7, ?B8; try done.
  - eapply pcinv_ext; [|exact V1]. intros p. unfold holds. by rewrite B1, B4.
  - rewrite V16. apply cnt_ext. intros j _. unfold is_rdy. by rewrite B1.
  - intros Hl. destruct (B9 Hl) as [[Ha Hb]|]; [rewrite Hb; by apply V20|done].
Qed.
Lemma core_b tidy pc b b' R T G D srv A :
  core tidy pc b R T G D srv A → bsame b b' → (b_flushrc b' = 0 → b_flushrc b = 0) → core tidy pc b' R T G D srv A.
Proof.
  intros (I & O & K & HK & HD) Hb Hf. pose proof (bs_rqs _ _ Hb) as Hr. split; [by eapply rqinv_b|]. rewrite Hr. split; [done|].
  exists K. split; [done|]. auto.
Qed.
Lemma pass_b b b' l : pass_ok b l → b_rqs b' = b_rqs b → b_new b' = b_new b → pass_ok b' l.
Proof. unfold pass_ok. by intros ? -> ->. Qed.

(** ** Pages that change for nobody *)
Lemma rqinv_pc pc pc' b R T G D :
  rqinv pc b R T G D → pcinv pc' (holds b) → (∀ p e, pc_tree pc' !! p = Some e → pfl e BMPCEF_PINNED = bool_decide (p ∈ g_pins G)) → rqinv pc' b R T G D.
Proof. by intros [V1 V2 V3 V4 V5 V6 V7 V8 V9 V10 V11 V12 V13 V14 V15 V16 V17 V18 V19 V20]; split. Qed.
(** Pages keep what they have; those nobody has may go. *)
Lemma core_pages tidy pc pc' b R T G D srv A :
  core tidy pc b R T G D srv A → pcinv pc' (holds b) →
  (∀ p e', pc_tree pc' !! p = Some e' → ∃ e, pc_tree pc !! p = Some e ∧ keeps e e' ∧ same_eio e e') →
  (∀ p e, 0 < holds b p → pc_tree pc !! p = Some e → is_Some (pc_tree pc' !! p)) → core tidy pc' b R T G D srv A.
Proof.
  intros HC I' Hk Hh. pose proof HC as (I & _). eapply (core_frame (λ _, False)); [exact HC| | |tauto|].
  - eapply rqinv_pc; [done|done|]. intros p e' He'. destruct (Hk p e' He') as (e & He & [] & _). rewrite kp_pin. by apply (rv_pinned _ _ _ _ _ _ I).
  - split; [intros p e' He'; left; destruct (Hk p e' He') as (e & He & Hke & Heio); exists e; split; [done|by apply pkeep_keeps]|].
    intros p e (id & r & Hr & Hp) He. eapply Hh; [|done]. by eapply (rq_pages_in id r p I).
  - intros g Hg Ha. by exists g.
Qed.
Lemma pages_keep_fwd m m' : pages_keep m m' →
  (∀ p e', m' !! p = Some e' → ∃ e, m !! p = Some e ∧ keeps e e' ∧ same_eio e e') ∧ (∀ p e, m !! p = Some e → is_Some (m' !! p)).
Proof.
  intros HK. split; intros p e He; specialize (HK p); rewrite He in HK.
  - destruct (m !! p) as [e0|]; [by exists e0|done].
  - destruct (m' !! p); [done|done].
Qed.

Lemma cinv_pc tidy s pc' A : cinv tidy s A → core tidy pc' (c_b s) (c_rd s) (c_thr s) (groups_of s) [] (c_srv s) A → cinv tidy (c_set_pc s pc') A.
Proof. intros [C1 C2 C3] HC. split; [exact HC|exact C2|by destruct C3]. Qed.
Lemma cinv_b tidy s b' A : cinv tidy s A → bsame (c_b s) b' → (b_flushrc b' = 0 → b_flushrc (c_b s) = 0) → cinv tidy (c_set_b s b') A.
Proof.
  intros [C1 C2 C3] Hb Hf. split.
  - by eapply core_b.
  - eapply pass_b; [exact C2|apply Hb|apply Hb].
  - destruct C3. split; simpl; try done. by rewrite (bs_rqs _ _ Hb).
Qed.

Section small.
Context `{PflNetLaws}.

Lemma step_reap tidy s A desperate n busy : cinv tidy s A → wpb (liftPc (bmpce_reap desperate n busy)) (λ _ s', cinv tidy s' A) s.
Proof.
  intros C. pose proof (ci_core _ _ _ C) as HC. pose proof HC as (I & _). apply wpb_of, wp_lift. eapply wp_bmpce_reap; [apply I|]. intros s' I' HK.
  apply cinv_pc; [done|]. apply pages_keep_fwd in HK as [Ha Hb]. eapply core_pages; [done|done|done|]. intros p e _. by apply Hb.
Qed.
Lemma step_reap_release tidy s A p : cinv tidy s A → wpb (liftPc (reap_release p)) (λ _ s', cinv tidy s' A) s.
Proof.
  intros C. pose proof (ci_core _ _ _ C) as HC. pose proof HC as (I & _). apply wpb_lift. eapply wpb_reap_release; [apply I|]. intros s' e I' He Hs'.
  apply cinv_pc; [done|]. eapply core_pages; [done|done| |].
  - intros q e' He'. destruct Hs' as [[Hs' _]|(e1 & Hs' & Hk & Hio)]; rewrite Hs' in He'.
    + apply lookup_delete_Some in He' as [_ He']. exists e'. split; [done|]. split; [apply keeps_refl|done].
    + destruct (decide (q = p)) as [->|]; [rewrite lookup_insert_eq in He'; injection He' as <-; by exists e|].
      rewrite lookup_insert_ne in He' by done. exists e'. split; [done|]. split; [apply keeps_refl|done].
  - intros q e1 Hq He1. destruct Hs' as [[Hs' Hz]|(e2 & Hs' & _ & _)]; rewrite Hs'.
    + destruct (decide (q = p)) as [->|]; [lia|]. rewrite lookup_delete_ne by done. by exists e1.
    + destruct (decide (q = p)) as [->|]; [rewrite lookup_insert_eq; by eexists|rewrite lookup_insert_ne by done; by exists e1].
Qed.
Lemma step_lease_failed tidy s A rc : cinv tidy s A → wpb (lease_failed rc) (λ _ s', cinv tidy s' A) s.
Proof.
  intros C. unfold lease_failed. wb_step. wb_step. apply wpb_of, wp_modify. apply cinv_b; [done| |done].
  split; simpl; try done; try (flags_goal; done). intros _. right. by destruct (rc =? 0) eqn:Hrc; [|apply Z.eqb_neq in Hrc].
Qed.
Lemma step_lease_ext tidy s A : cinv tidy s A → wpb lease_ext_begin (λ _ s', cinv tidy s' A) s.
Proof.
  intros C. apply wpb_of, wp_modify. apply cinv_b; [done| |done]. split; simpl; try done; try (flags_goal; done).
  flags_goal. intros ?. by left.
Qed.
Lemma step_lease_renewed tidy s A ios : cinv tidy s A → wpb (lease_renewed ios) (λ _ s', cinv tidy s' A) s.
Proof. intros C. apply wpb_of, wp_modify. apply cinv_b; [done| |done]. split; simpl; try done. intros ?. by left. Qed.
Lemma step_flush_end tidy s A : cinv tidy s A → wpb flush_end (λ _ s', cinv tidy s' A) s.
Proof.
  intros C. unfold flush_end. wb_step. wb_step. destruct (c_fl s) as [|[|]|] eqn:Hfl; try done.
  wb_step. apply wpb_of. unfold modB. wp_step. apply wpb_of, wp_modify.
  assert (cinv tidy (c_set_b s (b_set_flags (c_b s) (clrf (b_flags (c_b s)) BMAPF_SCHED))) A) as [C1 C2 C3].
  { apply cinv_b; [done| |done]. split; simpl; try done; try (flags_goal; done). flags_goal. intros ?. by left. }
  split; [|simpl in *; rewrite Hfl in C2; exact C2|by destruct C3].
  unfold groups_of in *. simpl in *. rewrite Hfl in C1. exact C1.
Qed.
End small.
