(* ===== verification/CioStart.v ===== *)
(** * The start of a request

    New requests and the loop that looks up their pages. *)
From S2P Require Import Prelude BmapMds ReplReq ReplWalk Lease Slvr SlvrIO Pgcache PgcacheInv Coalesce CoalesceProps Cio CioInv CioFrame CioTop.

Lemma nrpc_none R id : (∀ rid v, R !! rid = Some v → rr_rq v ≠ id) → nrpc R id = 0.
Proof.
  intros HR. unfold nrpc. assert (filter (λ kv : nat * rrpc, rr_rq kv.2 = id) R = ∅) as ->; [|by rewrite map_size_empty].
  apply map_empty. intros rid. apply map_lookup_filter_None. right. intros v Hv. by apply HR in Hv.
Qed.

(** A new request has no pages yet. *)
Lemma rqinv_new pc b R T G D id r l :
  rqinv pc b R T G D → b_rqs b !! id = None → biorq_pages r = [] → rfl r BIORQ_FLUSHRDY = false → rfl r BIORQ_ONTREE = false →
  rq_inv R id r (Some (PBuild l)) →
  rqinv pc (b_set_pndg (b_set_rqs b (<[id := r]> (b_rqs b))) (b_pndg b ++ [id])) R (<[id := PBuild l]> T) G D.
Proof.
  intros [V1 V2 V3 V4 V5 V6 V7 V8 V9 V10 V11 V12 V13 V14 V15 V16 V17 V18 V19 V20] Hid Hpg Hrdy Htree Hri.
  assert (id ∉ b_pndg b) as Hnp by (rewrite V3, Hid; by intros [? ?]).
  assert (∀ j q, b_rqs b !! j = Some q → j ≠ id) as Hne by (intros j q Hq ->; by rewrite Hid in Hq).
  split; try done; simpl.
  - eapply pcinv_ext; [|exact V1]. intros p. unfold holds. simpl. rewrite cnt_app. simpl. rewrite lookup_insert_eq, Hpg.
    rewrite bool_decide_false by apply not_elem_of_nil. rewrite (cnt_ext _ (λ id0, match b_rqs b !! id0 with Some r0 => bool_decide (p ∈ biorq_pages r0) | None => false end)); [lia|].
    intros j Hj. rewrite lookup_insert_ne; [done|]. by intros <-.
  - apply NoDup_app. split_and!; [done| |apply NoDup_singleton]. intros j Hj ->%list_elem_of_singleton. done.
  - intros j. rewrite elem_of_app, list_elem_of_singleton, V3. destruct (decide (j = id)) as [->|]; [rewrite lookup_insert_eq; naive_solver|].
    rewrite lookup_insert_ne by done. tauto.
  - intros j q Hq. destruct (decide (j = id)) as [->|]; [rewrite lookup_insert_eq in Hq; injection Hq as <-; by rewrite lookup_insert_eq|].
    rewrite lookup_insert_ne in Hq by done. rewrite lookup_insert_ne by done. by apply V4.
  - intros j Hj. destruct (decide (j = id)) as [->|]; [rewrite lookup_insert_eq; by eexists|]. rewrite lookup_insert_ne in Hj by done. rewrite lookup_insert_ne by done. by apply V5.
  - intros rid v Hv. destruct (V6 rid v Hv) as (q & Hq & Hw). exists q. rewrite lookup_insert_ne; [done|]. intros ->. by apply Hne in Hq.
  - intros j. rewrite V8. destruct (decide (j = id)) as [->|]; [rewrite lookup_insert_eq, Hid; split; intros (q & Hq & ?); congruence|].
    by rewrite lookup_insert_ne.
  - assert (∀ j, j ∈ b_new b → off_at (<[id:=r]> (b_rqs b)) j = off_at (b_rqs b) j) as Ho.
    { intros j Hj. unfold off_at. rewrite lookup_insert_ne; [done|]. intros <-. apply V8 in Hj as (q & Hq & _). congruence. }
    clear -V9 Ho. unfold off_sorted in *. induction V9 as [|a l ? IH Hall]; constructor.
    + apply IH. intros j Hj. apply Ho. by right.
    + rewrite Forall_forall in *. intros j Hj. rewrite !Ho; [by apply Hall|by right|left].
  - intros g Hg. destruct (V11 g Hg) as [G1 G2 G3 G4 G5]. split; try done.
    + intros j Hj. destruct (G1 j Hj) as (q & Hq & ?). exists q. rewrite lookup_insert_ne; [done|]. intros <-. by apply Hne in Hq.
    + intros x Hx. destruct (G2 x Hx) as (j & q & ? & Hq & ?). exists j, q. rewrite lookup_insert_ne; [done|]. intros <-. by apply Hne in Hq.
  - intros j. rewrite V13. destruct (decide (j = id)) as [->|]; [rewrite lookup_insert_eq, Hid; split; intros (q & Hq & ?); [congruence|destruct H; congruence]|].
    by rewrite lookup_insert_ne.
  - rewrite V16, cnt_app. simpl. unfold is_rdy at 3. simpl. rewrite lookup_insert_eq, Hrdy.
    rewrite (cnt_ext (is_rdy (b_set_pndg _ _)) (is_rdy b)); [lia|]. intros j Hj. unfold is_rdy. simpl. rewrite lookup_insert_ne; [done|]. by intros <-.
Qed.

Lemma core_new tidy pc b R T G D srv A id r l :
  core tidy pc b R T G D srv A → b_rqs b !! id = None → biorq_pages r = [] → rfl r BIORQ_FLUSHRDY = false → rfl r BIORQ_ONTREE = false →
  rq_inv R id r (Some (PBuild l)) →
  core tidy pc (b_set_pndg (b_set_rqs b (<[id := r]> (b_rqs b))) (b_pndg b ++ [id])) R (<[id := PBuild l]> T) G D srv A.
Proof.
  intros (I & O & K & HK & HD) Hid Hpg Hrdy Htree Hri. split; [by apply rqinv_new|]. simpl.
  assert (∀ x, dirty (<[id := r]> (b_rqs b)) (<[id := PBuild l]> T) x ↔ dirty (b_rqs b) T x) as Hd.
  { intros x. apply (dirty_put (b_rqs b) T id r (Some (PBuild l)) x); [done|]. intros r0. by rewrite Hid. }
  split.
  - apply (ownv_put _ _ _ _ id r (Some (PBuild l))); try done.
    + intros r0 p. by rewrite Hid.
    + congruence.
    + intros rid v Hv. destruct (rv_rd _ _ _ _ _ _ I rid v Hv) as (q & Hq & _). by exists q.
    + by intros p e [_ ?].
    + intros past p (l' & [Hl|[_ Hl]] & _); by rewrite tset_eq in Hl.
  - exists K. split; [eapply kinv_dirty; [done|]; intros x; by rewrite Hd|]. intros Hf. eapply dat_dirty; [by apply HD|]. intros x. by rewrite Hd.
Qed.

Lemma rq_inv_init R id (w ra : bool) q buf off len now l :
  nrpc R id = 0 → (ra = true → w = false) → (w = true → len ≤ SLASH_SLVR_SIZE) →
  (if ra then q = None else ∃ q0, q = Some q0 ∧ mfsrq_size q0 = len ∧ mfsrq_ref q0 = 2 ∧ mfsrq_len q0 = 0 ∧ mfsrq_replied q0 = false ∧ mfsrq_err q0 = 0) →
  let fl := if ra then Z.lor BIORQ_READ BIORQ_READAHEAD else if w then BIORQ_WRITE else BIORQ_READ in
  let r := {| biorq_buf := buf; biorq_ref := 1; biorq_off := off; biorq_len := len; biorq_flags := fl; biorq_retries := 0;
              biorq_last_sliod := IOS_ID_ANY; biorq_expire := now; biorq_pages := []; biorq_fsrqi := q |} in
  full_pages r l → rq_inv R id r (Some (PBuild l)).
Proof.
  intros Hn Hrw Hw Hq fl r Hf. split; simpl; try done; unfold fl; destruct ra, w; try done; try (by specialize (Hrw eq_refl)); simpl in *.
  all: try (intros _; destruct Hq as (q0 & -> & ? & ? & ? & ? & ?); exists q0; split_and!; done).
  all: try (rewrite Hn; done). all: auto.
Qed.

Section start.
Context `{PflNetLaws}.

Lemma cinv_new tidy s A id r l :
  cinv tidy s A → id = c_next s → biorq_pages r = [] → rfl r BIORQ_FLUSHRDY = false → rfl r BIORQ_ONTREE = false →
  rq_inv (c_rd s) id r (Some (PBuild l)) →
  cinv tidy (c_set_thr (c_set_b (c_set_next s (S id)) (b_set_pndg (b_set_rqs (c_b s) (<[id := r]> (b_rqs (c_b s)))) (b_pndg (c_b s) ++ [id]))) (<[id := PBuild l]> (c_thr s))) A.
Proof.
  intros [C1 C2 [F1 F2 F3]] -> Hpg Hrdy Ht Hri.
  assert (b_rqs (c_b s) !! c_next s = None) as Hid.
  { destruct (b_rqs (c_b s) !! c_next s) eqn:He; [|done]. assert (c_next s < c_next s)%nat; [|lia]. apply F1. by eexists. }
  split; simpl.
  - by apply core_new.
  - destruct C2 as (P1 & P2 & P3). split_and!; simpl; try done.
    assert (∀ j, j ∈ pass_of (c_fl s) → off_at (<[c_next s:=r]> (b_rqs (c_b s))) j = off_at (b_rqs (c_b s)) j) as Ho.
    { intros j Hj. unfold off_at. rewrite lookup_insert_ne; [done|]. intros <-. apply P3 in Hj. destruct C1 as (I & _). apply (rv_in_new _ _ _ _ _ _ I) in Hj as (q & Hq & _). congruence. }
    clear -P2 Ho. unfold off_sorted in *. induction P2 as [|a l' ? IH Hall]; constructor.
    + apply IH. intros j Hj. apply Ho. by right.
    + rewrite Forall_forall in *. intros j Hj. rewrite !Ho; [by apply Hall|by right|left].
  - split; simpl; intros j Hj.
    + destruct (decide (j = c_next s)) as [->|]; [lia|]. rewrite lookup_insert_ne in Hj by done. specialize (F1 j Hj). lia.
    + specialize (F2 j Hj). lia.
    + specialize (F3 j Hj). lia.
Qed.
Lemma cinv_nrpc tidy s A : cinv tidy s A → nrpc (c_rd s) (c_next s) = 0.
Proof.
  intros [(I & _) _ [F1 _ _]]. apply nrpc_none. intros rid v Hv He. destruct (rv_rd _ _ _ _ _ _ I rid v Hv) as (r & Hr & _).
  assert (rr_rq v < c_next s)%nat; [|lia]. apply F1. by exists r.
Qed.

Lemma step_start tidy s A w off len buf now : cinv tidy s A → 0 < len → off + len ≤ SLASH_BMAP_SIZE →
  wpb (msl_io_start w off len buf now) (λ _ s', cinv tidy s' A) s.
Proof.
  intros C Hlen Hend. unfold msl_io_start, getB. wb_step. wb_step. wb_step. wb_step. wb_step. wb_step.
  apply andb_true_iff in H2 as [Ho Hm]. wb_step. apply wpb_of, wp_assert; [lia|]. wb_step. apply wpb_of, wp_assert; [lia|].
  unfold bmpc_biorq_new, setRq, setPc, modB. wb_step. wb_step. wb_step. wb_step. wb_step. wb_step. wb_step. wb_step. wb_step. wb_step. apply wpb_of, wp_modify.
  simpl. apply (cinv_new tidy s A _ _ _ C eq_refl); simpl; [done|by destruct w|by destruct w|].
  eapply (rq_inv_init (c_rd s) (c_next s) w false); [by eapply cinv_nrpc|done| |by eexists|].
  - intros ->. rewrite MTU_slvr in Hm. lia.
  - unfold full_pages. simpl. assert (hasf (if w then BIORQ_WRITE else BIORQ_READ) BIORQ_READAHEAD = false) as -> by (by destruct w). split_and!; [lia|lia|lia|done].
Qed.
Lemma step_ra_start tidy s A off n now : cinv tidy s A → wpb (readahead_start off n now) (λ _ s', cinv tidy s' A) s.
Proof.
  intros C. unfold readahead_start. wb_step. wb_step. apply andb_true_iff in H1 as [[Ho Ha]%andb_true_iff He].
  unfold bmpc_biorq_new, setRq, setPc, modB. wb_step. wb_step. wb_step. wb_step. wb_step. wb_step. wb_step. wb_step. wb_step. wb_step. apply wpb_of, wp_modify.
  simpl. apply (cinv_new tidy s A _ _ _ C eq_refl); simpl; [done|done|done|].
  eapply (rq_inv_init (c_rd s) (c_next s) false true); [by eapply cinv_nrpc|done|done|done|].
  unfold full_pages. simpl. split_and!; [done|done|]. exists off, n. split_and!; [done| |lia|lia]. rewrite page_align_eq. rewrite bufsz_eq in *. zdiv.
Qed.

(** The loop over pages gets one more page. *)
Lemma rqinv_grow pc pc' b R T G D id r p l :
  rqinv pc b R T G D → b_rqs b !! id = Some r → T !! id = Some (PBuild (p :: l)) → pcinv pc' (hadd (holds b) p 1) →
  (∀ q e, pc_tree pc' !! q = Some e → pfl e BMPCEF_PINNED = bool_decide (q ∈ g_pins G)) →
  rqinv pc' (b_set_rqs b (<[id := rq_pages r (biorq_pages r ++ [p])]> (b_rqs b))) R (<[id := PBuild l]> T) G D.
Proof.
  intros I Hr Ht I' Hpin. pose proof (rv_rq _ _ _ _ _ _ I id r Hr) as Hri. rewrite Ht in Hri.
  set (r' := rq_pages r (biorq_pages r ++ [p])).
  assert (∀ j q', <[id := r']> (b_rqs b) !! j = Some q' → ∃ q, b_rqs b !! j = Some q ∧ biorq_flags q' = biorq_flags q ∧ biorq_off q' = biorq_off q ∧ biorq_len q' = biorq_len q) as Hbwd.
  { intros j q'. destruct (decide (j = id)) as [->|]; [rewrite lookup_insert_eq; intros [= <-]; by exists r|]. rewrite lookup_insert_ne by done. intros ?. by exists q'. }
  assert (∀ j q, b_rqs b !! j = Some q → ∃ q', <[id := r']> (b_rqs b) !! j = Some q' ∧ biorq_flags q' = biorq_flags q ∧ biorq_off q' = biorq_off q ∧ biorq_len q' = biorq_len q) as Hfwd.
  { intros j q Hq. destruct (decide (j = id)) as [->|]; [exists r'; rewrite lookup_insert_eq; rewrite Hr in Hq; by injection Hq as <-|]. exists q. by rewrite lookup_insert_ne. }
  assert (∀ j, off_at (<[id := r']> (b_rqs b)) j = off_at (b_rqs b) j) as Hoff.
  { intros j. unfold off_at. destruct (decide (j = id)) as [->|]; [by rewrite lookup_insert_eq, Hr|by rewrite lookup_insert_ne]. }
  destruct I as [V1 V2 V3 V4 V5 V6 V7 V8 V9 V10 V11 V12 V13 V14 V15 V16 V17 V18 V19 V20]. split; try done; simpl.
  - eapply pcinv_ext; [|exact I']. intros q. unfold hadd, holds. simpl. destruct (Z.eqb_spec q p) as [->|Hq].
    + eapply (cnt_flip _ _ _ id); [done|apply V3; by exists r|rewrite Hr|rewrite lookup_insert_eq|intros j Hj; by rewrite lookup_insert_ne].
      * apply bool_decide_false. destruct Hri as [_ _ Hf _ _ _ _ _ _ _ _]. apply full_nodup in Hf. simpl in Hf. apply NoDup_app in Hf as (_ & Hd & _).
        intros Hin. apply (Hd p Hin). left.
      * apply bool_decide_true. simpl. apply elem_of_app. right. left.
    + apply cnt_ext. intros j _. destruct (decide (j = id)) as [->|]; [rewrite lookup_insert_eq, Hr|by rewrite lookup_insert_ne].
      apply bool_decide_ext. simpl. rewrite elem_of_app, list_elem_of_singleton. tauto.
  - intros j. rewrite V3. split; intros [q Hq]; [destruct (Hfwd j q Hq) as (q' & ? & _)|destruct (Hbwd j q Hq) as (q' & ? & _)]; by exists q'.
  - intros j q Hq. destruct (decide (j = id)) as [->|].
    + rewrite lookup_insert_eq in Hq. injection Hq as <-. rewrite lookup_insert_eq. destruct Hri as [R1 R2 R3 R4 R5 R6 R7 R8 R9 R10 R11].
      split; simpl in *; try done. unfold full_pages in *. simpl in *. by rewrite <-app_assoc.
    + rewrite lookup_insert_ne in Hq by done. rewrite lookup_insert_ne by done. by apply V4.
  - intros j Hj. destruct (decide (j = id)) as [->|]; [rewrite lookup_insert_eq; by eexists|]. rewrite lookup_insert_ne in Hj by done. rewrite lookup_insert_ne by done. by apply V5.
  - intros rid v Hv. destruct (V6 rid v Hv) as (q & Hq & Hw). destruct (Hfwd _ _ Hq) as (q' & Hq' & Hfl & _). exists q'. by rewrite Hfl.
  - intros j. rewrite V8. split; intros (q & Hq & Ho); [destruct (Hfwd j q Hq) as (q' & ? & Hfl & _)|destruct (Hbwd j q Hq) as (q' & ? & Hfl & _)]; exists q'; split; congruence.
  - clear -V9 Hoff. unfold off_sorted in *. induction V9 as [|a l' ? IH Hall]; constructor; [done|]. eapply Forall_impl; [done|]. simpl. intros j. by rewrite !Hoff.
  - intros g Hg. destruct (V11 g Hg) as [G1 G2 G3 G4 G5]. split; try done.
    + intros j Hj. destruct (G1 j Hj) as (q & Hq & ?). destruct (Hfwd j q Hq) as (q' & Hq' & Hfl & Ho & Hl). exists q'. unfold biorq_voff_get in *. by rewrite Hfl, Ho, Hl.
    + intros x Hx. destruct (G2 x Hx) as (j & q & ? & Hq & ?). destruct (Hfwd j q Hq) as (q' & Hq' & Hfl & Ho & Hl). exists j, q'. unfold biorq_voff_get in *. by rewrite Ho, Hl.
  - intros j. rewrite V13. split; intros (q & Hq & Ho & Hp); [destruct (Hfwd j q Hq) as (q' & ? & Hfl & _)|destruct (Hbwd j q Hq) as (q' & ? & Hfl & _)]; exists q'; split_and!; congruence.
  - rewrite V16. apply cnt_ext. intros j _. unfold is_rdy. simpl. destruct (decide (j = id)) as [->|]; [by rewrite lookup_insert_eq, Hr|by rewrite lookup_insert_ne].
Qed.

(** A lookup as a change of pages. *)
Definition eio_at (m : gmap Z bmpce) (p q : Z) : Prop := q = p ∧ ∃ e, m !! p = Some e ∧ pfl e BMPCEF_EIO = true.
Lemma lookup_frame s s' fl p junk e' Hd :
  pc_tree s' = <[p := e']> (pc_tree s) → looked_up s fl p junk e' → (fl = 0 ∨ fl = BMPCEF_READAHEAD) → page_align p = p →
  mframe (eio_at (pc_tree s) p) Hd (pc_tree s) (pc_tree s').
Proof.
  intros Ht Hl Hfl Hal. split; rewrite Ht.
  - intros q e0. destruct (decide (q = p)) as [->|]; [rewrite lookup_insert_eq; intros [= <-]|rewrite lookup_insert_ne by done; intros He; left; exists e0; split; [done|apply pkeep_refl]].
    unfold looked_up in Hl. destruct (pc_tree s !! p) as [e|] eqn:He; [left; exists e; split; [done|]|right; split; [done|]; by exists fl, junk].
    destruct Hl as (HK & Hio & _). destruct HK as [K1 K2 K3 K4 K5 K6 K7 K8]. split; try done. destruct (pfl e BMPCEF_EIO) eqn:Hioe; [right; left|left; by rewrite Hio].
    split; [split; [done|by exists e]|done].
  - intros q e0 _ He0. destruct (decide (q = p)) as [->|]; [rewrite lookup_insert_eq; by eexists|rewrite lookup_insert_ne by done; by exists e0].
Qed.
Lemma lookup_pins s s' fl p junk e' pc b R T G D :
  pc_tree s = pc_tree pc → rqinv pc b R T G D → pc_tree s' = <[p := e']> (pc_tree s) → looked_up s fl p junk e' → (fl = 0 ∨ fl = BMPCEF_READAHEAD) →
  ∀ q e, pc_tree s' !! q = Some e → pfl e BMPCEF_PINNED = bool_decide (q ∈ g_pins G).
Proof.
  intros Hs I Ht Hl Hfl q e. rewrite Ht. destruct (decide (q = p)) as [->|]; [rewrite lookup_insert_eq; intros [= <-]|rewrite lookup_insert_ne, Hs by done; apply I].
  unfold looked_up in Hl. rewrite Hs in Hl. destruct (pc_tree pc !! p) as [e0|] eqn:He.
  - destruct Hl as (HK & _). rewrite (kp_pin _ _ HK). by apply (rv_pinned _ _ _ _ _ _ I).
  - subst e'. rewrite bool_decide_false; [by destruct Hfl as [-> | ->]|]. intros (id & r & Hr & Hf & Hin)%(pins_held p I).
    destruct (rq_pages_in id r p I Hr Hin) as [[e1 He1] _]. congruence.
Qed.

Lemma step_build tidy s A id junk :
  cinv tidy s A →
  (∀ p l j q, c_thr s !! id = Some (PBuild (p :: l)) → eio_at (pc_tree (c_pc s)) p p → b_rqs (c_b s) !! j = Some q → ¬ waits q (c_thr s !! j) p) →
  wpb (build_step id junk) (λ _ s', cinv tidy s' A) s.
Proof.
  intros C Hcalm. pose proof (ci_core _ _ _ C) as HC. pose proof HC as (I & O & K & HK & HD). unfold build_step. wb_step. wb_step.
  destruct (c_thr s !! id) as [[todo| | | | | | | | |]|] eqn:Ht; try done.
  destruct (rv_thr _ _ _ _ _ _ I id ltac:(by eexists)) as [r Hr]. wb_step. eapply wpb_of, wp_getRq; [done|].
  pose proof (rv_rq _ _ _ _ _ _ I id r Hr) as Hri. rewrite Ht in Hri.
  destruct todo as [|p l].
  - apply wpb_of, wp_modify. destruct C as [C1 C2 C3]. split; [|done|by destruct C3].
    assert (b_set_rqs (c_b s) (<[id := r]> (b_rqs (c_b s))) = c_b s) as Hb by (rewrite insert_id by done; by destruct (c_b s)).
    simpl. set (t := if rfl r BIORQ_READ then PMark else PFetch 0).
    assert (t = PMark ∨ t = PFetch 0) as Ht' by (unfold t; destruct (rfl r BIORQ_READ); auto).
    rewrite <-Hb at 1. apply (core_rq tidy _ _ _ _ _ _ _ _ id r r (Some t)); try done.
    + destruct Hri as [R1 R2 R3 R4 R5 R6 R7 R8 R9 R10 R11].
      split; try done; try (by destruct Ht' as [-> | ->]).
      * unfold t. destruct (rfl r BIORQ_READ) eqn:Hrd; simpl; [by destruct (rfl r BIORQ_WRITE)|].
        destruct (rfl r BIORQ_READAHEAD) eqn:Hra; [|done]. destruct (R5 eq_refl). rewrite H1 in R1. done.
    + unfold t. destruct (rfl r BIORQ_READ) eqn:Hrd; simpl; [done|]. intros [Hw _]. rewrite (ri_kind _ _ _ _ Hri), Hw in Hrd. done.
    + intros q e [_ Hh]. unfold t in Hh. destruct (rfl r BIORQ_READ); [done|]. simpl in Hh. by apply elem_of_nil in Hh.
    + intros past q (l' & [Hl|[_ Hl]] & _); rewrite tset_eq in Hl; destruct Ht' as [Ht' | Ht']; rewrite Ht' in Hl; done.
    + intros _. rewrite Ht. by destruct Ht' as [-> | ->].
  - set (fl := if rfl r BIORQ_READAHEAD then BMPCEF_READAHEAD else 0). assert (fl = 0 ∨ fl = BMPCEF_READAHEAD) as Hfl by (unfold fl; destruct (rfl r BIORQ_READAHEAD); auto).
    assert (page_align p = p) as Hal.
    { eapply (full_aligned r _ p); [apply Hri|]. apply elem_of_app. right. left. }
    wb_step. apply wpb_lift. eapply wpb_lookup; [apply I|done|]. intros pc' e' I' Ht' Hl. wb_step. apply wpb_of, wp_modify. apply wpb_of, wp_modify.
    pose proof (lookup_pins (c_pc s) pc' fl p junk e' _ _ _ _ _ _ eq_refl I Ht' Hl Hfl) as Hpin.
    pose proof (lookup_frame (c_pc s) pc' fl p junk e' (held (b_rqs (c_b s))) Ht' Hl Hfl Hal) as HF.
    set (r' := rq_pages r (biorq_pages r ++ [p])).
    assert (rqinv pc' (b_set_rqs (c_b s) (<[id := r']> (b_rqs (c_b s)))) (c_rd s) (<[id := PBuild l]> (c_thr s)) (groups_of s) []) as I2 by (by eapply rqinv_grow).
    assert (∀ rid v, c_rd s !! rid = Some v → is_Some (b_rqs (c_b s) !! rr_rq v)) as HR.
    { intros rid v Hv. destruct (rv_rd _ _ _ _ _ _ I rid v Hv) as (q & Hq & _). by exists q. }
    assert (∀ x, dirty (b_rqs (c_b s)) (c_thr s) x → held (b_rqs (c_b s)) (page_align x)) as Hdh by (intros x; by eapply dirty_held).
    assert (∀ x, dirty (<[id := r']> (b_rqs (c_b s))) (<[id := PBuild l]> (c_thr s)) x ↔ dirty (b_rqs (c_b s)) (c_thr s) x) as Hdi.
    { intros x. apply (dirty_put _ _ id r' (Some (PBuild l)) x); [done|]. intros r0. rewrite Hr. intros [= <-] _. by rewrite Ht. }
    destruct C as [C1 C2 C3]. split; simpl.
    + split; [done|]. split.
      * apply (ownv_put _ _ _ _ id r' (Some (PBuild l))); try done.
        -- eapply ownv_frame; [done|done|exact HF|]. intros j q p' Hq Hw [-> Heio]. eapply Hcalm; [done| |done|done]. by split.
        -- intros r0 q. rewrite Hr. intros [= <-] Hq. simpl. apply elem_of_app. by left.
        -- intros Hf. simpl in Hf. rewrite (ri_rdy _ _ _ _ Hri), andb_false_r in Hf. done.
        -- by intros q e [_ ?].
        -- intros past q (l' & [Hl'|[_ Hl']] & _); by rewrite tset_eq in Hl'.
      * exists (kpres (pc_tree pc') K). split.
        -- eapply kinv_dirty; [eapply kinv_frame; [done|apply O|exact HF|done]|]. intros x. by rewrite Hdi.
        -- intros Hf. eapply dat_dirty; [eapply dat_frame; [by apply HD|exact HF|apply HK|done]|]. intros x. by rewrite Hdi.
    + destruct C2 as (P1 & P2 & P3). split_and!; [done| |done]. simpl.
      assert (∀ j, off_at (<[id := r']> (b_rqs (c_b s))) j = off_at (b_rqs (c_b s)) j) as Hoff.
      { intros j. unfold off_at. destruct (decide (j = id)) as [->|]; [by rewrite lookup_insert_eq, Hr|by rewrite lookup_insert_ne]. }
      clear -P2 Hoff. unfold off_sorted in *. induction P2 as [|a l' ? IH Hall]; constructor; [done|]. eapply Forall_impl; [done|]. simpl. intros j. by rewrite !Hoff.
    + destruct C3 as [F1 F2 F3]. split; simpl; try done. intros j Hj. apply F1. destruct (decide (j = id)) as [->|]; [by exists r|]. by rewrite lookup_insert_ne in Hj.
Qed.
End start.
