(* ===== verification/CioValid.v ===== *)
(** * Which pages a read can use

    The loops over the pages of a request: which part of the request is in a
    page, whether the page has it, and the vectors of the reply to a read. *)
From S2P Require Import Prelude BmapMds ReplReq ReplWalk Lease Slvr SlvrIO Pgcache PgcacheInv Coalesce CoalesceProps Cio CioInv CioFrame CioTop.

(** ** The position of a loop *)

(** The loop over the pages of the range from [off] to [hi] is at page [i]. *)
Definition at_page (off hi : Z) (i : nat) (toff tsize : Z) : Prop :=
  toff = Z.max off (page_align off + Z.of_nat i * BMPC_BUFSZ) ∧ toff + tsize = hi.
Abbreviation page_nth off i := (page_align off + Z.of_nat i * BMPC_BUFSZ).

Lemma page_nth_align off i : page_align (page_nth off i) = page_nth off i.
Proof. rewrite !page_align_eq, bufsz_eq. zdiv. Qed.
Lemma at_start_page off hi : at_page off hi 0 off (hi - off).
Proof. split; [|lia]. pose proof (page_align_bound off). lia. Qed.
Lemma page_span_at off hi i toff tsize : at_page off hi i toff tsize → page_nth off i < hi → off < hi →
  page_span (i =? 0)%nat toff tsize (page_nth off i) = Z.min hi (page_nth off i + BMPC_BUFSZ) - toff.
Proof.
  intros [-> Hhi] Hlt Hoff. pose proof (page_align_bound off). unfold page_span. destruct i as [|i]; simpl (_ =? _)%nat; cbn [andb].
  - destruct (Z.gtb_spec (Z.max off (page_nth off 0)) (page_nth off 0)); lia.
  - rewrite bufsz_eq in *. lia.
Qed.
Lemma at_page_next off hi i toff tsize : at_page off hi i toff tsize → page_nth off (S i) < hi → off < hi →
  let n := page_span (i =? 0)%nat toff tsize (page_nth off i) in at_page off hi (S i) (toff + n) (tsize - n).
Proof.
  intros Ha Hlt Hoff n. unfold n. rewrite (page_span_at off hi) by (rewrite ?bufsz_eq in *; lia || done). destruct Ha as [-> Hhi]. pose proof (page_align_bound off).
  unfold at_page. rewrite bufsz_eq in *. split; lia.
Qed.
Lemma prange_nth a n i p : prange a n !! i = Some p → p = a + Z.of_nat i * BMPC_BUFSZ ∧ (i < n)%nat.
Proof.
  revert a i. induction n as [|n IH]; intros a i; simpl; [by rewrite lookup_nil|]. destruct i as [|i]; simpl; [intros [= <-]; lia|].
  intros [-> ?]%IH. lia.
Qed.

(** ** The check *)
Definition valid_in (r : biorq) (p : Z) (e : bmpce) : Prop :=
  pfl e BMPCEF_DATARDY = true ∨ (bmpce_start e ≤ Z.max (biorq_off r) p ∧ Z.min (biorq_voff_get r) (p + BMPC_BUFSZ) ≤ bmpce_start e + bmpce_len e).
Definition pages_at (m : gmap Z bmpce) (l : list Z) : Prop := ∀ p, p ∈ l → ∃ e, m !! p = Some e ∧ bmpce_off e = p.

Lemma wp_page_valid_loop r idx p e pages : ∀ i toff tsize s (Q : bool → pcache → Prop),
  pages_at (pc_tree s) pages → (i ≤ idx)%nat → pages !! (idx - i)%nat = Some p → pc_tree s !! p = Some e →
  (∀ v : bool, (v = false → pfl e BMPCEF_DATARDY = false) →
    (at_page (biorq_off r) (biorq_voff_get r) i toff tsize → biorq_off r < biorq_voff_get r →
     (∃ n, pages = prange (page_nth (biorq_off r) i) n) → (∀ q, q ∈ pages → q < biorq_voff_get r) → v = true ↔ valid_in r p e) → Q v s) →
  wp (page_valid_loop pages i idx toff tsize) Q s.
Proof.
  induction pages as [|p0 pages IH]; intros i toff tsize s Q Hpg Hi Hp He HQ; [by rewrite lookup_nil in Hp|].
  destruct (Hpg p0 ltac:(left)) as (e0 & He0 & Ho). simpl. wp_step. eapply wp_getPg; [done|]. rewrite Ho. destruct (Nat.eqb_spec i idx) as [->|Hne]; cbn [negb].
  - rewrite Nat.sub_diag in Hp. simpl in Hp. injection Hp as ->. rewrite He in He0. injection He0 as <-.
    destruct (pfl e BMPCEF_DATARDY) eqn:Hr; wp_step; apply HQ; try done; [intros; split; [by left|done]|].
    intros Hat Hlt [n Hn] Hall. destruct n as [|n]; [done|]. simpl in Hn. injection Hn as -> _. rewrite (page_span_at _ _ _ _ _ Hat) by (done || apply Hall; left).
    destruct Hat as [-> Hhi]. unfold valid_in. rewrite Hr, andb_true_iff, Z.geb_le, Z.leb_le. split; [intros; right; lia|intros [|]; [done|lia]].
  - destruct (idx - i)%nat as [|k] eqn:Hk; [lia|]. simpl in Hp. apply IH; [|lia|by replace (idx - S i)%nat with k by lia|done|].
    + intros q Hq. apply Hpg. by right.
    + intros v Hv Hat. apply HQ; [done|]. intros Ha Hlt [n Hn] Hall. destruct n as [|n]; [done|]. simpl in Hn. injection Hn as -> ->.
      apply Hat; [|done| |intros q Hq; apply Hall; by right].
      * apply at_page_next; [done| |done]. destruct n as [|n]; [simpl in Hp; by rewrite lookup_nil in Hp|]. specialize (Hall (page_nth (biorq_off r) i + BMPC_BUFSZ) ltac:(right; left)). lia.
      * exists n. f_equal. lia.
Qed.
(** What [msl_biorq_page_valid] tells. *)
Lemma wp_page_valid r i p e s (Q : bool → pcache → Prop) :
  full_pages r (biorq_pages r) → pages_at (pc_tree s) (biorq_pages r) → biorq_pages r !! i = Some p → pc_tree s !! p = Some e →
  (∀ v : bool, (v = false → pfl e BMPCEF_DATARDY = false) → (rfl r BIORQ_READAHEAD = false → v = true ↔ valid_in r p e) → Q v s) →
  wp (msl_biorq_page_valid r i) Q s.
Proof.
  intros Hf Hpg Hp He HQ. unfold msl_biorq_page_valid. eapply wp_page_valid_loop; [done|lia|by rewrite Nat.sub_0_r|done|].
  intros v Hv Hat. apply HQ; [done|]. intros Hra. unfold full_pages in Hf. rewrite Hra in Hf. destruct Hf as (F1 & F2 & F3 & F4). unfold biorq_voff_get in *.
  apply Hat; [split; [pose proof (page_align_bound (biorq_off r)); lia|done]|lia| |].
  - rewrite F4. unfold biorq_page_offs. eexists. f_equal. lia.
  - intros q Hq. rewrite F4 in Hq. apply elem_of_page_offs in Hq; lia.
Qed.

(** ** The vectors of a reply *)
Lemma wp_copyout_loop r hi n : ∀ i toff tsize s (Q : list iovec * Z → pcache → Prop),
  full_pages r (biorq_pages r) → rfl r BIORQ_READAHEAD = false → pages_at (pc_tree s) (biorq_pages r) →
  (∀ p, p ∈ biorq_pages r → pv (pc_tree s) r p) → (∀ p e, pc_tree s !! p = Some e → 0 < bmpce_ref e) →
  drop i (biorq_pages r) = prange (page_nth (biorq_off r) i) n →
  at_page (biorq_off r) hi i toff tsize ∨ tsize = 0 → biorq_off r < hi → hi ≤ page_nth (biorq_off r) (i + n) ∨ tsize = 0 → 0 ≤ tsize →
  (∀ iovs, (∀ m k, 0 ≤ k < tsize → iov_bytes m iovs k = page_byte m (toff + k)) → Q (iovs, 0) s) →
  wp (copyout_loop r (prange (page_nth (biorq_off r) i) n) i toff tsize) Q s.
Proof.
  induction n as [|n IH]; intros i toff tsize s Q Hf Hra Hpg Hv Href Hd Hat Hoff Hend Hts HQ.
  { simpl. wp_step. assert (tsize = 0) as ->; [|apply HQ; lia]. destruct Hat as [[Ha Hb]|]; [|done]. destruct Hend as [Hend|]; [|done].
    rewrite Nat.add_0_r in Hend. lia. }
  simpl. destruct (Z.eqb_spec tsize 0) as [->|Hn0]; [wp_step; apply HQ; lia|].
  destruct Hat as [Hat|]; [|done]. destruct Hend as [Hend|]; [|done].
  assert (biorq_pages r !! i = Some (page_nth (biorq_off r) i)) as Hp.
  { rewrite <-(Nat.add_0_r i) at 1. rewrite <-lookup_drop, Hd. done. }
  destruct (Hpg (page_nth (biorq_off r) i)) as (e & He & Ho); [by eapply list_elem_of_lookup_2|].
  assert (page_nth (biorq_off r) i < hi) as Hlt by (destruct Hat; pose proof (page_align_bound (biorq_off r)); lia).
  wp_step. eapply wp_getPg; [done|]. rewrite Ho. pose proof (page_align_bound (biorq_off r)) as Hb.
  pose proof (page_span_at _ _ _ _ _ Hat Hlt Hoff) as Hsp. set (nb := page_span _ _ _ _) in *.
  wp_step. apply wp_assert. { destruct Hat as [-> _]. destruct i as [|i]; [|done]. apply orb_true_iff. right. apply Z.ltb_lt. lia. }
  wp_step. eapply wp_page_valid; [done|done|exact Hp|done|]. intros v _ Hvi. wp_step. apply wp_assert.
  { apply Hvi; [done|]. destruct (Hv (page_nth (biorq_off r) i)) as (e0 & He0 & Hval); [by eapply list_elem_of_lookup_2|]. rewrite He in He0. by injection He0 as <-. }
  wp_step. apply wp_assert; [specialize (Href _ _ He); lia|]. wp_step. apply wp_assert; [lia|]. wp_step.
  assert (∀ iovs m k, 0 ≤ k < nb → iov_bytes m ({| iov_page := page_nth (biorq_off r) i; iov_off := if (i =? 0)%nat && (toff >? page_nth (biorq_off r) i) then toff - page_nth (biorq_off r) i else 0; iov_len := nb |} :: iovs) k = page_byte m (toff + k)) as Hhead.
  { intros iovs m k Hk. simpl. destruct (Z.ltb_spec k nb); [|lia]. unfold page_byte. destruct Hat as [Ht Hhi].
    rewrite (page_align_uniq (toff + k) (page_nth (biorq_off r) i)); [|apply page_nth_align|lia]. destruct (m !! page_nth (biorq_off r) i); [|done]. f_equal.
    destruct i as [|i]; simpl (_ =? _)%nat; cbn [andb]; [destruct (Z.gtb_spec toff (page_nth (biorq_off r) 0)); lia|rewrite bufsz_eq in *; lia]. }
  assert (page_nth (biorq_off r) i + BMPC_BUFSZ = page_nth (biorq_off r) (S i)) as Hnx by lia. rewrite Hnx.
  apply IH; try done.
  - rewrite <-Hnx. replace (S i) with (i + 1)%nat by lia. rewrite <-drop_drop, Hd. done.
  - destruct (decide (page_nth (biorq_off r) (S i) < hi)); [left; by apply at_page_next|right]. destruct Hat as [_ <-]. lia.
  - left. by replace (S i + n)%nat with (i + S n)%nat by lia.
  - destruct Hat as [-> <-]. lia.
  - intros iovs Hby. wp_step. apply HQ. intros m k Hk. destruct (decide (k < nb)); [apply Hhead; lia|]. simpl.
    destruct (Z.ltb_spec k nb); [lia|]. rewrite Hby by lia. f_equal. lia.
Qed.

(** The reply to a read, when the pages have what it asks for: as much of the
    request as the file has. *)
Definition read_len (fsz : Z) (r : biorq) : Z := Z.max 0 (Z.min (biorq_len r) (fsz - biorq_off r)).
Lemma wp_copyout fsz r s (Q : list iovec * Z → pcache → Prop) :
  full_pages r (biorq_pages r) → rfl r BIORQ_READAHEAD = false → pages_at (pc_tree s) (biorq_pages r) →
  (∀ p, p ∈ biorq_pages r → pv (pc_tree s) r p) → (∀ p e, pc_tree s !! p = Some e → 0 < bmpce_ref e) →
  (∀ iovs, (∀ m k, 0 ≤ k < read_len fsz r → iov_bytes m iovs k = page_byte m (biorq_off r + k)) → Q (iovs, read_len fsz r) s) →
  wp (msl_pages_copyout fsz r) Q s.
Proof.
  intros Hf Hra Hpg Hv Href HQ. unfold msl_pages_copyout. pose proof Hf as Hf'. unfold full_pages in Hf'. rewrite Hra in Hf'. destruct Hf' as (F1 & F2 & F3 & F4).
  set (ts := if _ >? _ then _ else _). assert (read_len fsz r = Z.max 0 ts) as Hts.
  { unfold ts, read_len, biorq_voff_get. destruct (Z.gtb_spec (biorq_off r + biorq_len r) fsz); lia. }
  rewrite Hts in *. destruct (Z.leb_spec ts 0); [wp_step; replace (Z.max 0 ts) with 0 in * by lia; apply HQ; lia|].
  assert (ts ≤ biorq_len r) by (unfold ts, biorq_voff_get in *; destruct (Z.gtb_spec (biorq_off r + biorq_len r) fsz); lia).
  wp_step. unfold biorq_page_offs in F4. rewrite npages_eq in F4 by done. set (n := Z.to_nat _) in F4.
  assert (prange (page_align (biorq_off r)) n = prange (page_nth (biorq_off r) 0) n) as Hpr by (f_equal; lia). rewrite F4 at 1. rewrite Hpr.
  apply (wp_copyout_loop r (biorq_off r + ts)); try done.
  - simpl. by rewrite F4, Hpr.
  - left. split; pose proof (page_align_bound (biorq_off r)); lia.
  - lia.
  - left. simpl. rewrite page_align_eq. unfold n. rewrite bufsz_eq. zdiv.
  - lia.
  - intros iovs Hby. wp_step. apply wp_assert; [by destruct (biorq_pages r)|]. wp_step. replace (ts - 0) with (Z.max 0 ts) by lia. apply HQ. intros m k Hk. apply Hby. lia.
Qed.
