(* ===== verification/CioRead.v ===== *)
(** * The threads of reads and writes up to the transfer

    The loop that waits for pages, error handling, and the marking of pages
    that have to be read. *)
From S2P Require Import Prelude BmapMds ReplReq ReplWalk Lease Slvr SlvrIO Pgcache PgcacheInv Coalesce CoalesceProps Cio CioInv CioFrame CioTop CioStart CioValid.

Lemma pass_rq b b' l :
  pass_ok b l → (∀ j, j ∈ l → off_at (b_rqs b') j = off_at (b_rqs b) j) → (∀ j, j ∈ l → j ∈ b_new b → j ∈ b_new b') → pass_ok b' l.
Proof.
  intros (P1 & P2 & P3) Ho Hn. split_and!; [done| |intros j Hj; apply Hn; auto]. clear P1 P3 Hn. unfold off_sorted in *.
  induction P2 as [|a l ? IH Hall]; constructor.
  - apply IH. intros j Hj. apply Ho. by right.
  - rewrite Forall_forall in *. intros j Hj. rewrite !Ho; [by apply Hall|by right|left].
Qed.

(** A request that keeps its shape, in a whole state. *)
Lemma cinv_rq tidy s A id r r' t :
  cinv tidy s A → b_rqs (c_b s) !! id = Some r → rsame r r' → rq_inv (c_rd s) id r' t → thr_ok (pc_tree (c_pc s)) r' t →
  (∀ p e, hot r' t p → pc_tree (c_pc s) !! p = Some e → pfl e BMPCEF_FAULTING = false) →
  (∀ past p, own (c_rd s) (tset (c_thr s) id t) past (inl id) p → own (c_rd s) (c_thr s) past (inl id) p) →
  (rfl r BIORQ_WRITE = true → copied_end r' t = copied_end r (c_thr s !! id)) →
  cinv tidy (c_set_thr (c_set_b s (b_set_rqs (c_b s) (<[id := r']> (b_rqs (c_b s))))) (tset (c_thr s) id t)) A.
Proof.
  intros [C1 C2 C3] Hr Hs Hri Ht Hh Ho Hc. split; simpl.
  - by eapply core_rq.
  - eapply pass_rq; [exact C2| |done]. intros j _. simpl. by eapply upd_off_at.
  - destruct C3 as [F1 F2 F3]. split; simpl; try done. intros j Hj. apply F1. by eapply upd_some.
Qed.
(** The request itself does not change. *)
Lemma cinv_thr tidy s A id r t :
  cinv tidy s A → b_rqs (c_b s) !! id = Some r → rq_inv (c_rd s) id r t → thr_ok (pc_tree (c_pc s)) r t →
  (∀ p e, hot r t p → pc_tree (c_pc s) !! p = Some e → pfl e BMPCEF_FAULTING = false) →
  (∀ past p, own (c_rd s) (tset (c_thr s) id t) past (inl id) p → own (c_rd s) (c_thr s) past (inl id) p) →
  (rfl r BIORQ_WRITE = true → copied_end r t = copied_end r (c_thr s !! id)) →
  cinv tidy (c_set_thr s (tset (c_thr s) id t)) A.
Proof.
  intros C Hr Hri Ht Hh Ho Hc. pose proof (cinv_rq tidy s A id r r t C Hr (rsame_refl r) Hri Ht Hh Ho Hc) as HC.
  rewrite insert_id in HC by done. destruct s as [? []]. exact HC.
Qed.
(** A thread that does not load pages. *)
Lemma own_not R T id t past p : (∀ l, t ≠ Some (PFlush l) ∧ t ≠ Some (PLaunch l)) → own R (tset T id t) past (inl id) p → own R T past (inl id) p.
Proof. intros Hn (l & Hl & _). rewrite tset_eq in Hl. destruct (Hn l). naive_solver. Qed.

Lemma set_pc_id s : c_set_pc s (c_pc s) = s.
Proof. by destruct s. Qed.

Section read.
Context `{PflNetLaws}.

Lemma rq_inv_pc R id r t t' :
  rq_inv R id r t → is_Some t → is_Some t' → todo t = todo t' → pc_ok r t' →
  (∀ q, fsrq_ok (rfl r BIORQ_WRITE) t q → fsrq_ok (rfl r BIORQ_WRITE) t' q) → rq_inv R id r t'.
Proof.
  intros [R1 R2 R3 R4 R5 R6 R7 R8 R9 R10 R11] [x ->] [y ->] Htd Hpc Hq. split; try done.
  - by rewrite <-Htd.
  - intros Hra. destruct (R6 Hra) as (q & ? & ? & ?). exists q. split_and!; auto.
Qed.

Lemma step_fetch tidy s A id : cinv tidy s A → wpb (fetch_step id) (λ _ s', cinv tidy s' A) s.
Proof.
  intros C. pose proof (ci_core _ _ _ C) as (I & O & _). unfold fetch_step. wb_step. wb_step.
  destruct (c_thr s !! id) as [[| | | |i| | | | |]|] eqn:Ht; try done.
  destruct (rv_thr _ _ _ _ _ _ I id ltac:(by eexists)) as [r Hr]. wb_step. eapply wpb_of, wp_getRq; [done|].
  pose proof (rv_rq _ _ _ _ _ _ I id r Hr) as Hri. pose proof (ov_thr _ _ _ _ O id r Hr) as Hth. pose proof (λ p e, ov_hot _ _ _ _ O id r p e Hr) as Hhot.
  rewrite Ht in Hri, Hth, Hhot. simpl in Hth. pose proof (ri_pc _ _ _ _ Hri) as Hra. simpl in Hra.
  destruct (biorq_pages r !! i) as [p|] eqn:Hp.
  - destruct (rq_pages_in id r p I Hr ltac:(by eapply list_elem_of_lookup_2)) as [[e He] _].
    wb_step. apply wpb_of, wp_lift. eapply wp_getPg; [done|]. rewrite set_pc_id. wb_step. wb_step. apply negb_true_iff in H1.
    assert (take (S i) (biorq_pages r) = take i (biorq_pages r) ++ [p]) as Htk by (by apply take_S_r).
    assert (drop i (biorq_pages r) = p :: drop (S i) (biorq_pages r)) as Hdk by (by apply drop_S).
    destruct (pfl e BMPCEF_EIO) eqn:Hio.
    + destruct (ov_page _ _ _ _ O p e He) as [_ _ _ _ _ Hrc]. specialize (Hrc Hio). destruct (Z.eqb_spec (bmpce_rc e) 0); [done|].
      apply wpb_of, wp_modify. apply (cinv_thr tidy s A id r (Some (PErr (bmpce_rc e))) C Hr); try done.
      * by eapply rq_inv_pc; [exact Hri|..].
      * by intros q e0 [_ ?].
      * intros past q. by apply own_not.
      * intros _. by rewrite Ht.
    + apply wpb_of, wp_modify. apply (cinv_thr tidy s A id r (Some (PFetch (S i))) C Hr); try done.
      * by eapply rq_inv_pc; [exact Hri|..].
      * intros Hrd. destruct (Hth Hrd) as [Ha Hb]. split.
        -- intros q. rewrite Htk, elem_of_app, list_elem_of_singleton. intros [Hq| ->]; [by apply Ha|].
           destruct (Hb p) as [|(e0 & He0 & Hf)]; [rewrite Hdk; left|done|]. rewrite He in He0. injection He0 as <-. destruct Hf; congruence.
        -- intros q Hq. apply Hb. rewrite Hdk. by right.
      * intros q e0 [Hw Hq] He0. rewrite Htk in Hq. apply elem_of_app in Hq as [Hq|Hq%list_elem_of_singleton]; [by eapply Hhot|].
        subst q. congruence.
      * intros past q. by apply own_not.
      * intros _. by rewrite Ht.
  - apply wpb_of, wp_modify. apply lookup_ge_None in Hp. apply (cinv_thr tidy s A id r (Some PRel) C Hr); try done.
    + eapply rq_inv_pc; [exact Hri|..]; try done. simpl. tauto.
    + intros Hw. destruct (biorq_fsrqi r); [|done]. intros _ q Hq. destruct (Hth (conj Hw Hra)) as [Ha _]. apply Ha. by rewrite take_ge.
    + intros q e [Hw [Hq _]] He. eapply Hhot; [|done]. split; [done|]. by rewrite take_ge.
    + intros past q. by apply own_not.
    + intros _. by rewrite Ht.
Qed.

(** Flags of pages change that do not matter for data. *)
Lemma mframe_mod W Hd f l m m' :
  mod_tree f l m m' → (∀ p e, p ∈ l → m !! p = Some e → pkeep (W p) e (f p e)) → mframe W Hd m m'.
Proof.
  intros Hm Hf. split; intros p e.
  - rewrite (Hm p). destruct (bool_decide_reflect (p ∈ l)) as [Hp|]; [|intros He; left; exists e; split; [done|apply pkeep_refl]].
    destruct (m !! p) as [e0|] eqn:He; [|done]. intros [= <-]. left. exists e0. split; [done|]. by apply Hf.
  - intros _ He. rewrite (Hm p), He. destruct (bool_decide (p ∈ l)); by eexists.
Qed.
Lemma pinned_mod f l m m' G :
  mod_tree f l m m' → (∀ p e, m !! p = Some e → pfl e BMPCEF_PINNED = bool_decide (p ∈ g_pins G)) →
  (∀ p e, p ∈ l → m !! p = Some e → pfl (f p e) BMPCEF_PINNED = pfl e BMPCEF_PINNED) →
  ∀ p e, m' !! p = Some e → pfl e BMPCEF_PINNED = bool_decide (p ∈ g_pins G).
Proof.
  intros Hm Hg Hf p e. rewrite (Hm p). destruct (bool_decide_reflect (p ∈ l)) as [Hp|]; [|apply Hg].
  destruct (m !! p) as [e0|] eqn:He; [|done]. intros [= <-]. rewrite Hf by done. by apply Hg.
Qed.
Lemma core_mod W tidy pc pc' b R T G D srv A f l :
  core tidy pc b R T G D srv A → pcinv pc' (holds b) → mod_tree f l (pc_tree pc) (pc_tree pc') →
  (∀ p e, p ∈ l → pc_tree pc !! p = Some e → pkeep (W p) e (f p e) ∧ pfl (f p e) BMPCEF_PINNED = pfl e BMPCEF_PINNED) →
  (∀ id r p, b_rqs b !! id = Some r → waits r (T !! id) p → ¬ W p) → core tidy pc' b R T G D srv A.
Proof.
  intros HC I' Hm Hf HW. pose proof HC as (I & _). eapply (core_frame W); [exact HC| | |done|intros g Hg Ha; by exists g].
  - eapply rqinv_pc; [done|done|]. eapply pinned_mod; [done|apply I|]. intros p e Hp He. by apply Hf.
  - eapply mframe_mod; [done|]. intros p e Hp He. by apply Hf.
Qed.
Lemma rq_pages_are s tidy A id r : cinv tidy s A → b_rqs (c_b s) !! id = Some r → ∀ p, p ∈ biorq_pages r → is_Some (pc_tree (c_pc s) !! p).
Proof. intros C Hr p Hp. pose proof (ci_core _ _ _ C) as (I & _). by eapply (rq_pages_in id r p I). Qed.

Lemma step_error tidy s A id retry :
  cinv tidy s A →
  (∀ r p j q, retry = true → b_rqs (c_b s) !! id = Some r → p ∈ biorq_pages r → eio_at (pc_tree (c_pc s)) p p → b_rqs (c_b s) !! j = Some q → ¬ waits q (c_thr s !! j) p) →
  wpb (error_step id retry) (λ _ s', cinv tidy s' A) s.
Proof.
  intros C Hcalm. pose proof (ci_core _ _ _ C) as HC. pose proof HC as (I & O & _). unfold error_step. wb_step. wb_step.
  destruct (c_thr s !! id) as [[| | | | |rc| | | |]|] eqn:Ht; try done.
  destruct (rv_thr _ _ _ _ _ _ I id ltac:(by eexists)) as [r Hr]. wb_step. eapply wpb_of, wp_getRq; [done|].
  pose proof (rv_rq _ _ _ _ _ _ I id r Hr) as Hri. rewrite Ht in Hri. destruct Hri as [R1 R2 R3 R4 R5 R6 R7 R8 R9 R10 [Hra Hrc]].
  destruct (R6 Hra) as (q & Hq & Hsz & Hq1 & Hq2 & Hq3 & Hq4).
  destruct retry.
  - wb_step. unfold setRq, modB. wb_step. wb_step. apply wpb_of, wp_lift.
    eapply (wp_each_mod (λ _, _) (biorq_pages r)); [apply I|by eapply (rq_pages_nodup id r), (rv_rq _ _ _ _ _ _ I)|exact (rq_pages_are s tidy A id r C Hr)| |].
    { intros p e. simpl. destruct (pfl e BMPCEF_EIO); unfold pc_same; simpl; split_and!; try done; by flags_goal. }
    intros pc' I' Hm. apply wpb_of, wp_modify. simpl.
    assert (cinv tidy (c_set_pc s pc') A) as C'.
    { apply cinv_pc; [done|]. eapply (core_mod (λ p, p ∈ biorq_pages r ∧ eio_at (pc_tree (c_pc s)) p p)); [exact HC|done|exact Hm| |].
      - intros p e Hp He. simpl. destruct (pfl e BMPCEF_EIO) eqn:Hio; [|split; [apply pkeep_refl|done]]. split; [|simpl; by flags_goal].
        split; simpl; try done; try (by flags_goal). right. left. split; [|by flags_goal]. split; [done|]. split; [done|by exists e].
      - intros j q' p Hq' Hw [Hp Heio]. by eapply Hcalm. }
    set (t := if rfl r BIORQ_READ then PMark else PFetch 0). assert (t = PMark ∨ t = PFetch 0) as Ht' by (unfold t; destruct (rfl r BIORQ_READ); auto).
    set (r' := rq_fsrq _ _). apply (cinv_rq tidy (c_set_pc s pc') A id r r' (Some t) C' Hr); try done.
    + split; try done; simpl; try (by destruct Ht' as [-> | ->]).
      * intros Hra'. destruct (R5 Hra'). congruence.
      * intros _. rewrite Hq. eexists. split; [done|]. split; [done|]. by destruct Ht' as [-> | ->].
      * unfold t. rewrite R1. destruct (rfl r BIORQ_WRITE) eqn:Hw; simpl; done.
    + unfold t. rewrite R1. destruct (rfl r BIORQ_WRITE) eqn:Hw; simpl; [|done]. intros [Hw' _]. simpl in Hw'. congruence.
    + intros p e [_ Hh]. unfold t in Hh. destruct (rfl r BIORQ_READ); [done|]. simpl in Hh. by apply elem_of_nil in Hh.
    + intros past p. apply own_not. by destruct Ht' as [-> | ->].
    + intros _. simpl. rewrite Ht. by destruct Ht' as [-> | ->].
  - set (x := if Z.abs rc =? SLERR_ION_OFFLINE then - ETIMEDOUT else rc).
    assert (x ≠ 0) as Hx by (unfold x; destruct (Z.abs rc =? SLERR_ION_OFFLINE); done). apply Z.eqb_neq in Hx.
    wb_step. apply wpb_of. unfold mfsrq_seterr. eapply wp_modRq; [done|]. apply wpb_of, wp_modify. simpl.
    set (r' := rq_fsrq _ _). apply (cinv_rq tidy s A id r r' (Some PRel) C Hr); try done.
    + split; try done; simpl.
      * intros Hra'. destruct (R5 Hra'). congruence.
      * intros _. rewrite Hq. eexists. split; [done|]. by destruct ((mfsrq_err q =? 0) && _).
    + simpl. rewrite Hq. intros _. rewrite Hx. destruct (Z.eqb_spec (mfsrq_err q) 0) as [|Hn]; simpl; [|done]. apply Z.eqb_neq in Hx. done.
    + intros p e [_ [_ Hh]]. simpl in Hh. rewrite Hq in Hh. revert Hh. rewrite Hx. destruct (Z.eqb_spec (mfsrq_err q) 0) as [|Hn]; simpl; [|done]. apply Z.eqb_neq in Hx. done.
    + intros past p. by apply own_not.
    + intros _. by rewrite Ht.
Qed.

(** No write is pending. *)
Lemma nwr_none pc b R T G D id r : rqinv pc b R T G D → b_nwr b = 0 → b_rqs b !! id = Some r → rfl r BIORQ_FLUSHRDY = false.
Proof.
  intros I Hn Hr. destruct (rfl r BIORQ_FLUSHRDY) eqn:Hf; [|done]. exfalso. rewrite (rv_nwr _ _ _ _ _ _ I) in Hn.
  assert (0 < cnt (is_rdy b) (b_pndg b)); [|lia]. eapply (cnt_pos _ _ id); [apply (rv_dom _ _ _ _ _ _ I); by exists r|]. unfold is_rdy. by rewrite Hr.
Qed.
Lemma step_flushed tidy s A id : cinv tidy s A → wpb (flushed_step id) (λ _ s', cinv tidy s' A) s.
Proof.
  intros C. pose proof (ci_core _ _ _ C) as HC. pose proof HC as (I & O & K & HK & HD). unfold flushed_step. wb_step. wb_step.
  destruct (c_thr s !! id) as [[| |l| | | | | | |]|] eqn:Ht; try done.
  destruct (rv_thr _ _ _ _ _ _ I id ltac:(by eexists)) as [r Hr]. wb_step. wb_step. apply Z.eqb_eq in H1. apply wpb_of, wp_modify.
  pose proof (rv_rq _ _ _ _ _ _ I id r Hr) as Hri. rewrite Ht in Hri.
  assert (b_set_rqs (c_b s) (<[id := r]> (b_rqs (c_b s))) = c_b s) as Hb by (rewrite insert_id by done; by destruct (c_b s)).
  assert (∀ x, dirty (b_rqs (c_b s)) (<[id := PLaunch l]> (c_thr s)) x ↔ dirty (b_rqs (c_b s)) (c_thr s) x) as Hd.
  { intros x. pose proof (dirty_rq (b_rqs (c_b s)) (c_thr s) id r r (Some (PLaunch l)) x Hr (rsame_refl r)) as Hx. rewrite insert_id in Hx by done. apply Hx.
    by rewrite Ht. }
  destruct C as [C1 C2 C3]. split; simpl; [|done|by destruct C3]. split; [|split; [|exists K; split]].
  - rewrite <-Hb at 1. apply (rqinv_rq _ _ _ _ _ _ id r r (Some (PLaunch l)) I Hr (rsame_refl r)). eapply rq_inv_pc; [exact Hri|..]; try done. by destruct (ri_pc _ _ _ _ Hri).
  - assert (∀ o p, own (c_rd s) (<[id := PLaunch l]> (c_thr s)) false o p → own (c_rd s) (c_thr s) false o p) as Hown.
    { intros [j|rid] p; [|done]. simpl. destruct (decide (j = id)) as [->|Hj]; [|by rewrite lookup_insert_ne]. rewrite lookup_insert_eq.
      intros (l' & [[= <-]|[_ ?]] & Hp); [|done]. exists l. auto. }
    destruct O as [O1 O2 O3 O4 O5 O6]. split; try done.
    + intros j q Hq. destruct (decide (j = id)) as [->|]; [|rewrite lookup_insert_ne by done; by apply O2]. rewrite lookup_insert_eq. rewrite Hr in Hq. injection Hq as <-.
      specialize (O2 id r Hr). rewrite Ht in O2. exact O2.
    + intros o o' p Ho Ho'. eapply O4; by apply Hown.
    + intros j q p e Hq. destruct (decide (j = id)) as [->|]; [|rewrite lookup_insert_ne by done; by apply O5]. rewrite lookup_insert_eq. by intros [_ ?].
    + intros o p j q _ Hq Hf. rewrite (nwr_none _ _ _ _ _ _ j q I H1 Hq) in Hf. done.
  - eapply kinv_dirty; [done|]. intros x. by rewrite Hd.
  - intros Hf. eapply dat_dirty; [by apply HD|]. intros x. by rewrite Hd.
Qed.

(** ** Marking *)
Definition marked (e : bmpce) : bmpce := pce_flags e (setf (bmpce_flags e) BMPCEF_FAULTING).
(** The pages a read has to get from the server. *)
Definition to_read (m : gmap Z bmpce) (r : biorq) (p : Z) : Prop :=
  ∃ e, m !! p = Some e ∧ pfl e BMPCEF_FAULTING = false ∧ pfl e BMPCEF_DATARDY = false ∧ (rfl r BIORQ_READAHEAD = false → ¬ valid_in r p e).
Lemma wp_mark_loop r rest : ∀ i s h (Q : list Z → pcache → Prop),
  full_pages r (biorq_pages r) → pcinv s h → pages_at (pc_tree s) (biorq_pages r) → drop i (biorq_pages r) = rest →
  (∀ l s', pcinv s' h → mod_tree (λ _, marked) l (pc_tree s) (pc_tree s') → NoDup l →
    (∀ p, p ∈ l → p ∈ rest ∧ to_read (pc_tree s) r p) →
    (∀ p, p ∈ rest → p ∉ l → ∃ e, pc_tree s !! p = Some e ∧ (pfl e BMPCEF_FAULTING = true ∨ (rfl r BIORQ_READAHEAD = false → valid_in r p e))) → Q l s') →
  wp (mark_loop r rest i) Q s.
Proof.
  induction rest as [|p rest IH]; intros i s h Q Hf I Hpg Hd HQ; simpl.
  { wp_step. apply HQ; [done| |constructor|by intros p ?%elem_of_nil|by intros p ?%elem_of_nil]. intros p. by rewrite bool_decide_false by apply not_elem_of_nil. }
  assert (biorq_pages r !! i = Some p) as Hp by (rewrite <-(Nat.add_0_r i), <-lookup_drop, Hd; done).
  assert (drop (S i) (biorq_pages r) = rest) as Hd' by (replace (S i) with (i + 1)%nat by lia; rewrite <-drop_drop, Hd; done).
  assert (p ∉ rest) as Hnin.
  { apply full_nodup in Hf. rewrite <-(take_drop i), Hd in Hf. apply NoDup_app in Hf as (_ & _ & Hf). by apply NoDup_cons in Hf as [? _]. }
  destruct (Hpg p ltac:(by eapply list_elem_of_lookup_2)) as (e & He & Ho). wp_step. eapply wp_getPg; [done|]. wp_step.
  assert (∀ v : bool, (v = false → to_read (pc_tree s) r p) →
    (v = true → pfl e BMPCEF_FAULTING = true ∨ (rfl r BIORQ_READAHEAD = false → valid_in r p e)) →
    wp (if v then mark_loop r rest (S i) else _ ← setPg p (marked e); l ← mark_loop r rest (S i); mret (p :: l)) Q s) as Hgo.
  { intros [|] Hno Hyes.
    - eapply IH; [done|done|done|done|]. intros l s' I' Hm Hnd Hl Hr. apply HQ; try done.
      + intros q Hq. destruct (Hl q Hq) as [Hq1 Hq2]. split; [by right|done].
      + intros q [->|Hq]%elem_of_cons Hql; [exists e; auto|by apply Hr].
    - wp_step. unfold setPg. wp_step. wp_step. set (s1 := pc_with_tree s (<[p := marked e]> (pc_tree s))).
      assert (∀ q, q ≠ p → pc_tree s1 !! q = pc_tree s !! q) as Hs1 by (intros q Hq; simpl; by rewrite lookup_insert_ne).
      eapply (IH (S i) s1 h); [done| | |done|].
      + eapply pcinv_same; [done|done|]. unfold pc_same, marked. simpl. split_and!; try done; by flags_goal.
      + intros q Hq. destruct (decide (q = p)) as [->|]; [exists (marked e); simpl; by rewrite lookup_insert_eq|]. rewrite Hs1 by done. by apply Hpg.
      + intros l s' I' Hm Hnd Hl Hr. assert (p ∉ l) as Hpl by (intros Hpl; by apply Hl in Hpl as [? _]). wp_step. apply HQ; try done.
        * intros q. rewrite (Hm q). destruct (decide (q = p)) as [->|Hq].
          -- rewrite bool_decide_false by done. rewrite bool_decide_true by left. simpl. by rewrite lookup_insert_eq, He.
          -- rewrite Hs1 by done. erewrite (bool_decide_ext (q ∈ p :: l)); [done|]. rewrite elem_of_cons. tauto.
        * by constructor.
        * intros q [->|Hq]%elem_of_cons; [split; [left|auto]|]. destruct (Hl q Hq) as [Hq1 Hq2]. split; [by right|]. unfold to_read in Hq2. rewrite Hs1 in Hq2; [done|]. by intros ->.
        * intros q [->|Hq]%elem_of_cons Hql; [exfalso; apply Hql; left|]. rewrite <-Hs1 by (by intros ->). apply Hr; [done|]. intros ?. apply Hql. by right. }
  destruct (pfl e BMPCEF_FAULTING) eqn:Hfe; [wp_step; apply (Hgo true); [done|by left]|].
  eapply wp_page_valid; [done|done|exact Hp|done|]. intros v Hv1 Hv2. apply (Hgo v); [intros ->; exists e; split_and!; try done; [by apply Hv1|]; intros Hra Hval; by apply Hv2 in Hval|]. intros ->. right. intros Hra. by apply Hv2.
Qed.

(** Pages with the same data. *)
Definition dsame (m m' : gmap Z bmpce) : Prop := ∀ p, match m !! p, m' !! p with
  | Some e, Some e' => bmpce_off e' = bmpce_off e ∧ bmpce_start e' = bmpce_start e ∧ bmpce_len e' = bmpce_len e ∧ bmpce_base e' = bmpce_base e ∧
      pfl e' BMPCEF_DATARDY = pfl e BMPCEF_DATARDY
  | None, None => True | _, _ => False end.
Lemma dsame_bwd m m' p e' : dsame m m' → m' !! p = Some e' → ∃ e, m !! p = Some e ∧
  bmpce_off e' = bmpce_off e ∧ bmpce_start e' = bmpce_start e ∧ bmpce_len e' = bmpce_len e ∧ bmpce_base e' = bmpce_base e ∧ pfl e' BMPCEF_DATARDY = pfl e BMPCEF_DATARDY.
Proof. intros Hd He. specialize (Hd p). rewrite He in Hd. destruct (m !! p) as [e|]; [by exists e|done]. Qed.
Lemma dsame_some m m' p : dsame m m' → is_Some (m' !! p) ↔ is_Some (m !! p).
Proof. intros Hd. specialize (Hd p). destruct (m !! p), (m' !! p); try done; split; intros; by eexists. Qed.
Lemma kinv_dsame tidy m m' rqs T K : kinv tidy m rqs T K → dsame m m' → kinv tidy m' rqs T K.
Proof.
  intros [K1 K2 K3 K4] Hd. split; try done.
  - intros x Hx. rewrite (dsame_some m m' _ Hd). by apply K1.
  - intros p e' x He' Hr Hx. destruct (dsame_bwd _ _ _ _ Hd He') as (e & He & _ & _ & _ & _ & Hre). eapply K2; [done|congruence|done].
  - intros Ht p e' x He' Hx. destruct (dsame_bwd _ _ _ _ Hd He') as (e & He & _ & Hs & Hl & _ & _). rewrite Hs, Hl in Hx. by eapply K4.
Qed.
Lemma page_byte_dsame m m' x : dsame m m' → page_byte m' x = page_byte m x.
Proof. intros Hd. unfold page_byte. specialize (Hd (page_align x)). destruct (m !! page_align x), (m' !! page_align x); try done. destruct Hd as (_ & _ & _ & -> & _). done. Qed.
Lemma dat_dsame m m' rqs R T G srv K A : dat m rqs R T G srv K A → dsame m m' → dat m' rqs R T G srv K A.
Proof. intros [D1 D2 D3 D4 D5] Hd. split; try done. intros x Hx. rewrite (page_byte_dsame m m' x Hd). by apply D1. Qed.
Lemma dsame_mod f l m m' : mod_tree f l m m' →
  (∀ p e, m !! p = Some e → p ∈ l → bmpce_off (f p e) = bmpce_off e ∧ bmpce_start (f p e) = bmpce_start e ∧ bmpce_len (f p e) = bmpce_len e ∧
    bmpce_base (f p e) = bmpce_base e ∧ pfl (f p e) BMPCEF_DATARDY = pfl e BMPCEF_DATARDY) → dsame m m'.
Proof.
  intros Hm Hf p. rewrite (Hm p). destruct (bool_decide_reflect (p ∈ l)); destruct (m !! p) eqn:He; try done. simpl. by apply Hf.
Qed.

Lemma rq_pages_at tidy s A id r : cinv tidy s A → b_rqs (c_b s) !! id = Some r → pages_at (pc_tree (c_pc s)) (biorq_pages r).
Proof.
  intros C Hr p Hp. pose proof (ci_core _ _ _ C) as (I & O & _). destruct (rq_pages_in id r p I Hr Hp) as [[e He] _].
  exists e. split; [done|]. by destruct (ov_page _ _ _ _ O p e He).
Qed.

(** Pages are marked by request [id]. *)
Section mark.
Context (m m' : gmap Z bmpce) (l : list Z) (Hm : mod_tree (λ _, marked) l m m').
Lemma mark_fwd p e : m !! p = Some e → ∃ e', m' !! p = Some e' ∧ (e' = e ∨ e' = marked e).
Proof. intros He. rewrite (Hm p), He. destruct (bool_decide (p ∈ l)); eauto. Qed.
Lemma pv_mark r p : pv m r p → pv m' r p.
Proof. intros (e & He & Hv). destruct (mark_fwd p e He) as (e' & He' & [-> | ->]); exists e + exists (marked e); (split; [done|]); [done|]. simpl. by flags_goal. Qed.
Lemma loading_mark p : loading m p → loading m' p.
Proof. intros (e & He & Hf & Hd). destruct (mark_fwd p e He) as (e' & He' & [-> | ->]); exists e + exists (marked e); (split; [done|]); [done|]. simpl. by flags_goal. Qed.
Lemma waitable_mark r p : waitable m r p → waitable m' r p.
Proof.
  intros [Hv|(e & He & Hf)]; [left; by apply pv_mark|right]. destruct (mark_fwd p e He) as (e' & He' & [-> | ->]); exists e + exists (marked e); (split; [done|]); [done|].
  simpl. left. by flags_goal.
Qed.
Lemma thr_ok_mark r t : thr_ok m r t → thr_ok m' r t.
Proof.
  destruct t as [[]|]; simpl; try done.
  - intros (Ha & Hb & Hc). split_and!; [done| |intros; apply waitable_mark; auto]. intros p Hp. destruct (Hb p Hp). split; [done|by apply loading_mark].
  - intros (Ha & Hb & Hc). split_and!; [done| |intros; apply waitable_mark; auto]. intros p Hp. destruct (Hb p Hp). split; [done|by apply loading_mark].
  - intros Hr Hp. destruct (Hr Hp). split; intros; [apply pv_mark|apply waitable_mark]; auto.
  - intros Hr Hw. specialize (Hr Hw). destruct (biorq_fsrqi r); [|done]. intros; apply pv_mark; auto.
  - intros Hr Hw. specialize (Hr Hw). destruct (biorq_fsrqi r); [|done]. intros; apply pv_mark; auto.
Qed.
Lemma ownv_mark rqs R T id r t :
  ownv m rqs R T → (∀ j, is_Some (T !! j) → is_Some (rqs !! j)) → rqs !! id = Some r →
  (∀ p, p ∈ l → p ∈ biorq_pages r ∧ to_read m r p) → (∀ p, p ∈ l → ∀ j q, rqs !! j = Some q → ¬ hot q (T !! j) p) →
  rfl r BIORQ_WRITE = false → thr_ok m' r (Some t) → (∀ l', t ≠ PLaunch l') → (∀ l', t = PFlush l' → l' = l) → ownv m' rqs R (<[id := t]> T).
Proof.
  intros [O1 O2 O3 O4 O5 O6] HT Hr Hl Hhot Hw Hth Hnl Hfl.
  assert (∀ past o p, own R (<[id := t]> T) past o p → own R T past o p ∨ (past = false ∧ o = inl id ∧ p ∈ l)) as Hown.
  { intros past [j|rid] p; [|by left]. simpl. destruct (decide (j = id)) as [->|]; [|rewrite lookup_insert_ne by done; auto]. rewrite lookup_insert_eq.
    intros (l' & [[= ->]|[-> [= ->]]] & Hp); [by destruct (Hnl l')|]. right. by rewrite (Hfl l' eq_refl) in Hp. }
  assert (∀ o p, own R T false o p → p ∉ l) as Hno.
  { intros o p Ho Hp. destruct (Hl p Hp) as [_ (e & He & Hf & _)]. assert (loading m p) as (e0 & He0 & Hf0 & _); [|congruence].
    destruct o as [j|rid]; simpl in Ho.
    - destruct Ho as (l' & Htj & Hp'). assert (is_Some (rqs !! j)) as [q Hq].
      { apply HT. destruct Htj as [Htj|[_ Htj]]; by eexists. }
      specialize (O2 j q Hq). destruct Htj as [Htj|[_ Htj]]; rewrite Htj in O2; destruct O2 as (_ & Hb & _); by apply Hb.
    - destruct Ho as (v & Hv & Hd & Hp'). destruct (O3 rid v Hv) as (_ & _ & Hc). by apply Hc. }
  split.
  - intros p e'. rewrite (Hm p). destruct (bool_decide (p ∈ l)); [|apply O1]. destruct (m !! p) as [e|] eqn:He; [|done]. intros [= <-].
    destruct (O1 p e He) as [E1 E2 E3 E4 E5 E6]. split; try done. simpl. flags_goal. done.
  - intros j q Hq. destruct (decide (j = id)) as [->|]; [rewrite lookup_insert_eq; rewrite Hr in Hq; by injection Hq as <-|]. rewrite lookup_insert_ne by done.
    by apply thr_ok_mark, O2.
  - intros rid v Hv. destruct (O3 rid v Hv) as (Ha & Hb & Hc). split_and!; [done|done|]. intros Hd p Hp. by apply loading_mark, Hc.
  - intros o o' p [Ho|(_ & -> & Ho)]%Hown [Ho'|(_ & -> & Ho')]%Hown; [by eapply O4|by apply Hno in Ho|by apply Hno in Ho'|done].
  - intros j q p e' Hq. destruct (decide (j = id)) as [->|]; [rewrite Hr in Hq; injection Hq as <-; intros [? _]; congruence|]. rewrite lookup_insert_ne by done.
    intros Hh. rewrite (Hm p). destruct (bool_decide_reflect (p ∈ l)) as [Hp|]; [by destruct (Hhot p Hp j q Hq)|]. by eapply O5.
  - intros o p j q [Ho|(? & _)]%Hown; [by eapply O6|done].
Qed.
End mark.

Lemma step_mark tidy s A id :
  cinv tidy s A →
  (∀ r p j q, b_rqs (c_b s) !! id = Some r → p ∈ biorq_pages r → to_read (pc_tree (c_pc s)) r p → b_rqs (c_b s) !! j = Some q → ¬ hot q (c_thr s !! j) p) →
  wpb (mark_step id) (λ _ s', cinv tidy s' A) s.
Proof.
  intros C Hcalm. pose proof (ci_core _ _ _ C) as HC. pose proof HC as (I & O & K & HK & HD). unfold mark_step. wb_step. wb_step.
  destruct (c_thr s !! id) as [[| | | | | | | | |]|] eqn:Ht; try done.
  destruct (rv_thr _ _ _ _ _ _ I id ltac:(by eexists)) as [r Hr]. wb_step. eapply wpb_of, wp_getRq; [done|].
  pose proof (rv_rq _ _ _ _ _ _ I id r Hr) as Hri. rewrite Ht in Hri. pose proof (ri_full _ _ _ _ Hri) as Hf. simpl in Hf. rewrite app_nil_r in Hf.
  pose proof (ri_pc _ _ _ _ Hri) as Hw. simpl in Hw.
  wb_step. apply wpb_of, wp_lift. eapply wp_mark_loop; [done|apply I|by eapply rq_pages_at|done|]. intros l pc' I' Hm Hnd Hl Hrest. apply wpb_of, wp_modify.
  set (t := match l with [] => launched r 0 | _ => PFlush l end).
  assert (match l with [] => if rfl r BIORQ_READAHEAD then t = PRel else t = PFetch 0 | _ => t = PFlush l end) as Htl.
  { unfold t, launched. destruct l; [|done]. by destruct (rfl r BIORQ_READAHEAD). }
  assert (∀ p, p ∈ biorq_pages r → rfl r BIORQ_READAHEAD = false → waitable (pc_tree pc') r p) as Hwait.
  { intros p Hp Hra. destruct (decide (p ∈ l)) as [Hpl|Hpl].
    - destruct (Hl p Hpl) as (_ & e & He & _). right. exists (marked e). rewrite (Hm p), bool_decide_true, He by done. split; [done|left]. simpl. by flags_goal.
    - destruct (Hrest p Hp Hpl) as (e & He & He'). eapply waitable_mark; [done|]. destruct He' as [|Hv]; [right; exists e; auto|left; exists e; split; [done|by apply Hv]]. }
  assert (thr_ok (pc_tree pc') r (Some t)) as Hth.
  { destruct l as [|p0 l].
    - destruct (rfl r BIORQ_READAHEAD) eqn:Hra; rewrite Htl; simpl; [intros _; destruct (ri_ra _ _ _ _ Hri Hra) as [_ ->]; done|].
      intros Hrd. split; [by intros p ?%elem_of_nil|]. intros p Hp. apply Hwait; [|done]. by rewrite drop_0 in Hp.
    - rewrite Htl. simpl. split_and!; [done| |intros [_ Hra] p Hp; by apply Hwait]. intros p Hp. destruct (Hl p Hp) as [Hp1 (e & He & Hfa & Hda & _)]. split; [done|].
      exists (marked e). rewrite (Hm p), bool_decide_true, He by done. split; [done|]. simpl. split; by flags_goal. }
  assert (b_set_rqs (c_b s) (<[id := r]> (b_rqs (c_b s))) = c_b s) as Hb by (rewrite insert_id by done; by destruct (c_b s)).
  assert (∀ x, dirty (b_rqs (c_b s)) (<[id := t]> (c_thr s)) x ↔ dirty (b_rqs (c_b s)) (c_thr s) x) as Hd.
  { intros x. pose proof (dirty_rq (b_rqs (c_b s)) (c_thr s) id r r (Some t) x Hr (rsame_refl r)) as Hx. rewrite insert_id in Hx by done. apply Hx. congruence. }
  assert (dsame (pc_tree (c_pc s)) (pc_tree pc')) as Hds.
  { eapply dsame_mod; [done|]. intros p e _ _. simpl. split_and!; try done. by flags_goal. }
  destruct C as [C1 C2 C3]. split; simpl; [|done|by destruct C3]. split; [|split; [|exists K; split]].
  - rewrite <-Hb at 1. apply (rqinv_rq _ _ _ _ _ _ id r r (Some t)); [|done|apply rsame_refl|].
    + eapply rqinv_pc; [done|done|]. eapply pinned_mod; [done|apply I|]. intros p e _ _. simpl. by flags_goal.
    + eapply rq_inv_pc; [exact Hri|..]; try done.
      * destruct l; [destruct (rfl r BIORQ_READAHEAD)|]; by rewrite Htl.
      * destruct l; [destruct (rfl r BIORQ_READAHEAD) eqn:?|]; by rewrite Htl.
      * intros q. destruct l; [destruct (rfl r BIORQ_READAHEAD)|]; rewrite Htl; simpl; tauto.
  - eapply ownv_mark; try done.
    + apply I.
    + intros p Hp j q. apply (Hcalm r p j q Hr); by apply Hl.
    + intros l' He. destruct l; [destruct (rfl r BIORQ_READAHEAD)|]; congruence.
    + intros l' He. destruct l; [destruct (rfl r BIORQ_READAHEAD)|]; congruence.
  - eapply kinv_dsame; [|done]. eapply kinv_dirty; [done|]. intros x. by rewrite Hd.
  - intros Hfl. eapply dat_dsame; [|done]. eapply dat_dirty; [by apply HD|]. intros x. by rewrite Hd.
Qed.
End read.
