(* ===== verification/CioLoad.v ===== *)
(** * Loading of pages

    Read RPCs: how they are launched, what the server sends, and how pages are
    set when an RPC is done. *)
From S2P Require Import Prelude BmapMds ReplReq ReplWalk Lease Slvr SlvrIO Pgcache PgcacheInv Coalesce CoalesceProps Cio CioInv CioFrame CioTop CioStart CioValid CioRead.

(** ** Pages that are no longer loaded *)

(** The page is ready or failed, or as it was. *)
Record settles (e e' : bmpce) : Prop := {
  st_off : bmpce_off e' = bmpce_off e;
  st_start : bmpce_start e' = bmpce_start e;
  st_len : bmpce_len e' = bmpce_len e;
  st_rdy : pfl e BMPCEF_DATARDY = true → pfl e' BMPCEF_DATARDY = true;
  st_fault : pfl e' BMPCEF_FAULTING = true → pfl e BMPCEF_FAULTING = true;
  st_wait : pfl e BMPCEF_FAULTING = true ∨ pfl e BMPCEF_EIO = true → pfl e' BMPCEF_FAULTING = true ∨ pfl e' BMPCEF_EIO = true ∨ pfl e' BMPCEF_DATARDY = true;
}.
Lemma settles_refl e : settles e e.
Proof. split; auto; tauto. Qed.

Section settle.
Context (f : Z → bmpce → bmpce) (l : list Z) (m m' : gmap Z bmpce) (Hm : mod_tree f l m m').
Context (Hf : ∀ p e, p ∈ l → m !! p = Some e → settles e (f p e)).

Lemma settle_fwd p e : m !! p = Some e → ∃ e', m' !! p = Some e' ∧ settles e e' ∧ (p ∉ l → e' = e).
Proof.
  intros He. rewrite (Hm p), He. destruct (bool_decide_reflect (p ∈ l)) as [Hp|]; simpl; eexists; (split; [done|]); [split; [by apply Hf|done]|].
  split; [apply settles_refl|done].
Qed.
Lemma settle_bwd p e' : m' !! p = Some e' → ∃ e, m !! p = Some e ∧ settles e e' ∧ (p ∉ l → e' = e).
Proof.
  intros He'. destruct (m !! p) as [e|] eqn:He; [|rewrite (Hm p), He in He'; by destruct (bool_decide (p ∈ l))].
  destruct (settle_fwd p e He) as (e1 & He1 & ?). rewrite He' in He1. injection He1 as <-. by exists e.
Qed.
Lemma pv_settle r p : pv m r p → pv m' r p.
Proof. intros (e & He & Hv). destruct (settle_fwd p e He) as (e' & He' & [] & _). exists e'. split; [done|]. rewrite st_start0, st_len0. tauto. Qed.
Lemma waitable_settle r p : waitable m r p → waitable m' r p.
Proof.
  intros [Hv|(e & He & Hw)]; [left; by apply pv_settle|]. destruct (settle_fwd p e He) as (e' & He' & [] & _).
  destruct (st_wait0 Hw) as [?|[?|?]]; [right; exists e'; tauto|right; exists e'; tauto|left; exists e'; tauto].
Qed.
Lemma loading_settle p : p ∉ l → loading m p → loading m' p.
Proof. intros Hp (e & He & Hl). destruct (settle_fwd p e He) as (e' & He' & _ & Hs). rewrite (Hs Hp) in He'. by exists e. Qed.

(** The owners of these pages are done with them. *)
Lemma ownv_settle rqs R R' T T' :
  ownv m rqs R T → (∀ j, is_Some (T !! j) → is_Some (rqs !! j)) →
  (∀ p e, p ∈ l → m !! p = Some e → pfl (f p e) BMPCEF_EIO = true → bmpce_rc (f p e) ≠ 0) →
  (∀ past o p, own R' T' past o p → own R T past o p ∧ p ∉ l) →
  (∀ rid v, R' !! rid = Some v → ∃ v0, R !! rid = Some v0 ∧ rr_rq v0 = rr_rq v ∧ rr_pages v0 = rr_pages v ∧ (rr_done v = None → rr_done v0 = None)) →
  (∀ j r, rqs !! j = Some r → T' !! j = T !! j ∨ (thr_ok m' r (T' !! j) ∧ ∀ p, ¬ hot r (T' !! j) p)) → ownv m' rqs R' T'.
Proof.
  intros [O1 O2 O3 O4 O5 O6] HT Heio Hown HR HT'. split.
  - intros p e' He'. destruct (settle_bwd p e' He') as (e & He & [] & Hs). destruct (O1 p e He) as [E1 E2 E3 E4 E5 E6]. split; try congruence.
    destruct (decide (p ∈ l)) as [Hp|Hp]; [|by rewrite (Hs Hp)]. rewrite (Hm p), bool_decide_true, He in He' by done. injection He' as <-. by apply Heio.
  - intros j r Hr. destruct (HT' j r Hr) as [Htj|[? _]]; [|done]. pose proof (O2 j r Hr) as Ho. rewrite Htj in *.
    assert (∀ p l', (T !! j = Some (PFlush l') ∨ T !! j = Some (PLaunch l')) → p ∈ l' → p ∉ l) as Hnl.
    { intros p l' Hl' Hp. apply (Hown false (inl j) p). exists l'. split; [|done]. rewrite Htj. destruct Hl'; auto. }
    destruct (T !! j) as [[]|]; simpl in *; try done.
    + destruct Ho as (Ha & Hb & Hc). split_and!; [done| |intros; apply waitable_settle; auto]. intros p Hp. destruct (Hb p Hp). split; [done|].
      apply loading_settle; [|done]. by eapply Hnl; [left|].
    + destruct Ho as (Ha & Hb & Hc). split_and!; [done| |intros; apply waitable_settle; auto]. intros p Hp. destruct (Hb p Hp). split; [done|].
      apply loading_settle; [|done]. by eapply Hnl; [right|].
    + intros Hp. destruct (Ho Hp). split; intros; [apply pv_settle|apply waitable_settle]; auto.
    + intros Hw. specialize (Ho Hw). destruct (biorq_fsrqi r); [|done]. intros; apply pv_settle; auto.
    + intros Hw. specialize (Ho Hw). destruct (biorq_fsrqi r); [|done]. intros; apply pv_settle; auto.
  - intros rid v Hv. destruct (HR rid v Hv) as (v0 & Hv0 & Hq & Hpg & Hd). destruct (O3 rid v0 Hv0) as (Ha & Hb & Hc). rewrite Hq, Hpg in *. split_and!; [done|done|].
    intros Hdn p Hp. apply loading_settle; [|auto]. apply (Hown false (inr rid) p). by exists v.
  - intros o o' p Ho Ho'. eapply O4; by apply Hown.
  - intros j r p e' Hr Hh He'. destruct (HT' j r Hr) as [Htj|[_ Hn]]; [|by destruct (Hn p)]. rewrite Htj in Hh.
    destruct (settle_bwd p e' He') as (e & He & [] & _). pose proof (O5 j r p e Hr Hh He) as Hfe. destruct (pfl e' BMPCEF_FAULTING); [|done]. rewrite st_fault0 in Hfe; done.
  - intros o p j r Ho. apply Hown in Ho as [Ho _]. by eapply O6.
Qed.
End settle.

Section load.
Context `{PflNetLaws}.

(** ** Launching *)

(** The pages of an RPC are being loaded and nobody has pinned them. *)
Lemma wp_check_pages l : ∀ s (Q : unit → pcache → Prop),
  (∀ p, p ∈ l → ∃ e, pc_tree s !! p = Some e ∧ pfl e BMPCEF_PINNED = false ∧ pfl e BMPCEF_FAULTING = true ∧ pfl e BMPCEF_DATARDY = false) →
  Q tt s →
  wp (each_page (λ p, e ← getPg p;
        _ ← psc_assert (negb (hasf (bmpce_flags e) BMPCEF_PINNED));
        _ ← psc_assert (hasf (bmpce_flags e) BMPCEF_FAULTING);
        psc_assert (negb (hasf (bmpce_flags e) BMPCEF_DATARDY))) l) Q s.
Proof.
  induction l as [|p l IH]; intros s Q Hl HQ; simpl; [by wp_step|]. destruct (Hl p ltac:(left)) as (e & He & H1' & H2' & H3').
  wp_step. wp_step. eapply wp_getPg; [done|]. rewrite H1', H2', H3'. wp_step. apply wp_assert; [done|]. wp_step. apply wp_assert; [done|]. apply wp_assert; [done|].
  apply IH; [|done]. intros q Hq. apply Hl. by right.
Qed.

Lemma nrpc_insert R rid v j : R !! rid = None → nrpc (<[rid := v]> R) j = nrpc R j + one (bool_decide (rr_rq v = j)).
Proof.
  intros Hn. unfold nrpc. destruct (bool_decide_reflect (rr_rq v = j)) as [Hj|Hj].
  - rewrite map_filter_insert_True by done. rewrite map_size_insert_None; [simpl; lia|]. apply map_lookup_filter_None. by left.
  - rewrite map_filter_insert_False by done. rewrite delete_id by done. simpl. lia.
Qed.
(** Who owns a page is loading it. *)
Lemma own_loading m rqs R T past o p : ownv m rqs R T → (∀ j, is_Some (T !! j) → is_Some (rqs !! j)) → own R T past o p → loading m p.
Proof.
  intros [O1 O2 O3 O4 O5 O6] HT. destruct o as [j|rid].
  - intros (l' & Htj & Hp'). assert (is_Some (rqs !! j)) as [q Hq] by (apply HT; destruct Htj as [Htj|[_ Htj]]; by eexists).
    specialize (O2 j q Hq). destruct Htj as [Htj|[_ Htj]]; rewrite Htj in O2; destruct O2 as (_ & Hb & _); by apply Hb.
  - intros (v & Hv & Hd & Hp'). destruct (O3 rid v Hv) as (_ & _ & Hc). by apply Hc.
Qed.

(** A run of pages goes from the thread to an RPC. *)
Lemma ownv_launch m rqs R T id r rid cur rest :
  ownv m rqs R T → T !! id = Some (PLaunch (cur ++ rest)) → rqs !! id = Some r → R !! rid = None →
  ownv m rqs (<[rid := {| rr_rq := id; rr_pages := cur; rr_data := None; rr_done := None |}]> R) (<[id := PLaunch rest]> T).
Proof.
  intros O Ht Hr Hn. pose proof O as [O1 O2 O3 O4 O5 O6]. pose proof (O2 id r Hr) as Hth. rewrite Ht in Hth. destruct Hth as (Hnd & Hl & Hw). apply NoDup_app in Hnd as (Hnd1 & Hnd2 & Hnd3).
  set (v := {| rr_rq := id |}). assert (∀ past o p, own (<[rid := v]> R) (<[id := PLaunch rest]> T) past o p →
    (o = inl id ∧ p ∈ rest ∧ own R T past (inl id) p) ∨ (o = inr rid ∧ p ∈ cur ∧ own R T past (inl id) p) ∨ (o ≠ inl id ∧ o ≠ inr rid ∧ own R T past o p)) as Hown.
  { intros past [j|rd] p; simpl.
    - destruct (decide (j = id)) as [->|Hj].
      + rewrite lookup_insert_eq. intros (l' & [[= <-]|[_ ?]] & Hp); [|done]. left. split_and!; [done|done|]. eexists. split; [left; done|]. apply elem_of_app. by right.
      + rewrite lookup_insert_ne by done. intros Ho. right. right. split_and!; [congruence|done|done].
    - destruct (decide (rd = rid)) as [->|Hj].
      + rewrite lookup_insert_eq. intros (v' & [= <-] & _ & Hp). right. left. split_and!; [done|done|]. eexists. split; [left; done|]. apply elem_of_app. by left.
      + rewrite lookup_insert_ne by done. intros Ho. right. right. split_and!; [done|congruence|done]. }
  split; try done.
  - intros j q Hq. destruct (decide (j = id)) as [->|]; [|rewrite lookup_insert_ne by done; by apply O2]. rewrite lookup_insert_eq. rewrite Hr in Hq. injection Hq as <-.
    simpl. split_and!; [done| |done]. intros p Hp. apply Hl, elem_of_app. by right.
  - intros rd v' Hv. destruct (decide (rd = rid)) as [->|]; [|rewrite lookup_insert_ne in Hv by done; by eapply O3]. rewrite lookup_insert_eq in Hv. injection Hv as <-. simpl.
    split_and!; [done| |].
    + intros q Hq p Hp. rewrite Hr in Hq. injection Hq as <-. apply Hl, elem_of_app. by left.
    + intros _ p Hp. apply Hl, elem_of_app. by left.
  - intros o o' p [(-> & Hp & Ho)|[(-> & Hp & Ho)|(N1 & N2 & Ho)]]%Hown [(-> & Hp' & Ho')|[(-> & Hp' & Ho')|(N1' & N2' & Ho')]]%Hown; try done.
    + by destruct (Hnd2 p Hp').
    + destruct N1'. by eapply O4.
    + by destruct (Hnd2 p Hp).
    + destruct N1'. by eapply O4.
    + destruct N1. by eapply O4.
    + destruct N1. by eapply O4.
    + by eapply O4.
  - intros j q p e Hq. destruct (decide (j = id)) as [->|]; [|rewrite lookup_insert_ne by done; by apply O5]. rewrite lookup_insert_eq. by intros [_ ?].
  - intros o p j q [(-> & Hp & Ho)|[(-> & Hp & Ho)|(N1 & N2 & Ho)]]%Hown; by eapply O6.
Qed.

(** A thread of a read gives up pages, which fail. *)
Definition data_same (e e' : bmpce) : Prop :=
  bmpce_base e' = bmpce_base e ∧ pfl e' BMPCEF_DATARDY = pfl e BMPCEF_DATARDY ∧ pfl e' BMPCEF_PINNED = pfl e BMPCEF_PINNED.
Lemma core_settle tidy pc pc' b R T G D srv A f l id r t :
  core tidy pc b R T G D srv A → b_rqs b !! id = Some r → rfl r BIORQ_WRITE = false → rq_inv R id r t →
  pcinv pc' (holds b) → mod_tree f l (pc_tree pc) (pc_tree pc') →
  (∀ p e, p ∈ l → pc_tree pc !! p = Some e → settles e (f p e) ∧ data_same e (f p e) ∧ (pfl (f p e) BMPCEF_EIO = true → bmpce_rc (f p e) ≠ 0)) →
  (∀ past p, own R (tset T id t) past (inl id) p → own R T past (inl id) p ∧ p ∉ l) →
  (∀ past o p, o ≠ inl id → own R T past o p → p ∉ l) → thr_ok (pc_tree pc') r t →
  core tidy pc' b R (tset T id t) G D srv A.
Proof.
  intros (I & O & K & HK & HD) Hr Hw Hri I' Hm Hf Ho1 Ho2 Hth.
  assert (b_set_rqs b (<[id := r]> (b_rqs b)) = b) as Hb by (rewrite insert_id by done; by destruct b).
  assert (∀ x, dirty (b_rqs b) (tset T id t) x ↔ dirty (b_rqs b) T x) as Hd.
  { intros x. pose proof (dirty_rq (b_rqs b) T id r r t x Hr (rsame_refl r)) as Hx. rewrite insert_id in Hx by done. apply Hx. congruence. }
  assert (dsame (pc_tree pc) (pc_tree pc')) as Hds.
  { eapply dsame_mod; [done|]. intros p e He Hp. destruct (Hf p e Hp He) as ([] & (? & ? & ?) & _). done. }
  split; [|split; [|exists K; split]].
  - rewrite <-Hb at 1. apply (rqinv_rq _ _ _ _ _ _ id r r t); [|done|apply rsame_refl|done].
    eapply rqinv_pc; [done|done|]. eapply pinned_mod; [done|apply I|]. intros p e Hp He. by destruct (Hf p e Hp He) as (_ & (_ & _ & ?) & _).
  - eapply (ownv_settle f l); [done|intros p e Hp He; by apply Hf|done|apply I|intros p e Hp He; by apply Hf| | |].
    + intros past o p Ho. destruct o as [j|rid]; [|split; [done|by eapply (Ho2 past (inr rid))]]. destruct (decide (j = id)) as [->|Hj]; [by apply Ho1|].
      assert (own R T past (inl j) p) as Ho' by (simpl in *; by rewrite tset_ne in Ho). split; [done|]. eapply (Ho2 past (inl j)); [congruence|done].
    + intros rid v Hv. by exists v.
    + intros j q Hq. destruct (decide (j = id)) as [->|]; [|left; by rewrite tset_ne]. right. rewrite tset_eq. rewrite Hr in Hq. injection Hq as <-. split; [done|].
      intros p [? _]. congruence.
  - eapply kinv_dsame; [|done]. eapply kinv_dirty; [done|]. intros x. by rewrite Hd.
  - intros Hfl. eapply dat_dsame; [|done]. eapply dat_dirty; [by apply HD|]. intros x. by rewrite Hd.
Qed.

Section launch.
Context (tidy : bool) (A : data) (id : nat).

(** The thread has [l] left to launch. *)
Definition linv (s : cl) (l : list Z) : Prop := cinv tidy (c_set_thr s (<[id := PLaunch l]> (c_thr s))) A.
Lemma linv_facts s l : linv s l → ∃ r, b_rqs (c_b s) !! id = Some r ∧ rq_inv (c_rd s) id r (Some (PLaunch l)) ∧ thr_ok (pc_tree (c_pc s)) r (Some (PLaunch l)) ∧
  ∀ p, p ∈ l → ∃ e, pc_tree (c_pc s) !! p = Some e ∧ pfl e BMPCEF_PINNED = false ∧ pfl e BMPCEF_FAULTING = true ∧ pfl e BMPCEF_DATARDY = false.
Proof.
  intros C. pose proof (ci_core _ _ _ C) as (I & O & _). simpl in *. destruct (rv_thr _ _ _ _ _ _ I id) as [r Hr]; [rewrite lookup_insert_eq; by eexists|]. exists r.
  pose proof (rv_rq _ _ _ _ _ _ I id r Hr) as Hri. pose proof (ov_thr _ _ _ _ O id r Hr) as Hth. rewrite lookup_insert_eq in Hri, Hth. split_and!; try done; try apply Hth.
  intros p Hp. destruct Hth as (_ & Hl & _). destruct (Hl p Hp) as (_ & e & He & Hf & Hd). exists e. split_and!; try done.
  rewrite (rv_pinned _ _ _ _ _ _ I p e He). apply bool_decide_false. intros (j & q & Hq & Hrdy & Hin)%(pins_held p I).
  eapply (ov_past _ _ _ _ O (inl id) p j q); try done. exists l. rewrite lookup_insert_eq. auto.
Qed.

Lemma linv_rpc s cur rest : linv s (cur ++ rest) → ∀ r, b_rqs (c_b s) !! id = Some r →
  linv (c_set_next (c_set_rd (c_set_b s (b_set_rqs (c_b s) (<[id := rq_ref r (biorq_ref r + 1)]> (b_rqs (c_b s)))))
    (<[c_next s := {| rr_rq := id; rr_pages := cur; rr_data := None; rr_done := None |}]> (c_rd s))) (S (c_next s))) rest.
Proof.
  intros C r Hr. destruct (linv_facts s _ C) as (r0 & Hr0 & Hri & Hth & _). rewrite Hr in Hr0. injection Hr0 as <-. destruct C as [(I & O & K & HK & HD) C2 [F1 F2 F3]]. simpl in *.
  assert (c_rd s !! c_next s = None) as Hn. { destruct (c_rd s !! c_next s) eqn:He; [|done]. assert (c_next s < c_next s)%nat; [apply F2; by eexists|lia]. }
  set (v := {| rr_rq := id |}). set (r' := rq_ref r (biorq_ref r + 1)). set (T0 := <[id := PLaunch (cur ++ rest)]> (c_thr s)) in *.
  pose proof (ri_pc _ _ _ _ Hri) as Hw. simpl in Hw. assert (rsame r r') as Hs by done.
  assert (∀ t, <[id := t]> T0 = <[id := t]> (c_thr s)) as HT by (intros t; unfold T0; by rewrite insert_insert_eq).
  assert (∀ x, dirty (<[id := r']> (b_rqs (c_b s))) (<[id := PLaunch rest]> (c_thr s)) x ↔ dirty (b_rqs (c_b s)) T0 x) as Hd.
  { intros x. rewrite <-HT. apply (dirty_rq (b_rqs (c_b s)) T0 id r r' (Some (PLaunch rest)) x Hr Hs). congruence. }
  unfold linv. split; simpl; [|eapply pass_rq; [exact C2| |done]; intros j _; by eapply upd_off_at|split; simpl].
  - split; [|split; [|exists K; split]]; simpl.
    + rewrite <-HT. apply (rqinv_rpc _ _ (c_rd s) _ _ _ _ id r r' (Some (PLaunch rest)) I Hr Hs).
      * destruct Hri as [R1 R2 R3 R4 R5 R6 R7 R8 R9 R10 R11]. split; try done; simpl; [|lia]. rewrite Hw in *. rewrite nrpc_insert by done. rewrite bool_decide_true by done. simpl in *. lia.
      * intros j Hj. rewrite nrpc_insert by done. rewrite bool_decide_false; [simpl; lia|]. simpl. congruence.
      * intros rd v'. destruct (decide (rd = c_next s)) as [->|]; [rewrite lookup_insert_eq; intros [= <-]; by left|]. rewrite lookup_insert_ne by done. intros Hv. right. by exists rd, v'.
    + assert (tset T0 id (Some (PLaunch (cur ++ rest))) = T0) as He by (exact (insert_insert_eq (c_thr s) id _ _)).
      rewrite <-HT. eapply ownv_launch; [|unfold T0; by rewrite lookup_insert_eq|by rewrite lookup_insert_eq|done].
      assert (ownv (pc_tree (c_pc s)) (<[id := r']> (b_rqs (c_b s))) (c_rd s) (tset T0 id (Some (PLaunch (cur ++ rest))))) as O'.
      { eapply ownv_rq; try done.
        - intros rd v' Hv. destruct (rv_rd _ _ _ _ _ _ I rd v' Hv) as (q & Hq & _). by exists q.
        - by intros p e [_ ?].
        - intros past p Ho. by rewrite He in Ho. }
      by rewrite He in O'.
    + eapply kinv_dirty; [done|]. intros x. by rewrite Hd.
    + intros Hf. specialize (HD Hf). destruct (dat_dirty _ _ (<[id := r']> (b_rqs (c_b s))) _ _ (<[id := PLaunch rest]> (c_thr s)) _ _ _ _ HD) as [D1 D2 D3 D4 D5]; [intros x; by rewrite Hd|].
      split; try done. intros rd v' d p x. destruct (decide (rd = c_next s)) as [->|]; [rewrite lookup_insert_eq; by intros [= <-]|]. rewrite lookup_insert_ne by done. apply D4.
  - intros j Hj. assert (is_Some (b_rqs (c_b s) !! j)) as Hj' by (by eapply upd_some). specialize (F1 j Hj'). lia.
  - intros j Hj. destruct (decide (j = c_next s)) as [->|]; [lia|]. rewrite lookup_insert_ne in Hj by done. specialize (F2 j Hj). lia.
  - intros j Hj. specialize (F3 j Hj). lia.
Qed.

Definition failed_page (rc : Z) (_ : Z) (e : bmpce) : bmpce :=
  pce_rc (pce_flags e (clrf (setf (bmpce_flags e) BMPCEF_EIO) (Z.lor BMPCEF_FAULTING BMPCEF_PINNED))) rc.
Lemma linv_fail s cur rest rc pc' : linv s (cur ++ rest) → rc ≠ 0 → pcinv pc' (holds (c_b s)) →
  mod_tree (failed_page rc) cur (pc_tree (c_pc s)) (pc_tree pc') → linv (c_set_pc s pc') rest.
Proof.
  intros C Hrc I' Hm. destruct (linv_facts s _ C) as (r & Hr & Hri & Hth & Hpg). destruct C as [C1 C2 [F1 F2 F3]]. split; simpl in *; [|done|by split].
  pose proof C1 as (I & O & _). set (T0 := <[id := PLaunch (cur ++ rest)]> (c_thr s)) in *.
  assert (<[id := PLaunch rest]> (c_thr s) = tset T0 id (Some (PLaunch rest))) as HT by (symmetry; exact (insert_insert_eq (c_thr s) id _ _)). rewrite HT.
  pose proof (ri_pc _ _ _ _ Hri) as Hw. simpl in Hw. destruct Hth as (Hnd & Hl & Hwt). apply NoDup_app in Hnd as (Hnd1 & Hnd2 & Hnd3).
  assert (∀ p e, p ∈ cur → pc_tree (c_pc s) !! p = Some e → settles e (failed_page rc p e)) as Hset.
  { intros p e Hp He. destruct (Hpg p) as (e0 & He0 & Hpi & Hfa & Hda); [apply elem_of_app; by left|]. rewrite He in He0. injection He0 as <-.
    split; simpl; try done; flags_goal; try done. intros _. right. by left. }
  eapply (core_settle tidy (c_pc s) pc' (c_b s) _ T0 _ _ _ _ (failed_page rc) cur id r); try done.
  - by eapply rq_inv_pc; [exact Hri|..].
  - intros p e Hp He. destruct (Hpg p) as (e0 & He0 & Hpi & Hfa & Hda); [apply elem_of_app; by left|]. rewrite He in He0. injection He0 as <-.
    split; [by apply Hset|]. split; [|done]. unfold data_same. rewrite Hpi, Hda. simpl. split_and!; [done|flags_goal; done|flags_goal; done].
  - intros past p. simpl. rewrite tset_eq. unfold T0. rewrite lookup_insert_eq. intros (l' & [[= <-]|[_ ?]] & Hp); [|done].
    split; [|intros Hc; by apply (Hnd2 p)]. eexists. split; [left; done|]. apply elem_of_app. by right.
  - intros past o p Ho Hown Hp. apply Ho. assert (own (c_rd s) T0 false (inl id) p) as Hme.
    { exists (cur ++ rest). unfold T0. rewrite lookup_insert_eq. split; [by left|]. apply elem_of_app. by left. }
    eapply (ov_uniq _ _ _ _ O); [|done]. destruct o as [j|]; [|done]. destruct Hown as (l' & Hl' & Hp'). exists l'. split; [|done]. destruct Hl' as [|[_ ?]]; auto.
  - simpl. split_and!; [done| |].
    + intros p Hp. destruct (Hl p) as [Ha Hb]; [apply elem_of_app; by right|]. split; [done|]. eapply loading_settle; [exact Hm|done| |done]. intros Hc. by apply (Hnd2 p).
    + intros Hrd p Hp. eapply waitable_settle; [exact Hm|done|]. by apply Hwt.
Qed.

Definition unloaded (s : cl) (p : Z) : Prop := ∃ e, pc_tree (c_pc s) !! p = Some e ∧ pfl e BMPCEF_FAULTING = false.
Lemma wp_rpc_launch s a n cur rest rc (Q : Z → cl → Prop) :
  linv s (cur ++ rest) → cur = prange a (S n) → Z.of_nat (S n) ≤ BMPC_MAXBUFSRPC →
  (∀ s', rc = 0 → linv s' rest → Q 0 s') → (∀ s', rc ≠ 0 → linv s' rest → (∀ p, p ∈ cur → unloaded s' p) → Q rc s') →
  wp (msl_read_rpc_launch id cur rc) Q s.
Proof.
  intros C Hcur Hn HQ0 HQ1. destruct (linv_facts s _ C) as (r & Hr & Hri & (Hnd & Hl & _) & Hpg). apply NoDup_app in Hnd as (Hnd & _ & _).
  assert (∀ p, p ∈ cur → p ∈ cur ++ rest) as Hin by (intros p Hp; apply elem_of_app; by left).
  unfold msl_read_rpc_launch. wp_step. apply wp_assert; [rewrite Hcur, length_prange; by apply Z.leb_le|]. wp_step. apply wp_lift, wp_check_pages; [intros p Hp; apply Hpg; auto|]. rewrite set_pc_id.
  destruct (Z.eqb_spec rc 0) as [->|Hrc]; cbn [negb].
  - wp_step. apply wp_assert.
    { destruct cur as [|p cur'] eqn:Hc; [done|]. rewrite <-Hc in *. assert (p = a) as -> by (rewrite Hc in Hcur; simpl in Hcur; congruence).
      destruct (full_aligned r (biorq_pages r ++ todo (Some (PLaunch (cur ++ rest)))) (a + Z.of_nat n * BMPC_BUFSZ)) as (_ & _ & Hb); [apply Hri| |rewrite Hcur, length_prange; apply Z.leb_le; lia].
      simpl. rewrite app_nil_r. apply Hl, Hin. rewrite Hcur. apply elem_of_prange. exists (Z.of_nat n). lia. }
    wp_step. eapply wp_modRq; [done|]. wp_step. wp_step. wp_step. wp_step. apply HQ0; [done|]. exact (linv_rpc s cur rest C r Hr).
  - wp_step. apply wp_lift. pose proof (ci_core _ _ _ C) as (I & _). eapply (wp_each_mod (failed_page rc)); [apply I|done| | |].
    + intros p Hp. destruct (Hpg p) as (e & He & _); [auto|by exists e].
    + intros p e. unfold pc_same, failed_page. simpl. split_and!; try done; by flags_goal.
    + intros pc' I' Hm. wp_step. apply HQ1; [done|by eapply linv_fail|]. intros p Hp. destruct (Hpg p) as (e & He & _); [auto|].
      exists (failed_page rc p e). simpl. rewrite (Hm p), bool_decide_true, He by done. split; [done|]. by flags_goal.
Qed.

(** How the second loop of [msl_launch_read_rpcs] ends. *)
Definition launch_end (rc : Z) (rest : list Z) (s : cl) : Prop :=
  if rc =? 0 then rest = [] ∧ linv s []
  else ∃ l, linv s l ∧ NoDup rest ∧ (∀ p, p ∈ l → p ∈ rest) ∧ (∀ p, p ∈ rest → p ∈ l ∨ unloaded s p).
Lemma linv_nodup s l : linv s l → NoDup l.
Proof. intros C. by destruct (linv_facts s _ C) as (r & _ & _ & (? & _) & _). Qed.

Lemma wp_launch_loop rcs pages : ∀ k cur off a n s (Q : Z * list Z → cl → Prop),
  linv s (cur ++ pages) → cur = prange a n → Z.of_nat n < BMPC_MAXBUFSRPC → off = a + Z.of_nat n * BMPC_BUFSZ ∨ n = O → (pages = [] → cur = []) →
  (∀ rc rest s', launch_end rc rest s' → Q (rc, rest) s') → wp (launch_loop id rcs k pages cur off) Q s.
Proof.
  induction pages as [|p rest IH]; intros k cur off a n s Q C Hcur Hn Hoff Hnil HQ; simpl.
  { rewrite (Hnil eq_refl) in C. wp_step. by apply HQ. }
  assert (BMPC_MAXBUFSRPC = 32) as Hmax by (unfold BMPC_MAXBUFSRPC; by rewrite MTU_slvr).
  (* the page joins a run *)
  assert (∀ k cur a n s, linv s (cur ++ p :: rest) → cur = prange a n → Z.of_nat n < BMPC_MAXBUFSRPC → p = a + Z.of_nat n * BMPC_BUFSZ →
    wp (if (Z.of_nat (length (cur ++ [p])) =? BMPC_MAXBUFSRPC) || match rest with [] => true | _ => false end then
          rc ← msl_read_rpc_launch id (cur ++ [p]) (rcs k);
          if negb (rc =? 0) then mret (rc, p :: rest) else launch_loop id rcs (S k) rest [] (p + BMPC_BUFSZ)
        else launch_loop id rcs k rest (cur ++ [p]) (p + BMPC_BUFSZ)) Q s) as Hjoin.
  { clear -IH HQ Hmax. intros k cur a n s C Hcur Hn Hp.
    assert (cur ++ [p] = prange a (S n)) as Hc' by (rewrite Hcur, Hp; replace (S n) with (n + 1)%nat by lia; by rewrite prange_app).
    assert (linv s ((cur ++ [p]) ++ rest)) as C' by (by rewrite <-app_assoc).
    destruct (orb _ _) eqn:Hgo.
    - wp_step. eapply wp_rpc_launch; [exact C'|exact Hc'|lia| |].
      + intros s' Hrc C2. simpl. eapply (IH (S k) [] _ 0 0%nat); [exact C2|done|lia|by right|done|done].
      + intros s' Hrc C2 Hun. apply Z.eqb_neq in Hrc. rewrite Hrc. simpl. wp_step. apply HQ. unfold launch_end. rewrite Hrc. exists rest. split_and!; [done| |intros q Hq; by right|].
        * apply linv_nodup in C. apply NoDup_app in C as (_ & _ & C). done.
        * intros q [->|Hq]%elem_of_cons; [right|by left]. apply Hun, elem_of_app. right. left.
    - apply orb_false_iff in Hgo as [Hg1 Hg2]. apply Z.eqb_neq in Hg1. rewrite Hc', length_prange in Hg1.
      eapply (IH k _ _ a (S n)); [exact C'|done|lia|left; lia|by destruct rest|done]. }
  wp_step. destruct cur as [|c0 cur0] eqn:Hcc.
  - wp_step. simpl. apply (Hjoin k [] p 0%nat); [done|done|lia|lia].
  - rewrite <-Hcc in *. assert (n ≠ 0%nat) as Hn0 by (intros ->; simpl in Hcur; congruence). destruct Hoff as [Hoff|]; [|done].
    destruct (Z.eqb_spec p off) as [Hp|Hp]; cbn [negb].
    + wp_step. simpl. apply (Hjoin k cur a n); [done|done|lia|lia].
    + destruct n as [|n]; [done|]. eapply wp_rpc_launch; [exact C|exact Hcur|lia| |].
      * intros s' _ C2. simpl. apply (Hjoin (S k) [] p 0%nat); [done|done|lia|lia].
      * intros s' Hrc C2 _. apply Z.eqb_neq in Hrc. rewrite Hrc. simpl. wp_step. apply HQ. unfold launch_end. rewrite Hrc. exists (p :: rest).
        split_and!; [done|by eapply linv_nodup|done|by left].
Qed.

Definition stale_page (_ : Z) (e : bmpce) : bmpce := pce_flags e (setf (clrf (bmpce_flags e) BMPCEF_FAULTING) BMPCEF_EIO).
Lemma linv_id s l : cinv tidy s A → c_thr s !! id = Some (PLaunch l) → linv s l.
Proof. intros C Ht. unfold linv. rewrite insert_id by done. by destruct s. Qed.
(** The thread leaves the loop. *)
Lemma linv_end s l rest pc' r t :
  linv s l → b_rqs (c_b s) !! id = Some r → NoDup rest → (∀ p, p ∈ l → p ∈ rest) → (∀ p, p ∈ rest → p ∈ l ∨ unloaded s p) →
  pcinv pc' (holds (c_b s)) → mod_tree stale_page rest (pc_tree (c_pc s)) (pc_tree pc') →
  (∀ p e, pc_tree pc' !! p = Some e → pfl e BMPCEF_EIO = true → bmpce_rc e ≠ 0) →
  (∀ l', t ≠ PFlush l' ∧ t ≠ PLaunch l') → rq_inv (c_rd s) id r (Some t) →
  ((plain_read r → ∀ p, p ∈ biorq_pages r → waitable (pc_tree pc') r p) → thr_ok (pc_tree pc') r (Some t)) →
  cinv tidy (c_set_thr (c_set_pc s pc') (<[id := t]> (c_thr s))) A.
Proof.
  intros C Hr Hnd Hl1 Hl2 I' Hm Hrc Hnt Hri Hth. destruct (linv_facts s _ C) as (r0 & Hr0 & Hri0 & (_ & Hl & Hwt) & Hpg). rewrite Hr in Hr0. injection Hr0 as <-.
  destruct C as [C1 C2 [F1 F2 F3]]. split; simpl in *; [|done|by split]. pose proof C1 as (I & O & _). set (T0 := <[id := PLaunch l]> (c_thr s)) in *.
  assert (<[id := t]> (c_thr s) = tset T0 id (Some t)) as HT by (symmetry; exact (insert_insert_eq (c_thr s) id _ _)). rewrite HT.
  assert (∀ p e, p ∈ rest → pc_tree (c_pc s) !! p = Some e → settles e (stale_page p e)) as Hset.
  { intros p e _ _. split; simpl; try done; flags_goal; try done. intros _. right. by left. }
  pose proof (ri_pc _ _ _ _ Hri0) as Hw. simpl in Hw.
  eapply (core_settle tidy (c_pc s) pc' (c_b s) _ T0 _ _ _ _ stale_page rest id r); try done.
  - intros p e Hp He. split; [by apply (Hset p)|]. split; [unfold data_same; simpl; split_and!; try done; by flags_goal|]. intros Hio. eapply (Hrc p); [|done].
    rewrite (Hm p), bool_decide_true, He by done. done.
  - intros past p (l' & [Hl'|[_ Hl']] & _); rewrite tset_eq in Hl'; injection Hl' as ->; by destruct (Hnt l').
  - intros past o p Ho Hown Hp. destruct (Hl2 p Hp) as [Hp'|(e & He & Hfa)].
    + apply Ho. eapply (ov_uniq _ _ _ _ O _ _ p); [|exists l; unfold T0; rewrite lookup_insert_eq; auto].
      destruct o as [j|]; [|done]. destruct Hown as (l' & Hl' & Hpl). exists l'. split; [|done]. destruct Hl' as [|[_ ?]]; auto.
    + destruct (own_loading _ _ _ _ past o p O (rv_thr _ _ _ _ _ _ I) Hown) as (e0 & He0 & Hf0 & _). congruence.
  - apply Hth. intros Hrd p Hp. eapply waitable_settle; [exact Hm|done|]. by apply Hwt.
Qed.
End launch.

Definition no_lost_error (s : cl) : Prop := ∀ p e, pc_tree (c_pc s) !! p = Some e → pfl e BMPCEF_EIO = true → bmpce_rc e ≠ 0.
Lemma step_launch tidy s A id rcs : cinv tidy s A → wpb (launch_step id rcs) (λ _ s', no_lost_error s' → cinv tidy s' A) s.
Proof.
  intros C. pose proof (ci_core _ _ _ C) as (I & O & _). unfold launch_step. wb_step. wb_step.
  destruct (c_thr s !! id) as [[| | |l| | | | | |]|] eqn:Ht; try done. apply wpb_of.
  wp_step. assert (linv tidy A id s ([] ++ l)) as CL by (by apply linv_id).
  eapply (wp_launch_loop tidy A id rcs l 0 [] 0 0 0%nat); [exact CL|done|unfold BMPC_MAXBUFSRPC; by rewrite MTU_slvr|by right|done|].
  intros rc rest s1 HE. unfold launch_end in HE.
  assert (∃ l, linv tidy A id s1 l ∧ NoDup rest ∧ (∀ p, p ∈ l → p ∈ rest) ∧ (∀ p, p ∈ rest → p ∈ l ∨ unloaded s1 p)) as (l1 & C1 & Hnd & Hl1 & Hl2).
  { destruct (rc =? 0); [|done]. destruct HE as [-> HE]. exists []. split_and!; [done|constructor|done|by intros p ?%elem_of_nil]. }
  destruct (linv_facts tidy A id s1 l1 C1) as (r & Hr & Hri & Hth & Hpg). wp_step. apply wp_lift. pose proof (ci_core _ _ _ C1) as (I1 & _).
  eapply (wp_each_mod stale_page); [apply I1|done| | |].
  - intros p Hp. destruct (Hl2 p Hp) as [Hp'|(e & He & _)]; [destruct (Hpg p Hp') as (e & He & _)|]; by exists e.
  - intros p e. unfold pc_same, stale_page. simpl. split_and!; try done; by flags_goal.
  - intros pc' I' Hm. wp_step. eapply wp_getRq; [done|]. apply wp_modify. intros Hno. pose proof (ri_pc _ _ _ _ Hri) as Hw. simpl in Hw.
    eapply (linv_end tidy A id s1 l1 rest pc' r (launched r rc)); try done.
    + intros l'. unfold launched. destruct (rfl r BIORQ_READAHEAD), (rc =? 0); done.
    + eapply rq_inv_pc; [exact Hri|..]; try done; unfold launched.
      * destruct (rfl r BIORQ_READAHEAD), (rc =? 0); done.
      * destruct (rfl r BIORQ_READAHEAD) eqn:Hra, (Z.eqb_spec rc 0); done.
      * intros q. destruct (rfl r BIORQ_READAHEAD), (rc =? 0); simpl; tauto.
    + intros Hwait. unfold launched. destruct (rfl r BIORQ_READAHEAD) eqn:Hra; simpl.
      * intros _. destruct (ri_ra _ _ _ _ Hri Hra) as [_ ->]. done.
      * destruct (rc =? 0); simpl; [|done]. intros Hrd. split; [by intros p ?%elem_of_nil|]. rewrite drop_0. by apply Hwait.
Qed.

(** ** Read RPCs in flight *)
Lemma nrpc_replace R rid v v0 j : R !! rid = Some v0 → rr_rq v = rr_rq v0 → nrpc (<[rid := v]> R) j = nrpc R j.
Proof.
  intros Hv Hq. rewrite <-(insert_id R rid v0 Hv) at 2. rewrite <-(insert_delete_eq R rid v), <-(insert_delete_eq R rid v0).
  rewrite !nrpc_insert by apply lookup_delete_eq. by rewrite Hq.
Qed.
Lemma rqinv_R pc b R R' T G D :
  rqinv pc b R T G D → (∀ j, nrpc R' j = nrpc R j) → (∀ rid v, R' !! rid = Some v → ∃ rid0 v0, R !! rid0 = Some v0 ∧ rr_rq v0 = rr_rq v) → rqinv pc b R' T G D.
Proof.
  intros [V1 V2 V3 V4 V5 V6 V7 V8 V9 V10 V11 V12 V13 V14 V15 V16 V17 V18 V19 V20] Hn HR. split; try done.
  - intros id r Hr. eapply rq_inv_R; [apply Hn|by apply V4].
  - intros rid v Hv. destruct (HR rid v Hv) as (rid0 & v0 & Hv0 & <-). by eapply V6.
Qed.
Lemma rpc_replace (R : gmap nat rrpc) rid v v0 : R !! rid = Some v0 → rr_rq v = rr_rq v0 →
  ∀ rd w, <[rid := v]> R !! rd = Some w → ∃ rid0 w0, R !! rid0 = Some w0 ∧ rr_rq w0 = rr_rq w.
Proof.
  intros Hv Hq rd w. destruct (decide (rd = rid)) as [->|]; [rewrite lookup_insert_eq; intros [= <-]; by exists rid, v0|].
  rewrite lookup_insert_ne by done. intros Hw. by exists rd, w.
Qed.
Lemma step_srv_read tidy s A rid : cinv tidy s A → wpb (srv_read rid) (λ _ s', cinv tidy s' A) s.
Proof.
  intros C. pose proof (ci_core _ _ _ C) as (I & O & K & HK & HD). unfold srv_read. wb_step. wb_step.
  destruct (c_rd s !! rid) as [v0|] eqn:Hv; [|done]. wb_step. wb_step. apply wpb_of, wp_put. set (v := {| rr_rq := _ |}).
  destruct C as [C1 C2 [F1 F2 F3]]. split; simpl; [|done|].
  - split; [|split; [|exists K; split; [done|]]].
    + eapply rqinv_R; [exact I|intros j; by apply (nrpc_replace _ _ _ v0)|by apply (rpc_replace _ _ _ v0)].
    + assert (∀ past o p, own (<[rid := v]> (c_rd s)) (c_thr s) past o p → own (c_rd s) (c_thr s) past o p) as Hown.
      { intros past [j|rd] p; [done|]. simpl. destruct (decide (rd = rid)) as [->|]; [rewrite lookup_insert_eq; intros (w & [= <-] & Hd & Hp); by exists v0|by rewrite lookup_insert_ne]. }
      destruct O as [O1 O2 O3 O4 O5 O6]. split; try done.
      * intros rd w. destruct (decide (rd = rid)) as [->|]; [rewrite lookup_insert_eq; intros [= <-]; by apply (O3 rid v0)|rewrite lookup_insert_ne by done; apply O3].
      * intros o o' p Ho Ho'. eapply O4; by apply Hown.
      * intros o p j r Ho. eapply O6. by apply Hown.
    + intros Hf. destruct (HD Hf) as [D1 D2 D3 D4 D5]. split; try done. intros rd w d p x. destruct (decide (rd = rid)) as [->|]; [|rewrite lookup_insert_ne by done; apply D4].
      rewrite lookup_insert_eq. intros [= <-]. simpl. by intros _ [= <-].
  - split; simpl; try done. intros j Hj. destruct (decide (j = rid)) as [->|]; [apply F2; by exists v0|]. rewrite lookup_insert_ne in Hj by done. by apply F2.
Qed.

(** The server has the bytes of a page that is being loaded. *)
Lemma loaded_clean pc b R T G D srv K A o p x :
  rqinv pc b R T G D → ownv (pc_tree pc) (b_rqs b) R T → dat (pc_tree pc) (b_rqs b) R T G srv K A →
  own R T true o p → page_align x = p → srv x = A x.
Proof.
  intros I O [D1 D2 D3 D4 D5] Ho Hx. destruct (K x) eqn:HK; [|by apply D2]. destruct (D3 x HK) as [|Hd]; [done|]. exfalso.
  destruct Hd as (id & r & Hr & Hw & Hxr). pose proof (rv_rq _ _ _ _ _ _ I id r Hr) as Hri.
  assert (p ∈ biorq_pages r) as Hp.
  { pose proof (ri_pc _ _ _ _ Hri) as Hpc. destruct (rfl r BIORQ_READAHEAD) eqn:Hra; [destruct (ri_ra _ _ _ _ Hri Hra); congruence|].
    assert (todo (T !! id) = []) as Htd by (destruct (T !! id) as [[]|]; simpl in *; try done; lia).
    destruct (rq_pages_full id r (T !! id) Hri Htd Hra) as (_ & _ & _ & ->). subst p. apply page_offs_byte. split; [lia|].
    destruct (T !! id) as [[]|]; simpl in *; unfold biorq_voff_get in *; lia. }
  destruct (own_loading _ _ _ _ _ o p O (rv_thr _ _ _ _ _ _ I) Ho) as (e & He & Hfa & _).
  destruct (T !! id) as [t|] eqn:Ht.
  - assert (hot r (Some t) p) as Hh by (split; [done|]; destruct t; simpl in *; try lia; done).
    rewrite <-Ht in Hh. pose proof (ov_hot _ _ _ _ O id r p e Hr Hh He). congruence.
  - eapply (ov_past _ _ _ _ O o p id r); try done. rewrite (ri_rdy _ _ _ _ Hri), Hw. done.
Qed.

Definition done_page (d : option data) (land : Z → bool) (rc p : Z) (e : bmpce) : bmpce :=
  let e := match d with
           | Some d => pce_base e (λ i, if (rc =? 0) || land (p + i) then d (p + i) else bmpce_base e i)
           | None => e
           end in
  let fl := bmpce_flags e in
  let e := if negb (rc =? 0) then pce_rc (pce_flags e (setf fl BMPCEF_EIO)) rc else pce_flags e (setf fl BMPCEF_DATARDY) in
  pce_flags e (clrf (bmpce_flags e) (Z.lor BMPCEF_FAULTING BMPCEF_PINNED)).
Lemma done_page_flags d land rc p e :
  pfl (done_page d land rc p e) BMPCEF_FAULTING = false ∧ pfl (done_page d land rc p e) BMPCEF_PINNED = false ∧
  pfl (done_page d land rc p e) BMPCEF_DATARDY = (rc =? 0) || pfl e BMPCEF_DATARDY ∧ pfl (done_page d land rc p e) BMPCEF_EIO = negb (rc =? 0) || pfl e BMPCEF_EIO ∧
  bmpce_rc (done_page d land rc p e) = (if rc =? 0 then bmpce_rc e else rc) ∧ bmpce_start (done_page d land rc p e) = bmpce_start e ∧
  bmpce_len (done_page d land rc p e) = bmpce_len e ∧ pc_same e (done_page d land rc p e).
Proof. unfold done_page, pc_same. destruct d, (rc =? 0); simpl; split_and!; try done; flags_goal; done. Qed.
Lemma done_page_base d land rc p e i : bmpce_base (done_page d land rc p e) i = bmpce_base e i ∨ ∃ d0, d = Some d0 ∧ bmpce_base (done_page d land rc p e) i = d0 (p + i).
Proof. unfold done_page. destruct d as [d|], (rc =? 0); simpl; eauto. destruct (land (p + i)); eauto. Qed.

Section done.
Context (tidy : bool) (pc pc' : pcache) (b : bmapc) (R : gmap nat rrpc) (T : gmap nat Cio.pc) (G : list grp) (D : list nat) (srv A : data).
Context (rid : nat) (v0 : rrpc) (rc : Z) (land : Z → bool).
Context (HC : core tidy pc b R T G D srv A) (Hv : R !! rid = Some v0) (Hd : rr_done v0 = None) (Hdat : rc = 0 → is_Some (rr_data v0)).
Context (I' : pcinv pc' (holds b)) (Hm : mod_tree (done_page (rr_data v0) land rc) (rr_pages v0) (pc_tree pc) (pc_tree pc')).
Abbreviation v := {| rr_rq := rr_rq v0; rr_pages := rr_pages v0; rr_data := rr_data v0; rr_done := Some rc |}.
Abbreviation R' := (<[rid := v]> R).

Lemma done_own p : p ∈ rr_pages v0 → own R T true (inr rid) p.
Proof. intros Hp. by exists v0. Qed.
Lemma done_loading p e : p ∈ rr_pages v0 → pc_tree pc !! p = Some e → pfl e BMPCEF_FAULTING = true ∧ pfl e BMPCEF_DATARDY = false ∧ pfl e BMPCEF_PINNED = false ∧ page_ok p e.
Proof.
  destruct HC as (I & O & _). intros Hp He. destruct (own_loading _ _ _ _ _ _ p O (rv_thr _ _ _ _ _ _ I) (done_own p Hp)) as (e0 & He0 & Hf & Hr). rewrite He in He0. injection He0 as <-.
  split_and!; try done; [|by apply (ov_page _ _ _ _ O)]. rewrite (rv_pinned _ _ _ _ _ _ I p e He). apply bool_decide_false. intros (j & q & Hq & Hrdy & Hin)%(pins_held p I).
  eapply (ov_past _ _ _ _ O (inr rid) p j q); try done. by apply done_own.
Qed.
Lemma done_rqinv : rqinv pc' b R' T G D.
Proof.
  destruct HC as (I & O & _). eapply rqinv_R; [|intros j; by apply (nrpc_replace _ _ _ v0)|by apply (rpc_replace _ _ _ v0)]. eapply rqinv_pc; [exact I|done|].
  eapply pinned_mod; [exact Hm|apply I|]. intros p e Hp He. destruct (done_loading p e Hp He) as (_ & _ & -> & _). apply done_page_flags.
Qed.
Lemma done_ownv : ownv (pc_tree pc') (b_rqs b) R' T.
Proof.
  destruct HC as (I & O & _). eapply (ownv_settle (done_page (rr_data v0) land rc) (rr_pages v0)); [exact Hm| |exact O|apply I| | | |by left].
  - intros p e Hp He. destruct (done_loading p e Hp He) as (Hf & Hr & _ & _). destruct (done_page_flags (rr_data v0) land rc p e) as (F1 & F2 & F3 & F4 & F5 & F6 & F7 & F8).
    split; try done; rewrite ?F1, ?F3, ?F4; try done; [apply F8| |].
    + intros ->. by rewrite orb_true_r.
    + intros _. destruct (rc =? 0); auto.
  - intros p e Hp He. destruct (done_loading p e Hp He) as (_ & _ & _ & Hok). destruct (done_page_flags (rr_data v0) land rc p e) as (F1 & F2 & F3 & F4 & F5 & F6 & F7 & F8).
    rewrite F4, F5. destruct (Z.eqb_spec rc 0); [|done]. simpl. apply Hok.
  - intros past o p Ho. assert (own R T past o p ∧ o ≠ inr rid) as [Ho' Hne].
    { destruct o as [j|rd]; [done|]. destruct Ho as (w & Hw & Hdn & Hp). destruct (decide (rd = rid)) as [->|]; [rewrite lookup_insert_eq in Hw; by injection Hw as <-|].
      rewrite lookup_insert_ne in Hw by done. split; [by exists w|congruence]. }
    split; [done|]. intros Hp. apply Hne. eapply (ov_uniq _ _ _ _ O _ _ p); [|by exists v0].
    destruct o as [j|]; [|done]. destruct Ho' as (l' & Hl' & Hp'). exists l'. split; [|done]. destruct Hl' as [|[_ ?]]; auto.
  - intros rd w. destruct (decide (rd = rid)) as [->|]; [rewrite lookup_insert_eq; intros [= <-]; by exists v0|]. rewrite lookup_insert_ne by done. intros Hw. by exists w.
Qed.
Definition done_known (K : Z → bool) : Z → bool := λ x, K x || ((rc =? 0) && bool_decide (page_align x ∈ rr_pages v0)).
Lemma done_kinv K : kinv tidy (pc_tree pc) (b_rqs b) T K → kinv tidy (pc_tree pc') (b_rqs b) T (done_known K).
Proof.
  destruct HC as (I & O & _). intros [K1 K2 K3 K4]. unfold done_known. assert (∀ x, K x = true → K x || ((rc =? 0) && bool_decide (page_align x ∈ rr_pages v0)) = true) as Hk by (by intros x ->).
  assert (∀ p e', pc_tree pc' !! p = Some e' → ∃ e, pc_tree pc !! p = Some e ∧ bmpce_start e' = bmpce_start e ∧ bmpce_len e' = bmpce_len e ∧
    (pfl e' BMPCEF_DATARDY = true → pfl e BMPCEF_DATARDY = true ∨ (rc = 0 ∧ p ∈ rr_pages v0))) as Hb.
  { intros p e'. rewrite (Hm p). destruct (bool_decide_reflect (p ∈ rr_pages v0)) as [Hp|]; [|intros He; exists e'; auto]. destruct (pc_tree pc !! p) as [e|]; [|done].
    intros [= <-]. destruct (done_page_flags (rr_data v0) land rc p e) as (F1 & F2 & F3 & F4 & F5 & F6 & F7 & F8). exists e. split_and!; try done. rewrite F3. destruct (Z.eqb_spec rc 0); auto. }
  split; auto.
  - intros x [Hx|[_ Hx%bool_decide_eq_true]%andb_true_iff]%orb_true_iff.
    + destruct (K1 x Hx) as [e He]. rewrite (Hm (page_align x)), He. destruct (bool_decide (page_align x ∈ rr_pages v0)); by eexists.
    + destruct (own_loading _ _ _ _ _ _ _ O (rv_thr _ _ _ _ _ _ I) (done_own _ Hx)) as (e & He & _). rewrite (Hm (page_align x)), He, bool_decide_true by done. by eexists.
  - intros p e' x He' Hr Hx. destruct (Hb p e' He') as (e & He & _ & _ & Hre). destruct (Hre Hr) as [Hre'|[-> Hp]]; [apply Hk; by eapply K2|].
    rewrite (page_align_page p e (pc_tree pc) x) by (apply O || done). rewrite bool_decide_true by done. by rewrite orb_true_r.
  - intros Ht p e' x He' Hx. destruct (Hb p e' He') as (e & He & Hs & Hl & _). rewrite Hs, Hl in Hx. apply Hk. by eapply K4.
Qed.
Lemma done_dat K : kinv tidy (pc_tree pc) (b_rqs b) T K → dat (pc_tree pc) (b_rqs b) R T G srv K A → dat (pc_tree pc') (b_rqs b) R' T G srv (done_known K) A.
Proof.
  destruct HC as (I & O & _). intros HK HDt. pose proof HDt as [D1 D2 D3 D4 D5].
  assert (∀ x, page_align x ∈ rr_pages v0 → srv x = A x) as Hclean by (intros x Hx; by eapply (loaded_clean _ _ _ _ _ _ _ _ _ (inr rid)); [exact I|exact O|exact HDt|apply done_own|]).
  assert (∀ x d, page_align x ∈ rr_pages v0 → rr_data v0 = Some d → d x = A x) as Hd'.
  { intros x d Hx Hdd. rewrite <-Hclean by done. eapply D4; [done|done|done|done|]. apply page_align_bound. }
  split; try done.
  - intros x Hx. unfold page_byte. rewrite (Hm (page_align x)). destruct (bool_decide_reflect (page_align x ∈ rr_pages v0)) as [Hp|Hp].
    + destruct (own_loading _ _ _ _ _ _ _ O (rv_thr _ _ _ _ _ _ I) (done_own _ Hp)) as (e & He & _). rewrite He. cbn [fmap option_fmap option_map].
      destruct (done_page_base (rr_data v0) land rc (page_align x) e (x - page_align x)) as [Hb|(d & Hdd & Hb)]; rewrite Hb.
      * destruct (K x) eqn:Hkx; [specialize (D1 x Hkx); unfold page_byte in D1; by rewrite He in D1|]. unfold done_known in Hx. rewrite Hkx in Hx. apply andb_true_iff in Hx as [Hrc _].
        apply Z.eqb_eq in Hrc. destruct (Hdat Hrc) as [d Hdd]. rewrite <-Hb. unfold done_page. rewrite Hdd, Hrc. simpl. replace (page_align x + (x - page_align x)) with x by lia. by apply Hd'.
      * replace (page_align x + (x - page_align x)) with x by lia. by apply Hd'.
    + unfold done_known in Hx. rewrite (bool_decide_false _ Hp), andb_false_r, orb_false_r in Hx. specialize (D1 x Hx). done.
  - intros x [Hx _]%orb_false_iff. by apply D2.
  - intros x [Hx|[_ Hx%bool_decide_eq_true]%andb_true_iff]%orb_true_iff; [by apply D3|left; by apply Hclean].
  - intros rd w d p x. destruct (decide (rd = rid)) as [->|]; [rewrite lookup_insert_eq; by intros [= <-]|]. rewrite lookup_insert_ne by done. apply D4.
Qed.
End done.

Lemma step_read_done tidy s A rid rc land : cinv tidy s A → wpb (read_done rid rc land) (λ _ s', cinv tidy s' A) s.
Proof.
  intros C. pose proof (ci_core _ _ _ C) as HC. pose proof HC as (I & O & K & HK & HD). unfold read_done. wb_step. wb_step.
  destruct (c_rd s !! rid) as [v0|] eqn:Hv; [|done]. wb_step. wb_step. wb_step. wb_step.
  assert (rr_done v0 = None) as Hd by (by destruct (rr_done v0)).
  assert (rc = 0 → is_Some (rr_data v0)) as Hdat by (intros ->; simpl in *; destruct (rr_data v0); [by eexists|done]).
  destruct (ov_rd _ _ _ _ O rid v0 Hv) as (Hnd & Hin & Hl).
  wb_step. apply wpb_of, wp_lift. eapply (wp_each_mod (done_page (rr_data v0) land rc)); [apply I|done| | |].
  - intros p Hp. destruct (Hl Hd p Hp) as (e & He & _). by exists e.
  - intros p e. apply done_page_flags.
  - intros pc' I' Hm. apply wpb_of, wp_modify. destruct C as [C1 C2 [F1 F2 F3]]. split; simpl; [|done|].
    + split; [by eapply done_rqinv|]. split; [by eapply done_ownv|]. exists (done_known v0 rc K). split; [by eapply done_kinv|]. intros Hf. eapply done_dat; eauto.
    + split; simpl; try done. intros j Hj. destruct (decide (j = rid)) as [->|]; [apply F2; by exists v0|]. rewrite lookup_insert_ne in Hj by done. by apply F2.
Qed.
End load.
