(* ===== verification/CioEnd.v ===== *)
(** * The end of requests

    A request whose last reference goes away leaves its pages, the lists of the
    bmap and the count of pending writes. *)
From S2P Require Import Prelude BmapMds ReplReq ReplWalk Lease Slvr SlvrIO Pgcache PgcacheInv Coalesce CoalesceProps Cio CioInv CioFrame CioTop CioStart CioValid CioRead CioLoad.

(** ** The release of pages *)
Definition released (h : Z → Z) (l : list Z) (m m' : gmap Z bmpce) : Prop := ∀ p,
  match m !! p with
  | Some e => (∃ e', m' !! p = Some e' ∧ keeps e e' ∧ same_eio e e') ∨ (m' !! p = None ∧ p ∈ l ∧ h p = 1)
  | None => m' !! p = None
  end.
Lemma wp_each_release l : ∀ s h (Q : unit → pcache → Prop),
  pcinv s h → NoDup l → (∀ p, p ∈ l → 0 < h p) →
  (∀ s', pcinv s' (λ q, h q - one (bool_decide (q ∈ l))) → released h l (pc_tree s) (pc_tree s') → Q tt s') → wp (each_page bmpce_release l) Q s.
Proof.
  induction l as [|p l IH]; intros s h Q I Hnd Hl HQ; simpl.
  { wp_step. apply HQ; [eapply pcinv_ext; [|done]; intros q; simpl; lia|]. intros q. destruct (pc_tree s !! q) as [e|] eqn:He; [|done].
    left. exists e. split_and!; [done|apply keeps_refl|done]. }
  apply NoDup_cons in Hnd as [Hp Hnd]. destruct (pci_dom _ _ I p) as [e He]; [left; apply Hl; left|].
  wp_step. eapply wp_bmpce_release; [done|apply Hl; left|done|]. intros s1 I1 Hs1. apply (IH s1 (hadd h p (-1))); [done|done| |].
  - intros q Hq. rewrite hadd_ne by (by intros ->). apply Hl. by right.
  - intros s2 I2 Hr. apply HQ.
    + eapply pcinv_ext; [|exact I2]. intros q. simpl. destruct (decide (q = p)) as [->|Hq].
      * rewrite hadd_eq, (bool_decide_false (p ∈ l)), (bool_decide_true (p ∈ p :: l)) by (done || left). simpl. lia.
      * rewrite hadd_ne by done. erewrite (bool_decide_ext (q ∈ p :: l)); [done|]. rewrite elem_of_cons. tauto.
    + intros q. specialize (Hr q). destruct (decide (q = p)) as [->|Hq].
      * rewrite He. destruct Hs1 as [[Ht Hh]|(e' & Ht & Hk & Hio)]; rewrite Ht in Hr.
        -- rewrite lookup_delete_eq in Hr. right. split_and!; [done|left|done].
        -- rewrite lookup_insert_eq in Hr. destruct Hr as [(e2 & He2 & Hk2 & Hio2)|(_ & Hin & _)]; [|done]. left. exists e2.
           split_and!; [done|by eapply keeps_trans|unfold same_eio in *; congruence].
      * assert (pc_tree s1 !! q = pc_tree s !! q) as Heq by (destruct Hs1 as [[-> _]|(e' & -> & _)]; [by rewrite lookup_delete_ne|by rewrite lookup_insert_ne]).
        rewrite Heq in Hr. destruct (pc_tree s !! q) as [e0|]; [|done]. destruct Hr as [Hr|(Hn & Hin & Hh)]; [by left|right]. rewrite hadd_ne in Hh by done.
        split_and!; [done|by right|done].
Qed.
Lemma released_frame h l (P : Z → Prop) m m' : released h l m m' → (∀ p, P p → h p ≠ 1 ∨ p ∉ l) → mframe (λ _, False) P m m'.
Proof.
  intros Hr HP. split.
  - intros p e' He'. left. specialize (Hr p). destruct (m !! p) as [e|]; [|congruence]. destruct Hr as [(e1 & He1 & Hk & Hio)|(Hn & _)]; [|congruence].
    rewrite He' in He1. injection He1 as <-. exists e. split; [done|by apply pkeep_keeps].
  - intros p e Hp He. specialize (Hr p). rewrite He in Hr. destruct Hr as [(e1 & He1 & _)|(_ & Hin & Hh)]; [by exists e1|]. destruct (HP p Hp); done.
Qed.

(** ** The invariant without a request *)
Section del.
Context (id : nat).

Lemma ownv_del m rqs R R' T :
  ownv m rqs R T → (∀ rid v, R' !! rid = Some v → R !! rid = Some v) → (∀ l, T !! id ≠ Some (PFlush l) ∧ T !! id ≠ Some (PLaunch l)) →
  ownv m (delete id rqs) R' (delete id T).
Proof.
  intros [O1 O2 O3 O4 O5 O6] HR Ht.
  assert (∀ past o p, own R' (delete id T) past o p → own R T past o p) as Hown.
  { intros past [j|rid] p; simpl.
    - destruct (decide (j = id)) as [->|]; [rewrite lookup_delete_eq; intros (l & [?|[_ ?]] & _); done|by rewrite lookup_delete_ne].
    - intros (v & Hv & ?). exists v. auto. }
  split; try done.
  - intros j r [Hj Hr]%lookup_delete_Some. rewrite lookup_delete_ne by done. by apply O2.
  - intros rid v Hv. destruct (O3 rid v (HR rid v Hv)) as (Ha & Hb & Hc). split_and!; [done| |done]. intros r [_ Hr]%lookup_delete_Some. by apply Hb.
  - intros o o' p Ho Ho'. eapply O4; by apply Hown.
  - intros j r p e [Hj Hr]%lookup_delete_Some. rewrite lookup_delete_ne by done. by apply O5.
  - intros o p j r Ho [Hj Hr]%lookup_delete_Some. eapply O6; [by apply Hown|done].
Qed.
Lemma dirty_del rqs T x : dirty (delete id rqs) (delete id T) x → dirty rqs T x.
Proof. intros (j & r & [Hj Hr]%lookup_delete_Some & Hw & Hx). rewrite lookup_delete_ne in Hx by done. by exists j, r. Qed.
Lemma dirty_del_inv rqs T r x : rqs !! id = Some r → dirty rqs T x →
  dirty (delete id rqs) (delete id T) x ∨ (rfl r BIORQ_WRITE = true ∧ biorq_off r ≤ x < copied_end r (T !! id)).
Proof.
  intros Hr (j & q & Hq & Hw & Hx). destruct (decide (j = id)) as [->|]; [rewrite Hr in Hq; injection Hq as <-; by right|]. left. exists j, q.
  rewrite !lookup_delete_ne by done. done.
Qed.
Lemma dat_del m rqs R R' T G srv K A r :
  dat m rqs R T G srv K A → rqs !! id = Some r → (∀ rid v, R' !! rid = Some v → R !! rid = Some v) →
  (∀ x, rfl r BIORQ_WRITE = true → biorq_off r ≤ x < copied_end r (T !! id) → srv x = A x) →
  dat m (delete id rqs) R' (delete id T) G srv K A.
Proof.
  intros [D1 D2 D3 D4 D5] Hr HR Hs. split; try done.
  - intros x Hx. destruct (D3 x Hx) as [|Hd]; [by left|]. destruct (dirty_del_inv rqs T r x Hr Hd) as [|[Hw Hx']]; [by right|left; by apply Hs].
  - intros rid v d p x Hv. eapply D4. by apply HR.
Qed.

(** What is left of the bmap. *)
Definition b_without (b : bmapc) (r : biorq) : bmapc :=
  let n := b_nwr b - one (rfl r BIORQ_FLUSHRDY) in
  let off := rfl r BIORQ_FLUSHRDY && (n =? 0) in
  {| b_rqs := delete id (b_rqs b); b_new := filter (λ x, x ≠ id) (b_new b); b_exp := filter (λ x, x ≠ id) (b_exp b); b_pndg := filter (λ x, x ≠ id) (b_pndg b); b_nwr := n;
     b_flags := if off then clrf (b_flags b) BMAPF_FLUSHQ else b_flags b; b_error := b_error b; b_flushrc := b_flushrc b; b_ios := b_ios b;
     b_onq := if off then false else b_onq b |}.
End del.

Lemma cnt_filter_one (f : nat → bool) (l : list nat) x : NoDup l → x ∈ l → cnt f (filter (λ y, y ≠ x) l) = cnt f l - one (f x).
Proof.
  induction l as [|a l IH]; intros Hnd Hx; [by apply elem_of_nil in Hx|]. apply NoDup_cons in Hnd as [Ha Hnd]. rewrite filter_cons. destruct (decide (a ≠ x)) as [Hax|Hax].
  - apply elem_of_cons in Hx as [->|Hx]; [done|]. simpl. rewrite IH by done. lia.
  - assert (a = x) as -> by (by destruct (decide (a = x))). rewrite filter_ne_out by done. simpl. unfold one. lia.
Qed.

Lemma off_sorted_filter m (P : nat → Prop) `{∀ x, Decision (P x)} (l : list nat) : off_sorted m l → off_sorted m (filter P l).
Proof.
  unfold off_sorted. induction 1 as [|x l Hs IH Hall]; [constructor|]. rewrite filter_cons. destruct (decide (P x)); [|done]. constructor; [done|].
  rewrite Forall_forall in *. intros y [_ Hy]%list_elem_of_filter. by apply Hall.
Qed.
Lemma off_sorted_delete m id (l : list nat) : off_sorted m (filter (λ x, x ≠ id) l) → off_sorted (delete id m) (filter (λ x, x ≠ id) l).
Proof.
  assert (∀ j, j ∈ filter (λ x, x ≠ id) l → off_at (delete id m) j = off_at m j) as Ho by (intros j [_ Hj]%filter_ne; unfold off_at; by rewrite lookup_delete_ne).
  revert Ho. generalize (filter (λ x, x ≠ id) l). intros k Ho. unfold off_sorted. induction 1 as [|a k ? IH Hall]; constructor.
  - apply IH. intros j Hj. apply Ho. by right.
  - rewrite Forall_forall in *. intros j Hj. rewrite !Ho; [by apply Hall|by right|left].
Qed.

Section without.
Context {pc : pcache} {b : bmapc} {R : gmap nat rrpc} {T : gmap nat Cio.pc} {G : list grp} {D : list nat} (I : rqinv pc b R T G D).
Context (id : nat) (r : biorq) (Hr : b_rqs b !! id = Some r).

Lemma holds_without p : holds (b_without id b r) p = holds b p - one (bool_decide (p ∈ biorq_pages r)).
Proof.
  destruct I as [V1 V2 V3 V4 V5 V6 V7 V8 V9 V10 V11 V12 V13 V14 V15 V16 V17 V18 V19 V20].
  unfold holds. simpl. rewrite (cnt_ext _ (λ j, match b_rqs b !! j with Some q => bool_decide (p ∈ biorq_pages q) | None => false end)).
  - rewrite cnt_filter_one; [by rewrite Hr|done|apply V3; by exists r].
  - intros j [_ Hj]%filter_ne. by rewrite lookup_delete_ne.
Qed.
Lemma held_without p : held (delete id (b_rqs b)) p → 0 < holds (b_without id b r) p.
Proof.
  destruct I as [V1 V2 V3 V4 V5 V6 V7 V8 V9 V10 V11 V12 V13 V14 V15 V16 V17 V18 V19 V20].
  intros (j & q & [Hj Hq]%lookup_delete_Some & Hp). unfold holds. simpl. eapply (cnt_pos _ _ j); [|rewrite lookup_delete_ne, Hq by done; by apply bool_decide_true].
  apply filter_ne. split; [|done]. apply V3. by exists q.
Qed.

Lemma rqinv_del pc' R' D' :
  pcinv pc' (holds (b_without id b r)) →
  (∀ p e', pc_tree pc' !! p = Some e' → ∃ e, pc_tree pc !! p = Some e ∧ pfl e' BMPCEF_PINNED = pfl e BMPCEF_PINNED) →
  (∀ rid v, R' !! rid = Some v → R !! rid = Some v ∧ rr_rq v ≠ id) → (∀ j, j ≠ id → nrpc R' j = nrpc R j) →
  D ≡ₚ (if rfl r BIORQ_FLUSHRDY && negb (rfl r BIORQ_ONTREE) then id :: D' else D') → rqinv pc' (b_without id b r) R' (delete id T) G D'.
Proof.
  intros I' Hpin HR Hn HD. pose proof (V3 := rv_dom _ _ _ _ _ _ I).
  assert (id ∈ b_pndg b) as Hin by (apply (rv_dom _ _ _ _ _ _ I); by exists r).
  assert (id ∉ g_ids G) as Hg.
  { intros Hi. destruct (proj1 (rv_flight _ _ _ _ _ _ I id)) as (q & Hq & Hf & Ht); [apply elem_of_app; by left|]. rewrite Hr in Hq. injection Hq as <-.
    pose proof (rv_gids _ _ _ _ _ _ I) as Hnd. rewrite HD, Hf, Ht in Hnd. apply NoDup_app in Hnd as (_ & Hnd & _). by apply (Hnd id Hi); left. }
  assert (∀ g j, g ∈ G → j ∈ bwc_biorqs (g_bwc g) → j ≠ id) as Hgid.
  { intros g j Hgin Hj ->. destruct (go_rq _ _ (rv_g _ _ _ _ _ _ I g Hgin) id Hj) as (q & Hq & Hf & _). rewrite Hr in Hq. injection Hq as <-. apply Hg.
    unfold g_ids. apply list_elem_of_In, in_concat. exists (bwc_biorqs (g_bwc g)). split; apply list_elem_of_In; [apply (list_elem_of_fmap_2 (λ g, bwc_biorqs (g_bwc g))); done|done]. }
  assert (b_nwr b - one (rfl r BIORQ_FLUSHRDY) = cnt (is_rdy (b_without id b r)) (filter (λ x, x ≠ id) (b_pndg b))) as Hnw.
  { rewrite (rv_nwr _ _ _ _ _ _ I). rewrite (cnt_ext (is_rdy (b_without id b r)) (is_rdy b)).
    - rewrite cnt_filter_one; [|apply I|done]. unfold is_rdy at 3. by rewrite Hr.
    - intros j [_ Hj]%filter_ne. unfold is_rdy. simpl. by rewrite lookup_delete_ne. }
  assert (0 ≤ b_nwr b - one (rfl r BIORQ_FLUSHRDY)) as Hn0 by (rewrite Hnw; apply cnt_nonneg).
  destruct I as [V1 V2 _ V4 V5 V6 V7 V8 V9 V10 V11 V12 V13 V14 V15 V16 V17 V18 V19 V20].
  split; try done; cbn [b_without b_rqs b_new b_exp b_pndg b_nwr b_flags b_error b_onq].
  - by apply NoDup_filter.
  - intros j. rewrite filter_ne, V3. destruct (decide (j = id)) as [->|]; [rewrite lookup_delete_eq; split; [tauto|by intros [? ?]]|]. rewrite lookup_delete_ne by done. tauto.
  - intros j q [Hj Hq]%lookup_delete_Some. rewrite lookup_delete_ne by done. eapply rq_inv_R; [by apply Hn|by apply V4].
  - intros j Hj. destruct (decide (j = id)) as [->|]; [rewrite lookup_delete_eq in Hj; by destruct Hj|]. rewrite lookup_delete_ne in Hj by done. rewrite lookup_delete_ne by done. by apply V5.
  - intros rid v Hv. destruct (HR rid v Hv) as [Hv' Hne]. destruct (V6 rid v Hv') as (q & Hq & ?). exists q. by rewrite lookup_delete_ne.
  - by apply NoDup_filter.
  - intros j. rewrite filter_ne, V8. destruct (decide (j = id)) as [->|]; [rewrite lookup_delete_eq; split; [tauto|intros (q & Hq & ?); congruence]|rewrite lookup_delete_ne by done; tauto].
  - apply off_sorted_delete. by apply off_sorted_filter.
  - by rewrite V10.
  - intros g Hgin. destruct (V11 g Hgin) as [G1 G2 G3 G4 G5]. split; try done.
    + intros j Hj. destruct (G1 j Hj) as (q & Hq & ?). exists q. rewrite lookup_delete_ne; [done|]. intros <-. by eapply Hgid.
    + intros x Hx. destruct (G2 x Hx) as (j & q & Hj & Hq & ?). exists j, q. rewrite lookup_delete_ne; [done|]. intros <-. by eapply Hgid.
  - rewrite HD in V12. destruct (rfl r BIORQ_FLUSHRDY && negb (rfl r BIORQ_ONTREE)); [|done]. apply NoDup_app in V12 as (? & Hx & Hy). apply NoDup_cons in Hy as [_ Hy]. apply NoDup_app. split_and!; [done| |done].
    intros j Hj Hj'. apply (Hx j Hj). by right.
  - intros j. specialize (V13 j). rewrite HD in V13, V12. destruct (decide (j = id)) as [->|Hj].
    + rewrite lookup_delete_eq. split; [|intros (q & ? & _); done]. intros Hin'. exfalso. destruct (rfl r BIORQ_FLUSHRDY && negb (rfl r BIORQ_ONTREE)) eqn:Hf.
      * apply NoDup_app in V12 as (_ & _ & Hy). apply NoDup_cons in Hy as [Hy _]. by apply elem_of_app in Hin' as [Hi|Hi].
      * destruct (proj1 V13 Hin') as (q & Hq & Hf1 & Hf2). rewrite Hr in Hq. injection Hq as <-. by rewrite Hf1, Hf2 in Hf.
    + rewrite lookup_delete_ne by done. rewrite <-V13. rewrite !elem_of_app. destruct (rfl r BIORQ_FLUSHRDY && negb (rfl r BIORQ_ONTREE)); [rewrite elem_of_cons; tauto|done].
  - intros p e' He'. destruct (Hpin p e' He') as (e & He & ->). by apply V15.
  - destruct (rfl r BIORQ_FLUSHRDY) eqn:Hf; simpl in *; [|by rewrite Z.sub_0_r].
    destruct (Z.eqb_spec (b_nwr b - 1) 0) as [Hz|Hz]; [flags_goal; lia|]. rewrite V17. lia.
  - destruct (rfl r BIORQ_FLUSHRDY && (b_nwr b - one (rfl r BIORQ_FLUSHRDY) =? 0)); [by flags_goal|done].
  - destruct (rfl r BIORQ_FLUSHRDY && (b_nwr b - one (rfl r BIORQ_FLUSHRDY) =? 0)); [flags_goal; done|done].
  - destruct (rfl r BIORQ_FLUSHRDY && (b_nwr b - one (rfl r BIORQ_FLUSHRDY) =? 0)); [flags_goal; done|done].
Qed.
End without.

Section last.
Context `{PflNetLaws}.

Lemma core_del tidy pc pc' b R R' T G D D' srv A id r :
  core tidy pc b R T G D srv A → b_rqs b !! id = Some r → (∀ l, T !! id ≠ Some (PFlush l) ∧ T !! id ≠ Some (PLaunch l)) →
  pcinv pc' (λ q, holds b q - one (bool_decide (q ∈ biorq_pages r))) → released (holds b) (biorq_pages r) (pc_tree pc) (pc_tree pc') →
  (∀ rid v, R' !! rid = Some v → R !! rid = Some v ∧ rr_rq v ≠ id) → (∀ j, j ≠ id → nrpc R' j = nrpc R j) →
  D ≡ₚ (if rfl r BIORQ_FLUSHRDY && negb (rfl r BIORQ_ONTREE) then id :: D' else D') →
  (b_flushrc b = 0 → ∀ x, rfl r BIORQ_WRITE = true → biorq_off r ≤ x < copied_end r (T !! id) → srv x = A x) →
  core tidy pc' (b_without id b r) R' (delete id T) G D' srv A.
Proof.
  intros (I & O & K & HK & HD) Hr Ht I' Hrel HR Hn HDp Hs.
  assert (mframe (λ _, False) (held (delete id (b_rqs b))) (pc_tree pc) (pc_tree pc')) as F.
  { eapply released_frame; [done|]. intros p Hp. apply (held_without I id r) in Hp. rewrite (holds_without I id r Hr) in Hp.
    destruct (bool_decide_reflect (p ∈ biorq_pages r)); [left; simpl in Hp; lia|by right]. }
  assert (rqinv pc' (b_without id b r) R' (delete id T) G D') as I2.
  { eapply (rqinv_del I id r Hr); try done.
    - eapply pcinv_ext; [|exact I']. intros q. simpl. apply (holds_without I id r Hr).
    - intros p e' He'. specialize (Hrel p). destruct (pc_tree pc !! p) as [e|]; [|congruence]. destruct Hrel as [(e1 & He1 & [] & _)|(Hno & _)]; [|congruence].
      rewrite He' in He1. injection He1 as <-. by exists e. }
  assert (∀ x, dirty (delete id (b_rqs b)) (delete id T) x → held (delete id (b_rqs b)) (page_align x)) as Hdh by (intros x; by apply (dirty_held _ _ _ _ _ _ x I2)).
  split; [done|]. split; [|exists (kpres (pc_tree pc') K); split].
  - eapply ownv_frame; [|intros rid v Hv; destruct (rv_rd _ _ _ _ _ _ I2 rid v Hv) as (q & Hq & _); by exists q|exact F|tauto].
    simpl. eapply ownv_del; [done|intros rid v Hv; by apply HR|done].
  - eapply kinv_frame; [|apply O|exact F|done]. simpl. eapply kinv_dirty; [done|]. intros x. apply dirty_del.
  - intros Hf. eapply dat_frame; [|exact F|apply HK|done]. simpl. eapply dat_del; [by apply HD|done|intros rid v Hv; by apply HR|by apply Hs].
Qed.

Lemma wp_decref_last tidy s b R R' G D D' A id r0 r (Q : unit → cl → Prop) :
  core tidy (c_pc s) b R (c_thr s) G D (c_srv s) A → c_b s = b_set_rqs b (<[id := r]> (b_rqs b)) → b_rqs b !! id = Some r0 → rsame r0 r →
  biorq_ref r = 1 → rfl r BIORQ_DESTROY = false → (∀ l, c_thr s !! id ≠ Some (PFlush l) ∧ c_thr s !! id ≠ Some (PLaunch l)) →
  (∀ rid v, R' !! rid = Some v → R !! rid = Some v ∧ rr_rq v ≠ id) → (∀ j, j ≠ id → nrpc R' j = nrpc R j) →
  D ≡ₚ (if rfl r BIORQ_FLUSHRDY && negb (rfl r BIORQ_ONTREE) then id :: D' else D') →
  (b_flushrc b = 0 → ∀ x, rfl r BIORQ_WRITE = true → biorq_off r ≤ x < copied_end r (c_thr s !! id) → c_srv s x = A x) →
  (∀ pc', core tidy pc' (b_without id b r0) R' (delete id (c_thr s)) G D' (c_srv s) A → Q tt (c_set_b (c_set_pc s pc') (b_without id b r0))) →
  wp (biorq_decref id) Q s.
Proof.
  intros HC Hb Hr0 Hs Href Hde Ht HR Hn HD Hdat HQ. pose proof HC as (I & _). pose proof Hs as [S1 S2 S3 S4 S5 S6 S7 S8].
  assert (id ∈ b_pndg b) as Hin by (apply (rv_dom _ _ _ _ _ _ I); by exists r0).
  unfold biorq_decref. wp_step. eapply wp_getRq; [rewrite Hb; simpl; by rewrite lookup_insert_eq|]. wp_step. apply wp_assert; [lia|].
  unfold setRq, modB. wp_step. wp_step. rewrite Href. simpl (1 - 1 =? 0). cbn [Z.eqb]. unfold msl_biorq_destroy. wp_step. eapply wp_getRq; [simpl; by rewrite lookup_insert_eq|].
  wp_step. apply wp_assert; [done|]. wp_step. apply wp_assert; [simpl; by rewrite Hde|]. wp_step. unfold msl_biorq_del. wp_step. apply wp_lift.
  eapply wp_each_release; [simpl; apply I| | |].
  { simpl. rewrite S3. by eapply (rq_pages_nodup id r0), (rv_rq _ _ _ _ _ _ I). }
  { simpl. rewrite S3. intros p Hp. by apply (rq_pages_in id r0 p I Hr0). }
  intros pc' I' Hrel. simpl in I', Hrel. rewrite S3 in I', Hrel.
  assert (core tidy pc' (b_without id b r0) R' (delete id (c_thr s)) G D' (c_srv s) A) as HC'.
  { eapply core_del; try done; [by rewrite <-S7, <-S8|]. intros Hf x Hw Hx. apply Hdat; [done|congruence|]. rewrite S1.
    replace (copied_end r (c_thr s !! id)) with (copied_end r0 (c_thr s !! id)); [done|].
    unfold copied_end, biorq_voff_get. by rewrite S1, S2. }
  specialize (HQ pc' HC'). unfold getB. wp_step. wp_step. simpl. rewrite Hb. simpl. wp_step. apply wp_assert; [by apply bool_decide_true|]. wp_step. unfold modB. wp_step.
  wp_step. assert (hasf (setf (biorq_flags r) BIORQ_DESTROY) BIORQ_ONTREE = rfl r BIORQ_ONTREE) as -> by (by flags_goal).
  assert (rfl r BIORQ_ONTREE = true → id ∈ b_new b ∧ id ∈ b_exp b) as Hon.
  { intros Ho. assert (id ∈ b_new b) by (apply (rv_in_new _ _ _ _ _ _ I); exists r0; split; [done|congruence]). split; [done|]. by rewrite (rv_exp _ _ _ _ _ _ I). }
  assert (rfl r BIORQ_ONTREE = false → filter (λ x, x ≠ id) (b_new b) = b_new b ∧ filter (λ x, x ≠ id) (b_exp b) = b_exp b) as Hoff.
  { intros Ho. assert (id ∉ b_new b) by (intros (q & Hq & ?)%(rv_in_new _ _ _ _ _ _ I); congruence). split; apply filter_ne_out; [done|]. by rewrite (rv_exp _ _ _ _ _ _ I). }
  assert (hasf (setf (biorq_flags r) BIORQ_DESTROY) BIORQ_FLUSHRDY = rfl r BIORQ_FLUSHRDY) as -> by (by flags_goal).
  set (rqs2 := <[id := rq_ref r (1 - 1)]> (<[id := r]> (b_rqs b))).
  set (bx := {| b_rqs := rqs2; b_new := filter (λ x, x ≠ id) (b_new b); b_exp := filter (λ x, x ≠ id) (b_exp b); b_pndg := filter (λ x, x ≠ id) (b_pndg b);
                b_nwr := b_nwr b; b_flags := b_flags b; b_error := b_error b; b_flushrc := b_flushrc b; b_ios := b_ios b; b_onq := b_onq b |}).
  match goal with |- wp _ (λ _ s', wp ?m ?Q2 s') _ => assert (wp m Q2 (c_set_b (c_set_pc s pc') bx)) as Hrest end.
  { assert (b_nwr b = cnt (is_rdy b) (b_pndg b)) as Hnw by apply I. pose proof (rv_flushq _ _ _ _ _ _ I) as Hfq. pose proof (rv_onq _ _ _ _ _ _ I) as Hoq.
    unfold b_without in HQ. rewrite <-S7 in HQ. apply wp_when; intros Hf; rewrite Hf in HQ; simpl in HQ.
    - assert (0 < b_nwr b) as Hpos. { rewrite Hnw. eapply (cnt_pos _ _ id); [done|]. unfold is_rdy. rewrite Hr0. congruence. }
      assert (hasf (b_flags b) BMAPF_FLUSHQ = true) as Hq by (rewrite Hfq; lia).
      wp_step. wp_step. wp_step. apply wp_assert; [simpl; lia|]. wp_step. apply wp_assert; [done|]. wp_step. wp_step. wp_step. wp_step. simpl.
      apply wp_when; simpl; intros Hz; rewrite Hz in HQ.
      + wp_step. apply wp_assert; [simpl; congruence|]. wp_step. wp_step. simpl. unfold rqs2. rewrite !delete_insert_eq. exact HQ.
      + wp_step. simpl. unfold rqs2. rewrite !delete_insert_eq. exact HQ.
    - wp_step. simpl. unfold rqs2. rewrite !delete_insert_eq. rewrite Z.sub_0_r in HQ. exact HQ. }
  apply wp_when; intros Hot.
  - destruct (Hon Hot) as [Hon1 Hon2]. unfold rq_dequeue, getB, modB. wp_step. wp_step. wp_step. apply wp_assert; [by apply bool_decide_true|].
    wp_step. apply wp_assert; [by apply bool_decide_true|]. wp_step. exact Hrest.
  - destruct (Hoff Hot) as [Hoff1 Hoff2]. unfold bx in Hrest. rewrite Hoff1, Hoff2 in Hrest. exact Hrest.
Qed.
End last.
