(* ===== verification/CioReply.v ===== *)
(** * Replies to reads

    The release of a read: the last one to release it copies out the data and
    tells the file system, and the request is destroyed. *)
From S2P Require Import Prelude BmapMds ReplReq ReplWalk Lease Slvr SlvrIO Pgcache PgcacheInv Coalesce CoalesceProps Cio CioInv CioFrame CioTop CioStart CioValid CioRead CioLoad CioEnd.

(** ** What a read is told *)

(** A page that is valid for a request has the bytes that were written. *)
Lemma pv_byte tidy pc b R T G D srv A r x :
  core tidy pc b R T G D srv A → tidy = true → b_flushrc b = 0 → biorq_off r ≤ x < biorq_voff_get r → pv (pc_tree pc) r (page_align x) → page_byte (pc_tree pc) x = A x.
Proof.
  intros (I & O & K & HK & HD) Ht Hf Hx (e & He & Hv). apply (da_page _ _ _ _ _ _ _ _ (HD Hf)). pose proof (page_align_bound x).
  destruct Hv as [Hr|[H1 H2]]; [by eapply (kv_rdy _ _ _ _ _ HK)|]. eapply (kv_region _ _ _ _ _ HK Ht); [done|]. lia.
Qed.

(** The reply to a read of request [r]. *)
Definition told (tidy : bool) (fsz flushrc : Z) (A : data) (r : biorq) (err len : Z) (d : data) : Prop :=
  (err ≠ 0 ∧ len = 0) ∨
  (err = 0 ∧ len = read_len fsz r ∧ (tidy = true → flushrc = 0 → ∀ k, 0 ≤ k < len → d k = A (biorq_off r + k))).
(** [s'] tells the file system of at most one request more than [s]. *)
Definition tells (tidy : bool) (A : data) (s s' : cl) : Prop :=
  c_out s' = c_out s ∨
  ∃ id r x, c_out s' = c_out s ++ [(id, x)] ∧ b_rqs (c_b s) !! id = Some r ∧
    match x with
    | ReplyRead err len d => rfl r BIORQ_WRITE = false ∧ told tidy (c_fsz s) (b_flushrc (c_b s)) A r err len d
    | ReplyWrite len err => rfl r BIORQ_WRITE = true ∧ (err ≠ 0 ∨ (err = 0 ∧ len = biorq_len r))
    end.

Definition accessed (_ : Z) (e : bmpce) : bmpce := pce_flags e (setf (bmpce_flags e) BMPCEF_ACCESSED).

Lemma rsame_fsrq r0 r q : rsame r0 r → rsame r0 (rq_fsrq r q).
Proof. intros []. by split. Qed.

Section reply.
Context `{PflNetLaws}.

Lemma wp_accessed tidy s b R T G D srv A id r (Q : unit → cl → Prop) :
  core tidy (c_pc s) b R T G D srv A → b_rqs b !! id = Some r →
  (∀ pc', core tidy pc' b R T G D srv A → Q tt (c_set_pc s pc')) →
  wp (liftPc (each_page (λ p, modPg p (λ e, pce_flags e (setf (bmpce_flags e) BMPCEF_ACCESSED))) (biorq_pages r))) Q s.
Proof.
  intros HC Hr HQ. pose proof HC as (I & _). apply wp_lift. eapply (wp_each_mod accessed); [apply I|by eapply (rq_pages_nodup id r), (rv_rq _ _ _ _ _ _ I)| | |].
  - intros p Hp. by apply (rq_pages_in id r p I Hr).
  - intros p e. unfold pc_same, accessed. simpl. split_and!; try done; by flags_goal.
  - intros pc' I' Hm. apply HQ. eapply (core_mod (λ _, False)); [exact HC|done|exact Hm| |tauto]. intros p e _ _. unfold accessed. simpl.
    split; [|by flags_goal]. split; simpl; try done; try (by flags_goal). left. by flags_goal.
Qed.

(** [_msl_complete_fsrq] when it is not the last. *)
Lemma wp_complete_more s id r q len d (Q : unit → cl → Prop) :
  b_rqs (c_b s) !! id = Some r → biorq_fsrqi r = Some q → mfsrq_ref q = 2 → mfsrq_len q = 0 → 0 ≤ len ≤ mfsrq_size q →
  Q tt (c_set_b s (b_set_rqs (c_b s) (<[id := rq_fsrq r (Some (fsrq_upd q (mfsrq_err q) 1 (if mfsrq_err q =? 0 then len else 0) (mfsrq_replied q) (mfsrq_copied q)))]> (b_rqs (c_b s))))) →
  wp (msl_complete_fsrq id len d) Q s.
Proof.
  intros Hr Hq Href Hlen Hl HQ. unfold msl_complete_fsrq. wp_step. eapply wp_getRq; [done|]. rewrite Hq, Href, Hlen. cbv zeta. simpl.
  wp_step. apply wp_assert; [destruct (mfsrq_err q =? 0); [simpl; lia|done]|]. wp_step. replace (0 + len) with len by lia. exact HQ.
Qed.
(** and when it is, for a read. *)
Lemma wp_complete_read_last tidy s b R G D A id r0 r q len d (Q : unit → cl → Prop) :
  core tidy (c_pc s) b R (c_thr s) G D (c_srv s) A → c_b s = b_set_rqs b (<[id := r]> (b_rqs b)) → b_rqs b !! id = Some r0 → rsame r0 r →
  rfl r BIORQ_READ = true → biorq_fsrqi r = Some q → mfsrq_ref q = 1 → mfsrq_len q = 0 → mfsrq_replied q = false → 0 ≤ len ≤ mfsrq_size q → (mfsrq_err q = 0 → mfsrq_copied q = true) →
  (∀ pc' q', core tidy pc' b R (c_thr s) G D (c_srv s) A →
    Q tt (c_set_out (c_set_b (c_set_pc s pc') (b_set_rqs b (<[id := rq_fsrq r q']> (b_rqs b))))
            (c_out s ++ [(id, if mfsrq_err q =? 0 then ReplyRead 0 len d else ReplyRead (Z.abs (mfsrq_err q)) 0 d)]))) →
  wp (msl_complete_fsrq id len d) Q s.
Proof.
  intros HC Hb Hr0 Hs Hrd Hq Href Hlen Hrep Hl Hcp HQ. unfold msl_complete_fsrq. wp_step. eapply wp_getRq; [rewrite Hb; simpl; by rewrite lookup_insert_eq|].
  rewrite Hq, Href, Hlen. cbv zeta. simpl. wp_step. apply wp_assert; [destruct (mfsrq_err q =? 0); [simpl; lia|done]|].
  rewrite Hrep. wp_step. wp_step. wp_step. apply wp_assert; [done|]. unfold setRq, modB. wp_step. wp_step. rewrite Hrd. replace (0 + len) with len by lia.
  set (q' := fsrq_upd q _ _ _ _ _).
  assert (b_set_rqs (c_b s) (<[id := rq_fsrq r (Some q')]> (b_rqs (c_b s))) = b_set_rqs b (<[id := rq_fsrq r (Some q')]> (b_rqs b))) as Hbb.
  { rewrite Hb. simpl. by rewrite insert_insert_eq. }
  rewrite Hbb. destruct (mfsrq_err q =? 0) eqn:Herr; simpl.
  - destruct (Z.eqb_spec len 0) as [->|Hl0].
    + unfold tellFs. wp_step. specialize (HQ (c_pc s) (Some q') HC). by destruct s.
    + wp_step. apply wp_assert; [apply Hcp; by apply Z.eqb_eq|]. wp_step. rewrite (rs_pages _ _ Hs). eapply (wp_accessed tidy _ b _ _ G D _ _ id r0); [exact HC|done|].
      intros pc' HC'. unfold tellFs. wp_step. exact (HQ pc' (Some q') HC').
  - unfold tellFs. wp_step. specialize (HQ (c_pc s) (Some q') HC). by destruct s.
Qed.

(** The last release of a read. *)
Lemma wp_release_last tidy s b R R' G D A id r0 r (Q : unit → cl → Prop) :
  core tidy (c_pc s) b R (c_thr s) G D (c_srv s) A → c_b s = b_set_rqs b (<[id := r]> (b_rqs b)) → b_rqs b !! id = Some r0 → rsame r0 r →
  biorq_ref r = 1 → biorq_flags r = biorq_flags r0 → rfl r0 BIORQ_WRITE = false → todo (c_thr s !! id) = [] →
  (∀ l, c_thr s !! id ≠ Some (PFlush l) ∧ c_thr s !! id ≠ Some (PLaunch l)) →
  (if rfl r0 BIORQ_READAHEAD then biorq_fsrqi r = None
   else ∃ q, biorq_fsrqi r = Some q ∧ mfsrq_size q = biorq_len r ∧ mfsrq_ref q = 1 ∧ mfsrq_len q = 0 ∧ mfsrq_replied q = false ∧
          (mfsrq_err q = 0 → ∀ p, p ∈ biorq_pages r → pv (pc_tree (c_pc s)) r p)) →
  (∀ rid v, R' !! rid = Some v → R !! rid = Some v ∧ rr_rq v ≠ id) → (∀ j, j ≠ id → nrpc R' j = nrpc R j) →
  (∀ pc' out', core tidy pc' (b_without id b r0) R' (delete id (c_thr s)) G D (c_srv s) A →
    (out' = c_out s ∨ ∃ err len d, out' = c_out s ++ [(id, ReplyRead err len d)] ∧ told tidy (c_fsz s) (b_flushrc b) A r err len d) →
    Q tt (c_set_out (c_set_b (c_set_pc s pc') (b_without id b r0)) out')) →
  wp (release_read id) Q s.
Proof.
  intros HC Hb Hr0 Hs Href Hfl Hw Htd Ht Hfs HR Hn HQ. pose proof HC as (I & O & _). pose proof (rv_rq _ _ _ _ _ _ I id r0 Hr0) as [R1 R2 R3 R4 R5 R6 R7 R8 R9 R10 R11].
  assert (rfl r0 BIORQ_FLUSHRDY = false) as Hrdy by (rewrite R7, Hw; done).
  assert (rfl r0 BIORQ_ONTREE = false) as Htree by (destruct (rfl r0 BIORQ_ONTREE) eqn:E; [rewrite (R8 eq_refl) in Hrdy; done|done]).
  assert (∀ s1 r1 pc1 out1, core tidy pc1 b R (c_thr s) G D (c_srv s) A → rsame r0 r1 → biorq_ref r1 = 1 → biorq_flags r1 = biorq_flags r0 →
    (out1 = c_out s ∨ ∃ err len d, out1 = c_out s ++ [(id, ReplyRead err len d)] ∧ told tidy (c_fsz s) (b_flushrc b) A r err len d) →
    s1 = c_set_out (c_set_b (c_set_pc s pc1) (b_set_rqs b (<[id := r1]> (b_rqs b)))) out1 → wp (biorq_decref id) Q s1) as Hdec.
  { intros s1 r1 pc1 out1 HC1 Hs1 Href1 Hfl1 Hout ->. eapply (wp_decref_last tidy _ b R R' G D D A id r0 r1); simpl; try done; try (rewrite Hfl1; done).
    - rewrite Hfl1. by rewrite Hrdy.
    - intros _ x. rewrite Hfl1. congruence.
    - intros pc' HC'. by apply HQ. }
  unfold release_read. wp_step. eapply wp_getRq; [rewrite Hb; simpl; by rewrite lookup_insert_eq|]. wp_step. rewrite Href. simpl. unfold complete_read. wp_step.
  eapply wp_getRq; [rewrite Hb; simpl; by rewrite lookup_insert_eq|].
  destruct (rfl r0 BIORQ_READAHEAD) eqn:Hra.
  { rewrite Hfs. wp_step. eapply (Hdec _ r (c_pc s) (c_out s)); try done; [by left|]. rewrite <-Hb. by destruct s. }
  destruct Hfs as (q & Hq & Hsz & Hq1 & Hq2 & Hq3 & Hpv). rewrite Hq.
  assert (full_pages r (biorq_pages r)) as Hfull.
  { eapply full_same; [done|]. rewrite Htd, app_nil_r in R3. by rewrite (rs_pages _ _ Hs). }
  assert (rfl r BIORQ_READAHEAD = false) as Hra' by (by rewrite Hfl). assert (rfl r BIORQ_READ = true) as Hrd by (by rewrite Hfl, R1, Hw).
  pose proof Hfull as Hfull'. unfold full_pages in Hfull'. rewrite Hra' in Hfull'. destruct Hfull' as (F1 & F2 & F3 & F4).
  destruct (Z.eqb_spec (mfsrq_err q) 0) as [Herr|Herr]; cbn [negb].
  - wp_step. wp_step. wp_step. apply wp_lift. eapply wp_copyout; [done|done| |by apply Hpv| |].
    + intros p Hp. rewrite (rs_pages _ _ Hs) in Hp. destruct (rq_pages_in id r0 p I Hr0 Hp) as [[e He] _]. exists e. split; [done|]. by destruct (ov_page _ _ _ _ O p e He).
    + intros p e He. by destruct (pci_pg _ _ (rv_pc _ _ _ _ _ _ I) p e He).
    + intros iovs Hby. rewrite set_pc_id. wp_step. unfold setRq, modB. wp_step. set (q1 := fsrq_upd q _ _ _ _ _).
      eapply (wp_complete_read_last tidy _ b R G D A id r0 (rq_fsrq r (Some q1)) q1); simpl; try done.
      * rewrite Hb. simpl. by rewrite insert_insert_eq.
      * by apply rsame_fsrq.
      * rewrite Hsz. unfold read_len. lia.
      * intros pc' q' HC'. rewrite Herr. simpl. eapply (Hdec _ (rq_fsrq (rq_fsrq r (Some q1)) q') pc'); try done; [by do 2 apply rsame_fsrq|]. right. do 3 eexists. split; [done|]. right. split_and!; [done|done|].
        intros Ht' Hf' k Hk. rewrite Hby by done. eapply (pv_byte tidy (c_pc s) b R (c_thr s) G D (c_srv s) A r); try done.
        -- unfold biorq_voff_get. unfold read_len in Hk. lia.
        -- apply Hpv; [done|]. rewrite F4. apply page_offs_byte. unfold read_len in Hk. lia.
  - eapply (wp_complete_read_last tidy _ b R G D A id r0 r q); try done; [lia|].
    intros pc' q' HC'. apply Z.eqb_neq in Herr as Herr'. rewrite Herr'. eapply (Hdec _ (rq_fsrq r q') pc'); try done; [by apply rsame_fsrq|]. right. do 3 eexists. split; [done|]. left. split; [lia|done].
Qed.

Lemma wp_decref_more s id r (Q : unit → cl → Prop) :
  b_rqs (c_b s) !! id = Some r → 1 < biorq_ref r → Q tt (c_set_b s (b_set_rqs (c_b s) (<[id := rq_ref r (biorq_ref r - 1)]> (b_rqs (c_b s))))) → wp (biorq_decref id) Q s.
Proof.
  intros Hr Hn HQ. unfold biorq_decref. wp_step. eapply wp_getRq; [done|]. wp_step. apply wp_assert; [lia|]. unfold setRq, modB. wp_step. wp_step.
  destruct (Z.eqb_spec (biorq_ref r - 1) 0); [lia|]. wp_step. exact HQ.
Qed.
Lemma wp_release_more s id r (Q : unit → cl → Prop) :
  b_rqs (c_b s) !! id = Some r → 1 < biorq_ref r → Q tt (c_set_b s (b_set_rqs (c_b s) (<[id := rq_ref r (biorq_ref r - 1)]> (b_rqs (c_b s))))) → wp (release_read id) Q s.
Proof.
  intros Hr Hn HQ. unfold release_read. wp_step. eapply wp_getRq; [done|]. destruct (Z.eqb_spec (biorq_ref r) 1); [lia|]. simpl. wp_step. wp_step. by eapply wp_decref_more.
Qed.

(** The whole state without a request that is not in the tree. *)
Lemma pass_without b id r l : pass_ok b l → id ∉ l → pass_ok (b_without id b r) l.
Proof.
  intros Hp Hid. eapply pass_rq; [exact Hp| |].
  - intros j Hj. simpl. unfold off_at. rewrite lookup_delete_ne; [done|]. by intros <-.
  - intros j Hj Hn. simpl. apply filter_ne. split; [done|]. by intros ->.
Qed.
Lemma not_in_pass pc b R T G D id r l : rqinv pc b R T G D → b_rqs b !! id = Some r → rfl r BIORQ_ONTREE = false → pass_ok b l → id ∉ l.
Proof. intros I Hr Ht (_ & _ & Hn) Hj. apply Hn, (rv_in_new _ _ _ _ _ _ I) in Hj as (q & Hq & ?). congruence. Qed.
Lemma cinv_without tidy s s' A id r :
  cinv tidy s A → b_rqs (c_b s) !! id = Some r → rfl r BIORQ_ONTREE = false → c_b s' = b_without id (c_b s) r → c_fl s' = c_fl s → c_wr s' = c_wr s → c_next s' = c_next s →
  (∀ rid, is_Some (c_rd s' !! rid) → is_Some (c_rd s !! rid)) →
  core tidy (c_pc s') (b_without id (c_b s) r) (c_rd s') (c_thr s') (groups_of s) [] (c_srv s') A → cinv tidy s' A.
Proof.
  intros [(I & _) C2 [F1 F2 F3]] Hr Ht Hb Hfl Hwr Hnx Hrd HC. split.
  - rewrite Hb. unfold groups_of in *. rewrite Hfl, Hwr. exact HC.
  - rewrite Hb, Hfl. apply pass_without; [done|]. by eapply not_in_pass.
  - split; rewrite ?Hb, ?Hwr, ?Hnx; try done.
    + simpl. intros j Hj. apply F1. destruct (decide (j = id)) as [->|]; [by exists r|]. by rewrite lookup_delete_ne in Hj.
    + intros j Hj. apply F2. by apply Hrd.
Qed.
Lemma read_flags tidy s A id r : cinv tidy s A → b_rqs (c_b s) !! id = Some r → rfl r BIORQ_FLUSHRDY = false → rfl r BIORQ_ONTREE = false.
Proof.
  intros [(I & _) _ _] Hr Hf. destruct (rfl r BIORQ_ONTREE) eqn:E; [|done]. pose proof (ri_tree _ _ _ _ (rv_rq _ _ _ _ _ _ I id r Hr) E). congruence.
Qed.

(** The thread of a read leaves. *)
Lemma step_release_read tidy s A id r r1 :
  cinv tidy s A → b_rqs (c_b s) !! id = Some r → c_thr s !! id = Some PRel → rfl r BIORQ_WRITE = false → rsame r r1 → biorq_flags r1 = biorq_flags r → biorq_ref r1 = biorq_ref r →
  (if rfl r BIORQ_READAHEAD then biorq_fsrqi r1 = None
   else ∃ q, biorq_fsrqi r1 = Some q ∧ mfsrq_size q = biorq_len r1 ∧ mfsrq_ref q = 1 ∧ mfsrq_len q = 0 ∧ mfsrq_replied q = false ∧
          (mfsrq_err q = 0 → ∀ p, p ∈ biorq_pages r1 → pv (pc_tree (c_pc s)) r1 p)) →
  wp (_ ← release_read id; endThr id) (λ _ s', cinv tidy s' A ∧ tells tidy A s s') (c_set_b s (b_set_rqs (c_b s) (<[id := r1]> (b_rqs (c_b s))))).
Proof.
  intros C Hr Ht Hw Hs Hfl Href Hfs. pose proof (ci_core _ _ _ C) as HC. pose proof HC as (I & O & _). pose proof (rv_rq _ _ _ _ _ _ I id r Hr) as Hri. rewrite Ht in Hri.
  pose proof Hri as [R1 R2 R3 R4 R5 R6 R7 R8 R9 R10 R11]. rewrite Hw in R9. simpl in R9.
  assert (0 ≤ nrpc (c_rd s) id) as Hn0 by (unfold nrpc; lia).
  wp_step. destruct (decide (nrpc (c_rd s) id = 0)) as [Hn|Hn].
  - eapply (wp_release_last tidy _ (c_b s) (c_rd s) (c_rd s) (groups_of s) [] A id r r1); simpl; try done; try congruence; try lia.
    + by rewrite Ht.
    + by rewrite Ht.
    + intros rid v Hv. split; [done|]. intros Hq. assert (0 < nrpc (c_rd s) id); [|lia]. unfold nrpc.
      assert (filter (λ kv : nat * rrpc, rr_rq kv.2 = id) (c_rd s) !! rid = Some v) as Hf by (by apply map_lookup_filter_Some).
      assert (size (filter (λ kv : nat * rrpc, rr_rq kv.2 = id) (c_rd s)) ≠ 0%nat); [|lia]. intros Hz%map_size_empty_inv. rewrite Hz in Hf. by rewrite lookup_empty in Hf.
    + intros pc' out' HC' Hout. apply wp_modify. split.
      * eapply (cinv_without tidy s _ A id r C Hr); try done. eapply read_flags; [done|done|]. by rewrite R7, Hw.
      * destruct Hout as [Hout|(err & len & d & Hout & Htold)]; [by left|right]. exists id, r, (ReplyRead err len d). split_and!; [done|done|done|].
        destruct Htold as [|(-> & -> & Hd)]; [by left|right]. pose proof Hs as [S1 S2 _ _ _ _ _ _]. assert (read_len (c_fsz s) r1 = read_len (c_fsz s) r) as Hrl by (unfold read_len; by rewrite S1, S2).
        simpl. rewrite <-Hrl. split_and!; [done|done|]. rewrite <-S1. exact Hd.
  - eapply (wp_release_more _ id r1); [simpl; by rewrite lookup_insert_eq|lia|]. apply wp_modify. simpl. split; [|by left].
    pose proof (cinv_rq tidy s A id r (rq_ref r1 (biorq_ref r1 - 1)) None C Hr) as HX. rewrite insert_insert_eq. apply HX; clear HX; try done.
    + destruct Hs. by split.
    + assert (rsame r (rq_ref r1 (biorq_ref r1 - 1))) as Hs' by (destruct Hs; by split).
      split; simpl; rewrite ?Hfl; try done.
      * eapply full_same; [done|]. simpl in R3. rewrite app_nil_r in *. simpl. by rewrite (rs_pages _ _ Hs).
      * congruence.
      * intros Hra. rewrite Hra in Hfs. split; [done|done].
      * intros Hra. rewrite Hra in Hfs. destruct Hfs as (q & Hq & Hsz & ? & ? & ? & _). exists q. split_and!; try done. simpl. rewrite Hw. done.
      * by rewrite R7, Hw.
      * rewrite Hw. simpl. lia.
      * lia.
    + simpl. rewrite Hfl. intros _. destruct (rfl r BIORQ_READAHEAD); [by rewrite Hfs|]. destruct Hfs as (q & -> & _ & _ & _ & _ & Hpv). done.
    + by intros p e [_ ?].
    + intros past p. by apply own_not.
    + congruence.
Qed.

(** ** Writes *)
Lemma wp_complete_write_last tidy s b R G D A id r0 r q len d (Q : unit → cl → Prop) :
  core tidy (c_pc s) b R (c_thr s) G D (c_srv s) A → c_b s = b_set_rqs b (<[id := r]> (b_rqs b)) → b_rqs b !! id = Some r0 → rsame r0 r →
  rfl r BIORQ_READ = false → biorq_fsrqi r = Some q → mfsrq_ref q = 1 → mfsrq_len q = 0 → mfsrq_replied q = false → 0 ≤ len ≤ mfsrq_size q → (mfsrq_err q = 0 → mfsrq_copied q = true) →
  (∀ pc' q' fsz', core tidy pc' b R (c_thr s) G D (c_srv s) A → mfsrq_size q' = mfsrq_size q →
    Q tt (c_set_out (c_set_fsz (c_set_b (c_set_pc s pc') (b_set_rqs b (<[id := rq_fsrq r (Some q')]> (b_rqs b)))) fsz')
            (c_out s ++ [(id, ReplyWrite (if mfsrq_err q =? 0 then len else 0) (Z.abs (mfsrq_err q)))]))) →
  wp (msl_complete_fsrq id len d) Q s.
Proof.
  intros HC Hb Hr0 Hs Hrd Hq Href Hlen Hrep Hl Hcp HQ. unfold msl_complete_fsrq. wp_step. eapply wp_getRq; [rewrite Hb; simpl; by rewrite lookup_insert_eq|].
  rewrite Hq, Href, Hlen. cbv zeta. simpl. wp_step. apply wp_assert; [destruct (mfsrq_err q =? 0); [simpl; lia|done]|].
  rewrite Hrep. wp_step. wp_step. wp_step. apply wp_assert; [done|]. unfold setRq, modB. wp_step. wp_step. rewrite Hrd. replace (0 + len) with len by lia.
  set (q' := fsrq_upd q _ _ _ _ _).
  assert (b_set_rqs (c_b s) (<[id := rq_fsrq r (Some q')]> (b_rqs (c_b s))) = b_set_rqs b (<[id := rq_fsrq r (Some q')]> (b_rqs b))) as Hbb.
  { rewrite Hb. simpl. by rewrite insert_insert_eq. }
  rewrite Hbb. wp_step. apply wp_when; intros Herr; rewrite Herr in *.
  - wp_step. wp_step. wp_step. apply wp_assert; [apply Hcp; by apply Z.eqb_eq|]. rewrite (rs_pages _ _ Hs).
    destruct (biorq_off r + len >? _); (eapply (wp_accessed tidy _ b R (c_thr s) G D (c_srv s) A id r0); [exact HC|done|]); intros pc' HC'; unfold tellFs; wp_step.
    + exact (HQ pc' q' _ HC' eq_refl).
    + specialize (HQ pc' q' (c_fsz s) HC' eq_refl). by destruct s.
  - unfold tellFs. wp_step. specialize (HQ (c_pc s) q' (c_fsz s) HC eq_refl). by destruct s.
Qed.

Lemma step_release tidy s A id : cinv tidy s A → wpb (release_step id) (λ _ s', cinv tidy s' A ∧ tells tidy A s s') s.
Proof.
  intros C. pose proof (ci_core _ _ _ C) as HC. pose proof HC as (I & O & _). unfold release_step. wb_step. wb_step.
  destruct (c_thr s !! id) as [[| | | | | | | | |]|] eqn:Ht; try done. apply wpb_of.
  destruct (rv_thr _ _ _ _ _ _ I id ltac:(by eexists)) as [r Hr]. wp_step. eapply wp_getRq; [done|].
  pose proof (rv_rq _ _ _ _ _ _ I id r Hr) as Hri. rewrite Ht in Hri. pose proof Hri as [R1 R2 R3 R4 R5 R6 R7 R8 R9 R10 R11].
  pose proof (ov_thr _ _ _ _ O id r Hr) as Hth. pose proof (λ p e, ov_hot _ _ _ _ O id r p e Hr) as Hhot. rewrite Ht in Hth, Hhot. simpl in Hth.
  assert (b_set_rqs (c_b s) (<[id := r]> (b_rqs (c_b s))) = c_b s) as Hbid by (rewrite insert_id by done; by destruct (c_b s)).
  wp_step. apply wp_when; intros Hra; [apply negb_true_iff in Hra|apply negb_false_iff in Hra].
  2: { destruct (R5 Hra) as [Hw Hfs]. rewrite R1, Hw. simpl.
       pose proof (step_release_read tidy s A id r r C Hr Ht Hw (rsame_refl r) eq_refl eq_refl) as HX. rewrite Hra in HX. specialize (HX Hfs). rewrite Hbid in HX.
       by destruct s. }
  destruct (R6 Hra) as (q & Hq & Hsz & Hq1 & Hq2 & Hq3). simpl in Hq1, Hq2, Hq3.
  assert (0 < biorq_len r) as Hlen by (unfold full_pages in R3; rewrite Hra in R3; tauto).
  eapply (wp_complete_more _ id r q); try done; [lia|]. set (q1 := fsrq_upd q _ _ _ _ _). assert (mfsrq_len q1 = 0) as Hq1l by (simpl; by destruct (mfsrq_err q =? 0)).
  set (r1 := rq_fsrq r (Some q1)). assert (rsame r r1) as Hs by done. rewrite R1. destruct (rfl r BIORQ_WRITE) eqn:Hw; simpl.
  - rewrite Hq. destruct (Z.eqb_spec (mfsrq_err q) 0) as [Herr|Herr]; simpl.
    + apply wp_modify. split; [|by left]. simpl.
      apply (cinv_rq tidy s A id r r1 (Some (PCopy 0 (biorq_off r) (biorq_len r))) C Hr Hs).
      * pose proof (page_align_bound (biorq_off r)). split; simpl; rewrite ?Hw, ?Hra; try done.
        -- intros _. exists q1. by split_and!.
        -- split_and!; try done; lia.
      * done.
      * intros p e [Hw1 Hp] He. eapply Hhot; [|done]. split; [done|]. split; [done|]. by rewrite Hq.
      * intros past p. by apply own_not.
      * intros _. rewrite Ht. done.
    + wp_step. eapply (wp_complete_write_last tidy _ (c_b s) (c_rd s) (groups_of s) [] A id r r1 q1); simpl; try done.
      * rewrite Hsz. lia.
      * intros pc' q' fsz' HC' Hsz'. wp_step.
        assert (rfl r BIORQ_FLUSHRDY = false) as Hrdy by (by rewrite R7, andb_false_r).
        eapply (wp_decref_last tidy _ (c_b s) (c_rd s) (c_rd s) (groups_of s) [] [] A id r (rq_fsrq r1 (Some q'))); simpl; try done.
        -- by rewrite Ht.
        -- intros rid v Hv. split; [done|]. intros Hrq. destruct (rv_rd _ _ _ _ _ _ I rid v Hv) as (q0 & Hq0 & Hw0). rewrite Hrq, Hr in Hq0. injection Hq0 as <-. congruence.
        -- by rewrite Hrdy.
        -- intros _ x _. rewrite Ht. simpl. lia.
        -- intros pc2 HC2. apply wp_modify. split.
           ++ eapply (cinv_without tidy s _ A id r C Hr); try done. by apply (read_flags tidy s A id r).
           ++ right. exists id, r, (ReplyWrite 0 (Z.abs (mfsrq_err q))). apply Z.eqb_neq in Herr as Herr'. simpl. rewrite Herr'. split_and!; [done|done|done|left; lia].
  - eapply (step_release_read tidy s A id r r1 C Hr Ht Hw Hs); try done. rewrite Hra. exists q1. split_and!; try done.
    intros Herr p Hp. specialize (Hth eq_refl). rewrite Hq in Hth. by apply Hth.
Qed.

(** ** The end of a read RPC *)
Lemma nrpc_delete R rid v j : R !! rid = Some v → nrpc (delete rid R) j = nrpc R j - one (bool_decide (rr_rq v = j)).
Proof.
  intros Hv. rewrite <-(insert_id R rid v Hv) at 2. rewrite <-(insert_delete_eq R rid v). rewrite nrpc_insert by apply lookup_delete_eq. lia.
Qed.
Lemma tset_id {X} (T : gmap nat X) id : tset T id (T !! id) = T.
Proof. destruct (T !! id) as [x|] eqn:Ht; [exact (insert_id T id x Ht)|exact (delete_id T id Ht)]. Qed.
Lemma ownv_R m rqs R R' T : ownv m rqs R T → (∀ rid v, R' !! rid = Some v → R !! rid = Some v) → ownv m rqs R' T.
Proof.
  intros [O1 O2 O3 O4 O5 O6] HR. assert (∀ past o p, own R' T past o p → own R T past o p) as Hown.
  { intros past [j|rid] p; [done|]. intros (v & Hv & ?). exists v. auto. }
  split; try done.
  - intros rid v Hv. by apply (O3 rid v), HR.
  - intros o o' p Ho Ho'. eapply O4; by apply Hown.
  - intros o p j r Ho. eapply O6. by apply Hown.
Qed.
(** Other users of the request remain. *)
Lemma core_rpc_done tidy pc b R T G D srv A rid v r :
  core tidy pc b R T G D srv A → R !! rid = Some v → b_rqs b !! rr_rq v = Some r → 1 < biorq_ref r →
  core tidy pc (b_set_rqs b (<[rr_rq v := rq_ref r (biorq_ref r - 1)]> (b_rqs b))) (delete rid R) T G D srv A.
Proof.
  intros (I & O & K & HK & HD) Hv Hr Hn. pose proof (rv_rq _ _ _ _ _ _ I _ r Hr) as Hri. destruct (rv_rd _ _ _ _ _ _ I rid v Hv) as (r0 & Hr0 & Hw). rewrite Hr in Hr0. injection Hr0 as <-.
  set (id := rr_rq v) in *. set (r' := rq_ref r (biorq_ref r - 1)). assert (rsame r r') as Hs by done.
  assert (∀ rd w, delete rid R !! rd = Some w → R !! rd = Some w) as HR by (by intros rd w [_ ?]%lookup_delete_Some).
  assert (∀ x, dirty (<[id := r']> (b_rqs b)) T x ↔ dirty (b_rqs b) T x) as Hd.
  { intros x. rewrite <-(tset_id T id) at 1. by apply (dirty_rq _ _ id r r'). }
  split; [|split; [|exists K; split]].
  - rewrite <-(tset_id T id). eapply (rqinv_rpc _ _ R); try done.
    + destruct Hri as [R1 R2 R3 R4 R5 R6 R7 R8 R9 R10 R11]. split; try done; simpl; [|lia]. rewrite Hw in *. rewrite (nrpc_delete R rid v) by done. rewrite bool_decide_true by done. simpl. lia.
    + intros j Hj. rewrite (nrpc_delete R rid v) by done. rewrite bool_decide_false by done. simpl. lia.
    + intros rd w Hw'. right. exists rd, w. auto.
  - eapply ownv_R; [|done]. rewrite <-(tset_id T id) in O |- *. simpl. rewrite <-(tset_id T id). eapply (ownv_rq _ _ _ _ id r r'); rewrite ?tset_id in *; try done.
    + intros rd w Hw'. destruct (rv_rd _ _ _ _ _ _ I rd w Hw') as (q & Hq & _). by exists q.
    + pose proof (ov_thr _ _ _ _ O id r Hr) as Hth. destruct (T !! id) as [[]|]; done.
    + intros p e Hh. by eapply (ov_hot _ _ _ _ O id r).
  - simpl. eapply kinv_dirty; [done|]. intros x. by rewrite Hd.
  - intros Hf. simpl. destruct (dat_dirty _ _ (<[id := r']> (b_rqs b)) _ _ T _ _ _ _ (HD Hf)) as [D1 D2 D3 D4 D5]; [intros x; by rewrite Hd|]. split; try done.
    intros rd w d p x Hw'. eapply D4. by apply HR.
Qed.

Lemma step_read_cleanup tidy s A rid : cinv tidy s A → wpb (read_cleanup rid) (λ _ s', cinv tidy s' A ∧ tells tidy A s s') s.
Proof.
  intros C0. unfold read_cleanup. wb_step. wb_step. destruct (c_rd s !! rid) as [v|] eqn:Hv; [|done]. destruct (rr_done v) as [rc|] eqn:Hdn; [|done]. apply wpb_of.
  (* the lease *)
  assert (∀ s1, cinv tidy s1 A → c_out s1 = c_out s → c_fsz s1 = c_fsz s → b_flushrc (c_b s1) = b_flushrc (c_b s) → b_rqs (c_b s1) = b_rqs (c_b s) → c_rd s1 = c_rd s →
    wp (r ← getRq (rr_rq v);
        _ ← whenM (negb (rc =? 0) && negb (hasf (biorq_flags r) BIORQ_READAHEAD)) (mfsrq_seterr (rr_rq v) rc);
        _ ← modifyM (λ s, c_set_rd s (delete rid (c_rd s)));
        release_read (rr_rq v)) (λ _ s', cinv tidy s' A ∧ tells tidy A s s') s1) as Hgo.
  2: { wp_step. apply wp_when; intros Hk; [|by apply Hgo]. unfold modB. wp_step. apply Hgo; try done. apply cinv_b; [done| |done].
       split; simpl; try done; try (by flags_goal). flags_goal. intros ?. by left. }
  clear C0. intros s1 C Ho Hfz Hfr Hrq Hrd. rewrite <-Hrd in Hv. pose proof (ci_core _ _ _ C) as (I & O & _).
  destruct (rv_rd _ _ _ _ _ _ I rid v Hv) as (r & Hr & Hw). wp_step. eapply wp_getRq; [done|]. wp_step.
  (* the error *)
  assert (∀ s2 r2, cinv tidy s2 A → c_out s2 = c_out s → c_fsz s2 = c_fsz s → b_flushrc (c_b s2) = b_flushrc (c_b s) → b_rqs (c_b s2) !! rr_rq v = Some r2 → rsame r r2 → c_rd s2 = c_rd s →
    wp (_ ← modifyM (λ s, c_set_rd s (delete rid (c_rd s))); release_read (rr_rq v)) (λ _ s', cinv tidy s' A ∧ tells tidy A s s') s2) as Hgo.
  2: { apply wp_when; intros Hk; [|apply (Hgo s1 r); by try apply rsame_refl]. apply andb_true_iff in Hk as [Hrc Hra]. apply negb_true_iff in Hra, Hrc.
       unfold mfsrq_seterr. eapply wp_modRq; [done|]. set (r2 := rq_fsrq r _). pose proof (rv_rq _ _ _ _ _ _ I _ r Hr) as Hri. destruct Hri as [R1 R2 R3 R4 R5 R6 R7 R8 R9 R10 R11].
       destruct (R6 Hra) as (q & Hq & Hsz & Hqo). apply (Hgo _ r2); try done; [|simpl; by rewrite lookup_insert_eq].
       assert (∃ q', biorq_fsrqi r2 = Some q' ∧ mfsrq_size q' = mfsrq_size q ∧ mfsrq_ref q' = mfsrq_ref q ∧ mfsrq_len q' = mfsrq_len q ∧ mfsrq_replied q' = mfsrq_replied q ∧ mfsrq_err q' ≠ 0) as (q' & Hq' & E1 & E2 & E3 & E4 & E5).
       { unfold r2. simpl. rewrite Hq. rewrite Hrc. apply Z.eqb_neq in Hrc. destruct (Z.eqb_spec (mfsrq_err q) 0); simpl; eexists; split_and!; done. }
       assert (tset (c_thr s1) (rr_rq v) (c_thr s1 !! rr_rq v) = c_thr s1) as Htt by apply tset_id.
       pose proof (cinv_rq tidy s1 A (rr_rq v) r r2 (c_thr s1 !! rr_rq v) C Hr) as HX. rewrite Htt in HX.
       assert (cinv tidy (c_set_thr (c_set_b s1 (b_set_rqs (c_b s1) (<[rr_rq v:=r2]> (b_rqs (c_b s1))))) (c_thr s1)) A) as HY; [|by destruct s1].
       apply HX; try done.
       - split; try done; simpl; [intros Hra'; congruence|]. intros _. exists q'. split_and!; try done; [congruence|]. rewrite Hw in Hqo |- *. unfold fsrq_ok in *. rewrite E2, E3, E4.
         destruct (c_thr s1 !! rr_rq v) as [[]|]; simpl in *; try done; try congruence; try (destruct R11; congruence); split_and!; try done; by apply Hqo.
       - pose proof (ov_thr _ _ _ _ O _ r Hr) as Hth. destruct (c_thr s1 !! rr_rq v) as [[]|]; try done; simpl; intros _; unfold r2 in Hq'; simpl in Hq'; rewrite Hq'; done.
       - intros p e [Hw' _]. simpl in Hw'. congruence.
       }
  assert (b_rqs (c_b s) !! rr_rq v = Some r) as Hrs by (by rewrite <-Hrq). clear C I O Hr Hrq Ho Hfz Hfr. intros s2 r2 C Ho Hfz Hfr Hr2 Hs Hrd2. rewrite Hrd, <-Hrd2 in Hv.
  pose proof (ci_core _ _ _ C) as HC. pose proof HC as (I & O & _). pose proof (rv_rq _ _ _ _ _ _ I _ r2 Hr2) as Hri. pose proof Hri as [R1 R2 R3 R4 R5 R6 R7 R8 R9 R10 R11].
  assert (rfl r2 BIORQ_WRITE = false) as Hw2 by (by rewrite (rs_write _ _ Hs)). rewrite Hw2 in R9.
  pose proof (nrpc_delete (c_rd s2) rid v (rr_rq v) Hv) as Hnd. rewrite bool_decide_true in Hnd by done. simpl in Hnd. assert (0 ≤ nrpc (delete rid (c_rd s2)) (rr_rq v)) as Hn0 by (unfold nrpc; lia).
  wp_step. wp_step. destruct (decide (biorq_ref r2 = 1)) as [Hone|Hmore].
  - assert (c_thr s2 !! rr_rq v = None) as Ht by (destruct (c_thr s2 !! rr_rq v); [simpl in R9; lia|done]).
    assert (nrpc (delete rid (c_rd s2)) (rr_rq v) = 0) as Hz by (rewrite Ht in R9; simpl in R9; lia).
    assert (b_set_rqs (c_b s2) (<[rr_rq v := r2]> (b_rqs (c_b s2))) = c_b s2) as Hbid by (rewrite insert_id by done; by destruct (c_b s2)).
    eapply (wp_release_last tidy _ (c_b s2) (c_rd s2) (delete rid (c_rd s2)) (groups_of s2) [] A (rr_rq v) r2 r2); simpl; try done.
    + by rewrite Ht.
    + by rewrite Ht.
    + destruct (rfl r2 BIORQ_READAHEAD) eqn:Hra; [by apply R5|]. destruct (R6 eq_refl) as (q & Hq & Hsz & Hqo). exists q. rewrite Ht, Hw2 in Hqo. simpl in Hqo. destruct Hqo as (Hq1 & Hq2 & Hq3).
      split_and!; try done. pose proof (ov_thr _ _ _ _ O _ r2 Hr2) as Hth. rewrite Ht in Hth. simpl in Hth. specialize (Hth Hw2). by rewrite Hq in Hth.
    + intros rd w [Hne Hw']%lookup_delete_Some. split; [done|]. intros Hq. assert (0 < nrpc (delete rid (c_rd s2)) (rr_rq v)); [|lia]. unfold nrpc.
      assert (filter (λ kv : nat * rrpc, rr_rq kv.2 = rr_rq v) (delete rid (c_rd s2)) !! rd = Some w) as Hf by (apply map_lookup_filter_Some; split; [by rewrite lookup_delete_ne|done]).
      assert (size (filter (λ kv : nat * rrpc, rr_rq kv.2 = rr_rq v) (delete rid (c_rd s2))) ≠ 0%nat); [|lia]. intros Hz'%map_size_empty_inv. rewrite Hz' in Hf. by rewrite lookup_empty in Hf.
    + intros j Hj. rewrite (nrpc_delete _ _ v) by done. rewrite bool_decide_false by done. simpl. lia.
    + intros pc' out' HC' Hout. simpl in HC'. rewrite (delete_id (c_thr s2) _ Ht) in HC'. split.
      * eapply (cinv_without tidy s2 _ A (rr_rq v) r2 C Hr2); try done; [|intros rd [w Hw']; simpl in Hw'; apply lookup_delete_Some in Hw' as [_ ?]; by exists w].
        eapply read_flags; [done|done|]. by rewrite R7, Hw2.
      * destruct Hout as [Hout|(err & len & d & Hout & Htold)]; [left; simpl; by rewrite Hout|right]. exists (rr_rq v), r, (ReplyRead err len d). simpl. rewrite Hout, Ho. split_and!; try done.
        destruct Htold as [|(-> & -> & Hd)]; [by left|right]. pose proof Hs as [S1 S2 _ _ _ _ _ _]. rewrite Hfz, Hfr in Hd. rewrite Hfz.
        assert (read_len (c_fsz s) r2 = read_len (c_fsz s) r) as Hrl by (unfold read_len; by rewrite S1, S2). rewrite <-Hrl, <-S1. by split_and!.
  - eapply (wp_release_more _ _ r2); [done|lia|]. split; [|by left]. destruct C as [C1 C2 [F1 F2 F3]]. split; simpl.
    + apply (core_rpc_done tidy (c_pc s2) (c_b s2) (c_rd s2)); try done. lia.
    + eapply pass_rq; [exact C2| |done]. intros j _. simpl. by eapply (upd_off_at _ _ r2).
    + split; simpl; try done.
      * intros j Hj. apply F1. by apply (upd_some (b_rqs (c_b s2)) (rr_rq v) r2 (rq_ref r2 (biorq_ref r2 - 1)) Hr2) in Hj.
      * intros j [w [_ Hj]%lookup_delete_Some]. apply F2. by exists w.
Qed.
End reply.
