(* ===== verification/CioWrite.v ===== *)
(** * Writes into pages

    The steps of a write after its pages are there: data is copied in page by
    page, the file system is told, and the write is put into the tree. *)
From S2P Require Import Prelude BmapMds ReplReq ReplWalk Lease Slvr SlvrIO Pgcache PgcacheInv Coalesce CoalesceProps Cio CioInv CioFrame CioTop CioStart CioValid CioRead CioLoad CioEnd CioReply.

(** ** A page that gets data *)
Record pgrow (e e' : bmpce) : Prop := {
  gr_off : bmpce_off e' = bmpce_off e;
  gr_rc : bmpce_rc e' = bmpce_rc e;
  gr_rdy : pfl e BMPCEF_DATARDY = true → pfl e' BMPCEF_DATARDY = true;
  gr_fault : pfl e' BMPCEF_FAULTING = pfl e BMPCEF_FAULTING;
  gr_eio : pfl e' BMPCEF_EIO = pfl e BMPCEF_EIO;
  gr_pin : pfl e' BMPCEF_PINNED = pfl e BMPCEF_PINNED;
  gr_same : pc_same e e';
  gr_region : bmpce_len e ≠ 0 → bmpce_start e' ≤ bmpce_start e ∧ bmpce_start e + bmpce_len e ≤ bmpce_start e' + bmpce_len e';
}.

(** Part of the request is in each of its pages. *)
Definition meets (r : biorq) : Prop := ∀ q, q ∈ biorq_pages r → Z.max (biorq_off r) q < Z.min (biorq_voff_get r) (q + BMPC_BUFSZ).
Lemma full_meets r k : full_pages r (biorq_pages r ++ k) → rfl r BIORQ_READAHEAD = false → meets r.
Proof.
  intros Hf Hra q Hq. unfold full_pages in Hf. rewrite Hra in Hf. destruct Hf as (F1 & F2 & F3 & F4).
  assert (q ∈ biorq_page_offs (biorq_off r) (biorq_len r)) as Hq' by (rewrite <-F4; apply elem_of_app; by left).
  apply elem_of_page_offs in Hq' as (Ha & Hlo & Hhi); [|done]. pose proof (page_align_bound (biorq_off r)). unfold biorq_voff_get. rewrite bufsz_eq in *. lia.
Qed.

Section grow.
Context (m : gmap Z bmpce) (p : Z) (e e' : bmpce) (He : m !! p = Some e) (Hg : pgrow e e').
Abbreviation m' := (<[p := e']> m).
Lemma pv_grow r q : Z.max (biorq_off r) q < Z.min (biorq_voff_get r) (q + BMPC_BUFSZ) → pv m r q → pv m' r q.
Proof.
  intros Hlt (e0 & He0 & Hv). destruct (decide (q = p)) as [->|Hq]; [|exists e0; by rewrite lookup_insert_ne]. rewrite He in He0. injection He0 as <-.
  exists e'. rewrite lookup_insert_eq. split; [done|]. destruct Hv as [Hv|[H1 H2]]; [left; by apply Hg|right]. destruct (gr_region _ _ Hg); [lia|]. lia.
Qed.
Lemma waitable_grow r q : Z.max (biorq_off r) q < Z.min (biorq_voff_get r) (q + BMPC_BUFSZ) → waitable m r q → waitable m' r q.
Proof.
  intros Hlt [Hv|(e0 & He0 & Hw)]; [left; by apply pv_grow|right]. destruct (decide (q = p)) as [->|Hq]; [|exists e0; by rewrite lookup_insert_ne].
  rewrite He in He0. injection He0 as <-. exists e'. rewrite lookup_insert_eq, (gr_fault _ _ Hg), (gr_eio _ _ Hg). done.
Qed.
Lemma loading_grow q : pfl e BMPCEF_FAULTING = false → loading m q → loading m' q.
Proof. intros Hf (e0 & He0 & Hl). exists e0. rewrite lookup_insert_ne; [done|]. intros <-. rewrite He in He0. injection He0 as <-. destruct Hl. congruence. Qed.
Lemma thr_ok_grow r t : pfl e BMPCEF_FAULTING = false → (plain_read r → meets r) → (rfl r BIORQ_READAHEAD = true → biorq_fsrqi r = None) → thr_ok m r t → thr_ok m' r t.
Proof.
  intros Hf Hmt Hra.
  assert (∀ l : list Z, NoDup l ∧ (∀ q, q ∈ l → q ∈ biorq_pages r ∧ loading m q) ∧ (plain_read r → ∀ q, q ∈ biorq_pages r → waitable m r q) →
    NoDup l ∧ (∀ q, q ∈ l → q ∈ biorq_pages r ∧ loading m' q) ∧ (plain_read r → ∀ q, q ∈ biorq_pages r → waitable m' r q)) as Hl.
  { intros l (Ha & Hb & Hc). split_and!; [done|intros q Hq; destruct (Hb q Hq); split; [done|by apply loading_grow]|]. intros Hp q Hq. apply waitable_grow; auto. by apply Hmt. }
  assert ((rfl r BIORQ_WRITE = false → match biorq_fsrqi r with Some q => mfsrq_err q = 0 → ∀ p, p ∈ biorq_pages r → pv m r p | None => True end) →
    rfl r BIORQ_WRITE = false → match biorq_fsrqi r with Some q => mfsrq_err q = 0 → ∀ p, p ∈ biorq_pages r → pv m' r p | None => True end) as Hr.
  { intros Hx Hw. specialize (Hx Hw). destruct (biorq_fsrqi r) eqn:Hq; [|done]. intros Herr q Hqp. apply pv_grow; [|auto]. apply Hmt; [|done]. split; [done|].
    destruct (rfl r BIORQ_READAHEAD); [by specialize (Hra eq_refl)|done]. }
  destruct t as [[]|]; simpl; auto.
  intros Hx Hp. destruct (Hx Hp) as [Ha Hb]. split; intros q Hq.
  - apply pv_grow; [apply (Hmt Hp); by eapply elem_of_take_in|auto].
  - apply waitable_grow; [apply (Hmt Hp); by eapply elem_of_drop_in|auto].
Qed.
Lemma ownv_grow rqs R T : ownv m rqs R T → page_ok p e' → pfl e BMPCEF_FAULTING = false →
  (∀ j r, rqs !! j = Some r → (plain_read r → meets r) ∧ (rfl r BIORQ_READAHEAD = true → biorq_fsrqi r = None)) → ownv m' rqs R T.
Proof.
  intros [O1 O2 O3 O4 O5 O6] Hok Hf Hrq. split; try done.
  - intros q e0. destruct (decide (q = p)) as [->|]; [rewrite lookup_insert_eq; by intros [= <-]|rewrite lookup_insert_ne by done; apply O1].
  - intros j r Hr. destruct (Hrq j r Hr). apply thr_ok_grow; auto.
  - intros rid v Hv. destruct (O3 rid v Hv) as (Ha & Hb & Hc). split_and!; [done|done|]. intros Hd q Hq. apply loading_grow; auto.
  - intros j r q e0 Hr Hh. destruct (decide (q = p)) as [->|]; [rewrite lookup_insert_eq; intros [= <-]|rewrite lookup_insert_ne by done; by apply (O5 j r)].
    rewrite (gr_fault _ _ Hg). by eapply (O5 j r).
Qed.
End grow.

(** ** One page of the copy *)

(** The page after [n] bytes of [r] at [toff] were copied in. *)
Record copied_in (r : biorq) (p toff n : Z) (e e' : bmpce) : Prop := {
  cp_grow : pgrow e e';
  cp_ok : page_ok p e';
  cp_base : bmpce_base e' = overlay (bmpce_base e) (toff - p) n (λ j, biorq_buf r (toff - biorq_off r + j));
  cp_rdy : pfl e' BMPCEF_DATARDY = true → pfl e BMPCEF_DATARDY = true ∨ (toff = p ∧ n = BMPC_BUFSZ);
  cp_region :
    (bmpce_start e' = bmpce_start e ∧ bmpce_len e' = bmpce_len e) ∨
    (bmpce_start e' = toff ∧ bmpce_len e' = n) ∨
    (bmpce_len e ≠ 0 ∧ (toff ≠ p ∨ n ≠ BMPC_BUFSZ) ∧ bmpce_start e' = Z.min toff (bmpce_start e) ∧
     bmpce_start e' + bmpce_len e' = Z.max (toff + n) (bmpce_start e + bmpce_len e));
}.

Section copy.
Context `{PflNetLaws}.

Lemma wp_region_merge r p toff n e0 e s (Q : bmpce → pcache → Prop) :
  page_ok p e → p ≤ toff → 0 < n → toff + n ≤ p + BMPC_BUFSZ →
  e0 = pce_base e (overlay (bmpce_base e) (toff - p) n (λ j, biorq_buf r (toff - biorq_off r + j))) →
  (∀ e', copied_in r p toff n e e' → Q e' s) → wp (region_merge e0 toff n) Q s.
Proof.
  intros Hok Hlo Hn Hhi -> HQ. pose proof Hok as [E1 E2 E3 E4 E5 E6]. unfold region_merge. simpl. rewrite E1.
  assert (pc_same e (pce_base e (overlay (bmpce_base e) (toff - p) n (λ j, biorq_buf r (toff - biorq_off r + j))))) as Hsame by (unfold pc_same; by simpl).
  destruct ((toff =? p) && (n =? BMPC_BUFSZ)) eqn:Hfull.
  { apply andb_true_iff in Hfull as [->%Z.eqb_eq ->%Z.eqb_eq]. wp_step. apply HQ. split; simpl; try done; auto.
    - split; simpl; try done; try (flags_goal; done). unfold pc_same. simpl. split_and!; try done; by flags_goal.
    - split; simpl; try done. by flags_goal. }
  assert (toff ≠ p ∨ n ≠ BMPC_BUFSZ) as Hnf by (apply andb_false_iff in Hfull as [?%Z.eqb_neq|?%Z.eqb_neq]; auto).
  destruct (Z.eqb_spec (bmpce_len e) 0) as [Hl0|Hl0].
  { wp_step. apply HQ. split; simpl; auto; [split; simpl; try done|split; simpl; try done; lia]. }
  destruct (Z.geb_spec (toff + n) (bmpce_start e)), (Z.geb_spec (bmpce_start e + bmpce_len e) toff); simpl; [| | |lia].
  all: set (st := if toff <? bmpce_start e then toff else bmpce_start e); assert (st = Z.min toff (bmpce_start e)) as Hst by (unfold st; destruct (Z.ltb_spec toff (bmpce_start e)); lia).
  all: set (en := if toff + n >? bmpce_start e + bmpce_len e then toff + n else bmpce_start e + bmpce_len e); assert (en = Z.max (toff + n) (bmpce_start e + bmpce_len e)) as Hen by (unfold en; destruct (Z.gtb_spec (toff + n) (bmpce_start e + bmpce_len e)); lia).
  all: assert ((en - st) mod 2 ^ 16 = en - st) as Hmod by (apply Z.mod_small; rewrite bufsz_eq in *; change (2 ^ 16) with 65536; lia).
  all: rewrite Hmod; wp_step; apply wp_assert; [rewrite bufsz_eq in *; apply Z.leb_le; lia|]; wp_step; apply HQ.
  all: split; simpl; auto; [split; simpl; try done; lia|split; simpl; try done; rewrite ?bufsz_eq in *; lia|right; right; split_and!; try done; lia].
Qed.

Lemma wpb_copyin r i toff tsize p e s (Q : Z → pcache → Prop) :
  biorq_pages r !! i = Some p → p = page_nth (biorq_off r) i → p < biorq_voff_get r → at_page (biorq_off r) (biorq_voff_get r) i toff tsize → 0 < tsize →
  pc_tree s !! p = Some e → page_ok p e → 0 < bmpce_ref e →
  (∀ e', pfl e BMPCEF_PINNED = false → copied_in r p toff (Z.min (biorq_voff_get r) (p + BMPC_BUFSZ) - toff) e e' →
    Q (Z.min (biorq_voff_get r) (p + BMPC_BUFSZ) - toff) (pc_with_tree s (<[p := e']> (pc_tree s)))) → wpb (copyin_page r i toff tsize) Q s.
Proof.
  intros Hp Hpn Hlt Hat Hts He Hok Href HQ. unfold copyin_page. rewrite Hp. wb_step. apply wpb_of, wp_assert; [lia|]. wb_step. eapply wpb_of, wp_getPg; [done|]. wb_step. wb_step.
  apply negb_true_iff in H1. pose proof Hok as [E1 E2 E3 E4 E5 E6]. rewrite E1. pose proof (page_align_bound (biorq_off r)) as Hb. pose proof Hat as [Ht Hhi].
  assert (biorq_off r < biorq_voff_get r) as Hoff by lia.
  assert (page_span (i =? 0)%nat toff tsize p = Z.min (biorq_voff_get r) (p + BMPC_BUFSZ) - toff) as Hsp.
  { rewrite Hpn. apply page_span_at; [done|by rewrite <-Hpn|done]. }
  rewrite Hsp. set (n := _ - toff) in *. assert (p ≤ toff < p + BMPC_BUFSZ) as Htp.
  { destruct i as [|i]; [lia|]. rewrite bufsz_eq in *. lia. }
  apply wpb_of. wp_step. apply wp_assert; [lia|]. wp_step. apply wp_assert.
  { destruct ((i =? 0)%nat && (toff >? p)) eqn:Hin.
    - apply Z.eqb_eq. symmetry. by apply page_align_uniq.
    - apply Z.eqb_eq. destruct i as [|i]; cbn [Nat.eqb andb] in Hin; [destruct (Z.gtb_spec toff p); [done|lia]|]. rewrite bufsz_eq in *. lia. }
  wp_step. apply wp_assert; [apply orb_true_iff; right; lia|]. wp_step. eapply wp_region_merge; [exact Hok|lia|unfold n; lia|unfold n; lia|done|].
  intros e' Hc. unfold setPg. wp_step. wp_step. apply HQ; done.
Qed.

(** ** The effect on data *)

(** The data of the bmap after the copy. *)
Definition copied_data (r : biorq) (toff n : Z) (A : data) : data := overlay A toff n (λ j, biorq_buf r (toff - biorq_off r + j)).
(** In a tidy run data is copied to a page next to what the page has. *)
Definition tidy_copy (p toff n : Z) (e : bmpce) : Prop :=
  pfl e BMPCEF_DATARDY = false → bmpce_len e ≠ 0 → (toff ≠ p ∨ n ≠ BMPC_BUFSZ) → bmpce_start e ≤ toff + n ∧ toff ≤ bmpce_start e + bmpce_len e.

Section effect.
Context (tidy : bool) (m : gmap Z bmpce) (p toff n : Z) (e e' : bmpce) (r : biorq) (rqs : gmap nat biorq) (T T' : gmap nat pc) (K : Z → bool).
Context (He : m !! p = Some e) (Hok : ∀ p e, m !! p = Some e → page_ok p e) (Hc : copied_in r p toff n e e') (Hlo : p ≤ toff) (Hn : 0 < n) (Hhi : toff + n ≤ p + BMPC_BUFSZ).
Context (Hd1 : ∀ x, dirty rqs T x → dirty rqs T' x) (Hd2 : ∀ x, dirty rqs T' x → dirty rqs T x ∨ toff ≤ x < toff + n) (Hd3 : ∀ x, toff ≤ x < toff + n → dirty rqs T' x).
Abbreviation m' := (<[p := e']> m).
Definition grown : Z → bool := λ x, K x || ((toff <=? x) && (x <? toff + n)).

Lemma grown_true x : grown x = true ↔ K x = true ∨ toff ≤ x < toff + n.
Proof. unfold grown. rewrite orb_true_iff, andb_true_iff, Z.leb_le, Z.ltb_lt. done. Qed.
Lemma in_page x : toff ≤ x < toff + n → page_align x = p.
Proof. intros Hx. eapply (page_align_page p e m x); [done|done|lia]. Qed.

Lemma copy_kinv : kinv tidy m rqs T K → (tidy = true → tidy_copy p toff n e) → kinv tidy m' rqs T' grown.
Proof.
  intros [K1 K2 K3 K4] Htc. destruct Hc as [Hg Hok' Hba Hrdy Hreg]. split.
  - intros x [Hx|Hx]%grown_true.
    + destruct (K1 x Hx) as [e0 He0]. destruct (decide (page_align x = p)) as [->|]; [rewrite lookup_insert_eq; by eexists|]. rewrite lookup_insert_ne by done. by exists e0.
    + rewrite (in_page x Hx), lookup_insert_eq. by eexists.
  - intros q e0 x He0 Hr Hx. apply grown_true. destruct (decide (q = p)) as [->|]; [|rewrite lookup_insert_ne in He0 by done; left; by eapply K2].
    rewrite lookup_insert_eq in He0. injection He0 as <-. destruct (Hrdy Hr) as [Hr'|[-> ->]]; [left; by eapply K2|by right].
  - intros x Hx. apply grown_true. destruct (Hd2 x Hx); auto.
  - intros Ht q e0 x He0 Hx. apply grown_true. destruct (decide (q = p)) as [->|]; [|rewrite lookup_insert_ne in He0 by done; left; by eapply K4].
    rewrite lookup_insert_eq in He0. injection He0 as <-. pose proof (po_lo _ _ Hok') as L1. pose proof (po_hi _ _ Hok') as L2.
    destruct (pfl e BMPCEF_DATARDY) eqn:Hre; [left; eapply K2; [done|done|lia]|].
    destruct Hreg as [[Hs Hl]|[[Hs Hl]|(Hl0 & Hnf & Hs & Hl)]]; [left; eapply (K4 Ht); [done|lia]|right; lia|].
    destruct (Htc Ht Hre Hl0 Hnf) as [T1 T2]. destruct (decide (toff ≤ x < toff + n)); [by right|]. left. eapply (K4 Ht); [done|]. lia.
Qed.
Lemma copy_byte x : page_byte m' x = if (toff <=? x) && (x <? toff + n) then biorq_buf r (x - biorq_off r) else page_byte m x.
Proof.
  unfold page_byte. destruct ((toff <=? x) && (x <? toff + n)) eqn:Hx.
  - apply andb_true_iff in Hx as [?%Z.leb_le ?%Z.ltb_lt]. rewrite in_page by lia. rewrite lookup_insert_eq, (cp_base _ _ _ _ _ _ Hc). unfold overlay.
    destruct (Z.leb_spec (toff - p) (x - p)), (Z.ltb_spec (x - p) (toff - p + n)); try lia. simpl. f_equal. lia.
  - destruct (decide (page_align x = p)) as [Hp|]; [|by rewrite lookup_insert_ne]. rewrite Hp, lookup_insert_eq, He, (cp_base _ _ _ _ _ _ Hc). unfold overlay.
    destruct (Z.leb_spec (toff - p) (x - p)), (Z.ltb_spec (x - p) (toff - p + n)); try done. exfalso. apply andb_false_iff in Hx as [?%Z.leb_gt|?%Z.ltb_ge]; lia.
Qed.
Lemma copied_out A x : (x < toff ∨ toff + n ≤ x) → copied_data r toff n A x = A x.
Proof. intros Hx. unfold copied_data, overlay. destruct (Z.leb_spec toff x), (Z.ltb_spec x (toff + n)); done || lia. Qed.
Lemma copy_dat R G srv A : dat m rqs R T G srv K A →
  (∀ g x, g ∈ G → g_app g = true → bwc_soff (g_bwc g) ≤ x < bwc_soff (g_bwc g) + bwc_size (g_bwc g) → page_align x ≠ p) →
  dat m' rqs R T' G srv grown (copied_data r toff n A).
Proof.
  intros [D1 D2 D3 D4 D5] Hga. split; try done.
  - intros x Hx. rewrite copy_byte. unfold copied_data, overlay. destruct ((toff <=? x) && (x <? toff + n)) eqn:Hr; [f_equal; lia|]. apply D1.
    apply grown_true in Hx as [|Hx]; [done|]. apply andb_false_iff in Hr as [?%Z.leb_gt|?%Z.ltb_ge]; lia.
  - intros x Hx. assert (K x = false ∧ ¬ (toff ≤ x < toff + n)) as [Hx1 Hx2].
    { destruct (K x) eqn:HKx; [assert (grown x = true) by (apply grown_true; by left); congruence|]. split; [done|]. intros Hr. assert (grown x = true) by (apply grown_true; by right). congruence. }
    rewrite copied_out by lia. by apply D2.
  - intros x Hx. destruct (decide (toff ≤ x < toff + n)) as [Hr|Hr]; [right; by apply Hd3|]. rewrite copied_out by lia. apply grown_true in Hx as [Hx|]; [|done].
    destruct (D3 x Hx); auto.
  - intros g x Hg Ha Hx. rewrite copied_out; [by eapply D5|]. pose proof (Hga g x Hg Ha Hx) as Hne. destruct (decide (toff ≤ x < toff + n)) as [Hr|]; [|lia]. by destruct Hne; apply in_page.
Qed.
End effect.

Lemma dirty_thr rqs T id r t x : rqs !! id = Some r → rfl r BIORQ_WRITE = true →
  dirty rqs (tset T id t) x ↔ (∃ j q, j ≠ id ∧ rqs !! j = Some q ∧ rfl q BIORQ_WRITE = true ∧ biorq_off q ≤ x < copied_end q (T !! j)) ∨ biorq_off r ≤ x < copied_end r t.
Proof.
  intros Hr Hw. split.
  - intros (j & q & Hq & Hwq & Hx). destruct (decide (j = id)) as [->|]; [rewrite tset_eq in Hx; rewrite Hr in Hq; injection Hq as <-; by right|]. rewrite tset_ne in Hx by done. left. by exists j, q.
  - intros [(j & q & Hj & Hq & Hwq & Hx)|Hx]; [exists j, q; by rewrite tset_ne|exists id, r; by rewrite tset_eq].
Qed.
(** The part of a request that the next copy is about. *)
Definition copy_at (s : cl) (id : nat) : option (biorq * Z * Z * Z) :=
  match c_thr s !! id, b_rqs (c_b s) !! id with
  | Some (PCopy i toff tsize), Some r =>
      match biorq_pages r !! i with Some p => Some (r, p, toff, Z.min (biorq_voff_get r) (p + BMPC_BUFSZ) - toff) | None => None end
  | _, _ => None
  end.
Definition copy_effect (s : cl) (id : nat) (A : data) : data :=
  match copy_at s id with Some (r, _, toff, n) => copied_data r toff n A | None => A end.
Definition tidy_at (s : cl) (id : nat) : Prop :=
  match copy_at s id with Some (_, p, toff, n) => ∀ e, pc_tree (c_pc s) !! p = Some e → tidy_copy p toff n e | None => True end.

(** What the server has all of is pinned. *)
Lemma applied_pinned s g : g ∈ groups_of s → g_app g = true → g_pin g = length (bwc_bmpces (g_bwc g)).
Proof.
  unfold groups_of. rewrite elem_of_app. intros [Hg|Hg] Ha.
  - unfold fl_groups in Hg. destruct (c_fl s); try (by apply elem_of_nil in Hg). apply list_elem_of_singleton in Hg. by subst g.
  - unfold wr_groups in Hg. apply list_elem_of_fmap in Hg as ([k v] & -> & _). done.
Qed.
Lemma applied_page s b R T D pc g x : rqinv pc b R T (groups_of s) D → g ∈ groups_of s → g_app g = true →
  bwc_soff (g_bwc g) ≤ x < bwc_soff (g_bwc g) + bwc_size (g_bwc g) → ∀ e, pc_tree pc !! page_align x = Some e → pfl e BMPCEF_PINNED = true.
Proof.
  intros I Hg Ha Hx e He. rewrite (rv_pinned _ _ _ _ _ _ I _ _ He). apply bool_decide_true. unfold g_pins. apply list_elem_of_In, in_concat.
  exists (take (g_pin g) (bwc_bmpces (g_bwc g))). split; apply list_elem_of_In; [by apply (list_elem_of_fmap_2 (λ g, take (g_pin g) (bwc_bmpces (g_bwc g))))|].
  rewrite (applied_pinned s g Hg Ha), take_ge by done. destruct (rv_g _ _ _ _ _ _ I g Hg) as [_ _ -> _ _]. by apply page_offs_byte.
Qed.
Lemma rqinv_meets pc b R T G D : rqinv pc b R T G D → ∀ j r, b_rqs b !! j = Some r → (plain_read r → meets r) ∧ (rfl r BIORQ_READAHEAD = true → biorq_fsrqi r = None).
Proof.
  intros I j r Hr. destruct (rv_rq _ _ _ _ _ _ I j r Hr) as [_ _ Hf _ Hra _ _ _ _ _ _]. split; [intros [_ ?]; by eapply full_meets|]. intros Hx. by apply Hra.
Qed.
Lemma write_pages R id r t : rq_inv R id r t → rfl r BIORQ_WRITE = true → todo t = [] →
  0 ≤ biorq_off r ∧ 0 < biorq_len r ∧ biorq_pages r = biorq_page_offs (biorq_off r) (biorq_len r).
Proof.
  intros Hri Hw Htd. destruct (rq_pages_full id r t Hri Htd) as (? & ? & _ & ?); [|done]. destruct (rfl r BIORQ_READAHEAD) eqn:Hra; [|done]. destruct (ri_ra _ _ _ _ Hri Hra). congruence.
Qed.
Lemma page_index r i : 0 < biorq_len r → biorq_pages r = biorq_page_offs (biorq_off r) (biorq_len r) → page_nth (biorq_off r) i < biorq_voff_get r →
  biorq_pages r !! i = Some (page_nth (biorq_off r) i) ∧ (S i = length (biorq_pages r) ↔ biorq_voff_get r ≤ page_nth (biorq_off r) (S i)).
Proof.
  intros Hlen Hpg Hlt. unfold biorq_voff_get in *. rewrite Hpg. unfold biorq_page_offs. rewrite npages_eq by done. set (n := (_ - _ + 1)).
  assert (Z.of_nat i < n) as Hin by (unfold n; rewrite page_align_eq in Hlt; rewrite bufsz_eq in *; zdiv).
  destruct (prange (page_align (biorq_off r)) (Z.to_nat n) !! i) as [p|] eqn:Hp.
  - apply prange_nth in Hp as [-> _]. split; [done|]. rewrite length_prange. rewrite page_align_eq in *. unfold n in *. rewrite bufsz_eq in *. zdiv.
  - apply lookup_ge_None in Hp. rewrite length_prange in Hp. lia.
Qed.

Lemma step_copy tidy s A id : cinv tidy s A → (tidy = true → tidy_at s id) → wpb (copy_step id) (λ _ s', cinv tidy s' (copy_effect s id A)) s.
Proof.
  intros C Htidy. pose proof (ci_core _ _ _ C) as HC. pose proof HC as (I & O & K & HK & HD). unfold copy_step. wb_step. wb_step.
  destruct (c_thr s !! id) as [[| | | | | | |i toff tsize| |]|] eqn:Ht; try done.
  destruct (rv_thr _ _ _ _ _ _ I id ltac:(by eexists)) as [r Hr]. wb_step. eapply wpb_of, wp_getRq; [done|].
  pose proof (rv_rq _ _ _ _ _ _ I id r Hr) as Hri. rewrite Ht in Hri. pose proof (ri_pc _ _ _ _ Hri) as (Hw & Htoff & Htot & Hts).
  destruct (write_pages _ _ _ _ Hri Hw eq_refl) as (Hoff & Hlen & Hpg). set (p := page_nth (biorq_off r) i).
  assert (p < biorq_voff_get r) as Hpv by lia. destruct (page_index r i Hlen Hpg Hpv) as [Hp Hlast].
  destruct (rq_pages_in id r p I Hr ltac:(by eapply list_elem_of_lookup_2)) as [[e He] _]. pose proof (ov_page _ _ _ _ O p e He) as Hok.
  assert (pfl e BMPCEF_FAULTING = false) as Hfa. { eapply (ov_hot _ _ _ _ O id r p e Hr); [|done]. rewrite Ht. split; [done|]. by eapply list_elem_of_lookup_2. }
  assert (at_page (biorq_off r) (biorq_voff_get r) i toff tsize) as Hat by done.
  wb_step. apply wpb_lift. eapply (wpb_copyin r i toff tsize p e); try done; [by destruct (pci_pg _ _ (rv_pc _ _ _ _ _ _ I) p e He)|].
  intros e' Hpin Hc. set (n := Z.min (biorq_voff_get r) (p + BMPC_BUFSZ) - toff) in *. pose proof (page_align_bound (biorq_off r)) as Hpa.
  assert (p ≤ toff ∧ toff < p + BMPC_BUFSZ) as [Hlo Hhi0] by (destruct i as [|i]; unfold p; rewrite bufsz_eq in *; lia). assert (0 < n ∧ toff + n ≤ p + BMPC_BUFSZ) as [Hn Hhi] by (unfold n; lia).
  assert (copy_effect s id A = copied_data r toff n A) as Heff by (unfold copy_effect, copy_at; by rewrite Ht, Hr, Hp). rewrite Heff.
  set (pc' := pc_with_tree (c_pc s) (<[p := e']> (pc_tree (c_pc s)))).
  (* the next place of the thread *)
  assert (∀ t, (t = PReply ∧ toff + n = biorq_voff_get r) ∨ t = PCopy (S i) (toff + n) (tsize - n) → rq_inv (c_rd s) id r (Some t) →
    cinv tidy (c_set_thr (c_set_pc s pc') (<[id := t]> (c_thr s))) (copied_data r toff n A)) as Hgo.
  { intros t Ht' Hri'. assert (copied_end r (Some t) = toff + n) as Hce by (destruct Ht' as [[-> ?]| ->]; simpl; lia).
    assert (b_set_rqs (c_b s) (<[id := r]> (b_rqs (c_b s))) = c_b s) as Hb by (rewrite insert_id by done; by destruct (c_b s)).
    assert (∀ x, dirty (b_rqs (c_b s)) (c_thr s) x ↔ (∃ j q, j ≠ id ∧ b_rqs (c_b s) !! j = Some q ∧ rfl q BIORQ_WRITE = true ∧ biorq_off q ≤ x < copied_end q (c_thr s !! j)) ∨ biorq_off r ≤ x < toff) as Hdo.
    { intros x. pose proof (dirty_thr (b_rqs (c_b s)) (c_thr s) id r (c_thr s !! id) x Hr Hw) as Hx. rewrite tset_id, Ht in Hx. exact Hx. }
    pose proof (λ x, dirty_thr (b_rqs (c_b s)) (c_thr s) id r (Some t) x Hr Hw) as Hdn. rewrite Hce in Hdn. fold (<[id := t]> (c_thr s)) in Hdn.
    assert (∀ x, dirty (b_rqs (c_b s)) (c_thr s) x → dirty (b_rqs (c_b s)) (<[id := t]> (c_thr s)) x) as Hda by (intros x; rewrite Hdo; intros Hx; apply Hdn; destruct Hx; [by left|right; lia]).
    assert (∀ x, dirty (b_rqs (c_b s)) (<[id := t]> (c_thr s)) x → dirty (b_rqs (c_b s)) (c_thr s) x ∨ toff ≤ x < toff + n) as Hdb.
    { intros x Hx. apply Hdn in Hx. rewrite Hdo. destruct Hx; [tauto|]. destruct (decide (x < toff)); [left; right; lia|right; lia]. }
    assert (∀ x, toff ≤ x < toff + n → dirty (b_rqs (c_b s)) (<[id := t]> (c_thr s)) x) as Hdc by (intros x Hx; apply Hdn; right; lia).
    destruct C as [C1 C2 C3]. split; simpl; [|done|by destruct C3]. split; [|split; [|exists (grown toff n K); split]].
    - rewrite <-Hb at 1. apply (rqinv_rq _ _ _ _ _ _ id r r (Some t)); [|done|apply rsame_refl|done]. eapply rqinv_pc; [exact I|eapply pcinv_same; [apply I|done|apply Hc]|].
      intros q e0. simpl. destruct (decide (q = p)) as [->|]; [rewrite lookup_insert_eq; intros [= <-]|rewrite lookup_insert_ne by done; apply I].
      rewrite (gr_pin _ _ (cp_grow _ _ _ _ _ _ Hc)). by apply I.
    - pose proof (ownv_grow _ p e e' He (cp_grow _ _ _ _ _ _ Hc) _ _ _ O (cp_ok _ _ _ _ _ _ Hc) Hfa (rqinv_meets _ _ _ _ _ _ I)) as O'.
      rewrite <-(insert_id (b_rqs (c_b s)) id r Hr). eapply (ownv_rq _ _ _ _ id r r (Some t)); try done.
      + intros rid v Hv. destruct (rv_rd _ _ _ _ _ _ I rid v Hv) as (q & Hq & _). by exists q.
      + by destruct Ht' as [[-> _]| ->].
      + intros q e0 [_ Hq] He0. eapply (ov_hot _ _ _ _ O' id r q e0 Hr); [|done]. rewrite Ht. split; [done|]. by destruct Ht' as [[-> _]| ->].
      + intros past q. apply own_not. by destruct Ht' as [[-> _]| ->].
    - eapply (copy_kinv tidy _ p toff n e e' r); try done; [apply O|]. intros Ht1. specialize (Htidy Ht1). unfold tidy_at, copy_at in Htidy. rewrite Ht, Hr, Hp in Htidy. by apply Htidy.
    - intros Hf. eapply (copy_dat _ p toff n e e' r); try done; [apply O|by apply HD|]. intros g x Hg Ha Hx Hpx.
      rewrite (applied_page s _ _ _ _ _ g x I Hg Ha Hx e) in Hpin; [done|]. by rewrite Hpx. }
  destruct (Nat.eqb_spec (S i) (length (biorq_pages r))) as [Hl|Hl].
  - apply Hlast in Hl. assert (toff + n = biorq_voff_get r) as Hend by (unfold n, p; lia). wb_step. apply wpb_of, wp_assert; [lia|]. apply wpb_of, wp_modify. apply Hgo; [by left|].
    eapply rq_inv_pc; [exact Hri|..]; done.
  - assert (page_nth (biorq_off r) (S i) < biorq_voff_get r) as Hnx by (destruct (decide (page_nth (biorq_off r) (S i) < biorq_voff_get r)); [done|]; destruct Hl; apply Hlast; lia).
    apply wpb_of, wp_modify. apply Hgo; [by right|]. eapply rq_inv_pc; [exact Hri|..]; try done. simpl. split_and!; [done| |lia|]; unfold n, p in *; rewrite bufsz_eq in *; lia.
Qed.
End copy.
