(* ===== verification/CioQueue.v ===== *)
(** * The tree of pending writes

    Writes enter the tree when they are scheduled and when a transfer fails, and
    leave it when they are sent or given up. *)
From S2P Require Import Prelude BmapMds ReplReq ReplWalk Lease Slvr SlvrIO Pgcache PgcacheInv Coalesce CoalesceProps Cio CioInv CioFrame CioTop CioStart CioValid CioRead CioLoad CioEnd CioReply CioWrite.

(** ** The order of the tree *)
Lemma tree_insert_perm m id r l : tree_insert m id r l ≡ₚ id :: l.
Proof.
  induction l as [|x l IH]; simpl; [done|]. destruct (m !! x) as [rx|]; [destruct (bmpc_biorq_lt rx x r id)|]; [|done|]; rewrite IH; by constructor.
Qed.
Lemma biorq_lt_off a ida b idb : (bmpc_biorq_lt a ida b idb = true → biorq_off a ≤ biorq_off b) ∧ (bmpc_biorq_lt a ida b idb = false → biorq_off b ≤ biorq_off a).
Proof. unfold bmpc_biorq_lt. destruct (Z.eqb_spec (biorq_off a) (biorq_off b)) as [->|]; [split; lia|]. destruct (Z.ltb_spec (biorq_off a) (biorq_off b)); split; lia || done. Qed.
Lemma tree_insert_sorted m id r l : m !! id = Some r → (∀ x, x ∈ l → is_Some (m !! x)) → off_sorted m l → off_sorted m (tree_insert m id r l).
Proof.
  intros Hid Hl Hs. unfold off_sorted in *. induction Hs as [|x l Hs IH Hall]; simpl; [constructor; constructor|].
  destruct (Hl x ltac:(left)) as [rx Hx]. rewrite Hx. destruct (biorq_lt_off rx x r id) as [L1 L2]. destruct (bmpc_biorq_lt rx x r id).
  - constructor; [apply IH; intros y Hy; apply Hl; by right|]. rewrite Forall_forall in *. intros y Hy. rewrite tree_insert_perm in Hy.
    apply elem_of_cons in Hy as [->|Hy]; [|by apply Hall]. unfold off_at. rewrite Hx, Hid. by apply L1.
  - constructor; [by constructor|]. constructor; [unfold off_at; rewrite Hx, Hid; by apply L2|]. rewrite Forall_forall in *. intros y Hy. specialize (Hall y Hy).
    unfold off_at in *. rewrite Hx in Hall. rewrite Hid. specialize (L2 eq_refl). lia.
Qed.
(** ** A request changes its place *)

(** The shape of a request that the pages and bytes depend on. *)
Record rshape (r r' : biorq) : Prop := {
  sh_off : biorq_off r' = biorq_off r;
  sh_len : biorq_len r' = biorq_len r;
  sh_pages : biorq_pages r' = biorq_pages r;
  sh_write : rfl r' BIORQ_WRITE = rfl r BIORQ_WRITE;
  sh_ra : rfl r' BIORQ_READAHEAD = rfl r BIORQ_READAHEAD;
}.
Record qchange (b b' : bmapc) (G : list grp) (D D' : list nat) (id : nat) (r r' : biorq) : Prop := {
  qc_rqs : b_rqs b' = <[id := r']> (b_rqs b);
  qc_pndg : b_pndg b' = b_pndg b;
  qc_g : id ∉ g_ids G;
  qc_new : NoDup (b_new b');
  qc_new_other : ∀ j, j ≠ id → j ∈ b_new b' ↔ j ∈ b_new b;
  qc_new_id : id ∈ b_new b' ↔ rfl r' BIORQ_ONTREE = true;
  qc_sorted : off_sorted (b_rqs b) (b_new b');
  qc_exp : b_exp b' ≡ₚ b_new b';
  qc_d : NoDup (g_ids G ++ D');
  qc_d_other : ∀ j, j ≠ id → j ∈ D' ↔ j ∈ D;
  qc_d_id : id ∈ D' ↔ rfl r' BIORQ_FLUSHRDY = true ∧ rfl r' BIORQ_ONTREE = false;
  qc_nwr : b_nwr b' = b_nwr b + one (rfl r' BIORQ_FLUSHRDY) - one (rfl r BIORQ_FLUSHRDY);
  qc_flushq : hasf (b_flags b') BMAPF_FLUSHQ = (0 <? b_nwr b');
  qc_onq : b_onq b' = hasf (b_flags b') BMAPF_FLUSHQ;
  qc_wr : hasf (b_flags b') BMAPF_WR = true;
  qc_lease : hasf (b_flags b') BMAPF_LEASEFAILED = true → b_error b' ≠ 0;
}.
Lemma dirty_shape rqs T id r r' t x :
  rqs !! id = Some r → rshape r r' → (rfl r BIORQ_WRITE = true → copied_end r' t = copied_end r (T !! id)) →
  dirty (<[id := r']> rqs) (tset T id t) x ↔ dirty rqs T x.
Proof.
  intros Hr [S1 S2 S3 S4 S5] Hc. split.
  - intros (j & q & Hq & Hw & Hx). destruct (decide (j = id)) as [->|].
    + rewrite lookup_insert_eq in Hq. injection Hq as <-. rewrite tset_eq in Hx. exists id, r. rewrite Hc, S1, S4 in *; try congruence. done.
    + rewrite lookup_insert_ne in Hq by done. rewrite tset_ne in Hx by done. by exists j, q.
  - intros (j & q & Hq & Hw & Hx). destruct (decide (j = id)) as [->|].
    + rewrite Hr in Hq. injection Hq as <-. exists id, r'. rewrite lookup_insert_eq, tset_eq, Hc by done. by rewrite S1, S4.
    + exists j, q. by rewrite lookup_insert_ne, tset_ne.
Qed.
Lemma shape_off_at rqs id r r' j : rqs !! id = Some r → rshape r r' → off_at (<[id := r']> rqs) j = off_at rqs j.
Proof. intros Hr Hs. unfold off_at. destruct (decide (j = id)) as [->|]; [rewrite lookup_insert_eq, Hr; apply Hs|by rewrite lookup_insert_ne]. Qed.

Lemma rqinv_queue pc b b' R T G D D' id r r' t :
  rqinv pc b R T G D → b_rqs b !! id = Some r → rshape r r' → rq_inv R id r' t → qchange b b' G D D' id r r' → rqinv pc b' R (tset T id t) G D'.
Proof.
  intros I Hr Hs Hri [Q1 Q2 Q3 Q4 Q5 Q6 Q7 Q8 Q9 Q10 Q11 Q12 Q13 Q14 Q15 Q16]. pose proof Hs as [S1 S2 S3 S4 S5].
  assert (∀ g j, g ∈ G → j ∈ bwc_biorqs (g_bwc g) → j ≠ id) as Hgid.
  { intros g j Hgin Hj ->. apply Q3. unfold g_ids. apply list_elem_of_In, in_concat. exists (bwc_biorqs (g_bwc g)).
    split; apply list_elem_of_In; [apply (list_elem_of_fmap_2 (λ g, bwc_biorqs (g_bwc g))); done|done]. }
  destruct I as [V1 V2 V3 V4 V5 V6 V7 V8 V9 V10 V11 V12 V13 V14 V15 V16 V17 V18 V19 V20].
  assert (id ∈ b_pndg b) as Hin by (apply V3; by exists r).
  split; rewrite ?Q1, ?Q2; try done.
  - eapply pcinv_ext; [|exact V1]. intros p. unfold holds. rewrite Q1, Q2. apply cnt_ext. intros j Hj.
    destruct (decide (j = id)) as [->|]; [by rewrite lookup_insert_eq, Hr, S3|by rewrite lookup_insert_ne].
  - intros j. rewrite V3. destruct (decide (j = id)) as [->|]; [rewrite lookup_insert_eq, Hr; split; intros _; by eexists|by rewrite lookup_insert_ne].
  - intros j q Hq. destruct (decide (j = id)) as [->|]; [rewrite lookup_insert_eq in Hq; injection Hq as <-; by rewrite tset_eq|].
    rewrite lookup_insert_ne in Hq by done. rewrite tset_ne by done. by apply V4.
  - intros j Hj. destruct (decide (j = id)) as [->|]; [rewrite lookup_insert_eq; by eexists|]. rewrite tset_ne in Hj by done. rewrite lookup_insert_ne by done. by apply V5.
  - intros rid v Hv. destruct (V6 rid v Hv) as (q & Hq & Hw). destruct (decide (rr_rq v = id)) as [Hid|]; [|exists q; by rewrite lookup_insert_ne].
    exists r'. rewrite Hid, lookup_insert_eq. split; [done|]. rewrite Hid, Hr in Hq. injection Hq as <-. congruence.
  - intros j. destruct (decide (j = id)) as [->|Hj]; [rewrite Q6, lookup_insert_eq; split; [intros ?; by exists r'|intros (q & [= <-] & ?); done]|].
    rewrite (Q5 j Hj), V8. by rewrite lookup_insert_ne.
  - clear -Q7 Hr Hs. unfold off_sorted in *. induction Q7 as [|a l ? IH Hall]; constructor; [done|]. eapply Forall_impl; [done|]. simpl. intros j. by rewrite !(λ j, shape_off_at (b_rqs b) id r r' j Hr Hs).
  - intros g Hg. destruct (V11 g Hg) as [G1 G2 G3 G4 G5]. split; try done.
    + intros j Hj. destruct (G1 j Hj) as (q & Hq & ?). exists q. rewrite lookup_insert_ne; [done|]. intros <-. by eapply Hgid.
    + intros x Hx. destruct (G2 x Hx) as (j & q & Hj & Hq & ?). exists j, q. rewrite lookup_insert_ne; [done|]. intros <-. by eapply Hgid.
  - intros j. destruct (decide (j = id)) as [->|Hj].
    + rewrite lookup_insert_eq, elem_of_app, Q11. split; [intros [?|?]; [done|by exists r']|intros (q & [= <-] & ?); by right].
    + rewrite lookup_insert_ne by done. rewrite <-V13, !elem_of_app, (Q10 j Hj). done.
  - rewrite Q12, V16. destruct (rfl r BIORQ_FLUSHRDY) eqn:Hf1, (rfl r' BIORQ_FLUSHRDY) eqn:Hf2; simpl.
    1,4: rewrite (cnt_ext (is_rdy b') (is_rdy b)); [lia|]; intros j _; unfold is_rdy; rewrite Q1; destruct (decide (j = id)) as [->|]; [rewrite lookup_insert_eq, Hr; congruence|by rewrite lookup_insert_ne].
    + rewrite (cnt_flip (is_rdy b') (is_rdy b) (b_pndg b) id); [lia|done|done| | |].
      * unfold is_rdy. by rewrite Q1, lookup_insert_eq.
      * unfold is_rdy. by rewrite Hr.
      * intros j Hj. unfold is_rdy. by rewrite Q1, lookup_insert_ne.
    + rewrite (cnt_flip (is_rdy b) (is_rdy b') (b_pndg b) id); [lia|done|done| | |].
      * unfold is_rdy. by rewrite Hr.
      * unfold is_rdy. by rewrite Q1, lookup_insert_eq.
      * intros j Hj. unfold is_rdy. by rewrite Q1, lookup_insert_ne.
Qed.

(** The whole invariant. *)
Lemma core_queue tidy pc b b' R T G D D' srv A id r r' t :
  core tidy pc b R T G D srv A → b_rqs b !! id = Some r → rshape r r' → rq_inv R id r' t → qchange b b' G D D' id r r' → rfl r BIORQ_WRITE = true →
  (∀ l, t ≠ Some (PFlush l) ∧ t ≠ Some (PLaunch l)) → (∀ p, ¬ hot r' t p) → thr_ok (pc_tree pc) r' t →
  (rfl r' BIORQ_FLUSHRDY = true → ∀ o p, own R T true o p → p ∉ biorq_pages r') → copied_end r' t = copied_end r (T !! id) →
  (b_flushrc b' = 0 → b_flushrc b = 0) → core tidy pc b' R (tset T id t) G D' srv A.
Proof.
  intros (I & O & K & HK & HD) Hr Hs Hri HQ Hw Ht Hhot Hth Hpast Hce Hfl. pose proof (qc_rqs _ _ _ _ _ _ _ _ HQ) as Hb.
  assert (∀ x, dirty (b_rqs b') (tset T id t) x ↔ dirty (b_rqs b) T x) as Hd by (intros x; rewrite Hb; by apply (dirty_shape _ _ id r)).
  split; [by eapply rqinv_queue|]. split; [|exists K; split].
  - rewrite Hb. eapply ownv_put; try done.
    + intros r0 p. rewrite Hr. intros [= <-]. by rewrite (sh_pages _ _ Hs).
    + intros rid v Hv. destruct (rv_rd _ _ _ _ _ _ I rid v Hv) as (q & Hq & _). by exists q.
    + intros p e Hh. by destruct (Hhot p).
    + intros past p. by apply own_not.
  - eapply kinv_dirty; [done|]. intros x. by rewrite Hd.
  - intros Hf. eapply dat_dirty; [by apply HD, Hfl|]. intros x. by rewrite Hd.
Qed.

Section queue.
Context `{PflNetLaws}.

(** ** Replies to writes, and scheduling *)
Lemma cinv_misc tidy s s' A : cinv tidy s A → c_pc s' = c_pc s → c_b s' = c_b s → c_srv s' = c_srv s → c_wr s' = c_wr s → c_rd s' = c_rd s → c_thr s' = c_thr s → c_fl s' = c_fl s → c_next s' = c_next s → cinv tidy s' A.
Proof.
  intros [C1 C2 [F1 F2 F3]] E1 E2 E3 E4 E5 E6 E7 E8. split.
  - unfold groups_of. by rewrite E1, E2, E3, E4, E5, E6, E7.
  - by rewrite E2, E7.
  - split; rewrite ?E2, ?E4, ?E5, ?E8; done.
Qed.
Lemma step_reply tidy s A id : cinv tidy s A → wpb (reply_step id) (λ _ s', cinv tidy s' A ∧ tells tidy A s s') s.
Proof.
  intros C. pose proof (ci_core _ _ _ C) as HC. pose proof HC as (I & O & _). unfold reply_step. wb_step. wb_step.
  destruct (c_thr s !! id) as [[| | | | | | | | |]|] eqn:Ht; try done. apply wpb_of.
  destruct (rv_thr _ _ _ _ _ _ I id ltac:(by eexists)) as [r Hr]. wp_step. eapply wp_getRq; [done|].
  pose proof (rv_rq _ _ _ _ _ _ I id r Hr) as Hri. rewrite Ht in Hri. pose proof Hri as [R1 R2 R3 R4 R5 R6 R7 R8 R9 R10 R11]. simpl in R11.
  destruct (rfl r BIORQ_READAHEAD) eqn:Hra; [destruct (R5 eq_refl); congruence|]. destruct (R6 eq_refl) as (q & Hq & Hsz & Hq1 & Hq2 & Hq3 & Hq4).
  destruct (write_pages _ _ _ _ Hri R11 eq_refl) as (Hoff & Hlen & Hpg).
  wp_step. rewrite Hq. unfold setRq, modB. wp_step. wp_step. set (q1 := fsrq_upd q _ _ _ _ _).
  eapply (wp_complete_write_last tidy _ (c_b s) (c_rd s) (groups_of s) [] A id r (rq_fsrq r (Some q1)) q1); simpl; try done.
  - by rewrite R1, R11.
  - rewrite Hsz. lia.
  - intros pc' q' fsz' HC' Hsz'. apply wp_modify. split.
    + assert (cinv tidy (c_set_pc s pc') A) as C' by (by apply cinv_pc). set (r' := rq_fsrq (rq_fsrq r (Some q1)) (Some q')).
      pose proof (cinv_rq tidy (c_set_pc s pc') A id r r' (Some PSched) C' Hr) as HX. eapply cinv_misc; [apply HX; clear HX|..]; try done.
      * split; simpl; try done; [by rewrite Hra|]. intros _. exists q'. split_and!; [done|simpl in *; congruence|done].
      * intros p e [_ Hp] He. simpl in Hp. destruct HC' as (I' & O' & _). eapply (ov_hot _ _ _ _ O' id r p e Hr); [|done]. rewrite Ht. by split.
      * intros past p. by apply own_not.
      * intros _. simpl. by rewrite Ht.
    + right. exists id, r, (ReplyWrite (biorq_len r) 0). simpl. rewrite Hq4. simpl. split_and!; try done. by right.
Qed.

Lemma not_in_groups pc b R T G D id r : rqinv pc b R T G D → b_rqs b !! id = Some r → rfl r BIORQ_FLUSHRDY = false ∨ rfl r BIORQ_ONTREE = true ∨ id ∈ D → id ∉ g_ids G.
Proof.
  intros I Hr Hor Hin. destruct (proj1 (rv_flight _ _ _ _ _ _ I id)) as (q & Hq & Hf & Ht); [apply elem_of_app; by left|]. rewrite Hr in Hq. injection Hq as <-.
  destruct Hor as [|[|Hd]]; [congruence|congruence|]. pose proof (rv_gids _ _ _ _ _ _ I) as Hnd. apply NoDup_app in Hnd as (_ & Hnd & _). by apply (Hnd id).
Qed.
Lemma not_in_debt pc b R T G D id r : rqinv pc b R T G D → b_rqs b !! id = Some r → rfl r BIORQ_FLUSHRDY = false ∨ rfl r BIORQ_ONTREE = true → id ∉ D.
Proof.
  intros I Hr Hor Hin. destruct (proj1 (rv_flight _ _ _ _ _ _ I id)) as (q & Hq & Hf & Ht); [apply elem_of_app; by right|]. rewrite Hr in Hq. injection Hq as <-. destruct Hor; congruence.
Qed.

(** The state of the bmap after [msl_pages_schedflush]. *)
Definition b_sched (b : bmapc) (id : nat) (r : biorq) : bmapc :=
  {| b_rqs := <[id := r]> (b_rqs b); b_new := tree_insert (<[id := r]> (b_rqs b)) id r (b_new b); b_exp := b_exp b ++ [id]; b_pndg := b_pndg b; b_nwr := b_nwr b + 1;
     b_flags := if hasf (b_flags b) BMAPF_FLUSHQ then b_flags b else setf (b_flags b) BMAPF_FLUSHQ; b_error := b_error b; b_flushrc := b_flushrc b; b_ios := b_ios b;
     b_onq := if hasf (b_flags b) BMAPF_FLUSHQ then b_onq b else true |}.
Lemma sched_qchange pc b R T G D id r r1 r2 :
  rqinv pc b R T G D → b_rqs b !! id = Some r → rshape r r1 → rshape r r2 → rfl r BIORQ_FLUSHRDY = false → rfl r2 BIORQ_FLUSHRDY = true → rfl r2 BIORQ_ONTREE = true →
  qchange b (b_set_rqs (b_sched b id r1) (<[id := r2]> (b_rqs b))) G D D id r r2.
Proof.
  intros I Hr Hs1 Hs2 Hf Hf2 Ht2. assert (0 ≤ b_nwr b) as Hn0 by (rewrite (rv_nwr _ _ _ _ _ _ I); apply cnt_nonneg).
  assert (id ∉ b_new b) as Hnn.
  { intros (q & Hq & Ht)%(rv_in_new _ _ _ _ _ _ I). rewrite Hr in Hq. injection Hq as <-. pose proof (ri_tree _ _ _ _ (rv_rq _ _ _ _ _ _ I id r Hr) Ht). congruence. }
  pose proof (tree_insert_perm (<[id := r1]> (b_rqs b)) id r1 (b_new b)) as Hp.
  split; simpl; try done; rewrite ?Hf, ?Hf2, ?Ht2.
  - eapply not_in_groups; [done|done|by left].
  - rewrite Hp. constructor; [done|apply I].
  - intros j Hj. rewrite Hp, elem_of_cons. tauto.
  - rewrite Hp, elem_of_cons. split; [done|by left].
  - assert (off_sorted (<[id := r1]> (b_rqs b)) (tree_insert (<[id := r1]> (b_rqs b)) id r1 (b_new b))) as Hso.
    { apply tree_insert_sorted; [by rewrite lookup_insert_eq| |].
      - intros x Hx. destruct (decide (x = id)) as [->|]; [done|]. rewrite lookup_insert_ne by done. apply (rv_in_new _ _ _ _ _ _ I) in Hx as (q & Hq & _). by exists q.
      - pose proof (rv_sorted _ _ _ _ _ _ I) as Hso. clear -Hso Hr Hs1. unfold off_sorted in *. induction Hso as [|a l ? IH Hall]; constructor; [done|].
        eapply Forall_impl; [done|]. simpl. intros j. by rewrite !(λ j, shape_off_at (b_rqs b) id r r1 j Hr Hs1). }
    revert Hso. generalize (tree_insert (<[id := r1]> (b_rqs b)) id r1 (b_new b)). clear -Hr Hs1. intros l Hso. unfold off_sorted in *. induction Hso as [|a l ? IH Hall]; constructor; [done|].
    eapply Forall_impl; [done|]. simpl. intros j. by rewrite !(λ j, shape_off_at (b_rqs b) id r r1 j Hr Hs1).
  - rewrite Hp, (rv_exp _ _ _ _ _ _ I). by rewrite Permutation_app_comm.
  - apply I.
  - split; [intros Hd; by destruct (not_in_debt _ _ _ _ _ _ id r I Hr (or_introl Hf))|by intros [_ ?]].
  - simpl. lia.
  - destruct (hasf (b_flags b) BMAPF_FLUSHQ) eqn:Hq; [rewrite Hq; lia|flags_goal; lia].
  - destruct (hasf (b_flags b) BMAPF_FLUSHQ) eqn:Hq; [rewrite Hq, (rv_onq _ _ _ _ _ _ I), Hq; done|by flags_goal].
  - destruct (hasf (b_flags b) BMAPF_FLUSHQ) eqn:Hq; [apply I|flags_goal; apply I].
  - destruct (hasf (b_flags b) BMAPF_FLUSHQ) eqn:Hq; [apply I|flags_goal; apply I].
Qed.

Definition rq_sched (r : biorq) : biorq := rq_flags r (setf (biorq_flags r) (Z.lor BIORQ_FLUSHRDY BIORQ_ONTREE)).
Lemma rq_sched_inv R id r : rq_inv R id r (Some PSched) → rq_inv R id (rq_sched r) None ∧ rshape r (rq_sched r).
Proof.
  intros [R1 R2 R3 R4 R5 R6 R7 R8 R9 R10 R11]. simpl in R11.
  assert (rfl r BIORQ_READAHEAD = false) as Hra by (destruct (rfl r BIORQ_READAHEAD); [destruct (R5 eq_refl); congruence|done]).
  split; [|by split; simpl; try done; flags_goal]. split; simpl; flags_goal; try done.
  - unfold full_pages in *. simpl. flags_goal. done.
  - intros _. destruct (R6 Hra) as (q & Hq & Hsz & _). exists q. by rewrite R11.
  - by rewrite R11.
  - by rewrite R11 in *.
Qed.
Lemma step_sched tidy s A id : cinv tidy s A → wpb (sched_step id) (λ _ s', cinv tidy s' A) s.
Proof.
  intros C. pose proof (ci_core _ _ _ C) as HC. pose proof HC as (I & O & _). unfold sched_step. wb_step. wb_step.
  destruct (c_thr s !! id) as [[| | | | | | | | |]|] eqn:Ht; try done. apply wpb_of.
  destruct (rv_thr _ _ _ _ _ _ I id ltac:(by eexists)) as [r Hr]. pose proof (rv_rq _ _ _ _ _ _ I id r Hr) as Hri. rewrite Ht in Hri. destruct (rq_sched_inv _ _ _ Hri) as [Hri' Hsh].
  pose proof (ri_pc _ _ _ _ Hri) as Hw. simpl in Hw. assert (biorq_ref r = 1) as Href by (pose proof (ri_ref _ _ _ _ Hri) as Hx; by rewrite Hw in Hx).
  assert (rfl r BIORQ_FLUSHRDY = false) as Hf by (rewrite (ri_rdy _ _ _ _ Hri), andb_false_r; done).
  set (r1 := rq_flags (rq_ref r (biorq_ref r + 1)) (setf (biorq_flags r) (Z.lor BIORQ_FLUSHRDY BIORQ_ONTREE))).
  assert (rq_ref r1 (biorq_ref r1 - 1) = rq_sched r) as Hr2 by (unfold r1, rq_sched, rq_ref, rq_flags, rq_upd; simpl; f_equal; lia).
  assert (rshape r r1) as Hs1 by (by split; simpl; try done; flags_goal).
  set (b' := b_set_rqs (b_sched (c_b s) id r1) (<[id := rq_sched r]> (b_rqs (c_b s)))).
  assert (qchange (c_b s) b' (groups_of s) [] [] id r (rq_sched r)) as HQ.
  { eapply sched_qchange; try done; unfold rq_sched; simpl; by flags_goal. }
  assert (core tidy (c_pc s) b' (c_rd s) (tset (c_thr s) id None) (groups_of s) [] (c_srv s) A) as HC'.
  { eapply (core_queue tidy _ _ _ _ _ _ _ _ _ _ id r (rq_sched r) None); try done.
    - by intros p [_ ?].
    - simpl. flags_goal. intros ?. congruence.
    - intros _ o p Ho Hp. destruct (own_loading _ _ _ _ _ o p O (rv_thr _ _ _ _ _ _ I) Ho) as (e & He & Hfa & _).
      rewrite (ov_hot _ _ _ _ O id r p e Hr) in Hfa; [done| |done]. rewrite Ht. split; [done|]. by rewrite (sh_pages _ _ Hsh) in Hp.
    - by rewrite Ht. }
  assert (∀ s', c_b s' = b_sched (c_b s) id r1 → c_pc s' = c_pc s → c_srv s' = c_srv s → c_wr s' = c_wr s → c_rd s' = c_rd s → c_thr s' = c_thr s → c_fl s' = c_fl s → c_next s' = c_next s →
    wp (_ ← biorq_decref id; endThr id) (λ _ s2, cinv tidy s2 A) s') as Hend.
  { intros s' E1 E2 E3 E4 E5 E6 E7 E8. wp_step. eapply (wp_decref_more _ id r1); [rewrite E1; simpl; by rewrite lookup_insert_eq|unfold r1; simpl; lia|]. apply wp_modify.
    rewrite Hr2. destruct C as [C1 C2 [F1 F2 F3]]. split; simpl; rewrite ?E1, ?E2, ?E3, ?E4, ?E5, ?E6, ?E7, ?E8; simpl.
    - unfold groups_of in *. simpl. rewrite E4, E7. rewrite insert_insert_eq. exact HC'.
    - eapply pass_rq; [exact C2| |].
      + intros j _. simpl. rewrite insert_insert_eq. by eapply shape_off_at.
      + intros j _ Hj. simpl. rewrite tree_insert_perm. by right.
    - split; simpl; rewrite ?E1, ?E4, ?E5, ?E8; try done. simpl. rewrite insert_insert_eq. intros j Hj. apply F1. destruct (decide (j = id)) as [->|]; [by exists r|]. by rewrite lookup_insert_ne in Hj. }
  wp_step. unfold msl_pages_schedflush, getB, setRq, rq_enqueue, modB. wp_step. wp_step. wp_step. apply wp_assert; [apply I|]. wp_step. eapply wp_getRq; [done|]. fold r1.
  wp_step. wp_step. wp_step. wp_step. wp_step. wp_step. apply wp_when; intros Hq; [apply negb_true_iff in Hq; apply wp_modify|apply negb_false_iff in Hq].
  - apply Hend; try done. unfold b_sched. simpl. by rewrite Hq.
  - apply Hend; try done. unfold b_sched. simpl. rewrite Hq. by destruct (c_b s).
Qed.
End queue.
