(* ===== verification/CioFlush.v ===== *)
(** * Pending writes change their state

    Requests expire, leave the tree and come back to it, and are given up. *)
From S2P Require Import Prelude BmapMds ReplReq ReplWalk Lease Slvr SlvrIO Pgcache PgcacheInv Coalesce CoalesceProps Cio CioInv CioFrame CioTop CioStart CioValid CioRead CioLoad CioEnd CioReply CioWrite CioQueue.

(** ** Changes within a request *)

(** Only flags of the flush thread, retries and times change. *)
Record rquiet (r r' : biorq) : Prop := {
  rq_shape' : rshape r r';
  rq_buf' : biorq_buf r' = biorq_buf r;
  rq_fsrq' : biorq_fsrqi r' = biorq_fsrqi r;
  rq_ref' : biorq_ref r' = biorq_ref r;
  rq_read' : rfl r' BIORQ_READ = rfl r BIORQ_READ;
  rq_destroy' : rfl r' BIORQ_DESTROY = rfl r BIORQ_DESTROY;
  rq_rdy' : rfl r' BIORQ_FLUSHRDY = rfl r BIORQ_FLUSHRDY;
}.
Lemma rquiet_inv R id r r' t : rquiet r r' → rq_inv R id r t → (rfl r' BIORQ_ONTREE = true → rfl r BIORQ_FLUSHRDY = true) → rq_inv R id r' t.
Proof.
  intros [[S1 S2 S3 S4 S5] Q2 Q3 Q4 Q5 Q6 Q7] [R1 R2 R3 R4 R5 R6 R7 R8 R9 R10 R11] Ht. split; rewrite ?S1, ?S2, ?S3, ?S4, ?S5, ?Q3, ?Q4, ?Q5, ?Q6, ?Q7; try done.
  - unfold full_pages in *. by rewrite S1, S2, S5.
  - unfold pc_ok in *. unfold biorq_voff_get in *. rewrite S1, S2, S4, S5. done.
Qed.
Lemma rquiet_thr m r r' t : rquiet r r' → thr_ok m r t → thr_ok m r' t.
Proof.
  intros [[S1 S2 S3 S4 S5] Q2 Q3 Q4 Q5 Q6 Q7].
  assert (∀ p, pv m r' p ↔ pv m r p) as Hpv by (intros p; unfold pv, biorq_voff_get; by rewrite S1, S2).
  assert (∀ p, waitable m r' p ↔ waitable m r p) as Hwt by (intros p; unfold waitable; by rewrite Hpv).
  assert (plain_read r' ↔ plain_read r) as Hpl by (unfold plain_read; by rewrite S4, S5).
  assert ((rfl r BIORQ_WRITE = false → match biorq_fsrqi r with Some q => mfsrq_err q = 0 → ∀ p, p ∈ biorq_pages r → pv m r p | None => True end) →
    rfl r' BIORQ_WRITE = false → match biorq_fsrqi r' with Some q => mfsrq_err q = 0 → ∀ p, p ∈ biorq_pages r' → pv m r' p | None => True end) as Hend.
  { intros Hx. rewrite S4, Q3, S3. intros Hw. specialize (Hx Hw). destruct (biorq_fsrqi r); [|done]. intros He p Hp. apply Hpv. by apply Hx. }
  rewrite S3 in Hend. destruct t as [[]|]; simpl; rewrite ?S3, ?Hpl; auto.
  - intros (Ha & Hb & Hc). split_and!; [done|done|]. intros Hp q Hq. apply Hwt. auto.
  - intros (Ha & Hb & Hc). split_and!; [done|done|]. intros Hp q Hq. apply Hwt. auto.
  - intros Hx Hp. destruct (Hx Hp). split; intros q Hq; [apply Hpv|apply Hwt]; auto.
Qed.
Lemma rquiet_hot r r' t p : rquiet r r' → hot r' t p → hot r t p.
Proof. intros [[S1 S2 S3 S4 S5] Q2 Q3 Q4 Q5 Q6 Q7]. unfold hot. by rewrite S3, S4, Q3. Qed.
Lemma core_quiet tidy pc b R T G D srv A id r r' :
  core tidy pc b R T G D srv A → b_rqs b !! id = Some r → rquiet r r' → rfl r' BIORQ_ONTREE = rfl r BIORQ_ONTREE →
  core tidy pc (b_set_rqs b (<[id := r']> (b_rqs b))) R T G D srv A.
Proof.
  intros HC Hr Hq Ht. pose proof HC as (I & O & _). rewrite <-(tset_id T id). pose proof Hq as [[S1 S2 S3 S4 S5] Q2 Q3 Q4 Q5 Q6 Q7].
  eapply core_rq; try done.
  - eapply rquiet_inv; [done|apply (rv_rq _ _ _ _ _ _ I id r Hr)|]. rewrite Ht. apply (rv_rq _ _ _ _ _ _ I id r Hr).
  - eapply rquiet_thr; [done|]. by apply (ov_thr _ _ _ _ O).
  - intros p e Hh. eapply (ov_hot _ _ _ _ O id r); [done|]. by eapply rquiet_hot.
  - intros past p. by rewrite tset_id.
  - intros _. unfold copied_end, biorq_voff_get. by rewrite S1, S2.
Qed.
Lemma cinv_quiet tidy s A id r r' : cinv tidy s A → b_rqs (c_b s) !! id = Some r → rquiet r r' → rfl r' BIORQ_ONTREE = rfl r BIORQ_ONTREE →
  cinv tidy (c_set_b s (b_set_rqs (c_b s) (<[id := r']> (b_rqs (c_b s))))) A.
Proof.
  intros [C1 C2 [F1 F2 F3]] Hr Hq Ht. split; simpl.
  - by eapply core_quiet.
  - eapply pass_rq; [exact C2| |done]. intros j _. simpl. eapply shape_off_at; [done|apply Hq].
  - split; simpl; try done. intros j Hj. apply F1. destruct (decide (j = id)) as [->|]; [by exists r|]. by rewrite lookup_insert_ne in Hj.
Qed.

Section flush.
Context `{PflNetLaws}.

(** ** Expiry *)
Lemma wp_expire_loop tidy A (l : list nat) : ∀ s (Q : unit → cl → Prop),
  cinv tidy s A → (∀ id, id ∈ l → is_Some (b_rqs (c_b s) !! id)) → (∀ s', cinv tidy s' A → Q tt s') → wp (expire_loop l) Q s.
Proof.
  induction l as [|id l IH]; intros s Q C Hl HQ; simpl; [wp_step; by apply HQ|]. destruct (Hl id ltac:(left)) as [r Hr]. wp_step. eapply wp_getRq; [done|].
  destruct (rfl r BIORQ_EXPIRE); [wp_step; by apply HQ|]. unfold setRq, modB. wp_step. wp_step. apply IH; [|intros j Hj; simpl|done].
  - eapply cinv_quiet; [done|done| |simpl; by flags_goal]. split; simpl; try done; try (by flags_goal). split; simpl; try done; by flags_goal.
  - destruct (decide (j = id)) as [->|]; [rewrite lookup_insert_eq; by eexists|]. rewrite lookup_insert_ne by done. apply Hl. by right.
Qed.
Lemma step_expire tidy s A : cinv tidy s A → wpb flush_round (λ _ s', cinv tidy s' A) s.
Proof.
  intros C. pose proof (ci_core _ _ _ C) as (I & _). unfold flush_round, getB. wb_step. wb_step. wb_step. wb_step. apply wpb_of. eapply wp_expire_loop; [done| |done].
  intros id Hid. rewrite list_elem_of_In, <-in_rev, <-list_elem_of_In in Hid. rewrite (rv_exp _ _ _ _ _ _ I) in Hid. apply (rv_in_new _ _ _ _ _ _ I) in Hid as (r & Hr & _). by exists r.
Qed.

(** ** In and out of the tree *)
Lemma ready_idle pc b R T G D id r : rqinv pc b R T G D → b_rqs b !! id = Some r → rfl r BIORQ_FLUSHRDY = true → T !! id = None ∧ rfl r BIORQ_WRITE = true.
Proof. intros I Hr Hf. destruct (rdy_full id r I Hr Hf) as (? & ? & _). done. Qed.
Definition b_dequeue (b : bmapc) (id : nat) (r : biorq) : bmapc :=
  b_set_exp (b_set_new (b_set_rqs b (<[id := r]> (b_rqs b))) (filter (λ x, x ≠ id) (b_new b))) (filter (λ x, x ≠ id) (b_exp b)).
Lemma core_dequeue tidy pc b R T G D srv A id r r' :
  core tidy pc b R T G D srv A → b_rqs b !! id = Some r → rquiet r r' → rfl r BIORQ_ONTREE = true → rfl r' BIORQ_ONTREE = false →
  core tidy pc (b_dequeue b id r') R T G (id :: D) srv A.
Proof.
  intros HC Hr Hq Ht Ht'. pose proof HC as (I & O & _). pose proof (rv_rq _ _ _ _ _ _ I id r Hr) as Hri. pose proof (ri_tree _ _ _ _ Hri Ht) as Hf.
  destruct (ready_idle _ _ _ _ _ _ id r I Hr Hf) as [Hth Hw]. rewrite Hth in Hri. pose proof Hq as [[S1 S2 S3 S4 S5] Q2 Q3 Q4 Q5 Q6 Q7].
  rewrite <-(tset_id T id), Hth. eapply (core_queue tidy pc b _ R T G D (id :: D) srv A id r r' None); try done.
  - eapply rquiet_inv; [done|done|congruence].
  - destruct I as [V1 V2 V3 V4 V5 V6 V7 V8 V9 V10 V11 V12 V13 V14 V15 V16 V17 V18 V19 V20].
    assert (id ∉ g_ids G ++ D) as Hnin by (intros (q & Hq' & _ & ?)%V13; congruence). split; simpl; rewrite ?Ht', ?Q7; try done.
    + intros Hi. apply Hnin, elem_of_app. by left.
    + by apply NoDup_filter.
    + intros j Hj. rewrite filter_ne. tauto.
    + rewrite filter_ne. split; [tauto|done].
    + by apply off_sorted_filter.
    + by rewrite V10.
    + rewrite <-Permutation_middle. by constructor.
    + intros j Hj. rewrite elem_of_cons. tauto.
    + rewrite elem_of_cons. split; [intros _; by rewrite Hf|by left].
    + lia.
  - by intros p [_ ?].
  - simpl. rewrite S4. congruence.
  - intros _ o p Ho Hp. rewrite S3 in Hp. by eapply (ov_past _ _ _ _ O o p id r).
  - rewrite Hth. simpl. unfold biorq_voff_get. by rewrite S1, S2.
Qed.
Definition b_enqueue (b : bmapc) (id : nat) (r r' : biorq) : bmapc :=
  b_set_rqs (b_set_exp (b_set_new b (tree_insert (b_rqs b) id r (b_new b))) (b_exp b ++ [id])) (<[id := r']> (b_rqs b)).
Lemma core_enqueue tidy pc b R T G D srv A id r r' :
  core tidy pc b R T G (id :: D) srv A → b_rqs b !! id = Some r → rquiet r r' → rfl r' BIORQ_ONTREE = true →
  core tidy pc (b_enqueue b id r r') R T G D srv A.
Proof.
  intros HC Hr Hq Ht'. pose proof HC as (I & O & _). pose proof (rv_rq _ _ _ _ _ _ I id r Hr) as Hri.
  assert (rfl r BIORQ_FLUSHRDY = true ∧ rfl r BIORQ_ONTREE = false) as [Hf Ht].
  { destruct (proj1 (rv_flight _ _ _ _ _ _ I id)) as (q & Hq' & ? & ?); [apply elem_of_app; right; left|]. rewrite Hr in Hq'. by injection Hq' as <-. }
  destruct (ready_idle _ _ _ _ _ _ id r I Hr Hf) as [Hth Hw]. rewrite Hth in Hri. pose proof Hq as [[S1 S2 S3 S4 S5] Q2 Q3 Q4 Q5 Q6 Q7].
  rewrite <-(tset_id T id), Hth. eapply (core_queue tidy pc b _ R T G (id :: D) D srv A id r r' None); try done.
  - eapply rquiet_inv; [done|done|congruence].
  - destruct I as [V1 V2 V3 V4 V5 V6 V7 V8 V9 V10 V11 V12 V13 V14 V15 V16 V17 V18 V19 V20].
    assert (id ∉ b_new b) as Hnn by (intros (q & Hq' & ?)%V8; congruence). pose proof (tree_insert_perm (b_rqs b) id r (b_new b)) as Hp.
    pose proof V12 as Hnd. rewrite <-Permutation_middle in Hnd. apply NoDup_cons in Hnd as [Hnd1 Hnd2].
    split; simpl; rewrite ?Ht', ?Q7; try done.
    + intros Hi. apply Hnd1, elem_of_app. by left.
    + rewrite Hp. by constructor.
    + intros j Hj. rewrite Hp, elem_of_cons. tauto.
    + rewrite Hp, elem_of_cons. split; [done|by left].
    + apply tree_insert_sorted; [done| |done]. intros x (q & Hx & _)%V8. by exists q.
    + rewrite Hp, V10. by rewrite Permutation_app_comm.
    + intros j Hj. rewrite elem_of_cons. tauto.
    + split; [intros Hi; destruct Hnd1; apply elem_of_app; by right|by intros [_ ?]].
    + lia.
  - by intros p [_ ?].
  - simpl. rewrite S4. congruence.
  - intros _ o p Ho Hp. rewrite S3 in Hp. by eapply (ov_past _ _ _ _ O o p id r).
  - rewrite Hth. simpl. unfold biorq_voff_get. by rewrite S1, S2.
Qed.

(** ** Requests that are sent again or given up *)

(** The invariant while the flush thread or the callback of an RPC works on
    requests: [G] and [D] say where they are, and [l] is left of a pass. *)
Definition finv (tidy : bool) (s : cl) (G : list grp) (D : list nat) (l : list nat) (A : data) : Prop :=
  core tidy (c_pc s) (c_b s) (c_rd s) (c_thr s) G D (c_srv s) A ∧ pass_ok (c_b s) l ∧ fresh s.
Lemma finv_core tidy s G D l A : finv tidy s G D l A → core tidy (c_pc s) (c_b s) (c_rd s) (c_thr s) G D (c_srv s) A.
Proof. by intros [? _]. Qed.
Lemma finv_set tidy s G D D' l A pc' b' :
  finv tidy s G D l A → core tidy pc' b' (c_rd s) (c_thr s) G D' (c_srv s) A → (∀ j, is_Some (b_rqs b' !! j) → is_Some (b_rqs (c_b s) !! j)) →
  (∀ j, j ∈ l → off_at (b_rqs b') j = off_at (b_rqs (c_b s)) j) → (∀ j, j ∈ l → j ∈ b_new (c_b s) → j ∈ b_new b') →
  finv tidy (c_set_b (c_set_pc s pc') b') G D' l A.
Proof.
  intros (_ & HP & [F1 F2 F3]) HC Hd Ho Hn. split_and!; [done|by eapply pass_rq|]. split; simpl; try done. intros j Hj. by apply F1, Hd.
Qed.
(** Where a pending write is. *)
Definition pending (b : bmapc) (D : list nat) (id : nat) (tree : bool) : Prop :=
  ∃ r, b_rqs b !! id = Some r ∧ rfl r BIORQ_FLUSHRDY = true ∧ rfl r BIORQ_ONTREE = tree ∧ (tree = false → id ∈ D).

Definition eio_page (rc : Z) (_ : Z) (e : bmpce) : bmpce := pce_rc (pce_flags e (setf (bmpce_flags e) BMPCEF_EIO)) rc.
Lemma wp_bmpces_fail tidy s b R T G D srv A id r rc (Q : unit → cl → Prop) :
  core tidy (c_pc s) b R T G D srv A → b_rqs b !! id = Some r → b_rqs (c_b s) !! id = Some r → rfl r BIORQ_WRITE = true → rc ≠ 0 →
  (∀ pc', core tidy pc' b R T G D srv A → Q tt (c_set_pc s pc')) → wp (msl_bmpces_fail id rc) Q s.
Proof.
  intros HC Hr Hr' Hw Hrc HQ. pose proof HC as (I & _). unfold msl_bmpces_fail. wp_step. eapply wp_getRq; [done|]. rewrite Hw. simpl. apply wp_lift.
  eapply (wp_each_mod (eio_page rc)); [apply I|by eapply (rq_pages_nodup id r), (rv_rq _ _ _ _ _ _ I)| | |].
  - intros p Hp. by apply (rq_pages_in id r p I Hr).
  - intros p e. unfold pc_same, eio_page. simpl. split_and!; try done; by flags_goal.
  - intros pc' I' Hm. apply HQ. eapply (core_mod (λ _, False)); [exact HC|done|exact Hm| |tauto]. intros p e _ _. unfold eio_page. simpl.
    split; [|by flags_goal]. split; simpl; try done; try (by flags_goal). right. right. split; [by flags_goal|done].
Qed.

(** A pending write is given up after an error. *)
Lemma wp_give_up tidy s G D D' l A id r rc (Q : unit → cl → Prop) :
  finv tidy s G D l A → b_rqs (c_b s) !! id = Some r → rfl r BIORQ_FLUSHRDY = true → rc ≠ 0 → id ∉ l → b_flushrc (c_b s) ≠ 0 →
  D ≡ₚ (if rfl r BIORQ_ONTREE then D' else id :: D') →
  (∀ pc', finv tidy (c_set_b (c_set_pc s pc') (b_without id (c_b s) r)) G D' l A → Q tt (c_set_b (c_set_pc s pc') (b_without id (c_b s) r))) →
  wp (_ ← msl_bmpces_fail id rc; biorq_decref id) Q s.
Proof.
  intros F Hr Hf Hrc Hl Hfl HD HQ. pose proof (finv_core _ _ _ _ _ _ F) as HC. pose proof HC as (I & _). destruct (ready_idle _ _ _ _ _ _ id r I Hr Hf) as [Hth Hw].
  pose proof (rv_rq _ _ _ _ _ _ I id r Hr) as [R1 R2 R3 R4 R5 R6 R7 R8 R9 R10 R11]. rewrite Hw in R9.
  assert (b_set_rqs (c_b s) (<[id := r]> (b_rqs (c_b s))) = c_b s) as Hb by (rewrite insert_id by done; by destruct (c_b s)).
  wp_step. eapply (wp_bmpces_fail tidy s (c_b s)); [exact HC|done|done|done|done|]. intros pc' HC'.
  eapply (wp_decref_last tidy _ (c_b s) (c_rd s) (c_rd s) G D D' A id r r); simpl; try done.
  - by rewrite Hth.
  - intros rid v Hv. split; [done|]. intros Hrq. destruct (rv_rd _ _ _ _ _ _ I rid v Hv) as (q0 & Hq0 & Hw0). rewrite Hrq, Hr in Hq0. injection Hq0 as <-. congruence.
  - rewrite Hf. simpl. by destruct (rfl r BIORQ_ONTREE).
  - intros pc2 HC2. rewrite delete_id in HC2 by done. apply (HQ pc2). eapply finv_set; [done|done| | |].
    + intros j Hj. simpl in Hj. destruct (decide (j = id)) as [->|]; [by exists r|]. by rewrite lookup_delete_ne in Hj.
    + intros j Hj. simpl. unfold off_at. rewrite lookup_delete_ne; [done|]. by intros <-.
    + intros j Hj Hn. simpl. apply filter_ne. split; [done|]. by intros ->.
Qed.

(** [bmap_flush_resched] after an error. *)
Lemma wp_resched tidy s G D D' l A now rc id (Q : unit → cl → Prop) :
  finv tidy s G D l A → rc ≠ 0 → id ∉ l → (∀ r, b_rqs (c_b s) !! id = Some r → D ≡ₚ (if rfl r BIORQ_ONTREE then D' else id :: D')) →
  (∃ r, b_rqs (c_b s) !! id = Some r ∧ rfl r BIORQ_FLUSHRDY = true) →
  (∀ pc' b', finv tidy (c_set_b (c_set_pc s pc') b') G D' l A → (∀ j, j ≠ id → b_rqs b' !! j = b_rqs (c_b s) !! j) → Q tt (c_set_b (c_set_pc s pc') b')) →
  wp (bmap_flush_resched now rc id) Q s.
Proof.
  intros F0 Hrc Hl HD0 (r & Hr & Hf) HQ0. specialize (HD0 r Hr). unfold bmap_flush_resched, modB, getB.
  match goal with |- wp (mbind ?k _) _ _ => assert (∀ s, finv tidy s G D l A → b_rqs (c_b s) !! id = Some r →
    (∀ pc' b', finv tidy (c_set_b (c_set_pc s pc') b') G D' l A → (∀ j, j ≠ id → b_rqs b' !! j = b_rqs (c_b s) !! j) → Q tt (c_set_b (c_set_pc s pc') b')) → wp (k tt) Q s) as Hgo end.
  { clear F0 HQ0 Hr s. intros s F Hr HQ. wp_step. eapply wp_getRq; [done|].
    destruct ((rc =? - ENOSPC) || (biorq_retries r >=? SL_MAX_BMAPFLSH_RETRIES)).
    - wp_step. wp_step. apply Z.eqb_neq in Hrc as Hrc'. rewrite Hrc'. simpl.
      set (b1 := if b_flushrc (c_b s) =? 0 then b_set_flushrc (c_b s) rc else c_b s). 
      assert (b_rqs b1 = b_rqs (c_b s) ∧ b_new b1 = b_new (c_b s) ∧ b_flushrc b1 ≠ 0 ∧ bsame (c_b s) b1) as (E1 & E2 & E3 & E4).
      { unfold b1. destruct (Z.eqb_spec (b_flushrc (c_b s)) 0); simpl; split_and!; try done; split; try done; intros; by left. }
      assert (finv tidy (c_set_b s b1) G D l A) as F1.
      { destruct F as (HC & HP & HF). split_and!; [eapply core_b; [exact HC|exact E4|done]|by eapply pass_b|]. destruct HF. split; simpl; try done. by rewrite E1. }
      eapply (wp_give_up tidy _ G D D' l A id r rc); try done; [simpl; by rewrite E1|]. intros pc' F2. apply HQ; [done|]. intros j Hj. simpl. rewrite lookup_delete_ne by done. by rewrite E1.
    - assert (∀ n x, let r' := rq_retry r (clrf (setf (biorq_flags r) BIORQ_ONTREE) BIORQ_EXPIRE) n (biorq_last_sliod r) x in rquiet r r' ∧ rfl r' BIORQ_ONTREE = true) as Hqr.
      { intros n x. split; [split; simpl; try done; try (by flags_goal); split; simpl; try done; by flags_goal|simpl; by flags_goal]. }
      wp_step. apply wp_when; intros Ht; [apply negb_true_iff in Ht|apply negb_false_iff in Ht].
      + rewrite Ht in HD0. unfold rq_enqueue, modB. wp_step. wp_step. wp_step. unfold setRq, modB. wp_step.
        match goal with |- context [rq_retry r ?f ?n ?x ?y] => set (r' := rq_retry r f n x y); destruct (Hqr n y) as [Hq Ht'] end. fold r' in Hq, Ht'.
        pose proof (core_enqueue tidy (c_pc s) (c_b s) (c_rd s) (c_thr s) G D' (c_srv s) A id r r') as HE.
        specialize (HQ (c_pc s) (b_enqueue (c_b s) id r r')). destruct s as [spc sb ssrv sfsz swr srd sthr sfl snx sout]. apply HQ.
        * eapply (finv_set tidy _ G D D' l A spc); [exact F|apply HE; try done; eapply core_perm; [exact (finv_core _ _ _ _ _ _ F)|done|done]| | |].
          -- intros j Hj. simpl in *. destruct (decide (j = id)) as [->|]; [by exists r|]. by rewrite lookup_insert_ne in Hj.
          -- intros j Hj. simpl. eapply shape_off_at; [exact Hr|apply Hq].
          -- intros j Hj Hn. simpl in *. rewrite tree_insert_perm. by right.
        * intros j Hj. simpl. by rewrite lookup_insert_ne.
      + rewrite Ht in HD0. wp_step. wp_step. unfold setRq, modB. wp_step.
        match goal with |- context [rq_retry r ?f ?n ?x ?y] => set (r' := rq_retry r f n x y); destruct (Hqr n y) as [Hq Ht'] end. fold r' in Hq, Ht'.
        specialize (HQ (c_pc s) (b_set_rqs (c_b s) (<[id := r']> (b_rqs (c_b s))))). destruct s as [spc sb ssrv sfsz swr srd sthr sfl snx sout]. apply HQ.
        * eapply (finv_set tidy _ G D D' l A spc); [exact F| | | |done].
          -- eapply core_quiet; [eapply core_perm; [exact (finv_core _ _ _ _ _ _ F)|done|done]|done|done|]. by rewrite Ht', Ht.
          -- intros j Hj. simpl in *. destruct (decide (j = id)) as [->|]; [by exists r|]. by rewrite lookup_insert_ne in Hj.
          -- intros j Hj. simpl. eapply shape_off_at; [exact Hr|apply Hq].
        * intros j Hj. simpl. by rewrite lookup_insert_ne. }
  wp_step. apply wp_when; intros Hx; [|by apply Hgo]. wp_step. set (b1 := b_set_flags (c_b s) _). apply Hgo; [|done|].
  - destruct F0 as (HC & HP & HF). split_and!; [eapply core_b; [exact HC| |done]|done|by destruct HF]. split; simpl; try done; try (by flags_goal). flags_goal. intros ?. by left.
  - intros pc' b' F' Hj. exact (HQ0 pc' b' F' Hj).
Qed.

(** ** Loops over the requests of a group *)
Lemma debt_pending pc b R T G D id : rqinv pc b R T G D → id ∈ D → ∃ r, b_rqs b !! id = Some r ∧ rfl r BIORQ_FLUSHRDY = true ∧ rfl r BIORQ_ONTREE = false.
Proof. intros I Hd. apply (rv_flight _ _ _ _ _ _ I), elem_of_app. by right. Qed.
Lemma wp_each_resched tidy A now rc ids : ∀ s G D l (Q : unit → cl → Prop),
  finv tidy s G (ids ++ D) l A → rc ≠ 0 →
  (∀ pc' b', finv tidy (c_set_b (c_set_pc s pc') b') G D l A → Q tt (c_set_b (c_set_pc s pc') b')) → wp (each_rq (bmap_flush_resched now rc) ids) Q s.
Proof.
  induction ids as [|id ids IH]; intros s G D l Q F Hrc HQ; simpl.
  { wp_step. specialize (HQ (c_pc s) (c_b s)). destruct s. by apply HQ. }
  pose proof (finv_core _ _ _ _ _ _ F) as (I & _). destruct (debt_pending _ _ _ _ _ _ id I ltac:(left)) as (r & Hr & Hf & Ht). wp_step.
  eapply (wp_resched tidy s G _ (ids ++ D) l A now rc id); [exact F|done| | |by exists r|].
  - destruct F as (_ & HP & _). by eapply not_in_pass.
  - intros r0. rewrite Hr. intros [= <-]. by rewrite Ht.
  - intros pc' b' F' _. eapply IH; [exact F'|done|]. intros pc2 b2 F2. exact (HQ pc2 b2 F2).
Qed.
(** The requests of a group that could not be sent are still in the tree. *)
Lemma wp_each_resched_tree tidy A now rc ids : ∀ s G D l (Q : unit → cl → Prop),
  finv tidy s G D l A → rc ≠ 0 → NoDup ids → (∀ id, id ∈ ids → id ∉ l ∧ ∃ r, b_rqs (c_b s) !! id = Some r ∧ rfl r BIORQ_FLUSHRDY = true ∧ rfl r BIORQ_ONTREE = true) →
  (∀ pc' b', finv tidy (c_set_b (c_set_pc s pc') b') G D l A → Q tt (c_set_b (c_set_pc s pc') b')) → wp (each_rq (bmap_flush_resched now rc) ids) Q s.
Proof.
  induction ids as [|id ids IH]; intros s G D l Q F Hrc Hnd Hids HQ; simpl.
  { wp_step. specialize (HQ (c_pc s) (c_b s)). destruct s. by apply HQ. }
  apply NoDup_cons in Hnd as [Hid Hnd]. destruct (Hids id ltac:(left)) as (Hl & r & Hr & Hf & Ht). wp_step.
  eapply (wp_resched tidy s G D D l A now rc id); [exact F|done|done| |by exists r|].
  - intros r0. rewrite Hr. intros [= <-]. by rewrite Ht.
  - intros pc' b' F' Hoth. eapply IH; [exact F'|done|done| |].
    + intros j Hj. destruct (Hids j ltac:(by right)) as (Hjl & q & Hq & ?). split; [done|]. exists q. split; [|done]. simpl. rewrite Hoth; [done|]. by intros ->.
    + intros pc2 b2 F2. exact (HQ pc2 b2 F2).
Qed.
Lemma wp_each_given_up tidy A rc ids : ∀ s G D l (Q : unit → cl → Prop),
  finv tidy s G (ids ++ D) l A → rc ≠ 0 → b_flushrc (c_b s) ≠ 0 →
  (∀ pc' b', finv tidy (c_set_b (c_set_pc s pc') b') G D l A → Q tt (c_set_b (c_set_pc s pc') b')) →
  wp (each_rq (λ id, _ ← msl_bmpces_fail id rc; biorq_decref id) ids) Q s.
Proof.
  induction ids as [|id ids IH]; intros s G D l Q F Hrc Hfl HQ; simpl.
  { wp_step. specialize (HQ (c_pc s) (c_b s)). destruct s. by apply HQ. }
  pose proof (finv_core _ _ _ _ _ _ F) as (I & _). destruct (debt_pending _ _ _ _ _ _ id I ltac:(left)) as (r & Hr & Hf & Ht). wp_step.
  eapply (wp_give_up tidy s G _ (ids ++ D) l A id r rc); try done.
  - destruct F as (_ & HP & _). by eapply not_in_pass.
  - by rewrite Ht.
  - intros pc' F'. eapply IH; [exact F'|done|done|]. intros pc2 b2 F2. exact (HQ pc2 b2 F2).
Qed.
(** The requests of a group that the server has are done. *)
Lemma wp_each_written tidy A ids : ∀ s G D l (Q : unit → cl → Prop),
  finv tidy s G (ids ++ D) l A →
  (b_flushrc (c_b s) = 0 → ∀ id r x, id ∈ ids → b_rqs (c_b s) !! id = Some r → biorq_off r ≤ x < biorq_voff_get r → c_srv s x = A x) →
  (∀ pc' b', finv tidy (c_set_b (c_set_pc s pc') b') G D l A → Q tt (c_set_b (c_set_pc s pc') b')) → wp (each_rq biorq_decref ids) Q s.
Proof.
  induction ids as [|id ids IH]; intros s G D l Q F Hsrv HQ; simpl.
  { wp_step. specialize (HQ (c_pc s) (c_b s)). destruct s. by apply HQ. }
  pose proof (finv_core _ _ _ _ _ _ F) as HC. pose proof HC as (I & _). destruct (debt_pending _ _ _ _ _ _ id I ltac:(left)) as (r & Hr & Hf & Ht). wp_step.
  destruct (ready_idle _ _ _ _ _ _ id r I Hr Hf) as [Hth Hw]. pose proof (rv_rq _ _ _ _ _ _ I id r Hr) as [R1 R2 R3 R4 R5 R6 R7 R8 R9 R10 R11]. rewrite Hw in R9.
  assert (b_set_rqs (c_b s) (<[id := r]> (b_rqs (c_b s))) = c_b s) as Hb by (rewrite insert_id by done; by destruct (c_b s)).
  assert (id ∉ l) as Hl by (destruct F as (_ & HP & _); by eapply not_in_pass).
  eapply (wp_decref_last tidy _ (c_b s) (c_rd s) (c_rd s) G _ (ids ++ D) A id r r); simpl; try done.
  - by rewrite Hth.
  - intros rid v Hv. split; [done|]. intros Hrq. destruct (rv_rd _ _ _ _ _ _ I rid v Hv) as (q0 & Hq0 & Hw0). rewrite Hrq, Hr in Hq0. injection Hq0 as <-. congruence.
  - by rewrite Hf, Ht.
  - intros Hfl x _ Hx. rewrite Hth in Hx. simpl in Hx. eapply (Hsrv Hfl id r x); [left|done|done].
  - intros pc' HC'. rewrite delete_id in HC' by done. eapply (IH _ G D l).
    + eapply finv_set; [exact F|exact HC'| | |].
      * intros j Hj. simpl in Hj. destruct (decide (j = id)) as [->|]; [by exists r|]. by rewrite lookup_delete_ne in Hj.
      * intros j Hj. simpl. unfold off_at. rewrite lookup_delete_ne; [done|]. by intros <-.
      * intros j Hj Hn. simpl. apply filter_ne. split; [done|]. by intros ->.
    + simpl. intros Hfl j q x Hj [_ Hq]%lookup_delete_Some. eapply Hsrv; [done|by right|done].
    + intros pc2 b2 F2. exact (HQ pc2 b2 F2).
Qed.
(** Requests leave the tree to be sent or given up. *)
Lemma wp_each_dequeue tidy A (f : nat → CM unit) ids : ∀ s G D l (Q : unit → cl → Prop),
  (∀ s id r (Q : unit → cl → Prop), b_rqs (c_b s) !! id = Some r → rfl r BIORQ_FLUSHRDY = true → id ∈ b_new (c_b s) → id ∈ b_exp (c_b s) →
    (∀ r', rquiet r r' → rfl r' BIORQ_ONTREE = false → Q tt (c_set_b s (b_dequeue (c_b s) id r'))) → wp (f id) Q s) →
  finv tidy s G D l A → NoDup ids → (∀ id, id ∈ ids → id ∈ b_new (c_b s) ∧ id ∉ l) →
  (∀ b', finv tidy (c_set_b s b') G (ids ++ D) l A → b_flushrc b' = b_flushrc (c_b s) →
    (∀ id r, b_rqs (c_b s) !! id = Some r → ∃ r', b_rqs b' !! id = Some r' ∧ rshape r r' ∧ (rfl r BIORQ_FLUSHRDY = true → rfl r' BIORQ_FLUSHRDY = true)) → Q tt (c_set_b s b')) →
  wp (each_rq f ids) Q s.
Proof.
  induction ids as [|id ids IH]; intros s G D l Q Hfun F Hnd Hids HQ; simpl.
  { wp_step. specialize (HQ (c_b s)). destruct s. apply HQ; [done|done|]. intros id r Hr. exists r. by split_and!. }
  apply NoDup_cons in Hnd as [Hid Hnd]. destruct (Hids id ltac:(left)) as [Hin Hl]. pose proof (finv_core _ _ _ _ _ _ F) as HC. pose proof HC as (I & _).
  destruct (proj1 (rv_in_new _ _ _ _ _ _ I id) Hin) as (r & Hr & Ht). pose proof (ri_tree _ _ _ _ (rv_rq _ _ _ _ _ _ I id r Hr) Ht) as Hf.
  wp_step. eapply (Hfun s id r); [done|done|done|by rewrite (rv_exp _ _ _ _ _ _ I)|]. intros r' Hq Ht'. pose proof (core_dequeue _ _ _ _ _ _ _ _ _ id r r' HC Hr Hq Ht Ht') as HC'.
  eapply (IH _ G (id :: D) l); [done| |done| |].
  - pose proof (finv_set tidy s G D (id :: D) l A (c_pc s) (b_dequeue (c_b s) id r') F HC') as HX. destruct s. apply HX.
    + intros j Hj. simpl in *. destruct (decide (j = id)) as [->|]; [by exists r|]. by rewrite lookup_insert_ne in Hj.
    + intros j Hj. simpl. eapply shape_off_at; [exact Hr|apply Hq].
    + intros j Hj Hn. simpl. apply filter_ne. split; [done|]. by intros ->.
  - intros j Hj. destruct (Hids j ltac:(by right)) as [Hjn Hjl]. split; [|done]. simpl. apply filter_ne. split; [done|]. by intros ->.
  - intros b' F' Hfl Hsh. apply (HQ b'); [|done|].
    + destruct F' as (HC2 & HP2 & HF2). split_and!; try done. eapply core_perm; [exact HC2|done|]. simpl. by rewrite Permutation_middle.
    + intros j q Hq0. destruct (decide (j = id)) as [->|Hj].
      * rewrite Hr in Hq0. injection Hq0 as <-. destruct (Hsh id r') as (r2 & Hr2 & Hs2 & Hf2); [simpl; by rewrite lookup_insert_eq|]. exists r2. split; [done|].
        destruct Hq as [[S1 S2 S3 S4 S5] Q2 Q3 Q4 Q5 Q6 Q7]. destruct Hs2. split; [split; congruence|]. intros _. apply Hf2. congruence.
      * apply Hsh. simpl. by rewrite lookup_insert_ne.
Qed.
End flush.
