(* ===== verification/CioSend.v ===== *)
(** * The flush thread

    A pass of the flush thread over the pending writes of a bmap, and the RPCs
    that carry them to the server. *)
From S2P Require Import Prelude BmapMds ReplReq ReplWalk Lease Slvr SlvrIO Pgcache PgcacheInv Coalesce CoalesceProps Cio CioInv CioFrame CioTop CioStart CioValid CioRead CioLoad CioEnd CioReply CioWrite CioQueue CioFlush.

Section send.
Context `{PflNetLaws}.

Lemma cinv_finv tidy s A : cinv tidy s A ↔ finv tidy s (groups_of s) [] (pass_of (c_fl s)) A.
Proof. split; [by intros [C1 C2 C3]|by intros (C1 & C2 & C3)]. Qed.
(** A state with the same groups and another place of the flush thread. *)
Lemma finv_fl tidy s G D l A f : finv tidy s G D l A → finv tidy (c_set_fl s f) G D l A.
Proof. intros (HC & HP & []). by split_and!. Qed.
Lemma pass_ok_drop b l n : pass_ok b l → pass_ok b (drop n l).
Proof.
  intros (P1 & P2 & P3). split_and!.
  - rewrite <-(take_drop n l) in P1. by apply NoDup_app in P1 as (_ & _ & ?).
  - unfold off_sorted in *. rewrite <-(take_drop n l) in P2. by apply StronglySorted_app_1_r in P2.
  - intros j Hj. apply P3. by eapply elem_of_drop_in.
Qed.

(** ** The beginning of a pass *)
Lemma wp_destroy_dequeue s id r (Q : unit → cl → Prop) : b_rqs (c_b s) !! id = Some r → rfl r BIORQ_FLUSHRDY = true → id ∈ b_new (c_b s) → id ∈ b_exp (c_b s) →
  (∀ r', rquiet r r' → rfl r' BIORQ_ONTREE = false → Q tt (c_set_b s (b_dequeue (c_b s) id r'))) → wp (destroy_dequeue id) Q s.
Proof.
  intros Hr Hf Hn He HQ. unfold destroy_dequeue, setRq, rq_dequeue, getB, modB. wp_step. eapply wp_getRq; [done|]. wp_step. apply wp_assert; [done|]. wp_step. wp_step.
  wp_step. wp_step. wp_step. apply wp_assert; [by apply bool_decide_true|]. wp_step. apply wp_assert; [by apply bool_decide_true|]. wp_step.
  apply (HQ (rq_flags r (clrf (biorq_flags r) BIORQ_ONTREE))); [|simpl; by flags_goal]. split; simpl; try done; try (by flags_goal). split; simpl; try done; by flags_goal.
Qed.
Lemma wp_send_dequeue s id r (Q : unit → cl → Prop) : b_rqs (c_b s) !! id = Some r → rfl r BIORQ_FLUSHRDY = true → id ∈ b_new (c_b s) → id ∈ b_exp (c_b s) →
  (∀ r', rquiet r r' → rfl r' BIORQ_ONTREE = false → Q tt (c_set_b s (b_dequeue (c_b s) id r'))) → wp (send_dequeue id) Q s.
Proof.
  intros Hr Hf Hn He HQ. unfold send_dequeue, setRq, rq_dequeue, getB, modB. wp_step. eapply wp_getRq; [done|]. wp_step. wp_step. wp_step. wp_step.
  wp_step. wp_step. wp_step. apply wp_assert; [by apply bool_decide_true|]. wp_step. apply wp_assert; [by apply bool_decide_true|]. wp_step.
  apply (HQ (rq_retry r (clrf (biorq_flags r) BIORQ_ONTREE) (biorq_retries r) (b_ios (c_b s)) (biorq_expire r))); [|simpl; by flags_goal].
  split; simpl; try done; try (by flags_goal). split; simpl; try done; by flags_goal.
Qed.
Lemma wp_destroy_locked tidy s G D A rc (Q : unit → cl → Prop) :
  finv tidy s G D [] A → rc ≠ 0 → (∀ pc' b', finv tidy (c_set_b (c_set_pc s pc') b') G D [] A → Q tt (c_set_b (c_set_pc s pc') b')) → wp (bmpc_biorqs_destroy_locked rc) Q s.
Proof.
  intros F Hrc HQ. unfold bmpc_biorqs_destroy_locked, modB, getB. wp_step. wp_step. apply Z.eqb_neq in Hrc as Hrc'. rewrite Hrc'. simpl.
  set (b1 := if b_flushrc (c_b s) =? 0 then b_set_flushrc (c_b s) rc else c_b s).
  assert (b_rqs b1 = b_rqs (c_b s) ∧ b_new b1 = b_new (c_b s) ∧ b_flushrc b1 ≠ 0 ∧ bsame (c_b s) b1) as (E1 & E2 & E3 & E4).
  { unfold b1. destruct (Z.eqb_spec (b_flushrc (c_b s)) 0); simpl; split_and!; try done; split; try done; intros; by left. }
  assert (finv tidy (c_set_b s b1) G D [] A) as F1.
  { destruct F as (HC & HP & HF). split_and!; [eapply core_b; [exact HC|exact E4|done]|by eapply pass_b|]. destruct HF. split; simpl; try done. by rewrite E1. }
  pose proof (finv_core _ _ _ _ _ _ F1) as (I1 & _). wp_step. wp_step. wp_step.
  eapply (wp_each_dequeue tidy A destroy_dequeue _ _ G D []); [intros; by eapply wp_destroy_dequeue|exact F1|apply I1|intros id Hid; split; [done|apply not_elem_of_nil]|].
  intros b2 F2 Hfl _. eapply (wp_each_given_up tidy A rc _ _ G D []); [exact F2|done|simpl; by rewrite Hfl|]. intros pc' b' F3. exact (HQ pc' b' F3).
Qed.
Lemma step_flush_begin tidy s A secs : cinv tidy s A → wpb (flush_begin secs) (λ _ s', cinv tidy s' A) s.
Proof.
  intros C. pose proof (ci_core _ _ _ C) as (I & O & _). unfold flush_begin. wb_step. wb_step. destruct (c_fl s) eqn:Hfl; try done. wb_step. wb_step.
  wb_step. apply wpb_of, wp_assert; [by rewrite <-(rv_onq _ _ _ _ _ _ I)|]. wb_step. unfold bmap_flushable, getB. apply wpb_of.
  assert (∀ go : bool, wpb (_ ← wait_until (go || hasf (b_flags (c_b s)) BMAPF_LEASEFAILED);
      if hasf (b_flags (c_b s)) BMAPF_LEASEFAILED then bmpc_biorqs_destroy_locked (b_error (c_b s))
      else _ ← modB (λ b, b_set_flags b (setf (b_flags b) BMAPF_SCHED)); setFl (FPass (b_new (c_b s)))) (λ _ s', cinv tidy s' A) s) as Hgo.
  { intros go. wb_step. wb_step. destruct (hasf (b_flags (c_b s)) BMAPF_LEASEFAILED) eqn:Hlf.
    - apply wpb_of. apply cinv_finv in C. rewrite Hfl in C. simpl in C. eapply (wp_destroy_locked tidy s (groups_of s) [] A); [exact C|by apply (rv_lease _ _ _ _ _ _ I)|].
      intros pc' b' F'. apply cinv_finv. simpl. rewrite Hfl. exact F'.
    - unfold modB. wb_step. wb_step. apply wpb_of, wp_modify.
      assert (cinv tidy (c_set_b s (b_set_flags (c_b s) (setf (b_flags (c_b s)) BMAPF_SCHED))) A) as [C1 C2 C3].
      { apply cinv_b; [done| |done]. split; simpl; try done; try (by flags_goal). flags_goal. intros ?. by left. }
      split; simpl in *; [|split_and!; [apply I|apply I|done]|by destruct C3]. unfold groups_of in *. simpl in *. by rewrite Hfl in C1. }
  wp_step. wp_step. destruct (b_new (c_b s)) as [|id l] eqn:Hn; [wp_step; apply Hgo|]. 
  destruct (proj1 (rv_in_new _ _ _ _ _ _ I id)) as (r & Hr & Ht); [rewrite Hn; left|]. wp_step. eapply wp_getRq; [done|]. wp_step.
  apply wp_assert; [by apply (ri_tree _ _ _ _ (rv_rq _ _ _ _ _ _ I id r Hr))|]. wp_step. apply Hgo.
Qed.

(** ** Groups *)
Lemma joined_cover l : ∀ hi x, joined hi l → hi ≤ x < reach hi l → ∃ r, r ∈ l ∧ biorq_off r ≤ x < biorq_voff_get r.
Proof.
  induction l as [|r l IH]; intros hi x Hj Hx; simpl in *; [lia|]. destruct Hj as [Ho Hj]. destruct (decide (x < biorq_voff_get r)) as [|Hn].
  - exists r. split; [left|lia].
  - destruct (IH (Z.max hi (biorq_voff_get r)) x Hj) as (q & Hq & ?); [lia|]. exists q. split; [by right|done].
Qed.
Lemma group_range rs g : group_of rs g → StronglySorted off_le rs →
  (∀ r, r ∈ rs → bwc_soff g ≤ biorq_off r ∧ biorq_voff_get r ≤ bwc_soff g + bwc_size g) ∧
  (∀ x, bwc_soff g ≤ x < bwc_soff g + bwc_size g → ∃ r, r ∈ rs ∧ biorq_off r ≤ x < biorq_voff_get r).
Proof.
  destruct rs as [|r rs]; [done|]. intros (Hso & Hj & Hre) Hs. apply StronglySorted_inv in Hs as [Hs Hall]. rewrite Forall_forall in Hall. split.
  - intros q [->|Hq]%elem_of_cons; [pose proof (reach_ge (biorq_voff_get r) rs); lia|]. specialize (Hall q Hq). unfold off_le in Hall. pose proof (reach_elem (biorq_voff_get r) rs q Hq). lia.
  - intros x Hx. destruct (decide (x < biorq_voff_get r)); [exists r; split; [left|lia]|]. destruct (joined_cover rs _ x Hj) as (q & Hq & ?); [lia|]. exists q. split; [by right|done].
Qed.

Lemma g_ids_cons g G : g_ids (g :: G) = bwc_biorqs (g_bwc g) ++ g_ids G.
Proof. done. Qed.
Lemma g_pins_cons g G : g_pins (g :: G) = take (g_pin g) (bwc_bmpces (g_bwc g)) ++ g_pins G.
Proof. done. Qed.
(** Requests that left the tree become a group. *)
Lemma core_join tidy pc b R T G D srv A g :
  core tidy pc b R T G (bwc_biorqs (g_bwc g) ++ D) srv A → g_ok (b_rqs b) g → g_pin g = 0%nat → g_app g = false → core tidy pc b R T (g :: G) D srv A.
Proof.
  intros (I & O & K & HK & HD) Hg Hp Ha. split; [|split; [done|exists K; split; [done|]]].
  - assert (g_ids G ++ bwc_biorqs (g_bwc g) ++ D ≡ₚ g_ids (g :: G) ++ D) as Hperm by (rewrite g_ids_cons, !app_assoc; by rewrite (Permutation_app_comm (g_ids G))).
    destruct I as [V1 V2 V3 V4 V5 V6 V7 V8 V9 V10 V11 V12 V13 V14 V15 V16 V17 V18 V19 V20]. split; try done.
    + intros g0 [->|Hg0]%elem_of_cons; [done|by apply V11].
    + by rewrite <-Hperm.
    + intros id. by rewrite <-Hperm.
    + rewrite g_pins_cons, Hp. done.
    + intros p e He. rewrite g_pins_cons, Hp. by apply V15.
  - intros Hf. destruct (HD Hf) as [D1 D2 D3 D4 D5]. split; try done. intros g0 x [->|Hg0]%elem_of_cons; [congruence|by apply D5].
Qed.
(** A group ends: its pages are unpinned. *)
Definition unpinned (_ : Z) (e : bmpce) : bmpce := pce_flags e (clrf (bmpce_flags e) BMPCEF_PINNED).
Lemma wp_unpin tidy s b R T G D srv A g (Q : unit → cl → Prop) :
  core tidy (c_pc s) b R T (g :: G) D srv A → g_pin g = length (bwc_bmpces (g_bwc g)) →
  (∀ pc', core tidy pc' b R T G (bwc_biorqs (g_bwc g) ++ D) srv A → Q tt (c_set_pc s pc')) → wp (bwc_unpin_pages (g_bwc g)) Q s.
Proof.
  intros HC Hpin HQ. pose proof HC as (I & O & K & HK & HD). pose proof (rv_g _ _ _ _ _ _ I g ltac:(left)) as Hg. unfold bwc_unpin_pages. apply wp_lift.
  eapply (wp_each_mod unpinned); [apply I| | | |].
  - rewrite (go_pages _ _ Hg). apply NoDup_prange.
  - intros p Hp. destruct (group_page g p I ltac:(left) Hp) as (id & r & _ & Hr & _ & Hin). by apply (rq_pages_in id r p I Hr).
  - intros p e. unfold pc_same, unpinned. simpl. split_and!; try done; by flags_goal.
  - intros pc' I' Hm. apply HQ.
    assert (mframe (λ _, False) (held (b_rqs b)) (pc_tree (c_pc s)) (pc_tree pc')) as HF.
    { eapply mframe_mod; [exact Hm|]. intros p e _ _. unfold unpinned. split; simpl; try done; try (by flags_goal). left. by flags_goal. }
    assert (g_ids G ++ bwc_biorqs (g_bwc g) ++ D ≡ₚ g_ids (g :: G) ++ D) as Hperm by (rewrite g_ids_cons, !app_assoc; by rewrite (Permutation_app_comm (g_ids G))).
    eapply (core_frame (λ _, False)); [exact HC| |exact HF|tauto|intros g0 Hg0 Ha; exists g0; split; [by right|done]].
    destruct I as [V1 V2 V3 V4 V5 V6 V7 V8 V9 V10 V11 V12 V13 V14 V15 V16 V17 V18 V19 V20]. rewrite g_pins_cons, Hpin, take_ge in V14 by done. apply NoDup_app in V14 as (W1 & W2 & W3).
    split; try done.
    + intros g0 Hg0. apply V11. by right.
    + by rewrite Hperm.
    + intros id. by rewrite Hperm.
    + intros p e'. rewrite (Hm p). destruct (bool_decide_reflect (p ∈ bwc_bmpces (g_bwc g))) as [Hp|Hp].
      * destruct (pc_tree (c_pc s) !! p) as [e|]; [|done]. intros [= <-]. unfold unpinned. simpl. rewrite bool_decide_false by (by apply W2). by flags_goal.
      * intros He. rewrite (V15 p e' He), g_pins_cons, Hpin, take_ge by done. apply bool_decide_ext. rewrite elem_of_app. tauto.
Qed.

(** ** A round of a pass *)
Lemma wp_getRqs l : ∀ s (Q : list (nat * biorq) → cl → Prop), (∀ id, id ∈ l → is_Some (b_rqs (c_b s) !! id)) →
  (∀ rs, fst <$> rs = l → (∀ id r, (id, r) ∈ rs → b_rqs (c_b s) !! id = Some r) → Q rs s) → wp (getRqs l) Q s.
Proof.
  induction l as [|id l IH]; intros s Q Hl HQ; simpl; [wp_step; apply HQ; [done|by intros id r ?%elem_of_nil]|]. destruct (Hl id ltac:(left)) as [r Hr].
  wp_step. eapply wp_getRq; [done|]. wp_step. apply IH; [intros j Hj; apply Hl; by right|]. intros rs Hf Hrs. wp_step. apply HQ; [by rewrite fmap_cons, Hf|].
  intros j q [[= -> ->]|Hj]%elem_of_cons; [done|by apply Hrs].
Qed.
Lemma rqs_sorted (m : gmap nat biorq) (rs : list (nat * biorq)) : (∀ id r, (id, r) ∈ rs → m !! id = Some r) → off_sorted m (fst <$> rs) → StronglySorted off_le (snd <$> rs).
Proof.
  induction rs as [|[id r] rs IH]; intros Hrs Hs; [constructor|]. change (off_sorted m (id :: (fst <$> rs))) in Hs. change (StronglySorted off_le (r :: (snd <$> rs))). unfold off_sorted in Hs. apply StronglySorted_inv in Hs as [Hs Hall]. constructor.
  - apply IH; [intros j q Hj; apply Hrs; by right|done].
  - rewrite Forall_forall. rewrite Forall_forall in Hall. intros q Hq. apply list_elem_of_fmap in Hq as ([j q'] & -> & Hj). simpl. pose proof (Hall j ltac:(by apply (list_elem_of_fmap_2' fst rs (j, q')))) as Ho.
    unfold off_at in Ho. rewrite (Hrs id r ltac:(left)), (Hrs j q' ltac:(by right)) in Ho. done.
Qed.

Lemma rqs_eq (m : gmap nat biorq) (l k : list (nat * biorq)) : (∀ id r, (id, r) ∈ l → m !! id = Some r) → (∀ id r, (id, r) ∈ k → m !! id = Some r) → fst <$> l = fst <$> k → l = k.
Proof.
  revert k. induction l as [|[id r] l IH]; intros [|[id' r'] k] Hl Hk Heq; try done. change (id :: (fst <$> l) = id' :: (fst <$> k)) in Heq. injection Heq as -> Heq.
  pose proof (Hl id' r ltac:(left)). pose proof (Hk id' r' ltac:(left)). f_equal; [congruence|]. apply IH; [|by intros j q Hj; apply Hk; right|done]. intros j q Hj. apply Hl. by right.
Qed.
(** A pending write in the tree. *)
Lemma tree_facts pc b R T G D id r : rqinv pc b R T G D → id ∈ b_new b → b_rqs b !! id = Some r →
  rfl r BIORQ_FLUSHRDY = true ∧ rfl r BIORQ_ONTREE = true ∧ rq_shape r ∧ biorq_len r ≤ SLASH_SLVR_SIZE ∧
  (ownv (pc_tree pc) (b_rqs b) R T → pgs_in pc (biorq_pages r)).
Proof.
  intros I Hn Hr. destruct (proj1 (rv_in_new _ _ _ _ _ _ I id) Hn) as (r0 & Hr0 & Ht). rewrite Hr in Hr0. injection Hr0 as <-.
  pose proof (rv_rq _ _ _ _ _ _ I id r Hr) as Hri. pose proof (ri_tree _ _ _ _ Hri Ht) as Hf. destruct (rdy_full id r I Hr Hf) as (Hw & Hth & F1 & F2 & F3 & F4).
  split_and!; try done; [by apply Hri|]. intros O p Hp. destruct (rq_pages_in id r p I Hr Hp) as [[e He] _]. exists e. split; [done|]. split; [by destruct (ov_page _ _ _ _ O p e He)|].
  by destruct (pci_pg _ _ (rv_pc _ _ _ _ _ _ I) p e He).
Qed.
(** The requests of a group, once out of the tree. *)
Lemma new_group_ok (m : gmap nat biorq) (gl : list (nat * biorq)) g iovs :
  (∀ id r, (id, r) ∈ gl → ∃ r', m !! id = Some r' ∧ rshape r r' ∧ rfl r' BIORQ_FLUSHRDY = true ∧ rfl r' BIORQ_ONTREE = false) →
  bwc_biorqs g = fst <$> gl → group_of (snd <$> gl) g → StronglySorted off_le (snd <$> gl) → 0 < bwc_size g →
  (∀ pm i, 0 ≤ i < bwc_size g → iov_bytes pm iovs i = page_byte pm (bwc_soff g + i)) →
  g_ok m (grp_send {| bwc_size := bwc_size g; bwc_soff := bwc_soff g; bwc_biorqs := bwc_biorqs g; bwc_iovs := iovs; bwc_bmpces := biorq_page_offs (bwc_soff g) (bwc_size g) |} 0).
Proof.
  intros Hm Hids Hg Hs Hsz Hby. destruct (group_range _ g Hg Hs) as [H1' H2']. split; simpl; try done.
  - intros id Hid. rewrite Hids in Hid. apply list_elem_of_fmap in Hid as ([id' r] & -> & Hin). destruct (Hm id' r Hin) as (r' & Hr' & [S1 S2 S3 S4 S5] & Hf & Ht). exists r'.
    destruct (H1' r ltac:(by apply (list_elem_of_fmap_2' snd gl (id', r)))) as [L1 L2]. unfold biorq_voff_get in *. rewrite S1, S2. done.
  - intros x Hx. destruct (H2' x Hx) as (r & Hin & Hxr). apply list_elem_of_fmap in Hin as ([id r0] & -> & Hin). destruct (Hm id r0 Hin) as (r' & Hr' & [S1 S2 S3 S4 S5] & Hf & Ht).
    exists id, r'. split; [rewrite Hids; by apply (list_elem_of_fmap_2' fst gl (id, r0))|]. split; [done|]. unfold biorq_voff_get in *. by rewrite S1, S2.
Qed.

Lemma step_flush_group tidy s A now csvc_rc req_rc : cinv tidy s A → wpb (flush_group now csvc_rc req_rc) (λ _ s', cinv tidy s' A) s.
Proof.
  intros C. pose proof (ci_core _ _ _ C) as HC. pose proof HC as (I & O & _). pose proof (ci_pass _ _ _ C) as HP. unfold flush_group. wb_step. wb_step.
  destruct (c_fl s) as [|[|id0 reqs]|] eqn:Hfl; try done. set (P := id0 :: reqs) in *. simpl in HP. fold P in HP. pose proof HP as (P1 & P2 & P3).
  assert (groups_of s = wr_groups (c_wr s)) as HG by (unfold groups_of; by rewrite Hfl).
  assert (finv tidy s (groups_of s) [] P A) as F by (apply cinv_finv in C; by rewrite Hfl in C).
  assert (∀ id, id ∈ P → is_Some (b_rqs (c_b s) !! id)) as Hsome.
  { intros id Hid. destruct (proj1 (rv_in_new _ _ _ _ _ _ I id) (P3 id Hid)) as (r & Hr & _). by exists r. }
  wb_step. apply wpb_of, (wp_getRqs P); [done|]. intros rs Hfst Hrs.
  assert (∀ id r, (id, r) ∈ rs → id ∈ P) as Hin by (intros id r Hi; rewrite <-Hfst; by apply (list_elem_of_fmap_2' fst rs (id, r))).
  assert (∀ id r, (id, r) ∈ rs → rfl r BIORQ_FLUSHRDY = true ∧ rfl r BIORQ_ONTREE = true ∧ rq_shape r ∧ biorq_len r ≤ SLASH_SLVR_SIZE ∧ pgs_in (c_pc s) (biorq_pages r)) as Htf.
  { intros id r Hi. destruct (tree_facts _ _ _ _ _ _ id r I (P3 id (Hin id r Hi)) (Hrs id r Hi)) as (? & ? & ? & ? & Hpg). split_and!; try done. by apply Hpg. }
  pose proof (rqs_sorted (b_rqs (c_b s)) rs Hrs ltac:(by rewrite Hfst)) as Hsort.
  destruct (trycoalesce_spec now rs) as (Ap & Gl & l' & Heq & HGl & _ & Hcase); [intros ->; by apply (f_equal length) in Hfst|done| |].
  { intros r Hr. apply list_elem_of_fmap in Hr as ([id r0] & -> & Hi). destruct (Htf id r0 Hi) as (_ & _ & (_ & ? & _) & ? & _). rewrite MTU_slvr. done. }
  assert (∀ x, x ∈ Gl → x ∈ rs) as Hsub by (intros x Hx; rewrite Heq, !elem_of_app; tauto).
  destruct Hcase as [(g & Hrun & Hids & Hgo & Hsz)|[Hrun _]]; rewrite Hrun.
  2: { apply wpb_of, wp_modify. apply cinv_finv. unfold groups_of. simpl. rewrite <-HG. apply finv_fl. destruct F as (F1 & _ & F3). split_and!; [done| |done]. split_and!; [constructor|constructor|by intros id ?%elem_of_nil]. }
  assert (drop (length (Ap ++ Gl)) P = fst <$> l') as Hdrop by (rewrite <-Hfst, Heq, app_assoc, fmap_app; rewrite drop_app_length'; [done|by rewrite length_fmap]).
  assert (∀ id, id ∈ bwc_biorqs g → id ∈ P ∧ id ∉ fst <$> l') as Hgid.
  { intros id Hid. rewrite Hids in Hid. rewrite <-Hfst, Heq, !fmap_app in P1. apply NoDup_app in P1 as (_ & _ & P1). apply NoDup_app in P1 as (_ & P1 & _). split; [|by apply P1].
    rewrite <-Hfst, Heq, !fmap_app, !elem_of_app. tauto. }
  assert (NoDup (bwc_biorqs g)) as Hndg. { rewrite Hids. rewrite <-Hfst, Heq, !fmap_app in P1. apply NoDup_app in P1 as (_ & _ & P1). by apply NoDup_app in P1 as (P1 & _ & _). }
  assert (StronglySorted off_le (snd <$> Gl)) as HsG. { rewrite Heq, !fmap_app in Hsort. apply StronglySorted_app_1_r in Hsort. by apply StronglySorted_app_1_l in Hsort. }
  assert (finv tidy s (groups_of s) [] (fst <$> l') A) as F1. { destruct F as (Fa & Fb & Fc). split_and!; try done. rewrite <-Hdrop. by apply pass_ok_drop. }
  rewrite Hdrop. wb_step. apply wpb_of, (wp_getRqs (bwc_biorqs g)); [intros id Hid; apply Hsome; by apply Hgid|]. intros grs Hgf Hgr.
  assert (grs = Gl) as ->. { eapply (rqs_eq (b_rqs (c_b s))); [done|intros id r Hi; apply Hrs; auto|congruence]. }
  wb_step. apply wpb_of, wp_lift. eapply wp_coalesce_map; [done|done|done| |].
  { intros r Hr. apply list_elem_of_fmap in Hr as ([id r0] & -> & Hi). by destruct (Htf id r0 (Hsub _ Hi)) as (_ & _ & ? & _ & ?). }
  intros iovs _ Hby. rewrite set_pc_id. set (g' := {| bwc_size := bwc_size g |}). wb_step. wb_step. apply wpb_of.
  destruct (Z.eqb_spec csvc_rc 0) as [->|Hcs]; cbn [negb].
  - wp_step. apply wp_assert.
    { destruct Gl as [|[id r] Gl]; [done|]. destruct Hgo as (Hso & _). simpl. by apply Z.eqb_eq. }
    wp_step. eapply (wp_each_dequeue tidy A send_dequeue _ s (groups_of s) [] (fst <$> l')); [intros; by eapply wp_send_dequeue|exact F1|done| |].
    { intros id Hid. destruct (Hgid id Hid) as [Hp Hnl]. split; [by apply P3|done]. }
    intros b' F2 _ Hsh. rewrite app_nil_r in F2. destruct (Z.eqb_spec req_rc 0) as [->|Hreq]; cbn [negb].
    + apply wp_modify. apply cinv_finv. destruct F2 as (Fa & Fb & Fc). unfold groups_of. simpl. split_and!; [|done|by destruct Fc].
      apply core_join; [|  |done|done].
      * rewrite app_nil_r. simpl. rewrite <-HG. exact Fa.
      * eapply (new_group_ok _ Gl); try done; [|lia]. intros id r Hi. destruct (Hsh id r) as (r' & Hr' & Hs' & Hf'); [apply Hrs; auto|]. exists r'. split_and!; try done.
        -- apply Hf'. by apply (Htf id r (Hsub _ Hi)).
        -- destruct Fa as (Ia & _). destruct (debt_pending _ _ _ _ _ _ id Ia) as (r2 & Hr2 & _ & ?); [change (id ∈ bwc_biorqs g); rewrite Hids; by apply (list_elem_of_fmap_2' fst Gl (id, r))|]. simpl in Hr2. congruence.
    + wp_step. eapply (wp_each_resched tidy A now req_rc _ _ (groups_of s) [] (fst <$> l')); [by rewrite app_nil_r|done|]. intros pc' b2 F3. apply wp_modify.
      apply cinv_finv. unfold groups_of. simpl. rewrite <-HG. by apply finv_fl.
  - wp_step. eapply (wp_each_resched_tree tidy A now csvc_rc _ s (groups_of s) [] (fst <$> l')); [exact F1|done|done| |].
    + intros id Hid. destruct (Hgid id Hid) as [Hp Hnl]. split; [done|]. destruct (Hsome id Hp) as [r Hr]. exists r. split; [done|].
      by destruct (tree_facts _ _ _ _ _ _ id r I (P3 id Hp) Hr) as (? & ? & _).
    + intros pc' b' F2. apply wp_modify. apply cinv_finv. unfold groups_of. simpl. rewrite <-HG. by apply finv_fl.
Qed.

(** ** Pages are pinned *)
Lemma step_pin tidy s A : cinv tidy s A → wpb pin_step (λ _ s', cinv tidy s' A) s.
Proof.
  intros C. pose proof (ci_core _ _ _ C) as HC. unfold pin_step. wb_step. wb_step. destruct (c_fl s) as [| |reqs g i] eqn:Hfl; try done.
  destruct (bwc_bmpces g !! i) as [p|] eqn:Hp; [|done].
  assert (groups_of s = grp_send g i :: wr_groups (c_wr s)) as HG by (unfold groups_of; by rewrite Hfl). rewrite HG in HC. pose proof HC as (I & O & _).
  destruct (group_page (grp_send g i) p I ltac:(left)) as (id & r & _ & Hr & _ & Hin); [simpl; by eapply list_elem_of_lookup_2|].
  destruct (rq_pages_in id r p I Hr Hin) as [[e He] _]. wb_step. apply wpb_of, wp_lift. eapply wp_getPg; [done|]. rewrite set_pc_id. wb_step. wb_step. apply negb_true_iff in H1.
  wb_step. apply wpb_of, wp_lift. unfold setPg. wp_step. apply wpb_of, wp_modify. set (e' := pce_flags e _). set (pc' := pc_with_tree _ _).
  assert (pc_same e e') as Hsame by (unfold pc_same, e'; simpl; split_and!; try done; by flags_goal).
  destruct C as [C1 C2 C3]. split; [|simpl in *; by rewrite Hfl in C2|by destruct C3].
  unfold groups_of. simpl. eapply (core_frame (λ _, False)); [exact HC| | |tauto|].
  - pose proof (rv_pinned _ _ _ _ _ _ I p e He) as Hpin. rewrite H1 in Hpin. symmetry in Hpin. apply bool_decide_eq_false in Hpin.
    assert (g_pins (grp_send g (S i) :: wr_groups (c_wr s)) ≡ₚ p :: g_pins (grp_send g i :: wr_groups (c_wr s))) as Hperm.
    { rewrite !g_pins_cons. simpl. rewrite (take_S_r _ _ p) by done. rewrite <-app_assoc. symmetry. apply Permutation_middle. }
    destruct I as [V1 V2 V3 V4 V5 V6 V7 V8 V9 V10 V11 V12 V13 V14 V15 V16 V17 V18 V19 V20]. split; try done.
    + by eapply pcinv_same.
    + intros g0 [->|Hg0]%elem_of_cons; [|apply V11; by right]. destruct (V11 (grp_send g i) ltac:(left)). by split.
    + rewrite Hperm. by constructor.
    + intros q e0. simpl. destruct (decide (q = p)) as [->|Hq].
      * rewrite lookup_insert_eq. intros [= <-]. rewrite bool_decide_true; [unfold e'; simpl; by flags_goal|]. rewrite Hperm. left.
      * rewrite lookup_insert_ne by done. intros He0. rewrite (V15 q e0 He0). apply bool_decide_ext. rewrite Hperm, elem_of_cons. tauto.
  - split; simpl.
    + intros q e0. destruct (decide (q = p)) as [->|]; [rewrite lookup_insert_eq; intros [= <-]; left; exists e; split; [done|]|rewrite lookup_insert_ne by done; intros He0; left; exists e0; split; [done|apply pkeep_refl]].
      unfold e'. split; simpl; try done; try (by flags_goal). left. by flags_goal.
    + intros q e0 _ He0. destruct (decide (q = p)) as [->|]; [rewrite lookup_insert_eq; by eexists|rewrite lookup_insert_ne by done; by exists e0].
  - intros g0 [->|Hg0]%elem_of_cons Ha; [done|]. exists g0. split; [by right|done].
Qed.

(** ** Write RPCs *)
Lemma wr_groups_insert W wid v : W !! wid = None → wr_groups (<[wid := v]> W) ≡ₚ grp_rpc v :: wr_groups W.
Proof. intros Hn. unfold wr_groups. rewrite map_to_list_insert by done. done. Qed.
Lemma wr_groups_delete W wid v : W !! wid = Some v → wr_groups W ≡ₚ grp_rpc v :: wr_groups (delete wid W).
Proof. intros Hv. rewrite <-(insert_id W wid v Hv) at 1. rewrite <-insert_delete_eq. apply wr_groups_insert. apply lookup_delete_eq. Qed.
Lemma step_send tidy s A now rc : cinv tidy s A → wpb (send_step now rc) (λ _ s', cinv tidy s' A) s.
Proof.
  intros C. pose proof (ci_core _ _ _ C) as HC. unfold send_step. wb_step. wb_step. destruct (c_fl s) as [| |reqs g i] eqn:Hfl; try done. wb_step. wb_step. apply Nat.eqb_eq in H1.
  assert (groups_of s = grp_send g i :: wr_groups (c_wr s)) as HG by (unfold groups_of; by rewrite Hfl). rewrite HG in HC. pose proof HC as (I & O & _).
  pose proof (ci_pass _ _ _ C) as HP. rewrite Hfl in HP. simpl in HP. pose proof (ci_fresh _ _ _ C) as HF. apply wpb_of.
  destruct (Z.eqb_spec rc 0) as [->|Hrc]; cbn [negb].
  - wp_step. destruct HF as [F1 F2 F3]. assert (c_wr s !! c_next s = None) as Hn. { destruct (c_wr s !! c_next s) eqn:He; [|done]. assert (c_next s < c_next s)%nat; [apply F3; by eexists|lia]. }
    split; simpl.
    + unfold groups_of. simpl. eapply core_perm; [exact HC| |done]. rewrite wr_groups_insert by done. unfold grp_send, grp_rpc. simpl. by rewrite H1.
    + done.
    + split; simpl.
      * intros j Hj. specialize (F1 j Hj). lia.
      * intros j Hj. specialize (F2 j Hj). lia.
      * intros j Hj. destruct (decide (j = c_next s)) as [->|]; [lia|]. rewrite lookup_insert_ne in Hj by done. specialize (F3 j Hj). lia.
  - wp_step. eapply (wp_unpin tidy s (c_b s) _ _ _ _ _ _ (grp_send g i)); [exact HC|done|]. intros pc' HC'. simpl in HC'. wp_step.
    eapply (wp_each_resched tidy A now rc _ _ (wr_groups (c_wr s)) [] reqs); [split_and!; [exact HC'|done|by destruct HF]|done|].
    intros pc2 b2 F2. apply wp_modify. apply cinv_finv. unfold groups_of. simpl. by apply finv_fl.
Qed.

(** A group's bytes are those that were written. *)
Lemma group_data tidy pc b R T G D srv A g i :
  core tidy pc b R T G D srv A → g ∈ G → b_flushrc b = 0 → 0 ≤ i < bwc_size (g_bwc g) →
  iov_bytes (pc_tree pc) (bwc_iovs (g_bwc g)) i = A (bwc_soff (g_bwc g) + i).
Proof.
  intros (I & O & K & HK & HD) Hg Hf Hi. rewrite (go_bytes _ _ (rv_g _ _ _ _ _ _ I g Hg)) by done. apply (da_page _ _ _ _ _ _ _ _ (HD Hf)). apply (kv_dirty _ _ _ _ _ HK).
  destruct (group_byte g (bwc_soff (g_bwc g) + i) I Hg ltac:(lia)) as (id & r & _ & Hr & Hrdy & Hx & _). destruct (ready_idle _ _ _ _ _ _ id r I Hr Hrdy) as [Ht Hw]. exists id, r. by rewrite Ht.
Qed.
Lemma step_srv_write tidy s A wid n : cinv tidy s A → wpb (srv_write wid n) (λ _ s', cinv tidy s' A) s.
Proof.
  intros C. pose proof (ci_core _ _ _ C) as HC. unfold srv_write. wb_step. wb_step. destruct (c_wr s !! wid) as [v|] eqn:Hv; [|done]. wb_step. wb_step.
  apply andb_true_iff in H1 as [[Hn0 Hn1]%andb_true_iff _]. apply Z.leb_le in Hn0, Hn1. apply wpb_of, wp_put.
  set (g := w_bwc v) in *. set (v' := {| w_bwc := g |}). set (G0 := fl_groups (c_fl s) ++ wr_groups (delete wid (c_wr s))).
  assert (groups_of s ≡ₚ grp_rpc v :: G0) as HG by (unfold groups_of, G0; rewrite (wr_groups_delete _ _ _ Hv); by rewrite <-Permutation_middle).
  assert (core tidy (c_pc s) (c_b s) (c_rd s) (c_thr s) (grp_rpc v :: G0) [] (c_srv s) A) as HC1 by (by eapply core_perm).
  pose proof HC1 as (I & O & K & HK & HD). destruct C as [_ C2 [F1 F2 F3]]. split; simpl; [|done|].
  - eapply (core_perm (G := grp_rpc v' :: G0)); [| |done].
    2: { unfold groups_of, G0. simpl. rewrite (wr_groups_delete (<[wid := v']> (c_wr s)) wid v') by apply lookup_insert_eq. rewrite delete_insert_eq. by rewrite <-Permutation_middle. }
    split; [|split; [done|exists K; split; [done|]]].
    + destruct I as [V1 V2 V3 V4 V5 V6 V7 V8 V9 V10 V11 V12 V13 V14 V15 V16 V17 V18 V19 V20]. split; try done.
      intros g0 [->|Hg0]%elem_of_cons; [|apply V11; by right]. destruct (V11 (grp_rpc v) ltac:(left)). by split.
    + intros Hf. pose proof (λ i, group_data _ _ _ _ _ _ _ _ _ (grp_rpc v) i HC1 ltac:(left) Hf) as Hby. simpl in Hby. fold g in Hby. destruct (HD Hf) as [D1 D2 D3 D4 D5].
      assert (∀ x, overlay (c_srv s) (bwc_soff g) n (iov_bytes (pc_tree (c_pc s)) (bwc_iovs g)) x = if (bwc_soff g <=? x) && (x <? bwc_soff g + n) then A x else c_srv s x) as Ho.
      { intros x. unfold overlay. destruct ((bwc_soff g <=? x) && (x <? bwc_soff g + n)) eqn:Hx; [|done]. rewrite Hby by lia. f_equal. lia. }
      assert (∀ x, c_srv s x = A x → overlay (c_srv s) (bwc_soff g) n (iov_bytes (pc_tree (c_pc s)) (bwc_iovs g)) x = A x) as Ho2 by (intros x Hx; rewrite Ho; by destruct (_ && _)).
      split.
      * done.
      * intros x Hx. apply Ho2. by apply D2.
      * intros x Hx. destruct (D3 x Hx); auto.
      * intros rid w d p x Hw Hdn Hda Hp Hx. rewrite Ho. destruct ((bwc_soff g <=? x) && (x <? bwc_soff g + n)) eqn:Hr; [|by eapply D4]. exfalso.
        destruct (group_byte (grp_rpc v) x I ltac:(left)) as (id & r & _ & Hr' & Hrdy & _ & Hin); [simpl; fold g; lia|].
        eapply (ov_past _ _ _ _ O (inr rid) p id r); [by exists w|done|done|]. rewrite (page_align_uniq x p) in Hin; [done| |done].
        destruct (ov_rd _ _ _ _ O rid w Hw) as (_ & _ & Hld). destruct (Hld Hdn p Hp) as (e & He & _). by destruct (ov_page _ _ _ _ O p e He).
      * intros g0 x [->|Hg0]%elem_of_cons Ha Hx; simpl in *; [|apply Ho2; eapply (D5 g0); [by right|done|done]]. apply Z.eqb_eq in Ha. rewrite Ho.
        destruct (Z.leb_spec (bwc_soff g) x), (Z.ltb_spec x (bwc_soff g + n)); simpl; lia || done.
  - split; simpl; try done. intros j Hj. destruct (decide (j = wid)) as [->|]; [apply F3; by exists v|]. rewrite lookup_insert_ne in Hj by done. by apply F3.
Qed.
Lemma step_write_cb tidy s A now wid rc : cinv tidy s A → wpb (write_cb now wid rc) (λ _ s', cinv tidy s' A) s.
Proof.
  intros C. pose proof (ci_core _ _ _ C) as HC. unfold write_cb. wb_step. wb_step. destruct (c_wr s !! wid) as [v|] eqn:Hv; [|done]. wb_step. wb_step. apply wpb_of.
  set (g := w_bwc v) in *. set (G0 := fl_groups (c_fl s) ++ wr_groups (delete wid (c_wr s))).
  assert (groups_of s ≡ₚ grp_rpc v :: G0) as HG by (unfold groups_of, G0; rewrite (wr_groups_delete _ _ _ Hv); by rewrite <-Permutation_middle).
  assert (core tidy (c_pc s) (c_b s) (c_rd s) (c_thr s) (grp_rpc v :: G0) [] (c_srv s) A) as HC1 by (by eapply core_perm).
  pose proof HC1 as (I & O & K & HK & HD). destruct C as [_ C2 [F1 F2 F3]].
  assert (∀ pc' b', finv tidy (c_set_b (c_set_pc s pc') b') G0 [] (pass_of (c_fl s)) A → cinv tidy (c_set_wr (c_set_b (c_set_pc s pc') b') (delete wid (c_wr s))) A) as Hend.
  { intros pc' b' (Ca & Cb & [Fa Fb Fc]). split; [exact Ca|exact Cb|]. split; simpl; try done. intros j [w [_ Hj]%lookup_delete_Some]. apply F3. by exists w. }
  wp_step. eapply (wp_unpin tidy s (c_b s) _ _ _ _ _ _ (grp_rpc v)); [exact HC1|done|]. intros pc' HC'. simpl in HC'. fold g in HC'. wp_step.
  assert (finv tidy (c_set_pc s pc') G0 (bwc_biorqs g ++ []) (pass_of (c_fl s)) A) as F by (split_and!; [done|done|by split]).
  destruct (Z.eqb_spec rc 0) as [->|Hrc]; cbn [negb].
  - simpl in H1. eapply (wp_each_written tidy A _ _ G0 [] (pass_of (c_fl s))); [exact F| |].
    + simpl. intros Hf id r x Hid Hr Hx. destruct (go_rq _ _ (rv_g _ _ _ _ _ _ I (grp_rpc v) ltac:(left)) id Hid) as (r0 & Hr0 & _ & _ & L1 & L2). rewrite Hr in Hr0. injection Hr0 as <-.
      simpl in L1, L2. fold g in L1, L2. eapply (da_app _ _ _ _ _ _ _ _ (HD Hf) (grp_rpc v)); [left|done|]. simpl. fold g. lia.
    + intros pc2 b2 F2'. apply wp_modify. exact (Hend pc2 b2 F2').
  - eapply (wp_each_resched tidy A now rc _ _ G0 [] (pass_of (c_fl s))); [exact F|done|]. intros pc2 b2 F2'. apply wp_modify. exact (Hend pc2 b2 F2').
Qed.
End send.
