(* ===== verification/CioRun.v ===== *)
(** * Runs of a client

    Sequences of the steps of [Cio.v] from a bmap that was just leased, with
    the bytes that the writes so far have left in it, and what holds in every
    state of a run. *)
From S2P Require Import Prelude BmapMds ReplReq ReplWalk Lease Slvr SlvrIO Pgcache PgcacheInv Coalesce CoalesceProps Cio CioInv CioFrame CioTop CioStart CioValid CioRead CioLoad CioEnd CioReply CioWrite CioQueue CioFlush CioSend.

(** ** Steps *)
Section run.
Context `{PflNet}.

(** The steps at which nothing goes wrong between threads: requests are not
    empty and in the bmap, an error of a page is not cleared while a read waits
    for the page, a page is not marked for reading while a write is past its wait
    for it, and the pages of a read that could not be launched have an error
    code. *)
Definition calm (s : cl) (l : label) : Prop :=
  match l with
  | LWrite off len _ _ | LRead off len _ => 0 < len ∧ off + len ≤ SLASH_BMAP_SIZE
  | LBuild id _ => ∀ p l j q, c_thr s !! id = Some (PBuild (p :: l)) → eio_at (pc_tree (c_pc s)) p p → b_rqs (c_b s) !! j = Some q → ¬ waits q (c_thr s !! j) p
  | LError id retry => ∀ r p j q, retry = true → b_rqs (c_b s) !! id = Some r → p ∈ biorq_pages r → eio_at (pc_tree (c_pc s)) p p → b_rqs (c_b s) !! j = Some q → ¬ waits q (c_thr s !! j) p
  | LMark id => ∀ r p j q, b_rqs (c_b s) !! id = Some r → p ∈ biorq_pages r → to_read (pc_tree (c_pc s)) r p → b_rqs (c_b s) !! j = Some q → ¬ hot q (c_thr s !! j) p
  | LLaunch id rcs => ∀ s', launch_step id rcs s = Done (tt, s') → no_lost_error s'
  | _ => True
  end.
(** In a tidy run no write leaves a gap in the valid region of a page. *)
Definition neat (tidy : bool) (s : cl) (l : label) : Prop :=
  match l with LCopy id => tidy = true → tidy_at s id | _ => True end.
(** The bytes of the bmap after a step: the copy of a page of a write puts in
    its part of the page. *)
Definition effect (s : cl) (l : label) (A : data) : data := match l with LCopy id => copy_effect s id A | _ => A end.

Inductive crun (tidy : bool) (s0 : cl) : cl → data → Prop :=
| crun_nil : crun tidy s0 s0 (c_srv s0)
| crun_cons s A l s' : crun tidy s0 s A → calm s l → neat tidy s l → cstep l s = Done (tt, s') → crun tidy s0 s' (effect s l A).

(** ** The first state *)
Lemma cinv_init tidy ios srv fsz : cinv tidy (cl_init ios srv fsz) srv.
Proof.
  split; simpl; [|split_and!; [constructor|constructor|intros ? Hi; by apply elem_of_nil in Hi]|split; simpl; intros id [? Hx]; by rewrite lookup_empty in Hx].
  split; [|split].
  - split; simpl; try done; try (by constructor); try (intros; by rewrite lookup_empty in *); try (by intros ? [? ?%lookup_empty_Some]).
    + split; simpl; [constructor|done| |done]. intros p [?|Hp]; [unfold holds in *; simpl in *; lia|by apply elem_of_nil in Hp].
    + intros id. rewrite elem_of_nil, lookup_empty. split; [done|by intros [? ?]].
    + intros id. rewrite elem_of_nil. split; [done|intros (r & Hr & _); by rewrite lookup_empty in Hr].
    + intros g Hg. by apply elem_of_nil in Hg.
    + intros id. split; [intros Hi; by apply elem_of_nil in Hi|intros (r & Hr & _); by rewrite lookup_empty in Hr].
  - split; simpl; try (intros; by rewrite lookup_empty in *).
    + intros [?|?] ? p; simpl; [intros (l & [Hx|[_ Hx]] & _); by rewrite lookup_empty in Hx|intros (l & Hx & _); by rewrite lookup_empty in Hx].
  - exists (λ _, false). split; [split; simpl; try done; try (intros; by rewrite lookup_empty in *)|].
    + intros x (id & r & Hr & _). by rewrite lookup_empty in Hr.
    + intros _. split; try done; intros; by rewrite lookup_empty in *.
Qed.

(** ** Steps that tell the file system nothing, or leave the flush thread alone *)
Inductive view := VOut | VFl.
Definition look (v : view) (s : cl) : list (nat * reply) + flpc := match v with VOut => inl (c_out s) | VFl => inr (c_fl s) end.
Definition quiet (v : view) (o : list (nat * reply) + flpc) {A} (m : CM A) : Prop := ∀ s a s', look v s = o → m s = Done (a, s') → look v s' = o.
Lemma quiet_ret v o {A} (a : A) : quiet v o (mret a).
Proof. by intros s ? ? Ho [= _ <-]. Qed.
Lemma quiet_stuck v o {A} w : quiet v o (stuckM w : CM A).
Proof. done. Qed.
Lemma quiet_bind v o {A B} (m : CM A) (k : A → CM B) : quiet v o m → (∀ a, quiet v o (k a)) → quiet v o (m ≫= k).
Proof. intros Hm Hk s b s' Ho. unfold mbind, M_bind. destruct (m s) as [[a s1]|] eqn:E; [|done]. intros Hb. eapply Hk; [|done]. by eapply Hm. Qed.
Lemma quiet_get v o {B} (k : cl → CM B) : (∀ s, look v s = o → quiet v o (k s)) → quiet v o (getM ≫= k).
Proof. intros Hk s b s' Ho. unfold mbind, M_bind. simpl. by apply Hk. Qed.
Lemma quiet_put v o s : look v s = o → quiet v o (putM s).
Proof. by intros Hs s0 ? ? _ [= _ <-]. Qed.
Lemma quiet_getM v o : quiet v o getM.
Proof. by intros s ? ? Ho [= _ <-]. Qed.
Lemma quiet_gets v o {B} (f : cl → B) : quiet v o (getsM f).
Proof. by intros s ? ? Ho [= _ <-]. Qed.
Lemma quiet_modify v o f : (∀ s, look v (f s) = look v s) → quiet v o (modifyM f).
Proof. intros Hf s ? ? Ho [= _ <-]. by rewrite Hf. Qed.
Lemma quiet_lift v o {A} (m : PC A) : quiet v o (liftPc m).
Proof. intros s a s' Ho. unfold liftPc. destruct (m (c_pc s)) as [[b p]|]; [|done]. intros [= _ <-]. by destruct v. Qed.
Lemma quiet_assert v o b : quiet v o (psc_assert b).
Proof. destruct b; [apply quiet_ret|apply quiet_stuck]. Qed.
Lemma quiet_wait v o b : quiet v o (wait_until b).
Proof. destruct b; [apply quiet_ret|apply quiet_stuck]. Qed.
Lemma quiet_when v o b m : quiet v o m → quiet v o (whenM b m).
Proof. destruct b; [done|]. intros _. apply quiet_ret. Qed.
Lemma quiet_if v o {A} (b : bool) (m n : CM A) : quiet v o m → quiet v o n → quiet v o (if b then m else n).
Proof. by destruct b. Qed.
Lemma quiet_getRq v o id : quiet v o (getRq id).
Proof. intros s a s' Ho. unfold getRq. destruct (b_rqs (c_b s) !! id); [|done]. by intros [= _ <-]. Qed.
Lemma quiet_modB v o f : quiet v o (modB f).
Proof. apply quiet_modify. intros s. by destruct v. Qed.
Lemma quiet_each v o f l : (∀ id, quiet v o (f id)) → quiet v o (each_rq f l).
Proof. intros Hf. induction l as [|id l IH]; [apply quiet_ret|]. by apply quiet_bind. Qed.
Ltac quiet_view := try (match goal with |- look ?v _ = _ => is_var v; destruct v end); simpl in *; repeat case_match.
Ltac quiet_step :=
  lazymatch goal with
  | |- quiet _ _ (mbind _ getM) => apply quiet_get; intros ? ?
  | |- quiet _ _ (mbind _ _) => apply quiet_bind
  | |- quiet _ _ (putM _) => apply quiet_put; quiet_view; assumption
  | |- quiet _ _ (liftPc _) => apply quiet_lift
  | |- quiet _ _ (whenM _ _) => apply quiet_when
  | |- quiet _ _ (each_rq _ _) => apply quiet_each
  | |- quiet _ _ (mret _) => apply quiet_ret
  | |- quiet _ _ (stuckM _) => apply quiet_stuck
  | |- quiet _ _ getM => apply quiet_getM
  | |- quiet _ _ (getsM _) => apply quiet_gets
  | |- quiet _ _ getB => apply quiet_gets
  | |- quiet _ _ (psc_assert _) => apply quiet_assert
  | |- quiet _ _ (wait_until _) => apply quiet_wait
  | |- quiet _ _ (getRq _) => apply quiet_getRq
  | |- quiet _ _ (modB _) => apply quiet_modB
  | |- quiet _ _ (setRq _ _) => apply quiet_modB
  | |- quiet _ _ (modRq _ _) => unfold modRq
  | |- quiet _ _ (modifyM _) => apply quiet_modify; intros []; quiet_view; done
  | |- quiet _ _ (setPc _ _) => apply quiet_modify; intros []; quiet_view; done
  | |- quiet _ _ (endThr _) => apply quiet_modify; intros []; quiet_view; done
  | |- quiet _ _ (setFl _) => apply quiet_modify; intros []; quiet_view; done
  | |- quiet _ _ (match ?x with _ => _ end) => first [apply quiet_if|destruct x]
  | |- ∀ _, quiet _ _ _ => intros ?
  end.
Ltac quiet_steps := repeat quiet_step.

Lemma quiet_destroy v o id : quiet v o (msl_biorq_destroy id).
Proof. unfold msl_biorq_destroy, msl_biorq_del, rq_dequeue. quiet_steps. Qed.
Lemma quiet_decref v o id : quiet v o (biorq_decref id).
Proof. unfold biorq_decref. quiet_steps. apply quiet_destroy. Qed.
Lemma quiet_resched v o now rc id : quiet v o (bmap_flush_resched now rc id).
Proof. unfold bmap_flush_resched, msl_bmpces_fail, rq_enqueue. quiet_steps. apply quiet_decref. Qed.
Lemma quiet_getRqs v o l : quiet v o (getRqs l).
Proof. induction l as [|id l IH]; simpl; quiet_steps. done. Qed.
Lemma quiet_launch v o id pages rc : quiet v o (msl_read_rpc_launch id pages rc).
Proof. unfold msl_read_rpc_launch. quiet_steps. Qed.
Lemma quiet_launch_loop v o id rcs pages : ∀ k cur off, quiet v o (launch_loop id rcs k pages cur off).
Proof. induction pages as [|p pages IH]; intros k cur off; simpl; quiet_steps; auto using quiet_launch. Qed.
Lemma quiet_expire v o l : quiet v o (expire_loop l).
Proof. induction l as [|id l IH]; simpl; quiet_steps. done. Qed.

Lemma quiet_flushable v o secs : quiet v o (bmap_flushable secs).
Proof. unfold bmap_flushable. quiet_steps. Qed.
Lemma quiet_destroy_locked v o rc : quiet v o (bmpc_biorqs_destroy_locked rc).
Proof. unfold bmpc_biorqs_destroy_locked, destroy_dequeue, rq_dequeue, msl_bmpces_fail. quiet_steps. apply quiet_decref. Qed.

(** The steps that reply to a request. *)
Definition tells_fs (l : label) : bool := match l with LRelease _ | LReply _ | LReadCleanup _ => true | _ => false end.
Lemma quiet_cstep o l : tells_fs l = false → quiet VOut o (cstep l).
Proof.
  destruct l; try done; intros _; simpl.
  all: unfold msl_io_start, readahead_start, bmpc_biorq_new, build_step, mark_step, flush_round, flushed_step, launch_step, fetch_step, error_step, mfsrq_seterr, copy_step, sched_step, msl_pages_schedflush, rq_enqueue.
  all: unfold srv_read, read_done, flush_begin, bmap_flushable, bmpc_biorqs_destroy_locked, destroy_dequeue, rq_dequeue, flush_group, send_dequeue, rq_dequeue, msl_bmpces_fail.
  all: unfold pin_step, send_step, flush_end, srv_write, write_cb, bwc_unpin_pages, lease_failed, lease_ext_begin, lease_renewed.
  all: quiet_steps; auto using quiet_decref, quiet_resched, quiet_launch_loop, quiet_expire, quiet_getRqs.
  destruct (negb _); auto using quiet_decref, quiet_resched.
Qed.
(** The steps of the flush thread. *)
Definition moves_fl (l : label) : bool := match l with LFlushBegin _ | LFlushGroup _ _ _ | LPin | LSend _ _ | LFlushEnd => true | _ => false end.
Lemma quiet_complete o id len d : quiet VFl o (msl_complete_fsrq id len d).
Proof. unfold msl_complete_fsrq, tellFs. quiet_steps. Qed.
Lemma quiet_release_read o id : quiet VFl o (release_read id).
Proof. unfold release_read, complete_read. quiet_steps; auto using quiet_complete, quiet_decref. Qed.
Lemma quiet_fl_cstep o l : moves_fl l = false → quiet VFl o (cstep l).
Proof.
  destruct l; try done; intros _; simpl.
  all: unfold msl_io_start, readahead_start, bmpc_biorq_new, build_step, mark_step, flush_round, flushed_step, launch_step, fetch_step, error_step, mfsrq_seterr, copy_step, sched_step, msl_pages_schedflush, rq_enqueue.
  all: unfold srv_read, read_done, release_step, reply_step, read_cleanup, mfsrq_seterr, srv_write, write_cb, bwc_unpin_pages, lease_failed, lease_ext_begin, lease_renewed.
  all: quiet_steps; auto using quiet_decref, quiet_resched, quiet_launch_loop, quiet_expire, quiet_getRqs, quiet_complete, quiet_release_read.
  destruct (negb _); auto using quiet_decref, quiet_resched.
Qed.

Lemma wpb_elim {S A} (m : M S A) (P Q : A → S → Prop) s : wpb m P s → (∀ a s', m s = Done (a, s') → P a s' → Q a s') → wpb m Q s.
Proof. unfold wpb. destruct (m s) as [[a s']|[]]; eauto. Qed.
Context `{!PflNetLaws}.
Lemma tells_quiet tidy A s s' l : tells_fs l = false → cstep l s = Done (tt, s') → tells tidy A s s'.
Proof. intros Hl Hs. left. pose proof (quiet_cstep _ l Hl s tt s' eq_refl Hs) as [= Ho]. done. Qed.

(** ** Every step of a run *)
Lemma step_cinv tidy s A l : cinv tidy s A → calm s l → neat tidy s l → tells_fs l = false → wpb (cstep l) (λ _ s', cinv tidy s' (effect s l A)) s.
Proof.
  intros C Hc Hn Hl. destruct l; try done; simpl in *.
  - destruct Hc. by apply step_start.
  - destruct Hc. by apply step_start.
  - by apply step_ra_start.
  - by apply step_build.
  - by apply step_mark.
  - by apply step_expire.
  - by apply step_flushed.
  - eapply wpb_elim; [by apply step_launch|]. intros [] s' Hs HQ. apply HQ. by apply Hc.
  - by apply step_fetch.
  - by apply step_error.
  - by apply step_copy.
  - by apply step_sched.
  - by apply step_srv_read.
  - by apply step_read_done.
  - by apply step_flush_begin.
  - by apply step_flush_group.
  - by apply step_pin.
  - by apply step_send.
  - by apply step_flush_end.
  - by apply step_srv_write.
  - by apply step_write_cb.
  - by apply step_reap.
  - by apply step_reap_release.
  - by apply step_lease_failed.
  - by apply step_lease_ext.
  - by apply step_lease_renewed.
Qed.
Lemma step_all tidy s A l : cinv tidy s A → calm s l → neat tidy s l → wpb (cstep l) (λ _ s', cinv tidy s' (effect s l A) ∧ tells tidy A s s') s.
Proof.
  intros C Hc Hn. destruct (tells_fs l) eqn:Hl.
  - destruct l; try done; simpl; [by apply step_release|by apply step_reply|by apply step_read_cleanup].
  - eapply wpb_elim; [by eapply step_cinv|]. intros [] s' Hs HQ. split; [done|]. by eapply tells_quiet.
Qed.
Lemma crun_cinv tidy s0 s A : cinv tidy s0 (c_srv s0) → crun tidy s0 s A → cinv tidy s A.
Proof. intros C0. induction 1 as [|s A l s' _ IH Hc Hn Hs]; [done|]. destruct (wpb_done _ _ _ _ _ Hs (step_all _ _ _ _ IH Hc Hn)). done. Qed.
End run.
