(* ===== verification/CioDrain.v ===== *)
(** * Pending writes get to the I/O server

    From any state of a run the flush thread can send all pending writes, when
    the lease is good, the server answers and enough time has passed. *)
From S2P Require Import Prelude BmapMds ReplReq ReplWalk Lease Slvr SlvrIO Pgcache PgcacheInv Coalesce CoalesceProps Cio CioInv CioFrame CioTop CioStart CioValid CioRead CioLoad CioEnd CioReply CioWrite CioQueue CioFlush CioSend CioRun.

(** ** Code that does not wait *)
Definition nowait {S A} (m : M S A) : Prop := ∀ s, m s ≠ Stuck WouldBlock.
Section nowait.
Context {S : Type}.
Lemma nowait_ret {A} (a : A) : nowait (mret a : M S A).
Proof. done. Qed.
Lemma nowait_bind {A B} (m : M S A) (k : A → M S B) : nowait m → (∀ a, nowait (k a)) → nowait (m ≫= k).
Proof. intros Hm Hk s. unfold mbind, M_bind. specialize (Hm s). destruct (m s) as [[a s1]|]; [apply Hk|congruence]. Qed.
Lemma nowait_stuck {A} w : w ≠ WouldBlock → nowait (stuckM w : M S A).
Proof. intros Hw s. by intros [= ->]. Qed.
Lemma nowait_modify (f : S → S) : nowait (modifyM f).
Proof. done. Qed.
Lemma nowait_assert b : nowait (psc_assert b : M S unit).
Proof. by destruct b. Qed.
Lemma nowait_if {A} (b : bool) (m n : M S A) : nowait m → nowait n → nowait (if b then m else n).
Proof. by destruct b. Qed.
End nowait.
Lemma nowait_getPg p : nowait (getPg p).
Proof. intros s. unfold getPg. by destruct (_ !! _). Qed.
Ltac nowait_step :=
  lazymatch goal with
  | |- nowait (mbind _ _) => apply nowait_bind
  | |- nowait (mret _) => apply nowait_ret
  | |- nowait (stuckM _) => by apply nowait_stuck
  | |- nowait (modifyM _) => apply nowait_modify
  | |- nowait (setPg _ _) => apply nowait_modify
  | |- nowait (getPg _) => apply nowait_getPg
  | |- nowait getM => done
  | |- nowait (psc_assert _) => apply nowait_assert
  | |- nowait (modPg _ _) => unfold modPg
  | |- nowait (match ?x with _ => _ end) => first [apply nowait_if|destruct x]
  | |- ∀ _, nowait _ => intros ?
  end.
Lemma nowait_release p : nowait (bmpce_release p).
Proof. unfold bmpce_release, bmpce_free. repeat nowait_step. Qed.
Lemma nowait_each f l : (∀ p, nowait (f p)) → nowait (each_page f l).
Proof. intros Hf. induction l as [|p l IH]; [done|]. by apply nowait_bind. Qed.
Section coalesce.
Context `{PflNet}.
Lemma nowait_prep_pages pages : ∀ first roff off reqsz acc, nowait (prep_pages first roff pages off reqsz acc).
Proof. induction pages as [|p pages IH]; intros; simpl; repeat nowait_step. apply IH. Qed.
Lemma nowait_prep_loop rs : ∀ e loff acc, nowait (prep_loop rs e loff acc).
Proof. induction rs as [|r rs IH]; intros; simpl; repeat nowait_step; auto using nowait_prep_pages. Qed.
Lemma nowait_map_loop pages : ∀ first roff tot, nowait (map_loop first roff pages tot).
Proof. induction pages as [|p pages IH]; intros; simpl; repeat nowait_step. apply IH. Qed.
Lemma nowait_map g rs : nowait (bmap_flush_coalesce_map g rs).
Proof. unfold bmap_flush_coalesce_map, bmap_flush_coalesce_prep. repeat nowait_step; auto using nowait_prep_loop, nowait_map_loop. Qed.
End coalesce.

(** [wpn m Q s]: [m] does not wait, and [Q] holds if it finishes. *)
Definition wpn {S A} (m : M S A) (Q : A → S → Prop) (s : S) : Prop :=
  match m s with Done (a, s') => Q a s' | Stuck WouldBlock => False | Stuck _ => True end.
Section wpn.
Context {S : Type}.
Lemma wpn_bind {A B} (m : M S A) (k : A → M S B) Q s : wpn m (λ a s', wpn (k a) Q s') s → wpn (m ≫= k) Q s.
Proof. unfold wpn, mbind, M_bind. by destruct (m s) as [[a s1]|[]]. Qed.
Lemma wpn_mono {A} (m : M S A) (P Q : A → S → Prop) s : wpn m P s → (∀ a s', P a s' → Q a s') → wpn m Q s.
Proof. unfold wpn. destruct (m s) as [[a s']|[]]; eauto. Qed.
Lemma wpn_both {A} (m : M S A) (P Q : A → S → Prop) s : wpb m P s → wpn m Q s → wp m (λ a s', P a s' ∧ Q a s') s.
Proof. unfold wpb, wpn, wp. by destruct (m s) as [[a s']|[]]. Qed.
Lemma wpn_of {A} (m : M S A) (Q : A → S → Prop) s : wp m Q s → wpn m Q s.
Proof. unfold wp, wpn. by destruct (m s) as [[a s']|]. Qed.
Lemma wpn_assert b (Q : unit → S → Prop) s : Q tt s → wpn (psc_assert b) Q s.
Proof. by destruct b. Qed.
End wpn.
Lemma wpn_lift {A} (m : PC A) (Q : A → cl → Prop) s : nowait m → (∀ a p, Q a (c_set_pc s p)) → wpn (liftPc m) Q s.
Proof. intros Hm HQ. unfold wpn, liftPc. specialize (Hm (c_pc s)). destruct (m (c_pc s)) as [[a p]|[]]; done. Qed.
Lemma wpn_getRq id (Q : biorq → cl → Prop) s : (∀ r, b_rqs (c_b s) !! id = Some r → Q r s) → wpn (getRq id) Q s.
Proof. unfold wpn, getRq. destruct (_ !! _) as [r|]; [|done]. intros HQ. by apply HQ. Qed.
Lemma wpn_getRqs l (Q : list (nat * biorq) → cl → Prop) s : (∀ rs, Q rs s) → wpn (getRqs l) Q s.
Proof.
  revert Q. induction l as [|id l IH]; intros Q HQ; simpl; [apply HQ|]. apply wpn_bind, wpn_getRq. intros r _. apply wpn_bind, IH. intros rs. apply HQ.
Qed.

(** ** What stays the same *)
Definition stays (J : cl → Prop) {A} (m : CM A) : Prop := ∀ s, J s → wpn m (λ _, J) s.
Section stays.
Context (J : cl → Prop) (Jpc : ∀ s p, J s → J (c_set_pc s p)).
Lemma stays_ret {A} (a : A) : stays J (mret a).
Proof. by intros s. Qed.
Lemma stays_bind {A B} (m : CM A) (k : A → CM B) : stays J m → (∀ a, stays J (k a)) → stays J (m ≫= k).
Proof. intros Hm Hk s Hs. apply wpn_bind. eapply wpn_mono; [by apply Hm|]. intros a s' Hs'. by apply Hk. Qed.
Lemma stays_when b m : stays J m → stays J (whenM b m).
Proof. destruct b; [done|]. intros _. apply stays_ret. Qed.
Lemma stays_if {A} (b : bool) (m n : CM A) : stays J m → stays J n → stays J (if b then m else n).
Proof. by destruct b. Qed.
Lemma stays_assert b : stays J (psc_assert b).
Proof. intros s Hs. by apply wpn_assert. Qed.
Lemma stays_getB : stays J getB.
Proof. by intros s. Qed.
Lemma stays_getRq id : stays J (getRq id).
Proof. intros s Hs. by apply wpn_getRq. Qed.
Lemma stays_lift {A} (m : PC A) : nowait m → stays J (liftPc m).
Proof. intros Hm s Hs. apply wpn_lift; [done|]. auto. Qed.
Lemma stays_modB f : (∀ s, J s → J (c_set_b s (f (c_b s)))) → stays J (modB f).
Proof. intros Hf s Hs. by apply Hf. Qed.
Lemma stays_each f l : (∀ id, stays J (f id)) → stays J (each_rq f l).
Proof. intros Hf. induction l as [|id l IH]; [apply stays_ret|]. by apply stays_bind. Qed.
End stays.
Ltac stays_step :=
  lazymatch goal with
  | |- stays _ (mbind _ _) => apply stays_bind
  | |- stays _ (mret _) => apply stays_ret
  | |- stays _ (whenM _ _) => apply stays_when
  | |- stays _ (psc_assert _) => apply stays_assert
  | |- stays _ getB => apply stays_getB
  | |- stays _ (getRq _) => apply stays_getRq
  | |- stays _ (modB _) => apply stays_modB
  | |- stays _ (setRq _ _) => apply stays_modB
  | |- stays _ (each_rq _ _) => apply stays_each
  | |- stays _ (liftPc _) => apply stays_lift
  | |- stays _ (match ?x with _ => _ end) => first [apply stays_if|destruct x]
  | |- ∀ _, stays _ _ => intros ?
  end.

(** ** The count of pending writes *)
Lemma cnt_length {A} (f : A → bool) l : cnt f l = Z.of_nat (length (filter (λ x, f x = true) l)).
Proof.
  induction l as [|x l IH]; [done|]. rewrite filter_cons. simpl. destruct (f x) eqn:Hf; [rewrite decide_True by done|rewrite decide_False by congruence]; simpl; lia.
Qed.
Lemma nwr_parts tidy s A : cinv tidy s A → b_nwr (c_b s) = Z.of_nat (length (b_new (c_b s)) + length (g_ids (groups_of s))).
Proof.
  intros [(I & _) _ _]. pose proof I as [V1 V2 V3 V4 V5 V6 V7 V8 V9 V10 V11 V12 V13 V14 V15 V16 V17 V18 V19 V20]. rewrite app_nil_r in V12. setoid_rewrite app_nil_r in V13.
  rewrite V16, cnt_length, <-length_app. f_equal. apply Permutation_length, NoDup_Permutation.
  - by apply NoDup_filter.
  - apply NoDup_app. split_and!; [done| |done]. intros id (r & Hi & Ht)%V8 (r' & Hi' & _ & Ht')%V13. congruence.
  - intros id. rewrite list_elem_of_filter, elem_of_app, V3, V8, V13. unfold is_rdy. split.
    + intros [Hf [r Hr]]. rewrite Hr in Hf. destruct (rfl r BIORQ_ONTREE) eqn:Ht; [left|right]; by exists r.
    + intros [(r & Hr & Ht)|(r & Hr & Hf & _)]; rewrite Hr; (split; [|by eexists]); [|done]. by apply (ri_tree _ _ _ _ (V4 id r Hr)).
Qed.

(** ** Steps of the flush thread and of RPCs *)

(** What the steps below leave alone. *)
Record carry (s s' : cl) : Prop := {
  ca_thr : c_thr s' = c_thr s;
  ca_lease : hasf (b_flags (c_b s')) BMAPF_LEASEFAILED = hasf (b_flags (c_b s)) BMAPF_LEASEFAILED;
  ca_rc : b_flushrc (c_b s') = b_flushrc (c_b s);
}.
Lemma carry_refl s : carry s s.
Proof. by split. Qed.
Lemma carry_trans s s1 s2 : carry s s1 → carry s1 s2 → carry s s2.
Proof. intros [] []. split; congruence. Qed.

(** In the middle of a callback, and of sending. *)
Record during (s0 : cl) (s : cl) : Prop := {
  du_carry : carry s0 s;
  du_wr : c_wr s = c_wr s0;
  du_fl : c_fl s = c_fl s0;
  du_new : (length (b_new (c_b s)) ≤ length (b_new (c_b s0)))%nat;
}.
Lemma during_refl s : during s s.
Proof. split; [apply carry_refl|done..]. Qed.
Lemma during_pc s0 s p : during s0 s → during s0 (c_set_pc s p).
Proof. intros [[? ? ?] ? ? ?]. by split. Qed.
Lemma during_b s0 s b : during s0 s →
  hasf (b_flags b) BMAPF_LEASEFAILED = hasf (b_flags (c_b s)) BMAPF_LEASEFAILED → b_flushrc b = b_flushrc (c_b s) → (length (b_new b) ≤ length (b_new (c_b s)))%nat →
  during s0 (c_set_b s b).
Proof. intros [[D1 D2 D3] ? ? ?] Hl Hf Hn. split; simpl; try done; [|lia]. split; simpl; [done|congruence..]. Qed.
Ltac during_b := intros ? ?; apply during_b; [assumption|simpl; try (by flags_goal); done|done|simpl; try apply length_filter; done].

Section drain.
Context `{PflNetLaws}.

Lemma during_decref s0 id : stays (during s0) (biorq_decref id).
Proof.
  unfold biorq_decref, msl_biorq_destroy, msl_biorq_del, rq_dequeue. repeat stays_step; try during_b; try apply during_pc. apply nowait_each. intros p. apply nowait_release.
Qed.
Lemma during_unpin s0 g : stays (during s0) (bwc_unpin_pages g).
Proof. unfold bwc_unpin_pages. apply stays_lift; [apply during_pc|]. apply nowait_each. intros p. repeat nowait_step. Qed.

(** A write RPC that the server has written comes back. *)
Lemma wpn_write_cb s wid v : c_wr s !! wid = Some v → w_applied v = true →
  wpn (write_cb 0 wid 0) (λ _ s', carry s s' ∧ c_wr s' = delete wid (c_wr s) ∧ c_fl s' = c_fl s ∧ (length (b_new (c_b s')) ≤ length (b_new (c_b s)))%nat) s.
Proof.
  intros Hv Ha. unfold write_cb. apply wpn_bind, wpn_of, wp_get. rewrite Hv. apply wpn_bind, wpn_of, wp_wait; [done|].
  apply wpn_bind. eapply wpn_mono; [apply during_unpin, during_refl|]. intros [] s1 D1. apply wpn_bind. simpl. eapply wpn_mono; [by apply (stays_each (during s)), D1; intros; apply during_decref|].
  intros [] s2 [[? ? ?] Hw Hf Hn]. apply wpn_of, wp_modify. split; [by split|]. split; [simpl; by rewrite Hw|]. done.
Qed.

(** ** How far pages are pinned *)
Definition wpl {S A} (m : M S A) (Q : A → S → Prop) (s : S) : Prop := match m s with Done (a, s') => Q a s' | Stuck _ => True end.
Lemma wpl_bind {S A B} (m : M S A) (k : A → M S B) Q s : wpl m (λ a s', wpl (k a) Q s') s → wpl (m ≫= k) Q s.
Proof. unfold wpl, mbind, M_bind. by destruct (m s) as [[a s1]|]. Qed.
Lemma wpl_any {S A} (m : M S A) (Q : A → S → Prop) s : (∀ a s', Q a s') → wpl m Q s.
Proof. intros HQ. unfold wpl. by destruct (m s) as [[a s']|]. Qed.
Lemma wpl_quiet v {A} (m : CM A) (Q : A → cl → Prop) s : quiet v (look v s) m → (∀ a s', look v s' = look v s → Q a s') → wpl m Q s.
Proof. intros Hq HQ. unfold wpl. destruct (m s) as [[a s']|] eqn:Hs; [|done]. apply HQ. by eapply Hq. Qed.

Lemma wpl_get {S B} (k : S → M S B) Q s : wpl (k s) Q s → wpl (getM ≫= k) Q s.
Proof. done. Qed.

Definition fl_ok (f : flpc) : Prop := match f with FSend _ g i => (i ≤ length (bwc_bmpces g))%nat | _ => True end.
Lemma fl_ok_step l s s' : fl_ok (c_fl s) → cstep l s = Done (tt, s') → fl_ok (c_fl s').
Proof.
  intros Hf Hs. destruct (moves_fl l) eqn:Hm; [|pose proof (quiet_fl_cstep _ l Hm s tt s' eq_refl Hs) as [= ->]; done].
  enough (wpl (cstep l) (λ _ s', fl_ok (c_fl s')) s) as Hw by (unfold wpl in Hw; by rewrite Hs in Hw). clear Hs. destruct l; try done; simpl.
  - unfold flush_begin. apply wpl_get. destruct (c_fl s) eqn:Hfl; try done.
    do 4 (apply wpl_bind; eapply (wpl_quiet VFl); [first [apply quiet_wait|apply quiet_assert|apply quiet_flushable]|intros ? ? [= ?]]).
    destruct (hasf (b_flags (c_b s)) BMAPF_LEASEFAILED); [|by apply wpl_bind, wpl_any].
    eapply (wpl_quiet VFl); [apply quiet_destroy_locked|]. intros ? ? [= Hx]. rewrite Hx. congruence.
  - unfold flush_group. apply wpl_get. destruct (c_fl s) as [|[|id reqs]|] eqn:Hfl; try done. apply wpl_bind, wpl_any. intros rs s1.
    destruct (bmap_flush_trycoalesce now rs) as [[[g|] idx]|]; [|done|done]. do 3 (apply wpl_bind, wpl_any; intros ? ?).
    destruct (negb (csvc_rc =? 0)); [by apply wpl_bind, wpl_any|]. do 2 (apply wpl_bind, wpl_any; intros ? ?). destruct (negb (req_rc =? 0)); [by apply wpl_bind, wpl_any|]. exact (Nat.le_0_l _).
  - unfold pin_step. apply wpl_get. destruct (c_fl s) as [| |reqs g i] eqn:Hfl; try done. destruct (bwc_bmpces g !! i) eqn:Hp; [|done]. do 3 (apply wpl_bind, wpl_any; intros ? ?).
    simpl. by apply lookup_lt_Some in Hp.
  - unfold send_step. apply wpl_get. destruct (c_fl s) as [| |reqs g i] eqn:Hfl; try done. apply wpl_bind, wpl_any; intros ? ?. destruct (negb (rc =? 0)); [|done].
    do 2 (apply wpl_bind, wpl_any; intros ? ?). done.
  - unfold flush_end. apply wpl_get. destruct (c_fl s) as [|[|]|] eqn:Hfl; try done.
Qed.

(** ** Runs that only flush *)
Definition flushing (l : label) : bool :=
  match l with LFlushBegin _ | LFlushGroup _ _ _ | LPin | LSend _ _ | LFlushEnd | LSrvWrite _ _ | LWriteCb _ _ _ | LLeaseExt => true | _ => false end.
Definition leads (s s' : cl) : Prop := ∃ ls, Forall (λ l, flushing l = true) ls ∧ crun_labels ls s = Done (tt, s').
Lemma leads_refl s : leads s s.
Proof. by exists []. Qed.
Lemma crun_labels_app ls ks : ∀ s s1 s2, crun_labels ls s = Done (tt, s1) → crun_labels ks s1 = Done (tt, s2) → crun_labels (ls ++ ks) s = Done (tt, s2).
Proof.
  induction ls as [|l ls IH]; intros s s1 s2; simpl; [by intros [= <-]|]. unfold mbind, M_bind. destruct (cstep l s) as [[[] s']|]; [|done]. apply IH.
Qed.
Lemma leads_trans s s1 s2 : leads s s1 → leads s1 s2 → leads s s2.
Proof. intros (ls & Hl & Hs) (ks & Hk & Hs'). exists (ls ++ ks). split; [by apply Forall_app|by eapply crun_labels_app]. Qed.
Lemma leads_step l s s' : flushing l = true → cstep l s = Done (tt, s') → leads s s'.
Proof. intros Hf Hs. exists [l]. split; [by constructor|]. simpl. unfold mbind, M_bind. by rewrite Hs. Qed.
Lemma leads_crun tidy s0 s A ls s' : crun tidy s0 s A → Forall (λ l, flushing l = true) ls → crun_labels ls s = Done (tt, s') → crun tidy s0 s' A.
Proof.
  intros Hr Hf. revert s Hr. induction Hf as [|l ls Hl Hf IH]; intros s Hr; simpl; [by intros [= <-]|]. unfold mbind, M_bind. destruct (cstep l s) as [[[] s1]|] eqn:Hs; [|done].
  apply IH. replace A with (effect s l A) by (by destruct l). eapply crun_cons; [done| |by destruct l|done]. by destruct l.
Qed.
(** A step of such a run, with what it keeps. *)
Lemma flush_step tidy s A l (Q : cl → Prop) : cinv tidy s A → flushing l = true → wpn (cstep l) (λ _, Q) s → ∃ s', leads s s' ∧ cinv tidy s' A ∧ Q s'.
Proof.
  intros C Hf Hn. destruct (wp_run _ _ _ (wpn_both _ _ _ _ (step_cinv tidy s A l C ltac:(by destruct l) ltac:(by destruct l) ltac:(by destruct l)) Hn)) as ([] & s' & Hs & C' & HQ).
  exists s'. split; [by eapply leads_step|]. split; [|done]. by destruct l.
Qed.

(** ** RPCs in flight come back *)
Lemma drain_one tidy s A wid v : cinv tidy s A → c_wr s !! wid = Some v →
  ∃ s', leads s s' ∧ cinv tidy s' A ∧ carry s s' ∧ c_wr s' = delete wid (c_wr s) ∧ c_fl s' = c_fl s ∧ b_nwr (c_b s') + Z.of_nat (length (bwc_biorqs (w_bwc v))) ≤ b_nwr (c_b s).
Proof.
  intros C Hv. assert (∃ s1 v1, leads s s1 ∧ cinv tidy s1 A ∧ carry s s1 ∧ c_wr s1 = <[wid := v1]> (c_wr s) ∧ w_bwc v1 = w_bwc v ∧ w_applied v1 = true ∧ c_fl s1 = c_fl s ∧ c_b s1 = c_b s) as (s1 & v1 & L1 & C1 & K1 & W1 & G1 & A1 & F1 & B1).
  { destruct (w_applied v) eqn:Ha; [exists s, v; split_and!; try done; [apply leads_refl|by rewrite insert_id]|].
    set (v1 := {| w_bwc := w_bwc v; w_applied := true |}).
    destruct (flush_step tidy s A (LSrvWrite wid (bwc_size (w_bwc v))) (λ s1, carry s s1 ∧ c_wr s1 = <[wid := v1]> (c_wr s) ∧ c_fl s1 = c_fl s ∧ c_b s1 = c_b s) C eq_refl) as (s1 & L1 & C1 & K1 & W1 & F1 & B1).
    - simpl. unfold srv_write. apply wpn_bind, wpn_of, wp_get. rewrite Hv. apply wpn_bind, wpn_of, wp_wait.
      { rewrite Ha. destruct C as [(I & _) _ _]. destruct (rv_g _ _ _ _ _ _ I (grp_rpc v)) as [_ _ _ Hz _]; [|simpl in Hz; lia].
        unfold groups_of. apply elem_of_app. right. unfold wr_groups. apply list_elem_of_fmap. exists (wid, v). split; [done|]. by apply elem_of_map_to_list. }
      apply wpn_of, wp_put. split; [by split|]. by rewrite Z.eqb_refl.
    - by exists s1, v1. }
  destruct (flush_step tidy s1 A (LWriteCb 0 wid 0) (λ s', carry s1 s' ∧ c_wr s' = delete wid (c_wr s1) ∧ c_fl s' = c_fl s1 ∧ (length (b_new (c_b s')) ≤ length (b_new (c_b s1)))%nat) C1 eq_refl) as (s' & L2 & C2 & K2 & W2 & F2 & N2).
  { eapply wpn_write_cb; [|exact A1]. by rewrite W1, lookup_insert_eq. }
  exists s'. split_and!; [by eapply leads_trans|done|by eapply carry_trans|by rewrite W2, W1, delete_insert_eq|congruence|].
  rewrite (nwr_parts _ _ _ C2), <-B1, (nwr_parts _ _ _ C1). unfold groups_of. rewrite W2, F2.
  assert (length (g_ids (fl_groups (c_fl s1) ++ wr_groups (c_wr s1))) = length (bwc_biorqs (w_bwc v)) + length (g_ids (fl_groups (c_fl s1) ++ wr_groups (delete wid (c_wr s1)))))%nat as ->; [|lia].
  rewrite <-G1, <-length_app. change (bwc_biorqs (w_bwc v1)) with (bwc_biorqs (g_bwc (grp_rpc v1))). rewrite <-g_ids_cons. apply Permutation_length.
  assert (fl_groups (c_fl s1) ++ wr_groups (c_wr s1) ≡ₚ grp_rpc v1 :: fl_groups (c_fl s1) ++ wr_groups (delete wid (c_wr s1))) as Hperm.
  { rewrite (wr_groups_delete (c_wr s1) wid v1) by (by rewrite W1, lookup_insert_eq). symmetry. apply Permutation_middle. }
  unfold g_ids. by rewrite Hperm.
Qed.
Lemma drain_all tidy A n : ∀ s, cinv tidy s A → size (c_wr s) = n →
  ∃ s', leads s s' ∧ cinv tidy s' A ∧ carry s s' ∧ c_wr s' = ∅ ∧ c_fl s' = c_fl s ∧ b_nwr (c_b s') ≤ b_nwr (c_b s).
Proof.
  induction n as [|n IH]; intros s C Hn.
  { exists s. split_and!; try done; [apply leads_refl|by apply map_size_empty_inv]. }
  destruct (map_choose (c_wr s)) as (wid & v & Hv); [intros He; by rewrite He, map_size_empty in Hn|].
  destruct (drain_one tidy s A wid v C Hv) as (s1 & L1 & C1 & K1 & W1 & F1 & N1). destruct (IH s1 C1) as (s2 & L2 & C2 & K2 & W2 & F2 & N2).
  { rewrite W1, map_size_delete_Some by (by eexists). lia. }
  exists s2. split_and!; [by eapply leads_trans|done|by eapply carry_trans|done|congruence|lia].
Qed.

(** ** A group is pinned and sent *)
Lemma pin_all tidy A n : ∀ s reqs g i, cinv tidy s A → c_wr s = ∅ → c_fl s = FSend reqs g i → (length (bwc_bmpces g) - i = n)%nat → (i ≤ length (bwc_bmpces g))%nat →
  ∃ s', leads s s' ∧ cinv tidy s' A ∧ carry s s' ∧ c_wr s' = ∅ ∧ c_fl s' = FSend reqs g (length (bwc_bmpces g)) ∧ c_b s' = c_b s.
Proof.
  induction n as [|n IH]; intros s reqs g i C Hw Hf Hn Hi.
  { exists s. split_and!; try done; [apply leads_refl|]. rewrite Hf. f_equal. lia. }
  destruct (bwc_bmpces g !! i) as [p|] eqn:Hp; [|apply lookup_ge_None in Hp; lia].
  destruct (flush_step tidy s A LPin (λ s', carry s s' ∧ c_wr s' = ∅ ∧ c_fl s' = FSend reqs g (S i) ∧ c_b s' = c_b s) C eq_refl) as (s1 & L1 & C1 & K1 & W1 & F1 & B1).
  - simpl. unfold pin_step. apply wpn_bind, wpn_of, wp_get. rewrite Hf, Hp. pose proof C as [(I & _) _ _].
    assert (groups_of s = [grp_send g i]) as HG by (unfold groups_of; by rewrite Hf, Hw).
    destruct (pc_tree (c_pc s) !! p) as [e|] eqn:He.
    2:{ apply wpn_bind. unfold wpn, liftPc, getPg. by rewrite He. }
    apply wpn_bind, wpn_of, wp_lift. eapply wp_getPg; [done|]. rewrite set_pc_id. apply wpn_of. wp_step. apply wp_wait.
    { rewrite (rv_pinned _ _ _ _ _ _ I p e He), HG. rewrite bool_decide_false; [done|]. intros Hin. pose proof (rv_g _ _ _ _ _ _ I (grp_send g i) ltac:(rewrite HG; left)) as Hg.
      pose proof (go_pages _ _ Hg) as Hpg. simpl in Hpg. assert (NoDup (bwc_bmpces g)) as Hnd by (rewrite Hpg; apply NoDup_prange).
      change (g_pins [grp_send g i]) with (take i (bwc_bmpces g) ++ []) in Hin. rewrite app_nil_r in Hin. apply list_elem_of_lookup in Hin as [j Hj]. apply lookup_take_Some in Hj as [Hj Hlt].
      pose proof (NoDup_lookup _ _ _ _ Hnd Hj Hp). lia. }
    wp_step. apply wp_lift. unfold setPg. wp_step. apply wp_modify. split; [by split|]. done.
  - destruct (IH s1 reqs g (S i) C1 W1 F1) as (s2 & L2 & C2 & K2 & W2 & F2 & B2); [lia|apply lookup_lt_Some in Hp; lia|].
    exists s2. split_and!; [by eapply leads_trans|done|by eapply carry_trans|done|done|congruence].
Qed.
Lemma send_group tidy A s reqs g i : cinv tidy s A → c_wr s = ∅ → c_fl s = FSend reqs g i → (i ≤ length (bwc_bmpces g))%nat →
  ∃ s', leads s s' ∧ cinv tidy s' A ∧ carry s s' ∧ c_wr s' = ∅ ∧ c_fl s' = FPass reqs ∧ b_nwr (c_b s') + Z.of_nat (length (bwc_biorqs g)) ≤ b_nwr (c_b s).
Proof.
  intros C Hw Hf Hi. destruct (pin_all tidy A _ s reqs g i C Hw Hf eq_refl Hi) as (s1 & L1 & C1 & K1 & W1 & F1 & B1).
  destruct (flush_step tidy s1 A (LSend 0 0) (λ s', carry s1 s' ∧ c_wr s' = {[c_next s1 := {| w_bwc := g; w_applied := false |}]} ∧ c_fl s' = FPass reqs ∧ c_b s' = c_b s1) C1 eq_refl) as (s2 & L2 & C2 & K2 & W2 & F2 & B2).
  { simpl. unfold send_step. apply wpn_bind, wpn_of, wp_get. rewrite F1. apply wpn_of. wp_step. apply wp_wait; [apply Nat.eqb_refl|]. simpl. wp_step. rewrite W1. split; [by split|]. done. }
  destruct (drain_one tidy s2 A (c_next s1) {| w_bwc := g; w_applied := false |} C2) as (s3 & L3 & C3 & K3 & W3 & F3 & N3); [by rewrite W2, lookup_singleton_eq|].
  exists s3. split_and!; [by eapply leads_trans, leads_trans|done|by eapply carry_trans, carry_trans|rewrite W3, W2; apply delete_singleton_eq|congruence|]. simpl in N3. rewrite B2, B1 in N3. done.
Qed.

(** ** A pass *)
Record sending (s0 s : cl) : Prop := {
  se_carry : carry s0 s;
  se_wr : c_wr s = c_wr s0;
  se_nwr : b_nwr (c_b s) = b_nwr (c_b s0);
}.
Lemma sending_pc s0 s p : sending s0 s → sending s0 (c_set_pc s p).
Proof. intros [[? ? ?] ? ?]. by split. Qed.
Lemma sending_dequeue s0 id : stays (sending s0) (send_dequeue id).
Proof. unfold send_dequeue, rq_dequeue. repeat stays_step; intros s [[? ? ?] ? ?]; by split. Qed.

(** A time at which all requests are due. *)
Definition all_due (m : gmap nat biorq) (now : Z) : Prop := ∀ id r, m !! id = Some r → biorq_expire r ≤ now.
Lemma all_due_exists m : ∃ now, all_due m now.
Proof.
  induction m as [|id r m Hn [now IH]] using map_ind; [by exists 0; intros ? ? ?%lookup_empty_Some|]. exists (Z.max now (biorq_expire r)).
  intros j q Hq. destruct (decide (j = id)) as [->|]; [rewrite lookup_insert_eq in Hq; injection Hq as ->; lia|]. rewrite lookup_insert_ne in Hq by done. specialize (IH j q Hq). lia.
Qed.
Lemma group_sent tidy s A id reqs : cinv tidy s A → c_wr s = ∅ → c_fl s = FPass (id :: reqs) →
  ∃ s' g k, leads s s' ∧ cinv tidy s' A ∧ carry s s' ∧ c_wr s' = ∅ ∧ c_fl s' = FSend (drop (S k) (id :: reqs)) g 0 ∧ bwc_biorqs g ≠ [] ∧ b_nwr (c_b s') = b_nwr (c_b s).
Proof.
  intros C Hw Hf. destruct (all_due_exists (b_rqs (c_b s))) as [now Hdue].
  destruct (flush_step tidy s A (LFlushGroup now 0 0) (λ s', ∃ g k, sending s s' ∧ c_fl s' = FSend (drop (S k) (id :: reqs)) g 0) C eq_refl) as (s' & L & C' & g & k & [K W N] & F).
  2:{ exists s', g, k. split_and!; try done; [congruence|]. destruct C' as [(I' & _) _ _]. destruct (rv_g _ _ _ _ _ _ I' (grp_send g 0)) as [_ Hc _ Hz _]; [unfold groups_of; rewrite F; left|].
      destruct (Hc (bwc_soff g)) as (j & r & Hj & _); [simpl in *; lia|]. simpl in Hj. intros He. rewrite He in Hj. by apply elem_of_nil in Hj. }
  simpl. unfold flush_group. apply wpn_bind, wpn_of, wp_get. rewrite Hf. pose proof C as [(I & _) HP _]. rewrite Hf in HP. destruct HP as (P1 & P2 & P3). simpl in P1, P2, P3.
  apply wpn_bind, wpn_of, wp_getRqs; [intros j Hj; destruct (proj1 (rv_in_new _ _ _ _ _ _ I j) (P3 j Hj)) as (r & Hr & _); by eexists|]. intros rs Hfst Hrs.
  assert (rs ≠ []) as Hne by (by intros ->). pose proof (rqs_sorted _ rs Hrs ltac:(by rewrite Hfst)) as Hsort.
  destruct (trycoalesce_spec now rs Hne Hsort) as (L & G & l' & -> & HGne & _ & [(g & Hrun & Hids & _)|[_ Hnd]]).
  { intros r Hr. apply list_elem_of_fmap in Hr as ([j r0] & -> & Hi). assert (j ∈ b_new (c_b s)) as Hj by (apply P3; rewrite <-Hfst; by apply (list_elem_of_fmap_2' fst _ (j, r0))).
    destruct (tree_facts _ _ _ _ _ _ j r0 I Hj (Hrs j r0 Hi)) as (_ & _ & (_ & ? & _) & ? & _). simpl. rewrite MTU_slvr. lia. }
  2:{ destruct (L ++ G ++ l') as [|[j r] rs'] eqn:Heq; [done|]. specialize (Hnd r). unfold bmap_flush_biorq_expired in Hnd. specialize (Hdue j r (Hrs j r ltac:(left))).
      rewrite (proj2 (Z.leb_le _ _) Hdue), orb_true_r in Hnd. discriminate Hnd. left. }
  rewrite Hrun. assert (∃ k, length (L ++ G) = S k) as [k Hk]. { destruct (length (L ++ G)) eqn:Hx; [|by eexists]. apply length_zero_iff_nil in Hx. apply app_eq_nil in Hx as [_ ->]. done. }
  rewrite Hk. apply wpn_bind, wpn_getRqs. intros grs. apply wpn_bind, wpn_lift; [apply nowait_map|]. intros g' pc'.
  apply wpn_bind, wpn_of, wp_wait; [by rewrite Hw|]. simpl. apply wpn_bind, wpn_assert. apply wpn_bind. 
  eapply wpn_mono; [apply (stays_each (sending s)); [intros; apply sending_dequeue|]; by apply sending_pc|]. intros _ s1 [[? ? ?] ? ?]. apply wpn_of, wp_modify. exists g', k. by split.
Qed.
Lemma pass_done tidy A n : ∀ s l, cinv tidy s A → c_wr s = ∅ → c_fl s = FPass l → (length l ≤ n)%nat →
  ∃ s', leads s s' ∧ cinv tidy s' A ∧ carry s s' ∧ c_wr s' = ∅ ∧ c_fl s' = FPass [] ∧ b_nwr (c_b s') ≤ b_nwr (c_b s) ∧ (l ≠ [] → b_nwr (c_b s') < b_nwr (c_b s)).
Proof.
  induction n as [|n IH]; intros s [|id l] C Hw Hf Hn; simpl in Hn; try lia.
  1,2: exists s; split_and!; [apply leads_refl|done|apply carry_refl|done|done|lia|done].
  destruct (group_sent tidy s A id l C Hw Hf) as (s1 & g & k & L1 & C1 & K1 & W1 & F1 & G1 & N1).
  destruct (send_group tidy A s1 _ g 0 C1 W1 F1) as (s2 & L2 & C2 & K2 & W2 & F2 & N2); [lia|].
  destruct (IH s2 _ C2 W2 F2) as (s3 & L3 & C3 & K3 & W3 & F3 & N3 & _); [rewrite length_drop; simpl; lia|].
  assert (0 < length (bwc_biorqs g))%nat by (destruct (bwc_biorqs g); [done|simpl; lia]).
  exists s3. split_and!; [by eapply leads_trans, leads_trans|done|by eapply carry_trans, carry_trans|done|done|lia|lia].
Qed.
Lemma pass_ends tidy s A l : cinv tidy s A → c_wr s = ∅ → c_fl s = FPass l →
  ∃ s', leads s s' ∧ cinv tidy s' A ∧ carry s s' ∧ c_wr s' = ∅ ∧ c_fl s' = FIdle ∧ b_nwr (c_b s') ≤ b_nwr (c_b s) ∧ (l ≠ [] → b_nwr (c_b s') < b_nwr (c_b s)).
Proof.
  intros C Hw Hf. destruct (pass_done tidy A _ s l C Hw Hf ltac:(done)) as (s1 & L1 & C1 & K1 & W1 & F1 & N1 & N1').
  destruct (flush_step tidy s1 A LFlushEnd (λ s', carry s1 s' ∧ c_wr s' = ∅ ∧ c_fl s' = FIdle ∧ b_nwr (c_b s') = b_nwr (c_b s1)) C1 eq_refl) as (s2 & L2 & C2 & K2 & W2 & F2 & N2).
  { simpl. unfold flush_end, modB. apply wpn_bind, wpn_of, wp_get. rewrite F1. apply wpn_of. wp_step. wp_step. apply wp_modify. split; [split; simpl; try done; by flags_goal|done]. }
  exists s2. split_and!; [by eapply leads_trans|done|by eapply carry_trans|done|done|lia|]. intros Hl. specialize (N1' Hl). lia.
Qed.
(** The flush thread and the RPCs come to rest. *)
Lemma settles tidy s A : cinv tidy s A → fl_ok (c_fl s) → ∃ s', leads s s' ∧ cinv tidy s' A ∧ carry s s' ∧ c_wr s' = ∅ ∧ c_fl s' = FIdle ∧ b_nwr (c_b s') ≤ b_nwr (c_b s).
Proof.
  intros C Hok. destruct (drain_all tidy A _ s C eq_refl) as (s1 & L1 & C1 & K1 & W1 & F1 & N1). rewrite <-F1 in Hok. destruct (c_fl s1) as [|l|l g i] eqn:Hf.
  - by exists s1.
  - destruct (pass_ends tidy s1 A l C1 W1 Hf) as (s2 & L2 & C2 & K2 & W2 & F2 & N2 & _). exists s2. split_and!; [by eapply leads_trans|done|by eapply carry_trans|done|done|lia].
  - destruct (send_group tidy A s1 l g i C1 W1 Hf Hok) as (s2 & L2 & C2 & K2 & W2 & F2 & N2). destruct (pass_ends tidy s2 A l C2 W2 F2) as (s3 & L3 & C3 & K3 & W3 & F3 & N3 & _).
    exists s3. split_and!; [by eapply leads_trans, leads_trans|done|by eapply carry_trans, carry_trans|done|done|lia].
Qed.
(** A round of the flush thread, once the lease is renewed. *)
Lemma round_flushes tidy s A : cinv tidy s A → c_wr s = ∅ → c_fl s = FIdle → hasf (b_flags (c_b s)) BMAPF_LEASEFAILED = false → 0 < b_nwr (c_b s) →
  ∃ s', leads s s' ∧ cinv tidy s' A ∧ carry s s' ∧ c_wr s' = ∅ ∧ c_fl s' = FIdle ∧ b_nwr (c_b s') < b_nwr (c_b s).
Proof.
  intros C Hw Hf Hlf Hn.
  destruct (flush_step tidy s A LLeaseExt (λ s', carry s s' ∧ c_wr s' = ∅ ∧ c_fl s' = FIdle ∧ b_nwr (c_b s') = b_nwr (c_b s) ∧ hasf (b_flags (c_b s')) BMAPF_LEASEEXPIRED = false) C eq_refl) as (s1 & L1 & C1 & K1 & W1 & F1 & N1 & E1).
  { simpl. apply wpn_of, wp_modify. simpl. split_and!; try done; [split; simpl; try done; by flags_goal|by flags_goal]. }
  assert (b_new (c_b s1) ≠ []) as Hnew. { intros He. pose proof (nwr_parts _ _ _ C1) as Hx. unfold groups_of in Hx. unfold wr_groups in Hx. rewrite He, F1, W1, map_to_list_empty in Hx. simpl in Hx. lia. }
  destruct (flush_step tidy s1 A (LFlushBegin 30) (λ s', carry s1 s' ∧ c_wr s' = ∅ ∧ c_fl s' = FPass (b_new (c_b s1)) ∧ b_nwr (c_b s') = b_nwr (c_b s1)) C1 eq_refl) as (s2 & L2 & C2 & K2 & W2 & F2 & N2).
  { pose proof C1 as [(I & _) _ _]. simpl. unfold flush_begin. apply wpn_bind, wpn_of, wp_get. rewrite F1. apply wpn_bind, wpn_of, wp_wait.
    { rewrite (rv_onq _ _ _ _ _ _ I), (rv_flushq _ _ _ _ _ _ I). apply Z.ltb_lt. lia. }
    apply wpn_bind, wpn_assert. unfold bmap_flushable, getB. apply wpn_bind, wpn_bind, wpn_of, wp_gets. destruct (b_new (c_b s1)) as [|id l] eqn:Hx; [done|].
    apply wpn_bind, wpn_getRq. intros r _. apply wpn_bind, wpn_assert. apply wpn_of, wp_ret. rewrite E1. apply wpn_bind, wpn_of, wp_wait; [simpl; by rewrite orb_true_r|].
    rewrite (ca_lease _ _ K1), Hlf. unfold modB. apply wpn_of. wp_step. wp_step. apply wp_modify. split; [split; simpl; try done; by flags_goal|done]. }
  destruct (pass_ends tidy s2 A _ C2 W2 F2) as (s3 & L3 & C3 & K3 & W3 & F3 & _ & N3). specialize (N3 Hnew).
  exists s3. split_and!; [by eapply leads_trans, leads_trans|done|by eapply carry_trans, carry_trans|done|done|lia].
Qed.
Lemma all_flushed tidy A n : ∀ s, cinv tidy s A → c_wr s = ∅ → c_fl s = FIdle → hasf (b_flags (c_b s)) BMAPF_LEASEFAILED = false → b_nwr (c_b s) ≤ Z.of_nat n →
  ∃ s', leads s s' ∧ cinv tidy s' A ∧ carry s s' ∧ b_nwr (c_b s') = 0.
Proof.
  induction n as [|n IH]; intros s C Hw Hf Hlf Hn; pose proof (nwr_parts _ _ _ C) as Hx.
  { exists s. split_and!; [apply leads_refl|done|apply carry_refl|lia]. }
  destruct (decide (b_nwr (c_b s) = 0)) as [|Hz]; [exists s; split_and!; [apply leads_refl|done|apply carry_refl|done]|].
  destruct (round_flushes tidy s A C Hw Hf Hlf) as (s1 & L1 & C1 & K1 & W1 & F1 & N1); [lia|]. destruct (IH s1 C1 W1 F1) as (s2 & L2 & C2 & K2 & N2); [by rewrite (ca_lease _ _ K1)|lia|].
  exists s2. split_and!; [by eapply leads_trans|done|by eapply carry_trans|done].
Qed.
Lemma crun_fl_ok tidy s0 s A : fl_ok (c_fl s0) → crun tidy s0 s A → fl_ok (c_fl s).
Proof. intros H1. induction 1 as [|s A l s' _ IH _ _ Hs]; [done|]. by eapply fl_ok_step. Qed.
End drain.
