(* ===== verification/CioProps.v ===== *)
(** * Theorems on cached I/O of a client

    What reads see, what reaches the I/O server, that no step faults, that
    pending writes can be flushed, and the end of a bmap. *)
From S2P Require Import Prelude BmapMds ReplReq ReplWalk Lease Slvr SlvrIO Pgcache PgcacheInv Coalesce CoalesceProps Cio CioInv CioFrame CioTop CioStart CioValid CioRead CioLoad CioEnd CioReply CioWrite CioQueue CioFlush CioSend CioRun CioDrain.

Lemma wp_unit {S} (m : M S unit) (P : S → Prop) s : wp m (λ _, P) s → ∃ s', m s = Done (tt, s') ∧ P s'.
Proof. intros ([] & s' & Hs & HP)%wp_run. by exists s'. Qed.

Section theorems.
Context `{PflNetLaws}.

Lemma crun_inv tidy ios srv fsz s A : crun tidy (cl_init ios srv fsz) s A → cinv tidy s A.
Proof. apply crun_cinv, cinv_init. Qed.

(** C13: Coalescing: one pass over the pending writes of a bmap, ordered by
    offset, finishes; each write is in one group at most, in order, and every
    write that is due is in one. The requests of a group are next to each other
    and cover one range without holes that fits into one transfer; making the RPC
    of a group fails no assertion and writes no array out of bounds, and the RPC
    has at most 33 parts, with the bytes of the range as the pages have them. *)
Theorem coalesce_pass now (l : list (nat * biorq)) pc :
  StronglySorted off_le (snd <$> l) → (∀ r, r ∈ snd <$> l → rq_shape r ∧ biorq_len r ≤ LNET_MTU_RIC ∧ pgs_in pc (biorq_pages r)) →
  ∃ gs, flush_groups (length l) now l = Done gs ∧ concat (bwc_biorqs <$> gs) `sublist_of` (fst <$> l) ∧
    (∀ id r, (id, r) ∈ l → bmap_flush_biorq_expired now r = true → id ∈ concat (bwc_biorqs <$> gs)) ∧
    ∀ g, g ∈ gs → ∃ A G l' g', l = A ++ G ++ l' ∧ bwc_biorqs g = fst <$> G ∧
      (∀ x, bwc_soff g ≤ x < bwc_soff g + bwc_size g ↔ ∃ r, r ∈ snd <$> G ∧ biorq_off r ≤ x < biorq_voff_get r) ∧ bwc_size g ≤ LNET_MTU_RIC ∧
      bmap_flush_coalesce_map g (snd <$> G) pc = Done (g', pc) ∧ bwc_soff g' = bwc_soff g ∧ bwc_size g' = bwc_size g ∧
      Z.of_nat (length (bwc_iovs g')) ≤ 33 ∧ bwc_bmpces g' = biorq_page_offs (bwc_soff g) (bwc_size g) ∧
      ∀ i, 0 ≤ i < bwc_size g → iov_bytes (pc_tree pc) (bwc_iovs g') i = page_byte (pc_tree pc) (bwc_soff g + i).
Proof.
  intros Hs Hl. destruct (flush_groups_spec now (length l) l) as (gs & Hrun & Hp & Hsub & Hdue); [done|done|intros r Hr; destruct (Hl r Hr) as ((? & ? & _) & ? & _); lia|].
  exists gs. split_and!; try done. intros g Hg. destruct (Hp g Hg) as (A & G & l' & -> & Hids & Hgo & Hsz).
  assert (StronglySorted off_le (snd <$> G)) as HsG by (rewrite !fmap_app in Hs; by apply StronglySorted_app_1_r, StronglySorted_app_1_l in Hs).
  destruct (group_range _ g Hgo HsG) as [Hin Hcov].
  destruct (coalesce_map_run g (snd <$> G) pc) as (g' & Hg' & H1 & H2 & H3 & H4 & H5); [done|done|done| |].
  { intros r Hr. destruct (Hl r) as (? & _ & ?); [|done]. rewrite !fmap_app, !elem_of_app. tauto. }
  exists A, G, l', g'. split_and!; try done; [|lia]. intros x. split; [apply Hcov|]. intros (r & Hr & Hx). destruct (Hin r Hr). lia.
Qed.

(** C11: No assertion of the client fails, no null pointer is used and no
    access is out of bounds: from every state of a run each step finishes, or the
    thread has to wait, as long as the steps are calm. *)
Theorem client_no_fault tidy ios srv fsz s A l :
  crun tidy (cl_init ios srv fsz) s A → calm s l → neat tidy s l →
  cstep l s = Stuck WouldBlock ∨ ∃ s', cstep l s = Done (tt, s') ∧ crun tidy (cl_init ios srv fsz) s' (effect s l A).
Proof.
  intros Hr Hc Hn. pose proof (step_all tidy s A l (crun_inv _ _ _ _ _ _ Hr) Hc Hn) as Hw. unfold wpb in Hw.
  destruct (cstep l s) as [[[] s']|w] eqn:Hs; [right; exists s'; split; [done|by eapply crun_cons]|left; by destruct w].
Qed.

(** C3: A read sees the writes: in a run whose steps are calm ([calm]) and
    tidy ([neat]: no write leaves a gap in a page), as long as no write was
    given up ([b_flushrc] is 0), when the file system is told the data of a
    read, it gets as much of what was asked as the file has, and each byte is
    the one that the writes up to now have left. [CioEx.v] has runs that lose
    a write where a step is not calm. *)
Theorem read_sees_writes ios srv fsz s A l s' id len d :
  crun true (cl_init ios srv fsz) s A → calm s l → neat true s l → cstep l s = Done (tt, s') →
  c_out s' = c_out s ++ [(id, ReplyRead 0 len d)] → b_flushrc (c_b s) = 0 →
  ∃ r, b_rqs (c_b s) !! id = Some r ∧ hasf (biorq_flags r) BIORQ_READ = true ∧
    len = Z.max 0 (Z.min (biorq_len r) (c_fsz s - biorq_off r)) ∧ ∀ k, 0 ≤ k < len → d k = A (biorq_off r + k).
Proof.
  intros Hr Hc Hn Hs Ho Hf. pose proof (crun_inv _ _ _ _ _ _ Hr) as C. destruct (wpb_done _ _ _ _ _ Hs (step_all true _ _ _ C Hc Hn)) as [_ [Hq|(i & r & x & Ho' & Hi & Hx)]].
  - rewrite Hq in Ho. apply (f_equal length) in Ho. rewrite length_app in Ho. simpl in Ho. lia.
  - rewrite Ho' in Ho. apply app_inj_2 in Ho as [_ [= -> ->]]; [|done]. destruct Hx as [Hw [[? _]|(_ & -> & Hd)]]; [done|].
    exists r. destruct C as [(I & _) _ _]. pose proof (ri_kind _ _ _ _ (rv_rq _ _ _ _ _ _ I _ _ Hi)) as Hk. split_and!; [done|by rewrite Hk, Hw|unfold read_len; lia|auto].
Qed.

Lemma srv_clean tidy s A x : cinv tidy s A → b_flushrc (c_b s) = 0 →
  (∀ id r, b_rqs (c_b s) !! id = Some r → hasf (biorq_flags r) BIORQ_WRITE = true → x < biorq_off r ∨ biorq_voff_get r ≤ x) → c_srv s x = A x.
Proof.
  intros [(I & _ & K & _ & HD) _ _] Hf Hout. destruct (HD Hf) as [D1 D2 D3 D4 D5].
  destruct (K x) eqn:Hk; [|by apply D2]. destruct (D3 x Hk) as [|(id & r & Hi & Hw & Hx)]; [done|]. exfalso.
  destruct (rv_rq _ _ _ _ _ _ I id r Hi) as [_ _ _ _ _ _ _ _ _ _ R11]. destruct (Hout id r Hi Hw); [lia|].
  unfold copied_end in Hx. destruct (c_thr s !! id) as [[]|]; simpl in R11; lia.
Qed.

(** C4: What was written gets to the I/O server: in a run of calm steps
    ([calm]), unless a write had to be given up, the server has every byte of
    the bmap as the writes left it, except for the ranges of the writes that
    are still under way. *)
Theorem srv_has_writes tidy ios srv fsz s A x :
  crun tidy (cl_init ios srv fsz) s A → b_flushrc (c_b s) = 0 →
  (∀ id r, b_rqs (c_b s) !! id = Some r → hasf (biorq_flags r) BIORQ_WRITE = true → x < biorq_off r ∨ biorq_voff_get r ≤ x) →
  c_srv s x = A x.
Proof.
  intros Hr. apply (srv_clean tidy). by eapply crun_inv.
Qed.

(** C12: Pending writes can always be flushed: from every state of a run of
    calm steps whose lease has not failed there is a sequence of steps of the
    flush thread, the I/O server and the lease, with no new request, after
    which no write is pending; when no thread is inside a request and no write
    had to be given up, the server then has the whole bmap as the writes left
    it. *)
Theorem flush_drains tidy ios srv fsz s A :
  crun tidy (cl_init ios srv fsz) s A → hasf (b_flags (c_b s)) BMAPF_LEASEFAILED = false →
  ∃ ls s', Forall (λ l, flushing l = true) ls ∧ crun_labels ls s = Done (tt, s') ∧ crun tidy (cl_init ios srv fsz) s' A ∧ b_nwr (c_b s') = 0 ∧
    (c_thr s = ∅ → b_flushrc (c_b s) = 0 → ∀ x, c_srv s' x = A x).
Proof.
  intros Hr Hlf. pose proof (crun_inv _ _ _ _ _ _ Hr) as C. destruct (settles tidy s A C) as (s1 & L1 & C1 & K1 & W1 & F1 & _); [by eapply (crun_fl_ok _ (cl_init ios srv fsz))|].
  destruct (all_flushed tidy A (Z.to_nat (b_nwr (c_b s1))) s1 C1 W1 F1) as (s2 & L2 & C2 & K2 & N2); [by rewrite (ca_lease _ _ K1)|pose proof (nwr_parts _ _ _ C1); lia|].
  destruct (leads_trans _ _ _ L1 L2) as (ls & Hls & Hrun). pose proof (carry_trans _ _ _ K1 K2) as [K3 _ K4]. exists ls, s2. split_and!; [done|done|by eapply leads_crun|done|].
  intros Ht Hf x. apply (srv_clean tidy); [done|congruence|]. intros id r Hi Hw. exfalso. destruct C2 as [(I2 & _) _ _].
  pose proof (ri_rdy _ _ _ _ (rv_rq _ _ _ _ _ _ I2 id r Hi)) as Hrdy. rewrite K3, Ht, lookup_empty, Hw in Hrdy.
  assert (0 < b_nwr (c_b s2)); [|lia]. rewrite (rv_nwr _ _ _ _ _ _ I2). eapply (cnt_pos _ _ id); [apply (rv_dom _ _ _ _ _ _ I2); by eexists|]. unfold is_rdy. by rewrite Hi.
Qed.

(** C15: The end of a bmap: when its last request is gone and no reaper has a
    page of it, the cleanup of the bmap runs to its end, none of its assertions
    fails, and no page of it is left in memory. *)
Theorem bmap_end_clean tidy ios srv fsz s A :
  crun tidy (cl_init ios srv fsz) s A → b_rqs (c_b s) = ∅ → pc_reaped (c_pc s) = [] →
  ∃ s', msl_bmap_final_cleanup s = Done (tt, s') ∧ pc_tree (c_pc s') = ∅ ∧ pc_idle (c_pc s') = [] ∧ pc_readahead (c_pc s') = [].
Proof.
  intros Hr He Hrp. destruct (crun_inv _ _ _ _ _ _ Hr) as [(I & _) _ _]. pose proof I as [V1 V2 V3 V4 V5 V6 V7 V8 V9 V10 V11 V12 V13 V14 V15 V16 V17 V18 V19 V20].
  assert (b_pndg (c_b s) = []) as Hp. { apply elem_of_nil_inv. intros id. rewrite V3, He, lookup_empty. by intros [? ?]. }
  assert (b_new (c_b s) = []) as Hn. { apply elem_of_nil_inv. intros id. rewrite V8, He. intros (r & Hx & _). by rewrite lookup_empty in Hx. }
  assert (hasf (b_flags (c_b s)) BMAPF_FLUSHQ = false) as Hq by (by rewrite V17, V16, Hp).
  apply wp_unit. unfold msl_bmap_final_cleanup, getB. wp_step. wp_step. wp_step. apply wp_assert; [by rewrite Hq|]. wp_step. apply wp_assert; [by rewrite Hp|].
  wp_step. apply wp_assert; [by rewrite Hn|]. wp_step. apply wp_assert; [by rewrite V18, Hq|]. wp_step. apply wp_lift. apply wp_freeall; [|done|].
  { eapply pcinv_ext; [|exact V1]. intros q. unfold holds. by rewrite Hp. }
  intros pc' I' Ht. wp_step. wp_step. apply wp_assert; [by apply bool_decide_eq_true|]. simpl. split; [done|].
  assert (listed pc' = []) as Hl. { apply elem_of_nil_inv. intros q Hq'. destruct (pci_dom _ _ I' q) as [e Hx]; [by right|]. by rewrite Ht, lookup_empty in Hx. }
  unfold listed in Hl. apply app_eq_nil in Hl as [-> Hl]. by apply app_eq_nil in Hl as [-> _].
Qed.

End theorems.
