(* ===== verification/CioEx.v ===== *)
(** * Runs of a client, computed

    A checker that runs the steps of a client and tests that they are calm and
    tidy, runs that show the theorems of [CioProps.v] at work, and runs in which
    steps of several threads meet in a way that loses data or ends the client. *)
From S2P Require Import Prelude BmapMds ReplReq ReplWalk Lease Slvr SlvrIO Pgcache PgcacheInv Coalesce CoalesceProps Cio CioInv CioFrame CioTop CioStart CioValid CioRead CioLoad CioEnd CioReply CioWrite CioQueue CioFlush CioSend CioRun CioDrain CioProps.

(** ** A checker for runs *)
Section checker.
Context `{PflNet}.

Definition waitsb (r : biorq) (t : option pc) (p : Z) : bool :=
  negb (hasf (biorq_flags r) BIORQ_WRITE) && negb (hasf (biorq_flags r) BIORQ_READAHEAD) &&
  match t with
  | Some (PFlush _) | Some (PLaunch _) => bool_decide (p ∈ biorq_pages r)
  | Some (PFetch i) => bool_decide (p ∈ drop i (biorq_pages r))
  | _ => false
  end.
Definition hotb (r : biorq) (t : option pc) (p : Z) : bool :=
  hasf (biorq_flags r) BIORQ_WRITE &&
  match t with
  | Some (PFetch i) => bool_decide (p ∈ take i (biorq_pages r))
  | Some PRel | Some (PCopy _ _ _) | Some PReply | Some PSched => bool_decide (p ∈ biorq_pages r)
  | _ => false
  end.
Definition no_rq (s : cl) (f : biorq → option pc → Z → bool) (p : Z) : bool :=
  forallb (λ kv, negb (f kv.2 (c_thr s !! kv.1) p)) (map_to_list (b_rqs (c_b s))).
Definition eiob (s : cl) (p : Z) : bool := match pc_tree (c_pc s) !! p with Some e => hasf (bmpce_flags e) BMPCEF_EIO | None => false end.
Definition calmb (s : cl) (l : label) : bool :=
  match l with
  | LWrite off len _ _ | LRead off len _ => (0 <? len) && (off + len <=? SLASH_BMAP_SIZE)
  | LBuild id _ => match c_thr s !! id with Some (PBuild (p :: _)) => negb (eiob s p) || no_rq s waitsb p | _ => true end
  | LError id true => match b_rqs (c_b s) !! id with Some r => forallb (λ p, negb (eiob s p) || no_rq s waitsb p) (biorq_pages r) | None => true end
  | LMark id =>
      match b_rqs (c_b s) !! id with
      | Some r => forallb (λ p, match pc_tree (c_pc s) !! p with
                                | Some e => hasf (bmpce_flags e) BMPCEF_FAULTING || hasf (bmpce_flags e) BMPCEF_DATARDY || no_rq s hotb p
                                | None => true end) (biorq_pages r)
      | None => true
      end
  | LLaunch id rcs =>
      match launch_step id rcs s with
      | Done (_, s') => forallb (λ kv, negb (hasf (bmpce_flags kv.2) BMPCEF_EIO) || negb (bmpce_rc kv.2 =? 0)) (map_to_list (pc_tree (c_pc s')))
      | Stuck _ => true
      end
  | _ => true
  end.
Definition neatb (s : cl) (l : label) : bool :=
  match l with
  | LCopy id =>
      match copy_at s id with
      | Some (_, p, toff, n) =>
          match pc_tree (c_pc s) !! p with
          | Some e => hasf (bmpce_flags e) BMPCEF_DATARDY || (bmpce_len e =? 0) || ((toff =? p) && (n =? BMPC_BUFSZ)) ||
                      ((bmpce_start e <=? toff + n) && (toff <=? bmpce_start e + bmpce_len e))
          | None => true
          end
      | None => true
      end
  | _ => true
  end.

Lemma no_rq_spec s f p j q : no_rq s f p = true → b_rqs (c_b s) !! j = Some q → f q (c_thr s !! j) p = false.
Proof.
  unfold no_rq. rewrite forallb_forall. intros Hf Hq. apply negb_true_iff. apply (Hf (j, q)). apply list_elem_of_In. by apply elem_of_map_to_list.
Qed.
Lemma waitsb_spec r t p : waits r t p → waitsb r t p = true.
Proof. intros [[Hw Hra] Ht]. unfold waitsb. rewrite Hw, Hra. simpl. destruct t as [[]|]; try done; by apply bool_decide_eq_true. Qed.
Lemma hotb_spec r t p : hot r t p → hotb r t p = true.
Proof. intros [Hw Ht]. unfold hotb. rewrite Hw. simpl. destruct t as [[]|]; try done; apply bool_decide_eq_true; tauto. Qed.
Lemma eiob_spec s p : eio_at (pc_tree (c_pc s)) p p → eiob s p = true.
Proof. intros (_ & e & He & ?). unfold eiob. by rewrite He. Qed.
Lemma calmb_spec s l : calmb s l = true → calm s l.
Proof.
  destruct l; simpl; try done.
  - intros [? ?]%andb_true_iff. lia.
  - intros [? ?]%andb_true_iff. lia.
  - intros Hc p l j q Ht He Hq Hw. rewrite Ht in Hc. rewrite (eiob_spec _ _ He) in Hc. simpl in Hc. pose proof (no_rq_spec _ _ _ _ _ Hc Hq) as Hx. by rewrite (waitsb_spec _ _ _ Hw) in Hx.
  - intros Hc r p j q Hr Hp (e & He & Hf & Hd & _) Hq Hh. rewrite Hr, forallb_forall in Hc. specialize (Hc p ltac:(by apply list_elem_of_In)). rewrite He, Hf, Hd in Hc. simpl in Hc.
    pose proof (no_rq_spec _ _ _ _ _ Hc Hq) as Hx. by rewrite (hotb_spec _ _ _ Hh) in Hx.
  - intros Hc s' Hs p e He Heio. rewrite Hs, forallb_forall in Hc. specialize (Hc (p, e) ltac:(by apply list_elem_of_In, elem_of_map_to_list)). simpl in Hc. rewrite Heio in Hc. simpl in Hc.
    apply negb_true_iff, Z.eqb_neq in Hc. done.
  - intros Hc r p j q -> Hr Hp He Hq Hw. rewrite Hr, forallb_forall in Hc. specialize (Hc p ltac:(by apply list_elem_of_In)). rewrite (eiob_spec _ _ He) in Hc. simpl in Hc.
    pose proof (no_rq_spec _ _ _ _ _ Hc Hq) as Hx. by rewrite (waitsb_spec _ _ _ Hw) in Hx.
Qed.
Lemma neatb_spec tidy s l : neatb s l = true → neat tidy s l.
Proof.
  destruct l; simpl; try done. intros Hc _. unfold tidy_at. destruct (copy_at s id) as [[[[r p] toff] n]|]; [|done]. intros e He Hd Hl Hp. rewrite He, Hd in Hc. simpl in Hc.
  apply orb_true_iff in Hc as [Hc|Hc]; [apply orb_true_iff in Hc as [Hc|Hc]; [apply Z.eqb_eq in Hc; done|apply andb_true_iff in Hc as [?%Z.eqb_eq ?%Z.eqb_eq]; tauto]|]. apply andb_true_iff in Hc as [?%Z.leb_le ?%Z.leb_le]. lia.
Qed.

(** The state and the bytes after a run, if it is calm and tidy. *)
Fixpoint checked (ls : list label) (s : cl) (A : data) : option (cl * data) :=
  match ls with
  | [] => Some (s, A)
  | l :: ls => if calmb s l && neatb s l then match cstep l s with Done (_, s') => checked ls s' (effect s l A) | Stuck _ => None end else None
  end.
Definition end_of (ls : list label) (s : cl) : cl := match checked ls s (c_srv s) with Some (s', _) => s' | None => s end.
Definition bytes_of (ls : list label) (s : cl) : data := match checked ls s (c_srv s) with Some (_, A) => A | None => c_srv s end.
Lemma checked_run tidy s0 ls : ∀ s A s' A', crun tidy s0 s A → checked ls s A = Some (s', A') → crun tidy s0 s' A'.
Proof.
  induction ls as [|l ls IH]; intros s A s' A' Hr; simpl; [by intros [= <- <-]|]. destruct (calmb s l && neatb s l) eqn:Hc; [|done]. apply andb_true_iff in Hc as [Hc Hn].
  destruct (cstep l s) as [[[] s1]|] eqn:Hs; [|done]. apply IH. eapply crun_cons; [done|by apply calmb_spec|by apply neatb_spec|done].
Qed.
Lemma end_run tidy ls s : is_Some (checked ls s (c_srv s)) → crun tidy s (end_of ls s) (bytes_of ls s).
Proof. unfold end_of, bytes_of. intros [[s' A] Hc]. rewrite Hc. by eapply checked_run; [apply crun_nil|]. Qed.
End checker.

(** ** Runs *)
Module CliEx.
#[global] Instance net : PflNet := {| PFLERR_KEYEXPIRED := 920; LNET_MTU_RIC := SLASH_SLVR_SIZE |}.
#[global] Instance net_laws : PflNetLaws.
Proof. by split. Qed.

(** A file of 200000 zero bytes; a client writes, the writes are flushed, and it
    reads. *)
Definition f0 : data := λ _, 0.
Definition s0 : cl := cl_init 5 f0 200000.
Definition junk : data := λ _, 7.
Definition buf : data := λ i, 100 + i.
Definition write (id : nat) (off len : Z) : list label :=
  [LWrite off len buf 0; LBuild id junk; LBuild id junk; LFetch id; LFetch id; LRelease id; LCopy id; LReply id; LSched id].
Definition flush (rpc : nat) (len : Z) : list label :=
  [LFlushBegin 30; LFlushGroup 1000000000 0 0; LPin; LSend 0 0; LFlushEnd; LSrvWrite rpc len; LWriteCb 0 rpc 0].
Definition read (id : nat) (off len : Z) : list label :=
  [LRead off len 0; LBuild id junk; LBuild id junk; LMark id; LFlushed id; LLaunch id (λ _, 0); LSrvRead (S id); LReadDone (S id) 0 (λ _, true);
   LFetch id; LFetch id; LReadCleanup (S id)].
Definition ran (ls : list label) : bool := match checked ls s0 (c_srv s0) with Some _ => true | None => false end.
Lemma ran_run tidy ls : ran ls = true → crun tidy s0 (end_of ls s0) (bytes_of ls s0).
Proof. unfold ran. destruct (checked ls s0 (c_srv s0)) eqn:Hc; [|done]. intros _. apply end_run. by eexists. Qed.

Lemma lookup_none (m : gmap nat biorq) id r : m = ∅ → m !! id = Some r → False.
Proof. intros ->. by rewrite lookup_empty. Qed.

Definition w1 : list label := write 0 100 10.
Definition w1f : list label := w1 ++ flush 1 10.
Definition w1fr : list label := w1f ++ read 2 100 10.
Lemma srv_has_writes_witness : c_srv (end_of w1f s0) 105 = bytes_of w1f s0 105 ∧ bytes_of w1f s0 105 = 105.
Proof.
  split; [|by vm_compute]. apply (srv_has_writes true 5 f0 200000); [by apply ran_run; vm_compute|by vm_compute|].
  intros id r Hr. assert (b_rqs (c_b (end_of w1f s0)) = ∅) as He by (by vm_compute). destruct (lookup_none _ id r He Hr).
Defined.
Lemma client_no_fault_witness :
  cstep LExpire (end_of w1 s0) = Stuck WouldBlock ∨ ∃ s', cstep LExpire (end_of w1 s0) = Done (tt, s') ∧ crun true s0 s' (bytes_of w1 s0).
Proof. apply (client_no_fault true 5 f0 200000 (end_of w1 s0) (bytes_of w1 s0) LExpire); [by apply ran_run; vm_compute|done|done]. Defined.
Lemma flush_drains_witness : ∃ ls s', Forall (λ l, flushing l = true) ls ∧ crun_labels ls (end_of w1 s0) = Done (tt, s') ∧ b_nwr (c_b s') = 0 ∧ ∀ x, c_srv s' x = bytes_of w1 s0 x.
Proof.
  destruct (flush_drains true 5 f0 200000 (end_of w1 s0) (bytes_of w1 s0)) as (ls & s' & Hl & Hs & _ & Hn & Hx); [by apply ran_run; vm_compute|by vm_compute|].
  exists ls, s'. split; [done|]. split; [done|]. split; [done|]. apply Hx; by vm_compute.
Defined.
Lemma bmap_end_clean_witness : size (pc_tree (c_pc (end_of (w1fr ++ [LRelease 2]) s0))) = 1%nat ∧
  ∃ s', msl_bmap_final_cleanup (end_of (w1fr ++ [LRelease 2]) s0) = Done (tt, s') ∧ pc_tree (c_pc s') = ∅ ∧ pc_idle (c_pc s') = [] ∧ pc_readahead (c_pc s') = [].
Proof. split; [by vm_compute|]. apply (bmap_end_clean true 5 f0 200000 _ (bytes_of (w1fr ++ [LRelease 2]) s0)); [by apply ran_run; vm_compute|by vm_compute|by vm_compute]. Defined.

(** The reply to the read. *)
Definition told_data : data := match last (c_out (end_of (w1fr ++ [LRelease 2]) s0)) with Some (_, ReplyRead _ _ d) => d | _ => f0 end.
Lemma read_sees_writes_witness : ∃ r, b_rqs (c_b (end_of w1fr s0)) !! 2%nat = Some r ∧ hasf (biorq_flags r) BIORQ_READ = true ∧
  10 = Z.max 0 (Z.min (biorq_len r) (c_fsz (end_of w1fr s0) - biorq_off r)) ∧ ∀ k, 0 ≤ k < 10 → told_data k = bytes_of w1fr s0 (biorq_off r + k).
Proof.
  apply (read_sees_writes 5 f0 200000 (end_of w1fr s0) (bytes_of w1fr s0) (LRelease 2) (end_of (w1fr ++ [LRelease 2]) s0) 2 10 told_data); [by apply ran_run; vm_compute|done|done|by vm_compute|by vm_compute|by vm_compute].
Defined.
Definition told_now : Z * Z := (told_data 0, told_data 9).
Lemma told_now_right : told_now = (100, 109).
Proof. by vm_compute. Qed.

(** Two writes next to each other become one RPC. *)
Definition rq (off len : Z) : biorq :=
  {| biorq_buf := buf; biorq_ref := 1; biorq_off := off; biorq_len := len; biorq_flags := Z.lor BIORQ_WRITE (Z.lor BIORQ_FLUSHRDY BIORQ_ONTREE); biorq_retries := 0;
     biorq_last_sliod := IOS_ID_ANY; biorq_expire := 5; biorq_pages := [0]; biorq_fsrqi := None |}.
Definition pending : list (nat * biorq) := [(0%nat, rq 100 10); (1%nat, rq 110 5)].
Definition cache : pcache := {| pc_tree := {[0 := new_page 0 0 junk]}; pc_idle := []; pc_readahead := []; pc_reaped := [] |}.
Lemma coalesce_pass_witness : ∃ gs, flush_groups 2 9 pending = Done gs ∧ concat (bwc_biorqs <$> gs) `sublist_of` [0%nat; 1%nat] ∧
  (∀ id r, (id, r) ∈ pending → bmap_flush_biorq_expired 9 r = true → id ∈ concat (bwc_biorqs <$> gs)).
Proof.
  destruct (coalesce_pass 9 pending cache) as (gs & H1 & H2 & H3 & _).
  - repeat constructor. unfold off_le. simpl. lia.
  - intros r Hr. change (r ∈ [rq 100 10; rq 110 5]) in Hr. rewrite !elem_of_cons, elem_of_nil in Hr.
    assert (pgs_in cache [0]) as Hp. { intros p Hp. apply list_elem_of_singleton in Hp as ->. by exists (new_page 0 0 junk). }
    destruct Hr as [->|[->|[]]]; (split; [|split; [by vm_compute|exact Hp]]); (split; [by vm_compute|]; split; [by vm_compute|]; split; by vm_compute).
  - exists gs. split; [exact H1|]. split; [exact H2|exact H3].
Defined.

(** ** Runs the code does not expect *)
Definition play (ls : list label) : outcome (unit * cl) := crun_labels ls s0.
Definition after (ls : list label) : cl := match play ls with Done (_, s) => s | Stuck _ => s0 end.
Definition plays (ls : list label) : bool := match play ls with Done _ => true | Stuck _ => false end.
Lemma play_after ls : plays ls = true → play ls = Done (tt, after ls).
Proof. unfold plays, after. by destruct (play ls) as [[[] s]|]. Qed.

(** A write is lost: it waited for its page before a read marked the page
    for loading, and copies its data in while the read is under way (the copy waits
    only for pages that are pinned). The old data of the server then lands on it;
    the write was answered with success, is sent, and the server keeps the old
    bytes. *)
Lemma write_lost_to_read : ∃ ls s, play ls = Done (tt, s) ∧ c_out s = [(0%nat, ReplyWrite 10 0)] ∧ b_nwr (c_b s) = 0 ∧ b_flushrc (c_b s) = 0 ∧ c_wr s = ∅ ∧
  c_srv s 100 = 0 ∧ buf 0 = 100.
Proof.
  set (ls := [LWrite 100 10 buf 0; LBuild 0 junk; LBuild 0 junk; LFetch 0; LFetch 0] ++ [LRead 0 50 0; LBuild 1 junk; LBuild 1 junk; LMark 1; LFlushed 1; LLaunch 1 (λ _, 0); LSrvRead 2] ++
    [LRelease 0; LCopy 0; LReply 0; LSched 0] ++ [LReadDone 2 0 (λ _, true)] ++ flush 3 10).
  exists ls, (after ls). split; [apply play_after; by vm_compute|]. split_and!; by vm_compute.
Qed.

(** A read returns what was in the memory of a page before: two writes
    that leave a gap in a page are joined to one valid region, since one of the
    two tests of the distance between them is enough, and a read of the gap is
    answered from the page without asking the server. *)
Lemma read_returns_gap : ∃ ls s d, play ls = Done (tt, s) ∧ last (c_out s) = Some (2%nat, ReplyRead 0 10 d) ∧ d 0 = junk 50 ∧ c_srv s 50 = 0 ∧ junk 50 = 7.
Proof.
  set (ls := write 0 0 10 ++ write 1 100 10 ++ [LRead 50 10 0; LBuild 2 junk; LBuild 2 junk; LMark 2; LFetch 2; LFetch 2; LRelease 2]).
  exists ls, (after ls), (match last (c_out (after ls)) with Some (_, ReplyRead _ _ d) => d | _ => f0 end).
  split; [apply play_after; by vm_compute|]. split_and!; by vm_compute.
Qed.

(** The client ends when a read cannot be sent: the pages after those of
    the failed RPC get [BMPCEF_EIO] but no error code, another read that waits for
    one of them takes the error code 0 for success, and the copy of its data fails
    its assertion. *)
Lemma lost_error_code_fatal : ∃ ls s s1 s2 e, play ls = Done (tt, s) ∧ c_thr s !! 3%nat = Some (PFetch 0) ∧
  cstep (LLaunch 2 (λ _, -107)) s = Done (tt, s1) ∧ pc_tree (c_pc s1) !! 65536 = Some e ∧ hasf (bmpce_flags e) BMPCEF_EIO = true ∧ bmpce_rc e = 0 ∧
  cstep (LFetch 3) s1 = Done (tt, s2) ∧ c_thr s2 !! 3%nat = Some PRel ∧ cstep (LRelease 3) s2 = Stuck Assertion.
Proof.
  set (ls := read 0 40000 10 ++ [LRelease 0] ++ [LRead 0 98304 0; LBuild 2 junk; LBuild 2 junk; LBuild 2 junk; LBuild 2 junk; LMark 2; LFlushed 2] ++
    [LRead 70000 10 0; LBuild 3 junk; LBuild 3 junk; LMark 3]).
  set (s1 := after (ls ++ [LLaunch 2 (λ _, -107)])). exists ls, (after ls), s1, (after (ls ++ [LLaunch 2 (λ _, -107); LFetch 3])).
  exists (match pc_tree (c_pc s1) !! 65536 with Some e => e | None => new_page 0 0 junk end). split; [apply play_after; by vm_compute|]. split_and!; by vm_compute.
Qed.

(** The client ends when a read is tried again: clearing the error of a
    page while another read still waits for the page lets that read take the page
    for valid, and the copy of its data fails its assertion. *)
Lemma retry_clears_error_fatal : ∃ ls s s1 s2 e e1, play ls = Done (tt, s) ∧ c_thr s !! 2%nat = Some (PFetch 0) ∧
  pc_tree (c_pc s) !! 0 = Some e ∧ hasf (bmpce_flags e) BMPCEF_EIO = true ∧ bmpce_rc e = -107 ∧
  cstep (LError 0 true) s = Done (tt, s1) ∧ pc_tree (c_pc s1) !! 0 = Some e1 ∧ hasf (bmpce_flags e1) (Z.lor BMPCEF_EIO BMPCEF_DATARDY) = false ∧
  crun_labels [LFetch 2; LFetch 2] s1 = Done (tt, s2) ∧ cstep (LRelease 2) s2 = Stuck Assertion.
Proof.
  set (ls := [LRead 0 10 0; LBuild 0 junk; LBuild 0 junk; LMark 0; LFlushed 0; LLaunch 0 (λ _, 0)] ++ [LRead 20 10 0; LBuild 2 junk; LBuild 2 junk; LMark 2] ++
    [LReadDone 1 (-107) (λ _, false); LReadCleanup 1; LFetch 0]).
  set (s1 := after (ls ++ [LError 0 true])). exists ls, (after ls), s1, (after (ls ++ [LError 0 true; LFetch 2; LFetch 2])).
  exists (match pc_tree (c_pc (after ls)) !! 0 with Some e => e | None => new_page 0 0 junk end), (match pc_tree (c_pc s1) !! 0 with Some e => e | None => new_page 0 0 junk end).
  split; [apply play_after; by vm_compute|]. split_and!; by vm_compute.
Qed.

(** A pending write does not expire when the list of pending writes is marked,
    since a younger one that did is found first. *)
Lemma expire_stops_early : ∃ ls s s1 r r1, play ls = Done (tt, s) ∧ b_exp (c_b s) = [0%nat; 1%nat] ∧ cstep LExpire s = Done (tt, s1) ∧
  b_rqs (c_b s1) !! 0%nat = Some r ∧ hasf (biorq_flags r) BIORQ_EXPIRE = false ∧ b_rqs (c_b s1) !! 1%nat = Some r1 ∧ hasf (biorq_flags r1) BIORQ_EXPIRE = true.
Proof.
  set (ls := write 0 0 10 ++ write 1 100 10 ++ [LExpire; LFlushBegin 30; LFlushGroup 1 (-107) 0]). set (s1 := after (ls ++ [LExpire])).
  exists ls, (after ls), s1, (match b_rqs (c_b s1) !! 0%nat with Some r => r | None => rq 0 0 end), (match b_rqs (c_b s1) !! 1%nat with Some r => r | None => rq 0 0 end).
  split; [apply play_after; by vm_compute|]. split_and!; by vm_compute.
Qed.
End CliEx.
