(* ===== verification/CliLease.v ===== *)
(** * Leases of a client

    How a client extends its lease on a bmap while several threads use it
    ([msl_bmap_lease_tryext] of [mount_slash/bmap_cli.c]). The metadata server's
    part is [Lease.v]; how a lease is asked for and given back is [CliBmap.v].
    Times are in nanoseconds. A thread that calls has a reference to the bmap, so
    the bmap is not being freed. *)
From S2P Require Import Prelude ReplWalk ReplReq Cio.

(** ** Constants *)
Definition BMAPF_TOFREE : Z := Z.shiftl 1 5.
Definition BMAPF_LEASEEXTREQ : Z := Z.shiftl BMAPF_SHIFT 0.
Definition BMAP_CLI_MAX_LEASE : Z := 60.
Definition tv_sec (t : Z) : Z := t / NSEC.

(** ** Extension of a lease *)

(** A thread in [msl_bmap_lease_tryext], since when: about to send the request, or
    waiting for the answer (to its own request or to that of another). *)
Inductive extpc :=
| XSend (blockable : bool) (since : Z)
| XWait (since : Z).
Record lease := {
  l_flags : Z;                (* bcm_flags *)
  l_etime : Z;                (* bci_etime *)
  l_error : Z;                (* bci_error *)
  l_ios : Z;                  (* sbd_ios *)
  l_seq : Z;                  (* sbd_seq *)
  l_now : Z;                  (* the clock *)
  l_thr : gmap nat extpc;
  l_rpcs : nat;               (* extension requests under way *)
  l_ret : list (nat * Z);     (* threads that returned, and what *)
}.
Abbreviation LS A := (M lease A).
Definition l_set (s : lease) (fl etime err : Z) (thr : gmap nat extpc) (rpcs : nat) (ret : list (nat * Z)) : lease :=
  {| l_flags := fl; l_etime := etime; l_error := err; l_ios := l_ios s; l_seq := l_seq s; l_now := l_now s; l_thr := thr; l_rpcs := rpcs; l_ret := ret |}.
Definition l_flag (s : lease) (fl : Z) : lease := l_set s fl (l_etime s) (l_error s) (l_thr s) (l_rpcs s) (l_ret s).
Definition l_at (s : lease) (id : nat) (x : extpc) : lease := l_set s (l_flags s) (l_etime s) (l_error s) (<[id := x]> (l_thr s)) (l_rpcs s) (l_ret s).
Definition l_return (s : lease) (id : nat) (rc : Z) : lease :=
  l_set s (l_flags s) (l_etime s) (l_error s) (delete id (l_thr s)) (l_rpcs s) (l_ret s ++ [(id, rc)]).
Definition l_sbd (s : lease) (ios seq : Z) : lease :=
  {| l_flags := l_flags s; l_etime := l_etime s; l_error := l_error s; l_ios := ios; l_seq := seq; l_now := l_now s; l_thr := l_thr s; l_rpcs := l_rpcs s; l_ret := l_ret s |}.

(** [msl_bmap_lease_tryext] up to the request, as thread [id]. *)
Definition tryext (id : nat) (blockable : bool) : LS unit :=
  s ← getM;
  _ ← wait_until (match l_thr s !! id with None => true | _ => false end);
  if hasf (l_flags s) BMAPF_TOFREE then
    _ ← psc_assert (negb blockable);
    putM (l_return s id 0)
  else if hasf (l_flags s) BMAPF_LEASEFAILED then putM (l_return s id (l_error s))
  else if hasf (l_flags s) BMAPF_LEASEEXTREQ then
    if negb blockable then putM (l_return s id 0) else putM (l_at s id (XWait (l_now s)))
  else
    let secs := tv_sec (l_etime s) - tv_sec (l_now s) in
    if (secs >=? BMAP_CLI_EXTREQSECS) && negb (hasf (l_flags s) BMAPF_LEASEEXPIRED) then putM (l_return s id 0)
    else
      putM (l_at (l_flag s (setf (clrf (l_flags s) BMAPF_LEASEEXPIRED) BMAPF_LEASEEXTREQ)) id (XSend blockable (l_now s))).
(** The rest of it; [rc] is the result of getting the request on its way. *)
Definition tryext_send (id : nat) (rc : Z) : LS unit :=
  s ← getM;
  match l_thr s !! id with
  | Some (XSend blockable t) =>
      if negb (rc =? 0) then
        let s := l_set s (setf (clrf (l_flags s) BMAPF_LEASEEXTREQ) BMAPF_LEASEFAILED) (l_etime s) rc (l_thr s) (l_rpcs s) (l_ret s) in
        putM (l_return s id rc)
      else
        let s := l_set s (l_flags s) (l_etime s) (l_error s) (l_thr s) (S (l_rpcs s)) (l_ret s) in
        putM (if blockable then l_at s id (XWait t) else l_return s id 0)
  | _ => stuckM WouldBlock
  end.
Definition tryext_wake (id : nat) : LS unit :=
  s ← getM;
  match l_thr s !! id with
  | Some (XWait _) => _ ← wait_until (negb (hasf (l_flags s) BMAPF_LEASEEXTREQ)); putM (l_return s id (l_error s))
  | _ => stuckM WouldBlock
  end.
(** [msl_rmc_bmltryext_cb]; the answer has the new descriptor. *)
Definition msl_rmc_bmltryext_cb (rc ios seq : Z) : LS unit :=
  s ← getM;
  match l_rpcs s with
  | O => stuckM WouldBlock
  | S n =>
      _ ← psc_assert (hasf (l_flags s) BMAPF_LEASEEXTREQ);
      s ← (if rc =? 0 then mret (l_set (l_sbd s ios seq) (l_flags s) (l_now s + BMAP_CLI_MAX_LEASE * NSEC) (l_error s) (l_thr s) n (l_ret s))
           else
             _ ← psc_assert (negb (hasf (l_flags s) BMAPF_LEASEFAILED));
             mret (l_set s (setf (l_flags s) BMAPF_LEASEFAILED) (l_now s) rc (l_thr s) n (l_ret s)));
      putM (l_flag s (clrf (l_flags s) BMAPF_LEASEEXTREQ))
  end.
(** An I/O server finds the lease expired ([bmap_flush_resched],
    [msl_read_cleanup]); time passes. *)
Definition lease_expired : LS unit := modifyM (λ s, l_flag s (setf (l_flags s) BMAPF_LEASEEXPIRED)).
Definition tick (d : Z) : LS unit :=
  _ ← wait_until (0 <=? d);
  modifyM (λ s, {| l_flags := l_flags s; l_etime := l_etime s; l_error := l_error s; l_ios := l_ios s; l_seq := l_seq s; l_now := l_now s + d;
                   l_thr := l_thr s; l_rpcs := l_rpcs s; l_ret := l_ret s |}).

Inductive xlabel :=
| XTry (id : nat) (blockable : bool)
| XSent (id : nat) (rc : Z)
| XWake (id : nat)
| XReply (rc ios seq : Z)
| XExpired
| XTick (d : Z).
Definition xstep (l : xlabel) : LS unit :=
  match l with
  | XTry id blockable => tryext id blockable
  | XSent id rc => tryext_send id rc
  | XWake id => tryext_wake id
  | XReply rc ios seq => msl_rmc_bmltryext_cb rc ios seq
  | XExpired => lease_expired
  | XTick d => tick d
  end.

(** ** Runs *)
Definition xreq (s : lease) : bool := hasf (l_flags s) BMAPF_LEASEEXTREQ.
Definition xfailed (s : lease) : bool := hasf (l_flags s) BMAPF_LEASEFAILED.
(** A lease that was granted and of which nothing was asked since. *)
Definition granted (s : lease) : Prop :=
  hasf (l_flags s) BMAPF_TOFREE = false ∧ xreq s = false ∧ xfailed s = false ∧ l_error s = 0 ∧ l_thr s = ∅ ∧ l_rpcs s = 0%nat.
Inductive xrun (s0 : lease) : lease → Prop :=
| xrun_nil : xrun s0 s0
| xrun_cons s l s' : xrun s0 s → xstep l s = Done (tt, s') → xrun s0 s'.
Fixpoint xrun_labels (ls : list xlabel) : LS unit :=
  match ls with
  | [] => mret tt
  | l :: ls => _ ← xstep l; xrun_labels ls
  end.

(** ** Invariant *)

(** The request is in the hands of one thread, or under way, but not both. *)
Definition xsends (s : lease) (id : nat) : Prop := ∃ b t, l_thr s !! id = Some (XSend b t).
Record xinv (s : lease) : Prop := {
  xi_req : xreq s = true → (l_rpcs s = 1%nat ∧ ∀ id, ¬ xsends s id) ∨ (l_rpcs s = 0%nat ∧ ∃ id, xsends s id ∧ ∀ id', xsends s id' → id' = id);
  xi_idle : xreq s = false → l_rpcs s = 0%nat ∧ ∀ id, ¬ xsends s id;
  xi_failed : xfailed s = true → xreq s = false ∧ l_error s ≠ 0;
  xi_good : xfailed s = false → l_error s = 0;
  xi_send : ∀ id b t, l_thr s !! id = Some (XSend b t) → t ≤ l_now s;
  xi_wait : ∀ id t, l_thr s !! id = Some (XWait t) → t ≤ l_now s ∧ (xreq s = false → xfailed s = false → t + BMAP_CLI_MAX_LEASE * NSEC ≤ l_etime s);
  xi_live : hasf (l_flags s) BMAPF_TOFREE = false;
}.

Lemma granted_xinv s : granted s → xinv s.
Proof.
  intros (H1 & H2 & H3 & H4 & H5 & H6). split; rewrite ?H2, ?H3, ?H5; try done; try (intros *; by rewrite lookup_empty).
  intros _. split; [done|]. intros id (b & t & Hx). by rewrite H5, lookup_empty in Hx.
Qed.

(** What threads that do not send do. *)
Lemma xsends_delete s id rc id' : ¬ xsends s id → (xsends (l_return s id rc) id' ↔ xsends s id').
Proof.
  intros Hn. unfold xsends. simpl. split.
  - intros (b & t & Hx). apply lookup_delete_Some in Hx as [_ Hx]. eauto.
  - intros (b & t & Hx). exists b, t. rewrite lookup_delete_ne; [done|]. intros ->. apply Hn. by exists b, t.
Qed.
Lemma xsends_wait s id t id' : ¬ xsends s id → (xsends (l_at s id (XWait t)) id' ↔ xsends s id').
Proof.
  intros Hn. unfold xsends. simpl. split.
  - intros (b & u & Hx). destruct (decide (id' = id)) as [->|Hi]; [by rewrite lookup_insert_eq in Hx|]. rewrite lookup_insert_ne in Hx by done. eauto.
  - intros (b & u & Hx). exists b, u. rewrite lookup_insert_ne; [done|]. intros ->. apply Hn. by exists b, u.
Qed.
Lemma xinv_return s id rc : xinv s → ¬ xsends s id → xinv (l_return s id rc).
Proof.
  intros [X1 X2 X3 X4 X5 X6 X7] Hn. split; try done; setoid_rewrite (xsends_delete s id rc _ Hn) || simpl; try done.
  - intros id' b t [_ Hx]%lookup_delete_Some. by apply (X5 id' b).
  - intros id' t [_ Hx]%lookup_delete_Some. by apply (X6 id').
Qed.
Lemma xinv_wait s id t : xinv s → ¬ xsends s id → t ≤ l_now s → xreq s = true → xinv (l_at s id (XWait t)).
Proof.
  intros [X1 X2 X3 X4 X5 X6 X7] Hn Ht Hr. split; try done; setoid_rewrite (xsends_wait s id t _ Hn) || simpl; try done.
  - intros id' b u [[_ ?]|[_ Hx]]%lookup_insert_Some; [done|]. by apply (X5 id' b).
  - intros id' u [[_ [= <-]]|[_ Hx]]%lookup_insert_Some; [split; [done|]; change (xreq (l_at s id (XWait t))) with (xreq s); by rewrite Hr|by apply (X6 id')].
Qed.

(** ** Steps *)
Lemma no_thread s id : match l_thr s !! id with None => true | _ => false end = true → ¬ xsends s id.
Proof. intros Hx (b & t & Hy). by rewrite Hy in Hx. Qed.
Lemma waits_not s id t : l_thr s !! id = Some (XWait t) → ¬ xsends s id.
Proof. intros Hx (b & u & Hy). by rewrite Hx in Hy. Qed.
Lemma xinv_begin s id blockable : xinv s → ¬ xsends s id → xreq s = false → xfailed s = false →
  xinv (l_at (l_flag s (setf (clrf (l_flags s) BMAPF_LEASEEXPIRED) BMAPF_LEASEEXTREQ)) id (XSend blockable (l_now s))).
Proof.
  intros [X1 X2 X3 X4 X5 X6 X7] Hn Hr Hf. destruct (X2 Hr) as [Hz Hs].
  assert (∀ u, xreq (l_at (l_flag s (setf (clrf (l_flags s) BMAPF_LEASEEXPIRED) BMAPF_LEASEEXTREQ)) id u) = true) as Hr' by (intros u; unfold xreq; simpl; by flags_goal).
  assert (∀ u, xfailed (l_at (l_flag s (setf (clrf (l_flags s) BMAPF_LEASEEXPIRED) BMAPF_LEASEEXTREQ)) id u) = false) as Hf' by (intros u; unfold xfailed; simpl; by flags_goal).
  split; rewrite ?Hr', ?Hf'; try done.
  - intros _. right. split; [done|]. exists id. split; [exists blockable, (l_now s); simpl; by rewrite lookup_insert_eq|].
    intros id' (b & t & Hx). simpl in Hx. apply lookup_insert_Some in Hx as [[<- _]|[_ Hx]]; [done|]. exfalso. apply (Hs id'). by exists b, t.
  - intros _. by apply X4.
  - simpl. intros id' b t [[_ [= <- <-]]|[_ Hx]]%lookup_insert_Some; [done|]. by apply (X5 id' b).
  - simpl. intros id' t [[_ ?]|[_ Hx]]%lookup_insert_Some; [done|]. split; [by apply (X6 id')|done].
  - simpl. by flags_goal.
Qed.
Lemma xstep_try s id blockable : xinv s → wpb (tryext id blockable) (λ _, xinv) s.
Proof.
  intros X. unfold tryext. wb_step. wb_step. wb_step. wb_step. pose proof (no_thread _ _ H) as Hn. rewrite (xi_live _ X).
  wb_step; [wb_step; by apply xinv_return|]. wb_step; [wb_step; wb_step; [by apply xinv_return|apply xinv_wait; done || lia]|].
  wb_step; [wb_step; by apply xinv_return|]. wb_step. by apply xinv_begin.
Qed.
(** The request leaves the hands of the thread that sends it. *)
Lemma sends_only s id b t : xinv s → l_thr s !! id = Some (XSend b t) → xreq s = true ∧ l_rpcs s = 0%nat ∧ ∀ id', xsends s id' → id' = id.
Proof.
  intros X Hx. assert (xsends s id) as Hs by (by exists b, t). destruct (xreq s) eqn:Hr; [|by destruct (xi_idle _ X Hr) as [_ Hn]; destruct (Hn id)].
  destruct (xi_req _ X Hr) as [[_ Hn]|(Hz & i & _ & Hi)]; [by destruct (Hn id)|]. split_and!; try done. intros id' Hs'. by rewrite (Hi id'), (Hi id).
Qed.
Lemma xstep_sent s id rc : xinv s → wpb (tryext_send id rc) (λ _, xinv) s.
Proof.
  intros X. unfold tryext_send. wb_step. wb_step. destruct (l_thr s !! id) as [[b t|]|] eqn:Ht; [|wb_step|wb_step].
  destruct (sends_only _ _ _ _ X Ht) as (Hr & Hz & Ho). pose proof X as [X1 X2 X3 X4 X5 X6 X7].
  assert (xfailed s = false) as Hf by (destruct (xfailed s) eqn:E; [by destruct (X3 eq_refl); congruence|done]).
  wb_step.
  - wb_step. apply negb_true_iff, Z.eqb_neq in Heqb0.
    split; unfold xreq, xfailed; simpl; flags_goal; try done.
    + intros _. split; [done|]. intros id' (b' & u & Hx). simpl in Hx. apply lookup_delete_Some in Hx as [Hne Hx]. apply Hne. symmetry. apply Ho. by exists b', u.
    + intros id' b' u [_ Hx]%lookup_delete_Some. by apply (X5 id' b').
    + intros id' u [_ Hx]%lookup_delete_Some. split; [by apply (X6 id')|done].
  - wb_step. rewrite Hz. change (xreq s) with (hasf (l_flags s) BMAPF_LEASEEXTREQ) in Hr. change (xfailed s) with (hasf (l_flags s) BMAPF_LEASEFAILED) in Hf.
    destruct b; split; unfold xreq, xfailed; simpl; rewrite ?Hr, ?Hf; try done.
    + intros _. left. split; [done|]. intros id' (b' & u & Hx). simpl in Hx. apply lookup_insert_Some in Hx as [[_ ?]|[Hne Hx]]; [done|]. apply Hne. symmetry. apply Ho. by exists b', u.
    + intros _. by apply X4.
    + intros id' b' u [[_ ?]|[_ Hx]]%lookup_insert_Some; [done|]. by apply (X5 id' b').
    + intros id' u [[_ [= <-]]|[_ Hx]]%lookup_insert_Some; (split; [|done]); [by apply (X5 id true)|by apply (X6 id')].
    + intros _. left. split; [done|]. intros id' (b' & u & Hx). simpl in Hx. apply lookup_delete_Some in Hx as [Hne Hx]. apply Hne. symmetry. apply Ho. by exists b', u.
    + intros _. by apply X4.
    + intros id' b' u [_ Hx]%lookup_delete_Some. by apply (X5 id' b').
    + intros id' u [_ Hx]%lookup_delete_Some. split; [|done]. by apply (X6 id').
Qed.
Lemma xstep_wake s id : xinv s → wpb (tryext_wake id) (λ _, xinv) s.
Proof.
  intros X. unfold tryext_wake. wb_step. wb_step. destruct (l_thr s !! id) as [[|t]|] eqn:Ht; [wb_step| |wb_step].
  wb_step. wb_step. wb_step. apply xinv_return; [done|by eapply waits_not].
Qed.
Lemma xstep_reply s rc ios seq : xinv s → wpb (msl_rmc_bmltryext_cb rc ios seq) (λ _, xinv) s.
Proof.
  intros X. unfold msl_rmc_bmltryext_cb. wb_step. wb_step. destruct (l_rpcs s) as [|n] eqn:Hn; [wb_step|]. pose proof X as [X1 X2 X3 X4 X5 X6 X7].
  assert (xreq s = true) as Hr by (destruct (xreq s) eqn:E; [done|]; destruct (X2 eq_refl); lia).
  destruct (X1 Hr) as [[? Hs]|[? _]]; [|lia]. assert (n = 0%nat) as -> by lia.
  assert (xfailed s = false) as Hf by (destruct (xfailed s) eqn:E; [by destruct (X3 eq_refl); congruence|done]).
  unfold xreq, xfailed in Hr, Hf. wb_step. wb_step; [done|]. wb_step. wb_step.
  - wb_step. wb_step. split; unfold xreq, xfailed; simpl; flags_goal; try done.
    + by rewrite Hf.
    + intros id t Hx. destruct (X6 id t Hx) as [? _]. split; [done|]. intros _ _. lia.
  - wb_step. wb_step; [by rewrite Hf|]. wb_step. wb_step. apply Z.eqb_neq in Heqb. split; unfold xreq, xfailed; simpl; flags_goal; try done.
    intros id t Hx. by destruct (X6 id t Hx) as [? _].
Qed.
Lemma xstep_all s l : xinv s → wpb (xstep l) (λ _, xinv) s.
Proof.
  intros X. destruct l as [id b|id rc|id|rc ios seq| |d]; simpl; [by apply xstep_try|by apply xstep_sent|by apply xstep_wake|by apply xstep_reply| |].
  - apply wpb_of, wp_modify. destruct X as [X1 X2 X3 X4 X5 X6 X7]. split; unfold xreq, xfailed; simpl; flags_goal; done.
  - unfold tick. wb_step. wb_step. wb_step. apply Z.leb_le in H. destruct X as [X1 X2 X3 X4 X5 X6 X7]. split; try done; simpl.
    + intros id b t Hx. specialize (X5 id b t Hx). lia.
    + intros id t Hx. destruct (X6 id t Hx). split; [lia|done].
Qed.
Lemma xrun_xinv s0 s : granted s0 → xrun s0 s → xinv s.
Proof.
  intros Hg. induction 1 as [|s l s' _ X Hs]; [by apply granted_xinv|]. by apply (wpb_done _ _ _ _ _ Hs (xstep_all s l X)).
Qed.

(** A lease that failed is not used again. *)
Lemma failed_stays s l : xinv s → xfailed s = true → wpb (xstep l) (λ _ s', xfailed s' = true) s.
Proof.
  intros X Hf. destruct (xi_failed _ X Hf) as [Hr He]. destruct (xi_idle _ X Hr) as [Hz Hn].
  destruct l as [id b|id rc|id|rc ios seq| |d]; simpl.
  - unfold tryext. wb_step. wb_step. wb_step. wb_step. rewrite (xi_live _ X). change (hasf (l_flags s) BMAPF_LEASEFAILED) with (xfailed s). rewrite Hf. by wb_step.
  - unfold tryext_send. wb_step. wb_step. destruct (l_thr s !! id) as [[b t|]|] eqn:Ht; [|wb_step|wb_step]. destruct (Hn id). by exists b, t.
  - unfold tryext_wake. wb_step. wb_step. destruct (l_thr s !! id) as [[|t]|] eqn:Ht; [wb_step| |wb_step]. wb_step. wb_step. by wb_step.
  - unfold msl_rmc_bmltryext_cb. wb_step. wb_step. rewrite Hz. wb_step.
  - apply wpb_of, wp_modify. unfold xfailed in *. simpl. by flags_goal.
  - unfold tick. wb_step. wb_step. by wb_step.
Qed.

(** What a call that may block is answered. *)
Definition answered (l : xlabel) (s s' : lease) : Prop :=
  match l with
  | XTry id true =>
      l_ret s' = l_ret s ∨
      ∃ rc, l_ret s' = l_ret s ++ [(id, rc)] ∧
        if rc =? 0 then xfailed s' = false ∧ l_now s + (BMAP_CLI_EXTREQSECS - 1) * NSEC < l_etime s' else xfailed s' = true
  | XWake id =>
      ∃ t rc, l_thr s !! id = Some (XWait t) ∧ l_ret s' = l_ret s ++ [(id, rc)] ∧
        if rc =? 0 then xfailed s' = false ∧ t + BMAP_CLI_MAX_LEASE * NSEC ≤ l_etime s' else xfailed s' = true
  | _ => True
  end.
Lemma secs_left a b n : n ≤ tv_sec a - tv_sec b → b + (n - 1) * NSEC < a.
Proof. unfold tv_sec, NSEC. intros. Z.to_euclidean_division_equations. lia. Qed.
Lemma step_answered s l : xinv s → wpb (xstep l) (λ _ s', answered l s s') s.
Proof.
  intros X. destruct l as [id [|]|id rc|id|rc ios seq| |d]; try (eapply wpb_mono; [apply (xstep_all s _ X)|done]); simpl.
  - unfold tryext. wb_step. wb_step. wb_step. wb_step. rewrite (xi_live _ X). wb_step.
    { wb_step. right. exists (l_error s). split; [done|]. destruct (xi_failed _ X Heqb) as [_ He]. by rewrite (proj2 (Z.eqb_neq _ _) He). }
    wb_step; [wb_step; by left|]. wb_step; [|wb_step; by left].
    wb_step. right. exists 0. split; [done|]. simpl. apply andb_prop in Heqb1 as [Hs _]. apply Z.geb_le in Hs. split; [done|]. apply secs_left. lia.
  - unfold tryext_wake. wb_step. wb_step. destruct (l_thr s !! id) as [[|t]|] eqn:Ht; [wb_step| |wb_step]. wb_step. wb_step. wb_step.
    exists t, (l_error s). split_and!; [done|done|]. apply negb_true_iff in H. destruct (xfailed s) eqn:Hf.
    + destruct (xi_failed _ X Hf) as [_ He]. rewrite (proj2 (Z.eqb_neq _ _) He). done.
    + rewrite (xi_good _ X Hf). simpl. split; [done|]. by apply (xi_wait _ X id t Ht).
Qed.

(** C16: Extending a lease: whatever the threads, the server and the clock
    do, no assertion fails, at most one request is under way, and a lease that
    failed stays so. A call that may block returns 0 only when the lease has
    not failed and lasts: more than 19 seconds from now when nothing had to be
    asked, and 60 seconds from the time of the call or later when it waited for
    an extension; any other result comes with a failed lease. *)
Theorem lease_ext_safe s0 s l :
  granted s0 → xrun s0 s →
  (l_rpcs s ≤ 1)%nat ∧
  (xstep l s = Stuck WouldBlock ∨
   ∃ s', xstep l s = Done (tt, s') ∧ xrun s0 s' ∧ (xfailed s = true → xfailed s' = true) ∧ answered l s s').
Proof.
  intros Hg Hr. pose proof (xrun_xinv _ _ Hg Hr) as X. split.
  { destruct (xreq s) eqn:Hq; [destruct (xi_req _ X Hq) as [[-> _]|[-> _]]; lia|]. destruct (xi_idle _ X Hq) as [-> _]. lia. }
  pose proof (xstep_all s l X) as Hw. unfold wpb in Hw. destruct (xstep l s) as [[[] s']|w] eqn:Hs; [right; exists s'|left; by destruct w].
  split_and!; [done|by eapply xrun_cons| |by apply (wpb_done _ _ _ _ _ Hs (step_answered s l X))].
  intros Hf. by apply (wpb_done _ _ _ _ _ Hs (failed_stays s l X Hf)).
Qed.
Lemma xrun_labels_run s0 ls s s' : xrun s0 s → xrun_labels ls s = Done (tt, s') → xrun s0 s'.
Proof.
  revert s. induction ls as [|l ls IH]; intros s Hr Hs; [by injection Hs as <-|]. simpl in Hs. unfold mbind, M_bind in Hs.
  destruct (xstep l s) as [[[] s1]|] eqn:Hl; [|done]. eapply IH; [|exact Hs]. by eapply xrun_cons.
Qed.
Lemma xrun_labels_snoc ls l s s' : xrun_labels ls s = Done (tt, s') → xrun_labels (ls ++ [l]) s = xstep l s'.
Proof.
  revert s. induction ls as [|l' ls IH]; intros s Hs.
  - injection Hs as <-. simpl. unfold mbind, M_bind. by destruct (xstep l s) as [[[] ?]|].
  - simpl in *. unfold mbind, M_bind in *. destruct (xstep l' s) as [[[] s1]|]; [|done]. by apply IH.
Qed.
Lemma wake_returns s id t : l_thr s !! id = Some (XWait t) → xreq s = false → xstep (XWake id) s = Done (tt, l_return s id (l_error s)).
Proof. intros Ht Hr. apply wp_eq. simpl. unfold tryext_wake. wp_step. wp_step. rewrite Ht. wp_step. wp_step; [by unfold xreq in Hr; rewrite Hr|]. by wp_step. Qed.
Lemma reply_wakes s rc ios seq : xinv s → l_rpcs s = 1%nat →
  ∃ s', xstep (XReply rc ios seq) s = Done (tt, s') ∧ xreq s' = false ∧ l_thr s' = l_thr s ∧ (rc = 0 → l_error s' = l_error s).
Proof.
  intros X Hz. assert (xreq s = true) as Hr by (destruct (xreq s) eqn:E; [done|]; destruct (xi_idle _ X E); lia).
  assert (xfailed s = false) as Hf by (destruct (xfailed s) eqn:E; [by destruct (xi_failed _ X E); congruence|done]).
  assert (wp (xstep (XReply rc ios seq)) (λ _ s', xreq s' = false ∧ l_thr s' = l_thr s ∧ (rc = 0 → l_error s' = l_error s)) s) as Hw.
  { simpl. unfold msl_rmc_bmltryext_cb. wp_step. wp_step. rewrite Hz. wp_step. wp_step; [done|]. wp_step. wp_step.
    - wp_step. wp_step. split_and!; [|done|done]. unfold xreq. simpl. by flags_goal.
    - wp_step. wp_step; [by unfold xfailed in Hf; rewrite Hf|]. wp_step. wp_step. apply Z.eqb_neq in Heqb. split_and!; [|done|done]. unfold xreq. simpl. by flags_goal. }
  apply wp_run in Hw as ([] & s' & Hs & HQ). by exists s'.
Qed.

(** No call waits for ever: from every state of a run a thread that waits
    for an extension returns after at most three steps of the thread that sends
    the request, the server and itself. *)
Theorem lease_ext_returns s0 s id t :
  granted s0 → xrun s0 s → l_thr s !! id = Some (XWait t) →
  ∃ ls s' rc, (length ls ≤ 3)%nat ∧ xrun_labels ls s = Done (tt, s') ∧ xrun s0 s' ∧ l_thr s' !! id = None ∧ last (l_ret s') = Some (id, rc).
Proof.
  intros Hg Hr Ht. pose proof (xrun_xinv _ _ Hg Hr) as X.
  assert (∀ s1 ls, xrun s0 s1 → xreq s1 = false → l_thr s1 !! id = Some (XWait t) → xrun_labels ls s = Done (tt, s1) → (length ls ≤ 2)%nat →
    ∃ ls s' rc, (length ls ≤ 3)%nat ∧ xrun_labels ls s = Done (tt, s') ∧ xrun s0 s' ∧ l_thr s' !! id = None ∧ last (l_ret s') = Some (id, rc)) as Hend.
  { intros s1 ls Hr1 Hq Ht1 Hls Hn. pose proof (wake_returns _ _ _ Ht1 Hq) as Hw. exists (ls ++ [XWake id]), (l_return s1 id (l_error s1)), (l_error s1).
    split_and!; [rewrite length_app; simpl; lia| |by eapply xrun_cons|simpl; by rewrite lookup_delete_eq|simpl; by rewrite last_snoc].
    by rewrite (xrun_labels_snoc _ _ _ _ Hls). }
  destruct (xreq s) eqn:Hq; [|apply (Hend s []); try done; simpl; lia].
  destruct (xi_req _ X Hq) as [[Hz Hn]|(Hz & i & (b & u & Hs) & Hi)].
  - destruct (reply_wakes s 0 0 0 X Hz) as (s1 & H1 & H2 & H3 & _). apply (Hend s1 [XReply 0 0 0]); [by eapply xrun_cons|done|by rewrite H3| |simpl; lia].
    simpl. unfold mbind, M_bind. simpl in H1. by rewrite H1.
  - assert (∃ s1, xstep (XSent i 0) s = Done (tt, s1) ∧ l_rpcs s1 = 1%nat ∧ l_thr s1 !! id = Some (XWait t)) as (s1 & H1 & Hz1 & Ht1).
    { simpl. eexists. split; [apply wp_eq; unfold tryext_send; wp_step; wp_step; rewrite Hs; simpl; wp_step; done|].
      assert (i ≠ id) by congruence. destruct b; simpl; (split; [by rewrite Hz|]); [by rewrite lookup_insert_ne|by rewrite lookup_delete_ne]. }
    assert (xrun s0 s1) as Hr1 by (by eapply xrun_cons). destruct (reply_wakes s1 0 0 0 (xrun_xinv _ _ Hg Hr1) Hz1) as (s2 & H2 & H3 & H4 & _).
    apply (Hend s2 [XSent i 0; XReply 0 0 0]); [by eapply xrun_cons|done|by rewrite H4| |simpl; lia].
    simpl. unfold mbind, M_bind. simpl in H1, H2. by rewrite H1, H2.
Qed.

(** ** Examples *)
Module CliLeaseEx.
(** A lease with five seconds left; a thread asks for more and another waits. *)
Definition s0 : lease := {| l_flags := BMAPF_WR; l_etime := 15 * NSEC; l_error := 0; l_ios := 5; l_seq := 1; l_now := 10 * NSEC; l_thr := ∅; l_rpcs := 0; l_ret := [] |}.
Definition run (ls : list xlabel) : lease := match xrun_labels ls s0 with Done (_, s) => s | Stuck _ => s0 end.
Definition asked : list xlabel := [XTry 0 false; XTry 1 true; XTick (2 * NSEC); XSent 0 0].
Definition renewed : list xlabel := asked ++ [XReply 0 5 2].
Lemma s0_granted : granted s0.
Proof. split_and!; by vm_compute. Qed.
Lemma run_run ls : bool_decide (is_Some (match xrun_labels ls s0 with Done _ => Some tt | _ => None end)) = true → xrun s0 (run ls).
Proof.
  unfold run. destruct (xrun_labels ls s0) as [[[] s]|] eqn:Hs; [|by intros [? ?]%bool_decide_eq_true]. intros _. by eapply xrun_labels_run; [apply xrun_nil|].
Qed.

Lemma lease_ext_safe_witness :
  ∃ s', xstep (XWake 1) (run renewed) = Done (tt, s') ∧ l_ret s' = [(0%nat, 0); (1%nat, 0)] ∧ l_etime s' = 72 * NSEC ∧ answered (XWake 1) (run renewed) s'.
Proof.
  destruct (lease_ext_safe s0 (run renewed) (XWake 1) s0_granted (run_run renewed ltac:(by vm_compute))) as [_ [Hw|(s' & Hs & _ & _ & Ha)]]; [by vm_compute in Hw|].
  exists s'. split_and!; [done| | |done]; vm_compute in Hs; by injection Hs as <-.
Defined.
Lemma lease_ext_returns_witness :
  ∃ ls s' rc, (length ls ≤ 3)%nat ∧ xrun_labels ls (run asked) = Done (tt, s') ∧ xrun s0 s' ∧ l_thr s' !! 1%nat = None ∧ last (l_ret s') = Some (1%nat, rc).
Proof. apply (lease_ext_returns s0 (run asked) 1 (10 * NSEC) s0_granted); [apply run_run; by vm_compute|by vm_compute]. Defined.
End CliLeaseEx.
