(* ===== verification/CliBmap.v ===== *)
(** * Bmaps of a client

    The other operations of a client on the lease of a bmap
    ([mount_slash/bmap_cli.c]): the change from read to write mode, the request
    for a lease, the request for another I/O system, the thread that gives leases
    back, and the choice of a replica to read from. The resources of the
    configuration are parameters: which I/O systems are known, which are archival
    file systems, and the connections that the RPC layer has to their members. *)
From S2P Require Import Prelude ReplBits ReplWalk ReplReq Lease Slvr SlvrIO Pgcache PgcacheInv Coalesce Cio CioInv CioTop CioRun CioProps CioEx CliLease.

(** ** Constants *)
Definition BMAPF_REASSIGNREQ : Z := Z.shiftl BMAPF_SHIFT 1.
Definition BMAPF_TIMEOQ : Z := Z.shiftl BMAPF_SHIFT 7.
Definition SL_MAX_IOSREASSIGN : Z := 16.
Definition MAX_BMAP_RELEASE : Z := 8.
Definition SRM_LEASEBMAPF_DIO : Z := Z.shiftl 1 0.

(** ** A bmap and its lease *)
Record srt_bmapdesc := { sbd_ios : Z; sbd_seq : Z; sbd_flags : Z }.
Record cbmap := {
  m_flags : Z;
  m_sbd : srt_bmapdesc;
  m_etime : Z;
  m_error : Z;
  m_opcnt : Z;
  m_timeoq : bool;            (* on slc_bmaptimeoutq *)
  m_pc : pcache;
}.
Abbreviation BC A := (M cbmap A).
Definition m_lease (b : cbmap) (fl : Z) (sbd : srt_bmapdesc) (etime : Z) : cbmap :=
  {| m_flags := fl; m_sbd := sbd; m_etime := etime; m_error := m_error b; m_opcnt := m_opcnt b; m_timeoq := m_timeoq b; m_pc := m_pc b |}.
Definition m_fail (b : cbmap) (rc : Z) : cbmap :=
  {| m_flags := m_flags b; m_sbd := m_sbd b; m_etime := m_etime b; m_error := rc; m_opcnt := m_opcnt b; m_timeoq := m_timeoq b; m_pc := m_pc b |}.
Definition m_queue (b : cbmap) : cbmap :=
  {| m_flags := clrf (m_flags b) BMAPF_INIT; m_sbd := m_sbd b; m_etime := m_etime b; m_error := m_error b; m_opcnt := m_opcnt b + 1; m_timeoq := true; m_pc := m_pc b |}.
Definition m_pages (b : cbmap) (pc : pcache) : cbmap :=
  {| m_flags := m_flags b; m_sbd := m_sbd b; m_etime := m_etime b; m_error := m_error b; m_opcnt := m_opcnt b; m_timeoq := m_timeoq b; m_pc := pc |}.

(** [msl_bmap_cache_rls] *)
Definition msl_bmap_cache_rls (pc : pcache) : pcache :=
  {| pc_tree := (λ e, pce_flags e (setf (bmpce_flags e) BMPCEF_DISCARD)) <$> pc_tree pc; pc_idle := pc_idle pc; pc_readahead := pc_readahead pc; pc_reaped := pc_reaped pc |}.

Section modes.
Context (known archival : Z → bool).

(** [msl_bmap_modeset]; each try has its result (of the connection, the request
    or the server) and the descriptor in the answer. *)
Fixpoint modeset_tries (w : rw) (tries : list (Z * srt_bmapdesc)) (nretries : Z) : BC Z :=
  match tries with
  | [] => stuckM OutOfFuel
  | (rc, sbd) :: tries =>
      b ← getM;
      _ ← psc_assert (hasf (m_flags b) BMAPF_MODECHNG);
      if hasf (m_flags b) BMAPF_WR then mret 0
      else
        _ ← psc_assert (match w with SL_WRITE => hasf (m_flags b) BMAPF_RD | SL_READ => false end);
        if rc =? 0 then
          _ ← putM (m_lease b (m_flags b) sbd (m_etime b));
          _ ← psc_assert (known (sbd_ios sbd));
          _ ← whenM (archival (sbd_ios sbd)) (modifyM (λ b, m_pages (m_lease b (setf (m_flags b) BMAPF_DIO) (m_sbd b) (m_etime b)) (msl_bmap_cache_rls (m_pc b))));
          mret 0
        else if rc =? - SLERR_BMAP_DIOWAIT then
          let nretries := nretries + 1 + 1 in
          if BMAP_CLI_MAX_LEASE <? nretries then mret (- ETIMEDOUT) else modeset_tries w tries nretries
        else mret rc
  end.
Definition msl_bmap_modeset (w : rw) (tries : list (Z * srt_bmapdesc)) : BC Z := modeset_tries w tries 0.

(** [msl_bmap_reap_init]; a descriptor with a sequence number is not all zero. *)
Definition msl_bmap_reap_init (now : Z) (sbd : srt_bmapdesc) : BC unit :=
  _ ← psc_assert (negb (sbd_seq sbd =? 0));
  b ← getM;
  let fl := setf (m_flags b) BMAPF_TIMEOQ in
  let fl := if hasf (sbd_flags sbd) SRM_LEASEBMAPF_DIO then setf fl BMAPF_DIO else fl in
  fl ← (if negb (sbd_ios sbd =? IOS_ID_ANY) && negb (hasf fl BMAPF_DIO) then
          _ ← psc_assert (known (sbd_ios sbd));
          _ ← psc_assert (hasf fl BMAPF_WR);
          mret (if archival (sbd_ios sbd) then setf fl BMAPF_DIO else fl)
        else mret fl);
  putM (m_queue (m_lease b fl sbd (now + BMAP_CLI_MAX_LEASE * NSEC))).
(** [msl_rmc_bmlget_cb], less the replica states and the inode in the answer. *)
Definition msl_rmc_bmlget_cb (now rc : Z) (sbd : srt_bmapdesc) : BC unit :=
  if negb (rc =? 0) then modifyM (λ b, m_fail b rc) else msl_bmap_reap_init now sbd.
(** [msl_bmap_retrieve]. A try has the result of sending the request, whether
    [slc_rmc_retry] wants another try after an error, the time of the answer, its
    result and its descriptor. *)
Record get_try := { gt_send : Z; gt_retry : bool; gt_now : Z; gt_rc : Z; gt_sbd : srt_bmapdesc }.
Fixpoint retrieve_tries (async : bool) (tries : list get_try) (nretries : Z) : BC Z :=
  match tries with
  | [] => stuckM OutOfFuel
  | t :: tries =>
      let rc := gt_send t in
      if negb (rc =? 0) then if gt_retry t then retrieve_tries async tries nretries else mret rc
      else if async then mret rc
      else
        _ ← msl_rmc_bmlget_cb (gt_now t) (gt_rc t) (gt_sbd t);
        if rc =? - SLERR_BMAP_DIOWAIT then
          let nretries := nretries + 1 in
          if BMAP_CLI_MAX_LEASE <? nretries then mret (- ETIMEDOUT) else retrieve_tries async tries nretries
        else mret rc
  end.
Definition msl_bmap_retrieve (async : bool) (tries : list get_try) : BC Z :=
  b ← getM;
  _ ← psc_assert (hasf (m_flags b) BMAPF_INIT);
  retrieve_tries async tries 0.
End modes.

(** ** Another I/O system: when [msl_bmap_lease_tryreassign] gives up at once *)
Definition reassign_bails (nreassigns : Z) (b : bmapc) : bool :=
  hasf (b_flags b) BMAPF_REASSIGNREQ || bool_decide (b_new b = []) || negb (bool_decide (b_pndg b = [])) || (SL_MAX_IOSREASSIGN <=? nreassigns).

(** ** The release thread *)

(** An entry of [slc_bmaptimeoutq]; a busy one is locked by another thread. The
    lease of a reader goes to the metadata server. *)
Record tentry := {
  t_id : nat;
  t_flags : Z;
  t_opcnt : Z;
  t_etime : Z;
  t_sbd : srt_bmapdesc;
  t_mds : Z;
  t_busy : bool;
}.
Record rthr := {
  r_q : list tentry;                 (* slc_bmaptimeoutq *)
  r_rls : gmap Z (list tentry);      (* rmci_bmaprls of each peer, without empty ones *)
  r_sent : list (Z * list tentry);   (* messages to peers *)
}.
Abbreviation RT A := (M rthr A).

(** The choice of the bmaps to release: what is picked and when to wake up. *)
Fixpoint rls_scan (crtime max nitems nto : Z) (q bcis : list tentry) : outcome (list tentry * Z) :=
  match q with
  | [] => Done (bcis, nto)
  | b :: q =>
      if t_busy b then rls_scan crtime max nitems nto q bcis
      else if negb (hasf (t_flags b) BMAPF_TIMEOQ) then Stuck Assertion
      else if negb (0 <? t_opcnt b) then Stuck Assertion
      else if 1 <? t_opcnt b then rls_scan crtime max nitems nto q bcis
      else if (t_etime b <=? crtime) || (max / 4 <? nitems) then
        if hasf (t_flags b) BMAPF_FLUSHQ then Stuck Assertion
        else
          let bcis := bcis ++ [b] in
          if MAX_BMAP_RELEASE <=? Z.of_nat (length bcis) then Done (bcis, nto) else rls_scan crtime max (nitems - 1) nto q bcis
      else rls_scan crtime max nitems (if t_etime b <? nto then t_etime b else nto) q bcis
  end.
Definition rls_of (s : rthr) (resm : Z) : list tentry := default [] (r_rls s !! resm).
Definition rls_peer (b : tentry) : Z := if hasf (t_flags b) BMAPF_WR then sbd_ios (t_sbd b) else t_mds b.
(** One picked bmap goes into the message for its peer; [rels] are the peers to
    write to. *)
Definition rls_pack (b : tentry) (rels : list Z) : RT (list Z) :=
  _ ← modifyM (λ s, {| r_q := filter (λ x, t_id x ≠ t_id b) (r_q s); r_rls := r_rls s; r_sent := r_sent s |});
  _ ← psc_assert (negb (hasf (t_flags b) BMAPF_WR) || negb (sbd_ios (t_sbd b) =? IOS_ID_ANY));
  s ← getM;
  let resm := rls_peer b in
  if MAX_BMAP_RELEASE <=? Z.of_nat (length (rls_of s resm)) then stuckM OutOfBounds
  else
    _ ← putM {| r_q := r_q s; r_rls := <[resm := rls_of s resm ++ [b]]> (r_rls s); r_sent := r_sent s |};
    mret (if bool_decide (resm ∈ rels) then rels else rels ++ [resm]).
Fixpoint rls_pack_all (bcis : list tentry) (rels : list Z) : RT (list Z) :=
  match bcis with
  | [] => mret rels
  | b :: bcis => rels ← rls_pack b rels; rls_pack_all bcis rels
  end.
(** [msl_bmap_release]; [up] says which peers have a connection, [rc] is the
    result of sending. *)
Definition msl_bmap_release (up : Z → bool) (rc : Z → Z) (resm : Z) : RT unit :=
  s ← getM;
  let idle := λ sent, putM {| r_q := r_q s; r_rls := delete resm (r_rls s); r_sent := sent |} in
  if negb (up resm) then idle (r_sent s)
  else
    _ ← psc_assert (negb (bool_decide (rls_of s resm = [])));
    if negb (rc resm =? 0) then idle (r_sent s) else idle (r_sent s ++ [(resm, rls_of s resm)]).
Fixpoint rls_send_all (up : Z → bool) (rc : Z → Z) (rels : list Z) : RT unit :=
  match rels with
  | [] => mret tt
  | resm :: rels => _ ← msl_bmap_release up rc resm; rls_send_all up rc rels
  end.
(** One round of [msbreleasethr_main]: it returns when to wake up. *)
Definition msbreleasethr_round (crtime max : Z) (up : Z → bool) (rc : Z → Z) : RT Z :=
  s ← getM;
  _ ← wait_until (negb (bool_decide (r_q s = [])));
  match rls_scan crtime max (Z.of_nat (length (r_q s))) (crtime + BMAP_CLI_MAX_LEASE * NSEC) (r_q s) [] with
  | Stuck w => stuckM w
  | Done (bcis, nto) =>
      rels ← rls_pack_all bcis [];
      _ ← rls_send_all up rc rels;
      mret nto
  end.

(** ** The choice of a replica *)
Definition RESF_PREFIOS : Z := Z.shiftl 1 1.
Definition RPCIF_AVOID : Z := Z.shiftl 1 0.
(** What the order of replicas looks at: an I/O system with its flags, whether it
    is archival, and the flags of its connection. *)
Record resinfo := { ri_flags : Z; ri_archival : bool; ri_rpci : Z }.
Definition CMP (a b : Z) : Z := if a <? b then -1 else if b <? a then 1 else 0.
Definition sgn (c : bool) : Z := if c then 1 else -1.
(** [slc_reptbl_cmp] *)
Definition slc_reptbl_cmp (x y : option resinfo) : Z :=
  match x, y with
  | None, None => 0
  | None, Some _ => CMP 1 (-1)
  | Some _, None => CMP (-1) 1
  | Some x, Some y =>
      let rc := CMP (sgn (hasf (ri_flags x) RESF_PREFIOS)) (sgn (hasf (ri_flags y) RESF_PREFIOS)) in
      if negb (rc =? 0) then rc
      else
        let rc := CMP (sgn (ri_archival x)) (sgn (ri_archival y)) in
        if negb (rc =? 0) then rc
        else CMP (sgn (hasf (ri_rpci x) RPCIF_AVOID)) (sgn (hasf (ri_rpci y) RPCIF_AVOID))
  end.

Section csvc.
(** The states of the replicas; for the replica with an index the members of its
    I/O system in the order in which they are tried, if the system is known; the
    connection that a member has, in the first and in the second round. *)
Context (repls : list Z) (members : Z → option (list nat)) (conn : bool → nat → option nat).

Definition resident (i : Z) : bool := SL_REPL_GET_BMAP_IOS_STAT repls (i * SL_BITS_PER_REPLICA) =? BREPLST_VALID.
Fixpoint try_members (j : bool) (ms : list nat) : option nat :=
  match ms with
  | [] => None
  | m :: ms => match conn j m with Some c => Some c | None => try_members j ms end
  end.
(** [msl_try_get_replica_res]: 0 and a connection, -1 (no connection) or -2 (not
    resident). *)
Definition msl_try_get_replica_res (j : bool) (iosidx : Z) (require_valid : bool) : Z * option nat :=
  if require_valid && negb (resident iosidx) then (-2, None)
  else match members iosidx with
       | None => (-1, None)
       | Some ms => match try_members j ms with Some c => (0, Some c) | None => (-1, None) end
       end.
(** A round over the replicas. *)
Fixpoint try_replicas (j : bool) (idxs : list Z) (has_residency : bool) : option nat * bool :=
  match idxs with
  | [] => (None, has_residency)
  | i :: idxs =>
      match msl_try_get_replica_res j i (if j then has_residency else true) with
      | (0, Some c) => (Some c, has_residency)
      | (-1, _) => try_replicas j idxs true
      | _ => try_replicas j idxs has_residency
      end
  end.
(** [msl_bmap_to_csvc] for a reader, with the replicas in the order of
    [fcif_idxmap]. *)
Definition msl_bmap_to_csvc (idxmap : list Z) : Z * option nat :=
  match try_replicas false idxmap false with
  | (Some c, _) => (0, Some c)
  | (None, has_residency) =>
      match try_replicas true idxmap has_residency with
      | (Some c, _) => (0, Some c)
      | (None, _) => (- ETIMEDOUT, None)
      end
  end.
End csvc.

(** ** Modes and requests for a lease *)
Section modes_props.
Context (known archival : Z → bool).

Lemma modeset_run w tries b n :
  hasf (m_flags b) BMAPF_MODECHNG = true → hasf (m_flags b) BMAPF_WR = true ∨ (w = SL_WRITE ∧ hasf (m_flags b) BMAPF_RD = true) →
  n ≤ BMAP_CLI_MAX_LEASE → BMAP_CLI_MAX_LEASE < n + 2 * Z.of_nat (length tries) → (∀ sbd, (0, sbd) ∈ tries → known (sbd_ios sbd) = true) →
  wp (modeset_tries known archival w tries n) (λ rc b',
    if rc =? 0 then b' = b ∧ hasf (m_flags b) BMAPF_WR = true ∨
      ∃ sbd, (0, sbd) ∈ tries ∧ m_sbd b' = sbd ∧ hasf (m_flags b') BMAPF_DIO = hasf (m_flags b) BMAPF_DIO || archival (sbd_ios sbd) ∧
        ∀ p e, archival (sbd_ios sbd) = true → pc_tree (m_pc b') !! p = Some e → hasf (bmpce_flags e) BMPCEF_DISCARD = true
    else b' = b) b.
Proof.
  intros Hm Hw. revert n. induction tries as [|[rc sbd] tries IH]; intros n Hn Hl Hk; [simpl in Hl; lia|]. simpl in Hl |- *.
  wp_step. wp_step. wp_step. wp_step; [done|]. wp_step; [wp_step; by left|]. destruct Hw as [|[-> Hrd]]; [congruence|]. wp_step. wp_step; [done|]. wp_step.
  - apply Z.eqb_eq in Heqb1 as ->. assert (known (sbd_ios sbd) = true) as Hks by (apply Hk; by left). wp_step. wp_step. wp_step. wp_step; [done|]. wp_step.
    assert (∀ b', m_sbd b' = sbd → hasf (m_flags b') BMAPF_DIO = hasf (m_flags b) BMAPF_DIO || archival (sbd_ios sbd) →
      (∀ p e, archival (sbd_ios sbd) = true → pc_tree (m_pc b') !! p = Some e → hasf (bmpce_flags e) BMPCEF_DISCARD = true) →
      wp (mret 0 : BC Z) (λ rc b', if rc =? 0 then b' = b ∧ false = true ∨
        ∃ sbd0, (0, sbd0) ∈ (0, sbd) :: tries ∧ m_sbd b' = sbd0 ∧ hasf (m_flags b') BMAPF_DIO = hasf (m_flags b) BMAPF_DIO || archival (sbd_ios sbd0) ∧
        ∀ p e, archival (sbd_ios sbd0) = true → pc_tree (m_pc b') !! p = Some e → hasf (bmpce_flags e) BMPCEF_DISCARD = true else b' = b) b') as Hend.
    { intros b' H1 H2 H3. wp_step. simpl. right. exists sbd. split_and!; [by left|done|done|done]. }
    wp_step.
    + wp_step. apply Hend; [done| |].
      * simpl. rewrite H. by flags_goal.
      * intros p e _ Hx. simpl in Hx. rewrite lookup_fmap in Hx. destruct (pc_tree (m_pc b) !! p) as [e0|]; [|done]. injection Hx as <-. simpl. by flags_goal.
    + apply Hend; [done|simpl; by rewrite H, orb_false_r|congruence].
  - wp_step; [|wp_step; by rewrite Heqb1]. wp_step; [by wp_step|].
    apply Z.ltb_ge in Heqb3. eapply wp_mono; [apply (IH (n + 1 + 1)); [done|lia|intros; apply Hk; by right]|]. intros rc' b' Hx. simpl in Hx |- *. destruct (rc' =? 0); [|done].
    destruct Hx as [?|(s' & ? & ?)]; [by left|]. right. exists s'. split; [by right|done].
Qed.
End modes_props.

(** The change of a bmap to write mode ends after 31 tries at most and
    fails no assertion. When it succeeds the bmap was writable before, or has the
    descriptor of an answer of the server, and if that names an archival file
    system further I/O is direct and every cached page is marked to be dropped;
    when it fails the bmap is as before. *)
Theorem modeset_result known archival w tries b :
  hasf (m_flags b) BMAPF_MODECHNG = true → hasf (m_flags b) BMAPF_WR = true ∨ (w = SL_WRITE ∧ hasf (m_flags b) BMAPF_RD = true) →
  (31 ≤ length tries)%nat → (∀ sbd, (0, sbd) ∈ tries → known (sbd_ios sbd) = true) →
  ∃ rc b', msl_bmap_modeset known archival w tries b = Done (rc, b') ∧
    if rc =? 0 then b' = b ∧ hasf (m_flags b) BMAPF_WR = true ∨
      ∃ sbd, (0, sbd) ∈ tries ∧ m_sbd b' = sbd ∧ hasf (m_flags b') BMAPF_DIO = hasf (m_flags b) BMAPF_DIO || archival (sbd_ios sbd) ∧
        ∀ p e, archival (sbd_ios sbd) = true → pc_tree (m_pc b') !! p = Some e → hasf (bmpce_flags e) BMPCEF_DISCARD = true
    else b' = b.
Proof. intros Hm Hw Hl Hk. apply wp_run, modeset_run; [done|done| | |done]; unfold BMAP_CLI_MAX_LEASE; lia. Qed.

(** The counter of tries is stepped twice: a server that asks to wait is given 31
    tries, one second apart, not the 60 seconds of a lease. *)
Lemma modeset_gives_up known archival w b n sbd :
  hasf (m_flags b) BMAPF_MODECHNG = true → hasf (m_flags b) BMAPF_WR = false → hasf (m_flags b) BMAPF_RD = true → w = SL_WRITE →
  msl_bmap_modeset known archival w (replicate 31 (- SLERR_BMAP_DIOWAIT, sbd) ++ n) b = Done (- ETIMEDOUT, b).
Proof.
  intros Hm Hw Hr ->. unfold msl_bmap_modeset.
  assert (∀ k i, 2 * i + 2 * Z.of_nat k = 62 → 0 < Z.of_nat k → modeset_tries known archival SL_WRITE (replicate k (- SLERR_BMAP_DIOWAIT, sbd) ++ n) (2 * i) b = Done (- ETIMEDOUT, b)) as Hx;
    [|by apply (Hx 31%nat 0)].
  induction k as [|k IH]; intros i Hi Hk; [lia|]. apply wp_eq. simpl. wp_step. wp_step. wp_step. wp_step; [done|]. rewrite Hw. wp_step. wp_step; [done|].
  unfold BMAP_CLI_MAX_LEASE. destruct (Z.ltb_spec 60 (2 * i + 1 + 1)); [by wp_step|].
  eapply wp_intro; [|split; reflexivity]. replace (2 * i + 1 + 1) with (2 * (i + 1)) by lia. apply IH; lia.
Qed.

(** A refused lease is reported as success: when the metadata server
    answers a request for a lease with an error, the one that asks to try again
    later included, [msl_bmap_retrieve] stores the error and returns 0, and the
    bmap has no lease. *)
Theorem refusal_ignored known archival b t tries :
  hasf (m_flags b) BMAPF_INIT = true → gt_send t = 0 → gt_rc t ≠ 0 →
  msl_bmap_retrieve known archival false (t :: tries) b = Done (0, m_fail b (gt_rc t)).
Proof.
  intros Hi Hs Hr. apply wp_eq. unfold msl_bmap_retrieve. wp_step. wp_step. wp_step. wp_step; [done|]. simpl. rewrite Hs. simpl. wp_step.
  unfold msl_rmc_bmlget_cb. rewrite (proj2 (Z.eqb_neq _ _) Hr). simpl. wp_step. by wp_step.
Qed.
Lemma refusal_ignored_witness :
  let b := {| m_flags := Z.lor BMAPF_WR BMAPF_INIT; m_sbd := {| sbd_ios := 0; sbd_seq := 0; sbd_flags := 0 |}; m_etime := 0; m_error := 0; m_opcnt := 1; m_timeoq := false; m_pc := pcache_init |} in
  let t := {| gt_send := 0; gt_retry := false; gt_now := 5; gt_rc := - SLERR_BMAP_DIOWAIT; gt_sbd := {| sbd_ios := 0; sbd_seq := 0; sbd_flags := 0 |} |} in
  msl_bmap_retrieve (λ _, true) (λ _, false) false [t] b = Done (0, m_fail b (- SLERR_BMAP_DIOWAIT)).
Proof. intros b t. by apply (refusal_ignored (λ _, true) (λ _, false) b t []). Defined.

(** ** Another I/O system *)

(** A client never asks for another I/O system: in every state of a run
    [msl_bmap_lease_tryreassign] gives up, since each write that waits to be sent
    is on the list of pending requests as well, which would have to be empty. *)
Theorem reassign_never `{PflNetLaws} tidy ios srv fsz s A n :
  crun tidy (cl_init ios srv fsz) s A → reassign_bails n (c_b s) = true.
Proof.
  intros Hr. destruct (crun_inv _ _ _ _ _ _ Hr) as [(I & _) _ _]. unfold reassign_bails.
  destruct (b_new (c_b s)) as [|id l] eqn:Hn; [by rewrite (bool_decide_eq_true_2 ([] = [])), orb_true_r|].
  assert (id ∈ b_pndg (c_b s)) as Hp.
  { apply (rv_dom _ _ _ _ _ _ I). assert (id ∈ b_new (c_b s)) as Hi by (rewrite Hn; by left). apply (rv_in_new _ _ _ _ _ _ I) in Hi as (r & Hi & _). by exists r. }
  rewrite (bool_decide_eq_false_2 (b_pndg (c_b s) = [])); [by rewrite orb_true_r|]. intros He. rewrite He in Hp. by apply elem_of_nil in Hp.
Qed.

(** ** The choice of a replica *)
Section csvc_props.
Context (repls : list Z) (members : Z → option (list nat)) (conn : bool → nat → option nat).
Abbreviation try_get := (msl_try_get_replica_res repls members conn).
Abbreviation tries := (try_replicas repls members conn).
(** The connection of a replica in a round. *)
Definition reach (j : bool) (i : Z) : option nat := ms ← members i; try_members conn j ms.

Lemma try_get_cases j i v :
  (v = true ∧ resident repls i = false ∧ try_get j i v = (-2, None)) ∨
  ((v = true → resident repls i = true) ∧
   ((∃ c, reach j i = Some c ∧ try_get j i v = (0, Some c)) ∨ (reach j i = None ∧ try_get j i v = (-1, None)))).
Proof.
  unfold msl_try_get_replica_res, reach. destruct v, (resident repls i) eqn:Hr; simpl; auto; right; (split; [done|]);
    destruct (members i) as [ms|]; simpl; auto; destruct (try_members conn j ms) as [c|]; eauto.
Qed.
(** The first round, and the second one when some replica is resident: only
    resident replicas are tried. *)
Lemma tries_valid j idxs has : (j = true → has = true) →
  (∃ i c, i ∈ idxs ∧ resident repls i = true ∧ reach j i = Some c ∧ (tries j idxs has).1 = Some c) ∨
  ((tries j idxs has).1 = None ∧ (∀ i, i ∈ idxs → resident repls i = true → reach j i = None) ∧
   ((tries j idxs has).2 = true ↔ has = true ∨ ∃ i, i ∈ idxs ∧ resident repls i = true)).
Proof.
  revert has. induction idxs as [|i idxs IH]; intros has Hj; simpl.
  { right. split_and!; [done|intros i Hi; by apply elem_of_nil in Hi|]. split; [by left|]. intros [?|(i & Hi & _)]; [done|by apply elem_of_nil in Hi]. }
  assert ((if j then has else true) = true) as -> by (destruct j; auto).
  destruct (try_get_cases j i true) as [(_ & Hr & ->)|(Hr & [(c & Hc & ->)|(Hc & ->)])].
  - destruct (IH has Hj) as [(k & c & Hk & ?)|(H1 & H2 & H3)]; [left; exists k, c; split; [by right|done]|right]. split_and!; [done| |].
    + intros k [->|Hk]%elem_of_cons; [congruence|auto].
    + rewrite H3. split; [intros [?|(k & ? & ?)]; [by left|right; exists k; split; [by right|done]]|].
      intros [?|(k & [->|?]%elem_of_cons & ?)]; [by left|congruence|right; by exists k].
  - left. exists i, c. split_and!; [by left|auto|done|done].
  - destruct (IH true ltac:(done)) as [(k & c & Hk & ?)|(H1 & H2 & H3)]; [left; exists k, c; split; [by right|done]|right]. split_and!; [done| |].
    + intros k [->|Hk]%elem_of_cons; auto.
    + rewrite H3. split; [intros _; right; exists i; split; [by left|auto]|by left].
Qed.
(** The second round without a resident replica. *)
Lemma tries_hole idxs : (∀ i, i ∈ idxs → resident repls i = false) → ∀ c, (tries true idxs false).1 = Some c → ∃ i, i ∈ idxs ∧ reach true i = Some c.
Proof.
  intros Hn c. destruct idxs as [|i idxs]; [done|]. simpl. destruct (try_get_cases true i false) as [(? & _)|(_ & [(c' & Hc & ->)|(Hc & ->)])]; [done| |].
  - intros [= <-]. exists i. split; [by left|done].
  - intros Hs. destruct (tries_valid true idxs true ltac:(done)) as [(k & c' & Hk & Hr & _)|(H1 & _)]; [|congruence]. rewrite (Hn k) in Hr; [done|by right].
Qed.

(** C18: A reader gets a good replica: a connection that [msl_bmap_to_csvc]
    returns is one of a known I/O system whose replica is valid, unless no replica
    is; and it returns one as long as a valid replica can be reached in one of the
    two rounds. *)
Theorem replica_choice idxmap :
  (∀ c, msl_bmap_to_csvc repls members conn idxmap = (0, Some c) →
     ∃ j i, i ∈ idxmap ∧ reach j i = Some c ∧ (resident repls i = true ∨ ∀ k, k ∈ idxmap → resident repls k = false)) ∧
  ((∃ j i, i ∈ idxmap ∧ resident repls i = true ∧ is_Some (reach j i)) → ∃ c, msl_bmap_to_csvc repls members conn idxmap = (0, Some c)).
Proof.
  unfold msl_bmap_to_csvc. destruct (tries_valid false idxmap false ltac:(done)) as [(i & c & Hi & Hr & Hc & Ht)|(Ht & Hn & Hh)];
    destruct (tries false idxmap false) as [o has]; simpl in Ht; subst o.
  { split; [|eauto]. intros c' [= <-]. exists false, i. auto. }
  destruct has.
  - simpl in Hh. destruct (proj1 Hh eq_refl) as [?|(k & Hk & Hkr)]; [done|].
    destruct (tries_valid true idxmap true ltac:(done)) as [(i & c & Hi & Hr & Hc & Ht)|(Ht & Hn' & _)]; destruct (tries true idxmap true) as [o ?]; simpl in Ht; subst o.
    + split; [|eauto]. intros c' [= <-]. exists true, i. auto.
    + split; [done|]. intros ([|] & i & Hi & Hr & Hx); [rewrite (Hn' i Hi Hr) in Hx|rewrite (Hn i Hi Hr) in Hx]; by destruct Hx.
  - assert (∀ i, i ∈ idxmap → resident repls i = false) as Hz.
    { intros i Hi. destruct (resident repls i) eqn:Hr; [|done]. destruct Hh as [_ Hh]. simpl in Hh. discriminate Hh. right. by exists i. }
    split; [|intros (j & i & Hi & Hr & _); rewrite (Hz i Hi) in Hr; done].
    intros c Hc. destruct (tries true idxmap false) as [[c'|] ?] eqn:Ht; [|done]. injection Hc as <-.
    destruct (tries_hole idxmap Hz c') as (i & Hi & Hx); [by rewrite Ht|]. exists true, i. auto.
Qed.
End csvc_props.

(** A hole is read only if the first I/O system can be reached: when no replica is
    valid any system would do, but after the first one that cannot be reached the
    second round asks for a valid replica again. *)
Lemma hole_first_only repls members conn i idxs :
  (∀ k, k ∈ i :: idxs → resident repls k = false) → reach members conn true i = None →
  msl_bmap_to_csvc repls members conn (i :: idxs) = (- ETIMEDOUT, None).
Proof.
  intros Hz Hi. unfold msl_bmap_to_csvc.
  assert (try_replicas repls members conn false (i :: idxs) false = (None, false)) as ->.
  { destruct (tries_valid repls members conn false (i :: idxs) false ltac:(done)) as [(k & c & Hk & Hr & _)|(H1 & _ & H3)]; [by rewrite (Hz k Hk) in Hr|].
    destruct (try_replicas repls members conn false (i :: idxs) false) as [o [|]]; simpl in *; subst o; [|done].
    destruct (proj1 H3 eq_refl) as [?|(k & Hk & Hr)]; [done|by rewrite (Hz k Hk) in Hr]. }
  simpl. destruct (try_get_cases repls members conn true i false) as [(? & _)|(_ & [(c & Hc & _)|(_ & ->)])]; [done|congruence|].
  destruct (tries_valid repls members conn true idxs true ltac:(done)) as [(k & c & Hk & Hr & _)|(H1 & _)]; [rewrite (Hz k) in Hr; [done|by right]|].
  destruct (try_replicas repls members conn true idxs true) as [o ?]. simpl in H1. by subst o.
Qed.

(** [slc_reptbl_cmp] is an order for sorting; a preferred I/O system comes after
    the others in it. *)
Lemma reptbl_cmp_order x y z :
  slc_reptbl_cmp y x = - slc_reptbl_cmp x y ∧ (slc_reptbl_cmp x y ≤ 0 → slc_reptbl_cmp y z ≤ 0 → slc_reptbl_cmp x z ≤ 0).
Proof.
  destruct x as [x|], y as [y|], z as [z|]; unfold slc_reptbl_cmp;
    repeat match goal with |- context [hasf (?f ?u) ?v] => destruct (hasf (f u) v) | |- context [ri_archival ?u] => destruct (ri_archival u) end; by vm_compute.
Qed.
Lemma preferred_last x y : hasf (ri_flags x) RESF_PREFIOS = true → hasf (ri_flags y) RESF_PREFIOS = false → slc_reptbl_cmp (Some x) (Some y) = 1.
Proof. unfold slc_reptbl_cmp. by intros -> ->. Qed.

(** ** The release thread *)
Definition tentry_ok (b : tentry) : Prop :=
  hasf (t_flags b) BMAPF_TIMEOQ = true ∧ 0 < t_opcnt b ∧ (t_opcnt b = 1 → hasf (t_flags b) BMAPF_FLUSHQ = false) ∧
  (hasf (t_flags b) BMAPF_WR = true → sbd_ios (t_sbd b) ≠ IOS_ID_ANY).
(** Nothing but the queue has a reference to it. *)
Definition unused (b : tentry) : Prop := t_busy b = false ∧ t_opcnt b = 1.
Lemma scan_picks crtime max q : Forall tentry_ok q → ∀ nitems nto bcis, Z.of_nat (length bcis) < MAX_BMAP_RELEASE →
  ∃ l nto', rls_scan crtime max nitems nto q bcis = Done (bcis ++ l, nto') ∧ l `sublist_of` q ∧ Z.of_nat (length (bcis ++ l)) ≤ MAX_BMAP_RELEASE ∧ Forall unused l ∧ nto' ≤ nto ∧
    (Z.of_nat (length (bcis ++ l)) < MAX_BMAP_RELEASE → ∀ b, b ∈ q → unused b → b ∈ l ∨ (crtime < t_etime b ∧ nto' ≤ t_etime b)).
Proof.
  induction 1 as [|b q (B1 & B2 & B3 & B4) _ IH]; intros nitems nto bcis Hl; simpl.
  { exists [], nto. rewrite app_nil_r. split_and!; [done|done|lia|done|done|]. intros _ b Hb. by apply elem_of_nil in Hb. }
  assert (∀ nto1, nto1 ≤ nto → (unused b → crtime < t_etime b ∧ nto1 ≤ t_etime b) →
    ∃ l nto', rls_scan crtime max nitems nto1 q bcis = Done (bcis ++ l, nto') ∧ l `sublist_of` b :: q ∧ Z.of_nat (length (bcis ++ l)) ≤ MAX_BMAP_RELEASE ∧ Forall unused l ∧ nto' ≤ nto ∧
      (Z.of_nat (length (bcis ++ l)) < MAX_BMAP_RELEASE → ∀ b0, b0 ∈ b :: q → unused b0 → b0 ∈ l ∨ (crtime < t_etime b0 ∧ nto' ≤ t_etime b0))) as Hskip.
  { intros nto1 Hn Hu. destruct (IH nitems nto1 bcis Hl) as (l & nto' & H1 & H2 & H3 & H4 & H5 & H6). exists l, nto'. split_and!; [done|by apply sublist_cons|done|done|lia|].
    intros Hx b0 [->|Hb]%elem_of_cons Hub; [|by apply H6]. right. destruct (Hu Hub). lia. }
  destruct (t_busy b) eqn:Hbusy; [apply Hskip; [lia|intros [? _]; congruence]|]. rewrite B1, (proj2 (Z.ltb_lt _ _) B2). simpl.
  destruct (Z.ltb_spec 1 (t_opcnt b)); [apply Hskip; [lia|intros [_ ?]; lia]|]. assert (t_opcnt b = 1) as Hone by lia. rewrite (B3 Hone).
  destruct ((t_etime b <=? crtime) || (max / 4 <? nitems)) eqn:He.
  - rewrite length_app. simpl. destruct (Z.leb_spec MAX_BMAP_RELEASE (Z.of_nat (length bcis + 1))) as [Hm|Hm].
    + exists [b], nto. rewrite length_app. simpl. split_and!; [done|by apply sublist_skip, sublist_nil_l|lia|by apply Forall_singleton|done|lia].
    + destruct (IH (nitems - 1) nto (bcis ++ [b])) as (l & nto' & H1 & H2 & H3 & H4 & H5 & H6); [by rewrite length_app|].
      exists (b :: l), nto'. rewrite <-app_assoc in H1, H3, H6. split_and!; [done|by apply sublist_skip|done|by constructor|done|].
      intros Hx b0 [->|Hb]%elem_of_cons Hub; [left; by left|]. destruct (H6 Hx b0 Hb Hub); [left; by right|by right].
  - apply orb_false_elim in He as [He _]. apply Z.leb_gt in He. destruct (Z.ltb_spec (t_etime b) nto); apply Hskip; lia.
Qed.
(** What goes to a peer. *)
Definition for_peer (r : Z) (l : list tentry) : list tentry := filter (λ b, rls_peer b = r) l.
Definition some_list {A} (l : list A) : option (list A) := match l with [] => None | _ => Some l end.
Lemma default_some_list {A} (l : list A) : default [] (some_list l) = l.
Proof. by destruct l. Qed.
Lemma for_peer_length r l : (length (for_peer r l) ≤ length l)%nat.
Proof. apply length_filter. Qed.
Lemma for_peer_snoc r l b : for_peer r (l ++ [b]) = if decide (rls_peer b = r) then for_peer r l ++ [b] else for_peer r l.
Proof. unfold for_peer. rewrite filter_app, filter_cons, filter_nil. case_decide; [done|by rewrite app_nil_r]. Qed.
Lemma pack_all_run bcis done rels s :
  Forall tentry_ok bcis → Z.of_nat (length (done ++ bcis)) ≤ MAX_BMAP_RELEASE → (∀ r, r_rls s !! r = some_list (for_peer r done)) → NoDup rels → (∀ r, r ∈ rels ↔ for_peer r done ≠ []) →
  wp (rls_pack_all bcis rels) (λ rels' s', r_q s' = filter (λ x, t_id x ∉ t_id <$> bcis) (r_q s) ∧ r_sent s' = r_sent s ∧
    (∀ r, r_rls s' !! r = some_list (for_peer r (done ++ bcis))) ∧ NoDup rels' ∧ (∀ r, r ∈ rels' ↔ for_peer r (done ++ bcis) ≠ [])) s.
Proof.
  intros Hok. revert done rels s. induction Hok as [|b bcis (_ & _ & _ & Hios) _ IH]; intros done rels s Hl Hr Hn Hin; simpl.
  { wp_step. rewrite app_nil_r. split_and!; try done. symmetry. apply filter_all. intros x _. apply not_elem_of_nil. }
  rewrite length_app in Hl. simpl in Hl. wp_step. unfold rls_pack. wp_step. wp_step. wp_step. wp_step.
  { destruct (hasf (t_flags b) BMAPF_WR) eqn:Hw; [|done]. simpl. by rewrite (proj2 (Z.eqb_neq _ _) (Hios eq_refl)). }
  wp_step. wp_step. unfold rls_of. simpl. rewrite Hr, default_some_list.
  destruct (Z.leb_spec MAX_BMAP_RELEASE (Z.of_nat (length (for_peer (rls_peer b) done)))); [pose proof (for_peer_length (rls_peer b) done); lia|].
  wp_step. wp_step. wp_step. eapply wp_mono; [apply (IH (done ++ [b]))|].
  - rewrite <-app_assoc, length_app. simpl. lia.
  - intros r. simpl. rewrite for_peer_snoc. case_decide as Hd; [subst r; rewrite lookup_insert_eq; by destruct (for_peer (rls_peer b) done)|by rewrite lookup_insert_ne].
  - case_bool_decide as Hd; [done|]. apply NoDup_app. split_and!; [done|by intros x Hx ->%list_elem_of_singleton|apply NoDup_singleton].
  - intros r. rewrite for_peer_snoc. case_bool_decide as Hd; case_decide as He; rewrite ?elem_of_app, ?list_elem_of_singleton, Hin; subst.
    + apply Hin in Hd. split; intros _; [by destruct (for_peer (rls_peer b) done)|done].
    + done.
    + split; [intros _; by destruct (for_peer (rls_peer b) done)|by right].
    + split; [intros [?|?]; congruence|by left].
  - intros rels' s' (H1 & H2 & H3 & H4 & H5). rewrite <-app_assoc in H3, H5. split_and!; try done. rewrite H1. simpl. rewrite list_filter_filter. apply list_filter_iff.
    intros x. rewrite not_elem_of_cons. tauto.
Qed.
Lemma send_all_run up rc rels s : NoDup rels → (∀ r, r ∈ rels → rls_of s r ≠ []) →
  wp (rls_send_all up rc rels) (λ _ s', r_q s' = r_q s ∧ (∀ r, r_rls s' !! r = if decide (r ∈ rels) then None else r_rls s !! r) ∧
    r_sent s' = r_sent s ++ ((λ r, (r, rls_of s r)) <$> filter (λ r, up r = true ∧ rc r = 0) rels)) s.
Proof.
  intros Hn. revert s. induction Hn as [|r rels Hr Hn IH]; intros s Hne; simpl.
  { wp_step. split_and!; [done|done|by rewrite app_nil_r]. }
  assert (∀ sent, sent = (if decide (up r = true ∧ rc r = 0) then [(r, rls_of s r)] else []) →
    wp (rls_send_all up rc rels) (λ _ s', r_q s' = r_q s ∧ (∀ r0, r_rls s' !! r0 = if decide (r0 ∈ r :: rels) then None else r_rls s !! r0) ∧
      r_sent s' = r_sent s ++ ((λ r, (r, rls_of s r)) <$> filter (λ r, up r = true ∧ rc r = 0) (r :: rels)))
      {| r_q := r_q s; r_rls := delete r (r_rls s); r_sent := r_sent s ++ sent |}) as Hgo.
  { intros sent ->. eapply wp_mono; [apply IH|].
    - intros r0 H0. unfold rls_of. simpl. rewrite lookup_delete_ne by congruence. apply Hne. by right.
    - intros [] s' (H1 & H2 & H3). split_and!; [done| |].
      + intros r0. rewrite H2. simpl. destruct (decide (r0 ∈ rels)) as [Hin|Hin]; [by rewrite decide_True by (by right)|].
        destruct (decide (r0 = r)) as [->|Hd]; [rewrite lookup_delete_eq, decide_True; [done|by left]|rewrite lookup_delete_ne, decide_False; [done|by intros [?|?]%elem_of_cons|done]].
      + rewrite H3. simpl. rewrite <-app_assoc. f_equal. rewrite filter_cons. case_decide; simpl; [f_equal|]; apply list_fmap_ext; intros i r0 H0;
          apply list_elem_of_lookup_2, list_elem_of_filter in H0 as [_ H0]; unfold rls_of; simpl; rewrite lookup_delete_ne by congruence; done. }
  wp_step. unfold msl_bmap_release. wp_step. wp_step. destruct (up r) eqn:Hu; simpl.
  - wp_step. wp_step; [by rewrite bool_decide_eq_false_2 by (apply Hne; by left)|]. wp_step; wp_step.
    + rewrite <-(app_nil_r (r_sent s)) at 1. apply Hgo. rewrite decide_False; [done|]. intros [_ ?]. apply negb_true_iff, Z.eqb_neq in Heqb. done.
    + apply Hgo. rewrite decide_True; [done|]. split; [done|]. by apply negb_false_iff, Z.eqb_eq in Heqb.
  - wp_step. rewrite <-(app_nil_r (r_sent s)) at 1. apply Hgo. rewrite decide_False; [done|]. intros [? _]. congruence.
Qed.

Lemma filter_iff_in {A} (P Q : A → Prop) `{∀ x, Decision (P x)} `{∀ x, Decision (Q x)} (l : list A) : (∀ x, x ∈ l → P x ↔ Q x) → filter P l = filter Q l.
Proof.
  induction l as [|x l IH]; intros HPQ; [done|]. rewrite !filter_cons, IH by (intros; apply HPQ; by right).
  pose proof (HPQ x ltac:(by left)). do 2 case_decide; tauto.
Qed.
(** What was taken and what was left make up the queue. *)
Lemma taken_left {A} (f : A → nat) (l q : list A) : l `sublist_of` q → NoDup (f <$> q) → l ++ filter (λ x, f x ∉ f <$> l) q ≡ₚ q.
Proof.
  induction 1 as [|x l q Hl IH|x l q Hl IH]; simpl; [done| |]; intros [Hx Hn]%NoDup_cons; rewrite filter_cons.
  - rewrite decide_False by (intros Hd; apply Hd; by left). f_equiv. rewrite <-(IH Hn) at 2. f_equiv. apply reflexive_eq, filter_iff_in.
    intros y Hy. rewrite not_elem_of_cons. split; [tauto|]. split; [|done]. intros He. apply Hx. rewrite <-He. by apply list_elem_of_fmap_2.
  - assert (f x ∉ f <$> l). { intros Hd. apply Hx. eapply elem_of_sublist; [exact Hd|]. by apply fmap_sublist. }
    rewrite decide_True by done. rewrite <-Permutation_middle. f_equiv. by apply IH.
Qed.

(** C17: The release thread: a round finishes, fails no assertion and writes no
    message beyond its 8 entries. It takes at most 8 bmaps from the queue, all
    without other users; if it takes fewer, every bmap without users whose lease
    has ended is taken, and the thread wakes up before the lease of another
    ends. Each bmap that is taken is in one message, to the I/O system of a writer
    or to the metadata server, if the peer can be reached; what is left of the
    queue keeps its order. *)
Theorem release_round crtime max up rc s :
  r_q s ≠ [] → NoDup (t_id <$> r_q s) → Forall tentry_ok (r_q s) → r_rls s = ∅ →
  ∃ nto s' bcis peers, msbreleasethr_round crtime max up rc s = Done (nto, s') ∧
    bcis `sublist_of` r_q s ∧ Z.of_nat (length bcis) ≤ MAX_BMAP_RELEASE ∧ Forall unused bcis ∧
    (Z.of_nat (length bcis) < MAX_BMAP_RELEASE → ∀ b, b ∈ r_q s → unused b → b ∈ bcis ∨ (crtime < t_etime b ∧ nto ≤ t_etime b)) ∧
    bcis ++ r_q s' ≡ₚ r_q s ∧ r_q s' `sublist_of` r_q s ∧ r_rls s' = ∅ ∧
    NoDup peers ∧ (∀ r, r ∈ peers ↔ for_peer r bcis ≠ []) ∧
    r_sent s' = r_sent s ++ ((λ r, (r, for_peer r bcis)) <$> filter (λ r, up r = true ∧ rc r = 0) peers).
Proof.
  intros Hq Hnd Hok He.
  destruct (scan_picks crtime max (r_q s) Hok (Z.of_nat (length (r_q s))) (crtime + BMAP_CLI_MAX_LEASE * NSEC) []) as (bcis & nto & Hs & Hsub & Hl & Hu & _ & Hall); [done|]. simpl in Hs, Hl, Hall.
  assert (Forall tentry_ok bcis) as Hokb. { apply Forall_forall. intros b Hb. rewrite Forall_forall in Hok. apply Hok. by eapply elem_of_sublist. }
  assert (wp (msbreleasethr_round crtime max up rc) (λ n s', n = nto ∧ r_q s' = filter (λ b, t_id b ∉ t_id <$> bcis) (r_q s) ∧ r_rls s' = ∅ ∧
    ∃ peers, NoDup peers ∧ (∀ r, r ∈ peers ↔ for_peer r bcis ≠ []) ∧
    r_sent s' = r_sent s ++ ((λ r, (r, for_peer r bcis)) <$> filter (λ r, up r = true ∧ rc r = 0) peers)) s) as Hw.
  { unfold msbreleasethr_round. wp_step. wp_step. wp_step. wp_step; [by rewrite bool_decide_eq_false_2|]. rewrite Hs. wp_step.
    eapply wp_mono; [apply (pack_all_run bcis [] []); [done|done|intros r; by rewrite He, lookup_empty|constructor|]|].
    { intros r. split; [intros Hx; by apply elem_of_nil in Hx|done]. }
    intros rels s1 (H1 & H2 & H3 & H4 & H5). simpl in H3, H5. assert (∀ r, rls_of s1 r = for_peer r bcis) as Hof by (intros r; unfold rls_of; by rewrite H3, default_some_list).
    wp_step. eapply wp_mono; [apply send_all_run; [done|intros r Hr; rewrite Hof; by apply H5]|]. intros [] s2 (K1 & K2 & K3). wp_step. split_and!; [done|by rewrite K1| |].
    - apply map_eq. intros r. rewrite K2, lookup_empty. case_decide as Hd; [done|]. rewrite H3. destruct (for_peer r bcis) eqn:Hf; [done|]. destruct Hd. apply H5. by rewrite Hf.
    - exists rels. split_and!; [done|done|]. rewrite K3, H2. f_equal. apply list_fmap_ext. intros i r _. by rewrite Hof. }
  apply wp_run in Hw as (n & s' & Hrun & -> & H1 & H2 & peers & H3 & H4 & H5). exists nto, s', bcis, peers. rewrite H1.
  split_and!; try done; [by apply taken_left|apply sublist_filter].
Qed.

(** ** Examples *)
Module BmapEx.
Definition sbd (ios : Z) : srt_bmapdesc := {| sbd_ios := ios; sbd_seq := 7; sbd_flags := 0 |}.
Definition reader : cbmap :=
  {| m_flags := Z.lor BMAPF_RD BMAPF_MODECHNG; m_sbd := sbd IOS_ID_ANY; m_etime := 0; m_error := 0; m_opcnt := 2; m_timeoq := true; m_pc := pcache_init |}.
Lemma modeset_result_witness :
  ∃ b', msl_bmap_modeset (λ _, true) (λ i, i =? 5) SL_WRITE (replicate 30 (- SLERR_BMAP_DIOWAIT, sbd 5) ++ [(0, sbd 5)]) reader = Done (0, b') ∧ m_sbd b' = sbd 5 ∧ hasf (m_flags b') BMAPF_DIO = true.
Proof.
  destruct (modeset_result (λ _, true) (λ i, i =? 5) SL_WRITE (replicate 30 (- SLERR_BMAP_DIOWAIT, sbd 5) ++ [(0, sbd 5)]) reader) as (rc & b' & Hs & _);
    [by vm_compute|right; split; by vm_compute|by vm_compute; lia|done|].
  exists b'. assert (rc = 0 ∧ m_sbd b' = sbd 5 ∧ hasf (m_flags b') BMAPF_DIO = true) as (-> & ? & ?); [|done]. vm_compute in Hs. injection Hs as <- <-. by vm_compute.
Defined.

(** A write waits to be sent. *)
Lemma reassign_never_witness : b_new (c_b (end_of CliEx.w1 CliEx.s0)) = [0%nat] ∧ reassign_bails 0 (c_b (end_of CliEx.w1 CliEx.s0)) = true.
Proof. split; [by vm_compute|]. apply (reassign_never true 5 CliEx.f0 200000 _ (bytes_of CliEx.w1 CliEx.s0)). by apply CliEx.ran_run; vm_compute. Defined.

(** Two replicas, none of them valid, the first one out of reach. *)
Lemma hole_lost : msl_bmap_to_csvc (replicate 24 0) (λ i, Some [Z.to_nat i]) (λ _ m, if bool_decide (m = 1%nat) then Some 9%nat else None) [0; 1] = (- ETIMEDOUT, None).
Proof. by vm_compute. Qed.

(** A writer whose lease has ended, a reader with time left, one in use. *)
Definition entry (id : nat) (fl cnt etime ios : Z) : tentry :=
  {| t_id := id; t_flags := Z.lor BMAPF_TIMEOQ fl; t_opcnt := cnt; t_etime := etime; t_sbd := sbd ios; t_mds := 1; t_busy := false |}.
Definition queue : rthr :=
  {| r_q := [entry 0 BMAPF_RD 1 (70 * NSEC) IOS_ID_ANY; entry 1 BMAPF_WR 1 (9 * NSEC) 5; entry 2 BMAPF_WR 2 (9 * NSEC) 5; entry 3 BMAPF_RD 1 (8 * NSEC) IOS_ID_ANY]; r_rls := ∅; r_sent := [] |}.
Lemma release_round_witness : ∃ s', msbreleasethr_round (10 * NSEC) 1024 (λ _, true) (λ _, 0) queue = Done (70 * NSEC, s') ∧
  map t_id (r_q s') = [0; 2]%nat ∧ map (λ x, (x.1, map t_id x.2)) (r_sent s') = [(5, [1%nat]); (1, [3%nat])].
Proof.
  destruct (release_round (10 * NSEC) 1024 (λ _, true) (λ _, 0) queue) as (nto & s' & bcis & peers & Hs & _).
  - done.
  - by vm_compute; apply (bool_decide_eq_true_1 (NoDup [0; 1; 2; 3]%nat)); vm_compute.
  - repeat (apply Forall_cons; split; [by vm_compute|]). apply Forall_nil. done.
  - done.
  - exists s'. vm_compute in Hs. injection Hs as <- <-. by vm_compute.
Defined.
End BmapEx.
