(* ===== verification/DirCache.v ===== *)
(** * The directory cache of a client

    Pages of directory entries that a client keeps for [readdir], and the cache of
    names over them ([mount_slash/dircache.c], [mount_slash/dircache.h], and the
    [readdir] operations of [mount_slash/main.c]), for one directory. The hash
    table of names has the parent in its key, so what it has for one directory is
    a list of its own. A dirent is named by a number, and so is its entry
    ([dircache_ent]); an access to one that was freed is a fault. A step that has
    to wait has done nothing yet: the pages that it would have freed before are
    freed when it runs, and the mark ([DIRCACHEPGF_FREEING]) it would have left on
    a page it waits for is not seen by others. *)
From S2P Require Import Prelude Replay.

(** ** Constants and data *)
Definition DIRCACHEPG_SOFT_TIMEO : Z := 4.
Definition DIRCACHEPG_HARD_TIMEO : Z := 30.
Definition DIRCACHEPGF_LOADING : Z := Z.shiftl 1 0.
Definition DIRCACHEPGF_EOF : Z := Z.shiftl 1 1.
Definition DIRCACHEPGF_READ : Z := Z.shiftl 1 2.
Definition DIRCACHEPGF_FREEING : Z := Z.shiftl 1 3.
Definition SLFID_ROOT : Z := 1.
Definition SLFID_NS : Z := 2.
Definition SLFID_MIN : Z := 3.
Definition ESRCH : Z := 3.
Definition tv (s : Z) : Z := s * 1000000000.

Definition name := list Z.
Record pscfs_dirent := { pfd_name : name; pfd_ino : Z; pfd_off : Z }.
Record dircache_page := {
  dcp_flags : Z;
  dcp_rc : Z;
  dcp_off : Z;
  dcp_nextoff : Z;
  dcp_local_tm : Z;
  dcp_remote_tm : Z;
  dcp_dents_off : option (list nat);
  dcp_base : list nat;
  dcp_dirgen : Z;
  dcp_refcnt : Z;
}.
(** A READDIR under way for a page: sent, its entries being registered, and
    registered. *)
Inductive rdstate :=
| RdSent
| RdReg (da_off base : list nat) (nextoff : Z) (eof : bool)
| RdDone.
Record dirc := {
  d_fid : Z;
  d_gen : Z;                            (* fcmh_2_gen *)
  d_mtim : Z;                           (* sst_mtim *)
  d_hash : list nat;                    (* msl_namecache_hashtbl *)
  d_ents : list nat;                    (* fcid_ents *)
  d_pages : list nat;                   (* fci_dc_pages *)
  d_pg : gmap nat dircache_page;
  d_dce : gmap nat (option nat);        (* dce_page of each entry *)
  d_pfd : gmap nat pscfs_dirent;        (* dce_pfd *)
  d_rpcs : gmap nat (nat * rdstate);
  d_next : nat;
}.
Abbreviation DM A := (M dirc A).
Definition dirc_init (fid gen mtim : Z) : dirc :=
  {| d_fid := fid; d_gen := gen; d_mtim := mtim; d_hash := []; d_ents := []; d_pages := []; d_pg := ∅; d_dce := ∅; d_pfd := ∅; d_rpcs := ∅; d_next := 0 |}.

(** The arrays of libpfl: removal of an item and search of a key. *)
Class PflDyn := {
  dyn_removeitem : nat → list nat → list nat;
  dyn_bsearch : Z → list Z → nat;
  PFL_DIRENT_SIZE : Z → Z;
}.
Class PflDynLaws `{PflDyn} := {
  dyn_removeitem_perm x l : dyn_removeitem x l ≡ₚ filter (λ y, y ≠ x) l;
  dyn_bsearch_found k l : StronglySorted Z.lt l → k ∈ l → l !! dyn_bsearch k l = Some k;
  dirent_size_pos n : 0 ≤ n → 0 < PFL_DIRENT_SIZE n;
}.

Definition d_names (s : dirc) (hash ents : list nat) (dce : gmap nat (option nat)) (pfd : gmap nat pscfs_dirent) : dirc :=
  {| d_fid := d_fid s; d_gen := d_gen s; d_mtim := d_mtim s; d_hash := hash; d_ents := ents; d_pages := d_pages s; d_pg := d_pg s; d_dce := dce; d_pfd := pfd;
     d_rpcs := d_rpcs s; d_next := d_next s |}.
Definition d_set_hash (s : dirc) (h : list nat) : dirc := d_names s h (d_ents s) (d_dce s) (d_pfd s).
Definition d_set_pfd (s : dirc) (m : gmap nat pscfs_dirent) : dirc := d_names s (d_hash s) (d_ents s) (d_dce s) m.
Definition d_list (s : dirc) (pages : list nat) (pg : gmap nat dircache_page) (rpcs : gmap nat (nat * rdstate)) (next : nat) : dirc :=
  {| d_fid := d_fid s; d_gen := d_gen s; d_mtim := d_mtim s; d_hash := d_hash s; d_ents := d_ents s; d_pages := pages; d_pg := pg; d_dce := d_dce s; d_pfd := d_pfd s;
     d_rpcs := rpcs; d_next := next |}.
Definition d_set_pg (s : dirc) (pg : gmap nat dircache_page) : dirc := d_list s (d_pages s) pg (d_rpcs s) (d_next s).
Definition d_set_rpcs (s : dirc) (r : gmap nat (nat * rdstate)) : dirc := d_list s (d_pages s) (d_pg s) r (d_next s).
Definition pg_set (g : dircache_page) (fl rc nextoff local remote : Z) (dents : option (list nat)) (base : list nat) (gen ref : Z) : dircache_page :=
  {| dcp_flags := fl; dcp_rc := rc; dcp_off := dcp_off g; dcp_nextoff := nextoff; dcp_local_tm := local; dcp_remote_tm := remote; dcp_dents_off := dents; dcp_base := base;
     dcp_dirgen := gen; dcp_refcnt := ref |}.
Definition pg_flags (g : dircache_page) (fl : Z) : dircache_page :=
  pg_set g fl (dcp_rc g) (dcp_nextoff g) (dcp_local_tm g) (dcp_remote_tm g) (dcp_dents_off g) (dcp_base g) (dcp_dirgen g) (dcp_refcnt g).
Definition pg_ref (g : dircache_page) (n : Z) : dircache_page :=
  pg_set g (dcp_flags g) (dcp_rc g) (dcp_nextoff g) (dcp_local_tm g) (dcp_remote_tm g) (dcp_dents_off g) (dcp_base g) (dcp_dirgen g) n.
Definition pg_zap (g : dircache_page) (now : Z) (dents : list nat) : dircache_page :=
  pg_set g (dcp_flags g) (dcp_rc g) (dcp_nextoff g) (now - tv DIRCACHEPG_HARD_TIMEO) (dcp_remote_tm g) (Some dents) (dcp_base g) (dcp_dirgen g) (dcp_refcnt g).
Definition getDp (p : nat) : DM dircache_page := λ s, match d_pg s !! p with Some g => Done (g, s) | None => Stuck NullDeref end.
Definition setDp (p : nat) (g : dircache_page) : DM unit := modifyM (λ s, d_set_pg s (<[p := g]> (d_pg s))).
Definition getPfd (id : nat) : DM pscfs_dirent := λ s, match d_pfd s !! id with Some f => Done (f, s) | None => Stuck NullDeref end.

Section dircache.
Context `{PflDyn}.

(** ** The cache of names *)

(** [psc_hashtbl_search_cmpf] with [dircache_entq_cmp]. *)
Fixpoint hash_scan (m : gmap nat pscfs_dirent) (n : name) (l : list nat) : outcome (option nat) :=
  match l with
  | [] => Done None
  | id :: l =>
      match m !! id with
      | None => Stuck NullDeref
      | Some f => if bool_decide (pfd_name f = n) then Done (Some id) else hash_scan m n l
      end
  end.
Definition hash_find (n : name) : DM (option nat) :=
  λ s, match hash_scan (d_pfd s) n (d_hash s) with Done o => Done (o, s) | Stuck w => Stuck w end.
Definition hash_remove (id : nat) : DM unit := modifyM (λ s, d_set_hash s (filter (λ x, x ≠ id) (d_hash s))).

(** [dircache_ent_zap] *)
Definition dircache_ent_zap (now : Z) (id : nat) : DM unit :=
  s ← getM;
  match d_dce s !! id with
  | None => stuckM NullDeref
  | Some (Some p) =>
      g ← getDp p;
      match dcp_dents_off g with
      | None => stuckM NullDeref
      | Some l =>
          _ ← setDp p (pg_zap g now (dyn_removeitem id l));
          modifyM (λ s, d_names s (d_hash s) (d_ents s) (delete id (d_dce s)) (d_pfd s))
      end
  | Some None => putM (d_names s (d_hash s) (dyn_removeitem id (d_ents s)) (delete id (d_dce s)) (delete id (d_pfd s)))
  end.

Inductive ncop := NcClobber | NcDelete | NcInsert | NcPeek | NcUpdate.
Definition dircache_ent_update (id : nat) (cfid : Z) : DM unit :=
  f ← getPfd id;
  modifyM (λ s, d_set_pfd s (<[id := {| pfd_name := pfd_name f; pfd_ino := cfid; pfd_off := pfd_off f |}]> (d_pfd s))).
(** The new entry of [_namecache_lookup]. *)
Definition nc_add (n : name) (cfid : Z) : DM unit :=
  o ← hash_find n;
  match o with
  | Some _ => mret tt
  | None =>
      modifyM (λ s,
        let id := d_next s in
        let s := d_list s (d_pages s) (d_pg s) (d_rpcs s) (S (d_next s)) in
        d_names s (id :: d_hash s) (d_ents s ++ [id]) (<[id := None]> (d_dce s)) (<[id := {| pfd_name := n; pfd_ino := cfid; pfd_off := 0 |}]> (d_pfd s)))
  end.
(** [_namecache_lookup] *)
Definition namecache_lookup (now : Z) (op : ncop) (n : name) (cfid : Z) : DM Z :=
  s ← getM;
  if d_fid s =? SLFID_NS then mret FID_ANY
  else
    _ ← psc_assert ((d_fid s =? SLFID_ROOT) || (SLFID_MIN <=? d_fid s));
    o ← hash_find n;
    match op, o with
    | NcPeek, Some id => f ← getPfd id; mret (pfd_ino f)
    | NcPeek, None => mret FID_ANY
    | NcDelete, Some id => _ ← hash_remove id; _ ← dircache_ent_zap now id; mret FID_ANY
    | NcDelete, None => mret FID_ANY
    | NcUpdate, Some id | NcClobber, Some id => _ ← dircache_ent_update id cfid; mret FID_ANY
    | NcUpdate, None => mret FID_ANY
    | NcInsert, Some id => mret FID_ANY
    | NcInsert, None | NcClobber, None => _ ← nc_add n cfid; mret FID_ANY
    end.

(** ** Pages *)

(** [_dircache_free_page]; the base goes with its dirents. *)
Fixpoint free_dents (l : list nat) : DM unit :=
  match l with
  | [] => mret tt
  | id :: l =>
      _ ← hash_remove id;
      _ ← modifyM (λ s, d_names s (d_hash s) (d_ents s) (delete id (d_dce s)) (d_pfd s));
      free_dents l
  end.
Definition dircache_free_page (p : nat) (wait : bool) : DM Z :=
  g ← getDp p;
  if hasf (dcp_flags g) DIRCACHEPGF_FREEING then mret 0
  else if negb (dcp_refcnt g =? 0) && negb wait then mret 0
  else
    _ ← setDp p (pg_flags g (setf (dcp_flags g) DIRCACHEPGF_FREEING));
    _ ← wait_until (dcp_refcnt g =? 0);
    _ ← free_dents (default [] (dcp_dents_off g));
    _ ← modifyM (λ s, d_set_pfd s (foldr delete (d_pfd s) (dcp_base g)));
    _ ← modifyM (λ s, d_list s (filter (λ x, x ≠ p) (d_pages s)) (delete p (d_pg s)) (d_rpcs s) (d_next s));
    mret 1.

(** [dircache_hasoff] *)
Fixpoint offs_of (m : gmap nat pscfs_dirent) (l : list nat) : outcome (list Z) :=
  match l with
  | [] => Done []
  | id :: l =>
      match m !! id with
      | None => Stuck NullDeref
      | Some f => match offs_of m l with Done r => Done (pfd_off f :: r) | Stuck w => Stuck w end
      end
  end.
Definition offsM (l : list nat) : DM (list Z) := λ s, match offs_of (d_pfd s) l with Done r => Done (r, s) | Stuck w => Stuck w end.
Definition dircache_hasoff (g : dircache_page) (off : Z) : DM bool :=
  if off =? dcp_off g then mret true
  else if negb (dcp_rc g =? 0) then mret false
  else if off =? dcp_nextoff g then mret false
  else match dcp_dents_off g with
       | None => stuckM NullDeref
       | Some l =>
           offs ← offsM l;
           mret (match offs !! dyn_bsearch off offs with Some o => o =? off | None => false end)
       end.
(** [DIRCACHEPG_EXPIRED] *)
Definition pg_expired (s : dirc) (now : Z) (g : dircache_page) : bool :=
  (dcp_refcnt g =? 0) &&
  ((hasf (dcp_flags g) DIRCACHEPGF_READ && (dcp_local_tm g <? now - tv DIRCACHEPG_SOFT_TIMEO)) ||
   (dcp_local_tm g <? now - tv DIRCACHEPG_HARD_TIMEO) || negb (d_mtim s =? dcp_remote_tm g) || negb (dcp_dirgen g =? d_gen s)).

(** The scan of [dircache_new_page]: false when there is nothing to do. *)
Fixpoint newpage_scan (now off : Z) (wait : bool) (l : list nat) : DM bool :=
  match l with
  | [] => mret true
  | p :: l =>
      g ← getDp p;
      s ← getM;
      if hasf (dcp_flags g) DIRCACHEPGF_LOADING then
        if dcp_off g =? off then mret false
        else if wait then stuckM WouldBlock
        else newpage_scan now off wait l
      else if pg_expired s now g then _ ← dircache_free_page p true; newpage_scan now off wait l
      else
        h ← dircache_hasoff g off;
        if (h : bool) then
          if wait then _ ← dircache_free_page p true; mret true
          else r ← dircache_free_page p false; mret (negb (r =? 0))
        else newpage_scan now off wait l
  end.
Definition dircache_new_page (now off : Z) (wait : bool) : DM (option nat) :=
  s ← getM;
  go ← newpage_scan now off wait (d_pages s);
  if (go : bool) then
    s ← getM;
    let p := d_next s in
    let g := {| dcp_flags := DIRCACHEPGF_LOADING; dcp_rc := 0; dcp_off := off; dcp_nextoff := 0; dcp_local_tm := 0; dcp_remote_tm := 0; dcp_dents_off := None;
                dcp_base := []; dcp_dirgen := 0; dcp_refcnt := 1 |} in
    _ ← putM (d_list s (d_pages s ++ [p]) (<[p := g]> (d_pg s)) (d_rpcs s) (S p));
    mret (Some p)
  else mret None.

(** ** READDIR *)

(** [msl_readdir_issue]; [rc] is the result of sending the request. *)
Definition msl_readdir_issue (now off : Z) (wait : bool) (rc : Z) : DM Z :=
  o ← dircache_new_page now off wait;
  match o with
  | None => mret (- ESRCH)
  | Some p =>
      if rc =? 0 then
        _ ← modifyM (λ s, d_list s (d_pages s) (d_pg s) (<[d_next s := (p, RdSent)]> (d_rpcs s)) (S (d_next s)));
        mret 0
      else _ ← dircache_free_page p true; mret rc
  end.
(** [msl_readdir_error] *)
Definition msl_readdir_error (now : Z) (k : nat) (rc : Z) : DM unit :=
  s ← getM;
  match d_rpcs s !! k with
  | Some (p, RdSent) =>
      g ← getDp p;
      let g := pg_ref g (dcp_refcnt g - 1) in
      _ ← setDp p (if hasf (dcp_flags g) DIRCACHEPGF_LOADING
                   then pg_set g (clrf (dcp_flags g) DIRCACHEPGF_LOADING) rc (dcp_nextoff g) now (d_mtim s) (dcp_dents_off g) (dcp_base g) (dcp_dirgen g) (dcp_refcnt g)
                   else g);
      modifyM (λ s, d_set_rpcs s (delete k (d_rpcs s)))
  | _ => stuckM WouldBlock
  end.

(** [dircache_reg_ents] up to the lock of the directory: the entries are made,
    sorted, and put into the hash table. *)
Fixpoint reg_alloc (p : nat) (l : list pscfs_dirent) (id : nat) (s : dirc) : dirc :=
  match l with
  | [] => d_list s (d_pages s) (d_pg s) (d_rpcs s) id
  | f :: l => reg_alloc p l (S id) (d_names s (d_hash s) (d_ents s) (<[id := Some p]> (d_dce s)) (<[id := f]> (d_pfd s)))
  end.
Definition doff_le (a b : Z * nat) : Prop := a.1 ≤ b.1.
#[global] Instance doff_le_dec a b : Decision (doff_le a b).
Proof. unfold doff_le. apply _. Defined.
Definition sort_off (l : list (Z * nat)) : list nat := snd <$> merge_sort doff_le l.
Definition reg_clash (now : Z) (o : option nat) : DM unit :=
  match o with
  | Some id2 => _ ← hash_remove id2; dircache_ent_zap now id2
  | None => mret tt
  end.
Fixpoint reg_loop (now : Z) (l : list nat) : DM unit :=
  match l with
  | [] => mret tt
  | id :: l =>
      f ← getPfd id;
      o ← hash_find (pfd_name f);
      _ ← reg_clash now o;
      _ ← modifyM (λ s, d_set_hash s (id :: d_hash s));
      reg_loop now l
  end.
Definition reg_begin (now : Z) (k : nat) (ents : list pscfs_dirent) (eof : bool) : DM unit :=
  s ← getM;
  match d_rpcs s !! k with
  | Some (p, RdSent) =>
      let base := seq (d_next s) (length ents) in
      let da_off := sort_off (zip (pfd_off <$> ents) base) in
      g ← getDp p;
      let nextoff := match last ents with Some f => pfd_off f | None => dcp_off g end in
      _ ← putM (reg_alloc p ents (d_next s) (d_set_rpcs s (<[k := (p, RdReg da_off base nextoff eof)]> (d_rpcs s))));
      _ ← psc_assert (hasf (dcp_flags g) DIRCACHEPGF_LOADING);
      reg_loop now da_off
  | _ => stuckM WouldBlock
  end.
Definition reg_end (now : Z) (k : nat) : DM unit :=
  s ← getM;
  match d_rpcs s !! k with
  | Some (p, RdReg da_off base nextoff eof) =>
      g ← getDp p;
      _ ← psc_assert (bool_decide (dcp_dents_off g = None));
      let fl := clrf (dcp_flags g) DIRCACHEPGF_LOADING in
      let fl := if eof then setf fl DIRCACHEPGF_EOF else fl in
      _ ← setDp p (pg_set g fl (dcp_rc g) nextoff now (d_mtim s) (Some da_off) base (d_gen s) (dcp_refcnt g));
      modifyM (λ s, d_set_rpcs s (<[k := (p, RdDone)]> (d_rpcs s)))
  | _ => stuckM WouldBlock
  end.
(** The dirents of a buffer, and the buffer after [psc_realloc] has moved it: the
    dirents have new addresses and the old ones are free, while the entries
    ([dce_pfd]) still have the old ones. *)
Fixpoint pfds_of (m : gmap nat pscfs_dirent) (l : list nat) : outcome (list pscfs_dirent) :=
  match l with
  | [] => Done []
  | id :: l =>
      match m !! id with
      | None => Stuck NullDeref
      | Some f => match pfds_of m l with Done r => Done (f :: r) | Stuck w => Stuck w end
      end
  end.
Definition pfdsM (l : list nat) : DM (list pscfs_dirent) := λ s, match pfds_of (d_pfd s) l with Done r => Done (r, s) | Stuck w => Stuck w end.
Definition move_base (base : list nat) : DM (list nat) :=
  l ← pfdsM base;
  s ← getM;
  let new := seq (d_next s) (length base) in
  _ ← putM (d_list (d_set_pfd s (list_to_map (zip new l) ∪ foldr delete (d_pfd s) base)) (d_pages s) (d_pg s) (d_rpcs s) (d_next s + length base)%nat);
  mret new.
(** The end of [msl_readdir_finish]: the buffer is cut to the dirents, without the
    attributes behind them, and the page released. [moved] tells whether
    [psc_realloc] returned another address. *)
Definition msl_readdir_finish (k : nat) (moved : bool) : DM unit :=
  s ← getM;
  match d_rpcs s !! k with
  | Some (p, RdDone) =>
      g ← getDp p;
      base ← (if moved then move_base (dcp_base g) else mret (dcp_base g));
      _ ← setDp p (pg_set g (dcp_flags g) (dcp_rc g) (dcp_nextoff g) (dcp_local_tm g) (dcp_remote_tm g) (dcp_dents_off g) base (dcp_dirgen g) (dcp_refcnt g - 1));
      modifyM (λ s, d_set_rpcs s (delete k (d_rpcs s)))
  | _ => stuckM WouldBlock
  end.

(** [mslfsop_readdir] on the pages: what is told the file system, and the offset
    to read ahead from, or that a READDIR has to be issued. [retry] is the answer
    of [slc_rmc_retry]. *)
Inductive rdresult :=
| RrEof
| RrError (rc : Z)
| RrReply (l : list pscfs_dirent) (raoff : Z)
| RrIssue.
Fixpoint rd_start (off thisoff : Z) (l : list pscfs_dirent) : list pscfs_dirent :=
  match l with
  | [] => []
  | f :: l' => if off =? thisoff then l else rd_start off (pfd_off f) l'
  end.
Fixpoint rd_fit (size len : Z) (l : list pscfs_dirent) : list pscfs_dirent :=
  match l with
  | [] => []
  | f :: l =>
      let tlen := PFL_DIRENT_SIZE (Z.of_nat (length (pfd_name f))) in
      if size <? tlen + len then [] else f :: rd_fit size (len + tlen) l
  end.
Definition rd_base (g : dircache_page) : DM (list pscfs_dirent) :=
  match dcp_dents_off g with
  | None => stuckM NullDeref
  | Some l => pfdsM (take (length l) (dcp_base g))
  end.
Fixpoint readdir_scan (now off size : Z) (retry : bool) (l : list nat) : DM rdresult :=
  match l with
  | [] => mret RrIssue
  | p :: l =>
      g ← getDp p;
      s ← getM;
      if hasf (dcp_flags g) DIRCACHEPGF_LOADING then stuckM WouldBlock
      else if pg_expired s now g then _ ← dircache_free_page p true; readdir_scan now off size retry l
      else if (off =? dcp_nextoff g) && hasf (dcp_flags g) DIRCACHEPGF_EOF then mret RrEof
      else
        h ← dircache_hasoff g off;
        if negb h then readdir_scan now off size retry l
        else if negb (dcp_rc g =? 0) then
          _ ← dircache_free_page p true;
          mret (if retry then RrIssue else RrError (dcp_rc g))
        else
          base ← rd_base g;
          _ ← setDp p (pg_flags g (setf (dcp_flags g) DIRCACHEPGF_READ));
          mret (RrReply (rd_fit size 0 (rd_start off (dcp_off g) base)) (if hasf (dcp_flags g) DIRCACHEPGF_EOF then 0 else dcp_nextoff g))
  end.
Definition mslfsop_readdir (now off size : Z) (retry : bool) : DM rdresult :=
  if (off <? 0) || (1024 * 1024 <? size) then mret (RrError EINVAL)
  else s ← getM; readdir_scan now off size retry (d_pages s).

(** ** The end of the directory handle: [dircache_purge], [namecache_purge] *)
Fixpoint purge_pages (l : list nat) : DM unit :=
  match l with
  | [] => mret tt
  | p :: l => _ ← dircache_free_page p true; purge_pages l
  end.
Definition dircache_purge : DM unit := s ← getM; purge_pages (d_pages s).
Fixpoint purge_ents (l : list nat) : DM unit :=
  match l with
  | [] => mret tt
  | id :: l =>
      _ ← hash_remove id;
      _ ← modifyM (λ s, d_names s (d_hash s) (d_ents s) (delete id (d_dce s)) (delete id (d_pfd s)));
      purge_ents l
  end.
Definition namecache_purge : DM unit :=
  s ← getM;
  _ ← purge_ents (d_ents s);
  modifyM (λ s, d_names s (d_hash s) [] (d_dce s) (d_pfd s)).

(** ** Steps *)
Inductive dlabel :=
| DName (now : Z) (op : ncop) (n : name) (cfid : Z)
| DIssue (now off : Z) (wait : bool) (rc : Z)
| DError (now : Z) (k : nat) (rc : Z)
| DReg (now : Z) (k : nat) (ents : list pscfs_dirent) (eof : bool)
| DRegEnd (now : Z) (k : nat)
| DFinish (k : nat) (moved : bool)
| DRead (now off size : Z) (retry : bool)
| DAttr (gen mtim : Z).
Definition dstep (l : dlabel) : DM unit :=
  match l with
  | DName now op n cfid => _ ← namecache_lookup now op n cfid; mret tt
  | DIssue now off wait rc => _ ← msl_readdir_issue now off wait rc; mret tt
  | DError now k rc => _ ← wait_until (negb (rc =? 0)); msl_readdir_error now k rc
  | DReg now k ents eof => reg_begin now k ents eof
  | DRegEnd now k => reg_end now k
  | DFinish k moved => msl_readdir_finish k moved
  | DRead now off size retry => _ ← mslfsop_readdir now off size retry; mret tt
  | DAttr gen mtim => modifyM (λ s,
      {| d_fid := d_fid s; d_gen := gen; d_mtim := mtim; d_hash := d_hash s; d_ents := d_ents s; d_pages := d_pages s; d_pg := d_pg s; d_dce := d_dce s; d_pfd := d_pfd s;
         d_rpcs := d_rpcs s; d_next := d_next s |})
  end.
End dircache.
