(* ===== verification/DirCacheInv.v ===== *)
(** * The invariant of the directory cache

    Who owns the entries in the hash table of names, and which pages a READDIR is
    under way for; every operation of [DirCache.v] against it, with what it does
    to the names in the cache. *)
From S2P Require Import Prelude Replay DirCache.

(** ** Invariant *)
Definition loading (g : dircache_page) : bool := hasf (dcp_flags g) DIRCACHEPGF_LOADING.
Definition on_page (s : dirc) (p : nat) : Prop := ∃ k st, d_rpcs s !! k = Some (p, st).
Definition reg_of (s : dirc) (p : nat) (l b : list nat) : Prop := ∃ k n e, d_rpcs s !! k = Some (p, RdReg l b n e).
Definition in_base (s : dirc) (p id : nat) : Prop := (∃ g, d_pg s !! p = Some g ∧ id ∈ dcp_base g) ∨ ∃ l b, reg_of s p l b ∧ id ∈ b.
(** The offset of the last dirent of a buffer. *)
Definition next_is (m : gmap nat pscfs_dirent) (b : list nat) (n : Z) : Prop := ∀ id, last b = Some id → pfd_off <$> m !! id = Some n.
Lemma next_keep m m' b n : (∀ id, id ∈ b → pfd_off <$> m' !! id = pfd_off <$> m !! id) → next_is m b n → next_is m' b n.
Proof. intros Hk Hn id Hl. rewrite Hk; [by apply Hn|]. by apply last_Some_elem_of. Qed.
Record pg_ok (s : dirc) (p : nat) (g : dircache_page) : Prop := {
  go_free : hasf (dcp_flags g) DIRCACHEPGF_FREEING = false;
  go_ref : (dcp_refcnt g = 0 ∧ ¬ on_page s p) ∨ (dcp_refcnt g = 1 ∧ on_page s p);
  go_dents : ∀ l id, dcp_dents_off g = Some l → id ∈ l → d_dce s !! id = Some (Some p) ∧ id ∈ dcp_base g;
  go_none : dcp_dents_off g = None → dcp_base g = [];
  go_load : loading g = true → on_page s p;
  go_ready : loading g = false → dcp_rc g = 0 → is_Some (dcp_dents_off g);
  go_next : next_is (d_pfd s) (dcp_base g) (dcp_nextoff g);
}.
Definition rpc_ok (s : dirc) (g : dircache_page) (p : nat) (st : rdstate) : Prop :=
  match st with
  | RdSent => loading g = true ∧ dcp_dents_off g = None
  | RdReg l b n _ => loading g = true ∧ dcp_dents_off g = None ∧ (∀ id, id ∈ l → d_dce s !! id = Some (Some p) ∧ id ∈ b) ∧ next_is (d_pfd s) b n
  | RdDone => loading g = false ∧ is_Some (dcp_dents_off g)
  end.
(** [L]: the entries that are not yet in the hash table. *)
Record dinv (s : dirc) (L : list nat) : Prop := {
  di_hash : NoDup (d_hash s);
  di_in : ∀ id, id ∈ d_hash s ↔ is_Some (d_dce s !! id) ∧ id ∉ L;
  di_pfd : ∀ id, is_Some (d_dce s !! id) → is_Some (d_pfd s !! id);
  di_uniq : ∀ i j f g, i ∈ d_hash s → j ∈ d_hash s → d_pfd s !! i = Some f → d_pfd s !! j = Some g → pfd_name f = pfd_name g → i = j;
  di_ents : ∀ id, id ∈ d_ents s ↔ d_dce s !! id = Some None;
  di_pages_nd : NoDup (d_pages s);
  di_pages : ∀ p, p ∈ d_pages s ↔ is_Some (d_pg s !! p);
  di_page : ∀ p g, d_pg s !! p = Some g → pg_ok s p g;
  di_own : ∀ id p, d_dce s !! id = Some (Some p) → (∃ g l, d_pg s !! p = Some g ∧ dcp_dents_off g = Some l ∧ id ∈ l) ∨ ∃ l b, reg_of s p l b ∧ id ∈ l;
  di_rpc : ∀ k p st, d_rpcs s !! k = Some (p, st) → ∃ g, d_pg s !! p = Some g ∧ rpc_ok s g p st;
  di_one : ∀ k k' p st st', d_rpcs s !! k = Some (p, st) → d_rpcs s !! k' = Some (p, st') → k = k';
  di_base : ∀ p id, in_base s p id → is_Some (d_pfd s !! id) ∧ (∀ o, d_dce s !! id = Some o → o = Some p) ∧ ∀ q, in_base s q id → q = p;
  di_next : ∀ id, is_Some (d_pfd s !! id) ∨ is_Some (d_pg s !! id) ∨ is_Some (d_rpcs s !! id) → (id < d_next s)%nat;
}.

(** ** Names *)
Definition has (s : dirc) (n : name) (i : Z) : Prop := ∃ id f, id ∈ d_hash s ∧ d_pfd s !! id = Some f ∧ pfd_name f = n ∧ pfd_ino f = i.
Definition nc (s : dirc) (n : name) : option Z :=
  match hash_scan (d_pfd s) n (d_hash s) with Done (Some id) => pfd_ino <$> d_pfd s !! id | _ => None end.
Lemma hash_scan_ok m n l : (∀ id, id ∈ l → is_Some (m !! id)) →
  (∃ id f, hash_scan m n l = Done (Some id) ∧ id ∈ l ∧ m !! id = Some f ∧ pfd_name f = n) ∨
  (hash_scan m n l = Done None ∧ ∀ id f, id ∈ l → m !! id = Some f → pfd_name f ≠ n).
Proof.
  induction l as [|id l IH]; intros Hm; simpl; [right; split; [done|]; intros ? ? Hx; by apply elem_of_nil in Hx|].
  destruct (Hm id ltac:(by left)) as [f Hf]. rewrite Hf. case_bool_decide as Hn; [left; exists id, f; split_and!; [done|by left|done|done]|].
  destruct (IH ltac:(intros; apply Hm; by right)) as [(j & g & ? & ? & ? & ?)|[Hd Hall]]; [left; exists j, g; split_and!; [done|by right|done|done]|right].
  split; [done|]. intros j g [->|Hj]%elem_of_cons Hg; [congruence|by eapply Hall].
Qed.
Lemma hash_valid s L id : dinv s L → id ∈ d_hash s → is_Some (d_pfd s !! id).
Proof. intros I Hi. apply (di_pfd _ _ I). by apply (di_in _ _ I) in Hi as [? _]. Qed.
Lemma nc_has s L n i : dinv s L → nc s n = Some i ↔ has s n i.
Proof.
  intros I. unfold nc. destruct (hash_scan_ok (d_pfd s) n (d_hash s)) as [(id & f & -> & Hi & Hf & Hn)|[-> Hall]].
  { intros id. by apply (hash_valid s L). }
  - rewrite Hf. simpl. split; [intros [= <-]; by exists id, f|]. intros (j & g & Hj & Hg & Hn' & <-). assert (j = id) as -> by (eapply (di_uniq _ _ I); eauto; congruence).
    congruence.
  - split; [done|]. intros (j & g & Hj & Hg & Hn & _). by destruct (Hall j g).
Qed.
Lemma nc_none s L n : dinv s L → nc s n = None ↔ ∀ i, ¬ has s n i.
Proof.
  intros I. destruct (nc s n) as [i|] eqn:Hn.
  - split; [done|]. intros Hx. apply (nc_has s L n i I) in Hn. by destruct (Hx i).
  - split; [|done]. intros _ i Hi. apply (nc_has s L n i I) in Hi. congruence.
Qed.
(** Two states with the same names. *)
Lemma nc_eq s s' L L' n : dinv s L → dinv s' L' → (∀ i, has s' n i ↔ has s n i) → nc s' n = nc s n.
Proof.
  intros I I' Hh. destruct (nc s n) as [i|] eqn:Hn.
  - by apply (nc_has s' L' n i I'), Hh, (nc_has s L n i I).
  - apply (nc_none s' L' n I'). intros i Hi%Hh. by apply (proj1 (nc_none s L n I) Hn i).
Qed.

(** ** Entries that go *)
Section zap.
Context `{PflDynLaws}.

Lemma remove_in x y l : y ∈ dyn_removeitem x l ↔ y ∈ l ∧ y ≠ x.
Proof. rewrite dyn_removeitem_perm, list_elem_of_filter. tauto. Qed.
Lemma dinv_zap_anon s L id : dinv s L → d_dce s !! id = Some None → id ∈ d_hash s →
  dinv (d_names s (filter (λ x, x ≠ id) (d_hash s)) (dyn_removeitem id (d_ents s)) (delete id (d_dce s)) (delete id (d_pfd s))) L.
Proof.
  intros [I1 I2 I3 I4 I5 I6 I7 I8 I9 I10 I11 I12 I13] Hd Hh.
  assert (∀ p, ¬ in_base s p id) as Hnb. { intros p Hb. destruct (I12 p id Hb) as (_ & Ho & _). by specialize (Ho _ Hd). }
  assert (∀ j p, d_dce s !! j = Some (Some p) → delete id (d_dce s) !! j = Some (Some p)) as Hkeep by (intros j p Hj; rewrite lookup_delete_ne; [done|congruence]).
  split; simpl; try done.
  - by apply NoDup_filter.
  - intros j. rewrite list_elem_of_filter, I2. destruct (decide (j = id)) as [->|Hj]; [rewrite lookup_delete_eq; split; [tauto|intros [[? ?] _]; done]|rewrite lookup_delete_ne by done; tauto].
  - intros j Hj. destruct (decide (j = id)) as [->|Hne]; [rewrite lookup_delete_eq in Hj; by destruct Hj|]. rewrite lookup_delete_ne in Hj by done. rewrite lookup_delete_ne by done. auto.
  - intros i j f g Hi Hj Hf Hg. apply list_elem_of_filter in Hi as [Hi1 Hi], Hj as [Hj1 Hj]. rewrite lookup_delete_ne in Hf, Hg by done. by apply I4.
  - intros j. rewrite remove_in, I5. destruct (decide (j = id)) as [->|Hj]; [rewrite lookup_delete_eq; split; [tauto|done]|rewrite lookup_delete_ne by done; tauto].
  - intros p g Hg. destruct (I8 p g Hg) as [G1 G2 G3 G4 G5 G6 G7]. split; try done; [intros l j Hl Hj; destruct (G3 l j Hl Hj); auto|].
    apply (next_keep (d_pfd s)); [|done]. intros j Hj. simpl. rewrite lookup_delete_ne; [done|]. intros ->. apply (Hnb p). left. by exists g.
  - intros j p Hj. apply lookup_delete_Some in Hj as [_ Hj]. by apply I9.
  - intros k p st Hk. destruct (I10 k p st Hk) as (g & Hg & Hr). exists g. split; [done|]. destruct st as [|l b n e|]; simpl in *; try done. destruct Hr as (? & ? & Hr & Hnx).
    split_and!; try done; [intros j Hj; destruct (Hr j Hj); auto|]. apply (next_keep (d_pfd s)); [|done]. intros j Hj. rewrite lookup_delete_ne; [done|]. intros ->. apply (Hnb p). right. exists l, b. split; [by exists k, n, e|done].
  - intros p j Hb. change (in_base s p j) in Hb. destruct (I12 p j Hb) as (H1 & H2 & H3). assert (j ≠ id) by (intros ->; by apply (Hnb p)). split_and!; [by rewrite lookup_delete_ne|intros o; rewrite lookup_delete_ne by done; apply H2|].
    intros q Hq. by apply H3.
  - intros j [[f Hj]|Hj]; [|auto]. apply lookup_delete_Some in Hj as [_ Hj]. apply I13. left. by exists f.
Qed.
Lemma dinv_zap_page s L id p g l now : dinv s L → d_dce s !! id = Some (Some p) → id ∈ d_hash s → d_pg s !! p = Some g → dcp_dents_off g = Some l →
  dinv (d_names (d_set_pg s (<[p := pg_zap g now (dyn_removeitem id l)]> (d_pg s))) (filter (λ x, x ≠ id) (d_hash s)) (d_ents s) (delete id (d_dce s)) (d_pfd s)) L.
Proof.
  intros [I1 I2 I3 I4 I5 I6 I7 I8 I9 I10 I11 I12 I13] Hd Hh Hg Hl.
  assert (∀ q j, in_base (d_names (d_set_pg s (<[p := pg_zap g now (dyn_removeitem id l)]> (d_pg s))) (filter (λ x, x ≠ id) (d_hash s)) (d_ents s) (delete id (d_dce s)) (d_pfd s)) q j → in_base s q j) as Hb.
  { intros q j [(g' & Hq & Hj)|(l' & b & Hr & Hj)]; [|right; by exists l', b]. left. simpl in Hq. apply lookup_insert_Some in Hq as [[<- <-]|[_ Hq]]; [by exists g|by exists g']. }
  assert (∀ q l' b, reg_of s q l' b → q ≠ p) as Hreg. { intros q l' b (k & n & e & Hk) ->. destruct (I10 k p _ Hk) as (g' & Hg' & _ & Hn & _ & _). congruence. }
  split; simpl; try done.
  - by apply NoDup_filter.
  - intros j. rewrite list_elem_of_filter, I2. destruct (decide (j = id)) as [->|Hj]; [rewrite lookup_delete_eq; split; [tauto|intros [[? ?] _]; done]|rewrite lookup_delete_ne by done; tauto].
  - intros j [o Hj]. apply lookup_delete_Some in Hj as [_ Hj]. apply I3. by exists o.
  - intros i j f g' Hi Hj. apply list_elem_of_filter in Hi as [_ Hi], Hj as [_ Hj]. by apply I4.
  - intros j. rewrite I5. destruct (decide (j = id)) as [->|Hj]; [rewrite lookup_delete_eq; split; [congruence|done]|by rewrite lookup_delete_ne].
  - intros q. rewrite I7, lookup_insert_is_Some'. split; [by right|]. intros [<-|?]; [by exists g|done].
  - intros q g' Hq. apply lookup_insert_Some in Hq as [[<- <-]|[Hne Hq]].
    + destruct (I8 p g Hg) as [G1 G2 G3 G4 G5 G6 G7]. split; simpl; try done. intros l' j [= <-] Hj. apply remove_in in Hj as [Hj Hjd]. destruct (G3 l j Hl Hj). by rewrite lookup_delete_ne.
    + destruct (I8 q g' Hq) as [G1 G2 G3 G4 G5 G6 G7]. split; try done. intros l' j Hl' Hj. destruct (G3 l' j Hl' Hj) as [Hjd ?]. simpl. rewrite lookup_delete_ne; [done|congruence].
  - intros j q Hj. apply lookup_delete_Some in Hj as [Hjd Hj]. destruct (I9 j q Hj) as [(g' & l' & Hq & Hl' & Hin)|Hr]; [|by right]. left.
    destruct (decide (q = p)) as [->|Hne]; [|exists g', l'; by rewrite lookup_insert_ne]. exists (pg_zap g now (dyn_removeitem id l)), (dyn_removeitem id l). rewrite lookup_insert_eq.
    split_and!; [done|done|]. apply remove_in. split; [congruence|done].
  - intros k q st Hk. destruct (I10 k q st Hk) as (g' & Hq & Hr). destruct (decide (q = p)) as [->|Hne].
    + assert (g' = g) as -> by congruence. exists (pg_zap g now (dyn_removeitem id l)). rewrite lookup_insert_eq. split; [done|]. destruct st; simpl in *; [destruct Hr; congruence|destruct Hr as (_ & ? & _); congruence|].
      split; [apply Hr|done].
    + exists g'. rewrite lookup_insert_ne by done. split; [done|]. destruct st; simpl in *; try done. destruct Hr as (? & ? & Hr & Hnx). split_and!; try done.
      intros j Hj. destruct (Hr j Hj). rewrite lookup_delete_ne; [done|congruence].
  - intros q j Hj. destruct (I12 q j (Hb q j Hj)) as (H1 & H2 & H3). split_and!; [done|intros o Ho; apply lookup_delete_Some in Ho as [_ Ho]; auto|].
    intros q' Hq'. by apply H3, Hb.
  - intros j [Hj|[Hj|Hj]]; [auto| |auto]. rewrite lookup_insert_is_Some' in Hj. apply I13. right. left. destruct Hj as [<-|Hj]; [by exists g|done].
Qed.

Record zapped (s s' : dirc) (id : nat) : Prop := {
  z_hash : d_hash s' = filter (λ x, x ≠ id) (d_hash s);
  z_pfd : ∀ j, j ≠ id → d_pfd s' !! j = d_pfd s !! j;
  z_dce : d_dce s' = delete id (d_dce s);
  z_rpcs : d_rpcs s' = d_rpcs s;
  z_next : d_next s' = d_next s;
  z_fid : d_fid s' = d_fid s;
  z_pg : ∀ p g l, d_pg s !! p = Some g → dcp_dents_off g = Some l → ∃ g' l', d_pg s' !! p = Some g' ∧ dcp_dents_off g' = Some l';
}.
(** The page of an entry has been registered. *)
Definition settled (s : dirc) (id : nat) : Prop := ∀ p, d_dce s !! id = Some (Some p) → ∃ g l, d_pg s !! p = Some g ∧ dcp_dents_off g = Some l.
Lemma wp_zap s L id now (Q : unit → dirc → Prop) : dinv s L → id ∈ d_hash s → settled s id →
  (∀ s', dinv s' L → zapped s s' id → Q tt s') → wp (_ ← hash_remove id; dircache_ent_zap now id) Q s.
Proof.
  intros I Hh Hset HQ. destruct (proj1 (di_in _ _ I id) Hh) as [[o Ho] _]. unfold hash_remove, dircache_ent_zap. wp_step. wp_step. wp_step. wp_step. simpl. rewrite Ho.
  destruct o as [p|].
  - destruct (Hset p Ho) as (g & l & Hg & Hl). wp_step. eapply wp_intro; [unfold getDp; simpl; by rewrite Hg|]. simpl. rewrite Hl. wp_step. unfold setDp. wp_step. wp_step.
    apply HQ; [by apply (dinv_zap_page s L id p g l now)|]. split; simpl; try done.
    intros q g' l' Hq Hl'. destruct (decide (q = p)) as [->|Hne]; [rewrite lookup_insert_eq; eexists _, _; done|rewrite lookup_insert_ne by done; by exists g', l'].
  - wp_step. apply HQ; [exact (dinv_zap_anon s L id I Ho Hh)|]. split; simpl; try done; [intros j Hj; by rewrite lookup_delete_ne|]. intros q g' l' Hq Hl'. by exists g', l'.
Qed.
Lemma zapped_has s s' L id f n i : dinv s L → id ∈ d_hash s → d_pfd s !! id = Some f → zapped s s' id → has s' n i ↔ has s n i ∧ n ≠ pfd_name f.
Proof.
  intros I Hh Hf [Z1 Z2 Z3 Z4 Z5 Z6 Z7]. unfold has. setoid_rewrite Z1. split.
  - intros (j & g & Hj & Hg & <- & <-). apply list_elem_of_filter in Hj as [Hne Hj]. rewrite Z2 in Hg by done. split; [by exists j, g|]. intros He. apply Hne. by eapply (di_uniq _ _ I).
  - intros [(j & g & Hj & Hg & <- & <-) Hn]. assert (j ≠ id) by congruence. exists j, g. rewrite list_elem_of_filter, Z2 by done. done.
Qed.
End zap.

(** ** Entries that change and entries that come *)
Lemma dinv_update s L id f cfid : dinv s L → d_pfd s !! id = Some f →
  dinv (d_set_pfd s (<[id := {| pfd_name := pfd_name f; pfd_ino := cfid; pfd_off := pfd_off f |}]> (d_pfd s))) L.
Proof.
  intros [I1 I2 I3 I4 I5 I6 I7 I8 I9 I10 I11 I12 I13] Hf.
  assert (∀ j g, <[id := {| pfd_name := pfd_name f; pfd_ino := cfid; pfd_off := pfd_off f |}]> (d_pfd s) !! j = Some g → ∃ g', d_pfd s !! j = Some g' ∧ pfd_name g' = pfd_name g) as Hback.
  { intros j g [[<- <-]|[_ Hj]]%lookup_insert_Some; [by exists f|by exists g]. }
  assert (∀ j, is_Some (d_pfd s !! j) → is_Some (<[id := {| pfd_name := pfd_name f; pfd_ino := cfid; pfd_off := pfd_off f |}]> (d_pfd s) !! j)) as Hfwd by (intros j Hj; apply lookup_insert_is_Some'; by right).
  assert (∀ j, pfd_off <$> <[id := {| pfd_name := pfd_name f; pfd_ino := cfid; pfd_off := pfd_off f |}]> (d_pfd s) !! j = pfd_off <$> d_pfd s !! j) as Hoff.
  { intros j. destruct (decide (j = id)) as [->|]; [by rewrite lookup_insert_eq, Hf|by rewrite lookup_insert_ne]. }
  split; simpl; try done.
  - intros j Hj. by apply Hfwd, I3.
  - intros i j g1 g2 Hi Hj Hg1 Hg2 Hn. destruct (Hback i g1 Hg1) as (? & ? & ?), (Hback j g2 Hg2) as (? & ? & ?). eapply I4; eauto. congruence.
  - intros p g Hg. destruct (I8 p g Hg) as [G1 G2 G3 G4 G5 G6 G7]. split; try done. by apply (next_keep (d_pfd s)).
  - intros k p st Hk. destruct (I10 k p st Hk) as (g & Hg & Hr). exists g. split; [done|]. destruct st; simpl in *; try done. destruct Hr as (? & ? & ? & Hnx). split_and!; try done. by apply (next_keep (d_pfd s)).
  - intros p j Hb. destruct (I12 p j Hb) as (? & ? & ?). split_and!; [by apply Hfwd|done|done].
  - intros j [[g Hj]|Hj]; [|auto]. destruct (Hback j g Hj) as (g' & Hg' & _). apply I13. left. by exists g'.
Qed.
Lemma update_has s L id f cfid n i : dinv s L → id ∈ d_hash s → d_pfd s !! id = Some f →
  has (d_set_pfd s (<[id := {| pfd_name := pfd_name f; pfd_ino := cfid; pfd_off := pfd_off f |}]> (d_pfd s))) n i ↔ if decide (n = pfd_name f) then i = cfid else has s n i.
Proof.
  intros I Hh Hf. unfold has. simpl. split.
  - intros (j & g & Hj & [[<- <-]|[Hne Hg]]%lookup_insert_Some & <- & <-); simpl; [by rewrite decide_True|]. rewrite decide_False; [by exists j, g|].
    intros He. apply Hne. symmetry. by eapply (di_uniq _ _ I).
  - case_decide as Hd.
    + intros ->. eexists id, _. rewrite lookup_insert_eq. by split_and!.
    + intros (j & g & Hj & Hg & <- & <-). exists j, g. rewrite lookup_insert_ne by congruence. done.
Qed.
Definition added (s : dirc) (n : name) (cfid : Z) : dirc :=
  d_names (d_list s (d_pages s) (d_pg s) (d_rpcs s) (S (d_next s))) (d_next s :: d_hash s) (d_ents s ++ [d_next s]) (<[d_next s := None]> (d_dce s))
    (<[d_next s := {| pfd_name := n; pfd_ino := cfid; pfd_off := 0 |}]> (d_pfd s)).
Lemma fresh_dce s L : dinv s L → d_dce s !! d_next s = None ∧ d_pfd s !! d_next s = None.
Proof.
  intros I. assert (d_pfd s !! d_next s = None) as Hp. { apply eq_None_not_Some. intros Hx. pose proof (di_next _ _ I (d_next s) (or_introl Hx)). lia. }
  split; [|done]. apply eq_None_not_Some. intros Hx%(di_pfd _ _ I). rewrite Hp in Hx. by destruct Hx.
Qed.
Lemma dinv_added s n cfid : dinv s [] → (∀ i, ¬ has s n i) → dinv (added s n cfid) [].
Proof.
  intros I Hno. destruct (fresh_dce s [] I) as [Hd Hp]. destruct I as [I1 I2 I3 I4 I5 I6 I7 I8 I9 I10 I11 I12 I13].
  assert (d_next s ∉ d_hash s) as Hnh by (rewrite I2, Hd; intros [[? ?] _]; done).
  assert (∀ j o, d_dce s !! j = Some o → <[d_next s := None]> (d_dce s) !! j = Some o) as Hkeep by (intros j o Hj; rewrite lookup_insert_ne; [done|congruence]).
  assert (∀ j, j ∈ d_hash s → ∀ f, d_pfd s !! j = Some f → pfd_name f ≠ n) as Hne by (intros j Hj f Hf <-; apply (Hno (pfd_ino f)); by exists j, f).
  assert (∀ j, is_Some (d_pfd s !! j) → pfd_off <$> <[d_next s := {| pfd_name := n; pfd_ino := cfid; pfd_off := 0 |}]> (d_pfd s) !! j = pfd_off <$> d_pfd s !! j) as Hold.
  { intros j Hj. rewrite lookup_insert_ne; [done|]. intros <-. rewrite Hp in Hj. by destruct Hj. }
  split; simpl; try done.
  - by apply NoDup_cons.
  - intros j. rewrite elem_of_cons, I2, lookup_insert_is_Some'. split; [intros [->|[? ?]]; (split; [auto|apply not_elem_of_nil])|]. intros [[<-|?] ?]; auto.
  - intros j. rewrite !lookup_insert_is_Some'. intros [?|?]; [by left|right; auto].
  - intros i j f g Hi Hj Hf Hg Hn. apply elem_of_cons in Hi as [->|Hi], Hj as [->|Hj]; [done| | |].
    + rewrite lookup_insert_eq in Hf. injection Hf as <-. rewrite lookup_insert_ne in Hg by congruence. destruct (Hne j Hj g Hg). done.
    + rewrite lookup_insert_eq in Hg. injection Hg as <-. rewrite lookup_insert_ne in Hf by congruence. destruct (Hne i Hi f Hf). done.
    + rewrite lookup_insert_ne in Hf, Hg by congruence. by apply (I4 i j f g).
  - intros j. rewrite elem_of_app, list_elem_of_singleton, I5, lookup_insert_Some. split; [intros [Hj| ->]; [right; split; [congruence|done]|by left]|]. intros [[<- _]|[_ ?]]; auto.
  - intros p g Hg. destruct (I8 p g Hg) as [G1 G2 G3 G4 G5 G6 G7]. split; try done; [intros l j Hl Hj; destruct (G3 l j Hl Hj); auto|].
    apply (next_keep (d_pfd s)); [|done]. intros j Hj. simpl. apply Hold. apply (I12 p j). left. by exists g.
  - intros j p [[_ ?]|[_ Hj]]%lookup_insert_Some; [done|]. by apply I9.
  - intros k p st Hk. destruct (I10 k p st Hk) as (g & Hg & Hr). exists g. split; [done|]. destruct st as [|l b m e|]; simpl in *; try done. destruct Hr as (? & ? & Hr & Hnx).
    split_and!; try done; [intros j Hj; destruct (Hr j Hj); auto|]. apply (next_keep (d_pfd s)); [|done]. intros j Hj. apply Hold. apply (I12 p j). right. exists l, b. split; [by exists k, m, e|done].
  - intros p j Hb. change (in_base s p j) in Hb. destruct (I12 p j Hb) as (H1 & H2 & H3). assert (j ≠ d_next s) by (intros ->; rewrite Hp in H1; by destruct H1).
    split_and!; [by rewrite lookup_insert_ne|intros o; rewrite lookup_insert_ne by done; apply H2|]. intros q Hq. by apply H3.
  - intros j [Hj|Hj]; [|specialize (I13 j (or_intror Hj)); lia]. rewrite lookup_insert_is_Some' in Hj. destruct Hj as [<-|Hj]; [lia|]. specialize (I13 j (or_introl Hj)). lia.
Qed.
Lemma added_has s n cfid m i : dinv s [] → has (added s n cfid) m i ↔ (m = n ∧ i = cfid) ∨ has s m i.
Proof.
  intros I. destruct (fresh_dce s [] I) as [Hd Hp]. unfold has, added. simpl. split.
  - intros (j & f & [->|Hj]%elem_of_cons & Hf & <- & <-); [rewrite lookup_insert_eq in Hf; injection Hf as <-; by left|]. right. exists j, f.
    rewrite lookup_insert_ne in Hf; [done|]. intros <-. apply (di_in _ _ I) in Hj as [Hj _]. rewrite Hd in Hj. by destruct Hj.
  - intros [[-> ->]|(j & f & Hj & Hf & <- & <-)].
    + eexists (d_next s), _. rewrite lookup_insert_eq. split_and!; [by left|done|done|done].
    + exists j, f. rewrite lookup_insert_ne by congruence. split_and!; [by right|done|done|done].
Qed.

(** ** The cache of names is a map *)
Definition nc_spec (op : ncop) (n : name) (cfid : Z) (F : name → option Z) (m : name) : option Z :=
  if decide (m = n) then
    match op, F n with
    | NcPeek, o => o
    | NcDelete, _ => None
    | NcClobber, _ => Some cfid
    | NcInsert, o => Some (default cfid o)
    | NcUpdate, Some _ => Some cfid
    | NcUpdate, None => None
    end
  else F m.
Lemma nc_upd s s' L n o : dinv s L → dinv s' L → (∀ m i, has s' m i ↔ if decide (m = n) then o = Some i else has s m i) →
  ∀ m, nc s' m = if decide (m = n) then o else nc s m.
Proof.
  intros I I' Hh m. specialize (Hh m). case_decide as Hm.
  - destruct o as [i|]; [by apply (nc_has s' L m i I'), Hh|]. apply (nc_none s' L m I'). intros i Hi%Hh. done.
  - by apply (nc_eq s s' L L).
Qed.
Section names.
Context `{PflDynLaws}.

Definition fid_ok (s : dirc) : Prop := d_fid s = SLFID_ROOT ∨ SLFID_MIN ≤ d_fid s.
Definition all_settled (s : dirc) (n : name) : Prop := ∀ id f, id ∈ d_hash s → d_pfd s !! id = Some f → pfd_name f = n → settled s id.
Lemma find_cases s n : dinv s [] →
  (∃ id f, hash_find n s = Done (Some id, s) ∧ id ∈ d_hash s ∧ d_pfd s !! id = Some f ∧ pfd_name f = n ∧ nc s n = Some (pfd_ino f)) ∨
  (hash_find n s = Done (None, s) ∧ nc s n = None ∧ ∀ i, ¬ has s n i).
Proof.
  intros I. unfold hash_find. destruct (hash_scan_ok (d_pfd s) n (d_hash s)) as [(id & f & Hs & Hi & Hf & Hn)|[Hs Hall]]; [intros id; by apply (hash_valid s [])| |].
  - left. exists id, f. rewrite Hs. split_and!; try done. apply (nc_has s [] n _ I). by exists id, f.
  - right. rewrite Hs. assert (∀ i, ¬ has s n i) as Hno by (intros i (j & g & Hj & Hg & Hn & _); by destruct (Hall j g)). split_and!; [done|by apply (nc_none s [] n I)|done].
Qed.
(** [nc_add], and updates of an entry. *)
Lemma wp_nc_add s n cfid : dinv s [] → (∀ i, ¬ has s n i) → wp (nc_add n cfid) (λ _ s', dinv s' [] ∧ d_fid s' = d_fid s ∧ ∀ m, nc s' m = if decide (m = n) then Some cfid else nc s m) s.
Proof.
  intros I Hno. unfold nc_add. wp_step. destruct (find_cases s n I) as [(id & f & _ & Hi & Hf & Hn & _)|(Hs & _ & _)]; [destruct (Hno (pfd_ino f)); by exists id, f|].
  eapply wp_intro; [exact Hs|]. wp_step. pose proof (dinv_added s n cfid I Hno) as I'. split_and!; [done|done|].
  apply (nc_upd s _ []); [done|done|]. intros m i. rewrite (added_has s n cfid m i I). case_decide as Hm; [subst m|].
  - split; [intros [[_ ->]|Hx]; [done|by destruct (Hno i)]|]. intros [= ->]. by left.
  - split; [intros [[? _]|Hx]; done|by right].
Qed.
Lemma wp_nc_update s id f n cfid : dinv s [] → id ∈ d_hash s → d_pfd s !! id = Some f → pfd_name f = n →
  wp (dircache_ent_update id cfid) (λ _ s', dinv s' [] ∧ d_fid s' = d_fid s ∧ ∀ m, nc s' m = if decide (m = n) then Some cfid else nc s m) s.
Proof.
  intros I Hi Hf <-. unfold dircache_ent_update. wp_step. eapply wp_intro; [unfold getPfd; by rewrite Hf|]. simpl. wp_step. split_and!; [by apply dinv_update|done|].
  apply (nc_upd s _ []); [done|by apply dinv_update|]. intros m i. rewrite (update_has s [] id f cfid m i I Hi Hf). case_decide; [|done]. split; [by intros ->|by intros [= ->]].
Qed.
Lemma wp_namecache s now op n cfid : dinv s [] → fid_ok s → (op = NcDelete → all_settled s n) →
  wp (namecache_lookup now op n cfid) (λ rc s', dinv s' [] ∧ d_fid s' = d_fid s ∧ rc = (match op with NcPeek => default FID_ANY (nc s n) | _ => FID_ANY end) ∧
    ∀ m, nc s' m = nc_spec op n cfid (nc s) m) s.
Proof.
  intros I Hfid Hset. unfold namecache_lookup. wp_step. wp_step. unfold fid_ok, SLFID_ROOT, SLFID_MIN in Hfid. unfold SLFID_NS, SLFID_ROOT, SLFID_MIN.
  destruct (Z.eqb_spec (d_fid s) 2); [lia|]. wp_step. wp_step; [apply orb_true_iff; rewrite Z.eqb_eq, Z.leb_le; lia|]. wp_step.
  assert (∀ m, nc s m = if decide (m = n) then nc s n else nc s m) as Hid by (intros m; by case_decide; [subst|]).
  unfold nc_spec. destruct (find_cases s n I) as [(id & f & Hs & Hi & Hf & Hn & Hnc)|(Hs & Hnc & Hno)]; (eapply wp_intro; [exact Hs|]); rewrite Hnc in *; destruct op.
  - wp_step. eapply wp_mono; [by apply (wp_nc_update s id f n cfid)|]. intros _ s' (? & ? & ?). by wp_step.
  - apply (wp_bind (hash_remove id)).
    assert (wp (_ ← hash_remove id; dircache_ent_zap now id) (λ _ s', dinv s' [] ∧ d_fid s' = d_fid s ∧ ∀ m, nc s' m = if decide (m = n) then None else nc s m) s) as Hz.
    { apply (wp_zap s []); [done|done|by eapply Hset|]. intros s' I' Z. split_and!; [done|apply Z|]. apply (nc_upd s _ []); [done|done|]. intros m i. rewrite (zapped_has s s' [] id f m i I Hi Hf Z), Hn.
      case_decide; [|tauto]. split; [tauto|done]. }
    apply wp_bind_inv in Hz. eapply wp_mono; [exact Hz|]. intros u s1 Hz1. wp_step. eapply wp_mono; [exact Hz1|]. intros _ s2 (? & ? & ?). by wp_step.
  - wp_step. split_and!; done.
  - wp_step. eapply wp_intro; [unfold getPfd; by rewrite Hf|]. simpl. wp_step. split_and!; done.
  - wp_step. eapply wp_mono; [by apply (wp_nc_update s id f n cfid)|]. intros _ s' (? & ? & ?). by wp_step.
  - wp_step. eapply wp_mono; [by apply (wp_nc_add s n cfid)|]. intros _ s' (? & ? & ?). by wp_step.
  - wp_step. split_and!; done.
  - wp_step. eapply wp_mono; [by apply (wp_nc_add s n cfid)|]. intros _ s' (? & ? & ?). by wp_step.
  - wp_step. split_and!; done.
  - wp_step. split_and!; done.
Qed.
End names.

(** ** Pages that go *)
Record freed (s s' : dirc) (p : nat) : Prop := {
  fr_pages : d_pages s' = filter (λ x, x ≠ p) (d_pages s);
  fr_pg : d_pg s' = delete p (d_pg s);
  fr_rpcs : d_rpcs s' = d_rpcs s;
  fr_next : d_next s' = d_next s;
  fr_fid : d_fid s' = d_fid s;
  fr_ents : d_ents s' = d_ents s;
  fr_attr : d_gen s' = d_gen s ∧ d_mtim s' = d_mtim s;
  fr_has : ∀ n i, has s' n i → has s n i;
}.
Lemma del_all {A} (m : gmap nat A) l j : foldr delete m l !! j = if decide (j ∈ l) then None else m !! j.
Proof.
  induction l as [|x l IH]; simpl; [done|]. destruct (decide (j = x)) as [->|Hne].
  - rewrite lookup_delete_eq, decide_True; [done|by left].
  - rewrite lookup_delete_ne, IH by done. destruct (decide (j ∈ l)); [rewrite decide_True; [done|by right]|rewrite decide_False; [done|by rewrite elem_of_cons; intros [?|?]]].
Qed.
Lemma free_dents_run l s : free_dents l s = Done (tt, d_names s (filter (λ x, x ∉ l) (d_hash s)) (d_ents s) (foldr delete (d_dce s) (reverse l)) (d_pfd s)).
Proof.
  revert s. induction l as [|id l IH]; intros s.
  - simpl. rewrite filter_all; [by destruct s|]. intros x _. apply not_elem_of_nil.
  - apply wp_eq. simpl. wp_step. unfold hash_remove. wp_step. wp_step. wp_step. eapply wp_intro; [apply IH|]. split; [done|]. unfold d_names, d_set_hash. simpl. f_equal.
    + rewrite list_filter_filter. apply list_filter_iff. intros x. rewrite not_elem_of_cons. tauto.
    + by rewrite reverse_cons, foldr_app.
Qed.
Definition freed_page (s : dirc) (p : nat) (g : dircache_page) : dirc :=
  let l := default [] (dcp_dents_off g) in
  d_list (d_names s (filter (λ x, x ∉ l) (d_hash s)) (d_ents s) (foldr delete (d_dce s) (reverse l)) (foldr delete (d_pfd s) (dcp_base g)))
    (filter (λ x, x ≠ p) (d_pages s)) (delete p (d_pg s)) (d_rpcs s) (d_next s).
Lemma dinv_freed s p g : dinv s [] → d_pg s !! p = Some g → dcp_refcnt g = 0 → dinv (freed_page s p g) [].
Proof.
  intros [I1 I2 I3 I4 I5 I6 I7 I8 I9 I10 I11 I12 I13] Hg Hz. destruct (I8 p g Hg) as [G1 [[_ Hno]|[? _]] G3 G4 G5 G6 G7]; [|lia].
  set (l := default [] (dcp_dents_off g)).
  assert (∀ j, j ∈ l → d_dce s !! j = Some (Some p) ∧ j ∈ dcp_base g) as Hl. { intros j Hj. unfold l in Hj. destruct (dcp_dents_off g) as [l'|] eqn:E; [by apply (G3 l')|by apply elem_of_nil in Hj]. }
  assert (∀ j, foldr delete (d_dce s) (reverse l) !! j = if decide (j ∈ l) then None else d_dce s !! j) as Hdce.
  { intros j. rewrite del_all. destruct (decide (j ∈ l)) as [Hj|Hj]; [by rewrite decide_True by (by apply elem_of_reverse)|by rewrite decide_False by (by rewrite elem_of_reverse)]. }
  assert (∀ j, foldr delete (d_dce s) (reverse l) !! j ≠ Some (Some p)) as Hgone.
  { intros j. rewrite Hdce. case_decide as Hj; [done|]. intros Hx. destruct (I9 j p Hx) as [(g' & l' & Hg' & Hl' & Hin)|(l' & b & (k & n & e & Hk) & _)]; [|apply Hno; by exists k, (RdReg l' b n e)].
    assert (g' = g) as -> by congruence. apply Hj. unfold l. by rewrite Hl'. }
  assert (∀ j o, d_dce s !! j = Some o → o ≠ Some p → foldr delete (d_dce s) (reverse l) !! j = Some o) as Hkeep.
  { intros j o Hj Ho. rewrite Hdce, decide_False; [done|]. intros Hx. destruct (Hl j Hx). congruence. }
  assert (∀ j q, in_base (freed_page s p g) q j → in_base s q j ∧ q ≠ p) as Hb.
  { intros j q [(g' & Hq & Hj)|(l' & b & Hr & Hj)]; [simpl in Hq; apply lookup_delete_Some in Hq as [? Hq]; split; [left; by exists g'|done]|].
    split; [right; by exists l', b|]. intros ->. destruct Hr as (k & n & e & Hk). apply Hno. by exists k, (RdReg l' b n e). }
  assert (∀ j, is_Some (d_pfd s !! j) → j ∉ dcp_base g → is_Some (foldr delete (d_pfd s) (dcp_base g) !! j)) as Hpfd by (intros j Hj Hn; by rewrite del_all, decide_False).
  assert (∀ j, j ∈ dcp_base g → ∀ o, d_dce s !! j = Some o → o = Some p) as Hbp by (intros j Hj; apply I12; left; by exists g).
  assert (∀ q j, in_base s q j → q ≠ p → pfd_off <$> foldr delete (d_pfd s) (dcp_base g) !! j = pfd_off <$> d_pfd s !! j) as Hoth.
  { intros q j Hj Hq. rewrite del_all, decide_False; [done|]. intros Hx. apply Hq. symmetry. apply (I12 q j Hj). left. by exists g. }
  split; simpl; fold l; try done.
  - by apply NoDup_filter.
  - intros j. rewrite list_elem_of_filter, I2, Hdce. case_decide; [split; [tauto|intros [[? ?] _]; done]|tauto].
  - intros j [o Hj]. assert (d_dce s !! j = Some o) as Hj' by (rewrite Hdce in Hj; by case_decide). apply Hpfd; [apply I3; by exists o|].
    intros Hx. specialize (Hbp j Hx o Hj') as ->. by apply (Hgone j).
  - intros i j f h Hi Hj Hf Hh. apply list_elem_of_filter in Hi as [_ Hi], Hj as [_ Hj]. rewrite del_all in Hf, Hh. do 2 case_decide; try done. by apply I4.
  - intros j. rewrite I5. split; [intros Hj; by apply Hkeep|]. rewrite Hdce. by case_decide.
  - by apply NoDup_filter.
  - intros q. rewrite list_elem_of_filter, I7, lookup_delete_is_Some. naive_solver.
  - intros q g' Hq. apply lookup_delete_Some in Hq as [Hne Hq]. destruct (I8 q g' Hq) as [K1 K2 K3 K4 K5 K6 K7]. split; try done; [intros l' j Hl' Hj; destruct (K3 l' j Hl' Hj) as [Hd ?]; split; [simpl; apply Hkeep; [done|congruence]|done]|].
    apply (next_keep (d_pfd s)); [|done]. intros j Hj. apply (Hoth q j); [left; by exists g'|done].
  - intros j q Hj. assert (q ≠ p) as Hq by (intros ->; by apply (Hgone j)). assert (d_dce s !! j = Some (Some q)) as Hj' by (rewrite Hdce in Hj; by case_decide).
    destruct (I9 j q Hj') as [(g' & l' & Hg' & ? & ?)|?]; [left; exists g', l'; by rewrite lookup_delete_ne|by right].
  - intros k q st Hk. assert (q ≠ p) as Hq by (intros ->; apply Hno; by exists k, st). destruct (I10 k q st Hk) as (g' & Hg' & Hr). exists g'. rewrite lookup_delete_ne by done. split; [done|].
    destruct st as [|l' b n e|]; simpl in *; try done. destruct Hr as (? & ? & Hr & Hnx). split_and!; try done; [intros j Hj; destruct (Hr j Hj); split; [apply Hkeep; [done|congruence]|done]|].
    apply (next_keep (d_pfd s)); [|done]. intros j Hj. apply (Hoth q j); [|done]. right. exists l', b. split; [by exists k, n, e|done].
  - intros q j Hj. destruct (Hb j q Hj) as [Hj' Hne]. destruct (I12 q j Hj') as (H1 & H2 & H3). split_and!.
    + apply Hpfd; [done|]. intros Hx. apply Hne. symmetry. apply H3. left. by exists g.
    + intros o. rewrite Hdce. case_decide; [done|]. apply H2.
    + intros q' Hq'. apply H3. by destruct (Hb j q' Hq').
  - intros j [Hj|[Hj|Hj]]; apply I13; [left|right; left|auto].
    + rewrite del_all in Hj. by case_decide; [destruct Hj|].
    + rewrite lookup_delete_is_Some in Hj. tauto.
Qed.
Lemma freed_page_freed s p g : dinv s [] → d_pg s !! p = Some g → freed s (freed_page s p g) p.
Proof.
  intros I Hg. split; try done. intros n i (j & f & Hj & Hf & ? & ?). simpl in Hj, Hf. apply list_elem_of_filter in Hj as [_ Hj]. rewrite del_all in Hf. case_decide; [done|]. by exists j, f.
Qed.
(** [dircache_free_page] waits for readers, and frees the page. *)
Lemma wpb_free_page s p g wait (Q : Z → dirc → Prop) : dinv s [] → d_pg s !! p = Some g →
  (dcp_refcnt g ≠ 0 → wait = false → Q 0 s) → (∀ s', dcp_refcnt g = 0 → dinv s' [] → freed s s' p → Q 1 s') → wpb (dircache_free_page p wait) Q s.
Proof.
  intros I Hg H0 H1. pose proof (di_page _ _ I p g Hg) as [G1 _ _ _ _ _ _]. unfold dircache_free_page. wb_step. eapply wpb_of, wp_intro; [unfold getDp; by rewrite Hg|]. rewrite G1.
  destruct (Z.eqb_spec (dcp_refcnt g) 0) as [Hz|Hz].
  - simpl. unfold setDp. wb_step. wb_step. wb_step. wb_step. wb_step. eapply wpb_of, wp_intro; [apply free_dents_run|]. wb_step. wb_step. wb_step. wb_step. wb_step.
    assert (freed_page s p g = d_list (d_set_pfd (d_names (d_set_pg s (<[p := pg_flags g (setf (dcp_flags g) DIRCACHEPGF_FREEING)]> (d_pg s))) (filter (λ x, x ∉ default [] (dcp_dents_off g)) (d_hash s)) (d_ents s)
      (foldr delete (d_dce s) (reverse (default [] (dcp_dents_off g)))) (d_pfd s)) (foldr delete (d_pfd s) (dcp_base g))) (filter (λ x, x ≠ p) (d_pages s))
      (delete p (<[p := pg_flags g (setf (dcp_flags g) DIRCACHEPGF_FREEING)]> (d_pg s))) (d_rpcs s) (d_next s)) as He by (unfold freed_page, d_list; simpl; f_equal; by rewrite delete_insert_eq).
    simpl in He |- *. rewrite <-He. apply H1; [done|by apply dinv_freed|by apply freed_page_freed].
  - destruct wait; simpl; [unfold setDp; wb_step; wb_step; wb_step; wb_step; done|]. wb_step. by apply H0.
Qed.

(** ** Pages that come *)
Record forgets (s s' : dirc) : Prop := {
  fg_rpcs : d_rpcs s' = d_rpcs s;
  fg_next : d_next s' = d_next s;
  fg_fid : d_fid s' = d_fid s;
  fg_has : ∀ n i, has s' n i → has s n i;
}.
#[global] Instance forgets_preorder : PreOrder forgets.
Proof. split; [done|]. intros s1 s2 s3 [A1 A2 A3 A4] [B1 B2 B3 B4]. split; [congruence|congruence|congruence|auto]. Qed.
Lemma freed_forgets s s' p : freed s s' p → forgets s s'.
Proof. by intros [? ? ? ? ? ? ? ?]. Qed.
Lemma forgets_nc s s' n : dinv s [] → dinv s' [] → forgets s s' → nc s' n = nc s n ∨ nc s' n = None.
Proof.
  intros I I' [_ _ _ Hf]. destruct (nc s' n) as [i|] eqn:Hn; [left|by right]. symmetry. apply (nc_has s [] n i I), Hf, (nc_has s' [] n i I'). done.
Qed.
Lemma offs_of_run m l : (∀ id, id ∈ l → is_Some (m !! id)) → ∃ r, offs_of m l = Done r ∧ ∀ o, o ∈ r → ∃ id f, id ∈ l ∧ m !! id = Some f ∧ pfd_off f = o.
Proof.
  induction l as [|id l IH]; intros Hm; simpl; [exists []; split; [done|]; intros o Ho; by apply elem_of_nil in Ho|]. destruct (Hm id ltac:(by left)) as [f Hf]. rewrite Hf.
  destruct (IH ltac:(intros; apply Hm; by right)) as (r & -> & Hr). exists (pfd_off f :: r). split; [done|]. intros o [->|Ho]%elem_of_cons.
  - exists id, f. split_and!; [by left|done|done].
  - destruct (Hr o Ho) as (j & g & ? & ? & ?). exists j, g. split_and!; [by right|done|done].
Qed.
Section pages.
Context `{PflDynLaws}.

Lemma dents_valid s p g l id : dinv s [] → d_pg s !! p = Some g → dcp_dents_off g = Some l → id ∈ l → is_Some (d_pfd s !! id).
Proof. intros I Hg Hl Hi. apply (di_pfd _ _ I). destruct (go_dents _ _ _ (di_page _ _ I p g Hg) l id Hl Hi) as [-> _]. done. Qed.
Lemma wp_hasoff s p g off : dinv s [] → d_pg s !! p = Some g → loading g = false →
  wp (dircache_hasoff g off) (λ h s', s' = s ∧ (h = true → dcp_rc g = 0 → off = dcp_off g ∨
    (off ≠ dcp_nextoff g ∧ ∃ l id f, dcp_dents_off g = Some l ∧ id ∈ l ∧ d_pfd s !! id = Some f ∧ pfd_off f = off))) s.
Proof.
  intros I Hg Hl. unfold dircache_hasoff. destruct (Z.eqb_spec off (dcp_off g)) as [Ho|Ho]; [wp_step; by auto|]. destruct (Z.eqb_spec (dcp_rc g) 0) as [Hrc|Hrc]; simpl; [|by wp_step].
  destruct (Z.eqb_spec off (dcp_nextoff g)) as [Hn|Hn]; [by wp_step|]. destruct (go_ready _ _ _ (di_page _ _ I p g Hg) Hl Hrc) as [l Hd]. rewrite Hd. wp_step.
  destruct (offs_of_run (d_pfd s) l) as (r & Hr & Hin); [intros id Hi; by apply (dents_valid s p g l)|]. eapply wp_intro; [unfold offsM; by rewrite Hr|]. wp_step. split; [done|].
  destruct (r !! dyn_bsearch off r) as [o|] eqn:Hb; [|done]. intros ->%Z.eqb_eq _. right. split; [done|]. destruct (Hin off) as (id & f & ? & ? & ?); [by eapply list_elem_of_lookup_2|]. by exists l, id, f.
Qed.
Definition listed_ok (s : dirc) (l : list nat) : Prop := NoDup l ∧ ∀ p, p ∈ l → is_Some (d_pg s !! p).
Lemma listed_freed s s' p l : freed s s' p → listed_ok s (p :: l) → listed_ok s' l.
Proof. intros [_ Hpg _ _ _ _ _ _] [[Hn Hd]%NoDup_cons Hl]. split; [done|]. intros q Hq. rewrite Hpg, lookup_delete_ne by congruence. apply Hl. by right. Qed.
Lemma listed_tail s p l : listed_ok s (p :: l) → listed_ok s l.
Proof. intros [[_ Hd]%NoDup_cons Hl]. split; [done|]. intros q Hq. apply Hl. by right. Qed.
Lemma wpb_newpage_scan now off wait l s : dinv s [] → listed_ok s l → wpb (newpage_scan now off wait l) (λ _ s', dinv s' [] ∧ forgets s s') s.
Proof.
  revert s. induction l as [|p l IH]; intros s I Hl; simpl; [wb_step; by split|].
  assert (∀ s', dinv s' [] → forgets s s' → listed_ok s' l → wpb (newpage_scan now off wait l) (λ _ s2, dinv s2 [] ∧ forgets s s2) s') as Hrec.
  { intros s' I' F Hl'. eapply wpb_mono; [by apply IH|]. intros _ s2 [? F2]. split; [done|]. by transitivity s'. }
  destruct (proj2 Hl p ltac:(by left)) as [g Hg]. wb_step. eapply wpb_of, wp_intro; [unfold getDp; by rewrite Hg|]. wb_step. wb_step. wb_step.
  { wb_step; [wb_step; by split|]. destruct wait; [wb_step|]. apply Hrec; [done|done|by eapply listed_tail]. }
  wb_step.
  { wb_step. apply (wpb_free_page s p g); [done|done|done|]. intros s' _ I' F. apply Hrec; [done|by eapply freed_forgets|by eapply listed_freed]. }
  wb_step. eapply wpb_of, wp_mono; [by apply (wp_hasoff s p g)|]. intros h s' [-> _]. destruct h; [|apply Hrec; [done|done|by eapply listed_tail]].
  destruct wait; wb_step; (apply (wpb_free_page s p g); [done|done| |]).
  - done.
  - intros s' _ I' F. wb_step. split; [done|by eapply freed_forgets].
  - intros _ _. wb_step. by split.
  - intros s' _ I' F. wb_step. split; [done|by eapply freed_forgets].
Qed.
Definition new_pg (off : Z) : dircache_page :=
  {| dcp_flags := DIRCACHEPGF_LOADING; dcp_rc := 0; dcp_off := off; dcp_nextoff := 0; dcp_local_tm := 0; dcp_remote_tm := 0; dcp_dents_off := None; dcp_base := []; dcp_dirgen := 0; dcp_refcnt := 1 |}.
Lemma dinv_issued s off : dinv s [] →
  dinv (d_list s (d_pages s ++ [d_next s]) (<[d_next s := new_pg off]> (d_pg s)) (<[S (d_next s) := (d_next s, RdSent)]> (d_rpcs s)) (S (S (d_next s)))) [].
Proof.
  intros [I1 I2 I3 I4 I5 I6 I7 I8 I9 I10 I11 I12 I13]. set (p := d_next s).
  assert (d_pg s !! p = None) as Hp. { apply eq_None_not_Some. intros Hx. specialize (I13 p (or_intror (or_introl Hx))). unfold p in *. lia. }
  assert (d_rpcs s !! S p = None) as Hk. { apply eq_None_not_Some. intros Hx. specialize (I13 (S p) (or_intror (or_intror Hx))). unfold p in *. lia. }
  assert (∀ k st, d_rpcs s !! k ≠ Some (p, st)) as Hnp by (intros k st Hx; destruct (I10 k p st Hx) as (g & Hg & _); congruence).
  assert (∀ k v, d_rpcs s !! k = Some v → <[S p := (p, RdSent)]> (d_rpcs s) !! k = Some v) as Hkeep by (intros k v Hx; rewrite lookup_insert_ne; [done|congruence]).
  set (s' := d_list s _ _ _ _).
  assert (∀ q l b, reg_of s' q l b → reg_of s q l b) as Hreg. { intros q l b (k & n & e & Hx). unfold s' in Hx. simpl in Hx. apply lookup_insert_Some in Hx as [[_ ?]|[_ Hx]]; [done|]. by exists k, n, e. }
  assert (∀ q j, in_base s' q j → in_base s q j) as Hb.
  { intros q j [(g & Hq & Hj)|(l & b & Hr & Hj)]; [|right; exists l, b; auto]. unfold s' in Hq. simpl in Hq. apply lookup_insert_Some in Hq as [[<- <-]|[_ Hq]]; [by apply elem_of_nil in Hj|left; by exists g]. }
  split; simpl; try done.
  - apply NoDup_app. split_and!; [done| |apply NoDup_singleton]. intros q Hq ->%list_elem_of_singleton. apply I7 in Hq as [? ?]. congruence.
  - intros q. rewrite elem_of_app, list_elem_of_singleton, I7, lookup_insert_is_Some'. naive_solver.
  - intros q g Hq. apply lookup_insert_Some in Hq as [[<- <-]|[Hne Hq]].
    + split; simpl; try done. { right. split; [done|]. exists (S p), RdSent. simpl. by rewrite lookup_insert_eq. } intros _. exists (S p), RdSent. simpl. by rewrite lookup_insert_eq.
    + destruct (I8 q g Hq) as [G1 G2 G3 G4 G5 G6 G7]. assert (on_page s' q ↔ on_page s q) as Hon.
      { split; [intros (k & st & Hx); unfold s' in Hx; simpl in Hx; apply lookup_insert_Some in Hx as [[_ [= ? _]]|[_ Hx]]; [done|by exists k, st]|]. intros (k & st & Hx). exists k, st. by apply Hkeep. }
      split; try done; [by rewrite Hon|]. intros Hl. by apply Hon, G5.
  - intros j q Hj. destruct (I9 j q Hj) as [(g & l & Hg & ? & ?)|(l & b & (k & n & e & Hx) & ?)]; [left; exists g, l; rewrite lookup_insert_ne by congruence; done|]. right. exists l, b. split; [|done]. exists k, n, e. by apply Hkeep.
  - intros k q st [[_ [= <- <-]]|[_ Hx]]%lookup_insert_Some; [exists (new_pg off); by rewrite lookup_insert_eq|]. destruct (I10 k q st Hx) as (g & Hg & Hr). exists g. rewrite lookup_insert_ne by congruence. by split.
  - intros k k' q st st' Hx Hy. apply lookup_insert_Some in Hx as [[<- Hx]|[Hk1 Hx]], Hy as [[<- Hy]|[Hk2 Hy]]; try done; [injection Hx as <- <-|injection Hy as <- <-|].
    + by destruct (Hnp k' st').
    + by destruct (Hnp k st).
    + by apply (I11 k k' q st st').
  - intros q j Hj. destruct (I12 q j (Hb q j Hj)) as (? & ? & H3). split_and!; [done|done|]. intros q' Hq'. by apply H3, Hb.
  - intros j. rewrite !lookup_insert_is_Some'. intros [Hj|[[<-|Hj]|[<-|Hj]]]; try lia; [specialize (I13 j (or_introl Hj))|specialize (I13 j (or_intror (or_introl Hj)))|specialize (I13 j (or_intror (or_intror Hj)))]; unfold p; lia.
Qed.
Lemma wpb_issue now off wait rc s : dinv s [] →
  wpb (msl_readdir_issue now off wait rc) (λ r s', dinv s' [] ∧ d_fid s' = d_fid s ∧ (∀ n i, has s' n i → has s n i) ∧ (rc = 0 ∨ r = - ESRCH)) s.
Proof.
  intros I. unfold msl_readdir_issue, dircache_new_page. wb_step. wb_step. wb_step. wb_step.
  eapply wpb_mono; [apply wpb_newpage_scan; [done|]; split; [apply I|]; intros p Hp; by apply (di_pages _ _ I)|]. intros go s1 [I1 [F1 F2 F3 F4]]. destruct go; [|wb_step; wb_step; split_and!; auto].
  wb_step. wb_step. wb_step. wb_step. wb_step. wb_step.
  - wb_step. wb_step. wb_step. apply Z.eqb_eq in Heqb. split_and!; [exact (dinv_issued s1 off I1)|done|done|by left].
  - wb_step. unfold dircache_free_page. wb_step. eapply wpb_of, wp_intro; [unfold getDp; simpl; by rewrite lookup_insert_eq|]. simpl. unfold setDp. wb_step. wb_step. wb_step. wb_step.
Qed.

(** A step of the READDIR of a page: the page changes, and the RPC is over or in
    its next state. *)
Definition turn (s : dirc) (k p : nat) (g' : dircache_page) (r' : option rdstate) : dirc :=
  d_set_rpcs (d_set_pg s (<[p := g']> (d_pg s))) (match r' with Some st => <[k := (p, st)]> (d_rpcs s) | None => delete k (d_rpcs s) end).
Record turn_ok (s : dirc) (p : nat) (g' : dircache_page) (r' : option rdstate) : Prop := {
  to_free : hasf (dcp_flags g') DIRCACHEPGF_FREEING = false;
  to_ref : dcp_refcnt g' = match r' with Some _ => 1 | None => 0 end;
  to_dents : ∀ l id, dcp_dents_off g' = Some l → id ∈ l → d_dce s !! id = Some (Some p) ∧ id ∈ dcp_base g';
  to_none : dcp_dents_off g' = None → dcp_base g' = [];
  to_load : loading g' = true → is_Some r';
  to_ready : loading g' = false → dcp_rc g' = 0 → is_Some (dcp_dents_off g');
  to_rpc : ∀ st, r' = Some st → match st with RdReg _ _ _ _ => False | _ => rpc_ok s g' p st end;
  to_own : ∀ id, d_dce s !! id = Some (Some p) → id ∈ default [] (dcp_dents_off g');
  to_base : ∀ id, id ∈ dcp_base g' → in_base s p id;
  to_next : next_is (d_pfd s) (dcp_base g') (dcp_nextoff g');
}.
Lemma dinv_turn s k p st g g' r' : dinv s [] → d_rpcs s !! k = Some (p, st) → d_pg s !! p = Some g → turn_ok s p g' r' → dinv (turn s k p g' r') [].
Proof.
  intros [I1 I2 I3 I4 I5 I6 I7 I8 I9 I10 I11 I12 I13] Hk Hg [T1 T2 T3 T4 T5 T6 T7 T8 T9 T10].
  assert (∀ j q st', d_rpcs (turn s k p g' r') !! j = Some (q, st') ↔ (j = k ∧ q = p ∧ r' = Some st') ∨ (j ≠ k ∧ d_rpcs s !! j = Some (q, st'))) as Hr.
  { intros j q st'. unfold turn. simpl. destruct r' as [st1|]; [rewrite lookup_insert_Some|rewrite lookup_delete_Some]; naive_solver. }
  assert (∀ q, q ≠ p → on_page (turn s k p g' r') q ↔ on_page s q) as Hon.
  { intros q Hq. unfold on_page. setoid_rewrite Hr. split; [naive_solver|]. intros (j & st' & Hj). exists j, st'. right. split; [congruence|done]. }
  assert (on_page (turn s k p g' r') p ↔ is_Some r') as Honp.
  { unfold on_page. setoid_rewrite Hr. split; [intros (j & st' & [(_ & _ & ->)|[Hj Hx]]); [done|by destruct (Hj (I11 j k p st' st Hx Hk))]|]. intros [st' Hx]. exists k, st'. by left. }
  assert (∀ q l b, reg_of (turn s k p g' r') q l b ↔ q ≠ p ∧ reg_of s q l b) as Hreg.
  { intros q l b. unfold reg_of. setoid_rewrite Hr. split.
    - intros (j & n & e & [(_ & _ & Hx)|[Hj Hx]]); [by apply T7 in Hx|]. split; [|by exists j, n, e]. intros ->. by destruct (Hj (I11 j k p _ st Hx Hk)).
    - intros [Hq (j & n & e & Hx)]. exists j, n, e. right. split; [congruence|done]. }
  assert (∀ q j, in_base (turn s k p g' r') q j → in_base s q j) as Hb.
  { intros q j [(h & Hq & Hj)|(l & b & [_ Hx]%Hreg & Hj)]; [|right; by exists l, b]. unfold turn in Hq. simpl in Hq. apply lookup_insert_Some in Hq as [[<- <-]|[_ Hq]]; [by apply T9|left; by exists h]. }
  split; try done.
  - intros q. simpl. rewrite I7, lookup_insert_is_Some'. split; [by right|]. intros [<-|?]; [by exists g|done].
  - intros q h Hq. simpl in Hq. apply lookup_insert_Some in Hq as [[<- <-]|[Hne Hq]].
    + split; try done; rewrite Honp; [|done]. rewrite T2. destruct r'; [right; by split|left; split; [done|by intros [? ?]]].
    + destruct (I8 q h Hq) as [G1 G2 G3 G4 G5 G6 G7]. split; try done; by rewrite (Hon q).
  - intros j q Hj. simpl in Hj. destruct (decide (q = p)) as [->|Hq].
    + left. specialize (T8 j Hj). destruct (dcp_dents_off g') as [l|] eqn:Hl; [|by apply elem_of_nil in T8]. exists g', l. simpl. by rewrite lookup_insert_eq.
    + destruct (I9 j q Hj) as [(h & l & Hh & ? & ?)|(l & b & Hx & ?)]; [left; exists h, l; simpl; by rewrite lookup_insert_ne|right; exists l, b; by rewrite Hreg].
  - intros j q st' [(-> & -> & Hx)|[Hj Hx]]%Hr.
    + exists g'. simpl. rewrite lookup_insert_eq. split; [done|]. specialize (T7 st' Hx). by destruct st'.
    + assert (q ≠ p) by (intros ->; by destruct (Hj (I11 j k p st' st Hx Hk))). destruct (I10 j q st' Hx) as (h & Hh & Hok). exists h. simpl. by rewrite lookup_insert_ne.
  - intros j j' q st1 st2 [(-> & -> & H1)|[H1 H1']]%Hr [(-> & ? & H2)|[H2 H2']]%Hr; [done| | |by apply (I11 j j' q st1 st2)].
    + symmetry. by apply (I11 j' k p st2 st).
    + subst q. by apply (I11 j k p st1 st).
  - intros q j Hj. destruct (I12 q j (Hb q j Hj)) as (? & ? & H3). split_and!; [done|done|]. intros q' Hq'. by apply H3, Hb.
  - intros j [Hj|[Hj|[[q st'] Hj]]]; apply I13; [by left|right; left|right; right].
    + simpl in Hj. rewrite lookup_insert_is_Some' in Hj. destruct Hj as [<-|Hj]; [by exists g|done].
    + apply Hr in Hj as [(-> & _ & _)|[_ Hj]]; [by exists (p, st)|by exists (q, st')].
Qed.
Lemma turn_names s k p g' r' n i : has (turn s k p g' r') n i ↔ has s n i.
Proof. done. Qed.
End pages.
