(* ===== verification/DirCacheStep.v ===== *)
(** * Steps of READDIR

    Each step of the directory cache against the invariant of [DirCacheInv.v]:
    errors, the registration of the entries of a reply, and what [readdir]
    answers. *)
From S2P Require Import Prelude Replay DirCache DirCacheInv.

(** ** Errors and the end of a READDIR *)
Section turns.
Context `{PflDynLaws}.

Lemma wpb_error s now k rc : dinv s [] → rc ≠ 0 → wpb (msl_readdir_error now k rc) (λ _ s', dinv s' [] ∧ d_fid s' = d_fid s ∧ ∀ n i, has s' n i ↔ has s n i) s.
Proof.
  intros I Hrc. unfold msl_readdir_error. wb_step. wb_step. destruct (d_rpcs s !! k) as [[p [| |]]|] eqn:Hk; [|wb_step|wb_step|wb_step]. destruct (di_rpc _ _ I k p _ Hk) as (g & Hg & Hl & Hn).
  pose proof (di_page _ _ I p g Hg) as [G1 G2 G3 G4 G5 G6 G7]. wb_step. eapply wpb_of, wp_intro; [unfold getDp; by rewrite Hg|]. unfold loading in Hl. simpl. rewrite Hl. unfold setDp. wb_step. wb_step. wb_step.
  destruct G2 as [[_ Hno]|[Hone _]]; [destruct Hno; by exists k, RdSent|]. split_and!; [|done|done].
  apply (dinv_turn s k p RdSent g (pg_set (pg_ref g (dcp_refcnt g - 1)) (clrf (dcp_flags g) DIRCACHEPGF_LOADING) rc (dcp_nextoff g) now (d_mtim s) (dcp_dents_off g) (dcp_base g) (dcp_dirgen g) (dcp_refcnt g - 1)) None); [done|done|done|].
  split; simpl; try done.
  - flags_goal. done.
  - rewrite Hone. done.
  - unfold loading. simpl. flags_goal. done.
  - intros id Hid. exfalso. destruct (di_own _ _ I id p Hid) as [(g' & l & Hg' & Hl' & _)|(l & b & (k' & n & e & Hk') & _)]; [congruence|].
    assert (k' = k) as -> by (by eapply (di_one _ _ I)). congruence.
  - intros id Hid. left. by exists g.
Qed.
Lemma wpb_reg_end s now k : dinv s [] → wpb (reg_end now k) (λ _ s', dinv s' [] ∧ d_fid s' = d_fid s ∧ ∀ n i, has s' n i ↔ has s n i) s.
Proof.
  intros I. unfold reg_end. wb_step. wb_step. destruct (d_rpcs s !! k) as [[p [|l b no e|]]|] eqn:Hk; [wb_step| |wb_step|wb_step]. destruct (di_rpc _ _ I k p _ Hk) as (g & Hg & Hl & Hn & Hr & Hnx).
  pose proof (di_page _ _ I p g Hg) as [G1 G2 G3 G4 G5 G6 G7]. wb_step. eapply wpb_of, wp_intro; [unfold getDp; by rewrite Hg|]. wb_step. wb_step; [by apply bool_decide_eq_true|]. unfold setDp. wb_step. wb_step. wb_step.
  destruct G2 as [[_ Hno]|[Hone _]]; [destruct Hno; by exists k, (RdReg l b no e)|]. split_and!; [|done|done].
  apply (dinv_turn s k p (RdReg l b no e) g (pg_set g (if e then setf (clrf (dcp_flags g) DIRCACHEPGF_LOADING) DIRCACHEPGF_EOF else clrf (dcp_flags g) DIRCACHEPGF_LOADING) (dcp_rc g) no now (d_mtim s) (Some l) b (d_gen s) (dcp_refcnt g)) (Some RdDone)); [done|done|done|].
  split; simpl; try done.
  - destruct e; flags_goal; done.
  - intros l' id [= <-]. apply Hr.
  - intros st [= <-]. split; [|done]. unfold loading. simpl. destruct e; flags_goal; done.
  - intros id Hid. destruct (di_own _ _ I id p Hid) as [(g' & l' & Hg' & Hl' & _)|(l' & b' & (k' & n & e' & Hk') & Hin)]; [congruence|].
    assert (k' = k) as -> by (by eapply (di_one _ _ I)). congruence.
  - intros id Hid. right. exists l, b. split; [by exists k, no, e|done].
Qed.
Lemma wpb_finish s k : dinv s [] → wpb (msl_readdir_finish k false) (λ _ s', dinv s' [] ∧ d_fid s' = d_fid s ∧ ∀ n i, has s' n i ↔ has s n i) s.
Proof.
  intros I. unfold msl_readdir_finish. wb_step. wb_step. destruct (d_rpcs s !! k) as [[p [| |]]|] eqn:Hk; [wb_step|wb_step| |wb_step]. destruct (di_rpc _ _ I k p _ Hk) as (g & Hg & Hl & Hn).
  pose proof (di_page _ _ I p g Hg) as [G1 G2 G3 G4 G5 G6 G7]. wb_step. eapply wpb_of, wp_intro; [unfold getDp; by rewrite Hg|]. unfold setDp. wb_step. wb_step. wb_step.
  destruct G2 as [[_ Hno]|[Hone _]]; [destruct Hno; by exists k, RdDone|]. split_and!; [|done|done].
  apply (dinv_turn s k p RdDone g (pg_ref g (dcp_refcnt g - 1)) None); [done|done|done|]. split; simpl; try done.
  - rewrite Hone. done.
  - change (loading (pg_ref g (dcp_refcnt g - 1))) with (loading g). congruence.
  - intros id Hid. destruct (di_own _ _ I id p Hid) as [(g' & l & Hg' & Hl' & Hin)|(l & b & (k' & n & e & Hk') & _)].
    + assert (g' = g) as -> by congruence. by rewrite Hl'.
    + assert (k' = k) as -> by (by eapply (di_one _ _ I)). congruence.
  - intros id Hid. left. by exists g.
Qed.
End turns.

(** ** Registration *)
Definition between (a n j : nat) : Prop := (a ≤ j < a + n)%nat.
#[global] Instance between_dec a n j : Decision (between a n j).
Proof. unfold between. apply _. Defined.
Lemma reg_alloc_same p l id s : let s' := reg_alloc p l id s in
  d_hash s' = d_hash s ∧ d_ents s' = d_ents s ∧ d_pages s' = d_pages s ∧ d_pg s' = d_pg s ∧ d_rpcs s' = d_rpcs s ∧ d_fid s' = d_fid s ∧ d_next s' = (id + length l)%nat.
Proof.
  revert id s. induction l as [|f l IH]; intros id s; simpl; [by rewrite Nat.add_0_r|]. destruct (IH (S id) (d_names s (d_hash s) (d_ents s) (<[id := Some p]> (d_dce s)) (<[id := f]> (d_pfd s)))) as (-> & -> & -> & -> & -> & -> & ->).
  split_and!; try done. lia.
Qed.
Lemma reg_alloc_maps p l id s j :
  d_dce (reg_alloc p l id s) !! j = (if decide (between id (length l) j) then Some (Some p) else d_dce s !! j) ∧
  d_pfd (reg_alloc p l id s) !! j = (if decide (between id (length l) j) then l !! (j - id)%nat else d_pfd s !! j).
Proof.
  revert id s. induction l as [|f l IH]; intros id s; simpl; [rewrite !decide_False by (unfold between; lia); done|]. destruct (IH (S id) (d_names s (d_hash s) (d_ents s) (<[id := Some p]> (d_dce s)) (<[id := f]> (d_pfd s)))) as [-> ->].
  simpl. destruct (decide (j = id)) as [->|Hj].
  - rewrite !(decide_False (P := between (S id) _ _)) by (unfold between; lia). rewrite !(decide_True (P := between id _ _)) by (unfold between; lia). rewrite !lookup_insert_eq. by rewrite Nat.sub_diag.
  - rewrite !lookup_insert_ne by done. destruct (decide (between (S id) (length l) j)) as [Hb|Hb]; unfold between in *.
    + rewrite !decide_True by lia. split; [done|]. replace (j - id)%nat with (S (j - S id)) by lia. done.
    + rewrite !decide_False by lia. done.
Qed.
Lemma sort_off_perm l : sort_off l ≡ₚ l.*2.
Proof. unfold sort_off. by rewrite merge_sort_Permutation. Qed.
Lemma da_off_in (ents : list pscfs_dirent) a j : j ∈ sort_off (zip (pfd_off <$> ents) (seq a (length ents))) ↔ between a (length ents) j.
Proof. rewrite sort_off_perm, snd_zip by (rewrite length_fmap, length_seq; lia). rewrite list_elem_of_In, in_seq. done. Qed.
Lemma da_off_nodup (ents : list pscfs_dirent) a : NoDup (sort_off (zip (pfd_off <$> ents) (seq a (length ents)))).
Proof. rewrite sort_off_perm, snd_zip by (rewrite length_fmap, length_seq; lia). apply NoDup_ListNoDup, seq_NoDup. Qed.
Lemma last_seq a n id : last (seq a n) = Some id → id = (a + n - 1)%nat ∧ (0 < n)%nat.
Proof.
  rewrite last_lookup, length_seq. destruct n as [|n]; [done|]. intros Hx. change (pred (S n)) with n in Hx. rewrite lookup_seq_lt in Hx by lia. injection Hx as <-. lia.
Qed.
Section registration.
Context `{PflDynLaws}.

Definition reg_start (s : dirc) (k p : nat) (ents : list pscfs_dirent) (no : Z) (eof : bool) : dirc :=
  reg_alloc p ents (d_next s) (d_set_rpcs s (<[k := (p, RdReg (sort_off (zip (pfd_off <$> ents) (seq (d_next s) (length ents)))) (seq (d_next s) (length ents)) no eof)]> (d_rpcs s))).
Lemma dinv_reg_start s k p g ents no eof : dinv s [] → d_rpcs s !! k = Some (p, RdSent) → d_pg s !! p = Some g → (∀ f, last ents = Some f → pfd_off f = no) →
  dinv (reg_start s k p ents no eof) (sort_off (zip (pfd_off <$> ents) (seq (d_next s) (length ents)))).
Proof.
  intros [I1 I2 I3 I4 I5 I6 I7 I8 I9 I10 I11 I12 I13] Hk Hg Hno. set (L := sort_off _). set (s' := reg_start s k p ents no eof).
  set (s1 := d_set_rpcs s (<[k := (p, RdReg L (seq (d_next s) (length ents)) no eof)]> (d_rpcs s))).
  destruct (reg_alloc_same p ents (d_next s) s1) as (Eh & Ee & Ep & Eg & Er & _ & En). change (reg_alloc p ents (d_next s) s1) with s' in *.
  assert (∀ j, d_dce s' !! j = if decide (between (d_next s) (length ents) j) then Some (Some p) else d_dce s !! j) as Ed by (intros j; apply (reg_alloc_maps p ents (d_next s) s1 j)).
  assert (∀ j, d_pfd s' !! j = if decide (between (d_next s) (length ents) j) then ents !! (j - d_next s)%nat else d_pfd s !! j) as Ef by (intros j; apply (reg_alloc_maps p ents (d_next s) s1 j)).
  assert (∀ j, is_Some (d_pfd s !! j) → ¬ between (d_next s) (length ents) j) as Hfr by (intros j Hj Hb; specialize (I13 j (or_introl Hj)); unfold between in Hb; lia).
  assert (∀ j o, d_dce s !! j = Some o → d_dce s' !! j = Some o ∧ ¬ between (d_next s) (length ents) j) as Hkeep.
  { intros j o Hj. assert (¬ between (d_next s) (length ents) j) as Hb by (apply Hfr, I3; by exists o). rewrite Ed, decide_False by done. done. }
  assert (∀ j f, d_pfd s !! j = Some f → d_pfd s' !! j = Some f) as Hkp by (intros j f Hj; rewrite Ef, decide_False; [done|apply Hfr; by exists f]).
  assert (∀ j, between (d_next s) (length ents) j → is_Some (d_pfd s' !! j)) as Hnew by (intros j Hj; rewrite Ef, decide_True by done; apply lookup_lt_is_Some; unfold between in Hj; lia).
  assert (∀ j, j ∈ d_hash s → ¬ between (d_next s) (length ents) j) as Hh by (intros j Hj; apply I2 in Hj as [[o Hj] _]; by apply (Hkeep j o)).
  destruct (I10 k p RdSent Hk) as (g0 & Hg0 & Hld & Hdn). assert (g0 = g) as -> by congruence.
  assert (∀ j, d_dce s !! j ≠ Some (Some p)) as Hnp.
  { intros j Hj. destruct (I9 j p Hj) as [(g' & l & Hg' & Hl & _)|(l & b & (k' & n & e & Hk') & _)]; [congruence|]. assert (k' = k) as -> by (by eapply I11). congruence. }
  assert (∀ j q st, d_rpcs s' !! j = Some (q, st) ↔ (j = k ∧ q = p ∧ st = RdReg L (seq (d_next s) (length ents)) no eof) ∨ (j ≠ k ∧ d_rpcs s !! j = Some (q, st))) as Hr.
  { intros j q st. rewrite Er. unfold s1. simpl. rewrite lookup_insert_Some. naive_solver. }
  assert (∀ q, on_page s' q ↔ on_page s q) as Hon.
  { intros q. unfold on_page. setoid_rewrite Hr. split; [intros (j & st & [(-> & -> & _)|[_ Hj]]); [by exists k, RdSent|by exists j, st]|].
    intros (j & st & Hj). destruct (decide (j = k)) as [->|Hne]; [assert (q = p) as -> by congruence; eexists k, _; left; done|exists j, st; by right]. }
  assert (∀ q l b, reg_of s' q l b ↔ (q = p ∧ l = L ∧ b = seq (d_next s) (length ents)) ∨ reg_of s q l b) as Hreg.
  { intros q l b. unfold reg_of. setoid_rewrite Hr. split; [intros (j & n & e & [(_ & -> & [= -> -> _ _])|[_ Hj]]); [by left|right; by exists j, n, e]|].
    intros [(-> & -> & ->)|(j & n & e & Hj)]; [exists k, no, eof; by left|]. exists j, n, e. right. split; [congruence|done]. }
  assert (∀ q j, in_base s' q j ↔ (q = p ∧ between (d_next s) (length ents) j) ∨ in_base s q j) as Hb.
  { intros q j. unfold in_base. rewrite Eg. change (d_pg s1) with (d_pg s). setoid_rewrite Hreg. split.
    - intros [?|(l & b & [(-> & -> & ->)|Hx] & Hj)]; [right; by left| |right; right; by exists l, b]. left. split; [done|]. by rewrite list_elem_of_In, in_seq in Hj.
    - intros [[-> Hj]|[?|(l & b & Hx & Hj)]]; [right; exists L, (seq (d_next s) (length ents)); split; [by left|by rewrite list_elem_of_In, in_seq]|by left|right; exists l, b; split; [by right|done]]. }
  assert (∀ j, is_Some (d_pfd s !! j) → pfd_off <$> d_pfd s' !! j = pfd_off <$> d_pfd s !! j) as Hoff by (intros j [f Hj]; by rewrite (Hkp j f Hj), Hj).
  change (d_hash s1) with (d_hash s) in Eh. change (d_ents s1) with (d_ents s) in Ee. change (d_pages s1) with (d_pages s) in Ep. change (d_pg s1) with (d_pg s) in Eg.
  split; rewrite ?Eh, ?Ee, ?Ep, ?Eg, ?En; try done.
  - intros j. rewrite I2, Ed. unfold L. rewrite da_off_in. case_decide as Hj; [|split; [by intros [? _]|intros [? _]; split; [done|apply not_elem_of_nil]]]. split; [|tauto]. intros [[o Ho] _]. by destruct (Hkeep j o Ho).
  - intros j. rewrite Ed. case_decide as Hj; [auto|]. intros Hx. destruct (I3 j Hx) as [f Hf]. exists f. by apply Hkp.
  - intros i j f h Hi Hj. rewrite !Ef, !decide_False by auto. by apply I4.
  - intros j. rewrite I5, Ed. case_decide as Hj; [|done]. split; [|done]. intros Hx. by destruct (Hkeep j None Hx).
  - intros q h Hq. destruct (I8 q h Hq) as [G1 G2 G3 G4 G5 G6 G7]. split; try done; rewrite ?Hon; try done; [intros l j Hl Hj; destruct (G3 l j Hl Hj) as [Hd ?]; by destruct (Hkeep j _ Hd)|].
    apply (next_keep (d_pfd s)); [|done]. intros j Hj. apply Hoff. apply (I12 q j). left. by exists h.
  - intros j q. rewrite Ed. case_decide as Hj.
    + intros [= <-]. right. exists L, (seq (d_next s) (length ents)). split; [apply Hreg; by left|by apply da_off_in].
    + intros Hx. destruct (I9 j q Hx) as [?|(l & b & ? & ?)]; [by left|right; exists l, b; split; [apply Hreg; by right|done]].
  - intros j q st [(-> & -> & ->)|[_ Hj]]%Hr.
    + exists g. split; [done|]. split_and!; [done|done|intros id Hid; unfold L in Hid; apply da_off_in in Hid; rewrite Ed, decide_True by done; split; [done|]; by rewrite list_elem_of_In, in_seq|].
      intros id Hid. apply last_seq in Hid as [-> Hpos]. rewrite Ef, decide_True by (unfold between; lia). replace (d_next s + length ents - 1 - d_next s)%nat with (pred (length ents)) by lia. rewrite <-last_lookup.
      destruct (last ents) as [f|] eqn:Hlast; [simpl; f_equal; by apply Hno|]. apply last_None in Hlast. rewrite Hlast in Hpos. simpl in Hpos. lia.
    + destruct (I10 j q st Hj) as (h & Hh' & Hok). exists h. split; [done|]. destruct st; simpl in *; try done. destruct Hok as (? & ? & Hok & Hnx'). split_and!; try done; [intros id Hid; destruct (Hok id Hid) as [Hd ?]; by destruct (Hkeep id _ Hd)|].
      apply (next_keep (d_pfd s)); [|done]. intros id Hid. apply Hoff. apply (I12 q id). right. eexists _, _. split; [by eexists _, _, _|done].
  - intros j j' q st st' [(-> & -> & _)|[H1 H1']]%Hr [(-> & ? & _)|[H2 H2']]%Hr; [done| | |by apply (I11 j j' q st st')].
    + symmetry. by apply (I11 j' k p st' RdSent).
    + subst q. by apply (I11 j k p st RdSent).
  - assert (∀ q j, in_base s q j → ¬ between (d_next s) (length ents) j) as Hold by (intros q j Hj; apply Hfr; by apply (I12 q j)).
    intros q j [[-> Hj]|Hj]%Hb.
    + split_and!; [auto|rewrite Ed, decide_True by done; congruence|]. intros q' [[-> _]|Hq']%Hb; [done|]. by destruct (Hold q' j Hq').
    + pose proof (Hold q j Hj) as Hnb. destruct (I12 q j Hj) as (? & H2 & H3). split_and!; [rewrite Ef, decide_False by done; done|rewrite Ed, decide_False by done; done|]. intros q' [[_ ?]|Hq']%Hb; [done|auto].
  - intros j. rewrite Ef. intros [Hj|[Hj|[[q st] Hj]]].
    + case_decide as Hbj; [unfold between in Hbj; lia|]. specialize (I13 j (or_introl Hj)). lia.
    + specialize (I13 j (or_intror (or_introl Hj))). lia.
    + apply Hr in Hj as [(-> & _ & _)|[_ Hj]]; [assert (k < d_next s)%nat by (apply I13; right; right; by exists (p, RdSent)); lia|]. assert (j < d_next s)%nat by (apply I13; right; right; by exists (q, st)). lia.
Qed.

(** The entries of [l] wait to be put into the hash table: their names differ, and
    an entry with one of the names is of a page that was registered. *)
Record regs (s : dirc) (l : list nat) : Prop := {
  rg_nodup : NoDup l;
  rg_pfd : ∀ id, id ∈ l → is_Some (d_dce s !! id);
  rg_names : ∀ i j f g, i ∈ l → j ∈ l → d_pfd s !! i = Some f → d_pfd s !! j = Some g → pfd_name f = pfd_name g → i = j;
  rg_settled : ∀ id f, id ∈ l → d_pfd s !! id = Some f → all_settled s (pfd_name f);
}.
Definition in_regs (s : dirc) (l : list nat) (n : name) (i : Z) : Prop := ∃ id f, id ∈ l ∧ d_pfd s !! id = Some f ∧ pfd_name f = n ∧ pfd_ino f = i.
Lemma dinv_hashed s id l f : dinv s (id :: l) → id ∉ l → is_Some (d_dce s !! id) → d_pfd s !! id = Some f → (∀ i, ¬ has s (pfd_name f) i) → dinv (d_set_hash s (id :: d_hash s)) l.
Proof.
  intros [I1 I2 I3 I4 I5 I6 I7 I8 I9 I10 I11 I12 I13] Hn Hd Hf Hno. assert (∀ j g, j ∈ d_hash s → d_pfd s !! j = Some g → pfd_name g ≠ pfd_name f) as Hne.
  { intros j g Hj Hg He. apply (Hno (pfd_ino g)). by exists j, g. }
  split; simpl; try done.
  - apply NoDup_cons. split; [|done]. rewrite I2. intros [_ Hx]. apply Hx. by left.
  - intros j. rewrite elem_of_cons, I2, not_elem_of_cons. destruct (decide (j = id)) as [->|Hj]; tauto.
  - intros i j h g Hi Hj Hh Hg He. apply elem_of_cons in Hi as [->|Hi], Hj as [->|Hj]; [done| | |by apply (I4 i j h g)].
    + assert (h = f) as -> by congruence. by destruct (Hne j g Hj Hg).
    + assert (g = f) as -> by congruence. by destruct (Hne i h Hi Hh).
  - intros p g Hg. by destruct (I8 p g Hg).
Qed.
Lemma hashed_has s id f n i : (∀ i, ¬ has s (pfd_name f) i) → d_pfd s !! id = Some f →
  has (d_set_hash s (id :: d_hash s)) n i ↔ if decide (n = pfd_name f) then i = pfd_ino f else has s n i.
Proof.
  intros Hno Hf. unfold has. simpl. setoid_rewrite elem_of_cons. split.
  - intros (j & g & [->|Hj] & Hg & <- & <-); [assert (g = f) as -> by congruence; by rewrite decide_True|].
    rewrite decide_False; [by exists j, g|]. intros He. apply (Hno (pfd_ino g)). by exists j, g.
  - case_decide as Hd; [intros ->; exists id, f; by split_and!; [left| | |]|]. intros (j & g & Hj & Hg & ? & ?). exists j, g. split_and!; [by right|done|done|done].
Qed.
(** Without the entry that is in the way. *)
Lemma wp_clash s now id l f : dinv s (id :: l) → regs s (id :: l) → d_pfd s !! id = Some f →
  wp (o ← hash_find (pfd_name f); reg_clash now o) (λ _ s', dinv s' (id :: l) ∧ regs s' (id :: l) ∧ d_fid s' = d_fid s ∧ (∀ j, j ∈ id :: l → d_pfd s' !! j = d_pfd s !! j) ∧
    (∀ n i, has s' n i ↔ has s n i ∧ n ≠ pfd_name f)) s.
Proof.
  intros I R Hf. wp_step. unfold hash_find. destruct (hash_scan_ok (d_pfd s) (pfd_name f) (d_hash s)) as [(j & g & Hs & Hj & Hg & Hn)|[Hs Hall]]; [intros j; by apply (hash_valid s (id :: l))| |].
  - eapply wp_intro; [by rewrite Hs|]. unfold reg_clash. apply (wp_zap s (id :: l)); [done|done|eapply (rg_settled _ _ R id f); [by left|done|exact Hj|exact Hg|done]|]. intros s' I' Z.
    assert (∀ i, i ∈ id :: l → i ≠ j) as Hne. { intros i Hi ->. apply (di_in _ _ I) in Hj as [_ Hx]. done. } pose proof Z as [Z1 Z2 Z3 Z4 Z5 Z6 Z7]. split_and!; [done| |done|intros i Hi; apply Z2; by apply Hne|].
    + destruct R as [R1 R2 R3 R4]. split; [done| | |].
      * intros i Hi. rewrite Z3, lookup_delete_ne; [by apply R2|]. intros ->. by apply (Hne i).
      * intros i i' h h' Hi Hi'. rewrite !Z2 by (by apply Hne). by apply R3.
      * intros i h Hi Hh q h' Hq Hh' Hnn. rewrite Z2 in Hh by (by apply Hne). rewrite Z1 in Hq. apply list_elem_of_filter in Hq as [Hqj Hq]. rewrite Z2 in Hh' by done.
        intros p Hp. rewrite Z3 in Hp. apply lookup_delete_Some in Hp as [_ Hp]. destruct (R4 i h Hi Hh q h' Hq Hh' Hnn p Hp) as (g1 & l1 & Hg1 & Hl1). by apply (Z7 p g1 l1).
    + intros n i. by rewrite (zapped_has s s' (id :: l) j g n i I Hj Hg Z), Hn.
  - eapply wp_intro; [by rewrite Hs|]. unfold reg_clash. wp_step. split_and!; [done|done|done|done|]. intros n i. split; [|tauto]. intros (j & g & Hj & Hg & <- & <-). split; [by exists j, g|]. by apply (Hall j).
Qed.
Lemma wp_reg_loop now l s : dinv s l → regs s l →
  wp (reg_loop now l) (λ _ s', dinv s' [] ∧ d_fid s' = d_fid s ∧ ∀ n i, has s' n i ↔ in_regs s l n i ∨ (has s n i ∧ ∀ j, ¬ in_regs s l n j)) s.
Proof.
  revert s. induction l as [|id l IH]; intros s I R.
  { simpl. wp_step. split_and!; [done|done|]. intros n i. assert (∀ j, ¬ in_regs s [] n j) as Hno by (intros j (x & f & Hx & _); by apply elem_of_nil in Hx). naive_solver. }
  destruct (di_pfd _ _ I id (rg_pfd _ _ R id ltac:(by left))) as [f Hf]. simpl. wp_step. eapply wp_intro; [unfold getPfd; by rewrite Hf|].
  assert (id ∉ l) as Hnl by (pose proof (rg_nodup _ _ R) as [? _]%NoDup_cons; done).
  apply wp_bind. pose proof (wp_clash s now id l f I R Hf) as Hc. apply wp_bind_inv in Hc. eapply wp_mono; [exact Hc|]. intros o s0 Hc0. wp_step. eapply wp_mono; [exact Hc0|].
  intros u s1 (I1 & R1 & Fd & Hp & Hh). assert (∀ i, ¬ has s1 (pfd_name f) i) as Hno by (intros i [_ Hx]%Hh; done). assert (d_pfd s1 !! id = Some f) as Hf1 by (rewrite Hp; [done|by left]).
  wp_step. wp_step. assert (is_Some (d_dce s1 !! id)) as Hd1 by (apply (rg_pfd _ _ R1); by left).
  assert (regs (d_set_hash s1 (id :: d_hash s1)) l) as R2.
  { destruct R1 as [N1 N2 N3 N4]. split; [by apply NoDup_cons in N1 as [_ ?]|intros j Hj; apply N2; by right|intros i j g h Hi Hj; apply N3; by right|].
    intros i g Hi Hg q h Hq Hh' Hn. simpl in Hg, Hq, Hh'. apply elem_of_cons in Hq as [->|Hq]; [|by apply (N4 i g ltac:(by right) Hg q h)].
    exfalso. apply Hnl. assert (i = id) as <-; [|done]. apply (N3 i id g h); [by right|by left|done|done|done]. }
  eapply wp_mono; [apply IH; [by apply (dinv_hashed s1 id l f)|done]|]. intros _ s2 (I2 & F2 & H2). split_and!; [done|by rewrite F2|].
  assert (∀ n i, in_regs (d_set_hash s1 (id :: d_hash s1)) l n i ↔ in_regs s l n i) as Hin.
  { intros n i. unfold in_regs. simpl. split; intros (j & g & Hj & Hg & ? & ?); exists j, g; (split_and!; [done| |done|done]); [rewrite <-Hp; [done|by right]|rewrite Hp; [done|by right]]. }
  assert (∀ n i, in_regs s (id :: l) n i ↔ (n = pfd_name f ∧ i = pfd_ino f) ∨ in_regs s l n i) as Hcons.
  { intros n i. unfold in_regs. split; [intros (j & g & [->|Hj]%elem_of_cons & Hg & <- & <-); [left; by assert (g = f) as -> by congruence|right; by exists j, g]|].
    intros [[-> ->]|(j & g & Hj & Hg & ? & ?)]; [exists id, f|exists j, g]; split_and!; try done; [by left|by right]. }
  assert (∀ i, ¬ in_regs s l (pfd_name f) i) as Hnot.
  { intros i (j & g & Hj & Hg & Hn & _). apply Hnl. assert (j = id) as <-; [|done]. apply (rg_names _ _ R j id g f); [by right|by left|done|done|done]. }
  intros n i. rewrite H2, (hashed_has s1 id f n i Hno Hf1), Hcons. setoid_rewrite Hin. setoid_rewrite Hcons.
  destruct (decide (n = pfd_name f)) as [->|Hn]; [|rewrite Hh; clear -Hn; naive_solver]. pose proof (Hnot i). split; [intros [?|[-> _]]; [done|by left; left]|]. intros [[[_ ->]|?]|[_ Hx]]; [right; split; [done|apply Hnot]|done|]. by destruct (Hx (pfd_ino f)); left.
Qed.
End registration.
Section reg_readdir.
Context `{PflDynLaws}.

Definition in_ents (ents : list pscfs_dirent) (n : name) (i : Z) : Prop := ∃ f, f ∈ ents ∧ pfd_name f = n ∧ pfd_ino f = i.
Lemma wpb_reg_begin s now k ents eof : dinv s [] → NoDup (pfd_name <$> ents) → (∀ f, f ∈ ents → all_settled s (pfd_name f)) →
  wpb (reg_begin now k ents eof) (λ _ s', dinv s' [] ∧ d_fid s' = d_fid s ∧ ∀ n i, has s' n i ↔ in_ents ents n i ∨ (has s n i ∧ ∀ j, ¬ in_ents ents n j)) s.
Proof.
  intros I Hnd Hset. unfold reg_begin. wb_step. wb_step. destruct (d_rpcs s !! k) as [[p [| |]]|] eqn:Hk; [|wb_step|wb_step|wb_step]. destruct (di_rpc _ _ I k p _ Hk) as (g & Hg & Hl & Hn).
  wb_step. eapply wpb_of, wp_intro; [unfold getDp; by rewrite Hg|]. wb_step. wb_step. wb_step. wb_step; [done|]. apply wpb_of.
  set (no := match last ents with Some f => pfd_off f | None => dcp_off g end). pose proof (dinv_reg_start s k p g ents no eof I Hk Hg ltac:(intros f Hf; unfold no; by rewrite Hf)) as I'.
  set (s' := reg_start s k p ents no eof) in I'. set (L := sort_off (zip (pfd_off <$> ents) (seq (d_next s) (length ents)))) in *.
  set (s1 := d_set_rpcs s (<[k := (p, RdReg L (seq (d_next s) (length ents)) no eof)]> (d_rpcs s))).
  destruct (reg_alloc_same p ents (d_next s) s1) as (Eh & _ & _ & Eg & _ & Efid & _). change (reg_alloc p ents (d_next s) s1) with s' in *.
  assert (∀ j, d_dce s' !! j = if decide (between (d_next s) (length ents) j) then Some (Some p) else d_dce s !! j) as Ed by (intros j; apply (reg_alloc_maps p ents (d_next s) s1 j)).
  assert (∀ j, d_pfd s' !! j = if decide (between (d_next s) (length ents) j) then ents !! (j - d_next s)%nat else d_pfd s !! j) as Ef by (intros j; apply (reg_alloc_maps p ents (d_next s) s1 j)).
  assert (∀ j, j ∈ d_hash s → ¬ between (d_next s) (length ents) j) as Hh.
  { intros j Hj Hb. destruct (hash_valid s [] j I Hj) as [f Hf]. pose proof (di_next _ _ I j (or_introl (mk_is_Some _ _ Hf))). unfold between in Hb. lia. }
  assert (∀ j f, j ∈ L → d_pfd s' !! j = Some f → ∃ i, ents !! i = Some f ∧ j = (d_next s + i)%nat) as HL.
  { intros j f Hj Hf. unfold L in Hj. apply da_off_in in Hj. rewrite Ef, decide_True in Hf by done. exists (j - d_next s)%nat. unfold between in Hj. split; [done|lia]. }
  assert (∀ i f, ents !! i = Some f → (d_next s + i)%nat ∈ L ∧ d_pfd s' !! (d_next s + i)%nat = Some f) as HL'.
  { intros i f Hi. assert (between (d_next s) (length ents) (d_next s + i)) as Hb by (apply lookup_lt_Some in Hi; unfold between; lia). split; [by apply da_off_in|]. rewrite Ef, decide_True by done. by replace (d_next s + i - d_next s)%nat with i by lia. }
  assert (∀ n i, in_regs s' L n i ↔ in_ents ents n i) as Hin.
  { intros n i. split.
    - intros (j & f & Hj & Hf & ? & ?). destruct (HL j f Hj Hf) as (x & Hx & _). exists f. split_and!; [by eapply list_elem_of_lookup_2|done|done].
    - intros (f & Hf & ? & ?). apply list_elem_of_lookup in Hf as [x Hx]. destruct (HL' x f Hx). exists (d_next s + x)%nat, f. by split_and!. }
  assert (∀ n i, has s' n i ↔ has s n i) as Hhas.
  { intros n i. unfold has. rewrite Eh. change (d_hash s1) with (d_hash s). split; intros (j & f & Hj & Hf & ? & ?); exists j, f; rewrite Ef, decide_False in * by auto; done. }
  eapply wp_mono; [apply (wp_reg_loop now L s'); [done|]|].
  - split; [apply da_off_nodup|intros j Hj; unfold L in Hj; apply da_off_in in Hj; rewrite Ed, decide_True by done; done| |].
    + intros i j f h Hi Hj Hf Hh' He. destruct (HL i f Hi Hf) as (x & Hx & ->), (HL j h Hj Hh') as (y & Hy & ->). f_equal. eapply (NoDup_lookup _ x y (pfd_name f) Hnd); rewrite list_lookup_fmap; [by rewrite Hx|rewrite Hy; simpl; by rewrite He].
    + intros i f Hi Hf j h Hj Hh' Hn' q Hq. destruct (HL i f Hi Hf) as (x & Hx & _). rewrite Eh in Hj. change (d_hash s1) with (d_hash s) in Hj. rewrite Ed, decide_False in Hq by auto. rewrite Ef, decide_False in Hh' by auto.
      rewrite Eg. change (d_pg s1) with (d_pg s). eapply (Hset f); [by eapply list_elem_of_lookup_2|exact Hj|exact Hh'|done|done].
  - intros _ s2 (I2 & F2 & H2). split_and!; [done|by rewrite F2, Efid|]. intros n i. rewrite H2, Hhas, Hin. by setoid_rewrite Hin.
Qed.

(** ** What [readdir] answers *)
Lemma dinv_read s p g : dinv s [] → d_pg s !! p = Some g → dinv (d_set_pg s (<[p := pg_flags g (setf (dcp_flags g) DIRCACHEPGF_READ)]> (d_pg s))) [].
Proof.
  intros [I1 I2 I3 I4 I5 I6 I7 I8 I9 I10 I11 I12 I13] Hg. set (g' := pg_flags g _). set (s' := d_set_pg s _).
  assert (loading g' = loading g) as Hl by (unfold loading, g'; simpl; flags_goal; done).
  assert (∀ q h, d_pg s' !! q = Some h → (q = p ∧ h = g') ∨ d_pg s !! q = Some h) as Hq by (intros q h Hx; unfold s' in Hx; simpl in Hx; apply lookup_insert_Some in Hx as [[<- <-]|[_ Hx]]; auto).
  assert (∀ q j, in_base s' q j → in_base s q j) as Hb. { intros q j [(h & [[-> ->]|Hx]%Hq & Hj)|Hx]; [left; by exists g|left; by exists h|by right]. }
  split; try done.
  - intros q. unfold s'. simpl. rewrite I7, lookup_insert_is_Some'. split; [by right|]. intros [<-|?]; [by exists g|done].
  - intros q h [[-> ->]|Hx]%Hq; [|by destruct (I8 q h Hx)]. destruct (I8 p g Hg) as [G1 G2 G3 G4 G5 G6 G7]. split; try done; try (by rewrite Hl). unfold g'. simpl. flags_goal. done.
  - intros j q Hj. destruct (I9 j q Hj) as [(h & l & Hh & ? & ?)|?]; [left|by right]. destruct (decide (q = p)) as [->|Hne]; [exists g', l|exists h, l]; unfold s'; simpl.
    + rewrite lookup_insert_eq. assert (h = g) as -> by congruence. done.
    + by rewrite lookup_insert_ne.
  - intros k q st Hk. destruct (I10 k q st Hk) as (h & Hh & Hok). destruct (decide (q = p)) as [->|Hne]; unfold s'; simpl.
    + exists g'. rewrite lookup_insert_eq. split; [done|]. assert (h = g) as -> by congruence. unfold rpc_ok in *. by rewrite Hl.
    + exists h. by rewrite lookup_insert_ne.
  - intros q j Hj. destruct (I12 q j (Hb q j Hj)) as (? & ? & H3). split_and!; [done|done|]. intros q' Hq'. by apply H3, Hb.
  - intros j [Hj|[[h Hj]|Hj]]; apply I13; [by left|right; left|by right; right]. apply Hq in Hj as [[-> _]|Hj]; [by exists g|by exists h].
Qed.
Lemma pfds_of_run m l : (∀ id, id ∈ l → is_Some (m !! id)) → ∃ r, pfds_of m l = Done r.
Proof.
  induction l as [|id l IH]; intros Hm; simpl; [by exists []|]. destruct (Hm id ltac:(by left)) as [f Hf]. rewrite Hf. destruct (IH ltac:(intros; apply Hm; by right)) as (r & ->). by exists (f :: r).
Qed.
(** The dirents of a registered page from [off] on that fit into [size]. *)
Definition page_reply (s : dirc) (off size : Z) (l : list pscfs_dirent) (ra : Z) : Prop :=
  ∃ p g ids base, d_pg s !! p = Some g ∧ loading g = false ∧ dcp_rc g = 0 ∧ dcp_dents_off g = Some ids ∧
    pfds_of (d_pfd s) (take (length ids) (dcp_base g)) = Done base ∧ l = rd_fit size 0 (rd_start off (dcp_off g) base) ∧
    ra = (if hasf (dcp_flags g) DIRCACHEPGF_EOF then 0 else dcp_nextoff g) ∧
    (off = dcp_off g ∨ (off ≠ dcp_nextoff g ∧ ∃ id f, id ∈ ids ∧ d_pfd s !! id = Some f ∧ pfd_off f = off)).
Lemma wpb_readdir_scan now off size retry l s : dinv s [] → listed_ok s l →
  wpb (readdir_scan now off size retry l) (λ r s', dinv s' [] ∧ forgets s s' ∧
    match r with
    | RrReply d ra => page_reply s' off size d ra
    | RrEof => ∃ p g, d_pg s' !! p = Some g ∧ dcp_nextoff g = off ∧ hasf (dcp_flags g) DIRCACHEPGF_EOF = true
    | RrError rc => rc ≠ 0
    | RrIssue => True
    end) s.
Proof.
  revert s. induction l as [|p l IH]; intros s I Hl; simpl; [wb_step; by split_and!|].
  assert (∀ s', dinv s' [] → forgets s s' → listed_ok s' l → wpb (readdir_scan now off size retry l) (λ r s2, dinv s2 [] ∧ forgets s s2 ∧
    match r with RrReply d ra => page_reply s2 off size d ra | RrEof => ∃ p g, d_pg s2 !! p = Some g ∧ dcp_nextoff g = off ∧ hasf (dcp_flags g) DIRCACHEPGF_EOF = true | RrError rc => rc ≠ 0 | RrIssue => True end) s') as Hrec.
  { intros s' I' F Hl'. eapply wpb_mono; [by apply IH|]. intros r s2 (? & F2 & ?). split_and!; [done|by transitivity s'|done]. }
  destruct (proj2 Hl p ltac:(by left)) as [g Hg]. wb_step. eapply wpb_of, wp_intro; [unfold getDp; by rewrite Hg|]. wb_step. wb_step. wb_step; [wb_step|].
  wb_step.
  { wb_step. apply (wpb_free_page s p g); [done|done|done|]. intros s' _ I' F. apply Hrec; [done|by eapply freed_forgets|by eapply listed_freed]. }
  wb_step.
  { wb_step. apply andb_prop in Heqb1 as [He ?]. apply Z.eqb_eq in He. split_and!; [done|done|]. by exists p, g. }
  wb_step. eapply wpb_of, wp_mono; [by apply (wp_hasoff s p g)|]. intros h s' [-> Hoff]. wb_step; [apply Hrec; [done|done|by eapply listed_tail]|]. wb_step.
  { wb_step. apply (wpb_free_page s p g); [done|done|done|]. intros s' _ I' F. wb_step. split_and!; [done|by eapply freed_forgets|]. destruct retry; [done|]. by apply negb_true_iff, Z.eqb_neq in Heqb3. }
  apply negb_false_iff, Z.eqb_eq in Heqb3. destruct (go_ready _ _ _ (di_page _ _ I p g Hg) Heqb Heqb3) as [ids Hd]. unfold rd_base. rewrite Hd. wb_step.
  destruct (pfds_of_run (d_pfd s) (take (length ids) (dcp_base g))) as [base Hb]. { intros j Hj%elem_of_take_in. apply (di_base _ _ I p j). left. by exists g. }
  eapply wpb_of, wp_intro; [unfold pfdsM; by rewrite Hb|]. unfold setDp. wb_step. wb_step. wb_step. split_and!; [by apply dinv_read|done|].
  exists p, (pg_flags g (setf (dcp_flags g) DIRCACHEPGF_READ)), ids, base. simpl. rewrite lookup_insert_eq. split_and!; try done; [unfold loading; simpl; flags_goal; done|flags_goal; done|].
  apply negb_false_iff in Heqb2. destruct (Hoff Heqb2 Heqb3) as [?|(? & l' & id & f & Hl' & ? & ? & ?)]; [by left|right]. split; [done|]. assert (l' = ids) as -> by congruence. by exists id, f.
Qed.
End reg_readdir.

(** ** The end of a directory handle *)
Lemma purge_ents_run l s : purge_ents l s = Done (tt, d_names s (filter (λ x, x ∉ l) (d_hash s)) (d_ents s) (foldr delete (d_dce s) (reverse l)) (foldr delete (d_pfd s) (reverse l))).
Proof.
  revert s. induction l as [|id l IH]; intros s.
  - simpl. rewrite filter_all; [by destruct s|]. intros x _. apply not_elem_of_nil.
  - apply wp_eq. simpl. wp_step. unfold hash_remove. wp_step. wp_step. wp_step. eapply wp_intro; [apply IH|]. split; [done|]. unfold d_names, d_set_hash. simpl. f_equal.
    + rewrite list_filter_filter. apply list_filter_iff. intros x. rewrite not_elem_of_cons. tauto.
    + by rewrite reverse_cons, foldr_app.
    + by rewrite reverse_cons, foldr_app.
Qed.
Definition purged (s : dirc) : dirc :=
  d_names s (filter (λ x, x ∉ d_ents s) (d_hash s)) [] (foldr delete (d_dce s) (reverse (d_ents s))) (foldr delete (d_pfd s) (reverse (d_ents s))).
Lemma dinv_purged s : dinv s [] → dinv (purged s) [].
Proof.
  intros [I1 I2 I3 I4 I5 I6 I7 I8 I9 I10 I11 I12 I13].
  assert (∀ {A} (m : gmap nat A) j, foldr delete m (reverse (d_ents s)) !! j = if decide (j ∈ d_ents s) then None else m !! j) as Hdel.
  { intros A m j. rewrite del_all. destruct (decide (j ∈ d_ents s)) as [Hj|Hj]; [by rewrite decide_True by (by apply elem_of_reverse)|by rewrite decide_False by (by rewrite elem_of_reverse)]. }
  assert (∀ j p, d_dce s !! j = Some (Some p) → j ∉ d_ents s) as Hn by (intros j p Hj Hx; apply I5 in Hx; congruence).
  assert (∀ j p, d_dce s !! j = Some (Some p) → foldr delete (d_dce s) (reverse (d_ents s)) !! j = Some (Some p)) as Hkeep by (intros j p Hj; rewrite Hdel, decide_False; [done|by apply (Hn j p)]).
  assert (∀ p j, in_base s p j → pfd_off <$> foldr delete (d_pfd s) (reverse (d_ents s)) !! j = pfd_off <$> d_pfd s !! j) as Hoff.
  { intros p j Hj. rewrite Hdel, decide_False; [done|]. intros Hx. apply I5, (I12 p j Hj) in Hx. done. }
  split; simpl; try done.
  - by apply NoDup_filter.
  - intros j. rewrite list_elem_of_filter, I2, Hdel. case_decide; [split; [tauto|intros [[? ?] _]; done]|tauto].
  - intros j. rewrite !Hdel. case_decide; [by intros [? ?]|]. apply I3.
  - intros i j f g Hi Hj. apply list_elem_of_filter in Hi as [Hi1 Hi], Hj as [Hj1 Hj]. rewrite !Hdel, !decide_False by done. by apply I4.
  - intros j. rewrite Hdel. split; [intros Hx; by apply elem_of_nil in Hx|]. case_decide as Hj; [done|]. intros Hx. by apply I5 in Hx.
  - intros p g Hg. destruct (I8 p g Hg) as [G1 G2 G3 G4 G5 G6 G7]. split; try done; [intros l j Hl Hj; destruct (G3 l j Hl Hj); auto|].
    apply (next_keep (d_pfd s)); [|done]. intros j Hj. simpl. apply (Hoff p). left. by exists g.
  - intros j p. rewrite Hdel. case_decide; [done|]. apply I9.
  - intros k p st Hk. destruct (I10 k p st Hk) as (g & Hg & Hr). exists g. split; [done|]. destruct st as [|l b n e|]; simpl in *; try done. destruct Hr as (? & ? & Hr & Hnx).
    split_and!; try done; [intros j Hj; destruct (Hr j Hj); auto|]. apply (next_keep (d_pfd s)); [|done]. intros j Hj. apply (Hoff p). right. exists l, b. split; [by exists k, n, e|done].
  - intros p j Hb. change (in_base s p j) in Hb. destruct (I12 p j Hb) as (H1 & H2 & H3). assert (j ∉ d_ents s) by (intros Hx; apply I5, H2 in Hx; done). rewrite !Hdel, !decide_False by done. split_and!; [done|done|].
    intros q Hq. by apply H3.
  - intros j. rewrite Hdel. intros [Hj|Hj]; [|auto]. apply I13. left. by case_decide; [destruct Hj|].
Qed.
Lemma wp_purge_pages l s : dinv s [] → listed_ok s l → d_rpcs s = ∅ →
  wp (purge_pages l) (λ _ s', dinv s' [] ∧ d_rpcs s' = ∅ ∧ d_ents s' = d_ents s ∧ ∀ p, p ∈ d_pages s' → p ∈ d_pages s ∧ p ∉ l) s.
Proof.
  revert s. induction l as [|p l IH]; intros s I Hl Hr; simpl; [wp_step; split_and!; try done; intros p Hp; split; [done|apply not_elem_of_nil]|].
  destruct (proj2 Hl p ltac:(by left)) as [g Hg]. wp_step.
  assert (∃ s1, dircache_free_page p true s = Done (1, s1) ∧ dinv s1 [] ∧ freed s s1 p) as (s1 & Hs & I1 & F).
  { assert (dcp_refcnt g = 0) as Hz. { destruct (go_ref _ _ _ (di_page _ _ I p g Hg)) as [[? _]|[_ (k & st & Hk)]]; [done|]. by rewrite Hr, lookup_empty in Hk. }
    pose proof (wpb_free_page s p g true (λ r s', r = 1 ∧ dinv s' [] ∧ freed s s' p) I Hg ltac:(done) ltac:(done)) as Hw. unfold wpb in Hw. destruct (dircache_free_page p true s) as [[r s1]|w] eqn:E.
    - destruct Hw as (-> & ? & ?). by exists s1.
    - exfalso. revert E. unfold dircache_free_page, mbind, M_bind, getDp, setDp, modifyM, wait_until. rewrite Hg. rewrite (go_free _ _ _ (di_page _ _ I p g Hg)), Hz. simpl. by rewrite free_dents_run. }
  eapply wp_intro; [exact Hs|]. eapply wp_mono; [apply IH; [done|by eapply listed_freed|by rewrite (fr_rpcs _ _ _ F)]|]. intros _ s2 (I2 & R2 & E2 & P2). split_and!; [done|done|by rewrite E2, (fr_ents _ _ _ F)|].
  intros q Hq. destruct (P2 q Hq) as [H1 H2]. rewrite (fr_pages _ _ _ F) in H1. apply list_elem_of_filter in H1 as [? ?]. split; [done|]. by rewrite not_elem_of_cons.
Qed.
