(* ===== verification/DirCacheProps.v ===== *)
(** * Theorems on the directory cache of a client

    Runs of the steps of [DirCache.v]: the cache of names is a map with the latest
    it was told, no step faults, what [readdir] answers, the end of a directory
    handle, and the ways in which it goes wrong. *)
From S2P Require Import Prelude Replay DirCache DirCacheInv DirCacheStep.

(** ** Runs *)
Section runs.
Context `{PflDyn}.

(** Calm steps: a reply names each entry once, an entry of a page is not removed
    before the page is registered, and the buffer of a page stays where it is when
    it is cut to its size. *)
Definition dcalm (s : dirc) (l : dlabel) : Prop :=
  match l with
  | DName _ NcDelete n _ => all_settled s n
  | DReg _ _ ents _ => NoDup (pfd_name <$> ents) ∧ ∀ f, f ∈ ents → all_settled s (pfd_name f)
  | DFinish _ moved => moved = false
  | _ => True
  end.
Fixpoint ents_ino (ents : list pscfs_dirent) (n : name) : option Z :=
  match ents with
  | [] => None
  | f :: ents => if decide (pfd_name f = n) then Some (pfd_ino f) else ents_ino ents n
  end.
(** What the cache was told last about each name. *)
Definition told (s : dirc) (l : dlabel) (N : name → option Z) (n : name) : option Z :=
  match l with
  | DName _ op m cfid =>
      if decide (n = m) then
        match op, nc s m with
        | NcDelete, _ => None
        | NcClobber, _ | NcInsert, None | NcUpdate, Some _ => Some cfid
        | _, _ => N n
        end
      else N n
  | DReg _ _ ents _ => match ents_ino ents n with Some i => Some i | None => N n end
  | _ => N n
  end.
Inductive drun (s0 : dirc) : dirc → (name → option Z) → Prop :=
| drun_nil : drun s0 s0 (λ _, None)
| drun_cons s N l s' : drun s0 s N → dcalm s l → dstep l s = Done (tt, s') → drun s0 s' (told s l N).
End runs.

(** ** Steps *)
Lemma ents_ino_in ents n i : ents_ino ents n = Some i → in_ents ents n i.
Proof.
  induction ents as [|f ents IH]; [done|]. simpl. case_decide as Hn; [intros [= <-]; exists f; split_and!; [by left|done|done]|]. intros (g & ? & ? & ?)%IH. exists g. split_and!; [by right|done|done].
Qed.
Lemma ents_ino_none ents n : ents_ino ents n = None → ∀ i, ¬ in_ents ents n i.
Proof.
  induction ents as [|f ents IH]; simpl; [intros _ i (f & Hf & _); by apply elem_of_nil in Hf|]. case_decide as Hn; [done|]. intros Hx i (g & [->|Hg]%elem_of_cons & ? & ?); [done|]. apply (IH Hx i). by exists g.
Qed.
Section steps.
Context `{PflDynLaws}.

Definition latest (s : dirc) (N : name → option Z) : Prop := ∀ n i, nc s n = Some i → N n = Some i.
Lemma nc_fewer s s' : dinv s [] → dinv s' [] → (∀ n i, has s' n i → has s n i) → ∀ n i, nc s' n = Some i → nc s n = Some i.
Proof. intros I I' Hh n i Hn. apply (nc_has s [] n i I), Hh, (nc_has s' [] n i I'). done. Qed.
Lemma dstep_all s N l : dinv s [] → fid_ok s → latest s N → dcalm s l → wpb (dstep l) (λ _ s', dinv s' [] ∧ fid_ok s' ∧ latest s' (told s l N)) s.
Proof.
  intros I Hfid HN Hc. assert (∀ s', dinv s' [] → d_fid s' = d_fid s → (∀ n i, has s' n i → has s n i) → dinv s' [] ∧ fid_ok s' ∧ latest s' N) as Hless.
  { intros s' I' Hf Hh. split_and!; [done|unfold fid_ok; by rewrite Hf|]. intros n i Hn. by apply HN, (nc_fewer s s'). }
  assert (∀ s', dinv s' [] → d_fid s' = d_fid s → (∀ n i, has s' n i ↔ has s n i) → dinv s' [] ∧ fid_ok s' ∧ latest s' N) as Hsame by (intros s' I' Hf Hh; apply Hless; [done|done|]; intros n i; by apply Hh).
  destruct l as [now op m cfid|now off wait rc|now k rc|now k ents eof|now k|k moved|now off size retry|gen mtim]; simpl.
  - wb_step. eapply wpb_of, wp_mono; [apply wp_namecache; [done|done|]; by intros ->|]. intros rc s' (I' & Hf & _ & Hn). wb_step. split_and!; [done|unfold fid_ok; by rewrite Hf|].
    intros n i Hx. rewrite Hn in Hx. unfold nc_spec in Hx. simpl. specialize (HN n i). case_decide as Hm; [subst n|auto]. destruct op, (nc s m) as [j|]; simpl in Hx |- *; auto; by try (apply HN; congruence).
  - wb_step. eapply wpb_mono; [by apply wpb_issue|]. intros r s' (I' & Hf & Hh & _). wb_step. by apply Hless.
  - wb_step. wb_step. eapply wpb_mono; [apply wpb_error; [done|by apply Z.eqb_neq, negb_true_iff]|]. intros _ s' (I' & Hf & Hh). by apply Hsame.
  - destruct Hc as [Hc1 Hc2]. eapply wpb_mono; [by apply wpb_reg_begin|]. intros _ s' (I' & Hf & Hh). split_and!; [done|unfold fid_ok; by rewrite Hf|].
    intros n i Hx. apply (nc_has s' [] n i I'), Hh in Hx. simpl. destruct (ents_ino ents n) as [j|] eqn:He.
    + pose proof (ents_ino_in ents n j He) as Hj. destruct Hx as [(f & Hf1 & Hf2 & <-)|[_ Hx]]; [|by destruct (Hx j)]. f_equal. destruct Hj as (g & Hg1 & Hg2 & <-).
      assert (f = g) as ->; [|done]. apply list_elem_of_lookup in Hf1 as [x Hx], Hg1 as [y Hy]. assert (x = y) as ->; [|congruence].
      eapply (NoDup_lookup _ x y n Hc1); rewrite list_lookup_fmap; [by rewrite Hx; simpl; rewrite Hf2|by rewrite Hy; simpl; rewrite Hg2].
    + destruct Hx as [Hx|[Hx _]]; [by destruct (ents_ino_none ents n He i)|]. apply HN. by apply (nc_has s [] n i I).
  - eapply wpb_mono; [by apply wpb_reg_end|]. intros _ s' (I' & Hf & Hh). by apply Hsame.
  - simpl in Hc. subst moved. eapply wpb_mono; [by apply wpb_finish|]. intros _ s' (I' & Hf & Hh). by apply Hsame.
  - wb_step. unfold mslfsop_readdir. wb_step; [wb_step; wb_step; by apply Hsame|]. wb_step. wb_step. eapply wpb_mono; [apply wpb_readdir_scan; [done|]; split; [apply I|]; intros p Hp; by apply (di_pages _ _ I)|].
    intros r s' (I' & [_ _ Hf Hh] & _). wb_step. by apply Hless.
  - apply wpb_of, wp_modify. apply Hsame; [|done|done]. destruct I as [I1 I2 I3 I4 I5 I6 I7 I8 I9 I10 I11 I12 I13]. split; try done. intros p g Hg. by destruct (I8 p g Hg).
Qed.
Lemma dinv_init fid gen mtim : dinv (dirc_init fid gen mtim) [].
Proof.
  split; simpl; try done; try apply NoDup_nil_2.
  - intros id. rewrite lookup_empty. split; [intros Hx; by apply elem_of_nil in Hx|by intros [[? ?] _]].
  - intros id. rewrite lookup_empty. by intros [? ?].
  - intros id. rewrite lookup_empty. split; [intros Hx; by apply elem_of_nil in Hx|done].
  - intros p. rewrite lookup_empty. split; [intros Hx; by apply elem_of_nil in Hx|by intros [? ?]].
  - intros p id [(g & Hg & _)|(l & b & (k & n & e & Hk) & _)]; [simpl in Hg; by rewrite lookup_empty in Hg|simpl in Hk; by rewrite lookup_empty in Hk].
  - intros id. rewrite !lookup_empty. intros [[? ?]|[[? ?]|[? ?]]]; done.
Qed.
Definition good_fid (fid : Z) : Prop := fid = SLFID_ROOT ∨ SLFID_MIN ≤ fid.
Lemma drun_inv fid gen mtim s N : good_fid fid → drun (dirc_init fid gen mtim) s N → dinv s [] ∧ fid_ok s ∧ latest s N.
Proof.
  intros Hf. induction 1 as [|s N l s' _ (I & F & HL) Hc Hs]; [split_and!; [apply dinv_init|done|done]|]. by apply (wpb_done _ _ _ _ _ Hs (dstep_all s N l I F HL Hc)).
Qed.
End steps.

(** ** What a reply has *)
Definition dirents_size `{PflDyn} (l : list pscfs_dirent) : Z := foldr (λ f n, PFL_DIRENT_SIZE (Z.of_nat (length (pfd_name f))) + n) 0 l.
Lemma rd_start_split off t l : ∃ pre, l = pre ++ rd_start off t l ∧ (rd_start off t l = [] ∨ (pre = [] ∧ off = t) ∨ ∃ f, last pre = Some f ∧ pfd_off f = off).
Proof.
  revert t. induction l as [|f l IH]; intros t; simpl; [exists []; by split; [|left]|]. destruct (Z.eqb_spec off t) as [->|Hne]; [exists []; split; [done|right; by left]|].
  destruct (IH (pfd_off f)) as (pre & Hl & Hc). exists (f :: pre). split; [by rewrite Hl at 1|]. destruct Hc as [?|[[-> Ho]|(g & Hg & <-)]]; [by left|right; right; exists f; by rewrite Ho|right; right]. exists g. split; [|done]. by rewrite last_cons, Hg.
Qed.
(** The search stops at the dirent behind the first one with the offset. *)
Lemma rd_start_nil off t l : rd_start off t l = [] → (off = t → l = []) ∧ ∀ f l1 l2, l = l1 ++ f :: l2 → pfd_off f = off → l2 = [].
Proof.
  revert t. induction l as [|f l IH]; intros t; simpl; [intros _; split; [done|]; by intros f [|] l2|]. destruct (Z.eqb_spec off t) as [|Hne]; [done|]. intros Hs. destruct (IH _ Hs) as [H1 H2]. split; [done|].
  intros g [|h l1] l2 [= -> ->] Hg; [by apply H1|by apply (H2 g l1)].
Qed.
Lemma pfds_of_ok m l r : pfds_of m l = Done r → Forall2 (λ id f, m !! id = Some f) l r.
Proof.
  revert r. induction l as [|id l IH]; intros r; simpl; [intros [= <-]; constructor|]. destruct (m !! id) as [f|] eqn:Hf; [|done]. destruct (pfds_of m l) as [r'|]; [|done]. intros [= <-]. constructor; [done|by apply IH].
Qed.
(** When nothing was taken out of a page, the dirent that [dircache_hasoff] found
    has another one behind it. *)
Lemma rd_start_finds s p g ids base id f off :
  dinv s [] → d_pg s !! p = Some g → dcp_dents_off g = Some ids → pfds_of (d_pfd s) (take (length ids) (dcp_base g)) = Done base →
  off ≠ dcp_nextoff g → id ∈ ids → d_pfd s !! id = Some f → pfd_off f = off → rd_start off (dcp_off g) base = [] → (length ids < length (dcp_base g))%nat.
Proof.
  intros I Hg Hd Hb Hno Hi Hf Ho Hs. destruct (decide (length ids < length (dcp_base g))%nat) as [|Hlen]; [done|exfalso]. rewrite take_ge in Hb by lia. apply pfds_of_ok in Hb.
  destruct (go_dents _ _ _ (di_page _ _ I p g Hg) ids id Hd Hi) as [_ Hbase]. apply list_elem_of_lookup in Hbase as [j Hj]. destruct (Forall2_lookup_l _ _ _ _ _ Hb Hj) as (f' & Hj' & Hf'). assert (f' = f) as -> by congruence.
  assert (drop (S j) base = []) as Hl by (apply (proj2 (rd_start_nil _ _ _ Hs) f (take j base)); [by rewrite take_drop_middle|done]).
  assert (last (dcp_base g) = Some id) as Hlast.
  { rewrite last_lookup. replace (pred (length (dcp_base g))) with j; [done|]. apply (f_equal length) in Hl. rewrite length_drop in Hl. simpl in Hl. pose proof (Forall2_length _ _ _ Hb). apply lookup_lt_Some in Hj'. lia. }
  pose proof (go_next _ _ _ (di_page _ _ I p g Hg) id Hlast) as Hnx. rewrite Hf in Hnx. simpl in Hnx. congruence.
Qed.
Lemma rd_fit_split `{PflDyn} size len l : len ≤ size → ∃ post, l = rd_fit size len l ++ post ∧ len + dirents_size (rd_fit size len l) ≤ size ∧
  ∀ f post', post = f :: post' → size < len + dirents_size (rd_fit size len l ++ [f]).
Proof.
  revert len. induction l as [|f l IH]; intros len Hlen; simpl; [exists []; split_and!; [done|unfold dirents_size; simpl; lia|done]|].
  destruct (Z.ltb_spec size (PFL_DIRENT_SIZE (Z.of_nat (length (pfd_name f))) + len)) as [Hs|Hs].
  - exists (f :: l). split_and!; [done|unfold dirents_size; simpl; lia|]. intros g post' [= <- <-]. unfold dirents_size. simpl. lia.
  - destruct (IH (len + PFL_DIRENT_SIZE (Z.of_nat (length (pfd_name f))))) as (post & Hl & Hsz & Hn); [lia|]. exists post. split_and!; [by rewrite Hl at 1|unfold dirents_size in *; simpl; lia|].
    intros g post' Hp. specialize (Hn g post' Hp). unfold dirents_size in *. simpl. lia.
Qed.

(** ** Theorems *)
Section theorems.
Context `{PflDynLaws}.
Variables (fid gen mtim : Z) (Hfid : good_fid fid).

(** C19: The cache of names: in every run of calm steps (name operations, READDIRs
    and their replies, pages that expire, changes of the directory) each operation
    on a name finishes. A lookup gives the file ID that the cache has for the name
    or that it has none; what the cache has is what it was last told; insertion
    adds what is not there, clobbering overwrites, an update changes what is there
    and removal removes; other names stay. *)
Theorem namecache_latest s N now op n cfid :
  drun (dirc_init fid gen mtim) s N → (op = NcDelete → all_settled s n) →
  ∃ rc s', namecache_lookup now op n cfid s = Done (rc, s') ∧ rc = (match op with NcPeek => default FID_ANY (nc s n) | _ => FID_ANY end) ∧
    (∀ m i, nc s m = Some i → N m = Some i) ∧ ∀ m, nc s' m = nc_spec op n cfid (nc s) m.
Proof.
  intros Hr Hc. destruct (drun_inv _ _ _ _ _ Hfid Hr) as (I & F & HL). destruct (wp_run _ _ _ (wp_namecache s now op n cfid I F Hc)) as (rc & s' & Hs & _ & _ & Hrc & Hn). by exists rc, s'.
Qed.

(** C20: No step of the directory cache uses an entry, a dirent or a page that
    was freed, and no assertion fails: from every state of a run each calm
    step finishes, or has to wait. Calm ([dcalm]) are replies with distinct
    names, removals of entries whose page is registered, and [psc_realloc]
    that leaves the buffer of a page in place; [DirEx] has a run that faults
    without each of the last two. *)
Theorem dircache_no_fault s N l :
  drun (dirc_init fid gen mtim) s N → dcalm s l →
  dstep l s = Stuck WouldBlock ∨ ∃ s', dstep l s = Done (tt, s') ∧ drun (dirc_init fid gen mtim) s' (told s l N).
Proof.
  intros Hr Hc. destruct (drun_inv _ _ _ _ _ Hfid Hr) as (I & F & HL). pose proof (dstep_all s N l I F HL Hc) as Hw. unfold wpb in Hw.
  destruct (dstep l s) as [[[] s']|w] eqn:Hs; [right; exists s'; split; [done|by eapply drun_cons]|left; by destruct w].
Qed.

(** C21: What [readdir] answers in a run of calm steps. A reply has consecutive
    dirents of a loaded page, from the start of the page when the offset is the
    page's and else from the one behind a dirent with the offset; it ends where the
    buffer is full or the page ends, so that it is empty only when the first dirent
    does not fit or none follows. (When entries were removed from the page the walk
    of its buffer is too short and may end before the offset.) The offset to read
    ahead from is the next page's. The end of the directory is told at the end of a
    page with that flag; an error is not zero. *)
Theorem readdir_answers s N now off size retry r s' :
  drun (dirc_init fid gen mtim) s N → 0 ≤ size → mslfsop_readdir now off size retry s = Done (r, s') →
  match r with
  | RrReply d ra => ∃ p g ids base pre post, d_pg s' !! p = Some g ∧ dcp_rc g = 0 ∧ dcp_dents_off g = Some ids ∧ pfds_of (d_pfd s') (take (length ids) (dcp_base g)) = Done base ∧
      base = pre ++ d ++ post ∧
      ((off = dcp_off g ∧ pre = []) ∨ (∃ f, last pre = Some f ∧ pfd_off f = off ∧ d ++ post ≠ []) ∨ (d = [] ∧ post = [] ∧ (length ids < length (dcp_base g))%nat)) ∧
      dirents_size d ≤ size ∧ (∀ f post', post = f :: post' → size < dirents_size (d ++ [f])) ∧
      ra = (if hasf (dcp_flags g) DIRCACHEPGF_EOF then 0 else dcp_nextoff g)
  | RrEof => ∃ p g, d_pg s' !! p = Some g ∧ dcp_nextoff g = off ∧ hasf (dcp_flags g) DIRCACHEPGF_EOF = true
  | RrError rc => rc ≠ 0
  | RrIssue => True
  end.
Proof.
  intros Hr Hsz Hs. destruct (drun_inv _ _ _ _ _ Hfid Hr) as (I & _ & _). unfold mslfsop_readdir in Hs. destruct ((off <? 0) || (1024 * 1024 <? size)); [by injection Hs as <- <-|].
  assert (listed_ok s (d_pages s)) as Hl by (split; [apply I|]; intros p Hp; by apply (di_pages _ _ I)).
  pose proof (wpb_done _ _ _ _ _ Hs (wpb_readdir_scan now off size retry (d_pages s) s I Hl)) as (I' & _ & Hx). destruct r as [|rc|d ra|]; try done.
  destruct Hx as (p & g & ids & base & Hg & _ & Hrc & Hd & Hb & -> & Hra & Hoff). destruct (rd_start_split off (dcp_off g) base) as (pre & Hpre & Hcase).
  destruct (rd_fit_split size 0 (rd_start off (dcp_off g) base) Hsz) as (post & Hpost & Hfit & Hnext). exists p, g, ids, base, pre, post. rewrite <-Hpost. split_and!; try done.
  destruct (decide (rd_start off (dcp_off g) base = [])) as [He|He].
  - rewrite He in *. simpl in *. destruct Hoff as [->|(Hno & id & f & Hi & Hf & Ho)].
    + left. split; [done|]. pose proof (proj1 (rd_start_nil _ _ _ He) eq_refl) as Hbase. rewrite Hbase in Hpre. by destruct pre.
    + right. right. split_and!; [done|done|]. by apply (rd_start_finds s' p g ids base id f off).
  - destruct Hcase as [?|[[-> ->]|(f & Hf & Ho)]]; [done|by left|]. right. left. exists f. by split_and!.
Qed.

(** The end of a directory handle ([slc_fcmh_dtor]): when no READDIR is
    under way both purges finish without waiting, and no name, entry or page is
    left. *)
Theorem dir_end_clean s N :
  drun (dirc_init fid gen mtim) s N → d_rpcs s = ∅ →
  ∃ s', (_ ← namecache_purge; dircache_purge) s = Done (tt, s') ∧ d_hash s' = [] ∧ d_dce s' = ∅ ∧ d_ents s' = [] ∧ d_pages s' = [] ∧ d_pg s' = ∅.
Proof.
  intros Hr Hno. destruct (drun_inv _ _ _ _ _ Hfid Hr) as (I & _ & _). pose proof (dinv_purged s I) as I1.
  assert (listed_ok (purged s) (d_pages (purged s))) as Hl by (split; [apply I1|]; intros p Hp; by apply (di_pages _ _ I1)).
  destruct (wp_run _ _ _ (wp_purge_pages (d_pages (purged s)) (purged s) I1 Hl Hno)) as ([] & s' & Hs & I' & R' & E' & P'). exists s'.
  assert (d_pages s' = []) as Hp by (apply elem_of_nil_inv; intros p Hp; by destruct (P' p Hp)).
  assert (d_pg s' = ∅) as Hg. { apply map_eq. intros p. rewrite lookup_empty. apply eq_None_not_Some. intros Hx. apply (di_pages _ _ I') in Hx. rewrite Hp in Hx. by apply elem_of_nil in Hx. }
  assert (d_dce s' = ∅) as Hd.
  { apply map_eq. intros id. rewrite lookup_empty. destruct (d_dce s' !! id) as [[p|]|] eqn:Hid; [| |done].
    - destruct (di_own _ _ I' id p Hid) as [(g & l & Hx & _)|(l & b & (k & n & e & Hx) & _)]; [by rewrite Hg, lookup_empty in Hx|by rewrite R', lookup_empty in Hx].
    - apply (di_ents _ _ I') in Hid. rewrite E' in Hid. by apply elem_of_nil in Hid. }
  split_and!; try done.
  - apply wp_eq. unfold namecache_purge, dircache_purge. wp_step. wp_step. wp_step. wp_step. eapply wp_intro; [apply purge_ents_run|]. wp_step. wp_step. wp_step. eapply wp_intro; [exact Hs|]. done.
  - apply elem_of_nil_inv. intros id Hid. apply (di_in _ _ I') in Hid as [[o Hx] _]. by rewrite Hd, lookup_empty in Hx.
Qed.

(** A READDIR that cannot be sent never returns its error: the thread waits
    for the last reference to the new page, which is its own. *)
Theorem readdir_send_hangs s N now off wait rc :
  drun (dirc_init fid gen mtim) s N → rc ≠ 0 →
  msl_readdir_issue now off wait rc s = Stuck WouldBlock ∨ ∃ s', msl_readdir_issue now off wait rc s = Done (- ESRCH, s').
Proof.
  intros Hr Hrc. destruct (drun_inv _ _ _ _ _ Hfid Hr) as (I & _ & _). pose proof (wpb_issue now off wait rc s I) as Hw. unfold wpb in Hw.
  destruct (msl_readdir_issue now off wait rc s) as [[r s']|w]; [|left; by destruct w]. destruct Hw as (_ & _ & _ & [?| ->]); [done|right; by exists s'].
Qed.
End theorems.

(** ** Examples *)
Module DirEx.
Fixpoint below (k : Z) (l : list Z) : nat := match l with [] => 0%nat | x :: l => if x <? k then S (below k l) else 0%nat end.
#[global] Instance dyn : PflDyn := {|
  dyn_removeitem x l := filter (λ y, y ≠ x) l;
  dyn_bsearch := below;
  PFL_DIRENT_SIZE n := n + 24 |}.
#[global] Instance dyn_laws : PflDynLaws.
Proof.
  split; [done| |simpl; lia]. intros k l. induction 1 as [|x l Hl IH Hx]; [intros Hk; by apply elem_of_nil in Hk|]. simpl. intros [->|Hk]%elem_of_cons; [by rewrite Z.ltb_irrefl|].
  rewrite Forall_forall in Hx. specialize (Hx k Hk). rewrite (proj2 (Z.ltb_lt x k) Hx). simpl. by apply IH.
Qed.
Definition d0 : dirc := dirc_init 7 1 100.
Definition ent (n ino off : Z) : pscfs_dirent := {| pfd_name := [n]; pfd_ino := ino; pfd_off := off |}.
(** A name is inserted; a READDIR brings two entries; one is removed. *)
Definition load : list dlabel := [DName 5 NcInsert [65] 40; DIssue 6 0 true 0; DReg 7 2 [ent 65 41 10; ent 66 42 20] true; DRegEnd 8 2; DFinish 2 false].
Fixpoint drun_labels (ls : list dlabel) (s : dirc) (N : name → option Z) : option (dirc * (name → option Z)) :=
  match ls with
  | [] => Some (s, N)
  | l :: ls => match dstep l s with Done (_, s') => drun_labels ls s' (told s l N) | Stuck _ => None end
  end.
Definition settledb (s : dirc) (n : name) : bool :=
  forallb (λ id, match d_pfd s !! id, d_dce s !! id with
                 | Some f, Some (Some p) => negb (bool_decide (pfd_name f = n)) || match d_pg s !! p with Some g => bool_decide (is_Some (dcp_dents_off g)) | None => false end
                 | _, _ => true
                 end) (d_hash s).
Definition dcalmb (s : dirc) (l : dlabel) : bool :=
  match l with
  | DName _ NcDelete n _ => settledb s n
  | DReg _ _ ents _ => bool_decide (NoDup (pfd_name <$> ents)) && forallb (λ f, settledb s (pfd_name f)) ents
  | DFinish _ moved => negb moved
  | _ => true
  end.
Fixpoint calm_labels (ls : list dlabel) (s : dirc) : bool :=
  match ls with
  | [] => true
  | l :: ls => dcalmb s l && match dstep l s with Done (_, s') => calm_labels ls s' | Stuck _ => false end
  end.
Lemma settledb_ok s n : settledb s n = true → all_settled s n.
Proof.
  unfold settledb. rewrite forallb_elem_of. intros Hs id f Hi Hf Hn p Hp. specialize (Hs id Hi). rewrite Hf, Hp, bool_decide_eq_true_2 in Hs by done. simpl in Hs.
  destruct (d_pg s !! p) as [g|]; [|done]. apply bool_decide_eq_true in Hs as [l Hl]. by exists g, l.
Qed.
Lemma dcalmb_ok s l : dcalmb s l = true → dcalm s l.
Proof.
  destruct l as [now op n cfid| | |now k ents eof| |k moved| |]; simpl; try done; [destruct op; try done; apply settledb_ok| |by destruct moved]. intros [Hn Hs]%andb_prop. apply bool_decide_eq_true in Hn. split; [done|].
  rewrite forallb_elem_of in Hs. intros f Hf. by apply settledb_ok, Hs.
Qed.
Lemma calm_run s0 ls s N s' N' : calm_labels ls s = true → drun s0 s N → drun_labels ls s N = Some (s', N') → drun s0 s' N'.
Proof.
  revert s N. induction ls as [|l ls IH]; intros s N Hc Hr Hs; simpl in *; [by injection Hs as <- <-|]. apply andb_prop in Hc as [Hc1 Hc2]. destruct (dstep l s) as [[[] s1]|] eqn:Hl; [|done].
  eapply IH; [done| |done]. eapply drun_cons; [done|by apply dcalmb_ok|done].
Qed.
Definition after (ls : list dlabel) : dirc := match drun_labels ls d0 (λ _, None) with Some (s, _) => s | None => d0 end.
Definition facts (ls : list dlabel) : name → option Z := match drun_labels ls d0 (λ _, None) with Some (_, N) => N | None => λ _, None end.
Lemma after_run ls : calm_labels ls d0 && bool_decide (is_Some (drun_labels ls d0 (λ _, None))) = true → drun d0 (after ls) (facts ls).
Proof.
  intros [Hc [[s N] Hs]%bool_decide_eq_true]%andb_prop. unfold after, facts. rewrite Hs. eapply calm_run; [exact Hc|apply drun_nil|exact Hs].
Qed.
Lemma fid7 : good_fid 7.
Proof. right. by vm_compute. Qed.

Lemma namecache_latest_witness : ∃ rc s', namecache_lookup 9 NcDelete [66] 0 (after load) = Done (rc, s') ∧ nc s' [66] = None ∧ nc s' [65] = Some 41 ∧ facts load [65] = Some 41.
Proof.
  destruct (namecache_latest 7 1 100 fid7 (after load) (facts load) 9 NcDelete [66] 0) as (rc & s' & Hs & _ & HN & Hx); [by apply after_run; vm_compute|intros _; apply settledb_ok; by vm_compute|].
  exists rc, s'. split_and!; [done|rewrite Hx; by vm_compute|rewrite Hx; by vm_compute|apply HN; by vm_compute].
Defined.
Lemma dircache_no_fault_witness : dstep (DRead 9 0 100 false) (after load) = Stuck WouldBlock ∨ ∃ s', dstep (DRead 9 0 100 false) (after load) = Done (tt, s').
Proof.
  destruct (dircache_no_fault 7 1 100 fid7 (after load) (facts load) (DRead 9 0 100 false)) as [?|(s' & ? & _)]; [by apply after_run; vm_compute|done|by left|right; by exists s'].
Defined.
(** Both dirents, and with a small buffer the first. *)
Lemma readdir_answers_witness : ∃ p g ids base pre post, d_pg (after (load ++ [DRead 9 0 30 false])) !! p = Some g ∧ dcp_rc g = 0 ∧ dcp_dents_off g = Some ids ∧
  pfds_of (d_pfd (after (load ++ [DRead 9 0 30 false]))) (take (length ids) (dcp_base g)) = Done base ∧ base = pre ++ [ent 65 41 10] ++ post.
Proof.
  destruct (readdir_answers 7 1 100 fid7 (after load) (facts load) 9 0 30 false (RrReply [ent 65 41 10] 0) (after (load ++ [DRead 9 0 30 false]))) as (p & g & ids & base & pre & post & H1 & H2 & H3 & H4 & H5 & _);
    [by apply after_run; vm_compute|lia|by vm_compute|]. exists p, g, ids, base, pre, post. by split_and!.
Defined.
Lemma dir_end_clean_witness : d_hash (after load) ≠ [] ∧ ∃ s', (_ ← namecache_purge; dircache_purge) (after load) = Done (tt, s') ∧ d_hash s' = [] ∧ d_dce s' = ∅.
Proof.
  split; [by vm_compute|]. destruct (dir_end_clean 7 1 100 fid7 (after load) (facts load)) as (s' & Hs & ? & ? & _); [by apply after_run; vm_compute|by vm_compute|]. by exists s'.
Defined.
Lemma readdir_send_hangs_witness : msl_readdir_issue 9 0 true (- ETIMEDOUT) d0 = Stuck WouldBlock.
Proof.
  destruct (readdir_send_hangs 7 1 100 fid7 d0 (λ _, None) 9 0 true (- ETIMEDOUT)) as [?|(s' & Hs)]; [apply drun_nil|done|done|by vm_compute in Hs].
Defined.

(** An entry is removed while the page it came with is being registered: it is in
    the hash table, but its page has no array of entries yet. *)
Lemma remove_early_faults : ∃ s, dstep (DReg 7 1 [ent 65 41 10] true) (after [DIssue 6 0 true 0]) = Done (tt, s) ∧ dstep (DName 8 NcDelete [65] 0) s = Stuck NullDeref.
Proof. exists (after [DIssue 6 0 true 0; DReg 7 1 [ent 65 41 10] true]). by vm_compute. Qed.
(** An entry is removed from a page that is registered but still referenced by its
    READDIR: the page does not expire, the answer has the entry that was removed,
    and lacks the last one. *)
Lemma removed_still_listed : ∃ s s', s = after [DIssue 6 0 true 0; DReg 7 1 [ent 65 41 10; ent 66 42 20] true; DRegEnd 8 1; DName 9 NcDelete [65] 0] ∧ nc s [65] = None ∧
  mslfsop_readdir 10 0 1000 false s = Done (RrReply [ent 65 41 10] 0, s').
Proof.
  exists (after [DIssue 6 0 true 0; DReg 7 1 [ent 65 41 10; ent 66 42 20] true; DRegEnd 8 1; DName 9 NcDelete [65] 0]).
  exists (after [DIssue 6 0 true 0; DReg 7 1 [ent 65 41 10; ent 66 42 20] true; DRegEnd 8 1; DName 9 NcDelete [65] 0; DRead 10 0 1000 false]). by vm_compute.
Qed.
(** The buffer moves when it is cut to its size: the entries of the page point to
    memory that was freed, and the next lookup uses it. *)
Lemma realloc_move_faults : ∃ s, dstep (DFinish 1 true) (after [DIssue 6 0 true 0; DReg 7 1 [ent 65 41 10] true; DRegEnd 8 1]) = Done (tt, s) ∧ dstep (DName 9 NcPeek [65] 0) s = Stuck NullDeref.
Proof. exists (after [DIssue 6 0 true 0; DReg 7 1 [ent 65 41 10] true; DRegEnd 8 1; DFinish 1 true]). by vm_compute. Qed.
End DirEx.
